(* ===== verification/_CoqProject ===== *)
-Q . S2P
Prelude.v
Params.v
Machine.v
Spinlock.v
Sleeplock.v
Bio.v
BioRing.v
BioSpec.v
BioProps.v
Log.v
LogSpec.v
LogCommit.v
LogRecover.v
LogOps.v
LogProps.v
CString.v
Kalloc.v
KallocSpec.v
Vm.v
VmSpec.v
VmAlloc.v
VmProps.v
Ring.v
Pipe.v
Printf.v
Console.v
Kbd.v
Grep.v
Sh.v
ShProps.v
ShRun.v
Fs.v
FsBlocks.v
FsProps.v
FsInode.v
FsContent.v
FsWrite.v
FsFileProps.v
FsTrunc.v
FsDir.v
FsPath.v
FsDirProps.v
Mkfs.v
MkfsSpec.v
MkfsProps.v
Proc.v
ProcSpec.v
ProcInv.v
ProcProps.v
File.v
FileSpec.v
FileProps.v
Syscall.v
Sysfile.v
Exec.v
ExecProps.v
Sysproc.v
SysfileProps.v
Umalloc.v
UmallocFree.v
UmallocProps.v
Ide.v
IdeProps.v
SpinMulti.v
Trap.v
TrapProps.v
Mp.v
Lapic.v
Bootmain.v
Uprog.v
UprogProps.v
Boot.v
Cpus.v
Kdebug.v
CProg.v
Ufs.v
UfsProps.v
Web.v
WebProps.v
Wutils.v
