(* ===== verification/Prelude.v ===== *)
(** * A verification of xv6

    [src/projects/xv6] is xv6, a Unix-like teaching kernel for the x86 with its user
    programs.  This library is a shallow embedding of it: every C function below is a
    Rocq function of the same name, and the theorems are about those functions.  The C
    programs of [src/ostep-projects] that stand beside it (a web server with its client,
    the image maker of a distributed file system, small utilities) are modelled too.

    ** How the program is put together, and which file models what

    A process enters the kernel by a system call.  [syscall.c] fetches the arguments from
    its memory and calls [sysfile.c] or [sysproc.c]; these use the open files ([file.c]),
    pipes ([pipe.c]), the file system ([fs.c]) over the log ([log.c]) over the buffer
    cache ([bio.c]) over a disk, the processes ([proc.c]), page tables ([vm.c]) and the
    page allocator ([kalloc.c]).  Interrupts bring characters to the console
    ([console.c], [kbd.c]).  The shell ([sh.c]), [grep.c] and the user library run on top.

    - [Prelude]: machine integers at their width, byte arrays, little-endian numbers, the
      lemmas the components share.  [Params]: the constants of [param.h], [fs.h] and
      others.  [Machine]: the monad of kernel code.  [M S A] is a function of the
      processor ([cpu]) and of a component's state [S]; it returns, panics with the
      message the code prints, gives up the processor in [sleep], faults (an access
      outside an object) or runs out of fuel.  [wp] is its weakest precondition, total:
      code that faults, sleeps or hangs satisfies none.  [lift] runs a component inside
      a larger state.
    - [Spinlock], [Sleeplock]: [spinlock.c] and [sleeplock.c], with [sleep] and [wakeup] as
      other components see them: the class [Sleepers] says what they do to the processes
      asleep in a component, and [Ide] and [Pipe] have instances of it.  [SpinMulti]:
      [acquire] and [release] access by access on several processors with interrupts.
    - [Bio]: [bio.c] over the memory disk of [memide.c]; [BioRing] the LRU list, [BioSpec]
      the specification of each operation, [BioProps] the refinement theorem.
    - [Ide], [IdeProps]: the disk driver [ide.c] with the registers of an ATA controller
      and the processes asleep in [iderw].
    - [Log]: [log.c]; [LogSpec], [LogCommit], [LogRecover] and [LogOps] the on-disk log,
      commit, recovery and the calls of the file system; [LogProps] the theorems.
    - [CString]: [string.c] and the string functions of [ulib.c].
    - [Kalloc], [KallocSpec]: [kalloc.c].  [Vm], [VmSpec], [VmAlloc], [VmProps]: the page
      tables of [vm.c]; user memory as the processor's page walk sees it.
    - [Ring]: bounded buffers with counters that wrap, shared by [Pipe] and [Console].
      [Pipe]: [pipe.c], written over the interface [HasPipe], so that the same functions run
      on a pipe alone and in a system of any number of processes that write to it, read
      from it, sleep and are woken.
    - [Printf]: [printint] and the directives of [printf.c] and [cprintf].  [Console]:
      screen, line discipline, [consoleread] and [consolewrite].  [Kbd]: [kbd.c].
    - [Grep]: [grep.c].  [Sh], [ShProps], [ShRun]: [sh.c], its parser and [runcmd].
    - [Fs]: all of [fs.c]; [FsBlocks] and [FsProps] its block allocator and calls as
      transactions, [FsInode] the block tree of an inode and [bmap], [FsContent] the bytes
      of a file, [FsWrite] inodes on the disk and [writei], [FsFileProps] the theorems on
      reading and writing files, [FsDir] directories as lists of entries, [FsPath] the inode
      cache and path names, [FsDirProps] the theorems on directories and paths, [FsTrunc]
      freeing a file ([itrunc], [iput]).
    - [Mkfs]: [mkfs.c], the host program that makes the disk image; [MkfsSpec] the image
      under construction as a file system, [MkfsProps] the theorems.
    - [Proc]: [proc.c], over the interfaces [ProcMem] and [ProcFiles] that [Vm] and [File]
      implement; [ProcSpec] the effect of each function on the process table, [ProcInv]
      an abstract process table for several CPUs, whose steps are labelled with the system
      call and its result, and its invariants, [ProcProps] the refinement and the theorems.  [Cpus]: [mycpu], [myproc] and [forkret].
    - [Kdebug]: the diagnostics [panic], [getcallerpcs] and [procdump].
    - [File]: [file.c] and [pipealloc]; [FileSpec] its invariant, over the interface
      [PageLaws] that [KallocSpec] implements; [FileProps] the theorems.
    - [Syscall]: the argument functions of [syscall.c].  [Sysfile], [SysfileProps]:
      [sysfile.c].  [Exec], [ExecProps]: [exec.c] and [loaduvm].  [Sysproc]: [sysproc.c],
      the clock tick and the dispatch of [syscall].  [Trap], [TrapProps]: [trap.c], over
      the interface [Devices] of the drivers' interrupt handlers.
    - [Umalloc], [UmallocFree], [UmallocProps]: [umalloc.c], the allocator of user
      programs.  [Uprog]: the user programs and the main loop of the shell, as interaction
      trees over the system calls; [UprogProps] what they print.
    - [Bootmain]: [bootmain.c].  [Mp]: [mp.c].  [Lapic]: [lapic.c], [ioapic.c] and
      [picirq.c], the interrupt controllers and the real-time clock.  [Boot]: segments and
      the first page tables ([main.c], [vm.c]), the registers of the serial port
      ([uart.c]), and [startothers], as a step relation of the boot processor and those
      it starts.
    - Programs for a Unix host, over the monad of [CProg], whose outcomes are a result, an
      [exit], a failed [assert], undefined behaviour or an endless loop: [Ufs] and
      [UfsProps] ([filesystems-distributed-ufs/mkfs.c]), [Web] and [WebProps]
      ([concurrency-webserver]: [request.c], [io_helper.c], [wserver.c], [wclient.c]),
      [Wutils] ([wcat.c] twice, and [wgrep.c]).  The operating system is a parameter: the
      files, and what the calls return.

    State is a record per component, with the fields of the C structures; pointers into
    tables are indices, pages and pipes are known by their address, and null pointers
    are [None] (or 0 where the code does arithmetic on them).  Integers are [Z] with the
    wrap-around written out ([u8], [u16], [u32], [s16], [s32]).

    ** What the theorems show

    - Storage: a transaction is atomic under power failures at any block write and during
      recovery; recovery can be interrupted; the buffer cache behaves like the disk;
      block allocation and freeing change exactly what they should, on the disk; a write
      to a file is atomic too, changes the bytes it should and no other file, and a read
      returns the contents; so is adding a name to a directory, and path names lead where
      the directories on the disk say; the last reference to a file without links frees
      exactly its blocks and its inode; the first process recovers the log; the IDE driver serves
      requests in order, one at a time, forgets none and loses no wakeup, whatever errors
      the drive reports; the image [mkfs] makes has the empty log, the layout and the
      files these theorems start from, so that a file is read back from host to kernel.
    - Memory: no page is allocated twice; [allocuvm], [deallocuvm] and [copyout] change
      exactly the mappings and bytes they should, and failures roll back; the stack
      [exec] builds; the bounds of system call arguments; [malloc] and [free] return, and
      the areas a program holds never overlap, for requests below 2 GB.
    - Processes: on any number of CPUs a process runs on at most one, pids are unique, an
      exited process always has a living parent that is awake and whose [wait] reaps it or
      an exited sibling before it, and every run of the code is a run of the abstract table
      with the same system calls and results; spin locks exclude each other access by access, with interrupts
      off; a clock interrupt takes the processor away, a killed process does not get back
      to user space, and user programs enter the kernel by the system call gate only.
    - Files and pipes: reference counts are exact and pipes live as long as their ends are
      held; pipes are first-in first-out and lose no wakeups, for any number of readers
      and writers; descriptors agree with the
      file table; [sleep] lasts as long as it should.
    - Console, keyboard, shell, [grep], [printf]: the line discipline, the screen, the
      parser (it terminates, and inverts printing), the wiring of pipelines, the language
      of the matcher, numbers printed and read back; what [cat], [wc], [echo] and [grep]
      print, however their input is cut into reads.
    - Machine: the boot loader puts the segments of the kernel where they belong when none
      shares a sector with the one before, the
      processors of the BIOS tables are found and all come up, each on a stack of its own;
      interrupts are routed as requested, the time read from the clock is one that it
      showed; a panic is reported whatever locks are held, and stops the others.
    - Other programs: the web server answers every complete request whose words fit its
      buffers as the request line says, its answers read back by a parser of responses, and
      the client prints the page it is given, line by line; the image maker lays out the
      regions one behind the other and reports every failure; [wcat] and [wgrep] print
      what they should.
    - Theorems about error paths state where the code goes wrong: the log reservation,
      [uva2ka], [kill] of pid 0, the killed writer of a pipe, [grep] on split lines, [>>]
      of the shell, the user [memmove], the size [mkfs] gives the root directory, read
      errors of the disk, the biggest requests of [malloc], unknown entries of the BIOS
      table, segments that share a sector with the one before; clients of the web server that
      close early, long request lines, empty files and empty lines; too many inodes.
      The theorem on the log reservation is about every disk with a log area of at most
      [LOGSIZE] blocks; one block more would be enough ([reservation_fits]).

    ** Choices and bounds

    A function whose loop is not structural takes fuel, chosen where it is called from the
    sizes at hand (a loop over a byte range gets one more turn than the range has steps);
    running out of it is the outcome [Hang], which [wp] excludes, and the theorems that an
    operation returns show that the fuel is enough.  Critical sections are atomic: what a
    lock protects between [acquire] and [release] is one step of the multiprocessor
    models of [Pipe], [IdeProps] and [ProcInv].  An operation that sleeps stops there ([Sleep]); a
    woken thread continues with the rest of its loop as a new step.  [pids_unique] holds
    up to 2^31 - 3 steps, when [nextpid] would overflow.  A write is followed up to the
    1536 bytes [filewrite] gives [writei] in one transaction; 26 log blocks are enough for
    the blocks, map blocks and the inode it can touch, and [mkfs] reserves 30.  Freeing a
    file is followed for free maps whose blocks fit into the log with the inode.  The
    searches of [malloc] and [free] get fuel from the number of headers in memory, which
    bounds the length of the free list.  The status register of the disk is a list of the
    values it will show; a drive that never becomes ready makes the driver hang.  The
    theorems on the driver are for drives that become ready when polled and interrupt for
    the first request of the queue only when it is finished, or when the queue is empty; a
    command may fail at any time.  [malloc] is followed for requests of up to 2^31 - 32
    bytes, above which its arithmetic overflows.  User
    programs need no fuel: their loops are those of interaction trees, and the theorems say
    that they end.  The loops of the web server get fuel as an argument; the theorems hold
    from the number of header lines on, and the one about a client that closes early for
    any fuel.

    ** Not modelled

    Assembly (of [entryother.S] only what it reads of the words [startothers] writes; that
    its code has been copied and that the start interrupt arrives is taken for granted), the
    order in which [main] calls the initialisation functions, and the test programs
    ([usertests.c] and others); the console messages of [exec], [trap], [syscall] and
    [iinit]; the shell's constructors when [malloc] fails.  A CGI program is known by its
    output.  [client_send] of the web client formats a buffer into itself, which C leaves
    undefined, and so does the model.  Header files that only declare functions have nothing to model.  The
    compilers in Zig, the Rust skeleton and the exercises of a few lines are not C programs
    with state of their own; [spin.c] computes with floating point numbers. *)
From stdpp Require Import base list numbers strings gmap.
From Stdlib Require Import ZArith Lia Ascii.
From Stdlib Require String.

Local Open Scope Z_scope.

(** The bytes of a literal. *)
Definition bytes_of (s : string) : list Z := (λ c, Z.of_N (N_of_ascii c)) <$> String.list_ascii_of_string s.

Lemma bytes_of_range s : Forall (λ c, 0 <= c < 256) (bytes_of s).
Proof.
  apply Forall_fmap, Forall_true. intros c. cbn. pose proof (N_ascii_bounded c). lia.
Qed.

(** * Machine integers *)

(** Wrap-around to the widths of [types.h] (and of C's [int] and [short]). *)
Definition u8 (x : Z) : Z := x mod 2 ^ 8.
Definition u16 (x : Z) : Z := x mod 2 ^ 16.
Definition u32 (x : Z) : Z := x mod 2 ^ 32.
Definition s16 (x : Z) : Z := (x + 2 ^ 15) mod 2 ^ 16 - 2 ^ 15.
Definition s32 (x : Z) : Z := (x + 2 ^ 31) mod 2 ^ 32 - 2 ^ 31.

(** * Byte arrays *)

(** [n] bytes of [x], least significant first: how the x86 stores an integer. *)
Fixpoint le_bytes (n : nat) (x : Z) : list Z :=
  match n with
  | O => []
  | S n' => x mod 256 :: le_bytes n' (x / 256)
  end.

Fixpoint le_val (l : list Z) : Z :=
  match l with
  | [] => 0
  | b :: l' => b + 256 * le_val l'
  end.

(** The [n] elements of [l] from index [off] on. *)
Definition slice {A} (off n : nat) (l : list A) : list A := take n (drop off l).

(** [l] with the elements from index [off] on overwritten by [new]. *)
Definition splice {A} (off : nat) (new l : list A) : list A :=
  take off l ++ new ++ drop (off + length new) l.

(** An [n]-byte little-endian load from, and store to, a byte array. *)
Definition rd (n off : nat) (l : list Z) : Z := le_val (slice off n l).
Definition wr (n off : nat) (x : Z) (l : list Z) : list Z := splice off (le_bytes n x) l.

Definition byte_range (x : Z) : Prop := 0 <= x < 256.

(** * Lemmas on integers *)

Lemma u32_small x : 0 <= x < 2 ^ 32 → u32 x = x.
Proof. apply Z.mod_small. Qed.

Lemma u8_small x : 0 <= x < 2 ^ 8 → u8 x = x.
Proof. apply Z.mod_small. Qed.

Lemma u32_range x : 0 <= u32 x < 2 ^ 32.
Proof. apply Z.mod_pos_bound; lia. Qed.

Lemma s32_small x : - 2 ^ 31 <= x < 2 ^ 31 → s32 x = x.
Proof. intros. unfold s32. rewrite Z.mod_small by lia. lia. Qed.

Lemma s16_small x : - 2 ^ 15 <= x < 2 ^ 15 → s16 x = x.
Proof. intros. unfold s16. rewrite Z.mod_small by lia. lia. Qed.

Lemma length_le_bytes n x : length (le_bytes n x) = n.
Proof. revert x; induction n; intros; simpl; auto. Qed.

Lemma le_bytes_range n x : Forall byte_range (le_bytes n x).
Proof.
  revert x; induction n; intros; simpl; constructor; auto.
  apply Z.mod_pos_bound; lia.
Qed.

Lemma le_val_bytes n x : le_val (le_bytes n x) = x mod 2 ^ (8 * Z.of_nat n).
Proof.
  revert x; induction n as [|n IH]; intros x.
  - simpl. by rewrite Z.mod_1_r.
  - cbn [le_bytes le_val]. rewrite IH.
    replace (8 * Z.of_nat (S n)) with (8 + 8 * Z.of_nat n) by lia.
    rewrite Z.pow_add_r by lia. change (2 ^ 8) with 256.
    rewrite Z.rem_mul_r by lia. lia.
Qed.

Lemma le_val_range l :
  Forall byte_range l → 0 <= le_val l < 2 ^ (8 * Z.of_nat (length l)).
Proof.
  induction 1 as [|b l Hb _ IH]; [simpl; lia|].
  cbn [le_val length]. unfold byte_range in Hb.
  replace (8 * Z.of_nat (S (length l))) with (8 + 8 * Z.of_nat (length l)) by lia.
  rewrite Z.pow_add_r by lia. change (2 ^ 8) with 256. lia.
Qed.

Lemma le_bytes_val l : Forall byte_range l → le_bytes (length l) (le_val l) = l.
Proof.
  induction 1 as [|b l Hb _ IH]; [done|].
  cbn [length le_bytes le_val]. unfold byte_range in Hb.
  rewrite (Z.mul_comm 256), Z.mod_add, Z.mod_small, Z.div_add, Z.div_small by lia.
  by rewrite Z.add_0_l, IH.
Qed.

(** * Lemmas on slices *)

Section slices.
Context {A : Type}.
Implicit Types l new : list A.

Lemma length_slice off n l : (off + n <= length l)%nat → length (slice off n l) = n.
Proof. intros. unfold slice. rewrite length_take, length_drop. lia. Qed.

Lemma lookup_slice off n l i : (i < n)%nat → slice off n l !! i = l !! (off + i)%nat.
Proof. intros. unfold slice. by rewrite lookup_take_lt, lookup_drop. Qed.

Lemma length_splice off new l :
  (off + length new <= length l)%nat → length (splice off new l) = length l.
Proof.
  intros. unfold splice. rewrite !length_app, length_take, length_drop. lia.
Qed.

Lemma lookup_splice_in off new l i :
  (off <= i < off + length new)%nat → (off + length new <= length l)%nat →
  splice off new l !! i = new !! (i - off)%nat.
Proof.
  intros. unfold splice. rewrite lookup_app_r by (rewrite length_take; lia).
  rewrite length_take. replace (off `min` length l)%nat with off by lia.
  rewrite lookup_app_l by lia. done.
Qed.

Lemma lookup_splice_out off new l i :
  (i < off ∨ off + length new <= i)%nat → (off + length new <= length l)%nat →
  splice off new l !! i = l !! i.
Proof.
  intros [H|H] ?; unfold splice.
  - rewrite lookup_app_l by (rewrite length_take; lia). by apply lookup_take_lt.
  - rewrite lookup_app_r by (rewrite length_take; lia).
    rewrite lookup_app_r by (rewrite length_take; lia).
    rewrite lookup_drop, length_take. f_equal. lia.
Qed.

Lemma slice_splice_same off new l :
  (off + length new <= length l)%nat → slice off (length new) (splice off new l) = new.
Proof.
  intros. apply list_eq. intros i. destruct (decide (i < length new)%nat).
  - rewrite lookup_slice, lookup_splice_in by lia. f_equal. lia.
  - rewrite !lookup_ge_None_2; auto; [lia|].
    rewrite length_slice; [lia|]. rewrite length_splice; lia.
Qed.

Lemma slice_splice_other off n off' new l :
  (off + n <= off' ∨ off' + length new <= off)%nat →
  (off' + length new <= length l)%nat →
  slice off n (splice off' new l) = slice off n l.
Proof.
  intros. apply list_eq. intros i. destruct (decide (i < n)%nat).
  - rewrite !lookup_slice by lia. apply lookup_splice_out; lia.
  - unfold slice. rewrite !lookup_take_ge by lia. done.
Qed.

Lemma slice_all l : slice 0 (length l) l = l.
Proof. unfold slice. rewrite drop_0. by apply take_ge. Qed.

Lemma splice_all new l : length new = length l → splice 0 new l = new.
Proof.
  intros H. unfold splice. rewrite take_0, drop_ge by lia. by rewrite app_nil_r.
Qed.

Lemma splice_nil off l : splice off [] l = l.
Proof. unfold splice. simpl. rewrite Nat.add_0_r. apply take_drop. Qed.

Lemma lookup_slice_if off n l i :
  slice off n l !! i = if decide (i < n)%nat then l !! (off + i)%nat else None.
Proof.
  case_decide; [by apply lookup_slice|]. unfold slice. apply lookup_take_ge. lia.
Qed.

Lemma lookup_splice off new l i :
  (off + length new <= length l)%nat →
  splice off new l !! i =
  if decide (off <= i < off + length new)%nat then new !! (i - off)%nat else l !! i.
Proof.
  intros H. case_decide; [by apply lookup_splice_in|]. apply lookup_splice_out; [lia|done].
Qed.

Lemma insert_splice off x new l :
  (off + S (length new) <= length l)%nat →
  splice (S off) new (<[off := x]> l) = splice off (x :: new) l.
Proof.
  intros H. apply list_eq. intros i.
  rewrite !lookup_splice by (cbn; rewrite ?length_insert; lia). cbn [length].
  destruct (decide (i = off)) as [->|Hne].
  - rewrite decide_False, decide_True by lia. rewrite Nat.sub_diag, list_lookup_insert_eq by lia. done.
  - rewrite list_lookup_insert_ne by done. destruct (decide (S off <= i < S off + length new)%nat).
    + rewrite decide_True by lia. by replace (i - off)%nat with (S (i - S off)) by lia.
    + by rewrite decide_False by lia.
Qed.

Lemma slice_S off n l x :
  l !! off = Some x → slice off (S n) l = x :: slice (S off) n l.
Proof. intros H. unfold slice. by rewrite (drop_S _ _ _ H). Qed.

Lemma slice_app off n k l :
  (off + n <= length l)%nat → slice off (n + k) l = slice off n l ++ slice (off + n) k l.
Proof. intros H. unfold slice. by rewrite <- take_take_drop, drop_drop. Qed.
End slices.

Lemma rd_wr_same n off x l :
  (off + n <= length l)%nat → rd n off (wr n off x l) = x mod 2 ^ (8 * Z.of_nat n).
Proof.
  intros. unfold rd, wr. rewrite <- (length_le_bytes n x) at 1.
  rewrite slice_splice_same by (rewrite length_le_bytes; lia). apply le_val_bytes.
Qed.

Lemma rd_wr_other n off n' off' x l :
  (off + n <= off' ∨ off' + n' <= off)%nat → (off' + n' <= length l)%nat →
  rd n off (wr n' off' x l) = rd n off l.
Proof.
  intros. unfold rd, wr. rewrite slice_splice_other; rewrite ?length_le_bytes; auto.
Qed.

Lemma length_wr n off x l : (off + n <= length l)%nat → length (wr n off x l) = length l.
Proof. intros. apply length_splice. rewrite length_le_bytes. lia. Qed.

(** * Arrays of words *)

Lemma length_addr_bytes l : length (l ≫= le_bytes 4) = (4 * length l)%nat.
Proof. induction l as [|x l IH]; [done|]. rewrite bind_cons, length_app, length_le_bytes, IH. cbn [length]. lia. Qed.

Lemma rd_app_l n (x : Z) l : rd n 0 (le_bytes n x ++ l) = x mod 2 ^ (8 * Z.of_nat n).
Proof.
  unfold rd, slice. rewrite drop_0. rewrite take_app_length' by (by rewrite length_le_bytes). apply le_val_bytes.
Qed.
Lemma rd_app_r n off (l1 l2 : list Z) : (length l1 <= off)%nat → rd n off (l1 ++ l2) = rd n (off - length l1) l2.
Proof. intros H. unfold rd, slice. rewrite drop_app, (drop_ge l1) by lia. done. Qed.

Lemma rd_words l k x : l !! k = Some x → rd 4 (4 * k) (l ≫= le_bytes 4) = u32 x.
Proof.
  revert k. induction l as [|y l IH]; intros k Hk; [done|]. rewrite bind_cons. destruct k as [|k].
  - injection Hk as ->. apply rd_app_l.
  - rewrite rd_app_r by (rewrite length_le_bytes; lia). rewrite length_le_bytes.
    replace (4 * S k - 4)%nat with (4 * k)%nat by lia. by apply IH.
Qed.

Lemma rd_addrs l k x : l !! k = Some x → 0 <= x < 2 ^ 32 → rd 4 (4 * k) (l ≫= le_bytes 4) = x.
Proof. intros Hk Hx. rewrite (rd_words _ _ _ Hk). by apply u32_small. Qed.

(** * Searching a list *)

Lemma find_app {A} (p : A → bool) l1 l2 :
  List.find p (l1 ++ l2) = match List.find p l1 with Some x => Some x | None => List.find p l2 end.
Proof. induction l1 as [|x l1 IH]; cbn; [done|]. by destruct (p x). Qed.
