(* ===== verification/Params.v ===== *)
(** The compile-time constants of the kernel ([param.h], [fs.h], [buf.h], [stat.h]). *)
From stdpp Require Import base numbers.
From Stdlib Require Import ZArith Lia.
Local Open Scope Z_scope.

(** param.h *)
Definition NPROC : Z := 64.
Definition KSTACKSIZE : Z := 4096.
Definition NCPU : Z := 8.
Definition NOFILE : Z := 16.
Definition NFILE : Z := 100.
Definition NINODE : Z := 50.
Definition NDEV : Z := 10.
Definition ROOTDEV : Z := 1.
Definition MAXARG : Z := 32.
Definition MAXOPBLOCKS : Z := 10.
Definition LOGSIZE : Z := MAXOPBLOCKS * 3.
Definition NBUF : Z := MAXOPBLOCKS * 3.
Definition FSSIZE : Z := 1000.

(** fs.h *)
Definition ROOTINO : Z := 1.
Definition BSIZE : Z := 512.
Definition NDIRECT : Z := 12.
Definition NINDIRECT : Z := BSIZE / 4.
Definition MAXFILE : Z := NDIRECT + NINDIRECT.
Definition IPB : Z := BSIZE / 64.
Definition BPB : Z := BSIZE * 8.
Definition DIRSIZ : Z := 14.

(** stat.h *)
Definition T_DIR : Z := 1.
Definition T_FILE : Z := 2.
Definition T_DEV : Z := 3.

(** buf.h *)
Definition B_VALID : Z := 2.
Definition B_DIRTY : Z := 4.

(** Array sizes as list lengths. *)
Abbreviation nbuf := (Z.to_nat NBUF).
Abbreviation bsize := (Z.to_nat BSIZE).
Abbreviation logsize := (Z.to_nat LOGSIZE).

(** Put the array sizes as numerals, for [lia]. *)
Ltac sizes :=
  change (Z.to_nat BSIZE) with 512%nat in *;
  change (Z.to_nat LOGSIZE) with 30%nat in *;
  change (Z.to_nat NBUF) with 30%nat in *.
