(* ===== verification/Machine.v ===== *)
(** The execution model shared by the kernel components: the processor a kernel
    thread runs on, the outcomes of a piece of kernel code, the monad the C
    functions are translated to, and the weakest-precondition calculus their
    specifications are written in.

    A kernel function with result type [A] over a component's state [S] is a term
    of [M S A]: it runs on a processor state and a component state, and
    - returns a value ([Ret]),
    - calls [panic] ([Panic], with the message of the source),
    - gives up the processor in [sleep] ([Sleep], with the wait channel and the
      state the sleeper leaves behind),
    - has undefined behaviour, an access outside an object ([Fault]), or
    - runs out of the fuel that bounds an unstructured loop ([Hang]). *)
From stdpp Require Import base list numbers strings gmap.
From Stdlib Require Import ZArith Lia.
From S2P Require Import Prelude.
Local Open Scope Z_scope.

(** The spin locks of the kernel.  [LkBuf i] and [LkInode i] are the inner locks
    [lk] of the sleep locks of buffer [i] and cached inode [i]. *)
Inductive lockid :=
| LkPtable | LkBcache | LkIde | LkLog | LkIcache | LkFtable | LkKmem | LkCons | LkTicks
| LkPipe (p : Z) | LkBuf (i : nat) | LkInode (i : nat).

#[global] Instance lockid_eq_dec : EqDecision lockid.
Proof. solve_decision. Defined.

(** The wait channels passed to [sleep] and [wakeup]: addresses of kernel objects. *)
Inductive chan :=
| ChProc (p : nat) | ChLog | ChTicks | ChInput | ChBufData (i : nat)
| ChBuf (i : nat) | ChInode (i : nat) | ChPipeR (p : Z) | ChPipeW (p : Z).

#[global] Instance chan_eq_dec : EqDecision chan.
Proof. solve_decision. Defined.

(** The part of [struct cpu] (and of the processor) a kernel thread can see: the
    pid of the process it runs for, the interrupt flag of [eflags], the fields
    [ncli] and [intena], and the spin locks whose [cpu] field is this processor. *)
Record cpu := Cpu {
  cpu_pid : Z;
  cpu_if : bool;
  cpu_ncli : Z;
  cpu_intena : bool;
  cpu_held : list lockid;
}.

(** A process running in the kernel with interrupts on and no spin lock held. *)
Definition cpu0 (pid : Z) : cpu := Cpu pid true 0 true [].

Inductive out (S A : Type) :=
| Ret (a : A) (c : cpu) (s : S)
| Panic (msg : string)
| Sleep (ch : chan) (c : cpu) (s : S)
| Fault
| Hang.
Arguments Ret {S A} a c s.
Arguments Panic {S A} msg.
Arguments Sleep {S A} ch c s.
Arguments Fault {S A}.
Arguments Hang {S A}.

Definition M (S A : Type) : Type := cpu → S → out S A.

Section monad.
Context {S : Type}.

Definition ret {A} (a : A) : M S A := λ c s, Ret a c s.

Definition bind {A B} (m : M S A) (f : A → M S B) : M S B := λ c s,
  match m c s with
  | Ret a c' s' => f a c' s'
  | Panic msg => Panic msg
  | Sleep ch c' s' => Sleep ch c' s'
  | Fault => Fault
  | Hang => Hang
  end.

Definition panic {A} (msg : string) : M S A := λ _ _, Panic msg.
Definition fault {A} : M S A := λ _ _, Fault.
Definition hang {A} : M S A := λ _ _, Hang.

Definition get : M S S := λ c s, Ret s c s.
Definition gets {A} (f : S → A) : M S A := λ c s, Ret (f s) c s.
Definition modify (f : S → S) : M S unit := λ c s, Ret tt c (f s).
Definition getcpu : M S cpu := λ c s, Ret c c s.
Definition setcpu (f : cpu → cpu) : M S unit := λ c s, Ret tt (f c) s.

(** [when b m]: an [if] without [else]. *)
Definition when (b : bool) (m : M S unit) : M S unit := if b then m else ret tt.

(** An object access that is undefined behaviour when the index is outside. *)
Definition deref {A} (o : option A) : M S A :=
  match o with Some a => ret a | None => fault end.

(** [for (x in l) f(x)], in order. *)
Fixpoint for_each {A} (l : list A) (f : A → M S unit) : M S unit :=
  match l with
  | [] => ret tt
  | x :: l' => bind (f x) (λ _, for_each l' f)
  end.
End monad.

Declare Scope xv6_scope.
Delimit Scope xv6_scope with xv6.
Notation "x <- m ;; k" := (bind m (λ x, k))
  (at level 100, m at next level, right associativity) : xv6_scope.
Notation "m ;; k" := (bind m (λ _, k))
  (at level 100, right associativity) : xv6_scope.

(** Running a component's operation inside a larger state: [g] is the field of
    the larger state, [p] stores it back. *)
Definition lift {S T A} (g : T → S) (p : S → T → T) (m : M S A) : M T A := λ c t,
  match m c (g t) with
  | Ret a c' s' => Ret a c' (p s' t)
  | Panic msg => Panic msg
  | Sleep ch c' s' => Sleep ch c' (p s' t)
  | Fault => Fault
  | Hang => Hang
  end.

(** * Weakest preconditions

    [wp E m c s Q]: from [c] and [s], [m] returns with [Q] or panics with a message
    that [E] allows; it does not sleep, does not fault and does not run out of fuel.
    [runs] is total correctness: no panic either. *)
Definition wp {S A} (E : string → Prop) (m : M S A) (c : cpu) (s : S)
    (Q : A → cpu → S → Prop) : Prop :=
  match m c s with
  | Ret a c' s' => Q a c' s'
  | Panic msg => E msg
  | Sleep _ _ _ => False
  | Fault => False
  | Hang => False
  end.

Definition no_panic : string → Prop := λ _, False.
Abbreviation runs := (wp no_panic).

Section wp.
Context {S : Type}.
Implicit Types E : string → Prop.

Lemma wp_ret {A} E (a : A) c (s : S) Q : Q a c s → wp E (ret a) c s Q.
Proof. done. Qed.

Lemma wp_bind {A B} E (m : M S A) (f : A → M S B) c s Q :
  wp E m c s (λ a c' s', wp E (f a) c' s' Q) → wp E (bind m f) c s Q.
Proof. unfold wp, bind. by destruct (m c s). Qed.

Lemma wp_mono {A} E (m : M S A) c s (Q Q' : A → cpu → S → Prop) :
  wp E m c s Q → (∀ a c' s', Q a c' s' → Q' a c' s') → wp E m c s Q'.
Proof. unfold wp. destruct (m c s); auto. Qed.

Lemma wp_weaken {A} E E' (m : M S A) c s Q :
  wp E m c s Q → (∀ msg, E msg → E' msg) → wp E' m c s Q.
Proof. unfold wp. destruct (m c s); auto. Qed.

Lemma wp_runs {A} E (m : M S A) c s Q : runs m c s Q → wp E m c s Q.
Proof. intros. eapply wp_weaken; [done|]. by intros. Qed.

Lemma wp_conj {A} E (m : M S A) c s Q1 Q2 :
  wp E m c s Q1 → wp E m c s Q2 → wp E m c s (λ a c' s', Q1 a c' s' ∧ Q2 a c' s').
Proof. unfold wp. destruct (m c s); auto. Qed.

Lemma wp_get E c (s : S) Q : Q s c s → wp E get c s Q.
Proof. done. Qed.
Lemma wp_gets {A} E (f : S → A) c s Q : Q (f s) c s → wp E (gets f) c s Q.
Proof. done. Qed.
Lemma wp_modify E (f : S → S) c s Q : Q tt c (f s) → wp E (modify f) c s Q.
Proof. done. Qed.
Lemma wp_getcpu E c (s : S) Q : Q c c s → wp E getcpu c s Q.
Proof. done. Qed.
Lemma wp_setcpu E f c (s : S) Q : Q tt (f c) s → wp E (setcpu f) c s Q.
Proof. done. Qed.
Lemma wp_deref {A} E (o : option A) x c (s : S) Q :
  o = Some x → Q x c s → wp E (deref o) c s Q.
Proof. by intros ->. Qed.
Lemma wp_panic {A} E msg c (s : S) (Q : A → _) : E msg → wp E (panic msg) c s Q.
Proof. done. Qed.

Lemma wp_when E (b : bool) m c (s : S) Q :
  (b = true → wp E m c s Q) → (b = false → Q tt c s) → wp E (when b m) c s Q.
Proof. destruct b; intros H1 H2; [by apply H1|by apply H2]. Qed.

(** A returning run, as an equation. *)
Lemma runs_eq {A} (m : M S A) c s Q :
  runs m c s Q → ∃ a c' s', m c s = Ret a c' s' ∧ Q a c' s'.
Proof. unfold wp. destruct (m c s); eauto 10; done. Qed.

(** Any run, as an equation. *)
Lemma wp_eq {A} E (m : M S A) c s Q :
  wp E m c s Q → (∃ a c' s', m c s = Ret a c' s' ∧ Q a c' s') ∨ (∃ msg, m c s = Panic msg ∧ E msg).
Proof. unfold wp. destruct (m c s); eauto 10; done. Qed.

Lemma eq_wp {A} E (m : M S A) c s a c' s' (Q : A → _) :
  m c s = Ret a c' s' → Q a c' s' → wp E m c s Q.
Proof. unfold wp. by intros ->. Qed.

Lemma bind_eq {A B} (m : M S A) (f : A → M S B) c s a c' s' :
  m c s = Ret a c' s' → bind m f c s = f a c' s'.
Proof. unfold bind. by intros ->. Qed.
End wp.

Lemma wp_lift {S T A} E (g : T → S) (p : S → T → T) (m : M S A) c t Q :
  wp E m c (g t) (λ a c' s', Q a c' (p s' t)) → wp E (lift g p m) c t Q.
Proof. unfold wp, lift. by destruct (m c (g t)). Qed.

(** [for_each] by a loop invariant indexed by the elements already visited. *)
Lemma wp_for_each {S A} E (l : list A) (f : A → M S unit) (I : list A → S → Prop) c s Q :
  I [] s →
  (∀ done x rest s', l = done ++ x :: rest → I done s' →
     wp E (f x) c s' (λ _ c' s'', c' = c ∧ I (done ++ [x]) s'')) →
  (∀ s', I l s' → Q tt c s') →
  wp E (for_each l f) c s Q.
Proof.
  intros H0 Hstep HQ.
  enough (∀ done rest s, l = done ++ rest → I done s → wp E (for_each rest f) c s Q) as H
    by (by apply (H [] l)).
  clear s H0. intros done rest. revert done. induction rest as [|x rest IH]; intros done s Hl Hs.
  - apply wp_ret, HQ. rewrite app_nil_r in Hl. by subst.
  - simpl. apply wp_bind. eapply wp_mono; [by eapply Hstep|].
    intros _ c' s' [-> HI]. apply (IH (done ++ [x])); [|done].
    by rewrite <- app_assoc.
Qed.

Create HintDb kernel.
#[export] Hint Resolve wp_ret wp_get wp_gets wp_modify : kernel.

(** Take the next sequencing step of a [wp] goal. *)
Ltac wp_bind := apply wp_bind.
(** Run the elementary monadic actions at the head of the goal. *)
Ltac wp_pure :=
  repeat first
    [ apply wp_bind
    | apply wp_get; cbv beta | apply wp_gets; cbv beta
    | apply wp_modify; cbv beta | apply wp_getcpu; cbv beta
    | apply wp_setcpu; cbv beta ].
(** Use a specification of the action at the head of the goal. *)
Ltac wp_use lem := eapply wp_mono; [eapply lem|cbv beta].
