(* ===== verification/Spinlock.v ===== *)
(** Spin locks and interrupt nesting ([spinlock.c]). *)
From stdpp Require Import base list numbers strings sets.
From Stdlib Require Import ZArith Lia.
From S2P Require Import Prelude Machine.
Local Open Scope Z_scope.
Local Open Scope xv6_scope.

Section ops.
Context {S : Type}.

(** [cli] / [sti] of x86.h. *)
Definition set_if (b : bool) : M S unit :=
  setcpu (λ c, Cpu (cpu_pid c) b (cpu_ncli c) (cpu_intena c) (cpu_held c)).
Definition set_ncli (n : Z) : M S unit :=
  setcpu (λ c, Cpu (cpu_pid c) (cpu_if c) n (cpu_intena c) (cpu_held c)).
Definition set_intena (b : bool) : M S unit :=
  setcpu (λ c, Cpu (cpu_pid c) (cpu_if c) (cpu_ncli c) b (cpu_held c)).
Definition set_held (l : list lockid) : M S unit :=
  setcpu (λ c, Cpu (cpu_pid c) (cpu_if c) (cpu_ncli c) (cpu_intena c) l).

Definition pushcli : M S unit :=
  c <- getcpu ;;
  let eflags := cpu_if c in
  set_if false ;;
  when (cpu_ncli c =? 0) (set_intena eflags) ;;
  set_ncli (cpu_ncli c + 1).

Definition popcli : M S unit :=
  c <- getcpu ;;
  when (cpu_if c) (panic "popcli - interruptible") ;;
  set_ncli (cpu_ncli c - 1) ;;
  when (cpu_ncli c - 1 <? 0) (panic "popcli") ;;
  c' <- getcpu ;;
  when ((cpu_ncli c' =? 0) && cpu_intena c') (set_if true).

(** [lock->locked && lock->cpu == mycpu()]. *)
Definition holding (lk : lockid) : M S bool :=
  pushcli ;;
  c <- getcpu ;;
  let r := bool_decide (lk ∈ cpu_held c) in
  popcli ;;
  ret r.

Definition acquire (lk : lockid) : M S unit :=
  pushcli ;;
  h <- holding lk ;;
  when h (panic "acquire") ;;
  (* while(xchg(&lk->locked, 1) != 0); lk->cpu = mycpu() *)
  c <- getcpu ;;
  set_held (lk :: cpu_held c).

Definition release (lk : lockid) : M S unit :=
  h <- holding lk ;;
  when (negb h) (panic "release") ;;
  (* lk->cpu = 0; lk->locked = 0 *)
  c <- getcpu ;;
  set_held (filter (λ l, l ≠ lk) (cpu_held c)) ;;
  popcli.
End ops.

(** What [sleep] and [wakeup] do to the processes of a component: a component that keeps
    track of who sleeps on its channels says so with an instance; for one that does not,
    the sleepers are only in the process table (Proc.v). *)
Class Sleepers (S : Type) := {
  fall_asleep : chan → S → S;
  wake_all : chan → S → S;
}.
#[global] Instance no_sleepers S : Sleepers S | 100 := {
  fall_asleep _ s := s;
  wake_all _ s := s;
}.

(** [sleep] of proc.c as its callers see it: with [lk] held, take [ptable.lock],
    drop [lk] and give up the processor in [sched], which insists on holding one
    lock only.  The process table's side of it is modelled in Proc.v. *)
Definition sleep {S} `{!Sleepers S} (ch : chan) (lk : lockid) : M S unit :=
  when (bool_decide (lk ≠ LkPtable)) (acquire LkPtable ;; release lk) ;;
  c <- getcpu ;;
  if cpu_ncli c =? 1 then (λ c s, Sleep ch c (fall_asleep ch s)) else panic "sched locks".

(** [wakeup] of proc.c as its callers see it: with [ptable.lock] held, everyone who
    sleeps on [ch] is made runnable. *)
Definition wakeup {S} `{!Sleepers S} (ch : chan) : M S unit :=
  acquire LkPtable ;;
  modify (wake_all ch) ;;
  release LkPtable.

(** A process in the kernel that holds exactly the spin lock [lk], and one that
    holds [lk'] taken on top of [lk]. *)
Definition cpu1 (pid : Z) (lk : lockid) : cpu := Cpu pid false 1 true [lk].
Definition cpu2 (pid : Z) (lk' lk : lockid) : cpu := Cpu pid false 2 true [lk'; lk].

(** * What the operations do *)

Section lemmas.
Context {S : Type}.
Implicit Types (s : S) (c : cpu).

Lemma pushcli_eq c s :
  pushcli c s =
  Ret tt (Cpu (cpu_pid c) false (cpu_ncli c + 1)
            (if cpu_ncli c =? 0 then cpu_if c else cpu_intena c) (cpu_held c)) s.
Proof. unfold pushcli, bind, when. simpl. by destruct (cpu_ncli c =? 0). Qed.

Lemma popcli_eq c s :
  cpu_if c = false → 1 <= cpu_ncli c →
  popcli c s =
  Ret tt (Cpu (cpu_pid c) ((cpu_ncli c =? 1) && cpu_intena c) (cpu_ncli c - 1)
            (cpu_intena c) (cpu_held c)) s.
Proof.
  intros Hif Hn. unfold popcli, bind, when. simpl. rewrite Hif. simpl.
  replace (cpu_ncli c - 1 <? 0) with false by lia. simpl.
  replace (cpu_ncli c - 1 =? 0) with (cpu_ncli c =? 1) by lia.
  destruct ((cpu_ncli c =? 1) && cpu_intena c); simpl; by rewrite ?Hif.
Qed.

(** [holding] answers whether this processor holds the lock and, called with
    interrupts off, leaves the processor as it was. *)
Lemma holding_eq lk c s :
  cpu_if c = false → 1 <= cpu_ncli c →
  holding lk c s = Ret (bool_decide (lk ∈ cpu_held c)) c s.
Proof.
  intros Hif Hn. unfold holding, bind. rewrite pushcli_eq. simpl.
  rewrite popcli_eq by (simpl; first [done|lia]). simpl.
  destruct c as [pid i n e h]; simpl in *; subst.
  replace (n =? 0) with false by lia. replace (n + 1 =? 1) with false by lia.
  by replace (n + 1 - 1) with n by lia.
Qed.

Lemma acquire_eq lk c s :
  lk ∉ cpu_held c → 0 <= cpu_ncli c →
  acquire lk c s =
  Ret tt (Cpu (cpu_pid c) false (cpu_ncli c + 1)
            (if cpu_ncli c =? 0 then cpu_if c else cpu_intena c) (lk :: cpu_held c)) s.
Proof.
  intros Hlk Hn. unfold acquire, bind. rewrite pushcli_eq, holding_eq by (simpl; first [done|lia]).
  simpl. by rewrite bool_decide_eq_false_2.
Qed.

Lemma acquire_held lk c s :
  lk ∈ cpu_held c → 0 <= cpu_ncli c → acquire lk c s = Panic "acquire".
Proof.
  intros Hlk Hn. unfold acquire, bind. rewrite pushcli_eq, holding_eq by (simpl; first [done|lia]).
  simpl. by rewrite bool_decide_eq_true_2.
Qed.

Lemma release_eq lk c s :
  lk ∈ cpu_held c → cpu_if c = false → 1 <= cpu_ncli c →
  release lk c s =
  Ret tt (Cpu (cpu_pid c) ((cpu_ncli c =? 1) && cpu_intena c) (cpu_ncli c - 1)
            (cpu_intena c) (filter (λ l, l ≠ lk) (cpu_held c))) s.
Proof.
  intros Hlk Hif Hn. unfold release, bind. rewrite holding_eq by done.
  rewrite bool_decide_eq_true_2 by done. simpl. by rewrite popcli_eq.
Qed.

Lemma acquire_cpu0 pid lk s : acquire lk (cpu0 pid) s = Ret tt (cpu1 pid lk) s.
Proof. rewrite acquire_eq; simpl; [done|set_solver|lia]. Qed.

Lemma release_cpu1 pid lk s : release lk (cpu1 pid lk) s = Ret tt (cpu0 pid) s.
Proof.
  rewrite release_eq; simpl; [|set_solver|done|lia].
  rewrite filter_cons_False by naive_solver. done.
Qed.

Lemma acquire_cpu1 pid lk lk' s :
  lk' ≠ lk → acquire lk' (cpu1 pid lk) s = Ret tt (cpu2 pid lk' lk) s.
Proof. intros. rewrite acquire_eq; simpl; [done|set_solver|lia]. Qed.

Lemma release_cpu2 pid lk lk' s :
  lk' ≠ lk → release lk' (cpu2 pid lk' lk) s = Ret tt (cpu1 pid lk) s.
Proof.
  intros. rewrite release_eq; simpl; [|set_solver|done|lia].
  rewrite filter_cons_False, filter_cons_True by naive_solver. done.
Qed.

Lemma release_cpu2_under pid lk lk' s :
  lk' ≠ lk → release lk (cpu2 pid lk' lk) s = Ret tt (cpu1 pid lk') s.
Proof.
  intros. rewrite release_eq; simpl; [|set_solver|done|lia].
  rewrite filter_cons_True, filter_cons_False by naive_solver. done.
Qed.

(** Sleeping with exactly one lock held gives the lock up and keeps [ptable.lock]
    for the scheduler. *)
Lemma sleep_one `{!Sleepers S} pid ch lk s :
  sleep ch lk (cpu1 pid lk) s = Sleep ch (cpu1 pid LkPtable) (fall_asleep ch s).
Proof.
  unfold sleep, bind, when. case_bool_decide.
  - rewrite acquire_cpu1 by done. by rewrite release_cpu2_under by done.
  - by replace lk with LkPtable by (destruct (decide (lk = LkPtable)); congruence).
Qed.
Lemma sleep_cpu1 pid ch lk s :
  sleep ch lk (cpu1 pid lk) s = Sleep ch (cpu1 pid LkPtable) s.
Proof. exact (sleep_one pid ch lk s). Qed.

Lemma wakeup_one `{!Sleepers S} pid ch lk s :
  lk ≠ LkPtable → wakeup ch (cpu1 pid lk) s = Ret tt (cpu1 pid lk) (wake_all ch s).
Proof.
  intros. unfold wakeup, bind. rewrite acquire_cpu1 by done. cbn [modify]. by rewrite release_cpu2.
Qed.
Lemma wakeup_cpu1 pid ch lk s :
  lk ≠ LkPtable → wakeup ch (cpu1 pid lk) s = Ret tt (cpu1 pid lk) s.
Proof. exact (wakeup_one pid ch lk s). Qed.

Lemma wakeup_cpu0 pid ch s : wakeup ch (cpu0 pid) s = Ret tt (cpu0 pid) s.
Proof. unfold wakeup, bind. rewrite acquire_cpu0. apply release_cpu1. Qed.

Lemma wp_acquire0 E pid lk s Q :
  Q tt (cpu1 pid lk) s → wp E (acquire lk) (cpu0 pid) s Q.
Proof. intros. eapply eq_wp; [apply acquire_cpu0|done]. Qed.

Lemma wp_release1 E pid lk s Q :
  Q tt (cpu0 pid) s → wp E (release lk) (cpu1 pid lk) s Q.
Proof. intros. eapply eq_wp; [apply release_cpu1|done]. Qed.
End lemmas.

(** Run through an [acquire] or [release] at the head of a [wp] goal. *)
Ltac wp_lock :=
  repeat first
    [ apply wp_bind
    | apply wp_acquire0; cbv beta
    | apply wp_release1; cbv beta ].
