(* ===== verification/Sleeplock.v ===== *)
(** Sleep locks ([sleeplock.c]). *)
From stdpp Require Import base list numbers strings sets.
From Stdlib Require Import ZArith Lia.
From S2P Require Import Prelude Machine Spinlock.
Local Open Scope Z_scope.
Local Open Scope xv6_scope.

(** [struct sleeplock]: the inner spin lock [lk] is known by its [lockid]; [name]
    is for debugging only. *)
Record sleeplock := SleepLock { sl_locked : bool; sl_pid : Z }.

#[global] Instance sleeplock_eq_dec : EqDecision sleeplock.
Proof. solve_decision. Defined.

Definition initsleeplock : sleeplock := SleepLock false 0.

Section ops.
(** The sleep lock operated on: its inner spin lock, its wait channel (its own
    address) and where it is in the component's state. *)
Context {S : Type} (lk : lockid) (ch : chan).
Context (getl : S → sleeplock) (putl : sleeplock → S → S).

(** The [while (lk->locked) sleep(lk, &lk->lk)] loop tests once per run of the
    thread: a thread that finds the lock taken ends in [Sleep] and, when woken,
    reacquires [lk->lk] and tests again. *)
Definition acquiresleep : M S unit :=
  acquire lk ;;
  l <- gets getl ;;
  when (sl_locked l) (sleep ch lk) ;;
  c <- getcpu ;;
  modify (putl (SleepLock true (cpu_pid c))) ;;
  release lk.

Definition releasesleep : M S unit :=
  acquire lk ;;
  modify (putl (SleepLock false 0)) ;;
  wakeup ch ;;
  release lk.

Definition holdingsleep : M S bool :=
  acquire lk ;;
  l <- gets getl ;;
  c <- getcpu ;;
  let r := sl_locked l && (sl_pid l =? cpu_pid c) in
  release lk ;;
  ret r.

Lemma acquiresleep_free pid s :
  sl_locked (getl s) = false →
  acquiresleep (cpu0 pid) s = Ret tt (cpu0 pid) (putl (SleepLock true pid) s).
Proof.
  intros H. unfold acquiresleep, bind. rewrite acquire_cpu0. simpl. rewrite H. simpl.
  apply release_cpu1.
Qed.

Lemma acquiresleep_taken pid s :
  sl_locked (getl s) = true →
  acquiresleep (cpu0 pid) s = Sleep ch (cpu1 pid LkPtable) s.
Proof.
  intros H. unfold acquiresleep, bind. rewrite acquire_cpu0. simpl. rewrite H. simpl.
  by rewrite sleep_cpu1.
Qed.

Lemma releasesleep_eq pid s :
  lk ≠ LkPtable →
  releasesleep (cpu0 pid) s = Ret tt (cpu0 pid) (putl (SleepLock false 0) s).
Proof.
  intros H. unfold releasesleep, bind. rewrite acquire_cpu0. simpl.
  rewrite wakeup_cpu1 by done. apply release_cpu1.
Qed.

Lemma holdingsleep_eq pid s :
  holdingsleep (cpu0 pid) s =
  Ret (sl_locked (getl s) && (sl_pid (getl s) =? pid)) (cpu0 pid) s.
Proof.
  unfold holdingsleep, bind. rewrite acquire_cpu0. simpl. by rewrite release_cpu1.
Qed.
End ops.
