(* ===== verification/Bio.v ===== *)
(** The buffer cache ([bio.c]) over the memory disk ([memide.c]). *)
From stdpp Require Import base list numbers strings sets gmap.
From Stdlib Require Import ZArith Lia.
From S2P Require Import Prelude Params Machine Spinlock Sleeplock.
Local Open Scope Z_scope.
Local Open Scope xv6_scope.

(** * State *)

(** [struct buf] of buf.h.  Buffers are known by their index in [bcache.buf];
    index [NBUF] is [bcache.head]. *)
Record buf := Buf {
  b_flags : Z;
  b_dev : Z;
  b_blockno : Z;
  b_lock : sleeplock;
  b_refcnt : Z;
  b_prev : nat;
  b_next : nat;
  b_data : list Z;
}.

(** The disk: its blocks, and the block writes it has received, oldest first.
    The history is what a power failure cuts short. *)
Record disk := Disk {
  d_img : list (list Z);
  d_writes : list (Z * list Z);
}.

(** [bcache] and the disk behind it. *)
Record bstate := BState {
  bs_buf : list buf;
  bs_disk : disk;
}.

Definition set_flags (f : Z → Z) (b : buf) : buf :=
  Buf (f (b_flags b)) (b_dev b) (b_blockno b) (b_lock b) (b_refcnt b) (b_prev b) (b_next b) (b_data b).
Definition set_dev (d : Z) (b : buf) : buf :=
  Buf (b_flags b) d (b_blockno b) (b_lock b) (b_refcnt b) (b_prev b) (b_next b) (b_data b).
Definition set_blockno (n : Z) (b : buf) : buf :=
  Buf (b_flags b) (b_dev b) n (b_lock b) (b_refcnt b) (b_prev b) (b_next b) (b_data b).
Definition set_lock (l : sleeplock) (b : buf) : buf :=
  Buf (b_flags b) (b_dev b) (b_blockno b) l (b_refcnt b) (b_prev b) (b_next b) (b_data b).
Definition set_refcnt (f : Z → Z) (b : buf) : buf :=
  Buf (b_flags b) (b_dev b) (b_blockno b) (b_lock b) (f (b_refcnt b)) (b_prev b) (b_next b) (b_data b).
Definition set_prev (p : nat) (b : buf) : buf :=
  Buf (b_flags b) (b_dev b) (b_blockno b) (b_lock b) (b_refcnt b) p (b_next b) (b_data b).
Definition set_next (p : nat) (b : buf) : buf :=
  Buf (b_flags b) (b_dev b) (b_blockno b) (b_lock b) (b_refcnt b) (b_prev b) p (b_data b).
Definition set_data (d : list Z) (b : buf) : buf :=
  Buf (b_flags b) (b_dev b) (b_blockno b) (b_lock b) (b_refcnt b) (b_prev b) (b_next b) d.

Definition buf_zero : buf := Buf 0 0 0 initsleeplock 0 0 0 (replicate bsize 0).
#[global] Instance buf_inhabited : Inhabited buf := populate buf_zero.

(** [bcache.head]. *)
Abbreviation head := nbuf.

(** * Operations *)

(** A pointer dereference [*b], and a store to a field of [*b]. *)
Definition bufp (b : nat) : M bstate buf :=
  s <- get ;; deref (bs_buf s !! b).
Definition upd_buf (b : nat) (f : buf → buf) : M bstate unit :=
  s <- get ;;
  _ <- deref (bs_buf s !! b) ;;
  modify (λ s, BState (alter f b (bs_buf s)) (bs_disk s)).

(** Reading, and storing to, [b->data]. *)
Definition bdata (b : nat) : M bstate (list Z) := x <- bufp b ;; ret (b_data x).
Definition bstore (b : nat) (f : list Z → list Z) : M bstate unit :=
  upd_buf b (λ x, set_data (f (b_data x)) x).

Definition buf_getl (b : nat) (s : bstate) : sleeplock := b_lock (bs_buf s !!! b).
Definition buf_putl (b : nat) (l : sleeplock) (s : bstate) : bstate :=
  BState (alter (set_lock l) b (bs_buf s)) (bs_disk s).

Definition buf_acquiresleep (b : nat) : M bstate unit :=
  acquiresleep (LkBuf b) (ChBuf b) (buf_getl b) (buf_putl b).
Definition buf_releasesleep (b : nat) : M bstate unit :=
  releasesleep (LkBuf b) (ChBuf b) (buf_putl b).
Definition buf_holdingsleep (b : nat) : M bstate bool :=
  holdingsleep (LkBuf b) (buf_getl b).

(** memide.c: [memdisk + b->blockno*BSIZE] is block [blockno] of the image. *)
Definition iderw (b : nat) : M bstate unit :=
  h <- buf_holdingsleep b ;;
  when (negb h) (panic "iderw: buf not locked") ;;
  x <- bufp b ;;
  when (Z.land (b_flags x) (Z.lor B_VALID B_DIRTY) =? B_VALID)
    (panic "iderw: nothing to do") ;;
  when (negb (b_dev x =? 1)) (panic "iderw: request not for disk 1") ;;
  s <- get ;;
  let d := bs_disk s in
  when (Z.of_nat (length (d_img d)) <=? b_blockno x) (panic "iderw: block out of range") ;;
  let p := Z.to_nat (b_blockno x) in
  (if negb (Z.land (b_flags x) B_DIRTY =? 0) then
     upd_buf b (set_flags (λ f, Z.land f (Z.lnot B_DIRTY))) ;;
     modify (λ s, BState (bs_buf s)
                    (Disk (<[p := b_data x]> (d_img d))
                          (d_writes d ++ [(b_blockno x, b_data x)])))
   else
     blk <- deref (d_img d !! p) ;;
     upd_buf b (set_data blk)) ;;
  upd_buf b (set_flags (λ f, Z.lor f B_VALID)).

Definition binit : M bstate unit :=
  upd_buf head (set_prev head) ;;
  upd_buf head (set_next head) ;;
  for_each (seq 0 nbuf) (λ b,
    h <- bufp head ;;
    upd_buf b (set_next (b_next h)) ;;
    upd_buf b (set_prev head) ;;
    upd_buf b (set_lock initsleeplock) ;;
    h <- bufp head ;;
    upd_buf (b_next h) (set_prev b) ;;
    upd_buf head (set_next b)).

(** The two loops of [bget] walk the list from [b] along [step] to [head]. *)
Fixpoint scan (step : buf → nat) (p : buf → bool) (fuel : nat) (b : nat) : M bstate (option nat) :=
  match fuel with
  | O => hang
  | S fuel' =>
      if decide (b = head) then ret None
      else x <- bufp b ;;
           if p x then ret (Some b) else scan step p fuel' (step x)
  end.

Definition bget (dev blockno : Z) : M bstate nat :=
  acquire LkBcache ;;
  (* Is the block already cached? *)
  h <- bufp head ;;
  o <- scan b_next (λ x, (b_dev x =? dev) && (b_blockno x =? blockno)) (S nbuf) (b_next h) ;;
  match o with
  | Some b =>
      upd_buf b (set_refcnt (λ r, u32 (r + 1))) ;;
      release LkBcache ;;
      buf_acquiresleep b ;;
      ret b
  | None =>
      (* Not cached; recycle an unused buffer. *)
      h <- bufp head ;;
      o <- scan b_prev (λ x, (b_refcnt x =? 0) && (Z.land (b_flags x) B_DIRTY =? 0))
             (S nbuf) (b_prev h) ;;
      match o with
      | Some b =>
          upd_buf b (set_dev dev) ;;
          upd_buf b (set_blockno blockno) ;;
          upd_buf b (set_flags (λ _, 0)) ;;
          upd_buf b (set_refcnt (λ _, 1)) ;;
          release LkBcache ;;
          buf_acquiresleep b ;;
          ret b
      | None => panic "bget: no buffers"
      end
  end.

Definition bread (dev blockno : Z) : M bstate nat :=
  b <- bget dev blockno ;;
  x <- bufp b ;;
  when (Z.land (b_flags x) B_VALID =? 0) (iderw b) ;;
  ret b.

Definition bwrite (b : nat) : M bstate unit :=
  h <- buf_holdingsleep b ;;
  when (negb h) (panic "bwrite") ;;
  upd_buf b (set_flags (λ f, Z.lor f B_DIRTY)) ;;
  iderw b.

Definition brelse (b : nat) : M bstate unit :=
  h <- buf_holdingsleep b ;;
  when (negb h) (panic "brelse") ;;
  buf_releasesleep b ;;
  acquire LkBcache ;;
  upd_buf b (set_refcnt (λ r, u32 (r - 1))) ;;
  x <- bufp b ;;
  when (b_refcnt x =? 0)
    ( (* no one is waiting for it: move it to the head of the MRU list *)
     upd_buf (b_next x) (set_prev (b_prev x)) ;;
     upd_buf (b_prev x) (set_next (b_next x)) ;;
     h <- bufp head ;;
     upd_buf b (set_next (b_next h)) ;;
     upd_buf b (set_prev head) ;;
     h <- bufp head ;;
     upd_buf (b_next h) (set_prev b) ;;
     upd_buf head (set_next b)) ;;
  release LkBcache.

(** The cache as the loader leaves it: zeroed memory, over a disk image. *)
Definition bstate0 (img : list (list Z)) : bstate :=
  BState (replicate (S nbuf) buf_zero) (Disk img []).
