(* ===== verification/BioRing.v ===== *)
(** The circular, doubly linked LRU list of the buffer cache: the [prev]/[next]
    fields of [bcache.buf] and [bcache.head] refine a list of buffer indices, most
    recently used first. *)
From stdpp Require Import base list numbers strings sets gmap.
From Stdlib Require Import ZArith Lia.
From S2P Require Import Prelude Params Machine Spinlock Sleeplock Bio.

Definition fupd (f : nat → nat) (i v : nat) : nat → nat :=
  λ j, if decide (j = i) then v else f j.

(** Following [f] from [x] visits [l] and then reaches [y]. *)
Fixpoint chain (f : nat → nat) (x : nat) (l : list nat) (y : nat) : Prop :=
  match l with
  | [] => f x = y
  | z :: l' => f x = z ∧ chain f z l' y
  end.

Definition nxt (bufs : list buf) (i : nat) : nat := b_next (bufs !!! i).
Definition prv (bufs : list buf) (i : nat) : nat := b_prev (bufs !!! i).

(** [l] is the list of all buffers, in order of their last release. *)
Record ring (bufs : list buf) (l : list nat) : Prop := Ring {
  ring_perm : l ≡ₚ seq 0 nbuf;
  ring_next : chain (nxt bufs) head l head;
  ring_prev : chain (prv bufs) head (rev l) head;
}.

(** * Chains *)

Section chain.
Implicit Types (f g : nat → nat) (x y z : nat) (l : list nat).

Lemma chain_ext f g x l y :
  (∀ i, i = x ∨ i ∈ l → f i = g i) → chain f x l y → chain g x l y.
Proof.
  revert x; induction l as [|z l IH]; intros x Hext; simpl.
  - intros <-. symmetry. auto.
  - intros [<- Hc]. split; [symmetry; auto|].
    apply IH; [|done]. intros i [->|Hi]; apply Hext; right; set_solver.
Qed.

Lemma chain_app f x l1 z l2 y :
  chain f x (l1 ++ z :: l2) y ↔ chain f x l1 z ∧ chain f z l2 y.
Proof.
  revert x; induction l1 as [|a l1 IH]; intros x; simpl; [done|].
  rewrite IH. naive_solver.
Qed.

Lemma chain_first f x l y : chain f x l y → f x = default y (hd_error l).
Proof. destruct l; simpl; naive_solver. Qed.

Lemma last_cons_default z l d : List.last (z :: l) d = List.last l z.
Proof.
  revert z d; induction l as [|w l IH]; intros z d; [done|].
  change (List.last (w :: l) d = List.last (w :: l) z). by rewrite !IH.
Qed.

Lemma last_elem l x : List.last l x ∈ x :: l.
Proof.
  revert x; induction l as [|z l IH]; intros x; [set_solver|].
  rewrite last_cons_default. right. apply IH.
Qed.

(** Redirecting the last link. *)
Lemma chain_upd_last f x l y y' :
  NoDup (x :: l) → chain f x l y →
  chain (fupd f (List.last l x) y') x l y'.
Proof.
  revert x; induction l as [|z l IH]; intros x Hnd.
  - intros _. simpl. unfold fupd. by rewrite decide_True.
  - intros [Hz Hc]. apply NoDup_cons in Hnd as [Hx Hnd].
    rewrite last_cons_default. split; [|by apply IH].
    unfold fupd. rewrite decide_False; [done|].
    intros ->. apply Hx, last_elem.
Qed.

(** Removing [b] from a chain by redirecting its predecessor. *)
Lemma chain_unlink f x l1 b l2 y :
  NoDup (x :: l1 ++ b :: l2) → chain f x (l1 ++ b :: l2) y →
  chain (fupd f (List.last l1 x) (f b)) x (l1 ++ l2) y.
Proof.
  intros Hnd [H1 H2]%chain_app.
  assert (NoDup (x :: l1)) as Hnd1.
  { rewrite app_comm_cons in Hnd. by apply NoDup_app in Hnd as [? _]. }
  apply (chain_upd_last _ _ _ _ (f b)) in H1; [|done].
  destruct l2 as [|z l2]; simpl in H2.
  - rewrite app_nil_r. by subst.
  - destruct H2 as [Hz H2]. apply chain_app. split; [by subst|].
    eapply chain_ext; [|done]. intros i Hi. unfold fupd. rewrite decide_False; [done|].
    intros ->.
    pose proof (last_elem l1 x) as Hlast.
    rewrite app_comm_cons in Hnd. apply NoDup_app in Hnd as (_ & Hdis & _).
    apply (Hdis _ Hlast). set_solver.
Qed.

(** Inserting [b] right after [x]. *)
Lemma chain_push f x l b y :
  b ≠ x → b ∉ l → x ∉ l → chain f x l y → chain (fupd (fupd f b (f x)) x b) x (b :: l) y.
Proof.
  intros Hbx Hb Hx Hc. simpl. split; [unfold fupd; by rewrite decide_True|].
  destruct l as [|z l]; simpl in *; unfold fupd at 1.
  - rewrite decide_False by done. unfold fupd. by rewrite decide_True.
  - destruct Hc as [Hz Hc]. split.
    + rewrite decide_False by done. unfold fupd. by rewrite decide_True.
    + eapply chain_ext; [|done]. intros i Hi. unfold fupd.
      rewrite !decide_False; [done| |]; intros ->; set_solver.
Qed.
End chain.

Lemma last_rev (l : list nat) x : List.last (rev l) x = default x (hd_error l).
Proof. destruct l as [|z l]; [done|]. simpl. by rewrite last_last. Qed.

(** Appending [b] at the end of a chain that loops back to its start. *)
Lemma chain_snoc f x l b :
  b ≠ x → b ∉ l → NoDup (x :: l) → chain f x l x →
  chain (fupd (fupd f b x) (List.last l x) b) x (l ++ [b]) x.
Proof.
  intros Hbx Hb Hnd Hc. apply chain_app. split.
  - apply (chain_upd_last _ _ _ x); [done|]. eapply chain_ext; [|done].
    intros i Hi. unfold fupd. rewrite decide_False; [done|]. set_solver.
  - simpl. unfold fupd. rewrite decide_False.
    + by rewrite decide_True.
    + intros ->. pose proof (last_elem l x). set_solver.
Qed.

(** * Stores to the link fields *)

Section stores.
Implicit Types bufs : list buf.

Lemma nxt_set_next bufs i v j :
  i < length bufs → nxt (alter (set_next v) i bufs) j = fupd (nxt bufs) i v j.
Proof.
  intros. unfold nxt, fupd. rewrite list_lookup_total_alter.
  repeat case_decide; naive_solver.
Qed.

Lemma prv_set_prev bufs i v j :
  i < length bufs → prv (alter (set_prev v) i bufs) j = fupd (prv bufs) i v j.
Proof.
  intros. unfold prv, fupd. rewrite list_lookup_total_alter.
  repeat case_decide; naive_solver.
Qed.

Lemma nxt_keep g bufs i j :
  (∀ x, b_next (g x) = b_next x) → nxt (alter g i bufs) j = nxt bufs j.
Proof.
  intros. unfold nxt. rewrite list_lookup_total_alter. case_decide; naive_solver.
Qed.

Lemma prv_keep g bufs i j :
  (∀ x, b_prev (g x) = b_prev x) → prv (alter g i bufs) j = prv bufs j.
Proof.
  intros. unfold prv. rewrite list_lookup_total_alter. case_decide; naive_solver.
Qed.

(** A store to a field that is not a link keeps the list. *)
Lemma ring_keep g bufs i l :
  (∀ x, b_next (g x) = b_next x) → (∀ x, b_prev (g x) = b_prev x) →
  ring bufs l → ring (alter g i bufs) l.
Proof.
  intros Hn Hp [Hperm Hnext Hprev]. split; [done| |].
  - eapply chain_ext; [|done]. intros. by rewrite nxt_keep.
  - eapply chain_ext; [|done]. intros. by rewrite prv_keep.
Qed.

Lemma ring_NoDup bufs l : ring bufs l → NoDup (head :: l).
Proof.
  intros [Hperm _ _]. apply NoDup_cons. rewrite Hperm. split; [|apply NoDup_seq].
  intros H%elem_of_seq. lia.
Qed.

Lemma ring_elem bufs l i : ring bufs l → i ∈ l ↔ i < nbuf.
Proof. intros [Hperm _ _]. rewrite Hperm, elem_of_seq. lia. Qed.

Lemma ring_next_b bufs l1 b l2 :
  ring bufs (l1 ++ b :: l2) → nxt bufs b = default head (hd_error l2).
Proof. intros [_ [_ Hc]%chain_app _]. by apply chain_first in Hc. Qed.

Lemma ring_prev_b bufs l1 b l2 :
  ring bufs (l1 ++ b :: l2) → prv bufs b = List.last l1 head.
Proof.
  intros [_ _ Hc]. rewrite rev_app_distr in Hc. simpl in Hc.
  rewrite <- app_assoc in Hc. simpl in Hc. apply chain_app in Hc as [_ Hc].
  apply chain_first in Hc. by rewrite Hc, <- last_rev, rev_involutive.
Qed.

(** The stores by which [brelse] moves [b] behind [head]. *)
Definition relink (b : nat) (bufs : list buf) : list buf :=
  let B1 := alter (set_prev (prv bufs b)) (nxt bufs b) bufs in
  let B2 := alter (set_next (nxt bufs b)) (prv bufs b) B1 in
  let B3 := alter (set_next (nxt B2 head)) b B2 in
  let B4 := alter (set_prev head) b B3 in
  let B5 := alter (set_prev b) (nxt B4 head) B4 in
  alter (set_next b) head B5.

Lemma relink_length b bufs : length (relink b bufs) = length bufs.
Proof. unfold relink. by rewrite !length_alter. Qed.

Lemma relink_nxt b bufs j :
  length bufs = S nbuf → b < nbuf → prv bufs b < S nbuf →
  let f := fupd (nxt bufs) (prv bufs b) (nxt bufs b) in
  nxt (relink b bufs) j = fupd (fupd f b (f head)) head b j.
Proof.
  intros Hlen Hb Hp f. unfold relink.
  assert (∀ k, nxt (alter (set_next (nxt bufs b)) (prv bufs b)
                   (alter (set_prev (prv bufs b)) (nxt bufs b) bufs)) k = f k) as Hf.
  { intros k. rewrite nxt_set_next by (rewrite length_alter; lia). unfold f, fupd.
    case_decide; [done|]. by apply nxt_keep. }
  rewrite nxt_set_next by (rewrite !length_alter; lia).
  unfold fupd at 1 2. case_decide; [done|].
  rewrite !nxt_keep by done. rewrite nxt_set_next by (rewrite !length_alter; lia).
  unfold fupd at 1 2. case_decide; auto.
Qed.

Lemma relink_prv b bufs j :
  length bufs = S nbuf → b < nbuf → prv bufs b < S nbuf → nxt bufs b < S nbuf →
  let f := fupd (nxt bufs) (prv bufs b) (nxt bufs b) in
  let g := fupd (prv bufs) (nxt bufs b) (prv bufs b) in
  f head < S nbuf →
  prv (relink b bufs) j = fupd (fupd g b head) (f head) b j.
Proof.
  intros Hlen Hb Hp Hn f g Hh. unfold relink.
  rewrite prv_keep by done.
  set (B2 := alter (set_next _) (prv bufs b) _).
  assert (∀ k, nxt B2 k = f k) as Hf.
  { intros k. unfold B2. rewrite nxt_set_next by (rewrite length_alter; lia). unfold f, fupd.
    case_decide; [done|]. by apply nxt_keep. }
  assert (nxt (alter (set_prev head) b (alter (set_next (nxt B2 head)) b B2)) head = f head) as ->.
  { rewrite nxt_keep by done. rewrite nxt_set_next by (unfold B2; rewrite !length_alter; lia).
    unfold fupd. case_decide; [lia|apply Hf]. }
  rewrite prv_set_prev by (unfold B2; rewrite !length_alter; lia).
  unfold fupd at 1 2. case_decide; [done|].
  rewrite prv_set_prev by (unfold B2; rewrite !length_alter; lia).
  unfold fupd at 1 2. case_decide; [done|].
  unfold B2. rewrite !prv_keep by done. by rewrite prv_set_prev by lia.
Qed.

(** [brelse]'s stores implement "move to front". *)
Lemma ring_relink bufs l1 b l2 :
  length bufs = S nbuf → ring bufs (l1 ++ b :: l2) → ring (relink b bufs) (b :: l1 ++ l2).
Proof.
  intros Hlen Hr. pose proof (ring_NoDup _ _ Hr) as Hnd.
  assert (∀ i, i ∈ l1 ++ b :: l2 → i < nbuf) as Hel
    by (intros i Hi; by apply (ring_elem _ _ i Hr)).
  assert (b < nbuf) as Hb by (apply Hel; set_solver).
  pose proof (ring_next_b _ _ _ _ Hr) as Hnb. pose proof (ring_prev_b _ _ _ _ Hr) as Hpb.
  assert (prv bufs b < S nbuf) as Hp.
  { rewrite Hpb. pose proof (last_elem l1 head) as [H|H]%elem_of_cons; [lia|].
    assert (List.last l1 head < nbuf); [apply Hel|]; set_solver. }
  assert (nxt bufs b < S nbuf) as Hn.
  { rewrite Hnb. destruct l2 as [|z l2]; simpl; [lia|].
    assert (z < nbuf); [apply Hel|]; set_solver. }
  destruct Hr as [Hperm Hcn Hcp].
  assert (b ≠ head) by lia.
  apply NoDup_cons in Hnd as [Hhead Hnd].
  assert (b ∉ l1 ++ l2).
  { rewrite <- Permutation_middle in Hnd. by apply NoDup_cons in Hnd as [? _]. }
  assert (head ∉ l1 ++ l2) by set_solver.
  assert (NoDup (head :: l1 ++ b :: l2)) as Hnd' by (by apply NoDup_cons).
  apply chain_unlink in Hcn; [|done]. rewrite <- Hpb in Hcn.
  assert (fupd (nxt bufs) (prv bufs b) (nxt bufs b) head
          = default head (hd_error (l1 ++ l2))) as Hh by (by apply chain_first in Hcn).
  assert (default head (hd_error (l1 ++ l2)) < S nbuf).
  { destruct (l1 ++ l2) as [|z l] eqn:E; simpl; [lia|].
    assert (z < nbuf); [|lia]. apply Hel.
    assert (z ∈ l1 ++ l2) as Hz by (rewrite E; set_solver). set_solver. }
  split.
  - rewrite <- Hperm. apply Permutation_middle.
  - eapply chain_ext; [intros; symmetry; by apply relink_nxt|]. by apply chain_push.
  - eapply chain_ext; [intros; symmetry; apply relink_prv; try done; lia|].
    rewrite Hh, <- last_rev. simpl.
    assert (rev (l1 ++ b :: l2) = rev l2 ++ b :: rev l1) as Hrev.
    { rewrite rev_app_distr. simpl. by rewrite <- app_assoc. }
    rewrite Hrev in Hcp. apply chain_unlink in Hcp.
    2:{ rewrite <- Hrev. apply NoDup_cons. split.
        - intros Hin. apply Hhead. by rewrite list_elem_of_In, in_rev, <- list_elem_of_In.
        - by rewrite <- Permutation_rev. }
    rewrite last_rev, <- Hnb, <- rev_app_distr in Hcp.
    apply chain_snoc; [done| | |done].
    + by rewrite <- Permutation_rev.
    + apply NoDup_cons. rewrite <- Permutation_rev. split; [done|].
      rewrite <- Permutation_middle in Hnd. by apply NoDup_cons in Hnd as [_ ?].
Qed.
End stores.
