(* ===== verification/BioSpec.v ===== *)
(** What the buffer cache promises: an abstract state (the logical contents of the
    disk, the buffers the running process holds, the blocks pinned by the log), the
    relation between it and the cache, and the effect of every operation on it. *)
From stdpp Require Import base list numbers strings sets gmap.
From Stdlib Require Import ZArith Lia.
From S2P Require Import Prelude Params Machine Spinlock Sleeplock Bio BioRing.
Local Open Scope Z_scope.
Local Open Scope xv6_scope.

(** * Abstract state *)

(** [ca_view]: the contents of each block as the kernel sees it;
    [ca_disk]: the disk itself;
    [ca_held]: the buffers the process holds, with their block and whether the
    buffer was stored to since it was last written or pinned;
    [ca_dirty]: the blocks whose buffer is pinned by [B_DIRTY]. *)
Record cabs := CAbs {
  ca_view : list (list Z);
  ca_disk : disk;
  ca_held : gmap nat (Z * bool);
  ca_dirty : gset Z;
}.

Definition ca_hold (i : nat) (n : Z) (m : bool) (a : cabs) : cabs :=
  CAbs (ca_view a) (ca_disk a) (<[i := (n, m)]> (ca_held a)) (ca_dirty a).
Definition ca_drop (i : nat) (a : cabs) : cabs :=
  CAbs (ca_view a) (ca_disk a) (delete i (ca_held a)) (ca_dirty a).
Definition ca_store (i : nat) (n : Z) (d : list Z) (a : cabs) : cabs :=
  CAbs (<[Z.to_nat n := d]> (ca_view a)) (ca_disk a) (<[i := (n, true)]> (ca_held a)) (ca_dirty a).
Definition ca_pin (i : nat) (n : Z) (a : cabs) : cabs :=
  CAbs (ca_view a) (ca_disk a) (<[i := (n, false)]> (ca_held a)) ({[n]} ∪ ca_dirty a).
Definition disk_write (n : Z) (d : list Z) (dk : disk) : disk :=
  Disk (<[Z.to_nat n := d]> (d_img dk)) (d_writes dk ++ [(n, d)]).
Definition ca_write (i : nat) (n : Z) (d : list Z) (a : cabs) : cabs :=
  CAbs (ca_view a) (disk_write n d (ca_disk a)) (<[i := (n, false)]> (ca_held a))
    (ca_dirty a ∖ {[n]}).

(** Both flags set. *)
Definition B_PINNED : Z := Z.lor B_VALID B_DIRTY.

(** Buffer [i], with contents [x], in the abstract state [a]. *)
Record buf_rel (pid : Z) (a : cabs) (i : nat) (x : buf) : Prop := {
  br_flags : b_flags x = 0 ∨ b_flags x = B_VALID ∨ b_flags x = B_PINNED;
  br_dev : b_dev x = 1 →
    b_flags x ≠ 0 ∧ 0 <= b_blockno x ∧
    ca_view a !! Z.to_nat (b_blockno x) = Some (b_data x) ∧
    (b_flags x = B_PINNED ↔ b_blockno x ∈ ca_dirty a);
  br_other : b_dev x ≠ 1 → b_flags x ≠ B_PINNED;
  br_clean : b_dev x = 1 → b_flags x = B_VALID →
    (∃ n, ca_held a !! i = Some (n, true)) ∨
    d_img (ca_disk a) !! Z.to_nat (b_blockno x) = Some (b_data x);
  br_held : match ca_held a !! i with
            | Some (n, _) =>
                b_dev x = 1 ∧ b_blockno x = n ∧ b_lock x = SleepLock true pid ∧ b_refcnt x = 1
            | None => sl_locked (b_lock x) = false ∧ b_refcnt x = 0
            end;
}.

(** Buffer [i] of [bufs] is the one for block [n] of the disk. *)
Definition caches (bufs : list buf) (i : nat) (n : Z) : Prop :=
  (i < nbuf)%nat ∧ ∃ x, bufs !! i = Some x ∧ b_dev x = 1 ∧ b_blockno x = n.

Record brel (pid : Z) (s : bstate) (a : cabs) : Prop := {
  brel_len : length (bs_buf s) = S nbuf;
  brel_ring : ∃ l, ring (bs_buf s) l;
  brel_buf : ∀ i x, (i < nbuf)%nat → bs_buf s !! i = Some x → buf_rel pid a i x;
  brel_uniq : ∀ i j n, caches (bs_buf s) i n → caches (bs_buf s) j n → i = j;
  brel_disk : bs_disk s = ca_disk a;
  brel_size : length (ca_view a) = length (d_img (ca_disk a));
  brel_view_len : Forall (λ b, length b = bsize) (ca_view a);
  brel_img_len : Forall (λ b, length b = bsize) (d_img (ca_disk a));
  brel_uncached : ∀ n, 0 <= n → (∀ i, ¬ caches (bs_buf s) i n) →
    ca_view a !! Z.to_nat n = d_img (ca_disk a) !! Z.to_nat n;
  brel_dirty : ∀ n, n ∈ ca_dirty a → ∃ i, caches (bs_buf s) i n;
  brel_held_dom : ∀ i, is_Some (ca_held a !! i) → (i < nbuf)%nat;
}.

(** * Executing the primitives *)

Lemma bufp_eq b c s x : bs_buf s !! b = Some x → bufp b c s = Ret x c s.
Proof. intros H. unfold bufp, bind, get. by rewrite H. Qed.

Lemma alter_insert {A} (f : A → A) (l : list A) i x :
  l !! i = Some x → alter f i l = <[i := f x]> l.
Proof.
  intros Hx. apply list_eq. intros j. pose proof (lookup_lt_Some _ _ _ Hx).
  destruct (decide (i = j)) as [->|].
  - by rewrite list_lookup_alter_eq, Hx, list_lookup_insert_eq.
  - by rewrite list_lookup_alter_ne, list_lookup_insert_ne.
Qed.

Lemma upd_buf_eq b f c s x :
  bs_buf s !! b = Some x →
  upd_buf b f c s = Ret tt c (BState (<[b := f x]> (bs_buf s)) (bs_disk s)).
Proof.
  intros H. unfold upd_buf, bind, get, modify. rewrite H. simpl. by rewrite (alter_insert _ _ _ x).
Qed.

Lemma lookup_insert_same {A} (l : list A) i x y :
  l !! i = Some x → <[i := y]> l !! i = Some y.
Proof. intros H%lookup_lt_Some. by apply list_lookup_insert_eq. Qed.

Lemma putl_eq b l s x :
  bs_buf s !! b = Some x →
  buf_putl b l s = BState (<[b := set_lock l x]> (bs_buf s)) (bs_disk s).
Proof. intros H. unfold buf_putl. by rewrite (alter_insert _ _ _ x). Qed.

Lemma getl_eq b s x : bs_buf s !! b = Some x → buf_getl b s = b_lock x.
Proof. intros H. unfold buf_getl. by rewrite (list_lookup_total_correct _ _ x). Qed.

(** Walk through a [bufp] or [upd_buf] at the head of an equation. *)
Ltac bstep :=
  lazymatch goal with
  | |- bind (bufp _) _ _ _ = _ =>
      erewrite bind_eq;
      [|eapply bufp_eq; cbn [bs_buf bs_disk];
        first [ eassumption | eapply lookup_insert_same; eassumption ]]
  | |- bind (upd_buf _ _) _ _ _ = _ =>
      erewrite bind_eq;
      [|eapply upd_buf_eq; cbn [bs_buf bs_disk];
        first [ eassumption | eapply lookup_insert_same; eassumption ]];
      cbn [bs_buf bs_disk]; rewrite ?list_insert_insert_eq
  | |- bind (acquire _) _ _ _ = _ => erewrite bind_eq; [|apply acquire_cpu0]
  | |- bind (release _) _ _ _ = _ => erewrite bind_eq; [|apply release_cpu1]
  end; cbn [bs_buf bs_disk].

Section scan.
Context (step : buf → nat) (p : buf → bool).

(** The loops of [bget] find the first buffer of the list that satisfies the test,
    and the fuel [S NBUF] is enough for them. *)
Lemma scan_eq bufs d c x l fuel :
  chain (λ i, step (bufs !!! i)) x l head →
  (∀ i, i ∈ l → (i < nbuf)%nat) → length bufs = S nbuf → (length l < fuel)%nat →
  scan step p fuel (step (bufs !!! x)) c (BState bufs d) =
  Ret (find (λ i, p (bufs !!! i)) l) c (BState bufs d).
Proof.
  revert x fuel; induction l as [|z l IH]; intros x fuel Hc Hl Hlen Hf;
    (destruct fuel as [|fuel]; [simpl in Hf; lia|]); simpl in Hc; cbn [scan].
  - rewrite Hc. by rewrite decide_True.
  - destruct Hc as [-> Hc].
    assert (z < nbuf)%nat as Hz by (apply Hl; set_solver).
    rewrite decide_False by lia.
    assert (bufs !! z = Some (bufs !!! z)) as Hlk.
    { apply list_lookup_lookup_total_lt. lia. }
    erewrite bind_eq; [|by apply bufp_eq]. simpl.
    destruct (p (bufs !!! z)); [done|].
    apply IH; [done| |done|simpl in Hf; lia]. intros i Hi. apply Hl. set_solver.
Qed.
End scan.

(** * Facts about related states *)

Section facts.
Context (pid : Z) (s : bstate) (a : cabs) (HR : brel pid s a).

Lemma brel_lookup i : (i < S nbuf)%nat → bs_buf s !! i = Some (bs_buf s !!! i).
Proof. intros. apply list_lookup_lookup_total_lt. destruct HR. lia. Qed.

Lemma caches_total i n :
  caches (bs_buf s) i n ↔
  (i < nbuf)%nat ∧ b_dev (bs_buf s !!! i) = 1 ∧ b_blockno (bs_buf s !!! i) = n.
Proof.
  unfold caches. split.
  - intros (Hi & x & Hx & ? & ?). by rewrite (list_lookup_total_correct _ _ _ Hx).
  - intros (Hi & ? & ?). split; [done|]. eexists. split; [apply brel_lookup; lia|done].
Qed.

(** The forward loop of [bget] finds the buffer of the block, if there is one. *)
Lemma find_cached l n :
  ring (bs_buf s) l →
  match find (λ i, (b_dev (bs_buf s !!! i) =? 1) && (b_blockno (bs_buf s !!! i) =? n)) l with
  | Some i => caches (bs_buf s) i n
  | None => ∀ i, ¬ caches (bs_buf s) i n
  end.
Proof.
  intros Hr. destruct (find _ l) as [i|] eqn:Hf.
  - apply find_some in Hf as [Hi Hp]. apply caches_total.
    split; [|lia]. apply (ring_elem _ _ i Hr). by apply list_elem_of_In.
  - intros i (Hi & H1 & H2)%caches_total.
    assert (In i l) as Hin by (apply list_elem_of_In; by apply (ring_elem _ _ i Hr)).
    apply (find_none _ _ Hf) in Hin. lia.
Qed.

(** A buffer that is neither held nor pinned exists when fewer than [NBUF] are. *)
Lemma free_buffer :
  (size (ca_dirty a) + size (ca_held a) < nbuf)%nat →
  ∃ i, (i < nbuf)%nat ∧ ca_held a !! i = None ∧ b_flags (bs_buf s !!! i) ≠ B_PINNED.
Proof.
  intros Hsize.
  destruct (decide (Exists (λ i, ca_held a !! i = None ∧ b_flags (bs_buf s !!! i) ≠ B_PINNED)
              (seq 0 nbuf))) as [Hex|Hno].
  { apply Exists_exists in Hex as (i & Hi%elem_of_seq & Hp). exists i. split; [lia|done]. }
  exfalso. rewrite Exists_exists in Hno.
  set (P := filter (λ i, b_flags (bs_buf s !!! i) = B_PINNED) (seq 0 nbuf)).
  set (B := (λ i, b_blockno (bs_buf s !!! i)) <$> P).
  assert (∀ i, i ∈ P → (i < nbuf)%nat ∧ b_dev (bs_buf s !!! i) = 1 ∧
                       b_blockno (bs_buf s !!! i) ∈ ca_dirty a) as HP.
  { intros i [Hpin [_ Hi]%elem_of_seq]%list_elem_of_filter. rewrite Nat.add_0_l in Hi.
    destruct (brel_buf _ _ _ HR i _ Hi (brel_lookup i ltac:(lia))) as [_ Hdev Hoth _ _].
    destruct (decide (b_dev (bs_buf s !!! i) = 1)) as [Hd|Hd]; [|by destruct (Hoth Hd)].
    split; [done|]. split; [done|]. by apply (Hdev Hd). }
  assert (NoDup B) as HB.
  { apply NoDup_fmap_2_strong; [|apply NoDup_filter, NoDup_seq].
    intros i j Hi%HP Hj%HP Hij. destruct Hi as (? & ? & _), Hj as (? & ? & _).
    apply (brel_uniq _ _ _ HR i j (b_blockno (bs_buf s !!! i))); by apply caches_total. }
  assert (length P <= size (ca_dirty a))%nat.
  { replace (length P) with (size (list_to_set B : gset Z)).
    2:{ rewrite size_list_to_set by done. apply length_fmap. }
    apply subseteq_size. intros n Hn. rewrite elem_of_list_to_set in Hn.
    apply list_elem_of_fmap in Hn as (i & -> & Hi). by apply HP. }
  assert (size (set_seq (C := gset nat) 0 nbuf) <= length P + size (ca_held a))%nat as Hcount.
  { etransitivity; [apply (subseteq_size _ (list_to_set P ∪ dom (ca_held a)))|].
    - intros i Hi%elem_of_set_seq. apply elem_of_union.
      destruct (ca_held a !! i) as [y|] eqn:Hh; [right; by eapply elem_of_dom_2|left].
      rewrite elem_of_list_to_set. apply list_elem_of_filter.
      split; [|apply elem_of_seq; lia].
      destruct (decide (b_flags (bs_buf s !!! i) = B_PINNED)); [done|].
      exfalso. apply Hno. exists i. split; [apply elem_of_seq; lia|done].
    - rewrite size_union_alt.
      assert (size (list_to_set P : gset nat) <= length P)%nat.
      { rewrite size_list_to_set; [done|]. apply NoDup_filter, NoDup_seq. }
      pose proof (subseteq_size (dom (ca_held a) ∖ list_to_set P) (dom (ca_held a)) ltac:(set_solver)).
      rewrite size_dom in *. lia. }
  rewrite size_set_seq in Hcount. lia.
Qed.

(** The backward loop of [bget] finds a buffer to recycle. *)
Lemma find_free l :
  ring (bs_buf s) l → (size (ca_dirty a) + size (ca_held a) < nbuf)%nat →
  ∃ i, find (λ i, (b_refcnt (bs_buf s !!! i) =? 0) &&
                  (Z.land (b_flags (bs_buf s !!! i)) B_DIRTY =? 0)) (rev l) = Some i ∧
       (i < nbuf)%nat ∧ ca_held a !! i = None ∧ b_flags (bs_buf s !!! i) ≠ B_PINNED.
Proof.
  intros Hr Hsize.
  assert (∀ i, (i < nbuf)%nat →
    ((b_refcnt (bs_buf s !!! i) =? 0) && (Z.land (b_flags (bs_buf s !!! i)) B_DIRTY =? 0) = true)
    ↔ ca_held a !! i = None ∧ b_flags (bs_buf s !!! i) ≠ B_PINNED) as Hiff.
  { intros i Hi.
    destruct (brel_buf _ _ _ HR i _ Hi (brel_lookup i ltac:(lia))) as [Hfl _ _ _ Hh].
    assert ((Z.land (b_flags (bs_buf s !!! i)) B_DIRTY =? 0) = true
            ↔ b_flags (bs_buf s !!! i) ≠ B_PINNED) as Hd.
    { destruct Hfl as [-> | [-> | ->]]; done. }
    rewrite andb_true_iff, Hd.
    destruct (ca_held a !! i) as [[m b]|]; [|naive_solver lia].
    destruct Hh as (_ & _ & _ & ->). naive_solver. }
  destruct (find _ (rev l)) as [i|] eqn:Hf.
  - apply find_some in Hf as [Hi Hp]. exists i. split; [done|].
    apply in_rev, list_elem_of_In in Hi. apply (ring_elem _ _ i Hr) in Hi.
    split; [done|]. by apply Hiff.
  - destruct (free_buffer Hsize) as (i & Hi & Hfree). exfalso.
    apply (Hiff i Hi) in Hfree.
    assert (In i (rev l)) as Hin.
    { apply -> in_rev. apply list_elem_of_In. by apply (ring_elem _ _ i Hr). }
    apply (find_none _ _ Hf) in Hin. congruence.
Qed.
End facts.

Lemma ring_insert bufs i x y l :
  bufs !! i = Some x → b_next y = b_next x → b_prev y = b_prev x →
  ring bufs l → ring (<[i := y]> bufs) l.
Proof.
  intros Hx Hn Hp [Hperm Hnext Hprev]. pose proof (lookup_lt_Some _ _ _ Hx).
  assert (∀ j, nxt (<[i := y]> bufs) j = nxt bufs j ∧ prv (<[i := y]> bufs) j = prv bufs j) as Hlk.
  { intros j. unfold nxt, prv. destruct (decide (i = j)) as [->|].
    - rewrite list_lookup_total_insert_eq by done.
      by rewrite (list_lookup_total_correct _ _ _ Hx).
    - by rewrite list_lookup_total_insert_ne. }
  split; [done| |]; (eapply chain_ext; [|done]); intros j _; symmetry; apply Hlk.
Qed.

(** Two abstract states that differ at most in block [n] and buffer [i]. *)
Record agree_off (i : nat) (n : Z) (a a' : cabs) : Prop := {
  ao_view_len : length (ca_view a') = length (ca_view a);
  ao_view : ∀ m, m ≠ Z.to_nat n → ca_view a' !! m = ca_view a !! m;
  ao_img_len : length (d_img (ca_disk a')) = length (d_img (ca_disk a));
  ao_img : ∀ m, m ≠ Z.to_nat n → d_img (ca_disk a') !! m = d_img (ca_disk a) !! m;
  ao_dirty : ∀ m, m ≠ n → m ∈ ca_dirty a' ↔ m ∈ ca_dirty a;
  ao_held : ∀ j, j ≠ i → ca_held a' !! j = ca_held a !! j;
}.

Lemma caches_insert bufs i x y j n :
  bufs !! i = Some x → b_dev y = b_dev x → b_blockno y = b_blockno x →
  caches (<[i := y]> bufs) j n ↔ caches bufs j n.
Proof.
  intros Hx Hd Hb. unfold caches. pose proof (lookup_lt_Some _ _ _ Hx).
  destruct (decide (i = j)) as [->|].
  - rewrite list_lookup_insert_eq by done. rewrite Hx. naive_solver congruence.
  - by rewrite list_lookup_insert_ne.
Qed.

(** Changing the buffer of block [n], and the abstract state at [n] only. *)
Lemma brel_key pid bufs d a a' d' i x y :
  brel pid (BState bufs d) a → bufs !! i = Some x → (i < nbuf)%nat →
  b_dev x = 1 → b_dev y = 1 → b_blockno y = b_blockno x →
  b_next y = b_next x → b_prev y = b_prev x →
  agree_off i (b_blockno x) a a' → buf_rel pid a' i y → d' = ca_disk a' →
  Forall (λ b, length b = bsize) (ca_view a') →
  Forall (λ b, length b = bsize) (d_img (ca_disk a')) →
  brel pid (BState (<[i := y]> bufs) d') a'.
Proof.
  intros HR Hx Hi Hdx Hdy Hbn Hnx Hpv Hao Hrel -> Hvl Hil.
  pose proof (lookup_lt_Some _ _ _ Hx) as Hlt. cbn in *.
  assert (∀ j n, caches (<[i := y]> bufs) j n ↔ caches bufs j n) as Hc.
  { intros. apply (caches_insert _ _ x); congruence. }
  assert (caches bufs i (b_blockno x)) as Hci by (split; [done|eauto]).
  assert (∀ j z, j ≠ i → (j < nbuf)%nat → bufs !! j = Some z → b_dev z = 1 →
                 0 <= b_blockno z → b_blockno z ≠ b_blockno x) as Hne.
  { intros j z Hj Hjn Hz Hdz _ Heq. apply Hj.
    apply (brel_uniq _ _ _ HR j i (b_blockno x)); [|done]. split; [done|]. eauto. }
  assert (0 <= b_blockno x) as Hpos by (by apply (brel_buf _ _ _ HR i x Hi Hx)).
  destruct Hao as [Hvlen Hview Hilen Himg Hdirty Hheld].
  split; cbn [bs_buf bs_disk].
  - rewrite length_insert. apply (brel_len _ _ _ HR).
  - destruct (brel_ring _ _ _ HR) as [l Hl]. exists l. by eapply ring_insert.
  - intros j z Hj Hz. destruct (decide (i = j)) as [<-|Hij].
    { rewrite list_lookup_insert_eq in Hz by done. by injection Hz as <-. }
    rewrite list_lookup_insert_ne in Hz by done.
    destruct (brel_buf _ _ _ HR j z Hj Hz) as [H1 H2 H3 H4 H5].
    split; [done| |done| |by rewrite Hheld].
    + intros Hd. destruct (H2 Hd) as (? & Hp & Hv & Hdt).
      pose proof (Hne j z ltac:(done) Hj Hz Hd Hp).
      rewrite Hview by lia. rewrite Hdirty by done. done.
    + intros Hd Hf. destruct (H2 Hd) as (_ & Hp & _ & _).
      pose proof (Hne j z ltac:(done) Hj Hz Hd Hp).
      rewrite Hheld, Himg by lia. auto.
  - intros j k n. rewrite !Hc. apply (brel_uniq _ _ _ HR).
  - done.
  - rewrite Hvlen, Hilen. apply (brel_size _ _ _ HR).
  - done.
  - done.
  - intros n Hn Hun. setoid_rewrite Hc in Hun.
    assert (n ≠ b_blockno x) by (intros ->; by apply (Hun i)).
    rewrite Hview, Himg by lia. by apply (brel_uncached _ _ _ HR).
  - intros n Hn. setoid_rewrite Hc.
    destruct (decide (n = b_blockno x)) as [->|]; [by exists i|].
    apply (brel_dirty _ _ _ HR). by apply Hdirty.
  - intros j Hj. destruct (decide (j = i)) as [->|]; [done|].
    rewrite Hheld in Hj by done. by apply (brel_held_dom _ _ _ HR).
Qed.

(** * The operations on related states *)

Lemma buf_acquiresleep_eq pid b bufs d x :
  bufs !! b = Some x → sl_locked (b_lock x) = false →
  buf_acquiresleep b (cpu0 pid) (BState bufs d) =
  Ret tt (cpu0 pid) (BState (<[b := set_lock (SleepLock true pid) x]> bufs) d).
Proof.
  intros Hx Hl. unfold buf_acquiresleep.
  rewrite acquiresleep_free by (by erewrite getl_eq). by erewrite putl_eq.
Qed.

Lemma buf_holdingsleep_eq pid b bufs d x :
  bufs !! b = Some x →
  buf_holdingsleep b (cpu0 pid) (BState bufs d) =
  Ret (sl_locked (b_lock x) && (sl_pid (b_lock x) =? pid)) (cpu0 pid) (BState bufs d).
Proof.
  intros Hx. unfold buf_holdingsleep. rewrite holdingsleep_eq. by rewrite (getl_eq _ _ x).
Qed.

Lemma buf_releasesleep_eq pid b bufs d x :
  bufs !! b = Some x →
  buf_releasesleep b (cpu0 pid) (BState bufs d) =
  Ret tt (cpu0 pid) (BState (<[b := set_lock (SleepLock false 0) x]> bufs) d).
Proof.
  intros Hx. unfold buf_releasesleep. rewrite releasesleep_eq by done. by erewrite putl_eq.
Qed.

(** [bget] on a cached block that nobody holds. *)
Lemma bget_hit pid bufs d a i n x :
  brel pid (BState bufs d) a → caches bufs i n → bufs !! i = Some x → ca_held a !! i = None →
  bget 1 n (cpu0 pid) (BState bufs d) =
  Ret i (cpu0 pid)
    (BState (<[i := set_lock (SleepLock true pid) (set_refcnt (λ r, u32 (r + 1)) x)]> bufs) d).
Proof.
  intros HR Hc Hx Hh.
  destruct (brel_ring _ _ _ HR) as [l Hl]. cbn in Hl.
  pose proof (brel_lookup _ _ _ HR head ltac:(lia)) as Hhd. cbn in Hhd.
  pose proof (brel_len _ _ _ HR) as Hlen. cbn in Hlen.
  unfold bget. bstep. bstep.
  erewrite bind_eq; [|apply (scan_eq b_next _ bufs d _ head l)];
    [|apply (ring_next _ _ Hl)|intros j Hj; by apply (ring_elem _ _ j Hl)|done|].
  2:{ rewrite (ring_perm _ _ Hl), length_seq. lia. }
  pose proof (find_cached _ _ _ HR l n Hl) as Hf. cbn in Hf.
  destruct (find _ l) as [j|]; [|by destruct (Hf i)].
  assert (j = i) as -> by (by apply (brel_uniq _ _ _ HR j i n)).
  pose proof (brel_buf _ _ _ HR i x ltac:(apply Hc) Hx) as [_ _ _ _ Hheld].
  rewrite Hh in Hheld.
  bstep. bstep. erewrite bind_eq; [|apply buf_acquiresleep_eq].
  2:{ by eapply lookup_insert_same. }
  2:{ by apply Hheld. }
  by rewrite list_insert_insert_eq.
Qed.

(** [bget] on a block that is not cached recycles a free buffer. *)
Lemma bget_miss pid bufs d a n :
  brel pid (BState bufs d) a → (∀ i, ¬ caches bufs i n) →
  (size (ca_dirty a) + size (ca_held a) < nbuf)%nat →
  ∃ i x, (i < nbuf)%nat ∧ bufs !! i = Some x ∧ ca_held a !! i = None ∧
    b_flags x ≠ B_PINNED ∧
    bget 1 n (cpu0 pid) (BState bufs d) =
    Ret i (cpu0 pid)
      (BState (<[i := Buf 0 1 n (SleepLock true pid) 1 (b_prev x) (b_next x) (b_data x)]> bufs) d).
Proof.
  intros HR Hc Hsize.
  destruct (brel_ring _ _ _ HR) as [l Hl]. cbn in Hl.
  pose proof (brel_lookup _ _ _ HR head ltac:(lia)) as Hhd. cbn in Hhd.
  pose proof (brel_len _ _ _ HR) as Hlen. cbn in Hlen.
  destruct (find_free _ _ _ HR l Hl Hsize) as (i & Hfind & Hi & Hheld & Hpin). cbn in *.
  pose proof (brel_lookup _ _ _ HR i ltac:(lia)) as Hx. cbn in Hx.
  exists i, (bufs !!! i). do 4 (split; [done|]).
  pose proof (brel_buf _ _ _ HR i _ Hi Hx) as [_ _ _ _ Hlk]. rewrite Hheld in Hlk.
  unfold bget. bstep. bstep.
  erewrite bind_eq; [|apply (scan_eq b_next _ bufs d _ head l)];
    [|apply (ring_next _ _ Hl)|intros j Hj; by apply (ring_elem _ _ j Hl)|done|].
  2:{ rewrite (ring_perm _ _ Hl), length_seq. lia. }
  pose proof (find_cached _ _ _ HR l n Hl) as Hf. cbn in Hf.
  destruct (find _ l) as [j|]; [by destruct (Hc j)|].
  bstep.
  erewrite bind_eq; [|apply (scan_eq b_prev _ bufs d _ head (rev l))];
    [|apply (ring_prev _ _ Hl)| |done|].
  2:{ intros j Hj. apply (ring_elem _ _ j Hl). by rewrite list_elem_of_In, in_rev, <- list_elem_of_In. }
  2:{ rewrite length_rev, (ring_perm _ _ Hl), length_seq. lia. }
  cbv beta. rewrite Hfind. do 5 bstep.
  erewrite bind_eq; [|apply buf_acquiresleep_eq].
  2:{ by eapply lookup_insert_same. }
  2:{ by apply Hlk. }
  by rewrite list_insert_insert_eq.
Qed.

(** [iderw] on a held buffer that was never read: the block is read. *)
Lemma iderw_read pid bufs d i x blk :
  bufs !! i = Some x → b_lock x = SleepLock true pid → b_flags x = 0 → b_dev x = 1 →
  0 <= b_blockno x → d_img d !! Z.to_nat (b_blockno x) = Some blk →
  iderw i (cpu0 pid) (BState bufs d) =
  Ret tt (cpu0 pid) (BState (<[i := set_flags (λ _, B_VALID) (set_data blk x)]> bufs) d).
Proof.
  intros Hx Hl Hf Hd Hn Hblk. pose proof (lookup_lt_Some _ _ _ Hblk).
  unfold iderw. erewrite bind_eq; [|by apply buf_holdingsleep_eq].
  rewrite Hl. cbn [sl_locked sl_pid]. rewrite Z.eqb_refl. cbn [andb negb].
  erewrite bind_eq; [|done]. bstep. rewrite Hf. erewrite bind_eq; [|done].
  rewrite Hd. erewrite bind_eq; [|done]. erewrite bind_eq; [|done]. cbn [bs_disk].
  replace (Z.of_nat (length (d_img d)) <=? b_blockno x) with false by lia.
  erewrite bind_eq; [|done]. cbv zeta.
  change (negb (Z.land 0 B_DIRTY =? 0)) with false. cbv iota.
  unfold bind at 1 2. rewrite Hblk. cbn [deref ret].
  erewrite upd_buf_eq by done. cbn [bs_buf bs_disk].
  erewrite upd_buf_eq by (by eapply lookup_insert_same).
  cbn [bs_buf bs_disk]. rewrite list_insert_insert_eq. unfold set_flags, set_data. cbn. by rewrite Hf.
Qed.

(** [iderw] on a held dirty buffer: the block is written. *)
Lemma iderw_write pid bufs d i x :
  bufs !! i = Some x → b_lock x = SleepLock true pid → b_flags x = B_PINNED → b_dev x = 1 →
  0 <= b_blockno x < Z.of_nat (length (d_img d)) →
  iderw i (cpu0 pid) (BState bufs d) =
  Ret tt (cpu0 pid) (BState (<[i := set_flags (λ _, B_VALID) x]> bufs)
                       (disk_write (b_blockno x) (b_data x) d)).
Proof.
  intros Hx Hl Hf Hd Hn.
  unfold iderw. erewrite bind_eq; [|by apply buf_holdingsleep_eq].
  rewrite Hl. cbn [sl_locked sl_pid]. rewrite Z.eqb_refl. cbn [andb negb].
  erewrite bind_eq; [|done]. bstep. rewrite Hf. erewrite bind_eq; [|done].
  rewrite Hd. erewrite bind_eq; [|done]. erewrite bind_eq; [|done]. cbn [bs_disk].
  replace (Z.of_nat (length (d_img d)) <=? b_blockno x) with false by lia.
  erewrite bind_eq; [|done]. cbv zeta.
  change (negb (Z.land B_PINNED B_DIRTY =? 0)) with true. cbv iota.
  unfold bind at 1 2. erewrite upd_buf_eq by done. unfold modify. cbn [bs_buf bs_disk].
  erewrite upd_buf_eq by (by eapply lookup_insert_same).
  cbn [bs_buf bs_disk]. rewrite list_insert_insert_eq. unfold set_flags, disk_write. cbn. by rewrite Hf.
Qed.

Definition unheld (a : cabs) (n : Z) : Prop := ∀ i m, ca_held a !! i ≠ Some (n, m).

(** A free buffer [i] taken for the uncached block [n] and filled from the disk. *)
Lemma brel_recycle pid bufs a i x n blk :
  brel pid (BState bufs (ca_disk a)) a → (∀ j, ¬ caches bufs j n) → 0 <= n →
  (i < nbuf)%nat → bufs !! i = Some x → ca_held a !! i = None → b_flags x ≠ B_PINNED →
  ca_view a !! Z.to_nat n = Some blk →
  brel pid
    (BState (<[i := Buf B_VALID 1 n (SleepLock true pid) 1 (b_prev x) (b_next x) blk]> bufs)
       (ca_disk a))
    (ca_hold i n false a).
Proof.
  intros HR Hc Hn Hi Hx Hh Hpin Hblk. set (y := Buf _ _ _ _ _ _ _ _).
  pose proof (lookup_lt_Some _ _ _ Hx) as Hlt.
  pose proof (brel_uncached _ _ _ HR n Hn Hc) as Hvn. rewrite Hblk in Hvn. symmetry in Hvn.
  assert (∀ j m, j ≠ i → caches (<[i:=y]> bufs) j m ↔ caches bufs j m) as Hcj.
  { intros j m Hj. unfold caches. by rewrite list_lookup_insert_ne. }
  assert (∀ m, caches (<[i:=y]> bufs) i m ↔ m = n) as Hci.
  { intros m. unfold caches. rewrite list_lookup_insert_eq by done. naive_solver. }
  pose proof (brel_buf _ _ _ HR i x Hi Hx) as [Hfl Hdev Hoth Hcl Hlk].
  split; cbn [bs_buf bs_disk ca_hold ca_view ca_disk ca_held ca_dirty];
    try apply HR; try done.
  - rewrite length_insert. apply (brel_len _ _ _ HR).
  - destruct (brel_ring _ _ _ HR) as [l Hl]. exists l. by eapply ring_insert.
  - intros j z Hj Hz. destruct (decide (i = j)) as [<-|Hij].
    + rewrite list_lookup_insert_eq in Hz by done. injection Hz as <-.
      split; cbn; rewrite ?lookup_insert_eq; try done; [naive_solver| |naive_solver].
      intros _. do 4 (split; [done|]).
      intros [k Hk]%(brel_dirty _ _ _ HR). by destruct (Hc k).
    + rewrite list_lookup_insert_ne in Hz by done.
      destruct (brel_buf _ _ _ HR j z Hj Hz) as [H1 H2 H3 H4 H5].
      split; cbn; rewrite ?lookup_insert_ne by done; done.
  - intros j k m Hj Hk. destruct (decide (j = i)) as [->|], (decide (k = i)) as [->|]; try done.
    + apply Hci in Hj as ->. apply Hcj in Hk; [|done]. by destruct (Hc k).
    + apply Hci in Hk as ->. apply Hcj in Hj; [|done]. by destruct (Hc j).
    + apply Hcj in Hj, Hk; try done. by apply (brel_uniq _ _ _ HR j k m).
  - intros m Hm Hunc.
    destruct (decide (b_dev x = 1 ∧ b_blockno x = m)) as [[Hd <-]|Hne].
    + (* the block whose buffer was recycled *)
      destruct (Hdev Hd) as (? & ? & Hv & _). rewrite Hv.
      destruct (Hcl Hd) as [[m Hm']|Himg]; [|congruence|done].
      destruct Hfl as [?|[?|?]]; done.
    + apply (brel_uncached _ _ _ HR); [done|]. intros j Hj.
      destruct (decide (j = i)) as [->|]; [|by apply (Hunc j), Hcj].
      destruct Hj as [_ (x' & Hx' & ? & ?)]. cbn in Hx'. naive_solver.
  - intros m Hm. destruct (brel_dirty _ _ _ HR m Hm) as [j Hj]. exists j.
    apply Hcj; [|done]. intros ->. destruct Hj as [_ (x' & Hx' & Hd & Hb)]. cbn in Hx'.
    rewrite Hx in Hx'. injection Hx' as <-. apply Hpin. apply (Hdev Hd). by rewrite Hb.
  - intros j Hj. destruct (decide (j = i)) as [->|]; [done|].
    rewrite lookup_insert_ne in Hj by done. by apply (brel_held_dom _ _ _ HR).
Qed.

(** Taking the buffer of a cached block. *)
Lemma brel_hit pid bufs d a i n x :
  brel pid (BState bufs d) a → caches bufs i n → bufs !! i = Some x → ca_held a !! i = None →
  brel pid
    (BState (<[i := set_lock (SleepLock true pid) (set_refcnt (λ r, u32 (r + 1)) x)]> bufs) d)
    (ca_hold i n false a).
Proof.
  intros HR [Hi (x' & Hx' & Hd & Hb)] Hx Hh. rewrite Hx in Hx'. injection Hx' as <-.
  destruct (brel_buf _ _ _ HR i x Hi Hx) as [Hfl Hdev Hoth Hcl Hlk]. rewrite Hh in Hlk.
  eapply brel_key; try done; try apply HR.
  - split; try done. intros j Hj. by apply lookup_insert_ne.
  - split; cbn; rewrite ?lookup_insert_eq; try done.
    + intros _ Hfv. right. destruct (Hcl Hd Hfv) as [[m Hm]|]; [congruence|done].
    + destruct Hlk as [_ ->]. done.
Qed.

(** [bread] returns a buffer, until then not held, for the block asked for. *)
Lemma bread_spec pid s a n :
  brel pid s a → 0 <= n < Z.of_nat (length (ca_view a)) → unheld a n →
  n ∈ ca_dirty a ∨ (size (ca_dirty a) + size (ca_held a) < nbuf)%nat →
  runs (bread 1 n) (cpu0 pid) s (λ i c s',
    c = cpu0 pid ∧ ca_held a !! i = None ∧ brel pid s' (ca_hold i n false a)).
Proof.
  intros HR Hn Hun Hsize. destruct s as [bufs d].
  pose proof (brel_disk _ _ _ HR) as Hdk. cbn in Hdk. subst d.
  assert ((∃ i, caches bufs i n) ∨ ∀ i, ¬ caches bufs i n) as [[i Hc]|Hc].
  { destruct (brel_ring _ _ _ HR) as [l Hl]. pose proof (find_cached _ _ _ HR l n Hl) as Hf.
    cbn in Hf. destruct (find _ l); eauto. }
  - (* cached *)
    pose proof Hc as [Hi (x & Hx & Hd & Hb)].
    destruct (brel_buf _ _ _ HR i x Hi Hx) as [Hfl Hdev _ _ Hlk].
    assert (ca_held a !! i = None) as Hh.
    { destruct (ca_held a !! i) as [[m b]|] eqn:E; [|done].
      destruct Hlk as (_ & <- & _). subst. by destruct (Hun i b). }
    unfold bread. apply wp_bind. eapply eq_wp; [by apply (bget_hit _ _ _ a i n x)|].
    apply wp_bind. eapply eq_wp; [eapply bufp_eq; by eapply lookup_insert_same|].
    apply wp_bind. cbn [b_flags set_lock set_refcnt].
    replace (Z.land (b_flags x) B_VALID =? 0) with false
      by (destruct (Hdev Hd), Hfl as [?|[->| ->]]; done).
    apply wp_ret, wp_ret. do 2 (split; [done|]). by apply brel_hit.
  - (* not cached: recycle a buffer and read the block *)
    destruct Hsize as [[j Hj]%(brel_dirty _ _ _ HR)|Hsize]; [by destruct (Hc j)|].
    destruct (bget_miss _ _ _ _ _ HR Hc Hsize) as (i & x & Hi & Hx & Hh & Hpin & Heq).
    pose proof (brel_uncached _ _ _ HR n ltac:(lia) Hc) as Hvn.
    destruct (lookup_lt_is_Some_2 (ca_view a) (Z.to_nat n)) as [blk Hblk]; [lia|].
    rewrite Hblk in Hvn.
    unfold bread. apply wp_bind. eapply eq_wp; [done|].
    apply wp_bind. eapply eq_wp; [eapply bufp_eq; by eapply lookup_insert_same|].
    apply wp_bind. cbn [b_flags]. eapply eq_wp.
    { eapply (iderw_read _ _ _ _ _ blk); [by eapply lookup_insert_same|done..|cbn; lia|done]. }
    rewrite list_insert_insert_eq. apply wp_ret. do 2 (split; [done|]).
    by apply (brel_recycle _ _ _ _ x); try lia.
Qed.

(** A held buffer. *)
Lemma held_buf pid s a i n m :
  brel pid s a → ca_held a !! i = Some (n, m) →
  ∃ x, (i < nbuf)%nat ∧ bs_buf s !! i = Some x ∧ b_dev x = 1 ∧ b_blockno x = n ∧
    b_lock x = SleepLock true pid ∧ b_refcnt x = 1 ∧
    ca_view a !! Z.to_nat n = Some (b_data x) ∧ length (b_data x) = bsize ∧
    0 <= n < Z.of_nat (length (ca_view a)) ∧
    (b_flags x = B_VALID ∨ b_flags x = B_PINNED).
Proof.
  intros HR Hh. assert (i < nbuf)%nat as Hi by (apply (brel_held_dom _ _ _ HR); eauto).
  pose proof (brel_lookup _ _ _ HR i ltac:(lia)) as Hx.
  destruct (brel_buf _ _ _ HR i _ Hi Hx) as [Hfl Hdev Hoth Hcl Hlk]. rewrite Hh in Hlk.
  destruct Hlk as (Hd & Hb & Hl & Hr). destruct (Hdev Hd) as (Hf & Hpos & Hv & _).
  exists (bs_buf s !!! i). rewrite Hb in *.
  pose proof (lookup_lt_Some _ _ _ Hv) as Hlt.
  pose proof (Forall_lookup_1 _ _ _ _ (brel_view_len _ _ _ HR) Hv).
  repeat split; try done; try lia; naive_solver.
Qed.

(** Only one buffer is held for a block. *)
Lemma held_inj pid s a i j n m m' :
  brel pid s a → ca_held a !! i = Some (n, m) → ca_held a !! j = Some (n, m') → i = j.
Proof.
  intros HR Hi Hj.
  destruct (held_buf _ _ _ _ _ _ HR Hi) as (x & ? & ? & ? & ? & _).
  destruct (held_buf _ _ _ _ _ _ HR Hj) as (y & ? & ? & ? & ? & _).
  apply (brel_uniq _ _ _ HR i j n); split; eauto.
Qed.

Lemma bdata_spec pid s a i n m d :
  brel pid s a → ca_held a !! i = Some (n, m) → ca_view a !! Z.to_nat n = Some d →
  bdata i (cpu0 pid) s = Ret d (cpu0 pid) s.
Proof.
  intros HR Hh Hd. destruct (held_buf _ _ _ _ _ _ HR Hh) as (x & _ & Hx & _ & _ & _ & _ & Hv & _).
  unfold bdata. erewrite bind_eq; [|by apply bufp_eq]. simpl. unfold ret. congruence.
Qed.

(** Storing to a held buffer changes the block it holds, for everybody. *)
Lemma bstore_spec pid s a i n m f d :
  brel pid s a → ca_held a !! i = Some (n, m) → ca_view a !! Z.to_nat n = Some d →
  length (f d) = bsize →
  ∃ s', bstore i f (cpu0 pid) s = Ret tt (cpu0 pid) s' ∧ brel pid s' (ca_store i n (f d) a).
Proof.
  intros HR Hh Hd Hlen. destruct s as [bufs dk].
  destruct (held_buf _ _ _ _ _ _ HR Hh)
    as (x & Hi & Hx & Hdev & Hb & Hl & Hr & Hv & _ & Hn & Hfl). cbn in Hx.
  assert (b_data x = d) as <- by congruence.
  eexists. split; [unfold bstore; by erewrite upd_buf_eq|]. cbn [bs_buf bs_disk].
  pose proof (brel_buf _ _ _ HR i x Hi Hx) as [H1 H2 H3 H4 H5].
  eapply brel_key; try done; try apply HR.
  - split; cbn; try done.
    + apply length_insert.
    + intros k Hk. rewrite Hb in Hk. by apply list_lookup_insert_ne.
    + intros j Hj. by apply lookup_insert_ne.
  - split; cbn; rewrite ?lookup_insert_eq; try done.
    + intros _. destruct (H2 Hdev) as (? & ? & _ & Hdt). do 2 (split; [done|]).
      split; [rewrite Hb; by eapply lookup_insert_same|done].
    + intros _ _. left. eauto.
  - cbn. apply Forall_insert; [apply (brel_view_len _ _ _ HR)|done].
Qed.

(** Setting [B_DIRTY] on a held buffer pins its block in the cache. *)
Lemma pin_spec pid c s a i n m :
  brel pid s a → ca_held a !! i = Some (n, m) →
  ∃ s', upd_buf i (set_flags (λ f, Z.lor f B_DIRTY)) c s = Ret tt c s' ∧
        brel pid s' (ca_pin i n a).
Proof.
  intros HR Hh. destruct s as [bufs dk].
  destruct (held_buf _ _ _ _ _ _ HR Hh)
    as (x & Hi & Hx & Hdev & Hb & Hl & Hr & Hv & _ & Hn & Hfl). cbn in Hx.
  eexists. split; [by erewrite upd_buf_eq|]. cbn [bs_buf bs_disk].
  pose proof (brel_buf _ _ _ HR i x Hi Hx) as [H1 H2 H3 H4 H5].
  assert (b_flags (set_flags (λ f, Z.lor f B_DIRTY) x) = B_PINNED) as Hpin.
  { cbn. destruct Hfl as [->| ->]; done. }
  eapply brel_key; try done; try apply HR.
  - split; cbn; try done.
    + intros k Hk. rewrite Hb in Hk. set_solver.
    + intros j Hj. by apply lookup_insert_ne.
  - split; try done; rewrite ?Hpin; cbn [ca_pin ca_held]; rewrite ?lookup_insert_eq; try done.
    + auto.
    + intros _. destruct (H2 Hdev) as (? & ? & ? & ?). repeat split; try done.
      intros _. cbn. rewrite Hb. set_solver.
Qed.

(** [bwrite] writes the held block to the disk. *)
Lemma bwrite_spec pid s a i n m d :
  brel pid s a → ca_held a !! i = Some (n, m) → ca_view a !! Z.to_nat n = Some d →
  ∃ s', bwrite i (cpu0 pid) s = Ret tt (cpu0 pid) s' ∧ brel pid s' (ca_write i n d a).
Proof.
  intros HR Hh Hd. destruct s as [bufs dk].
  destruct (held_buf _ _ _ _ _ _ HR Hh)
    as (x & Hi & Hx & Hdev & Hb & Hl & Hr & Hv & Hlen & Hn & Hfl). cbn in Hx.
  assert (b_data x = d) as <- by congruence.
  pose proof (brel_disk _ _ _ HR) as Hdk. cbn in Hdk. subst dk.
  pose proof (brel_size _ _ _ HR) as Hsz.
  eexists. split.
  { unfold bwrite. erewrite bind_eq; [|by apply buf_holdingsleep_eq].
    rewrite Hl. cbn [sl_locked sl_pid]. rewrite Z.eqb_refl. cbn [andb negb].
    erewrite bind_eq; [|done]. bstep.
    erewrite iderw_write; [|by eapply lookup_insert_same|done|..|cbn; lia]; [done| |done].
    cbn. destruct Hfl as [->| ->]; done. }
  rewrite list_insert_insert_eq.
  pose proof (brel_buf _ _ _ HR i x Hi Hx) as [H1 H2 H3 H4 H5].
  eapply brel_key; try done; try apply HR; cbn.
  - split; cbn; try done.
    + apply length_insert.
    + intros k Hk. rewrite Hb in Hk. by apply list_lookup_insert_ne.
    + intros k Hk. rewrite Hb in Hk. set_solver.
    + intros j Hj. by apply lookup_insert_ne.
  - split; cbn; rewrite ?lookup_insert_eq; try done.
    + auto.
    + intros _. destruct (H2 Hdev) as (? & ? & ? & ?). repeat split; try done.
      set_solver.
    + intros _ _. right. rewrite Hb. apply list_lookup_insert_eq. lia.
  - by rewrite Hb.
  - apply Forall_insert; [apply (brel_img_len _ _ _ HR)|done].
Qed.

(** The stores of [brelse] keep everything but the links. *)
Lemma relink_lookup b bufs i x :
  relink b bufs !! i = Some x →
  ∃ y p q, bufs !! i = Some y ∧ x = set_prev p (set_next q y).
Proof.
  assert (∀ g j (B : list buf),
    (∀ z, ∃ p q, g z = set_prev p (set_next q z)) →
    (∀ i x, B !! i = Some x → ∃ y p q, bufs !! i = Some y ∧ x = set_prev p (set_next q y)) →
    ∀ i x, alter g j B !! i = Some x → ∃ y p q, bufs !! i = Some y ∧ x = set_prev p (set_next q y))
    as Hstep.
  { intros g j B Hg HB k z Hz. rewrite list_lookup_alter in Hz. case_decide; [|by apply HB].
    subst. destruct (B !! k) as [w|] eqn:Hw; [|done]. simpl in Hz. injection Hz as <-.
    destruct (HB _ _ Hw) as (y & p & q & ? & ->). destruct (Hg (set_prev p (set_next q y))) as (p' & q' & ->).
    by exists y, p', q'. }
  assert (∀ v z, ∃ p q, set_prev v z = set_prev p (set_next q z)) as Hp.
  { intros v z. exists v, (b_next z). by destruct z. }
  assert (∀ v z, ∃ p q, set_next v z = set_prev p (set_next q z)) as Hq.
  { intros v z. exists (b_prev z), v. by destruct z. }
  unfold relink. do 6 (apply Hstep; [auto|]).
  intros k z Hz. exists z, (b_prev z), (b_next z). split; [done|]. by destruct z.
Qed.

(** [brel] does not depend on the order of the LRU list. *)
Lemma brel_links pid bufs bufs' d a l :
  brel pid (BState bufs d) a → length bufs' = length bufs → ring bufs' l →
  (∀ i x, bufs' !! i = Some x → ∃ y p q, bufs !! i = Some y ∧ x = set_prev p (set_next q y)) →
  brel pid (BState bufs' d) a.
Proof.
  intros HR Hlen Hl Hsub.
  assert (∀ i n, caches bufs' i n ↔ caches bufs i n) as Hc.
  { intros i n. unfold caches. split; intros (Hi & x & Hx & Hd & Hb); (split; [done|]).
    - apply Hsub in Hx as (y & p & q & Hy & ->). eauto.
    - destruct (lookup_lt_is_Some_2 bufs' i) as [x' Hx'].
      { rewrite Hlen. by eapply lookup_lt_Some. }
      destruct (Hsub _ _ Hx') as (y & p & q & Hy & ->). exists (set_prev p (set_next q y)).
      rewrite Hx in Hy. injection Hy as <-. done. }
  split; cbn [bs_buf bs_disk]; try apply HR.
  - rewrite Hlen. apply (brel_len _ _ _ HR).
  - eauto.
  - intros i x Hi Hx. destruct (Hsub _ _ Hx) as (y & p & q & Hy & ->).
    by destruct (brel_buf _ _ _ HR i y Hi Hy).
  - intros i j n. rewrite !Hc. apply (brel_uniq _ _ _ HR).
  - intros n Hn Hun. setoid_rewrite Hc in Hun. by apply (brel_uncached _ _ _ HR).
  - intros n Hn. setoid_rewrite Hc. by apply (brel_dirty _ _ _ HR).
Qed.

Lemma bufp_total b c bufs d :
  (b < length bufs)%nat → bufp b c (BState bufs d) = Ret (bufs !!! b) c (BState bufs d).
Proof. intros. apply bufp_eq. by apply list_lookup_lookup_total_lt. Qed.

Lemma upd_buf_alter b f c bufs d :
  (b < length bufs)%nat →
  upd_buf b f c (BState bufs d) = Ret tt c (BState (alter f b bufs) d).
Proof.
  intros Hb. unfold upd_buf, bind, get, modify. cbn.
  by destruct (lookup_lt_is_Some_2 bufs b Hb) as [x ->].
Qed.

(** The conditional block of [brelse] runs the stores of [relink]. *)
Lemma relink_run b bufs d c (k : M bstate unit) :
  (b < length bufs)%nat → (head < length bufs)%nat →
  (nxt bufs b < length bufs)%nat → (prv bufs b < length bufs)%nat →
  (fupd (nxt bufs) (prv bufs b) (nxt bufs b) head < length bufs)%nat → b ≠ head →
  bind (upd_buf (nxt bufs b) (set_prev (prv bufs b)) ;;
        upd_buf (prv bufs b) (set_next (nxt bufs b)) ;;
        h <- bufp head ;;
        upd_buf b (set_next (b_next h)) ;;
        upd_buf b (set_prev head) ;;
        h <- bufp head ;;
        upd_buf (b_next h) (set_prev b) ;;
        upd_buf head (set_next b)) (λ _, k) c (BState bufs d)
  = k c (BState (relink b bufs) d).
Proof.
  intros Hb Hh Hn Hp Hf Hbh. unfold bind at 1.
  rewrite (bind_eq _ _ _ _ tt c _ (upd_buf_alter _ _ _ _ _ Hn)).
  erewrite bind_eq; [|apply upd_buf_alter; by rewrite length_alter].
  erewrite bind_eq; [|apply bufp_total; by rewrite !length_alter].
  erewrite bind_eq; [|apply upd_buf_alter; by rewrite !length_alter].
  erewrite bind_eq; [|apply upd_buf_alter; by rewrite !length_alter].
  erewrite bind_eq; [|apply bufp_total; by rewrite !length_alter].
  erewrite bind_eq; [|apply upd_buf_alter; rewrite !length_alter].
  2:{ fold (nxt (alter (set_prev head) b
        (alter (set_next (b_next (alter (set_next (nxt bufs b)) (prv bufs b)
             (alter (set_prev (prv bufs b)) (nxt bufs b) bufs) !!! head))) b
         (alter (set_next (nxt bufs b)) (prv bufs b)
            (alter (set_prev (prv bufs b)) (nxt bufs b) bufs)))) head).
      rewrite nxt_keep by done. rewrite nxt_set_next by (by rewrite !length_alter).
      unfold fupd at 1. rewrite decide_False by done.
      rewrite nxt_set_next by (by rewrite !length_alter).
      unfold fupd at 1. case_decide; [done|]. rewrite nxt_keep by done.
      unfold fupd in Hf. by rewrite decide_False in Hf. }
  rewrite upd_buf_alter by (by rewrite !length_alter). done.
Qed.

Lemma brel_drop pid bufs d a i n x :
  brel pid (BState bufs d) a → ca_held a !! i = Some (n, false) → bufs !! i = Some x →
  brel pid (BState (<[i := set_refcnt (λ _, 0) (set_lock (SleepLock false 0) x)]> bufs) d)
    (ca_drop i a).
Proof.
  intros HR Hh Hx.
  destruct (held_buf _ _ _ _ _ _ HR Hh)
    as (x' & Hi & Hx' & Hdev & Hb & Hl & Hr & Hv & Hlen & Hn & Hfl). cbn in Hx'.
  rewrite Hx in Hx'. injection Hx' as <-.
  pose proof (brel_buf _ _ _ HR i x Hi Hx) as [H1 H2 H3 H4 H5].
  eapply brel_key; try done; try apply HR.
  - split; try done. intros j Hj. by apply lookup_delete_ne.
  - split; cbn; rewrite ?lookup_delete_eq; try done.
    intros _ Hf. right. destruct (H4 Hdev Hf) as [[k Hk]|]; [congruence|done].
Qed.

(** [brelse] gives up a buffer whose contents are on the disk or pinned. *)
Lemma brelse_spec pid s a i n :
  brel pid s a → ca_held a !! i = Some (n, false) →
  ∃ s', brelse i (cpu0 pid) s = Ret tt (cpu0 pid) s' ∧ brel pid s' (ca_drop i a).
Proof.
  intros HR Hh. destruct s as [bufs d].
  destruct (held_buf _ _ _ _ _ _ HR Hh) as (x & Hi & Hx & _ & _ & Hl & Hr & _). cbn in Hx.
  pose proof (brel_drop _ _ _ _ _ _ _ HR Hh Hx) as HR'.
  set (bufs' := <[i := _]> bufs) in *.
  pose proof (brel_len _ _ _ HR') as Hlen. cbn in Hlen.
  destruct (brel_ring _ _ _ HR') as [l Hring]. cbn in Hring.
  assert (i ∈ l) as (l1 & l2 & ->)%list_elem_of_split by (by apply (ring_elem _ _ i Hring)).
  assert (∀ j, j ∈ l1 ++ i :: l2 → (j < nbuf)%nat) as Hel
    by (intros j Hj; by apply (ring_elem _ _ j Hring)).
  pose proof (ring_next_b _ _ _ _ Hring) as Hnb. pose proof (ring_prev_b _ _ _ _ Hring) as Hpb.
  assert (∀ L, (∀ j, j ∈ L → (j < nbuf)%nat) → (default head (hd_error L) < S nbuf)%nat) as Hhd.
  { intros [|z L] HL; simpl; [lia|]. assert (z < nbuf)%nat; [apply HL; set_solver|lia]. }
  assert (nxt bufs' i < S nbuf)%nat by (rewrite Hnb; apply Hhd; set_solver).
  assert (prv bufs' i < S nbuf)%nat.
  { rewrite Hpb, <- (rev_involutive l1), last_rev. apply Hhd. intros j Hj. apply Hel.
    rewrite list_elem_of_In, <- in_rev, <- list_elem_of_In in Hj. set_solver. }
  eexists. split.
  - unfold brelse. erewrite bind_eq; [|by apply buf_holdingsleep_eq].
    rewrite Hl. cbn [sl_locked sl_pid]. rewrite Z.eqb_refl. cbn [andb negb].
    erewrite bind_eq; [|done]. erewrite bind_eq; [|by apply buf_releasesleep_eq].
    bstep. bstep. bstep. unfold when.
    replace (set_refcnt (λ r, u32 (r - 1)) (set_lock (SleepLock false 0) x))
      with (set_refcnt (λ _, 0) (set_lock (SleepLock false 0) x))
      by (unfold set_refcnt; cbn; by rewrite Hr).
    fold bufs'. cbn [b_refcnt b_next b_prev set_refcnt set_lock]. cbv iota. change (0 =? 0) with true.
    cbv iota.
    assert (bufs' !!! i = set_refcnt (λ _, 0) (set_lock (SleepLock false 0) x)) as Hti.
    { apply list_lookup_total_correct. by eapply lookup_insert_same. }
    replace (b_next x) with (nxt bufs' i) by (unfold nxt; by rewrite Hti).
    replace (b_prev x) with (prv bufs' i) by (unfold prv; by rewrite Hti).
    rewrite relink_run; [apply release_cpu1|try lia..].
    rewrite Hlen, Hpb.
    pose proof (chain_unlink _ _ _ _ _ _ (ring_NoDup _ _ Hring) (ring_next _ _ Hring)) as Hun.
    apply chain_first in Hun. rewrite Hun. apply Hhd. set_solver.
  - eapply brel_links; [done|apply relink_length|by apply ring_relink|].
    intros j y Hy. by apply relink_lookup in Hy.
Qed.

(** * Initialisation *)

Definition binit_bufs : list buf :=
  match binit (cpu0 0) (bstate0 []) with Ret _ _ s => bs_buf s | _ => [] end.

Lemma binit_eq pid img :
  binit (cpu0 pid) (bstate0 img) = Ret tt (cpu0 pid) (BState binit_bufs (Disk img [])).
Proof. vm_compute. reflexivity. Qed.

Lemma binit_ring : ring binit_bufs (rev (seq 0 nbuf)).
Proof.
  split.
  - symmetry. apply Permutation_rev.
  - vm_compute. repeat split.
  - vm_compute. repeat split.
Qed.

Lemma binit_free i x :
  binit_bufs !! i = Some x →
  b_flags x = 0 ∧ b_dev x = 0 ∧ sl_locked (b_lock x) = false ∧ b_refcnt x = 0.
Proof.
  intros Hx.
  assert (forallb (λ b, (b_flags b =? 0) && (b_dev b =? 0) && negb (sl_locked (b_lock b)) &&
                        (b_refcnt b =? 0)) binit_bufs = true) as Hall by (vm_compute; done).
  rewrite forallb_forall in Hall.
  specialize (Hall x). rewrite <- list_elem_of_In in Hall.
  ospecialize (Hall _); [by eapply list_elem_of_lookup_2|].
  rewrite !andb_true_iff, negb_true_iff in Hall. repeat split; try lia; apply Hall.
Qed.

(** The abstract state of a freshly initialised cache: nothing held, nothing pinned. *)
Definition ca_init (img : list (list Z)) : cabs := CAbs img (Disk img []) ∅ ∅.

Lemma binit_brel pid img :
  Forall (λ b, length b = bsize) img →
  brel pid (BState binit_bufs (Disk img [])) (ca_init img).
Proof.
  intros Himg.
  assert (∀ i n, ¬ caches binit_bufs i n) as Hno.
  { intros i n (_ & x & (_ & Hd & _)%binit_free & ? & _). congruence. }
  split; cbn [bs_buf bs_disk ca_init ca_view ca_disk ca_held ca_dirty d_img].
  - vm_compute. reflexivity.
  - exists (rev (seq 0 nbuf)). apply binit_ring.
  - intros i x _ (Hf & Hd & Hl & Hr)%binit_free.
    split; rewrite ?Hf, ?Hd; try done; auto.
  - intros i j n H. by apply Hno in H.
  - reflexivity.
  - reflexivity.
  - done.
  - done.
  - reflexivity.
  - intros n Hn. set_solver.
  - intros i. rewrite lookup_empty. by intros [].
Qed.
