(* ===== verification/BioProps.v ===== *)
(** The guarantees of the buffer cache to its clients. *)
From stdpp Require Import base list numbers strings sets gmap.
From Stdlib Require Import ZArith Lia.
From S2P Require Import Prelude Params Machine Spinlock Sleeplock Bio BioRing BioSpec.
Local Open Scope Z_scope.
Local Open Scope xv6_scope.

(** A client's use of the cache: read a block, or overwrite one. *)
Inductive bop := BRead (n : Z) | BWrite (n : Z) (d : list Z).

Definition run_bop (o : bop) : M bstate (list Z) :=
  match o with
  | BRead n => b <- bread ROOTDEV n ;; d <- bdata b ;; brelse b ;; ret d
  | BWrite n d => b <- bread ROOTDEV n ;; bstore b (λ _, d) ;; bwrite b ;; brelse b ;; ret []
  end.

Fixpoint run_bops (os : list bop) : M bstate (list (list Z)) :=
  match os with
  | [] => ret []
  | o :: os' => r <- run_bop o ;; rs <- run_bops os' ;; ret (r :: rs)
  end.

(** What the cache is meant to look like: the disk alone. *)
Definition spec_bop (o : bop) (img : list (list Z)) : list Z * list (list Z) :=
  match o with
  | BRead n => (img !!! Z.to_nat n, img)
  | BWrite n d => ([], <[Z.to_nat n := d]> img)
  end.

Fixpoint spec_bops (os : list bop) (img : list (list Z)) : list (list Z) * list (list Z) :=
  match os with
  | [] => ([], img)
  | o :: os' =>
      let '(r, img') := spec_bop o img in
      let '(rs, img'') := spec_bops os' img' in (r :: rs, img'')
  end.

Definition bop_ok (nb : nat) (o : bop) : Prop :=
  match o with
  | BRead n => 0 <= n < Z.of_nat nb
  | BWrite n d => 0 <= n < Z.of_nat nb ∧ length d = bsize
  end.

(** The cache with nothing held and nothing pinned, over the image [img]. *)
Definition idle (pid : Z) (s : bstate) (img : list (list Z)) : Prop :=
  ∃ dk, d_img dk = img ∧ brel pid s (CAbs img dk ∅ ∅).

Section refine.
Context (pid : Z).

Lemma run_bop_spec s img o :
  idle pid s img → bop_ok (length img) o →
  runs (run_bop o) (cpu0 pid) s (λ r c s', c = cpu0 pid ∧ r = (spec_bop o img).1 ∧
    idle pid s' (spec_bop o img).2).
Proof.
  intros (dk & Hdk & HR) Hok.
  assert (∀ n, 0 <= n < Z.of_nat (length img) →
    runs (bread ROOTDEV n) (cpu0 pid) s (λ i c s', c = cpu0 pid ∧
      brel pid s' (CAbs img dk {[i := (n, false)]} ∅))) as Hread.
  { intros n Hn. wp_use bread_spec; [done|done|by intros i m| |].
    - right. cbn. rewrite size_empty, map_size_empty. sizes. lia.
    - intros i c s' (-> & _ & H). split; [done|]. unfold ca_hold in H. cbn in H.
      by rewrite insert_empty in H. }
  destruct o as [n|n d]; cbn in Hok.
  - apply wp_bind. wp_use Hread; [done|]. intros i c s1 [-> HR1].
    assert (img !! Z.to_nat n = Some (img !!! Z.to_nat n)) as Hd
      by (apply list_lookup_lookup_total_lt; lia).
    apply wp_bind. eapply eq_wp; [eapply (bdata_spec _ _ _ i n); [done|apply lookup_singleton_eq|done]|].
    destruct (brelse_spec pid s1 _ i n HR1) as (s2 & Heq & HR2); [apply lookup_singleton_eq|].
    apply wp_bind. eapply eq_wp; [done|]. apply wp_ret. split; [done|]. split; [done|].
    exists dk. split; [done|]. unfold ca_drop in HR2. cbn in HR2.
    by rewrite delete_singleton_eq in HR2.
  - destruct Hok as [Hn Hlen]. apply wp_bind. wp_use Hread; [done|]. intros i c s1 [-> HR1].
    destruct (lookup_lt_is_Some_2 img (Z.to_nat n)) as [d0 Hd0]; [lia|].
    destruct (bstore_spec pid s1 _ i n false (λ _, d) d0 HR1) as (s2 & Heq & HR2);
      [apply lookup_singleton_eq|done|done|].
    apply wp_bind. eapply eq_wp; [done|].
    destruct (bwrite_spec pid s2 _ i n true d HR2) as (s3 & Heq3 & HR3).
    { cbn. by rewrite lookup_insert_eq. }
    { cbn. apply list_lookup_insert_eq. lia. }
    apply wp_bind. eapply eq_wp; [done|].
    destruct (brelse_spec pid s3 _ i n HR3) as (s4 & Heq4 & HR4); [cbn; by rewrite lookup_insert_eq|].
    apply wp_bind. eapply eq_wp; [done|]. apply wp_ret. split; [done|]. split; [done|].
    exists (disk_write n d dk). split; [by cbn; rewrite Hdk|].
    unfold ca_drop, ca_write, ca_store in HR4. cbn in HR4.
    rewrite !insert_singleton_eq, delete_singleton_eq in HR4.
    replace (∅ ∖ {[n]}) with (∅ : gset Z) in HR4 by set_solver. exact HR4.
Qed.

Lemma spec_bop_length o img : length (spec_bop o img).2 = length img.
Proof. destruct o; cbn; [done|apply length_insert]. Qed.

Lemma run_bops_spec os s img :
  idle pid s img → Forall (bop_ok (length img)) os →
  runs (run_bops os) (cpu0 pid) s (λ rs c s', c = cpu0 pid ∧ rs = (spec_bops os img).1 ∧
    idle pid s' (spec_bops os img).2).
Proof.
  revert s img. induction os as [|o os IH]; intros s img Hs Hok; [by apply wp_ret|].
  apply Forall_cons in Hok as [Ho Hok]. cbn [run_bops spec_bops].
  apply wp_bind. wp_use run_bop_spec; [done|done|]. intros r c s1 (-> & -> & Hs1).
  pose proof (spec_bop_length o img) as Hlen. destruct (spec_bop o img) as [r img1]. cbn in *.
  apply wp_bind. wp_use IH; [done|by rewrite Hlen|]. intros rs c s2 (-> & -> & Hs2).
  destruct (spec_bops os img1). by apply wp_ret.
Qed.
End refine.

(** C4: The cache refines the disk.  After [binit], any sequence of block reads and
    block writes through the cache (bread, brelse; bread, bwrite, brelse) runs to
    the end, returns what the same operations return on the bare disk, whatever was
    cached, recycled or evicted on the way, and leaves the same disk behind. *)
Theorem bcache_refines_disk pid img os :
  Forall (λ b, length b = bsize) img → Forall (bop_ok (length img)) os →
  ∃ s, (binit ;; run_bops os) (cpu0 pid) (bstate0 img) =
         Ret (spec_bops os img).1 (cpu0 pid) s ∧
       d_img (bs_disk s) = (spec_bops os img).2.
Proof.
  intros Himg Hok. rewrite (bind_eq _ _ _ _ tt (cpu0 pid) _ (binit_eq pid img)).
  assert (idle pid (BState binit_bufs (Disk img [])) img) as Hidle.
  { exists (Disk img []). split; [done|]. by apply binit_brel. }
  pose proof (run_bops_spec pid os _ _ Hidle Hok) as Hrun.
  apply runs_eq in Hrun as (rs & c & s & Heq & -> & -> & dk & Hdk & HR).
  exists s. split; [done|]. by rewrite (brel_disk _ _ _ HR).
Qed.

Lemma bcache_refines_disk_witness :
  let img := replicate 40 (replicate bsize 0) in
  let os := BWrite 3 (replicate bsize 9) :: (BRead <$> seqZ 4 35) ++ [BRead 3] in
  ∃ s, (binit ;; run_bops os) (cpu0 1) (bstate0 img) =
         Ret (spec_bops os img).1 (cpu0 1) s ∧
       d_img (bs_disk s) = (spec_bops os img).2.
Proof.
  intros img os. apply (bcache_refines_disk 1 img os).
  - apply Forall_replicate. apply length_replicate.
  - unfold img, os. rewrite length_replicate. repeat constructor; cbn; lia.
Defined.
