(* ===== verification/Log.v ===== *)
(** The write-ahead log ([log.c]) and the superblock it is configured from
    ([readsb] of fs.c). *)
From stdpp Require Import base list numbers strings sets gmap.
From Stdlib Require Import ZArith Lia.
From S2P Require Import Prelude Params Machine Spinlock Sleeplock Bio.
Local Open Scope Z_scope.
Local Open Scope xv6_scope.

(** * State *)

(** [struct superblock] of fs.h. *)
Record superblock := Superblock {
  sb_size : Z;
  sb_nblocks : Z;
  sb_ninodes : Z;
  sb_nlog : Z;
  sb_logstart : Z;
  sb_inodestart : Z;
  sb_bmapstart : Z;
}.

(** The superblock stored at the beginning of a block. *)
Definition sb_decode (d : list Z) : superblock :=
  Superblock (rd 4 0 d) (rd 4 4 d) (rd 4 8 d) (rd 4 12 d) (rd 4 16 d) (rd 4 20 d) (rd 4 24 d).

(** [struct log], with its [struct logheader lh] as [l_n] and [l_block]. *)
Record log := Log {
  l_start : Z;
  l_size : Z;
  l_outstanding : Z;
  l_committing : Z;
  l_dev : Z;
  l_n : Z;
  l_block : list Z;
}.

Record lstate := LState {
  ls_b : bstate;
  ls_log : log;
}.

Definition set_start (v : Z) (l : log) : log :=
  Log v (l_size l) (l_outstanding l) (l_committing l) (l_dev l) (l_n l) (l_block l).
Definition set_size (v : Z) (l : log) : log :=
  Log (l_start l) v (l_outstanding l) (l_committing l) (l_dev l) (l_n l) (l_block l).
Definition set_outstanding (v : Z) (l : log) : log :=
  Log (l_start l) (l_size l) v (l_committing l) (l_dev l) (l_n l) (l_block l).
Definition set_committing (v : Z) (l : log) : log :=
  Log (l_start l) (l_size l) (l_outstanding l) v (l_dev l) (l_n l) (l_block l).
Definition set_ldev (v : Z) (l : log) : log :=
  Log (l_start l) (l_size l) (l_outstanding l) (l_committing l) v (l_n l) (l_block l).
Definition set_n (v : Z) (l : log) : log :=
  Log (l_start l) (l_size l) (l_outstanding l) (l_committing l) (l_dev l) v (l_block l).
Definition set_block (b : list Z) (l : log) : log :=
  Log (l_start l) (l_size l) (l_outstanding l) (l_committing l) (l_dev l) (l_n l) b.

(** [log] in zeroed memory. *)
Definition log0 : log := Log 0 0 0 0 0 0 (replicate logsize 0).

(** * Operations *)

(** An operation of the buffer cache, seen from the log. *)
Definition bio {A} (m : M bstate A) : M lstate A := lift ls_b (λ b s, LState b (ls_log s)) m.
Definition getlog : M lstate log := gets ls_log.
Definition modlog (f : log → log) : M lstate unit := modify (λ s, LState (ls_b s) (f (ls_log s))).

(** [log.lh.block[i] = v]; undefined outside the array. *)
Definition set_lh_block (i v : Z) : M lstate unit :=
  l <- getlog ;;
  if bool_decide (0 <= i < LOGSIZE)
  then modlog (λ l, set_block (<[Z.to_nat i := v]> (l_block l)) l)
  else fault.
(** [log.lh.block[i]]. *)
Definition lh_block (i : Z) : M lstate Z :=
  l <- getlog ;; deref (l_block l !! Z.to_nat i).

(** fs.c *)
Definition readsb (dev : Z) : M bstate superblock :=
  bp <- bread dev 1 ;;
  d <- bdata bp ;;
  brelse bp ;;
  ret (sb_decode d).

(** Copy committed blocks from log to their home location. *)
Definition install_trans : M lstate unit :=
  l <- getlog ;;
  for_each (seqZ 0 (l_n l)) (λ tail,
    l <- getlog ;;
    lbuf <- bio (bread (l_dev l) (u32 (l_start l + tail + 1))) ;;
    home <- lh_block tail ;;
    dbuf <- bio (bread (l_dev l) (u32 home)) ;;
    d <- bio (bdata lbuf) ;;
    bio (bstore dbuf (λ _, d)) ;;
    bio (bwrite dbuf) ;;
    bio (brelse lbuf) ;;
    bio (brelse dbuf)).

(** Read the log header from disk into the in-memory log header. *)
Definition read_head : M lstate unit :=
  l <- getlog ;;
  buf <- bio (bread (l_dev l) (u32 (l_start l))) ;;
  lh <- bio (bdata buf) ;;
  modlog (set_n (s32 (rd 4 0 lh))) ;;
  for_each (seqZ 0 (s32 (rd 4 0 lh))) (λ i,
    set_lh_block i (s32 (rd 4 (Z.to_nat (4 + 4 * i)) lh))) ;;
  bio (brelse buf).

(** Write in-memory log header to disk. *)
Definition write_head : M lstate unit :=
  l <- getlog ;;
  buf <- bio (bread (l_dev l) (u32 (l_start l))) ;;
  bio (bstore buf (wr 4 0 (l_n l))) ;;
  for_each (seqZ 0 (l_n l)) (λ i,
    v <- lh_block i ;;
    bio (bstore buf (wr 4 (Z.to_nat (4 + 4 * i)) v))) ;;
  bio (bwrite buf) ;;
  bio (brelse buf).

Definition recover_from_log : M lstate unit :=
  read_head ;;
  install_trans ;;
  modlog (set_n 0) ;;
  write_head.

Definition initlog (dev : Z) : M lstate unit :=
  when (BSIZE <=? 4 + 4 * LOGSIZE) (panic "initlog: too big logheader") ;;
  sb <- bio (readsb dev) ;;
  modlog (set_start (s32 (sb_logstart sb))) ;;
  modlog (set_size (s32 (sb_nlog sb))) ;;
  modlog (set_ldev dev) ;;
  recover_from_log.

(** Called at the start of each FS system call. *)
Definition begin_op : M lstate unit :=
  acquire LkLog ;;
  l <- getlog ;;
  if negb (l_committing l =? 0) then sleep ChLog LkLog
  else if LOGSIZE <? l_n l + (l_outstanding l + 1) * MAXOPBLOCKS then
    (* this op might exhaust log space; wait for commit. *)
    sleep ChLog LkLog
  else
    modlog (set_outstanding (l_outstanding l + 1)) ;;
    release LkLog.

(** Copy modified blocks from cache to log. *)
Definition write_log : M lstate unit :=
  l <- getlog ;;
  for_each (seqZ 0 (l_n l)) (λ tail,
    l <- getlog ;;
    to <- bio (bread (l_dev l) (u32 (l_start l + tail + 1))) ;;
    home <- lh_block tail ;;
    from <- bio (bread (l_dev l) (u32 home)) ;;
    d <- bio (bdata from) ;;
    bio (bstore to (λ _, d)) ;;
    bio (bwrite to) ;;
    bio (brelse from) ;;
    bio (brelse to)).

Definition commit : M lstate unit :=
  l <- getlog ;;
  when (0 <? l_n l)
    (write_log ;;        (* Write modified blocks from cache to log *)
     write_head ;;       (* Write header to disk -- the real commit *)
     install_trans ;;    (* Now install writes to home locations *)
     modlog (set_n 0) ;;
     write_head).        (* Erase the transaction from the log *)

(** Called at the end of each FS system call;
    commits if this was the last outstanding operation. *)
Definition end_op : M lstate unit :=
  acquire LkLog ;;
  l <- getlog ;;
  modlog (set_outstanding (l_outstanding l - 1)) ;;
  l <- getlog ;;
  when (negb (l_committing l =? 0)) (panic "log.committing") ;;
  do_commit <- (if l_outstanding l =? 0
                then modlog (set_committing 1) ;; ret true
                else wakeup ChLog ;; ret false) ;;
  release LkLog ;;
  when do_commit
    (commit ;;
     acquire LkLog ;;
     modlog (set_committing 0) ;;
     wakeup ChLog ;;
     release LkLog).

(** The index at which [log_write] puts block [b]: its own, if it is already in
    the transaction (log absorption), or the first free one. *)
Fixpoint log_index (bs : list Z) (b : Z) : Z :=
  match bs with
  | [] => 0
  | x :: bs' => if x =? b then 0 else 1 + log_index bs' b
  end.

Definition log_write (b : nat) : M lstate unit :=
  l <- getlog ;;
  when ((LOGSIZE <=? l_n l) || (l_size l - 1 <=? l_n l)) (panic "too big a transaction") ;;
  when (l_outstanding l <? 1) (panic "log_write outside of trans") ;;
  acquire LkLog ;;
  x <- bio (bufp b) ;;
  let i := log_index (take (Z.to_nat (l_n l)) (l_block l)) (b_blockno x) in
  set_lh_block i (b_blockno x) ;;
  when (i =? l_n l) (modlog (set_n (l_n l + 1))) ;;
  bio (upd_buf b (set_flags (λ f, Z.lor f B_DIRTY))) ;;   (* prevent eviction *)
  release LkLog.
