(* ===== verification/LogSpec.v ===== *)
(** What the log promises: commits write the log, the header, the home locations
    and the header again, in that order; recovery after a crash anywhere in that
    sequence finds all of the transaction or none of it. *)
From stdpp Require Import base list numbers strings sets gmap.
From Stdlib Require Import ZArith Lia.
From S2P Require Import Prelude Params Machine Spinlock Sleeplock Bio BioRing BioSpec Log.
Local Open Scope Z_scope.
Local Open Scope xv6_scope.

(** * Sequences of block writes *)

Definition apply_writes (ws : list (Z * list Z)) (img : list (list Z)) : list (list Z) :=
  foldl (λ im w, <[Z.to_nat w.1 := w.2]> im) img ws.

Definition disk_writes (ws : list (Z * list Z)) (dk : disk) : disk :=
  Disk (apply_writes ws (d_img dk)) (d_writes dk ++ ws).

Lemma apply_writes_app ws1 ws2 img :
  apply_writes (ws1 ++ ws2) img = apply_writes ws2 (apply_writes ws1 img).
Proof. apply foldl_app. Qed.

Lemma apply_writes_length ws img : length (apply_writes ws img) = length img.
Proof.
  revert img; induction ws as [|w ws IH]; intros img; [done|].
  simpl. unfold apply_writes in *. simpl. by rewrite IH, length_insert.
Qed.

Lemma apply_writes_other ws img k :
  (∀ w, w ∈ ws → Z.to_nat w.1 ≠ k) → apply_writes ws img !! k = img !! k.
Proof.
  revert img; induction ws as [|w ws IH]; intros img Hne; [done|].
  unfold apply_writes in *. simpl. rewrite IH by set_solver.
  apply list_lookup_insert_ne. set_solver.
Qed.

Lemma disk_writes_nil dk : disk_writes [] dk = dk.
Proof. destruct dk. unfold disk_writes. cbn. by rewrite app_nil_r. Qed.

Lemma disk_writes_snoc ws n d dk :
  disk_writes (ws ++ [(n, d)]) dk = disk_write n d (disk_writes ws dk).
Proof.
  unfold disk_writes, disk_write. cbn. rewrite apply_writes_app, app_assoc. done.
Qed.

Lemma disk_writes_app ws1 ws2 dk :
  disk_writes (ws1 ++ ws2) dk = disk_writes ws2 (disk_writes ws1 dk).
Proof. unfold disk_writes. cbn. by rewrite apply_writes_app, app_assoc. Qed.

(** * Buffer cache operations inside the log's state *)

Section bio_wp.
Context (pid : Z).
Implicit Types (s : lstate) (a : cabs) (E : string → Prop).

Lemma wp_bread E s a n Q :
  brel pid (ls_b s) a → 0 <= n < Z.of_nat (length (ca_view a)) → unheld a n →
  n ∈ ca_dirty a ∨ (size (ca_dirty a) + size (ca_held a) < nbuf)%nat →
  (∀ i b, ca_held a !! i = None → brel pid b (ca_hold i n false a) →
          Q i (cpu0 pid) (LState b (ls_log s))) →
  wp E (bio (bread 1 n)) (cpu0 pid) s Q.
Proof.
  intros HR Hn Hun Hsz HQ. apply wp_lift. apply wp_runs. wp_use bread_spec; try done.
  intros i c b (-> & Hi & Hb). auto.
Qed.

Lemma wp_bdata E s a i n m d Q :
  brel pid (ls_b s) a → ca_held a !! i = Some (n, m) → ca_view a !! Z.to_nat n = Some d →
  Q d (cpu0 pid) s → wp E (bio (bdata i)) (cpu0 pid) s Q.
Proof.
  intros HR Hi Hd HQ. apply wp_lift. eapply eq_wp; [by eapply bdata_spec|]. by destruct s.
Qed.

Lemma wp_bstore E s a i n m f d Q :
  brel pid (ls_b s) a → ca_held a !! i = Some (n, m) → ca_view a !! Z.to_nat n = Some d →
  length (f d) = bsize →
  (∀ b, brel pid b (ca_store i n (f d) a) → Q tt (cpu0 pid) (LState b (ls_log s))) →
  wp E (bio (bstore i f)) (cpu0 pid) s Q.
Proof.
  intros HR Hi Hd Hlen HQ. apply wp_lift.
  destruct (bstore_spec _ _ _ _ _ _ f _ HR Hi Hd Hlen) as (b & Heq & Hb).
  eapply eq_wp; [done|auto].
Qed.

Lemma wp_bwrite E s a i n m d Q :
  brel pid (ls_b s) a → ca_held a !! i = Some (n, m) → ca_view a !! Z.to_nat n = Some d →
  (∀ b, brel pid b (ca_write i n d a) → Q tt (cpu0 pid) (LState b (ls_log s))) →
  wp E (bio (bwrite i)) (cpu0 pid) s Q.
Proof.
  intros HR Hi Hd HQ. apply wp_lift.
  destruct (bwrite_spec _ _ _ _ _ _ _ HR Hi Hd) as (b & Heq & Hb).
  eapply eq_wp; [done|auto].
Qed.

Lemma wp_brelse E s a i n Q :
  brel pid (ls_b s) a → ca_held a !! i = Some (n, false) →
  (∀ b, brel pid b (ca_drop i a) → Q tt (cpu0 pid) (LState b (ls_log s))) →
  wp E (bio (brelse i)) (cpu0 pid) s Q.
Proof.
  intros HR Hi HQ. apply wp_lift.
  destruct (brelse_spec _ _ _ _ _ HR Hi) as (b & Heq & Hb).
  eapply eq_wp; [done|auto].
Qed.

Lemma wp_lh_block E s i v c Q :
  l_block (ls_log s) !! Z.to_nat i = Some v → Q v c s → wp E (lh_block i) c s Q.
Proof. intros Hv HQ. unfold lh_block. apply wp_bind, wp_gets. by rewrite Hv. Qed.
End bio_wp.

(** The log is configured for a disk of [nb] blocks and holds the transaction [bs]. *)
Record log_ok (l : log) (bs : list Z) (nb : nat) : Prop := {
  lo_dev : l_dev l = 1;
  lo_start : 0 <= l_start l;
  lo_end : l_start l + l_size l <= Z.of_nat nb;
  lo_nb : Z.of_nat nb < 2 ^ 31;
  lo_n : l_n l = Z.of_nat (length bs);
  lo_block : take (length bs) (l_block l) = bs;
  lo_block_len : length (l_block l) = logsize;
  lo_max : (length bs <= logsize)%nat;
  lo_room : Z.of_nat (length bs) + 1 <= l_size l;
  lo_home : ∀ b, b ∈ bs → 0 <= b < Z.of_nat nb ∧ ¬ (l_start l <= b < l_start l + l_size l);
}.

Lemma lo_lookup l bs nb i b : log_ok l bs nb → bs !! i = Some b → l_block l !! i = Some b.
Proof.
  intros Hlog Hb. pose proof (lo_block _ _ _ Hlog) as Ht. rewrite <- Ht in Hb.
  pose proof (lookup_lt_Some _ _ _ Hb) as Hlt. rewrite length_take in Hlt.
  by rewrite lookup_take_lt in Hb by lia.
Qed.

(** The abstract state after block [n] was given the contents [d], in the cache
    and on the disk. *)
Definition ca_put (n : Z) (d : list Z) (a : cabs) : cabs :=
  CAbs (<[Z.to_nat n := d]> (ca_view a)) (disk_write n d (ca_disk a)) ∅ (ca_dirty a ∖ {[n]}).

Lemma unheld_empty a n : ca_held a = ∅ → unheld a n.
Proof. intros H i m. by rewrite H, lookup_empty. Qed.

Lemma unheld_hold a i n m b :
  ca_held a = ∅ → n ≠ m → unheld (ca_hold i n b a) m.
Proof.
  intros H Hne j k. cbn. rewrite H. destruct (decide (i = j)) as [->|].
  - rewrite lookup_insert_eq. naive_solver.
  - by rewrite lookup_insert_ne, lookup_empty.
Qed.

Section copies.
Context (pid : Z) (E : string → Prop) (s : lstate) (bs : list Z) (a : cabs).
Context (Hlog : log_ok (ls_log s) bs (length (ca_view a))) (Hheld : ca_held a = ∅).
Context (HR : brel pid (ls_b s) a).
Context (k : nat) (b : Z) (Hb : bs !! k = Some b).
Notation logblk := (l_start (ls_log s) + Z.of_nat k + 1).

Lemma logblk_u32 : u32 logblk = logblk.
Proof.
  apply lookup_lt_Some in Hb. destruct Hlog. apply u32_small. lia.
Qed.

Lemma logblk_valid : 0 <= logblk < Z.of_nat (length (ca_view a)).
Proof. apply lookup_lt_Some in Hb. destruct Hlog. lia. Qed.

Lemma home_valid : 0 <= b < Z.of_nat (length (ca_view a)) ∧ logblk ≠ b ∧ u32 b = b.
Proof.
  pose proof (lookup_lt_Some _ _ _ Hb). apply list_elem_of_lookup_2 in Hb.
  apply (lo_home _ _ _ Hlog) in Hb. destruct Hlog.
  split; [lia|]. split; [lia|]. apply u32_small. lia.
Qed.

(** One iteration of [install_trans]. *)
Lemma install_step d Q :
  ca_view a !! Z.to_nat logblk = Some d → length d = bsize →
  (size (ca_dirty a) < nbuf)%nat → b ∈ ca_dirty a ∨ (size (ca_dirty a) + 1 < nbuf)%nat →
  (∀ s', ls_log s' = ls_log s → brel pid (ls_b s') (ca_put b d a) → Q tt (cpu0 pid) s') →
  wp E (l <- getlog ;;
        lbuf <- bio (bread (l_dev l) (u32 (l_start l + Z.of_nat k + 1))) ;;
        home <- lh_block (Z.of_nat k) ;;
        dbuf <- bio (bread (l_dev l) (u32 home)) ;;
        d <- bio (bdata lbuf) ;;
        bio (bstore dbuf (λ _, d)) ;;
        bio (bwrite dbuf) ;;
        bio (brelse lbuf) ;;
        bio (brelse dbuf)) (cpu0 pid) s Q.
Proof.
  intros Hd Hlen Hsz Hroom HQ. pose proof home_valid as (Hbv & Hne & Hb32).
  apply wp_bind, wp_gets. rewrite (lo_dev _ _ _ Hlog), logblk_u32.
  apply wp_bind. eapply wp_bread; [done|apply logblk_valid|by apply unheld_empty| |].
  { right. rewrite Hheld, map_size_empty. lia. }
  intros i b1 Hi HR1. apply wp_bind. eapply wp_lh_block.
  { cbn. rewrite Nat2Z.id. by eapply lo_lookup. }
  rewrite Hb32. apply wp_bind.
  eapply wp_bread; [done|done|by apply unheld_hold| |].
  { cbn. rewrite Hheld, insert_empty, map_size_singleton. naive_solver lia. }
  intros j b2 Hj HR2. cbn in Hj.
  assert (i ≠ j ∧ j ≠ i) as [Hij Hji] by (split; intros ->; by rewrite lookup_insert_eq in Hj).
  destruct (lookup_lt_is_Some_2 (ca_view a) (Z.to_nat b)) as [d0 Hd0]; [lia|].
  apply wp_bind. eapply (wp_bdata _ _ _ _ i logblk false d); [done| |done|].
  { cbn. by rewrite lookup_insert_ne, lookup_insert_eq. }
  apply wp_bind. eapply (wp_bstore _ _ _ _ j b false); [done| |done|done|].
  { cbn. by rewrite lookup_insert_eq. }
  intros b3 HR3. apply wp_bind. eapply wp_bwrite; [done| | |].
  { cbn. by rewrite lookup_insert_eq. }
  { cbn. apply list_lookup_insert_eq. lia. }
  intros b4 HR4. apply wp_bind. eapply (wp_brelse _ _ _ _ i); [done| |].
  { cbn. rewrite !lookup_insert_ne by done. by rewrite lookup_insert_eq. }
  intros b5 HR5. eapply (wp_brelse _ _ _ _ j); [done| |].
  { cbn. rewrite lookup_delete_ne by done. by rewrite lookup_insert_eq. }
  intros b6 HR6. apply HQ; [done|]. cbn.
  eassert (ca_put b d a = _) as ->; [|exact HR6].
  unfold ca_put, ca_drop, ca_write, ca_store, ca_hold. cbn. f_equal.
  rewrite Hheld. apply map_eq. intros m.
  destruct (decide (m = i)), (decide (m = j)); subst; by simplify_map_eq.
Qed.

(** One iteration of [write_log]. *)
Lemma write_log_step d Q :
  ca_view a !! Z.to_nat b = Some d → length d = bsize →
  (size (ca_dirty a) < nbuf)%nat → b ∈ ca_dirty a →
  (∀ s', ls_log s' = ls_log s → brel pid (ls_b s') (ca_put logblk d a) → Q tt (cpu0 pid) s') →
  wp E (l <- getlog ;;
        to <- bio (bread (l_dev l) (u32 (l_start l + Z.of_nat k + 1))) ;;
        home <- lh_block (Z.of_nat k) ;;
        from <- bio (bread (l_dev l) (u32 home)) ;;
        d <- bio (bdata from) ;;
        bio (bstore to (λ _, d)) ;;
        bio (bwrite to) ;;
        bio (brelse from) ;;
        bio (brelse to)) (cpu0 pid) s Q.
Proof.
  intros Hd Hlen Hsz Hdirty HQ. pose proof home_valid as (Hbv & Hne & Hb32).
  pose proof logblk_valid as Hlv.
  apply wp_bind, wp_gets. rewrite (lo_dev _ _ _ Hlog), logblk_u32.
  apply wp_bind. eapply wp_bread; [done|done|by apply unheld_empty| |].
  { right. rewrite Hheld, map_size_empty. lia. }
  intros i b1 Hi HR1. apply wp_bind. eapply wp_lh_block.
  { cbn. rewrite Nat2Z.id. by eapply lo_lookup. }
  rewrite Hb32. apply wp_bind.
  eapply wp_bread; [done|done|by apply unheld_hold|by left|].
  intros j b2 Hj HR2. cbn in Hj.
  assert (i ≠ j ∧ j ≠ i) as [Hij Hji] by (split; intros ->; by rewrite lookup_insert_eq in Hj).
  destruct (lookup_lt_is_Some_2 (ca_view a) (Z.to_nat logblk)) as [d0 Hd0]; [lia|].
  apply wp_bind. eapply (wp_bdata _ _ _ _ j b false d); [done| |done|].
  { cbn. by rewrite lookup_insert_eq. }
  apply wp_bind. eapply (wp_bstore _ _ _ _ i logblk false); [done| |done|done|].
  { cbn. by rewrite lookup_insert_ne, lookup_insert_eq. }
  intros b3 HR3. apply wp_bind. eapply wp_bwrite; [done| | |].
  { cbn. by rewrite lookup_insert_eq. }
  { cbn. apply list_lookup_insert_eq. lia. }
  intros b4 HR4. apply wp_bind. eapply (wp_brelse _ _ _ _ j); [done| |].
  { cbn. rewrite !lookup_insert_ne by done. by rewrite lookup_insert_eq. }
  intros b5 HR5. eapply (wp_brelse _ _ _ _ i); [done| |].
  { cbn. rewrite lookup_delete_ne by done. by rewrite lookup_insert_eq. }
  intros b6 HR6. apply HQ; [done|]. cbn.
  eassert (ca_put logblk d a = _) as ->; [|exact HR6].
  unfold ca_put, ca_drop, ca_write, ca_store, ca_hold. cbn. f_equal.
  rewrite Hheld. apply map_eq. intros m.
  destruct (decide (m = i)), (decide (m = j)); subst; by simplify_map_eq.
Qed.
End copies.

(** * The loops *)

(** The writes of [write_log] and of [install_trans]. *)
Definition log_writes (start : Z) (vs : list (list Z)) : list (Z * list Z) :=
  imap (λ k d, (start + Z.of_nat k + 1, d)) vs.
Definition home_writes (bs : list Z) (vs : list (list Z)) : list (Z * list Z) := zip bs vs.

Lemma seqZ_split n done x rest :
  seqZ 0 n = done ++ x :: rest → x = Z.of_nat (length done) ∧ (length done < Z.to_nat n)%nat.
Proof.
  intros H. assert (seqZ 0 n !! length done = Some x) as Hx.
  { rewrite H. by apply list_lookup_middle. }
  apply lookup_seqZ in Hx. lia.
Qed.

Section loops.
Context (pid : Z) (E : string → Prop) (bs : list Z) (vs : list (list Z)).
Context (Hvs : length vs = length bs) (Hvlen : Forall (λ d, length d = bsize) vs).

Lemma write_log_spec s a Q :
  log_ok (ls_log s) bs (length (ca_view a)) → ca_held a = ∅ → brel pid (ls_b s) a →
  (∀ k b d, bs !! k = Some b → vs !! k = Some d → ca_view a !! Z.to_nat b = Some d) →
  NoDup bs → ca_dirty a = list_to_set bs → (length bs < nbuf)%nat →
  (∀ s', ls_log s' = ls_log s →
     brel pid (ls_b s')
       (CAbs (apply_writes (log_writes (l_start (ls_log s)) vs) (ca_view a))
             (disk_writes (log_writes (l_start (ls_log s)) vs) (ca_disk a)) ∅ (ca_dirty a)) →
     Q tt (cpu0 pid) s') →
  wp E write_log (cpu0 pid) s Q.
Proof.
  intros Hlog Hheld HR Hview Hnd Hdirty Hlt HQ.
  set (W := log_writes (l_start (ls_log s)) vs) in *.
  assert (length W = length bs) as HWlen by (unfold W, log_writes; by rewrite length_imap).
  unfold write_log. apply wp_bind, wp_gets.
  apply (wp_for_each _ _ _ (λ done s', ls_log s' = ls_log s ∧
    brel pid (ls_b s') (CAbs (apply_writes (take (length done) W) (ca_view a))
                             (disk_writes (take (length done) W) (ca_disk a)) ∅ (ca_dirty a)))).
  - split; [done|]. cbn. rewrite take_0, disk_writes_nil, <- Hheld. by destruct a.
  - intros done x rest s1 [-> Hk]%seqZ_split [Hl1 HR1].
    rewrite (lo_n _ _ _ Hlog), Nat2Z.id in Hk. set (k := length done) in *.
    destruct (lookup_lt_is_Some_2 bs k Hk) as [b Hb].
    destruct (lookup_lt_is_Some_2 vs k ltac:(lia)) as [d Hd].
    assert (b ∈ bs) as Hbin by (by eapply list_elem_of_lookup_2).
    assert (W !! k = Some (l_start (ls_log s) + Z.of_nat k + 1, d)) as HW.
    { unfold W, log_writes. by rewrite list_lookup_imap, Hd. }
    eapply (write_log_step _ _ _ bs); [| |apply HR1|exact Hb|..]; cbn; rewrite ?Hl1.
    + by rewrite apply_writes_length.
    + done.
    + rewrite apply_writes_other; [by eapply Hview|].
      intros w Hw. apply list_elem_of_lookup in Hw as [j Hw].
      apply lookup_take_Some in Hw as [Hw Hj].
      unfold W, log_writes in Hw. rewrite list_lookup_imap in Hw.
      apply fmap_Some in Hw as (d' & _ & ->). cbn.
      apply (lo_home _ _ _ Hlog) in Hbin. destruct Hlog. lia.
    + by eapply (Forall_lookup_1 _ _ _ _ Hvlen).
    + by rewrite Hdirty, size_list_to_set.
    + rewrite Hdirty. by apply elem_of_list_to_set.
    + intros s2 Hl2 HR2. split; [done|]. split; [congruence|].
      rewrite length_app. cbn. fold k. rewrite Nat.add_1_r, (take_S_r _ _ _ HW).
      rewrite apply_writes_app, disk_writes_snoc. cbn.
      unfold ca_put in HR2. cbn in HR2.
      replace (ca_dirty a) with (ca_dirty a ∖ {[l_start (ls_log s) + Z.of_nat k + 1]}); [done|].
      apply leibniz_equiv. intros m. rewrite elem_of_difference, elem_of_singleton.
      rewrite Hdirty, elem_of_list_to_set. split; [naive_solver|]. intros Hm. split; [done|].
      intros ->. apply (lo_home _ _ _ Hlog) in Hm. destruct Hlog. lia.
  - intros s' [Hl' HR']. apply HQ; [done|]. cbn.
    rewrite length_seqZ, (lo_n _ _ _ Hlog), Nat2Z.id, <- HWlen, take_ge in HR' by done. done.
Qed.

Lemma home_writes_elem k w :
  w ∈ take k (home_writes bs vs) → w.1 ∈ bs.
Proof.
  intros Hw. apply list_elem_of_lookup in Hw as [j Hw].
  apply lookup_take_Some in Hw as [Hw _]. destruct w as [b d].
  apply lookup_zip_Some in Hw as [Hw _]. by eapply list_elem_of_lookup_2.
Qed.

Lemma install_trans_spec s a Q :
  log_ok (ls_log s) bs (length (ca_view a)) → ca_held a = ∅ → brel pid (ls_b s) a →
  (∀ k d, vs !! k = Some d →
     ca_view a !! Z.to_nat (l_start (ls_log s) + Z.of_nat k + 1) = Some d) →
  (size (ca_dirty a) < nbuf)%nat →
  (∀ k b, bs !! k = Some b → b ∈ ca_dirty a ∖ list_to_set (take k bs)) ∨
    (size (ca_dirty a) + 1 < nbuf)%nat →
  (∀ s', ls_log s' = ls_log s →
     brel pid (ls_b s')
       (CAbs (apply_writes (home_writes bs vs) (ca_view a))
             (disk_writes (home_writes bs vs) (ca_disk a)) ∅ (ca_dirty a ∖ list_to_set bs)) →
     Q tt (cpu0 pid) s') →
  wp E install_trans (cpu0 pid) s Q.
Proof.
  intros Hlog Hheld HR Hview Hsz Hroom HQ. set (W := home_writes bs vs) in *.
  assert (length W = length bs) as HWlen by (unfold W, home_writes; rewrite length_zip; lia).
  unfold install_trans. apply wp_bind, wp_gets.
  apply (wp_for_each _ _ _ (λ done s', ls_log s' = ls_log s ∧
    brel pid (ls_b s') (CAbs (apply_writes (take (length done) W) (ca_view a))
                             (disk_writes (take (length done) W) (ca_disk a)) ∅
                             (ca_dirty a ∖ list_to_set (take (length done) bs))))).
  - split; [done|]. cbn. rewrite !take_0, disk_writes_nil, <- Hheld. cbn.
    rewrite difference_empty_L. by destruct a.
  - intros done x rest s1 [-> Hk]%seqZ_split [Hl1 HR1].
    rewrite (lo_n _ _ _ Hlog), Nat2Z.id in Hk. set (k := length done) in *.
    destruct (lookup_lt_is_Some_2 bs k Hk) as [b Hb].
    destruct (lookup_lt_is_Some_2 vs k ltac:(lia)) as [d Hd].
    assert (W !! k = Some (b, d)) as HW by (unfold W, home_writes; apply lookup_zip_Some; done).
    pose proof (subseteq_size (ca_dirty a ∖ list_to_set (take k bs)) (ca_dirty a) ltac:(set_solver)).
    eapply (install_step _ _ _ bs); [| |apply HR1|exact Hb|..]; cbn; rewrite ?Hl1.
    + by rewrite apply_writes_length.
    + done.
    + rewrite apply_writes_other; [by apply Hview|].
      intros w Hw%home_writes_elem%(lo_home _ _ _ Hlog). destruct Hlog. lia.
    + by eapply (Forall_lookup_1 _ _ _ _ Hvlen).
    + lia.
    + destruct Hroom as [Hr|Hr]; [left; by apply Hr|right; lia].
    + intros s2 Hl2 HR2. split; [done|]. split; [congruence|].
      rewrite length_app. cbn. fold k. rewrite Nat.add_1_r, (take_S_r _ _ _ HW), (take_S_r _ _ _ Hb).
      rewrite apply_writes_app, disk_writes_snoc, list_to_set_app_L. cbn.
      unfold ca_put in HR2. cbn in HR2. rewrite union_empty_r_L.
      by rewrite difference_difference_l_L in HR2.
  - intros s' [Hl' HR']. apply HQ; [done|]. cbn.
    rewrite length_seqZ, (lo_n _ _ _ Hlog), Nat2Z.id in HR'.
    by rewrite !take_ge in HR' by lia.
Qed.
End loops.

(** * The header block *)

Fixpoint put_words (off : nat) (bs : list Z) (d : list Z) : list Z :=
  match bs with
  | [] => d
  | b :: bs' => put_words (off + 4) bs' (wr 4 off b d)
  end.

(** The header block for the transaction [bs], over its previous contents [d]. *)
Definition put_header (bs : list Z) (d : list Z) : list Z :=
  put_words 4 bs (wr 4 0 (Z.of_nat (length bs)) d).

Lemma put_words_snoc off bs b d :
  put_words off (bs ++ [b]) d = wr 4 (off + 4 * length bs) b (put_words off bs d).
Proof.
  revert off d; induction bs as [|x bs IH]; intros off d; cbn.
  - by rewrite Nat.add_0_r.
  - rewrite IH. f_equal. lia.
Qed.

Lemma put_words_length off bs d :
  (off + 4 * length bs <= length d)%nat → length (put_words off bs d) = length d.
Proof.
  revert off d; induction bs as [|x bs IH]; intros off d H; cbn in *; [done|].
  rewrite IH; rewrite length_wr by lia; lia.
Qed.

Lemma put_words_below off bs d n o :
  (o + n <= off)%nat → (off + 4 * length bs <= length d)%nat →
  rd n o (put_words off bs d) = rd n o d.
Proof.
  revert off d; induction bs as [|x bs IH]; intros off d Ho H; cbn in *; [done|].
  rewrite IH by (rewrite ?length_wr by lia; lia). apply rd_wr_other; lia.
Qed.

Lemma put_words_read off bs d k b :
  (off + 4 * length bs <= length d)%nat → bs !! k = Some b → 0 <= b < 2 ^ 31 →
  rd 4 (off + 4 * k) (put_words off bs d) = b.
Proof.
  revert off d k; induction bs as [|x bs IH]; intros off d k H Hk Hb;
    cbn [length put_words] in *; [done|].
  destruct k as [|k]; cbn in Hk.
  - injection Hk as ->. rewrite put_words_below by (rewrite ?length_wr by lia; lia).
    rewrite Nat.mul_0_r, Nat.add_0_r, rd_wr_same by lia. apply Z.mod_small. lia.
  - replace (off + 4 * S k)%nat with ((off + 4) + 4 * k)%nat by lia.
    apply IH; [rewrite length_wr by lia; lia|done|done].
Qed.

Lemma put_header_length bs d :
  (length bs <= logsize)%nat → length d = bsize → length (put_header bs d) = bsize.
Proof.
  intros H Hd. unfold put_header. rewrite put_words_length; rewrite length_wr; rewrite ?Hd; sizes; lia.
Qed.

Lemma put_header_n bs d :
  (length bs <= logsize)%nat → length d = bsize →
  rd 4 0 (put_header bs d) = Z.of_nat (length bs).
Proof.
  intros H Hd. unfold put_header.
  rewrite put_words_below by (rewrite ?length_wr; rewrite ?Hd; sizes; lia).
  rewrite rd_wr_same by (rewrite Hd; sizes; lia). apply Z.mod_small. sizes. lia.
Qed.

Lemma put_header_block bs d k b :
  (length bs <= logsize)%nat → length d = bsize → bs !! k = Some b → 0 <= b < 2 ^ 31 →
  rd 4 (4 + 4 * k) (put_header bs d) = b.
Proof.
  intros H Hd Hk Hb. unfold put_header. apply put_words_read; [|done|done].
  rewrite length_wr; rewrite Hd; sizes; lia.
Qed.

Lemma write_head_spec pid E s a bs d Q :
  log_ok (ls_log s) bs (length (ca_view a)) → ca_held a = ∅ → brel pid (ls_b s) a →
  (size (ca_dirty a) < nbuf)%nat →
  ca_view a !! Z.to_nat (l_start (ls_log s)) = Some d →
  (∀ s', ls_log s' = ls_log s →
     brel pid (ls_b s') (ca_put (l_start (ls_log s)) (put_header bs d) a) →
     Q tt (cpu0 pid) s') →
  wp E write_head (cpu0 pid) s Q.
Proof.
  intros Hlog Hheld HR Hsz Hd HQ. set (st := l_start (ls_log s)) in *.
  assert (0 <= st < Z.of_nat (length (ca_view a)) ∧ u32 st = st) as [Hst Hst32].
  { unfold st. pose proof (lookup_lt_Some _ _ _ Hd). destruct Hlog. rewrite u32_small; lia. }
  assert (length d = bsize) as Hdl by (by eapply (Forall_lookup_1 _ _ _ _ (brel_view_len _ _ _ HR))).
  pose proof (lo_max _ _ _ Hlog) as Hmax.
  unfold write_head. apply wp_bind, wp_gets. fold st.
  rewrite (lo_dev _ _ _ Hlog), Hst32, (lo_n _ _ _ Hlog).
  apply wp_bind. eapply wp_bread; [done|done|by apply unheld_empty| |].
  { right. rewrite Hheld, map_size_empty. lia. }
  intros i b1 Hi HR1. apply wp_bind.
  eapply (wp_bstore _ _ _ _ i st false _ d); [done|cbn; by rewrite lookup_insert_eq|done| |].
  { rewrite length_wr; rewrite Hdl; sizes; lia. }
  intros b2 HR2. apply wp_bind.
  set (c0 := wr 4 0 (Z.of_nat (length bs)) d) in *.
  assert (length c0 = bsize) as Hc0 by (unfold c0; rewrite length_wr; rewrite Hdl; sizes; lia).
  assert (∀ k, (k <= length bs)%nat → length (put_words 4 (take k bs) c0) = bsize) as Hck.
  { intros k Hk. rewrite put_words_length; rewrite ?length_take, Hc0; sizes; lia. }
  apply (wp_for_each _ _ _ (λ done s', ls_log s' = ls_log s ∧
    brel pid (ls_b s')
      (CAbs (<[Z.to_nat st := put_words 4 (take (length done) bs) c0]> (ca_view a)) (ca_disk a)
         (<[i := (st, true)]> ∅) (ca_dirty a)))).
  - split; [done|]. unfold ca_store, ca_hold in HR2. cbn in HR2.
    by rewrite insert_insert_eq, Hheld in HR2.
  - intros done x rest s1 [-> Hk]%seqZ_split [Hl1 HR1'].
    rewrite Nat2Z.id in Hk. set (k := length done) in *.
    destruct (lookup_lt_is_Some_2 bs k Hk) as [b Hb].
    apply wp_bind. eapply wp_lh_block.
    { rewrite Hl1, Nat2Z.id. by eapply lo_lookup. }
    eapply (wp_bstore _ _ _ _ i st true); [done|cbn; by rewrite lookup_insert_eq| | |].
    { cbn. apply list_lookup_insert_eq. lia. }
    { rewrite length_wr; rewrite Hck by lia; [done|]. sizes. lia. }
    intros b3 HR3. split; [done|]. split; [done|]. cbn. rewrite length_app. cbn. fold k.
    rewrite Nat.add_1_r, (take_S_r _ _ _ Hb), put_words_snoc, length_take.
    unfold ca_store in HR3. cbn in HR3.
    rewrite list_insert_insert_eq, insert_insert_eq in HR3.
    replace (4 + 4 * (k `min` length bs))%nat with (Z.to_nat (4 + 4 * Z.of_nat k)) by lia. done.
  - intros s1 [Hl1 HR1']. rewrite length_seqZ, Nat2Z.id, take_ge in HR1' by done.
    fold (put_header bs d) in HR1'.
    apply wp_bind. eapply wp_bwrite; [done|cbn; by rewrite lookup_insert_eq| |].
    { cbn. apply list_lookup_insert_eq. lia. }
    intros b3 HR3. eapply (wp_brelse _ _ _ _ i); [done|cbn; by rewrite lookup_insert_eq|].
    intros b4 HR4. apply HQ; [done|].
    unfold ca_drop, ca_write in HR4. cbn in HR4.
    by rewrite insert_insert_eq, delete_insert_id in HR4.
Qed.
