(* ===== verification/LogCommit.v ===== *)
(** Commit and recovery: the order in which [commit] writes the disk, what
    [initlog] makes of any image a power failure can leave, and the atomicity of
    transactions that follows. *)
From stdpp Require Import base list numbers strings sets gmap.
From Stdlib Require Import ZArith Lia.
From S2P Require Import Prelude Params Machine Spinlock Sleeplock Bio BioRing BioSpec Log LogSpec.
Local Open Scope Z_scope.
Local Open Scope xv6_scope.

(** * Commit *)

(** The block writes of a commit of the values [vs] to the blocks [bs], with the
    log at block [st] whose header block holds [hd]. *)
Definition commit_writes (st : Z) (bs : list Z) (vs : list (list Z)) (hd : list Z)
    : list (Z * list Z) :=
  log_writes st vs ++ (st, put_header bs hd) ::
  home_writes bs vs ++ [(st, put_header [] (put_header bs hd))].

Lemma log_writes_elem st vs w :
  w ∈ log_writes st vs → ∃ k, (k < length vs)%nat ∧ w.1 = st + Z.of_nat k + 1.
Proof.
  intros Hw. apply list_elem_of_lookup in Hw as [k Hw]. unfold log_writes in Hw.
  rewrite list_lookup_imap in Hw. apply fmap_Some in Hw as (d & Hd & ->).
  exists k. split; [by eapply lookup_lt_Some|done].
Qed.

Lemma home_writes_fst bs vs w : w ∈ home_writes bs vs → w.1 ∈ bs.
Proof.
  intros Hw. destruct w as [b d]. by apply elem_of_zip_l in Hw.
Qed.

Lemma log_writes_lookup st vs img k d :
  0 <= st → vs !! k = Some d → (Z.to_nat st + length vs < length img)%nat →
  apply_writes (log_writes st vs) img !! Z.to_nat (st + Z.of_nat k + 1) = Some d.
Proof.
  intros Hst. revert img k. induction vs as [|v vs IH] using rev_ind; intros img k Hk Hlen; [done|].
  rewrite length_app in Hlen. cbn in Hlen.
  unfold log_writes. rewrite imap_app, apply_writes_app. cbn.
  destruct (decide (k = length vs)) as [->|Hne].
  - rewrite list_lookup_middle in Hk by done. injection Hk as ->.
    rewrite Nat.add_0_r. apply list_lookup_insert_eq. rewrite apply_writes_length. lia.
  - pose proof (lookup_lt_Some _ _ _ Hk) as Hlt. rewrite length_app in Hlt. cbn in Hlt.
    rewrite lookup_app_l in Hk by lia.
    rewrite list_lookup_insert_ne by lia. apply IH; [done|lia].
Qed.

Section commit.
Context (pid : Z) (E : string → Prop) (bs : list Z) (vs : list (list Z)).

Lemma log_ok_clear l nb : log_ok l bs nb → log_ok (set_n 0 l) [] nb.
Proof. intros []. split; cbn; try done; try lia. set_solver. Qed.

Lemma commit_spec s a hd Q :
  log_ok (ls_log s) bs (length (ca_view a)) → ca_held a = ∅ → brel pid (ls_b s) a →
  length vs = length bs → bs ≠ [] →
  (∀ k b d, bs !! k = Some b → vs !! k = Some d → ca_view a !! Z.to_nat b = Some d) →
  NoDup bs → ca_dirty a = list_to_set bs → (length bs < nbuf)%nat →
  ca_view a !! Z.to_nat (l_start (ls_log s)) = Some hd →
  (∀ s', ls_log s' = set_n 0 (ls_log s) →
     brel pid (ls_b s')
       (CAbs (apply_writes (commit_writes (l_start (ls_log s)) bs vs hd) (ca_view a))
             (disk_writes (commit_writes (l_start (ls_log s)) bs vs hd) (ca_disk a)) ∅ ∅) →
     Q tt (cpu0 pid) s') →
  wp E commit (cpu0 pid) s Q.
Proof.
  intros Hlog Hheld HR Hvs Hne Hview Hnd Hdirty Hlt Hhd HQ.
  set (st := l_start (ls_log s)) in *.
  assert (Forall (λ d, length d = bsize) vs) as Hvl.
  { apply Forall_lookup. intros k d Hd.
    destruct (lookup_lt_is_Some_2 bs k) as [b Hb]; [apply lookup_lt_Some in Hd; lia|].
    eapply (Forall_lookup_1 _ _ _ _ (brel_view_len _ _ _ HR)). by eapply Hview. }
  pose proof (lookup_lt_Some _ _ _ Hhd) as Hstl.
  assert (0 <= st) as Hst0 by apply Hlog.
  assert (st ∉ bs) as Hstb.
  { intros H%(lo_home _ _ _ Hlog). fold st in H. destruct Hlog. lia. }
  assert (Z.to_nat st + length vs < length (ca_view a))%nat as Hroom
    by (unfold st in *; destruct Hlog; lia).
  unfold commit. apply wp_bind, wp_gets. apply wp_when; intros Hn.
  2:{ rewrite (lo_n _ _ _ Hlog) in Hn. destruct Hne. apply nil_length_inv. lia. }
  apply wp_bind. eapply write_log_spec; try done.
  fold st. intros s1 Hl1 HR1.
  apply wp_bind. eapply (λ X Y, write_head_spec _ _ _ _ bs hd _ X Y HR1); cbn;
    rewrite ?Hl1; fold st.
  { by rewrite apply_writes_length. }
  { done. }
  { by rewrite Hdirty, size_list_to_set. }
  { rewrite apply_writes_other; [done|].
    intros w (k & Hk & ->)%log_writes_elem. lia. }
  intros s2 Hl2 HR2. unfold ca_put in HR2. cbn in HR2.
  replace (ca_dirty a ∖ {[st]}) with (ca_dirty a) in HR2.
  2:{ rewrite difference_disjoint_L; [done|]. rewrite Hdirty. set_solver. }
  apply wp_bind. eapply (λ X Y, install_trans_spec _ _ bs vs Hvs Hvl _ _ _ X Y HR2); cbn;
    rewrite ?Hl2; fold st.
  { by rewrite length_insert, apply_writes_length. }
  { done. }
  { intros k d Hd. rewrite list_lookup_insert_ne by lia. by apply log_writes_lookup. }
  { by rewrite Hdirty, size_list_to_set. }
  { left. intros k b Hb. rewrite Hdirty. apply elem_of_difference. rewrite !elem_of_list_to_set.
    split; [by eapply list_elem_of_lookup_2|]. intros Hin.
    apply list_elem_of_lookup in Hin as [j Hj]. apply lookup_take_Some in Hj as [Hj ?].
    pose proof (NoDup_lookup _ _ _ _ Hnd Hj Hb). lia. }
  intros s3 Hl3 HR3. rewrite Hdirty, difference_diag_L in HR3.
  apply wp_bind, wp_modify. set (s3' := LState _ _).
  change (ls_b s3) with (ls_b s3') in HR3.
  eapply (λ X Y, write_head_spec _ _ _ _ [] (put_header bs hd) _ X Y HR3); cbn;
    rewrite ?Hl3; fold st.
  { rewrite apply_writes_length, length_insert, apply_writes_length. by eapply log_ok_clear. }
  { done. }
  { rewrite size_empty. sizes. lia. }
  { rewrite apply_writes_other; [apply list_lookup_insert_eq; by rewrite apply_writes_length|].
    intros w Hw%home_writes_fst. pose proof (lo_home _ _ _ Hlog _ Hw) as [? _].
    intros Heq. apply Hstb. by replace st with w.1 by lia. }
  intros s4 Hl4 HR4. apply HQ; [by rewrite Hl4|].
  unfold ca_put in HR4. cbn in HR4.
  replace (∅ ∖ {[st]}) with (∅ : gset Z) in HR4 by set_solver.
  eassert (CAbs _ _ ∅ ∅ = _) as ->; [|exact HR4].
  unfold commit_writes. f_equal.
  - by rewrite cons_middle, !apply_writes_app.
  - by rewrite cons_middle, app_assoc, app_assoc, !disk_writes_snoc, disk_writes_app,
      disk_writes_snoc.
Qed.
End commit.
