(* ===== verification/LogRecover.v ===== *)
(** Recovery: what [initlog] makes of a disk image, and the images a power failure
    can leave. *)
From stdpp Require Import base list numbers strings sets gmap.
From Stdlib Require Import ZArith Lia.
From S2P Require Import Prelude Params Machine Spinlock Sleeplock Bio BioRing BioSpec.
From S2P Require Import Log LogSpec LogCommit.
Local Open Scope Z_scope.
Local Open Scope xv6_scope.

(** * Images *)

(** The image [img] has its log in blocks [st .. st + sz - 1], and the log's header
    says that the values [vs], in the log's data blocks, are to be installed in the
    blocks [bs]. *)
Record log_image (img : list (list Z)) (st sz : Z) (bs : list Z) (vs : list (list Z)) : Prop := {
  li_blocks : Forall (λ b, length b = bsize) img;
  li_nb : Z.of_nat (length img) < 2 ^ 31;
  li_sb : ∃ d, img !! 1%nat = Some d ∧
               s32 (sb_logstart (sb_decode d)) = st ∧ s32 (sb_nlog (sb_decode d)) = sz;
  li_start : 1 < st;
  li_end : st + sz <= Z.of_nat (length img);
  li_head : ∃ d, img !! Z.to_nat st = Some d ∧ s32 (rd 4 0 d) = Z.of_nat (length bs) ∧
              ∀ k b, bs !! k = Some b → s32 (rd 4 (4 + 4 * k) d) = b;
  li_vs : length vs = length bs;
  li_slots : ∀ k d, vs !! k = Some d → img !! Z.to_nat (st + Z.of_nat k + 1) = Some d;
  li_max : (length bs <= logsize)%nat;
  li_room : Z.of_nat (length bs) + 1 <= sz;
  li_home : ∀ b, b ∈ bs →
    0 <= b < Z.of_nat (length img) ∧ b ≠ 1 ∧ ¬ (st <= b < st + sz);
}.

(** Two images that agree outside the log area. *)
Definition same_data (st sz : Z) (img img' : list (list Z)) : Prop :=
  ∀ b, 0 <= b → ¬ (st <= b < st + sz) → img !! Z.to_nat b = img' !! Z.to_nat b.

(** The image [img] stands for the file system contents [tgt]: once the log is
    installed, it agrees with [tgt] outside the log area. *)
Definition stands_for (st sz : Z) (img tgt : list (list Z)) : Prop :=
  ∃ bs vs, log_image img st sz bs vs ∧ same_data st sz (apply_writes (home_writes bs vs) img) tgt.

(** The result of a sequence of block writes depends on the starting image only
    where nothing is written. *)
Lemma apply_writes_at ws img img' j :
  length img = length img' →
  ((∀ w, w ∈ ws → Z.to_nat w.1 ≠ j) → img !! j = img' !! j) →
  apply_writes ws img !! j = apply_writes ws img' !! j.
Proof.
  revert img img'. induction ws as [|w ws IH]; intros img img' Hlen Heq.
  - apply Heq. set_solver.
  - unfold apply_writes in *. cbn. apply IH; [by rewrite !length_insert|].
    intros Hj. destruct (decide (Z.to_nat w.1 = j)) as [->|].
    + destruct (decide (j < length img)%nat).
      * rewrite !list_lookup_insert_eq by lia. done.
      * rewrite !lookup_ge_None_2 by (rewrite length_insert; lia). done.
    + rewrite !list_lookup_insert_ne by done. apply Heq. set_solver.
Qed.

Lemma take_elem {A} k (x : A) l : x ∈ take k l → x ∈ l.
Proof.
  intros [j Hj]%list_elem_of_lookup. apply lookup_take_Some in Hj as [Hj _].
  by eapply list_elem_of_lookup_2.
Qed.

(** Installing the log again after part of it was installed changes nothing. *)
Lemma apply_writes_again ws k img :
  apply_writes ws (apply_writes (take k ws) img) = apply_writes ws img.
Proof.
  apply list_eq. intros j. apply apply_writes_at; [apply apply_writes_length|].
  intros Hj. apply apply_writes_other. intros w Hw. apply Hj.
  by apply (take_elem k).
Qed.

Lemma apply_writes_blocks ws img :
  Forall (λ w, length w.2 = bsize) ws → Forall (λ b, length b = bsize) img →
  Forall (λ b : list Z, length b = bsize) (apply_writes ws img).
Proof.
  intros Hws. revert img. induction Hws as [|w ws Hw Hws IH]; intros img Himg; [done|].
  unfold apply_writes in *. cbn. apply IH. by apply Forall_insert.
Qed.

(** * Reading the header *)

Section boot.
Context (pid : Z) (E : string → Prop).

Lemma wp_set_lh_block s i v c Q :
  0 <= i < LOGSIZE →
  Q tt c (LState (ls_b s) (set_block (<[Z.to_nat i := v]> (l_block (ls_log s))) (ls_log s))) →
  wp E (set_lh_block i v) c s Q.
Proof.
  intros Hi HQ. unfold set_lh_block. apply wp_bind, wp_gets.
  by rewrite bool_decide_eq_true_2 by done.
Qed.

Lemma read_head_spec s a bs d Q :
  l_dev (ls_log s) = 1 → 0 <= l_start (ls_log s) < 2 ^ 31 → length (l_block (ls_log s)) = logsize →
  brel pid (ls_b s) a → ca_held a = ∅ → (size (ca_dirty a) < nbuf)%nat →
  ca_view a !! Z.to_nat (l_start (ls_log s)) = Some d →
  s32 (rd 4 0 d) = Z.of_nat (length bs) → (length bs <= logsize)%nat →
  (∀ k b, bs !! k = Some b → s32 (rd 4 (4 + 4 * k) d) = b) →
  (∀ s' blk, length blk = logsize → take (length bs) blk = bs →
     ls_log s' = set_block blk (set_n (Z.of_nat (length bs)) (ls_log s)) →
     brel pid (ls_b s') a → Q tt (cpu0 pid) s') →
  wp E read_head (cpu0 pid) s Q.
Proof.
  intros Hdev Hst Hbl HR Hheld Hsz Hd Hn Hmax Hbs HQ.
  unfold read_head. apply wp_bind, wp_gets. rewrite Hdev, u32_small by lia.
  pose proof (lookup_lt_Some _ _ _ Hd).
  apply wp_bind. eapply wp_bread; [done|lia|by apply unheld_empty| |].
  { right. rewrite Hheld, map_size_empty. lia. }
  intros i b1 Hi HR1. apply wp_bind.
  eapply (wp_bdata _ _ _ _ i _ false d); [done|cbn; by rewrite lookup_insert_eq|done|].
  apply wp_bind, wp_modify. cbn [ls_b ls_log]. rewrite Hn. apply wp_bind.
  apply (wp_for_each _ _ _ (λ done s', ls_b s' = b1 ∧ ∃ blk,
    length blk = logsize ∧ take (length done) blk = take (length done) bs ∧
    ls_log s' = set_block blk (set_n (Z.of_nat (length bs)) (ls_log s)))).
  - split; [done|]. exists (l_block (ls_log s)). split; [done|]. split; [done|].
    by destruct (ls_log s).
  - intros done x rest s1 [-> Hk]%seqZ_split (Hb1 & blk & Hlen & Htake & Hl1).
    rewrite Nat2Z.id in Hk. set (k := length done) in *.
    destruct (lookup_lt_is_Some_2 bs k Hk) as [b Hb].
    apply wp_set_lh_block; [sizes; unfold LOGSIZE, MAXOPBLOCKS; lia|].
    split; [done|]. split; [done|]. exists (<[k := b]> blk).
    split; [by rewrite length_insert|]. split.
    + rewrite length_app, Nat.add_1_r. fold k.
      rewrite (take_S_r bs _ _ Hb), (take_S_r _ _ b).
      * by rewrite take_insert_ge, Htake.
      * apply list_lookup_insert_eq. lia.
    + cbn. rewrite Hl1, Nat2Z.id. cbn. unfold set_block. cbn. do 2 f_equal.
      replace (Z.to_nat (4 + 4 * Z.of_nat k)) with (4 + 4 * k)%nat by lia. by rewrite (Hbs _ _ Hb).
  - intros s1 (Hb1 & blk & Hlen & Htake & Hl1). rewrite length_seqZ, Nat2Z.id in Htake.
    rewrite (take_ge bs) in Htake by done.
    eapply (wp_brelse _ _ _ _ i); [rewrite Hb1; done|cbn; by rewrite lookup_insert_eq|].
    intros b2 HR2. eapply HQ; [done..|]. cbn.
    unfold ca_drop, ca_hold in HR2. cbn in HR2. rewrite delete_insert_id in HR2 by done.
    by destruct a.
Qed.
End boot.

(** * Boot *)

(** The part of the boot sequence that brings the disk up: [binit] (main.c) and
    [initlog] of the root device (forkret of proc.c). *)
Definition boot : M lstate unit := bio binit ;; initlog ROOTDEV.

(** The machine at power up, with the image [img] on the disk. *)
Definition power_up (img : list (list Z)) : lstate := LState (bstate0 img) log0.

(** The block writes of recovery. *)
Definition recovery_writes (st : Z) (bs : list Z) (vs : list (list Z)) (hd : list Z)
    : list (Z * list Z) :=
  home_writes bs vs ++ [(st, put_header [] hd)].

Lemma readsb_spec pid E s a d Q :
  brel pid s a → ca_held a = ∅ → (size (ca_dirty a) < nbuf)%nat →
  ca_view a !! 1%nat = Some d →
  (∀ s', brel pid s' a → Q (sb_decode d) (cpu0 pid) s') →
  wp E (readsb 1) (cpu0 pid) s Q.
Proof.
  intros HR Hheld Hsz Hd HQ. unfold readsb. pose proof (lookup_lt_Some _ _ _ Hd).
  apply wp_bind, wp_runs. wp_use bread_spec; [done|lia|by apply unheld_empty| |].
  { right. rewrite Hheld, map_size_empty. lia. }
  intros i c b (-> & Hi & Hb).
  apply wp_bind. eapply eq_wp; [eapply bdata_spec; [done|cbn; by rewrite lookup_insert_eq|done]|].
  destruct (brelse_spec pid b _ i 1 Hb) as (b2 & Heq & HR2); [cbn; by rewrite lookup_insert_eq|].
  apply wp_bind. eapply eq_wp; [done|]. apply wp_ret. apply HQ.
  unfold ca_drop, ca_hold in HR2. cbn in HR2. rewrite delete_insert_id in HR2 by done.
  by destruct a.
Qed.

Lemma initlog_spec pid E img st sz bs vs hd b Q :
  log_image img st sz bs vs → img !! Z.to_nat st = Some hd → brel pid b (ca_init img) →
  (∀ s' blk, length blk = logsize → ls_log s' = Log st sz 0 0 1 0 blk →
     brel pid (ls_b s')
       (CAbs (apply_writes (recovery_writes st bs vs hd) img)
             (disk_writes (recovery_writes st bs vs hd) (Disk img [])) ∅ ∅) →
     Q tt (cpu0 pid) s') →
  wp E (initlog ROOTDEV) (cpu0 pid) (LState b log0) Q.
Proof.
  intros Himg Hhd HR HQ.
  destruct (li_sb _ _ _ _ _ Himg) as (sbd & Hsb & Hst & Hsz).
  destruct (li_head _ _ _ _ _ Himg) as (hd' & Hhd' & Hn & Hbs).
  rewrite Hhd in Hhd'. injection Hhd' as <-.
  assert (1 < st ∧ st < Z.of_nat (length img) ∧ Z.of_nat (length img) < 2 ^ 31) as (Hs1 & Hs2 & Hs3).
  { destruct Himg. lia. }
  unfold initlog. apply wp_bind, wp_when; [done|]. intros _.
  apply wp_bind, wp_lift. cbn [ls_b ls_log].
  eapply readsb_spec; [exact HR|done|cbn; rewrite size_empty; sizes; lia|exact Hsb|].
  intros b1 HR1. apply wp_bind, wp_modify, wp_bind, wp_modify, wp_bind, wp_modify.
  cbn [ls_b ls_log]. rewrite Hst, Hsz. unfold recover_from_log.
  set (s1 := LState _ _). change b1 with (ls_b s1) in HR1.
  apply wp_bind.
  eapply (read_head_spec _ _ _ _ bs hd); [..|exact HR1|done| |exact Hhd|done|apply Himg|done|];
    [done|cbn; lia|done|cbn; rewrite size_empty; sizes; lia|].
  intros s2 blk Hlen Htake Hl2 HR2.
  assert (log_ok (ls_log s2) bs (length (ca_view (ca_init img)))) as Hlog.
  { rewrite Hl2. destruct Himg. split; cbn; try done; try lia.
    intros b' Hb. apply li_home0 in Hb. lia. }
  assert (Forall (λ d, length d = bsize) vs) as Hvl.
  { apply Forall_lookup. intros k d Hd.
    eapply (Forall_lookup_1 _ _ _ _ (li_blocks _ _ _ _ _ Himg)). by eapply li_slots. }
  apply wp_bind.
  eapply (λ X Y, install_trans_spec _ _ bs vs (li_vs _ _ _ _ _ Himg) Hvl _ _ _ X Y HR2);
    [done|done| |cbn; rewrite size_empty; sizes; lia|right; cbn; rewrite size_empty; sizes; lia|].
  { intros k d Hd. rewrite Hl2. cbn. by eapply li_slots. }
  intros s3 Hl3 HR3. apply wp_bind, wp_modify. set (s3' := LState _ _).
  change (ls_b s3) with (ls_b s3') in HR3.
  eapply (λ X Y, write_head_spec _ _ _ _ [] hd _ X Y HR3); cbn; rewrite ?Hl3.
  { rewrite apply_writes_length. by eapply log_ok_clear. }
  { done. }
  { replace (∅ ∖ list_to_set bs) with (∅ : gset Z) by set_solver. rewrite size_empty. sizes. lia. }
  { rewrite Hl2. cbn. rewrite apply_writes_other; [done|].
    intros w Hw%home_writes_fst. pose proof (li_home _ _ _ _ _ Himg _ Hw).
    destruct Himg. lia. }
  rewrite Hl2. cbn [l_start set_n set_block]. intros s4 Hl4 HR4.
  eapply HQ; [exact Hlen|by rewrite Hl4|].
  unfold ca_put in HR4. cbn in HR4.
  replace ((∅ ∖ list_to_set bs) ∖ {[st]}) with (∅ : gset Z) in HR4 by set_solver.
  unfold recovery_writes. rewrite apply_writes_app, disk_writes_snoc. exact HR4.
Qed.

Lemma boot_spec pid E img st sz bs vs hd Q :
  log_image img st sz bs vs → img !! Z.to_nat st = Some hd →
  (∀ s' blk, length blk = logsize → ls_log s' = Log st sz 0 0 1 0 blk →
     brel pid (ls_b s')
       (CAbs (apply_writes (recovery_writes st bs vs hd) img)
             (disk_writes (recovery_writes st bs vs hd) (Disk img [])) ∅ ∅) →
     Q tt (cpu0 pid) s') →
  wp E boot (cpu0 pid) (power_up img) Q.
Proof.
  intros Himg Hhd HQ. unfold boot. apply wp_bind, wp_lift. eapply eq_wp; [apply binit_eq|].
  eapply initlog_spec; [done|done| |exact HQ]. exact (binit_brel pid img (li_blocks _ _ _ _ _ Himg)).
Qed.

(** * The images a power failure can leave *)

Lemma same_data_trans st sz i1 i2 i3 :
  same_data st sz i1 i2 → same_data st sz i2 i3 → same_data st sz i1 i3.
Proof. intros H1 H2 b Hb Hn. by rewrite H1, H2. Qed.

Section images.
Context (img : list (list Z)) (st sz : Z) (bs : list Z) (vs : list (list Z)).
Context (Himg : log_image img st sz bs vs).

Lemma li_vlen : Forall (λ d, length d = bsize) vs.
Proof.
  apply Forall_lookup. intros k d Hd.
  eapply (Forall_lookup_1 _ _ _ _ (li_blocks _ _ _ _ _ Himg)). by eapply li_slots.
Qed.

Lemma home_writes_vlen b' v' :
  Forall (λ d, length d = bsize) v' → Forall (λ w, length w.2 = bsize) (home_writes b' v').
Proof.
  intros Hv. apply Forall_forall. intros [b d] Hw.
  apply elem_of_zip_r in Hw. by eapply Forall_forall in Hv.
Qed.

(** Writes that do not touch the superblock or the log keep the log. *)
Lemma log_image_keep ws :
  Forall (λ w, length w.2 = bsize) ws →
  (∀ w, w ∈ ws → 0 <= w.1 ∧ w.1 ≠ 1 ∧ ¬ (st <= w.1 < st + sz)) →
  log_image (apply_writes ws img) st sz bs vs.
Proof.
  intros Hlen Hws. destruct Himg.
  assert (∀ j, (j = 1 ∨ st <= j < st + sz) →
               apply_writes ws img !! Z.to_nat j = img !! Z.to_nat j) as Hsame.
  { intros j Hj. apply apply_writes_other. intros w Hw%Hws. lia. }
  pose proof (Hsame 1 (or_introl eq_refl)) as Hsame1. change (Z.to_nat 1) with 1%nat in Hsame1.
  split; rewrite ?apply_writes_length, ?Hsame1; try done.
  - by apply apply_writes_blocks.
  - rewrite Hsame by lia. done.
  - intros k d Hd. pose proof (lookup_lt_Some _ _ _ Hd). rewrite Hsame by lia. by apply li_slots0.
Qed.

Lemma home_writes_off w :
  w ∈ home_writes bs vs → 0 <= w.1 ∧ w.1 ≠ 1 ∧ ¬ (st <= w.1 < st + sz).
Proof. intros Hw%home_writes_fst%(li_home _ _ _ _ _ Himg). lia. Qed.

(** After recovery the log is empty. *)
Lemma recovery_done hd :
  img !! Z.to_nat st = Some hd →
  log_image (apply_writes (recovery_writes st bs vs hd) img) st sz [] [].
Proof.
  intros Hhd. unfold recovery_writes. rewrite apply_writes_app.
  pose proof (log_image_keep _ (home_writes_vlen bs vs li_vlen) home_writes_off) as Hi1.
  set (img1 := apply_writes (home_writes bs vs) img) in *.
  assert (length hd = bsize) as Hhdl by (by eapply (Forall_lookup_1 _ _ _ _ (li_blocks _ _ _ _ _ Himg))).
  assert (Z.to_nat st < length img1)%nat as Hst.
  { unfold img1. rewrite apply_writes_length. by eapply lookup_lt_Some. }
  pose proof (put_header_length [] hd ltac:(cbn; lia) Hhdl) as Hpl.
  pose proof (put_header_n [] hd ltac:(cbn; lia) Hhdl) as Hpn.
  set (hd' := put_header [] hd) in *. cbn.
  destruct Hi1. split; rewrite ?length_insert; try done; cbn; try lia.
  - by apply Forall_insert.
  - rewrite list_lookup_insert_ne by lia. done.
  - exists hd'. split; [by apply list_lookup_insert_eq|]. unfold rd in *. rewrite Hpn. done.
  - set_solver.
Qed.

Lemma recovery_data hd :
  same_data st sz (apply_writes (recovery_writes st bs vs hd) img)
    (apply_writes (home_writes bs vs) img).
Proof.
  intros b Hb Hnot. unfold recovery_writes. rewrite apply_writes_app. cbn.
  rewrite list_lookup_insert_ne; [done|]. destruct Himg. lia.
Qed.

Lemma recovery_prefix hd tgt k :
  img !! Z.to_nat st = Some hd →
  same_data st sz (apply_writes (home_writes bs vs) img) tgt →
  stands_for st sz (apply_writes (take k (recovery_writes st bs vs hd)) img) tgt.
Proof.
  intros Hhd Htgt.
  assert (length (home_writes bs vs) = length bs) as Hlen.
  { unfold home_writes. rewrite length_zip, (li_vs _ _ _ _ _ Himg). lia. }
  destruct (decide (k <= length bs)%nat) as [Hk|Hk].
  - unfold recovery_writes. rewrite take_app_le by lia. exists bs, vs. split.
    + apply log_image_keep; [apply Forall_take, home_writes_vlen, li_vlen|].
      intros w Hin%take_elem. by apply home_writes_off.
    + by rewrite apply_writes_again.
  - rewrite take_ge by (unfold recovery_writes; rewrite length_app; cbn; lia).
    exists [], []. split; [by apply recovery_done|].
    eapply same_data_trans; [apply recovery_data|done].
Qed.
End images.

(** The first half of a commit: the log's data blocks, then the header. *)
Definition log_phase (st : Z) (bs : list Z) (vs : list (list Z)) (hd : list Z) : list (Z * list Z) :=
  log_writes st vs ++ [(st, put_header bs hd)].

Lemma commit_writes_phases st bs vs hd :
  commit_writes st bs vs hd = log_phase st bs vs hd ++ recovery_writes st bs vs (put_header bs hd).
Proof. unfold commit_writes, log_phase, recovery_writes. by rewrite cons_middle, app_assoc. Qed.

Section commits.
Context (img : list (list Z)) (st sz : Z) (bs : list Z) (vs : list (list Z)) (hd : list Z).
Context (Himg : log_image img st sz [] []) (Hhd : img !! Z.to_nat st = Some hd).
Context (Hvs : length vs = length bs) (Hmax : (length bs <= logsize)%nat).
Context (Hroom : Z.of_nat (length bs) + 1 <= sz) (Hv : Forall (λ d, length d = bsize) vs).
Context (Hhome : ∀ b, b ∈ bs →
  0 <= b < Z.of_nat (length img) ∧ b ≠ 1 ∧ ¬ (st <= b < st + sz)).

Lemma log_writes_inside w : w ∈ log_writes st vs → st < w.1 < st + sz.
Proof. intros (j & Hj & ->)%log_writes_elem. lia. Qed.

Lemma log_writes_vlen : Forall (λ w, length w.2 = bsize) (log_writes st vs).
Proof.
  apply Forall_lookup. intros j w Hw. unfold log_writes in Hw. rewrite list_lookup_imap in Hw.
  apply fmap_Some in Hw as (d & Hd & ->). by eapply Forall_lookup in Hv.
Qed.

(** The log phase leaves the data alone. *)
Lemma log_phase_data im :
  same_data st sz (apply_writes (log_phase st bs vs hd) im) im.
Proof.
  intros b Hb Hnot. apply apply_writes_other. unfold log_phase.
  pose proof (li_start _ _ _ _ _ Himg).
  intros w [Hw%log_writes_inside|Hw%list_elem_of_singleton]%elem_of_app; [lia|].
  subst. cbn. lia.
Qed.

(** The write of the header is the commit point. *)
Lemma log_phase_done : log_image (apply_writes (log_phase st bs vs hd) img) st sz bs vs.
Proof.
  assert (length hd = bsize) as Hhdl by (by eapply (Forall_lookup_1 _ _ _ _ (li_blocks _ _ _ _ _ Himg))).
  pose proof (lookup_lt_Some _ _ _ Hhd) as Hstl.
  pose proof (log_phase_data img 1) as Hout1. change (Z.to_nat 1) with 1%nat in Hout1.
  destruct Himg. split; rewrite ?apply_writes_length; try done.
  - apply apply_writes_blocks; [|done]. apply Forall_app. split; [apply log_writes_vlen|].
    apply Forall_singleton. by apply put_header_length.
  - rewrite Hout1 by lia. done.
  - exists (put_header bs hd). unfold log_phase. rewrite apply_writes_app. split.
    { cbn. apply list_lookup_insert_eq. by rewrite apply_writes_length. }
    split.
    + rewrite put_header_n by done. apply s32_small. sizes. lia.
    + intros j b Hb. pose proof (Hhome b ltac:(by eapply list_elem_of_lookup_2)).
      rewrite (put_header_block _ _ _ b) by (done || lia). apply s32_small. lia.
  - intros j d Hd. unfold log_phase. rewrite apply_writes_app. cbn.
    rewrite list_lookup_insert_ne by lia. apply log_writes_lookup; [lia|done|lia].
Qed.

Lemma log_phase_head :
  apply_writes (log_phase st bs vs hd) img !! Z.to_nat st = Some (put_header bs hd).
Proof.
  unfold log_phase. rewrite apply_writes_app. cbn. apply list_lookup_insert_eq.
  rewrite apply_writes_length. by eapply lookup_lt_Some.
Qed.

Lemma log_phase_home :
  same_data st sz (apply_writes (home_writes bs vs) (apply_writes (log_phase st bs vs hd) img))
    (apply_writes (home_writes bs vs) img).
Proof.
  intros b Hb Hnot. apply apply_writes_at; [apply apply_writes_length|].
  intros _. by apply log_phase_data.
Qed.

(** After a commit the log is empty again. *)
Lemma commit_done : log_image (apply_writes (commit_writes st bs vs hd) img) st sz [] [].
Proof.
  rewrite commit_writes_phases, apply_writes_app.
  apply recovery_done; [apply log_phase_done|apply log_phase_head].
Qed.

(** Every prefix of the writes of a commit stands for the old contents, up to the
    write of the header, or for the new ones, from that write on. *)
Lemma commit_prefix k :
  stands_for st sz (apply_writes (take k (commit_writes st bs vs hd)) img)
    (if decide (k <= length bs)%nat then img else apply_writes (home_writes bs vs) img).
Proof.
  assert (length (log_writes st vs) = length bs) as Hlen by (unfold log_writes; by rewrite length_imap).
  pose proof (li_start _ _ _ _ _ Himg) as Hst.
  rewrite commit_writes_phases. unfold log_phase. case_decide as Hk.
  - rewrite <- app_assoc, take_app_le by lia. exists [], []. pose proof log_writes_vlen. destruct Himg. split.
    + split; rewrite ?apply_writes_length; try done.
      * apply apply_writes_blocks; [by apply Forall_take|done].
      * rewrite apply_writes_other; [done|]. intros w Hw%take_elem%log_writes_inside. lia.
      * rewrite apply_writes_other; [done|]. intros w Hw%take_elem%log_writes_inside. lia.
    + intros b Hb Hnot. cbn. apply apply_writes_other. intros w Hw%take_elem%log_writes_inside. lia.
  - fold (log_phase st bs vs hd).
    rewrite take_app_ge, apply_writes_app by (unfold log_phase; rewrite length_app; cbn; lia).
    apply recovery_prefix; [apply log_phase_done|apply log_phase_head|apply log_phase_home].
Qed.
End commits.

(** * Power failures *)

(** [img] is booted and power fails again after some of the block writes of the
    boot, which leaves [img']. *)
Definition failed_boot (pid : Z) (img img' : list (list Z)) : Prop :=
  ∃ c s k, boot (cpu0 pid) (power_up img) = Ret tt c s ∧
           img' = apply_writes (take k (d_writes (bs_disk (ls_b s)))) img.

Lemma stands_for_boot pid st sz img tgt :
  stands_for st sz img tgt →
  ∃ s, boot (cpu0 pid) (power_up img) = Ret tt (cpu0 pid) s ∧
       same_data st sz (d_img (bs_disk (ls_b s))) tgt ∧
       ∀ k, stands_for st sz (apply_writes (take k (d_writes (bs_disk (ls_b s)))) img) tgt.
Proof.
  intros (bs & vs & Himg & Htgt). destruct (li_head _ _ _ _ _ Himg) as (hd & Hhd & _).
  assert (runs boot (cpu0 pid) (power_up img) (λ _ c s, c = cpu0 pid ∧
    bs_disk (ls_b s) = disk_writes (recovery_writes st bs vs hd) (Disk img []))) as Hrun.
  { eapply boot_spec; [done..|]. intros s' blk _ _ HR. split; [done|].
    apply (brel_disk _ _ _ HR). }
  apply runs_eq in Hrun as ([] & c & s & Heq & -> & Hdisk).
  exists s. split; [done|]. rewrite Hdisk. cbn. split.
  - eapply same_data_trans; [by eapply recovery_data|done].
  - intros k. by apply recovery_prefix.
Qed.

Lemma stands_for_failed_boots pid st sz img img' tgt :
  rtc (failed_boot pid) img img' → stands_for st sz img tgt → stands_for st sz img' tgt.
Proof.
  induction 1 as [|i1 i2 i3 (c & s & k & Hb & ->) _ IH]; [done|].
  intros Hs. apply IH. destruct (stands_for_boot pid _ _ _ _ Hs) as (s' & Hb' & _ & Hk).
  rewrite Hb in Hb'. injection Hb' as _ <-. apply Hk.
Qed.

(** A block that is neither held nor pinned is the same in the cache and on the disk. *)
Lemma brel_clean_block pid s a n :
  brel pid s a → ca_held a = ∅ → 0 <= n → n ∉ ca_dirty a →
  ca_view a !! Z.to_nat n = d_img (ca_disk a) !! Z.to_nat n.
Proof.
  intros HR Hheld Hn Hnd.
  destruct (brel_ring _ _ _ HR) as [l Hr].
  pose proof (find_cached _ _ _ HR l n Hr) as Hc. destruct (find _ l) as [i|].
  - destruct Hc as (Hi & x & Hx & Hd & Hb).
    destruct (brel_buf _ _ _ HR i x Hi Hx) as [Hf Hdev _ Hcl _].
    destruct (Hdev Hd) as (Hne & _ & Hv & Hpin). rewrite Hb in *.
    rewrite Hv. destruct Hf as [?|[Hf|Hf]]; [done| |by apply Hpin in Hf].
    destruct (Hcl Hd Hf) as [[m Hm]|Him]; [by rewrite Hheld in Hm|done].
  - apply (brel_uncached _ _ _ HR); [done|exact Hc].
Qed.

Section crash.
Context (pid : Z) (s : lstate) (a : cabs) (bs : list Z).
Context (HR : brel pid (ls_b s) a) (Hheld : ca_held a = ∅).
Context (Hlog : log_ok (ls_log s) bs (length (ca_view a))).
Context (Hnd : NoDup bs) (Hdirty : ca_dirty a = list_to_set bs).
Context (Hlt : (length bs < nbuf)%nat) (H1 : 1 ∉ bs) (Hne : bs ≠ []).
Notation st := (l_start (ls_log s)).
Notation sz := (l_size (ls_log s)).
Context (Himg : log_image (d_img (ca_disk a)) st sz [] []).

(** The values of the transaction, in the cache. *)
Definition txn_values (a : cabs) (bs : list Z) : list (list Z) :=
  (λ b, ca_view a !!! Z.to_nat b) <$> bs.

Lemma txn_values_lookup k b d :
  bs !! k = Some b → txn_values a bs !! k = Some d → ca_view a !! Z.to_nat b = Some d.
Proof.
  intros Hb Hd. unfold txn_values in Hd. rewrite list_lookup_fmap, Hb in Hd. injection Hd as <-.
  apply list_lookup_lookup_total_lt.
  pose proof (lo_home _ _ _ Hlog b ltac:(by eapply list_elem_of_lookup_2)). lia.
Qed.

Lemma txn_values_block b :
  b ∈ bs → ∃ k d, bs !! k = Some b ∧ txn_values a bs !! k = Some d.
Proof.
  intros [k Hk]%list_elem_of_lookup. exists k, (ca_view a !!! Z.to_nat b).
  split; [done|]. unfold txn_values. by rewrite list_lookup_fmap, Hk.
Qed.

Lemma home_writes_id :
  apply_writes (home_writes bs (txn_values a bs)) (ca_view a) = ca_view a.
Proof.
  enough (∀ ws, (∀ w, w ∈ ws → ca_view a !! Z.to_nat w.1 = Some w.2) →
                apply_writes ws (ca_view a) = ca_view a) as Hid.
  { apply Hid. intros [c d] Hw. apply list_elem_of_lookup in Hw as [k Hw].
    apply lookup_zip_Some in Hw as [Hc Hd]. by eapply txn_values_lookup. }
  induction ws as [|w ws IH]; intros Hws; [done|]. unfold apply_writes in *. cbn.
  rewrite list_insert_id by (apply Hws; set_solver). apply IH. set_solver.
Qed.

Lemma home_writes_view :
  same_data st sz (apply_writes (home_writes bs (txn_values a bs)) (d_img (ca_disk a))) (ca_view a).
Proof.
  intros b Hb _. destruct (decide (b ∈ bs)) as [Hin|Hin].
  - transitivity (apply_writes (home_writes bs (txn_values a bs)) (ca_view a) !! Z.to_nat b).
    + apply apply_writes_at; [symmetry; apply (brel_size _ _ _ HR)|].
      intros Hno. destruct (txn_values_block b Hin) as (k & d & Hk & Hd).
      exfalso. apply (Hno (b, d)); [|done]. apply list_elem_of_lookup. exists k.
      apply lookup_zip_Some. done.
    + by rewrite home_writes_id.
  - rewrite apply_writes_other.
    + symmetry. eapply brel_clean_block; [done..|]. rewrite Hdirty. set_solver.
    + intros w Hw%home_writes_fst. pose proof (lo_home _ _ _ Hlog _ Hw) as [? _].
      intros ?. apply Hin. by replace b with w.1 by lia.
Qed.

(** The writes of the commit. *)
Lemma commit_crash :
  ∃ s' ws, commit (cpu0 pid) s = Ret tt (cpu0 pid) s' ∧ ls_log s' = set_n 0 (ls_log s) ∧
    brel pid (ls_b s') (CAbs (apply_writes ws (ca_view a)) (disk_writes ws (ca_disk a)) ∅ ∅) ∧
    log_image (apply_writes ws (d_img (ca_disk a))) st sz [] [] ∧
    same_data st sz (apply_writes ws (ca_view a)) (ca_view a) ∧
    same_data st sz (apply_writes ws (d_img (ca_disk a))) (ca_view a) ∧
    (length ws = 2 * length bs + 2)%nat ∧
    ∀ k, stands_for st sz (apply_writes (take k ws) (d_img (ca_disk a)))
           (if decide (k <= length bs)%nat then d_img (ca_disk a) else ca_view a).
Proof.
  destruct (li_head _ _ _ _ _ Himg) as (hd & Hhd & _).
  pose proof (li_start _ _ _ _ _ Himg) as Hst.
  assert (length (txn_values a bs) = length bs) as Hvs by (unfold txn_values; apply length_fmap).
  assert (Forall (λ d, length d = bsize) (txn_values a bs)) as Hvl.
  { apply Forall_lookup. intros j d Hd.
    destruct (lookup_lt_is_Some_2 bs j) as [b Hb]; [apply lookup_lt_Some in Hd; lia|].
    eapply (Forall_lookup_1 _ _ _ _ (brel_view_len _ _ _ HR)). by eapply txn_values_lookup. }
  assert (∀ b, b ∈ bs → 0 <= b < Z.of_nat (length (d_img (ca_disk a))) ∧ b ≠ 1 ∧ ¬ (st <= b < st + sz))
    as Hhome.
  { intros b Hb. pose proof (lo_home _ _ _ Hlog _ Hb). rewrite <- (brel_size _ _ _ HR).
    split; [lia|]. split; [by intros ->|lia]. }
  set (ws := commit_writes st bs (txn_values a bs) hd).
  assert (∀ im, same_data st sz (apply_writes ws im)
                  (apply_writes (home_writes bs (txn_values a bs)) im)) as Hdata.
  { intros im. unfold ws. rewrite commit_writes_phases, apply_writes_app. unfold recovery_writes.
    rewrite apply_writes_app. intros b Hb Hnot. cbn. pose proof (lo_room _ _ _ Hlog).
    rewrite list_lookup_insert_ne by lia. apply apply_writes_at; [apply apply_writes_length|].
    intros _. eapply log_phase_data; [exact Himg|done|apply Hlog|done..]. }
  assert (runs commit (cpu0 pid) s (λ _ c s', c = cpu0 pid ∧ ls_log s' = set_n 0 (ls_log s) ∧
    brel pid (ls_b s') (CAbs (apply_writes ws (ca_view a)) (disk_writes ws (ca_disk a)) ∅ ∅))) as Hrun.
  { eapply commit_spec; try done; [apply txn_values_lookup|].
    erewrite brel_clean_block; [exact Hhd|done|done|lia|].
    rewrite Hdirty, elem_of_list_to_set. intros Hin%(lo_home _ _ _ Hlog). destruct Hlog. lia. }
  apply runs_eq in Hrun as ([] & c & s' & Heq & -> & Hl' & HR').
  exists s', ws. do 3 (split; [done|]). split; [by apply commit_done; try apply Hlog|]. split; [|split; [|split]].
  - eapply same_data_trans; [apply Hdata|]. by rewrite home_writes_id.
  - eapply same_data_trans; [apply Hdata|apply home_writes_view].
  - unfold ws, commit_writes, log_writes, home_writes.
    rewrite length_app, length_imap. cbn. rewrite length_app, length_zip. cbn. lia.
  - intros k. destruct (commit_prefix (d_img (ca_disk a)) st sz bs (txn_values a bs) hd)
      with (k := k) as (bs' & vs' & Hi & Hsame); try apply Hlog; try done.
    exists bs', vs'. split; [done|]. case_decide; [done|].
    eapply same_data_trans; [done|apply home_writes_view].
Qed.
End crash.
