(* ===== verification/LogOps.v ===== *)
(** The transaction interface of the log, as the file system uses it: the abstract
    state of a running transaction and the effect of [begin_op], [log_write] and
    [end_op] on it. *)
From stdpp Require Import base list numbers strings sets gmap.
From Stdlib Require Import ZArith Lia.
From S2P Require Import Prelude Params Machine Spinlock Sleeplock Bio BioRing BioSpec.
From S2P Require Import Log LogSpec LogCommit LogRecover.
Local Open Scope Z_scope.
Local Open Scope xv6_scope.

(** * Abstract state *)

(** [la_old]: the committed contents of the disk;
    [la_view]: the contents as the kernel sees them;
    [la_held]: the buffers the process holds, with their block and whether they were
    stored to since they were last logged;
    [la_bs]: the blocks of the current transaction;
    [la_out]: the number of file system calls in progress;
    [la_committing]: whether a commit is running. *)
Record labs := LAbs {
  la_old : list (list Z);
  la_view : list (list Z);
  la_held : gmap nat (Z * bool);
  la_bs : list Z;
  la_out : Z;
  la_committing : Z;
}.

Section lrel.
Context (pid st sz : Z).

(** The log's state [s] implements [a], with the log in blocks [st .. st + sz - 1]. *)
Record lrel (s : lstate) (a : labs) : Prop := {
  lr_cache : ∃ dk, brel pid (ls_b s) (CAbs (la_view a) dk (la_held a) (list_to_set (la_bs a))) ∧
                   log_image (d_img dk) st sz [] [] ∧ same_data st sz (d_img dk) (la_old a);
  lr_log : log_ok (ls_log s) (la_bs a) (length (la_view a));
  lr_start : l_start (ls_log s) = st;
  lr_size : l_size (ls_log s) = sz;
  lr_out : l_outstanding (ls_log s) = la_out a;
  lr_committing : l_committing (ls_log s) = la_committing a;
  lr_nodup : NoDup (la_bs a);
  lr_super : 1 ∉ la_bs a;
  lr_dirty : ∀ i n, la_held a !! i = Some (n, true) → n ≠ 1 ∧ ¬ (st <= n < st + sz);
}.
End lrel.

Definition la_hold (i : nat) (n : Z) (m : bool) (a : labs) : labs :=
  LAbs (la_old a) (la_view a) (<[i := (n, m)]> (la_held a)) (la_bs a) (la_out a) (la_committing a).
Definition la_drop (i : nat) (a : labs) : labs :=
  LAbs (la_old a) (la_view a) (delete i (la_held a)) (la_bs a) (la_out a) (la_committing a).
Definition la_store (i : nat) (n : Z) (d : list Z) (a : labs) : labs :=
  LAbs (la_old a) (<[Z.to_nat n := d]> (la_view a)) (<[i := (n, true)]> (la_held a)) (la_bs a) (la_out a) (la_committing a).
(** Put block [n] in the transaction, unless it is there already. *)
Definition absorb (n : Z) (bs : list Z) : list Z := if decide (n ∈ bs) then bs else bs ++ [n].
Definition la_log (i : nat) (n : Z) (a : labs) : labs :=
  LAbs (la_old a) (la_view a) (<[i := (n, false)]> (la_held a)) (absorb n (la_bs a)) (la_out a) (la_committing a).
Definition la_set_out (k : Z) (a : labs) : labs :=
  LAbs (la_old a) (la_view a) (la_held a) (la_bs a) k (la_committing a).
Definition la_set_committing (k : Z) (a : labs) : labs :=
  LAbs (la_old a) (la_view a) (la_held a) (la_bs a) (la_out a) k.

(** The process does not hold the buffer of block [n]. *)
Definition la_unheld (a : labs) (n : Z) : Prop := ∀ i m, la_held a !! i ≠ Some (n, m).

(** * The absorption loop of [log_write] *)

Lemma log_index_range bs b : 0 <= log_index bs b <= Z.of_nat (length bs).
Proof. induction bs as [|x bs IH]; cbn; [lia|]. destruct (x =? b); lia. Qed.

Lemma log_index_notin bs b : b ∉ bs → log_index bs b = Z.of_nat (length bs).
Proof.
  induction bs as [|x bs IH]; intros Hb; cbn; [done|].
  destruct (Z.eqb_spec x b); [set_solver|]. rewrite IH by set_solver. lia.
Qed.

Lemma log_index_in bs b :
  b ∈ bs → log_index bs b < Z.of_nat (length bs) ∧ bs !! Z.to_nat (log_index bs b) = Some b.
Proof.
  induction bs as [|x bs IH]; intros Hb; cbn [log_index length]; [set_solver|].
  destruct (Z.eqb_spec x b) as [->|Hne]; [split; [lia|done]|].
  destruct IH as [IH1 IH2]; [set_solver|]. pose proof (log_index_range bs b).
  split; [lia|]. by replace (Z.to_nat (1 + log_index bs b)) with (S (Z.to_nat (log_index bs b))) by lia.
Qed.

Lemma absorb_set n bs : (list_to_set (absorb n bs) : gset Z) = {[n]} ∪ list_to_set bs.
Proof. unfold absorb. case_decide; set_solver. Qed.

Lemma absorb_nodup n bs : NoDup bs → NoDup (absorb n bs).
Proof.
  intros H. unfold absorb. case_decide; [done|]. apply NoDup_app.
  split; [done|]. split; [set_solver|]. apply NoDup_singleton.
Qed.

Lemma absorb_elem n bs b : b ∈ absorb n bs ↔ b = n ∨ b ∈ bs.
Proof. unfold absorb. case_decide; set_solver. Qed.

Lemma absorb_length n bs : (length (absorb n bs) <= S (length bs))%nat.
Proof. unfold absorb. case_decide; [lia|]. rewrite length_app. cbn. lia. Qed.

Lemma lo_take_insert l bs nb n :
  log_ok l bs nb → (length bs < logsize)%nat →
  take (length (absorb n bs)) (<[Z.to_nat (log_index bs n) := n]> (l_block l)) = absorb n bs.
Proof.
  intros Hlog Hlt. pose proof (lo_block _ _ _ Hlog) as Ht. pose proof (lo_block_len _ _ _ Hlog) as Hl.
  unfold absorb. case_decide as Hin.
  - destruct (log_index_in _ _ Hin) as [_ Hidx].
    rewrite list_insert_id; [done|]. by eapply lo_lookup.
  - rewrite log_index_notin by done. rewrite Nat2Z.id, length_app. cbn.
    rewrite Nat.add_1_r, (take_S_r _ _ n) by (apply list_lookup_insert_eq; lia).
    by rewrite take_insert_ge, Ht.
Qed.

Section ops.
Context (pid st sz : Z) (E : string → Prop).
Notation lrel := (lrel pid st sz).

Lemma log_write_spec s a i n m Q :
  lrel s a → la_held a !! i = Some (n, m) → n ≠ 1 → ¬ (st <= n < st + sz) →
  1 <= la_out a → (length (la_bs a) < logsize)%nat → Z.of_nat (length (la_bs a)) + 1 < sz →
  (∀ s', lrel s' (la_log i n a) → bs_disk (ls_b s') = bs_disk (ls_b s) → Q tt (cpu0 pid) s') →
  wp E (log_write i) (cpu0 pid) s Q.
Proof.
  intros HL Hi Hn1 Hnl Hout Hmax Hroom HQ. destruct HL as [(dk & HR & Himg & Hold) Hlog Hst Hsz Ho Hc Hnd Hsup Hdirty].
  pose proof (lo_n _ _ _ Hlog) as Hln.
  unfold log_write. apply wp_bind, wp_gets. apply wp_bind, wp_when.
  { rewrite Hln, Hsz. unfold LOGSIZE, MAXOPBLOCKS in *. lia. }
  intros _. apply wp_bind, wp_when; [lia|]. intros _.
  apply wp_bind, wp_acquire0.
  destruct (held_buf _ _ _ _ _ _ HR Hi) as (x & Hib & Hx & Hdev & Hb & _ & _ & _ & _ & Hnv & _).
  apply wp_bind, wp_lift. eapply eq_wp; [by apply bufp_eq|]. rewrite Hb, Hln, Nat2Z.id.
  rewrite (lo_block _ _ _ Hlog). pose proof (log_index_range (la_bs a) n) as Hidx.
  apply wp_bind, wp_set_lh_block; [unfold LOGSIZE, MAXOPBLOCKS in *; lia|]. cbn [ls_b ls_log].
  set (idx := log_index (la_bs a) n) in *.
  apply wp_bind.
  assert (∀ s', ls_b s' = ls_b s →
    ls_log s' = set_block (<[Z.to_nat idx := n]> (l_block (ls_log s)))
                  (set_n (Z.of_nat (length (absorb n (la_bs a)))) (ls_log s)) →
    wp E (bio (upd_buf i (set_flags (λ f, Z.lor f B_DIRTY))) ;; release LkLog)
      (cpu1 pid LkLog) s' Q) as Hrest.
  { intros s' Hb' Hl'. apply wp_bind, wp_lift. rewrite Hb'.
    destruct (pin_spec pid (cpu1 pid LkLog) _ _ _ _ _ HR Hi) as (b2 & Heq & HR2).
    eapply eq_wp; [exact Heq|]. apply wp_release1. apply HQ.
    2:{ cbn. rewrite (brel_disk _ _ _ HR). apply (brel_disk _ _ _ HR2). }
    split; cbn [ls_b ls_log]; rewrite ?Hl'; try done.
    - exists dk. split; [|done]. unfold ca_pin in HR2. cbn in HR2. cbn. by rewrite absorb_set.
    - pose proof (lo_take_insert _ _ _ n Hlog Hmax) as Htk. fold idx in Htk.
      pose proof (absorb_length n (la_bs a)). destruct Hlog. split; cbn; try done; try lia.
      + by rewrite length_insert.
      + intros b [->|Hbin]%absorb_elem; [|auto].
        split; [exact Hnv|]. rewrite Hst, Hsz. done.
    - by apply absorb_nodup.
    - cbn. rewrite absorb_elem. naive_solver.
    - cbn. intros j k. destruct (decide (i = j)) as [->|]; simplify_map_eq; [done|]. apply Hdirty. }
  apply wp_when; intros Heqb; cbn [ls_b ls_log].
  - apply wp_modify. apply Hrest; [done|]. cbn. unfold set_block, set_n. cbn. f_equal.
    unfold absorb. case_decide as Hin; [|rewrite length_app; cbn; lia].
    destruct (log_index_in _ _ Hin). lia.
  - apply Hrest; [done|]. cbn. unfold set_block, set_n. cbn. f_equal.
    unfold absorb. case_decide as Hin; [done|].
    unfold idx in Heqb. rewrite log_index_notin in Heqb by done. lia.
Qed.

(** The panics of [log_write]: a transaction that does not fit, and a call outside
    of any transaction. *)
Lemma log_write_too_big s i :
  LOGSIZE <= l_n (ls_log s) ∨ l_size (ls_log s) - 1 <= l_n (ls_log s) →
  log_write i (cpu0 pid) s = Panic "too big a transaction".
Proof.
  intros H. unfold log_write, bind, getlog, gets. cbn.
  replace ((LOGSIZE <=? l_n (ls_log s)) || (l_size (ls_log s) - 1 <=? l_n (ls_log s))) with true by lia.
  done.
Qed.

Lemma log_write_outside s i :
  l_n (ls_log s) < LOGSIZE → l_n (ls_log s) < l_size (ls_log s) - 1 → l_outstanding (ls_log s) < 1 →
  log_write i (cpu0 pid) s = Panic "log_write outside of trans".
Proof.
  intros H1 H2 H3. unfold log_write, bind, getlog, gets. cbn.
  replace ((LOGSIZE <=? l_n (ls_log s)) || (l_size (ls_log s) - 1 <=? l_n (ls_log s))) with false by lia.
  cbn. replace (l_outstanding (ls_log s) <? 1) with true by lia. done.
Qed.

Lemma begin_op_spec s a Q :
  lrel s a → la_committing a = 0 → Z.of_nat (length (la_bs a)) + (la_out a + 1) * MAXOPBLOCKS <= LOGSIZE →
  (∀ s', lrel s' (la_set_out (la_out a + 1) a) → bs_disk (ls_b s') = bs_disk (ls_b s) →
         Q tt (cpu0 pid) s') →
  wp E begin_op (cpu0 pid) s Q.
Proof.
  intros HL Hcom Hroom HQ. pose proof HL as [Hca Hlog Hst Hsz Ho Hc Hnd Hsup Hdirty].
  unfold begin_op. apply wp_bind, wp_acquire0, wp_bind, wp_gets.
  rewrite Hc, Hcom. cbn [negb Z.eqb]. rewrite (lo_n _ _ _ Hlog), Ho.
  replace (LOGSIZE <? _) with false by lia.
  apply wp_bind, wp_modify, wp_release1, HQ; [|done]. split; cbn; try done.
  destruct Hlog. by split.
Qed.

(** [begin_op] waits while a commit is running and while the reserved space could
    overflow the log. *)
Lemma begin_op_waits s :
  l_committing (ls_log s) ≠ 0 ∨
    LOGSIZE < l_n (ls_log s) + (l_outstanding (ls_log s) + 1) * MAXOPBLOCKS →
  begin_op (cpu0 pid) s = Sleep ChLog (cpu1 pid LkPtable) s.
Proof.
  intros H. unfold begin_op. erewrite bind_eq; [|apply acquire_cpu0].
  unfold bind, getlog, gets.
  destruct (Z.eqb_spec (l_committing (ls_log s)) 0); cbn [negb]; [|by rewrite sleep_cpu1].
  destruct H as [?|H]; [done|]. replace (LOGSIZE <? _) with true by lia. by rewrite sleep_cpu1.
Qed.

(** The end of an operation that is not the last one of the transaction. *)
Lemma end_op_more s a Q :
  lrel s a → la_committing a = 0 → 1 < la_out a →
  (∀ s', lrel s' (la_set_out (la_out a - 1) a) → bs_disk (ls_b s') = bs_disk (ls_b s) →
         Q tt (cpu0 pid) s') →
  wp E end_op (cpu0 pid) s Q.
Proof.
  intros HL Hcom Hout HQ. pose proof HL as [Hca Hlog Hst Hsz Ho Hc Hnd Hsup Hdirty].
  unfold end_op. apply wp_bind, wp_acquire0, wp_bind, wp_gets, wp_bind, wp_modify, wp_bind, wp_gets.
  cbn [ls_log l_committing l_outstanding set_outstanding]. rewrite Hc, Hcom, Ho.
  apply wp_bind, wp_when; [done|]. intros _.
  replace (la_out a - 1 =? 0) with false by lia.
  apply wp_bind, wp_bind. eapply eq_wp; [by apply wakeup_cpu1|]. apply wp_ret.
  apply wp_bind, wp_release1, wp_ret. apply HQ; [|done].
  split; cbn; try done. destruct Hlog. by split.
Qed.

(** A commit, in terms of the transaction. *)
Lemma commit_lrel s a Q :
  lrel s a → la_held a = ∅ → (length (la_bs a) < nbuf)%nat →
  (∀ s' v' ws, same_data st sz v' (la_view a) → length v' = length (la_view a) →
     ls_log s' = set_n 0 (ls_log s) →
     lrel s' (LAbs (la_view a) v' ∅ [] (la_out a) (la_committing a)) →
     bs_disk (ls_b s') = disk_writes ws (bs_disk (ls_b s)) →
     (la_bs a ≠ [] → length (la_bs a) < length ws)%nat →
     (∀ k, stands_for st sz (apply_writes (take k ws) (d_img (bs_disk (ls_b s))))
             (if decide (k <= length (la_bs a))%nat then la_old a else la_view a)) →
     Q tt (cpu0 pid) s') →
  wp E commit (cpu0 pid) s Q.
Proof.
  intros HL Hheld Hlt HQ. pose proof HL as [(dk & HR & Himg & Hold) Hlog Hst Hsz Ho Hc Hnd Hsup Hdirty].
  rewrite Hheld in HR. pose proof (brel_disk _ _ _ HR) as Hdk. cbn in Hdk.
  destruct (decide (la_bs a = [])) as [Hnil|Hne].
  - unfold commit. apply wp_bind, wp_gets. apply wp_when.
    { rewrite (lo_n _ _ _ Hlog), Hnil. done. }
    intros _. rewrite Hnil in *.
    assert (same_data st sz (d_img dk) (la_view a)) as Hsame.
    { intros b Hb _. symmetry. by apply (brel_clean_block _ _ _ b HR); [..|set_solver]. }
    apply (HQ s (la_view a) []); try done.
    + destruct (ls_log s), Hlog. cbn in *. by subst.
    + split; cbn; try done. eauto.
    + by rewrite disk_writes_nil.
    + intros k. rewrite take_nil. cbn. exists [], []. rewrite Hdk. split; [done|].
      cbn. by case_decide.
  - rewrite <- Hst, <- Hsz in Himg.
    destruct (commit_crash _ _ _ _ HR eq_refl Hlog Hnd eq_refl Hlt Hsup Hne Himg)
      as (s' & ws & Heq & Hl' & HR' & Himg' & Hd1 & Hd2 & Hwl & Hk).
    cbn in Hd1, Hd2, Hk, Himg', HR'. rewrite Hst, Hsz in *.
    eapply eq_wp; [exact Heq|]. eapply (HQ _ (apply_writes ws (la_view a)) ws).
    + done.
    + apply apply_writes_length.
    + done.
    + split; cbn; rewrite ?Hl'; try done.
      * eexists. split; [exact HR'|]. done.
      * rewrite apply_writes_length. by apply (log_ok_clear (la_bs a)).
      * by apply NoDup_nil.
      * set_solver.
    + rewrite Hdk. apply (brel_disk _ _ _ HR').
    + lia.
    + intros k. rewrite Hdk. destruct (Hk k) as (bs' & vs' & Hi & Hs). exists bs', vs'.
      split; [done|]. case_decide; [|done]. by eapply same_data_trans.
Qed.

(** The end of the last operation of a transaction commits it. *)
Lemma end_op_commit s a Q :
  lrel s a → la_committing a = 0 → la_out a = 1 → la_held a = ∅ → (length (la_bs a) < nbuf)%nat →
  (∀ s' v' ws, same_data st sz v' (la_view a) → length v' = length (la_view a) →
     lrel s' (LAbs (la_view a) v' ∅ [] 0 0) →
     bs_disk (ls_b s') = disk_writes ws (bs_disk (ls_b s)) →
     (la_bs a ≠ [] → length (la_bs a) < length ws)%nat →
     (∀ k, stands_for st sz (apply_writes (take k ws) (d_img (bs_disk (ls_b s))))
             (if decide (k <= length (la_bs a))%nat then la_old a else la_view a)) →
     Q tt (cpu0 pid) s') →
  wp E end_op (cpu0 pid) s Q.
Proof.
  intros HL Hcom Hout Hheld Hlt HQ. pose proof HL as [Hca Hlog Hst Hsz Ho Hc Hnd Hsup Hdirty].
  unfold end_op. apply wp_bind, wp_acquire0, wp_bind, wp_gets, wp_bind, wp_modify, wp_bind, wp_gets.
  cbn [ls_log l_committing l_outstanding set_outstanding]. rewrite Hc, Hcom, Ho, Hout.
  apply wp_bind, wp_when; [done|]. intros _. change (1 - 1 =? 0) with true.
  apply wp_bind, wp_bind, wp_modify, wp_ret, wp_bind, wp_release1. cbn [ls_b ls_log].
  apply wp_when; [|done]. intros _. apply wp_bind.
  set (s1 := LState _ _).
  assert (lrel s1 (la_set_committing 1 (la_set_out 0 a))) as HL1.
  { split; cbn; try done. destruct Hlog. by split. }
  eapply (commit_lrel _ _ _ HL1); [done|done|]. cbn.
  intros s' v' ws H1 H2 H3 H4 H5 H6 H7.
  apply wp_bind, wp_acquire0, wp_bind, wp_modify, wp_bind.
  eapply eq_wp; [by apply wakeup_cpu1|]. apply wp_release1. eapply HQ; try done.
  destruct H4 as [? Hlog' ? ? ? ? ? ? ?]. split; cbn in *; try done. destruct Hlog'. by split.
Qed.

(** The buffer operations inside a transaction. *)
Lemma l_bread s a n Q :
  lrel s a → 0 <= n < Z.of_nat (length (la_view a)) → la_unheld a n →
  n ∈ la_bs a ∨ (length (la_bs a) + size (la_held a) < nbuf)%nat →
  (∀ i s', la_held a !! i = None → lrel s' (la_hold i n false a) →
           bs_disk (ls_b s') = bs_disk (ls_b s) → Q i (cpu0 pid) s') →
  wp E (bio (bread 1 n)) (cpu0 pid) s Q.
Proof.
  intros HL Hn Hun Hsz HQ. destruct HL as [(dk & HR & Himg & Hold) Hlog Hst Hsize Ho Hc Hnd Hsup Hdirty].
  eapply (wp_bread _ _ _ _ n _ HR); [done|done| |].
  { cbn. rewrite size_list_to_set by done. rewrite elem_of_list_to_set. done. }
  intros i b Hi HR'. apply HQ; [done| |].
  - split; cbn; try done.
    + exists dk. done.
    + intros j k. destruct (decide (i = j)) as [->|]; simplify_map_eq; [done|]. apply Hdirty.
  - cbn. rewrite (brel_disk _ _ _ HR). apply (brel_disk _ _ _ HR').
Qed.

Lemma l_bdata s a i n m d Q :
  lrel s a → la_held a !! i = Some (n, m) → la_view a !! Z.to_nat n = Some d →
  Q d (cpu0 pid) s → wp E (bio (bdata i)) (cpu0 pid) s Q.
Proof.
  intros HL Hi Hd HQ. destruct (lr_cache _ _ _ _ _ HL) as (dk & HR & _).
  eapply (wp_bdata _ _ _ _ i n m d _ HR); done.
Qed.

Lemma l_bstore s a i n m f d Q :
  lrel s a → la_held a !! i = Some (n, m) → la_view a !! Z.to_nat n = Some d →
  length (f d) = bsize → n ≠ 1 → ¬ (st <= n < st + sz) →
  (∀ s', lrel s' (la_store i n (f d) a) → bs_disk (ls_b s') = bs_disk (ls_b s) → Q tt (cpu0 pid) s') →
  wp E (bio (bstore i f)) (cpu0 pid) s Q.
Proof.
  intros HL Hi Hd Hlen Hn1 Hnl HQ.
  destruct HL as [(dk & HR & Himg & Hold) Hlog Hst Hsize Ho Hc Hnd Hsup Hdirty].
  eapply (wp_bstore _ _ _ _ i n m f d _ HR); [done|done|done|].
  intros b HR'. apply HQ.
  - split; cbn; try done.
    + exists dk. done.
    + by rewrite length_insert.
    + intros j k. destruct (decide (i = j)) as [->|]; simplify_map_eq; [|apply Hdirty].
      intros ?. by simplify_eq.
  - cbn. rewrite (brel_disk _ _ _ HR). apply (brel_disk _ _ _ HR').
Qed.

Lemma l_brelse s a i n Q :
  lrel s a → la_held a !! i = Some (n, false) →
  (∀ s', lrel s' (la_drop i a) → bs_disk (ls_b s') = bs_disk (ls_b s) → Q tt (cpu0 pid) s') →
  wp E (bio (brelse i)) (cpu0 pid) s Q.
Proof.
  intros HL Hi HQ.
  destruct HL as [(dk & HR & Himg & Hold) Hlog Hst Hsize Ho Hc Hnd Hsup Hdirty].
  eapply (wp_brelse _ _ _ _ i n _ HR); [done|].
  intros b HR'. apply HQ.
  - split; cbn; try done.
    + exists dk. done.
    + intros j k. destruct (decide (i = j)) as [->|]; simplify_map_eq; [done|]. apply Hdirty.
  - cbn. rewrite (brel_disk _ _ _ HR). apply (brel_disk _ _ _ HR').
Qed.

Lemma lrel_block s a n d :
  lrel s a → la_view a !! n = Some d → length d = bsize.
Proof.
  intros HL Hd. destruct (lr_cache _ _ _ _ _ HL) as (dk & HR & _).
  by eapply (Forall_lookup_1 _ _ _ _ (brel_view_len _ _ _ HR)).
Qed.
End ops.

(** The state in which boot leaves the log. *)
Lemma initlog_lrel pid E img st sz bs vs b Q :
  log_image img st sz bs vs → brel pid b (ca_init img) →
  (∀ s' v' rw, lrel pid st sz s' (LAbs v' v' ∅ [] 0 0) →
     bs_disk (ls_b s') = disk_writes rw (Disk img []) → v' = apply_writes rw img →
     (∀ k, stands_for st sz (apply_writes (take k rw) img) (apply_writes (home_writes bs vs) img)) →
     same_data st sz v' (apply_writes (home_writes bs vs) img) → length v' = length img →
     Q tt (cpu0 pid) s') →
  wp E (initlog ROOTDEV) (cpu0 pid) (LState b log0) Q.
Proof.
  intros Himg Hb HQ. destruct (li_head _ _ _ _ _ Himg) as (hd & Hhd & _).
  eapply initlog_spec; [done|done|done|]. intros s' blk Hlen Hl HR.
  pose proof (recovery_done _ _ _ _ _ Himg _ Hhd) as Hdone.
  eapply (HQ _ (apply_writes (recovery_writes st bs vs hd) img) (recovery_writes st bs vs hd)).
  - destruct Hdone as [? Hnb ? Hs He ? ? ? ? Hr ?].
    split; cbn; rewrite ?Hl; try done.
    + eexists. split; [exact HR|]. split; [|done]. cbn. by apply recovery_done.
    + split; cbn; try done; try lia. set_solver.
    + by apply NoDup_nil.
    + set_solver.
  - apply (brel_disk _ _ _ HR).
  - done.
  - intros k. by apply recovery_prefix.
  - by eapply recovery_data.
  - apply apply_writes_length.
Qed.

Lemma boot_lrel pid E img st sz bs vs Q :
  log_image img st sz bs vs →
  (∀ s' v' rw, lrel pid st sz s' (LAbs v' v' ∅ [] 0 0) →
     bs_disk (ls_b s') = disk_writes rw (Disk img []) → v' = apply_writes rw img →
     (∀ k, stands_for st sz (apply_writes (take k rw) img) (apply_writes (home_writes bs vs) img)) →
     same_data st sz v' (apply_writes (home_writes bs vs) img) → length v' = length img →
     Q tt (cpu0 pid) s') →
  wp E boot (cpu0 pid) (power_up img) Q.
Proof.
  intros Himg HQ. unfold boot. apply wp_bind, wp_lift. eapply eq_wp; [apply binit_eq|].
  eapply initlog_lrel; [done| |exact HQ]. exact (binit_brel pid img (li_blocks _ _ _ _ _ Himg)).
Qed.
