(* ===== verification/LogProps.v ===== *)
(** The guarantees of the log: transactions are atomic with respect to power
    failures at any block write, during commit and during any number of
    interrupted recoveries. *)
From stdpp Require Import base list numbers strings sets gmap.
From Stdlib Require Import ZArith Lia.
From S2P Require Import Prelude Params Machine Spinlock Sleeplock Bio BioRing BioSpec.
From S2P Require Import Log LogSpec LogCommit LogRecover LogOps.
Local Open Scope Z_scope.
Local Open Scope xv6_scope.

(** The use of the log that log.c documents: read a block, modify its data, log it
    and release it. *)
Definition write_block (w : Z * list Z) : M lstate unit :=
  bp <- bio (bread ROOTDEV w.1) ;;
  bio (bstore bp (λ _, w.2)) ;;
  log_write bp ;;
  bio (brelse bp).

(** One file system call that rewrites the blocks [ws]. *)
Definition txn (ws : list (Z * list Z)) : M lstate unit :=
  begin_op ;;
  for_each ws write_block ;;
  end_op.

(** The blocks a transaction may write on a disk of [nb] blocks. *)
Definition data_write (st sz : Z) (nb : nat) (w : Z * list Z) : Prop :=
  0 <= w.1 < Z.of_nat nb ∧ w.1 ≠ 1 ∧ ¬ (st <= w.1 < st + sz) ∧ length w.2 = bsize.

Section txn.
Context (pid st sz : Z) (E : string → Prop).

Lemma write_block_spec s a w Q :
  lrel pid st sz s a → la_held a = ∅ → 1 <= la_out a →
  data_write st sz (length (la_view a)) w →
  (length (la_bs a) < logsize)%nat → Z.of_nat (length (la_bs a)) + 1 < sz →
  (∀ s', lrel pid st sz s' (LAbs (la_old a) (<[Z.to_nat w.1 := w.2]> (la_view a)) ∅
                      (absorb w.1 (la_bs a)) (la_out a) (la_committing a)) →
         bs_disk (ls_b s') = bs_disk (ls_b s) → Q tt (cpu0 pid) s') →
  wp E (write_block w) (cpu0 pid) s Q.
Proof.
  intros HL Hheld Hout (Hr & H1 & Hlogarea & Hlen) Hmax Hroom HQ.
  destruct (lookup_lt_is_Some_2 (la_view a) (Z.to_nat w.1)) as [d Hd]; [lia|].
  unfold write_block, ROOTDEV. apply wp_bind.
  eapply (l_bread _ _ _ _ _ _ _ _ HL); [done|intros i m; by rewrite Hheld| |].
  { right. rewrite Hheld, map_size_empty. sizes. lia. }
  intros i s1 Hi HL1 Hd1. apply wp_bind.
  eapply (l_bstore _ _ _ _ _ _ i w.1 false _ d _ HL1); try done; [cbn; by rewrite lookup_insert_eq|].
  intros s2 HL2 Hd2. apply wp_bind.
  eapply (log_write_spec _ _ _ _ _ _ i w.1 true _ HL2); try done; [cbn; by rewrite lookup_insert_eq|].
  intros s3 HL3 Hd3.
  eapply (l_brelse _ _ _ _ _ _ i w.1 _ HL3); [cbn; by rewrite lookup_insert_eq|].
  intros s4 HL4 Hd4. apply HQ; [|congruence].
  unfold la_drop, la_log, la_store, la_hold in HL4. cbn in HL4.
  rewrite Hheld, !insert_insert_eq, insert_empty, delete_singleton_eq in HL4. done.
Qed.

Lemma txn_spec s v ws Q :
  lrel pid st sz s (LAbs v v ∅ [] 0 0) →
  Forall (data_write st sz (length v)) ws →
  (length ws < logsize)%nat → Z.of_nat (length ws) < sz →
  (∀ s' v' cw n, same_data st sz v' (apply_writes ws v) →
     lrel pid st sz s' (LAbs (apply_writes ws v) v' ∅ [] 0 0) →
     bs_disk (ls_b s') = disk_writes cw (bs_disk (ls_b s)) →
     (ws ≠ [] → n < length cw)%nat →
     (∀ k, stands_for st sz (apply_writes (take k cw) (d_img (bs_disk (ls_b s))))
             (if decide (k <= n)%nat then v else apply_writes ws v)) →
     Q tt (cpu0 pid) s') →
  wp E (txn ws) (cpu0 pid) s Q.
Proof.
  intros HL Hws Hlen Hsz HQ. unfold txn. apply wp_bind.
  eapply (begin_op_spec _ _ _ _ _ _ _ HL); [done|cbn; unfold LOGSIZE, MAXOPBLOCKS; lia|].
  intros s1 HL1 Hd1. apply wp_bind.
  apply (wp_for_each _ _ _ (λ done s', bs_disk (ls_b s') = bs_disk (ls_b s) ∧ ∃ bs,
    (length bs <= length done)%nat ∧ (done ≠ [] → bs ≠ []) ∧
    lrel pid st sz s' (LAbs v (apply_writes done v) ∅ bs 1 0))).
  - split; [done|]. exists []. done.
  - intros done w rest s2 Hdone (Hd2 & bs & Hbs & Hne & HL2). subst ws.
    apply Forall_app in Hws as [_ [Hw _]%Forall_cons].
    rewrite length_app in Hlen, Hsz. cbn [length] in Hlen, Hsz.
    eapply (write_block_spec _ _ _ _ HL2); try done; cbn; try lia.
    { by rewrite apply_writes_length. }
    intros s3 HL3 Hd3. split; [done|]. split; [congruence|].
    exists (absorb w.1 bs). split; [|split].
    + rewrite length_app. pose proof (absorb_length w.1 bs). cbn. lia.
    + intros _ Hnil. pose proof (proj2 (absorb_elem w.1 bs w.1) (or_introl eq_refl)) as Hin.
      rewrite Hnil in Hin. by apply not_elem_of_nil in Hin.
    + by rewrite apply_writes_app.
  - intros s2 (Hd2 & bs & Hbs & Hne & HL2).
    eapply (end_op_commit _ _ _ _ _ _ _ HL2); try done; [cbn; sizes; lia|].
    cbn. rewrite Hd2. intros s3 v' cw Hsame _ HL3 Hd3 Hn Hk.
    eapply (HQ _ v' cw (length bs)); try done. auto.
Qed.
End txn.

(** C1: Atomicity of transactions.  Boot a disk whose log is empty and run a file
    system call that rewrites the blocks [ws]: the run returns and the disk holds
    the new contents.  Cut the power after any number [j] of the block writes the
    disk received, let it fail again in any number of recoveries, and boot once
    more: the boot returns, and outside the log area the disk holds exactly the
    old contents when [j] is below the commit point and exactly the new contents
    from the commit point on. *)
Theorem txn_crash_atomic pid img st sz ws :
  log_image img st sz [] [] →
  Forall (data_write st sz (length img)) ws →
  (length ws < logsize)%nat → Z.of_nat (length ws) < sz →
  ∃ s cp,
    (boot ;; txn ws) (cpu0 pid) (power_up img) = Ret tt (cpu0 pid) s ∧
    (cp <= length (d_writes (bs_disk (ls_b s))))%nat ∧
    same_data st sz (d_img (bs_disk (ls_b s))) (apply_writes ws img) ∧
    ∀ j img', rtc (failed_boot pid) (apply_writes (take j (d_writes (bs_disk (ls_b s)))) img) img' →
      ∃ s', boot (cpu0 pid) (power_up img') = Ret tt (cpu0 pid) s' ∧
        same_data st sz (d_img (bs_disk (ls_b s')))
          (if decide (j < cp)%nat then img else apply_writes ws img).
Proof.
  intros Himg Hws Hlen Hsz.
  assert (runs (boot ;; txn ws) (cpu0 pid) (power_up img) (λ _ c s, c = cpu0 pid ∧
    same_data st sz (d_img (bs_disk (ls_b s))) (apply_writes ws img) ∧
    ∃ rw cw n, d_writes (bs_disk (ls_b s)) = rw ++ cw ∧ (ws ≠ [] → n < length cw)%nat ∧
      (∀ k, stands_for st sz (apply_writes (take k rw) img) img) ∧
      (∀ k, stands_for st sz (apply_writes (take k cw) (apply_writes rw img))
              (if decide (k <= n)%nat then img else apply_writes ws img)))) as Hrun.
  { apply wp_bind. eapply boot_lrel; [exact Himg|].
    intros s1 v rw HL1 Hd1 Hv Hrw Hsame Hvl. cbn in Hrw, Hsame.
    assert (same_data st sz (apply_writes ws v) (apply_writes ws img)) as Hnew.
    { intros b Hb Hnot. apply apply_writes_at; [done|]. intros _. by apply Hsame. }
    eapply (txn_spec _ _ _ _ _ _ _ _ HL1); [by rewrite Hvl|done|done|].
    intros s2 v' cw n Hsame2 HL2 Hd2 Hn Hk. rewrite Hd1 in Hd2, Hk. cbn in Hk. rewrite <- Hv in Hk.
    split; [done|]. split.
    - destruct (lr_cache _ _ _ _ _ HL2) as (dk & HR & _ & Hold).
      rewrite (brel_disk _ _ _ HR). by eapply same_data_trans.
    - exists rw, cw, n. rewrite Hd2. split; [done|]. split; [done|]. split; [done|].
      intros k. rewrite <- Hv. destruct (Hk k) as (bs' & vs' & Hi & Hs). exists bs', vs'.
      split; [done|]. case_decide; by eapply same_data_trans. }
  apply runs_eq in Hrun as ([] & c & s & Heq & -> & Hsame & rw & cw & n & Hw & Hn & Hrw & Hcw).
  exists s. exists (if decide (ws = []) then 0 else (length rw + S n))%nat. split; [done|]. split.
  { case_decide; [lia|]. rewrite Hw, length_app. specialize (Hn ltac:(done)). lia. }
  split; [done|]. intros j img' Hfail.
  enough (stands_for st sz (apply_writes (take j (d_writes (bs_disk (ls_b s)))) img)
    (if decide (j < (if decide (ws = []) then 0 else length rw + S n))%nat
     then img else apply_writes ws img)) as Hs.
  { eapply (stands_for_failed_boots _ _ _ _ _ _ Hfail), (stands_for_boot pid) in Hs.
    destruct Hs as (s' & Hb & Hs & _). eauto. }
  rewrite Hw. destruct (decide (j <= length rw)%nat) as [Hj|Hj].
  - rewrite take_app_le by done. destruct (decide (ws = [])) as [->|].
    + rewrite decide_False by lia. apply Hrw.
    + rewrite decide_True by lia. apply Hrw.
  - rewrite take_app_ge, apply_writes_app by lia. specialize (Hcw (j - length rw)%nat).
    destruct (decide (ws = [])) as [->|].
    + rewrite decide_False by lia. by destruct (decide (j - length rw <= n)%nat).
    + destruct (decide (j - length rw <= n)%nat); [rewrite decide_True by lia|rewrite decide_False by lia];
        exact Hcw.
Qed.

(** A disk of 12 blocks with the log in blocks 2 to 6. *)
Definition demo_image : list (list Z) :=
  <[1%nat := wr 4 12 5 (wr 4 16 2 (replicate bsize 0))]> (replicate 12 (replicate bsize 0)).

Lemma demo_log_image : log_image demo_image 2 5 [] [].
Proof.
  split; try done; try (cbn; sizes; lia).
  - apply (bool_decide_unpack _). vm_compute. exact I.
  - eexists. split; [reflexivity|]. split; vm_compute; reflexivity.
  - eexists. split; [reflexivity|]. split; [vm_compute; reflexivity|done].
  - set_solver.
Qed.

Definition demo_writes : list (Z * list Z) := [(8, replicate bsize 1); (9, replicate bsize 2)].

Lemma demo_data_writes : Forall (data_write 2 5 (length demo_image)) demo_writes.
Proof.
  unfold demo_image, data_write. rewrite length_insert, length_replicate.
  repeat constructor; cbn; lia.
Qed.

Lemma txn_crash_atomic_witness :
  ∃ s cp,
    (boot ;; txn demo_writes) (cpu0 1) (power_up demo_image) = Ret tt (cpu0 1) s ∧
    (cp <= length (d_writes (bs_disk (ls_b s))))%nat ∧
    same_data 2 5 (d_img (bs_disk (ls_b s))) (apply_writes demo_writes demo_image) ∧
    ∀ j img', rtc (failed_boot 1)
                (apply_writes (take j (d_writes (bs_disk (ls_b s)))) demo_image) img' →
      ∃ s', boot (cpu0 1) (power_up img') = Ret tt (cpu0 1) s' ∧
        same_data 2 5 (d_img (bs_disk (ls_b s')))
          (if decide (j < cp)%nat then demo_image else apply_writes demo_writes demo_image).
Proof.
  apply (txn_crash_atomic 1 demo_image 2 5 demo_writes);
    [exact demo_log_image|exact demo_data_writes|cbn; sizes; lia|reflexivity].
Defined.

(** Recovery can be interrupted.  An image whose log header records a committed
    transaction [bs], with values [vs] in the log, is booted, any number of times
    with a power failure in the middle and then to the end: the last boot returns,
    the committed values are installed, every other block is untouched and the log
    is empty. *)
Theorem recovery_restartable pid img img' st sz bs vs :
  log_image img st sz bs vs → rtc (failed_boot pid) img img' →
  ∃ s, boot (cpu0 pid) (power_up img') = Ret tt (cpu0 pid) s ∧
    same_data st sz (d_img (bs_disk (ls_b s))) (apply_writes (home_writes bs vs) img) ∧
    log_image (d_img (bs_disk (ls_b s))) st sz [] [].
Proof.
  intros Himg Hfail.
  assert (stands_for st sz img (apply_writes (home_writes bs vs) img)) as Hs by (by exists bs, vs).
  apply (stands_for_failed_boots _ _ _ _ _ _ Hfail) in Hs as (bs' & vs' & Himg' & Hs').
  assert (runs boot (cpu0 pid) (power_up img') (λ _ c s, c = cpu0 pid ∧
    same_data st sz (d_img (bs_disk (ls_b s))) (apply_writes (home_writes bs vs) img) ∧
    log_image (d_img (bs_disk (ls_b s))) st sz [] [])) as Hrun.
  { eapply boot_lrel; [exact Himg'|]. intros s v rw HL Hd Hv _ Hsame _. split; [done|]. split.
    - rewrite Hd. cbn. rewrite <- Hv. by eapply same_data_trans.
    - destruct (lr_cache _ _ _ _ _ HL) as (dk & HR & Hi & _).
      by rewrite (brel_disk _ _ _ HR). }
  apply runs_eq in Hrun as ([] & c & s & Heq & -> & H). eauto.
Qed.

(** The disk of [demo_image] with one committed block. *)
Definition demo_committed : list (list Z) :=
  <[2%nat := wr 4 4 8 (wr 4 0 1 (replicate bsize 0))]>
    (<[3%nat := replicate bsize 7]> demo_image).

Lemma recovery_restartable_witness :
  ∃ s, boot (cpu0 1) (power_up demo_committed) = Ret tt (cpu0 1) s ∧
    same_data 2 5 (d_img (bs_disk (ls_b s)))
      (apply_writes (home_writes [8] [replicate bsize 7]) demo_committed) ∧
    log_image (d_img (bs_disk (ls_b s))) 2 5 [] [].
Proof.
  apply (recovery_restartable 1 demo_committed demo_committed); [|apply rtc_refl].
  split; try done; try (cbn; sizes; lia).
  - apply (bool_decide_unpack _). vm_compute. exact I.
  - eexists. split; [reflexivity|]. split; vm_compute; reflexivity.
  - eexists. split; [reflexivity|]. split; [vm_compute; reflexivity|].
    intros [|k] b Hk; [|done]. cbn in Hk. injection Hk as <-. vm_compute. reflexivity.
  - intros [|k] d Hk; [|done]. cbn in Hk. injection Hk as <-. reflexivity.
  - intros b ->%list_elem_of_singleton. cbn. lia.
Defined.

(** Admission of operations.  On every state of the log [begin_op] either counts
    the caller in, when no commit is running and the space it and the operations in
    progress may need fits in the log header, or sleeps on the log without changing
    it, having released [log.lock]. *)
Theorem begin_op_admission pid s :
  begin_op (cpu0 pid) s =
  let l := ls_log s in
  if bool_decide (l_committing l = 0 ∧ l_n l + (l_outstanding l + 1) * MAXOPBLOCKS <= LOGSIZE)
  then Ret tt (cpu0 pid) (LState (ls_b s) (set_outstanding (l_outstanding l + 1) l))
  else Sleep ChLog (cpu1 pid LkPtable) s.
Proof.
  cbv zeta. case_bool_decide as H; [|apply begin_op_waits; lia].
  destruct H as [Hc Hr]. unfold begin_op. erewrite bind_eq; [|apply acquire_cpu0].
  unfold bind at 1. unfold getlog, gets. rewrite Hc. cbn [negb Z.eqb].
  replace (LOGSIZE <? _) with false by lia. apply release_cpu1.
Qed.

(** A disk of 70 blocks laid out as mkfs does: a log of [LOGSIZE] blocks from block 2 on. *)
Definition mkfs_log_image : list (list Z) :=
  <[1%nat := wr 4 12 LOGSIZE (wr 4 16 2 (replicate bsize 0))]> (replicate 70 (replicate bsize 0)).

(** Three operations at once, which write the distinct blocks [ws]. *)
Definition three_ops (ws : list (Z * list Z)) : M lstate unit :=
  boot ;; begin_op ;; begin_op ;; begin_op ;; for_each ws write_block.

Lemma three_ops_run pid img st sz ws :
  log_image img st sz [] [] → Forall (data_write st sz (length img)) ws → NoDup ws.*1 →
  (length ws <= logsize)%nat → Z.of_nat (length ws) < sz →
  ∃ s v old, three_ops ws (cpu0 pid) (power_up img) = Ret tt (cpu0 pid) s ∧
    lrel pid st sz s (LAbs old v ∅ ws.*1 3 0) ∧ length v = length img.
Proof.
  intros Himg Hws Hnd Hlen Hsz.
  assert (runs (three_ops ws) (cpu0 pid) (power_up img) (λ _ c s, c = cpu0 pid ∧
    ∃ v old, lrel pid st sz s (LAbs old v ∅ ws.*1 3 0) ∧ length v = length img)) as Hrun.
  { unfold three_ops. apply wp_bind. eapply boot_lrel; [exact Himg|]. intros s1 v rw HL1 _ _ _ _ Hvl.
    apply wp_bind. eapply (begin_op_spec _ _ _ _ _ _ _ HL1); [done|cbn; unfold LOGSIZE, MAXOPBLOCKS; lia|]. intros s2 HL2 _.
    apply wp_bind. eapply (begin_op_spec _ _ _ _ _ _ _ HL2); [done|cbn; unfold LOGSIZE, MAXOPBLOCKS; lia|]. intros s3 HL3 _.
    apply wp_bind. eapply (begin_op_spec _ _ _ _ _ _ _ HL3); [done|cbn; unfold LOGSIZE, MAXOPBLOCKS; lia|]. intros s4 HL4 _.
    apply (wp_for_each _ _ _ (λ done s', lrel pid st sz s' (LAbs v (apply_writes done v) ∅ done.*1 3 0))); [exact HL4| |].
    - intros done w rest s5 -> HL5. apply Forall_app in Hws as [_ [Hw _]%Forall_cons].
      rewrite fmap_app, fmap_cons in Hnd. apply NoDup_app in Hnd as (_ & Hd & _).
      rewrite length_app in Hlen, Hsz. cbn [length] in Hlen, Hsz.
      eapply (write_block_spec pid st sz _ _ _ _ _ HL5); try done; cbn; rewrite ?length_fmap; try lia.
      { by rewrite apply_writes_length, Hvl. }
      intros s6 HL6 _. split; [done|]. cbn in HL6. rewrite fmap_app, apply_writes_app. unfold absorb in HL6.
      rewrite decide_False in HL6; [exact HL6|]. intros Hin. apply (Hd _ Hin), list_elem_of_here.
    - intros s5 HL5. split; [done|]. eexists _, _. split; [exact HL5|]. by rewrite apply_writes_length. }
  apply runs_eq in Hrun as ([] & c & s & Heq & -> & v & old & HL & Hv).
  exists s, v, old. split; [exact Heq|]. split; [exact HL|exact Hv].
Qed.

(** A block more than the log has room for. *)
Lemma write_block_overflows pid st sz s old v bs w :
  lrel pid st sz s (LAbs old v ∅ bs 3 0) → data_write st sz (length v) w → (length bs < nbuf)%nat →
  sz <= Z.of_nat (length bs) + 1 → write_block w (cpu0 pid) s = Panic "too big a transaction".
Proof.
  intros HL (Hr & H1 & Hlogarea & Hlen) Hbuf Hfull.
  assert (wp (λ m, m = "too big a transaction") (write_block w) (cpu0 pid) s (λ _ _ _, False)) as H.
  { destruct (lookup_lt_is_Some_2 v (Z.to_nat w.1)) as [d Hd]; [lia|]. unfold write_block, ROOTDEV. apply wp_bind.
    eapply (l_bread _ _ _ _ _ _ _ _ HL); [done|done|right; cbn [la_bs la_held]; rewrite map_size_empty; lia|]. intros i s1 Hi HL1 _. apply wp_bind.
    eapply (l_bstore _ _ _ _ _ _ i w.1 false (λ _, w.2) d _ HL1); [cbn; by rewrite lookup_insert_eq|done|done|done|done|].
    intros s2 HL2 _. apply wp_bind. unfold wp. rewrite log_write_too_big; [done|]. right.
    pose proof (lr_size _ _ _ _ _ HL2) as Esz. pose proof (lo_n _ _ _ (lr_log _ _ _ _ _ HL2)) as En.
    rewrite Esz, En. cbn. lia. }
  unfold wp in H. destruct (write_block w (cpu0 pid) s); try done. by subst.
Qed.

(** C39: The reservation of [begin_op] is one block too generous.  On any disk whose log area,
    header included, has at most [LOGSIZE] blocks (mkfs makes [nlog = LOGSIZE]), three
    operations are admitted together, each allowed [MAXOPBLOCKS] blocks; when they have
    written as many different blocks as the area has besides its header, whichever they are,
    one more block, still within what they were allowed, panics the kernel. *)
Theorem reservation_overflows pid img st sz ws w :
  log_image img st sz [] [] → sz <= LOGSIZE → Z.of_nat (length ws) = sz - 1 → NoDup ws.*1 →
  Forall (data_write st sz (length img)) ws → data_write st sz (length img) w →
  Z.of_nat (length ws) + 1 <= 3 * MAXOPBLOCKS ∧
  ∃ s, three_ops ws (cpu0 pid) (power_up img) = Ret tt (cpu0 pid) s ∧
    l_outstanding (ls_log s) = 3 ∧ l_n (ls_log s) = Z.of_nat (length ws) ∧
    write_block w (cpu0 pid) s = Panic "too big a transaction".
Proof.
  intros Himg Hsz Hlen Hnd Hws Hw. split; [unfold LOGSIZE, MAXOPBLOCKS in *; lia|].
  destruct (three_ops_run pid img st sz ws Himg Hws Hnd) as (s & v & old & Hrun & HL & Hv);
    [unfold LOGSIZE, MAXOPBLOCKS in *; lia|lia|].
  exists s. split; [exact Hrun|]. split; [apply (lr_out _ _ _ _ _ HL)|]. split.
  - rewrite (lo_n _ _ _ (lr_log _ _ _ _ _ HL)). cbn. by rewrite length_fmap.
  - eapply (write_block_overflows _ _ _ _ _ _ _ _ HL); rewrite ?length_fmap; [by rewrite Hv|unfold LOGSIZE, NBUF, MAXOPBLOCKS in *; lia|lia].
Qed.

(** With one block more in the log area nothing is refused: the three operations can write
    all the blocks they were allowed. *)
Theorem reservation_fits pid img st sz ws :
  log_image img st sz [] [] → LOGSIZE < sz → Z.of_nat (length ws) <= 3 * MAXOPBLOCKS → NoDup ws.*1 →
  Forall (data_write st sz (length img)) ws →
  ∃ s, three_ops ws (cpu0 pid) (power_up img) = Ret tt (cpu0 pid) s ∧ l_n (ls_log s) = Z.of_nat (length ws).
Proof.
  intros Himg Hsz Hlen Hnd Hws.
  destruct (three_ops_run pid img st sz ws Himg Hws Hnd) as (s & v & old & Hrun & HL & Hv);
    [unfold LOGSIZE, MAXOPBLOCKS in *; lia|unfold LOGSIZE, MAXOPBLOCKS in *; lia|].
  exists s. split; [exact Hrun|]. rewrite (lo_n _ _ _ (lr_log _ _ _ _ _ HL)). cbn. by rewrite length_fmap.
Qed.

Definition full_writes : list (Z * list Z) := (λ b, (b, replicate bsize 0)) <$> seqZ 33 (3 * MAXOPBLOCKS - 1).

Lemma mkfs_log_image_ok : log_image mkfs_log_image 2 LOGSIZE [] [].
Proof.
  split; try done; try (cbn; sizes; lia).
  - apply (bool_decide_unpack _). vm_compute. exact I.
  - eexists. split; [reflexivity|]. split; vm_compute; reflexivity.
  - eexists. split; [reflexivity|]. split; [vm_compute; reflexivity|done].
  - set_solver.
Qed.

Lemma full_data_writes : Forall (data_write 2 LOGSIZE (length mkfs_log_image)) full_writes.
Proof.
  apply Forall_forall. intros w (b & -> & Hb%elem_of_seqZ)%list_elem_of_fmap. unfold mkfs_log_image, data_write.
  rewrite length_insert, !length_replicate. unfold LOGSIZE, MAXOPBLOCKS in *. cbn [fst snd]. split_and!; try done; lia.
Qed.

Lemma reservation_overflows_witness :
  ∃ s, three_ops full_writes (cpu0 1) (power_up mkfs_log_image) = Ret tt (cpu0 1) s ∧
    write_block (65, replicate bsize 0) (cpu0 1) s = Panic "too big a transaction".
Proof.
  destruct (reservation_overflows 1 mkfs_log_image 2 LOGSIZE full_writes (65, replicate bsize 0)) as (_ & s & H1 & _ & _ & H2).
  - exact mkfs_log_image_ok.
  - reflexivity.
  - reflexivity.
  - apply (bool_decide_unpack _). vm_compute. exact I.
  - exact full_data_writes.
  - unfold mkfs_log_image, data_write. rewrite length_insert, !length_replicate. unfold LOGSIZE, MAXOPBLOCKS. cbn [fst snd]. split_and!; try done; lia.
  - exists s. split; [exact H1|exact H2].
Defined.
