(* ===== verification/CString.v ===== *)
(** Memory and string routines: [string.c] of the kernel and [ulib.c] of the user
    library, over a flat byte memory. *)
From stdpp Require Import base list numbers strings.
From Stdlib Require Import ZArith Lia.
From S2P Require Import Prelude Machine.
Local Open Scope Z_scope.
Local Open Scope xv6_scope.

(** Memory: the byte at address [a] is element [a].  An access outside of it is a
    fault. *)
Abbreviation mem := (list Z).

Definition load (a : nat) : M mem Z := m <- get ;; deref (m !! a).
Definition store (a : nat) (v : Z) : M mem unit :=
  m <- get ;; _ <- deref (m !! a) ;; modify <[a := u8 v]>.

(** x86.h: [rep stosb] and [rep stosl]. *)
Fixpoint stosb (addr : nat) (data : Z) (cnt : nat) : M mem unit :=
  match cnt with
  | O => ret tt
  | S k => store addr data ;; stosb (S addr) data k
  end.
Fixpoint stosl (addr : nat) (data : Z) (cnt : nat) : M mem unit :=
  match cnt with
  | O => ret tt
  | S k =>
      store addr data ;; store (addr + 1) (Z.shiftr data 8) ;;
      store (addr + 2) (Z.shiftr data 16) ;; store (addr + 3) (Z.shiftr data 24) ;;
      stosl (addr + 4) data k
  end.

(** * string.c *)

Definition memset (dst : nat) (c n : Z) : M mem nat :=
  (if (Z.of_nat dst mod 4 =? 0) && (n mod 4 =? 0) then
     let c := Z.land c 255 in
     stosl dst (u32 (Z.lor (Z.lor (Z.lor (Z.shiftl c 24) (Z.shiftl c 16)) (Z.shiftl c 8)) c))
       (Z.to_nat (n / 4))
   else stosb dst c (Z.to_nat n)) ;;
  ret dst.

Fixpoint memcmp (s1 s2 : nat) (n : nat) : M mem Z :=
  match n with
  | O => ret 0
  | S n' =>
      a <- load s1 ;; b <- load s2 ;;
      if negb (a =? b) then ret (a - b) else memcmp (S s1) (S s2) n'
  end.

(** The two loops of [memmove]; [copy_down s d n] is entered with [s] and [d] past
    the last byte. *)
Fixpoint copy_up (d s : nat) (n : nat) : M mem unit :=
  match n with
  | O => ret tt
  | S n' => x <- load s ;; store d x ;; copy_up (S d) (S s) n'
  end.
Fixpoint copy_down (d s : nat) (n : nat) : M mem unit :=
  match n with
  | O => ret tt
  | S n' => x <- load (s - 1) ;; store (d - 1) x ;; copy_down (d - 1) (s - 1) n'
  end.

Definition memmove (dst src n : nat) : M mem nat :=
  (if ((src <? dst) && (dst <? src + n))%nat
   then copy_down (dst + n) (src + n) n
   else copy_up dst src n) ;;
  ret dst.

(** memcpy exists to placate GCC. *)
Definition memcpy (dst src n : nat) : M mem nat := memmove dst src n.

Fixpoint strncmp (p q : nat) (n : nat) : M mem Z :=
  match n with
  | O => ret 0
  | S n' =>
      a <- load p ;;
      if a =? 0 then b <- load q ;; ret (a - b)
      else b <- load q ;;
           if a =? b then strncmp (S p) (S q) n' else ret (a - b)
  end.

(** [while(n-- > 0) *s++ = 0]. *)
Fixpoint zero_fill (s n : nat) : M mem unit :=
  match n with
  | O => ret tt
  | S n' => store s 0 ;; zero_fill (S s) n'
  end.
Fixpoint strncpy_loop (s t n : nat) : M mem unit :=
  match n with
  | O => ret tt
  | S n' =>
      x <- load t ;; store s x ;;
      if x =? 0 then zero_fill (S s) n' else strncpy_loop (S s) (S t) n'
  end.
Definition strncpy (s t : nat) (n : Z) : M mem nat :=
  strncpy_loop s t (Z.to_nat n) ;; ret s.

(** [while(--n > 0 && ( *s++ = *t++ ) != 0); *s = 0], with [n] the value tested. *)
Fixpoint safestrcpy_loop (s t n : nat) : M mem unit :=
  match n with
  | O => store s 0
  | S n' =>
      x <- load t ;; store s x ;;
      if x =? 0 then store (S s) 0 else safestrcpy_loop (S s) (S t) n'
  end.
Definition safestrcpy (s t : nat) (n : Z) : M mem nat :=
  if n <=? 0 then ret s
  else safestrcpy_loop s t (Z.to_nat (n - 1)) ;; ret s.

Fixpoint strlen_from (fuel s n : nat) : M mem Z :=
  match fuel with
  | O => hang
  | S fuel' =>
      x <- load (s + n) ;;
      if x =? 0 then ret (Z.of_nat n) else strlen_from fuel' s (S n)
  end.
(** The loop ends at a NUL or, at the latest, at the end of memory. *)
Definition strlen (s : nat) : M mem Z :=
  m <- get ;; strlen_from (S (length m)) s 0.

(** * ulib.c *)

Module Ulib.
Fixpoint strcpy_loop (fuel s t : nat) : M mem unit :=
  match fuel with
  | O => hang
  | S fuel' =>
      x <- load t ;; store s x ;;
      if x =? 0 then ret tt else strcpy_loop fuel' (S s) (S t)
  end.
Definition strcpy (s t : nat) : M mem nat :=
  m <- get ;; strcpy_loop (S (length m)) s t ;; ret s.

Fixpoint strcmp_loop (fuel p q : nat) : M mem Z :=
  match fuel with
  | O => hang
  | S fuel' =>
      a <- load p ;;
      if a =? 0 then b <- load q ;; ret (a - b)
      else b <- load q ;;
           if a =? b then strcmp_loop fuel' (S p) (S q) else ret (a - b)
  end.
Definition strcmp (p q : nat) : M mem Z :=
  m <- get ;; strcmp_loop (S (length m)) p q.

Definition strlen (s : nat) : M mem Z :=
  n <- CString.strlen s ;; ret (u32 n).

Definition memset (dst : nat) (c n : Z) : M mem nat :=
  stosb dst c (Z.to_nat n) ;; ret dst.

(** The null pointer is [None]. *)
Fixpoint strchr_loop (fuel s : nat) (c : Z) : M mem (option nat) :=
  match fuel with
  | O => hang
  | S fuel' =>
      x <- load s ;;
      if x =? 0 then ret None
      else if x =? c then ret (Some s) else strchr_loop fuel' (S s) c
  end.
Definition strchr (s : nat) (c : Z) : M mem (option nat) :=
  m <- get ;; strchr_loop (S (length m)) s c.

Fixpoint atoi_loop (fuel s : nat) (n : Z) : M mem Z :=
  match fuel with
  | O => hang
  | S fuel' =>
      x <- load s ;;
      if (48 <=? x) && (x <=? 57) then atoi_loop fuel' (S s) (s32 (n * 10 + x - 48)) else ret n
  end.
Definition atoi (s : nat) : M mem Z :=
  m <- get ;; atoi_loop (S (length m)) s 0.

Definition memmove (vdst vsrc : nat) (n : Z) : M mem nat :=
  copy_up vdst vsrc (Z.to_nat n) ;; ret vdst.
End Ulib.

(** * Executing loads and stores *)

Section mem.
Implicit Types m : mem.

Lemma load_eq a c m x : m !! a = Some x → load a c m = Ret x c m.
Proof. intros H. unfold load, bind, get. by rewrite H. Qed.

Lemma store_eq a v c m : (a < length m)%nat → store a v c m = Ret tt c (<[a := u8 v]> m).
Proof.
  intros H. unfold store, bind, get, modify.
  by destruct (lookup_lt_is_Some_2 m a H) as [x ->].
Qed.

Lemma mem_byte m a x : Forall byte_range m → m !! a = Some x → byte_range x.
Proof. intros Hm. by apply Forall_lookup_1. Qed.

Lemma u8_byte x : byte_range x → u8 x = x.
Proof. intros Hx. apply u8_small. unfold byte_range in Hx. lia. Qed.

Lemma insert_bytes m a v : Forall byte_range m → Forall byte_range (<[a := u8 v]> m).
Proof.
  intros Hm. apply Forall_insert; [done|]. unfold byte_range, u8. apply Z.mod_pos_bound. lia.
Qed.

(** * memset *)

Lemma stosb_eq n addr v c m :
  (addr + n <= length m)%nat → stosb addr v n c m = Ret tt c (splice addr (replicate n (u8 v)) m).
Proof.
  revert addr m. induction n as [|n IH]; intros addr m H; cbn [stosb replicate].
  - by rewrite splice_nil.
  - erewrite bind_eq; [|apply store_eq; lia]. rewrite IH by (rewrite length_insert; lia).
    by rewrite insert_splice by (rewrite length_replicate; lia).
Qed.

Lemma stosl_eq n addr v w c m :
  (addr + 4 * n <= length m)%nat →
  u8 v = w → u8 (Z.shiftr v 8) = w → u8 (Z.shiftr v 16) = w → u8 (Z.shiftr v 24) = w →
  stosl addr v n c m = Ret tt c (splice addr (replicate (4 * n) w) m).
Proof.
  intros H H0 H1 H2 H3. revert addr m H. induction n as [|n IH]; intros addr m H.
  - cbn. by rewrite splice_nil.
  - cbn [stosl]. do 4 (erewrite bind_eq; [|apply store_eq; rewrite ?length_insert; lia]).
    rewrite IH by (rewrite !length_insert; lia). rewrite H0, H1, H2, H3.
    replace (4 * S n)%nat with (S (S (S (S (4 * n))))) by lia. cbn [replicate].
    rewrite <- !insert_splice by (cbn; rewrite ?length_insert, ?length_replicate; lia).
    by replace (addr + 4)%nat with (S (S (S (S addr)))) by lia;
       replace (addr + 3)%nat with (S (S (S addr))) by lia;
       replace (addr + 2)%nat with (S (S addr)) by lia;
       replace (addr + 1)%nat with (S addr) by lia.
Qed.

(** The word [memset] passes to [stosl], and its four bytes. *)
Definition spread (b : Z) : Z :=
  u32 (Z.lor (Z.lor (Z.lor (Z.shiftl b 24) (Z.shiftl b 16)) (Z.shiftl b 8)) b).

Lemma spread_bytes b :
  byte_range b →
  u8 (spread b) = b ∧ u8 (Z.shiftr (spread b) 8) = b ∧
  u8 (Z.shiftr (spread b) 16) = b ∧ u8 (Z.shiftr (spread b) 24) = b.
Proof.
  intros Hb.
  assert (Forall (λ b, u8 (spread b) = b ∧ u8 (Z.shiftr (spread b) 8) = b ∧
    u8 (Z.shiftr (spread b) 16) = b ∧ u8 (Z.shiftr (spread b) 24) = b) (seqZ 0 256)) as H.
  { apply (bool_decide_unpack _). vm_compute. exact I. }
  rewrite Forall_forall in H. apply H. apply elem_of_seqZ. unfold byte_range in Hb. lia.
Qed.

Lemma memset_eq dst v n c m :
  0 <= n → (dst + Z.to_nat n <= length m)%nat →
  memset dst v n c m = Ret dst c (splice dst (replicate (Z.to_nat n) (u8 v)) m).
Proof.
  intros Hn Hlen. unfold memset. destruct (_ && _) eqn:Hal.
  - assert (Z.land v 255 = u8 v) as -> by (apply (Z.land_ones v 8); lia).
    fold (spread (u8 v)).
    assert (byte_range (u8 v)) as Hb by (unfold byte_range, u8; apply Z.mod_pos_bound; lia).
    destruct (spread_bytes _ Hb) as (H0 & H1 & H2 & H3).
    assert (4 * Z.to_nat (n / 4) = Z.to_nat n)%nat as H4.
    { pose proof (Z.div_mod n 4 ltac:(lia)). lia. }
    erewrite bind_eq; [|apply (stosl_eq _ _ _ (u8 v)); [lia|done..]]. by rewrite H4.
  - erewrite bind_eq; [|by apply stosb_eq]. done.
Qed.

(** * memmove *)

Lemma copy_up_eq n d s c m :
  Forall byte_range m → (s + n <= length m)%nat → (d + n <= length m)%nat →
  (d <= s ∨ s + n <= d)%nat →
  copy_up d s n c m = Ret tt c (splice d (slice s n m) m).
Proof.
  revert d s m. induction n as [|n IH]; intros d s m Hm Hs Hd Hov; cbn [copy_up].
  - unfold slice. rewrite take_0. by rewrite splice_nil.
  - destruct (lookup_lt_is_Some_2 m s) as [x Hx]; [lia|].
    pose proof (mem_byte _ _ _ Hm Hx) as Hb.
    erewrite bind_eq; [|by apply load_eq]. erewrite bind_eq; [|apply store_eq; lia].
    rewrite IH by (rewrite ?length_insert; (done || lia || by apply insert_bytes)).
    rewrite (slice_S _ _ _ _ Hx), u8_byte by done.
    assert (slice (S s) n (<[d := x]> m) = slice (S s) n m) as ->.
    { apply list_eq. intros i. rewrite !lookup_slice_if. case_decide; [|done].
      rewrite list_lookup_insert_ne; [done|lia]. }
    by rewrite insert_splice by (rewrite length_slice; lia).
Qed.

Lemma copy_down_eq n d s c m :
  Forall byte_range m → (s + n <= length m)%nat → (d + n <= length m)%nat → (s <= d)%nat →
  copy_down (d + n) (s + n) n c m = Ret tt c (splice d (slice s n m) m).
Proof.
  revert m. induction n as [|n IH]; intros m Hm Hs Hd Hov; cbn [copy_down].
  - unfold slice. rewrite take_0. by rewrite splice_nil.
  - replace (s + S n - 1)%nat with (s + n)%nat by lia.
    replace (d + S n - 1)%nat with (d + n)%nat by lia.
    destruct (lookup_lt_is_Some_2 m (s + n)) as [x Hx]; [lia|].
    pose proof (mem_byte _ _ _ Hm Hx) as Hb.
    erewrite bind_eq; [|by apply load_eq]. erewrite bind_eq; [|apply store_eq; lia].
    rewrite IH by (rewrite ?length_insert; (done || lia || by apply insert_bytes)).
    rewrite u8_byte by done. f_equal. apply list_eq. intros i.
    rewrite !lookup_splice by (rewrite ?length_slice; rewrite ?length_insert; lia).
    rewrite !length_slice by (rewrite ?length_insert; lia).
    rewrite !lookup_slice_if. destruct (decide (i = d + n)%nat) as [->|Hne].
    + rewrite decide_False, decide_True by lia. rewrite decide_True by lia.
      rewrite list_lookup_insert_eq, <- Hx by lia. f_equal. lia.
    + destruct (decide (d <= i < d + n)%nat).
      * rewrite (decide_True (P := (d <= i < d + S n)%nat)) by lia. rewrite !decide_True by lia.
        apply list_lookup_insert_ne. lia.
      * rewrite decide_False by lia. by apply list_lookup_insert_ne.
Qed.

Lemma memmove_eq d s n c m :
  Forall byte_range m → (s + n <= length m)%nat → (d + n <= length m)%nat →
  memmove d s n c m = Ret d c (splice d (slice s n m) m).
Proof.
  intros Hm Hs Hd. unfold memmove.
  destruct (Nat.ltb_spec s d), (Nat.ltb_spec d (s + n)); cbn [andb].
  - erewrite bind_eq; [|apply copy_down_eq; [done|lia..]]. done.
  - erewrite bind_eq; [|apply copy_up_eq; [done|lia..]]. done.
  - erewrite bind_eq; [|apply copy_up_eq; [done|lia..]]. done.
  - erewrite bind_eq; [|apply copy_up_eq; [done|lia..]]. done.
Qed.

(** * Strings *)

(** The string at the beginning of [l]: the bytes before the first NUL, [n] at most. *)
Fixpoint cstr (n : nat) (l : list Z) : list Z :=
  match n, l with
  | S n', x :: l' => if x =? 0 then [] else x :: cstr n' l'
  | _, _ => []
  end.

Lemma drop_lookup m p x l : drop p m = x :: l → m !! p = Some x ∧ drop (S p) m = l.
Proof.
  intros H. assert (m !! p = Some x) as Hx.
  { rewrite <- (Nat.add_0_r p), <- lookup_drop, H. done. }
  split; [done|]. rewrite (drop_S _ _ _ Hx) in H. by injection H.
Qed.

Lemma lookup_drop_cons m p x : m !! p = Some x → drop p m = x :: drop (S p) m.
Proof. apply drop_S. Qed.

Lemma cstr_length n l : (length (cstr n l) <= n)%nat.
Proof.
  revert l. induction n as [|n IH]; intros [|x l]; cbn; try lia.
  destruct (x =? 0); cbn; [lia|]. specialize (IH l). lia.
Qed.

Lemma cstr_nonzero n l : Forall (λ x, x ≠ 0) (cstr n l).
Proof.
  revert l. induction n as [|n IH]; intros [|x l]; cbn; try constructor.
  destruct (Z.eqb_spec x 0); [constructor|]. by constructor.
Qed.

(** [strncmp] compares strings: it returns 0 exactly when they are equal, and
    otherwise the difference of the first bytes that differ. *)
Lemma strncmp_eq n p q c m :
  (p + n <= length m)%nat → (q + n <= length m)%nat →
  ∃ r, strncmp p q n c m = Ret r c m ∧
       (r = 0 ↔ cstr n (drop p m) = cstr n (drop q m)).
Proof.
  revert p q. induction n as [|n IH]; intros p q Hp Hq; cbn [strncmp].
  - exists 0. split; [done|]. destruct (drop p m), (drop q m); done.
  - destruct (lookup_lt_is_Some_2 m p) as [a Ha]; [lia|].
    destruct (lookup_lt_is_Some_2 m q) as [b Hb]; [lia|].
    rewrite (lookup_drop_cons _ _ _ Ha), (lookup_drop_cons _ _ _ Hb). cbn [cstr].
    erewrite bind_eq; [|by apply load_eq].
    destruct (Z.eqb_spec a 0) as [->|Ha0].
    { erewrite bind_eq; [|by apply load_eq]. exists (0 - b). split; [done|].
      destruct (Z.eqb_spec b 0) as [->|]; [done|]. split; [lia|done]. }
    erewrite bind_eq; [|by apply load_eq].
    destruct (Z.eqb_spec a b) as [->|Hab].
    + destruct (IH (S p) (S q)) as (r & Heq & Hr); [lia..|]. exists r. split; [done|].
      rewrite Hr. destruct (Z.eqb_spec b 0); [done|]. split; [by intros ->|].
      intros H. by injection H.
    + exists (a - b). split; [done|]. destruct (Z.eqb_spec b 0); split; try lia; try done.
      intros H. by injection H.
Qed.

Lemma zero_fill_eq n s c m :
  (s + n <= length m)%nat → zero_fill s n c m = Ret tt c (splice s (replicate n 0) m).
Proof.
  revert s m. induction n as [|n IH]; intros s m H; cbn [zero_fill replicate].
  - by rewrite splice_nil.
  - erewrite bind_eq; [|apply store_eq; lia]. rewrite IH by (rewrite length_insert; lia).
    by rewrite insert_splice by (rewrite length_replicate; lia).
Qed.

Lemma cstr_take n l l' : take n l = take n l' → cstr n l = cstr n l'.
Proof.
  revert l l'. induction n as [|n IH]; intros [|x l] [|y l'] H; cbn in *; try done.
  injection H as -> H. destruct (y =? 0); [done|]. f_equal. by apply IH.
Qed.

Lemma cstr_insert n m s t x :
  (s < t ∨ t + n <= s)%nat → cstr n (drop t (<[s := x]> m)) = cstr n (drop t m).
Proof.
  intros H. apply cstr_take. fold (slice t n (<[s := x]> m)). fold (slice t n m).
  apply list_eq. intros i. rewrite !lookup_slice_if. case_decide; [|done].
  apply list_lookup_insert_ne. lia.
Qed.

(** [strncpy] copies the string and pads it with NULs to [n] bytes. *)
Lemma strncpy_eq n s t c m :
  Forall byte_range m → (s + n <= length m)%nat → (t + n <= length m)%nat →
  (s + n <= t ∨ t + n <= s)%nat →
  strncpy_loop s t n c m =
  Ret tt c (splice s (cstr n (drop t m) ++ replicate (n - length (cstr n (drop t m))) 0) m).
Proof.
  revert s t m. induction n as [|n IH]; intros s t m Hm Hs Ht Hov; cbn [strncpy_loop].
  - destruct (drop t m); cbn; by rewrite splice_nil.
  - destruct (lookup_lt_is_Some_2 m t) as [x Hx]; [lia|].
    pose proof (mem_byte _ _ _ Hm Hx) as Hb.
    rewrite (lookup_drop_cons _ _ _ Hx). cbn [cstr].
    erewrite bind_eq; [|by apply load_eq]. erewrite bind_eq; [|apply store_eq; lia].
    rewrite u8_byte by done. destruct (Z.eqb_spec x 0) as [->|Hx0].
    + rewrite zero_fill_eq by (rewrite length_insert; lia). cbn [length app Nat.sub replicate].
      rewrite <- insert_splice by (rewrite length_replicate; lia). done.
    + rewrite <- (u8_byte x) by done.
      rewrite IH by (rewrite ?length_insert; (done || lia || by apply insert_bytes)).
      rewrite u8_byte, cstr_insert by (done || lia).
      pose proof (cstr_length n (drop (S t) m)).
      rewrite insert_splice by (rewrite length_app, length_replicate; lia). done.
Qed.

Lemma cstr_app_nul n x l : (n <= length x)%nat → Forall (λ b, b ≠ 0) x → cstr n (x ++ l) = take n x.
Proof.
  intros Hn Hx. revert n Hn. induction Hx as [|b x Hb Hx IH]; intros n Hn; cbn in *.
  - replace n with O by lia. by destruct l.
  - destruct n as [|n]; [done|]. cbn. destruct (Z.eqb_spec b 0); [done|]. f_equal. apply IH. lia.
Qed.

Lemma cstr_stop n x l : (length x < n)%nat → Forall (λ b, b ≠ 0) x → cstr n (x ++ 0 :: l) = x.
Proof.
  intros Hn Hx. revert n Hn. induction Hx as [|b x Hb Hx IH]; intros n Hn; cbn in *;
    (destruct n as [|n]; [lia|]); cbn; [done|].
  destruct (Z.eqb_spec b 0); [done|]. f_equal. apply IH. lia.
Qed.

Lemma drop_splice s new m :
  (s + length new <= length m)%nat →
  drop s (splice s new m) = new ++ drop (s + length new) m.
Proof.
  intros H. unfold splice. rewrite drop_app_ge by (rewrite length_take; lia).
  rewrite length_take. by replace (s - s `min` length m)%nat with O by lia.
Qed.

(** A string copied by [strncpy] reads back as the original, NUL or no NUL. *)
Lemma cstr_padded n x l :
  (length x <= n)%nat → Forall (λ b, b ≠ 0) x →
  cstr n (x ++ replicate (n - length x) 0 ++ l) = x.
Proof.
  intros Hn Hx. destruct (decide (length x = n)) as [<-|].
  - rewrite cstr_app_nul by done. by apply take_ge.
  - destruct (n - length x)%nat eqn:Hk; [lia|]. cbn. apply cstr_stop; [lia|done].
Qed.

(** [safestrcpy] stores the string, cut to [n] bytes, a NUL, and at most one more
    NUL that is still inside the [n + 1] bytes of the destination. *)
Lemma safestrcpy_eq n s t c m :
  Forall byte_range m → (s + S n <= length m)%nat → (t + n <= length m)%nat →
  (s + S n <= t ∨ t + n <= s)%nat →
  ∃ tail, safestrcpy_loop s t n c m =
          Ret tt c (splice s (cstr n (drop t m) ++ 0 :: tail) m) ∧
          (length (cstr n (drop t m)) + length tail <= n)%nat.
Proof.
  revert s t m. induction n as [|n IH]; intros s t m Hm Hs Ht Hov; cbn [safestrcpy_loop].
  - exists []. rewrite store_eq by lia. assert (cstr 0 (drop t m) = []) as -> by (by destruct (drop t m)).
    split; [|cbn; lia]. cbn. rewrite <- insert_splice by (cbn; lia). by rewrite splice_nil.
  - destruct (lookup_lt_is_Some_2 m t) as [x Hx]; [lia|].
    pose proof (mem_byte _ _ _ Hm Hx) as Hb.
    rewrite (lookup_drop_cons _ _ _ Hx). cbn [cstr].
    erewrite bind_eq; [|by apply load_eq]. erewrite bind_eq; [|apply store_eq; lia].
    destruct (Z.eqb_spec x 0) as [->|Hx0].
    + exists [0]. rewrite store_eq by (rewrite length_insert; lia).
      split; [|cbn; lia]. cbn. rewrite <- !insert_splice by (cbn; rewrite ?length_insert; lia).
      by rewrite splice_nil.
    + destruct (IH (S s) (S t) (<[s := u8 x]> m)) as (tail & Heq & Hlen);
        [by apply insert_bytes|rewrite ?length_insert; lia..|lia|].
      rewrite cstr_insert in Heq, Hlen by lia. exists tail. split; [|cbn; lia].
      rewrite Heq, u8_byte by done. cbn [app].
      rewrite insert_splice; [done|]. rewrite length_app. cbn. lia.
Qed.

Lemma strlen_from_eq k fuel s n c m :
  (∀ i, (n <= i < k)%nat → ∃ x, m !! (s + i)%nat = Some x ∧ x ≠ 0) →
  m !! (s + k)%nat = Some 0 → (n <= k)%nat → (k < n + fuel)%nat →
  strlen_from fuel s n c m = Ret (Z.of_nat k) c m.
Proof.
  revert n. induction fuel as [|fuel IH]; intros n Hnz Hk Hle Hf; [lia|]. cbn [strlen_from].
  destruct (decide (n = k)) as [->|].
  - by erewrite bind_eq; [|by apply load_eq].
  - destruct (Hnz n) as (x & Hx & Hx0); [lia|]. erewrite bind_eq; [|by apply load_eq].
    destruct (Z.eqb_spec x 0); [done|]. apply IH; [|done|lia|lia]. intros i Hi. apply Hnz. lia.
Qed.
End mem.

(** * Properties *)

(** [memmove] is a copy through a temporary: whatever the overlap of source and
    destination, the destination ends up with the bytes the source had before the
    call and no other byte changes. *)
Theorem memmove_correct d s n c m :
  Forall byte_range m → (s + n <= length m)%nat → (d + n <= length m)%nat →
  memmove d s n c m = Ret d c (splice d (slice s n m) m).
Proof. apply memmove_eq. Qed.

Lemma memmove_correct_witness :
  memmove 2 0 4 (cpu0 1) [1; 2; 3; 4; 5; 6; 7] = Ret 2%nat (cpu0 1) [1; 2; 1; 2; 3; 4; 7].
Proof.
  refine (memmove_correct 2 0 4 (cpu0 1) [1; 2; 3; 4; 5; 6; 7] _ _ _); [|cbn; lia..].
  unfold byte_range. repeat constructor; lia.
Defined.

(** [memset] stores the low byte of its argument in exactly the [n] bytes asked
    for, through either of its two implementations (by words or by bytes). *)
Theorem memset_correct dst v n c m :
  0 <= n → (dst + Z.to_nat n <= length m)%nat →
  memset dst v n c m = Ret dst c (splice dst (replicate (Z.to_nat n) (u8 v)) m).
Proof. apply memset_eq. Qed.

Lemma memset_correct_witness :
  memset 4 (-2) 4 (cpu0 1) (replicate 9 0) = Ret 4%nat (cpu0 1) [0; 0; 0; 0; 254; 254; 254; 254; 0].
Proof. refine (memset_correct 4 (-2) 4 (cpu0 1) (replicate 9 0) _ _); cbn; lia. Defined.

(** A name stored with [strncpy] is found again by [strncmp]: after copying the
    string at [t] into the [n]-byte field at [s], comparing the field with any
    string [q] gives 0 exactly when [q] is the same string up to [n] bytes. *)
Theorem strncpy_strncmp s t q n c m :
  Forall byte_range m → (s + n <= length m)%nat → (t + n <= length m)%nat →
  (q + n <= length m)%nat → (s + n <= t ∨ t + n <= s)%nat → (s + n <= q ∨ q + n <= s)%nat →
  ∃ m' r, strncpy s t (Z.of_nat n) c m = Ret s c m' ∧ strncmp s q n c m' = Ret r c m' ∧
          (r = 0 ↔ cstr n (drop t m) = cstr n (drop q m)).
Proof.
  intros Hm Hs Ht Hq Hst Hsq.
  set (x := cstr n (drop t m)). pose proof (cstr_length n (drop t m)) as Hlen. fold x in Hlen.
  set (new := x ++ replicate (n - length x) 0).
  assert (length new = n) as Hnew by (unfold new; rewrite length_app, length_replicate; lia).
  destruct (strncmp_eq n s q c (splice s new m)) as (r & Hcmp & Hr);
    [rewrite length_splice; lia..|].
  exists (splice s new m), r. split; [|split; [done|]].
  - unfold strncpy. rewrite Nat2Z.id. erewrite bind_eq; [|by apply strncpy_eq]. done.
  - rewrite Hr.
    assert (cstr n (drop q (splice s new m)) = cstr n (drop q m)) as ->.
    { apply cstr_take. apply slice_splice_other; lia. }
    rewrite drop_splice by lia. unfold new.
    rewrite <- app_assoc, cstr_padded; [done|done|apply cstr_nonzero].
Qed.

Lemma strncpy_strncmp_witness :
  ∃ m' r, strncpy 0 4 4 (cpu0 1) [9; 9; 9; 9; 97; 0; 98; 99; 97; 0; 0; 0] = Ret 0%nat (cpu0 1) m' ∧
          strncmp 0 8 4 (cpu0 1) m' = Ret r (cpu0 1) m' ∧ (r = 0 ↔ [97] = [97]).
Proof.
  refine (strncpy_strncmp 0 4 8 4 (cpu0 1) [9; 9; 9; 9; 97; 0; 98; 99; 97; 0; 0; 0] _ _ _ _ _ _);
    [|cbn; lia..]. unfold byte_range. repeat constructor; lia.
Defined.

(** [safestrcpy] with a positive size always leaves a NUL-terminated string, the
    source cut to [n - 1] bytes, and writes only inside the [n] bytes it was given. *)
Theorem safestrcpy_terminates s t n c m :
  0 < n → Forall byte_range m →
  (s + Z.to_nat n <= length m)%nat → (t + Z.to_nat (n - 1) <= length m)%nat →
  (s + Z.to_nat n <= t ∨ t + Z.to_nat (n - 1) <= s)%nat →
  ∃ m', safestrcpy s t n c m = Ret s c m' ∧
    cstr (Z.to_nat n) (drop s m') = cstr (Z.to_nat (n - 1)) (drop t m) ∧
    (length (cstr (Z.to_nat n) (drop s m')) < Z.to_nat n)%nat ∧
    ∀ i, (i < s ∨ s + Z.to_nat n <= i)%nat → m' !! i = m !! i.
Proof.
  intros Hn Hm Hs Ht Hov. set (k := Z.to_nat (n - 1)) in *.
  replace (Z.to_nat n) with (S k) in * by lia.
  destruct (safestrcpy_eq k s t c m) as (tail & Heq & Hlen); [done|lia..|].
  set (x := cstr k (drop t m)) in *.
  assert (s + length (x ++ 0%Z :: tail) <= length m)%nat as Hfit by (rewrite length_app; cbn; lia).
  assert (cstr (S k) (drop s (splice s (x ++ 0 :: tail) m)) = x) as Hx.
  { rewrite drop_splice, <- app_assoc by done. cbn [app]. apply cstr_stop; [lia|apply cstr_nonzero]. }
  exists (splice s (x ++ 0 :: tail) m). rewrite Hx. split; [|split; [done|split]].
  - unfold safestrcpy. replace (n <=? 0) with false by lia. fold k. erewrite bind_eq; done.
  - lia.
  - intros i Hi. apply lookup_splice_out; [|done]. rewrite length_app. cbn. lia.
Qed.

Lemma safestrcpy_terminates_witness :
  ∃ m', safestrcpy 0 4 3 (cpu0 1) [9; 9; 9; 9; 97; 98; 99; 100] = Ret 0%nat (cpu0 1) m' ∧
    cstr 3 m' = [97; 98] ∧ (length (cstr 3 m') < 3)%nat ∧
    ∀ i, (i < 0 ∨ 0 + 3 <= i)%nat → m' !! i = [9; 9; 9; 9; 97; 98; 99; 100] !! i.
Proof.
  refine (safestrcpy_terminates 0 4 3 (cpu0 1) [9; 9; 9; 9; 97; 98; 99; 100] _ _ _ _ _);
    [lia| |cbn; lia..]. unfold byte_range. repeat constructor; lia.
Defined.

(** The user library's [memmove] copies upwards only: moving a block up by one
    byte smears its first byte over the destination, where the kernel's [memmove]
    keeps the bytes. *)
Theorem ulib_memmove_smears :
  Ulib.memmove 1 0 3 (cpu0 1) [1; 2; 3; 4] = Ret 1%nat (cpu0 1) [1; 1; 1; 1] ∧
  memmove 1 0 3 (cpu0 1) [1; 2; 3; 4] = Ret 1%nat (cpu0 1) [1; 1; 2; 3].
Proof. split; reflexivity. Qed.
