(* ===== verification/Kalloc.v ===== *)
(** Physical memory ([mmu.h], [memlayout.h]) and its page allocator ([kalloc.c]). *)
From stdpp Require Import base list numbers strings sets gmap.
From Stdlib Require Import ZArith Lia.
From S2P Require Import Prelude Params Machine Spinlock.
Local Open Scope Z_scope.
Local Open Scope xv6_scope.

(** * Layout *)

Definition PGSIZE : Z := 4096.
Definition EXTMEM : Z := 0x100000.
Definition PHYSTOP : Z := 0xE000000.
Definition DEVSPACE : Z := 0xFE000000.
Definition KERNBASE : Z := 0x80000000.
Definition KERNLINK : Z := KERNBASE + EXTMEM.

Definition V2P (a : Z) : Z := u32 (a - KERNBASE).
Definition P2V (a : Z) : Z := u32 (a + KERNBASE).

Definition PGROUNDUP (sz : Z) : Z := Z.land (u32 (sz + PGSIZE - 1)) (u32 (Z.lnot (PGSIZE - 1))).
Definition PGROUNDDOWN (a : Z) : Z := Z.land a (u32 (Z.lnot (PGSIZE - 1))).

Abbreviation pgsize := (Z.to_nat PGSIZE).

(** * State *)

(** [kmem], and the memory the kernel addresses above [KERNBASE]: the page at
    kernel address [v] (a multiple of [PGSIZE]) is [k_mem !! v]. *)
Record kstate := KState {
  k_use_lock : bool;
  k_freelist : Z;
  k_mem : gmap Z (list Z);
}.

Definition set_use_lock (b : bool) (s : kstate) : kstate := KState b (k_freelist s) (k_mem s).
Definition set_freelist (p : Z) (s : kstate) : kstate := KState (k_use_lock s) p (k_mem s).
Definition set_mem (m : gmap Z (list Z)) (s : kstate) : kstate :=
  KState (k_use_lock s) (k_freelist s) m.

(** The page an address is in, and the place in it. *)
Definition page_of (p : Z) : Z := p - p mod PGSIZE.
Definition off_of (p : Z) : nat := Z.to_nat (p mod PGSIZE).

(** A whole page; a 32-bit word at an aligned address.  Addresses where there is no
    memory fault. *)
Definition get_page (v : Z) : M kstate (list Z) := s <- get ;; deref (k_mem s !! v).
Definition put_page (v : Z) (d : list Z) : M kstate unit :=
  _ <- get_page v ;; modify (λ s, set_mem (<[v := d]> (k_mem s)) s).
Definition load32 (p : Z) : M kstate Z :=
  d <- get_page (page_of p) ;; ret (rd 4 (off_of p) d).
Definition store32 (p x : Z) : M kstate unit :=
  d <- get_page (page_of p) ;; put_page (page_of p) (wr 4 (off_of p) x d).

(** [memset(v, c, PGSIZE)] on the page [v]. *)
Definition memset_page (v c : Z) : M kstate unit := put_page v (replicate pgsize (u8 c)).

(** * kalloc.c *)

Section kalloc.
(** The first address after the kernel, set by the linker. *)
Context (kend : Z).

Definition kfree (v : Z) : M kstate unit :=
  when (negb (v mod PGSIZE =? 0) || (v <? kend) || (PHYSTOP <=? V2P v)) (panic "kfree") ;;
  (* Fill with junk to catch dangling refs. *)
  memset_page v 1 ;;
  s <- get ;;
  when (k_use_lock s) (acquire LkKmem) ;;
  s <- get ;;
  store32 v (k_freelist s) ;;      (* r->next = kmem.freelist *)
  modify (set_freelist v) ;;
  s <- get ;;
  when (k_use_lock s) (release LkKmem).

Definition kalloc : M kstate Z :=
  s <- get ;;
  when (k_use_lock s) (acquire LkKmem) ;;
  s <- get ;;
  let r := k_freelist s in
  when (negb (r =? 0)) (n <- load32 r ;; modify (set_freelist n)) ;;
  s <- get ;;
  when (k_use_lock s) (release LkKmem) ;;
  ret r.

(** The loop of [freerange]: [p], [p + PGSIZE], ... while a whole page is left. *)
Fixpoint freerange_loop (fuel : nat) (p vend : Z) : M kstate unit :=
  match fuel with
  | O => hang
  | S fuel' =>
      if p + PGSIZE <=? vend then kfree p ;; freerange_loop fuel' (p + PGSIZE) vend else ret tt
  end.

(** Every turn frees one page below [vend]. *)
Definition freerange (vstart vend : Z) : M kstate unit :=
  freerange_loop (S (Z.to_nat ((vend - vstart) / PGSIZE))) (PGROUNDUP vstart) vend.

Definition kinit1 (vstart vend : Z) : M kstate unit :=
  modify (set_use_lock false) ;;
  freerange vstart vend.

Definition kinit2 (vstart vend : Z) : M kstate unit :=
  freerange vstart vend ;;
  modify (set_use_lock true).
End kalloc.
