(* ===== verification/KallocSpec.v ===== *)
(** What the page allocator promises: the free pages as a list, and pages that are
    never handed out twice. *)
From stdpp Require Import base list numbers strings sets gmap.
From Stdlib Require Import ZArith Lia.
From S2P Require Import Prelude Params Machine Spinlock Kalloc.
Local Open Scope Z_scope.
Local Open Scope xv6_scope.

(** * Addresses *)

Lemma pgmask : u32 (Z.lnot (PGSIZE - 1)) = Z.shiftl (Z.ones 20) 12.
Proof. reflexivity. Qed.

Lemma PGROUNDDOWN_eq a : 0 <= a < 2 ^ 32 → PGROUNDDOWN a = a - a mod PGSIZE.
Proof.
  intros Ha. unfold PGROUNDDOWN. rewrite pgmask.
  replace (a - a mod PGSIZE) with (Z.shiftl (Z.shiftr a 12) 12).
  2:{ rewrite Z.shiftl_mul_pow2, Z.shiftr_div_pow2 by lia. change (2 ^ 12) with PGSIZE.
      pose proof (Z.div_mod a PGSIZE ltac:(done)). lia. }
  apply Z.bits_inj'. intros n Hn. rewrite Z.land_spec, !Z.shiftl_spec by lia.
  destruct (decide (n < 12)).
  - rewrite !(Z.testbit_neg_r _ (n - 12)) by lia. apply andb_false_r.
  - rewrite Z.shiftr_spec by lia. replace (n - 12 + 12) with n by lia.
    destruct (decide (n < 32)).
    + rewrite Z.ones_spec_low by lia. apply andb_true_r.
    + rewrite Z.ones_spec_high, andb_false_r by lia. symmetry.
      apply Z.bits_above_log2; [lia|]. destruct (decide (a = 0)) as [->|]; [cbn; lia|].
      apply Z.lt_le_trans with 32; [|lia]. apply Z.log2_lt_pow2; lia.
Qed.

Lemma PGROUNDUP_eq a :
  0 <= a <= 2 ^ 32 - PGSIZE → PGROUNDUP a = (a + PGSIZE - 1) - (a + PGSIZE - 1) mod PGSIZE.
Proof.
  intros Ha. unfold PGROUNDUP. unfold PGSIZE in *. rewrite u32_small by lia. apply PGROUNDDOWN_eq. lia.
Qed.

Lemma page_of_page v : v mod PGSIZE = 0 → page_of v = v.
Proof. unfold page_of. lia. Qed.

Lemma off_of_page v : v mod PGSIZE = 0 → off_of v = 0%nat.
Proof. unfold off_of. by intros ->. Qed.

(** * Free list *)

Fixpoint freechain (m : gmap Z (list Z)) (p : Z) (l : list Z) : Prop :=
  match l with
  | [] => p = 0
  | v :: l' => p = v ∧ ∃ d, m !! v = Some d ∧ freechain m (rd 4 0 d) l'
  end.

Lemma freechain_insert m v d p l :
  v ∉ l → freechain m p l → freechain (<[v := d]> m) p l.
Proof.
  revert p. induction l as [|w l IH]; intros p Hv; cbn; [done|].
  intros (-> & e & He & Hc). split; [done|]. exists e. split.
  - rewrite lookup_insert_ne; [done|set_solver].
  - apply IH; [set_solver|done].
Qed.

Lemma get_page_eq v c s d : k_mem s !! v = Some d → get_page v c s = Ret d c s.
Proof. intros H. unfold get_page, bind, get. by rewrite H. Qed.

Lemma put_page_eq v c s d x :
  k_mem s !! v = Some d → put_page v x c s = Ret tt c (set_mem (<[v := x]> (k_mem s)) s).
Proof. intros H. unfold put_page. by erewrite bind_eq; [|by apply get_page_eq]. Qed.

Lemma load32_eq p c s d : k_mem s !! page_of p = Some d → load32 p c s = Ret (rd 4 (off_of p) d) c s.
Proof. intros H. unfold load32. by erewrite bind_eq; [|by apply get_page_eq]. Qed.

Lemma store32_eq p x c s d :
  k_mem s !! page_of p = Some d →
  store32 p x c s = Ret tt c (set_mem (<[page_of p := wr 4 (off_of p) x d]> (k_mem s)) s).
Proof.
  intros H. unfold store32. erewrite bind_eq; [|by apply get_page_eq]. by eapply put_page_eq.
Qed.

Section spec.
Context (kend : Z) (Hkend : KERNBASE <= kend).

(** The addresses of the pages the allocator manages. *)
Definition kpage (v : Z) : Prop := v mod PGSIZE = 0 ∧ kend <= v ∧ v < KERNBASE + PHYSTOP.

Record krel (s : kstate) (l : list Z) : Prop := {
  kr_chain : freechain (k_mem s) (k_freelist s) l;
  kr_nodup : NoDup l;
  kr_pages : Forall kpage l;
  kr_mem : ∀ v, kpage v → ∃ d, k_mem s !! v = Some d ∧ length d = pgsize;
}.

Lemma kpage_nonzero v : kpage v → 0 < v < 2 ^ 32.
Proof. unfold kpage, KERNBASE, PHYSTOP in *. lia. Qed.

(** Taking and dropping [kmem.lock] around an action when [use_lock] is set. *)
Lemma when_acquire b pid s :
  when b (acquire LkKmem) (cpu0 pid) s =
  Ret tt (if b then cpu1 pid LkKmem else cpu0 pid) (s : kstate).
Proof. destruct b; [apply acquire_cpu0|done]. Qed.
Lemma when_release b pid s :
  when b (release LkKmem) (if b then cpu1 pid LkKmem else cpu0 pid) s = Ret tt (cpu0 pid) (s : kstate).
Proof. destruct b; [apply release_cpu1|done]. Qed.

(** The page [kfree] leaves behind: junk, with the link in the first word. *)
Definition junk (next : Z) : list Z := wr 4 0 next (replicate pgsize 1).

Lemma kfree_eq pid s l v :
  krel s l → kpage v →
  kfree kend v (cpu0 pid) s =
  Ret tt (cpu0 pid) (KState (k_use_lock s) v (<[v := junk (k_freelist s)]> (k_mem s))).
Proof.
  intros HR Hv. pose proof (kpage_nonzero v Hv). destruct Hv as (Hal & Hge & Hlt).
  destruct (kr_mem _ _ HR v) as (d & Hd & _); [done|].
  unfold kfree. rewrite Hal. replace (v <? kend) with false by lia.
  replace (PHYSTOP <=? V2P v) with false.
  2:{ symmetry. apply Z.leb_gt. unfold V2P, KERNBASE, PHYSTOP in *. rewrite u32_small; lia. }
  cbn [negb orb Z.eqb]. rewrite (bind_eq (when false _) _ _ _ tt (cpu0 pid) s eq_refl).
  unfold memset_page. erewrite bind_eq; [|by eapply put_page_eq].
  unfold bind at 1. cbn [get k_use_lock set_mem]. erewrite bind_eq; [|apply when_acquire].
  unfold bind at 1. cbn [get k_freelist set_mem].
  erewrite bind_eq; [|eapply store32_eq; rewrite page_of_page by done; cbn; by rewrite lookup_insert_eq].
  rewrite page_of_page, off_of_page by done. cbn [set_mem k_mem].
  rewrite insert_insert_eq. unfold bind, modify, get. cbn. apply when_release.
Qed.

Lemma junk_next p : 0 <= p < 2 ^ 32 → rd 4 0 (junk p) = p.
Proof.
  intros Hp. unfold junk. rewrite rd_wr_same by (rewrite length_replicate; vm_compute; lia).
  by apply Z.mod_small.
Qed.

Lemma krel_freelist s l : krel s l → 0 <= k_freelist s < 2 ^ 32.
Proof.
  intros HR. pose proof (kr_chain _ _ HR) as Hc. destruct l as [|w l]; cbn in Hc; [lia|].
  destruct Hc as [-> _]. pose proof (kr_pages _ _ HR) as [Hw _]%Forall_cons.
  apply kpage_nonzero in Hw. lia.
Qed.

Lemma kfree_spec pid s l v :
  krel s l → kpage v → v ∉ l →
  ∃ s', kfree kend v (cpu0 pid) s = Ret tt (cpu0 pid) s' ∧ krel s' (v :: l) ∧
        k_use_lock s' = k_use_lock s ∧ ∀ w, w ≠ v → k_mem s' !! w = k_mem s !! w.
Proof.
  intros HR Hv Hin. eexists. split; [by eapply kfree_eq|]. split; [|split; [done|]].
  - split; cbn.
    + split; [done|]. exists (junk (k_freelist s)). split; [by rewrite lookup_insert_eq|].
      rewrite junk_next by (by eapply krel_freelist). apply freechain_insert; [done|apply HR].
    + apply NoDup_cons. split; [done|apply HR].
    + apply Forall_cons. split; [done|apply HR].
    + intros w Hw. destruct (decide (w = v)) as [->|].
      * rewrite lookup_insert_eq. eexists. split; [done|].
        unfold junk. rewrite length_wr; rewrite length_replicate; [done|vm_compute; lia].
      * rewrite lookup_insert_ne by done. by apply HR.
  - intros w Hw. cbn. by rewrite lookup_insert_ne.
Qed.

Lemma kalloc_spec pid s l :
  krel s l →
  match l with
  | [] => kalloc (cpu0 pid) s = Ret 0 (cpu0 pid) s
  | v :: l' => ∃ s', kalloc (cpu0 pid) s = Ret v (cpu0 pid) s' ∧ krel s' l' ∧
                     k_use_lock s' = k_use_lock s ∧ k_mem s' = k_mem s
  end.
Proof.
  intros HR. pose proof (kr_chain _ _ HR) as Hc. destruct l as [|v l]; cbn in Hc.
  - unfold kalloc. unfold bind at 1. cbn [get]. erewrite bind_eq; [|apply when_acquire]. unfold bind, get. rewrite Hc. cbn. by rewrite when_release.
  - destruct Hc as (Hf & d & Hd & Hc). pose proof (kr_pages _ _ HR) as [Hv Hl]%Forall_cons.
    pose proof (kpage_nonzero v Hv) as Hnz. destruct Hv as (Hal & _).
    exists (set_freelist (rd 4 0 d) s). split; [|split; [|split; done]].
    + unfold kalloc. unfold bind at 1. cbn [get].
      erewrite bind_eq; [|apply when_acquire]. unfold bind at 1. cbn [get]. rewrite Hf.
      replace (v =? 0) with false by lia. cbn [negb when].
      rewrite (bind_eq _ _ _ _ tt (if k_use_lock s then cpu1 pid LkKmem else cpu0 pid)
                 (set_freelist (rd 4 0 d) s)).
      * unfold bind, get. cbn. by rewrite when_release.
      * erewrite bind_eq; [|eapply load32_eq; by rewrite page_of_page]. by rewrite off_of_page.
    + split; cbn; [done|..|done|apply HR]. apply (NoDup_cons_1_2 v). apply HR.
Qed.

(** The whole pages between [p] and [vend], in the order [freerange] frees them. *)
Definition pages (p vend : Z) : list Z :=
  (λ i, p + PGSIZE * i) <$> seqZ 0 ((vend - p) / PGSIZE).

Lemma pages_step p vend :
  pages p vend = if p + PGSIZE <=? vend then p :: pages (p + PGSIZE) vend else [].
Proof.
  unfold pages. destruct (Z.leb_spec (p + PGSIZE) vend) as [Hle|Hgt].
  - assert ((vend - p) / PGSIZE = (vend - (p + PGSIZE)) / PGSIZE + 1) as ->.
    { replace (vend - p) with (vend - (p + PGSIZE) + 1 * PGSIZE) by lia.
      by rewrite Z.div_add by done. }
    assert (0 <= (vend - (p + PGSIZE)) / PGSIZE) by (apply Z.div_pos; unfold PGSIZE in *; lia).
    rewrite seqZ_cons by lia. cbn. f_equal; [lia|].
    rewrite Z.add_1_r, Z.pred_succ. change (Z.succ 0) with (1 + 0).
    rewrite <- fmap_add_seqZ, <- list_fmap_compose.
    apply list_fmap_ext. intros j x _. cbn. lia.
  - rewrite seqZ_nil; [done|]. assert ((vend - p) / PGSIZE < 1); [|lia].
    apply Z.div_lt_upper_bound; unfold PGSIZE in *; lia.
Qed.

Lemma freerange_loop_spec pid fuel p vend s l :
  krel s l → p mod PGSIZE = 0 → kend <= p → vend <= KERNBASE + PHYSTOP →
  (∀ w, w ∈ l → w < p) → (length (pages p vend) < fuel)%nat →
  ∃ s', freerange_loop kend fuel p vend (cpu0 pid) s = Ret tt (cpu0 pid) s' ∧
        krel s' (rev (pages p vend) ++ l) ∧ k_use_lock s' = k_use_lock s.
Proof.
  revert p s l. induction fuel as [|fuel IH]; intros p s l HR Hal Hge Hend Hlt Hf; [lia|].
  cbn [freerange_loop]. rewrite pages_step in *.
  destruct (Z.leb_spec (p + PGSIZE) vend) as [Hle|Hgt]; [|by exists s].
  destruct (kfree_spec pid s l p HR) as (s1 & Heq & HR1 & Hul & _).
  { unfold kpage. unfold PGSIZE in *. lia. }
  { intros Hin%Hlt. lia. }
  destruct (IH (p + PGSIZE) s1 (p :: l)) as (s2 & Heq2 & HR2 & Hul2); try done.
  - by rewrite <- (Z.mul_1_l PGSIZE), Z.mod_add.
  - unfold PGSIZE. lia.
  - intros w [->|Hw%Hlt]%elem_of_cons; unfold PGSIZE; lia.
  - cbn in Hf. lia.
  - exists s2. erewrite bind_eq by done. split; [done|]. cbn. rewrite <- app_assoc. split; [done|congruence].
Qed.
End spec.

(** * Clients of the allocator *)

Section clients.
Context (kend pid : Z) (Hkend : KERNBASE <= kend).

(** One step of the kernel's use of the allocator: pages are taken with [kalloc] and
    given back with [kfree] by their owner.  The second component is the multiset of
    pages in use. *)
Inductive kstep : kstate * list Z → kstate * list Z → Prop :=
| kstep_alloc s own v c s' :
    kalloc (cpu0 pid) s = Ret v c s' →
    kstep (s, own) (s', if v =? 0 then own else v :: own)
| kstep_free s own v own' c s' :
    own ≡ₚ v :: own' → kfree kend v (cpu0 pid) s = Ret tt c s' →
    kstep (s, own) (s', own').

(** The pages of [all] are divided between the free list and the owners. *)
Definition kinv (all : list Z) (x : kstate * list Z) : Prop :=
  ∃ l, krel kend x.1 l ∧ l ++ x.2 ≡ₚ all.

Lemma kinv_step all x y :
  NoDup all → Forall (kpage kend) all → kinv all x → kstep x y → kinv all y.
Proof.
  intros Hnd Hpg (l & HR & Hperm) Hst. destruct Hst as [s own v c s' Hal|s own v own' c s' Hown Hfr]; cbn [fst snd] in *.
  - pose proof (kalloc_spec kend Hkend pid s l HR) as Hspec. destruct l as [|w l].
    + rewrite Hspec in Hal. injection Hal as <- _ <-. by exists [].
    + destruct Hspec as (s1 & Heq & HR1 & _). rewrite Heq in Hal. injection Hal as <- _ <-.
      pose proof (kr_pages _ _ _ HR) as [Hw _]%Forall_cons.
      apply (kpage_nonzero kend Hkend) in Hw. replace (w =? 0) with false by lia.
      exists l. split; [done|]. rewrite <- Hperm. cbn [snd app]. by rewrite <- Permutation_middle.
  - assert (kpage kend v ∧ v ∉ l) as [Hv Hnot].
    { rewrite Hown in Hperm. split.
      - rewrite Forall_forall in Hpg. apply Hpg. rewrite <- Hperm. set_solver.
      - intros Hin. rewrite <- Hperm in Hnd. apply NoDup_app in Hnd as (_ & Hdis & _).
        apply (Hdis v Hin). set_solver. }
    destruct (kfree_spec kend Hkend pid s l v HR Hv Hnot) as (s1 & Heq & HR1 & _).
    rewrite Heq in Hfr. injection Hfr as _ <-. exists (v :: l). split; [done|].
    rewrite <- Hperm, Hown. cbn [fst snd app]. by rewrite <- Permutation_middle.
Qed.

Lemma kinv_reach all x y :
  NoDup all → Forall (kpage kend) all → kinv all x → rtc kstep x y → kinv all y.
Proof. intros Hnd Hpg Hx Hr. induction Hr; [done|]. eauto using kinv_step. Qed.
End clients.

Lemma pages_NoDup p vend : NoDup (pages p vend).
Proof.
  unfold pages. apply NoDup_fmap; [|apply NoDup_seqZ].
  intros i j H. unfold PGSIZE in H. lia.
Qed.

Lemma pages_kpage kend p vend :
  p mod PGSIZE = 0 → kend <= p → vend <= KERNBASE + PHYSTOP → Forall (kpage kend) (pages p vend).
Proof.
  intros Hal Hge Hend. apply Forall_forall. intros v Hv. unfold pages in Hv.
  apply list_elem_of_fmap in Hv as (i & -> & Hi%elem_of_seqZ).
  assert (PGSIZE * (i + 1) <= vend - p).
  { etransitivity; [|apply (Z.mul_div_le (vend - p) PGSIZE); done]. unfold PGSIZE in *. lia. }
  split; [|unfold PGSIZE in *; lia]. rewrite Z.mul_comm, Z.mod_add by done. done.
Qed.

(** C15: Pages are never handed out twice.  Give the allocator the memory between
    [vstart] and [vend] with [kinit2] and let the kernel allocate and free pages in
    any order, freeing only pages it owns.  At every moment the pages in use are
    distinct pages of that range; [kalloc] returns 0 only when all of them are in
    use; and neither operation panics or faults. *)
Theorem kalloc_no_double_allocation kend pid vstart vend mem s own :
  KERNBASE <= kend <= vstart → vend <= KERNBASE + PHYSTOP → vstart <= vend →
  (∀ v, kpage kend v → ∃ d, mem !! v = Some d ∧ length d = pgsize) →
  let all := pages (PGROUNDUP vstart) vend in
  ∃ s0, kinit2 kend vstart vend (cpu0 pid) (KState false 0 mem) = Ret tt (cpu0 pid) s0 ∧
    (rtc (kstep kend pid) (s0, []) (s, own) →
     NoDup own ∧ own ⊆ all ∧
     (∀ v, v ∈ own → ∃ s', kfree kend v (cpu0 pid) s = Ret tt (cpu0 pid) s') ∧
     ∃ v s', kalloc (cpu0 pid) s = Ret v (cpu0 pid) s' ∧
       if v =? 0 then length own = length all else v ∉ own ∧ v ∈ all).
Proof.
  intros Hk Hend Hle Hmem all. set (p0 := PGROUNDUP vstart) in *.
  assert (p0 mod PGSIZE = 0 ∧ vstart <= p0 < vstart + PGSIZE) as [Hal Hp0].
  { unfold p0. rewrite PGROUNDUP_eq by (unfold KERNBASE, PHYSTOP, PGSIZE in *; lia).
    pose proof (Z.mod_pos_bound (vstart + PGSIZE - 1) PGSIZE ltac:(done)).
    split; [|unfold PGSIZE in *; lia]. rewrite Zminus_mod_idemp_r, Z.sub_diag. done. }
  destruct (freerange_loop_spec kend ltac:(lia) pid (S (Z.to_nat ((vend - vstart) / PGSIZE))) p0 vend
              (KState false 0 mem) []) as (s0 & Heq & HR0 & Hul); try done; try lia.
  { split; cbn; [done|by apply NoDup_nil|done|done]. }
  { set_solver. }
  { unfold pages. rewrite length_fmap, length_seqZ.
    assert ((vend - p0) / PGSIZE <= (vend - vstart) / PGSIZE) by (apply Z.div_le_mono; [done|lia]). lia. }
  rewrite app_nil_r in HR0.
  exists (set_use_lock true s0). split.
  { unfold kinit2, freerange. erewrite bind_eq by done. done. }
  pose proof (pages_NoDup p0 vend) as Hnd.
  pose proof (pages_kpage kend p0 vend Hal ltac:(lia) Hend) as Hpg.
  intros Hreach.
  assert (kinv kend all (s, own)) as (l & HR & Hperm).
  { eapply (kinv_reach kend pid ltac:(lia)); [done|done| |exact Hreach].
    exists (rev all). split; [by destruct HR0|]. cbn. rewrite app_nil_r. symmetry. apply Permutation_rev. }
  cbn [fst snd] in *. assert (NoDup (l ++ own)) as Hndl by (by rewrite Hperm).
  apply NoDup_app in Hndl as (_ & Hdis & Hndo).
  split; [done|]. split; [intros v Hv; rewrite <- Hperm; set_solver|]. split.
  - intros v Hv. destruct (kfree_spec kend ltac:(lia) pid s l v HR) as (s' & Hf & _); [| |by exists s'].
    + rewrite Forall_forall in Hpg. apply Hpg. fold all. rewrite <- Hperm. set_solver.
    + intros Hin. by apply (Hdis v Hin).
  - pose proof (kalloc_spec kend ltac:(lia) pid s l HR) as Hspec. destruct l as [|w l].
    + exists 0, s. split; [done|]. change (0 =? 0) with true. cbn iota. by rewrite <- Hperm.
    + destruct Hspec as (s' & Hka & _). exists w, s'. split; [done|].
      pose proof (kr_pages _ _ _ HR) as [Hw _]%Forall_cons.
      apply (kpage_nonzero kend ltac:(lia)) in Hw. replace (w =? 0) with false by lia.
      split; [apply Hdis; set_solver|]. rewrite <- Hperm. set_solver.
Qed.

(** The last two pages of physical memory. *)
Definition demo_kend : Z := KERNBASE + PHYSTOP - 2 * PGSIZE.
Definition demo_mem : gmap Z (list Z) :=
  {[ demo_kend := replicate pgsize 0; demo_kend + PGSIZE := replicate pgsize 0 ]}.

Lemma kalloc_no_double_allocation_witness :
  ∃ s0, kinit2 demo_kend demo_kend (KERNBASE + PHYSTOP) (cpu0 1) (KState false 0 demo_mem) =
          Ret tt (cpu0 1) s0 ∧
    (rtc (kstep demo_kend 1) (s0, []) (s0, []) →
     NoDup ([] : list Z) ∧ [] ⊆ pages (PGROUNDUP demo_kend) (KERNBASE + PHYSTOP) ∧
     (∀ v, v ∈ [] → ∃ s', kfree demo_kend v (cpu0 1) s0 = Ret tt (cpu0 1) s') ∧
     ∃ v s', kalloc (cpu0 1) s0 = Ret v (cpu0 1) s' ∧
       if v =? 0 then length ([] : list Z) = length (pages (PGROUNDUP demo_kend) (KERNBASE + PHYSTOP))
       else v ∉ [] ∧ v ∈ pages (PGROUNDUP demo_kend) (KERNBASE + PHYSTOP)).
Proof.
  set (s0 := match kinit2 demo_kend demo_kend (KERNBASE + PHYSTOP) (cpu0 1) (KState false 0 demo_mem) with
             | Ret _ _ s => s | _ => KState false 0 demo_mem end).
  destruct (kalloc_no_double_allocation demo_kend 1 demo_kend (KERNBASE + PHYSTOP) demo_mem s0 [])
    as (s1 & Heq & H); [vm_compute; split; discriminate|vm_compute; discriminate..| |].
  - intros v (Hal & Hge & Hlt).
    assert (v = demo_kend ∨ v = demo_kend + PGSIZE) as [-> | ->].
    { apply Z.mod_divide in Hal as [k ->]; [|done].
      unfold demo_kend, KERNBASE, PHYSTOP, PGSIZE in *. lia. }
    + exists (replicate pgsize 0). split; [vm_compute; reflexivity|reflexivity].
    + exists (replicate pgsize 0). split; [vm_compute; reflexivity|reflexivity].
  - assert (s0 = s1) as <- by (unfold s0; by rewrite Heq). exists s0. split; [exact Heq|exact H].
Defined.

(** [kfree] refuses what cannot be a page: an address that is not page aligned,
    below the end of the kernel or above physical memory panics, without touching
    memory or the free list. *)
Theorem kfree_rejects kend pid v s :
  v mod PGSIZE ≠ 0 ∨ v < kend ∨ PHYSTOP <= V2P v →
  kfree kend v (cpu0 pid) s = Panic "kfree".
Proof.
  intros H. unfold kfree, bind.
  replace (negb (v mod PGSIZE =? 0) || (v <? kend) || (PHYSTOP <=? V2P v)) with true; [done|].
  symmetry. rewrite !orb_true_iff, negb_true_iff. lia.
Qed.

Lemma kfree_rejects_witness :
  kfree demo_kend (demo_kend + 8) (cpu0 1) (KState false 0 ∅) = Panic "kfree".
Proof. apply (kfree_rejects demo_kend 1 (demo_kend + 8)). left. vm_compute. discriminate. Defined.
