(* ===== verification/Vm.v ===== *)
(** Page tables and address spaces ([vm.c], [mmu.h]). *)
From stdpp Require Import base list numbers strings sets gmap.
From Stdlib Require Import ZArith Lia.
From S2P Require Import Prelude Params Machine Spinlock Kalloc.
Local Open Scope Z_scope.
Local Open Scope xv6_scope.

(** * mmu.h *)

Definition PTXSHIFT : Z := 12.
Definition PDXSHIFT : Z := 22.
Definition PDX (va : Z) : Z := Z.land (Z.shiftr (u32 va) PDXSHIFT) 0x3FF.
Definition PTX (va : Z) : Z := Z.land (Z.shiftr (u32 va) PTXSHIFT) 0x3FF.
Definition PGADDR (d t o : Z) : Z :=
  u32 (Z.lor (Z.lor (Z.shiftl d PDXSHIFT) (Z.shiftl t PTXSHIFT)) o).

Definition NPDENTRIES : Z := 1024.
Definition PTE_P : Z := 0x001.
Definition PTE_W : Z := 0x002.
Definition PTE_U : Z := 0x004.
Definition PTE_ADDR (pte : Z) : Z := Z.land (u32 pte) (u32 (Z.lnot 0xFFF)).
Definition PTE_FLAGS (pte : Z) : Z := Z.land (u32 pte) 0xFFF.

(** The segment descriptor, field by field. *)
Record segdesc := SegDesc {
  lim_15_0 : Z; base_15_0 : Z; base_23_16 : Z; sd_type : Z; sd_s : Z; sd_dpl : Z; sd_p : Z;
  lim_19_16 : Z; sd_avl : Z; sd_rsv1 : Z; sd_db : Z; sd_g : Z; base_31_24 : Z;
}.
Definition SEG (type base lim dpl : Z) : segdesc :=
  SegDesc (Z.land (Z.shiftr lim 12) 0xffff) (Z.land (u32 base) 0xffff)
    (Z.land (Z.shiftr (u32 base) 16) 0xff) type 1 dpl 1
    (Z.shiftr (u32 lim) 28) 0 0 1 1 (Z.shiftr (u32 base) 24).
Definition SEG16 (type base lim dpl : Z) : segdesc :=
  SegDesc (Z.land lim 0xffff) (Z.land (u32 base) 0xffff)
    (Z.land (Z.shiftr (u32 base) 16) 0xff) type 1 dpl 1
    (Z.shiftr (u32 lim) 16) 0 0 1 0 (Z.shiftr (u32 base) 24).

(** The address and limit the processor reads from a descriptor. *)
Definition seg_base (d : segdesc) : Z :=
  base_15_0 d + Z.shiftl (base_23_16 d) 16 + Z.shiftl (base_31_24 d) 24.
Definition seg_limit (d : segdesc) : Z :=
  let l := lim_15_0 d + Z.shiftl (lim_19_16 d) 16 in
  if sd_g d =? 1 then l * PGSIZE + (PGSIZE - 1) else l.

(** * vm.c: page tables *)

Section vm.
(** Set by the linker: the first address after the kernel, and the start of its
    data section. *)
Context (kend data : Z).

(** Pointers to table entries are addresses; the null pointer is 0. *)
Definition walkpgdir (pgdir va : Z) (alloc : bool) : M kstate Z :=
  let pde := pgdir + 4 * PDX va in
  e <- load32 pde ;;
  if negb (Z.land e PTE_P =? 0) then
    ret (P2V (PTE_ADDR e) + 4 * PTX va)
  else if negb alloc then ret 0
  else
    pgtab <- kalloc ;;
    if pgtab =? 0 then ret 0
    else
      (* Make sure all those PTE_P bits are zero. *)
      memset_page pgtab 0 ;;
      store32 pde (Z.lor (Z.lor (Z.lor (V2P pgtab) PTE_P) PTE_W) PTE_U) ;;
      ret (pgtab + 4 * PTX va).

(** The loop of [mappages], from page [a] to page [last]. *)
Fixpoint mappages_loop (fuel : nat) (pgdir a last pa perm : Z) : M kstate Z :=
  match fuel with
  | O => hang
  | S fuel' =>
      pte <- walkpgdir pgdir a true ;;
      if pte =? 0 then ret (-1)
      else
        e <- load32 pte ;;
        when (negb (Z.land e PTE_P =? 0)) (panic "remap") ;;
        store32 pte (Z.lor (Z.lor pa perm) PTE_P) ;;
        if a =? last then ret 0
        else mappages_loop fuel' pgdir (u32 (a + PGSIZE)) last (u32 (pa + PGSIZE)) perm
  end.

(** [last - a], modulo the width of an address, is a whole number of pages; the
    loop reaches [last] after that many turns. *)
Definition mappages (pgdir va size pa perm : Z) : M kstate Z :=
  let a := PGROUNDDOWN (u32 va) in
  let last := PGROUNDDOWN (u32 (va + size - 1)) in
  mappages_loop (S (Z.to_nat (u32 (last - a) / PGSIZE))) pgdir a last pa perm.

(** [a] moves up by at least a page a turn, from the page of [newsz] to [oldsz]. *)
Fixpoint deallocuvm_loop (fuel : nat) (pgdir a oldsz : Z) : M kstate unit :=
  match fuel with
  | O => hang
  | S fuel' =>
      if oldsz <=? a then ret tt
      else
        pte <- walkpgdir pgdir a false ;;
        if pte =? 0 then
          deallocuvm_loop fuel' pgdir
            (u32 (u32 (PGADDR (PDX a + 1) 0 0 - PGSIZE) + PGSIZE)) oldsz
        else
          e <- load32 pte ;;
          when (negb (Z.land e PTE_P =? 0))
            (let pa := PTE_ADDR e in
             when (pa =? 0) (panic "kfree") ;;
             kfree kend (P2V pa) ;;
             store32 pte 0) ;;
          deallocuvm_loop fuel' pgdir (u32 (a + PGSIZE)) oldsz
  end.

Definition deallocuvm (pgdir oldsz newsz : Z) : M kstate Z :=
  if oldsz <=? newsz then ret oldsz
  else
    deallocuvm_loop (S (Z.to_nat ((oldsz - newsz) / PGSIZE + 1))) pgdir (PGROUNDUP newsz) oldsz ;;
    ret newsz.

(** The loop of [allocuvm]; [false] is the error return. *)
Fixpoint allocuvm_loop (fuel : nat) (pgdir a oldsz newsz : Z) : M kstate Z :=
  match fuel with
  | O => hang
  | S fuel' =>
      if newsz <=? a then ret newsz
      else
        mem <- kalloc ;;
        if mem =? 0 then
          (* allocuvm out of memory *)
          _ <- deallocuvm pgdir newsz oldsz ;; ret 0
        else
          memset_page mem 0 ;;
          r <- mappages pgdir a PGSIZE (V2P mem) (Z.lor PTE_W PTE_U) ;;
          if r <? 0 then
            (* allocuvm out of memory (2) *)
            _ <- deallocuvm pgdir newsz oldsz ;;
            kfree kend mem ;;
            ret 0
          else allocuvm_loop fuel' pgdir (u32 (a + PGSIZE)) oldsz newsz
  end.

Definition allocuvm (pgdir oldsz newsz : Z) : M kstate Z :=
  if KERNBASE <=? newsz then ret 0
  else if newsz <? oldsz then ret oldsz
  else allocuvm_loop (S (Z.to_nat ((newsz - oldsz) / PGSIZE + 1))) pgdir (PGROUNDUP oldsz) oldsz newsz.

Definition freevm (pgdir : Z) : M kstate unit :=
  when (pgdir =? 0) (panic "freevm: no pgdir") ;;
  _ <- deallocuvm pgdir KERNBASE 0 ;;
  for_each (seqZ 0 NPDENTRIES) (λ i,
    e <- load32 (pgdir + 4 * i) ;;
    when (negb (Z.land e PTE_P =? 0)) (kfree kend (P2V (PTE_ADDR e)))) ;;
  kfree kend pgdir.

(** [struct kmap] and the table [kmap]. *)
Record kmap_entry := Kmap { virt : Z; phys_start : Z; phys_end : Z; km_perm : Z }.
Definition kmap : list kmap_entry :=
  [ Kmap KERNBASE 0 EXTMEM PTE_W;
    Kmap KERNLINK (V2P KERNLINK) (V2P data) 0;
    Kmap data (V2P data) PHYSTOP PTE_W;
    Kmap DEVSPACE DEVSPACE 0 PTE_W ].

Fixpoint setupkvm_loop (pgdir : Z) (ks : list kmap_entry) : M kstate Z :=
  match ks with
  | [] => ret pgdir
  | k :: ks' =>
      r <- mappages pgdir (virt k) (u32 (phys_end k - phys_start k)) (phys_start k) (km_perm k) ;;
      if r <? 0 then freevm pgdir ;; ret 0 else setupkvm_loop pgdir ks'
  end.

Definition setupkvm : M kstate Z :=
  pgdir <- kalloc ;;
  if pgdir =? 0 then ret 0
  else
    memset_page pgdir 0 ;;
    when (DEVSPACE <? P2V PHYSTOP) (panic "PHYSTOP too high") ;;
    setupkvm_loop pgdir kmap.

Definition inituvm (pgdir : Z) (init : list Z) : M kstate unit :=
  when (PGSIZE <=? Z.of_nat (length init)) (panic "inituvm: more than a page") ;;
  mem <- kalloc ;;
  memset_page mem 0 ;;
  _ <- mappages pgdir 0 PGSIZE (V2P mem) (Z.lor PTE_W PTE_U) ;;
  d <- get_page mem ;;
  put_page mem (splice 0 init d).

Definition clearpteu (pgdir uva : Z) : M kstate unit :=
  pte <- walkpgdir pgdir uva false ;;
  when (pte =? 0) (panic "clearpteu") ;;
  e <- load32 pte ;;
  store32 pte (Z.land e (u32 (Z.lnot PTE_U))).

Fixpoint copyuvm_loop (fuel : nat) (pgdir d i sz : Z) : M kstate Z :=
  match fuel with
  | O => hang
  | S fuel' =>
      if sz <=? i then ret d
      else
        pte <- walkpgdir pgdir i false ;;
        when (pte =? 0) (panic "copyuvm: pte should exist") ;;
        e <- load32 pte ;;
        when (Z.land e PTE_P =? 0) (panic "copyuvm: page not present") ;;
        let pa := PTE_ADDR e in
        let flags := PTE_FLAGS e in
        mem <- kalloc ;;
        if mem =? 0 then freevm d ;; ret 0
        else
          src <- get_page (P2V pa) ;;
          put_page mem src ;;
          r <- mappages d i PGSIZE (V2P mem) flags ;;
          if r <? 0 then kfree kend mem ;; freevm d ;; ret 0
          else copyuvm_loop fuel' pgdir d (u32 (i + PGSIZE)) sz
  end.

Definition copyuvm (pgdir sz : Z) : M kstate Z :=
  d <- setupkvm ;;
  if d =? 0 then ret 0
  else copyuvm_loop (S (Z.to_nat (sz / PGSIZE + 1))) pgdir d 0 sz.

Definition uva2ka (pgdir uva : Z) : M kstate Z :=
  pte <- walkpgdir pgdir uva false ;;
  e <- load32 pte ;;
  if Z.land e PTE_P =? 0 then ret 0
  else if Z.land e PTE_U =? 0 then ret 0
  else ret (P2V (PTE_ADDR e)).

(** Copy the bytes [buf] to user address [va]. *)
Fixpoint copyout_loop (fuel : nat) (pgdir va : Z) (buf : list Z) : M kstate Z :=
  match fuel with
  | O => hang
  | S fuel' =>
      match buf with
      | [] => ret 0
      | _ =>
          let va0 := PGROUNDDOWN va in
          pa0 <- uva2ka pgdir va0 ;;
          if pa0 =? 0 then ret (-1)
          else
            let n := Z.min (PGSIZE - (va - va0)) (Z.of_nat (length buf)) in
            d <- get_page pa0 ;;
            put_page pa0 (splice (Z.to_nat (va - va0)) (take (Z.to_nat n) buf) d) ;;
            copyout_loop fuel' pgdir (u32 (va0 + PGSIZE)) (drop (Z.to_nat n) buf)
      end
  end.
(** Every turn copies at least one byte. *)
Definition copyout (pgdir va : Z) (p : list Z) : M kstate Z :=
  copyout_loop (S (length p)) pgdir va p.
End vm.
