(* ===== verification/VmSpec.v ===== *)
(** What the page-table code promises: an address space as a partial map from
    virtual pages to page-table entries, and the effect of every operation on it. *)
From stdpp Require Import base list numbers strings sets gmap.
From Stdlib Require Import ZArith Lia.
From S2P Require Import Prelude Params Machine Spinlock Kalloc KallocSpec Vm.
Local Open Scope Z_scope.
Local Open Scope xv6_scope.

(** * Addresses and entries *)

Lemma land_mask_testbit n : 0 <= n → Z.testbit (u32 (Z.lnot 0xFFF)) n = (12 <=? n) && (n <? 32).
Proof.
  intros Hn. change (u32 (Z.lnot 0xFFF)) with (Z.shiftl (Z.ones 20) 12).
  rewrite Z.shiftl_spec by done. destruct (Z.leb_spec 12 n); cbn.
  - rewrite Z.testbit_ones_nonneg by lia. lia.
  - apply Z.testbit_neg_r. lia.
Qed.

Lemma aligned_low_bits x n : x mod 4096 = 0 → 0 <= n < 12 → Z.testbit x n = false.
Proof.
  intros Hx Hn. rewrite <- (Z.mod_pow2_bits_low x 12 n) by lia. change (2 ^ 12) with 4096.
  rewrite Hx. apply Z.bits_0.
Qed.

Lemma small_high_bits f k n : 0 <= f < 2 ^ k → 0 <= k <= n → Z.testbit f n = false.
Proof.
  intros Hf Hn. rewrite <- (Z.mod_small f (2 ^ k)) by done. apply Z.mod_pow2_bits_high. lia.
Qed.

(** An entry made of a page address and flag bits gives both back. *)
Lemma pte_addr_lor x f :
  x mod 4096 = 0 → 0 <= x < 2 ^ 32 → 0 <= f < 2 ^ 12 → PTE_ADDR (Z.lor x f) = x.
Proof.
  intros Hal Hx Hf. unfold PTE_ADDR.
  assert (u32 (Z.lor x f) = Z.lor x f) as ->.
  { unfold u32. rewrite <- Z.land_ones by lia. apply Z.bits_inj'. intros n Hn.
    rewrite Z.land_spec, Z.testbit_ones_nonneg, Z.lor_spec by lia.
    destruct (Z.ltb_spec n 32); [apply andb_true_r|].
    rewrite (small_high_bits x 32), (small_high_bits f 12) by lia. done. }
  apply Z.bits_inj'. intros n Hn. rewrite Z.land_spec, Z.lor_spec, land_mask_testbit by done.
  destruct (Z.leb_spec 12 n), (Z.ltb_spec n 32); cbn; rewrite ?andb_false_r, ?andb_true_r.
  - by rewrite (small_high_bits f 12), orb_false_r by lia.
  - by rewrite (small_high_bits x 32) by lia.
  - by rewrite aligned_low_bits by lia.
  - by rewrite aligned_low_bits by lia.
Qed.

Lemma pte_flags_lor x f :
  x mod 4096 = 0 → 0 <= x < 2 ^ 32 → 0 <= f < 2 ^ 12 → PTE_FLAGS (Z.lor x f) = f.
Proof.
  intros Hal Hx Hf. unfold PTE_FLAGS. change 0xFFF with (Z.ones 12).
  apply Z.bits_inj'. intros n Hn. rewrite Z.land_spec, Z.testbit_ones_nonneg by lia.
  unfold u32. rewrite <- Z.land_ones, Z.land_spec, Z.testbit_ones_nonneg, Z.lor_spec by lia.
  destruct (Z.ltb_spec n 12).
  - rewrite aligned_low_bits by lia. replace (n <? 32) with true by lia. cbn. by rewrite !andb_true_r.
  - rewrite andb_false_r. by rewrite (small_high_bits f 12) by lia.
Qed.

Lemma pte_present x : Z.land (Z.lor x PTE_P) PTE_P ≠ 0.
Proof.
  intros H. assert (Z.testbit (Z.land (Z.lor x PTE_P) PTE_P) 0 = true) as Ht.
  { rewrite Z.land_spec, Z.lor_spec. cbn. by rewrite orb_true_r. }
  rewrite H in Ht. done.
Qed.

Lemma PDX_range va : 0 <= PDX va < 1024.
Proof. unfold PDX. change 0x3FF with (Z.ones 10). rewrite Z.land_ones by lia. apply Z.mod_pos_bound. lia. Qed.
Lemma PTX_range va : 0 <= PTX va < 1024.
Proof. unfold PTX. change 0x3FF with (Z.ones 10). rewrite Z.land_ones by lia. apply Z.mod_pos_bound. lia. Qed.

Lemma PDX_eq va : 0 <= va < 2 ^ 32 → PDX va = va / 2 ^ 22.
Proof.
  intros H. unfold PDX, PDXSHIFT. change 0x3FF with (Z.ones 10).
  rewrite Z.land_ones, Z.shiftr_div_pow2, u32_small by lia.
  apply Z.mod_small. split; [apply Z.div_pos; lia|]. apply Z.div_lt_upper_bound; lia.
Qed.
Lemma PTX_eq va : 0 <= va < 2 ^ 32 → PTX va = (va / 4096) mod 1024.
Proof.
  intros H. unfold PTX, PTXSHIFT. change 0x3FF with (Z.ones 10).
  by rewrite Z.land_ones, Z.shiftr_div_pow2, u32_small by lia.
Qed.

(** Two addresses with the same indices are in the same page. *)
Lemma PDX_PTX_page va va' :
  0 <= va < 2 ^ 32 → 0 <= va' < 2 ^ 32 → PDX va = PDX va' → PTX va = PTX va' →
  va / 4096 = va' / 4096.
Proof.
  intros H H'. rewrite !PDX_eq, !PTX_eq by done. change (2 ^ 22) with (4096 * 1024).
  rewrite <- !Z.div_div by lia.
  pose proof (Z.div_mod (va / 4096) 1024). pose proof (Z.div_mod (va' / 4096) 1024). lia.
Qed.

Lemma page_of_entry v i : v mod PGSIZE = 0 → 0 <= i < 1024 → page_of (v + 4 * i) = v.
Proof.
  intros Hv Hi. unfold page_of. rewrite <- Z.add_mod_idemp_l, Hv by done.
  rewrite Z.mod_small; unfold PGSIZE; lia.
Qed.
Lemma off_of_entry v i : v mod PGSIZE = 0 → 0 <= i < 1024 → off_of (v + 4 * i) = (4 * Z.to_nat i)%nat.
Proof.
  intros Hv Hi. unfold off_of. rewrite <- Z.add_mod_idemp_l, Hv by done.
  rewrite Z.mod_small; unfold PGSIZE; lia.
Qed.

(** * Address spaces *)

(** Entry [i] of the table in the page [d]. *)
Definition entry (d : list Z) (i : Z) : Z := rd 4 (4 * Z.to_nat i) d.

(** The page table for index [i] of the directory [pgdir], if there is one. *)
Definition table (m : gmap Z (list Z)) (pgdir i : Z) : option Z :=
  d ← m !! pgdir;
  if Z.land (entry d i) PTE_P =? 0 then None else Some (P2V (PTE_ADDR (entry d i))).

(** The entry for [va], if it is present: what the processor's page walk finds. *)
Definition mapping (m : gmap Z (list Z)) (pgdir va : Z) : option Z :=
  t ← table m pgdir (PDX va);
  d ← m !! t;
  if Z.land (entry d (PTX va)) PTE_P =? 0 then None else Some (entry d (PTX va)).

Section spec.
Context (kend : Z) (Hkend : KERNBASE <= kend).
Notation krel := (krel kend).
Notation kpage := (kpage kend).

(** The directory [pgdir] and its tables are different pages, none of them free. *)
Record ptwf (m : gmap Z (list Z)) (pgdir : Z) (free : list Z) : Prop := {
  pw_dir : kpage pgdir;
  pw_dir_used : pgdir ∉ free;
  pw_table : ∀ i t, 0 <= i < 1024 → table m pgdir i = Some t → kpage t ∧ t ∉ free ∧ t ≠ pgdir;
  pw_inj : ∀ i j t, 0 <= i < 1024 → 0 <= j < 1024 →
    table m pgdir i = Some t → table m pgdir j = Some t → i = j;
}.

Record vrel (s : kstate) (pgdir : Z) (free : list Z) : Prop := {
  vr_k : krel s free;
  vr_pt : ptwf (k_mem s) pgdir free;
}.

Lemma entry_wr_same d i x :
  length d = pgsize → 0 <= i < 1024 → entry (wr 4 (4 * Z.to_nat i) x d) i = u32 x.
Proof.
  intros Hd Hi. unfold entry. rewrite rd_wr_same; [done|].
  rewrite Hd. unfold PGSIZE. lia.
Qed.
Lemma entry_wr_other d i j x :
  length d = pgsize → 0 <= i < 1024 → 0 <= j → i ≠ j →
  entry (wr 4 (4 * Z.to_nat i) x d) j = entry d j.
Proof.
  intros Hd Hi Hj Hne. unfold entry. apply rd_wr_other; [lia|]. rewrite Hd. unfold PGSIZE. lia.
Qed.

Lemma entry_zero i : entry (replicate pgsize 0) i = 0.
Proof.
  unfold entry, rd, slice. rewrite drop_replicate, take_replicate.
  generalize (4 `min` (pgsize - 4 * Z.to_nat i))%nat. intros n.
  induction n as [|n IH]; cbn [replicate le_val]; [done|]. by rewrite IH.
Qed.

Lemma load_entry v i c s d :
  k_mem s !! v = Some d → v mod PGSIZE = 0 → 0 <= i < 1024 →
  load32 (v + 4 * i) c s = Ret (entry d i) c s.
Proof.
  intros Hd Hv Hi. rewrite (load32_eq _ _ _ d) by (by rewrite page_of_entry).
  by rewrite off_of_entry.
Qed.

Lemma store_entry v i x c s d :
  k_mem s !! v = Some d → v mod PGSIZE = 0 → 0 <= i < 1024 →
  store32 (v + 4 * i) x c s =
  Ret tt c (set_mem (<[v := wr 4 (4 * Z.to_nat i) x d]> (k_mem s)) s).
Proof.
  intros Hd Hv Hi. rewrite (store32_eq _ _ _ _ d) by (by rewrite page_of_entry).
  by rewrite page_of_entry, off_of_entry.
Qed.

Lemma kpage_mod v : kpage v → v mod PGSIZE = 0.
Proof. by intros (? & _). Qed.

Lemma V2P_range v : kpage v → V2P v mod 4096 = 0 ∧ 0 <= V2P v < 2 ^ 32 ∧ P2V (V2P v) = v.
Proof.
  intros (Hal & Hge & Hlt). unfold V2P, P2V, KERNBASE, PHYSTOP in *.
  rewrite u32_small by lia. split; [|split; [lia|rewrite u32_small; lia]].
  unfold PGSIZE in Hal. rewrite Zminus_mod, Hal. done.
Qed.

(** The directory entry [walkpgdir] makes for a new table. *)
Definition dir_entry (v : Z) : Z := Z.lor (Z.lor (Z.lor (V2P v) PTE_P) PTE_W) PTE_U.

Lemma dir_entry_table v :
  kpage v → u32 (dir_entry v) = dir_entry v ∧ Z.land (dir_entry v) PTE_P ≠ 0 ∧
            P2V (PTE_ADDR (dir_entry v)) = v.
Proof.
  intros Hv. destruct (V2P_range v Hv) as (Hal & Hr & Hp).
  assert (dir_entry v = Z.lor (V2P v) 7) as Hde.
  { unfold dir_entry. rewrite <- !Z.lor_assoc. done. }
  assert (dir_entry v = Z.lor (Z.lor (V2P v) 6) PTE_P) as Hde'.
  { rewrite Hde, <- Z.lor_assoc. done. }
  split; [|split].
  - rewrite Hde. apply u32_small. split; [apply Z.lor_nonneg; lia|].
    destruct (decide (Z.lor (V2P v) 7 = 0)) as [->|]; [done|].
    assert (0 <= Z.lor (V2P v) 7) by (apply Z.lor_nonneg; lia).
    apply Z.log2_lt_pow2; [lia|]. rewrite Z.log2_lor by lia. apply Z.max_lub_lt; [|done].
    destruct (decide (V2P v = 0)) as [->|]; [done|]. apply Z.log2_lt_pow2; lia.
  - rewrite Hde'. apply pte_present.
  - by rewrite Hde, pte_addr_lor by lia.
Qed.

Lemma table_some m pgdir i t :
  table m pgdir i = Some t →
  ∃ d, m !! pgdir = Some d ∧ Z.land (entry d i) PTE_P ≠ 0 ∧ t = P2V (PTE_ADDR (entry d i)).
Proof.
  unfold table. intros H. apply bind_Some in H as (d & Hd & H).
  destruct (Z.eqb_spec (Z.land (entry d i) PTE_P) 0); [done|]. injection H as <-. eauto.
Qed.

Lemma table_none m pgdir i d :
  m !! pgdir = Some d → table m pgdir i = None → Z.land (entry d i) PTE_P = 0.
Proof.
  unfold table. intros ->. cbv [mbind option_bind].
  by destruct (Z.eqb_spec (Z.land (entry d i) PTE_P) 0).
Qed.

Section walk.
Context (pid : Z) (s : kstate) (pgdir : Z) (free : list Z) (HV : vrel s pgdir free).
Notation m := (k_mem s).

Lemma vrel_dir : ∃ d, m !! pgdir = Some d ∧ length d = pgsize.
Proof. apply (kr_mem _ _ _ (vr_k _ _ _ HV)). apply (vr_pt _ _ _ HV). Qed.

Lemma walk_found c va alloc t :
  table m pgdir (PDX va) = Some t → walkpgdir pgdir va alloc c s = Ret (t + 4 * PTX va) c s.
Proof.
  intros Ht. destruct (table_some _ _ _ _ Ht) as (d & Hd & Hp & ->). unfold walkpgdir.
  erewrite bind_eq; [|eapply load_entry; [done|apply kpage_mod, (vr_pt _ _ _ HV)|apply PDX_range]].
  destruct (Z.eqb_spec (Z.land (entry d (PDX va)) PTE_P) 0); done.
Qed.

Lemma walk_missing c va :
  table m pgdir (PDX va) = None → walkpgdir pgdir va false c s = Ret 0 c s.
Proof.
  intros Ht. destruct vrel_dir as (d & Hd & _). unfold walkpgdir.
  erewrite bind_eq; [|eapply load_entry; [done|apply kpage_mod, (vr_pt _ _ _ HV)|apply PDX_range]].
  by rewrite (table_none _ _ _ _ Hd Ht).
Qed.

Lemma walk_nomem va :
  table m pgdir (PDX va) = None → free = [] →
  walkpgdir pgdir va true (cpu0 pid) s = Ret 0 (cpu0 pid) s.
Proof.
  intros Ht Hfree. destruct vrel_dir as (d & Hd & _). unfold walkpgdir.
  erewrite bind_eq; [|eapply load_entry; [done|apply kpage_mod, (vr_pt _ _ _ HV)|apply PDX_range]].
  rewrite (table_none _ _ _ _ Hd Ht). cbn [negb Z.eqb].
  pose proof (vr_k _ _ _ HV) as HK. rewrite Hfree in HK.
  erewrite bind_eq; [|apply (kalloc_spec kend Hkend pid s [] HK)]. done.
Qed.

(** A new page table changes no mapping. *)
Lemma walk_new va v free' :
  table m pgdir (PDX va) = None → free = v :: free' →
  ∃ s', walkpgdir pgdir va true (cpu0 pid) s = Ret (v + 4 * PTX va) (cpu0 pid) s' ∧
    vrel s' pgdir free' ∧ table (k_mem s') pgdir (PDX va) = Some v ∧
    (∀ w, w ≠ v → w ≠ pgdir → k_mem s' !! w = m !! w) ∧
    (∀ va', mapping (k_mem s') pgdir va' = mapping m pgdir va') ∧
    (∀ j, 0 <= j < 1024 →
       table (k_mem s') pgdir j = if decide (j = PDX va) then Some v else table m pgdir j).
Proof.
  intros Ht Hfree. destruct vrel_dir as (d & Hd & Hlen). pose proof HV as [HK HP].
  rewrite Hfree in HK. pose proof (kr_pages _ _ _ HK) as [Hv _]%Forall_cons.
  destruct (kalloc_spec kend Hkend pid s _ HK) as (s1 & Heq1 & HK1 & Hul & Hm1).
  assert (v ≠ pgdir ∧ pgdir ≠ v) as [Hvp Hpv].
  { pose proof (pw_dir_used _ _ _ HP) as Hu. rewrite Hfree, not_elem_of_cons in Hu. by destruct Hu. }
  assert (pgdir ∉ free') as Hpf.
  { pose proof (pw_dir_used _ _ _ HP) as Hu. rewrite Hfree, not_elem_of_cons in Hu. by destruct Hu. }
  assert (v ∉ free') as Hvf by (pose proof (kr_nodup _ _ _ HK) as [? _]%NoDup_cons; done).
  destruct (kr_mem _ _ _ HK v Hv) as (dv & Hdv & _).
  destruct (dir_entry_table v Hv) as (Hu & Hpr & Hpt).
  pose proof (PDX_range va) as Hpdx.
  set (d' := wr 4 (4 * Z.to_nat (PDX va)) (dir_entry v) d).
  set (m' := <[pgdir := d']> (<[v := replicate pgsize 0]> m)).
  exists (set_mem m' s1).
  assert (∀ j, 0 <= j < 1024 → table m' pgdir j = if decide (j = PDX va) then Some v else table m pgdir j)
    as Htab.
  { intros j Hj. unfold table, m'. rewrite lookup_insert_eq, Hd. cbv [mbind option_bind]. unfold d'. case_decide as Hjp.
    - subst j. rewrite entry_wr_same, Hu by done.
      destruct (Z.eqb_spec (Z.land (dir_entry v) PTE_P) 0); [done|by rewrite Hpt].
    - rewrite entry_wr_other by (done || lia). done. }
  split; [|split; [|split; [|split; [|split]]]].
  - unfold walkpgdir.
    erewrite bind_eq; [|eapply load_entry; [done|apply kpage_mod, HP|apply PDX_range]].
    rewrite (table_none _ _ _ _ Hd Ht). cbn [negb Z.eqb]. erewrite bind_eq by done.
    pose proof (kpage_nonzero kend Hkend v Hv). replace (v =? 0) with false by lia.
    unfold memset_page. erewrite bind_eq; [|eapply put_page_eq; by rewrite Hm1].
    fold (dir_entry v). erewrite bind_eq; [|eapply store_entry; [|apply kpage_mod, HP|done]].
    2:{ cbn. rewrite lookup_insert_ne, Hm1 by done. exact Hd. }
    cbn. unfold set_mem, m'. cbn. by rewrite Hm1.
  - split.
    + destruct HK1 as [Hch Hn Hpg Hmem]. split; cbn; [|done|done|].
      * unfold m'. rewrite <- Hm1. apply freechain_insert; [done|].
        by apply freechain_insert.
      * intros w Hw. unfold m'. destruct (decide (w = pgdir)) as [->|].
        { rewrite lookup_insert_eq. eexists. split; [done|]. unfold d'.
          rewrite length_wr; rewrite Hlen; [done|]. unfold PGSIZE. lia. }
        rewrite lookup_insert_ne by done. destruct (decide (w = v)) as [->|].
        { rewrite lookup_insert_eq. eexists. split; [done|apply length_replicate]. }
        rewrite lookup_insert_ne by done. by apply (kr_mem _ _ _ HK).
    + pose proof HP as [Hd1 Hd2 Hd3 Hd4]. rewrite Hfree in *. split; cbn [set_mem k_mem].
      * done.
      * done.
      * intros j t Hj. rewrite Htab by done. case_decide; [by intros [= <-]|].
        intros Hjt. by apply Hd3 in Hjt as (? & [? ?]%not_elem_of_cons & ?).
      * intros i j t Hi Hj. rewrite !Htab by done. repeat case_decide; subst; try done.
        { intros [= <-] Hjt. by apply Hd3 in Hjt as (_ & [? _]%not_elem_of_cons & _). }
        { intros Hit [= <-]. by apply Hd3 in Hit as (_ & [? _]%not_elem_of_cons & _). }
        by apply Hd4.
  - cbn. rewrite Htab by done. by rewrite decide_True.
  - intros w Hw1 Hw2. cbn. unfold m'. by rewrite !lookup_insert_ne.
  - intros va'. cbn [set_mem k_mem]. unfold mapping. rewrite Htab by apply PDX_range. case_decide as Hjp.
    + rewrite Hjp, Ht. cbv [mbind option_bind]. unfold m'. rewrite lookup_insert_ne, lookup_insert_eq by done.
      cbv [mbind option_bind]. by rewrite entry_zero.
    + destruct (table m pgdir (PDX va')) as [t|] eqn:Htt; [|done]. cbv [mbind option_bind].
      apply (pw_table _ _ _ HP) in Htt as (_ & Hnf & Hnp); [|apply PDX_range].
      rewrite Hfree, not_elem_of_cons in Hnf. destruct Hnf as [Htv _].
      unfold m'. by rewrite !lookup_insert_ne by done.
  - exact Htab.
Qed.
End walk.

(** The map of an address space after the entry of the page of [va] was set to [x]. *)
Definition map_upd (va x : Z) (f : Z → option Z) : Z → option Z := λ va',
  if decide (va' / 4096 = va / 4096) then (if Z.land x PTE_P =? 0 then None else Some x) else f va'.

Definition vaddr (va : Z) : Prop := 0 <= va < 2 ^ 32.

Lemma same_page_indices va va' :
  vaddr va → vaddr va' → va / 4096 = va' / 4096 → PDX va = PDX va' ∧ PTX va = PTX va'.
Proof.
  intros H H' Heq. rewrite !PDX_eq, !PTX_eq, Heq by done. split; [|done].
  change (2 ^ 22) with (4096 * 1024). by rewrite <- !Z.div_div, Heq by lia.
Qed.

Section set_pte.
Context (pid : Z) (s : kstate) (pgdir : Z) (free : list Z) (HV : vrel s pgdir free).
Context (va t : Z) (Hva : vaddr va) (Ht : table (k_mem s) pgdir (PDX va) = Some t).

Lemma table_page : kpage t ∧ t ∉ free ∧ t ≠ pgdir ∧ ∃ d, k_mem s !! t = Some d ∧ length d = pgsize.
Proof.
  destruct HV as [HK HP]. destruct (pw_table _ _ _ HP _ _ (PDX_range va) Ht) as (H1 & H2 & H3).
  do 3 (split; [done|]). by apply HK.
Qed.

Lemma read_pte c :
  ∃ e, load32 (t + 4 * PTX va) c s = Ret e c s ∧
       mapping (k_mem s) pgdir va = if Z.land e PTE_P =? 0 then None else Some e.
Proof.
  destruct table_page as (Hkt & _ & _ & d & Hd & _). exists (entry d (PTX va)). split.
  - apply load_entry; [done|by apply kpage_mod|apply PTX_range].
  - unfold mapping. rewrite Ht. cbv [mbind option_bind]. by rewrite Hd.
Qed.

Lemma write_pte c x :
  vaddr x →
  ∃ s', store32 (t + 4 * PTX va) x c s = Ret tt c s' ∧ vrel s' pgdir free ∧
    (∀ va', vaddr va' → mapping (k_mem s') pgdir va' = map_upd va x (mapping (k_mem s) pgdir) va') ∧
    (∀ i, table (k_mem s') pgdir i = table (k_mem s) pgdir i) ∧
    (∀ w, w ≠ t → k_mem s' !! w = k_mem s !! w) ∧ k_use_lock s' = k_use_lock s.
Proof.
  intros Hx. destruct table_page as (Hkt & Htf & Htp & d & Hd & Hlen). pose proof HV as [HK HP].
  pose proof (PTX_range va) as Hptx.
  eexists. split; [eapply store_entry; [done|by apply kpage_mod|done]|].
  set (d' := wr 4 (4 * Z.to_nat (PTX va)) x d).
  assert (∀ i, table (<[t := d']> (k_mem s)) pgdir i = table (k_mem s) pgdir i) as Htab.
  { intros i. unfold table. by rewrite lookup_insert_ne. }
  split; [split|split; [|split; [|split]]]; cbn [set_mem k_mem].
  - destruct HK as [Hch Hn Hpg Hmem]. split; cbn [set_mem k_mem k_freelist]; [|done|done|].
    + by apply freechain_insert.
    + intros w Hw. destruct (decide (w = t)) as [->|].
      * rewrite lookup_insert_eq. eexists. split; [done|]. unfold d'.
        rewrite length_wr; rewrite Hlen; [done|]. unfold PGSIZE. lia.
      * rewrite lookup_insert_ne by done. by apply Hmem.
  - destruct HP as [H1 H2 H3 H4]. split; [done|done| |]; intros *; rewrite !Htab; [apply H3|apply H4].
  - intros va' Hva'. unfold mapping, map_upd. rewrite Htab. case_decide as Hpg.
    + destruct (same_page_indices va va') as [Hd1 Ht1]; [done..|].
      rewrite <- Hd1, <- Ht1, Ht. cbv [mbind option_bind]. rewrite lookup_insert_eq. unfold d'.
      rewrite entry_wr_same by done. by rewrite u32_small.
    + destruct (table (k_mem s) pgdir (PDX va')) as [t'|] eqn:Ht'; [|done]. cbv [mbind option_bind].
      destruct (decide (t' = t)) as [->|Hne].
      * assert (PDX va = PDX va') as Hd1.
        { eapply (pw_inj _ _ _ HP); [apply PDX_range..|done|done]. }
        rewrite lookup_insert_eq, Hd. unfold d'.
        rewrite !entry_wr_other; [done|done|done|apply PTX_range|..]; [].
        intros Ht1. apply Hpg. symmetry. by apply PDX_PTX_page.
      * by rewrite lookup_insert_ne.
  - done.
  - intros w Hw. by rewrite lookup_insert_ne.
  - done.
Qed.
End set_pte.

(** A page of kernel memory that is neither free nor part of the page table. *)
Definition outside (m : gmap Z (list Z)) (pgdir : Z) (free : list Z) (w : Z) : Prop :=
  w ∉ free ∧ w ≠ pgdir ∧ ∀ i, 0 <= i < 1024 → table m pgdir i ≠ Some w.

Lemma PGROUNDDOWN_page va k :
  vaddr va → va mod 4096 = 0 → 0 <= k < 4096 → PGROUNDDOWN (u32 (va + k)) = va.
Proof.
  intros Hva Hal Hk.
  assert (va + k < 2 ^ 32).
  { apply Z.mod_divide in Hal as [q ->]; [|done]. unfold vaddr in Hva. lia. }
  rewrite u32_small by (unfold vaddr in Hva; lia). rewrite PGROUNDDOWN_eq by (unfold vaddr in Hva; lia).
  unfold PGSIZE. rewrite <- Z.add_mod_idemp_l, Hal, Z.add_0_l, Z.mod_small by lia. lia.
Qed.

(** [mappages] for one page: the three outcomes. *)
Section map_page.
Context (pid : Z) (s : kstate) (pgdir : Z) (free : list Z) (HV : vrel s pgdir free).
Context (va pa perm : Z) (Hva : vaddr va) (Hal : va mod 4096 = 0).
Context (Hx : vaddr (Z.lor (Z.lor pa perm) PTE_P)).

Lemma mappages_unfold c :
  mappages pgdir va PGSIZE pa perm c s = mappages_loop 1 pgdir va va pa perm c s.
Proof.
  unfold mappages. pose proof (PGROUNDDOWN_page va 0 Hva Hal ltac:(lia)) as H0.
  rewrite Z.add_0_r in H0. rewrite H0.
  replace (va + PGSIZE - 1) with (va + 4095) by (unfold PGSIZE; lia).
  rewrite PGROUNDDOWN_page by (done || lia). by rewrite Z.sub_diag.
Qed.

Lemma map_page_entry t s1 free1 :
  vrel s1 pgdir free1 → table (k_mem s1) pgdir (PDX va) = Some t →
  mapping (k_mem s1) pgdir va = None →
  walkpgdir pgdir va true (cpu0 pid) s = Ret (t + 4 * PTX va) (cpu0 pid) s1 →
  ∃ s', mappages pgdir va PGSIZE pa perm (cpu0 pid) s = Ret 0 (cpu0 pid) s' ∧ vrel s' pgdir free1 ∧
    (∀ va', vaddr va' → mapping (k_mem s') pgdir va' =
       map_upd va (Z.lor (Z.lor pa perm) PTE_P) (mapping (k_mem s1) pgdir) va') ∧
    (∀ i, table (k_mem s') pgdir i = table (k_mem s1) pgdir i) ∧
    (∀ w, w ≠ t → k_mem s' !! w = k_mem s1 !! w).
Proof.
  intros HV1 Ht Hun Hwalk. rewrite mappages_unfold. cbn [mappages_loop].
  erewrite bind_eq by done.
  destruct (table_page _ _ _ HV1 _ _ Ht) as (Hkt & _). apply (kpage_nonzero kend Hkend) in Hkt.
  pose proof (PTX_range va). replace (t + 4 * PTX va =? 0) with false by lia.
  destruct (read_pte _ _ _ HV1 _ _ Ht (cpu0 pid)) as (e & Hload & He).
  erewrite bind_eq by done. rewrite Hun in He.
  destruct (Z.eqb_spec (Z.land e PTE_P) 0) as [Hz|]; [|done]. cbn [negb].
  rewrite (bind_eq (when false _) _ _ _ tt (cpu0 pid) s1 eq_refl).
  destruct (write_pte _ _ _ HV1 _ _ Hva Ht (cpu0 pid) _ Hx) as (s2 & Hst & HV2 & Hmap & Htab & Hmem & _).
  exists s2. erewrite bind_eq by done. rewrite Z.eqb_refl. done.
Qed.

Lemma map_page_ok :
  mapping (k_mem s) pgdir va = None → is_Some (table (k_mem s) pgdir (PDX va)) ∨ free ≠ [] →
  ∃ s' free', mappages pgdir va PGSIZE pa perm (cpu0 pid) s = Ret 0 (cpu0 pid) s' ∧
    vrel s' pgdir free' ∧ free' `suffix_of` free ∧
    (∀ va', vaddr va' → mapping (k_mem s') pgdir va' =
       map_upd va (Z.lor (Z.lor pa perm) PTE_P) (mapping (k_mem s) pgdir) va') ∧
    (∀ w, outside (k_mem s) pgdir free w →
          k_mem s' !! w = k_mem s !! w ∧ outside (k_mem s') pgdir free' w).
Proof.
  intros Hun Hroom. destruct (table (k_mem s) pgdir (PDX va)) as [t|] eqn:Ht.
  - destruct (map_page_entry t s free HV Ht Hun) as (s' & Heq & HV' & Hmap & Htab & Hmem);
      [by eapply walk_found|].
    exists s', free. do 4 (split; [done|]). intros w (Hwf & Hwd & Hwt).
    split; [apply Hmem; intros ->; by apply (Hwt _ (PDX_range va))|].
    split; [done|]. split; [done|]. intros i Hi. rewrite Htab. by apply Hwt.
  - destruct Hroom as [[t ?]|Hne]; [done|]. destruct free as [|v free'] eqn:Hfr; [done|]. clear Hne.
    rewrite <- Hfr in HV. pose proof HV as HV0. rewrite Hfr in HV.
    destruct (walk_new pid s pgdir (v :: free') HV va v free' Ht eq_refl)
      as (s1 & Hw & HV1 & Ht1 & Hmem1 & Hmap1 & Htab1).
    destruct (map_page_entry v s1 free' HV1 Ht1) as (s' & Heq & HV' & Hmap & Htab & Hmem);
      [by rewrite Hmap1|done|].
    exists s', free'. split; [done|]. split; [done|]. split; [by exists [v]|]. split.
    + intros va' Hva'. rewrite Hmap by done. unfold map_upd. by rewrite Hmap1.
    + intros w ([Hwv Hwf]%not_elem_of_cons & Hwd & Hwt).
      split; [rewrite Hmem, Hmem1 by done; done|]. split; [done|]. split; [done|].
      intros i Hi. rewrite Htab, Htab1 by done. case_decide; [congruence|]. by apply Hwt.
Qed.
End map_page.

(** * User memory *)

(** The kernel address of the page an entry points to. *)
Definition frame (e : Z) : Z := P2V (PTE_ADDR e).

(** An address space: a page table whose user part maps different pages to different
    frames, none of them free or part of the page table. *)
Record aspace (s : kstate) (pgdir : Z) (free : list Z) : Prop := {
  as_v : vrel s pgdir free;
  as_frame : ∀ va e, 0 <= va < KERNBASE → mapping (k_mem s) pgdir va = Some e →
    kpage (frame e) ∧ outside (k_mem s) pgdir free (frame e);
  as_inj : ∀ va va' e e', 0 <= va < KERNBASE → 0 <= va' < KERNBASE →
    mapping (k_mem s) pgdir va = Some e → mapping (k_mem s) pgdir va' = Some e' →
    frame e = frame e' → va / 4096 = va' / 4096;
}.

Lemma user_vaddr va : 0 <= va < KERNBASE → vaddr va.
Proof. unfold vaddr, KERNBASE. lia. Qed.

(** The address space after the frame [v] was freed. *)
Lemma kfree_outside pid s pgdir free v :
  vrel s pgdir free → kpage v → outside (k_mem s) pgdir free v →
  ∃ s', kfree kend v (cpu0 pid) s = Ret tt (cpu0 pid) s' ∧ vrel s' pgdir (v :: free) ∧
    (∀ va, mapping (k_mem s') pgdir va = mapping (k_mem s) pgdir va) ∧
    (∀ i, 0 <= i < 1024 → table (k_mem s') pgdir i = table (k_mem s) pgdir i) ∧
    (∀ w, w ≠ v → k_mem s' !! w = k_mem s !! w).
Proof.
  intros [HK HP] Hv (Hvf & Hvd & Hvt).
  destruct (kfree_spec kend Hkend pid s free v HK Hv Hvf) as (s' & Heq & HK' & _ & Hmem).
  assert (∀ i, table (k_mem s') pgdir i = table (k_mem s) pgdir i) as Htab.
  { intros i. unfold table. by rewrite Hmem. }
  exists s'. split; [done|]. split; [split; [done|]|split; [|split; done]].
  - destruct HP as [H1 H2 H3 H4]. split; [done|by apply not_elem_of_cons| |];
      intros *; rewrite !Htab; [|apply H4].
    intros Hi Ht. destruct (H3 _ _ Hi Ht) as (? & ? & ?). split; [done|]. split; [|done].
    apply not_elem_of_cons. split; [|done]. intros ->. by apply (Hvt _ Hi).
  - intros va. unfold mapping. rewrite Htab.
    destruct (table (k_mem s) pgdir (PDX va)) as [t|] eqn:Ht; [|done]. cbv [mbind option_bind].
    rewrite Hmem; [done|]. intros ->. by apply (Hvt _ (PDX_range va)).
Qed.

(** [deallocuvm]'s treatment of one mapped page. *)
Lemma unmap_page pid s pgdir free va t e :
  aspace s pgdir free → 0 <= va < KERNBASE →
  table (k_mem s) pgdir (PDX va) = Some t → mapping (k_mem s) pgdir va = Some e →
  ∃ s', (kfree kend (P2V (PTE_ADDR e)) ;; store32 (t + 4 * PTX va) 0) (cpu0 pid) s =
          Ret tt (cpu0 pid) s' ∧
    aspace s' pgdir (frame e :: free) ∧
    (∀ va', vaddr va' → mapping (k_mem s') pgdir va' = map_upd va 0 (mapping (k_mem s) pgdir) va') ∧
    (∀ w, outside (k_mem s) pgdir free w → w ≠ frame e →
       k_mem s' !! w = k_mem s !! w ∧ outside (k_mem s') pgdir (frame e :: free) w).
Proof.
  intros [HV Hfr Hinj] Hva Ht He. destruct (Hfr va e Hva He) as [Hk Hout].
  destruct (kfree_outside pid s pgdir free (frame e) HV Hk Hout)
    as (s1 & Heq1 & HV1 & Hmap1 & Htab1 & Hmem1).
  assert (table (k_mem s1) pgdir (PDX va) = Some t) as Ht1 by (rewrite Htab1; [done|apply PDX_range]).
  destruct (write_pte s1 pgdir _ HV1 va t (user_vaddr _ Hva) Ht1 (cpu0 pid) 0 ltac:(done))
    as (s2 & Heq2 & HV2 & Hmap2 & Htab2 & Hmem2 & _).
  assert (∀ va', vaddr va' → mapping (k_mem s2) pgdir va' = map_upd va 0 (mapping (k_mem s) pgdir) va')
    as Hmap.
  { intros va' Hva'. rewrite Hmap2 by done. unfold map_upd. by rewrite Hmap1. }
  assert (∀ w, outside (k_mem s) pgdir free w → w ≠ frame e →
    k_mem s2 !! w = k_mem s !! w ∧ outside (k_mem s2) pgdir (frame e :: free) w) as Hoth.
  { intros w (Hw1 & Hw2 & Hw3) Hne. split.
    - rewrite Hmem2, Hmem1; [done|done|]. intros ->. by apply (Hw3 _ (PDX_range va)).
    - split; [by apply not_elem_of_cons|]. split; [done|]. intros i Hi. rewrite Htab2, Htab1 by done.
      by apply Hw3. }
  exists s2. split; [by erewrite bind_eq|]. split; [|split; done].
  assert (∀ va' e', 0 <= va' < KERNBASE → mapping (k_mem s2) pgdir va' = Some e' →
    mapping (k_mem s) pgdir va' = Some e' ∧ va' / 4096 ≠ va / 4096) as Hsub.
  { intros va' e' Hva'. rewrite Hmap by (by apply user_vaddr). unfold map_upd. by case_decide. }
  split; [done| |].
  - intros va' e' Hva' [He' Hne]%Hsub; [|done]. destruct (Hfr va' e' Hva' He') as [Hk' Hout'].
    split; [done|]. apply Hoth; [done|]. intros Heq. apply Hne. by eapply Hinj.
  - intros va1 va2 e1 e2 H1 H2 [He1 _]%Hsub [He2 _]%Hsub; [|done..]. by apply Hinj.
Qed.
End spec.
