(* ===== verification/VmAlloc.v ===== *)
(** Growing and shrinking user memory: [allocuvm] and [deallocuvm]. *)
From stdpp Require Import base list numbers strings sets gmap.
From Stdlib Require Import ZArith Lia.
From S2P Require Import Prelude Params Machine Spinlock Kalloc KallocSpec Vm VmSpec.
Local Open Scope Z_scope.
Local Open Scope xv6_scope.

(** The jump of [deallocuvm] over a missing page table. *)
Lemma next_table a :
  0 <= a < KERNBASE →
  u32 (u32 (PGADDR (PDX a + 1) 0 0 - PGSIZE) + PGSIZE) = (a / 2 ^ 22 + 1) * 2 ^ 22.
Proof.
  intros Ha. unfold KERNBASE in Ha. rewrite PDX_eq by lia. unfold PGADDR, PDXSHIFT.
  assert (0 <= a / 2 ^ 22 < 512) as Hd.
  { split; [apply Z.div_pos; lia|]. apply Z.div_lt_upper_bound; lia. }
  rewrite Z.shiftl_0_l, !Z.lor_0_r, Z.shiftl_mul_pow2 by lia.
  unfold PGSIZE. rewrite (u32_small ((a / 2 ^ 22 + 1) * 2 ^ 22)) by lia.
  rewrite (u32_small (_ - _)) by lia. rewrite u32_small by lia. lia.
Qed.

(** Addresses of the pages from the page [a] up to [oldsz]. *)
Definition in_range (a oldsz va : Z) : Prop := a <= va ∧ va / 4096 * 4096 < oldsz.

#[global] Instance in_range_dec a oldsz va : Decision (in_range a oldsz va).
Proof. unfold in_range. apply _. Defined.

Lemma in_range_step a oldsz va :
  a mod 4096 = 0 → a < oldsz →
  in_range a oldsz va ↔ va / 4096 = a / 4096 ∨ in_range (a + 4096) oldsz va.
Proof.
  intros Hal Hlt. unfold in_range. apply Z.mod_divide in Hal as [k ->]; [|done].
  rewrite Z.div_mul by done. pose proof (Z.div_mod va 4096). pose proof (Z.mod_pos_bound va 4096).
  lia.
Qed.

Section dealloc.
Context (kend : Z) (Hkend' : KERNBASE < kend) (pid pgdir : Z).
Let Hkend : KERNBASE <= kend := Z.lt_le_incl _ _ Hkend'.
Notation aspace := (aspace kend).
Notation mapping s := (mapping (k_mem s) pgdir).

(** What an unmapping of the pages [a .. oldsz) does to the rest of memory. *)
Definition keeps (s : kstate) (free : list Z) (s' : kstate) (free' : list Z) (P : Z → Prop) : Prop :=
  ∀ w, outside (k_mem s) pgdir free w →
    (∀ va e, 0 <= va < KERNBASE → P va → mapping s va = Some e → frame e ≠ w) →
    k_mem s' !! w = k_mem s !! w ∧ outside (k_mem s') pgdir free' w.

Lemma dealloc_loop_spec fuel s free a oldsz :
  aspace s pgdir free → a mod 4096 = 0 → 0 <= a <= KERNBASE → oldsz <= KERNBASE →
  oldsz <= a + 4096 * (Z.of_nat fuel - 1) → (0 < fuel)%nat →
  ∃ s' freed,
    deallocuvm_loop kend fuel pgdir a oldsz (cpu0 pid) s = Ret tt (cpu0 pid) s' ∧
    aspace s' pgdir (freed ++ free) ∧
    (∀ va, vaddr va → mapping s' va = if decide (in_range a oldsz va) then None else mapping s va) ∧
    keeps s free s' (freed ++ free) (in_range a oldsz).
Proof.
  revert s free a. induction fuel as [|fuel IH]; intros s free a HA Hal Ha Hold Hf Hf0; [lia|].
  cbn [deallocuvm_loop]. destruct (Z.leb_spec oldsz a) as [Hge|Hlt].
  { exists s, []. split; [done|]. split; [done|]. split.
    - intros va Hva. rewrite decide_False; [done|]. unfold in_range.
      apply Z.mod_divide in Hal as [k ->]; [|done].
      pose proof (Z.div_mod va 4096). pose proof (Z.mod_pos_bound va 4096). lia.
    - intros w Hw _. done. }
  assert (0 <= a < KERNBASE) as Hau by lia. pose proof (user_vaddr _ Hau) as Hav.
  destruct (table (k_mem s) pgdir (PDX a)) as [t|] eqn:Ht.
  - pose proof (as_v _ _ _ _ HA) as HV. erewrite bind_eq; [|by eapply walk_found].
    destruct (table_page _ _ _ _ HV _ _ Ht) as (Hkt & _). apply (kpage_nonzero kend Hkend) in Hkt.
    pose proof (PTX_range a). replace (t + 4 * PTX a =? 0) with false by lia.
    destruct (read_pte _ _ _ _ HV _ _ Ht (cpu0 pid)) as (e & Hload & He).
    erewrite bind_eq by done.
    rewrite (u32_small (a + PGSIZE)) by (unfold PGSIZE, KERNBASE in *; lia).
    assert ((a + PGSIZE) mod 4096 = 0 ∧ a + PGSIZE <= KERNBASE) as [Hal' Ha'].
    { unfold PGSIZE, KERNBASE in *. apply Z.mod_divide in Hal as [k ->]; [|done].
      split; [|lia]. by rewrite <- Z.add_mod_idemp_l, Z.mod_mul by done. }
    destruct (Z.eqb_spec (Z.land e PTE_P) 0) as [Hz|Hz]; cbn [negb when].
    + destruct (IH s free (a + PGSIZE)) as (s' & freed & Heq & HA' & Hmap & Hk); try done;
        [unfold PGSIZE in *; lia..|].
      exists s', freed. unfold bind at 1. unfold ret. split; [done|]. split; [done|]. split.
      * intros va Hva. rewrite Hmap by done. pose proof (in_range_step a oldsz va Hal Hlt) as Hst.
        unfold PGSIZE. case_decide as H1; case_decide as H2; try done; [tauto|].
        assert (va / 4096 = a / 4096) as Heqp by tauto.
        destruct (same_page_indices va a Hva Hav Heqp) as [Hd1 Ht1].
        unfold VmSpec.mapping in *. by rewrite Hd1, Ht1, He.
      * intros w Hw Hfr. apply Hk; [done|]. intros va e' Hva Hin. apply Hfr; [done|].
        apply in_range_step; [done|done|]. by right.
    + pose proof He as Hm. destruct (unmap_page kend Hkend pid s pgdir free a t e HA Hau Ht Hm)
        as (s1 & Heq1 & HA1 & Hmap1 & Hk1).
      destruct (as_frame _ _ _ _ HA a e Hau Hm) as [Hkf Hof].
      assert (PTE_ADDR e ≠ 0) as Hpa.
      { intros H0. unfold frame in Hkf. rewrite H0 in Hkf. destruct Hkf as (_ & Hge & _).
        change (P2V 0) with KERNBASE in Hge. lia. }
      destruct (IH s1 (frame e :: free) (a + PGSIZE)) as (s' & freed & Heq & HA' & Hmap & Hk); try done;
        [unfold PGSIZE in *; lia..|].
      exists s', (freed ++ [frame e]). rewrite <- app_assoc. cbn [app]. split; [|split; [done|split]].
      * rewrite (bind_eq _ _ _ _ tt (cpu0 pid) s1); [done|].
        replace (PTE_ADDR e =? 0) with false by lia.
        rewrite (bind_eq (when false _) _ _ _ tt (cpu0 pid) s eq_refl). exact Heq1.
      * intros va Hva. rewrite Hmap, Hmap1 by done. unfold map_upd.
        pose proof (in_range_step a oldsz va Hal Hlt) as Hst. unfold PGSIZE.
        repeat case_decide; try done; tauto.
      * intros w Hw Hfr. assert (w ≠ frame e) as Hwe.
        { intros ->. apply (Hfr a e Hau); [|done|done]. apply in_range_step; [done|done|]. by left. }
        destruct (Hk1 w Hw Hwe) as [Hm1 Ho1]. destruct (Hk w Ho1) as [Hm2 Ho2]; [|split; [congruence|done]].
        intros va e' Hva Hin. rewrite Hmap1 by (by apply user_vaddr). unfold map_upd.
        case_decide; [done|]. apply Hfr; [done|]. apply in_range_step; [done|done|]. by right.
  - erewrite bind_eq; [|eapply walk_missing; [apply HA|done]]. change (0 =? 0) with true. cbv iota.
    rewrite next_table by done. set (a' := (a / 2 ^ 22 + 1) * 2 ^ 22).
    assert (a < a' <= KERNBASE ∧ a + 4096 <= a' ∧ a' mod 4096 = 0) as (Ha' & Hstep & Hal').
    { unfold a', KERNBASE in *. change (2 ^ 22) with (1024 * 4096).
      pose proof (Z.div_mod a (1024 * 4096)). pose proof (Z.mod_pos_bound a (1024 * 4096)).
      assert (a / (1024 * 4096) < 512) by (apply Z.div_lt_upper_bound; lia).
      split; [lia|]. split.
      - apply Z.mod_divide in Hal as [k ->]; [|done]. lia.
      - by rewrite Z.mul_assoc, Z.mod_mul. }
    destruct (IH s free a') as (s' & freed & Heq & HA' & Hmap & Hk); try done; [lia..|].
    assert (∀ va, vaddr va → in_range a oldsz va → ¬ in_range a' oldsz va → mapping s va = None) as Hnone.
    { intros va Hva [Hr1 Hr2] Hnr. unfold VmSpec.mapping.
      assert (PDX va = PDX a) as ->; [|by rewrite Ht].
      rewrite !PDX_eq by done. unfold in_range in Hnr.
      assert (va < a') as Hva' by lia. unfold a' in Hva'.
      pose proof (Z.div_le_mono a va (2 ^ 22) ltac:(lia) Hr1).
      assert (va / 2 ^ 22 < a / 2 ^ 22 + 1); [|lia]. apply Z.div_lt_upper_bound; lia. }
    exists s', freed. split; [done|]. split; [done|]. split.
    + intros va Hva. rewrite Hmap by done. case_decide as H1; case_decide as H2; try done.
      * destruct H2. unfold in_range in *. lia.
      * by rewrite Hnone.
    + intros w Hw Hfr. apply Hk; [done|]. intros va e' Hva Hin. apply Hfr; [done|].
      unfold in_range in *. lia.
Qed.

Lemma PGROUNDUP_bounds x :
  0 <= x <= KERNBASE →
  PGROUNDUP x mod 4096 = 0 ∧ x <= PGROUNDUP x < x + 4096 ∧ PGROUNDUP x <= KERNBASE.
Proof.
  intros Hx. unfold KERNBASE in *. rewrite PGROUNDUP_eq by (unfold PGSIZE; lia). unfold PGSIZE.
  pose proof (Z.mod_pos_bound (x + 4096 - 1) 4096 ltac:(lia)).
  assert ((x + 4096 - 1 - (x + 4096 - 1) mod 4096) mod 4096 = 0) as Hal.
  { by rewrite Zminus_mod_idemp_r, Z.sub_diag. }
  split; [done|]. split; [lia|]. apply Z.mod_divide in Hal as [k Hk]; [|done]. lia.
Qed.

Lemma deallocuvm_spec s free oldsz newsz :
  aspace s pgdir free → 0 <= newsz <= oldsz → oldsz <= KERNBASE →
  ∃ s' freed,
    deallocuvm kend pgdir oldsz newsz (cpu0 pid) s = Ret newsz (cpu0 pid) s' ∧
    aspace s' pgdir (freed ++ free) ∧
    (∀ va, vaddr va → mapping s' va =
       if decide (in_range (PGROUNDUP newsz) oldsz va) then None else mapping s va) ∧
    keeps s free s' (freed ++ free) (in_range (PGROUNDUP newsz) oldsz).
Proof.
  intros HA Hsz Hold. destruct (PGROUNDUP_bounds newsz) as (Hal & Hr & Hk); [lia|].
  unfold deallocuvm. destruct (Z.leb_spec oldsz newsz) as [Hle|Hlt].
  - exists s, []. replace newsz with oldsz in * by lia. split; [done|]. split; [done|]. split.
    + intros va Hva. rewrite decide_False; [done|]. unfold in_range.
      apply Z.mod_divide in Hal as [k Hk']; [|done]. rewrite Hk' in *.
      pose proof (Z.div_mod va 4096). pose proof (Z.mod_pos_bound va 4096). lia.
    + by intros w Hw _.
  - set (fuel := S (Z.to_nat ((oldsz - newsz) / PGSIZE + 1))).
    assert (0 <= (oldsz - newsz) / PGSIZE) by (apply Z.div_pos; unfold PGSIZE; lia).
    pose proof (Z.div_mod (oldsz - newsz) PGSIZE). pose proof (Z.mod_pos_bound (oldsz - newsz) PGSIZE).
    unfold PGSIZE in *.
    destruct (dealloc_loop_spec fuel s free (PGROUNDUP newsz) oldsz) as (s' & freed & Heq & H4);
      try done; [unfold fuel in *; lia..|].
    exists s', freed. erewrite bind_eq by done. done.
Qed.

(** * Allocation *)

(** Writing to a page that is not part of the page table keeps the address space. *)
Lemma put_outside s free v d :
  aspace s pgdir free → kpage kend v → outside (k_mem s) pgdir free v → length d = pgsize →
  let s' := set_mem (<[v := d]> (k_mem s)) s in
  put_page v d (cpu0 pid) s = Ret tt (cpu0 pid) s' ∧ aspace s' pgdir free ∧
  (∀ va, mapping s' va = mapping s va) ∧
  (∀ w, outside (k_mem s) pgdir free w → outside (k_mem s') pgdir free w).
Proof.
  intros [[HK HP] Hfr Hinj] Hv (Hvf & Hvd & Hvt) Hd s'.
  destruct (kr_mem _ _ _ HK v Hv) as (d0 & Hd0 & _).
  assert (∀ i, table (k_mem s') pgdir i = table (k_mem s) pgdir i) as Htab.
  { intros i. unfold table. cbn [s' set_mem k_mem]. by rewrite lookup_insert_ne. }
  assert (∀ va, mapping s' va = mapping s va) as Hmap.
  { intros va. unfold VmSpec.mapping. rewrite Htab.
    destruct (table (k_mem s) pgdir (PDX va)) as [t|] eqn:Ht; [|done]. cbv [mbind option_bind].
    cbn [s' set_mem k_mem]. rewrite lookup_insert_ne; [done|]. intros ->. by apply (Hvt _ (PDX_range va)). }
  assert (∀ w, outside (k_mem s) pgdir free w → outside (k_mem s') pgdir free w) as Hout.
  { intros w (H1 & H2 & H3). split; [done|]. split; [done|]. intros i. rewrite Htab. apply H3. }
  split; [by eapply put_page_eq|]. split; [|split; done]. split; [split| |].
  - destruct HK as [Hch Hn Hpg Hmem]. split; [|done|done|]; cbn [s' set_mem k_mem k_freelist].
    + by apply freechain_insert.
    + intros w Hw. destruct (decide (w = v)) as [->|].
      * rewrite lookup_insert_eq. eauto.
      * rewrite lookup_insert_ne by done. by apply Hmem.
  - destruct HP as [H1 H2 H3 H4]. split; [done|done| |]; intros *; rewrite !Htab; [apply H3|apply H4].
  - intros va e Hva. rewrite Hmap. intros He. destruct (Hfr va e Hva He). auto.
  - intros va va' e e'. rewrite !Hmap. apply Hinj.
Qed.

(** Taking a page from the free list. *)
Lemma kalloc_aspace s v free :
  aspace s pgdir (v :: free) →
  ∃ s', kalloc (cpu0 pid) s = Ret v (cpu0 pid) s' ∧ aspace s' pgdir free ∧ k_mem s' = k_mem s ∧
    kpage kend v ∧ outside (k_mem s') pgdir free v ∧
    (∀ w, outside (k_mem s) pgdir (v :: free) w → outside (k_mem s') pgdir free w) ∧
    (∀ va e, 0 <= va < KERNBASE → mapping s va = Some e → frame e ≠ v).
Proof.
  intros [[HK HP] Hfr Hinj].
  destruct (kalloc_spec kend Hkend pid s _ HK) as (s' & Heq & HK' & _ & Hm).
  pose proof (kr_pages _ _ _ HK) as [Hv _]%Forall_cons.
  pose proof (kr_nodup _ _ _ HK) as [Hvf _]%NoDup_cons.
  assert (∀ w, outside (k_mem s) pgdir (v :: free) w → outside (k_mem s') pgdir free w) as Hout.
  { intros w ([_ H1]%not_elem_of_cons & H2 & H3). rewrite Hm. by split. }
  exists s'. split; [done|]. destruct HP as [H1 [H2a H2]%not_elem_of_cons H3 H4].
  split; [split; [split| |]|split; [done|split; [done|split; [|split; [done|]]]]].
  - done.
  - rewrite Hm. split; [done|done| |done].
    intros i t Hi Ht. by destruct (H3 i t Hi Ht) as (? & [? ?]%not_elem_of_cons & ?).
  - intros va e Hva. rewrite Hm. intros He. destruct (Hfr va e Hva He). rewrite <- Hm. auto.
  - intros va va' e e'. rewrite Hm. apply Hinj.
  - rewrite Hm. split; [done|]. split; [done|]. intros i Hi Ht.
    by destruct (H3 i v Hi Ht) as (_ & [? ?]%not_elem_of_cons & _).
  - intros va e Hva He Heqf. destruct (Hfr va e Hva He) as [_ (Hin & _)].
    rewrite Heqf in Hin. by apply not_elem_of_cons in Hin as [? _].
Qed.

(** The entry for a user page in the frame [v]. *)
Definition user_pte (v : Z) : Z := Z.lor (Z.lor (V2P v) (Z.lor PTE_W PTE_U)) PTE_P.

Lemma user_pte_ok v :
  kpage kend v → vaddr (user_pte v) ∧ Z.land (user_pte v) PTE_P ≠ 0 ∧ frame (user_pte v) = v ∧
    PTE_FLAGS (user_pte v) = Z.lor (Z.lor PTE_W PTE_U) PTE_P.
Proof.
  intros Hv. destruct (V2P_range kend Hkend v Hv) as (Hal & Hr & Hp).
  assert (user_pte v = Z.lor (V2P v) 7) as Heq by (unfold user_pte; by rewrite <- !Z.lor_assoc).
  assert (user_pte v = dir_entry v) as Hde.
  { rewrite Heq. unfold dir_entry. by rewrite <- !Z.lor_assoc. }
  destruct (dir_entry_table kend Hkend v Hv) as (Hu & Hpr & Hpt). rewrite <- Hde in *.
  split; [rewrite <- Hu; apply u32_range|]. split; [done|]. split; [done|].
  rewrite Heq. by apply pte_flags_lor.
Qed.

Lemma map_user_page s free va v :
  aspace s pgdir free → 0 <= va < KERNBASE → va mod 4096 = 0 → mapping s va = None →
  kpage kend v → outside (k_mem s) pgdir free v →
  (∀ va e, 0 <= va < KERNBASE → mapping s va = Some e → frame e ≠ v) →
  mappages pgdir va PGSIZE (V2P v) (Z.lor PTE_W PTE_U) (cpu0 pid) s = Ret (-1) (cpu0 pid) s ∨
  ∃ s' free',
    mappages pgdir va PGSIZE (V2P v) (Z.lor PTE_W PTE_U) (cpu0 pid) s = Ret 0 (cpu0 pid) s' ∧
    aspace s' pgdir free' ∧ free' `suffix_of` free ∧
    (∀ va', vaddr va' → mapping s' va' = map_upd va (user_pte v) (mapping s) va') ∧
    (∀ w, outside (k_mem s) pgdir free w →
          k_mem s' !! w = k_mem s !! w ∧ outside (k_mem s') pgdir free' w).
Proof.
  intros HA Hva Hal Hun Hv Hov Hnf. pose proof HA as [HV Hfr Hinj]. pose proof (user_vaddr _ Hva) as Hvv.
  destruct (user_pte_ok v Hv) as (Hu1 & Hu2 & Hu3 & _).
  destruct (decide (table (k_mem s) pgdir (PDX va) = None ∧ free = [])) as [[Ht Hf]|Hroom].
  { left. rewrite mappages_unfold by done. cbn [mappages_loop].
    erewrite bind_eq; [|by eapply walk_nomem]. done. }
  right. destruct (map_page_ok kend Hkend pid s pgdir free HV va (V2P v) (Z.lor PTE_W PTE_U) Hvv Hal Hu1 Hun)
    as (s' & free' & Heq & HV' & Hsuf & Hmap & Hkeep).
  { destruct (table (k_mem s) pgdir (PDX va)); [by left; eauto|]. right. intros ->. by apply Hroom. }
  exists s', free'. split; [done|]. split; [|split; [done|split; [done|done]]].
  fold (user_pte v) in Hmap.
  assert (∀ va' e, 0 <= va' < KERNBASE → mapping s' va' = Some e →
    (va' / 4096 = va / 4096 ∧ e = user_pte v) ∨ mapping s va' = Some e) as Hsub.
  { intros va' e Hva'. rewrite Hmap by (by apply user_vaddr). unfold map_upd.
    case_decide; [|by right]. destruct (Z.eqb_spec (Z.land (user_pte v) PTE_P) 0); [done|].
    intros [= <-]. by left. }
  split; [done| |].
  - intros va' e Hva' [[_ ->]|He]%Hsub; [| |done].
    + rewrite Hu3. split; [done|]. by apply Hkeep.
    + destruct (Hfr va' e Hva' He) as [Hk Ho]. split; [done|]. by apply Hkeep.
  - intros va1 va2 e1 e2 H1 H2 [[Hp1 ->]|He1]%Hsub [[Hp2 ->]|He2]%Hsub; try done; rewrite ?Hu3.
    + congruence.
    + intros Hbad. by destruct (Hnf va2 e2 H2 He2).
    + intros Hbad. by destruct (Hnf va1 e1 H1 He1).
    + by apply Hinj.
Qed.

(** What a successful [allocuvm] leaves: fresh zeroed pages, writable by the user. *)
Definition fresh_page (s' : kstate) (free : list Z) (va : Z) : Prop :=
  ∃ v, v ∈ free ∧ kpage kend v ∧ mapping s' va = Some (user_pte v) ∧
       k_mem s' !! v = Some (replicate pgsize 0).

Lemma alloc_loop_spec fuel s free a oldsz newsz :
  aspace s pgdir free → a mod 4096 = 0 → PGROUNDUP oldsz <= a → 0 <= oldsz <= newsz → newsz < KERNBASE →
  newsz <= a + 4096 * (Z.of_nat fuel - 1) → (0 < fuel)%nat →
  (∀ va, in_range a newsz va → vaddr va → mapping s va = None) →
  ∃ s' free' r,
    allocuvm_loop kend fuel pgdir a oldsz newsz (cpu0 pid) s = Ret r (cpu0 pid) s' ∧
    aspace s' pgdir free' ∧
    ((r = newsz ∧
      (∀ va, vaddr va → in_range a newsz va → fresh_page s' free va) ∧
      (∀ va, vaddr va → ¬ in_range a newsz va → mapping s' va = mapping s va) ∧
      (∀ w, outside (k_mem s) pgdir free w →
            k_mem s' !! w = k_mem s !! w ∧ outside (k_mem s') pgdir free' w)) ∨
     (r = 0 ∧
      ∀ va, vaddr va → mapping s' va =
        if decide (in_range (PGROUNDUP oldsz) newsz va) then None else mapping s va)).
Proof.
  revert s free a. induction fuel as [|fuel IH]; intros s free a HA Hal Hge Hsz Hnew Hf Hf0 Hun; [lia|].
  destruct (PGROUNDUP_bounds oldsz) as (Halo & Hro & _); [lia|].
  assert (∀ va, in_range a newsz va → in_range (PGROUNDUP oldsz) newsz va) as Hsubr
    by (unfold in_range; lia).
  cbn [allocuvm_loop]. destruct (Z.leb_spec newsz a) as [Hle|Hlt].
  { exists s, free, newsz. split; [done|]. split; [done|]. left. split; [done|].
    assert (∀ va, ¬ in_range a newsz va) as Hno.
    { intros va. unfold in_range. apply Z.mod_divide in Hal as [k ->]; [|done].
      pose proof (Z.div_mod va 4096). pose proof (Z.mod_pos_bound va 4096). lia. }
    split; [intros va _ Hin; by destruct (Hno va)|]. split; [done|]. done. }
  assert (0 <= a < KERNBASE) as Hau by lia. pose proof (user_vaddr _ Hau) as Hav.
  destruct free as [|v free].
  { (* out of memory *)
    erewrite bind_eq; [|apply (kalloc_spec kend Hkend pid s [] (vr_k _ _ _ _ (as_v _ _ _ _ HA)))].
    change (0 =? 0) with true. cbv iota.
    destruct (deallocuvm_spec s [] newsz oldsz HA) as (s' & freed & Heq & HA' & Hmap & _); [lia..|].
    exists s', (freed ++ []), 0. erewrite bind_eq by done. split; [done|]. split; [done|]. by right. }
  destruct (kalloc_aspace s v free HA) as (s1 & Heq1 & HA1 & Hm1 & Hv & Ho1 & Hk1 & Hnf).
  erewrite bind_eq by done. pose proof (kpage_nonzero kend Hkend v Hv).
  replace (v =? 0) with false by lia.
  destruct (put_outside s1 free v (replicate pgsize (u8 0)) HA1 Hv Ho1 ltac:(apply length_replicate))
    as (Heq2 & HA2 & Hmap2 & Hk2).
  set (s2 := set_mem _ s1) in *. change (u8 0) with 0 in *.
  unfold memset_page. erewrite bind_eq by done.
  assert (∀ va, mapping s2 va = mapping s va) as Hmap2'.
  { intros va. rewrite Hmap2. by rewrite Hm1. }
  destruct (map_user_page s2 free a v HA2 Hau Hal) as [Hfail|(s3 & free3 & Heq3 & HA3 & Hsuf & Hmap3 & Hk3)].
  { rewrite Hmap2'. apply Hun; [|done]. apply in_range_step; [done|done|]. by left. }
  { done. }
  { by apply Hk2. }
  { intros va e Hva. rewrite Hmap2'. by apply Hnf. }
  - (* no page for the page table *)
    erewrite bind_eq by done. change (-1 <? 0) with true. cbv iota.
    destruct (deallocuvm_spec s2 free newsz oldsz HA2) as (s' & freed & Heq & HA' & Hmap & Hkp); [lia..|].
    erewrite bind_eq by done.
    destruct (Hkp v (Hk2 _ Ho1)) as [_ Hov].
    { intros va e Hva _. rewrite Hmap2'. by apply Hnf. }
    destruct (kfree_outside kend Hkend pid s' pgdir (freed ++ free) v (as_v _ _ _ _ HA') Hv Hov)
      as (s'' & Heqf & HVf & Hmapf & Htabf & Hmemf).
    exists s'', (v :: freed ++ free), 0. erewrite bind_eq by done. split; [done|]. split.
    + assert (∀ va e, 0 <= va < KERNBASE → mapping s' va = Some e → frame e ≠ v) as Hne.
      { intros va e Hva. rewrite Hmap by (by apply user_vaddr). case_decide; [done|].
        rewrite Hmap2'. by apply Hnf. }
      split; [done| |].
      * intros va e Hva. rewrite Hmapf. intros He.
        destruct (as_frame _ _ _ _ HA' va e Hva He) as [Hke (Ho & Hod & Hot)]. split; [done|].
        split; [apply not_elem_of_cons; split; [by apply (Hne va)|done]|]. split; [done|].
        intros i Hi. rewrite Htabf by done. by apply Hot.
      * intros va va' e e'. rewrite !Hmapf. apply (as_inj _ _ _ _ HA').
    + right. split; [done|]. intros va Hva. rewrite Hmapf, Hmap by done. by rewrite Hmap2'.
  - (* mapped: go on *)
    erewrite bind_eq by done. change (0 <? 0) with false. cbv iota.
    rewrite (u32_small (a + PGSIZE)) by (unfold PGSIZE, KERNBASE in *; lia). unfold PGSIZE.
    destruct (user_pte_ok v Hv) as (Hu1 & Hu2 & Hu3 & _).
    assert (∀ va, vaddr va → va / 4096 = a / 4096 → mapping s3 va = Some (user_pte v)) as Hhere.
    { intros va Hva Hpg. rewrite Hmap3 by done. unfold map_upd. rewrite decide_True by done.
      by destruct (Z.eqb_spec (Z.land (user_pte v) PTE_P) 0). }
    assert (∀ va, vaddr va → va / 4096 ≠ a / 4096 → mapping s3 va = mapping s va) as Hthere.
    { intros va Hva Hpg. rewrite Hmap3 by done. unfold map_upd. rewrite decide_False by done. apply Hmap2'. }
    destruct (IH s3 free3 (a + 4096)) as (s' & free' & r & Heq & HA' & Hres); try done; try lia.
    { by rewrite <- Z.add_mod_idemp_l, Hal. }
    { intros va Hin Hva. assert (va / 4096 ≠ a / 4096) as Hpg.
      { destruct Hin as [Hin _]. apply Z.mod_divide in Hal as [k ->]; [|done].
        rewrite Z.div_mul by done. pose proof (Z.div_mod va 4096). pose proof (Z.mod_pos_bound va 4096). lia. }
      rewrite Hthere by done. apply Hun; [|done]. apply in_range_step; [done|done|]. by right. }
    exists s', free', r. split; [done|]. split; [done|].
    destruct Hres as [(-> & Hin & Hout & Hkeep)|[-> Hmap]].
    + left. split; [done|]. split; [|split].
      * intros va Hva [Hpg|Hr]%in_range_step; [|destruct (Hin va Hva Hr) as (w & Hw & Hrest)|done..].
        -- exists v. split; [apply list_elem_of_here|]. split; [done|].
           destruct (Hk3 v (Hk2 _ Ho1)) as [Hm3 Ho3]. destruct (Hkeep v Ho3) as [Hm4 _].
           split; [|rewrite Hm4, Hm3; unfold s2; cbn; by rewrite lookup_insert_eq].
           rewrite <- (Hhere va Hva Hpg). apply Hout; [done|]. intros [Hr _].
           apply Z.mod_divide in Hal as [k ->]; [|done]. rewrite Z.div_mul in Hpg by done.
           pose proof (Z.div_mod va 4096). pose proof (Z.mod_pos_bound va 4096). lia.
        -- exists w. split; [|exact Hrest]. apply list_elem_of_further. destruct Hsuf as [l ->].
           apply elem_of_app. by right.
      * intros va Hva Hn. rewrite in_range_step in Hn by done.
        rewrite Hout by tauto. apply Hthere; tauto.
      * intros w Hw. pose proof (Hk1 w Hw) as Hw1. destruct (Hk3 w (Hk2 _ Hw1)) as [Hm3 Ho3].
        destruct (Hkeep w Ho3) as [Hm4 Ho4]. split; [|done]. rewrite Hm4, Hm3. unfold s2. cbn.
        rewrite lookup_insert_ne; [by rewrite Hm1|]. intros ->.
        destruct Hw as (Hw & _). by apply not_elem_of_cons in Hw as [? _].
    + right. split; [done|]. intros va Hva. rewrite Hmap by done. case_decide as Hr; [done|].
      apply Hthere; [done|]. intros Hpg. apply Hr, Hsubr. apply in_range_step; [done|done|]. by left.
Qed.
End dealloc.
