(* ===== verification/VmProps.v ===== *)
(** The guarantees of the virtual memory code: growth, shrinking and copying of user
    memory. *)
From stdpp Require Import base list numbers strings sets gmap.
From Stdlib Require Import ZArith Lia.
From S2P Require Import Prelude Params Machine Spinlock Kalloc KallocSpec Vm VmSpec VmAlloc.
Local Open Scope Z_scope.
Local Open Scope xv6_scope.

(** * Copying to user memory *)

(** The byte a user program sees at [va]. *)
Definition ubyte (m : gmap Z (list Z)) (pgdir va : Z) : option Z :=
  e ← mapping m pgdir va;
  d ← m !! frame e;
  d !! Z.to_nat (va mod PGSIZE).

(** The user may access the page of [va]. *)
Definition user_ok (m : gmap Z (list Z)) (pgdir va : Z) : Prop :=
  ∃ e, mapping m pgdir va = Some e ∧ Z.land e PTE_U ≠ 0.

Section copy.
Context (kend : Z) (Hkend' : KERNBASE < kend) (pid pgdir : Z).
Let Hkend : KERNBASE <= kend := Z.lt_le_incl _ _ Hkend'.
Notation aspace := (aspace kend).

Lemma mapping_table m va e : mapping m pgdir va = Some e → ∃ t, table m pgdir (PDX va) = Some t.
Proof. unfold mapping. intros H. apply bind_Some in H as (t & Ht & _). eauto. Qed.

Lemma mapping_present m va e : mapping m pgdir va = Some e → Z.land e PTE_P ≠ 0.
Proof.
  unfold mapping. intros H. apply bind_Some in H as (t & _ & H). apply bind_Some in H as (d & _ & H).
  destruct (Z.eqb_spec (Z.land (entry d (PTX va)) PTE_P) 0); [done|]. by injection H as <-.
Qed.

Lemma uva2ka_ok s free va e :
  aspace s pgdir free → mapping (k_mem s) pgdir va = Some e → Z.land e PTE_U ≠ 0 →
  uva2ka pgdir va (cpu0 pid) s = Ret (frame e) (cpu0 pid) s.
Proof.
  intros HA He Hu. destruct (mapping_table _ _ _ He) as [t Ht]. pose proof (as_v _ _ _ _ HA) as HV.
  unfold uva2ka. erewrite bind_eq; [|by eapply walk_found].
  destruct (read_pte _ _ _ _ HV _ _ Ht (cpu0 pid)) as (e' & Hload & He'). erewrite bind_eq by done.
  rewrite He in He'. destruct (Z.eqb_spec (Z.land e' PTE_P) 0); [done|]. injection He' as ->.
  by destruct (Z.eqb_spec (Z.land e' PTE_U) 0).
Qed.

Lemma copyout_step fuel va buf :
  buf ≠ [] →
  copyout_loop (S fuel) pgdir va buf =
  (pa0 <- uva2ka pgdir (PGROUNDDOWN va) ;;
   if pa0 =? 0 then ret (-1)
   else
     let n := Z.min (PGSIZE - (va - PGROUNDDOWN va)) (Z.of_nat (length buf)) in
     d <- get_page pa0 ;;
     put_page pa0 (splice (Z.to_nat (va - PGROUNDDOWN va)) (take (Z.to_nat n) buf) d) ;;
     copyout_loop fuel pgdir (u32 (PGROUNDDOWN va + PGSIZE)) (drop (Z.to_nat n) buf)).
Proof. by destruct buf. Qed.

Lemma copyout_loop_spec fuel s free va buf :
  aspace s pgdir free → 0 <= va → va + Z.of_nat (length buf) <= KERNBASE →
  (∀ a, va <= a < va + Z.of_nat (length buf) → user_ok (k_mem s) pgdir a) →
  (length buf < fuel)%nat →
  ∃ s', copyout_loop fuel pgdir va buf (cpu0 pid) s = Ret 0 (cpu0 pid) s' ∧ aspace s' pgdir free ∧
    (∀ a, mapping (k_mem s') pgdir a = mapping (k_mem s) pgdir a) ∧
    ∀ a, 0 <= a < KERNBASE → ubyte (k_mem s') pgdir a =
      if decide (va <= a < va + Z.of_nat (length buf)) then buf !! Z.to_nat (a - va)
      else ubyte (k_mem s) pgdir a.
Proof.
  revert s va buf. induction fuel as [|fuel IH]; intros s va buf HA Hva Hend Hok Hf; [lia|].
  destruct (decide (buf = [])) as [->|Hne].
  { exists s. split; [done|]. split; [done|]. split; [done|]. intros a Ha.
    rewrite decide_False; [done|]. cbn. lia. }
  assert (0 < length buf)%nat as Hlen by (destruct buf; [done|cbn; lia]).
  assert (0 <= va < KERNBASE) as Hvu by lia.
  pose proof (Z.mod_pos_bound va PGSIZE ltac:(done)) as Hmod.
  assert (PGROUNDDOWN va = va - va mod PGSIZE) as Hpg.
  { apply PGROUNDDOWN_eq. unfold KERNBASE in *. lia. }
  destruct (Hok va) as (e & He & Hu); [lia|].
  set (va0 := PGROUNDDOWN va) in *. set (off := va mod PGSIZE) in *.
  assert (va0 / 4096 = va / 4096) as Hsame.
  { rewrite Hpg. unfold off, PGSIZE. pose proof (Z.div_mod va 4096).
    replace (va - va mod 4096) with (va / 4096 * 4096) by lia. by apply Z.div_mul. }
  assert (0 <= va0 <= va) as Hva0 by (pose proof (Z.mod_le va PGSIZE); unfold off, PGSIZE in *; lia).
  assert (mapping (k_mem s) pgdir va0 = Some e) as He0.
  { destruct (same_page_indices va0 va) as [Hd Ht]; [unfold vaddr, KERNBASE in *; lia..|done|].
    unfold mapping. by rewrite Hd, Ht. }
  set (n := Z.min (PGSIZE - (va - va0)) (Z.of_nat (length buf))).
  assert (0 < n <= Z.of_nat (length buf) ∧ off + n <= PGSIZE ∧ va - va0 = off) as (Hn & Hoff & Hvo)
    by (unfold n, off in *; lia).
  destruct (as_frame _ _ _ _ HA va e Hvu He) as [Hk Ho].
  destruct (kr_mem _ _ _ (vr_k _ _ _ _ (as_v _ _ _ _ HA)) _ Hk) as (d & Hd & Hdl).
  set (d' := splice (Z.to_nat (va - va0)) (take (Z.to_nat n) buf) d).
  assert (length (take (Z.to_nat n) buf) = Z.to_nat n) as Htl by (rewrite length_take; lia).
  assert (length d' = pgsize) as Hdl'.
  { unfold d'. rewrite length_splice; rewrite ?Htl; rewrite Hdl; unfold PGSIZE in *; lia. }
  destruct (put_outside kend pid pgdir s free (frame e) d' HA Hk Ho Hdl')
    as (Heq1 & HA1 & Hmap1 & _).
  set (s1 := set_mem (<[frame e := d']> (k_mem s)) s) in *.
  assert (∀ a, 0 <= a < KERNBASE → ubyte (k_mem s1) pgdir a =
    if decide (va <= a < va + n) then buf !! Z.to_nat (a - va) else ubyte (k_mem s) pgdir a) as Hub1.
  { intros a Ha. unfold ubyte. rewrite Hmap1.
    destruct (decide (va <= a < va + n)) as [Hin|Hout].
    - assert (a / 4096 = va / 4096) as Hpa.
      { unfold off, PGSIZE in *. pose proof (Z.div_mod va 4096).
        symmetry. apply Z.div_unique with (a - va / 4096 * 4096); lia. }
      destruct (same_page_indices a va) as [Hdx Htx]; [unfold vaddr, KERNBASE in *; lia..|done|].
      assert (mapping (k_mem s) pgdir a = Some e) as -> by (unfold mapping; by rewrite Hdx, Htx).
      cbv [mbind option_bind]. cbn [s1 set_mem k_mem]. rewrite lookup_insert_eq. unfold d'.
      assert (a mod PGSIZE = off + (a - va)) as ->.
      { unfold off, PGSIZE in *. pose proof (Z.div_mod va 4096). pose proof (Z.div_mod a 4096). lia. }
      rewrite Hvo. rewrite lookup_splice_in by (rewrite ?Htl, ?Hdl; unfold PGSIZE in *; lia).
      rewrite lookup_take_lt by lia. f_equal. lia.
    - destruct (mapping (k_mem s) pgdir a) as [e'|] eqn:He'; [|done]. cbv [mbind option_bind].
      cbn [s1 set_mem k_mem]. destruct (decide (frame e' = frame e)) as [Hfe|Hfe].
      + assert (a / 4096 = va / 4096) as Hpa by (by eapply (as_inj _ _ _ _ HA)).
        rewrite Hfe, lookup_insert_eq, Hd. unfold d'. apply lookup_splice_out; rewrite ?Htl, ?Hdl;
          unfold off, PGSIZE in *; [|lia].
        pose proof (Z.div_mod va 4096). pose proof (Z.div_mod a 4096).
        pose proof (Z.mod_pos_bound a 4096). lia.
      + by rewrite lookup_insert_ne. }
  rewrite copyout_step by done. erewrite bind_eq; [|by eapply uva2ka_ok].
  pose proof (kpage_nonzero kend Hkend _ Hk). replace (frame e =? 0) with false by lia.
  cbv zeta. fold va0 n. erewrite bind_eq; [|by apply get_page_eq]. fold d'. erewrite bind_eq by done.
  destruct (decide (n = Z.of_nat (length buf))) as [Hall|Hmore].
  - (* the last page *)
    rewrite (drop_ge buf) by lia. destruct fuel as [|fuel]; [lia|]. cbn [copyout_loop].
    exists s1. split; [done|]. split; [done|]. split; [done|]. intros a Ha.
    rewrite Hub1 by done. by rewrite Hall.
  - assert (va + n = va0 + PGSIZE) as Hnext by (unfold n in *; lia).
    rewrite (u32_small (va0 + PGSIZE)) by (unfold KERNBASE in *; lia).
    destruct (IH s1 (va0 + PGSIZE) (drop (Z.to_nat n) buf)) as (s' & Heq & HA' & Hmap & Hub); try done.
    + lia.
    + rewrite length_drop. lia.
    + intros a Ha. rewrite length_drop in Ha. unfold user_ok. setoid_rewrite Hmap1. apply Hok. lia.
    + rewrite length_drop. lia.
    + exists s'. split; [done|]. split; [done|]. split; [intros a; by rewrite Hmap, Hmap1|].
      intros a Ha. rewrite Hub, length_drop by done.
      destruct (decide (va0 + PGSIZE <= a < _)).
      * rewrite decide_True by lia. rewrite lookup_drop. f_equal. lia.
      * rewrite Hub1 by done. destruct (decide (va <= a < va + n)); [by rewrite decide_True by lia|].
        by rewrite decide_False by lia.
Qed.
End copy.

(** * A small machine: four pages of memory, the first an empty page directory *)

Definition vm_kend : Z := KERNBASE + PHYSTOP - 4 * PGSIZE.
Definition vm_mem : gmap Z (list Z) :=
  list_to_map ((λ i, (vm_kend + PGSIZE * i, replicate pgsize 0)) <$> [0; 1; 2; 3]).
Definition vm_free : list Z := rev (pages (vm_kend + PGSIZE) (KERNBASE + PHYSTOP)).
Definition vm_state : kstate :=
  match freerange_loop vm_kend 4 (vm_kend + PGSIZE) (KERNBASE + PHYSTOP) (cpu0 1) (KState false 0 vm_mem) with
  | Ret _ _ s => s
  | _ => KState false 0 ∅
  end.

Lemma vm_krel : krel vm_kend vm_state vm_free.
Proof.
  destruct (freerange_loop_spec vm_kend ltac:(done) 1 4 (vm_kend + PGSIZE) (KERNBASE + PHYSTOP)
              (KState false 0 vm_mem) []) as (s' & Heq & HR & _);
    [|reflexivity|discriminate|discriminate| | |].
  - split; [done|by apply NoDup_nil|done|]. intros v (Hal & Hge & Hlt).
    assert (∃ i, v = vm_kend + PGSIZE * i ∧ 0 <= i < 4) as (i & -> & Hi).
    { apply Z.mod_divide in Hal as [k ->]; [|done]. unfold vm_kend, KERNBASE, PHYSTOP, PGSIZE in *.
      exists (k - 581628). lia. }
    exists (replicate pgsize 0). split; [|apply length_replicate].
    assert (i = 0 ∨ i = 1 ∨ i = 2 ∨ i = 3) as [-> | [-> | [-> | ->]]] by lia; vm_compute; reflexivity.
  - set_solver.
  - vm_compute. lia.
  - unfold vm_state. rewrite Heq. unfold vm_free. by rewrite app_nil_r in HR.
Qed.

Lemma vm_dir : k_mem vm_state !! vm_kend = Some (replicate pgsize 0).
Proof. vm_compute. reflexivity. Qed.

Lemma vm_table i : table (k_mem vm_state) vm_kend i = None.
Proof. unfold table. rewrite vm_dir. cbv [mbind option_bind]. by rewrite entry_zero. Qed.

Lemma vm_mapping va : mapping (k_mem vm_state) vm_kend va = None.
Proof. unfold mapping. by rewrite vm_table. Qed.

Lemma vm_aspace : aspace vm_kend vm_state vm_kend vm_free.
Proof.
  split; [split; [exact vm_krel|]|..].
  - split.
    + split; [done|]. unfold vm_kend, KERNBASE, PHYSTOP, PGSIZE. lia.
    + apply (bool_decide_unpack _). vm_compute. exact I.
    + intros i t _. by rewrite vm_table.
    + intros i j t _ _. by rewrite vm_table.
  - intros va e _. by rewrite vm_mapping.
  - intros va va' e e' _ _. by rewrite vm_mapping.
Qed.

(** C11: [allocuvm] either grows the address space or leaves it as it was.  On an
    address space whose pages between the two sizes are unmapped it returns; if it
    returns the new size, every page in between maps a frame that was free, is filled
    with zeroes, and is writable by the user, and every other mapping is unchanged;
    if it runs out of memory, for the pages or for a page table, it returns 0 and no
    mapping has changed.  The page table stays well formed in both cases. *)
Theorem allocuvm_grows kend pid pgdir s free oldsz newsz :
  KERNBASE < kend → aspace kend s pgdir free → 0 <= oldsz <= newsz → newsz < KERNBASE →
  (∀ va, vaddr va → in_range (PGROUNDUP oldsz) newsz va → mapping (k_mem s) pgdir va = None) →
  ∃ s' free' r,
    allocuvm kend pgdir oldsz newsz (cpu0 pid) s = Ret r (cpu0 pid) s' ∧
    aspace kend s' pgdir free' ∧
    ((r = newsz ∧
      (∀ va, vaddr va → in_range (PGROUNDUP oldsz) newsz va → fresh_page kend pgdir s' free va) ∧
      (∀ va, vaddr va → ¬ in_range (PGROUNDUP oldsz) newsz va →
         mapping (k_mem s') pgdir va = mapping (k_mem s) pgdir va)) ∨
     (r = 0 ∧ ∀ va, vaddr va → mapping (k_mem s') pgdir va = mapping (k_mem s) pgdir va)).
Proof.
  intros Hkend HA Hsz Hnew Hun. destruct (PGROUNDUP_bounds oldsz) as (Hal & Hr & _); [lia|].
  assert (0 <= (newsz - oldsz) / PGSIZE) by (apply Z.div_pos; unfold PGSIZE; lia).
  pose proof (Z.div_mod (newsz - oldsz) PGSIZE). pose proof (Z.mod_pos_bound (newsz - oldsz) PGSIZE).
  destruct (alloc_loop_spec kend Hkend pid pgdir (S (Z.to_nat ((newsz - oldsz) / PGSIZE + 1)))
              s free (PGROUNDUP oldsz) oldsz newsz) as (s' & free' & r & Heq & HA' & Hres);
    try done; try (unfold PGSIZE in *; lia); [auto|].
  exists s', free', r. split; [|split; [done|]].
  - unfold allocuvm. replace (KERNBASE <=? newsz) with false by lia.
    by replace (newsz <? oldsz) with false by lia.
  - destruct Hres as [(-> & Hin & Hout & _)|[-> Hmap]]; [by left|right].
    split; [done|]. intros va Hva. rewrite Hmap by done. case_decide; [|done]. symmetry. by apply Hun.
Qed.

Lemma allocuvm_grows_witness :
  ∃ s' free' r,
    allocuvm vm_kend vm_kend 0 5000 (cpu0 1) vm_state = Ret r (cpu0 1) s' ∧
    aspace vm_kend s' vm_kend free' ∧
    ((r = 5000 ∧
      (∀ va, vaddr va → in_range (PGROUNDUP 0) 5000 va → fresh_page vm_kend vm_kend s' vm_free va) ∧
      (∀ va, vaddr va → ¬ in_range (PGROUNDUP 0) 5000 va →
         mapping (k_mem s') vm_kend va = mapping (k_mem vm_state) vm_kend va)) ∨
     (r = 0 ∧ ∀ va, vaddr va → mapping (k_mem s') vm_kend va = mapping (k_mem vm_state) vm_kend va)).
Proof.
  apply (allocuvm_grows vm_kend 1 vm_kend vm_state vm_free 0 5000);
    [reflexivity|exact vm_aspace|lia|reflexivity|]. intros va _ _. apply vm_mapping.
Defined.

(** [deallocuvm] unmaps and frees exactly the pages between the two sizes: it
    returns the new size, no page in that range is mapped any more, every other
    mapping is unchanged, and the frames of the unmapped pages (and only new entries)
    are on the free list of a well formed allocator. *)
Theorem deallocuvm_shrinks kend pid pgdir s free oldsz newsz :
  KERNBASE < kend → aspace kend s pgdir free → 0 <= newsz <= oldsz → oldsz <= KERNBASE →
  ∃ s' freed,
    deallocuvm kend pgdir oldsz newsz (cpu0 pid) s = Ret newsz (cpu0 pid) s' ∧
    aspace kend s' pgdir (freed ++ free) ∧
    ∀ va, vaddr va → mapping (k_mem s') pgdir va =
      if decide (in_range (PGROUNDUP newsz) oldsz va) then None else mapping (k_mem s) pgdir va.
Proof.
  intros Hkend HA Hsz Hold.
  destruct (deallocuvm_spec kend Hkend pid pgdir s free oldsz newsz HA Hsz Hold)
    as (s' & freed & Heq & HA' & Hmap & _). eauto.
Qed.

Lemma deallocuvm_shrinks_witness :
  ∃ s' freed,
    deallocuvm vm_kend vm_kend KERNBASE 0 (cpu0 1) vm_state = Ret 0 (cpu0 1) s' ∧
    aspace vm_kend s' vm_kend (freed ++ vm_free) ∧
    ∀ va, vaddr va → mapping (k_mem s') vm_kend va =
      if decide (in_range (PGROUNDUP 0) KERNBASE va) then None
      else mapping (k_mem vm_state) vm_kend va.
Proof.
  apply (deallocuvm_shrinks vm_kend 1 vm_kend vm_state vm_free KERNBASE 0);
    [reflexivity|exact vm_aspace|split; discriminate|discriminate].
Defined.

(** [copyout] writes user memory.  When every byte of the destination is in a
    page the user may access, it returns 0, the user sees the bytes of the buffer
    there, across page boundaries, and every other byte of every mapped page is
    unchanged. *)
Theorem copyout_writes kend pid pgdir s free va buf :
  KERNBASE < kend → aspace kend s pgdir free → 0 <= va → va + Z.of_nat (length buf) <= KERNBASE →
  (∀ a, va <= a < va + Z.of_nat (length buf) → user_ok (k_mem s) pgdir a) →
  ∃ s', copyout pgdir va buf (cpu0 pid) s = Ret 0 (cpu0 pid) s' ∧
    ∀ a, 0 <= a < KERNBASE → ubyte (k_mem s') pgdir a =
      if decide (va <= a < va + Z.of_nat (length buf)) then buf !! Z.to_nat (a - va)
      else ubyte (k_mem s) pgdir a.
Proof.
  intros Hkend HA Hva Hend Hok.
  destruct (copyout_loop_spec kend Hkend pid pgdir (S (length buf)) s free va buf)
    as (s' & Heq & _ & _ & Hub); try done; [lia|]. by exists s'.
Qed.

(** The small machine with two user pages. *)
Definition vm_user : kstate :=
  match allocuvm vm_kend vm_kend 0 8192 (cpu0 1) vm_state with
  | Ret _ _ s => s
  | _ => KState false 0 ∅
  end.

Lemma vm_user_aspace : ∃ free, aspace vm_kend vm_user vm_kend free.
Proof.
  assert (PGROUNDUP 0 = 0) as H0 by reflexivity.
  destruct (alloc_loop_spec vm_kend ltac:(reflexivity) 1 vm_kend 4 vm_state vm_free 0 0 8192)
    as (s' & free' & r & Heq & HA & _);
    [exact vm_aspace|reflexivity|rewrite H0; lia|lia|reflexivity|lia|lia|intros va _ _; apply vm_mapping|].
  exists free'. unfold vm_user, allocuvm.
  change (KERNBASE <=? 8192) with false. change (8192 <? 0) with false. cbv iota.
  change (S (Z.to_nat ((8192 - 0) / PGSIZE + 1))) with 4%nat. rewrite H0.
  rewrite Heq. exact HA.
Qed.

Lemma copyout_writes_witness :
  ∃ s', copyout vm_kend 4094 [1; 2; 3; 4] (cpu0 1) vm_user = Ret 0 (cpu0 1) s' ∧
    ∀ a, 0 <= a < KERNBASE → ubyte (k_mem s') vm_kend a =
      if decide (4094 <= a < 4094 + 4) then [1; 2; 3; 4] !! Z.to_nat (a - 4094)
      else ubyte (k_mem vm_user) vm_kend a.
Proof.
  destruct vm_user_aspace as [free HA].
  apply (copyout_writes vm_kend 1 vm_kend vm_user free 4094 [1; 2; 3; 4]);
    [reflexivity|exact HA|lia|cbn; unfold KERNBASE; lia|].
  intros a Ha. cbn in Ha. unfold user_ok.
  assert (a = 4094 ∨ a = 4095 ∨ a = 4096 ∨ a = 4097) as [-> | [-> | [-> | ->]]] by lia;
    (eexists; split; [vm_compute; reflexivity|vm_compute; discriminate]).
Defined.

(** [uva2ka] does not check the pointer [walkpgdir] returns: for an address whose
    page directory entry is not present it dereferences the null pointer, and so does
    [copyout], where the code elsewhere reports a missing page by returning 0. *)
Theorem uva2ka_null_deref kend pid pgdir s free va buf :
  KERNBASE <= kend → aspace kend s pgdir free → 0 <= va < KERNBASE → buf ≠ [] →
  table (k_mem s) pgdir (PDX va) = None → k_mem s !! 0 = None →
  uva2ka pgdir (PGROUNDDOWN va) (cpu0 pid) s = Fault ∧ copyout pgdir va buf (cpu0 pid) s = Fault.
Proof.
  intros Hkend HA Hva Hne Ht H0.
  assert (PDX (PGROUNDDOWN va) = PDX va) as Hpdx.
  { pose proof (user_vaddr va Hva) as Hvv. rewrite PGROUNDDOWN_eq by exact Hvv.
    pose proof (Z.mod_le va PGSIZE ltac:(lia) ltac:(reflexivity)) as Hle.
    pose proof (Z.mod_pos_bound va PGSIZE ltac:(reflexivity)) as Hpos.
    destruct (same_page_indices (va - va mod PGSIZE) va) as [H _]; [|exact Hvv| |exact H].
    - unfold vaddr in *. revert Hle Hpos. generalize (va mod PGSIZE). intros. lia.
    - rewrite <- (Z.div_mul (va / 4096) 4096) by lia. f_equal.
      pose proof (Z.div_mod va 4096 ltac:(lia)) as Hdm. unfold PGSIZE. lia. }
  assert (uva2ka pgdir (PGROUNDDOWN va) (cpu0 pid) s = Fault) as Huva.
  { unfold uva2ka. erewrite bind_eq; [|eapply walk_missing; [apply HA|by rewrite Hpdx]].
    unfold bind, load32, get_page, bind, get. change (page_of 0) with 0. by rewrite H0. }
  split; [done|]. unfold copyout. rewrite copyout_step by done. unfold bind. by rewrite Huva.
Qed.

Lemma uva2ka_null_deref_witness :
  uva2ka vm_kend (PGROUNDDOWN 0x400000) (cpu0 1) vm_state = Fault ∧
  copyout vm_kend 0x400000 [1] (cpu0 1) vm_state = Fault.
Proof.
  apply (uva2ka_null_deref vm_kend 1 vm_kend vm_state vm_free 0x400000 [1]);
    [discriminate|exact vm_aspace|split; [discriminate|reflexivity]|discriminate|apply vm_table|].
  vm_compute. reflexivity.
Defined.
