(* ===== verification/Ring.v ===== *)
(** Byte queues in a circular array, indexed by 32-bit counters that only ever grow
    and wrap: the representation shared by pipes ([pipe.c]) and by the console's
    input buffer ([console.c]). *)
From stdpp Require Import base list numbers.
From Stdlib Require Import ZArith Lia.
From S2P Require Import Prelude.
Local Open Scope Z_scope.

(** The array [data] of [size] bytes holds the bytes [q], oldest first, between the
    counters [r] and [w]. *)
Record ring (size : Z) (data : list Z) (r w : Z) (q : list Z) : Prop := {
  rg_size : 0 < size;
  rg_div : (size | 2 ^ 32);
  rg_data : length data = Z.to_nat size;
  rg_r : 0 <= r < 2 ^ 32;
  rg_w : w = u32 (r + Z.of_nat (length q));
  rg_len : Z.of_nat (length q) <= size;
  rg_bytes : ∀ k b, q !! k = Some b → data !! Z.to_nat ((r + Z.of_nat k) mod size) = Some b;
}.

Lemma u32_add x k : u32 (u32 x + k) = u32 (x + k).
Proof. unfold u32. apply Zplus_mod_idemp_l. Qed.

Lemma u32_sub x y : u32 (u32 x - y) = u32 (x - y).
Proof. unfold u32. apply Zminus_mod_idemp_l. Qed.

(** Counters less than 2^32 apart are equal only at distance 0. *)
Lemma u32_inj_add r i j :
  0 <= i < 2 ^ 32 → 0 <= j < 2 ^ 32 → u32 (r + i) = u32 (r + j) → i = j.
Proof.
  unfold u32. intros Hi Hj Heq.
  pose proof (Z.div_mod (r + i) (2 ^ 32)). pose proof (Z.div_mod (r + j) (2 ^ 32)).
  pose proof (Z.mod_pos_bound (r + i) (2 ^ 32)). lia.
Qed.

(** [size] divides the range of the counters: wrapping does not move the bytes. *)
Lemma slot_u32 size x : 0 < size → (size | 2 ^ 32) → u32 x mod size = x mod size.
Proof. intros Hs Hd. by apply Z.mod_mod_divide. Qed.

Lemma slot_range size x : 0 < size → (Z.to_nat (x mod size) < Z.to_nat size)%nat.
Proof. intros Hs. pose proof (Z.mod_pos_bound x size Hs). lia. Qed.

Lemma slots_differ size x i j :
  0 <= i < size → 0 <= j < size → i ≠ j → Z.to_nat ((x + i) mod size) ≠ Z.to_nat ((x + j) mod size).
Proof.
  intros Hi Hj Hne Heq. apply Z2Nat.inj in Heq; [|apply Z.mod_pos_bound; lia..].
  pose proof (Z.div_mod (x + i) size ltac:(lia)). pose proof (Z.div_mod (x + j) size ltac:(lia)).
  pose proof (Z.mod_pos_bound (x + i) size ltac:(lia)).
  pose proof (Z.mod_pos_bound (x + j) size ltac:(lia)).
  assert ((x + i) / size = (x + j) / size ∨ (x + i) / size < (x + j) / size ∨ (x + j) / size < (x + i) / size) by lia.
  nia.
Qed.

Section ring.
Context (size : Z).
Implicit Types (data q : list Z).

(** An empty ring. *)
Lemma ring_new data r :
  0 < size → (size | 2 ^ 32) → length data = Z.to_nat size → 0 <= r < 2 ^ 32 → ring size data r r [].
Proof. intros. split; try done; cbn; [|lia]. by rewrite Z.add_0_r, u32_small. Qed.

(** The counters tell an empty ring from a full one, even after they wrapped. *)
Lemma ring_empty data r w q : ring size data r w q → size < 2 ^ 32 → (r =? w) = bool_decide (q = []).
Proof.
  intros [Hs Hd Hl Hr Hw Hle Hb] Hlt. rewrite Hw. case_bool_decide as Hq.
  - subst. cbn. rewrite Z.add_0_r, u32_small by lia. apply Z.eqb_refl.
  - assert (0 < length q)%nat by (destruct q; [done|cbn; lia]).
    apply Z.eqb_neq. rewrite <- (u32_small r) at 1 by lia. rewrite <- (Z.add_0_r r) at 1.
    intros Heq. apply u32_inj_add in Heq; lia.
Qed.

Lemma ring_count data r w q : ring size data r w q → size < 2 ^ 32 → u32 (w - r) = Z.of_nat (length q).
Proof.
  intros [Hs Hd Hl Hr Hw Hle Hb] Hlt. rewrite Hw, u32_sub.
  replace (r + Z.of_nat (length q) - r) with (Z.of_nat (length q)) by lia. apply u32_small. lia.
Qed.

Lemma ring_full data r w q :
  ring size data r w q → size < 2 ^ 32 → (w =? u32 (r + size)) = (Z.of_nat (length q) =? size).
Proof.
  intros [Hs Hd Hl Hr Hw Hle Hb] Hlt. rewrite Hw.
  destruct (Z.eqb_spec (Z.of_nat (length q)) size) as [->|Hne]; [apply Z.eqb_refl|].
  apply Z.eqb_neq. intros Heq. apply u32_inj_add in Heq; lia.
Qed.

(** Storing one byte. *)
Lemma ring_push data r w q b :
  ring size data r w q → Z.of_nat (length q) < size →
  ring size (<[Z.to_nat (w mod size) := b]> data) r (u32 (w + 1)) (q ++ [b]).
Proof.
  intros [Hs Hd Hl Hr Hw Hle Hb] Hlt. split; try done.
  - by rewrite length_insert.
  - rewrite Hw, length_app, u32_add. cbn. f_equal. lia.
  - rewrite length_app. cbn. lia.
  - intros k c Hk. rewrite Hw, slot_u32 by done. destruct (decide (k = length q)) as [->|Hne].
    + rewrite list_lookup_middle in Hk by done. injection Hk as ->.
      apply list_lookup_insert_eq. rewrite Hl. by apply slot_range.
    + pose proof (lookup_lt_Some _ _ _ Hk) as Hlen. rewrite length_app in Hlen. cbn in Hlen.
      rewrite lookup_app_l in Hk by lia. rewrite list_lookup_insert_ne; [by apply Hb|].
      intros Heq. by apply slots_differ in Heq; [|lia..].
Qed.

(** Taking one byte. *)
Lemma ring_pop data r w b q :
  ring size data r w (b :: q) →
  data !! Z.to_nat (r mod size) = Some b ∧ ring size data (u32 (r + 1)) w q.
Proof.
  intros [Hs Hd Hl Hr Hw Hle Hb]. split.
  - specialize (Hb 0%nat b eq_refl). by rewrite Z.add_0_r in Hb.
  - cbn [length] in *. split; try done.
    + apply u32_range.
    + rewrite Hw, u32_add. f_equal. lia.
    + lia.
    + intros k c Hk. specialize (Hb (S k) c Hk).
      rewrite <- Zplus_mod_idemp_l, slot_u32, Zplus_mod_idemp_l by done.
      by replace (r + 1 + Z.of_nat k) with (r + Z.of_nat (S k)) by lia.
Qed.

(** Taking the last byte back. *)
Lemma ring_unpush data r w q b :
  ring size data r w (q ++ [b]) →
  data !! Z.to_nat (u32 (w - 1) mod size) = Some b ∧ ring size data r (u32 (w - 1)) q.
Proof.
  intros [Hs Hd Hl Hr Hw Hle Hb].
  assert (u32 (w - 1) = u32 (r + Z.of_nat (length q))) as Hw1.
  { rewrite Hw, u32_sub, length_app. cbn. f_equal. lia. }
  rewrite Hw1. split.
  - rewrite slot_u32 by done. apply Hb. by rewrite list_lookup_middle.
  - rewrite length_app in *. cbn in *. split; try done; [lia|].
    intros k c Hk. apply Hb. by apply lookup_app_l_Some.
Qed.
End ring.
