(* ===== verification/Pipe.v ===== *)
(** Pipes ([pipe.c]): a bounded queue between processes, with counters that wrap. *)
From stdpp Require Import base list numbers strings relations gmap.
From Stdlib Require Import ZArith Lia.
From S2P Require Import Prelude Machine Spinlock Ring.
Local Open Scope Z_scope.
Local Open Scope xv6_scope.

Definition PIPESIZE : Z := 512.
Abbreviation pipesize := (Z.to_nat PIPESIZE).

(** [struct pipe]; its lock is known by its [lockid]. *)
Record pipe := Pipe {
  p_data : list Z;
  p_nread : Z;
  p_nwrite : Z;
  p_readopen : bool;
  p_writeopen : bool;
}.

(** A critical section of [pipewrite] or [piperead], from the point where it holds
    [p->lock] to the point where it gives the lock up, either returns or goes to
    sleep; [at_ i] is its place in the caller's buffer. *)
Inductive pres :=
| PRet (r : Z)
| PSleep (at_ : nat).

(** * pipewrite *)

(** The [for] loop from index [i] on, with [addr] the rest of the buffer. *)
Fixpoint pipewrite_loop (killed : bool) (n : Z) (addr : list Z) (i : nat) (p : pipe) : pipe * pres :=
  match addr with
  | [] => (p, PRet n)
  | b :: addr' =>
      if p_nwrite p =? u32 (p_nread p + PIPESIZE) then
        (if negb (p_readopen p) || killed then (p, PRet (-1)) else (p, PSleep i))
      else
        pipewrite_loop killed n addr' (S i)
          (Pipe (<[Z.to_nat (p_nwrite p mod PIPESIZE) := b]> (p_data p))
             (p_nread p) (u32 (p_nwrite p + 1)) (p_readopen p) (p_writeopen p))
  end.

(** * piperead *)

(** The copying loop: at most [n] bytes. *)
Fixpoint piperead_copy (n : nat) (p : pipe) : pipe * list Z :=
  match n with
  | O => (p, [])
  | S n' =>
      if p_nread p =? p_nwrite p then (p, [])
      else
        let b := p_data p !!! Z.to_nat (p_nread p mod PIPESIZE) in
        let '(p', l) := piperead_copy n'
          (Pipe (p_data p) (u32 (p_nread p + 1)) (p_nwrite p) (p_readopen p) (p_writeopen p)) in
        (p', b :: l)
  end.

(** The bytes read come with the result. *)
Definition piperead_body (killed : bool) (n : nat) (p : pipe) : pipe * (pres * list Z) :=
  if (p_nread p =? p_nwrite p) && p_writeopen p then
    (if killed then (p, (PRet (-1), [])) else (p, (PSleep 0, [])))
  else
    let '(p', l) := piperead_copy n p in (p', (PRet (Z.of_nat (length l)), l)).

(** * pipeclose *)

(** The new pipe, and whether it was freed. *)
Definition pipeclose_body (writable : bool) (p : pipe) : pipe * bool :=
  let p' := if writable
            then Pipe (p_data p) (p_nread p) (p_nwrite p) (p_readopen p) false
            else Pipe (p_data p) (p_nread p) (p_nwrite p) false (p_writeopen p) in
  (p', negb (p_readopen p') && negb (p_writeopen p')).

(** * The system calls' side: locking, waking and sleeping

    The code runs on any state that has a pipe in it and that knows who sleeps on the
    pipe's channels ([Sleepers]).  [save_i] keeps the local [i] of a writer that goes to
    sleep: it is on the writer's kernel stack. *)
Class HasPipe (T : Type) := {
  the_pipe : T → pipe;
  set_pipe : pipe → T → T;
  save_i : nat → T → T;
}.
(** A pipe by itself: the processes that use it are not modelled. *)
#[global] Instance pipe_alone : HasPipe pipe := {
  the_pipe p := p;
  set_pipe p _ := p;
  save_i _ p := p;
}.

(** [killed] is [myproc()->killed].  A thread that sleeps in [pipewrite] at place [i]
    continues, when woken, with [pipewrite_at] at [i]; one that sleeps in [piperead]
    starts the test of the loop again. *)
Section calls.
Context {T : Type} `{!HasPipe T, !Sleepers T}.
Context (pid_ : Z) (killed : bool).

Definition pipewrite_at (addr : list Z) (i : nat) : M T Z :=
  p <- gets the_pipe ;;
  let '(p', r) := pipewrite_loop killed (Z.of_nat (length addr)) (drop i addr) i p in
  modify (set_pipe p') ;;
  match r with
  | PSleep j =>
      modify (save_i j) ;;
      wakeup (ChPipeR pid_) ;;
      sleep (ChPipeW pid_) (LkPipe pid_) ;;
      ret 0
  | PRet r => when (0 <=? r) (wakeup (ChPipeR pid_)) ;; release (LkPipe pid_) ;; ret r
  end.
Definition pipewrite (addr : list Z) : M T Z :=
  acquire (LkPipe pid_) ;; pipewrite_at addr 0.

Definition piperead_at (n : Z) : M T (Z * list Z) :=
  p <- gets the_pipe ;;
  let '(p', (r, l)) := piperead_body killed (Z.to_nat n) p in
  modify (set_pipe p') ;;
  match r with
  | PSleep _ => sleep (ChPipeR pid_) (LkPipe pid_) ;; ret (0, [])
  | PRet r => when (0 <=? r) (wakeup (ChPipeW pid_)) ;; release (LkPipe pid_) ;; ret (r, l)
  end.
Definition piperead (n : Z) : M T (Z * list Z) :=
  acquire (LkPipe pid_) ;; piperead_at n.

(** [kfree((char* )p)] is the owner's: the result says that the pipe is gone. *)
Definition pipeclose (writable : bool) : M T bool :=
  acquire (LkPipe pid_) ;;
  p <- gets the_pipe ;;
  let '(p', free) := pipeclose_body writable p in
  modify (set_pipe p') ;;
  wakeup (if writable then ChPipeR pid_ else ChPipeW pid_) ;;
  release (LkPipe pid_) ;;
  ret free.

(** ** What the calls do, once they have the lock *)

Lemma pipewrite_at_runs pid addr i s :
  pipewrite_at addr i (cpu1 pid (LkPipe pid_)) s =
  let '(p', r) := pipewrite_loop killed (Z.of_nat (length addr)) (drop i addr) i (the_pipe s) in
  match r with
  | PSleep j => Sleep (ChPipeW pid_) (cpu1 pid LkPtable)
      (fall_asleep (ChPipeW pid_) (wake_all (ChPipeR pid_) (save_i j (set_pipe p' s))))
  | PRet r => Ret r (cpu0 pid) (if 0 <=? r then wake_all (ChPipeR pid_) (set_pipe p' s) else set_pipe p' s)
  end.
Proof.
  unfold pipewrite_at. rewrite (bind_eq _ _ _ _ (the_pipe s) (cpu1 pid (LkPipe pid_)) s) by reflexivity. cbv beta.
  destruct (pipewrite_loop _ _ _ _ _) as [p' [r|j]].
  - rewrite (bind_eq _ _ _ _ tt (cpu1 pid (LkPipe pid_)) (set_pipe p' s)) by reflexivity. destruct (0 <=? r); cbn [when].
    + rewrite (bind_eq _ _ _ _ _ _ _ (wakeup_one pid _ (LkPipe pid_) _ ltac:(done))). by rewrite (bind_eq _ _ _ _ _ _ _ (release_cpu1 _ _ _)).
    + rewrite (bind_eq _ _ _ _ tt (cpu1 pid (LkPipe pid_)) (set_pipe p' s)) by reflexivity. by rewrite (bind_eq _ _ _ _ _ _ _ (release_cpu1 _ _ _)).
  - rewrite (bind_eq _ _ _ _ tt (cpu1 pid (LkPipe pid_)) (set_pipe p' s)) by reflexivity.
    rewrite (bind_eq _ _ _ _ tt (cpu1 pid (LkPipe pid_)) (save_i j (set_pipe p' s))) by reflexivity.
    rewrite (bind_eq _ _ _ _ _ _ _ (wakeup_one pid _ (LkPipe pid_) _ ltac:(done))). unfold bind. by rewrite sleep_one.
Qed.
Lemma pipewrite_runs pid addr s :
  pipewrite addr (cpu0 pid) s = pipewrite_at addr 0 (cpu1 pid (LkPipe pid_)) s.
Proof. unfold pipewrite. by rewrite (bind_eq _ _ _ _ _ _ _ (acquire_cpu0 _ _ _)). Qed.

Lemma piperead_at_runs pid n s :
  piperead_at n (cpu1 pid (LkPipe pid_)) s =
  let '(p', (r, l)) := piperead_body killed (Z.to_nat n) (the_pipe s) in
  match r with
  | PSleep _ => Sleep (ChPipeR pid_) (cpu1 pid LkPtable) (fall_asleep (ChPipeR pid_) (set_pipe p' s))
  | PRet r => Ret (r, l) (cpu0 pid) (if 0 <=? r then wake_all (ChPipeW pid_) (set_pipe p' s) else set_pipe p' s)
  end.
Proof.
  unfold piperead_at. rewrite (bind_eq _ _ _ _ (the_pipe s) (cpu1 pid (LkPipe pid_)) s) by reflexivity. cbv beta.
  destruct (piperead_body _ _ _) as [p' [[r|j] l]].
  - rewrite (bind_eq _ _ _ _ tt (cpu1 pid (LkPipe pid_)) (set_pipe p' s)) by reflexivity. destruct (0 <=? r); cbn [when].
    + rewrite (bind_eq _ _ _ _ _ _ _ (wakeup_one pid _ (LkPipe pid_) _ ltac:(done))). by rewrite (bind_eq _ _ _ _ _ _ _ (release_cpu1 _ _ _)).
    + rewrite (bind_eq _ _ _ _ tt (cpu1 pid (LkPipe pid_)) (set_pipe p' s)) by reflexivity. by rewrite (bind_eq _ _ _ _ _ _ _ (release_cpu1 _ _ _)).
  - rewrite (bind_eq _ _ _ _ tt (cpu1 pid (LkPipe pid_)) (set_pipe p' s)) by reflexivity. unfold bind. by rewrite sleep_one.
Qed.
Lemma piperead_runs pid n s :
  piperead n (cpu0 pid) s = piperead_at n (cpu1 pid (LkPipe pid_)) s.
Proof. unfold piperead. by rewrite (bind_eq _ _ _ _ _ _ _ (acquire_cpu0 _ _ _)). Qed.

Lemma pipeclose_runs pid w s :
  pipeclose w (cpu0 pid) s =
  let '(p', free) := pipeclose_body w (the_pipe s) in
  Ret free (cpu0 pid) (wake_all (if w then ChPipeR pid_ else ChPipeW pid_) (set_pipe p' s)).
Proof.
  unfold pipeclose. rewrite (bind_eq _ _ _ _ _ _ _ (acquire_cpu0 _ _ _)).
  rewrite (bind_eq _ _ _ _ (the_pipe s) (cpu1 pid (LkPipe pid_)) s) by reflexivity. cbv beta.
  destruct (pipeclose_body _ _) as [p' free]. rewrite (bind_eq _ _ _ _ tt (cpu1 pid (LkPipe pid_)) (set_pipe p' s)) by reflexivity.
  rewrite (bind_eq _ _ _ _ _ _ _ (wakeup_one pid _ (LkPipe pid_) _ ltac:(done))). by rewrite (bind_eq _ _ _ _ _ _ _ (release_cpu1 _ _ _)).
Qed.
End calls.

(** * The pipe as a queue *)

(** [p] holds the bytes [q], oldest first. *)
Definition pipe_rel (p : pipe) (q : list Z) : Prop :=
  ring PIPESIZE (p_data p) (p_nread p) (p_nwrite p) q.

Lemma pipe_empty p q : pipe_rel p q → (p_nread p =? p_nwrite p) = bool_decide (q = []).
Proof. intros HR. by apply (ring_empty _ _ _ _ _ HR). Qed.

Lemma pipe_full p q :
  pipe_rel p q → (p_nwrite p =? u32 (p_nread p + PIPESIZE)) = (Z.of_nat (length q) =? PIPESIZE).
Proof. intros HR. by apply (ring_full _ _ _ _ _ HR). Qed.

Lemma pipe_rel_new data : length data = pipesize → pipe_rel (Pipe data 0 0 true true) [].
Proof. intros. apply ring_new; [done| |done|done]. by exists (2 ^ 23). Qed.

Lemma pipe_push p q b :
  pipe_rel p q → Z.of_nat (length q) < PIPESIZE →
  pipe_rel (Pipe (<[Z.to_nat (p_nwrite p mod PIPESIZE) := b]> (p_data p)) (p_nread p)
              (u32 (p_nwrite p + 1)) (p_readopen p) (p_writeopen p)) (q ++ [b]).
Proof. apply ring_push. Qed.

Lemma pipe_pop p b q :
  pipe_rel p (b :: q) →
  p_data p !!! Z.to_nat (p_nread p mod PIPESIZE) = b ∧
  pipe_rel (Pipe (p_data p) (u32 (p_nread p + 1)) (p_nwrite p) (p_readopen p) (p_writeopen p)) q.
Proof. intros [Hb HR]%ring_pop. split; [by apply list_lookup_total_correct|done]. Qed.

(** [pipewrite] stores as much as fits; it is done when all of it did, and otherwise
    fails, if nobody can read any more, or sleeps. *)
Lemma pipewrite_loop_spec killed n addr i p q :
  pipe_rel p q →
  let k := Nat.min (length addr) (pipesize - length q) in
  let '(p', r) := pipewrite_loop killed n addr i p in
  pipe_rel p' (q ++ take k addr) ∧ p_readopen p' = p_readopen p ∧ p_writeopen p' = p_writeopen p ∧
  p_nread p' = p_nread p ∧
  r = if decide (k = length addr) then PRet n
      else if negb (p_readopen p) || killed then PRet (-1) else PSleep (i + k).
Proof.
  revert i p q. induction addr as [|b addr IH]; intros i p q HR; cbn [pipewrite_loop].
  - cbn. by rewrite app_nil_r.
  - rewrite (pipe_full _ _ HR). pose proof (rg_len _ _ _ _ _ HR) as Hl.
    destruct (Z.eqb_spec (Z.of_nat (length q)) PIPESIZE) as [Heq|Hne].
    + assert (pipesize - length q = 0)%nat as -> by (unfold PIPESIZE in *; lia).
      rewrite Nat.min_0_r. cbn [take]. rewrite app_nil_r, Nat.add_0_r.
      destruct (negb (p_readopen p) || killed); rewrite decide_False by (cbn; lia); done.
    + specialize (IH (S i) _ _ (pipe_push p q b HR ltac:(lia))).
      assert (Nat.min (length (b :: addr)) (pipesize - length q) =
              S (Nat.min (length addr) (pipesize - length (q ++ [b])))) as ->.
      { rewrite length_app. cbn [length]. unfold PIPESIZE in *. lia. }
      set (k := Nat.min (length addr) _) in *.
      destruct (pipewrite_loop killed n addr (S i) _) as [p' r]. cbn [p_readopen p_writeopen p_nread] in IH.
      destruct IH as (HR' & Hro & Hwo & Hnr & Hr). cbn [take length]. rewrite <- app_assoc in HR'.
      do 4 (split; [done|]).
      rewrite Hr. replace (S i + k)%nat with (i + S k)%nat by lia.
      destruct (decide (k = length addr)); [rewrite decide_True by lia|rewrite decide_False by lia]; done.
Qed.

Lemma piperead_copy_spec n p q :
  pipe_rel p q →
  let '(p', l) := piperead_copy n p in
  l = take n q ∧ pipe_rel p' (drop n q) ∧ p_readopen p' = p_readopen p ∧ p_writeopen p' = p_writeopen p.
Proof.
  revert p q. induction n as [|n IH]; intros p q HR; cbn [piperead_copy].
  - by rewrite drop_0.
  - rewrite (pipe_empty _ _ HR). case_bool_decide as Hq.
    + by subst.
    + destruct q as [|b q]; [done|]. destruct (pipe_pop p b q HR) as [Hb HR'].
      specialize (IH _ _ HR').
      destruct (piperead_copy n _) as [p' l]. cbn in IH. destruct IH as (-> & HR2 & Ho & Hw).
      rewrite Hb. done.
Qed.

(** * Writers and readers

    Any number of processes use the two ends of one pipe.  A process is inside a call with
    its arguments and, for a writer, its place in them; it sleeps on a channel, or it has
    been woken and will go on. *)
Inductive call := Write (addr : list Z) (i : nat) | Read (n : Z).
Record thread := Thread { t_call : call; t_on : option chan }.

(** The pipe, the process that runs now, the processes inside calls, and (for the
    statements) the bytes that went in and came out. *)
Record psys := PSys {
  ps_pipe : pipe;
  ps_run : nat;
  ps_thr : gmap nat thread;
  ps_sent : list Z;
  ps_got : list Z;
}.

Definition set_thr (m : gmap nat thread) (s : psys) : psys := PSys (ps_pipe s) (ps_run s) m (ps_sent s) (ps_got s).
Definition wake_thread (ch : chan) (t : thread) : thread :=
  if bool_decide (t_on t = Some ch) then Thread (t_call t) None else t.
Definition at_i (i : nat) (t : thread) : thread :=
  match t_call t with Write addr _ => Thread (Write addr i) (t_on t) | Read _ => t end.

#[global] Instance psys_sleepers : Sleepers psys := {
  fall_asleep ch s := set_thr (alter (λ t, Thread (t_call t) (Some ch)) (ps_run s) (ps_thr s)) s;
  wake_all ch s := set_thr (wake_thread ch <$> ps_thr s) s;
}.
#[global] Instance psys_pipe : HasPipe psys := {
  the_pipe := ps_pipe;
  set_pipe p s := PSys p (ps_run s) (ps_thr s) (ps_sent s) (ps_got s);
  save_i i s := set_thr (alter (at_i i) (ps_run s) (ps_thr s)) s;
}.

(** Process [t] runs, inside the call [c]. *)
Definition enter (t : nat) (c : call) (s : psys) : psys :=
  PSys (ps_pipe s) t (<[t := Thread c None]> (ps_thr s)) (ps_sent s) (ps_got s).
(** After the code of process [t] has run: a call that returned is over. *)
Definition sent_by (s : psys) (l : list Z) (s' : psys) : psys :=
  let k := Z.to_nat (u32 (p_nwrite (ps_pipe s') - p_nwrite (ps_pipe s))) in
  PSys (ps_pipe s') (ps_run s') (ps_thr s') (ps_sent s' ++ take k l) (ps_got s').
Definition after_write (t : nat) (l : list Z) (s : psys) (o : out psys Z) : option psys :=
  match o with
  | Ret _ _ s' => Some (sent_by s l (set_thr (delete t (ps_thr s')) s'))
  | Sleep _ _ s' => Some (sent_by s l s')
  | _ => None
  end.
Definition after_read (t : nat) (o : out psys (Z * list Z)) : option psys :=
  match o with
  | Ret (_, l) _ s' => Some (PSys (ps_pipe s') (ps_run s') (delete t (ps_thr s')) (ps_sent s') (ps_got s' ++ l))
  | Sleep _ _ s' => Some s'
  | _ => None
  end.

Definition writing (c : call) : bool := match c with Write _ _ => true | Read _ => false end.

(** The steps of the processes: calls of [pipewrite] and [piperead], calls that go on
    after a wakeup, spurious wakeups ([kill] makes a sleeper runnable), and [pipeclose] of
    an end nobody is using.  [may_kill] says whether processes can be killed while they
    use the pipe, [p] is the pipe's address. *)
Inductive pstep (p : Z) (may_kill : bool) : psys → psys → Prop :=
| pstep_write t pid killed addr s s' :
    (killed = true → may_kill = true) → ps_thr s !! t = None → p_writeopen (ps_pipe s) = true →
    after_write t addr s (pipewrite p killed addr (cpu0 pid) (enter t (Write addr 0) s)) = Some s' →
    pstep p may_kill s s'
| pstep_write_on t pid killed addr i s s' :
    (killed = true → may_kill = true) → ps_thr s !! t = Some (Thread (Write addr i) None) →
    after_write t (drop i addr) s (pipewrite_at p killed addr i (cpu1 pid (LkPipe p)) (enter t (Write addr i) s)) = Some s' →
    pstep p may_kill s s'
| pstep_read t pid killed n s s' :
    (killed = true → may_kill = true) → ps_thr s !! t = None → p_readopen (ps_pipe s) = true →
    after_read t (piperead p killed n (cpu0 pid) (enter t (Read n) s)) = Some s' →
    pstep p may_kill s s'
| pstep_read_on t pid killed n s s' :
    (killed = true → may_kill = true) → ps_thr s !! t = Some (Thread (Read n) None) →
    after_read t (piperead_at p killed n (cpu1 pid (LkPipe p)) (enter t (Read n) s)) = Some s' →
    pstep p may_kill s s'
| pstep_spurious t c ch s :
    ps_thr s !! t = Some (Thread c (Some ch)) →
    pstep p may_kill s (set_thr (<[t := Thread c None]> (ps_thr s)) s)
| pstep_close w pid s free c' s' :
    (∀ t th, ps_thr s !! t = Some th → writing (t_call th) ≠ w) →
    pipeclose p w (cpu0 pid) s = Ret free c' s' →
    pstep p may_kill s s'.

(** A new pipe, over whatever bytes its page had. *)
Definition pipe_new (data : list Z) : pipe := Pipe data 0 0 true true.
Definition psys_init (data : list Z) : psys := PSys (pipe_new data) 0 ∅ [] [].

(** Nobody sleeps who could go on. *)
Definition awake (s : psys) (q : list Z) : Prop :=
  ∀ t c ch, ps_thr s !! t = Some (Thread c (Some ch)) →
    if writing c then length q = pipesize ∧ p_readopen (ps_pipe s) = true
    else q = [] ∧ p_writeopen (ps_pipe s) = true.
(** Everyone sleeps on the channel of his end, and everyone's end is open. *)
Definition placed (p : Z) (s : psys) : Prop :=
  ∀ t c o, ps_thr s !! t = Some (Thread c o) →
    (if writing c then p_writeopen (ps_pipe s) else p_readopen (ps_pipe s)) = true ∧
    ∀ ch, o = Some ch → ch = if writing c then ChPipeW p else ChPipeR p.

Record pinv (p : Z) (may_kill : bool) (s : psys) : Prop := {
  pi_queue : ∃ q, pipe_rel (ps_pipe s) q ∧ ps_sent s = ps_got s ++ q ∧ (may_kill = false → awake s q);
  pi_placed : placed p s;
}.

(** ** The invariant holds *)

(** The processes other than [t], after [t] has run and woken the sleepers on [chs]. *)
Definition others (t : nat) (chs : list chan) (m m' : gmap nat thread) : Prop :=
  ∀ t' c o, t' ≠ t → m' !! t' = Some (Thread c o) →
    ∃ o', m !! t' = Some (Thread c o') ∧ ∀ ch, o = Some ch → o' = Some ch ∧ ch ∉ chs.

Lemma others_insert t th m : others t [] m (<[t := th]> m).
Proof.
  intros t' c o Hne. rewrite lookup_insert_ne by done. intros H. exists o. split; [done|]. intros ch ->.
  split; [done|apply not_elem_of_nil].
Qed.
Lemma others_delete t chs m m' : others t chs m m' → others t chs m (delete t m').
Proof. intros H t' c o Hne. rewrite lookup_delete_ne by done. by apply H. Qed.
Lemma others_alter f t chs m m' : others t chs m m' → others t chs m (alter f t m').
Proof. intros H t' c o Hne. rewrite lookup_alter_ne by done. by apply H. Qed.
Lemma others_wake ch t chs m m' : others t chs m m' → others t (ch :: chs) m (wake_thread ch <$> m').
Proof.
  intros H t' c o Hne. rewrite lookup_fmap. destruct (m' !! t') as [[c0 o0]|] eqn:E; [|done]. cbn. unfold wake_thread. cbn.
  destruct (H t' c0 o0 Hne E) as (o1 & H1 & Ho). case_bool_decide as Hd; intros [= <- <-]; exists o1; split; try done.
  intros ch' ->. destruct (Ho ch' eq_refl) as [-> Hn]. split; [done|]. apply not_elem_of_cons. split; [congruence|done].
Qed.

Section invariant.
Context (p : Z) (mk : bool).

Definition asleep_ok (pp : pipe) (q : list Z) (c : call) : Prop :=
  if writing c then length q = pipesize ∧ p_readopen pp = true else q = [] ∧ p_writeopen pp = true.
Definition end_open (pp : pipe) (c : call) : bool := if writing c then p_writeopen pp else p_readopen pp.
Definition end_chan (c : call) : chan := if writing c then ChPipeW p else ChPipeR p.

(** After a step of process [t] the invariant holds again, if it does for [t] itself, and
    whoever could go on has been woken. *)
Lemma pinv_again s s' t chs q q' :
  pinv p mk s → pipe_rel (ps_pipe s) q → ps_sent s = ps_got s ++ q → (mk = false → awake s q) →
  others t chs (ps_thr s) (ps_thr s') → pipe_rel (ps_pipe s') q' → ps_sent s' = ps_got s' ++ q' →
  p_readopen (ps_pipe s') = p_readopen (ps_pipe s) → p_writeopen (ps_pipe s') = p_writeopen (ps_pipe s) →
  (∀ c o, ps_thr s' !! t = Some (Thread c o) → end_open (ps_pipe s) c = true ∧
     ∀ ch, o = Some ch → ch = end_chan c ∧ (mk = false → asleep_ok (ps_pipe s) q' c)) →
  (mk = false → ChPipeW p ∉ chs → length q = pipesize → length q' = pipesize) →
  (mk = false → ChPipeR p ∉ chs → p_readopen (ps_pipe s) = true → q = [] → q' = []) →
  pinv p mk s'.
Proof using.
  intros [_ Hpl] HR Hs Haw Hoth HR' Hs' Ero Ewo Hown HW HRd. split.
  - exists q'. split; [done|]. split; [done|]. intros Hmk t' c ch Ht'. rewrite Ero, Ewo.
    destruct (decide (t' = t)) as [->|Hne]; [destruct (Hown c (Some ch) Ht') as [_ Hc]; by apply (Hc ch eq_refl)|].
    destruct (Hoth t' c _ Hne Ht') as (o' & Ho' & Hch). destruct (Hch ch eq_refl) as [-> Hn].
    specialize (Haw Hmk t' c ch Ho'). destruct (Hpl t' c _ Ho') as [Hop Hc]. specialize (Hc ch eq_refl).
    destruct (writing c); subst ch; destruct Haw as [H1 H2]; (split; [|done]); [by apply HW|by apply HRd].
  - intros t' c o Ht'. rewrite Ero, Ewo. destruct (decide (t' = t)) as [->|Hne].
    + destruct (Hown c o Ht') as [? Hc]. split; [done|]. intros ch Hch. by apply (Hc ch).
    + destruct (Hoth t' c _ Hne Ht') as (o' & Ho' & Hch). destruct (Hpl t' c _ Ho') as [? Hc]. split; [done|].
      intros ch Ho. destruct (Hch ch Ho) as [-> _]. by apply Hc.
Qed.

Lemma write_inv t pid killed addr i s s' :
  (killed = true → mk = true) → pinv p mk s → p_writeopen (ps_pipe s) = true →
  after_write t (drop i addr) s (pipewrite_at p killed addr i (cpu1 pid (LkPipe p)) (enter t (Write addr i) s)) = Some s' →
  pinv p mk s'.
Proof using.
  intros Hmk HI Hopen. pose proof HI as [(q & HR & Hsent & Haw) Hpl]. rewrite pipewrite_at_runs. cbn [the_pipe psys_pipe enter ps_pipe].
  pose proof (pipewrite_loop_spec killed (Z.of_nat (length addr)) (drop i addr) i _ _ HR) as Hspec.
  cbv zeta in Hspec. destruct (pipewrite_loop _ _ _ _ _) as [p' r].
  set (k := Nat.min (length (drop i addr)) (pipesize - length q)) in *.
  destruct Hspec as (HR' & Hro' & Hwo' & Hnr & Hr).
  assert (k <= length (drop i addr) ∧ k <= 512)%nat as [Hk1 Hk2] by (unfold k, PIPESIZE; lia).
  assert (Z.to_nat (u32 (p_nwrite p' - p_nwrite (ps_pipe s))) = k) as Hk.
  { rewrite (rg_w _ _ _ _ _ HR'), (rg_w _ _ _ _ _ HR), Hnr, length_app, length_take.
    unfold u32. rewrite <- Zminus_mod. rewrite Z.mod_small; lia. }
  assert (ps_sent s ++ take k (drop i addr) = ps_got s ++ q ++ take k (drop i addr)) as Hsent'
    by (by rewrite Hsent, <- app_assoc).
  pose proof (others_insert t (Thread (Write addr i) None) (ps_thr s)) as Hoth.
  assert (length q = pipesize → length (q ++ take k (drop i addr)) = pipesize) as HfullW.
  { intros Hq. rewrite length_app, length_take. unfold k, PIPESIZE in *. lia. }
  rewrite Hr. destruct (decide (k = length (drop i addr))) as [Hall|Hpart].
  - replace (0 <=? Z.of_nat (length addr)) with true by (symmetry; apply Z.leb_le; lia). intros [= <-].
    eapply (pinv_again s _ t [ChPipeR p] q (q ++ take k (drop i addr)) HI HR Hsent Haw);
      cbn [sent_by set_thr wake_all psys_sleepers set_pipe psys_pipe enter ps_pipe ps_run ps_thr ps_sent ps_got];
      rewrite ?Hk; try done.
    + by apply others_delete, others_wake.
    + intros c o. by rewrite lookup_delete_eq.
    + intros _ Hn. exfalso. apply Hn. by left.
  - assert (length (q ++ take k (drop i addr)) = pipesize) as Hfull.
    { rewrite length_app, length_take. pose proof (rg_len _ _ _ _ _ HR). unfold k, PIPESIZE in *. lia. }
    destruct (negb (p_readopen (ps_pipe s)) || killed) eqn:Hfail.
    + change (0 <=? -1) with false. intros [= <-].
      eapply (pinv_again s _ t [] q (q ++ take k (drop i addr)) HI HR Hsent Haw);
        cbn [sent_by set_thr set_pipe psys_pipe enter ps_pipe ps_run ps_thr ps_sent ps_got]; rewrite ?Hk; try done.
      * by apply others_delete.
      * intros c o. by rewrite lookup_delete_eq.
      * intros Hmk0 _ Hro. apply orb_true_iff in Hfail as [Hop|Hkill]; [by rewrite Hro in Hop|].
        apply Hmk in Hkill. congruence.
    + apply orb_false_iff in Hfail as [Hop _]. apply negb_false_iff in Hop. intros [= <-].
      eapply (pinv_again s _ t [ChPipeR p] q (q ++ take k (drop i addr)) HI HR Hsent Haw);
        cbn [sent_by set_thr fall_asleep wake_all save_i psys_sleepers set_pipe psys_pipe enter ps_pipe ps_run ps_thr ps_sent ps_got];
        rewrite ?Hk; try done.
      * by apply others_alter, others_wake, others_alter.
      * intros c o. rewrite lookup_alter_eq, lookup_fmap, lookup_alter_eq, lookup_insert_eq.
        cbn. intros [= <- <-]. split; [done|]. intros ch [= <-]. done.
      * intros _ Hn. exfalso. apply Hn. by left.
Qed.

Lemma read_inv t pid killed n s s' :
  pinv p mk s → p_readopen (ps_pipe s) = true →
  after_read t (piperead_at p killed n (cpu1 pid (LkPipe p)) (enter t (Read n) s)) = Some s' →
  pinv p mk s'.
Proof using.
  intros HI Hopen. pose proof HI as [(q & HR & Hsent & Haw) Hpl]. rewrite piperead_at_runs. cbn [the_pipe psys_pipe enter ps_pipe].
  pose proof (others_insert t (Thread (Read n) None) (ps_thr s)) as Hoth. unfold piperead_body. rewrite (pipe_empty _ _ HR).
  destruct (bool_decide (q = []) && p_writeopen (ps_pipe s)) eqn:Hwait.
  - apply andb_true_iff in Hwait as [->%bool_decide_eq_true Hw]. destruct killed; intros [= <-].
    + eapply (pinv_again s _ t [] [] [] HI HR Hsent Haw); cbn; rewrite ?app_nil_r; try done.
      * by apply others_delete.
      * by rewrite app_nil_r in Hsent.
      * intros c o. by rewrite lookup_delete_eq.
    + eapply (pinv_again s _ t [] [] [] HI HR Hsent Haw); cbn; try done.
      * by apply others_alter.
      * intros c o. rewrite lookup_alter_eq, lookup_insert_eq. cbn. intros [= <- <-]. split; [done|]. intros ch [= <-]. done.
  - pose proof (piperead_copy_spec (Z.to_nat n) _ _ HR) as Hspec.
    destruct (piperead_copy (Z.to_nat n) (ps_pipe s)) as [p' l]. destruct Hspec as (-> & HR' & Hro' & Hwo').
    replace (0 <=? Z.of_nat (length (take (Z.to_nat n) q))) with true by (symmetry; apply Z.leb_le; lia). intros [= <-].
    eapply (pinv_again s _ t [ChPipeW p] q (drop (Z.to_nat n) q) HI HR Hsent Haw);
      cbn [set_thr wake_all psys_sleepers set_pipe psys_pipe enter ps_pipe ps_run ps_thr ps_sent ps_got]; try done.
    + by apply others_delete, others_wake.
    + by rewrite Hsent, <- app_assoc, take_drop.
    + intros c o. by rewrite lookup_delete_eq.
    + intros _ Hn. exfalso. apply Hn. by left.
    + intros _ _ _ ->. by rewrite drop_nil.
Qed.

Lemma close_inv w pid s free c' s' :
  (∀ t th, ps_thr s !! t = Some th → writing (t_call th) ≠ w) → pinv p mk s →
  pipeclose p w (cpu0 pid) s = Ret free c' s' → pinv p mk s'.
Proof using.
  intros Hno [(q & HR & Hsent & Haw) Hpl]. rewrite pipeclose_runs. cbn [pipeclose_body the_pipe psys_pipe]. intros [= _ _ <-].
  assert (∀ t c o, (wake_thread (if w then ChPipeR p else ChPipeW p) <$> ps_thr s) !! t = Some (Thread c o) →
    writing c = negb w ∧ o = None ∧ end_open (ps_pipe s) c = true) as Hth.
  { intros t c o. rewrite lookup_fmap. destruct (ps_thr s !! t) as [[c0 o0]|] eqn:E; [|done]. cbn. unfold wake_thread. cbn.
    specialize (Hno t _ E). cbn in Hno. destruct (Hpl t c0 o0 E) as [Hop Hch]. assert (writing c0 = negb w) as Hw by (by destruct (writing c0), w).
    case_bool_decide as Hd; intros [= <- <-]; (split; [done|split; [|done]]); [done|].
    destruct o0 as [ch|]; [|done]. specialize (Hch ch eq_refl). rewrite Hw in Hch. destruct w; cbn in *; congruence. }
  split; cbn [set_thr wake_all psys_sleepers set_pipe psys_pipe ps_pipe ps_thr ps_sent ps_got].
  - exists q. split; [by destruct w, HR|]. split; [done|]. intros _ t c ch Ht. by destruct (Hth t c _ Ht) as (_ & ? & _).
  - intros t c o Ht. destruct (Hth t c o Ht) as (Hw & -> & Hop). split; [|done]. unfold end_open in Hop. rewrite Hw in *. by destruct w.
Qed.

Lemma pinv_step s s' : pinv p mk s → pstep p mk s s' → pinv p mk s'.
Proof using.
  intros HI Hst. destruct Hst as [t pid killed addr s s' Hk Ht Ho Hw|t pid killed addr i s s' Hk Ht Hw|t pid killed n s s' Hk Ht Ho Hr|
    t pid killed n s s' Hk Ht Hr|t c ch s Ht|w pid s free c' s' Hno Hc].
  - rewrite pipewrite_runs in Hw. by eapply (write_inv t pid killed addr 0).
  - eapply (write_inv t pid killed addr i); [done|done| |done]. by destruct (pi_placed _ _ _ HI _ _ _ Ht).
  - rewrite piperead_runs in Hr. by eapply read_inv.
  - eapply read_inv; [done| |done]. by destruct (pi_placed _ _ _ HI _ _ _ Ht).
  - destruct HI as [(q & HR & Hsent & Haw) Hpl]. split; cbn.
    + exists q. split; [done|]. split; [done|]. intros Hmk t' c' ch'. cbn. rewrite lookup_insert. case_decide; [done|]. by apply Haw.
    + intros t' c' o'. cbn. rewrite lookup_insert. case_decide; [|by apply Hpl]. intros [= <- <-]. split; [by apply (Hpl t c _ Ht)|done].
  - by eapply close_inv.
Qed.

Lemma pinv_reach data s :
  length data = pipesize → rtc (pstep p mk) (psys_init data) s → pinv p mk s.
Proof using.
  intros Hlen Hr. assert (pinv p mk (psys_init data)) as Hi.
  { split; [exists []; split; [by apply pipe_rel_new|done]|done]. }
  revert Hi. induction Hr; [done|]. eauto using pinv_step.
Qed.
End invariant.

(** * Properties *)

(** C16: Pipes are first-in first-out.  Whatever the interleaving of writes, reads,
    waits, kills and closes by any number of processes, and however often the 32-bit
    counters have wrapped, the bytes that came out are a prefix of the bytes that went
    in, in order, and at most [PIPESIZE] bytes are in between. *)
Theorem pipe_fifo p mk data s :
  length data = pipesize → rtc (pstep p mk) (psys_init data) s →
  ∃ q, ps_sent s = ps_got s ++ q ∧ (length q <= pipesize)%nat ∧ pipe_rel (ps_pipe s) q.
Proof.
  intros Hlen Hr. destruct (pinv_reach p mk data s Hlen Hr) as [(q & HR & Hs & _) _].
  exists q. split; [done|]. split; [|done]. pose proof (rg_len _ _ _ _ _ HR). lia.
Qed.

(** Runs: process 1 writes, process 2 reads. *)
Definition do_write (t : nat) (killed : bool) (addr : list Z) (s : psys) : psys :=
  default s (after_write t addr s (pipewrite 0 killed addr (cpu0 1) (enter t (Write addr 0) s))).
Definition do_read (t : nat) (killed : bool) (n : Z) (s : psys) : psys :=
  default s (after_read t (piperead 0 killed n (cpu0 1) (enter t (Read n) s))).
Definition new_sys : psys := psys_init (replicate pipesize 0).

Lemma pipe_fifo_witness :
  let s := do_read 2 false 3 (do_write 1 false [7; 8; 9; 10] new_sys) in
  ps_got s = [7; 8; 9] ∧
  ∃ q, ps_sent s = ps_got s ++ q ∧ (length q <= pipesize)%nat ∧ pipe_rel (ps_pipe s) q.
Proof.
  intros s. split; [vm_compute; reflexivity|].
  apply (pipe_fifo 0 false (replicate pipesize 0)); [reflexivity|].
  eapply rtc_l; [apply (pstep_write 0 false 1 1 false [7; 8; 9; 10] _ (do_write 1 false [7; 8; 9; 10] new_sys)); vm_compute; done|].
  eapply rtc_l; [apply (pstep_read 0 false 2 1 false 3 _ s); vm_compute; done|]. apply rtc_refl.
Defined.

(** C29: No lost wakeups.  Any number of processes write to and read from a pipe.  As long
    as nobody is killed inside the pipe, a writer is asleep only while the pipe is full and
    its read end open, and a reader only while the pipe is empty and its write end open; so
    no writer and reader wait for each other. *)
Theorem pipe_no_lost_wakeup p data s :
  length data = pipesize → rtc (pstep p false) (psys_init data) s →
  ∃ q, pipe_rel (ps_pipe s) q ∧
    (∀ t addr i ch, ps_thr s !! t = Some (Thread (Write addr i) (Some ch)) →
       length q = pipesize ∧ p_readopen (ps_pipe s) = true) ∧
    (∀ t n ch, ps_thr s !! t = Some (Thread (Read n) (Some ch)) → q = [] ∧ p_writeopen (ps_pipe s) = true) ∧
    ¬ (∃ t addr i ch t' n ch', ps_thr s !! t = Some (Thread (Write addr i) (Some ch)) ∧
         ps_thr s !! t' = Some (Thread (Read n) (Some ch'))).
Proof.
  intros Hlen Hr. destruct (pinv_reach p false data s Hlen Hr) as [(q & HR & _ & Haw) _].
  specialize (Haw eq_refl). exists q. split; [done|]. split; [|split].
  - intros t addr i ch Ht. exact (Haw _ _ _ Ht).
  - intros t n ch Ht. exact (Haw _ _ _ Ht).
  - intros (t & addr & i & ch & t' & n & ch' & H1 & H2). destruct (Haw _ _ _ H1) as [Hfull _].
    destruct (Haw _ _ _ H2) as [-> _]. done.
Qed.

(** A reader sleeps on the empty pipe; the writer, whose 600 bytes do not fit, wakes it
    and sleeps: only the writer is asleep. *)
Lemma pipe_no_lost_wakeup_witness :
  let s := do_write 1 false (replicate 600 1) (do_read 2 false 5 new_sys) in
  ps_thr s !! 2%nat = Some (Thread (Read 5) None) ∧
  ps_thr s !! 1%nat = Some (Thread (Write (replicate 600 1) 512) (Some (ChPipeW 0))) ∧
  ∃ q, pipe_rel (ps_pipe s) q ∧ length q = pipesize.
Proof.
  intros s. split; [vm_compute; reflexivity|]. split; [vm_compute; reflexivity|].
  destruct (pipe_no_lost_wakeup 0 (replicate pipesize 0) s) as (q & HR & Hw & _); [reflexivity| |].
  - eapply rtc_l; [apply (pstep_read 0 false 2 1 false 5 _ (do_read 2 false 5 new_sys)); vm_compute; done|].
    eapply rtc_l; [apply (pstep_write 0 false 1 1 false (replicate 600 1) _ s); vm_compute; done|]. apply rtc_refl.
  - exists q. split; [exact HR|]. apply (Hw 1%nat (replicate 600 1) 512%nat (ChPipeW 0)). vm_compute. reflexivity.
Defined.

(** A killed writer loses a wakeup.  A reader sleeps on the empty pipe; a process
    that was killed writes more than fits.  It fills the pipe and returns -1 without
    waking the reader, which stays asleep although 512 bytes are waiting for it. *)
Theorem pipe_killed_writer_loses_wakeup :
  let s1 := do_read 2 false 1 new_sys in
  let s2 := do_write 1 true (replicate 513 1) s1 in
  rtc (pstep 0 true) new_sys s2 ∧
  ps_thr s2 = {[2%nat := Thread (Read 1) (Some (ChPipeR 0))]} ∧ length (ps_sent s2) = 512%nat ∧
  p_writeopen (ps_pipe s2) = true.
Proof.
  intros s1 s2. split; [|split; [vm_compute; reflexivity|vm_compute; done]].
  eapply rtc_l; [apply (pstep_read 0 true 2 1 false 1 _ s1); vm_compute; done|].
  eapply rtc_l; [apply (pstep_write 0 true 1 1 true (replicate 513 1) _ s2); vm_compute; done|]. apply rtc_refl.
Qed.

(** [piperead] on every branch: it sleeps exactly when the pipe is empty, the
    write end is open and the caller is not killed; it returns -1 when the caller is;
    otherwise it returns the oldest bytes, at most [n] of them, so 0 means end of
    file: the pipe is empty and the write end closed, or nothing was asked for. *)
Theorem piperead_result killed n p q :
  pipe_rel p q →
  piperead_body killed n p =
  (if bool_decide (q = []) && p_writeopen p
   then (p, (if killed then PRet (-1) else PSleep 0, []))
   else ((piperead_copy n p).1, (PRet (Z.of_nat (length (take n q))), take n q))) ∧
  pipe_rel (piperead_copy n p).1 (drop n q).
Proof.
  intros HR. pose proof (piperead_copy_spec n _ _ HR) as Hspec. unfold piperead_body.
  rewrite (pipe_empty _ _ HR).
  destruct (piperead_copy n p) as [p' l]. destruct Hspec as (-> & HR' & _). split; [|done].
  destruct (bool_decide (q = []) && p_writeopen p); [by destruct killed|done].
Qed.

Lemma piperead_result_witness :
  piperead_body false 5 (pipe_new (replicate pipesize 0)) =
    (pipe_new (replicate pipesize 0), (PSleep 0, [])) ∧
  pipe_rel (piperead_copy 5 (pipe_new (replicate pipesize 0))).1 [].
Proof.
  apply (piperead_result false 5 (pipe_new (replicate pipesize 0)) []).
  by apply pipe_rel_new.
Defined.
