(* ===== verification/Printf.v ===== *)
(** Formatted output: [printf.c] of the user library and [printint], [cprintf] of
    the kernel ([console.c]). *)
From stdpp Require Import base list numbers strings.
From Stdlib Require Import ZArith Lia.
From S2P Require Import Prelude Machine CString.
Local Open Scope Z_scope.

(** The output is the list of bytes written.  [None] is an access outside of [buf],
    or of the arguments. *)

(** [static char digits[]], in upper case (printf.c) or lower case (console.c). *)
Definition digit_upper (d : Z) : Z := if d <? 10 then 48 + d else 55 + d.
Definition digit_lower (d : Z) : Z := if d <? 10 then 48 + d else 87 + d.

(** [buf[i++] = c], with [char buf[16]]. *)
Definition push (c : Z) (buf : list Z) : option (list Z) :=
  if bool_decide (length buf < 16)%nat then Some (buf ++ [c]) else None.

(** The [do] loop: digits of [x], least significant first. *)
Fixpoint digits_loop (digits : Z → Z) (base : Z) (fuel : nat) (x : Z) (buf : list Z) : option (list Z) :=
  match fuel with
  | O => None
  | S fuel' =>
      buf ← push (digits (x mod base)) buf;
      let x := x / base in
      if x =? 0 then Some buf else digits_loop digits base fuel' x buf
  end.

(** [x < 2^32] and [base >= 2]: at most 32 turns. *)
Definition printint_with (digits : Z → Z) (xx base : Z) (sgn : bool) : option (list Z) :=
  let neg := sgn && (xx <? 0) in
  let x := if neg then u32 (- xx) else u32 xx in
  buf ← digits_loop digits base 33 x [];
  buf ← (if neg then push 45 buf else Some buf);
  Some (rev buf).

Module Printf.
Definition printint (xx base : Z) (sgn : bool) : option (list Z) := printint_with digit_upper xx base sgn.

(** [printf(fd, fmt, ...)]: [args] are the words on the stack after [fmt], [str p]
    the string at address [p]. *)
Fixpoint printf_loop (str : Z → list Z) (state : bool) (fmt : list Z) (args : list Z) : option (list Z) :=
  match fmt with
  | [] => Some []
  | c :: fmt' =>
      if negb state then
        (if c =? 37 then printf_loop str true fmt' args
         else o ← printf_loop str false fmt' args; Some (c :: o))
      else if c =? 100 then
        match args with
        | a :: args' => d ← printint (s32 a) 10 true;
                        o ← printf_loop str false fmt' args'; Some (d ++ o)
        | [] => None
        end
      else if (c =? 120) || (c =? 112) then
        match args with
        | a :: args' => d ← printint (s32 a) 16 false;
                        o ← printf_loop str false fmt' args'; Some (d ++ o)
        | [] => None
        end
      else if c =? 115 then
        match args with
        | a :: args' =>
            let s := if a =? 0 then [40; 110; 117; 108; 108; 41] else str a in
            o ← printf_loop str false fmt' args'; Some (s ++ o)
        | [] => None
        end
      else if c =? 99 then
        match args with
        | a :: args' => o ← printf_loop str false fmt' args'; Some (u8 a :: o)
        | [] => None
        end
      else if c =? 37 then
        o ← printf_loop str false fmt' args; Some (c :: o)
      else
        (* Unknown % sequence.  Print it to draw attention. *)
        o ← printf_loop str false fmt' args; Some (37 :: c :: o)
  end.
Definition printf (str : Z → list Z) (fmt args : list Z) : option (list Z) :=
  printf_loop str false fmt args.
End Printf.

Module Cprintf.
Definition printint (xx base : Z) (sign : bool) : option (list Z) := printint_with digit_lower xx base sign.

(** The loop of [cprintf] over a format string. *)
Fixpoint cprintf_loop (str : Z → list Z) (fmt : list Z) (args : list Z) : option (list Z) :=
  match fmt with
  | [] => Some []
  | c :: fmt' =>
      if negb (c =? 37) then o ← cprintf_loop str fmt' args; Some (c :: o)
      else
        match fmt' with
        | [] => Some []
        | c :: fmt'' =>
            if c =? 100 then
              match args with
              | a :: args' => d ← printint (s32 a) 10 true;
                              o ← cprintf_loop str fmt'' args'; Some (d ++ o)
              | [] => None
              end
            else if (c =? 120) || (c =? 112) then
              match args with
              | a :: args' => d ← printint (s32 a) 16 false;
                              o ← cprintf_loop str fmt'' args'; Some (d ++ o)
              | [] => None
              end
            else if c =? 115 then
              match args with
              | a :: args' =>
                  let s := if a =? 0 then [40; 110; 117; 108; 108; 41] else str a in
                  o ← cprintf_loop str fmt'' args'; Some (s ++ o)
              | [] => None
              end
            else if c =? 37 then o ← cprintf_loop str fmt'' args; Some (37 :: o)
            else o ← cprintf_loop str fmt'' args; Some (37 :: c :: o)
        end
  end.
End Cprintf.

(** * Numerals *)

(** The number a list of digits stands for, least significant digit first. *)
Fixpoint le_value (base : Z) (ds : list Z) : Z :=
  match ds with [] => 0 | d :: ds' => d + base * le_value base ds' end.

Lemma push_ok c buf : (length buf < 16)%nat → push c buf = Some (buf ++ [c]).
Proof. intros H. unfold push. by rewrite bool_decide_eq_true_2. Qed.

(** The loop produces the digits of [x], whatever they are printed as; at most [k] of
    them when [x < base ^ k]. *)
Lemma digits_loop_spec base x fuel k :
  2 <= base → 0 <= x < base ^ Z.of_nat k → (1 <= k <= fuel)%nat →
  ∃ ds, le_value base ds = x ∧ Forall (λ d, 0 <= d < base) ds ∧ (1 <= length ds <= k)%nat ∧
    (0 < x → last ds ≠ Some 0) ∧
    ∀ digits buf, (length buf + k <= 16)%nat →
      digits_loop digits base fuel x buf = Some (buf ++ (digits <$> ds)).
Proof.
  intros Hb. revert x k. induction fuel as [|fuel IH]; intros x k Hx Hk; [lia|].
  assert (0 <= x mod base < base) as Hm by (apply Z.mod_pos_bound; lia).
  pose proof (Z.div_mod x base ltac:(lia)) as Hdm.
  destruct (Z.eqb_spec (x / base) 0) as [Hz|Hz].
  - exists [x mod base]. cbn [le_value length]. split; [nia|]. split; [by constructor|]. split; [lia|].
    split; [intros Hx0 [= H0]; nia|]. intros digits buf Hlen. cbn [digits_loop].
    rewrite push_ok by lia. cbn [mbind option_bind]. by rewrite Hz.
  - assert (0 < x / base) as Hq by (pose proof (Z.div_pos x base ltac:(lia) ltac:(lia)); lia).
    destruct (decide (k = 1)%nat) as [->|].
    { change (Z.of_nat 1) with 1 in Hx. rewrite Z.pow_1_r in Hx. rewrite Z.div_small in Hz; lia. }
    destruct (IH (x / base) (k - 1)%nat) as (ds & Hv & Hr & Hl & Hlast & Heq).
    + split; [lia|]. apply Z.div_lt_upper_bound; [lia|].
      rewrite <- Z.pow_succ_r by lia. replace (Z.succ (Z.of_nat (k - 1))) with (Z.of_nat k) by lia. lia.
    + lia.
    + exists (x mod base :: ds). cbn [le_value length]. rewrite Hv.
      split; [lia|]. split; [by constructor|]. split; [lia|].
      split; [intros _; destruct ds as [|d ds]; [cbn in Hl; lia|]; apply Hlast; lia|].
      intros digits buf Hlen. cbn [digits_loop]. rewrite push_ok by lia. cbn [mbind option_bind].
      rewrite (proj2 (Z.eqb_neq _ _) Hz), Heq by (rewrite length_app; cbn; lia).
      by rewrite <- app_assoc.
Qed.

Lemma head_rev {A} (l : list A) : head (rev l) = last l.
Proof. rewrite rev_alt. apply head_reverse. Qed.

(** What [printint] prints: the sign, and the digits from the left. *)
Lemma printint_spec xx base sgn :
  base = 10 ∨ base = 16 → - 2 ^ 31 <= xx < 2 ^ 31 →
  let neg := sgn && (xx <? 0) in
  ∃ ds, (∀ digits, printint_with digits xx base sgn =
                   Some ((if neg then [45] else []) ++ (digits <$> rev ds))) ∧
    le_value base ds = (if neg then - xx else u32 xx) ∧
    Forall (λ d, 0 <= d < base) ds ∧ (1 <= length ds <= 10)%nat ∧
    (le_value base ds ≠ 0 → head (rev ds) ≠ Some 0).
Proof.
  intros Hb Hxx neg. unfold printint_with. fold neg.
  set (x := if neg then u32 (- xx) else u32 xx).
  assert (0 <= x < 2 ^ 32 ∧ x = if neg then - xx else u32 xx) as [Hx Hxe].
  { unfold x. destruct neg eqn:Hn; [|split; [apply u32_range|done]].
    unfold neg in Hn. assert (xx < 0) by (destruct sgn; cbn in Hn; lia).
    rewrite u32_small by lia. lia. }
  assert (x < base ^ Z.of_nat 10) as Hlt by (destruct Hb as [->| ->]; lia).
  destruct (digits_loop_spec base x 33 10) as (ds & Hv & Hr & Hl & Hlast & Heq); [lia..|].
  exists ds. split; [|split; [by rewrite Hv|split; [done|split; [done|]]]].
  - intros digits. rewrite Heq by (cbn; lia). cbn [mbind option_bind app]. change (digits <$> rev ds) with (map digits (rev ds)); rewrite map_rev.
    destruct neg; [|done]. rewrite push_ok by (rewrite length_fmap; lia). cbn [mbind option_bind].
    by rewrite rev_app_distr.
  - rewrite Hv, head_rev. intros ?. apply Hlast. lia.
Qed.

(** [atoi] reads the digits back. *)
Lemma le_value_app base ds es :
  le_value base (ds ++ es) = le_value base ds + base ^ Z.of_nat (length ds) * le_value base es.
Proof.
  induction ds as [|d ds IH]; cbn [app le_value length]; [lia|].
  rewrite IH, Nat2Z.inj_succ, Z.pow_succ_r by lia. ring.
Qed.

Lemma le_value_nonneg base ds :
  0 <= base → Forall (λ d, 0 <= d < base) ds → 0 <= le_value base ds.
Proof. intros Hb. induction 1; cbn [le_value]; [lia|]. nia. Qed.

Lemma atoi_loop_spec ds fuel s n c m rest :
  drop s m = ((λ d, 48 + d) <$> ds) ++ 0 :: rest → Forall (λ d, 0 <= d < 10) ds →
  (length ds < fuel)%nat → 0 <= n → le_value 10 (rev ds) + n * 10 ^ Z.of_nat (length ds) < 2 ^ 31 →
  Ulib.atoi_loop fuel s n c m =
  Ret (le_value 10 (rev ds) + n * 10 ^ Z.of_nat (length ds)) c m.
Proof.
  revert fuel s n. induction ds as [|d ds IH]; intros fuel s n Hm Hds Hf Hn Hlt;
    destruct fuel as [|fuel]; cbn [length] in Hf; try lia; cbn [Ulib.atoi_loop].
  - assert (m !! s = Some 0) as Hs by (rewrite <- (Nat.add_0_r s), <- lookup_drop, Hm; done).
    erewrite bind_eq; [|by apply load_eq]. cbn. unfold ret. f_equal. lia.
  - assert (m !! s = Some (48 + d)) as Hs by (rewrite <- (Nat.add_0_r s), <- lookup_drop, Hm; done).
    inversion_clear Hds as [|?? Hd Hds']. cbn beta in Hd.
    erewrite bind_eq; [|by apply load_eq]. cbv beta.
    rewrite (proj2 (Z.leb_le 48 (48 + d))), (proj2 (Z.leb_le (48 + d) 57)) by lia. cbn [andb].
    assert (le_value 10 (rev (d :: ds)) + n * 10 ^ Z.of_nat (length (d :: ds)) =
            le_value 10 (rev ds) + (n * 10 + d) * 10 ^ Z.of_nat (length ds)) as Heq.
    { cbn [rev length]. rewrite le_value_app, length_rev. cbn [le_value].
      rewrite Nat2Z.inj_succ, Z.pow_succ_r by lia. ring. }
    rewrite Heq in *.
    assert (0 <= le_value 10 (rev ds)) as Hge
      by (apply le_value_nonneg; [lia|by apply Forall_rev]).
    assert (1 <= 10 ^ Z.of_nat (length ds)) as Hp by (pose proof (Z.pow_pos_nonneg 10 (Z.of_nat (length ds)) ltac:(lia) ltac:(lia)); lia).
    rewrite s32_small by nia. replace (n * 10 + (48 + d) - 48) with (n * 10 + d) by lia.
    apply IH; [|done|lia|nia|done].
    replace (S s) with (s + 1)%nat by lia. rewrite <- drop_drop, Hm. done.
Qed.

(** * Properties *)

(** [printint] (of printf.c, and of console.c with its own digits) never writes
    outside of [buf[16]] and prints, for every [int], in decimal or hexadecimal, the
    numeral of its value: a [-] exactly for a negative number printed signed, then
    between 1 and 10 digits, most significant first, without leading zeros, that
    stand for the absolute value (for an unsigned print, the value modulo 2^32). *)
Theorem printint_prints xx base sgn :
  base = 10 ∨ base = 16 → - 2 ^ 31 <= xx < 2 ^ 31 →
  ∃ ds, Printf.printint xx base sgn =
          Some ((if sgn && (xx <? 0) then [45] else []) ++ (digit_upper <$> rev ds)) ∧
        Cprintf.printint xx base sgn =
          Some ((if sgn && (xx <? 0) then [45] else []) ++ (digit_lower <$> rev ds)) ∧
    le_value base ds = (if sgn then Z.abs xx else xx mod 2 ^ 32) ∧
    Forall (λ d, 0 <= d < base) ds ∧ (1 <= length ds <= 10)%nat ∧
    (xx ≠ 0 → head (rev ds) ≠ Some 0).
Proof.
  intros Hb Hxx. destruct (printint_spec xx base sgn Hb Hxx) as (ds & Heq & Hv & Hr & Hl & Hhd).
  exists ds. split; [apply Heq|]. split; [apply Heq|].
  assert (le_value base ds = (if sgn then Z.abs xx else xx mod 2 ^ 32)) as Hv'.
  { rewrite Hv. destruct sgn; [|done]. cbn [andb]. destruct (Z.ltb_spec xx 0); [lia|].
    rewrite u32_small; lia. }
  split; [done|]. split; [done|]. split; [done|]. intros Hne. apply Hhd. rewrite Hv'.
  destruct sgn; [lia|]. intros H0. apply Z.mod_divide in H0 as [k Hk]; lia.
Qed.

Lemma printint_prints_witness : ∃ ds, Printf.printint (-2147483648) 10 true = Some (45 :: (digit_upper <$> rev ds)) ∧
  le_value 10 ds = 2147483648.
Proof.
  destruct (printint_prints (-2147483648) 10 true) as (ds & H & _ & Hv & _); [by left|lia|].
  exists ds. split; [exact H|exact Hv].
Defined.

(** [atoi] reads back what [printf("%d")] prints: for every [int] that is not
    negative, if memory holds at [s] the bytes [printint] printed and a byte 0 then
    [atoi(s)] is that [int]. *)
Theorem atoi_printint n out pre rest c :
  0 <= n < 2 ^ 31 → Printf.printint n 10 true = Some out →
  Ulib.atoi (length pre) c (pre ++ out ++ 0 :: rest) = Ret n c (pre ++ out ++ 0 :: rest).
Proof.
  intros Hn Hout. destruct (printint_spec n 10 true) as (ds & Heq & Hv & Hr & Hl & _); [by left|lia|].
  unfold Printf.printint in Hout. rewrite Heq in Hout.
  rewrite (proj2 (Z.ltb_ge n 0)) in Hout, Hv by lia. cbn [andb app] in Hout, Hv.
  rewrite u32_small in Hv by lia. injection Hout as <-.
  assert (Forall (λ d, 0 <= d < 10) (rev ds)) as Hr' by by apply Forall_rev.
  assert ((digit_upper <$> rev ds) = ((λ d, 48 + d) <$> rev ds)) as ->.
  { apply list_fmap_ext. intros i d Hd. eapply (Forall_lookup_1 _ _ _ _ Hr') in Hd. cbn beta in Hd.
    unfold digit_upper. by rewrite (proj2 (Z.ltb_lt d 10)) by lia. }
  unfold Ulib.atoi. erewrite bind_eq; [|done]. cbv beta.
  rewrite (atoi_loop_spec (rev ds) _ _ 0 c _ rest); rewrite ?rev_involutive, ?Hv; try done; try lia.
  - f_equal. lia.
  - by rewrite drop_app_length.
  - rewrite !length_app, length_fmap. cbn. lia.
Qed.

Lemma atoi_printint_witness :
  Printf.printint 1903 10 true = Some [49; 57; 48; 51] ∧
  Ulib.atoi 1 (cpu0 1) [7; 49; 57; 48; 51; 0] = Ret 1903 (cpu0 1) [7; 49; 57; 48; 51; 0].
Proof.
  split; [vm_compute; reflexivity|].
  apply (atoi_printint 1903 [49; 57; 48; 51] [7] []); [lia|vm_compute; reflexivity].
Defined.

(** The arguments a format string asks for. *)
Fixpoint directives (takes : Z → bool) (state : bool) (fmt : list Z) : nat :=
  match fmt with
  | [] => 0
  | c :: fmt' =>
      if state then ((if takes c then 1 else 0) + directives takes false fmt')%nat
      else directives takes (c =? 37) fmt'
  end.
Definition printf_takes (c : Z) : bool :=
  (c =? 100) || ((c =? 120) || (c =? 112)) || (c =? 115) || (c =? 99).
Definition cprintf_takes (c : Z) : bool :=
  (c =? 100) || ((c =? 120) || (c =? 112)) || (c =? 115).

Lemma s32_range x : - 2 ^ 31 <= s32 x < 2 ^ 31.
Proof. unfold s32. pose proof (Z.mod_pos_bound (x + 2 ^ 31) (2 ^ 32)). lia. Qed.

Lemma printint_some digits x base sgn :
  base = 10 ∨ base = 16 → ∃ d, printint_with digits (s32 x) base sgn = Some d.
Proof.
  intros Hb. destruct (printint_spec (s32 x) base sgn Hb (s32_range x)) as (ds & Heq & _). eauto.
Qed.

Lemma is_Some_bind_ret {A B} (o : option A) (f : A → B) : is_Some (a ← o; Some (f a)) ↔ is_Some o.
Proof. destruct o; cbn; split; intros [? [=]]; eauto. Qed.

(** A directive that takes an argument, then the rest of the format. *)
Ltac directive IH :=
  cbn [orb];
  match goal with |- context [match ?args with [] => None | _ :: _ => _ end] => destruct args end;
  [ cbn [length]; split; [intros [? [=]]|intros Hl; lia]
  | cbn [length];
    try match goal with |- context [printint_with ?d (s32 ?x) ?b ?s] =>
      destruct (printint_some d x b s) as [? ->]; [first [by left|by right]|]; cbn [mbind option_bind] end;
    rewrite is_Some_bind_ret, IH; lia ].

Lemma printf_loop_some str fmt state args :
  is_Some (Printf.printf_loop str state fmt args) ↔
  (directives printf_takes state fmt <= length args)%nat.
Proof.
  revert state args. induction fmt as [|c fmt IH]; intros state args; cbn [Printf.printf_loop directives].
  { split; [lia|eauto]. }
  destruct state; cbn [negb].
  - unfold printf_takes at 1. unfold Printf.printint.
    destruct (c =? 100); [directive IH|]. destruct ((c =? 120) || (c =? 112)); [directive IH|].
    destruct (c =? 115); [directive IH|]. destruct (c =? 99); [directive IH|]. cbn [orb].
    destruct (c =? 37); rewrite is_Some_bind_ret, IH; lia.
  - destruct (c =? 37); [apply IH|]. by rewrite is_Some_bind_ret, IH.
Qed.

Lemma cprintf_loop_some str n fmt args :
  (length fmt <= n)%nat →
  is_Some (Cprintf.cprintf_loop str fmt args) ↔
  (directives cprintf_takes false fmt <= length args)%nat.
Proof.
  revert fmt args. induction n as [|n IH]; intros [|c fmt] args Hn; cbn [length] in Hn; try lia;
    cbn [Cprintf.cprintf_loop directives]; try (split; [lia|eauto]; fail).
  destruct (c =? 37); cbn [negb]; [|rewrite is_Some_bind_ret, IH; [done|lia]].
  destruct fmt as [|c' fmt]; cbn [directives]; [split; [lia|eauto]|]. cbn [length] in Hn.
  assert (∀ a, is_Some (Cprintf.cprintf_loop str fmt a) ↔
          (directives cprintf_takes false fmt <= length a)%nat) as IH' by (intros; apply IH; lia).
  unfold cprintf_takes at 1. unfold Cprintf.printint.
  destruct (c' =? 100); [directive IH'|]. destruct ((c' =? 120) || (c' =? 112)); [directive IH'|].
  destruct (c' =? 115); [directive IH'|]. cbn [orb].
  destruct (c' =? 37); rewrite is_Some_bind_ret, IH'; lia.
Qed.

(** [printf] and [cprintf] read an argument for each directive that takes one
    and no other: they run to the end of the format, inside the arguments, exactly
    when the caller passed at least that many. *)
Theorem printf_arguments str fmt args :
  (is_Some (Printf.printf str fmt args) ↔ (directives printf_takes false fmt <= length args)%nat) ∧
  (is_Some (Cprintf.cprintf_loop str fmt args) ↔ (directives cprintf_takes false fmt <= length args)%nat).
Proof. split; [apply printf_loop_some|by eapply cprintf_loop_some]. Qed.
