(* ===== verification/Console.v ===== *)
(** The console ([console.c]): the screen and the serial port behind [consputc], the
    line discipline of [consoleintr], and [consoleread] and [consolewrite]. *)
From stdpp Require Import base list numbers strings.
From Stdlib Require Import ZArith Lia.
From S2P Require Import Prelude Machine Spinlock Ring CString Printf.
Local Open Scope Z_scope.
Local Open Scope xv6_scope.

(** * State *)

Definition BACKSPACE : Z := 256.
Definition INPUT_BUF : Z := 128.
(** [C(x)]: Control-x. *)
Definition C (x : Z) : Z := x - 64.

(** [input]. *)
Record input := Input {
  in_buf : list Z;
  in_r : Z;
  in_w : Z;
  in_e : Z;
}.

(** The CGA text memory [crt] (32 KB of 16-bit cells), the cursor register of the
    CRT controller, the bytes sent to the serial port, and the variables [uart]
    (is there a serial port), [panicked], [cons.locking] and [input]. *)
Record console := Console {
  crt : list Z;
  cursor : Z;
  serial : list Z;
  uart : bool;
  panicked : bool;
  locking : bool;
  inp : input;
}.

Definition crt_cells : nat := Z.to_nat 16384.

Definition set_crt (v : list Z) (s : console) : console :=
  Console v (cursor s) (serial s) (uart s) (panicked s) (locking s) (inp s).
Definition set_cursor (v : Z) (s : console) : console :=
  Console (crt s) v (serial s) (uart s) (panicked s) (locking s) (inp s).
Definition set_serial (v : list Z) (s : console) : console :=
  Console (crt s) (cursor s) v (uart s) (panicked s) (locking s) (inp s).
Definition set_locking (v : bool) (s : console) : console :=
  Console (crt s) (cursor s) (serial s) (uart s) (panicked s) v (inp s).
Definition set_inp (v : input) (s : console) : console :=
  Console (crt s) (cursor s) (serial s) (uart s) (panicked s) (locking s) v.
Definition set_e (e : Z) (i : input) : input := Input (in_buf i) (in_r i) (in_w i) e.

(** * Output *)

(** uart.c; the wait for the transmitter to be idle is not modelled. *)
Definition uartputc (c : Z) : M console unit :=
  s <- get ;; when (uart s) (modify (set_serial (serial s ++ [u8 c]))).

(** [crt[pos] = v]. *)
Definition crt_store (pos v : Z) : M console unit :=
  s <- get ;;
  if bool_decide (0 <= pos < Z.of_nat (length (crt s)))
  then modify (set_crt (<[Z.to_nat pos := v]> (crt s)))
  else fault.

(** The cursor position is col + 80*row; the two bytes of the register go through
    [outb] and [inb]. *)
Definition cgaputc (c : Z) : M console unit :=
  s <- get ;;
  let pos := cursor s in
  pos <- (if c =? 10 then ret (pos + (80 - pos mod 80))
          else if c =? BACKSPACE then ret (if 0 <? pos then pos - 1 else pos)
          else crt_store pos (Z.lor (Z.land c 255) 1792) ;; ret (pos + 1)) ;;
  when ((pos <? 0) || (25 * 80 <? pos)) (panic "pos under/overflow") ;;
  pos <- (if 24 <=? pos / 80 then   (* Scroll up. *)
            s <- get ;;
            modify (set_crt (splice 0 (slice 80 (23 * 80) (crt s)) (crt s))) ;;
            s <- get ;;
            let pos := pos - 80 in
            modify (set_crt (splice (Z.to_nat pos) (replicate (Z.to_nat (24 * 80 - pos)) 0) (crt s))) ;;
            ret pos
          else ret pos) ;;
  modify (set_cursor (256 * u8 (Z.shiftr pos 8) + u8 pos)) ;;
  crt_store pos (Z.lor 32 1792).

Definition consputc (c : Z) : M console unit :=
  s <- get ;;
  if panicked s then hang   (* cli(); for(;;) *)
  else
    (if c =? BACKSPACE then uartputc 8 ;; uartputc 32 ;; uartputc 8 else uartputc c) ;;
    cgaputc c.

(** [fmt] is [None] for a null pointer. *)
Definition cprintf (str : Z → list Z) (fmt : option (list Z)) (args : list Z) : M console unit :=
  s <- get ;;
  let locking := locking s in
  when locking (acquire LkCons) ;;
  match fmt with
  | None => panic "null fmt"
  | Some fmt =>
      out <- deref (Cprintf.cprintf_loop str fmt args) ;;
      for_each out consputc ;;
      when locking (release LkCons)
  end.

Definition consoleinit : M console unit := modify (set_locking true).

(** * Input *)

Definition getinp : M console input := gets inp.
Definition putinp (i : input) : M console unit := modify (set_inp i).

(** The loop of C('U'): erase back to the beginning of the line. *)
Fixpoint kill_line (fuel : nat) : M console unit :=
  match fuel with
  | O => hang
  | S fuel' =>
      i <- getinp ;;
      if in_e i =? in_w i then ret tt
      else
        b <- deref (in_buf i !! Z.to_nat (u32 (in_e i - 1) mod INPUT_BUF)) ;;
        if b =? 10 then ret tt
        else
          putinp (set_e (u32 (in_e i - 1)) i) ;;
          consputc BACKSPACE ;;
          kill_line fuel'
  end.

(** One turn of the loop of [consoleintr], for the character [c]; the result is
    [doprocdump]. *)
Definition consoleintr_char (c : Z) (doprocdump : bool) : M console bool :=
  if c =? C 80 then ret true
  else if c =? C 85 then kill_line (S (Z.to_nat INPUT_BUF)) ;; ret doprocdump
  else if (c =? C 72) || (c =? 127) then
    i <- getinp ;;
    when (negb (in_e i =? in_w i))
      (putinp (set_e (u32 (in_e i - 1)) i) ;; consputc BACKSPACE) ;;
    ret doprocdump
  else
    i <- getinp ;;
    when (negb (c =? 0) && (u32 (in_e i - in_r i) <? INPUT_BUF))
      (let c := if c =? 13 then 10 else c in
       putinp (Input (<[Z.to_nat (in_e i mod INPUT_BUF) := u8 c]> (in_buf i))
                 (in_r i) (in_w i) (u32 (in_e i + 1))) ;;
       consputc c ;;
       i <- getinp ;;
       when ((c =? 10) || (c =? C 68) || (in_e i =? u32 (in_r i + INPUT_BUF)))
         (putinp (Input (in_buf i) (in_r i) (in_e i) (in_e i)) ;;
          wakeup ChInput)) ;;
    ret doprocdump.

(** The characters [cs] are the results of [getc], up to the first negative one. *)
Fixpoint consoleintr_loop (cs : list Z) (doprocdump : bool) : M console bool :=
  match cs with
  | [] => ret doprocdump
  | c :: cs' => d <- consoleintr_char c doprocdump ;; consoleintr_loop cs' d
  end.

(** The result says that [procdump] is called, after the lock is released. *)
Definition consoleintr (cs : list Z) : M console bool :=
  acquire LkCons ;;
  d <- consoleintr_loop cs false ;;
  release LkCons ;;
  ret d.

(** * consoleread and consolewrite *)

(** How the critical section of [consoleread] ends: with [n] bytes still wanted, or
    asleep. *)
Inductive cres := CDone (n : Z) | CKilled | CSleep (n : Z).

(** The loop, [n] of [target] bytes to go: the new [input], the bytes stored at
    [dst], and how it ends. *)
Fixpoint consoleread_loop (killed : bool) (target : Z) (fuel : nat) (i : input) : input * list Z * cres :=
  match fuel with
  | O => (i, [], CDone 0)
  | S n' =>
      let n := Z.of_nat fuel in
      if in_r i =? in_w i then (i, [], if killed then CKilled else CSleep n)
      else
        let c := in_buf i !!! Z.to_nat (in_r i mod INPUT_BUF) in
        let i' := Input (in_buf i) (u32 (in_r i + 1)) (in_w i) (in_e i) in
        if c =? C 68 then   (* EOF *)
          (* Save ^D for next time, to make sure caller gets a 0-byte result. *)
          (if n <? target then Input (in_buf i) (u32 (in_r i' - 1)) (in_w i) (in_e i) else i', [], CDone n)
        else if c =? 10 then (i', [c], CDone (n - 1))
        else let '(i'', l, r) := consoleread_loop killed target n' i' in (i'', c :: l, r)
  end.

(** The functions that are entered through [devsw] drop the lock of the inode while
    they work; [g] and [p] are the console in the state that also has the inodes. *)
Section devsw.
Context {T : Type} (g : T → console) (p : console → T → T) (iunlock ilock : M T unit).

(** A [consoleread] that sleeps with [n] bytes to go starts the loop again, with
    [cons.lock] held, at [consoleread_at n]. *)
Definition consoleread_at (killed : bool) (target n : Z) : M T (Z * list Z) :=
  t <- get ;;
  let '(i, l, r) := if 0 <? n then consoleread_loop killed target (Z.to_nat n) (inp (g t))
                    else (inp (g t), [], CDone n) in
  modify (λ t, p (set_inp i (g t)) t) ;;
  match r with
  | CDone n => release LkCons ;; ilock ;; ret (target - n, l)
  | CKilled => release LkCons ;; ilock ;; ret (-1, l)
  | CSleep n => sleep ChInput LkCons ;; ret (0, l)
  end.
Definition consoleread (killed : bool) (n : Z) : M T (Z * list Z) :=
  iunlock ;;
  acquire LkCons ;;
  consoleread_at killed n n.

Definition consolewrite (buf : list Z) (n : Z) : M T Z :=
  iunlock ;;
  acquire LkCons ;;
  for_each (seqZ 0 n) (λ i, b <- deref (buf !! Z.to_nat i) ;; lift g p (consputc (u8 b))) ;;
  release LkCons ;;
  ilock ;;
  ret n.
End devsw.

(** * The screen *)

Definition SPACE : Z := Z.lor 32 1792.
Definition glyph (c : Z) : Z := Z.lor (Z.land c 255) 1792.

(** The console works: the cursor is on the first 24 rows and nobody panicked. *)
Record console_ok (s : console) : Prop := {
  co_crt : length (crt s) = crt_cells;
  co_cursor : 0 <= cursor s < 24 * 80;
  co_panicked : panicked s = false;
}.

(** The cell under the cursor and the position after it, before scrolling. *)
Definition put_cell (c : Z) (cells : list Z) (pos : Z) : list Z * Z :=
  if c =? 10 then (cells, pos + (80 - pos mod 80))
  else if c =? BACKSPACE then (cells, Z.max 0 (pos - 1))
  else (<[Z.to_nat pos := glyph c]> cells, pos + 1).

(** What a cell shows after scrolling up by a row. *)
Definition scrolled (cells : list Z) (i : nat) : option Z :=
  if decide (i < 23 * 80)%nat then cells !! (i + 80)%nat
  else if decide (i = 23 * 80)%nat then Some SPACE
  else if decide (i < 24 * 80)%nat then Some 0
  else cells !! i.

Lemma u16_split pos : 0 <= pos < 2 ^ 16 → 256 * u8 (Z.shiftr pos 8) + u8 pos = pos.
Proof.
  intros H. rewrite Z.shiftr_div_pow2 by lia. unfold u8. change (2 ^ 8) with 256.
  rewrite (Z.mod_small (pos / 256)); [pose proof (Z.div_mod pos 256); lia|].
  split; [apply Z.div_pos; lia|apply Z.div_lt_upper_bound; lia].
Qed.

Lemma put_cell_bounds c cells pos :
  0 <= pos < 24 * 80 → 0 <= (put_cell c cells pos).2 <= 24 * 80.
Proof.
  intros H. unfold put_cell. destruct (c =? 10); [|destruct (c =? BACKSPACE); cbn; lia]. cbn [snd].
  pose proof (Z.div_mod pos 80 ltac:(lia)). pose proof (Z.mod_pos_bound pos 80 ltac:(lia)).
  assert (pos / 80 < 24) by (apply Z.div_lt_upper_bound; lia). lia.
Qed.

Lemma put_cell_length c cells pos : length (put_cell c cells pos).1 = length cells.
Proof.
  unfold put_cell. destruct (c =? 10), (c =? BACKSPACE); cbn [fst]; rewrite ?length_insert; done.
Qed.

Lemma crt_store_eq pos v c s :
  0 <= pos < Z.of_nat (length (crt s)) →
  crt_store pos v c s = Ret tt c (set_crt (<[Z.to_nat pos := v]> (crt s)) s).
Proof.
  intros H. unfold crt_store, bind, get. by rewrite bool_decide_eq_true_2.
Qed.

(** The [memmove] and the [memset] of scrolling, and the cell under the cursor. *)
Lemma scroll_cells cells :
  length cells = crt_cells →
  let moved := splice 0 (slice 80 (23 * 80) cells) cells in
  let cleared := splice (Z.to_nat (24 * 80 - 80)) (replicate (Z.to_nat (24 * 80 - (24 * 80 - 80))) 0) moved in
  length cleared = crt_cells ∧
  ∀ i, <[Z.to_nat (24 * 80 - 80) := SPACE]> cleared !! i = scrolled cells i.
Proof.
  intros Hl moved cleared.
  assert (length (slice 80 (23 * 80) cells) = (23 * 80)%nat) as Hs
    by (apply length_slice; rewrite Hl; unfold crt_cells; lia).
  assert (length moved = crt_cells) as Hm
    by (unfold moved; rewrite length_splice; [done|rewrite Hs, Hl; unfold crt_cells; lia]).
  assert (length cleared = crt_cells) as Hcl
    by (unfold cleared; rewrite length_splice; [done|rewrite length_replicate, Hm; unfold crt_cells; lia]).
  split; [done|]. intros i. unfold scrolled.
  destruct (decide (i = Z.to_nat (24 * 80 - 80))) as [->|Hi].
  { rewrite list_lookup_insert_eq by (rewrite Hcl; unfold crt_cells; lia).
    rewrite decide_False, decide_True by lia. done. }
  rewrite list_lookup_insert_ne by done. unfold cleared.
  rewrite lookup_splice by (rewrite length_replicate, Hm; unfold crt_cells; lia).
  rewrite length_replicate. destruct (decide (i < 23 * 80)%nat) as [H1|H1].
  - rewrite decide_False by lia. unfold moved. rewrite lookup_splice by (rewrite Hs, Hl; unfold crt_cells; lia).
    rewrite Hs, decide_True by lia. rewrite Nat.sub_0_r, lookup_slice by done. f_equal. lia.
  - rewrite (decide_False (P := i = _)) by lia. destruct (decide (i < 24 * 80)%nat) as [H2|H2].
    + rewrite decide_True by lia. apply lookup_replicate_2. lia.
    + rewrite decide_False by lia. unfold moved.
      rewrite lookup_splice by (rewrite Hs, Hl; unfold crt_cells; lia). by rewrite Hs, decide_False by lia.
Qed.

(** [cgaputc], as an equation. *)
Lemma cgaputc_eq ch c s :
  console_ok s →
  let '(cells, pos) := put_cell ch (crt s) (cursor s) in
  ∃ cells', cgaputc ch c s = Ret tt c (set_cursor (if pos =? 24 * 80 then 23 * 80 else pos) (set_crt cells' s)) ∧
    length cells' = crt_cells ∧
    ∀ i, cells' !! i = if pos =? 24 * 80 then scrolled cells i else <[Z.to_nat pos := SPACE]> cells !! i.
Proof.
  intros [Hl Hc Hp]. pose proof (put_cell_bounds ch (crt s) _ Hc) as Hb.
  pose proof (put_cell_length ch (crt s) (cursor s)) as Hlen.
  destruct (put_cell ch (crt s) (cursor s)) as [cells pos] eqn:Heq. cbn [fst snd] in Hb, Hlen.
  unfold cgaputc. erewrite bind_eq; [|done]. cbv beta zeta.
  assert ((if ch =? 10 then ret (cursor s + (80 - cursor s mod 80))
          else if ch =? BACKSPACE then ret (if 0 <? cursor s then cursor s - 1 else cursor s)
          else crt_store (cursor s) (Z.lor (Z.land ch 255) 1792) ;; ret (cursor s + 1)) c s
          = Ret pos c (set_crt cells s)) as Hput.
  { unfold put_cell in Heq. destruct (ch =? 10); [injection Heq as <- <-; by destruct s|].
    destruct (ch =? BACKSPACE); injection Heq as <- <-.
    - unfold ret. destruct s. f_equal. cbn in *. destruct (Z.ltb_spec 0 cursor0); lia.
    - unfold bind. rewrite crt_store_eq; [done|]. rewrite Hl. unfold crt_cells. lia. }
  erewrite bind_eq; [|exact Hput]. cbv beta. clear Hput.
  replace ((pos <? 0) || (25 * 80 <? pos)) with false by lia.
  erewrite bind_eq; [|done]. cbv beta.
  assert ((24 <=? pos / 80) = (pos =? 24 * 80)) as ->.
  { destruct (Z.eqb_spec pos (24 * 80)) as [->|]; [done|].
    apply Z.leb_gt. apply Z.div_lt_upper_bound; lia. }
  rewrite Hl in Hlen. destruct (Z.eqb_spec pos (24 * 80)) as [->|Hne].
  - destruct (scroll_cells cells Hlen) as [Hl2 Hcells].
    eexists. split; [|split; [|exact Hcells]]; [|by rewrite length_insert].
    erewrite bind_eq; [|done]. cbv beta. erewrite bind_eq; [|done]. cbv beta.
    rewrite crt_store_eq; [|cbn [crt set_crt set_cursor]; unfold crt_cells in *; lia].
    rewrite u16_split by lia. done.
  - eexists. split; [|split; [|done]]; [|by rewrite length_insert].
    erewrite bind_eq; [|done]. cbv beta. erewrite bind_eq; [|done]. cbv beta.
    rewrite crt_store_eq; [|cbn [crt set_crt set_cursor]; unfold crt_cells in *; lia].
    rewrite u16_split by lia. done.
Qed.

Definition echo (ch : Z) : list Z := if ch =? BACKSPACE then [8; 32; 8] else [u8 ch].

(** What writing to the console leaves alone, and what it sends to the serial port. *)
Definition printed (out : list Z) (s s' : console) : Prop :=
  console_ok s' ∧ inp s' = inp s ∧ locking s' = locking s ∧ uart s' = uart s ∧
  serial s' = serial s ++ (if uart s then out else []).

Lemma printed_nil s : console_ok s → printed [] s s.
Proof. intros. do 4 (split; [done|]). destruct (uart s); by rewrite app_nil_r. Qed.

Lemma printed_trans o1 o2 s1 s2 s3 : printed o1 s1 s2 → printed o2 s2 s3 → printed (o1 ++ o2) s1 s3.
Proof.
  intros (_ & Hi & Hl & Hu & Hs) (Ho & Hi' & Hl' & Hu' & Hs').
  split; [done|]. do 3 (split; [congruence|]). rewrite Hs', Hs, Hu. destruct (uart s1); by rewrite <- app_assoc.
Qed.

Lemma uartputc_eq ch c s :
  uartputc ch c s = Ret tt c (set_serial (serial s ++ (if uart s then [u8 ch] else [])) s).
Proof. unfold uartputc, bind, get, when, modify, ret. destruct s as [?? se [] ???]; cbn; by rewrite ?app_nil_r. Qed.

Lemma cgaputc_ok ch c s : console_ok s → ∃ s', cgaputc ch c s = Ret tt c s' ∧ printed [] s s'.
Proof.
  intros Hok. pose proof (cgaputc_eq ch c s Hok) as H.
  pose proof (put_cell_bounds ch (crt s) _ (co_cursor _ Hok)) as Hb.
  destruct (put_cell ch (crt s) (cursor s)) as [cells pos]. destruct H as (cells' & Heq & Hl & _).
  eexists. split; [exact Heq|]. split; [|cbn; do 3 (split; [done|]); destruct (uart s); by rewrite app_nil_r].
  split; [done| |apply Hok]. cbn [cursor set_cursor fst snd] in *. destruct (Z.eqb_spec pos (24 * 80)); lia.
Qed.

Lemma consputc_ok ch c s : console_ok s → ∃ s', consputc ch c s = Ret tt c s' ∧ printed (echo ch) s s'.
Proof.
  intros Hok. unfold consputc. erewrite bind_eq; [|done]. cbv beta. rewrite (co_panicked _ Hok).
  assert (∃ s1, (if ch =? BACKSPACE then uartputc 8;; uartputc 32;; uartputc 8 else uartputc ch) c s =
                Ret tt c s1 ∧ printed (echo ch) s s1) as (s1 & Heq1 & Hp1).
  { unfold echo. destruct (ch =? BACKSPACE).
    - eexists. unfold bind. rewrite !uartputc_eq. split; [done|]. cbn.
      split; [split; apply Hok|]. do 3 (split; [done|]). cbn. destruct (uart s); by rewrite <- ?app_assoc.
    - eexists. rewrite uartputc_eq. split; [done|]. split; [split; apply Hok|done]. }
  erewrite bind_eq; [|exact Heq1]. cbv beta.
  destruct (cgaputc_ok ch c s1) as (s2 & Heq2 & Hp2); [apply Hp1|].
  exists s2. split; [done|]. rewrite <- (app_nil_r (echo ch)). by eapply printed_trans.
Qed.

Lemma consputc_all out c s :
  console_ok s → ∃ s', for_each out consputc c s = Ret tt c s' ∧ printed (out ≫= echo) s s'.
Proof.
  revert s. induction out as [|ch out IH]; intros s Hok; cbn [for_each mbind list_bind].
  - exists s. split; [done|]. by apply printed_nil.
  - destruct (consputc_ok ch c s Hok) as (s1 & H1 & Hp1).
    erewrite bind_eq; [|exact H1]. cbv beta.
    destruct (IH s1 ltac:(apply Hp1)) as (s2 & H2 & Hp2). exists s2. split; [done|].
    by eapply printed_trans.
Qed.

(** * The line discipline *)

(** What the user has typed: complete lines that a reader may take, and the line being
    edited. *)
Record typed := Typed { ready : list Z; edit : list Z }.

Definition typed_char (c : Z) (t : typed) : typed :=
  if c =? C 80 then t
  else if c =? C 85 then Typed (ready t) []
  else if (c =? C 72) || (c =? 127) then Typed (ready t) (removelast (edit t))
  else
    let c := if c =? 13 then 10 else c in
    if (c =? 0) || (128 <=? length (ready t) + length (edit t))%nat then t
    else
      let line := edit t ++ [c] in
      if (c =? 10) || (c =? C 68) || (length (ready t) + length line =? 128)%nat
      then Typed (ready t ++ line) [] else Typed (ready t) line.

Record input_rel (i : input) (t : typed) : Prop := {
  ir_ring : ring INPUT_BUF (in_buf i) (in_r i) (in_e i) (ready t ++ edit t);
  ir_w : in_w i = u32 (in_r i + Z.of_nat (length (ready t)));
  ir_edit : 10 ∉ edit t;
}.

(** The buffer is split at [w]. *)
Lemma input_edit_empty i t : input_rel i t → (in_e i =? in_w i) = bool_decide (edit t = []).
Proof.
  intros [HR Hw _]. rewrite Hw, (rg_w _ _ _ _ _ HR), length_app. pose proof (rg_len _ _ _ _ _ HR) as Hl.
  rewrite length_app in Hl. unfold INPUT_BUF in Hl. case_bool_decide as He.
  - rewrite He. cbn. rewrite Nat.add_0_r. apply Z.eqb_refl.
  - apply Z.eqb_neq. intros Heq. apply u32_inj_add in Heq; [|lia..].
    destruct (edit t); [done|]. cbn in Heq. lia.
Qed.

Lemma input_ready_empty i t : input_rel i t → (in_r i =? in_w i) = bool_decide (ready t = []).
Proof.
  intros [HR Hw _]. pose proof (rg_len _ _ _ _ _ HR) as Hl. pose proof (rg_r _ _ _ _ _ HR).
  rewrite length_app in Hl. unfold INPUT_BUF in Hl. rewrite Hw. case_bool_decide as He.
  - rewrite He. cbn. rewrite Z.add_0_r, u32_small by lia. apply Z.eqb_refl.
  - apply Z.eqb_neq. rewrite <- (u32_small (in_r i)) at 1 by lia. rewrite <- (Z.add_0_r (in_r i)) at 1.
    intros Heq. apply u32_inj_add in Heq; [|lia..]. destruct (ready t); [done|]. cbn in Heq. lia.
Qed.

(** Taking back the last character. *)
Lemma input_erase i re e b :
  input_rel i (Typed re (e ++ [b])) →
  in_buf i !! Z.to_nat (u32 (in_e i - 1) mod INPUT_BUF) = Some b ∧ b ≠ 10 ∧
  input_rel (set_e (u32 (in_e i - 1)) i) (Typed re e).
Proof.
  intros [HR Hw Hed]. cbn [ready edit] in *. rewrite app_assoc in HR.
  apply ring_unpush in HR as [Hb HR]. split; [done|].
  rewrite elem_of_app, list_elem_of_singleton in Hed. split; [by intros ->; apply Hed; right|].
  split; [done|done|]. cbn. tauto.
Qed.

Lemma kill_line_spec fuel c s re e :
  console_ok s → input_rel (inp s) (Typed re e) → (length e < fuel)%nat →
  ∃ s', kill_line fuel c s = Ret tt c s' ∧ console_ok s' ∧ input_rel (inp s') (Typed re []).
Proof.
  revert s e. induction fuel as [|fuel IH]; intros s e Hok HR Hf; [lia|]. cbn [kill_line].
  erewrite bind_eq; [|done]. cbv beta. rewrite (input_edit_empty _ _ HR). cbn [edit].
  case_bool_decide as He; [subst; by exists s|].
  destruct (exists_last He) as (e' & b & ->). destruct (input_erase _ _ _ _ HR) as (Hb & Hne & HR').
  rewrite Hb. erewrite bind_eq; [|done]. cbv beta. rewrite (proj2 (Z.eqb_neq b 10) Hne).
  erewrite bind_eq; [|done]. cbv beta.
  destruct (consputc_ok BACKSPACE c (set_inp (set_e (u32 (in_e (inp s) - 1)) (inp s)) s)) as (s1 & Heq & Hp);
    [split; apply Hok|].
  erewrite bind_eq; [|exact Heq]. cbv beta. destruct Hp as (Hok1 & Hi1 & _).
  apply (IH s1 e'); [done|by rewrite Hi1|]. rewrite length_app in Hf. cbn in Hf. lia.
Qed.

(** A character that is kept. *)
Lemma input_push i t ch :
  input_rel i t → (length (ready t) + length (edit t) < 128)%nat →
  ring INPUT_BUF (<[Z.to_nat (in_e i mod INPUT_BUF) := ch]> (in_buf i)) (in_r i) (u32 (in_e i + 1))
    (ready t ++ edit t ++ [ch]).
Proof.
  intros [HR _ _] Hl. rewrite app_assoc. apply ring_push; [done|].
  rewrite length_app. unfold INPUT_BUF. lia.
Qed.

Lemma typed_bound i t : input_rel i t → (length (ready t) + length (edit t) <= 128)%nat.
Proof.
  intros [HR _ _]. pose proof (rg_len _ _ _ _ _ HR) as Hl. rewrite length_app in Hl.
  unfold INPUT_BUF in Hl. lia.
Qed.

(** Storing and echoing the character [ch], and committing the line it completes. *)
Lemma consoleintr_keep ch pid s t :
  console_ok s → input_rel (inp s) t → (length (ready t) + length (edit t) < 128)%nat →
  let i1 := Input (<[Z.to_nat (in_e (inp s) mod INPUT_BUF) := ch]> (in_buf (inp s)))
              (in_r (inp s)) (in_w (inp s)) (u32 (in_e (inp s) + 1)) in
  ∃ s', (putinp i1 ;; consputc ch ;; i <- getinp ;;
         when ((ch =? 10) || (ch =? C 68) || (in_e i =? u32 (in_r i + INPUT_BUF)))
           (putinp (Input (in_buf i) (in_r i) (in_e i) (in_e i)) ;; wakeup ChInput))
        (cpu1 pid LkCons) s = Ret tt (cpu1 pid LkCons) s' ∧ console_ok s' ∧
    input_rel (inp s')
      (let line := edit t ++ [ch] in
       if (ch =? 10) || (ch =? C 68) || (length (ready t) + length line =? 128)%nat
       then Typed (ready t ++ line) [] else Typed (ready t) line).
Proof.
  intros Hok HR Hroom i1. cbv zeta. pose proof (input_push _ _ ch HR ltac:(lia)) as HR1.
  destruct (consputc_ok ch (cpu1 pid LkCons) (set_inp i1 s)) as (s1 & Heq & (Hok1 & Hi1 & _));
    [split; apply Hok|]. cbn [inp set_inp] in Hi1.
  assert ((in_e i1 =? u32 (in_r i1 + INPUT_BUF)) =
          (length (ready t) + length (edit t ++ [ch]) =? 128)%nat) as Hfull.
  { unfold i1. cbn [in_e in_r]. rewrite (ring_full INPUT_BUF _ _ _ _ HR1) by done.
    rewrite length_app. unfold INPUT_BUF. apply eq_true_iff_eq. rewrite Z.eqb_eq, Nat.eqb_eq. lia. }
  set (done_ := (ch =? 10) || (ch =? C 68) || (length (ready t) + length (edit t ++ [ch]) =? 128)%nat).
  set (s2 := if done_ then set_inp (Input (in_buf i1) (in_r i1) (in_e i1) (in_e i1)) s1 else s1).
  exists s2. split.
  { erewrite bind_eq; [|done]. cbv beta. erewrite bind_eq; [|exact Heq]. cbv beta.
    erewrite bind_eq; [|done]. cbv beta. rewrite Hi1, Hfull. fold done_. unfold s2.
    destruct done_; cbn [when]; [|done]. erewrite bind_eq; [|done]. cbv beta. by apply wakeup_cpu1. }
  unfold s2. destruct done_ eqn:Hdone.
  - split; [split; apply Hok1|]. cbn [inp set_inp].
    split; cbn [ready edit]; [by rewrite app_nil_r| |by apply not_elem_of_nil]. exact (rg_w _ _ _ _ _ HR1).
  - split; [done|]. rewrite Hi1. split; [done|apply HR|].
    cbn [edit]. rewrite elem_of_app, list_elem_of_singleton. intros [Hin| <-]; [by apply (ir_edit _ _ HR)|].
    done.
Qed.

Lemma consoleintr_char_spec ch d pid s t :
  0 <= ch < 256 → console_ok s → input_rel (inp s) t →
  ∃ s', consoleintr_char ch d (cpu1 pid LkCons) s =
          Ret (d || (ch =? C 80)) (cpu1 pid LkCons) s' ∧
        console_ok s' ∧ input_rel (inp s') (typed_char ch t).
Proof.
  intros Hch Hok HR. unfold consoleintr_char, typed_char.
  destruct (Z.eqb_spec ch (C 80)) as [->|Hp]; [exists s; by rewrite orb_true_r|]. rewrite orb_false_r.
  pose proof (typed_bound _ _ HR) as Hbound.
  destruct (ch =? C 85).
  { destruct t as [re e]. destruct (kill_line_spec (S (Z.to_nat INPUT_BUF)) (cpu1 pid LkCons) s re e)
      as (s1 & Heq & Hok1 & HR1); [done|done|cbn in Hbound; unfold INPUT_BUF; lia|].
    exists s1. erewrite bind_eq; [|exact Heq]. done. }
  destruct ((ch =? C 72) || (ch =? 127)).
  { erewrite bind_eq; [|done]. cbv beta. rewrite (input_edit_empty _ _ HR).
    destruct t as [re e]. cbn [ready edit] in *. case_bool_decide as He; cbn [negb when].
    - subst e. exists s. done.
    - destruct (exists_last He) as (e' & b & ->). destruct (input_erase _ _ _ _ HR) as (_ & _ & HR').
      destruct (consputc_ok BACKSPACE (cpu1 pid LkCons)
        (set_inp (set_e (u32 (in_e (inp s) - 1)) (inp s)) s)) as (s1 & Heq & (Hok1 & Hi1 & _));
        [split; apply Hok|].
      exists s1. unfold bind at 1 2, putinp, modify. rewrite Heq, removelast_last, Hi1. done. }
  erewrite bind_eq; [|done]. cbv beta zeta.
  assert (((if ch =? 13 then 10 else ch) =? 0) = (ch =? 0)) as -> by (destruct (Z.eqb_spec ch 13); subst; done).
  assert (u32 (in_e (inp s) - in_r (inp s)) = Z.of_nat (length (ready t) + length (edit t))) as ->.
  { rewrite (ring_count INPUT_BUF _ _ _ _ (ir_ring _ _ HR)) by done. by rewrite length_app. }
  destruct (ch =? 0); cbn [negb andb orb]; [by exists s|].
  destruct (Nat.leb_spec 128 (length (ready t) + length (edit t))) as [Hfull|Hroom].
  { rewrite (proj2 (Z.ltb_ge _ _)) by (unfold INPUT_BUF; lia). by exists s. }
  rewrite (proj2 (Z.ltb_lt _ _)) by (unfold INPUT_BUF; lia). cbn [when].
  set (ch' := if ch =? 13 then 10 else ch).
  assert (u8 ch' = ch') as -> by (apply u8_small; unfold ch'; destruct (ch =? 13); lia).
  destruct (consoleintr_keep ch' pid s t Hok HR Hroom) as (s' & Heq & Hok' & HR').
  exists s'. erewrite bind_eq; [|exact Heq]. done.
Qed.

Lemma consoleintr_loop_spec cs d pid s t :
  Forall (λ ch, 0 <= ch < 256) cs → console_ok s → input_rel (inp s) t →
  ∃ s', consoleintr_loop cs d (cpu1 pid LkCons) s =
          Ret (d || existsb (Z.eqb (C 80)) cs) (cpu1 pid LkCons) s' ∧
        console_ok s' ∧ input_rel (inp s') (foldl (λ t ch, typed_char ch t) t cs).
Proof.
  intros Hcs. revert d s t. induction Hcs as [|ch cs Hch _ IH]; intros d s t Hok HR; cbn [consoleintr_loop].
  - exists s. cbn. by rewrite orb_false_r.
  - destruct (consoleintr_char_spec ch d pid s t Hch Hok HR) as (s1 & Heq & Hok1 & HR1).
    erewrite bind_eq; [|exact Heq]. cbv beta.
    destruct (IH (d || (ch =? C 80)) s1 _ Hok1 HR1) as (s2 & Heq2 & Hok2 & HR2).
    exists s2. rewrite Heq2. cbn [existsb foldl]. by rewrite <- orb_assoc, (Z.eqb_sym (C 80) ch).
Qed.

Lemma consoleintr_spec cs pid s t :
  Forall (λ ch, 0 <= ch < 256) cs → console_ok s → input_rel (inp s) t →
  ∃ s', consoleintr cs (cpu0 pid) s = Ret (existsb (Z.eqb (C 80)) cs) (cpu0 pid) s' ∧
    console_ok s' ∧ input_rel (inp s') (foldl (λ t ch, typed_char ch t) t cs).
Proof.
  intros Hcs Hok HR. unfold consoleintr. erewrite bind_eq; [|apply acquire_cpu0]. cbv beta.
  destruct (consoleintr_loop_spec cs false pid s t Hcs Hok HR) as (s' & Heq & Hok' & HR').
  exists s'. erewrite bind_eq; [|exact Heq]. cbv beta. erewrite bind_eq; [|apply release_cpu1]. done.
Qed.

(** * Reading lines *)

Definition ends_line (c : Z) : bool := (c =? 10) || (c =? C 68).

(** What a read of at most [n > 0] bytes takes from the complete lines [re]: the bytes
    it delivers, what stays, and whether it has to wait for more.  [l] is the line
    before its terminator. *)
Fixpoint line_of (re : list Z) : list Z * list Z :=
  match re with
  | [] => ([], [])
  | c :: re' => if ends_line c then ([], re) else let '(l, r) := line_of re' in (c :: l, r)
  end.
Definition read_line (first : bool) (n : nat) (re : list Z) : list Z * list Z * bool :=
  let '(l, r) := line_of re in
  if decide (n <= length l)%nat then (take n re, drop n re, false)
  else match r with
       | [] => (l, [], true)
       | c :: r' =>
           if c =? 10 then (l ++ [10], r', false)
           else (l, (if first && bool_decide (l = []) then r' else r), false)
       end.

Lemma read_line_cons first n c re :
  ends_line c = false →
  read_line first (S n) (c :: re) = let '(l, r, w) := read_line false n re in (c :: l, r, w).
Proof.
  intros Hc. unfold read_line. cbn [line_of]. rewrite Hc. destruct (line_of re) as [l r]. cbn [length].
  destruct (decide (n <= length l)%nat); [by rewrite decide_True by lia|]. rewrite decide_False by lia.
  destruct r as [|x r]; [done|]. destruct (x =? 10); [done|]. by rewrite andb_false_r.
Qed.

Lemma consoleread_loop_spec killed target n i t :
  input_rel i t → Z.of_nat n <= target →
  let '(i', l, r) := consoleread_loop killed target n i in
  let '(l', rest, wait) := read_line (Z.of_nat n =? target) n (ready t) in
  l = l' ∧ input_rel i' (Typed rest (edit t)) ∧
  r = if wait then (if killed then CKilled else CSleep (Z.of_nat n - Z.of_nat (length l)))
      else CDone (Z.of_nat n - Z.of_nat (length l)).
Proof.
  revert i t. induction n as [|n IH]; intros i [re e] HR Hn.
  - cbn [consoleread_loop]. unfold read_line. cbn [ready edit]. destruct (line_of re) as [l r].
    rewrite decide_True by lia. rewrite take_0, drop_0. done.
  - cbn [consoleread_loop]. rewrite (input_ready_empty _ _ HR). cbn [ready edit].
    case_bool_decide as He.
    { subst re. unfold read_line. cbn [line_of length]. rewrite decide_False by lia.
      split; [done|]. split; [done|]. cbn [length]. destruct killed; [done|]. f_equal; lia. }
    destruct re as [|c re]; [done|]. pose proof (ir_ring _ _ HR) as Hring. cbn [ready edit app] in Hring.
    pose proof (rg_r _ _ _ _ _ Hring) as Hrr.
    destruct (ring_pop _ _ _ _ _ _ Hring) as [Hc Hring']. rewrite (list_lookup_total_correct _ _ _ Hc).
    assert (input_rel (Input (in_buf i) (u32 (in_r i + 1)) (in_w i) (in_e i)) (Typed re e)) as HR'.
    { split; [done| |apply HR]. cbn [in_w in_r ready]. rewrite (ir_w _ _ HR), u32_add. cbn [ready length].
      f_equal. lia. }
    destruct (ends_line c) eqn:Hend.
    + unfold read_line. cbn [line_of]. rewrite Hend. cbn [length]. rewrite decide_False by lia.
      unfold ends_line in Hend. destruct (Z.eqb_spec c 10) as [->|Hne].
      * change (10 =? C 68) with false. cbn [app length]. do 2 (split; [done|]). f_equal; lia.
      * cbn [orb] in Hend. rewrite Hend. split; [done|]. rewrite bool_decide_eq_true_2, andb_true_r by done.
        split; [|cbn [length]; f_equal; lia].
        destruct (Z.eqb_spec (Z.of_nat (S n)) target) as [Heq|Hneq].
        { by rewrite (proj2 (Z.ltb_ge _ _)) by lia. }
        rewrite (proj2 (Z.ltb_lt _ _)) by lia. cbn [in_r]. rewrite u32_sub.
        replace (in_r i + 1 - 1) with (in_r i) by lia. rewrite u32_small by lia. by destruct i.
    + rewrite read_line_cons by done. unfold ends_line in Hend. apply orb_false_iff in Hend as [-> ->].
      specialize (IH _ _ HR' ltac:(lia)). cbn [ready edit] in IH.
      replace (Z.of_nat n =? target) with false in IH by lia.
      destruct (consoleread_loop killed target n _) as [[i' l] r].
      destruct (read_line false n re) as [[l' rest] wait]. destruct IH as (-> & HR2 & Hr).
      split; [done|]. split; [done|]. rewrite Hr. cbn [length].
      destruct wait; [destruct killed; [done|]|]; f_equal; lia.
Qed.

(** * Properties *)

(** The screen: [cgaputc] never panics and never leaves the first 24 rows.  A
    character goes into the cell under the cursor, which moves on; a newline moves it
    to the next row, a backspace back; the new cell under the cursor becomes a space.
    When the cursor would leave the 24th row every row moves up by one and the last
    one is blank. *)
Theorem cgaputc_screen ch c s :
  console_ok s →
  ∃ s', cgaputc ch c s = Ret tt c s' ∧ console_ok s' ∧
    let '(cells, pos) := put_cell ch (crt s) (cursor s) in
    cursor s' = (if pos =? 24 * 80 then 23 * 80 else pos) ∧
    ∀ i, crt s' !! i = if pos =? 24 * 80 then scrolled cells i else <[Z.to_nat pos := SPACE]> cells !! i.
Proof.
  intros Hok. destruct (cgaputc_ok ch c s Hok) as (s' & Hs' & (Hok' & _)). exists s'. split; [done|]. split; [done|].
  pose proof (cgaputc_eq ch c s Hok) as H. destruct (put_cell ch (crt s) (cursor s)) as [cells pos].
  destruct H as (cells' & Heq & _ & Hcells). rewrite Heq in Hs'. injection Hs' as <-. done.
Qed.

(** A screen full of x, the cursor at the end of the last row, no input. *)
Definition console_x : console :=
  Console (replicate crt_cells (glyph 120)) 1919 [] true false true (Input (replicate 128 0) 0 0 0).
Lemma console_x_ok : console_ok console_x.
Proof. split; [apply length_replicate|cbn; lia|done]. Qed.
Lemma console_x_input : input_rel (inp console_x) (Typed [] []).
Proof. split; [apply ring_new; [done|by exists (2 ^ 25)|done|done]|done|apply not_elem_of_nil]. Qed.

Lemma cgaputc_screen_witness : ∃ s', cgaputc 121 (cpu0 1) console_x = Ret tt (cpu0 1) s' ∧ cursor s' = 1840.
Proof.
  destruct (cgaputc_screen 121 (cpu0 1) console_x console_x_ok) as (s' & Heq & _ & Hc & _).
  exists s'. split; [exact Heq|exact Hc].
Defined.

(** C37.  The line discipline of [consoleintr] is the editing of [typed_char], whatever
    characters arrive and also when the 32-bit counters wrap: Control-H and DEL take
    the last character of the line back but never one that is already committed,
    Control-U the whole line, a newline or Control-D (or a full buffer) commits the line, characters beyond
    128 that nobody has read are dropped, and [procdump] is asked for exactly by
    Control-P. *)
Theorem consoleintr_line_discipline cs pid s t :
  Forall (λ ch, 0 <= ch < 256) cs → console_ok s → input_rel (inp s) t →
  ∃ s', consoleintr cs (cpu0 pid) s = Ret (existsb (Z.eqb (C 80)) cs) (cpu0 pid) s' ∧
    console_ok s' ∧ input_rel (inp s') (foldl (λ t ch, typed_char ch t) t cs).
Proof. apply consoleintr_spec. Qed.

(** "ls^Hx^Urm\r" leaves the line "rm\n" to be read. *)
Lemma consoleintr_line_discipline_witness :
  ∃ s', consoleintr [108; 115; 8; 120; 21; 114; 109; 13] (cpu0 1) console_x = Ret false (cpu0 1) s' ∧
    input_rel (inp s') (Typed [114; 109; 10] []).
Proof.
  destruct (consoleintr_line_discipline [108; 115; 8; 120; 21; 114; 109; 13] 1 console_x (Typed [] []))
    as (s' & Heq & _ & HR);
    [repeat (constructor; [lia|]); constructor|apply console_x_ok|apply console_x_input|].
  exists s'. split; [exact Heq|exact HR].
Defined.

(** [consoleread] of [n > 0] bytes takes what [read_line] says of the committed
    lines and leaves the line being edited alone: at most one line, with its newline; a
    Control-D ends the read and is consumed only by a read that returns 0 (the
    end of file), so a read never returns characters after it.  It sleeps on [input.r] exactly when
    no committed byte decides the result, and fails then for a killed process. *)
Theorem consoleread_reads {T} (g : T → console) p iunlock ilock iu il killed n pid t ty :
  (∀ x t, g (p x t) = x) →
  (∀ t, iunlock (cpu0 pid) t = Ret tt (cpu0 pid) (iu t)) → (∀ t, ilock (cpu0 pid) t = Ret tt (cpu0 pid) (il t)) →
  g (iu t) = g t → 0 < n → input_rel (inp (g t)) ty →
  let '(l, rest, wait) := read_line true (Z.to_nat n) (ready ty) in
  ∃ t', input_rel (inp (g t')) (Typed rest (edit ty)) ∧
    consoleread g p iunlock ilock killed n (cpu0 pid) t =
    if wait then (if killed then Ret (-1, l) (cpu0 pid) (il t') else Sleep ChInput (cpu1 pid LkPtable) t')
    else Ret (Z.of_nat (length l), l) (cpu0 pid) (il t').
Proof.
  intros Hgp Hiu Hil Hg Hn HR. rewrite <- Hg in HR.
  pose proof (consoleread_loop_spec killed n (Z.to_nat n) _ _ HR ltac:(lia)) as Hspec.
  rewrite Z2Nat.id, Z.eqb_refl in Hspec by lia.
  unfold consoleread, consoleread_at. erewrite bind_eq; [|apply Hiu]. cbv beta.
  erewrite bind_eq; [|apply acquire_cpu0]. cbv beta. erewrite bind_eq; [|done]. cbv beta.
  rewrite (proj2 (Z.ltb_lt 0 n) Hn).
  destruct (consoleread_loop killed n (Z.to_nat n) _) as [[i' l'] r].
  destruct (read_line true (Z.to_nat n) (ready ty)) as [[l rest] wait]. destruct Hspec as (-> & HR' & ->).
  exists (p (set_inp i' (g (iu t))) (iu t)). rewrite Hgp. split; [done|].
  erewrite bind_eq; [|done]. cbv beta.
  destruct wait; [destruct killed|].
  - erewrite bind_eq; [|apply release_cpu1]. cbv beta. erewrite bind_eq; [|apply Hil]. done.
  - done.
  - erewrite bind_eq; [|apply release_cpu1]. cbv beta. erewrite bind_eq; [|apply Hil]. cbv beta.
    unfold ret. f_equal. f_equal. lia.
Qed.

Lemma consoleread_reads_witness :
  ∃ t', consoleread (λ c, c) (λ c _, c) (ret tt) (ret tt) false 5 (cpu0 1) console_x =
        Sleep ChInput (cpu1 1 LkPtable) t'.
Proof.
  destruct (consoleread_reads (λ c, c) (λ c _, c) (ret tt) (ret tt) (λ c, c) (λ c, c) false 5 1 console_x (Typed [] []))
    as (t' & _ & Heq); [done|done|done|done|lia|apply console_x_input|].
  exists t'. exact Heq.
Defined.

Lemma echo_byte ch : 0 <= ch < 256 → echo ch = [ch].
Proof.
  intros H. unfold echo, BACKSPACE. rewrite (proj2 (Z.eqb_neq ch 256)) by lia. by rewrite u8_small by lia.
Qed.

Lemma echo_bytes out : Forall (λ ch, 0 <= ch < 256) out → out ≫= echo = out.
Proof. induction 1 as [|ch out Hch _ IH]; [done|]. cbn [mbind list_bind]. by rewrite echo_byte, IH. Qed.

(** The loop of [consolewrite] writes one byte after the other. *)
Lemma consolewrite_loop buf i c s :
  let f := λ i, b <- deref (buf !! Z.to_nat i) ;; lift (λ c, c) (λ c _, c) (consputc (u8 b)) in
  (i <= length buf)%nat →
  for_each (seqZ (Z.of_nat i) (Z.of_nat (length buf - i))) f c s =
  for_each (u8 <$> drop i buf) consputc c s.
Proof.
  intros f. remember (length buf - i)%nat as k eqn:Hk. revert c i s Hk.
  induction k as [|k IH]; intros c i s Hk Hi.
  - rewrite drop_ge by lia. done.
  - destruct (lookup_lt_is_Some_2 buf i ltac:(lia)) as [b Hb].
    rewrite (drop_S _ _ _ Hb), Nat2Z.inj_succ, seqZ_cons by lia. cbn [for_each fmap list_fmap].
    assert (f (Z.of_nat i) c s = consputc (u8 b) c s) as Hf.
    { unfold f. rewrite Nat2Z.id, Hb. unfold bind, deref, ret, lift. by destruct (consputc (u8 b) c s). }
    unfold bind. rewrite Hf. destruct (consputc (u8 b) c s) as [[] c' s'| | | |] eqn:Hput; try done.
    replace (Z.succ (Z.of_nat i)) with (Z.of_nat (S i)) by lia. rewrite Z.pred_succ.
    apply (IH c' (S i) s'); lia.
Qed.

(** [consolewrite] writes all [n] bytes, in order, to the serial port and the
    screen, and [cprintf] all it formats; both leave the typed input alone. *)
Theorem console_output buf pid s :
  console_ok s →
  (∃ s', consolewrite (λ c, c) (λ c _, c) (ret tt) (ret tt) buf (Z.of_nat (length buf)) (cpu0 pid) s =
           Ret (Z.of_nat (length buf)) (cpu0 pid) s' ∧ printed (u8 <$> buf) s s') ∧
  ∀ str fmt args out, Cprintf.cprintf_loop str fmt args = Some out →
    Forall (λ ch, 0 <= ch < 256) out →
    ∃ s', cprintf str (Some fmt) args (cpu0 pid) s = Ret tt (cpu0 pid) s' ∧ printed out s s'.
Proof.
  intros Hok. split.
  - unfold consolewrite. erewrite bind_eq; [|done]. cbv beta. erewrite bind_eq; [|apply acquire_cpu0]. cbv beta.
    destruct (consputc_all (u8 <$> buf) (cpu1 pid LkCons) s Hok) as (s' & Heq & Hp).
    pose proof (consolewrite_loop buf 0 (cpu1 pid LkCons) s ltac:(lia)) as Hloop.
    rewrite Nat.sub_0_r, drop_0, Heq in Hloop. erewrite bind_eq; [|exact Hloop]. cbv beta.
    erewrite bind_eq; [|apply release_cpu1]. exists s'. split; [done|].
    rewrite echo_bytes in Hp; [done|]. apply Forall_fmap, Forall_true. intros b. apply Z.mod_pos_bound. lia.
  - intros str fmt args out Hout Hr.
    assert (∀ c, ∃ s', for_each out consputc c s = Ret tt c s' ∧ printed out s s') as Hall.
    { intros c. destruct (consputc_all out c s Hok) as (s' & Heq & Hp). rewrite echo_bytes in Hp by done. eauto. }
    unfold cprintf. erewrite bind_eq; [|done]. cbv beta zeta. destruct (locking s).
    + erewrite bind_eq; [|apply acquire_cpu0]. cbv beta. rewrite Hout. erewrite bind_eq; [|done]. cbv beta.
      destruct (Hall (cpu1 pid LkCons)) as (s' & Heq & Hp). erewrite bind_eq; [|exact Heq].
      exists s'. split; [apply release_cpu1|done].
    + erewrite bind_eq; [|done]. cbv beta. rewrite Hout. erewrite bind_eq; [|done]. cbv beta.
      destruct (Hall (cpu0 pid)) as (s' & Heq & Hp). erewrite bind_eq; [|exact Heq]. by exists s'.
Qed.

Lemma console_output_witness :
  ∃ s', cprintf (λ _, []) (Some [37; 120; 10]) [255] (cpu0 1) console_x = Ret tt (cpu0 1) s' ∧
    printed [102; 102; 10] console_x s'.
Proof.
  apply (proj2 (console_output [] 1 console_x console_x_ok) (λ _, []) [37; 120; 10] [255] [102; 102; 10]).
  - vm_compute; reflexivity.
  - repeat (constructor; [lia|]). constructor.
Defined.
