(* ===== verification/Kbd.v ===== *)
(** The keyboard driver ([kbd.c], [kbd.h]): from scan codes to characters. *)
From stdpp Require Import base list numbers strings.
From Stdlib Require Import ZArith Lia.
From S2P Require Import Prelude Machine Spinlock Ring Console.
Local Open Scope Z_scope.

Definition SHIFT : Z := 1.
Definition CTL : Z := 2.
Definition ALT : Z := 4.
Definition CAPSLOCK : Z := 8.
Definition NUMLOCK : Z := 16.
Definition SCROLLLOCK : Z := 32.
Definition E0ESC : Z := 64.

(** A [uchar[256]] with an initializer: the first elements, then designated ones. *)
Definition designated (first : list Z) (des : list (Z * Z)) : list Z :=
  foldl (λ t '(i, v), <[Z.to_nat i := v]> t) (first ++ replicate (256 - length first) 0) des.

Definition shiftcode : list Z :=
  designated [] [(0x1D, CTL); (0x2A, SHIFT); (0x36, SHIFT); (0x38, ALT); (0x9D, CTL); (0xB8, ALT)].
Definition togglecode : list Z :=
  designated [] [(0x3A, CAPSLOCK); (0x45, NUMLOCK); (0x46, SCROLLLOCK)].

(** Characters are their codes; 0 is [NO]. *)
Definition normalmap : list Z :=
  designated
    [0; 27; 49; 50; 51; 52; 53; 54; 55; 56; 57; 48; 45; 61; 8; 9;
     113; 119; 101; 114; 116; 121; 117; 105; 111; 112; 91; 93; 10; 0; 97; 115;
     100; 102; 103; 104; 106; 107; 108; 59; 39; 96; 0; 92; 122; 120; 99; 118;
     98; 110; 109; 44; 46; 47; 0; 42; 0; 32; 0; 0; 0; 0; 0; 0;
     0; 0; 0; 0; 0; 0; 0; 55; 56; 57; 45; 52; 53; 54; 43; 49;
     50; 51; 48; 46; 0; 0; 0; 0]
    [(0x9C, 10); (0xB5, 47); (0xC8, 226); (0xD0, 227); (0xC9, 230); (0xD1, 231); (0xCB, 228); (0xCD, 229); (0x97, 224); (0xCF, 225); (0xD2, 232); (0xD3, 233)].

Definition shiftmap : list Z :=
  designated
    [0; 27; 33; 64; 35; 36; 37; 94; 38; 42; 40; 41; 95; 43; 8; 9;
     81; 87; 69; 82; 84; 89; 85; 73; 79; 80; 123; 125; 10; 0; 65; 83;
     68; 70; 71; 72; 74; 75; 76; 58; 34; 126; 0; 124; 90; 88; 67; 86;
     66; 78; 77; 60; 62; 63; 0; 42; 0; 32; 0; 0; 0; 0; 0; 0;
     0; 0; 0; 0; 0; 0; 0; 55; 56; 57; 45; 52; 53; 54; 43; 49;
     50; 51; 48; 46; 0; 0; 0; 0]
    [(0x9C, 10); (0xB5, 47); (0xC8, 226); (0xD0, 227); (0xC9, 230); (0xD1, 231); (0xCB, 228); (0xCD, 229); (0x97, 224); (0xCF, 225); (0xD2, 232); (0xD3, 233)].

Definition ctlmap : list Z :=
  designated
    [0; 0; 0; 0; 0; 0; 0; 0; 0; 0; 0; 0; 0; 0; 0; 0;
     17; 23; 5; 18; 20; 25; 21; 9; 15; 16; 0; 0; 13; 0; 1; 19;
     4; 6; 7; 8; 10; 11; 12; 0; 0; 0; 0; 28; 26; 24; 3; 22;
     2; 14; 13; 0; 0; u8 (-17); 0; 0]
    [(0x9C, 13); (0xB5, u8 (-17)); (0xC8, 226); (0xD0, 227); (0xC9, 230); (0xD1, 231); (0xCB, 228); (0xCD, 229); (0x97, 224); (0xCF, 225); (0xD2, 232); (0xD3, 233)].

(** [charcode[shift & (CTL | SHIFT)]]. *)
Definition charcode (i : Z) : list Z :=
  if i =? 0 then normalmap else if i =? 1 then shiftmap else ctlmap.

(** [kbdgetc], once the controller has a byte [data]: the new value of [shift] and the
    result.  Without a byte the result is -1 and nothing changes. *)
Definition kbdgetc (shift data : Z) : Z * Z :=
  if data =? 0xE0 then (Z.lor shift E0ESC, 0)
  else if negb (Z.land data 0x80 =? 0) then
    (* Key released *)
    let data := if negb (Z.land shift E0ESC =? 0) then data else Z.land data 0x7F in
    (Z.land shift (Z.lnot (Z.lor (shiftcode !!! Z.to_nat data) E0ESC)), 0)
  else
    let '(data, shift) :=
      (* Last character was an E0 escape; or with 0x80 *)
      if negb (Z.land shift E0ESC =? 0)
      then (Z.lor data 0x80, Z.land shift (Z.lnot E0ESC)) else (data, shift) in
    let shift := Z.lor shift (shiftcode !!! Z.to_nat data) in
    let shift := Z.lxor shift (togglecode !!! Z.to_nat data) in
    let c := charcode (Z.land shift (Z.lor CTL SHIFT)) !!! Z.to_nat data in
    let c := if negb (Z.land shift CAPSLOCK =? 0) then
               (if (97 <=? c) && (c <=? 122) then u32 (c + (65 - 97))
                else if (65 <=? c) && (c <=? 90) then u32 (c + (97 - 65)) else c)
             else c in
    (shift, c).

(** [kbdintr]: [consoleintr] calls [kbdgetc] until the controller has no byte left. *)
Fixpoint kbd_chars (shift : Z) (bytes : list Z) : Z * list Z :=
  match bytes with
  | [] => (shift, [])
  | b :: bytes' =>
      let '(shift, c) := kbdgetc shift b in
      let '(shift, cs) := kbd_chars shift bytes' in (shift, c :: cs)
  end.
Definition kbdintr (shift : Z) (bytes : list Z) : Z * M console bool :=
  let '(shift, cs) := kbd_chars shift bytes in (shift, consoleintr cs).

(** * Checking every state and scan code *)

Definition all_below (n : Z) (p : Z → bool) : bool := forallb p (seqZ 0 n).

Lemma all_below_spec n p x : all_below n p = true → 0 <= x < n → p x = true.
Proof.
  intros H Hx. apply (proj1 (forallb_forall p _) H), list_elem_of_In, elem_of_seqZ. lia.
Qed.

Lemma tables_length :
  length shiftcode = 256%nat ∧ length togglecode = 256%nat ∧
  Forall (λ i, length (charcode i) = 256%nat) [0; 1; 2; 3].
Proof. vm_compute. repeat constructor. Qed.

Definition range_ok (s d : Z) : bool :=
  let '(s', c) := kbdgetc s d in
  (0 <=? s') && (s' <? 128) && (0 <=? c) && (c <? 256) &&
  (if d =? 0xE0 then negb (Z.land s' E0ESC =? 0) && (c =? 0) else Z.land s' E0ESC =? 0).

Lemma range_all : all_below 128 (λ s, all_below 256 (range_ok s)) = true.
Proof. vm_compute. reflexivity. Qed.

Lemma kbdgetc_range s d :
  0 <= s < 128 → 0 <= d < 256 →
  let '(s', c) := kbdgetc s d in 0 <= s' < 128 ∧ 0 <= c < 256.
Proof.
  intros Hs Hd. pose proof (all_below_spec _ _ _ (all_below_spec _ _ _ range_all Hs) Hd) as H.
  unfold range_ok in H. destruct (kbdgetc s d) as [s' c].
  rewrite !andb_true_iff in H. lia.
Qed.

Lemma kbd_chars_range bytes s :
  0 <= s < 128 → Forall (λ d, 0 <= d < 256) bytes →
  let '(s', cs) := kbd_chars s bytes in 0 <= s' < 128 ∧ Forall (λ c, 0 <= c < 256) cs.
Proof.
  intros Hs Hb. revert s Hs. induction Hb as [|b bytes Hb _ IH]; intros s Hs; cbn [kbd_chars]; [done|].
  pose proof (kbdgetc_range s b Hs Hb) as H. destruct (kbdgetc s b) as [s1 c]. destruct H as [Hs1 Hc].
  specialize (IH s1 Hs1). destruct (kbd_chars s1 bytes) as [s2 cs]. destruct IH. split; [done|by constructor].
Qed.

(** The scan codes of the letters, a to z. *)
Definition letter_keys : list Z :=
  [0x1E; 0x30; 0x2E; 0x20; 0x12; 0x21; 0x22; 0x23; 0x17; 0x24; 0x25; 0x26; 0x32;
   0x31; 0x18; 0x19; 0x10; 0x13; 0x1F; 0x14; 0x16; 0x2F; 0x11; 0x2D; 0x15; 0x2C].

Definition letter_code (shift k : Z) : Z :=
  if negb (Z.land shift CTL =? 0) then k + 1
  else if xorb (negb (Z.land shift SHIFT =? 0)) (negb (Z.land shift CAPSLOCK =? 0)) then 65 + k
  else 97 + k.

Definition letter_ok (s k : Z) : bool :=
  let '(s', c) := kbdgetc s (letter_keys !!! Z.to_nat k) in (s' =? s) && (c =? letter_code s k).

Lemma letters_all : all_below 64 (λ s, all_below 26 (letter_ok s)) = true.
Proof. vm_compute. reflexivity. Qed.

(** The modifier keys: scan code, whether it follows an 0xE0, and bit. *)
Definition modifiers : list (list Z * Z) :=
  [([0x1D], CTL); ([0x2A], SHIFT); ([0x36], SHIFT); ([0x38], ALT);
   ([0xE0; 0x1D], CTL); ([0xE0; 0x38], ALT)].
(** The scan code a key sends when it is released. *)
Definition release_code (p : list Z) : list Z :=
  (λ b, if b =? 0xE0 then b else Z.lor b 0x80) <$> p.

Definition modifier_ok (s i : Z) : bool :=
  let '(press, bit) := modifiers !!! Z.to_nat i in
  let '(s1, c1) := kbd_chars s press in
  let '(s2, c2) := kbd_chars s1 (release_code press) in
  (s1 =? Z.lor s bit) && (s2 =? Z.land s (Z.lnot bit)) && forallb (Z.eqb 0) (c1 ++ c2).

Lemma modifiers_all : all_below 64 (λ s, all_below 6 (modifier_ok s)) = true.
Proof. vm_compute. reflexivity. Qed.

(** * Properties *)

(** Typing on the keyboard: whatever bytes the controller delivers, [kbdintr]
    runs without reading outside of the key tables ([tables_length]) and without
    panicking, keeps [shift] a set of the seven flags, and hands to the line
    discipline characters it knows (0 to 255, where 0 is dropped). *)
Theorem kbdintr_types bytes shift pid s t :
  Forall (λ d, 0 <= d < 256) bytes → 0 <= shift < 128 → console_ok s → input_rel (inp s) t →
  let '(shift', cs) := kbd_chars shift bytes in
  0 <= shift' < 128 ∧ kbdintr shift bytes = (shift', consoleintr cs) ∧
  ∃ s', consoleintr cs (cpu0 pid) s = Ret (existsb (Z.eqb (C 80)) cs) (cpu0 pid) s' ∧
    console_ok s' ∧ input_rel (inp s') (foldl (λ t ch, typed_char ch t) t cs).
Proof.
  intros Hb Hs Hok HR. pose proof (kbd_chars_range bytes shift Hs Hb) as H. unfold kbdintr.
  destruct (kbd_chars shift bytes) as [shift' cs]. destruct H as [Hs' Hcs].
  split; [done|]. split; [done|]. by apply consoleintr_spec.
Qed.

(** Shift down, H, shift up, I, Return. *)
Lemma kbdintr_types_witness :
  ∃ s', consoleintr [0; 72; 0; 0; 105; 0; 10; 0] (cpu0 1) console_x = Ret false (cpu0 1) s' ∧
    input_rel (inp s') (Typed [72; 105; 10] []).
Proof.
  destruct (kbdintr_types [0x2A; 0x23; 0xA3; 0xAA; 0x17; 0x97; 0x1C; 0x9C] 0 1 console_x (Typed [] []))
    as (_ & _ & s' & Heq & _ & HR);
    [repeat (constructor; [lia|]); constructor|lia|apply console_x_ok|apply console_x_input|].
  exists s'. split; [exact Heq|exact HR].
Defined.

(** The keys mean what is printed on them: in every state without a pending escape,
    a letter key gives the letter's control code with Control held and otherwise the
    letter, in upper case exactly when one of Shift and Caps Lock is on; a modifier key
    sets its flag while it is pressed and clears it when released, and produces no
    character. *)
Theorem kbdgetc_keys shift :
  0 <= shift < 64 →
  (∀ k, 0 <= k < 26 → kbdgetc shift (letter_keys !!! Z.to_nat k) = (shift, letter_code shift k)) ∧
  (∀ press bit, (press, bit) ∈ modifiers →
     ∃ c1 c2, kbd_chars shift press = (Z.lor shift bit, c1) ∧
       kbd_chars (Z.lor shift bit) (release_code press) = (Z.land shift (Z.lnot bit), c2) ∧
       Forall (eq 0) (c1 ++ c2)).
Proof.
  intros Hs. split.
  - intros k Hk. pose proof (all_below_spec _ _ _ (all_below_spec _ _ _ letters_all Hs) Hk) as H.
    unfold letter_ok in H. destruct (kbdgetc shift _) as [s' c].
    apply andb_true_iff in H as [->%Z.eqb_eq ->%Z.eqb_eq]. done.
  - intros press bit Hin. apply list_elem_of_lookup_1 in Hin as [i Hi].
    assert (0 <= Z.of_nat i < 6) as Hi6 by (apply lookup_lt_Some in Hi; cbn in Hi; lia).
    pose proof (all_below_spec _ _ _ (all_below_spec _ _ _ modifiers_all Hs) Hi6) as H.
    unfold modifier_ok in H. rewrite Nat2Z.id, (list_lookup_total_correct _ _ _ Hi) in H.
    destruct (kbd_chars shift press) as [s1 c1]. destruct (kbd_chars s1 (release_code press)) as [s2 c2] eqn:H2.
    apply andb_true_iff in H as [[->%Z.eqb_eq ->%Z.eqb_eq]%andb_true_iff H0].
    exists c1, c2. split; [done|]. split; [done|]. apply Forall_forall. intros x Hx.
    apply Z.eqb_eq. by apply (proj1 (forallb_forall _ _) H0), list_elem_of_In.
Qed.

Lemma kbdgetc_keys_witness : kbdgetc CAPSLOCK 0x1E = (CAPSLOCK, 65).
Proof. apply (proj1 (kbdgetc_keys 8 ltac:(lia)) 0). lia. Defined.
