(* ===== verification/Grep.v ===== *)
(** The grep program ([grep.c]): its regular expression matcher and its line buffer. *)
From stdpp Require Import base list numbers strings sets.
From Stdlib Require Import ZArith Lia.
From S2P Require Import Prelude.
Local Open Scope Z_scope.

(** C strings are the bytes before the NUL; past the last byte of a string [re[0]]
    and [*text] are NUL. *)
Definition HAT : Z := 94.
Definition DOLLAR : Z := 36.
Definition DOT : Z := 46.
Definition STAR : Z := 42.
Definition NL : Z := 10.

(** * The matcher *)

(** [matchstar]'s loop over [text], for the matcher [here] of the rest of the
    expression. *)
Fixpoint matchstar (c : Z) (here : list Z → bool) (text : list Z) : bool :=
  if here text then true
  else match text with
       | [] => false
       | x :: text' => if (x =? c) || (c =? DOT) then matchstar c here text' else false
       end.

(** [matchhere]: search for [re] at the beginning of [text]. *)
Fixpoint matchhere (re : list Z) (text : list Z) : bool :=
  match re with
  | [] => true
  | c :: re' =>
      match re' with
      | d :: re'' =>
          if d =? STAR then matchstar c (matchhere re'') text
          else match text with
               | [] => false
               | x :: text' => if (c =? DOT) || (c =? x) then matchhere re' text' else false
               end
      | [] =>
          if c =? DOLLAR then match text with [] => true | _ => false end
          else match text with
               | [] => false
               | x :: text' => if (c =? DOT) || (c =? x) then matchhere re' text' else false
               end
      end
  end.

(** The [do] loop of [match_]: every suffix of [text], the empty one too. *)
Fixpoint match_suffixes (re text : list Z) : bool :=
  if matchhere re text then true
  else match text with [] => false | _ :: text' => match_suffixes re text' end.

Definition match_ (re text : list Z) : bool :=
  match re with
  | c :: re' => if c =? HAT then matchhere re' text else match_suffixes re text
  | [] => match_suffixes re text
  end.

(** * The line buffer *)

(** The inner loop of [grep] over the buffer contents [b]: the lines printed, and
    what is left after the last newline. *)
Fixpoint scan_lines (pattern cur b : list Z) : list Z * list Z :=
  match b with
  | [] => ([], cur)
  | x :: b' =>
      if x =? NL then
        let '(o, rest) := scan_lines pattern [] b' in
        ((if match_ pattern cur then cur ++ [NL] else []) ++ o, rest)
      else scan_lines pattern (cur ++ [x]) b'
  end.

(** [grep] on the data successive [read] calls return, text without NUL bytes; [m] bytes are
    left over from the reads before.  Without a newline in the buffer, [p == buf] and [m = 0]. *)
Fixpoint grep_loop (pattern left_ : list Z) (reads : list (list Z)) : list Z :=
  match reads with
  | [] => []
  | data :: reads' =>
      match data with
      | [] => []
      | _ =>
          let b := left_ ++ data in
          let '(o, rest) := scan_lines pattern [] b in
          let left' := if bool_decide (NL ∈ b) then rest else [] in
          o ++ grep_loop pattern left' reads'
      end
  end.
Definition grep (pattern : list Z) (reads : list (list Z)) : list Z := grep_loop pattern [] reads.

(** * The language of an expression *)

Inductive tok := TChar (c : Z) | TStar (c : Z) | TEnd.

Fixpoint parse (re : list Z) : list tok :=
  match re with
  | [] => []
  | c :: re' =>
      match re' with
      | d :: re'' => if d =? STAR then TStar c :: parse re'' else TChar c :: parse re'
      | [] => if c =? DOLLAR then [TEnd] else [TChar c]
      end
  end.

(** The character [c] of an expression stands for the byte [x]. *)
Definition stands (c x : Z) : Prop := c = DOT ∨ c = x.

(** [denotes ts w rest]: the expression [ts] matches [w] when [rest] follows. *)
Inductive denotes : list tok → list Z → list Z → Prop :=
| den_nil rest : denotes [] [] rest
| den_end : denotes [TEnd] [] []
| den_char c ts x w rest : stands c x → denotes ts w rest → denotes (TChar c :: ts) (x :: w) rest
| den_star c ts u w rest :
    Forall (stands c) u → denotes ts w rest → denotes (TStar c :: ts) (u ++ w) rest.

Definition matches_here (ts : list tok) (text : list Z) : Prop :=
  ∃ w rest, text = w ++ rest ∧ denotes ts w rest.

Lemma matches_nil text : matches_here [] text.
Proof. exists [], text. split; [done|constructor]. Qed.

Lemma matches_end text : matches_here [TEnd] text ↔ text = [].
Proof.
  split.
  - intros (w & rest & -> & H). by inversion H.
  - intros ->. exists [], []. split; [done|constructor].
Qed.

Lemma matches_char c ts text :
  matches_here (TChar c :: ts) text ↔ ∃ x text', text = x :: text' ∧ stands c x ∧ matches_here ts text'.
Proof.
  split.
  - intros (w & rest & -> & H). inversion H as [| |? ? x w' ? Hs Hd|]; subst. exists x, (w' ++ rest).
    split; [done|]. split; [done|]. by exists w', rest.
  - intros (x & text' & -> & Hs & w & rest & -> & Hd). exists (x :: w), rest.
    split; [done|]. by constructor.
Qed.

Lemma matches_star c ts text :
  matches_here (TStar c :: ts) text ↔
  matches_here ts text ∨
  ∃ x text', text = x :: text' ∧ stands c x ∧ matches_here (TStar c :: ts) text'.
Proof.
  split.
  - intros (w & rest & -> & H). inversion H as [| | |? ? u w' ? Hs Hd]; subst.
    destruct Hs as [|x u Hx Hu].
    + left. by exists w', rest.
    + right. exists x, (u ++ w' ++ rest). cbn. rewrite <- app_assoc. split; [done|]. split; [done|].
      exists (u ++ w'), rest. rewrite <- app_assoc. split; [done|]. by constructor.
  - intros [(w & rest & -> & Hd)|(x & text' & -> & Hx & w & rest & -> & H)].
    + exists w, rest. split; [done|]. by apply (den_star c ts []).
    + inversion H as [| | |? ? u w' ? Hs Hd]; subst. exists ((x :: u) ++ w'), rest. cbn.
      split; [done|]. apply (den_star c ts (x :: u)); [by constructor|done].
Qed.

Lemma stands_b c x : (c =? DOT) || (c =? x) = true ↔ stands c x.
Proof. unfold stands. rewrite orb_true_iff, !Z.eqb_eq. done. Qed.
Lemma stands_b' c x : (x =? c) || (c =? DOT) = true ↔ stands c x.
Proof. unfold stands. rewrite orb_true_iff, !Z.eqb_eq. naive_solver. Qed.

Lemma matchstar_spec c ts here text :
  (∀ t, here t = true ↔ matches_here ts t) →
  matchstar c here text = true ↔ matches_here (TStar c :: ts) text.
Proof.
  intros Hh. induction text as [|x text IH]; cbn [matchstar]; rewrite matches_star, <- Hh.
  - destruct (here []); [naive_solver|]. split; [done|]. intros [?|(x & t & ? & _)]; done.
  - destruct (here (x :: text)); [naive_solver|].
    destruct ((x =? c) || (c =? DOT)) eqn:Hs.
    + apply stands_b' in Hs. rewrite IH. naive_solver.
    + split; [done|]. intros [?|(y & t & [= <- <-] & Hy & _)]; [done|].
      apply stands_b' in Hy. congruence.
Qed.

(** One ordinary character. *)
Lemma char_spec c ts text (k : list Z → bool) :
  (∀ t, k t = true ↔ matches_here ts t) →
  match text with
  | [] => false
  | x :: text' => if (c =? DOT) || (c =? x) then k text' else false
  end = true ↔ matches_here (TChar c :: ts) text.
Proof.
  intros Hk. rewrite matches_char. destruct text as [|x text]; [split; [done|naive_solver]|].
  destruct ((c =? DOT) || (c =? x)) eqn:Hs.
  - apply stands_b in Hs. rewrite Hk. naive_solver.
  - split; [done|]. intros (y & t & [= <- <-] & Hy & _). apply stands_b in Hy. congruence.
Qed.

Lemma matchhere_spec re text : matchhere re text = true ↔ matches_here (parse re) text.
Proof.
  enough (∀ n re, (length re <= n)%nat → ∀ text, matchhere re text = true ↔ matches_here (parse re) text)
    as H by (by apply (H (length re))).
  clear re text. intros n. induction n as [|n IH]; intros re Hlen text.
  { destruct re; [|cbn in Hlen; lia]. split; [intros _; apply matches_nil|done]. }
  destruct re as [|c [|d re]]; cbn [length] in Hlen.
  - split; [intros _; apply matches_nil|done].
  - cbn [matchhere parse]. destruct (Z.eqb_spec c DOLLAR).
    + rewrite matches_end. destruct text; naive_solver.
    + apply char_spec. intros t. split; [intros _; apply matches_nil|done].
  - cbn [parse]. change (matchhere (c :: d :: re) text) with
      (if d =? STAR then matchstar c (matchhere re) text
       else match text with
            | [] => false
            | x :: text' => if (c =? DOT) || (c =? x) then matchhere (d :: re) text' else false
            end).
    destruct (d =? STAR).
    + apply matchstar_spec. intros t. apply IH. lia.
    + apply char_spec. intros t. apply IH. cbn. lia.
Qed.

Lemma match_suffixes_spec re text :
  match_suffixes re text = true ↔ ∃ pre suf, text = pre ++ suf ∧ matches_here (parse re) suf.
Proof.
  induction text as [|x text IH]; cbn [match_suffixes].
  - destruct (matchhere re []) eqn:Hm.
    + apply matchhere_spec in Hm. split; [|done]. intros _. by exists [], [].
    + split; [done|]. intros ([|] & suf & Heq & Hs); [|done]. cbn in Heq. subst.
      apply matchhere_spec in Hs. congruence.
  - destruct (matchhere re (x :: text)) eqn:Hm.
    + apply matchhere_spec in Hm. split; [|done]. intros _. by exists [], (x :: text).
    + rewrite IH. split.
      * intros (pre & suf & -> & Hs). by exists (x :: pre), suf.
      * intros ([|y pre] & suf & Heq & Hs); cbn in Heq.
        -- subst. apply matchhere_spec in Hs. congruence.
        -- injection Heq as -> ->. by exists pre, suf.
Qed.

(** * The lines of a text *)

(** The lines of [b] that end in a newline, with [cur] the beginning of the first,
    and the text after the last newline. *)
Fixpoint lines (cur b : list Z) : list (list Z) * list Z :=
  match b with
  | [] => ([], cur)
  | x :: b' =>
      if x =? NL then let '(ls, rest) := lines [] b' in (cur :: ls, rest)
      else lines (cur ++ [x]) b'
  end.

(** What grep is meant to print for the lines [ls]. *)
Definition grep_output (pattern : list Z) (ls : list (list Z)) : list Z :=
  concat ((λ l, l ++ [NL]) <$> filter (λ l, match_ pattern l = true) ls).

Lemma scan_lines_spec pattern cur b :
  scan_lines pattern cur b = (grep_output pattern (lines cur b).1, (lines cur b).2).
Proof.
  revert cur. induction b as [|x b IH]; intros cur; cbn [scan_lines lines]; [done|].
  destruct (x =? NL); [|apply IH]. rewrite IH. destruct (lines [] b) as [ls rest]. cbn [fst snd].
  f_equal. unfold grep_output. destruct (match_ pattern cur) eqn:Hm.
  - by rewrite filter_cons_True.
  - by rewrite filter_cons_False by congruence.
Qed.

Lemma lines_app cur b1 b2 :
  lines cur (b1 ++ b2) =
  ((lines cur b1).1 ++ (lines (lines cur b1).2 b2).1, (lines (lines cur b1).2 b2).2).
Proof.
  revert cur. induction b1 as [|x b1 IH]; intros cur; cbn [lines app].
  - cbn. by destruct (lines cur b2).
  - destruct (x =? NL); [|apply IH]. rewrite IH. destruct (lines [] b1) as [ls rest]. cbn [fst snd]. by destruct (lines rest b2).
Qed.

Lemma lines_cur cur b : NL ∉ cur → lines [] (cur ++ b) = lines cur b.
Proof.
  intros Hcur. enough (∀ pre, lines pre (cur ++ b) = lines (pre ++ cur) b) as H by apply H.
  induction cur as [|x cur IH]; intros pre; cbn [lines app]; [by rewrite app_nil_r|].
  apply not_elem_of_cons in Hcur as [Hx Hcur].
  destruct (Z.eqb_spec x NL); [congruence|]. rewrite IH by done. by rewrite <- app_assoc.
Qed.

Lemma lines_rest cur b : NL ∉ cur → NL ∉ (lines cur b).2.
Proof.
  revert cur. induction b as [|x b IH]; intros cur Hcur; cbn [lines]; [done|].
  destruct (Z.eqb_spec x NL).
  - specialize (IH [] (not_elem_of_nil _)). by destruct (lines [] b).
  - apply IH. apply not_elem_of_app. split; [done|]. by apply not_elem_of_cons; split; [|apply not_elem_of_nil].
Qed.

Lemma grep_output_app pattern l1 l2 :
  grep_output pattern (l1 ++ l2) = grep_output pattern l1 ++ grep_output pattern l2.
Proof. unfold grep_output. by rewrite filter_app, fmap_app, concat_app. Qed.

Lemma grep_loop_spec pattern left_ reads :
  NL ∉ left_ → Forall (λ d, NL ∈ d) reads →
  grep_loop pattern left_ reads = grep_output pattern (lines left_ (concat reads)).1.
Proof.
  intros Hl Hr. revert left_ Hl. induction Hr as [|d reads Hd Hr IH]; intros left_ Hl; cbn [grep_loop concat].
  - done.
  - destruct d as [|x d]; [by apply not_elem_of_nil in Hd|]. set (data := x :: d) in *.
    rewrite scan_lines_spec, bool_decide_eq_true_2 by (apply elem_of_app; by right).
    rewrite lines_cur by done. rewrite lines_app. cbn [fst snd]. rewrite grep_output_app. f_equal.
    apply IH. by apply lines_rest.
Qed.

(** * Properties *)

(** C38: The matcher accepts exactly the language of the expression: [match] says yes
    when the expression, with its leading [^] taken off, denotes some part of the text
    (the beginning of it, after a [^]), where [c*] stands for any number of [c], [.]
    for any byte, and a final [$] for the end of the text. *)
Theorem match_language re text :
  match_ re text = true ↔
  match re with
  | c :: re' => if c =? HAT then matches_here (parse re') text
                else ∃ pre suf, text = pre ++ suf ∧ matches_here (parse re) suf
  | [] => ∃ pre suf, text = pre ++ suf ∧ matches_here (parse re) suf
  end.
Proof.
  destruct re as [|c re]; cbn [match_].
  - apply match_suffixes_spec.
  - destruct (c =? HAT); [apply matchhere_spec|apply match_suffixes_spec].
Qed.

(** grep prints the matching lines.  When every [read] brings at least one
    newline, the output is the matching lines of the input, in order, however the
    input was cut into reads. *)
Theorem grep_prints_matching_lines pattern reads :
  Forall (λ d, NL ∈ d) reads →
  grep pattern reads = grep_output pattern (lines [] (concat reads)).1.
Proof. intros H. by apply grep_loop_spec; [apply not_elem_of_nil|]. Qed.

Lemma grep_prints_matching_lines_witness :
  grep [97; STAR; 98] [[97; 97; 98; NL; 99]; [99; NL]] = [97; 97; 98; NL].
Proof.
  transitivity (grep_output [97; STAR; 98] (lines [] (concat [[97; 97; 98; NL; 99]; [99; NL]])).1);
    [|vm_compute; reflexivity].
  apply (grep_prints_matching_lines [97; STAR; 98] [[97; 97; 98; NL; 99]; [99; NL]]).
  repeat constructor; unfold NL; set_solver.
Defined.

(** grep forgets the beginning of a line whose newline comes in a later read: the
    same input, read in one piece or in two, prints a line or nothing. *)
Theorem grep_loses_split_lines :
  grep [97] [[97; NL]] = [97; NL] ∧ grep [97] [[97]; [NL]] = [].
Proof. split; vm_compute; reflexivity. Qed.
