(* ===== verification/Sh.v ===== *)
(** The shell's parser ([sh.c]): from a line of text to a command tree whose words
    point into the line. *)
From stdpp Require Import base list numbers strings sets.
From Stdlib Require Import ZArith Lia.
From S2P Require Import Prelude.

(** * Data *)

Definition MAXARGS : nat := 10.
Definition O_RDONLY : Z := 0.
Definition O_WRONLY : Z := 1.
Definition O_CREATE : Z := 512.

(** A word of the line: the pointers to its beginning and behind its end. *)
Abbreviation word := (nat * nat)%type.

(** [struct cmd] and the structures it is cast to.  [argv] and [eargv] of an EXEC
    command are one list of words. *)
Inductive cmd :=
| EXEC (argv : list word)
| REDIR (c : cmd) (file : word) (mode fd : Z)
| PIPE (left right : cmd)
| LIST (left right : cmd)
| BACK (c : cmd).

(** What a parsing function does: return, with the new value of [*ps]; print a message
    and exit ([panic]); or run out of fuel. *)
Inductive pres (A : Type) :=
| POk (a : A) (s : nat)
| PPanic (msg : string)
| PHang.
Arguments POk {A} a s.
Arguments PPanic {A} msg.
Arguments PHang {A}.

Definition pbind {A B} (m : pres A) (f : A → nat → pres B) : pres B :=
  match m with POk a s => f a s | PPanic msg => PPanic msg | PHang => PHang end.
Notation "'let*' ( x , s ) := m 'in' k" := (pbind m (λ x s, k))
  (at level 200, x name, s name, m at level 200, k at level 200).

(** [strchr(set, c) != 0], which never finds the NUL. *)
Definition strchr (set : list Z) (c : Z) : bool := bool_decide (c ≠ 0%Z) && bool_decide (c ∈ set).

Definition whitespace : list Z := [32; 9; 13; 10; 11]%Z.
(** [<|>&;()] *)
Definition symbols : list Z := [60; 124; 62; 38; 59; 40; 41]%Z.

(** * Lexing *)

(** The characters at the front of [l] that satisfy [p]. *)
Fixpoint span (p : Z → bool) (l : list Z) : nat :=
  match l with [] => 0 | c :: l' => if p c then S (span p l') else 0 end.

Section parser.
(** The line, up to [es], where there is a NUL. *)
Context (text : list Z).
Abbreviation es := (length text).

(** [*s], for [s <= es]. *)
Definition chr (s : nat) : Z := default 0%Z (text !! s).
(** [while(s < es && p( *s)) s++]. *)
Definition skip (p : Z → bool) (s : nat) : nat := s + span p (drop s text).

Definition is_word (c : Z) : bool := negb (strchr whitespace c) && negb (strchr symbols c).

(** The token's code, its place, and the new [*ps]; 'a' is 97 and '+' is 43. *)
Definition gettoken (s : nat) : Z * word * nat :=
  let s := skip (strchr whitespace) s in
  let q := s in
  let c := chr s in
  let '(ret, s) :=
    if (c =? 0)%Z then (c, s)
    else if strchr [124; 40; 41; 59; 38; 60]%Z c then (c, S s)
    else if (c =? 62)%Z then (if (chr (S s) =? 62)%Z then (43%Z, S (S s)) else (c, S s))
    else (97%Z, skip is_word s) in
  let eq := s in
  (ret, (q, eq), skip (strchr whitespace) s).

Definition peek (toks : list Z) (s : nat) : bool * nat :=
  let s := skip (strchr whitespace) s in
  (bool_decide (chr s ≠ 0%Z) && strchr toks (chr s), s).

(** * Parsing *)

Fixpoint parseredirs (fuel : nat) (c : cmd) (s : nat) : pres cmd :=
  match fuel with
  | O => PHang
  | S fuel' =>
      let '(p, s) := peek [60; 62]%Z s in
      if negb p then POk c s
      else
        let '(tok, _, s) := gettoken s in
        let '(t, file, s) := gettoken s in
        if negb (t =? 97)%Z then PPanic "missing file for redirection"
        else
          parseredirs fuel'
            (if (tok =? 60)%Z then REDIR c file O_RDONLY 0
             else if (tok =? 62)%Z then REDIR c file (Z.lor O_WRONLY O_CREATE) 1
             else if (tok =? 43)%Z then REDIR c file (Z.lor O_WRONLY O_CREATE) 1   (* >> *)
             else c) s
  end.

(** The command that [parseexec] is building: [cmd] points to the EXEC node inside of
    the redirections [ret] already has around it, and its arguments are stored there. *)
Fixpoint add_arg (w : word) (c : cmd) : cmd :=
  match c with
  | EXEC argv => EXEC (argv ++ [w])
  | REDIR c' file mode fd => REDIR (add_arg w c') file mode fd
  | c => c
  end.

(** The loop of [parseexec]. *)
Fixpoint parseargs (fuel : nat) (argc : nat) (ret : cmd) (s : nat) : pres cmd :=
  match fuel with
  | O => PHang
  | S fuel' =>
      let '(p, s) := peek [124; 41; 38; 59]%Z s in
      if p then POk ret s
      else
        let '(tok, w, s) := gettoken s in
        if (tok =? 0)%Z then POk ret s
        else if negb (tok =? 97)%Z then PPanic "syntax"
        else
          let ret := add_arg w ret in
          let argc := S argc in
          if (MAXARGS <=? argc)%nat then PPanic "too many args"
          else
            let* (ret, s) := parseredirs (S es) ret s in
            parseargs fuel' argc ret s
  end.

(** [while(peek(ps, es, "&"))] of [parseline]. *)
Fixpoint parseback (fuel : nat) (c : cmd) (s : nat) : pres cmd :=
  match fuel with
  | O => PHang
  | S fuel' =>
      let '(p, s) := peek [38]%Z s in
      if p then let '(_, _, s) := gettoken s in parseback fuel' (BACK c) s
      else POk c s
  end.

Fixpoint parseline (fuel s : nat) : pres cmd :=
  match fuel with
  | O => PHang
  | S fuel =>
      let* (c, s) := parsepipe fuel s in
      let* (c, s) := parseback (S es) c s in
      let '(p, s) := peek [59]%Z s in
      if p then
        let '(_, _, s) := gettoken s in
        let* (r, s) := parseline fuel s in
        POk (LIST c r) s
      else POk c s
  end
with parsepipe (fuel s : nat) : pres cmd :=
  match fuel with
  | O => PHang
  | S fuel =>
      let* (c, s) := parseexec fuel s in
      let '(p, s) := peek [124]%Z s in
      if p then
        let '(_, _, s) := gettoken s in
        let* (r, s) := parsepipe fuel s in
        POk (PIPE c r) s
      else POk c s
  end
with parseblock (fuel s : nat) : pres cmd :=
  match fuel with
  | O => PHang
  | S fuel =>
      let '(p, s) := peek [40]%Z s in
      if negb p then PPanic "parseblock"
      else
        let '(_, _, s) := gettoken s in
        let* (c, s) := parseline fuel s in
        let '(p, s) := peek [41]%Z s in
        if negb p then PPanic "syntax - missing )"
        else
          let '(_, _, s) := gettoken s in
          parseredirs (S es) c s
  end
with parseexec (fuel s : nat) : pres cmd :=
  match fuel with
  | O => PHang
  | S fuel =>
      let '(p, s) := peek [40]%Z s in
      if p then parseblock fuel s
      else
        let* (ret, s) := parseredirs (S es) (EXEC []) s in
        parseargs (S es) 0 ret s
  end.

(** * NUL termination *)

(** The places where [nulterminate] stores a NUL, in order. *)
Fixpoint nul_places (c : cmd) : list nat :=
  match c with
  | EXEC argv => argv.*2
  | REDIR c file _ _ => nul_places c ++ [file.2]
  | PIPE l r | LIST l r => nul_places l ++ nul_places r
  | BACK c => nul_places c
  end.
Definition nulterminate (c : cmd) (buf : list Z) : list Z :=
  foldl (λ b p, <[p := 0%Z]> b) buf (nul_places c).
End parser.

(** [parsecmd]: the command and the buffer it points into.  Four levels of calls for a
    character of the line are enough ([parsecmd_total]). *)
Definition parsecmd (text : list Z) : pres (cmd * list Z) :=
  let* (c, s) := parseline text (4 * length text + 4) 0 in
  let '(_, s) := peek text [] s in
  if decide (s = length text) then POk (c, nulterminate c (text ++ [0%Z])) s
  else PPanic "syntax".

(** * Lexing lemmas *)

Lemma span_le p l : span p l <= length l.
Proof. induction l as [|c l IH]; cbn; [done|]. destruct (p c); lia. Qed.

Lemma span_in p l i : i < span p l → p (default 0%Z (l !! i)) = true.
Proof.
  revert i. induction l as [|c l IH]; intros i H; cbn in H; [lia|].
  destruct (p c) eqn:Hc; [|lia]. destruct i as [|i]; [done|]. apply IH. lia.
Qed.

Lemma span_out p l : span p l < length l → p (default 0%Z (l !! span p l)) = false.
Proof.
  induction l as [|c l IH]; cbn; [lia|]. destruct (p c) eqn:Hc; cbn; [|done]. intros. apply IH. lia.
Qed.

Section lexing.
Context (text : list Z).
Abbreviation es := (length text).

Lemma chr_drop s i : default 0%Z (drop s text !! i) = chr text (s + i).
Proof. unfold chr. by rewrite lookup_drop. Qed.

Lemma skip_bounds p s : s <= es → s <= skip text p s <= es.
Proof. intros H. unfold skip. pose proof (span_le p (drop s text)) as Hl. rewrite length_drop in Hl. lia. Qed.

Lemma skip_in p s i : s <= i < skip text p s → p (chr text i) = true.
Proof.
  unfold skip. intros H. replace i with (s + (i - s)) by lia. rewrite <- chr_drop. apply span_in. lia.
Qed.

Lemma skip_out p s : s <= es → skip text p s < es → p (chr text (skip text p s)) = false.
Proof.
  unfold skip. intros Hs H. rewrite <- chr_drop. apply span_out. rewrite length_drop. lia.
Qed.

Lemma skip_idem p s : s <= es → skip text p (skip text p s) = skip text p s.
Proof.
  intros Hs. pose proof (skip_bounds p s Hs) as Hb.
  destruct (decide (skip text p (skip text p s) = skip text p s)); [done|].
  pose proof (skip_bounds p (skip text p s) ltac:(lia)).
  pose proof (skip_in p (skip text p s) (skip text p s) ltac:(lia)) as H1.
  rewrite skip_out in H1; [done|done|lia].
Qed.

Lemma chr_es s : es <= s → chr text s = 0%Z.
Proof. intros H. unfold chr. by rewrite lookup_ge_None_2. Qed.

Lemma chr_nz s : Forall (λ c, c ≠ 0%Z) text → s < es → chr text s ≠ 0%Z.
Proof.
  intros Hnz Hs. unfold chr. destruct (lookup_lt_is_Some_2 text s Hs) as [c Hc]. rewrite Hc. cbn.
  by apply (Forall_lookup_1 _ _ _ _ Hnz Hc).
Qed.

(** A word of the line: as long as it can be, and not empty. *)
Definition word_ok (w : word) : Prop :=
  w.1 < w.2 <= es ∧ (∀ i, w.1 <= i < w.2 → is_word (chr text i) = true) ∧
  (w.2 = es ∨ is_word (chr text w.2) = false).

Lemma is_word_split c : c ≠ 0%Z →
  strchr whitespace c = false → strchr [124; 40; 41; 59; 38; 60]%Z c = false → (c =? 62)%Z = false →
  is_word c = true.
Proof.
  unfold is_word, strchr. intros Hc. rewrite (bool_decide_eq_true_2 (c ≠ 0%Z)) by done. cbn [andb].
  intros -> H1 H2. cbn. apply negb_true_iff, bool_decide_eq_false. apply bool_decide_eq_false in H1.
  apply Z.eqb_neq in H2. unfold symbols. set_unfold. naive_solver.
Qed.

Context (Hnz : Forall (λ c, c ≠ 0%Z) text).

Lemma gettoken_spec s :
  s <= es →
  let '(t, w, s') := gettoken text s in
  s <= w.1 <= w.2 ∧ w.2 <= s' <= es ∧ (t = 0%Z ∨ s < s') ∧
  (t = 0%Z ↔ w.1 = es) ∧ (t = 97%Z → word_ok w).
Proof.
  intros Hs. unfold gettoken. set (q := skip text (strchr whitespace) s).
  pose proof (skip_bounds (strchr whitespace) s Hs) as Hq. fold q in Hq.
  assert (∀ e, q <= e <= es → e <= skip text (strchr whitespace) e <= es) as Hsk
    by (intros e He; apply skip_bounds; lia).
  destruct (Z.eqb_spec (chr text q) 0) as [H0|H0].
  { assert (q = es) as Hqe by (destruct (decide (q = es)); [done|]; by destruct (chr_nz q Hnz ltac:(lia))).
    specialize (Hsk q ltac:(lia)). cbn [fst snd]. rewrite H0.
    split; [lia|]. split; [lia|]. split; [by left|]. split; [done|done]. }
  assert (q < es) as Hqe by (destruct (decide (q < es)); [done|]; destruct H0; apply chr_es; lia).
  destruct (strchr [124; 40; 41; 59; 38; 60]%Z (chr text q)) eqn:Hsym.
  { specialize (Hsk (S q) ltac:(lia)). cbn [fst snd]. split; [lia|]. split; [lia|]. split; [right; lia|].
    split; [split; [done|lia]|]. intros H97. rewrite H97 in Hsym. done. }
  destruct (chr text q =? 62)%Z eqn:Hgt.
  { apply Z.eqb_eq in Hgt. destruct (Z.eqb_spec (chr text (S q)) 62) as [H2|H2].
    - assert (S q < es) by (destruct (decide (S q < es)); [done|]; rewrite chr_es in H2 by lia; done).
      specialize (Hsk (S (S q)) ltac:(lia)). cbn [fst snd].
      split; [lia|]. split; [lia|]. split; [right; lia|]. split; [split; [done|lia]|done].
    - specialize (Hsk (S q) ltac:(lia)). cbn [fst snd]. split; [lia|]. split; [lia|]. split; [right; lia|].
      split; [split; [done|lia]|]. rewrite Hgt. done. }
  pose proof (skip_out (strchr whitespace) s Hs) as Hws. fold q in Hws.
  pose proof (is_word_split _ H0 (Hws Hqe) Hsym Hgt) as Hw.
  pose proof (skip_bounds is_word q ltac:(lia)) as He.
  assert (q < skip text is_word q) as Hlt.
  { destruct (decide (skip text is_word q = q)) as [E|]; [|lia].
    pose proof (skip_out is_word q ltac:(lia)) as Ho. rewrite E in Ho. specialize (Ho Hqe). congruence. }
  specialize (Hsk (skip text is_word q) ltac:(lia)). cbn [fst snd].
  split; [lia|]. split; [lia|]. split; [right; lia|]. split; [split; [done|lia]|].
  intros _. unfold word_ok. cbn [fst snd].
  split; [lia|]. split; [intros i Hi; apply (skip_in is_word q); lia|].
  destruct (decide (skip text is_word q = es)); [by left|]. right. apply skip_out; lia.
Qed.

Lemma peek_spec toks s :
  s <= es → let '(p, s') := peek text toks s in
  s <= s' <= es ∧ (p = true → s' < es) ∧ s' = skip text (strchr whitespace) s'.
Proof.
  intros Hs. unfold peek. pose proof (skip_bounds (strchr whitespace) s Hs) as Hb.
  split; [done|]. split; [|by rewrite skip_idem].
  intros H. apply andb_true_iff in H as [H _]. apply bool_decide_eq_true in H.
  destruct (decide (skip text (strchr whitespace) s < es)); [done|]. destruct H. apply chr_es. lia.
Qed.

(** A token that was peeked at is there to be taken. *)
Lemma peek_gettoken toks s s1 t w s2 :
  s <= es → peek text toks s = (true, s1) → gettoken text s1 = (t, w, s2) → s <= s1 < s2 ∧ s2 <= es.
Proof.
  intros Hs Hp Ht. pose proof (peek_spec toks s Hs) as H. rewrite Hp in H. destruct H as (H1 & H2 & H3).
  specialize (H2 eq_refl). pose proof (gettoken_spec s1 ltac:(lia)) as H. rewrite Ht in H.
  destruct H as (Hw & Hs2 & [->|Hlt] & Hz & _); [|lia].
  unfold gettoken in Ht. rewrite <- H3 in Ht. destruct (Z.eqb_spec (chr text s1) 0) as [E|E].
  - by destruct (chr_nz s1 Hnz H2).
  - assert (w.1 = s1) as Hw1; [|pose proof (proj1 Hz eq_refl); lia].
    destruct (strchr _ (chr text s1)); [by injection Ht as _ <- _|].
    destruct (chr text s1 =? 62)%Z; [destruct (chr text (S s1) =? 62)%Z|]; by injection Ht as _ <- _.
Qed.
End lexing.
