(* ===== verification/ShProps.v ===== *)
(** Properties of the shell's parser: it always answers, its words are C strings, and
    it reads back every command that is printed. *)
From stdpp Require Import base list numbers strings sets.
From Stdlib Require Import ZArith Lia.
From S2P Require Import Prelude Sh.

(** * Every line is parsed *)

Section total.
Context (text : list Z) (Hnz : Forall (λ c, c ≠ 0%Z) text).
Abbreviation es := (length text).

(** The words of a command are words of the line, and the arguments fit [argv]. *)
Fixpoint cmd_ok (c : cmd) : Prop :=
  match c with
  | EXEC argv => length argv < MAXARGS ∧ Forall (word_ok text) argv
  | REDIR c file mode fd =>
      cmd_ok c ∧ word_ok text file ∧
      (mode = O_RDONLY ∧ fd = 0%Z ∨ mode = Z.lor O_WRONLY O_CREATE ∧ fd = 1%Z)
  | PIPE l r | LIST l r => cmd_ok l ∧ cmd_ok r
  | BACK c => cmd_ok c
  end.

(** A simple command with [n] arguments and its redirections. *)
Fixpoint simple (n : nat) (c : cmd) : Prop :=
  match c with
  | EXEC argv => length argv = n
  | REDIR c _ _ _ => simple n c
  | _ => False
  end.

Lemma add_arg_ok w n c :
  simple n c → cmd_ok c → S n < MAXARGS → word_ok text w →
  simple (S n) (add_arg w c) ∧ cmd_ok (add_arg w c).
Proof.
  intros Hs Hc Hn Hw. induction c; cbn in *; try done.
  - rewrite length_app, Forall_app, Forall_singleton. cbn. split; [lia|]. split; [lia|]. by destruct Hc.
  - destruct Hc as (H1 & H2 & H3). destruct (IHc Hs H1). done.
Qed.

(** The result of a parsing function called at [s]. *)
Definition good (P : cmd → Prop) (s : nat) (r : pres cmd) : Prop :=
  match r with
  | POk c s' => P c ∧ cmd_ok c ∧ s <= s' <= es
  | PPanic _ => True
  | PHang => False
  end.

Lemma good_from (P Q : cmd → Prop) s s' r :
  s <= s' → (∀ c, P c → Q c) → good P s' r → good Q s r.
Proof. intros Hs HPQ. destruct r; cbn; [|done..]. intros (? & ? & ?). split; [auto|]. split; [done|lia]. Qed.

Lemma good_bind (P Q : cmd → Prop) s s' r (f : cmd → nat → pres cmd) :
  good P s' r → s <= s' → (∀ c s1, P c → cmd_ok c → s' <= s1 <= es → good Q s (f c s1)) →
  good Q s (pbind r f).
Proof. intros Hr Hs Hf. destruct r; cbn in *; [|done..]. destruct Hr as (? & ? & ?). by apply Hf. Qed.

Lemma parseredirs_good P fuel c s :
  (∀ c file mode fd, P c → P (REDIR c file mode fd)) →
  P c → cmd_ok c → s <= es → es - s < fuel → good P s (parseredirs text fuel c s).
Proof.
  intros HP. revert c s. induction fuel as [|fuel IH]; intros c s Hc Hok Hs Hf; [lia|]. cbn [parseredirs].
  pose proof (peek_spec text [60; 62]%Z s Hs) as Hp. destruct (peek text [60; 62]%Z s) as [p s1].
  destruct Hp as (Hs1 & Hlt & _). destruct p; cbn [negb]; [|cbn; split; [done|]; split; [done|lia]].
  pose proof (gettoken_spec text Hnz s1 ltac:(lia)) as Ht. destruct (gettoken text s1) as [[tok w1] s2].
  destruct Ht as (Hw1 & Hs2 & Hprog & Hz & _).
  pose proof (gettoken_spec text Hnz s2 ltac:(lia)) as Ht. destruct (gettoken text s2) as [[t file] s3].
  destruct Ht as (Hw & Hs3 & Hprog' & _ & Hword).
  destruct (Z.eqb_spec t 97) as [->|]; cbn [negb]; [|done].
  assert (s2 < s3) by (destruct Hprog' as [|]; [done|done]).
  eapply good_from; [|done|apply IH]; [lia|..|lia|lia].
  - destruct (tok =? 60)%Z, (tok =? 62)%Z, (tok =? 43)%Z; auto.
  - destruct (tok =? 60)%Z, (tok =? 62)%Z, (tok =? 43)%Z; cbn; auto.
Qed.

Lemma parseargs_good fuel n c s :
  simple n c → n < MAXARGS → cmd_ok c → s <= es → es - s < fuel →
  good (λ _, True) s (parseargs text fuel n c s).
Proof.
  revert n c s. induction fuel as [|fuel IH]; intros n c s Hsim Hn Hok Hs Hf; [lia|]. cbn [parseargs].
  pose proof (peek_spec text [124; 41; 38; 59]%Z s Hs) as Hp.
  destruct (peek text [124; 41; 38; 59]%Z s) as [p s1]. destruct Hp as (Hs1 & Hlt & _).
  destruct p; [cbn; split; [done|]; split; [done|lia]|].
  pose proof (gettoken_spec text Hnz s1 ltac:(lia)) as Ht. destruct (gettoken text s1) as [[tok w] s2].
  destruct Ht as (Hw & Hs2 & Hprog & _ & Hword).
  destruct (Z.eqb_spec tok 0) as [->|Ht0]; [cbn; split; [done|]; split; [done|lia]|].
  destruct (Z.eqb_spec tok 97) as [->|]; cbn [negb]; [|done].
  destruct (Nat.leb_spec MAXARGS (S n)) as [|Hlt']; [done|].
  destruct (add_arg_ok w n c Hsim Hok Hlt' (Hword eq_refl)) as [Hsim' Hok'].
  assert (s1 < s2) by (destruct Hprog as [|]; done).
  eapply (good_bind (simple (S n))); [apply parseredirs_good; [done|done|done|lia|lia]|lia|].
  intros c' s3 Hsim3 Hok3 Hs3. eapply good_from; [|done|apply IH]; [lia|done|lia|done|lia|lia].
Qed.

Lemma parseback_good fuel c s :
  cmd_ok c → s <= es → es - s < fuel → good (λ _, True) s (parseback text fuel c s).
Proof.
  revert c s. induction fuel as [|fuel IH]; intros c s Hok Hs Hf; [lia|]. cbn [parseback].
  pose proof (peek_spec text [38]%Z s Hs) as Hp. destruct (peek text [38]%Z s) as [p s1] eqn:Hpk.
  destruct p; [|cbn; split; [done|]; split; [done|apply Hp]].
  destruct (gettoken text s1) as [[t w] s2] eqn:Ht.
  destruct (peek_gettoken text Hnz _ _ _ _ _ _ Hs Hpk Ht) as [H1 H2].
  eapply good_from; [|done|apply IH]; [lia|done|lia|lia].
Qed.

(** The four functions, with the fuel they need at [s]. *)
Lemma parser_good fuel :
  (∀ s, s <= es → 4 * (es - s) + 4 <= fuel → good (λ _, True) s (parseline text fuel s)) ∧
  (∀ s, s <= es → 4 * (es - s) + 3 <= fuel → good (λ _, True) s (parsepipe text fuel s)) ∧
  (∀ s, s <= es → 4 * (es - s) + 1 <= fuel → good (λ _, True) s (parseblock text fuel s)) ∧
  (∀ s, s <= es → 4 * (es - s) + 2 <= fuel → good (λ _, True) s (parseexec text fuel s)).
Proof.
  induction fuel as [|fuel (IHl & IHp & IHb & IHe)]; [repeat split; intros; lia|].
  split; [|split; [|split]]; intros s Hs Hf.
  - cbn [parseline]. eapply good_bind; [apply IHp; lia|done|]. intros c s1 _ Hok1 Hs1.
    eapply good_bind; [apply parseback_good; [done|lia|lia]|lia|]. intros c2 s2 _ Hok2 Hs2.
    pose proof (peek_spec text [59]%Z s2 ltac:(lia)) as Hp. destruct (peek text [59]%Z s2) as [p s3] eqn:Hpk.
    destruct p; [|cbn; split; [done|]; split; [done|lia]].
    destruct (gettoken text s3) as [[t w] s4] eqn:Ht.
    destruct (peek_gettoken text Hnz _ s2 _ _ _ _ ltac:(lia) Hpk Ht) as [H1 H2].
    eapply good_bind; [apply IHl; lia|lia|]. intros r s5 _ Hok5 Hs5. cbn. split; [done|]. split; [done|lia].
  - cbn [parsepipe]. eapply good_bind; [apply IHe; lia|done|]. intros c s1 _ Hok1 Hs1.
    pose proof (peek_spec text [124]%Z s1 ltac:(lia)) as Hp. destruct (peek text [124]%Z s1) as [p s3] eqn:Hpk.
    destruct p; [|cbn; split; [done|]; split; [done|lia]].
    destruct (gettoken text s3) as [[t w] s4] eqn:Ht.
    destruct (peek_gettoken text Hnz _ s1 _ _ _ _ ltac:(lia) Hpk Ht) as [H1 H2].
    eapply good_bind; [apply IHp; lia|lia|]. intros r s5 _ Hok5 Hs5. cbn. split; [done|]. split; [done|lia].
  - cbn [parseblock]. destruct (peek text [40]%Z s) as [p s1] eqn:Hpk. destruct p; cbn [negb]; [|done].
    destruct (gettoken text s1) as [[t w] s2] eqn:Ht.
    destruct (peek_gettoken text Hnz _ _ _ _ _ _ Hs Hpk Ht) as [H1 H2].
    eapply good_bind; [apply IHl; lia|lia|]. intros c s3 _ Hok3 Hs3.
    destruct (peek text [41]%Z s3) as [p s4] eqn:Hpk2. destruct p; cbn [negb]; [|done].
    destruct (gettoken text s4) as [[t2 w2] s5] eqn:Ht2.
    destruct (peek_gettoken text Hnz _ s3 _ _ _ _ ltac:(lia) Hpk2 Ht2) as [H3 H4].
    eapply good_from; [|done|apply (parseredirs_good (λ _, True))]; try done; lia.
  - cbn [parseexec]. pose proof (peek_spec text [40]%Z s Hs) as Hp.
    destruct (peek text [40]%Z s) as [p s1] eqn:Hpk. destruct Hp as (Hs1 & _). destruct p.
    { eapply good_from; [|done|apply IHb]; lia. }
    eapply (good_bind (simple 0)); [apply parseredirs_good; [done|done|cbn; split; [unfold MAXARGS; lia|done]|lia|lia]|lia|].
    intros c s2 Hsim Hok2 Hs2. eapply good_from; [|done|apply parseargs_good]; try done; unfold MAXARGS; lia.
Qed.

Lemma parseline_good : good (λ _, True) 0 (parseline text (4 * es + 4) 0).
Proof. apply (parser_good (4 * es + 4)); lia. Qed.
End total.

(** * The words become C strings *)

Fixpoint words (c : cmd) : list word :=
  match c with
  | EXEC argv => argv
  | REDIR c file _ _ => words c ++ [file]
  | PIPE l r | LIST l r => words l ++ words r
  | BACK c => words c
  end.

(** The C string at the beginning of [l], and the text of a word. *)
Fixpoint c_string (l : list Z) : list Z :=
  match l with [] => [] | c :: l' => if (c =? 0)%Z then [] else c :: c_string l' end.
Definition word_text (text : list Z) (w : word) : list Z := slice w.1 (w.2 - w.1) text.

Lemma nul_places_words c : nul_places c = (words c).*2.
Proof.
  induction c; cbn [nul_places words]; rewrite ?fmap_app; [done| | | |done]; by rewrite ?IHc, ?IHc1, ?IHc2.
Qed.

Lemma zeroed_lookup ps buf i :
  foldl (λ b p, <[p := 0%Z]> b) buf ps !! i =
  if decide (i ∈ ps ∧ i < length buf) then Some 0%Z else buf !! i.
Proof.
  revert buf. induction ps as [|p ps IH]; intros buf; cbn [foldl].
  - rewrite decide_False; [done|]. intros [H%not_elem_of_nil _]. done.
  - rewrite IH, length_insert. destruct (decide (i ∈ ps ∧ i < length buf)) as [[H1 H2]|H].
    + rewrite decide_True; [done|]. split; [by right|done].
    + destruct (decide (i = p)) as [->|Hne].
      * destruct (decide (p < length buf)).
        -- rewrite list_lookup_insert_eq by done. by rewrite decide_True by (split; [by left|done]).
        -- rewrite list_insert_ge by lia. by rewrite decide_False by (intros [_ ?]; lia).
      * rewrite list_lookup_insert_ne by done. rewrite decide_False; [done|].
        rewrite elem_of_cons. intros [[?|?] ?]; [done|]. by apply H.
Qed.

Lemma c_string_prefix l r : Forall (λ c, c ≠ 0%Z) l → c_string (l ++ 0%Z :: r) = l.
Proof.
  induction 1 as [|c l Hc _ IH]; [done|]. cbn. rewrite (proj2 (Z.eqb_neq c 0) Hc). by rewrite IH.
Qed.

Lemma cmd_ok_words text c w : cmd_ok text c → w ∈ words c → word_ok text w.
Proof.
  revert w. induction c; intros w Hok Hw; cbn in *.
  - destruct Hok as [_ Hok]. by apply (proj1 (Forall_forall _ _) Hok).
  - destruct Hok as (H1 & H2 & _). apply elem_of_app in Hw as [Hw|Hw%list_elem_of_singleton]; [by apply IHc|by subst].
  - destruct Hok as (H1 & H2). apply elem_of_app in Hw as [Hw|Hw]; auto.
  - destruct Hok as (H1 & H2). apply elem_of_app in Hw as [Hw|Hw]; auto.
  - auto.
Qed.

(** The NULs go to places that are not inside of a word. *)
Lemma nulterminate_word text c w :
  Forall (λ c, c ≠ 0%Z) text → cmd_ok text c → w ∈ words c →
  c_string (drop w.1 (nulterminate c (text ++ [0%Z]))) = word_text text w.
Proof.
  intros Hnz Hok Hw. pose proof (cmd_ok_words _ _ _ Hok Hw) as (Hb & Hin & _).
  set (buf := nulterminate c (text ++ [0%Z])).
  assert (length (word_text text w) = w.2 - w.1) as Hlen by (apply length_slice; lia).
  assert (Forall (λ c, c ≠ 0%Z) (word_text text w)) as Hz by (by apply Forall_take, Forall_drop).
  assert (∀ i, w.1 <= i < w.2 → buf !! i = text !! i) as Hsame.
  { intros i Hi. unfold buf, nulterminate. rewrite zeroed_lookup, decide_False; [apply lookup_app_l; lia|].
    intros [Hp _]. rewrite nul_places_words in Hp. apply list_elem_of_fmap in Hp as (v & -> & Hv). pose proof (cmd_ok_words _ _ _ Hok Hv) as (_ & _ & [He|He]); [lia|].
    rewrite (Hin v.2 Hi) in He. done. }
  assert (buf !! w.2 = Some 0%Z) as Hend.
  { unfold buf, nulterminate. rewrite zeroed_lookup, decide_True; [done|].
    split; [|rewrite length_app; cbn; lia]. rewrite nul_places_words. apply list_elem_of_fmap. by exists w. }
  assert (drop w.1 buf = word_text text w ++ 0%Z :: drop (S w.2) buf) as ->; [|by apply c_string_prefix].
  rewrite <- (drop_S _ _ _ Hend). rewrite <- (take_drop (w.2 - w.1) (drop w.1 buf)) at 1.
  rewrite drop_drop. replace (w.1 + (w.2 - w.1)) with w.2 by lia. f_equal.
  apply list_eq. intros i. unfold word_text, slice.
  destruct (decide (i < w.2 - w.1)); [|by rewrite !lookup_take_ge by lia].
  rewrite !lookup_take_lt, !lookup_drop by done. apply Hsame. lia.
Qed.

(** * Printing commands *)

(** A command whose words are strings. *)
Inductive scmd :=
| SExec (argv : list (list Z))
| SRedir (c : scmd) (file : list Z) (mode fd : Z)
| SPipe (l r : scmd)
| SList (l r : scmd)
| SBack (c : scmd).

Fixpoint text_of (text : list Z) (c : cmd) : scmd :=
  match c with
  | EXEC argv => SExec (word_text text <$> argv)
  | REDIR c file mode fd => SRedir (text_of text c) (word_text text file) mode fd
  | PIPE l r => SPipe (text_of text l) (text_of text r)
  | LIST l r => SList (text_of text l) (text_of text r)
  | BACK c => SBack (text_of text c)
  end.

Inductive tok := TWord (w : list Z) | TSym (c : Z).

Definition bytes (t : tok) : list Z := match t with TWord w => w | TSym c => [c] end.
(** Tokens, with a space behind each of them. *)
Fixpoint render (ts : list tok) : list Z :=
  match ts with [] => [] | t :: ts' => bytes t ++ 32%Z :: render ts' end.

Definition parens (b : bool) (ts : list tok) : list tok :=
  if b then TSym 40 :: ts ++ [TSym 41] else ts.

Definition redir_toks (file : list Z) (fd : Z) : list tok :=
  [TSym (if (fd =? 0)%Z then 60 else 62); TWord file].

(** The grammar: [;] binds weakest and to the right, then [&], then [|] to the right,
    then redirections; parentheses only where they are needed. *)
Fixpoint print (lvl : nat) (c : scmd) : list tok :=
  match c with
  | SExec argv => TWord <$> argv
  | SRedir c file _ fd => print 3 c ++ redir_toks file fd
  | SPipe l r => parens (3 <=? lvl) (print 3 l ++ TSym 124 :: print 2 r)
  | SBack c => parens (2 <=? lvl) (print 1 c ++ [TSym 38])
  | SList l r => parens (1 <=? lvl) (print 1 l ++ TSym 59 :: print 0 r)
  end.

Definition word_chars (w : list Z) : Prop := w ≠ [] ∧ Forall (λ c, is_word c = true ∧ c ≠ 0%Z) w.
Definition redir_modes (mode fd : Z) : Prop :=
  mode = O_RDONLY ∧ fd = 0%Z ∨ mode = Z.lor O_WRONLY O_CREATE ∧ fd = 1%Z.

Fixpoint printable (c : scmd) : Prop :=
  match c with
  | SExec argv => length argv < MAXARGS ∧ Forall word_chars argv
  | SRedir c file mode fd => printable c ∧ word_chars file ∧ redir_modes mode fd
  | SPipe l r | SList l r => printable l ∧ printable r
  | SBack c => printable c
  end.

Definition tok_ok (t : tok) : Prop :=
  match t with TWord w => word_chars w | TSym c => c ∈ symbols end.
Definition code (t : tok) : Z := match t with TWord _ => 97%Z | TSym c => c end.
Definition first (t : tok) : Z := default 0%Z (head (bytes t)).

(** Membership in sets of symbols. *)
Ltac syms := intros ?; unfold symbols; rewrite ?elem_of_cons, ?elem_of_nil; naive_solver.
Ltac in_syms := by apply (bool_decide_unpack _).

Section printing.
Context (text : list Z).
Abbreviation es := (length text).

(** The tokens [ts] begin at [s]. *)
Definition at_ (s : nat) (ts : list tok) : Prop := s <= es ∧ drop s text = render ts ∧ Forall tok_ok ts.

Lemma at_length s ts : at_ s ts → es - s = length (render ts).
Proof. intros (Hs & Hd & _). rewrite <- Hd, length_drop. done. Qed.

Lemma first_facts t : tok_ok t →
  first t ≠ 0%Z ∧ strchr whitespace (first t) = false ∧ bytes t !! 0 = Some (first t).
Proof.
  destruct t as [w|c]; cbn.
  - intros [Hne Hw]. destruct w as [|c w]; [done|]. inversion_clear Hw as [|?? [Hc Hz] _]. cbn.
    split; [done|]. split; [|done]. unfold is_word in Hc. by destruct (strchr whitespace c).
  - unfold symbols, first. cbn. intros Hc. repeat (apply elem_of_cons in Hc as [->|Hc]; [done|]).
    by apply not_elem_of_nil in Hc.
Qed.

Lemma at_chr s t ts : at_ s (t :: ts) → chr text s = first t ∧ skip text (strchr whitespace) s = s.
Proof.
  intros (Hs & Hd & Hok). inversion_clear Hok as [|?? Ht _].
  destruct (first_facts t Ht) as (Hnz & Hws & Hb).
  assert (chr text s = first t) as Hc.
  { rewrite <- (Nat.add_0_r s), <- chr_drop, Hd. cbn [render]. by rewrite lookup_app, Hb. }
  split; [done|]. unfold skip. rewrite Hd. cbn [render].
  destruct (bytes t) as [|b bs]; [done|]. cbn in Hb. injection Hb as ->. cbn. rewrite Hws. lia.
Qed.

Lemma at_nil s : at_ s [] → s = es ∧ chr text s = 0%Z ∧ skip text (strchr whitespace) s = s.
Proof.
  intros Hat. pose proof (at_length _ _ Hat) as Hl. destruct Hat as (Hs & Hd & _). cbn in Hl.
  assert (s = es) as -> by lia. split; [done|]. split; [by apply chr_es|]. unfold skip. by rewrite drop_ge.
Qed.

(** Behind the bytes of a token there is a space, then the next token. *)
Lemma at_next s t ts : at_ s (t :: ts) →
  let e := s + length (bytes t) in
  word_text text (s, e) = bytes t ∧ chr text e = 32%Z ∧ e < es ∧
  skip text (strchr whitespace) e = S e ∧ at_ (S e) ts.
Proof.
  intros (Hs & Hd & Hok) e. inversion_clear Hok as [|?? Ht Hts]. cbn [render] in Hd.
  assert (drop e text = 32%Z :: render ts) as He.
  { unfold e. rewrite <- drop_drop, Hd. apply drop_app_length. }
  assert (e < es) as Hlt.
  { destruct (decide (e < es)); [done|]. rewrite drop_ge in He by lia. done. }
  assert (drop (S e) text = render ts) as He'.
  { replace (S e) with (e + 1) by lia. by rewrite <- drop_drop, He. }
  assert (at_ (S e) ts) as Hat by (split; [lia|done]).
  split; [|split; [|split; [done|split; [|done]]]].
  - unfold word_text, slice, e. cbn [fst snd]. replace (s + length (bytes t) - s) with (length (bytes t)) by lia.
    rewrite Hd. apply take_app_length.
  - rewrite <- (Nat.add_0_r e), <- chr_drop, He. done.
  - unfold skip. rewrite He. cbn [span]. change (strchr whitespace 32) with true. cbn iota.
    assert (span (strchr whitespace) (render ts) = 0) as ->; [|lia].
    destruct ts as [|t' ts]; [done|]. inversion_clear Hts as [|?? Ht' _].
    destruct (first_facts t' Ht') as (_ & Hws & Hb). cbn [render].
    destruct (bytes t') as [|b bs]; [done|]. cbn in Hb. injection Hb as ->. cbn. by rewrite Hws.
Qed.

Lemma skip_word s w ts : at_ s (TWord w :: ts) → skip text is_word s = s + length w.
Proof.
  intros (Hs & Hd & Hok). inversion_clear Hok as [|?? Ht _]. destruct Ht as [_ Hw]. unfold skip. rewrite Hd. cbn [render bytes].
  f_equal. clear Hs Hd. induction Hw as [|c w [Hc _] _ IH]; [done|]. cbn. by rewrite Hc, IH.
Qed.

Lemma gettoken_at s t ts : at_ s (t :: ts) →
  let e := s + length (bytes t) in gettoken text s = (code t, (s, e), S e) ∧ at_ (S e) ts.
Proof.
  intros Hat e. destruct (at_chr _ _ _ Hat) as [Hc Hsk]. destruct (at_next _ _ _ Hat) as (_ & Hsp & _ & Hsk' & Hat').
  fold e in Hsp, Hsk', Hat'. split; [|done]. unfold gettoken. rewrite Hsk, Hc.
  pose proof Hat as (_ & _ & Hok). inversion_clear Hok as [|?? Ht _]. destruct (first_facts t Ht) as (Hnz & Hws & Hb).
  rewrite (proj2 (Z.eqb_neq _ _) Hnz). destruct t as [w|c].
  - destruct Ht as [Hne Hw]. destruct w as [|c w]; [done|]. inversion_clear Hw as [|?? [Hcw _] _].
    change (first (TWord (c :: w))) with c in *. cbn [bytes] in *. unfold is_word in Hcw. rewrite Hws in Hcw. cbn in Hcw.
    apply negb_true_iff in Hcw. unfold strchr in Hcw. rewrite bool_decide_eq_true_2 in Hcw by done. cbn [andb] in *.
    apply bool_decide_eq_false in Hcw. unfold symbols in Hcw. rewrite !not_elem_of_cons in Hcw.
    assert (strchr [124; 40; 41; 59; 38; 60]%Z c = false) as ->.
    { unfold strchr. rewrite (bool_decide_eq_false_2 (c ∈ _)); [apply andb_false_r|].
      rewrite !elem_of_cons, elem_of_nil. tauto. }
    rewrite (proj2 (Z.eqb_neq c 62)) by tauto. rewrite (skip_word _ _ _ Hat). fold e.
    change (s + length (c :: w)) with e. by rewrite Hsk'.
  - unfold e in *. clear e. change (first (TSym c)) with c in *. cbn [bytes length] in *.
    replace (s + 1) with (S s) in * by lia. cbn [tok_ok] in Ht. unfold symbols in Ht.
    destruct (Z.eqb_spec c 62) as [->|Hne].
    + change (strchr [124; 40; 41; 59; 38; 60]%Z 62) with false. cbn iota. rewrite Hsp. change (32 =? 62)%Z with false. cbn iota. by rewrite Hsk'.
    + assert (strchr [124; 40; 41; 59; 38; 60]%Z c = true) as ->; [|by rewrite Hsk'].
      unfold strchr. rewrite !bool_decide_eq_true_2; [done| |done].
      rewrite !elem_of_cons in *. rewrite elem_of_nil in *. tauto.
Qed.

Lemma peek_at toks s ts : at_ s ts →
  peek text toks s = (match ts with [] => false | t :: _ => strchr toks (first t) end, s).
Proof.
  intros Hat. unfold peek. destruct ts as [|t ts].
  - destruct (at_nil _ Hat) as (_ & Hc & ->). by rewrite Hc.
  - destruct (at_chr _ _ _ Hat) as [Hc ->]. rewrite Hc. pose proof Hat as (_ & _ & Hok).
    inversion_clear Hok as [|?? Ht _]. destruct (first_facts t Ht) as (Hnz & _).
    by rewrite bool_decide_eq_true_2.
Qed.

(** [r] is the command [sc], with the tokens [rest] behind it. *)
Definition parses (r : pres cmd) (sc : scmd) (rest : list tok) : Prop :=
  ∃ c s, r = POk c s ∧ text_of text c = sc ∧ at_ s rest.

(** The tokens behind a command, by the symbols they may begin with. *)
Definition follow (syms : list Z) (ts : list tok) : Prop :=
  match ts with [] => True | TSym c :: _ => c ∈ syms | TWord _ :: _ => False end.

Lemma peek_sym b syms s c ts : at_ s (TSym c :: ts) → c ∈ symbols → bool_decide (c ∈ syms) = b →
  peek text syms s = (b, s).
Proof.
  intros Hat Hc <-. rewrite (peek_at _ _ _ Hat). change (first (TSym c)) with c. unfold strchr.
  rewrite bool_decide_eq_true_2; [done|]. intros ->. unfold symbols in Hc. rewrite !elem_of_cons, elem_of_nil in Hc. naive_solver.
Qed.

Lemma peek_word syms s w ts :
  at_ s (TWord w :: ts) → syms ⊆ symbols → peek text syms s = (false, s).
Proof.
  intros Hat Hsub. rewrite (peek_at _ _ _ Hat). destruct Hat as (_ & _ & Hok).
  inversion_clear Hok as [|?? Ht _]. destruct Ht as [Hne Hw]. destruct w as [|c w]; [done|].
  change (first (TWord (c :: w))) with c. inversion_clear Hw as [|?? [Hc Hz] _].
  f_equal. unfold is_word in Hc. apply andb_true_iff in Hc as [_ Hc%negb_true_iff]. unfold strchr in *.
  rewrite (bool_decide_eq_true_2 (c ≠ 0%Z)) in * by done. cbn [andb] in *.
  apply bool_decide_eq_false in Hc. apply bool_decide_eq_false. auto.
Qed.

(** A token that cannot continue the command is not peeked at. *)
Lemma peek_follow syms fol s ts :
  at_ s ts → follow fol ts → (∀ c, c ∈ fol → c ∉ syms) → peek text syms s = (false, s).
Proof.
  intros Hat Hf Hno. rewrite (peek_at _ _ _ Hat). destruct ts as [|[w|c] ts]; [done|done|].
  change (first (TSym c)) with c. unfold strchr. rewrite (bool_decide_eq_false_2 (c ∈ syms)) by auto.
  by rewrite andb_false_r.
Qed.

(** Redirections, and their tokens. *)
Definition redir := (list Z * Z * Z)%type.
Definition wrap (rs : list redir) (c : scmd) : scmd :=
  foldl (λ c '(file, mode, fd), SRedir c file mode fd) c rs.
Definition redirs_toks (rs : list redir) : list tok := rs ≫= λ '(file, mode, fd), redir_toks file fd.
Definition redirs_ok (rs : list redir) : Prop :=
  Forall (λ '(file, mode, fd), word_chars file ∧ redir_modes mode fd) rs.

Lemma parseredirs_print fuel c s rs rest :
  at_ s (redirs_toks rs ++ rest) → redirs_ok rs → follow [124; 41; 38; 59]%Z rest → length rs < fuel →
  parses (parseredirs text fuel c s) (wrap rs (text_of text c)) rest.
Proof.
  revert fuel c s. induction rs as [|[[file mode] fd] rs IH]; intros fuel c s Hat Hok Hf Hfuel;
    (destruct fuel as [|fuel]; [lia|]); cbn [parseredirs].
  - cbn [redirs_toks mbind list_bind app] in Hat. rewrite (peek_follow _ _ _ _ Hat Hf).
    + cbn [negb]. by exists c, s.
    + intros x. rewrite !elem_of_cons, elem_of_nil. intros ?; naive_solver.
  - apply Forall_cons in Hok as [[Hw Hm] Hok'].
    change (redirs_toks ((file, mode, fd) :: rs) ++ rest) with
      (TSym (if (fd =? 0)%Z then 60 else 62) :: TWord file :: redirs_toks rs ++ rest) in Hat.
    rewrite (peek_sym true _ _ _ _ Hat); [|destruct (fd =? 0)%Z; by apply (bool_decide_unpack _)|by destruct (fd =? 0)%Z]. cbn [negb].
    destruct (gettoken_at _ _ _ Hat) as [-> Hat1]. destruct (gettoken_at _ _ _ Hat1) as [-> Hat2].
    destruct (at_next _ _ _ Hat1) as (Hwt & _). cbn [code] in *. cbn [negb Z.eqb Pos.eqb].
    cbn [wrap foldl length] in *.
    set (c1 := if ((if (fd =? 0)%Z then 60 else 62) =? 60)%Z then _ else _).
    assert (SRedir (text_of text c) file mode fd = text_of text c1) as ->.
    { unfold c1. destruct Hm as [[-> ->]|[-> ->]]; cbn [Z.eqb Pos.eqb text_of]; f_equal; symmetry; exact Hwt. }
    apply IH; [exact Hat2|done|done|lia].
Qed.

Lemma parseredirs_word fuel c s w ts : at_ s (TWord w :: ts) → parseredirs text (S fuel) c s = POk c s.
Proof.
  intros Hat. cbn [parseredirs]. rewrite (peek_word _ _ _ _ Hat); [done|]. intros x. unfold symbols.
  rewrite !elem_of_cons, elem_of_nil. naive_solver.
Qed.

(** No more arguments. *)
Lemma parseargs_end fuel n c s rest :
  at_ s rest → follow [124; 41; 38; 59]%Z rest → parseargs text (S fuel) n c s = POk c s.
Proof.
  intros Hat Hf. cbn [parseargs]. destruct rest as [|[w|x] rest]; [|done|].
  - rewrite (peek_at _ _ _ Hat). unfold gettoken. destruct (at_nil _ Hat) as (_ & Hc & Hsk).
    rewrite Hsk, Hc. cbn [Z.eqb]. by rewrite Hsk.
  - rewrite (peek_sym true _ _ _ _ Hat); [done| |by apply bool_decide_eq_true_2].
    cbn in Hf. unfold symbols. rewrite !elem_of_cons, elem_of_nil in *. naive_solver.
Qed.

Lemma parseargs_print args fuel n a0 s w rs rest :
  at_ s (TWord w :: (TWord <$> args) ++ redirs_toks rs ++ rest) →
  redirs_ok rs → follow [124; 41; 38; 59]%Z rest → length rs <= es → S (length args) < fuel →
  n + S (length args) < MAXARGS →
  parses (parseargs text fuel n (EXEC a0) s)
    (wrap rs (SExec ((word_text text <$> a0) ++ w :: args))) rest.
Proof.
  revert fuel n a0 s w. induction args as [|w' args IH]; intros fuel n a0 s w Hat Hok Hf Hes Hfuel Hn;
    (destruct fuel as [|fuel]; [lia|]); cbn [parseargs];
    (rewrite (peek_word _ _ _ _ Hat); [|intros x; unfold symbols; rewrite !elem_of_cons, elem_of_nil; naive_solver]);
    destruct (gettoken_at _ _ _ Hat) as [-> Hat1]; destruct (at_next _ _ _ Hat) as (Hwt & _);
    cbn [code]; cbn [negb Z.eqb Pos.eqb add_arg bytes length] in *;
    rewrite (proj2 (Nat.leb_gt MAXARGS (S n))) by lia.
  - destruct (parseredirs_print (S es) (EXEC (a0 ++ [(s, s + length w)])) (S (s + length w)) rs rest)
      as (c & s2 & -> & Htext & Hat2); [exact Hat1|done|done|lia|].
    cbn [pbind]. destruct fuel as [|fuel]; [lia|]. rewrite (parseargs_end fuel _ _ _ _ Hat2 Hf).
    exists c, s2. split; [done|]. split; [|done]. rewrite Htext. cbn [text_of].
    by rewrite fmap_app, list_fmap_singleton, Hwt.
  - cbn [fmap list_fmap app] in Hat1. rewrite (parseredirs_word _ _ _ _ _ Hat1). cbn [pbind].
    destruct (IH fuel (S n) (a0 ++ [(s, s + length w)]) (S (s + length w)) w') as (c & s2 & Heq & Htext & Hat2);
      [exact Hat1|done|done|done|lia|lia|].
    exists c, s2. split; [done|]. split; [|done]. rewrite Htext, fmap_app, list_fmap_singleton, Hwt.
    by rewrite <- app_assoc.
Qed.

Lemma render_app ts us : render (ts ++ us) = render ts ++ render us.
Proof. induction ts as [|t ts IH]; cbn; [done|]. by rewrite IH, <- app_assoc. Qed.

Lemma render_length ts : length ts <= length (render ts).
Proof. induction ts as [|t ts IH]; cbn; [done|]. rewrite length_app. cbn. lia. Qed.

Lemma redirs_toks_length rs : length rs <= length (redirs_toks rs).
Proof.
  induction rs as [|[[f m] fd] rs IH]; [done|].
  change (redirs_toks ((f, m, fd) :: rs)) with (redir_toks f fd ++ redirs_toks rs).
  rewrite length_app. cbn [length redir_toks]. lia.
Qed.

(** * The four levels of the grammar, on a printed command *)

Definition parses_exec (sc : scmd) : Prop :=
  ∀ fuel s rs rest, at_ s (print 3 sc ++ redirs_toks rs ++ rest) → redirs_ok rs →
    follow [124; 41; 38; 59]%Z rest → 4 * (es - s) + 2 <= fuel →
    parses (parseexec text fuel s) (wrap rs sc) rest.
Definition parses_pipe (sc : scmd) : Prop :=
  ∀ fuel s rest, at_ s (print 2 sc ++ rest) → follow [41; 38; 59]%Z rest → 4 * (es - s) + 3 <= fuel →
    parses (parsepipe text fuel s) sc rest.
(** The loop for [&] goes on behind the command. *)
Definition parses_back (sc : scmd) : Prop :=
  ∀ fuel s rest, at_ s (print 1 sc ++ rest) → follow [41; 38; 59]%Z rest → 4 * (es - s) + 3 <= fuel →
    ∃ c s' f, pbind (parsepipe text fuel s) (parseback text (S es)) = parseback text f c s' ∧
      text_of text c = sc ∧ at_ s' rest ∧ es - s' < f.
Definition parses_line (sc : scmd) : Prop :=
  ∀ fuel s rest, at_ s (print 0 sc ++ rest) → follow [41]%Z rest → 4 * (es - s) + 4 <= fuel →
    parses (parseline text fuel s) sc rest.

Lemma follow_weaken fol fol' ts : fol ⊆ fol' → follow fol ts → follow fol' ts.
Proof. destruct ts as [|[] ts]; cbn; auto. Qed.


Lemma exec_words argv :
  length argv < MAXARGS → Forall word_chars argv → parses_exec (SExec argv).
Proof.
  intros Hlen Hw fuel s rs rest Hat Hok Hf Hfuel. pose proof (at_length _ _ Hat) as Hes.
  rewrite !render_app, !length_app in Hes. pose proof (render_length (redirs_toks rs)).
  pose proof (redirs_toks_length rs). pose proof (render_length (print 3 (SExec argv))) as Ha.
  cbn [print] in *. rewrite length_fmap in Ha.
  destruct fuel as [|fuel]; [lia|]. cbn [parseexec]. destruct argv as [|w argv].
  - cbn [fmap list_fmap app] in Hat. rewrite (peek_at _ _ _ Hat).
    assert (match redirs_toks rs ++ rest with [] => false | t :: _ => strchr [40]%Z (first t) end = false) as ->.
    { destruct rs as [|[[f m] fd] rs]; cbn.
      - destruct rest as [|[w|c] rest]; [done|done|]. cbn in Hf. change (first (TSym c)) with c.
        rewrite !elem_of_cons, elem_of_nil in Hf. naive_solver.
      - by destruct (fd =? 0)%Z. }
    destruct (parseredirs_print (S es) (EXEC []) s rs rest Hat Hok Hf) as (c & s2 & -> & Ht & Hat2); [lia|].
    cbn [pbind]. rewrite (parseargs_end es _ _ _ _ Hat2 Hf). by exists c, s2.
  - cbn [fmap list_fmap app] in Hat. rewrite (peek_word _ _ _ _ Hat) by syms.
    rewrite (parseredirs_word _ _ _ _ _ Hat). cbn [pbind].
    apply (parseargs_print argv (S es) 0 []); [exact Hat|done|done|lia|cbn [length] in *; lia|cbn [length] in *; lia].
Qed.

(** A command in parentheses. *)
Lemma exec_block sc :
  print 3 sc = TSym 40 :: print 0 sc ++ [TSym 41] → parses_line sc → parses_exec sc.
Proof.
  intros Hpr HL fuel s rs rest Hat Hok Hf Hfuel. rewrite Hpr in Hat. cbn [app] in Hat. rewrite <- app_assoc in Hat.
  pose proof (at_length _ _ Hat) as Hes. cbn [render bytes length] in Hes. rewrite !length_app in Hes.
  cbn [length] in Hes. rewrite render_app, length_app in Hes. cbn [app render bytes length] in Hes.
  destruct fuel as [|[|fuel]]; [lia..|]. cbn [parseexec parseblock].
  rewrite (peek_sym true _ _ _ _ Hat) by first [in_syms|done].
  rewrite (peek_sym true _ _ _ _ Hat) by first [in_syms|done]. cbn [negb].
  destruct (gettoken_at _ _ _ Hat) as [-> Hat1]. cbn [bytes length] in *.
  destruct (HL fuel (S (s + 1)) (TSym 41 :: redirs_toks rs ++ rest)) as (c & s2 & -> & Ht & Hat2);
    [exact Hat1|cbn; in_syms|lia|].
  cbn [pbind]. rewrite (peek_sym true _ _ _ _ Hat2) by first [in_syms|done]. cbn [negb].
  destruct (gettoken_at _ _ _ Hat2) as [-> Hat3]. rewrite <- Ht.
  apply (parseredirs_print (S es) c _ rs rest Hat3 Hok Hf).
  pose proof (at_length _ _ Hat3) as Hes3. rewrite render_app, length_app in Hes3.
  pose proof (render_length (redirs_toks rs)). pose proof (redirs_toks_length rs). lia.
Qed.

Lemma exec_redir sc file mode fd :
  word_chars file → redir_modes mode fd → parses_exec sc → parses_exec (SRedir sc file mode fd).
Proof.
  intros Hw Hm HE fuel s rs rest Hat Hok Hf Hfuel. cbn [print] in Hat. rewrite <- app_assoc in Hat.
  apply (HE fuel s ((file, mode, fd) :: rs) rest); [exact Hat| |done|done]. by apply Forall_cons.
Qed.

Lemma pipe_exec sc : print 2 sc = print 3 sc → parses_exec sc → parses_pipe sc.
Proof.
  intros Hpr HE fuel s rest Hat Hf Hfuel. rewrite Hpr in Hat. destruct fuel as [|fuel]; [lia|]. cbn [parsepipe].
  destruct (HE fuel s [] rest) as (c & s2 & -> & Ht & Hat2);
    [exact Hat|constructor|eapply follow_weaken; [|exact Hf]; syms|lia|].
  cbn [pbind]. rewrite (peek_follow _ _ _ _ Hat2 Hf) by syms. by exists c, s2.
Qed.

Lemma pipe_pipe l r : parses_exec l → parses_pipe r → parses_pipe (SPipe l r).
Proof.
  intros HE HP fuel s rest Hat Hf Hfuel. cbn [print Nat.leb parens] in Hat. rewrite <- app_assoc in Hat.
  pose proof (at_length _ _ Hat) as Hes. rewrite render_app, length_app in Hes.
  destruct fuel as [|fuel]; [lia|]. cbn [parsepipe].
  destruct (HE fuel s [] ((TSym 124 :: print 2 r) ++ rest)) as (c & s2 & -> & Ht & Hat2);
    [exact Hat|constructor|cbn; in_syms|lia|].
  cbn [pbind]. rewrite (peek_sym true _ _ _ _ Hat2) by first [in_syms|done].
  destruct (gettoken_at _ _ _ Hat2) as [-> Hat3]. pose proof (at_length _ _ Hat2) as Hes2.
  cbn [app render bytes length] in Hes, Hes2.
  destruct (HP fuel _ rest Hat3 Hf) as (c' & s3 & -> & Ht' & Hat4); [cbn [bytes length]; lia|].
  cbn [pbind]. exists (PIPE c c'), s3. split; [done|]. split; [|done]. cbn. by rewrite Ht, Ht'.
Qed.

Lemma back_pipe sc : print 1 sc = print 2 sc → parses_pipe sc → parses_back sc.
Proof.
  intros Hpr HP fuel s rest Hat Hf Hfuel. rewrite Hpr in Hat.
  destruct (HP fuel s rest Hat Hf Hfuel) as (c & s2 & -> & Ht & Hat2). exists c, s2, (S es).
  cbn [pbind]. split; [done|]. split; [done|]. split; [done|lia].
Qed.

Lemma back_back sc : parses_back sc → parses_back (SBack sc).
Proof.
  intros HB fuel s rest Hat Hf Hfuel. cbn [print Nat.leb parens] in Hat. rewrite <- app_assoc in Hat.
  destruct (HB fuel s (TSym 38 :: rest)) as (c & s2 & f & -> & Ht & Hat2 & Hlt); [exact Hat|cbn; in_syms|done|].
  destruct f as [|f]; [lia|]. cbn [parseback]. rewrite (peek_sym true _ _ _ _ Hat2) by first [in_syms|done].
  pose proof (at_length _ _ Hat2) as Hes2. destruct (gettoken_at _ _ _ Hat2) as [-> Hat3].
  pose proof (at_length _ _ Hat3) as Hes3. cbn [render bytes length app] in Hes2.
  eexists _, _, f. split; [reflexivity|]. split; [cbn; by rewrite Ht|]. split; [exact Hat3|]. lia.
Qed.

(** [parseline] is [parsepipe] and the loop, then what is behind a [;]. *)
Lemma parseline_assoc fuel s :
  parseline text (S fuel) s =
  pbind (pbind (parsepipe text fuel s) (parseback text (S es))) (λ c s,
    let '(p, s) := peek text [59]%Z s in
    if p then let '(_, _, s) := gettoken text s in
              let* (r, s) := parseline text fuel s in POk (LIST c r) s
    else POk c s).
Proof. cbn [parseline]. by destruct (parsepipe text fuel s). Qed.

(** The loop ends at a token that is not [&]. *)
Lemma parseback_end f c s rest :
  at_ s rest → follow [41; 59]%Z rest → es - s < f → parseback text f c s = POk c s.
Proof.
  intros Hat Hf Hlt. destruct f as [|f]; [lia|]. cbn [parseback].
  by rewrite (peek_follow _ _ _ _ Hat Hf) by syms.
Qed.

Lemma line_back sc : print 0 sc = print 1 sc → parses_back sc → parses_line sc.
Proof.
  intros Hpr HB fuel s rest Hat Hf Hfuel. rewrite Hpr in Hat. destruct fuel as [|fuel]; [lia|].
  rewrite parseline_assoc.
  destruct (HB fuel s rest) as (c & s2 & f & -> & Ht & Hat2 & Hlt);
    [exact Hat|eapply follow_weaken; [|exact Hf]; syms|lia|].
  rewrite (parseback_end _ _ _ rest Hat2); [|eapply follow_weaken; [|exact Hf]; syms|done].
  cbn [pbind]. rewrite (peek_follow _ _ _ _ Hat2 Hf) by syms. by exists c, s2.
Qed.

Lemma line_list l r : parses_back l → parses_line r → parses_line (SList l r).
Proof.
  intros HB HL fuel s rest Hat Hf Hfuel. cbn [print Nat.leb parens] in Hat. rewrite <- app_assoc in Hat.
  pose proof (at_length _ _ Hat) as Hes. rewrite render_app, length_app in Hes.
  destruct fuel as [|fuel]; [lia|]. rewrite parseline_assoc.
  destruct (HB fuel s ((TSym 59 :: print 0 r) ++ rest)) as (c & s2 & f & -> & Ht & Hat2 & Hlt);
    [exact Hat|cbn; in_syms|lia|].
  rewrite (parseback_end _ _ _ _ Hat2); [|cbn; in_syms|done]. cbn [pbind].
  rewrite (peek_sym true _ _ _ _ Hat2) by first [in_syms|done]. pose proof (at_length _ _ Hat2) as Hes2.
  destruct (gettoken_at _ _ _ Hat2) as [-> Hat3].
  cbn [app render bytes length] in Hes, Hes2.
  destruct (HL fuel _ rest Hat3 Hf) as (c' & s3 & -> & Ht' & Hat4); [cbn [bytes length]; lia|].
  cbn [pbind]. exists (LIST c c'), s3. split; [done|]. split; [|done]. cbn. by rewrite Ht, Ht'.
Qed.

Lemma print_parses sc :
  printable sc → parses_exec sc ∧ parses_pipe sc ∧ parses_back sc ∧ parses_line sc.
Proof.
  induction sc as [argv|sc IH file mode fd|l IHl r IHr|l IHl r IHr|sc IH]; cbn [printable].
  - intros [Hl Hw]. pose proof (exec_words argv Hl Hw) as HE. pose proof (pipe_exec (SExec argv) eq_refl HE) as HP.
    pose proof (back_pipe (SExec argv) eq_refl HP) as HB. by pose proof (line_back (SExec argv) eq_refl HB).
  - intros (Hc & Hw & Hm). pose proof (exec_redir _ _ _ _ Hw Hm (proj1 (IH Hc))) as HE.
    pose proof (pipe_exec (SRedir sc file mode fd) eq_refl HE) as HP. pose proof (back_pipe (SRedir sc file mode fd) eq_refl HP) as HB.
    by pose proof (line_back (SRedir sc file mode fd) eq_refl HB).
  - intros [Hl Hr]. pose proof (pipe_pipe l r (proj1 (IHl Hl)) (proj1 (proj2 (IHr Hr)))) as HP.
    pose proof (back_pipe (SPipe l r) eq_refl HP) as HB. pose proof (line_back (SPipe l r) eq_refl HB) as HL.
    by pose proof (exec_block (SPipe l r) eq_refl HL).
  - intros [Hl Hr]. destruct (IHl Hl) as (_ & _ & HB & _). destruct (IHr Hr) as (_ & _ & _ & HL').
    pose proof (line_list l r HB HL') as HL. pose proof (exec_block (SList l r) eq_refl HL) as HE.
    pose proof (pipe_exec (SList l r) eq_refl HE) as HP. by pose proof (back_pipe (SList l r) eq_refl HP).
  - intros Hc. destruct (IH Hc) as (_ & _ & HB0 & _). pose proof (back_back _ HB0) as HB.
    pose proof (line_back (SBack sc) eq_refl HB) as HL. pose proof (exec_block (SBack sc) eq_refl HL) as HE.
    by pose proof (pipe_exec (SBack sc) eq_refl HE).
Qed.
End printing.

Lemma print_tok_ok sc lvl : printable sc → Forall tok_ok (print lvl sc).
Proof.
  assert (∀ b ts, Forall tok_ok ts → Forall tok_ok (parens b ts)) as Hpar.
  { intros [] ts H; [|done]. cbn. constructor; [in_syms|]. apply Forall_app. split; [done|].
    constructor; [in_syms|constructor]. }
  revert lvl. induction sc as [argv|sc IH file mode fd|l IHl r IHr|l IHl r IHr|sc IH]; intros lvl; cbn [printable print].
  - intros [_ Hw]. by apply Forall_fmap.
  - intros (Hc & Hw & _). apply Forall_app. split; [auto|]. unfold redir_toks.
    constructor; [destruct (fd =? 0)%Z; in_syms|]. by constructor.
  - intros [Hl Hr]. apply Hpar, Forall_app. split; [auto|]. constructor; [in_syms|auto].
  - intros [Hl Hr]. apply Hpar, Forall_app. split; [auto|]. constructor; [in_syms|auto].
  - intros Hc. apply Hpar, Forall_app. split; [auto|]. constructor; [in_syms|constructor].
Qed.

Lemma render_nz ts : Forall tok_ok ts → Forall (λ c, c ≠ 0%Z) (render ts).
Proof.
  induction 1 as [|t ts Ht _ IH]; [constructor|]. cbn [render]. apply Forall_app.
  split; [|by constructor]. destruct t as [w|c]; cbn in *.
  - destruct Ht as [_ Hw]. eapply Forall_impl; [exact Hw|]. by intros c [_ Hc].
  - apply Forall_singleton. intros ->. by destruct (first_facts (TSym 0) Ht).
Qed.

(** * Properties *)

(** C31.  The parser answers on every line: it returns a command or exits with a
    message, never loops, and never stores outside of [argv].  Of the command it
    returns every word (argument or file name), read as a C string from the buffer
    after [nulterminate], is exactly the maximal run of word characters it was parsed
    from: no terminating NUL lands inside of another word. *)
Theorem parsecmd_total text :
  Forall (λ c, c ≠ 0%Z) text →
  match parsecmd text with
  | POk (c, buf) _ =>
      cmd_ok text c ∧ length buf = S (length text) ∧
      ∀ w, w ∈ words c → c_string (drop w.1 buf) = word_text text w ∧ word_text text w ≠ []
  | PPanic _ => True
  | PHang => False
  end.
Proof.
  intros Hnz. unfold parsecmd. pose proof (parseline_good text Hnz) as HG.
  destruct (parseline text (4 * length text + 4) 0) as [c s|msg|]; cbn [pbind]; [|done..].
  destruct HG as (_ & Hok & _). destruct (peek text [] s) as [p s'].
  destruct (decide (s' = length text)); [|done]. split; [done|]. split.
  - unfold nulterminate. generalize (nul_places c). intros ps.
    assert (length (text ++ [0%Z]) = S (length text)) as <- by (rewrite length_app; cbn; lia).
    generalize (text ++ [0%Z]). induction ps as [|p' ps IH]; intros buf; cbn [foldl]; [done|].
    by rewrite IH, length_insert.
  - intros w Hw. split; [by apply nulterminate_word|].
    destruct (cmd_ok_words _ _ _ Hok Hw) as (Hb & _ & _). intros Hnil.
    assert (length (word_text text w) = w.2 - w.1) as Hl by (apply length_slice; lia).
    rewrite Hnil in Hl. cbn in Hl. lia.
Qed.

(** "ls|wc>f" *)
Lemma parsecmd_total_witness :
  match parsecmd [108; 115; 124; 119; 99; 62; 102]%Z with
  | POk (c, buf) _ => ∀ w, w ∈ words c → c_string (drop w.1 buf) = word_text [108; 115; 124; 119; 99; 62; 102]%Z w
  | _ => False
  end.
Proof.
  pose proof (parsecmd_total [108; 115; 124; 119; 99; 62; 102]%Z) as H.
  destruct (parsecmd [108; 115; 124; 119; 99; 62; 102]%Z) as [[c buf] s|msg|] eqn:Heq.
  - destruct H as (_ & _ & H); [repeat (constructor; [done|]); constructor|]. intros w Hw. apply (H w Hw).
  - vm_compute in Heq. discriminate Heq.
  - vm_compute in Heq. discriminate Heq.
Defined.

(** C30.  Parsing is the inverse of printing: every command, printed with the precedences
    [;] (to the right), [&], [|] (to the right), redirections, and parentheses only
    where these ask for them, is parsed back to the same tree of words. *)
Theorem parsecmd_print sc :
  printable sc →
  ∃ c buf s, parsecmd (render (print 0 sc)) = POk (c, buf) s ∧ text_of (render (print 0 sc)) c = sc.
Proof.
  intros Hp. set (text := render (print 0 sc)). pose proof (print_tok_ok sc 0 Hp) as Hok.
  destruct (print_parses text sc Hp) as (_ & _ & _ & HL).
  destruct (HL (4 * length text + 4) 0 []) as (c & s & Heq & Ht & Hat).
  - rewrite app_nil_r. split; [lia|]. split; [by rewrite drop_0|done].
  - done.
  - lia.
  - unfold parsecmd. rewrite Heq. cbn [pbind]. rewrite (peek_at _ _ _ _ Hat).
    destruct (at_nil _ _ Hat) as [-> _]. rewrite decide_True by done. by eexists _, _, _.
Qed.

(** [ls | (a ; b &) > f] *)
Lemma parsecmd_print_witness :
  let sc := (SPipe (SExec [[108; 115]]) (SRedir (SList (SExec [[97]]) (SBack (SExec [[98]]))) [102] 513 1))%Z in
  ∃ c buf s, parsecmd (render (print 0 sc)) = POk (c, buf) s ∧ text_of (render (print 0 sc)) c = sc.
Proof.
  apply parsecmd_print. cbn. unfold MAXARGS, word_chars, redir_modes.
  repeat match goal with
    | |- _ ∧ _ => split
    | |- Forall _ [] => constructor
    | |- Forall _ (_ :: _) => constructor
    | |- _ ∨ _ => right
    | |- _ => first [done|lia]
    end.
Defined.

(** [>>] is read as [>]: [a >> f] and [a > f] are the same command, which opens [f]
    for writing at its beginning, without emptying it. *)
Theorem append_is_overwrite :
  let parsed text := match parsecmd text with POk (c, _) _ => Some (text_of text c) | _ => None end in
  parsed [97; 32; 62; 62; 32; 102]%Z = Some (SRedir (SExec [[97%Z]]) [102%Z] (Z.lor O_WRONLY O_CREATE) 1) ∧
  parsed [97; 32; 62; 32; 102]%Z = Some (SRedir (SExec [[97%Z]]) [102%Z] (Z.lor O_WRONLY O_CREATE) 1).
Proof. vm_compute. split; reflexivity. Qed.
