(* ===== verification/ShRun.v ===== *)
(** Running commands ([runcmd] of sh.c): which programs are started, with which
    descriptors. *)
From stdpp Require Import base list numbers strings.
From Stdlib Require Import ZArith Lia.
From S2P Require Import Prelude Params Sh ShProps.

(** What a descriptor refers to: an end of the [i]-th pipe the shell made, a file it
    opened, or a file the shell was started with. *)
Inductive handle := HRead (i : nat) | HWrite (i : nat) | HFile (f : nat) | HOld (f : nat).
#[global] Instance handle_eq_dec : EqDecision handle.
Proof. solve_decision. Defined.

(** The open descriptors of a process: [NOFILE] of them. *)
Abbreviation fdtable := (list (option handle)).

(** The system calls, as the shell sees them: descriptors are allocated lowest first. *)
Fixpoint lowest (fds : fdtable) : option nat :=
  match fds with
  | [] => None
  | None :: _ => Some 0
  | Some _ :: fds' => S <$> lowest fds'
  end.
Definition sys_alloc (h : handle) (fds : fdtable) : option (nat * fdtable) :=
  fd ← lowest fds; Some (fd, <[fd := Some h]> fds).
Definition sys_close (fd : nat) (fds : fdtable) : fdtable := <[fd := None]> fds.
Definition sys_dup (fd : nat) (fds : fdtable) : fdtable :=
  match fds !! fd ≫= id with
  | None => fds
  | Some h => match sys_alloc h fds with Some (_, fds') => fds' | None => fds end
  end.
Definition sys_pipe (i : nat) (fds : fdtable) : option (nat * nat * fdtable) :=
  '(p0, fds1) ← sys_alloc (HRead i) fds;
  '(p1, fds2) ← sys_alloc (HWrite i) fds1;
  Some (p0, p1, fds2).

(** The processes a command turns into: a program; an exit, with a message or without;
    a child that is waited for and then the rest; the two children of a pipe and the
    descriptors the parent keeps while it waits for them; a child left alone. *)
Inductive proc :=
| RExec (argv : list (list Z)) (fds : fdtable)
| RExit (msg : string)
| RList (left right : proc)
| RPipe (left right : proc) (fds : fdtable)
| RBack (child : proc).

Section run.
(** Opening a file may fail; forks are taken to succeed. *)
Context (open : list Z → Z → option nat).

(** Each recursive call is a process of its own (the child of a fork) or the last thing
    this one does; [n] counts the pipes made by it and its ancestors. *)
Fixpoint runcmd (c : scmd) (n : nat) (fds : fdtable) : proc :=
  match c with
  | SExec argv => match argv with [] => RExit "" | _ => RExec argv fds end
  | SRedir c file mode fd =>
      let fds := sys_close (Z.to_nat fd) fds in
      match f ← open file mode; sys_alloc (HFile f) fds with
      | None => RExit "open failed"
      | Some (_, fds) => runcmd c n fds
      end
  | SList l r => RList (runcmd l n fds) (runcmd r n fds)
  | SPipe l r =>
      match sys_pipe n fds with
      | None => RExit "pipe"
      | Some (p0, p1, fds) =>
          let left := sys_close p1 (sys_close p0 (sys_dup p1 (sys_close 1 fds))) in
          let right := sys_close p1 (sys_close p0 (sys_dup p0 (sys_close 0 fds))) in
          RPipe (runcmd l (S n) left) (runcmd r (S n) right) (sys_close p1 (sys_close p0 fds))
      end
  | SBack c => RBack (runcmd c n fds)
  end.
End run.

(** * Lemmas *)

Lemma lowest_spec fds fd :
  lowest fds = Some fd → fds !! fd = Some None ∧ ∀ i, i < fd → ∃ h, fds !! i = Some (Some h).
Proof.
  revert fd. induction fds as [|[h|] fds IH]; intros fd; cbn; [done| |].
  - destruct (lowest fds) as [k|]; cbn; [|done]. intros [= <-]. destruct (IH k eq_refl) as [H1 H2].
    split; [done|]. intros [|i] Hi; [by eexists|]. apply H2. lia.
  - intros [= <-]. split; [done|]. lia.
Qed.

(** The lowest free descriptor, when it is known. *)
Lemma lowest_is fds fd :
  fds !! fd = Some None → (∀ i, i < fd → ∃ h, fds !! i = Some (Some h)) → lowest fds = Some fd.
Proof.
  revert fds. induction fd as [|fd IH]; intros fds H1 H2.
  - destruct fds as [|[h|] fds]; cbn in *; done.
  - destruct (H2 0 ltac:(lia)) as [h Hh]. destruct fds as [|x fds]; [done|]. cbn in Hh. injection Hh as ->.
    cbn. rewrite (IH fds); [done|done|]. intros i Hi. apply (H2 (S i)). lia.
Qed.

Lemma open_below_two (fds : fdtable) h0 h1 fd :
  fds !! 0 = Some (Some h0) → fds !! 1 = Some (Some h1) → fds !! fd = Some None → 2 <= fd.
Proof. intros H0 H1 Hf. destruct fd as [|[|fd]]; [congruence|congruence|lia]. Qed.

(** The table after making a pipe. *)
Lemma sys_pipe_spec i fds p0 p1 fds' :
  sys_pipe i fds = Some (p0, p1, fds') →
  fds !! p0 = Some None ∧ fds !! p1 = Some None ∧ p0 < p1 ∧
  fds' = <[p1 := Some (HWrite i)]> (<[p0 := Some (HRead i)]> fds).
Proof.
  unfold sys_pipe, sys_alloc. destruct (lowest fds) as [a|] eqn:Ha; [|done]. cbn [mbind option_bind].
  destruct (lowest_spec _ _ Ha) as [Ha1 Ha2].
  destruct (lowest (<[a := Some (HRead i)]> fds)) as [b|] eqn:Hb; [|done]. cbn [mbind option_bind].
  intros [= <- <- <-]. destruct (lowest_spec _ _ Hb) as [Hb1 _].
  destruct (decide (a = b)) as [->|Hne].
  { rewrite list_lookup_insert_eq in Hb1 by (eapply lookup_lt_Some; done). done. }
  rewrite list_lookup_insert_ne in Hb1 by done. split; [done|]. split; [done|]. split; [|done].
  destruct (decide (b < a)); [|lia]. destruct (Ha2 b ltac:(lia)). congruence.
Qed.

(** [close(fd); dup(p); close(p0); close(p1)], for [fd] 0 or 1: [fd] becomes what [p]
    was, and the descriptors of the pipe are closed. *)
Lemma rewire fds p0 p1 p fd h h0 h1 :
  fds !! 0 = Some (Some h0) → fds !! 1 = Some (Some h1) → fd < 2 → 2 <= p0 → p0 < p1 →
  (p = p0 ∨ p = p1) → p0 < length fds → p1 < length fds → fds !! p = Some (Some h) →
  let fds' := sys_close p1 (sys_close p0 (sys_dup p (sys_close fd fds))) in
  ∀ j, fds' !! j = if decide (j = fd) then Some (Some h)
                   else if decide (j = p0 ∨ j = p1) then Some None else fds !! j.
Proof.
  intros H0 H1 Hfd Hp0 Hp01 Hp Hl0 Hl1 Hh fds' j.
  pose proof (lookup_lt_Some _ _ _ H1) as Hlen.
  assert (sys_dup p (sys_close fd fds) = <[fd := Some h]> fds) as Hdup.
  { unfold sys_dup, sys_close. rewrite list_lookup_insert_ne by lia. rewrite Hh. cbn. unfold sys_alloc.
    rewrite (lowest_is _ fd); [cbn; by rewrite list_insert_insert_eq| |].
    - apply list_lookup_insert_eq. lia.
    - intros i Hi. rewrite list_lookup_insert_ne by lia. assert (i = 0) as -> by lia. eauto. }
  unfold fds'. rewrite Hdup. unfold sys_close.
  destruct (decide (j = fd)) as [->|Hj].
  { rewrite !list_lookup_insert_ne by lia. apply list_lookup_insert_eq. lia. }
  destruct (decide (j = p0 ∨ j = p1)) as [[->| ->]|Hn].
  - rewrite list_lookup_insert_ne by lia. apply list_lookup_insert_eq. rewrite length_insert. done.
  - apply list_lookup_insert_eq. rewrite !length_insert. done.
  - rewrite !list_lookup_insert_ne by (first [lia|tauto]). done.
Qed.

(** * Property *)

(** A pipeline is wired correctly: with descriptors 0 and 1 open and two free,
    [l | r] runs [l] with its output, descriptor 1, at the write end of a new pipe and
    [r] with its input, descriptor 0, at the read end; every other descriptor of
    either is the shell's; and the shell keeps neither end while it waits, so that
    [l] is the only writer and [r] sees the end of the input when [l] is done. *)
Theorem runcmd_pipe_wiring open l r n fds h0 h1 p0 p1 fds2 :
  fds !! 0 = Some (Some h0) → fds !! 1 = Some (Some h1) → sys_pipe n fds = Some (p0, p1, fds2) →
  runcmd open (SPipe l r) n fds =
  RPipe (runcmd open l (S n) (<[1 := Some (HWrite n)]> fds))
        (runcmd open r (S n) (<[0 := Some (HRead n)]> fds)) fds.
Proof.
  intros H0 H1 Hp. cbn [runcmd]. rewrite Hp. destruct (sys_pipe_spec _ _ _ _ _ Hp) as (Hf0 & Hf1 & Hlt & ->).
  pose proof (open_below_two _ _ _ _ H0 H1 Hf0). pose proof (open_below_two _ _ _ _ H0 H1 Hf1).
  pose proof (lookup_lt_Some _ _ _ Hf0). pose proof (lookup_lt_Some _ _ _ Hf1). pose proof (lookup_lt_Some _ _ _ H1).
  set (fds2 := <[p1 := _]> (<[p0 := _]> fds)).
  assert (∀ j, fds2 !! j = if decide (j = p1) then Some (Some (HWrite n))
                           else if decide (j = p0) then Some (Some (HRead n)) else fds !! j) as Hl2.
  { intros j. unfold fds2. destruct (decide (j = p1)) as [->|]; [apply list_lookup_insert_eq; by rewrite length_insert|].
    rewrite list_lookup_insert_ne by done. destruct (decide (j = p0)) as [->|]; [by apply list_lookup_insert_eq|].
    by rewrite list_lookup_insert_ne. }
  assert (length fds2 = length fds) as Hlen by (unfold fds2; by rewrite !length_insert).
  assert (fds2 !! 0 = Some (Some h0) ∧ fds2 !! 1 = Some (Some h1) ∧
          fds2 !! p0 = Some (Some (HRead n)) ∧ fds2 !! p1 = Some (Some (HWrite n))) as (G0 & G1 & Gr & Gw).
  { rewrite !Hl2, (decide_True (P := p0 = p0)), (decide_True (P := p1 = p1)) by done.
    rewrite !decide_False by lia. done. }
  assert (∀ p fd h, fd < 2 → (p = p0 ∨ p = p1) → fds2 !! p = Some (Some h) →
            sys_close p1 (sys_close p0 (sys_dup p (sys_close fd fds2))) = <[fd := Some h]> fds) as Hre.
  { intros p fd h Hfd Hpp Hph. apply list_eq. intros j.
    rewrite (rewire fds2 p0 p1 p fd h h0 h1 G0 G1 Hfd ltac:(lia) Hlt Hpp ltac:(lia) ltac:(lia) Hph).
    rewrite Hl2. destruct (decide (j = fd)) as [->|]; [by rewrite list_lookup_insert_eq by lia|].
    rewrite list_lookup_insert_ne by done. destruct (decide (j = p0 ∨ j = p1)) as [[->| ->]|]; [done|done|].
    rewrite !decide_False by tauto. done. }
  rewrite (Hre p1 1 (HWrite n)), (Hre p0 0 (HRead n)) by (first [lia|tauto|done]).
  f_equal.
  apply list_eq. intros j. unfold sys_close.
  destruct (decide (j = p1)) as [->|]; [rewrite list_lookup_insert_eq by (rewrite length_insert; lia); done|].
  rewrite list_lookup_insert_ne by done.
  destruct (decide (j = p0)) as [->|]; [rewrite list_lookup_insert_eq by lia; done|].
  rewrite list_lookup_insert_ne by done. rewrite Hl2, !decide_False by done. done.
Qed.

Lemma runcmd_pipe_wiring_witness :
  runcmd (λ _ _, None) (SPipe (SExec [[108%Z]]) (SExec [[119%Z]])) 0
    [Some (HOld 0); Some (HOld 0); Some (HOld 0); None; None] =
  RPipe (RExec [[108%Z]] [Some (HOld 0); Some (HWrite 0); Some (HOld 0); None; None])
        (RExec [[119%Z]] [Some (HRead 0); Some (HOld 0); Some (HOld 0); None; None])
        [Some (HOld 0); Some (HOld 0); Some (HOld 0); None; None].
Proof.
  apply (runcmd_pipe_wiring (λ _ _, None) (SExec [[108%Z]]) (SExec [[119%Z]]) 0
           [Some (HOld 0); Some (HOld 0); Some (HOld 0); None; None] (HOld 0) (HOld 0) 3 4
           [Some (HOld 0); Some (HOld 0); Some (HOld 0); Some (HRead 0); Some (HWrite 0)]); reflexivity.
Defined.
