(* ===== verification/Fs.v ===== *)
(** The file system ([fs.c]): block allocator, inodes, file contents, directories and
    path names, over the log. *)
From stdpp Require Import base list numbers strings sets gmap.
From Stdlib Require Import ZArith Lia.
From S2P Require Import Prelude Params Machine Spinlock Sleeplock CString Bio Log.
Local Open Scope Z_scope.
Local Open Scope xv6_scope.

(** * State *)

(** [struct inode] of file.h. *)
Record inode := Inode {
  i_dev : Z;
  i_inum : Z;
  i_ref : Z;
  i_lock : sleeplock;
  i_valid : bool;
  i_type : Z;
  i_major : Z;
  i_minor : Z;
  i_nlink : Z;
  i_size : Z;
  i_addrs : list Z;
}.

Abbreviation ndirect := (Z.to_nat NDIRECT).
Abbreviation nindirect := (Z.to_nat NINDIRECT).
Abbreviation ninode := (Z.to_nat NINODE).

(** The log (and the cache and disk below it), [sb], and [icache.inode]. *)
Record fstate := FState {
  fs_l : lstate;
  fs_sb : superblock;
  fs_inode : list inode;
}.

Definition inode_zero : inode := Inode 0 0 0 initsleeplock false 0 0 0 0 0 (replicate (S ndirect) 0).
#[global] Instance inode_inhabited : Inhabited inode := populate inode_zero.

Definition set_iref (f : Z → Z) (i : inode) : inode :=
  Inode (i_dev i) (i_inum i) (f (i_ref i)) (i_lock i) (i_valid i) (i_type i) (i_major i) (i_minor i) (i_nlink i) (i_size i) (i_addrs i).
Definition set_ilock (l : sleeplock) (i : inode) : inode :=
  Inode (i_dev i) (i_inum i) (i_ref i) l (i_valid i) (i_type i) (i_major i) (i_minor i) (i_nlink i) (i_size i) (i_addrs i).
Definition set_valid (v : bool) (i : inode) : inode :=
  Inode (i_dev i) (i_inum i) (i_ref i) (i_lock i) v (i_type i) (i_major i) (i_minor i) (i_nlink i) (i_size i) (i_addrs i).
Definition set_type (v : Z) (i : inode) : inode :=
  Inode (i_dev i) (i_inum i) (i_ref i) (i_lock i) (i_valid i) v (i_major i) (i_minor i) (i_nlink i) (i_size i) (i_addrs i).
Definition set_major (v : Z) (i : inode) : inode :=
  Inode (i_dev i) (i_inum i) (i_ref i) (i_lock i) (i_valid i) (i_type i) v (i_minor i) (i_nlink i) (i_size i) (i_addrs i).
Definition set_minor (v : Z) (i : inode) : inode :=
  Inode (i_dev i) (i_inum i) (i_ref i) (i_lock i) (i_valid i) (i_type i) (i_major i) v (i_nlink i) (i_size i) (i_addrs i).
Definition set_nlink (f : Z → Z) (i : inode) : inode :=
  Inode (i_dev i) (i_inum i) (i_ref i) (i_lock i) (i_valid i) (i_type i) (i_major i) (i_minor i) (f (i_nlink i)) (i_size i) (i_addrs i).
Definition set_isize (v : Z) (i : inode) : inode :=
  Inode (i_dev i) (i_inum i) (i_ref i) (i_lock i) (i_valid i) (i_type i) (i_major i) (i_minor i) (i_nlink i) v (i_addrs i).
Definition set_addrs (v : list Z) (i : inode) : inode :=
  Inode (i_dev i) (i_inum i) (i_ref i) (i_lock i) (i_valid i) (i_type i) (i_major i) (i_minor i) (i_nlink i) (i_size i) v.

(** * Layout on disk *)

(** Block of free map containing bit for block b; block containing inode i. *)
Definition BBLOCK (b : Z) (sb : superblock) : Z := u32 (b / BPB + sb_bmapstart sb).
Definition IBLOCK (i : Z) (sb : superblock) : Z := u32 (i / IPB + sb_inodestart sb).

(** [struct dinode]: 64 bytes. *)
Record dinode := DInode {
  di_type : Z;
  di_major : Z;
  di_minor : Z;
  di_nlink : Z;
  di_size : Z;
  di_addrs : list Z;
}.
(** The place of inode [inum] in its block. *)
Definition dino_off (inum : Z) : nat := Z.to_nat (64 * (inum mod IPB)).

Definition rd_dinode (off : nat) (d : list Z) : dinode :=
  DInode (s16 (rd 2 off d)) (s16 (rd 2 (off + 2) d)) (s16 (rd 2 (off + 4) d)) (s16 (rd 2 (off + 6) d))
    (rd 4 (off + 8) d) ((λ k, rd 4 (off + 12 + 4 * k) d) <$> seq 0 (S ndirect)).
Definition dinode_bytes (di : dinode) : list Z :=
  le_bytes 2 (di_type di) ++ le_bytes 2 (di_major di) ++ le_bytes 2 (di_minor di) ++
  le_bytes 2 (di_nlink di) ++ le_bytes 4 (di_size di) ++ (di_addrs di ≫= le_bytes 4).
Definition wr_dinode (off : nat) (di : dinode) (d : list Z) : list Z := splice off (dinode_bytes di) d.

(** * Access to the state *)

Definition lg {A} (m : M lstate A) : M fstate A :=
  lift fs_l (λ l s, FState l (fs_sb s) (fs_inode s)) m.
Definition getsb : M fstate superblock := gets fs_sb.
(** [*ip], and a store to a field of [*ip]. *)
Definition inodep (ip : nat) : M fstate inode := s <- get ;; deref (fs_inode s !! ip).
Definition upd_inode (ip : nat) (f : inode → inode) : M fstate unit :=
  s <- get ;;
  _ <- deref (fs_inode s !! ip) ;;
  modify (λ s, FState (fs_l s) (fs_sb s) (alter f ip (fs_inode s))).

Definition ino_getl (ip : nat) (s : fstate) : sleeplock := i_lock (fs_inode s !!! ip).
Definition ino_putl (ip : nat) (l : sleeplock) (s : fstate) : fstate :=
  FState (fs_l s) (fs_sb s) (alter (set_ilock l) ip (fs_inode s)).
Definition ino_acquiresleep (ip : nat) : M fstate unit :=
  acquiresleep (LkInode ip) (ChInode ip) (ino_getl ip) (ino_putl ip).
Definition ino_releasesleep (ip : nat) : M fstate unit :=
  releasesleep (LkInode ip) (ChInode ip) (ino_putl ip).
Definition ino_holdingsleep (ip : nat) : M fstate bool :=
  holdingsleep (LkInode ip) (ino_getl ip).

(** * Blocks *)

(** Zero a block. *)
Definition bzero (dev bno : Z) : M fstate unit :=
  bp <- lg (bio (bread dev bno)) ;;
  lg (bio (bstore bp (λ d, replicate (length d) 0))) ;;
  lg (log_write bp) ;;
  lg (bio (brelse bp)).

(** Bit [bi] of a block of the free map. *)
Definition map_bit (d : list Z) (bi : Z) : bool :=
  negb (Z.land (d !!! Z.to_nat (bi / 8)) (Z.shiftl 1 (bi mod 8)) =? 0).
Definition map_set (bi : Z) (d : list Z) : list Z :=
  <[Z.to_nat (bi / 8) := u8 (Z.lor (d !!! Z.to_nat (bi / 8)) (Z.shiftl 1 (bi mod 8)))]> d.
Definition map_clear (bi : Z) (d : list Z) : list Z :=
  <[Z.to_nat (bi / 8) := u8 (Z.land (d !!! Z.to_nat (bi / 8)) (Z.lnot (Z.shiftl 1 (bi mod 8))))]> d.

(** The loops of [balloc] from block [b] on; the inner one looks for a free block in
    the map block of [b]. *)
Fixpoint balloc_loop (dev : Z) (fuel : nat) (b : Z) : M fstate Z :=
  match fuel with
  | O => hang
  | S fuel' =>
      sb <- getsb ;;
      if sb_size sb <=? b then panic "balloc: out of blocks"
      else
        bp <- lg (bio (bread dev (BBLOCK b sb))) ;;
        d <- lg (bio (bdata bp)) ;;
        match List.find (λ bi, negb (map_bit d bi)) (seqZ 0 (Z.min BPB (sb_size sb - b))) with
        | Some bi =>
            lg (bio (bstore bp (map_set bi))) ;;   (* Mark block in use. *)
            lg (log_write bp) ;;
            lg (bio (brelse bp)) ;;
            bzero dev (b + bi) ;;
            ret (b + bi)
        | None =>
            lg (bio (brelse bp)) ;;
            balloc_loop dev fuel' (b + BPB)
        end
  end.
(** Allocate a zeroed disk block. *)
Definition balloc (dev : Z) : M fstate Z :=
  sb <- getsb ;; balloc_loop dev (S (S (Z.to_nat (sb_size sb / BPB)))) 0.

(** Free a disk block. *)
Definition bfree (dev b : Z) : M fstate unit :=
  sb <- getsb ;;
  bp <- lg (bio (bread dev (BBLOCK b sb))) ;;
  d <- lg (bio (bdata bp)) ;;
  let bi := b mod BPB in
  when (negb (map_bit d bi)) (panic "freeing free block") ;;
  lg (bio (bstore bp (map_clear bi))) ;;
  lg (log_write bp) ;;
  lg (bio (brelse bp)).

(** * Inodes *)

Definition iinit (dev : Z) : M fstate unit :=
  for_each (seq 0 ninode) (λ i, upd_inode i (set_ilock initsleeplock)) ;;
  sb <- lg (bio (readsb dev)) ;;
  modify (λ s, FState (fs_l s) sb (fs_inode s)).

(** The search of [iget] from entry [k] on: an entry that holds the inode, or the
    first empty slot. *)
Fixpoint iget_scan (dev inum : Z) (l : list inode) (k : nat) (empty : option nat) : nat + option nat :=
  match l with
  | [] => inr empty
  | ip :: l' =>
      if (0 <? i_ref ip) && (i_dev ip =? dev) && (i_inum ip =? inum) then inl k
      else iget_scan dev inum l' (S k)
             (if match empty with None => i_ref ip =? 0 | _ => false end then Some k else empty)
  end.

(** Find the inode with number inum on device dev and return the in-memory copy. *)
Definition iget (dev inum : Z) : M fstate nat :=
  acquire LkIcache ;;
  s <- get ;;
  match iget_scan dev inum (fs_inode s) 0 None with
  | inl ip =>
      upd_inode ip (set_iref (λ r, r + 1)) ;;
      release LkIcache ;;
      ret ip
  | inr (Some ip) =>
      (* Recycle an inode cache entry. *)
      upd_inode ip (λ i, Inode dev inum 1 (i_lock i) false (i_type i) (i_major i) (i_minor i)
                           (i_nlink i) (i_size i) (i_addrs i)) ;;
      release LkIcache ;;
      ret ip
  | inr None => panic "iget: no inodes"
  end.

(** Allocate an inode on device dev. *)
Fixpoint ialloc_loop (dev type : Z) (inums : list Z) : M fstate nat :=
  match inums with
  | [] => panic "ialloc: no inodes"
  | inum :: inums' =>
      sb <- getsb ;;
      bp <- lg (bio (bread dev (IBLOCK inum sb))) ;;
      d <- lg (bio (bdata bp)) ;;
      if di_type (rd_dinode (dino_off inum) d) =? 0 then   (* a free inode *)
        lg (bio (bstore bp (wr_dinode (dino_off inum) (DInode type 0 0 0 0 (replicate (S ndirect) 0))))) ;;
        lg (log_write bp) ;;   (* mark it allocated on the disk *)
        lg (bio (brelse bp)) ;;
        iget dev inum
      else
        lg (bio (brelse bp)) ;;
        ialloc_loop dev type inums'
  end.
Definition ialloc (dev type : Z) : M fstate nat :=
  sb <- getsb ;; ialloc_loop dev type (seqZ 1 (sb_ninodes sb - 1)).

(** What the inode cache writes through to the disk. *)
Definition to_dinode (i : inode) : dinode :=
  DInode (i_type i) (i_major i) (i_minor i) (i_nlink i) (i_size i) (i_addrs i).

(** Copy a modified in-memory inode to disk. *)
Definition iupdate (ip : nat) : M fstate unit :=
  i <- inodep ip ;;
  sb <- getsb ;;
  bp <- lg (bio (bread (i_dev i) (IBLOCK (i_inum i) sb))) ;;
  lg (bio (bstore bp (wr_dinode (dino_off (i_inum i)) (to_dinode i)))) ;;
  lg (log_write bp) ;;
  lg (bio (brelse bp)).

(** Increment reference count for ip. *)
Definition idup (ip : nat) : M fstate nat :=
  acquire LkIcache ;;
  upd_inode ip (set_iref (λ r, r + 1)) ;;
  release LkIcache ;;
  ret ip.

(** Lock the given inode.  Reads the inode from disk if necessary.  [None] is a null
    pointer. *)
Definition ilock (o : option nat) : M fstate unit :=
  match o with
  | None => panic "ilock"
  | Some ip =>
      i <- inodep ip ;;
      when (i_ref i <? 1) (panic "ilock") ;;
      ino_acquiresleep ip ;;
      i <- inodep ip ;;
      when (negb (i_valid i))
        (sb <- getsb ;;
         bp <- lg (bio (bread (i_dev i) (IBLOCK (i_inum i) sb))) ;;
         d <- lg (bio (bdata bp)) ;;
         let dip := rd_dinode (dino_off (i_inum i)) d in
         upd_inode ip (set_type (di_type dip)) ;;
         upd_inode ip (set_major (di_major dip)) ;;
         upd_inode ip (set_minor (di_minor dip)) ;;
         upd_inode ip (set_nlink (λ _, di_nlink dip)) ;;
         upd_inode ip (set_isize (di_size dip)) ;;
         upd_inode ip (set_addrs (di_addrs dip)) ;;
         lg (bio (brelse bp)) ;;
         upd_inode ip (set_valid true) ;;
         when (di_type dip =? 0) (panic "ilock: no type"))
  end.

(** Unlock the given inode. *)
Definition iunlock (o : option nat) : M fstate unit :=
  match o with
  | None => panic "iunlock"
  | Some ip =>
      h <- ino_holdingsleep ip ;;
      i <- inodep ip ;;
      when (negb h || (i_ref i <? 1)) (panic "iunlock") ;;
      ino_releasesleep ip
  end.

(** Truncate inode (discard contents). *)
Definition itrunc (ip : nat) : M fstate unit :=
  for_each (seq 0 ndirect) (λ k,
    i <- inodep ip ;;
    a <- deref (i_addrs i !! k) ;;
    when (negb (a =? 0))
      (bfree (i_dev i) a ;;
       upd_inode ip (λ i, set_addrs (<[k := 0]> (i_addrs i)) i))) ;;
  i <- inodep ip ;;
  ind <- deref (i_addrs i !! ndirect) ;;
  when (negb (ind =? 0))
    (bp <- lg (bio (bread (i_dev i) ind)) ;;
     for_each (seq 0 nindirect) (λ j,
       a <- lg (bio (bdata bp)) ;;
       when (negb (rd 4 (4 * j) a =? 0)) (bfree (i_dev i) (rd 4 (4 * j) a))) ;;
     lg (bio (brelse bp)) ;;
     bfree (i_dev i) ind ;;
     upd_inode ip (λ i, set_addrs (<[ndirect := 0]> (i_addrs i)) i)) ;;
  upd_inode ip (set_isize 0) ;;
  iupdate ip.

(** Drop a reference to an in-memory inode. *)
Definition iput (ip : nat) : M fstate unit :=
  ino_acquiresleep ip ;;
  i <- inodep ip ;;
  when (i_valid i && (i_nlink i =? 0))
    (acquire LkIcache ;;
     i <- inodep ip ;;
     let r := i_ref i in
     release LkIcache ;;
     when (r =? 1)
       ( (* inode has no links and no other references: truncate and free. *)
        itrunc ip ;;
        upd_inode ip (set_type 0) ;;
        iupdate ip ;;
        upd_inode ip (set_valid false))) ;;
  ino_releasesleep ip ;;
  acquire LkIcache ;;
  upd_inode ip (set_iref (λ r, r - 1)) ;;
  release LkIcache.

Definition iunlockput (ip : nat) : M fstate unit := iunlock (Some ip) ;; iput ip.

(** * Inode content *)

(** Return the disk block address of the nth block in inode ip. *)
Definition bmap (ip : nat) (bn : Z) : M fstate Z :=
  i <- inodep ip ;;
  if bn <? NDIRECT then
    addr <- deref (i_addrs i !! Z.to_nat bn) ;;
    if addr =? 0 then
      addr <- balloc (i_dev i) ;;
      upd_inode ip (λ i, set_addrs (<[Z.to_nat bn := addr]> (i_addrs i)) i) ;;
      ret addr
    else ret addr
  else
    let bn := bn - NDIRECT in
    if bn <? NINDIRECT then
      (* Load indirect block, allocating if necessary. *)
      addr <- deref (i_addrs i !! ndirect) ;;
      addr <- (if addr =? 0 then
                 addr <- balloc (i_dev i) ;;
                 upd_inode ip (λ i, set_addrs (<[ndirect := addr]> (i_addrs i)) i) ;;
                 ret addr
               else ret addr) ;;
      bp <- lg (bio (bread (i_dev i) addr)) ;;
      a <- lg (bio (bdata bp)) ;;
      addr <- (if rd 4 (Z.to_nat (4 * bn)) a =? 0 then
                 addr <- balloc (i_dev i) ;;
                 lg (bio (bstore bp (wr 4 (Z.to_nat (4 * bn)) addr))) ;;
                 lg (log_write bp) ;;
                 ret addr
               else ret (rd 4 (Z.to_nat (4 * bn)) a)) ;;
      lg (bio (brelse bp)) ;;
      ret addr
    else panic "bmap: out of range".

(** [struct stat]. *)
Record stat := Stat { st_type : Z; st_dev : Z; st_ino : Z; st_nlink : Z; st_size : Z }.
(** Copy stat information from inode. *)
Definition stati (ip : nat) : M fstate stat :=
  i <- inodep ip ;; ret (Stat (i_type i) (i_dev i) (i_inum i) (i_nlink i) (i_size i)).

(** [devsw]: the functions of the devices, by major number. *)
Record devsw := Devsw {
  dev_read : Z → option (nat → Z → M fstate (Z * list Z));
  dev_write : Z → option (nat → list Z → M fstate Z);
}.

Section content.
Context (dsw : devsw).

(** The copying loop of [readi]: [n] bytes from [off] on. *)
Fixpoint readi_loop (fuel : nat) (ip : nat) (off n : Z) : M fstate (list Z) :=
  match fuel with
  | O => hang
  | S fuel' =>
      if n =? 0 then ret []
      else
        i <- inodep ip ;;
        b <- bmap ip (off / BSIZE) ;;
        bp <- lg (bio (bread (i_dev i) b)) ;;
        let m := Z.min n (BSIZE - off mod BSIZE) in
        d <- lg (bio (bdata bp)) ;;
        lg (bio (brelse bp)) ;;
        rest <- readi_loop fuel' ip (off + m) (n - m) ;;
        ret (slice (Z.to_nat (off mod BSIZE)) (Z.to_nat m) d ++ rest)
  end.

(** Read data from inode: the result and the bytes stored at [dst]. *)
Definition readi (ip : nat) (off n : Z) : M fstate (Z * list Z) :=
  i <- inodep ip ;;
  if i_type i =? T_DEV then
    match (if (i_major i <? 0) || (NDEV <=? i_major i) then None else dev_read dsw (i_major i)) with
    | None => ret (-1, [])
    | Some f => f ip n
    end
  else if (i_size i <? off) || (u32 (off + n) <? off) then ret (-1, [])
  else
    let n := if i_size i <? off + n then i_size i - off else n in
    l <- readi_loop (Z.to_nat (n / BSIZE + 3)) ip off n ;;
    ret (n, l).

(** The copying loop of [writei]; it returns the new [off]. *)
Fixpoint writei_loop (fuel : nat) (ip : nat) (src : list Z) (off : Z) : M fstate Z :=
  match fuel with
  | O => hang
  | S fuel' =>
      match src with
      | [] => ret off
      | _ =>
          i <- inodep ip ;;
          b <- bmap ip (off / BSIZE) ;;
          bp <- lg (bio (bread (i_dev i) b)) ;;
          let m := Z.min (Z.of_nat (length src)) (BSIZE - off mod BSIZE) in
          lg (bio (bstore bp (splice (Z.to_nat (off mod BSIZE)) (take (Z.to_nat m) src)))) ;;
          lg (log_write bp) ;;
          lg (bio (brelse bp)) ;;
          writei_loop fuel' ip (drop (Z.to_nat m) src) (off + m)
      end
  end.

(** Write data to inode: the [n] bytes [src]. *)
Definition writei (ip : nat) (src : list Z) (off : Z) : M fstate Z :=
  let n := Z.of_nat (length src) in
  i <- inodep ip ;;
  if i_type i =? T_DEV then
    match (if (i_major i <? 0) || (NDEV <=? i_major i) then None else dev_write dsw (i_major i)) with
    | None => ret (-1)
    | Some f => f ip src
    end
  else if (i_size i <? off) || (u32 (off + n) <? off) then ret (-1)
  else if MAXFILE * BSIZE <? off + n then ret (-1)
  else
    off <- writei_loop (Z.to_nat (n / BSIZE + 3)) ip src off ;;
    i <- inodep ip ;;
    when ((0 <? n) && (i_size i <? off))
      (upd_inode ip (set_isize off) ;; iupdate ip) ;;
    ret n.

(** * Directories *)

(** [namecmp(s, t) == 0]; what [strncmp] compares are the strings of at most [DIRSIZ]
    bytes ([strncmp_eq]). *)
Definition namecmp (s t : list Z) : bool :=
  bool_decide (cstr (Z.to_nat DIRSIZ) s = cstr (Z.to_nat DIRSIZ) t).

(** [struct dirent]: 16 bytes. *)
Definition de_inum (de : list Z) : Z := rd 2 0 de.
Definition de_name (de : list Z) : list Z := slice 2 (Z.to_nat DIRSIZ) de.

(** Look for a directory entry in a directory, from [off] on: the inode, if there is
    one, and the offset of its entry. *)
Fixpoint dirlookup_loop (fuel : nat) (dp : nat) (name : list Z) (off : Z) : M fstate (option (nat * Z)) :=
  match fuel with
  | O => hang
  | S fuel' =>
      i <- inodep dp ;;
      if i_size i <=? off then ret None
      else
        r <- readi dp off 16 ;;
        when (negb (r.1 =? 16)) (panic "dirlookup read") ;;
        if de_inum r.2 =? 0 then dirlookup_loop fuel' dp name (off + 16)
        else if namecmp name (de_name r.2) then
          (* entry matches path element *)
          ip <- iget (i_dev i) (de_inum r.2) ;;
          ret (Some (ip, off))
        else dirlookup_loop fuel' dp name (off + 16)
  end.
Definition dirlookup (dp : nat) (name : list Z) : M fstate (option (nat * Z)) :=
  i <- inodep dp ;;
  when (negb (i_type i =? T_DIR)) (panic "dirlookup not DIR") ;;
  dirlookup_loop (S (S (Z.to_nat (i_size i / 16)))) dp name 0.

(** The search for an empty entry. *)
Fixpoint dirlink_loop (fuel : nat) (dp : nat) (off : Z) : M fstate Z :=
  match fuel with
  | O => hang
  | S fuel' =>
      i <- inodep dp ;;
      if i_size i <=? off then ret off
      else
        r <- readi dp off 16 ;;
        when (negb (r.1 =? 16)) (panic "dirlink read") ;;
        if de_inum r.2 =? 0 then ret off else dirlink_loop fuel' dp (off + 16)
  end.

(** [strncpy(de.name, name, DIRSIZ); de.inum = inum]. *)
Definition make_dirent (name : list Z) (inum : Z) : list Z :=
  let s := cstr (Z.to_nat DIRSIZ) name in
  le_bytes 2 inum ++ s ++ replicate (Z.to_nat DIRSIZ - length s) 0.

(** Write a new directory entry (name, inum) into the directory dp. *)
Definition dirlink (dp : nat) (name : list Z) (inum : Z) : M fstate Z :=
  (* Check that name is not present. *)
  r <- dirlookup dp name ;;
  match r with
  | Some (ip, _) => iput ip ;; ret (-1)
  | None =>
      (* Look for an empty dirent. *)
      i <- inodep dp ;;
      off <- dirlink_loop (S (S (Z.to_nat (i_size i / 16)))) dp 0 ;;
      w <- writei dp (make_dirent name inum) off ;;
      when (negb (w =? 16)) (panic "dirlink") ;;
      ret 0
  end.
End content.

(** * Paths *)

(** The slashes at the front of a path. *)
Fixpoint skip_slashes (path : list Z) : list Z :=
  match path with c :: p => if c =? 47 then skip_slashes p else path | [] => [] end.
(** Its first element, and what follows. *)
Fixpoint split_elem (path : list Z) : list Z * list Z :=
  match path with
  | [] => ([], [])
  | c :: p => if c =? 47 then ([], path) else let '(e, r) := split_elem p in (c :: e, r)
  end.

(** Copy the next path element from path into name: the rest of the path and the
    string in [name], of which there are at most [DIRSIZ] bytes. *)
Definition skipelem (path : list Z) : option (list Z * list Z) :=
  match skip_slashes path with
  | [] => None
  | p => let '(s, rest) := split_elem p in Some (skip_slashes rest, take (Z.to_nat DIRSIZ) s)
  end.

Section names.
Context (dsw : devsw).

Fixpoint namex_loop (fuel : nat) (ip : nat) (path : list Z) (nameiparent : bool) (name : list Z)
    : M fstate (option nat * list Z) :=
  match fuel with
  | O => hang
  | S fuel' =>
      match skipelem path with
      | None =>
          if nameiparent then iput ip ;; ret (None, name) else ret (Some ip, name)
      | Some (path, name) =>
          ilock (Some ip) ;;
          i <- inodep ip ;;
          if negb (i_type i =? T_DIR) then iunlockput ip ;; ret (None, name)
          else if nameiparent && bool_decide (path = []) then
            (* Stop one level early. *)
            iunlock (Some ip) ;; ret (Some ip, name)
          else
            next <- dirlookup dsw ip name ;;
            match next with
            | None => iunlockput ip ;; ret (None, name)
            | Some (next, _) => iunlockput ip ;; namex_loop fuel' next path nameiparent name
            end
      end
  end.

(** Look up and return the inode for a path name; [cwd] is [myproc()->cwd]. *)
Definition namex (cwd : nat) (path : list Z) (nameiparent : bool) : M fstate (option nat * list Z) :=
  ip <- (match path with 47 :: _ => iget ROOTDEV ROOTINO | _ => idup cwd end) ;;
  namex_loop (S (length path)) ip path nameiparent [].

Definition namei (cwd : nat) (path : list Z) : M fstate (option nat) :=
  r <- namex cwd path false ;; ret r.1.
Definition nameiparent (cwd : nat) (path : list Z) : M fstate (option nat * list Z) :=
  namex cwd path true.
End names.
