(* ===== verification/FsBlocks.v ===== *)
(** The block allocator of the file system: [bzero], [balloc] and [bfree] as operations
    on the kernel's view of the disk inside a transaction. *)
From stdpp Require Import base list numbers strings sets gmap.
From Stdlib Require Import ZArith Lia.
From S2P Require Import Prelude Params Machine Spinlock Sleeplock CString Bio BioRing BioSpec.
From S2P Require Import Log LogSpec LogCommit LogRecover LogOps Fs.
Local Open Scope Z_scope.
Local Open Scope xv6_scope.

(** * The free map, bit by bit *)

Lemma land_bit x k : 0 <= k → negb (Z.land x (Z.shiftl 1 k) =? 0) = Z.testbit x k.
Proof.
  intros Hk. rewrite Z.shiftl_1_l. destruct (Z.testbit x k) eqn:Hb.
  - apply negb_true_iff, Z.eqb_neq. intros H0.
    assert (Z.testbit (Z.land x (2 ^ k)) k = true) as H by (rewrite Z.land_spec, Hb, Z.pow2_bits_true by lia; done).
    rewrite H0, Z.bits_0 in H. done.
  - apply negb_false_iff, Z.eqb_eq, Z.bits_inj'. intros j Hj. rewrite Z.land_spec, Z.bits_0.
    destruct (decide (j = k)) as [->|]; [by rewrite Hb|]. rewrite Z.pow2_bits_false by lia. apply andb_false_r.
Qed.

Lemma map_bit_test d bi : map_bit d bi = Z.testbit (d !!! Z.to_nat (bi / 8)) (bi mod 8).
Proof. apply land_bit. apply Z.mod_pos_bound. lia. Qed.

Lemma u8_testbit x k : 0 <= k < 8 → Z.testbit (u8 x) k = Z.testbit x k.
Proof. intros H. apply Z.mod_pow2_bits_low. lia. Qed.

(** Two bits of a block are in different bytes, or different bits of a byte. *)
Lemma map_bit_insert (d : list Z) bi bj x :
  0 <= bi < BPB → 0 <= bj < BPB → length d = bsize →
  (∀ k, 0 <= k < 8 → Z.testbit x k = if decide (k = bi mod 8) then Z.testbit x k else Z.testbit (d !!! Z.to_nat (bi / 8)) k) →
  map_bit (<[Z.to_nat (bi / 8) := x]> d) bj = if decide (bi = bj) then Z.testbit x (bi mod 8) else map_bit d bj.
Proof.
  intros Hi Hj Hd Hx. unfold BPB, BSIZE in *.
  assert (0 <= bi / 8 < 512 ∧ 0 <= bj / 8 < 512) as [Hdi Hdj].
  { split; (split; [apply Z.div_pos; lia|apply Z.div_lt_upper_bound; lia]). }
  pose proof (Z.mod_pos_bound bi 8 ltac:(lia)). pose proof (Z.mod_pos_bound bj 8 ltac:(lia)).
  pose proof (Z.div_mod bi 8 ltac:(lia)). pose proof (Z.div_mod bj 8 ltac:(lia)).
  rewrite !map_bit_test. destruct (decide (bi / 8 = bj / 8)) as [Heq|Hne].
  - rewrite <- Heq, list_lookup_total_insert_eq by (rewrite Hd; unfold BSIZE; lia).
    rewrite Hx by lia. case_decide as E; case_decide as E'; try (exfalso; lia); [by rewrite E|by rewrite Heq].
  - rewrite list_lookup_total_insert_ne by lia. rewrite decide_False; [done|]. intros ->. done.
Qed.

Lemma map_bit_set d bi bj :
  0 <= bi < BPB → 0 <= bj < BPB → length d = bsize →
  map_bit (map_set bi d) bj = if decide (bi = bj) then true else map_bit d bj.
Proof.
  intros Hi Hj Hd. pose proof (Z.mod_pos_bound bi 8 ltac:(lia)). unfold map_set.
  rewrite map_bit_insert; [|done..|].
  - case_decide; [|done]. rewrite u8_testbit, Z.lor_spec, Z.shiftl_1_l, Z.pow2_bits_true by lia. apply orb_true_r.
  - intros k Hk. case_decide; [done|]. rewrite u8_testbit, Z.lor_spec, Z.shiftl_1_l, Z.pow2_bits_false by lia.
    apply orb_false_r.
Qed.

Lemma map_bit_clear d bi bj :
  0 <= bi < BPB → 0 <= bj < BPB → length d = bsize →
  map_bit (map_clear bi d) bj = if decide (bi = bj) then false else map_bit d bj.
Proof.
  intros Hi Hj Hd. pose proof (Z.mod_pos_bound bi 8 ltac:(lia)). unfold map_clear.
  rewrite map_bit_insert; [|done..|].
  - case_decide; [|done]. rewrite u8_testbit, Z.land_spec, Z.lnot_spec, Z.shiftl_1_l, Z.pow2_bits_true by lia.
    apply andb_false_r.
  - intros k Hk. case_decide; [done|].
    rewrite u8_testbit, Z.land_spec, Z.lnot_spec, Z.shiftl_1_l, Z.pow2_bits_false by lia. apply andb_true_r.
Qed.

Lemma map_set_length bi d : length (map_set bi d) = length d.
Proof. apply length_insert. Qed.
Lemma map_clear_length bi d : length (map_clear bi d) = length d.
Proof. apply length_insert. Qed.

(** * The layout of the file system *)

(** The superblock [sb] describes a disk of [nb] blocks with the log in [st .. st+sz-1]:
    inode blocks and the free map are on the disk, behind the log, and in front of
    block [dstart], the first data block. *)
Record layout (st sz : Z) (nb : nat) (sb : superblock) (dstart : Z) : Prop := {
  ly_size : 0 < sb_size sb <= Z.of_nat nb ∧ sb_size sb < 2 ^ 31;
  ly_dstart : st + sz <= dstart ∧ 1 < dstart <= sb_size sb;
  ly_start : 0 <= st ∧ 0 <= sz;
  ly_bmap : st + sz <= sb_bmapstart sb ∧ 1 < sb_bmapstart sb ∧
            (∀ b, 0 <= b < sb_size sb → b / BPB + sb_bmapstart sb < dstart);
  ly_inodes : st + sz <= sb_inodestart sb ∧ 1 < sb_inodestart sb ∧
              (∀ i, 0 <= i < sb_ninodes sb → i / IPB + sb_inodestart sb < sb_bmapstart sb);
  ly_ninodes : sb_ninodes sb < 2 ^ 16;
}.

(** Is block [b] marked in use in [v]? *)
Definition used (v : list (list Z)) (sb : superblock) (b : Z) : bool :=
  map_bit (v !!! Z.to_nat (BBLOCK b sb)) (b mod BPB).

Section layout.
Context {st sz : Z} {nb : nat} {sb : superblock} {dstart : Z} (HY : layout st sz nb sb dstart).

Lemma BBLOCK_range b :
  0 <= b < sb_size sb →
  BBLOCK b sb = b / BPB + sb_bmapstart sb ∧ 1 < BBLOCK b sb ∧ st + sz <= BBLOCK b sb < dstart ∧
  BBLOCK b sb < Z.of_nat nb.
Proof.
  intros Hb. destruct HY as [[Hs Hs'] [Hd1 Hd2] _ (Hm1 & Hm2 & Hm3) _ _]. specialize (Hm3 b Hb).
  assert (0 <= b / BPB) by (apply Z.div_pos; [lia|done]).
  unfold BBLOCK. rewrite u32_small by lia. lia.
Qed.

Lemma IBLOCK_range i :
  0 <= i < sb_ninodes sb →
  IBLOCK i sb = i / IPB + sb_inodestart sb ∧ 1 < IBLOCK i sb ∧ st + sz <= IBLOCK i sb < sb_bmapstart sb ∧
  IBLOCK i sb < Z.of_nat nb.
Proof.
  intros Hi. destruct HY as [[Hs Hs'] [Hd1 Hd2] Hst (Hm1 & Hm2 & Hm3) (Hi1 & Hi2 & Hi3) _]. specialize (Hi3 i Hi).
  specialize (Hm3 0 ltac:(lia)). rewrite Z.div_0_l in Hm3 by done.
  assert (0 <= i / IPB) by (apply Z.div_pos; [lia|done]).
  unfold IBLOCK. rewrite u32_small by lia. lia.
Qed.
End layout.

(** The first free block. *)
Definition first_free (v : list (list Z)) (sb : superblock) : option Z :=
  List.find (λ b, negb (used v sb b)) (seqZ 0 (sb_size sb)).

Lemma find_fmap {A B} (f : A → B) p l : List.find p (f <$> l) = f <$> List.find (p ∘ f) l.
Proof. induction l as [|x l IH]; cbn; [done|]. by destruct (p (f x)). Qed.

Lemma find_ext {A} (p q : A → bool) l : (∀ x, x ∈ l → p x = q x) → List.find p l = List.find q l.
Proof.
  induction l as [|x l IH]; intros H; cbn; [done|]. rewrite <- (H x) by (left; done).
  destruct (p x); [done|]. apply IH. intros y Hy. apply H. by right.
Qed.

(** The block [b + bi] of the map block of [b]. *)
Lemma chunk_block sb b bi :
  b mod BPB = 0 → 0 <= bi < BPB → BBLOCK (b + bi) sb = BBLOCK b sb ∧ (b + bi) mod BPB = bi.
Proof.
  intros Hb Hbi. unfold BBLOCK. pose proof (Z.div_mod b BPB ltac:(done)) as Hdm.
  rewrite Hb, Z.add_0_r in Hdm. rewrite Hdm at 1 3. rewrite (Z.mul_comm BPB), (Z.add_comm (_ * _)).
  rewrite Z.div_add, Z.mod_add by done. rewrite Z.div_small, Z.mod_small by done. done.
Qed.

(** One map block: the search from [b], a multiple of [BPB], on. *)
Lemma find_chunk v sb b :
  b mod BPB = 0 → 0 <= b < sb_size sb →
  List.find (λ b, negb (used v sb b)) (seqZ b (sb_size sb - b)) =
  match List.find (λ bi, negb (map_bit (v !!! Z.to_nat (BBLOCK b sb)) bi)) (seqZ 0 (Z.min BPB (sb_size sb - b))) with
  | Some bi => Some (b + bi)
  | None => List.find (λ b, negb (used v sb b)) (seqZ (b + BPB) (sb_size sb - (b + BPB)))
  end.
Proof.
  intros Hb Hr. set (n := Z.min BPB (sb_size sb - b)).
  assert (seqZ b (sb_size sb - b) = ((Z.add b) <$> seqZ 0 n) ++ seqZ (b + BPB) (sb_size sb - (b + BPB))) as ->.
  { rewrite fmap_add_seqZ, Z.add_0_r. destruct (decide (BPB <= sb_size sb - b)).
    - assert (n = BPB) as -> by lia. replace (sb_size sb - b) with (BPB + (sb_size sb - (b + BPB))) by lia.
      apply seqZ_app; [done|lia].
    - assert (n = sb_size sb - b) as -> by lia. rewrite (seqZ_nil (b + BPB)) by lia. by rewrite app_nil_r. }
  rewrite find_app, find_fmap.
  rewrite (find_ext _ (λ bi, negb (map_bit (v !!! Z.to_nat (BBLOCK b sb)) bi)) (seqZ 0 n)).
  { by destruct (List.find _ (seqZ 0 n)). }
  intros bi [Hbi1 Hbi2]%elem_of_seqZ. cbn. unfold used.
  destruct (chunk_block sb b bi Hb ltac:(lia)) as [-> ->]. done.
Qed.

(** * Blocks inside a transaction *)

(** Store [d] in block [n] and put it in the transaction. *)
Definition la_write (n : Z) (d : list Z) (a : labs) : labs :=
  LAbs (la_old a) (<[Z.to_nat n := d]> (la_view a)) (la_held a) (absorb n (la_bs a)) (la_out a) (la_committing a).

(** There is room to put [k] more blocks in the transaction or to hold their buffers. *)
Definition room (k : nat) (sz : Z) (a : labs) : Prop :=
  (length (la_bs a) + size (la_held a) + k < nbuf)%nat ∧ Z.of_nat (length (la_bs a) + k) < sz ∧
  1 <= la_out a.

Lemma room_write k sz n d a : room (S k) sz a → room k sz (la_write n d a).
Proof. unfold room. cbn. pose proof (absorb_length n (la_bs a)). lia. Qed.

Lemma room_hold k sz i n m a : la_held a !! i = None → room (S k) sz a → room k sz (la_hold i n m a).
Proof. unfold room. cbn. intros Hi. rewrite map_size_insert_None by done. lia. Qed.

Lemma room_le k k' sz a : (k' <= k)%nat → room k sz a → room k' sz a.
Proof. unfold room. lia. Qed.

Lemma la_drop_hold i n m a : la_held a !! i = None → la_drop i (la_hold i n m a) = a.
Proof. intros H. destruct a. unfold la_drop, la_hold. cbn in *. by rewrite delete_insert_id. Qed.

Lemma la_drop_write i n d a :
  la_held a !! i = None →
  la_drop i (la_log i n (la_store i n d (la_hold i n false a))) = la_write n d a.
Proof.
  intros H. destruct a. unfold la_drop, la_log, la_store, la_hold, la_write. cbn in *.
  by rewrite !insert_insert_eq, delete_insert_id.
Qed.

(** Three steps at a time. *)
Lemma wp_bind3 {S A B C D} (m1 : M S A) (m2 : M S B) (m3 : M S C) (k : M S D) E c s Q :
  wp E (m1 ;; m2 ;; m3) c s (λ _ c s, wp E k c s Q) → wp E (m1 ;; m2 ;; m3 ;; k) c s Q.
Proof.
  unfold wp, bind. destruct (m1 c s) as [? c1 s1| | | |]; try done.
  destruct (m2 c1 s1) as [? c2 s2| | | |]; try done. by destruct (m3 c2 s2).
Qed.

Section blocks.
Context (pid st sz : Z) (E : string → Prop) (d0 : disk) (sb : superblock) (ino : list inode).

(** The log implements [a], and nothing has been written to the disk since it was [d0]. *)
Definition frel (l : lstate) (a : labs) : Prop := lrel pid st sz l a ∧ bs_disk (ls_b l) = d0.

Lemma frel_block l a n d : frel l a → la_view a !! n = Some d → length d = bsize.
Proof. intros [HL _]. by eapply lrel_block. Qed.

(** The block operations, on a state of the file system. *)
Lemma f_bread l a n Q :
  frel l a → 0 <= n < Z.of_nat (length (la_view a)) → la_unheld a n → room 1 sz a →
  (∀ i l', la_held a !! i = None → frel l' (la_hold i n false a) → Q i (cpu0 pid) (FState l' sb ino)) →
  wp E (lg (bio (bread 1 n))) (cpu0 pid) (FState l sb ino) Q.
Proof.
  intros [HL Hd] Hn Hun [Hr _] HQ. apply wp_lift.
  eapply (l_bread pid st sz E _ _ _ _ HL Hn Hun); [right; lia|].
  intros i l' Hi HL' Hd'. apply HQ; [done|]. split; [done|congruence].
Qed.

Lemma f_bdata l a i n m d Q :
  frel l a → la_held a !! i = Some (n, m) → la_view a !! Z.to_nat n = Some d →
  Q d (cpu0 pid) (FState l sb ino) → wp E (lg (bio (bdata i))) (cpu0 pid) (FState l sb ino) Q.
Proof. intros [HL _] Hi Hd HQ. apply wp_lift. by eapply (l_bdata pid st sz E _ _ _ _ _ _ _ HL). Qed.

Lemma f_bstore l a i n m f d Q :
  frel l a → la_held a !! i = Some (n, m) → la_view a !! Z.to_nat n = Some d →
  length (f d) = bsize → n ≠ 1 → ¬ (st <= n < st + sz) →
  (∀ l', frel l' (la_store i n (f d) a) → Q tt (cpu0 pid) (FState l' sb ino)) →
  wp E (lg (bio (bstore i f))) (cpu0 pid) (FState l sb ino) Q.
Proof.
  intros [HL Hd] Hi Hv Hlen Hn1 Hnl HQ. apply wp_lift.
  eapply (l_bstore pid st sz E _ _ _ _ _ _ _ _ HL Hi Hv Hlen Hn1 Hnl).
  intros l' HL' Hd'. apply HQ. split; [done|congruence].
Qed.

Lemma f_log_write l a i n m Q :
  frel l a → la_held a !! i = Some (n, m) → n ≠ 1 → ¬ (st <= n < st + sz) → room 0 sz a →
  Z.of_nat (length (la_bs a)) + 1 < sz →
  (∀ l', frel l' (la_log i n a) → Q tt (cpu0 pid) (FState l' sb ino)) →
  wp E (lg (log_write i)) (cpu0 pid) (FState l sb ino) Q.
Proof.
  intros [HL Hd] Hi Hn1 Hnl (Hr1 & Hr2 & Hr3) Hr4 HQ. apply wp_lift.
  eapply (log_write_spec pid st sz E _ _ _ _ _ _ HL Hi Hn1 Hnl Hr3); [sizes; lia|lia|].
  intros l' HL' Hd'. apply HQ. split; [done|congruence].
Qed.

Lemma f_brelse l a i n Q :
  frel l a → la_held a !! i = Some (n, false) →
  (∀ l', frel l' (la_drop i a) → Q tt (cpu0 pid) (FState l' sb ino)) →
  wp E (lg (bio (brelse i))) (cpu0 pid) (FState l sb ino) Q.
Proof.
  intros [HL Hd] Hi HQ. apply wp_lift. eapply (l_brelse pid st sz E _ _ _ _ _ HL Hi).
  intros l' HL' Hd'. apply HQ. split; [done|congruence].
Qed.

(** [bstore; log_write; brelse] on a buffer that was just read. *)
Lemma f_write_back l a i n f d Q :
  frel l (la_hold i n false a) → la_held a !! i = None → la_view a !! Z.to_nat n = Some d →
  length (f d) = bsize → n ≠ 1 → ¬ (st <= n < st + sz) → room 1 sz a →
  (∀ l', frel l' (la_write n (f d) a) → Q tt (cpu0 pid) (FState l' sb ino)) →
  wp E (lg (bio (bstore i f)) ;; lg (log_write i) ;; lg (bio (brelse i))) (cpu0 pid) (FState l sb ino) Q.
Proof.
  intros HL Hi Hv Hlen Hn1 Hnl (Hr1 & Hr2 & Hr3) HQ.
  apply wp_bind. eapply (f_bstore _ _ i n false f d _ HL); [cbn; by rewrite lookup_insert_eq|done|done|done|done|].
  intros l1 HL1. apply wp_bind.
  eapply (f_log_write _ _ i n true _ HL1); [cbn; by rewrite lookup_insert_eq|done|done| |cbn; lia|].
  { unfold room. cbn. rewrite insert_insert_eq, map_size_insert_None by done. lia. }
  intros l2 HL2. eapply (f_brelse _ _ i n _ HL2); [cbn; by rewrite lookup_insert_eq|].
  intros l3 HL3. apply HQ. by rewrite la_drop_write in HL3.
Qed.

Lemma bzero_spec l a n Q :
  frel l a → 0 <= n < Z.of_nat (length (la_view a)) → n ≠ 1 → ¬ (st <= n < st + sz) →
  la_unheld a n → room 1 sz a →
  (∀ l', frel l' (la_write n (replicate bsize 0) a) → Q tt (cpu0 pid) (FState l' sb ino)) →
  wp E (bzero 1 n) (cpu0 pid) (FState l sb ino) Q.
Proof.
  intros HL Hn Hn1 Hnl Hun Hr HQ. unfold bzero. apply wp_bind.
  destruct (lookup_lt_is_Some_2 (la_view a) (Z.to_nat n)) as [d Hd]; [lia|].
  pose proof (frel_block _ _ _ _ HL Hd) as Hlen.
  eapply (f_bread _ _ n _ HL Hn Hun Hr). intros i l1 Hi HL1.
  eapply (f_write_back _ a i n _ d _ HL1 Hi Hd); [by rewrite length_replicate|done|done|done|].
  intros l2 HL2. apply HQ. by rewrite <- Hlen.
Qed.
End blocks.

(** * Allocating and freeing blocks *)

Definition zeros : list Z := replicate bsize 0.

(** Block [b] is marked in use and zeroed. *)
Definition la_alloc (sb : superblock) (b : Z) (a : labs) : labs :=
  la_write b zeros
    (la_write (BBLOCK b sb) (map_set (b mod BPB) (la_view a !!! Z.to_nat (BBLOCK b sb))) a).
Definition la_free (sb : superblock) (b : Z) (a : labs) : labs :=
  la_write (BBLOCK b sb) (map_clear (b mod BPB) (la_view a !!! Z.to_nat (BBLOCK b sb))) a.

(** The blocks of the file system's own data are in use, and so is every data block
    the process holds. *)
Record alloc_ok (sb : superblock) (dstart : Z) (a : labs) : Prop := {
  ao_meta : ∀ b, 0 <= b < dstart → used (la_view a) sb b = true;
  ao_held : ∀ i n m, la_held a !! i = Some (n, m) → dstart <= n < sb_size sb ∧ used (la_view a) sb n = true;
}.

Lemma first_free_spec v sb b :
  first_free v sb = Some b →
  0 <= b < sb_size sb ∧ used v sb b = false ∧ ∀ b', 0 <= b' < b → used v sb b' = true.
Proof.
  unfold first_free. intros Hf. apply List.find_some in Hf as Hs. destruct Hs as [Hin Hu].
  apply list_elem_of_In, elem_of_seqZ in Hin. apply negb_true_iff in Hu.
  split; [lia|]. split; [done|]. intros b' Hb'.
  replace (sb_size sb) with (b + (sb_size sb - b)) in Hf by lia.
  rewrite seqZ_app, find_app in Hf by lia.
  destruct (List.find _ (seqZ 0 b)) as [x|] eqn:Hx.
  - injection Hf as ->. apply List.find_some in Hx as [Hx _]. apply list_elem_of_In, elem_of_seqZ in Hx. lia.
  - eapply List.find_none in Hx; [|apply list_elem_of_In, elem_of_seqZ; instantiate (1 := b'); lia].
    by apply negb_false_iff in Hx.
Qed.

Lemma first_free_none v sb b : first_free v sb = None → 0 <= b < sb_size sb → used v sb b = true.
Proof.
  intros Hx Hb. eapply List.find_none in Hx; [|apply list_elem_of_In, elem_of_seqZ; instantiate (1 := b); lia].
  by apply negb_false_iff in Hx.
Qed.

Section balloc.
Context (pid st sz : Z) (E : string → Prop) (d0 : disk) (sb : superblock) (ino : list inode).
Context (dstart : Z) (nb : nat) (HY : layout st sz nb sb dstart).
Notation frel := (frel pid st sz d0).

Lemma bitmap_unheld a b : alloc_ok sb dstart a → 0 <= b < sb_size sb → la_unheld a (BBLOCK b sb).
Proof.
  intros Hao Hb i m Hi. destruct (ao_held _ _ _ Hao _ _ _ Hi). destruct (BBLOCK_range HY b Hb). lia.
Qed.

Lemma free_is_data a b : alloc_ok sb dstart a → 0 <= b → used (la_view a) sb b = false → dstart <= b.
Proof.
  intros Hao Hb Hu. destruct (decide (b < dstart)); [|lia]. rewrite (ao_meta _ _ _ Hao) in Hu by lia. done.
Qed.

(** Marking and zeroing the block [b + bi] found in the map block of [b]. *)
Lemma balloc_found l a i f bi Q :
  f mod BPB = bi →
  frel l (la_hold i (BBLOCK f sb) false a) → la_held a !! i = None → alloc_ok sb dstart a →
  length (la_view a) = nb → room 2 sz a → 0 <= f < sb_size sb → used (la_view a) sb f = false →
  (∀ l', frel l' (la_alloc sb f a) → Q f (cpu0 pid) (FState l' sb ino)) →
  wp E (lg (bio (bstore i (map_set bi))) ;; lg (log_write i) ;; lg (bio (brelse i)) ;;
        bzero 1 f ;; ret f) (cpu0 pid) (FState l sb ino) Q.
Proof.
  intros <- HL Hi Hao Hnb Hr Hf Hu HQ. destruct (BBLOCK_range HY f Hf) as (_ & H1 & H2 & H3).
  pose proof (free_is_data a f Hao ltac:(lia) Hu) as Hfd. destruct HY as [[_ _] [Hd1 Hd2] _ _ _ _].
  destruct (lookup_lt_is_Some_2 (la_view a) (Z.to_nat (BBLOCK f sb))) as [d Hd]; [lia|].
  assert (length d = bsize) as Hlen by (by eapply (frel_block pid st sz d0 _ _ _ _ HL)).
  apply wp_bind3. eapply (f_write_back pid st sz E d0 sb ino _ a i (BBLOCK f sb) _ d _ HL Hi Hd);
    [by rewrite map_set_length|lia|lia|by eapply room_le; [|done]; lia|].
  intros l2 HL2. apply wp_bind.
  eapply (bzero_spec pid st sz E d0 sb ino _ _ f _ HL2); cbn [la_write la_view la_held].
  - rewrite length_insert. destruct HY as [[? ?] _ _ _ _ _]. lia.
  - lia.
  - lia.
  - intros j m Hj. destruct (ao_held _ _ _ Hao _ _ _ Hj) as [_ Hju]. congruence.
  - by apply room_write.
  - intros l3 HL3. apply wp_ret. apply HQ. unfold la_alloc.
    by rewrite (list_lookup_total_correct _ _ _ Hd).
Qed.

Lemma balloc_loop_spec fuel l a b Q :
  frel l a → alloc_ok sb dstart a → length (la_view a) = nb → room 2 sz a →
  b mod BPB = 0 → 0 <= b → sb_size sb - b <= BPB * (Z.of_nat fuel - 1) → (1 <= fuel)%nat →
  match List.find (λ b, negb (used (la_view a) sb b)) (seqZ b (sb_size sb - b)) with
  | Some f => ∀ l', frel l' (la_alloc sb f a) → Q f (cpu0 pid) (FState l' sb ino)
  | None => E "balloc: out of blocks"
  end →
  wp E (balloc_loop 1 fuel b) (cpu0 pid) (FState l sb ino) Q.
Proof.
  intros HL Hao Hnb Hr. revert l b HL. induction fuel as [|fuel IH]; intros l b HL Hb Hb0 Hfuel Hf1 HQ; [lia|].
  cbn [balloc_loop]. apply wp_bind, wp_gets. cbn [fs_sb].
  destruct (Z.leb_spec (sb_size sb) b) as [Hend|Hlt].
  { rewrite seqZ_nil in HQ by lia. by apply wp_panic. }
  destruct (BBLOCK_range HY b ltac:(lia)) as (_ & H1 & H2 & H3).
  destruct (lookup_lt_is_Some_2 (la_view a) (Z.to_nat (BBLOCK b sb))) as [d Hd]; [lia|].
  apply wp_bind. eapply (f_bread pid st sz E d0 sb ino _ _ (BBLOCK b sb) _ HL);
    [lia|by apply bitmap_unheld; [|lia]|by eapply room_le; [|done]; lia|].
  intros i l1 Hi HL1. apply wp_bind.
  eapply (f_bdata pid st sz E d0 sb ino _ _ i _ false d _ HL1); [cbn; by rewrite lookup_insert_eq|done|].
  rewrite (find_chunk _ _ _ Hb) in HQ by lia. rewrite (list_lookup_total_correct _ _ _ Hd) in HQ.
  destruct (List.find (λ bi, negb (map_bit d bi)) _) as [bi|] eqn:Hfind.
  - apply List.find_some in Hfind as [Hin Hbit]. apply list_elem_of_In, elem_of_seqZ in Hin.
    destruct (chunk_block sb b bi Hb ltac:(lia)) as [Hbb Hmod].
    rewrite <- Hbb in HL1.
    eapply (balloc_found _ a i (b + bi) bi _ Hmod HL1 Hi Hao Hnb Hr); [lia| |done].
    unfold used. rewrite Hbb, Hmod, (list_lookup_total_correct _ _ _ Hd). by apply negb_true_iff.
  - apply wp_bind. eapply (f_brelse pid st sz E d0 sb ino _ _ i _ _ HL1); [cbn; by rewrite lookup_insert_eq|].
    intros l2 HL2. rewrite la_drop_hold in HL2 by done.
    assert (0 < BPB) by done.
    apply (IH l2 (b + BPB) HL2); [|lia|lia|nia|done].
    rewrite <- Zplus_mod_idemp_l, Hb. done.
Qed.

Lemma balloc_spec l a Q :
  frel l a → alloc_ok sb dstart a → length (la_view a) = nb → room 2 sz a →
  match first_free (la_view a) sb with
  | Some b => ∀ l', frel l' (la_alloc sb b a) → Q b (cpu0 pid) (FState l' sb ino)
  | None => E "balloc: out of blocks"
  end →
  wp E (balloc 1) (cpu0 pid) (FState l sb ino) Q.
Proof.
  intros HL Hao Hnb Hr HQ. unfold balloc. apply wp_bind, wp_gets. cbn [fs_sb].
  eapply (balloc_loop_spec _ _ _ _ _ HL Hao Hnb Hr); [done|lia| |lia|].
  - destruct HY as [[? ?] _ _ _ _ _]. rewrite Z.sub_0_r. pose proof (Z.div_mod (sb_size sb) BPB ltac:(done)).
    pose proof (Z.mod_pos_bound (sb_size sb) BPB ltac:(done)).
    assert (0 <= sb_size sb / BPB) by (apply Z.div_pos; [lia|done]). unfold BPB, BSIZE in *. lia.
  - by rewrite Z.sub_0_r.
Qed.

Lemma bfree_spec l a b Q :
  frel l a → alloc_ok sb dstart a → length (la_view a) = nb → room 1 sz a → 0 <= b < sb_size sb →
  (if used (la_view a) sb b then ∀ l', frel l' (la_free sb b a) → Q tt (cpu0 pid) (FState l' sb ino)
   else E "freeing free block") →
  wp E (bfree 1 b) (cpu0 pid) (FState l sb ino) Q.
Proof.
  intros HL Hao Hnb Hr Hb HQ. destruct (BBLOCK_range HY b Hb) as (_ & H1 & H2 & H3).
  destruct (lookup_lt_is_Some_2 (la_view a) (Z.to_nat (BBLOCK b sb))) as [d Hd]; [lia|].
  assert (length d = bsize) as Hlen by (by eapply (frel_block pid st sz d0 _ _ _ _ HL)).
  unfold bfree. apply wp_bind, wp_gets. cbn [fs_sb]. apply wp_bind.
  eapply (f_bread pid st sz E d0 sb ino _ _ (BBLOCK b sb) _ HL); [lia|by apply bitmap_unheld|done|].
  intros i l1 Hi HL1. apply wp_bind.
  eapply (f_bdata pid st sz E d0 sb ino _ _ i _ false d _ HL1); [cbn; by rewrite lookup_insert_eq|done|].
  unfold used in HQ. rewrite (list_lookup_total_correct _ _ _ Hd) in HQ.
  apply wp_bind, wp_when; intros Hbit; destruct (map_bit d (b mod BPB)) eqn:Hm; try done.
  eapply (f_write_back pid st sz E d0 sb ino _ a i (BBLOCK b sb) _ d _ HL1 Hi Hd);
    [by rewrite map_clear_length|lia|lia|done|].
  intros l2 HL2. apply HQ. unfold la_free. by rewrite (list_lookup_total_correct _ _ _ Hd).
Qed.
End balloc.

(** * What changes *)

Section effects.
Context {st sz : Z} {nb : nat} {sb : superblock} {dstart : Z} (HY : layout st sz nb sb dstart).

(** Writing a map block changes the bit of one block only. *)
Lemma used_write v b b' f :
  length v = nb → 0 <= b < sb_size sb → 0 <= b' < sb_size sb →
  used (<[Z.to_nat (BBLOCK b sb) := f]> v) sb b' =
  if decide (BBLOCK b sb = BBLOCK b' sb) then map_bit f (b' mod BPB) else used v sb b'.
Proof.
  intros Hv Hb Hb'. destruct (BBLOCK_range HY b Hb) as (_ & H1 & H2 & H3).
  destruct (BBLOCK_range HY b' Hb') as (_ & H1' & H2' & H3'). unfold used. case_decide as E.
  - rewrite E, list_lookup_total_insert_eq; [done|]. lia.
  - rewrite list_lookup_total_insert_ne; [done|]. lia.
Qed.

Lemma same_map_bit b b' :
  0 <= b < sb_size sb → 0 <= b' < sb_size sb → BBLOCK b sb = BBLOCK b' sb → b mod BPB = b' mod BPB → b = b'.
Proof.
  intros Hb Hb' E Em. destruct (BBLOCK_range HY b Hb) as (E1 & _). destruct (BBLOCK_range HY b' Hb') as (E2 & _).
  rewrite (Z.div_mod b BPB), (Z.div_mod b' BPB) by done. lia.
Qed.

(** A data block is not a map block. *)
Lemma used_data v n d b :
  dstart <= n → 0 <= b < sb_size sb → used (<[Z.to_nat n := d]> v) sb b = used v sb b.
Proof.
  intros Hn Hb. destruct (BBLOCK_range HY b Hb) as (_ & H1 & H2 & H3). destruct HY as [_ _ [Hs1 Hs2] _ _ _].
  unfold used. rewrite list_lookup_total_insert_ne; [done|]. lia.
Qed.

Context (a : labs) (Hnb : length (la_view a) = nb) (Hlen : ∀ n d, la_view a !! n = Some d → length d = bsize).

Lemma map_block b : 0 <= b < sb_size sb → length (la_view a !!! Z.to_nat (BBLOCK b sb)) = bsize.
Proof.
  intros Hb. destruct (BBLOCK_range HY b Hb) as (_ & H1 & H2 & H3).
  destruct (lookup_lt_is_Some_2 (la_view a) (Z.to_nat (BBLOCK b sb))) as [d Hd]; [lia|].
  rewrite (list_lookup_total_correct _ _ _ Hd). by eapply Hlen.
Qed.

Lemma used_alloc f b :
  dstart <= f < sb_size sb → 0 <= b < sb_size sb →
  used (la_view (la_alloc sb f a)) sb b = if decide (f = b) then true else used (la_view a) sb b.
Proof.
  intros Hf Hb. pose proof (ly_dstart _ _ _ _ _ HY) as Hyd. cbn [la_alloc la_write la_view]. rewrite used_data by lia.
  rewrite used_write by (first [done|lia]). rewrite map_bit_set; [|apply Z.mod_pos_bound; done..|apply map_block; lia].
  destruct (decide (f = b)) as [->|Hne]; [by rewrite !decide_True|].
  case_decide as E; [|done]. rewrite decide_False by (intros Em; apply Hne, same_map_bit; first [done|lia]).
  unfold used. by rewrite E.
Qed.

Lemma used_free f b :
  0 <= f < sb_size sb → 0 <= b < sb_size sb →
  used (la_view (la_free sb f a)) sb b = if decide (f = b) then false else used (la_view a) sb b.
Proof.
  intros Hf Hb. cbn [la_free la_write la_view]. rewrite used_write by done.
  rewrite map_bit_clear; [|apply Z.mod_pos_bound; done..|by apply map_block].
  destruct (decide (f = b)) as [->|Hne]; [by rewrite !decide_True|].
  case_decide as E; [|done]. rewrite decide_False by (intros Em; apply Hne, same_map_bit; done).
  unfold used. by rewrite E.
Qed.

(** Data blocks, other than the one that is zeroed, stay as they are. *)
Lemma alloc_data f b :
  dstart <= f < sb_size sb → dstart <= b < sb_size sb →
  la_view (la_alloc sb f a) !! Z.to_nat b = if decide (f = b) then Some zeros else la_view a !! Z.to_nat b.
Proof.
  intros Hf Hb. pose proof (ly_dstart _ _ _ _ _ HY) as Hyd. pose proof (ly_start _ _ _ _ _ HY) as Hys.
  pose proof (ly_size _ _ _ _ _ HY) as Hyz. destruct (BBLOCK_range HY f ltac:(lia)) as (_ & H1 & H2 & H3).
  cbn [la_alloc la_write la_view]. case_decide as E.
  - subst. apply list_lookup_insert_eq. rewrite length_insert. lia.
  - rewrite !list_lookup_insert_ne by lia. done.
Qed.

Lemma free_data f b :
  0 <= f < sb_size sb → dstart <= b < sb_size sb → la_view (la_free sb f a) !! Z.to_nat b = la_view a !! Z.to_nat b.
Proof.
  intros Hf Hb. pose proof (ly_start _ _ _ _ _ HY) as Hys.
  destruct (BBLOCK_range HY f ltac:(lia)) as (_ & H1 & H2 & H3). cbn [la_free la_write la_view].
  apply list_lookup_insert_ne. lia.
Qed.

Lemma alloc_ok_alloc f : alloc_ok sb dstart a → dstart <= f < sb_size sb → alloc_ok sb dstart (la_alloc sb f a).
Proof.
  intros [Hm Hh] Hf. pose proof (ly_dstart _ _ _ _ _ HY) as Hyd. split.
  - intros b Hb. rewrite used_alloc by lia. by case_decide; [|apply Hm].
  - intros i n m Hi. destruct (Hh i n m Hi) as [H1 H2]. split; [done|]. rewrite used_alloc by lia. by case_decide.
Qed.

Lemma alloc_ok_free f :
  alloc_ok sb dstart a → dstart <= f < sb_size sb → la_unheld a f → alloc_ok sb dstart (la_free sb f a).
Proof.
  intros [Hm Hh] Hf Hun. pose proof (ly_dstart _ _ _ _ _ HY) as Hyd. split.
  - intros b Hb. rewrite used_free by lia. rewrite decide_False by lia. by apply Hm.
  - intros i n m Hi. destruct (Hh i n m Hi) as [H1 H2]. split; [done|]. rewrite used_free by lia.
    rewrite decide_False; [done|]. intros ->. by apply (Hun i m).
Qed.
End effects.
