(* ===== verification/FsProps.v ===== *)
(** Allocating and freeing disk blocks, as transactions that reach the disk. *)
From stdpp Require Import base list numbers strings sets gmap.
From Stdlib Require Import ZArith Lia.
From S2P Require Import Prelude Params Machine Spinlock Sleeplock CString Bio BioRing BioSpec.
From S2P Require Import Log LogSpec LogCommit LogRecover LogOps Fs FsBlocks.
Local Open Scope Z_scope.
Local Open Scope xv6_scope.

(** A file system call after boot that does [m]. *)
Definition fs_txn {A} (m : M fstate A) : M fstate A :=
  lg boot ;;
  lg begin_op ;;
  r <- m ;;
  lg end_op ;;
  ret r.

(** The call left [dk]: cut the power after any number [j] of the writes the disk got
    since it was [img], let it fail again in any number of recoveries, and boot: outside
    of the log the disk holds [img] when [j] is below the commit point [cp], and [tgt]
    from there on. *)
Definition crash_atomic (pid st sz : Z) (img : list (list Z)) (dk : disk) (tgt : list (list Z)) : Prop :=
  ∃ cp, ∀ j img', rtc (failed_boot pid) (apply_writes (take j (d_writes dk)) img) img' →
    ∃ s, boot (cpu0 pid) (power_up img') = Ret tt (cpu0 pid) s ∧
      same_data st sz (d_img (bs_disk (ls_b s))) (if decide (j < cp)%nat then img else tgt).

(** From the writes of the boot, [rw], and of the commit, [ws]. *)
Lemma crash_atomic_writes pid st sz img rw ws n tgt :
  (∀ k, stands_for st sz (apply_writes (take k rw) img) img) →
  (∀ k, stands_for st sz (apply_writes (take k ws) (apply_writes rw img)) (if decide (k <= n)%nat then img else tgt)) →
  crash_atomic pid st sz img (disk_writes ws (disk_writes rw (Disk img []))) tgt.
Proof.
  intros Hrw Hws. exists (length rw + S n)%nat. intros j img' Hfail. cbn [disk_writes d_writes] in Hfail.
  enough (stands_for st sz (apply_writes (take j (rw ++ ws)) img) (if decide (j < length rw + S n)%nat then img else tgt)) as Hs.
  { eapply (stands_for_failed_boots _ _ _ _ _ _ Hfail), (stands_for_boot pid) in Hs.
    destruct Hs as (s' & Hb & Hs & _). eauto. }
  destruct (decide (j <= length rw)%nat) as [Hj|Hj].
  - rewrite take_app_le by done. rewrite decide_True by lia. apply Hrw.
  - rewrite take_app_ge, apply_writes_app by lia. specialize (Hws (j - length rw)%nat).
    destruct (decide (j - length rw <= n)%nat); [rewrite decide_True by lia|rewrite decide_False by lia]; exact Hws.
Qed.

Section txn.
Context (pid st sz : Z) (sb : superblock) (dstart : Z) (ino : list inode).
Context (img : list (list Z)) (Himg : log_image img st sz [] []).
Context (HY : layout st sz (length img) sb dstart) (Hmeta : ∀ b, 0 <= b < dstart → used img sb b = true).

(** The same file system data: the same blocks are in use. *)
Lemma used_same v b : same_data st sz v img → 0 <= b < sb_size sb → used v sb b = used img sb b.
Proof using HY.
  intros Hs Hb. destruct (BBLOCK_range HY b Hb) as (_ & H1 & H2 & H3). unfold used.
  rewrite !list_lookup_total_alt, (Hs (BBLOCK b sb)); [done|lia|lia].
Qed.
Lemma first_free_same v : same_data st sz v img → first_free v sb = first_free img sb.
Proof using HY.
  intros Hs. unfold first_free. apply find_ext. intros b Hb%elem_of_seqZ. rewrite used_same; [done|done|lia].
Qed.

(** Run [m] in a transaction of its own: when it is over the disk holds the view [m]
    ended with and its log is empty; if the power fails before that, the disk holds the
    old contents or the new ones. *)
Lemma fs_txn_spec {A} E (m : M fstate A) (Q : A → cpu → fstate → Prop) :
  (∀ l d v, frel pid st sz d l (LAbs v v ∅ [] 1 0) → same_data st sz v img → length v = length img →
     wp E m (cpu0 pid) (FState l sb ino) (λ r c s, c = cpu0 pid ∧ ∃ l' ino' a, s = FState l' sb ino' ∧
       frel pid st sz d l' a ∧ la_committing a = 0 ∧ la_out a = 1 ∧ la_held a = ∅ ∧ (length (la_bs a) < nbuf)%nat ∧
       ∀ l2, same_data st sz (d_img (bs_disk (ls_b l2))) (la_view a) →
         crash_atomic pid st sz img (bs_disk (ls_b l2)) (la_view a) → Q r (cpu0 pid) (FState l2 sb ino'))) →
  wp E (fs_txn m) (cpu0 pid) (FState (power_up img) sb ino) Q.
Proof using Himg.
  intros Hm. unfold fs_txn. apply wp_bind, wp_lift. cbn [fs_l fs_sb fs_inode].
  eapply boot_lrel; [exact Himg|]. intros l1 v rw HL1 Hd1 Hv Hrw Hsame Hlen. cbn in Hrw, Hsame.
  apply wp_bind, wp_lift. cbn [fs_l fs_sb fs_inode].
  eapply (begin_op_spec _ _ _ _ _ _ _ HL1); [done|cbn; unfold LOGSIZE, MAXOPBLOCKS; lia|].
  intros l2 HL2 Hd2. apply wp_bind. eapply wp_mono.
  { eapply (Hm l2 (bs_disk (ls_b l2)) v); [by split|done|done]. }
  cbv beta. intros r c s (-> & l3 & ino' & a & -> & [HL3 Hd3] & Hc & Ho & Hh & Hb & HQ).
  apply wp_bind, wp_lift. cbn [fs_l fs_sb fs_inode].
  eapply (end_op_commit _ _ _ _ _ _ _ HL3); try done. intros l4 v' ws Hs' _ HL4 Hd4 _ Hk. apply wp_ret, HQ.
  - destruct (lr_cache _ _ _ _ _ HL4) as (dk & HR & _ & Hold'). by rewrite (brel_disk _ _ _ HR).
  - rewrite Hd4, Hd3, Hd2, Hd1. rewrite Hd3, Hd2, Hd1 in Hk.
    apply (crash_atomic_writes pid st sz img rw ws (length (la_bs a)) (la_view a)); [done|].
    intros k. specialize (Hk k). cbn in Hk. destruct Hk as (bs' & vs' & Hi & Hs). exists bs', vs'. split; [done|].
    case_decide; [|done]. eapply same_data_trans; [done|]. eapply same_data_trans; [|exact Hsame].
    destruct (lr_cache _ _ _ _ _ HL2) as (dk & HR & _ & Hv2). destruct (lr_cache _ _ _ _ _ HL3) as (dk' & HR' & _ & Hv3).
    apply brel_disk in HR, HR'. cbn in HR, HR', Hv2. assert (dk' = dk) as -> by congruence.
    intros n Hn Hlog. rewrite <- Hv2, <- Hv3 by done. done.
Qed.
End txn.

(** C12. [balloc] in a transaction of its own.  On a disk whose log is empty and whose
    metadata blocks are marked in use, it finds the first block not marked in use, a data
    block; when the call returns the disk has that block zeroed and marked, and no other
    block's mark and no other block have changed.  Without a free block it panics. *)
Theorem balloc_correct pid st sz sb dstart ino img :
  log_image img st sz [] [] → layout st sz (length img) sb dstart →
  (∀ b, 0 <= b < dstart → used img sb b = true) → 2 < sz →
  match first_free img sb with
  | None => fs_txn (balloc 1) (cpu0 pid) (FState (power_up img) sb ino) = Panic "balloc: out of blocks"
  | Some b => ∃ l, fs_txn (balloc 1) (cpu0 pid) (FState (power_up img) sb ino) = Ret b (cpu0 pid) (FState l sb ino) ∧
      let img' := d_img (bs_disk (ls_b l)) in
      dstart <= b < sb_size sb ∧ used img sb b = false ∧ img' !! Z.to_nat b = Some zeros ∧
      (∀ b', 0 <= b' < sb_size sb → used img' sb b' = bool_decide (b' = b) || used img sb b') ∧
      (∀ n, 0 <= n → ¬ (st <= n < st + sz) → n ≠ b → n ≠ BBLOCK b sb → img' !! Z.to_nat n = img !! Z.to_nat n)
  end.
Proof.
  intros Himg HY Hmeta Hsz.
  pose (post := λ (b : Z) (c : cpu) (s : fstate), c = cpu0 pid ∧ first_free img sb = Some b ∧ ∃ l, s = FState l sb ino ∧
      let img' := d_img (bs_disk (ls_b l)) in
      dstart <= b < sb_size sb ∧ used img sb b = false ∧ img' !! Z.to_nat b = Some zeros ∧
      (∀ b', 0 <= b' < sb_size sb → used img' sb b' = bool_decide (b' = b) || used img sb b') ∧
      (∀ n, 0 <= n → ¬ (st <= n < st + sz) → n ≠ b → n ≠ BBLOCK b sb → img' !! Z.to_nat n = img !! Z.to_nat n)).
  assert (wp (λ msg, first_free img sb = None ∧ msg = "balloc: out of blocks"%string) (fs_txn (balloc 1)) (cpu0 pid)
            (FState (power_up img) sb ino) post) as Hwp.
  { apply (fs_txn_spec pid st sz sb ino img Himg). intros l d v HL Hs Hlen. set (a := LAbs v v ∅ [] 1 0).
    assert (alloc_ok sb dstart a) as Hao.
    { split; [|done]. cbn. intros b Hb. pose proof (ly_dstart _ _ _ _ _ HY). rewrite (used_same st sz sb dstart img HY v b Hs) by lia. auto. }
    eapply (balloc_spec pid st sz _ d sb ino dstart (length img) HY l a); [exact HL|done|done| |].
    { unfold room. cbn. rewrite map_size_empty. sizes. lia. }
    cbn [la_view a]. rewrite (first_free_same st sz sb dstart img HY v Hs).
    destruct (first_free img sb) as [b|] eqn:Hff; [|done]. intros l' HL'. split; [done|].
    exists l', ino, (la_alloc sb b a). do 5 (split; [done|]). split.
    { cbn. pose proof (absorb_length b (absorb (BBLOCK b sb) [])) as H1. pose proof (absorb_length (BBLOCK b sb) []) as H2.
      cbn in H2. sizes. lia. }
    intros l2 Hs2 _. apply first_free_spec in Hff as Hb. destruct Hb as (Hb & Hu & _).
    assert (dstart <= b < sb_size sb) as Hd.
    { split; [|lia]. apply (free_is_data sb dstart a b Hao); [lia|]. cbn. by rewrite (used_same st sz sb dstart img HY v b Hs). }
    pose proof (ly_dstart _ _ _ _ _ HY) as Hyd. pose proof (ly_start _ _ _ _ _ HY) as Hys.
    assert (∀ n d, la_view a !! n = Some d → length d = bsize) as Hbl by (intros n e He; by eapply (frel_block pid st sz d l a)).
    split; [done|]. split; [done|]. exists l2. split; [done|]. cbv zeta. split; [done|]. split; [done|]. split; [|split].
    - rewrite Hs2 by lia. rewrite (alloc_data HY a Hlen b b) by done. by rewrite decide_True.
    - intros b' Hb'. assert (used (d_img (bs_disk (ls_b l2))) sb b' = used (la_view (la_alloc sb b a)) sb b') as ->.
      { destruct (BBLOCK_range HY b' Hb') as (_ & ? & ? & ?). unfold used.
        rewrite !list_lookup_total_alt, (Hs2 (BBLOCK b' sb)); [done|lia|lia]. }
      rewrite (used_alloc HY a Hlen Hbl) by done. cbn [la_view a]. rewrite (used_same st sz sb dstart img HY v b' Hs) by done.
      case_decide as E; [subst b'; by rewrite bool_decide_eq_true_2|]. by rewrite bool_decide_eq_false_2.
    - intros n Hn Hlog Hnb Hnm. destruct (BBLOCK_range HY b Hb) as (_ & ? & ? & ?). rewrite Hs2 by done.
      cbn [la_alloc la_write la_view a]. rewrite !list_lookup_insert_ne by lia. by apply Hs. }
  apply wp_eq in Hwp as [(b & c & s & Heq & -> & -> & l & -> & H)|(msg & Heq & -> & ->)]; [|exact Heq].
  exists l. split; [exact Heq|exact H].
Qed.

(** [bfree] in a transaction of its own clears the mark of its block and changes nothing
    else on the disk; freeing a block that is not in use panics. *)
Theorem bfree_correct pid st sz sb dstart ino img b :
  log_image img st sz [] [] → layout st sz (length img) sb dstart →
  (∀ b, 0 <= b < dstart → used img sb b = true) → 2 < sz → 0 <= b < sb_size sb →
  if used img sb b then
    ∃ l, fs_txn (bfree 1 b) (cpu0 pid) (FState (power_up img) sb ino) = Ret tt (cpu0 pid) (FState l sb ino) ∧
      let img' := d_img (bs_disk (ls_b l)) in
      (∀ b', 0 <= b' < sb_size sb → used img' sb b' = negb (bool_decide (b' = b)) && used img sb b') ∧
      (∀ n, 0 <= n → ¬ (st <= n < st + sz) → n ≠ BBLOCK b sb → img' !! Z.to_nat n = img !! Z.to_nat n)
  else fs_txn (bfree 1 b) (cpu0 pid) (FState (power_up img) sb ino) = Panic "freeing free block".
Proof.
  intros Himg HY Hmeta Hsz Hb.
  pose (post := λ (_ : unit) (c : cpu) (s : fstate), c = cpu0 pid ∧ used img sb b = true ∧ ∃ l, s = FState l sb ino ∧
      let img' := d_img (bs_disk (ls_b l)) in
      (∀ b', 0 <= b' < sb_size sb → used img' sb b' = negb (bool_decide (b' = b)) && used img sb b') ∧
      (∀ n, 0 <= n → ¬ (st <= n < st + sz) → n ≠ BBLOCK b sb → img' !! Z.to_nat n = img !! Z.to_nat n)).
  assert (wp (λ msg, used img sb b = false ∧ msg = "freeing free block"%string) (fs_txn (bfree 1 b)) (cpu0 pid)
            (FState (power_up img) sb ino) post) as Hwp.
  { apply (fs_txn_spec pid st sz sb ino img Himg). intros l d v HL Hs Hlen. set (a := LAbs v v ∅ [] 1 0).
    assert (alloc_ok sb dstart a) as Hao.
    { split; [|done]. cbn. intros b' Hb'. pose proof (ly_dstart _ _ _ _ _ HY). rewrite (used_same st sz sb dstart img HY v b' Hs) by lia. auto. }
    eapply (bfree_spec pid st sz _ d sb ino dstart (length img) HY l a b); [exact HL|done|done| |done|].
    { unfold room. cbn. rewrite map_size_empty. sizes. lia. }
    cbn [la_view a]. rewrite (used_same st sz sb dstart img HY v b Hs) by done.
    destruct (used img sb b) eqn:Hu; [|done]. intros l' HL'. split; [done|].
    exists l', ino, (la_free sb b a). do 5 (split; [done|]). split.
    { cbn. pose proof (absorb_length (BBLOCK b sb) []) as H2. cbn in H2. sizes. lia. }
    intros l2 Hs2 _. assert (∀ n d, la_view a !! n = Some d → length d = bsize) as Hbl by (intros n e He; by eapply (frel_block pid st sz d l a)).
    pose proof (ly_start _ _ _ _ _ HY) as Hys.
    split; [done|]. split; [done|]. exists l2. split; [done|]. cbv zeta. split.
    - intros b' Hb'. assert (used (d_img (bs_disk (ls_b l2))) sb b' = used (la_view (la_free sb b a)) sb b') as ->.
      { destruct (BBLOCK_range HY b' Hb') as (_ & ? & ? & ?). unfold used.
        rewrite !list_lookup_total_alt, (Hs2 (BBLOCK b' sb)); [done|lia|lia]. }
      rewrite (used_free HY a Hlen Hbl) by done. cbn [la_view a]. rewrite (used_same st sz sb dstart img HY v b' Hs) by done.
      case_decide as E; [subst b'; by rewrite bool_decide_eq_true_2|]. by rewrite bool_decide_eq_false_2.
    - intros n Hn Hlog Hnm. destruct (BBLOCK_range HY b Hb) as (_ & ? & ? & ?). rewrite Hs2 by done.
      cbn [la_free la_write la_view a]. rewrite !list_lookup_insert_ne by lia. by apply Hs. }
  apply wp_eq in Hwp as [([] & c & s & Heq & -> & -> & l & -> & H)|(msg & Heq & -> & ->)]; [|exact Heq].
  exists l. split; [exact Heq|exact H].
Qed.

(** A disk of 12 blocks: the log in blocks 2 to 6, inodes in block 7, the free map in
    block 8, and three data blocks, the first of which is in use. *)
Definition fs_image : list (list Z) :=
  <[8%nat := 255 :: 3 :: replicate (bsize - 2) 0]>
    (<[1%nat := wr 4 12 5 (wr 4 16 2 (replicate bsize 0))]> (replicate 12 (replicate bsize 0))).
Definition fs_super : superblock := Superblock 12 3 8 5 2 7 8.

Lemma fs_log_image : log_image fs_image 2 5 [] [].
Proof.
  split; try done; try (cbn; sizes; lia).
  - apply (bool_decide_unpack _). vm_compute. exact I.
  - eexists. split; [reflexivity|]. split; vm_compute; reflexivity.
  - eexists. split; [reflexivity|]. split; [vm_compute; reflexivity|done].
  - set_solver.
Qed.
Lemma fs_layout : layout 2 5 (length fs_image) fs_super 9.
Proof.
  change (length fs_image) with 12%nat. split; cbn; try lia.
  - split; [lia|]. split; [lia|]. intros b Hb. rewrite Z.div_small; [lia|]. unfold BPB, BSIZE. lia.
  - split; [lia|]. split; [lia|]. intros i Hi. rewrite Z.div_small; [lia|]. change IPB with 8. lia.
Qed.
Lemma fs_used b : 0 <= b < 10 → used fs_image fs_super b = true.
Proof.
  intros Hb. assert (forallb (λ k, used fs_image fs_super (Z.of_nat k)) (seq 0 10) = true) as H by (vm_compute; reflexivity).
  rewrite forallb_forall in H. specialize (H (Z.to_nat b)). rewrite Z2Nat.id in H by lia. apply H, in_seq. lia.
Qed.

Lemma balloc_correct_witness :
  ∃ l, fs_txn (balloc 1) (cpu0 1) (FState (power_up fs_image) fs_super []) = Ret 10 (cpu0 1) (FState l fs_super []) ∧
    d_img (bs_disk (ls_b l)) !! 10%nat = Some zeros.
Proof.
  assert (first_free fs_image fs_super = Some 10) as Hff by (vm_compute; reflexivity).
  pose proof (balloc_correct 1 2 5 fs_super 9 [] fs_image fs_log_image fs_layout) as H. rewrite Hff in H.
  destruct H as (l & H & _ & _ & Hz & _); [intros b Hb; apply fs_used; lia|lia|]. exists l. split; [exact H|exact Hz].
Defined.
Lemma bfree_correct_witness :
  ∃ l, fs_txn (bfree 1 9) (cpu0 1) (FState (power_up fs_image) fs_super []) = Ret tt (cpu0 1) (FState l fs_super []) ∧
    used (d_img (bs_disk (ls_b l))) fs_super 9 = false.
Proof.
  pose proof (bfree_correct 1 2 5 fs_super 9 [] fs_image 9 fs_log_image fs_layout) as H.
  rewrite (fs_used 9) in H by lia.
  destruct H as (l & H & Hu & _); [intros b Hb; apply fs_used; lia|lia|cbn; lia|]. exists l. split; [exact H|].
  rewrite (Hu 9) by (cbn; lia). reflexivity.
Defined.
