(* ===== verification/FsInode.v ===== *)
(** The contents of inodes: the block tree of an inode on the kernel's view of the disk,
    how [bmap] grows it, and what [readi] and [writei] do to the bytes of the file. *)
From stdpp Require Import base list numbers strings sets gmap.
From Stdlib Require Import ZArith Lia.
From S2P Require Import Prelude Params Machine Spinlock Sleeplock CString Bio BioRing BioSpec.
From S2P Require Import Log LogSpec LogCommit LogRecover LogOps Fs FsBlocks.
Local Open Scope Z_scope.
Local Open Scope xv6_scope.

Abbreviation maxfile := (Z.to_nat MAXFILE).

(** Put the sizes of inodes as numerals, for [lia]. *)
Ltac fsizes :=
  sizes;
  change ndirect with 12%nat in *; change nindirect with 128%nat in *; change maxfile with 140%nat in *;
  change BSIZE with 512 in *; change NDIRECT with 12 in *; change NINDIRECT with 128 in *; change MAXFILE with 140 in *.

(** * The block tree of an inode *)

(** The indirect block of an inode, 0 if it has none. *)
Definition iind (i : inode) : Z := i_addrs i !!! ndirect.

(** The blocks of an inode: slot [k < MAXFILE] is the [k]th block of the file, slot
    [MAXFILE] the indirect block; 0 if there is none. *)
Definition islot (v : list (list Z)) (i : inode) (k : nat) : Z :=
  if decide (k < ndirect)%nat then i_addrs i !!! k
  else if decide (k = maxfile) then iind i
  else if decide (iind i = 0) then 0
  else rd 4 (4 * (k - ndirect)) (v !!! Z.to_nat (iind i)).

(** Byte [o] of a file. *)
Definition fbyte (v : list (list Z)) (i : inode) (o : Z) : Z :=
  (v !!! Z.to_nat (islot v i (Z.to_nat (o / BSIZE)))) !!! Z.to_nat (o mod BSIZE).

Definition content (v : list (list Z)) (i : inode) : list Z :=
  (λ o, fbyte v i (Z.of_nat o)) <$> seq 0 (Z.to_nat (i_size i)).

(** Every block of the file below byte [m] is there. *)
Definition covered (v : list (list Z)) (i : inode) (m : Z) : Prop :=
  ∀ k, (k < maxfile)%nat → Z.of_nat k * BSIZE < m → islot v i k ≠ 0.

(** An inode is well formed: its blocks are different data blocks that are marked in
    use, and it has no holes. *)
Record file_ok (sb : superblock) (dstart : Z) (v : list (list Z)) (i : inode) : Prop := {
  fo_addrs : length (i_addrs i) = S ndirect;
  fo_size : 0 <= i_size i <= MAXFILE * BSIZE;
  fo_slot : ∀ k, (k <= maxfile)%nat → islot v i k ≠ 0 →
              dstart <= islot v i k < sb_size sb ∧ used v sb (islot v i k) = true;
  fo_inj : ∀ k k', (k <= maxfile)%nat → (k' <= maxfile)%nat → k ≠ k' → islot v i k ≠ 0 → islot v i k ≠ islot v i k';
  fo_full : covered v i (i_size i);
}.

Lemma islot_ind v i : islot v i maxfile = iind i.
Proof. reflexivity. Qed.

(** The tree depends on the indirect block only. *)
Lemma islot_ext v v' i k :
  (iind i ≠ 0 → v' !! Z.to_nat (iind i) = v !! Z.to_nat (iind i)) → islot v' i k = islot v i k.
Proof.
  intros H. unfold islot. repeat case_decide; try done.
  by rewrite !list_lookup_total_alt, H.
Qed.

Lemma islot_size v i k n : islot v (set_isize n i) k = islot v i k.
Proof. reflexivity. Qed.

(** [grow v i v' i']: blocks have been added to the file.  The new blocks were free and
    are zeroed; every other block in use and the blocks in front of the free map, but
    for the indirect block, are as they were. *)
Record grow (sb : superblock) (dstart : Z) (v : list (list Z)) (i : inode) (v' : list (list Z)) (i' : inode) : Prop := {
  gr_meta : i' = set_addrs (i_addrs i') i;
  gr_slot : ∀ k, (k <= maxfile)%nat → islot v i k ≠ 0 → islot v' i' k = islot v i k;
  gr_fresh : ∀ k, (k <= maxfile)%nat → islot v i k = 0 → islot v' i' k ≠ 0 →
    used v sb (islot v' i' k) = false ∧ ((k < maxfile)%nat → v' !! Z.to_nat (islot v' i' k) = Some zeros);
  gr_used : ∀ n, dstart <= n < sb_size sb → used v sb n = true → used v' sb n = true;
  gr_data : ∀ n, dstart <= n < sb_size sb → used v sb n = true → n ≠ iind i → v' !! Z.to_nat n = v !! Z.to_nat n;
  gr_front : ∀ n, 0 <= n < sb_bmapstart sb → v' !! Z.to_nat n = v !! Z.to_nat n;
  gr_ok : file_ok sb dstart v' i';
}.

Section grow.
Context {st sz : Z} {nb : nat} {sb : superblock} {dstart : Z} (HY : layout st sz nb sb dstart).
Notation file_ok := (file_ok sb dstart).
Notation grow := (grow sb dstart).

Lemma grow_refl v i : file_ok v i → grow v i v i.
Proof. intros H. split; try done. by destruct i. Qed.

Lemma grow_trans v i v1 i1 v2 i2 : file_ok v i → grow v i v1 i1 → grow v1 i1 v2 i2 → grow v i v2 i2.
Proof.
  intros H0 H1 H2. split.
  - rewrite (gr_meta _ _ _ _ _ _ H2) at 1. by rewrite (gr_meta _ _ _ _ _ _ H1).
  - intros k Hk Hs. pose proof (gr_slot _ _ _ _ _ _ H1 k Hk Hs) as E.
    rewrite (gr_slot _ _ _ _ _ _ H2 k Hk); [done|congruence].
  - intros k Hk Hs Hs2. destruct (decide (islot v1 i1 k = 0)) as [E|E].
    + destruct (gr_fresh _ _ _ _ _ _ H2 k Hk E Hs2) as [Hu Hz]. split; [|done].
      pose proof (fo_slot _ _ _ _ (gr_ok _ _ _ _ _ _ H2) k Hk Hs2) as [Hr _].
      destruct (used v sb (islot v2 i2 k)) eqn:Eu; [|done].
      rewrite (gr_used _ _ _ _ _ _ H1) in Hu by done. done.
    + rewrite (gr_slot _ _ _ _ _ _ H2 k Hk E). destruct (gr_fresh _ _ _ _ _ _ H1 k Hk Hs E) as [Hu Hz].
      split; [done|]. intros Hlt. destruct (fo_slot _ _ _ _ (gr_ok _ _ _ _ _ _ H1) k Hk E) as [Hr Hus].
      rewrite (gr_data _ _ _ _ _ _ H2) by (try done; rewrite <- (islot_ind v1); apply (fo_inj _ _ _ _ (gr_ok _ _ _ _ _ _ H1)); try done; lia).
      by apply Hz.
  - intros n Hn Hu. by apply (gr_used _ _ _ _ _ _ H2), (gr_used _ _ _ _ _ _ H1).
  - intros n Hn Hu Hne. rewrite (gr_data _ _ _ _ _ _ H2), (gr_data _ _ _ _ _ _ H1); try done.
    { by apply (gr_used _ _ _ _ _ _ H1). }
    intros ->. destruct (decide (iind i = 0)) as [E|E].
    + destruct (decide (iind i1 = 0)) as [E1|E1].
      { pose proof (ly_dstart _ _ _ _ _ HY). lia. }
      destruct (gr_fresh _ _ _ _ _ _ H1 maxfile (le_n _) E E1) as [Hf _].
      rewrite islot_ind in Hf. congruence.
    + apply Hne. exact (gr_slot _ _ _ _ _ _ H1 maxfile (le_n _) E).
  - intros n Hn. by rewrite (gr_front _ _ _ _ _ _ H2), (gr_front _ _ _ _ _ _ H1).
  - apply (gr_ok _ _ _ _ _ _ H2).
Qed.

(** Adding one block [f] in slot [k0]. *)
Lemma grow_one v i v' i' k0 f :
  file_ok v i → (k0 <= maxfile)%nat → islot v i k0 = 0 → dstart <= f < sb_size sb → used v sb f = false →
  i' = set_addrs (i_addrs i') i → length (i_addrs i') = S ndirect →
  (∀ k, (k <= maxfile)%nat → islot v' i' k = if decide (k = k0) then f else islot v i k) →
  (∀ n, dstart <= n < sb_size sb → used v' sb n = if decide (f = n) then true else used v sb n) →
  (∀ n, dstart <= n < sb_size sb → n ≠ f → n ≠ iind i → v' !! Z.to_nat n = v !! Z.to_nat n) →
  ((k0 < maxfile)%nat → v' !! Z.to_nat f = Some zeros) →
  (∀ n, 0 <= n < sb_bmapstart sb → v' !! Z.to_nat n = v !! Z.to_nat n) →
  grow v i v' i'.
Proof.
  intros H0 Hk0 Hs0 Hf Hfree Hi' Hlen Hsl Hus Hda Hz Hfr.
  assert (∀ k, (k <= maxfile)%nat → islot v i k ≠ 0 → islot v i k ≠ f) as Hnf.
  { intros k Hk Hs Heq. destruct (fo_slot _ _ _ _ H0 k Hk Hs). congruence. }
  split; try done.
  - intros k Hk Hs. rewrite Hsl by done. rewrite decide_False; [done|]. by intros ->.
  - intros k Hk Hs. rewrite Hsl by done. case_decide as E; [|done]. subst k. done.
  - intros n Hn Hu. rewrite Hus by done. by case_decide.
  - intros n Hn Hu Hne. apply Hda; try done. intros ->. congruence.
  - split; try done.
    + rewrite Hi'. apply (fo_size _ _ _ _ H0).
    + intros k Hk. rewrite Hsl by done. case_decide as E.
      * intros _. split; [done|]. rewrite Hus by done. by rewrite decide_True.
      * intros Hs. destruct (fo_slot _ _ _ _ H0 k Hk Hs) as [Hr Hu]. split; [done|].
        rewrite Hus by done. by case_decide.
    + intros k k' Hk Hk' Hne. rewrite !Hsl by done. case_decide as E; case_decide as E'; [congruence|..].
      * intros _. destruct (decide (islot v i k' = 0)); [pose proof (ly_dstart _ _ _ _ _ HY); lia|].
        intros Heq. by apply (Hnf k').
      * apply Hnf. done.
      * by apply (fo_inj _ _ _ _ H0).
    + intros k Hk Hm. rewrite Hsl by lia. case_decide; [pose proof (ly_dstart _ _ _ _ _ HY); lia|].
      apply (fo_full _ _ _ _ H0); [done|]. rewrite Hi' in Hm. done.
Qed.
End grow.

(** * The states of a transaction *)

(** The view [a] has room for [k] more blocks in the transaction, and the process holds
    the buffers [H]. *)
Record tstate (sz : Z) (nb : nat) (sb : superblock) (dstart : Z) (H : gmap nat (Z * bool)) (k : nat) (a : labs) : Prop := {
  ts_alloc : alloc_ok sb dstart a;
  ts_len : length (la_view a) = nb;
  ts_block : ∀ n d, la_view a !! n = Some d → length d = bsize;
  ts_held : la_held a = H;
  ts_room : room k sz a;
  ts_out : la_out a = 1;
  ts_committing : la_committing a = 0;
}.

Section tstate.
Context {st sz : Z} {nb : nat} {sb : superblock} {dstart : Z} (HY : layout st sz nb sb dstart).
Notation tstate := (tstate sz nb sb dstart).

Lemma tstate_le H k k' a : (k' <= k)%nat → tstate H k a → tstate H k' a.
Proof. intros Hk []. split; try done. by eapply room_le. Qed.

(** A write to a block that is not part of the free map. *)
Lemma tstate_write H k a n d :
  tstate H (S k) a → 0 <= n → (∀ b, 0 <= b < sb_size sb → BBLOCK b sb ≠ n) → length d = bsize →
  tstate H k (la_write n d a).
Proof.
  intros [[Hm Hh] Hlen Hblk Hheld Hroom Ho Hc] Hn Hmap Hd.
  assert (∀ b, 0 <= b < sb_size sb → used (<[Z.to_nat n := d]> (la_view a)) sb b = used (la_view a) sb b) as Hus.
  { intros b Hb. specialize (Hmap b Hb). destruct (BBLOCK_range HY b Hb). unfold used.
    rewrite list_lookup_total_insert_ne; [done|]. lia. }
  pose proof (ly_dstart _ _ _ _ _ HY). pose proof (ly_start _ _ _ _ _ HY).
  split; cbn [la_write la_view la_held la_out la_committing]; try done.
  - split; cbn [la_view la_held].
    + intros b Hb. rewrite Hus by lia. by apply Hm.
    + intros i m x Hi. destruct (Hh i m x Hi). rewrite Hus by lia. done.
  - by rewrite length_insert.
  - intros j e He. destruct (decide (Z.to_nat n = j)) as [<-|Hj].
    + destruct (decide (Z.to_nat n < length (la_view a))%nat).
      * rewrite list_lookup_insert_eq in He by done. congruence.
      * rewrite lookup_ge_None_2 in He; [done|]. rewrite length_insert. lia.
    + rewrite list_lookup_insert_ne in He by done. by eapply Hblk.
  - by apply room_write.
Qed.

Lemma data_not_map n b : dstart <= n → 0 <= b < sb_size sb → BBLOCK b sb ≠ n.
Proof. intros Hn Hb. destruct (BBLOCK_range HY b Hb). lia. Qed.

Lemma tstate_alloc H k a f :
  tstate H (S (S k)) a → dstart <= f < sb_size sb → tstate H k (la_alloc sb f a).
Proof.
  intros Ht Hf. pose proof (ly_dstart _ _ _ _ _ HY). pose proof (ly_start _ _ _ _ _ HY).
  destruct (BBLOCK_range HY f ltac:(lia)) as (_ & Hb1 & Hb2 & Hb3).
  destruct Ht as [Hao Hlen Hblk Hheld Hroom Ho Hc].
  split; try done.
  - by apply (alloc_ok_alloc HY).
  - cbn [la_alloc la_write la_view]. by rewrite !length_insert.
  - cbn [la_alloc la_write la_view]. intros j e He.
    destruct (decide (Z.to_nat f = j)) as [<-|Hj].
    { rewrite list_lookup_insert_eq in He; [|rewrite length_insert; pose proof (ly_size _ _ _ _ _ HY); lia].
      injection He as <-. apply length_replicate. }
    rewrite list_lookup_insert_ne in He by done.
    destruct (decide (Z.to_nat (BBLOCK f sb) = j)) as [<-|Hj'].
    { rewrite list_lookup_insert_eq in He by lia. injection He as <-. rewrite map_set_length.
      apply (map_block HY a Hlen Hblk). lia. }
    rewrite list_lookup_insert_ne in He by done. by eapply Hblk.
  - by apply room_write, room_write.
Qed.

Lemma tstate_data H k a n :
  tstate H k a → dstart <= n < sb_size sb → ∃ d, la_view a !! Z.to_nat n = Some d ∧ length d = bsize.
Proof.
  intros Ht Hn. pose proof (ly_size _ _ _ _ _ HY). pose proof (ly_dstart _ _ _ _ _ HY). pose proof (ly_start _ _ _ _ _ HY).
  destruct (lookup_lt_is_Some_2 (la_view a) (Z.to_nat n)) as [d Hd].
  { rewrite (ts_len _ _ _ _ _ _ _ Ht). lia. }
  exists d. split; [done|]. by apply (ts_block _ _ _ _ _ _ _ Ht _ _ Hd).
Qed.
End tstate.

(** * Growing the tree of an inode by one block *)

Section one.
Context {st sz : Z} {nb : nat} {sb : superblock} {dstart : Z} (HY : layout st sz nb sb dstart).
Context (H : gmap nat (Z * bool)) (K : nat) (a : labs) (Ht : tstate sz nb sb dstart H K a).
Context (i : inode) (Hi : file_ok sb dstart (la_view a) i).
Context (f : Z) (Hf : dstart <= f < sb_size sb) (Hfree : used (la_view a) sb f = false).
Notation grow := (grow sb dstart).

Lemma alloc_front n : 0 <= n < sb_bmapstart sb → la_view (la_alloc sb f a) !! Z.to_nat n = la_view a !! Z.to_nat n.
Proof using HY Hf.
  intros Hn. pose proof (ly_dstart _ _ _ _ _ HY). pose proof (ly_start _ _ _ _ _ HY).
  pose proof (ly_bmap _ _ _ _ _ HY) as (_ & _ & Hb). pose proof (Hb f ltac:(lia)) as Hbf.
  destruct (BBLOCK_range HY f ltac:(lia)) as (E & _). assert (0 <= f / BPB) by (apply Z.div_pos; [lia|done]).
  cbn [la_alloc la_write la_view]. rewrite !list_lookup_insert_ne by lia. done.
Qed.

Lemma alloc_islot k : islot (la_view (la_alloc sb f a)) i k = islot (la_view a) i k.
Proof using HY Ht Hi Hf Hfree.
  apply islot_ext. intros Hind. destruct (fo_slot _ _ _ _ Hi maxfile (le_n _) Hind) as [Hr Hu].
  rewrite islot_ind in Hr, Hu. rewrite (alloc_data HY a (ts_len _ _ _ _ _ _ _ Ht)) by done.
  rewrite decide_False; [done|]. intros ->. congruence.
Qed.

Lemma alloc_used n :
  dstart <= n < sb_size sb → used (la_view (la_alloc sb f a)) sb n = if decide (f = n) then true else used (la_view a) sb n.
Proof using HY Ht Hf.
  intros Hn. pose proof (ly_dstart _ _ _ _ _ HY). pose proof (ly_start _ _ _ _ _ HY).
  apply (used_alloc HY a (ts_len _ _ _ _ _ _ _ Ht) (ts_block _ _ _ _ _ _ _ Ht)); lia.
Qed.

(** A slot of the inode itself: a direct block, or the indirect block. *)
Lemma islot_set_addr v k k0 :
  (k <= maxfile)%nat → (k0 <= ndirect)%nat → length (i_addrs i) = S ndirect →
  (k0 = ndirect → islot v i maxfile = 0 ∧ v !!! Z.to_nat f = zeros ∧ f ≠ 0) →
  islot v (set_addrs (<[k0 := f]> (i_addrs i)) i) k =
  if decide (k = if decide (k0 < ndirect)%nat then k0 else maxfile) then f else islot v i k.
Proof.
  clear. intros Hk Hk0 Hlen Hind. unfold islot, iind. cbn [set_addrs i_addrs]. fsizes.
  destruct (decide (k0 < 12)%nat) as [Hd|Hd].
  - rewrite (list_lookup_total_insert_ne _ k0 12) by lia.
    destruct (decide (k = k0)) as [->|Hne].
    + rewrite decide_True by done. apply list_lookup_total_insert_eq. lia.
    + case_decide; [|done]. apply list_lookup_total_insert_ne. lia.
  - assert (k0 = 12)%nat as -> by lia. destruct (Hind eq_refl) as (Hz & Hzero & Hf0).
    rewrite list_lookup_total_insert_eq by lia. unfold islot, iind in Hz. fsizes.
    rewrite decide_False, decide_True in Hz by lia. rewrite Hz.
    destruct (decide (k < 12)%nat).
    { rewrite list_lookup_total_insert_ne by lia. rewrite decide_False by lia. done. }
    destruct (decide (k = 140)%nat); [done|]. rewrite decide_False by done. rewrite decide_True by done.
    rewrite Hzero. unfold rd, zeros. fsizes.
    assert (∀ m, le_val (replicate m 0) = 0) as Hle.
    { intros m. induction m as [|m IH]; [done|]. cbn [replicate le_val]. by rewrite IH. }
    unfold slice. rewrite drop_replicate, take_replicate. apply Hle.
Qed.

Lemma grow_inode k0 :
  (k0 <= ndirect)%nat → islot (la_view a) i (if decide (k0 < ndirect)%nat then k0 else maxfile) = 0 →
  let i' := set_addrs (<[k0 := f]> (i_addrs i)) i in
  grow (la_view a) i (la_view (la_alloc sb f a)) i' ∧
  ∀ k, (k <= maxfile)%nat → islot (la_view (la_alloc sb f a)) i' k =
    if decide (k = if decide (k0 < ndirect)%nat then k0 else maxfile) then f else islot (la_view a) i k.
Proof using HY Ht Hi Hf Hfree.
  intros Hk0 Hz i'. pose proof (ly_dstart _ _ _ _ _ HY). pose proof (fo_addrs _ _ _ _ Hi) as Hlen.
  pose proof (alloc_data HY a (ts_len _ _ _ _ _ _ _ Ht) f) as Hda.
  assert (∀ k, (k <= maxfile)%nat → islot (la_view (la_alloc sb f a)) i' k =
    if decide (k = if decide (k0 < ndirect)%nat then k0 else maxfile) then f else islot (la_view a) i k) as Hsl.
  { intros k Hk. rewrite <- (alloc_islot k). apply islot_set_addr; [done..|].
    intros ->. rewrite alloc_islot. rewrite decide_False in Hz by lia. split; [done|]. split; [|lia].
    apply list_lookup_total_correct. rewrite Hda by done. by rewrite decide_True. }
  split; [|done]. apply (grow_one HY _ _ _ _ _ f Hi) with (3 := Hf) (4 := Hfree) (7 := Hsl); try done.
  - fsizes. case_decide; lia.
  - cbn. by rewrite length_insert.
  - apply alloc_used.
  - intros n Hn Hnf _. rewrite Hda by done. by rewrite decide_False.
  - intros _. rewrite Hda by done. by rewrite decide_True.
  - apply alloc_front.
Qed.

(** A slot in the indirect block. *)
Lemma grow_through k0 d :
  (ndirect <= k0 < maxfile)%nat → iind i ≠ 0 → islot (la_view a) i k0 = 0 → la_view a !! Z.to_nat (iind i) = Some d →
  let v' := <[Z.to_nat (iind i) := wr 4 (4 * (k0 - ndirect)) f d]> (la_view (la_alloc sb f a)) in
  grow (la_view a) i v' i ∧ ∀ k, (k <= maxfile)%nat → islot v' i k = if decide (k = k0) then f else islot (la_view a) i k.
Proof using HY Ht Hi Hf Hfree.
  intros Hk0 Hind Hz Hd v'. pose proof (ly_dstart _ _ _ _ _ HY). pose proof (ly_start _ _ _ _ _ HY).
  pose proof (ly_size _ _ _ _ _ HY) as Hsize. pose proof (ly_bmap _ _ _ _ _ HY) as (_ & _ & Hbm).
  specialize (Hbm 0 ltac:(lia)). rewrite Z.div_0_l in Hbm by done.
  pose proof (alloc_data HY a (ts_len _ _ _ _ _ _ _ Ht) f) as Hda.
  destruct (fo_slot _ _ _ _ Hi maxfile (le_n _) Hind) as [Hr Hu]. rewrite islot_ind in Hr, Hu.
  pose proof (ts_block _ _ _ _ _ _ _ Ht _ _ Hd) as Hdl.
  assert (f ≠ iind i) as Hne by (intros ->; congruence).
  assert (v' !!! Z.to_nat (iind i) = wr 4 (4 * (k0 - ndirect)) f d) as Hv'.
  { apply list_lookup_total_insert_eq. cbn [la_alloc la_write la_view].
    rewrite !length_insert, (ts_len _ _ _ _ _ _ _ Ht). lia. }
  assert (∀ k, (k <= maxfile)%nat → islot v' i k = if decide (k = k0) then f else islot (la_view a) i k) as Hsl.
  { intros k Hk. destruct (decide (k = k0)) as [->|Hkne].
    + unfold islot. rewrite decide_False, decide_False, decide_False, Hv' by (try done; lia).
      rewrite rd_wr_same by (rewrite Hdl; fsizes; lia). apply Z.mod_small. lia.
    + unfold islot. repeat case_decide; try done. rewrite Hv', (list_lookup_total_correct _ _ _ Hd).
      apply rd_wr_other; rewrite ?Hdl; fsizes; lia. }
  split; [|done]. apply (grow_one HY _ _ _ _ _ f Hi) with (3 := Hf) (4 := Hfree) (7 := Hsl); try done.
  - lia.
  - by destruct i.
  - apply (fo_addrs _ _ _ _ Hi).
  - intros n Hn. unfold v'. rewrite (used_data HY) by lia. by apply alloc_used.
  - intros n Hn Hnf Hni. unfold v'. rewrite list_lookup_insert_ne by lia. rewrite Hda by done. by rewrite decide_False.
  - intros _. unfold v'. rewrite list_lookup_insert_ne by lia. rewrite Hda by done. by rewrite decide_True.
  - intros n Hn. unfold v'. rewrite list_lookup_insert_ne by lia. by apply alloc_front.
Qed.
End one.

(** * [bmap] *)

Lemma wp_bind_inv {S A B} E (m : M S A) (g : A → M S B) c s Q :
  wp E (x <- m ;; g x) c s Q → wp E m c s (λ x c s, wp E (g x) c s Q).
Proof. unfold wp, bind. by destruct (m c s). Qed.

Section bmap.
Context (pid st sz : Z) (E : string → Prop) (d0 : disk) (sb : superblock) (dstart : Z) (nb : nat).
Context (HY : layout st sz nb sb dstart).
Notation frel := (frel pid st sz d0).
Notation tstate := (tstate sz nb sb dstart).
Notation file_ok := (file_ok sb dstart).
Notation grow := (grow sb dstart).

Lemma wp_inodep l ino ip i c (Q : inode → cpu → fstate → Prop) :
  ino !! ip = Some i → Q i c (FState l sb ino) → wp E (inodep ip) c (FState l sb ino) Q.
Proof. intros Hi HQ. unfold inodep. apply wp_bind, wp_get. by eapply wp_deref. Qed.

Lemma wp_upd_inode l ino ip i f c (Q : unit → cpu → fstate → Prop) :
  ino !! ip = Some i → Q tt c (FState l sb (<[ip := f i]> ino)) → wp E (upd_inode ip f) c (FState l sb ino) Q.
Proof.
  intros Hi HQ. unfold upd_inode. apply wp_bind, wp_get, wp_bind. eapply wp_deref; [done|]. apply wp_modify.
  cbn [fs_l fs_sb fs_inode]. by rewrite (alter_insert _ _ _ _ Hi).
Qed.

(** [bread] outside of a transaction. *)
Lemma f_bread_any l a ino n Q :
  frel l a → 0 <= n < Z.of_nat (length (la_view a)) → la_unheld a n →
  (length (la_bs a) + size (la_held a) < nbuf)%nat →
  (∀ i l', la_held a !! i = None → frel l' (la_hold i n false a) → Q i (cpu0 pid) (FState l' sb ino)) →
  wp E (lg (bio (bread 1 n))) (cpu0 pid) (FState l sb ino) Q.
Proof.
  intros [HL Hd] Hn Hun Hr HQ. apply wp_lift.
  eapply (l_bread pid st sz E _ _ _ _ HL Hn Hun); [by right|].
  intros i l' Hi HL' Hd'. apply HQ; [done|]. split; [done|congruence].
Qed.

(** Get the buffer of a block and look at its data. *)
Lemma f_read {B} l a ino n d (k : nat → list Z → M fstate B) Q :
  frel l a → la_held a = ∅ → (length (la_bs a) < nbuf)%nat → 0 <= n → la_view a !! Z.to_nat n = Some d →
  (∀ l' i, frel l' (la_hold i n false a) → la_held a !! i = None → wp E (k i d) (cpu0 pid) (FState l' sb ino) Q) →
  wp E (bp <- lg (bio (bread 1 n)) ;; x <- lg (bio (bdata bp)) ;; k bp x) (cpu0 pid) (FState l sb ino) Q.
Proof.
  intros HL Hh Hb Hn Hd HQ. apply wp_bind. eapply (f_bread_any _ _ _ n _ HL).
  - split; [done|]. apply lookup_lt_Some in Hd. lia.
  - intros j m Hj. rewrite Hh in Hj. done.
  - rewrite Hh, map_size_empty. lia.
  - intros i l1 Hi HL1. apply wp_bind.
    eapply (f_bdata pid st sz E d0 sb ino _ _ i n false d _ HL1); [cbn; by rewrite lookup_insert_eq|done|].
    by apply HQ.
Qed.

Lemma f_release l a ino i n Q :
  frel l (la_hold i n false a) → la_held a !! i = None →
  (∀ l', frel l' a → Q tt (cpu0 pid) (FState l' sb ino)) →
  wp E (lg (bio (brelse i))) (cpu0 pid) (FState l sb ino) Q.
Proof.
  intros HL Hi HQ. eapply (f_brelse pid st sz E d0 sb ino _ _ i n _ HL); [cbn; by rewrite lookup_insert_eq|].
  intros l' HL'. rewrite la_drop_hold in HL' by done. by apply HQ.
Qed.

(** [bmap] on a block that is there. *)
Lemma bmap_hit l a ino ip i bn Q :
  frel l a → la_held a = ∅ → (length (la_bs a) < nbuf)%nat → length (la_view a) = nb →
  ino !! ip = Some i → i_dev i = 1 → file_ok (la_view a) i →
  0 <= bn < MAXFILE → islot (la_view a) i (Z.to_nat bn) ≠ 0 →
  (∀ l', frel l' a → Q (islot (la_view a) i (Z.to_nat bn)) (cpu0 pid) (FState l' sb ino)) →
  wp E (bmap ip bn) (cpu0 pid) (FState l sb ino) Q.
Proof.
  intros HL Hh Hb Hnb Hi Hdev Hok Hbn Hs HQ. pose proof (fo_addrs _ _ _ _ Hok) as Hlen.
  unfold bmap. apply wp_bind. eapply wp_inodep; [done|].
  destruct (Z.ltb_spec bn NDIRECT) as [Hlt|Hge].
  - assert (islot (la_view a) i (Z.to_nat bn) = i_addrs i !!! Z.to_nat bn) as E1.
    { unfold islot. rewrite decide_True; [done|]. fsizes. lia. }
    apply wp_bind. eapply wp_deref.
    { apply list_lookup_lookup_total_lt. rewrite Hlen. fsizes. lia. }
    rewrite E1 in *. replace (_ =? 0) with false by lia. apply wp_ret. by apply HQ.
  - replace (bn - NDIRECT <? NINDIRECT) with true by (fsizes; lia).
    assert (islot (la_view a) i (Z.to_nat bn) =
      if decide (iind i = 0) then 0 else rd 4 (Z.to_nat (4 * (bn - NDIRECT))) (la_view a !!! Z.to_nat (iind i))) as E1.
    { unfold islot. rewrite !(decide_False (P := (_ < _)%nat)), (decide_False (P := _ = maxfile)) by (fsizes; lia).
      case_decide; [done|]. f_equal. fsizes. lia. }
    rewrite E1 in *. case_decide as Hind; [done|].
    destruct (fo_slot _ _ _ _ Hok maxfile (le_n _) Hind) as [Hr _]. rewrite islot_ind in Hr.
    pose proof (ly_size _ _ _ _ _ HY). pose proof (ly_dstart _ _ _ _ _ HY).
    destruct (lookup_lt_is_Some_2 (la_view a) (Z.to_nat (iind i))) as [d Hd]; [lia|].
    apply wp_bind. eapply wp_deref.
    { apply list_lookup_lookup_total_lt. rewrite Hlen. lia. }
    fold (iind i). replace (iind i =? 0) with false by lia. apply wp_bind, wp_ret.
    rewrite (list_lookup_total_correct _ _ _ Hd) in *. rewrite Hdev.
    eapply (f_read _ _ _ (iind i) d _ _ HL); [done|done|lia|done|]. intros l' b HL' Hb'.
    replace (rd 4 _ d =? 0) with false by lia. apply wp_bind, wp_ret, wp_bind.
    eapply (f_release _ a); [done|done|]. intros l2 HL2. apply wp_ret. by apply HQ.
Qed.

(** [balloc] in a transaction. *)
Lemma t_balloc H K l a ino Q :
  frel l a → tstate H (S (S K)) a → E "balloc: out of blocks" →
  (∀ l' f, dstart <= f < sb_size sb → used (la_view a) sb f = false → frel l' (la_alloc sb f a) →
     tstate H K (la_alloc sb f a) → Q f (cpu0 pid) (FState l' sb ino)) →
  wp E (balloc 1) (cpu0 pid) (FState l sb ino) Q.
Proof.
  intros HL Ht HE HQ. eapply (balloc_spec pid st sz E d0 sb ino dstart nb HY _ _ _ HL).
  - apply (ts_alloc _ _ _ _ _ _ _ Ht).
  - apply (ts_len _ _ _ _ _ _ _ Ht).
  - eapply room_le; [|apply (ts_room _ _ _ _ _ _ _ Ht)]. lia.
  - destruct (first_free (la_view a) sb) as [f|] eqn:Hf; [|done]. apply first_free_spec in Hf as (Hr & Hu & _).
    pose proof (free_is_data sb dstart a f (ts_alloc _ _ _ _ _ _ _ Ht) ltac:(lia) Hu).
    intros l' HL'. apply HQ; [lia|done|done|]. apply (tstate_alloc HY); [done|lia].
Qed.

(** The end of [bmap], when the inode has its indirect block: the block [bn] of the
    indirect block is missing. *)
Lemma bmap_through K l a ino i bn Q :
  frel l a → tstate ∅ (4 + K) a → file_ok (la_view a) i → iind i ≠ 0 →
  0 <= bn < NINDIRECT → islot (la_view a) i (ndirect + Z.to_nat bn) = 0 → E "balloc: out of blocks" →
  (∀ l' a', frel l' a' → tstate ∅ (S K) a' → grow (la_view a) i (la_view a') i →
     islot (la_view a') i (ndirect + Z.to_nat bn) ≠ 0 →
     Q (islot (la_view a') i (ndirect + Z.to_nat bn)) (cpu0 pid) (FState l' sb ino)) →
  wp E (bp <- lg (bio (bread 1 (iind i))) ;; x <- lg (bio (bdata bp)) ;;
        addr <- (if rd 4 (Z.to_nat (4 * bn)) x =? 0 then
                   addr <- balloc 1 ;;
                   lg (bio (bstore bp (wr 4 (Z.to_nat (4 * bn)) addr))) ;;
                   lg (log_write bp) ;;
                   ret addr
                 else ret (rd 4 (Z.to_nat (4 * bn)) x)) ;;
        lg (bio (brelse bp)) ;; ret addr) (cpu0 pid) (FState l sb ino) Q.
Proof.
  intros HL Ht Hok Hind Hbn Hs HE HQ. pose proof (ly_dstart _ _ _ _ _ HY) as Hyd. pose proof (ly_start _ _ _ _ _ HY) as Hys.
  destruct (fo_slot _ _ _ _ Hok maxfile (le_n _) Hind) as [Hr Hus]. rewrite islot_ind in Hr, Hus.
  destruct (tstate_data HY _ _ _ _ Ht Hr) as (d & Hd & Hdl). pose proof (ts_room _ _ _ _ _ _ _ Ht) as Hrm.
  eapply (f_read _ _ _ (iind i) d _ _ HL); [apply (ts_held _ _ _ _ _ _ _ Ht)|unfold room in Hrm; lia|lia|done|].
  intros l1 b HL1 Hb.
  assert (rd 4 (Z.to_nat (4 * bn)) d = 0) as ->.
  { rewrite <- Hs. unfold islot. rewrite !decide_False by (try done; fsizes; lia).
    rewrite (list_lookup_total_correct _ _ _ Hd). f_equal. fsizes. lia. }
  cbn [Z.eqb]. apply wp_bind, wp_bind.
  assert (tstate {[b := (iind i, false)]} (3 + K) (la_hold b (iind i) false a)) as Ht1.
  { destruct Ht as [[Hm Hh] Hl1 Hb1 He1 Hr1 Ho1 Hc1]. split; try done.
    - split; [done|]. cbn. rewrite He1. intros j n m Hj%lookup_insert_Some. destruct Hj as [[_ Hj]|[_ Hj]]; [|done].
      injection Hj as <- <-. done.
    - cbn. by rewrite He1.
    - by apply room_hold. }
  eapply (t_balloc _ (1 + K) _ _ _ _ HL1 Ht1 HE). intros l2 f Hf Hu HL2 _. cbn [la_view la_hold] in Hu.
  set (a2 := la_alloc sb f a). change (frel l2 (la_hold b (iind i) false a2)) in HL2.
  destruct (grow_through HY ∅ _ a Ht i Hok f Hf Hu (ndirect + Z.to_nat bn) d) as [Hg Hsl]; [fsizes; lia|done|done|done|].
  specialize (Hsl (ndirect + Z.to_nat bn)%nat ltac:(fsizes; lia)). rewrite decide_True in Hsl by done.
  replace (4 * (ndirect + Z.to_nat bn - ndirect))%nat with (Z.to_nat (4 * bn)) in Hg, Hsl by (fsizes; lia).
  assert (f ≠ iind i) as Hne by (intros ->; congruence).
  assert (tstate ∅ (2 + K) a2) as Ht2 by (apply (tstate_alloc HY); [done|done]).
  assert (la_view a2 !! Z.to_nat (iind i) = Some d) as Hd2.
  { unfold a2. rewrite (alloc_data HY a (ts_len _ _ _ _ _ _ _ Ht)) by done. by rewrite decide_False. }
  assert (length (wr 4 (Z.to_nat (4 * bn)) f d) = bsize) as Hwl.
  { rewrite length_wr; [done|]. rewrite Hdl. fsizes. lia. }
  pose proof (tstate_write HY _ _ _ (iind i) _ Ht2 ltac:(lia) (λ b Hb, data_not_map HY _ _ (proj1 Hr) Hb) Hwl) as Ht3.
  assert (∀ l', frel l' (la_write (iind i) (wr 4 (Z.to_nat (4 * bn)) f d) a2) →
            wp E (ret f) (cpu0 pid) (FState l' sb ino) Q) as Hend.
  { intros l3 HL3. apply wp_ret. rewrite <- Hsl. apply (HQ l3 _ HL3 Ht3); [exact Hg|]. rewrite <- Hsl in Hf. unfold a2. cbn [la_write la_view]. lia. }
  assert (room 1 sz a2) as Hr2 by (eapply room_le; [|apply (ts_room _ _ _ _ _ _ _ Ht2)]; lia).
  pose proof (f_write_back pid st sz E d0 sb ino _ a2 b (iind i) _ d
    (λ _ c s, wp E (ret f) c s Q) HL2 Hb Hd2 Hwl ltac:(lia) ltac:(lia) Hr2 Hend) as Hwb.
  apply wp_bind. eapply wp_mono; [exact (wp_bind_inv _ _ _ _ _ _ Hwb)|].
  cbv beta. intros [] c s H1. apply wp_bind. eapply wp_mono; [exact (wp_bind_inv _ _ _ _ _ _ H1)|].
  cbv beta. intros [] c' s' H2. apply wp_ret, wp_bind. exact H2.
Qed.

(** [bmap] on a block that is not there. *)
Lemma bmap_miss K l a ino ip i bn Q :
  frel l a → tstate ∅ (6 + K) a → ino !! ip = Some i → i_dev i = 1 → file_ok (la_view a) i →
  0 <= bn < MAXFILE → islot (la_view a) i (Z.to_nat bn) = 0 → E "balloc: out of blocks" →
  (∀ l' a' i', frel l' a' → tstate ∅ (S K) a' → grow (la_view a) i (la_view a') i' →
     islot (la_view a') i' (Z.to_nat bn) ≠ 0 →
     Q (islot (la_view a') i' (Z.to_nat bn)) (cpu0 pid) (FState l' sb (<[ip := i']> ino))) →
  wp E (bmap ip bn) (cpu0 pid) (FState l sb ino) Q.
Proof.
  intros HL Ht Hi Hdev Hok Hbn Hs HE HQ. pose proof (fo_addrs _ _ _ _ Hok) as Hlen.
  pose proof (ly_dstart _ _ _ _ _ HY) as Hyd. pose proof (ly_start _ _ _ _ _ HY) as Hys.
  unfold bmap. apply wp_bind. eapply wp_inodep; [done|].
  destruct (Z.ltb_spec bn NDIRECT) as [Hlt|Hge].
  - assert (Z.to_nat bn < ndirect)%nat as Hd by (fsizes; lia).
    apply wp_bind. eapply wp_deref.
    { apply list_lookup_lookup_total_lt. rewrite Hlen. lia. }
    assert (i_addrs i !!! Z.to_nat bn = 0) as ->.
    { rewrite <- Hs. unfold islot. by rewrite decide_True. }
    cbn [Z.eqb]. apply wp_bind. rewrite Hdev.
    eapply (t_balloc ∅ (4 + K) _ _ _ _ HL); [by eapply tstate_le; [|done]; lia|done|].
    intros l1 f Hf Hu HL1 Ht1. apply wp_bind. eapply wp_upd_inode; [done|]. apply wp_ret.
    destruct (grow_inode HY ∅ _ a Ht i Hok f Hf Hu (Z.to_nat bn)) as [Hg Hsl]; [lia|by rewrite decide_True|].
    rewrite decide_True in Hsl by done. specialize (Hsl (Z.to_nat bn) ltac:(fsizes; lia)). rewrite decide_True in Hsl by done.
    rewrite <- Hsl at 1. apply HQ; [done|by eapply tstate_le; [|done]; lia|done|lia].
  - replace (bn - NDIRECT <? NINDIRECT) with true by (fsizes; lia).
    apply wp_bind. eapply wp_deref.
    { apply list_lookup_lookup_total_lt. rewrite Hlen. lia. }
    fold (iind i). apply wp_bind.
    assert (Z.to_nat bn = ndirect + Z.to_nat (bn - NDIRECT))%nat as Ebn by (fsizes; lia). rewrite Ebn in *.
    rewrite Hdev.
    destruct (Z.eqb_spec (iind i) 0) as [Hind|Hind].
    + apply wp_bind. eapply (t_balloc ∅ (4 + K) _ _ _ _ HL Ht HE).
      intros l1 f Hf Hu HL1 Ht1. apply wp_bind. eapply wp_upd_inode; [done|]. apply wp_ret.
      destruct (grow_inode HY ∅ _ a Ht i Hok f Hf Hu ndirect) as [Hg Hsl]; [lia|done|].
      rewrite decide_False in Hsl by lia. pose proof (Hsl maxfile (le_n _)) as Hsl'. rewrite islot_ind, decide_True in Hsl' by done.
      rewrite <- Hsl' at 1.
      eapply (bmap_through K _ _ _ _ _ _ HL1 Ht1 (gr_ok _ _ _ _ _ _ Hg)); [lia|fsizes; lia| |done|].
      * rewrite Hsl by (fsizes; lia). rewrite decide_False; [done|fsizes; lia].
      * intros l2 a2 HL2 Ht2 Hg2 Hs2. apply HQ; try done. by eapply (grow_trans HY).
    + apply wp_ret. eapply (bmap_through K _ _ _ i _ _ HL); try done.
      * by eapply tstate_le; [|done]; lia.
      * fsizes. lia.
      * intros l2 a2 HL2 Ht2 Hg2 Hs2. rewrite <- (list_insert_id ino ip i Hi). by apply HQ.
Qed.
End bmap.
