(* ===== verification/FsContent.v ===== *)
(** What [readi], [writei] and [iupdate] do to the bytes of a file. *)
From stdpp Require Import base list numbers strings sets gmap.
From Stdlib Require Import ZArith Lia.
From S2P Require Import Prelude Params Machine Spinlock Sleeplock CString Bio BioRing BioSpec.
From S2P Require Import Log LogSpec LogCommit LogRecover LogOps Fs FsBlocks FsInode.
Local Open Scope Z_scope.
Local Open Scope xv6_scope.

(** * Positions in a file *)

(** The position [k] bytes after [off], in the same block. *)
Lemma block_pos off k :
  0 <= off → 0 <= k → off mod BSIZE + k < BSIZE →
  (off + k) / BSIZE = off / BSIZE ∧ (off + k) mod BSIZE = off mod BSIZE + k.
Proof.
  intros Ho Hk Hlt. fsizes. pose proof (Z.div_mod off 512 ltac:(lia)). pose proof (Z.mod_pos_bound off 512 ltac:(lia)).
  split; symmetry; [apply Z.div_unique with (r := off mod 512 + k)|apply Z.mod_unique with (q := off / 512)]; lia.
Qed.

(** The end of a block. *)
Lemma block_end off m : m = BSIZE - off mod BSIZE → (off + m) mod BSIZE = 0.
Proof.
  intros ->. pose proof (Z.div_mod off BSIZE ltac:(done)).
  replace (off + (BSIZE - off mod BSIZE)) with ((off / BSIZE + 1) * BSIZE) by lia. by rewrite Z.mod_mul.
Qed.

Lemma block_lt o m : 0 <= o < m * BSIZE → 0 <= o / BSIZE < m.
Proof.
  intros Ho. fsizes. split; [apply Z.div_pos; lia|]. apply Z.div_lt_upper_bound; lia.
Qed.

Lemma block_le o k : 0 <= o → Z.of_nat k * BSIZE <= o → (k <= Z.to_nat (o / BSIZE))%nat.
Proof.
  intros Ho Hk. fsizes. assert (Z.of_nat k <= o / 512); [apply Z.div_le_lower_bound; lia|lia].
Qed.

(** Every byte of a file has its block. *)
Lemma byte_slot sb dstart v i o :
  file_ok sb dstart v i → 0 <= o < i_size i →
  (Z.to_nat (o / BSIZE) < maxfile)%nat ∧ islot v i (Z.to_nat (o / BSIZE)) ≠ 0.
Proof.
  intros Hok Ho. pose proof (fo_size _ _ _ _ Hok). destruct (block_lt o MAXFILE) as [H1 H2]; [lia|].
  pose proof (Z.div_mod o BSIZE ltac:(done)). pose proof (Z.mod_pos_bound o BSIZE ltac:(done)).
  assert (Z.to_nat (o / BSIZE) < maxfile)%nat by (fsizes; lia). split; [done|].
  apply (fo_full _ _ _ _ Hok); [done|]. rewrite Z2Nat.id by lia. lia.
Qed.

(** The [n] bytes of a file from [off] on. *)
Definition fbytes (v : list (list Z)) (i : inode) (off n : Z) : list Z :=
  (λ k, fbyte v i (off + Z.of_nat k)) <$> seq 0 (Z.to_nat n).

Lemma fbytes_lookup v i off n k :
  fbytes v i off n !! k = if decide (k < Z.to_nat n)%nat then Some (fbyte v i (off + Z.of_nat k)) else None.
Proof.
  unfold fbytes. rewrite list_lookup_fmap. case_decide as Hk.
  - by rewrite lookup_seq_lt.
  - rewrite lookup_seq_ge; [done|lia].
Qed.

Lemma length_fbytes v i off n : length (fbytes v i off n) = Z.to_nat n.
Proof. unfold fbytes. by rewrite length_fmap, length_seq. Qed.

Lemma fbytes_app v i off n m :
  0 <= n → 0 <= m → fbytes v i off n ++ fbytes v i (off + n) m = fbytes v i off (n + m).
Proof.
  intros Hn Hm. apply list_eq. intros k. rewrite lookup_app, !fbytes_lookup, length_fbytes.
  repeat case_decide; try lia; try done. do 2 f_equal. lia.
Qed.

Lemma content_lookup v i o :
  content v i !! o = if decide (o < Z.to_nat (i_size i))%nat then Some (fbyte v i (Z.of_nat o)) else None.
Proof.
  change (content v i) with (fbytes v i 0 (i_size i)). by rewrite fbytes_lookup.
Qed.
Lemma length_content v i : length (content v i) = Z.to_nat (i_size i).
Proof. unfold content. by rewrite length_fmap, length_seq. Qed.

Lemma content_slice v i off n :
  0 <= off → 0 <= n → off + n <= i_size i → slice (Z.to_nat off) (Z.to_nat n) (content v i) = fbytes v i off n.
Proof.
  intros Ho Hn Hs. apply list_eq. intros k. rewrite lookup_slice_if, content_lookup, fbytes_lookup.
  repeat case_decide; try lia; try done. do 2 f_equal. lia.
Qed.

(** The part of a file in one block. *)
Lemma fbytes_block v i off m d :
  0 <= off → 0 <= m → off mod BSIZE + m <= BSIZE → length d = bsize →
  v !! Z.to_nat (islot v i (Z.to_nat (off / BSIZE))) = Some d →
  slice (Z.to_nat (off mod BSIZE)) (Z.to_nat m) d = fbytes v i off m.
Proof.
  intros Ho Hm Hle Hd Hv. pose proof (Z.mod_pos_bound off BSIZE ltac:(done)) as Hr.
  apply list_eq. intros k. rewrite lookup_slice_if, fbytes_lookup. case_decide as Hk; [|done].
  destruct (block_pos off (Z.of_nat k)) as [E1 E2]; [lia..|]. unfold fbyte. rewrite E1, E2.
  rewrite (list_lookup_total_correct _ _ _ Hv). rewrite list_lookup_lookup_total_lt by (fsizes; lia).
  do 2 f_equal. lia.
Qed.

(** * readi *)

Section readi.
Context (pid st sz : Z) (E : string → Prop) (d0 : disk) (sb : superblock) (dstart : Z) (nb : nat).
Context (HY : layout st sz nb sb dstart).
Notation frel := (frel pid st sz d0).

Lemma file_block a i k :
  length (la_view a) = nb → file_ok sb dstart (la_view a) i → (k <= maxfile)%nat → islot (la_view a) i k ≠ 0 →
  ∃ d, la_view a !! Z.to_nat (islot (la_view a) i k) = Some d.
Proof.
  intros Hnb Hok Hk Hs. destruct (fo_slot _ _ _ _ Hok k Hk Hs) as [Hr _].
  pose proof (ly_size _ _ _ _ _ HY). pose proof (ly_dstart _ _ _ _ _ HY). pose proof (ly_start _ _ _ _ _ HY).
  apply lookup_lt_is_Some_2. lia.
Qed.

Lemma readi_loop_spec fuel l a ino ip i off n Q :
  frel l a → la_held a = ∅ → (length (la_bs a) < nbuf)%nat → length (la_view a) = nb →
  ino !! ip = Some i → i_dev i = 1 → file_ok sb dstart (la_view a) i →
  0 <= off → 0 <= n → off + n <= i_size i → n = 0 ∨ off mod BSIZE + n <= BSIZE * (Z.of_nat fuel - 1) → (1 <= fuel)%nat →
  (∀ l', frel l' a → Q (fbytes (la_view a) i off n) (cpu0 pid) (FState l' sb ino)) →
  wp E (readi_loop fuel ip off n) (cpu0 pid) (FState l sb ino) Q.
Proof.
  intros HL Hh Hb Hnb Hi Hdev Hok. pose proof (fo_size _ _ _ _ Hok) as Hsz.
  revert l off n Q HL. induction fuel as [|fuel IH]; intros l off n Q HL Ho Hn Hle Hfuel Hf1 HQ; [lia|].
  cbn [readi_loop]. destruct (Z.eqb_spec n 0) as [->|Hn0].
  { apply wp_ret. by apply HQ. }
  pose proof (Z.mod_pos_bound off BSIZE ltac:(done)) as Hr.
  destruct (block_lt off MAXFILE) as [Hb1 Hb2]; [lia|].
  assert (islot (la_view a) i (Z.to_nat (off / BSIZE)) ≠ 0) as Hs.
  { eapply byte_slot; [done|lia]. }
  destruct (file_block a i (Z.to_nat (off / BSIZE)) Hnb Hok) as [d Hd]; [fsizes; lia|done|].
  pose proof (frel_block pid st sz d0 _ _ _ _ HL Hd) as Hdl.
  set (m := Z.min n (BSIZE - off mod BSIZE)).
  apply wp_bind. eapply wp_inodep; [done|]. apply wp_bind.
  eapply (bmap_hit pid st sz E d0 sb dstart nb HY _ _ _ _ _ _ _ HL); try done. intros l1 HL1.
  rewrite Hdev. eapply (f_read pid st sz E d0 sb _ _ _ _ d _ _ HL1); [done|done| |done|].
  { destruct (fo_slot _ _ _ _ Hok (Z.to_nat (off / BSIZE)) ltac:(fsizes; lia) Hs).
    pose proof (ly_start _ _ _ _ _ HY). pose proof (ly_dstart _ _ _ _ _ HY). lia. }
  intros l2 b HL2 Hb'. apply wp_bind. eapply (f_release pid st sz E d0 sb _ a); [done|done|]. intros l3 HL3.
  apply wp_bind. eapply (IH l3 (off + m) (n - m)); [done|lia|lia|lia| |fsizes; lia|].
  - destruct (decide (m = n)) as [->|Hm]; [left; lia|right].
    destruct Hfuel as [|Hfuel]; [done|]. assert (m = BSIZE - off mod BSIZE) as E1 by lia.
    rewrite (block_end off m) by lia. fsizes. lia.
  - intros l4 HL4. apply wp_ret. rewrite (fbytes_block (la_view a) i off m d) by (try done; lia).
    rewrite fbytes_app by lia. replace (m + (n - m)) with n by lia. by apply HQ.
Qed.

(** What [readi] returns on a file: at most [n] bytes, up to its end. *)
Definition read_result (v : list (list Z)) (i : inode) (off n : Z) : Z * list Z :=
  if i_size i <? off then (-1, [])
  else if u32 (off + n) <? off then (-1, [])
  else let n' := Z.min n (i_size i - off) in (n', slice (Z.to_nat off) (Z.to_nat n') (content v i)).

Lemma readi_spec dsw l a ino ip i off n Q :
  frel l a → la_held a = ∅ → (length (la_bs a) < nbuf)%nat → length (la_view a) = nb →
  ino !! ip = Some i → i_dev i = 1 → i_type i ≠ T_DEV → file_ok sb dstart (la_view a) i →
  0 <= off → 0 <= n →
  (∀ l', frel l' a → Q (read_result (la_view a) i off n) (cpu0 pid) (FState l' sb ino)) →
  wp E (readi dsw ip off n) (cpu0 pid) (FState l sb ino) Q.
Proof.
  intros HL Hh Hb Hnb Hi Hdev Htype Hok Ho Hn HQ. unfold readi, read_result in *.
  apply wp_bind. eapply wp_inodep; [done|]. replace (i_type i =? T_DEV) with false by lia.
  destruct (Z.ltb_spec (i_size i) off); [apply wp_ret; by apply HQ|].
  destruct (Z.ltb_spec (u32 (off + n)) off); [apply wp_ret; by apply HQ|]. cbn [orb].
  assert ((if i_size i <? off + n then i_size i - off else n) = Z.min n (i_size i - off)) as -> by (case_match; lia).
  set (m := Z.min n (i_size i - off)) in *. apply wp_bind.
  pose proof (Z.mod_pos_bound off BSIZE ltac:(done)). pose proof (Z.mod_pos_bound m BSIZE ltac:(done)).
  pose proof (Z.div_mod m BSIZE ltac:(done)). assert (0 <= m / BSIZE) by (apply Z.div_pos; [lia|done]).
  eapply readi_loop_spec; try done; [lia|lia| | |].
  - right. rewrite Z2Nat.id by lia. fsizes. lia.
  - lia.
  - intros l' HL'. apply wp_ret. rewrite <- (content_slice (la_view a) i off m) by lia. by apply HQ.
Qed.
End readi.

(** * writei *)

(** [wrote v i v' i' off src]: the bytes [src] have been stored in the file at [off].
    The new blocks of the file were free; blocks of other files, and the blocks in front
    of the free map, are as they were. *)
Record wrote (sb : superblock) (dstart : Z) (v : list (list Z)) (i : inode) (v' : list (list Z)) (i' : inode)
    (off : Z) (src : list Z) : Prop := {
  wt_meta : i' = set_addrs (i_addrs i') i;
  wt_slot : ∀ k, (k <= maxfile)%nat → islot v i k ≠ 0 → islot v' i' k = islot v i k;
  wt_fresh : ∀ k, (k <= maxfile)%nat → islot v i k = 0 → islot v' i' k ≠ 0 → used v sb (islot v' i' k) = false;
  wt_used : ∀ n, dstart <= n < sb_size sb → used v sb n = true → used v' sb n = true;
  wt_frame : ∀ n, dstart <= n < sb_size sb → used v sb n = true → (∀ k, (k <= maxfile)%nat → islot v i k ≠ n) →
               v' !! Z.to_nat n = v !! Z.to_nat n;
  wt_front : ∀ n, 0 <= n < sb_bmapstart sb → v' !! Z.to_nat n = v !! Z.to_nat n;
  wt_ok : file_ok sb dstart v' i';
  wt_same : covered v i (off + Z.of_nat (length src)) → i' = i;
  wt_in : ∀ o, off <= o < off + Z.of_nat (length src) →
            islot v' i' (Z.to_nat (o / BSIZE)) ≠ 0 ∧ fbyte v' i' o = src !!! Z.to_nat (o - off);
  wt_out : ∀ o, 0 <= o < MAXFILE * BSIZE → islot v i (Z.to_nat (o / BSIZE)) ≠ 0 →
             ¬ off <= o < off + Z.of_nat (length src) → fbyte v' i' o = fbyte v i o;
  wt_zero : ∀ o, 0 <= o < MAXFILE * BSIZE → islot v i (Z.to_nat (o / BSIZE)) = 0 →
              islot v' i' (Z.to_nat (o / BSIZE)) ≠ 0 → ¬ off <= o < off + Z.of_nat (length src) → fbyte v' i' o = 0;
}.

Section wrote.
Context {st sz : Z} {nb : nat} {sb : superblock} {dstart : Z} (HY : layout st sz nb sb dstart).
Notation file_ok := (file_ok sb dstart).
Notation wrote := (wrote sb dstart).

Lemma wrote_nil v i off : file_ok v i → wrote v i v i off [].
Proof.
  intros Hok. split; try done.
  - by destruct i.
  - cbn. lia.
Qed.

Lemma wrote_trans v i v1 i1 v2 i2 off s1 s2 :
  file_ok v i → 0 <= off → off + Z.of_nat (length (s1 ++ s2)) <= MAXFILE * BSIZE →
  wrote v i v1 i1 off s1 → wrote v1 i1 v2 i2 (off + Z.of_nat (length s1)) s2 →
  wrote v i v2 i2 off (s1 ++ s2).
Proof.
  intros Hok Ho Hmax H1 H2. rewrite length_app in Hmax. split.
  - rewrite (wt_meta _ _ _ _ _ _ _ _ H2) at 1. by rewrite (wt_meta _ _ _ _ _ _ _ _ H1).
  - intros k Hk Hs. pose proof (wt_slot _ _ _ _ _ _ _ _ H1 k Hk Hs) as E1.
    rewrite (wt_slot _ _ _ _ _ _ _ _ H2 k Hk); [done|congruence].
  - intros k Hk Hs Hs2. destruct (decide (islot v1 i1 k = 0)) as [E1|E1].
    + pose proof (wt_fresh _ _ _ _ _ _ _ _ H2 k Hk E1 Hs2) as Hu.
      destruct (fo_slot _ _ _ _ (wt_ok _ _ _ _ _ _ _ _ H2) k Hk Hs2) as [Hr _].
      destruct (used v sb (islot v2 i2 k)) eqn:Eu; [|done].
      rewrite (wt_used _ _ _ _ _ _ _ _ H1) in Hu by done. done.
    + rewrite (wt_slot _ _ _ _ _ _ _ _ H2 k Hk E1). by apply (wt_fresh _ _ _ _ _ _ _ _ H1).
  - intros n Hn Hu. by apply (wt_used _ _ _ _ _ _ _ _ H2), (wt_used _ _ _ _ _ _ _ _ H1).
  - intros n Hn Hu Hno. rewrite (wt_frame _ _ _ _ _ _ _ _ H2); [by apply (wt_frame _ _ _ _ _ _ _ _ H1)|done| |].
    + by apply (wt_used _ _ _ _ _ _ _ _ H1).
    + intros k Hk Heq. destruct (decide (islot v i k = 0)) as [E1|E1].
      * assert (islot v1 i1 k ≠ 0) as E2 by (pose proof (ly_dstart _ _ _ _ _ HY); lia).
        pose proof (wt_fresh _ _ _ _ _ _ _ _ H1 k Hk E1 E2). congruence.
      * apply (Hno k Hk). by rewrite <- (wt_slot _ _ _ _ _ _ _ _ H1).
  - intros n Hn. by rewrite (wt_front _ _ _ _ _ _ _ _ H2), (wt_front _ _ _ _ _ _ _ _ H1).
  - apply (wt_ok _ _ _ _ _ _ _ _ H2).
  - rewrite length_app. intros Hc. assert (i1 = i) as E1.
    { apply (wt_same _ _ _ _ _ _ _ _ H1). intros k Hk Hm. apply Hc; [done|lia]. }
    rewrite <- E1. apply (wt_same _ _ _ _ _ _ _ _ H2). rewrite E1. intros k Hk Hm.
    assert (islot v i k ≠ 0) as Hs by (apply Hc; [done|lia]).
    rewrite <- E1, (wt_slot _ _ _ _ _ _ _ _ H1) by (try done; lia). done.
  - rewrite length_app. intros o Hr. destruct (decide (o < off + Z.of_nat (length s1))) as [Hlt|Hge].
    + destruct (wt_in _ _ _ _ _ _ _ _ H1 o) as [Hs Hb]; [lia|]. destruct (block_lt o MAXFILE) as [? Hbl]; [lia|].
      rewrite (wt_slot _ _ _ _ _ _ _ _ H2) by (try done; fsizes; lia). split; [done|].
      rewrite (wt_out _ _ _ _ _ _ _ _ H2), Hb by (try done; lia). by rewrite lookup_total_app_l by lia.
    + destruct (wt_in _ _ _ _ _ _ _ _ H2 o) as [Hs Hb]; [lia|]. split; [done|].
      rewrite Hb, lookup_total_app_r by lia. f_equal. lia.
  - rewrite length_app. intros o Hr Hs Hout. destruct (block_lt o MAXFILE Hr) as [? Hbl].
    rewrite (wt_out _ _ _ _ _ _ _ _ H2), (wt_out _ _ _ _ _ _ _ _ H1); try done; try lia.
    by rewrite (wt_slot _ _ _ _ _ _ _ _ H1) by (try done; fsizes; lia).
  - rewrite length_app. intros o Hr Hs Hs2 Hout. destruct (decide (islot v1 i1 (Z.to_nat (o / BSIZE)) = 0)) as [E1|E1].
    + apply (wt_zero _ _ _ _ _ _ _ _ H2); try done. lia.
    + rewrite (wt_out _ _ _ _ _ _ _ _ H2) by (try done; lia). apply (wt_zero _ _ _ _ _ _ _ _ H1); try done. lia.
Qed.

Lemma zeros_lookup n : (n < bsize)%nat → zeros !!! n = 0.
Proof. intros Hn. by apply lookup_total_replicate_2. Qed.

(** [bmap] changes no byte of the file. *)
Lemma grow_fbyte v i v1 i1 o :
  file_ok v i → grow sb dstart v i v1 i1 → 0 <= o < MAXFILE * BSIZE → islot v i (Z.to_nat (o / BSIZE)) ≠ 0 →
  fbyte v1 i1 o = fbyte v i o.
Proof.
  intros Hok Hg Hor Hos. destruct (block_lt o MAXFILE Hor). unfold fbyte.
  rewrite (gr_slot _ _ _ _ _ _ Hg) by (try done; fsizes; lia).
  destruct (fo_slot _ _ _ _ Hok (Z.to_nat (o / BSIZE)) ltac:(fsizes; lia) Hos) as [Hor' Hou].
  rewrite !list_lookup_total_alt, (gr_data _ _ _ _ _ _ Hg _ Hor' Hou); [done|].
  rewrite <- (islot_ind v). apply (fo_inj _ _ _ _ Hok); try done; fsizes; lia.
Qed.

Lemma block_slot off : 0 <= off < MAXFILE * BSIZE → (Z.to_nat (off / BSIZE) < maxfile)%nat.
Proof. intros Ho. destruct (block_lt off MAXFILE Ho). fsizes. lia. Qed.

Section store.
Context (v : list (list Z)) (i : inode) (off : Z) (s d : list Z).
Context (Hok : file_ok v i) (Hdl : length d = bsize) (Ho : 0 <= off < MAXFILE * BSIZE).
Context (Hfit : off mod BSIZE + Z.of_nat (length s) <= BSIZE).
Abbreviation bn := (Z.to_nat (off / BSIZE)).
Context (Hs : islot v i bn ≠ 0) (Hd : v !! Z.to_nat (islot v i bn) = Some d).

(** A store to the block of the file at [off]. *)
Definition stored : list (list Z) :=
  <[Z.to_nat (islot v i bn) := splice (Z.to_nat (off mod BSIZE)) s d]> v.

(** It changes no other block of the file. *)
Lemma stored_other k :
  (k <= maxfile)%nat → islot v i k ≠ 0 → k ≠ bn → stored !! Z.to_nat (islot v i k) = v !! Z.to_nat (islot v i k).
Proof using All.
  intros Hk Hks Hne. pose proof (block_slot off Ho). pose proof (ly_dstart _ _ _ _ _ HY). pose proof (ly_start _ _ _ _ _ HY).
  apply list_lookup_insert_ne. destruct (fo_slot _ _ _ _ Hok k Hk Hks). destruct (fo_slot _ _ _ _ Hok bn ltac:(lia) Hs).
  pose proof (fo_inj _ _ _ _ Hok bn k ltac:(lia) Hk ltac:(lia) Hs). lia.
Qed.
Lemma stored_slot k : islot stored i k = islot v i k.
Proof using All.
  pose proof (block_slot off Ho). apply islot_ext. intros Hind. apply (stored_other maxfile); [lia|done|lia].
Qed.
Lemma stored_used n : dstart <= n < sb_size sb → used stored sb n = used v sb n.
Proof using All.
  intros Hn. pose proof (block_slot off Ho). pose proof (ly_dstart _ _ _ _ _ HY). pose proof (ly_start _ _ _ _ _ HY).
  destruct (fo_slot _ _ _ _ Hok bn ltac:(lia) Hs). apply (used_data HY); lia.
Qed.

Lemma stored_ok : file_ok stored i.
Proof using All.
  split.
  - apply (fo_addrs _ _ _ _ Hok).
  - apply (fo_size _ _ _ _ Hok).
  - intros k Hk. rewrite stored_slot. intros Hks. destruct (fo_slot _ _ _ _ Hok k Hk Hks). by rewrite stored_used.
  - intros k k' Hk Hk' Hne. rewrite !stored_slot. by apply (fo_inj _ _ _ _ Hok).
  - intros k Hk Hm. rewrite stored_slot. by apply (fo_full _ _ _ _ Hok).
Qed.

Lemma stored_fbyte o :
  0 <= o < MAXFILE * BSIZE → islot v i (Z.to_nat (o / BSIZE)) ≠ 0 →
  fbyte stored i o = if decide (off <= o < off + Z.of_nat (length s)) then s !!! Z.to_nat (o - off) else fbyte v i o.
Proof using All.
  intros Hor Hos. destruct (block_lt o MAXFILE Hor). destruct (block_lt off MAXFILE Ho). unfold fbyte. rewrite stored_slot.
  pose proof (Z.mod_pos_bound off BSIZE ltac:(done)). pose proof (Z.mod_pos_bound o BSIZE ltac:(done)).
  pose proof (Z.div_mod o BSIZE ltac:(done)). pose proof (Z.div_mod off BSIZE ltac:(done)).
  destruct (decide (Z.to_nat (o / BSIZE) = bn)) as [Ebn|Ebn].
  - rewrite Ebn. unfold stored. rewrite list_lookup_total_insert_eq by (by eapply lookup_lt_Some).
    rewrite (list_lookup_total_correct _ _ _ Hd).
    assert (o / BSIZE = off / BSIZE) as Eq by lia. rewrite Eq in *.
    rewrite !list_lookup_total_alt, lookup_splice by (rewrite Hdl; fsizes; lia).
    case_decide as C1; case_decide as C2; try (exfalso; lia); [|done]. do 2 f_equal. lia.
  - rewrite !list_lookup_total_alt, stored_other by (try done; fsizes; lia). rewrite decide_False; [done|].
    intros Hin. apply Ebn. destruct (block_pos off (o - off)) as [Eq _]; [lia..|].
    replace (off + (o - off)) with o in Eq by lia. by rewrite Eq.
Qed.
End store.

(** One turn of the loop: [bmap], then a store to the block. *)
Lemma wrote_step v i v1 i1 off s d :
  file_ok v i → grow sb dstart v i v1 i1 → length d = bsize →
  0 <= off < MAXFILE * BSIZE → off mod BSIZE + Z.of_nat (length s) <= BSIZE → (0 < length s)%nat →
  let bn := Z.to_nat (off / BSIZE) in
  islot v1 i1 bn ≠ 0 → (islot v i bn ≠ 0 → i1 = i) → v1 !! Z.to_nat (islot v1 i1 bn) = Some d →
  wrote v i (stored v1 i1 off s d) i1 off s.
Proof.
  intros Hok Hg Hdl Ho Hfit Hs0 bn Hs Hsame Hd. pose proof (gr_ok _ _ _ _ _ _ Hg) as Hok1.
  destruct (block_lt off MAXFILE Ho) as [Hb1 Hb2]. assert (bn < maxfile)%nat as Hbn by (fsizes; lia).
  destruct (fo_slot _ _ _ _ Hok1 bn ltac:(lia) Hs) as [Hr Hu].
  pose proof (ly_dstart _ _ _ _ _ HY) as Hyd. pose proof (ly_start _ _ _ _ _ HY) as Hys.
  pose proof (ly_bmap _ _ _ _ _ HY) as (_ & _ & Hbm). specialize (Hbm 0 ltac:(lia)). rewrite Z.div_0_l in Hbm by done.
  pose proof (stored_slot v1 i1 off s d Hok1 Hdl Ho Hfit Hs Hd) as Hsl.
  pose proof (stored_fbyte v1 i1 off s d Hok1 Hdl Ho Hfit Hs Hd) as Hnew.
  pose proof (Z.div_mod off BSIZE ltac:(done)). pose proof (Z.mod_pos_bound off BSIZE ltac:(done)).
  split.
  - apply (gr_meta _ _ _ _ _ _ Hg).
  - intros k Hk Hks. rewrite Hsl. by apply (gr_slot _ _ _ _ _ _ Hg).
  - intros k Hk Hks. rewrite Hsl. intros Hks'. by apply (gr_fresh _ _ _ _ _ _ Hg).
  - intros n Hn Hnu. rewrite stored_used by done. by apply (gr_used _ _ _ _ _ _ Hg).
  - intros n Hn Hnu Hno. unfold stored. rewrite list_lookup_insert_ne.
    + apply (gr_data _ _ _ _ _ _ Hg); try done. intros ->. by apply (Hno maxfile (le_n _)).
    + intros Heq. assert (islot v1 i1 bn = n) as E1 by (subst bn; lia). destruct (decide (islot v i bn = 0)) as [E2|E2].
      * destruct (gr_fresh _ _ _ _ _ _ Hg bn ltac:(lia) E2 Hs) as [Hf _]. congruence.
      * apply (Hno bn ltac:(lia)). rewrite <- E1. symmetry. apply (gr_slot _ _ _ _ _ _ Hg); [lia|done].
  - intros n Hn. unfold stored. fold bn. rewrite list_lookup_insert_ne by lia. by apply (gr_front _ _ _ _ _ _ Hg).
  - by apply stored_ok.
  - intros Hc. apply Hsame, Hc; [done|]. subst bn. rewrite Z2Nat.id by lia. lia.
  - intros o Hin. destruct (block_pos off (o - off)) as [Eq _]; [lia..|].
    replace (off + (o - off)) with o in Eq by lia. rewrite Hsl, Eq. split; [done|].
    rewrite Hnew; [by rewrite decide_True| |by rewrite Eq].
    pose proof (Z.div_mod o BSIZE ltac:(done)). pose proof (Z.mod_pos_bound o BSIZE ltac:(done)). fsizes. lia.
  - intros o Hor Hos Hout. destruct (block_lt o MAXFILE Hor). rewrite Hnew; [|done|].
    + rewrite decide_False by done. by apply grow_fbyte.
    + by rewrite (gr_slot _ _ _ _ _ _ Hg) by (try done; fsizes; lia).
  - intros o Hor Hos. destruct (block_lt o MAXFILE Hor). rewrite Hsl. intros Hos' Hout. rewrite Hnew, decide_False by done.
    destruct (gr_fresh _ _ _ _ _ _ Hg (Z.to_nat (o / BSIZE)) ltac:(fsizes; lia) Hos Hos') as [_ Hz].
    specialize (Hz ltac:(fsizes; lia)). unfold fbyte. rewrite (list_lookup_total_correct v1 _ _ Hz). apply zeros_lookup.
    pose proof (Z.mod_pos_bound o BSIZE ltac:(done)). fsizes. lia.
Qed.
End wrote.

Lemma wrote_covered sb dstart v i v' i' off src m : wrote sb dstart v i v' i' off src → covered v i m → covered v' i' m.
Proof.
  intros H Hc k Hk Hm. rewrite (wt_slot _ _ _ _ _ _ _ _ H) by (try lia; by apply Hc). by apply Hc.
Qed.

Section writei.
Context (pid st sz : Z) (E : string → Prop) (d0 : disk) (sb : superblock) (dstart : Z) (nb : nat).
Context (HY : layout st sz nb sb dstart).
Notation frel := (frel pid st sz d0).
Notation tstate := (tstate sz nb sb dstart).
Notation wrote := (wrote sb dstart).

(** [bmap] of a position that is about to be written. *)
Lemma bmap_any K l a ino ip i off n Q :
  frel l a → tstate ∅ (6 + K) a → ino !! ip = Some i → i_dev i = 1 → file_ok sb dstart (la_view a) i →
  0 <= off < MAXFILE * BSIZE → off < n → (¬ covered (la_view a) i n → E "balloc: out of blocks") →
  (∀ l' a' i', frel l' a' → tstate ∅ (S K) a' → grow sb dstart (la_view a) i (la_view a') i' →
     islot (la_view a') i' (Z.to_nat (off / BSIZE)) ≠ 0 →
     (islot (la_view a) i (Z.to_nat (off / BSIZE)) ≠ 0 → i' = i) →
     Q (islot (la_view a') i' (Z.to_nat (off / BSIZE))) (cpu0 pid) (FState l' sb (<[ip := i']> ino))) →
  wp E (bmap ip (off / BSIZE)) (cpu0 pid) (FState l sb ino) Q.
Proof.
  intros HL Ht Hi Hdev Hok Ho Hn HE HQ. pose proof (block_lt off MAXFILE Ho) as Hb.
  destruct (decide (islot (la_view a) i (Z.to_nat (off / BSIZE)) = 0)) as [Hs|Hs].
  - eapply (bmap_miss pid st sz E d0 sb dstart nb HY K _ _ _ _ _ _ _ HL Ht); try done.
    + apply HE. intros Hc. apply (Hc (Z.to_nat (off / BSIZE))); [fsizes; lia| |done].
      rewrite Z2Nat.id by lia. pose proof (Z.div_mod off BSIZE ltac:(done)).
      pose proof (Z.mod_pos_bound off BSIZE ltac:(done)). lia.
    + intros l' a' i' HL' Ht' Hg Hs'. by apply HQ.
  - pose proof (ts_room _ _ _ _ _ _ _ Ht) as Hr. unfold room in Hr.
    eapply (bmap_hit pid st sz E d0 sb dstart nb HY _ _ _ _ _ _ _ HL); try done.
    + apply (ts_held _ _ _ _ _ _ _ Ht).
    + lia.
    + apply (ts_len _ _ _ _ _ _ _ Ht).
    + intros l' HL'. rewrite <- (list_insert_id ino ip i Hi). apply HQ; try done.
      * eapply tstate_le; [|done]. lia.
      * by apply grow_refl.
Qed.

Lemma writei_loop_spec K t fuel l a ino ip i src off Q :
  frel l a → tstate ∅ (6 * t + K) a → ino !! ip = Some i → i_dev i = 1 → file_ok sb dstart (la_view a) i →
  0 <= off → off + Z.of_nat (length src) <= MAXFILE * BSIZE →
  src = [] ∨ off mod BSIZE + Z.of_nat (length src) <= BSIZE * Z.of_nat t → (t < fuel)%nat →
  (¬ covered (la_view a) i (off + Z.of_nat (length src)) → E "balloc: out of blocks") →
  (∀ l' a' i', frel l' a' → tstate ∅ K a' → wrote (la_view a) i (la_view a') i' off src →
     Q (off + Z.of_nat (length src)) (cpu0 pid) (FState l' sb (<[ip := i']> ino))) →
  wp E (writei_loop fuel ip src off) (cpu0 pid) (FState l sb ino) Q.
Proof.
  revert t l a ino i src off Q. induction fuel as [|fuel IH]; intros t l a ino i src off Q HL Ht Hi Hdev Hok Ho Hmax Hfit Hfuel HE HQ; [lia|].
  cbn [writei_loop]. destruct (decide (src = [])) as [->|Hsrc].
  { apply wp_ret. cbn [length] in HQ. rewrite <- (list_insert_id ino ip i Hi).
    replace off with (off + Z.of_nat 0) by lia. apply (HQ l a i HL); [eapply tstate_le; [|done]; lia|by apply wrote_nil]. }
  destruct Hfit as [|Hfit]; [done|].
  assert (0 < length src)%nat as Hn0 by (destruct src; [done|cbn; lia]).
  destruct src as [|x0 src0] eqn:Esrc; [done|]. rewrite <- Esrc in *. clear Hsrc Esrc x0 src0.
  pose proof (Z.mod_pos_bound off BSIZE ltac:(done)) as Hr.
  destruct t as [|t]; [lia|].
  set (m := Z.min (Z.of_nat (length src)) (BSIZE - off mod BSIZE)).
  assert (length (take (Z.to_nat m) src) = Z.to_nat m) as Hlm by (rewrite length_take; lia).
  apply wp_bind. eapply wp_inodep; [done|]. apply wp_bind.
  eapply (bmap_any (6 * t + K) _ _ _ _ _ off (off + Z.of_nat (length src)) _ HL); try done; [|lia|lia|].
  { eapply tstate_le; [|done]. lia. }
  intros l1 a1 i1 HL1 Ht1 Hg Hs1 Hsame. apply wp_bind. pose proof (gr_ok _ _ _ _ _ _ Hg) as Hok1.
  destruct (fo_slot _ _ _ _ Hok1 (Z.to_nat (off / BSIZE))) as [Hr1 Hu1]; [|done|].
  { apply Nat.lt_le_incl, block_slot. lia. }
  destruct (tstate_data HY _ _ _ _ Ht1 Hr1) as (d & Hd & Hdl).
  pose proof (ts_room _ _ _ _ _ _ _ Ht1) as Hrm. pose proof (ts_len _ _ _ _ _ _ _ Ht1) as Hlen1.
  pose proof (ly_dstart _ _ _ _ _ HY) as Hyd. pose proof (ly_start _ _ _ _ _ HY) as Hys.
  rewrite Hdev. eapply (f_bread pid st sz E d0 sb _ _ _ _ _ HL1).
  { split; [lia|]. apply lookup_lt_Some in Hd. lia. }
  { intros j x. rewrite (ts_held _ _ _ _ _ _ _ Ht1). done. }
  { eapply room_le; [|done]. lia. }
  intros b l2 Hb HL2. apply wp_bind3.
  assert (length (splice (Z.to_nat (off mod BSIZE)) (take (Z.to_nat m) src) d) = bsize) as Hsl.
  { rewrite length_splice; [done|]. rewrite Hdl, Hlm. fsizes. lia. }
  eapply (f_write_back pid st sz E d0 sb _ _ a1 b _ _ d _ HL2 Hb Hd Hsl); [lia|lia|eapply room_le; [|done]; lia|].
  intros l3 HL3.
  pose proof (tstate_write HY _ _ _ (islot (la_view a1) i1 (Z.to_nat (off / BSIZE))) _ Ht1 ltac:(lia) (λ b Hb, data_not_map HY _ _ (proj1 Hr1) Hb) Hsl) as Ht3.
  pose proof (wrote_step HY (la_view a) i (la_view a1) i1 off (take (Z.to_nat m) src) d Hok Hg Hdl ltac:(lia)
                ltac:(lia) ltac:(lia) Hs1 Hsame Hd) as Hw.
  assert (Z.of_nat (length (drop (Z.to_nat m) src)) = Z.of_nat (length src) - m) as Hld by (rewrite length_drop; lia).
  eapply (IH t _ _ _ i1 _ _ _ HL3 Ht3); rewrite ?Hld.
  - apply list_lookup_insert_eq. by eapply lookup_lt_Some.
  - by rewrite (gr_meta _ _ _ _ _ _ Hg).
  - apply (wt_ok _ _ _ _ _ _ _ _ Hw).
  - lia.
  - lia.
  - destruct (decide (m = Z.of_nat (length src))) as [->|Hm]; [left|right].
    + apply drop_ge. lia.
    + rewrite (block_end off m) by lia. lia.
  - lia.
  - intros Hnc. apply HE. intros Hc. apply Hnc. eapply wrote_covered; [exact Hw|].
    by replace (off + m + (Z.of_nat (length src) - m)) with (off + Z.of_nat (length src)) by lia.
  - intros l4 a4 i4 HL4 Ht4 Hw4. rewrite list_insert_insert_eq.
    replace (off + m + (Z.of_nat (length src) - m)) with (off + Z.of_nat (length src)) by lia.
    apply (HQ l4 a4 i4 HL4 Ht4). rewrite <- (take_drop (Z.to_nat m) src).
    eapply (wrote_trans HY); [done|lia|by rewrite take_drop|exact Hw|].
    by replace (off + Z.of_nat (length (take (Z.to_nat m) src))) with (off + m) by lia.
Qed.
End writei.
