(* ===== verification/FsWrite.v ===== *)
(** Inodes on the disk ([iupdate]), and [writei] as an operation on the contents of
    files: what happens to the file that is written, and to the others. *)
From stdpp Require Import base list numbers strings sets gmap.
From Stdlib Require Import ZArith Lia.
From S2P Require Import Prelude Params Machine Spinlock Sleeplock CString Bio BioRing BioSpec.
From S2P Require Import Log LogSpec LogCommit LogRecover LogOps Fs FsBlocks FsInode FsContent.
Local Open Scope Z_scope.
Local Open Scope xv6_scope.

(** * struct dinode *)

(** Every field fits its C type. *)
Record dinode_range (di : dinode) : Prop := {
  dr_type : - 2 ^ 15 <= di_type di < 2 ^ 15;
  dr_major : - 2 ^ 15 <= di_major di < 2 ^ 15;
  dr_minor : - 2 ^ 15 <= di_minor di < 2 ^ 15;
  dr_nlink : - 2 ^ 15 <= di_nlink di < 2 ^ 15;
  dr_size : 0 <= di_size di < 2 ^ 32;
  dr_length : length (di_addrs di) = S ndirect;
  dr_addrs : Forall (λ x, 0 <= x < 2 ^ 32) (di_addrs di);
}.

Lemma length_dinode_bytes di : length (di_addrs di) = S ndirect → length (dinode_bytes di) = 64%nat.
Proof.
  intros H. unfold dinode_bytes. rewrite !length_app, !length_le_bytes, length_addr_bytes, H. reflexivity.
Qed.

Lemma rd_splice_in n off k new l :
  (off + length new <= length l)%nat → (k + n <= length new)%nat → rd n (off + k) (splice off new l) = rd n k new.
Proof.
  intros Hl Hk. unfold rd. f_equal. apply list_eq. intros j. rewrite !lookup_slice_if. case_decide; [|done].
  rewrite lookup_splice by done. rewrite decide_True by lia. f_equal. lia.
Qed.

Lemma s16_mod x : - 2 ^ 15 <= x < 2 ^ 15 → s16 (x mod 2 ^ (8 * Z.of_nat 2)) = x.
Proof.
  intros Hx. unfold s16. change (8 * Z.of_nat 2) with 16. rewrite Zplus_mod_idemp_l. rewrite Z.mod_small by lia. lia.
Qed.

(** Skip the first [n] fields of a [struct dinode]. *)
Tactic Notation "skip_fields" integer(n) :=
  unfold dinode_bytes; cbn [di_type di_major di_minor di_nlink di_size di_addrs];
  do n (rewrite rd_app_r by (rewrite length_le_bytes; lia); rewrite length_le_bytes); cbn [Nat.sub].

(** A [struct dinode] that is stored is read back. *)
Lemma rd_wr_dinode off di d :
  dinode_range di → (off + 64 <= length d)%nat → rd_dinode off (wr_dinode off di d) = di.
Proof.
  intros [] Hd. pose proof (length_dinode_bytes di dr_length0) as Hl.
  assert (∀ n k, (k + n <= 64)%nat → rd n (off + k) (wr_dinode off di d) = rd n k (dinode_bytes di)) as Hrd.
  { intros n k Hk. apply rd_splice_in; rewrite Hl; lia. }
  unfold rd_dinode. rewrite <- (Nat.add_0_r off) at 1. rewrite !Hrd by lia.
  destruct di as [ty ma mi nl si ad]; cbn [di_type di_major di_minor di_nlink di_size di_addrs] in *. f_equal.
  - skip_fields 0. rewrite rd_app_l. by apply s16_mod.
  - skip_fields 1. rewrite rd_app_l. by apply s16_mod.
  - skip_fields 2. rewrite rd_app_l. by apply s16_mod.
  - skip_fields 3. rewrite rd_app_l. by apply s16_mod.
  - skip_fields 4. rewrite rd_app_l. by apply Z.mod_small.
  - apply list_eq. intros k. rewrite list_lookup_fmap. destruct (decide (k < S ndirect)%nat) as [Hk|Hk].
    + rewrite lookup_seq_lt by done. cbn [fmap option_fmap option_map].
      destruct (lookup_lt_is_Some_2 ad k) as [x Hx]; [lia|]. rewrite Hx. f_equal.
      rewrite Forall_lookup in dr_addrs0. replace (off + 12 + 4 * (0 + k))%nat with (off + (12 + 4 * k))%nat by lia.
      rewrite Hrd by (fsizes; lia). skip_fields 5.
      match goal with |- rd 4 ?x _ = _ => replace x with (4 * k)%nat by lia end. apply rd_addrs; [done|by eapply dr_addrs0].
    + rewrite lookup_seq_ge by lia. rewrite lookup_ge_None_2 by lia. done.
Qed.

(** Inodes in other places of the block stay. *)
Lemma rd_wr_dinode_other off off' di d :
  length (di_addrs di) = S ndirect → (off + 64 <= length d)%nat → (off + 64 <= off' ∨ off' + 64 <= off)%nat →
  rd_dinode off' (wr_dinode off di d) = rd_dinode off' d.
Proof.
  intros Hl Hd Ho. pose proof (length_dinode_bytes di Hl) as Hlen.
  assert (∀ n k, (k + n <= 64)%nat → rd n (off' + k) (wr_dinode off di d) = rd n (off' + k) d) as Hrd.
  { intros n k Hk. unfold rd, wr_dinode. rewrite slice_splice_other by (rewrite Hlen; lia). done. }
  unfold rd_dinode. rewrite <- (Nat.add_0_r off') at 1. rewrite !Hrd by lia. rewrite Nat.add_0_r. f_equal.
  apply list_fmap_ext. intros j k [-> Hk]%lookup_seq.
  rewrite <- !Nat.add_assoc. apply Hrd. fsizes. lia.
Qed.

Lemma dino_off_bound inum : (dino_off inum + 64 <= bsize)%nat.
Proof. unfold dino_off. pose proof (Z.mod_pos_bound inum IPB ltac:(done)). change IPB with 8 in *. sizes. lia. Qed.

(** The inode on the disk is the inode in memory. *)
Definition on_disk (sb : superblock) (v : list (list Z)) (i : inode) : Prop :=
  rd_dinode (dino_off (i_inum i)) (v !!! Z.to_nat (IBLOCK (i_inum i) sb)) = to_dinode i.

(** * Views with the same data *)

(** The data blocks are the same, and the same ones are in use. *)
Record data_same (sb : superblock) (dstart : Z) (v v' : list (list Z)) : Prop := {
  ds_data : ∀ n, dstart <= n < sb_size sb → v' !! Z.to_nat n = v !! Z.to_nat n;
  ds_used : ∀ n, dstart <= n < sb_size sb → used v' sb n = used v sb n;
}.

(** The blocks of [i] are not blocks of [j]. *)
Definition disjoint_files (v : list (list Z)) (i j : inode) : Prop :=
  ∀ k k', (k <= maxfile)%nat → (k' <= maxfile)%nat → islot v i k ≠ 0 → islot v i k ≠ islot v j k'.

Section same.
Context {sb : superblock} {dstart : Z}.
Notation file_ok := (file_ok sb dstart).

(** A file is the same in two views that agree on its blocks. *)
Lemma file_ok_same v v' j :
  file_ok v j →
  (∀ k, (k <= maxfile)%nat → islot v j k ≠ 0 →
     v' !! Z.to_nat (islot v j k) = v !! Z.to_nat (islot v j k) ∧ used v' sb (islot v j k) = true) →
  file_ok v' j ∧ content v' j = content v j ∧ (∀ k, islot v' j k = islot v j k).
Proof.
  intros Hok Hsame. assert (∀ k, islot v' j k = islot v j k) as Hsl.
  { intros k. apply islot_ext. intros Hind. by apply (Hsame maxfile). }
  split; [|split; [|done]].
  - split.
    + apply (fo_addrs _ _ _ _ Hok).
    + apply (fo_size _ _ _ _ Hok).
    + intros k Hk. rewrite Hsl. intros Hs. destruct (fo_slot _ _ _ _ Hok k Hk Hs). split; [done|]. by apply Hsame.
    + intros k k' Hk Hk' Hne. rewrite !Hsl. by apply (fo_inj _ _ _ _ Hok).
    + intros k Hk Hm. rewrite Hsl. by apply (fo_full _ _ _ _ Hok).
  - apply list_fmap_ext. intros o k [-> Hk]%lookup_seq. pose proof (fo_size _ _ _ _ Hok).
    destruct (byte_slot _ _ _ _ (Z.of_nat (0 + o)) Hok) as [Hb1 Hb2]; [lia|].
    unfold fbyte. rewrite Hsl, !list_lookup_total_alt. by destruct (Hsame (Z.to_nat (Z.of_nat (0 + o) / BSIZE))) as [-> _]; [lia| |].
Qed.

Lemma data_same_file v v' j :
  data_same sb dstart v v' → file_ok v j → file_ok v' j ∧ content v' j = content v j ∧ (∀ k, islot v' j k = islot v j k).
Proof.
  intros [Hd Hu] Hok. apply file_ok_same; [done|]. intros k Hk Hs. destruct (fo_slot _ _ _ _ Hok k Hk Hs) as [Hr Hus].
  split; [by apply Hd|]. by rewrite Hu.
Qed.

(** Writing a file leaves the others alone. *)
Lemma wrote_other v i v' i' off src j :
  file_ok v i → wrote sb dstart v i v' i' off src → 1 < dstart → file_ok v j → disjoint_files v i j →
  file_ok v' j ∧ content v' j = content v j ∧ disjoint_files v' i' j.
Proof.
  intros Hok Hw Hds Hj Hdis.
  destruct (file_ok_same v v' j Hj) as (Hok' & Hc & Hsl).
  { intros k Hk Hs. destruct (fo_slot _ _ _ _ Hj k Hk Hs) as [Hr Hu]. split; [|by apply (wt_used _ _ _ _ _ _ _ _ Hw)].
    apply (wt_frame _ _ _ _ _ _ _ _ Hw); [done|done|]. intros k' Hk' Heq.
    apply (Hdis k' k); try done. lia. }
  split; [done|]. split; [done|]. intros k k' Hk Hk' Hs Heq. rewrite Hsl in Heq.
  destruct (decide (islot v i k = 0)) as [E|E].
  - pose proof (wt_fresh _ _ _ _ _ _ _ _ Hw k Hk E Hs) as Hf. rewrite Heq in Hf, Hs.
    destruct (fo_slot _ _ _ _ Hj k' Hk' Hs). congruence.
  - rewrite (wt_slot _ _ _ _ _ _ _ _ Hw k Hk E) in Heq. by apply (Hdis k k').
Qed.
End same.

(** * writei *)

(** [written v i v' i' off src]: what [writei] promises. *)
Record written (sb : superblock) (dstart : Z) (v : list (list Z)) (i : inode) (v' : list (list Z)) (i' : inode)
    (off : Z) (src : list Z) : Prop := {
  wn_meta : i' = set_isize (Z.max (i_size i) (off + Z.of_nat (length src))) (set_addrs (i_addrs i') i);
  wn_ok : file_ok sb dstart v' i';
  wn_content : content v' i' = splice (Z.to_nat off) src (content v i);
  wn_disk : on_disk sb v i → on_disk sb v' i';
  wn_inodes : ∀ j, 0 <= i_inum j < sb_ninodes sb → i_inum j ≠ i_inum i → on_disk sb v j → on_disk sb v' j;
  wn_others : ∀ j, file_ok sb dstart v j → disjoint_files v i j →
    file_ok sb dstart v' j ∧ content v' j = content v j ∧ disjoint_files v' i' j;
}.

(** What an inode must be for its copy on the disk to be exact. *)
Record inode_range (sb : superblock) (i : inode) : Prop := {
  ir_inum : 0 <= i_inum i < sb_ninodes sb;
  ir_type : - 2 ^ 15 <= i_type i < 2 ^ 15;
  ir_major : - 2 ^ 15 <= i_major i < 2 ^ 15;
  ir_minor : - 2 ^ 15 <= i_minor i < 2 ^ 15;
  ir_nlink : - 2 ^ 15 <= i_nlink i < 2 ^ 15;
}.

Section iupdate.
Context {st sz : Z} {nb : nat} {sb : superblock} {dstart : Z} (HY : layout st sz nb sb dstart).

Lemma file_dinode_range v i : inode_range sb i → file_ok sb dstart v i → dinode_range (to_dinode i).
Proof.
  intros [] Hok. pose proof (fo_size _ _ _ _ Hok) as Hs. pose proof (fo_addrs _ _ _ _ Hok) as Hl. split; try done.
  - cbn. fsizes. lia.
  - apply Forall_lookup. cbn. intros k x Hx. apply lookup_lt_Some in Hx as Hk. rewrite Hl in Hk.
    apply list_lookup_total_correct in Hx as Hx'. pose proof (ly_size _ _ _ _ _ HY). pose proof (ly_dstart _ _ _ _ _ HY).
    destruct (decide (x = 0)) as [->|Hx0]; [lia|].
    assert (islot v i (if decide (k < ndirect)%nat then k else maxfile) = x) as E.
    { case_decide as Hd; [unfold islot; by rewrite decide_True|]. rewrite islot_ind. unfold iind.
      by replace ndirect with k by (fsizes; lia). }
    destruct (fo_slot _ _ _ _ Hok (if decide (k < ndirect)%nat then k else maxfile)) as [Hr _]; rewrite ?E; try done.
    + case_decide; fsizes; lia.
    + rewrite E in Hr. lia.
Qed.

(** Inode blocks are neither data blocks nor part of the free map. *)
Lemma iblock_data_same v i d :
  0 <= i < sb_ninodes sb → data_same sb dstart v (<[Z.to_nat (IBLOCK i sb) := d]> v).
Proof.
  intros Hi. destruct (IBLOCK_range HY i Hi) as (_ & H1 & H2 & H3). pose proof (ly_dstart _ _ _ _ _ HY).
  pose proof (ly_start _ _ _ _ _ HY). pose proof (ly_bmap _ _ _ _ _ HY) as (_ & _ & Hb).
  pose proof (Hb 0 ltac:(lia)) as Hb0. rewrite Z.div_0_l in Hb0 by done. split.
  - intros n Hn. apply list_lookup_insert_ne. lia.
  - intros n Hn. destruct (BBLOCK_range HY n ltac:(lia)) as (E & _). assert (0 <= n / BPB) by (apply Z.div_pos; [lia|done]).
    unfold used. rewrite list_lookup_total_insert_ne; [done|]. lia.
Qed.

Lemma iblock_not_map i b : 0 <= i < sb_ninodes sb → 0 <= b < sb_size sb → BBLOCK b sb ≠ IBLOCK i sb.
Proof.
  intros Hi Hb. destruct (IBLOCK_range HY i Hi) as (_ & H1 & H2 & H3). destruct (BBLOCK_range HY b Hb) as (E & _).
  assert (0 <= b / BPB) by (apply Z.div_pos; [lia|done]). lia.
Qed.

(** Storing an inode on the disk. *)
Lemma on_disk_write v i d :
  length v = nb → length d = bsize → inode_range sb i → dinode_range (to_dinode i) →
  on_disk sb (<[Z.to_nat (IBLOCK (i_inum i) sb) := wr_dinode (dino_off (i_inum i)) (to_dinode i) d]> v) i.
Proof.
  intros Hv Hd Hr Hdr. destruct (IBLOCK_range HY _ (ir_inum _ _ Hr)) as (_ & H1 & H2 & H3). unfold on_disk.
  rewrite list_lookup_total_insert_eq by lia. apply rd_wr_dinode; [done|]. rewrite Hd. apply dino_off_bound.
Qed.
Lemma on_disk_other v i j d :
  length v = nb → v !! Z.to_nat (IBLOCK (i_inum i) sb) = Some d → length d = bsize → 0 <= i_inum i < sb_ninodes sb →
  length (i_addrs i) = S ndirect →
  0 <= i_inum j < sb_ninodes sb → i_inum j ≠ i_inum i → on_disk sb v j →
  on_disk sb (<[Z.to_nat (IBLOCK (i_inum i) sb) := wr_dinode (dino_off (i_inum i)) (to_dinode i) d]> v) j.
Proof.
  intros Hv Hvd Hd Hi Hla Hj Hne Hdisk. destruct (IBLOCK_range HY _ Hi) as (E1 & H1 & H2 & H3).
  destruct (IBLOCK_range HY _ Hj) as (E2 & H1' & H2' & H3'). unfold on_disk in *.
  destruct (decide (IBLOCK (i_inum j) sb = IBLOCK (i_inum i) sb)) as [E|E].
  - rewrite E in *. rewrite list_lookup_total_insert_eq by lia. rewrite (list_lookup_total_correct _ _ _ Hvd) in Hdisk.
    rewrite rd_wr_dinode_other; [done|done|rewrite Hd; apply dino_off_bound|].
    unfold dino_off. change IPB with 8 in *. pose proof (Z.div_mod (i_inum i) 8 ltac:(done)). pose proof (Z.div_mod (i_inum j) 8 ltac:(done)).
    pose proof (Z.mod_pos_bound (i_inum i) 8 ltac:(done)). pose proof (Z.mod_pos_bound (i_inum j) 8 ltac:(done)). lia.
  - rewrite list_lookup_total_insert_ne; [done|]. lia.
Qed.

(** The whole of what [writei] does, from the loop and [iupdate]. *)
Lemma written_content v i v' i' off src :
  file_ok sb dstart v i → 0 <= off <= i_size i → off + Z.of_nat (length src) <= MAXFILE * BSIZE →
  wrote sb dstart v i v' i' off src →
  let i2 := set_isize (Z.max (i_size i) (off + Z.of_nat (length src))) i' in
  file_ok sb dstart v' i2 ∧ content v' i2 = splice (Z.to_nat off) src (content v i).
Proof.
  intros Hok Ho Hmax Hw i2. pose proof (wt_ok _ _ _ _ _ _ _ _ Hw) as Hok'. pose proof (fo_size _ _ _ _ Hok) as Hsz.
  assert (covered v' i2 (i_size i2)) as Hcov.
  { intros k Hk Hm. cbn [i2 set_isize i_size] in Hm. change (islot v' i2 k) with (islot v' i' k).
    destruct (decide (Z.of_nat k * BSIZE < i_size i)) as [Hlt|Hge].
    - eapply wrote_covered; [exact Hw|apply (fo_full _ _ _ _ Hok)|done|done].
    - destruct (wt_in _ _ _ _ _ _ _ _ Hw (Z.of_nat k * BSIZE)) as [Hs _]; [lia|].
      rewrite Z.div_mul, Nat2Z.id in Hs by done. done. }
  split.
  - split; [apply (fo_addrs _ _ _ _ Hok')|cbn; lia|apply (fo_slot _ _ _ _ Hok')|apply (fo_inj _ _ _ _ Hok')|exact Hcov].
  - apply list_eq. intros o. rewrite content_lookup. cbn [i2 set_isize i_size]. change (fbyte v' i2) with (fbyte v' i').
    unfold splice. pose proof (length_content v i) as Hlc.
    destruct (decide (o < Z.to_nat off)%nat) as [H1|H1].
    { rewrite lookup_app_l by (rewrite length_take; lia). rewrite lookup_take_lt, content_lookup by lia. rewrite !decide_True by lia.
      rewrite (wt_out _ _ _ _ _ _ _ _ Hw); [done|lia| |lia]. eapply byte_slot; [done|lia]. }
    rewrite lookup_app_r by (rewrite length_take; lia). rewrite length_take. replace (Z.to_nat off `min` _)%nat with (Z.to_nat off) by lia.
    destruct (decide (o < Z.to_nat off + length src)%nat) as [H2|H2].
    { rewrite lookup_app_l by lia. rewrite decide_True by lia. destruct (wt_in _ _ _ _ _ _ _ _ Hw (Z.of_nat o)) as [_ ->]; [lia|].
      rewrite list_lookup_lookup_total_lt by lia. do 2 f_equal. lia. }
    rewrite lookup_app_r, lookup_drop, content_lookup by lia.
    replace (Z.to_nat off + length src + (o - Z.to_nat off - length src))%nat with o by lia.
    case_decide as C1; case_decide as C2; try (exfalso; lia); [|done]. f_equal.
    apply (wt_out _ _ _ _ _ _ _ _ Hw); [lia| |lia]. eapply byte_slot; [done|lia].
Qed.
End iupdate.

Section writei.
Context (pid st sz : Z) (E : string → Prop) (d0 : disk) (sb : superblock) (dstart : Z) (nb : nat).
Context (HY : layout st sz nb sb dstart).
Notation frel := (frel pid st sz d0).
Notation tstate := (tstate sz nb sb dstart).

Lemma iupdate_spec K l a ino ip i Q :
  frel l a → tstate ∅ (S K) a → ino !! ip = Some i → i_dev i = 1 → inode_range sb i →
  length (i_addrs i) = S ndirect →
  (∀ l' d, la_view a !! Z.to_nat (IBLOCK (i_inum i) sb) = Some d → length d = bsize →
     let a' := la_write (IBLOCK (i_inum i) sb) (wr_dinode (dino_off (i_inum i)) (to_dinode i) d) a in
     frel l' a' → tstate ∅ K a' → Q tt (cpu0 pid) (FState l' sb ino)) →
  wp E (iupdate ip) (cpu0 pid) (FState l sb ino) Q.
Proof.
  intros HL Ht Hi Hdev Hr Hla HQ. destruct (IBLOCK_range HY _ (ir_inum _ _ Hr)) as (_ & H1 & H2 & H3).
  pose proof (ts_len _ _ _ _ _ _ _ Ht) as Hnb. pose proof (ts_room _ _ _ _ _ _ _ Ht) as Hrm.
  destruct (lookup_lt_is_Some_2 (la_view a) (Z.to_nat (IBLOCK (i_inum i) sb))) as [d Hd]; [lia|].
  pose proof (ts_block _ _ _ _ _ _ _ Ht _ _ Hd) as Hdl.
  assert (length (wr_dinode (dino_off (i_inum i)) (to_dinode i) d) = bsize) as Hwl.
  { pose proof (dino_off_bound (i_inum i)). unfold wr_dinode.
    rewrite length_splice; [done|]. rewrite length_dinode_bytes by done. lia. }
  unfold iupdate. apply wp_bind. eapply wp_inodep; [done|]. apply wp_bind, wp_gets. cbn [fs_sb]. apply wp_bind. rewrite Hdev.
  eapply (f_bread pid st sz E d0 sb _ _ _ _ _ HL).
  { lia. }
  { intros j x. rewrite (ts_held _ _ _ _ _ _ _ Ht). done. }
  { eapply room_le; [|done]. lia. }
  intros b l1 Hb HL1. pose proof (ly_start _ _ _ _ _ HY).
  eapply (f_write_back pid st sz E d0 sb _ _ a b _ _ d _ HL1 Hb Hd Hwl); [lia|lia|eapply room_le; [|done]; lia|].
  intros l2 HL2. apply (HQ l2 d Hd Hdl HL2). apply (tstate_write HY); try done; [lia|].
  intros x Hx. by apply (iblock_not_map HY); [apply (ir_inum _ _ Hr)|].
Qed.

(** The inode blocks are in front of the free map. *)
Lemma wrote_on_disk v i v' i' off src j :
  wrote sb dstart v i v' i' off src → 0 <= i_inum j < sb_ninodes sb → on_disk sb v j → on_disk sb v' j.
Proof.
  intros Hw Hj Hd. destruct (IBLOCK_range HY _ Hj) as (_ & H1 & H2 & H3). unfold on_disk in *.
  by rewrite list_lookup_total_alt, (wt_front _ _ _ _ _ _ _ _ Hw), <- list_lookup_total_alt by lia.
Qed.

(** The size stays: nothing but data was written. *)
Lemma written_inside v i v' i' off src :
  inode_range sb i → file_ok sb dstart v i → 0 <= off → off + Z.of_nat (length src) <= i_size i →
  wrote sb dstart v i v' i' off src → written sb dstart v i v' i' off src.
Proof.
  intros Hr Hok Ho Hle Hw. pose proof (fo_size _ _ _ _ Hok) as Hsz. pose proof (ly_dstart _ _ _ _ _ HY).
  assert (i' = i) as ->.
  { apply (wt_same _ _ _ _ _ _ _ _ Hw). intros k Hk Hm. apply (fo_full _ _ _ _ Hok); [done|lia]. }
  destruct (written_content v i v' i off src Hok ltac:(lia) ltac:(lia) Hw) as [_ Hc].
  assert (set_isize (Z.max (i_size i) (off + Z.of_nat (length src))) i = i) as Ei.
  { replace (Z.max _ _) with (i_size i) by lia. by destruct i. }
  rewrite Ei in Hc. split; try done.
  - apply (wt_ok _ _ _ _ _ _ _ _ Hw).
  - intros Hd. eapply wrote_on_disk; [exact Hw|apply (ir_inum _ _ Hr)|done].
  - intros j Hj _ Hd. by eapply wrote_on_disk.
  - intros j Hj Hdis. by apply (wrote_other v i v' i off src j Hok Hw ltac:(lia) Hj).
Qed.

(** The file grew: the inode was written as well. *)
Lemma written_grown v i v1 i1 off src d :
  length v1 = nb → inode_range sb i → file_ok sb dstart v i → 0 <= off <= i_size i →
  i_size i < off + Z.of_nat (length src) <= MAXFILE * BSIZE → wrote sb dstart v i v1 i1 off src →
  v1 !! Z.to_nat (IBLOCK (i_inum i) sb) = Some d → length d = bsize →
  let i2 := set_isize (off + Z.of_nat (length src)) i1 in
  written sb dstart v i (<[Z.to_nat (IBLOCK (i_inum i) sb) := wr_dinode (dino_off (i_inum i)) (to_dinode i2) d]> v1) i2 off src.
Proof.
  intros Hlen Hr Hok Ho Hle Hw Hd Hdl i2. pose proof (ly_dstart _ _ _ _ _ HY).
  destruct (written_content v i v1 i1 off src Hok Ho ltac:(lia) Hw) as [Hok2 Hc].
  replace (Z.max _ _) with (off + Z.of_nat (length src)) in Hok2, Hc by lia. fold i2 in Hok2, Hc.
  pose proof (wt_meta _ _ _ _ _ _ _ _ Hw) as Hm.
  assert (i_inum i2 = i_inum i) as En by (unfold i2; by rewrite Hm).
  assert (inode_range sb i2) as Hr2 by (unfold i2; rewrite Hm; by destruct Hr).
  pose proof (iblock_data_same HY v1 (i_inum i) (wr_dinode (dino_off (i_inum i)) (to_dinode i2) d) (ir_inum _ _ Hr)) as Hds.
  destruct (data_same_file _ _ i2 Hds Hok2) as (Hok3 & Hc3 & Hsl3).
  split.
  - unfold i2 at 1. rewrite Hm at 1. unfold i2. cbn. f_equal. lia.
  - done.
  - by rewrite Hc3.
  - intros _. rewrite <- En. apply (on_disk_write HY); try done. by eapply (file_dinode_range HY).
  - intros j Hj Hne Hdj. rewrite <- En. apply (on_disk_other HY); try done; rewrite ?En; try done.
    + apply (ir_inum _ _ Hr).
    + apply (fo_addrs _ _ _ _ Hok2).
    + by eapply wrote_on_disk.
  - intros j Hj Hdis. destruct (wrote_other _ _ _ _ _ _ j Hok Hw ltac:(lia) Hj Hdis) as (Hj1 & Hcj & Hdj).
    destruct (data_same_file _ _ j Hds Hj1) as (Hj2 & Hcj2 & Hslj). split; [done|]. split; [congruence|].
    intros k k' Hk Hk'. rewrite Hslj, Hsl3. by apply Hdj.
Qed.

(** At most [t] blocks are written. *)
Lemma writei_spec dsw K t l a ino ip i src off Q :
  frel l a → tstate ∅ (6 * t + S K) a → ino !! ip = Some i → i_dev i = 1 → i_type i ≠ T_DEV → inode_range sb i →
  file_ok sb dstart (la_view a) i → 0 <= off <= i_size i → off + Z.of_nat (length src) <= MAXFILE * BSIZE →
  off mod BSIZE + Z.of_nat (length src) <= BSIZE * Z.of_nat t → 
  (i_size i < off + Z.of_nat (length src) → E "balloc: out of blocks") →
  (∀ l' a' i', frel l' a' → tstate ∅ K a' → written sb dstart (la_view a) i (la_view a') i' off src →
     Q (Z.of_nat (length src)) (cpu0 pid) (FState l' sb (<[ip := i']> ino))) →
  wp E (writei dsw ip src off) (cpu0 pid) (FState l sb ino) Q.
Proof.
  intros HL Ht Hi Hdev Htype Hr Hok Ho Hmax Hfit HE HQ. unfold writei.
  apply wp_bind. eapply wp_inodep; [done|]. replace (i_type i =? T_DEV) with false by lia.
  replace (i_size i <? off) with false by lia. rewrite u32_small by (fsizes; lia).
  replace (off + Z.of_nat (length src) <? off) with false by lia. cbn [orb].
  replace (MAXFILE * BSIZE <? off + Z.of_nat (length src)) with false by lia.
  set (n := Z.of_nat (length src)) in *. apply wp_bind.
  pose proof (Z.mod_pos_bound off BSIZE ltac:(done)). pose proof (Z.mod_pos_bound n BSIZE ltac:(done)).
  pose proof (Z.div_mod n BSIZE ltac:(done)). pose proof (Z.div_pos n BSIZE ltac:(lia) ltac:(done)).
  eapply (writei_loop_spec pid st sz E d0 sb dstart nb HY (S K) (t `min` Z.to_nat (n / BSIZE + 2)) _ _ _ _ _ _ _ _ _ HL);
    try done; [eapply tstate_le; [|done]; lia|lia|right; fold n; fsizes; lia|lia| |].
  { intros Hnc. apply HE. destruct (decide (i_size i < off + n)) as [|Hge]; [done|]. destruct Hnc.
    intros k Hk Hm. apply (fo_full _ _ _ _ Hok); [done|]. fold n in Hm. lia. }
  intros l1 a1 i1 HL1 Ht1 Hw. fold n. pose proof (wt_meta _ _ _ _ _ _ _ _ Hw) as Hm.
  assert (<[ip := i1]> ino !! ip = Some i1) as Hi1 by (apply list_lookup_insert_eq; by eapply lookup_lt_Some).
  assert (i_size i1 = i_size i) as Es by (by rewrite Hm).
  apply wp_bind. eapply wp_inodep; [done|]. rewrite Es. apply wp_bind, wp_when; intros Hc.
  - apply andb_true_iff in Hc as [Hc1 Hc2]. apply wp_bind. eapply wp_upd_inode; [done|]. rewrite list_insert_insert_eq.
    pose proof (wt_ok _ _ _ _ _ _ _ _ Hw) as Hok1.
    eapply (iupdate_spec K _ _ _ _ (set_isize (off + n) i1) _ HL1 Ht1).
    + apply list_lookup_insert_eq. by eapply lookup_lt_Some.
    + by rewrite Hm.
    + rewrite Hm. by destruct Hr.
    + apply (fo_addrs _ _ _ _ Hok1).
    + cbn [set_isize i_inum]. assert (i_inum i1 = i_inum i) as -> by (by rewrite Hm).
      intros l2 d Hd Hdl HL2 Ht2. apply wp_ret. apply (HQ l2 _ _ HL2 Ht2).
      apply written_grown; try done; [apply (ts_len _ _ _ _ _ _ _ Ht1)|fold n; lia].
  - apply andb_false_iff in Hc. apply wp_ret. apply (HQ l1 a1 i1 HL1); [eapply tstate_le; [|done]; lia|].
    apply written_inside; try done; [lia|fold n; lia].
Qed.
End writei.
