(* ===== verification/FsFileProps.v ===== *)
(** Reading and writing files: what the disk holds after a write, also when the power
    fails in the middle, and what a read returns. *)
From stdpp Require Import base list numbers strings sets gmap relations.
From Stdlib Require Import ZArith Lia.
From S2P Require Import Prelude Params Machine Spinlock Sleeplock CString Bio BioRing BioSpec.
From S2P Require Import Log LogSpec LogCommit LogRecover LogOps Fs FsBlocks FsProps FsInode FsContent FsWrite.
Local Open Scope Z_scope.
Local Open Scope xv6_scope.

(** On the disk [v], the file of inode [i] is well formed, has the contents [c], and its
    inode is up to date. *)
Record file_holds (sb : superblock) (dstart : Z) (v : list (list Z)) (i : inode) (c : list Z) : Prop := {
  fh_ok : file_ok sb dstart v i;
  fh_content : content v i = c;
  fh_disk : on_disk sb v i;
}.

Section same.
Context {st sz : Z} {nb : nat} {sb : superblock} {dstart : Z} (HY : layout st sz nb sb dstart).

(** The log is no part of the files. *)
Lemma same_data_same v v' : same_data st sz v' v → data_same sb dstart v v'.
Proof.
  intros Hs. pose proof (ly_dstart _ _ _ _ _ HY). pose proof (ly_start _ _ _ _ _ HY). split.
  - intros n Hn. apply Hs; lia.
  - intros n Hn. destruct (BBLOCK_range HY n ltac:(lia)) as (_ & H1 & H2 & H3). unfold used.
    rewrite !list_lookup_total_alt, (Hs (BBLOCK n sb)); [done|lia|lia].
Qed.

Lemma same_data_holds v v' i c :
  same_data st sz v' v → 0 <= i_inum i < sb_ninodes sb → file_holds sb dstart v i c → file_holds sb dstart v' i c.
Proof.
  intros Hs Hi [Hok Hc Hd]. destruct (data_same_file v v' i (same_data_same v v' Hs) Hok) as (Hok' & Hc' & _).
  split; [done|congruence|]. destruct (IBLOCK_range HY _ Hi) as (_ & H1 & H2 & H3). unfold on_disk in *.
  by rewrite list_lookup_total_alt, Hs, <- list_lookup_total_alt by lia.
Qed.
End same.

(** [f] is another file on the disk [img]. *)
Record other_file (sb : superblock) (dstart : Z) (img : list (list Z)) (i f : inode) : Prop := {
  of_inum : 0 <= i_inum f < sb_ninodes sb ∧ i_inum f ≠ i_inum i;
  of_disjoint : disjoint_files img i f;
  of_holds : file_holds sb dstart img f (content img f);
}.

(** The most bytes [filewrite] gives to one call of [writei]. *)
Definition write_chunk : Z := (MAXOPBLOCKS - 1 - 1 - 2) / 2 * BSIZE.

Section write.
Context (pid st sz : Z) (sb : superblock) (dstart : Z) (ino : list inode) (img : list (list Z)).
Context (Himg : log_image img st sz [] []) (HY : layout st sz (length img) sb dstart).
Context (Hmeta : ∀ b, 0 <= b < dstart → used img sb b = true) (Hsz : 25 < sz).

(** The start of a transaction. *)
Lemma txn_start k l d v :
  frel pid st sz d l (LAbs v v ∅ [] 1 0) → same_data st sz v img → length v = length img →
  (k < nbuf)%nat → Z.of_nat k < sz → tstate sz (length img) sb dstart ∅ k (LAbs v v ∅ [] 1 0).
Proof using HY Hmeta.
  intros HL Hs Hlen Hk1 Hk2. pose proof (ly_dstart _ _ _ _ _ HY). split; try done.
  - split; [|done]. cbn. intros b Hb. rewrite (used_same st sz sb dstart img HY v b Hs) by lia. auto.
  - intros n e He. by eapply (frel_block pid st sz d l).
Qed.

(** What a call does to the files that stores [src] in a file in a transaction of its own. *)
Definition stores_post (ip : nat) (i : inode) (src : list Z) (off ret : Z) (r : Z) (c : cpu) (s : fstate) : Prop :=
  r = ret ∧ c = cpu0 pid ∧ ∃ l i' tgt, s = FState l sb (<[ip := i']> ino) ∧
    i_inum i' = i_inum i ∧ file_holds sb dstart tgt i' (splice (Z.to_nat off) src (content img i)) ∧
    (∀ f, other_file sb dstart img i f → file_holds sb dstart tgt f (content img f)) ∧
    same_data st sz (d_img (bs_disk (ls_b l))) tgt ∧ crash_atomic pid st sz img (bs_disk (ls_b l)) tgt.

Lemma store_txn E (m : M fstate Z) ip i src off ret :
  inode_range sb i → file_holds sb dstart img i (content img i) →
  (∀ l d v, frel pid st sz d l (LAbs v v ∅ [] 1 0) → tstate sz (length img) sb dstart ∅ (6 * 4 + 1) (LAbs v v ∅ [] 1 0) →
     file_holds sb dstart v i (content img i) →
     wp E m (cpu0 pid) (FState l sb ino) (λ r c s, r = ret ∧ c = cpu0 pid ∧ ∃ l' a i', s = FState l' sb (<[ip := i']> ino) ∧
       frel pid st sz d l' a ∧ tstate sz (length img) sb dstart ∅ 0 a ∧ written sb dstart v i (la_view a) i' off src)) →
  wp E (fs_txn m) (cpu0 pid) (FState (power_up img) sb ino) (stores_post ip i src off ret).
Proof using Himg HY Hmeta Hsz.
  intros Hr Hh Hm. apply (fs_txn_spec pid st sz sb ino img Himg). intros l d v HL Hs Hlen.
  pose proof (same_data_holds HY img v i _ Hs (ir_inum _ _ Hr) Hh) as Hhv. pose proof Hhv as [Hok Hc Hd].
  assert (tstate sz (length img) sb dstart ∅ (6 * 4 + 1) (LAbs v v ∅ [] 1 0)) as Ht.
  { apply (txn_start (6 * 4 + 1) l d v HL Hs Hlen); [sizes; lia|lia]. }
  eapply wp_mono; [by apply (Hm l d v)|]. cbv beta. intros r c s (-> & -> & l' & a & i' & -> & HL' & Ht' & Hw). split; [done|].
  exists l', (<[ip := i']> ino), a. split; [done|]. split; [done|].
  split; [apply (ts_committing _ _ _ _ _ _ _ Ht')|]. split; [apply (ts_out _ _ _ _ _ _ _ Ht')|].
  split; [apply (ts_held _ _ _ _ _ _ _ Ht')|]. split; [pose proof (ts_room _ _ _ _ _ _ _ Ht') as Hrm; unfold room in Hrm; lia|].
  intros l2 Hs2 Hcr. split; [done|]. split; [done|]. exists l2, i', (la_view a). split; [done|].
  split; [by rewrite (wn_meta _ _ _ _ _ _ _ _ Hw)|]. split.
  { split; [apply (wn_ok _ _ _ _ _ _ _ _ Hw)|rewrite <- Hc; apply (wn_content _ _ _ _ _ _ _ _ Hw)|by apply (wn_disk _ _ _ _ _ _ _ _ Hw)]. }
  split; [|done]. intros f [[Hfi Hfn] Hfd Hfh].
  pose proof (same_data_holds HY img v f _ Hs Hfi Hfh) as [Hfok Hfc Hfdk].
  destruct (data_same_file img v i (same_data_same HY img v Hs) (fh_ok _ _ _ _ _ Hh)) as (_ & _ & Hsi).
  destruct (data_same_file img v f (same_data_same HY img v Hs) (fh_ok _ _ _ _ _ Hfh)) as (_ & _ & Hsf).
  destruct (wn_others _ _ _ _ _ _ _ _ Hw f Hfok) as (Hfok' & Hfc' & _).
  { intros k k' Hk Hk'. rewrite Hsi, Hsf. by apply Hfd. }
  split; [done|congruence|]. by apply (wn_inodes _ _ _ _ _ _ _ _ Hw).
Qed.

(** The same after the transaction, on the disk, and after a crash. *)
Definition stored_safely (run : out fstate Z) (ip : nat) (i : inode) (src : list Z) (off ret : Z) : Prop :=
  let new := splice (Z.to_nat off) src (content img i) in
  ∃ l i' cp, run = Ret ret (cpu0 pid) (FState l sb (<[ip := i']> ino)) ∧
    file_holds sb dstart (d_img (bs_disk (ls_b l))) i' new ∧
    (∀ f, other_file sb dstart img i f → file_holds sb dstart (d_img (bs_disk (ls_b l))) f (content img f)) ∧
    ∀ j img', rtc (failed_boot pid) (apply_writes (take j (d_writes (bs_disk (ls_b l)))) img) img' →
      ∃ s, boot (cpu0 pid) (power_up img') = Ret tt (cpu0 pid) s ∧
        (if decide (j < cp)%nat then file_holds sb dstart (d_img (bs_disk (ls_b s))) i (content img i)
         else file_holds sb dstart (d_img (bs_disk (ls_b s))) i' new) ∧
        ∀ f, other_file sb dstart img i f → file_holds sb dstart (d_img (bs_disk (ls_b s))) f (content img f).

Lemma stores_safely ip i src off ret r c s :
  inode_range sb i → file_holds sb dstart img i (content img i) → stores_post ip i src off ret r c s →
  stored_safely (Ret r c s) ip i src off ret.
Proof using HY.
  intros Hr Hh (-> & -> & l & i' & tgt & -> & Hnum & Hnew & Hoth & Hs & cp & Hcr). pose proof (ir_inum _ _ Hr) as Hin.
  exists l, i', cp. split; [done|]. split; [|split].
  - eapply (same_data_holds HY); [exact Hs|congruence|done].
  - intros f Hf. eapply (same_data_holds HY); [exact Hs|apply (of_inum _ _ _ _ _ Hf)|by apply Hoth].
  - intros j img' Hfail. destruct (Hcr j img' Hfail) as (s & Hb & Hsd). exists s. split; [done|]. split.
    + destruct (decide (j < cp)%nat); (eapply (same_data_holds HY); [exact Hsd|congruence|done]).
    + intros f Hf. eapply (same_data_holds HY); [exact Hsd|apply (of_inum _ _ _ _ _ Hf)|].
      destruct (decide (j < cp)%nat); [apply (of_holds _ _ _ _ _ Hf)|by apply Hoth].
Qed.

(** What a write in a transaction of its own does to the files. *)
Lemma write_txn dsw ip i src off :
  ino !! ip = Some i → i_dev i = 1 → i_type i ≠ T_DEV → inode_range sb i →
  file_holds sb dstart img i (content img i) → 0 <= off <= i_size i →
  off + Z.of_nat (length src) <= MAXFILE * BSIZE → Z.of_nat (length src) <= write_chunk →
  wp (λ msg, i_size i < off + Z.of_nat (length src) ∧ msg = "balloc: out of blocks"%string)
    (fs_txn (writei dsw ip src off)) (cpu0 pid) (FState (power_up img) sb ino) (stores_post ip i src off (Z.of_nat (length src))).
Proof using Himg HY Hmeta Hsz.
  intros Hi Hdev Htype Hr Hh Ho Hmax Hchunk. apply store_txn; [done|done|]. intros l d v HL Ht [Hok Hc Hd].
  eapply (writei_spec pid st sz _ d sb dstart (length img) HY dsw 0 4 _ _ _ _ _ _ _ _ HL Ht); try done.
  { pose proof (Z.mod_pos_bound off BSIZE ltac:(done)). change write_chunk with 1536 in Hchunk. fsizes. lia. }
  cbn [la_view]. intros l' a i' HL' Ht' Hw. split; [done|]. split; [done|]. by exists l', a, i'.
Qed.
End write.

(** C2: Writing a file is atomic.  Boot a disk with an empty log, on which [i] is a file,
    and call [writei], in a transaction, with at most the bytes [filewrite] gives it at
    a time.  If the disk runs out of blocks while the file grows the kernel panics.
    Otherwise the call returns the number of bytes, and the disk has the file with the
    bytes [src] stored at [off] and its inode up to date, and every other file as it was.
    Cut the power after any number [j] of the block writes, and in any number of
    recoveries: the next boot returns and the disk has the file as it was when [j] is
    below the commit point, and as it should be from there on; every other file is as
    it was. *)
Theorem write_crash_safe pid st sz sb dstart ino img dsw ip i src off :
  log_image img st sz [] [] → layout st sz (length img) sb dstart →
  (∀ b, 0 <= b < dstart → used img sb b = true) → 25 < sz →
  ino !! ip = Some i → i_dev i = 1 → i_type i ≠ T_DEV → inode_range sb i →
  file_holds sb dstart img i (content img i) → 0 <= off <= i_size i →
  off + Z.of_nat (length src) <= MAXFILE * BSIZE → Z.of_nat (length src) <= write_chunk →
  let run := fs_txn (writei dsw ip src off) (cpu0 pid) (FState (power_up img) sb ino) in
  let new := splice (Z.to_nat off) src (content img i) in
  (i_size i < off + Z.of_nat (length src) ∧ run = Panic "balloc: out of blocks") ∨
  ∃ l i' cp, run = Ret (Z.of_nat (length src)) (cpu0 pid) (FState l sb (<[ip := i']> ino)) ∧
    file_holds sb dstart (d_img (bs_disk (ls_b l))) i' new ∧
    (∀ f, other_file sb dstart img i f → file_holds sb dstart (d_img (bs_disk (ls_b l))) f (content img f)) ∧
    ∀ j img', rtc (failed_boot pid) (apply_writes (take j (d_writes (bs_disk (ls_b l)))) img) img' →
      ∃ s, boot (cpu0 pid) (power_up img') = Ret tt (cpu0 pid) s ∧
        (if decide (j < cp)%nat then file_holds sb dstart (d_img (bs_disk (ls_b s))) i (content img i)
         else file_holds sb dstart (d_img (bs_disk (ls_b s))) i' new) ∧
        ∀ f, other_file sb dstart img i f → file_holds sb dstart (d_img (bs_disk (ls_b s))) f (content img f).
Proof.
  intros Himg HY Hmeta Hsz Hi Hdev Htype Hr Hh Ho Hmax Hchunk run new.
  pose proof (write_txn pid st sz sb dstart ino img Himg HY Hmeta Hsz dsw ip i src off Hi Hdev Htype Hr Hh Ho Hmax Hchunk) as Hwp.
  apply wp_eq in Hwp as [(r & c & s & Heq & Hpost)|(msg & Heq & Hlt & ->)]; [right|left; split; [exact Hlt|exact Heq]].
  pose proof (stores_safely pid st sz sb dstart ino img HY ip i src off (Z.of_nat (length src)) r c s Hr Hh Hpost) as Hsafe.
  unfold run. rewrite Heq. exact Hsafe.
Qed.

(** * Reading back *)

(** The cache entry [x] of inode [i], locked and read from the disk. *)
Definition loaded (pid : Z) (x i : inode) : inode :=
  Inode (i_dev x) (i_inum x) (i_ref x) (SleepLock true pid) true (i_type i) (i_major i) (i_minor i)
    (i_nlink i) (i_size i) (i_addrs i).

Section ilock.
Context (pid st sz : Z) (E : string → Prop) (d0 : disk) (sb : superblock) (dstart : Z) (nb : nat).
Context (HY : layout st sz nb sb dstart).
Notation frel := (frel pid st sz d0).

(** [ilock] of an entry that has not been read yet. *)
Lemma ilock_load l a ino ip x i Q :
  frel l a → la_held a = ∅ → (length (la_bs a) < nbuf)%nat → length (la_view a) = nb →
  ino !! ip = Some x → 1 <= i_ref x → i_dev x = 1 → sl_locked (i_lock x) = false → i_valid x = false →
  0 <= i_inum x < sb_ninodes sb → i_inum x = i_inum i → on_disk sb (la_view a) i → i_type i ≠ 0 →
  (∀ l', frel l' a → Q tt (cpu0 pid) (FState l' sb (<[ip := loaded pid x i]> ino))) →
  wp E (ilock (Some ip)) (cpu0 pid) (FState l sb ino) Q.
Proof.
  intros HL Hh Hb Hnb Hi Href Hdev Hlk Hval Hnum Heq Hdisk Htype HQ.
  destruct (IBLOCK_range HY _ Hnum) as (_ & H1 & H2 & H3). pose proof (ly_start _ _ _ _ _ HY).
  destruct (lookup_lt_is_Some_2 (la_view a) (Z.to_nat (IBLOCK (i_inum x) sb))) as [d Hd]; [lia|].
  unfold on_disk in Hdisk. rewrite <- Heq, (list_lookup_total_correct _ _ _ Hd) in Hdisk.
  apply lookup_lt_Some in Hi as Hlt. unfold ilock.
  apply wp_bind. eapply wp_inodep; [done|]. apply wp_bind, wp_when; [lia|intros _].
  apply wp_bind. eapply eq_wp; [apply (acquiresleep_free (LkInode ip) (ChInode ip) (ino_getl ip) (ino_putl ip))|].
  { unfold ino_getl. cbn [fs_inode]. by rewrite (list_lookup_total_correct _ _ _ Hi). }
  unfold ino_putl. cbn [fs_l fs_sb fs_inode]. rewrite (alter_insert _ _ _ _ Hi).
  apply wp_bind. eapply wp_inodep; [by apply list_lookup_insert_eq|].
  cbn [set_ilock i_valid i_dev i_inum]. rewrite Hval, Hdev. apply wp_when; [intros _|done].
  apply wp_bind, wp_gets. cbn [fs_sb].
  eapply (f_read pid st sz E d0 sb _ _ _ _ d _ _ HL); [done|done|lia|done|]. intros l1 b HL1 Hb1.
  rewrite Hdisk. cbn zeta.
  do 6 (apply wp_bind; eapply wp_upd_inode; [by apply list_lookup_insert_eq; rewrite ?length_insert|]; rewrite list_insert_insert_eq).
  apply wp_bind. eapply (f_release pid st sz E d0 sb _ a); [done|done|]. intros l2 HL2.
  apply wp_bind. eapply wp_upd_inode; [by apply list_lookup_insert_eq; rewrite ?length_insert|]. rewrite list_insert_insert_eq.
  apply wp_when; [cbn; lia|intros _]. by apply HQ.
Qed.
End ilock.

(** [ilock] and [readi] after a boot. *)
Lemma boot_read pid st sz sb dstart ino img dsw ip x i c off n :
  log_image img st sz [] [] → layout st sz (length img) sb dstart →
  ino !! ip = Some x → 1 <= i_ref x → i_dev x = 1 → sl_locked (i_lock x) = false → i_valid x = false →
  0 <= i_inum x < sb_ninodes sb → i_inum x = i_inum i → i_type i ≠ 0 → i_type i ≠ T_DEV →
  file_holds sb dstart img i c → 0 <= off → 0 <= n →
  let res := if Z.of_nat (length c) <? off then (-1, []) else if u32 (off + n) <? off then (-1, [])
             else (Z.min n (Z.of_nat (length c) - off), take (Z.to_nat n) (drop (Z.to_nat off) c)) in
  ∃ l, (lg boot ;; ilock (Some ip) ;; readi dsw ip off n) (cpu0 pid) (FState (power_up img) sb ino) =
         Ret res (cpu0 pid) (FState l sb (<[ip := loaded pid x i]> ino)) ∧
       same_data st sz (d_img (bs_disk (ls_b l))) img.
Proof.
  intros Himg HY Hi Href Hdev Hlk Hval Hnum Heq Htype Hdt Hh Ho Hn res.
  pose proof (fo_size _ _ _ _ (fh_ok _ _ _ _ _ Hh)) as Hsz.
  assert (read_result img i off n = res) as Hres.
  { unfold read_result, res. rewrite <- (fh_content _ _ _ _ _ Hh), length_content, Z2Nat.id by lia.
    repeat case_match; try done. f_equal. unfold slice.
    destruct (decide (n <= i_size i - off)) as [Hle|Hgt]; [by replace (Z.min _ _) with n by lia|].
    rewrite !take_ge; [done|..]; rewrite length_drop, length_content; lia. }
  assert (runs (lg boot ;; ilock (Some ip) ;; readi dsw ip off n) (cpu0 pid) (FState (power_up img) sb ino)
    (λ r k s, r = res ∧ k = cpu0 pid ∧ ∃ l, s = FState l sb (<[ip := loaded pid x i]> ino) ∧
       same_data st sz (d_img (bs_disk (ls_b l))) img)) as Hrun.
  { apply wp_bind, wp_lift. cbn [fs_l fs_sb fs_inode]. eapply boot_lrel; [exact Himg|].
    intros l1 v rw HL1 Hd1 Hv _ Hsame Hlen. cbn in Hsame.
    pose proof (same_data_holds HY img v i _ Hsame ltac:(lia) Hh) as [Hok Hc Hd].
    set (a := LAbs v v ∅ [] 0 0).
    assert (frel pid st sz (bs_disk (ls_b l1)) l1 a) as HF by done.
    apply wp_bind. eapply (ilock_load pid st sz _ _ sb dstart (length img) HY _ _ _ _ _ i _ HF); try done.
    { cbn. sizes. lia. }
    intros l2 HF2. eapply (readi_spec pid st sz _ _ sb dstart (length img) HY dsw _ _ _ _ (loaded pid x i) _ _ _ HF2); try done.
    { cbn. sizes. lia. }
    { apply list_lookup_insert_eq. by eapply lookup_lt_Some. }
    { by destruct Hok. }
    intros l3 [HL3 Hd3]. split; [|split; [done|]].
    - rewrite <- Hres. unfold read_result. cbn [loaded i_size]. 
      change (content (la_view a) (loaded pid x i)) with (content v i). by rewrite Hc, (fh_content _ _ _ _ _ Hh).
    - exists l3. split; [done|]. rewrite Hd3, Hd1. cbn. by rewrite <- Hv. }
  apply runs_eq in Hrun as (r & k & s & Heqr & -> & -> & l & -> & Hsd). exists l. split; [exact Heqr|exact Hsd].
Qed.

(** C17: What is on the disk is what a read returns.  Boot a disk with an empty log that has
    the file [i], lock its inode, whose cache entry [x] has not been read yet, and read
    [n] bytes at [off]: the call returns the bytes of the contents from [off] on, at most
    [n] and no more than there are, or -1 if [off] is behind the end of the file or
    [off + n] overflows; and the disk has not changed. *)
Theorem read_returns pid st sz sb dstart ino img dsw ip x i c off n :
  log_image img st sz [] [] → layout st sz (length img) sb dstart →
  ino !! ip = Some x → 1 <= i_ref x → i_dev x = 1 → sl_locked (i_lock x) = false → i_valid x = false →
  0 <= i_inum x < sb_ninodes sb → i_inum x = i_inum i → i_type i ≠ 0 → i_type i ≠ T_DEV →
  file_holds sb dstart img i c → 0 <= off → 0 <= n →
  let res := if Z.of_nat (length c) <? off then (-1, []) else if u32 (off + n) <? off then (-1, [])
             else (Z.min n (Z.of_nat (length c) - off), take (Z.to_nat n) (drop (Z.to_nat off) c)) in
  ∃ l, (lg boot ;; ilock (Some ip) ;; readi dsw ip off n) (cpu0 pid) (FState (power_up img) sb ino) =
         Ret res (cpu0 pid) (FState l sb (<[ip := loaded pid x i]> ino)) ∧
       same_data st sz (d_img (bs_disk (ls_b l))) img.
Proof. apply boot_read. Qed.

(** * A file system with one file *)

(** 40 blocks: the log in blocks 2 to 31, the inodes in block 32, the free map in block
    33, and data blocks; the file has 700 bytes in blocks 34 and 35. *)
Definition one_file : inode :=
  Inode 1 1 1 initsleeplock true T_FILE 0 0 1 700 (34 :: 35 :: replicate 11 0).
Definition one_image : list (list Z) :=
  <[35%nat := replicate bsize 66]> (<[34%nat := replicate bsize 65]>
    (<[33%nat := [255; 255; 255; 255; 15] ++ replicate (bsize - 5) 0]>
      (<[32%nat := wr_dinode (dino_off 1) (to_dinode one_file) (replicate bsize 0)]>
        (<[1%nat := wr 4 12 30 (wr 4 16 2 (replicate bsize 0))]> (replicate 40 (replicate bsize 0)))))).
Definition one_super : superblock := Superblock 40 6 8 30 2 32 33.
(** The file's entry in the inode cache, not read yet. *)
Definition one_entry : inode := Inode 1 1 1 initsleeplock false 0 0 0 0 0 [].

Lemma one_log_image : log_image one_image 2 30 [] [].
Proof.
  split; try done; try (cbn; sizes; lia).
  - apply (bool_decide_unpack _). vm_compute. exact I.
  - eexists. split; [reflexivity|]. split; vm_compute; reflexivity.
  - eexists. split; [reflexivity|]. split; [vm_compute; reflexivity|done].
  - set_solver.
Qed.
Lemma one_layout : layout 2 30 (length one_image) one_super 34.
Proof.
  change (length one_image) with 40%nat. split; cbn; try lia.
  - split; [lia|]. split; [lia|]. intros b Hb. rewrite Z.div_small; [lia|]. unfold BPB, BSIZE. lia.
  - split; [lia|]. split; [lia|]. intros i Hi. rewrite Z.div_small; [lia|]. change IPB with 8. lia.
Qed.
Lemma one_used b : 0 <= b < 36 → used one_image one_super b = true.
Proof.
  intros Hb. assert (forallb (λ k, used one_image one_super (Z.of_nat k)) (seq 0 36) = true) as H by (vm_compute; reflexivity).
  rewrite forallb_forall in H. specialize (H (Z.to_nat b)). rewrite Z2Nat.id in H by lia. apply H, in_seq. lia.
Qed.
Lemma one_slot k :
  (k <= maxfile)%nat → islot one_image one_file k = match k with 0%nat => 34 | 1%nat => 35 | _ => 0 end.
Proof.
  intros Hk. assert (forallb (λ k, islot one_image one_file k =? match k with 0%nat => 34 | 1%nat => 35 | _ => 0 end) (seq 0 141) = true) as H
    by (vm_compute; reflexivity).
  rewrite forallb_forall in H. apply Z.eqb_eq, H, in_seq. fsizes. lia.
Qed.
Lemma one_holds : file_holds one_super 34 one_image one_file (content one_image one_file).
Proof.
  split; [|done|vm_compute; reflexivity]. split; [done|cbn; fsizes; lia|..].
  - intros k Hk. rewrite one_slot by done. intros Hs. rewrite one_used; [|destruct k as [|[|k]]; lia]. cbn. destruct k as [|[|k]]; lia.
  - intros k k' Hk Hk' Hne. rewrite !one_slot by done. destruct k as [|[|k]], k' as [|[|k']]; done.
  - intros k Hk Hm. rewrite one_slot by lia. cbn in Hm. fsizes. destruct k as [|[|k]]; lia.
Qed.
Lemma one_range : inode_range one_super one_file.
Proof. split; split; vm_compute; first [reflexivity|discriminate]. Qed.

Lemma write_crash_safe_witness :
  ∃ l i', fs_txn (writei (Devsw (λ _, None) (λ _, None)) 0 [1; 2; 3] 600) (cpu0 1) (FState (power_up one_image) one_super [one_file]) =
      Ret 3 (cpu0 1) (FState l one_super [i']) ∧
    file_holds one_super 34 (d_img (bs_disk (ls_b l))) i' (splice 600 [1; 2; 3] (content one_image one_file)).
Proof.
  destruct (write_crash_safe 1 2 30 one_super 34 [one_file] one_image (Devsw (λ _, None) (λ _, None)) 0 one_file [1; 2; 3] 600
    one_log_image one_layout) as [[Hlt _]|(l & i' & cp & Heq & Hh & _)];
    [intros b Hb; apply one_used; lia|lia|reflexivity|reflexivity|done|exact one_range|exact one_holds|cbn; lia
    |cbn; fsizes; lia|change write_chunk with 1536; cbn; lia|cbn in Hlt; lia|].
  exists l, i'. split; [exact Heq|exact Hh].
Defined.
Lemma read_returns_witness :
  ∃ l, (lg boot ;; ilock (Some 0%nat) ;; readi (Devsw (λ _, None) (λ _, None)) 0 510 4) (cpu0 1) (FState (power_up one_image) one_super [one_entry]) =
      Ret (4, [65; 65; 66; 66]) (cpu0 1) (FState l one_super [loaded 1 one_entry one_file]).
Proof.
  destruct (read_returns 1 2 30 one_super 34 [one_entry] one_image (Devsw (λ _, None) (λ _, None)) 0 one_entry one_file
    (content one_image one_file) 510 4 one_log_image one_layout) as (l & Heq & _);
    [reflexivity|cbn; lia|reflexivity|reflexivity|reflexivity|cbn; lia|reflexivity|done|done|exact one_holds|lia|lia|].
  exists l. 
  assert ((if Z.of_nat (length (content one_image one_file)) <? 510 then (-1, []) else if u32 (510 + 4) <? 510 then (-1, [])
     else (Z.min 4 (Z.of_nat (length (content one_image one_file)) - 510), take (Z.to_nat 4) (drop (Z.to_nat 510) (content one_image one_file)))) =
     (4, [65; 65; 66; 66])) as <- by (vm_compute; reflexivity).
  exact Heq.
Defined.
