(* ===== verification/FsTrunc.v ===== *)
(** Discarding a file: [itrunc] frees the blocks of an inode, and [iput] of the last
    reference to an inode without links frees the inode as well, in one transaction. *)
From stdpp Require Import base list numbers strings sets gmap relations.
From Stdlib Require Import ZArith Lia.
From S2P Require Import Prelude Params Machine Spinlock Sleeplock CString Bio BioRing BioSpec.
From S2P Require Import Log LogSpec LogCommit LogRecover LogOps Fs FsBlocks FsProps FsInode FsContent FsWrite FsFileProps.
Local Open Scope Z_scope.
Local Open Scope xv6_scope.

Lemma wp_assoc {S A} E (m : M S unit) (k : M S A) (mk : M S A) c s Q :
  (∀ c s, mk c s = (m ;; k) c s) → wp E (m ;; k) c s Q → wp E mk c s Q.
Proof. intros H. unfold wp. by rewrite H. Qed.

(** * The blocks of a file *)

(** The blocks in the first [k] slots of an inode, in the order [itrunc] frees them. *)
Definition fblocks (v : list (list Z)) (i : inode) (k : nat) : list Z :=
  filter (λ b, b ≠ 0) (islot v i <$> seq 0 k).

Lemma fblocks_S v i k :
  fblocks v i (S k) = fblocks v i k ++ if decide (islot v i k = 0) then [] else [islot v i k].
Proof.
  unfold fblocks. rewrite seq_S, fmap_app, filter_app. f_equal. cbn [fmap list_fmap Nat.add].
  case_decide as E; [rewrite filter_cons_False by tauto|rewrite filter_cons_True by done]; done.
Qed.

Lemma fblocks_elem v i k b : b ∈ fblocks v i k ↔ b ≠ 0 ∧ ∃ j, (j < k)%nat ∧ islot v i j = b.
Proof.
  unfold fblocks. rewrite list_elem_of_filter, list_elem_of_fmap. split.
  - intros (Hb & j & -> & Hj). split; [done|]. exists j. apply elem_of_seq in Hj. split; [lia|done].
  - intros (Hb & j & Hj & <-). split; [done|]. exists j. split; [done|]. apply elem_of_seq. lia.
Qed.

(** * Freeing blocks *)

(** From [v] to [v'] the blocks [F] have been freed, and only the free map has changed. *)
Record freed (sb : superblock) (dstart : Z) (F : list Z) (v v' : list (list Z)) : Prop := {
  fd_used : ∀ b, 0 <= b < sb_size sb → used v' sb b = negb (bool_decide (b ∈ F)) && used v sb b;
  fd_front : ∀ n, 0 <= n < sb_bmapstart sb → v' !! Z.to_nat n = v !! Z.to_nat n;
  fd_data : ∀ n, dstart <= n < sb_size sb → v' !! Z.to_nat n = v !! Z.to_nat n;
}.

Lemma freed_nil sb dstart v : freed sb dstart [] v v.
Proof. done. Qed.

Lemma freed_app sb dstart F G v v1 v2 :
  freed sb dstart F v v1 → freed sb dstart G v1 v2 → freed sb dstart (F ++ G) v v2.
Proof.
  intros [U1 F1 D1] [U2 F2 D2]. split.
  - intros b Hb. rewrite U2, U1 by done. rewrite (bool_decide_ext (b ∈ F ++ G) (b ∈ F ∨ b ∈ G)) by apply elem_of_app.
    rewrite bool_decide_or. by destruct (bool_decide (b ∈ F)), (bool_decide (b ∈ G)).
  - intros n Hn. by rewrite F2, F1.
  - intros n Hn. by rewrite D2, D1.
Qed.

(** A state in the middle of [itrunc]: the process holds the buffers [H], and the blocks
    in the transaction are blocks of the free map, of which the disk has at most [m]. *)
Record fstage (nb : nat) (sb : superblock) (dstart m : Z) (H : gmap nat (Z * bool)) (a : labs) : Prop := {
  sg_alloc : alloc_ok sb dstart a;
  sg_len : length (la_view a) = nb;
  sg_block : ∀ n d, la_view a !! n = Some d → length d = bsize;
  sg_held : la_held a = H;
  sg_nodup : NoDup (la_bs a);
  sg_maps : ∀ n, n ∈ la_bs a → sb_bmapstart sb <= n < sb_bmapstart sb + m;
  sg_out : la_out a = 1;
  sg_committing : la_committing a = 0;
}.

Section free.
Context (pid st sz : Z) (E : string → Prop) (d0 : disk) (sb : superblock) (dstart m : Z) (nb : nat).
Context (HY : layout st sz nb sb dstart).
Context (Hm : sb_size sb <= BPB * m) (Hmsz : m + 4 < sz) (Hmbuf : m + 4 < Z.of_nat nbuf).
Notation frel := (frel pid st sz d0).
Notation fstage := (fstage nb sb dstart m).
Notation freed := (freed sb dstart).
Notation file_ok := (file_ok sb dstart).

Lemma fstage_length H a : fstage H a → Z.of_nat (length (la_bs a)) <= m.
Proof using HY Hm Hmsz Hmbuf.
  intros Hs. pose proof (ly_size _ _ _ _ _ HY). assert (0 <= m) by (unfold BPB, BSIZE in Hm; lia).
  assert (la_bs a ⊆+ seqZ (sb_bmapstart sb) m) as Hsub.
  { apply NoDup_submseteq; [apply (sg_nodup _ _ _ _ _ _ Hs)|]. intros n Hn%(sg_maps _ _ _ _ _ _ Hs). apply elem_of_seqZ. lia. }
  apply submseteq_length in Hsub. rewrite length_seqZ in Hsub. lia.
Qed.

Lemma fstage_room H a : fstage H a → (size H <= 1)%nat → room (4 - size H) sz a.
Proof using HY Hm Hmsz Hmbuf.
  intros Hs Hh. pose proof (fstage_length H a Hs). unfold room.
  rewrite (sg_held _ _ _ _ _ _ Hs), (sg_out _ _ _ _ _ _ Hs). split; [lia|]. split; [|lia].
  destruct (size H) as [|[|]]; lia.
Qed.

Lemma fstage_tstate a : fstage ∅ a → tstate sz nb sb dstart ∅ 4 a.
Proof using HY Hm Hmsz Hmbuf.
  intros Hs. pose proof (fstage_room ∅ a Hs) as Hr. rewrite map_size_empty in Hr. destruct Hs. split; try done. apply Hr. lia.
Qed.

Lemma fstage_free H a b :
  fstage H a → dstart <= b < sb_size sb → la_unheld a b → fstage H (la_free sb b a) ∧ freed [b] (la_view a) (la_view (la_free sb b a)).
Proof using HY Hm Hmsz Hmbuf.
  intros Hs Hb Hun. pose proof (ly_dstart _ _ _ _ _ HY). pose proof (ly_start _ _ _ _ _ HY).
  destruct (BBLOCK_range HY b ltac:(lia)) as (Eb & Hb1 & Hb2 & Hb3).
  assert (0 <= b / BPB < m) by (split; [apply Z.div_pos; [lia|done]|apply Z.div_lt_upper_bound; [done|lia]]).
  destruct Hs as [Hao Hlen Hblk Hheld Hnd Hmaps Ho Hc]. split; split; try done.
  - by apply (alloc_ok_free HY).
  - cbn [la_free la_write la_view]. by rewrite length_insert.
  - cbn [la_free la_write la_view]. intros j e [(<- & <- & _)|[_ He]]%list_lookup_insert_Some; [|by eapply Hblk].
    rewrite map_clear_length. apply (map_block HY a Hlen Hblk). lia.
  - by apply absorb_nodup.
  - intros n [->|Hn]%absorb_elem; [lia|by apply Hmaps].
  - intros b' Hb'. rewrite (used_free HY a Hlen Hblk) by lia.
    case_decide as D; [subst b'; rewrite bool_decide_eq_true_2; [done|set_solver]|].
    rewrite bool_decide_eq_false_2; [done|set_solver].
  - intros n Hn. cbn [la_free la_write la_view]. apply list_lookup_insert_ne. lia.
  - intros n Hn. apply (free_data HY a); lia.
Qed.

(** Freeing the block in slot [k], when the slots below are free already. *)
Lemma free_slot H v i k l a ino Q :
  frel l a → fstage H a → (size H <= 1)%nat → file_ok v i → freed (fblocks v i k) v (la_view a) → (k <= maxfile)%nat →
  islot v i k ≠ 0 → la_unheld a (islot v i k) →
  (∀ l' a', frel l' a' → fstage H a' → freed (fblocks v i (S k)) v (la_view a') →
     Q tt (cpu0 pid) (FState l' sb ino)) →
  wp E (bfree 1 (islot v i k)) (cpu0 pid) (FState l sb ino) Q.
Proof using HY Hm Hmsz Hmbuf.
  intros HL Hs Hh Hok Hfr Hk Hnz Hun HQ. pose proof (ly_dstart _ _ _ _ _ HY). pose proof (ly_start _ _ _ _ _ HY).
  destruct (fo_slot _ _ _ _ Hok k Hk Hnz) as [Hr Hu].
  eapply (bfree_spec pid st sz E d0 sb ino dstart nb HY _ _ _ _ HL);
    [apply Hs|apply Hs|eapply room_le; [|by apply (fstage_room H)]; lia|lia|].
  assert (used (la_view a) sb (islot v i k) = true) as ->.
  { rewrite (fd_used _ _ _ _ _ Hfr), Hu, bool_decide_eq_false_2; [done| |lia].
    rewrite fblocks_elem. intros (_ & j & Hj & Heq). by apply (fo_inj _ _ _ _ Hok k j); try lia. }
  intros l' HL'. destruct (fstage_free H a (islot v i k) Hs Hr Hun) as [Hs' Hfr'].
  apply (HQ _ _ HL' Hs'). rewrite fblocks_S, decide_False by done. by eapply freed_app.
Qed.

(** * The loop over the direct blocks *)

Definition cleared (k : nat) (i : inode) : inode := set_addrs (replicate k 0 ++ drop k (i_addrs i)) i.

Lemma cleared_addr i k : (k < length (i_addrs i))%nat → i_addrs (cleared k i) !! k = Some (i_addrs i !!! k).
Proof.
  intros Hk. cbn [cleared set_addrs i_addrs]. rewrite lookup_app_r by (rewrite length_replicate; lia).
  rewrite length_replicate, Nat.sub_diag, lookup_drop, Nat.add_0_r. by apply list_lookup_lookup_total_lt.
Qed.
Lemma cleared_S i k :
  (k < length (i_addrs i))%nat →
  set_addrs (<[k := 0]> (i_addrs (cleared k i))) (cleared k i) = cleared (S k) i.
Proof.
  intros Hk. cbn [cleared set_addrs i_addrs]. unfold set_addrs. cbn. f_equal.
  rewrite insert_app_r_alt by (rewrite length_replicate; lia). rewrite length_replicate, Nat.sub_diag.
  destruct (lookup_lt_is_Some_2 (i_addrs i) k Hk) as [x Hx]. rewrite (drop_S _ _ _ Hx). cbn [insert list_insert].
  rewrite cons_middle, app_assoc. f_equal. by rewrite <- replicate_S_end.
Qed.
Lemma cleared_zero i k :
  (k < length (i_addrs i))%nat → i_addrs i !!! k = 0 → cleared k i = cleared (S k) i.
Proof.
  intros Hk Hz. rewrite <- cleared_S by done.
  assert (<[k := 0]> (i_addrs (cleared k i)) = i_addrs (cleared k i)) as ->
    by (apply list_insert_id; rewrite cleared_addr by done; by f_equal).
  done.
Qed.
Lemma cleared_0 i : cleared 0 i = i.
Proof. by destruct i. Qed.

Lemma direct_loop v i l a ino ip Q :
  frel l a → fstage ∅ a → file_ok v i → freed [] v (la_view a) → ino !! ip = Some i → i_dev i = 1 →
  (∀ l' a', frel l' a' → fstage ∅ a' → freed (fblocks v i ndirect) v (la_view a') →
     Q tt (cpu0 pid) (FState l' sb (<[ip := cleared ndirect i]> ino))) →
  wp E (for_each (seq 0 ndirect) (λ k,
    i <- inodep ip ;;
    a <- deref (i_addrs i !! k) ;;
    when (negb (a =? 0))
      (bfree (i_dev i) a ;;
       upd_inode ip (λ i, set_addrs (<[k := 0]> (i_addrs i)) i)))) (cpu0 pid) (FState l sb ino) Q.
Proof using HY Hm Hmsz Hmbuf.
  intros HL Hs Hok Hfr Hi Hdev HQ. pose proof (fo_addrs _ _ _ _ Hok) as Hlen. apply lookup_lt_Some in Hi as Hlt.
  apply (wp_for_each _ _ _ (λ done s, ∃ l a, s = FState l sb (<[ip := cleared (length done) i]> ino) ∧ frel l a ∧
    fstage ∅ a ∧ freed (fblocks v i (length done)) v (la_view a))).
  - exists l, a. cbn [length]. rewrite cleared_0, list_insert_id by done. done.
  - intros done k rest s Hseq (l1 & a1 & -> & HL1 & Hs1 & Hfr1).
    assert (k = length done) as ->.
    { assert (seq 0 ndirect !! length done = Some k) as Hx by (rewrite Hseq, lookup_app_r, Nat.sub_diag by lia; done).
      apply lookup_seq in Hx as [-> _]. lia. }
    assert (length done < ndirect)%nat as Hk.
    { apply (f_equal length) in Hseq. rewrite length_seq, length_app in Hseq. cbn [length] in Hseq. lia. }
    rewrite length_app. cbn [length]. rewrite Nat.add_1_r. set (k := length done) in *. 
    assert (islot v i k = i_addrs i !!! k) as Esl by (unfold islot; by rewrite decide_True).
    apply wp_bind. eapply wp_inodep; [by apply list_lookup_insert_eq|]. apply wp_bind.
    eapply wp_deref; [apply cleared_addr; lia|]. change (i_dev (cleared k i)) with (i_dev i). rewrite Hdev, <- Esl.
    apply wp_when; intros Hz.
    + apply wp_bind. eapply (free_slot ∅ v i k _ _ _ _ HL1 Hs1); try done.
      { rewrite map_size_empty. lia. }
      { fsizes. lia. }
      { lia. }
      { intros j x. by rewrite (sg_held _ _ _ _ _ _ Hs1). }
      intros l2 a2 HL2 Hs2 Hfr2. eapply wp_upd_inode; [by apply list_lookup_insert_eq|].
      rewrite list_insert_insert_eq, cleared_S by lia. split; [done|]. by exists l2, a2.
    + split; [done|]. exists l1, a1. assert (islot v i k = 0) as E0 by lia.
      rewrite <- cleared_zero by (try lia; congruence). rewrite fblocks_S, decide_True, app_nil_r by done. done.
  - intros s (l1 & a1 & -> & HL1 & Hs1 & Hfr1). rewrite length_seq in *. by apply (HQ _ a1).
Qed.

(** * The loop over the indirect block *)

Lemma islot_indirect v i j d :
  (j < nindirect)%nat → iind i ≠ 0 → v !! Z.to_nat (iind i) = Some d → islot v i (ndirect + j) = rd 4 (4 * j) d.
Proof.
  intros Hj Hi Hd. unfold islot. rewrite !decide_False by (try done; fsizes; lia).
  rewrite (list_lookup_total_correct _ _ _ Hd). f_equal. lia.
Qed.

Lemma indirect_loop v i b d l a ino Q :
  frel l a → fstage {[b := (iind i, false)]} a → file_ok v i → iind i ≠ 0 → v !! Z.to_nat (iind i) = Some d →
  freed (fblocks v i ndirect) v (la_view a) →
  (∀ l' a', frel l' a' → fstage {[b := (iind i, false)]} a' → freed (fblocks v i maxfile) v (la_view a') →
     Q tt (cpu0 pid) (FState l' sb ino)) →
  wp E (for_each (seq 0 nindirect) (λ j,
       a <- lg (bio (bdata b)) ;;
       when (negb (rd 4 (4 * j) a =? 0)) (bfree 1 (rd 4 (4 * j) a)))) (cpu0 pid) (FState l sb ino) Q.
Proof using HY Hm Hmsz Hmbuf.
  intros HL Hs Hok Hind Hd Hfr HQ. destruct (fo_slot _ _ _ _ Hok maxfile (le_n _) Hind) as [Hr _]. rewrite islot_ind in Hr.
  apply (wp_for_each _ _ _ (λ done s, ∃ l a, s = FState l sb ino ∧ frel l a ∧
    fstage {[b := (iind i, false)]} a ∧ freed (fblocks v i (ndirect + length done)) v (la_view a))).
  - exists l, a. cbn [length]. by rewrite Nat.add_0_r.
  - intros done j rest s Hseq (l1 & a1 & -> & HL1 & Hs1 & Hfr1).
    assert (j = length done) as ->.
    { assert (seq 0 nindirect !! length done = Some j) as Hx by (rewrite Hseq, lookup_app_r, Nat.sub_diag by lia; done).
      apply lookup_seq in Hx as [-> _]. lia. }
    assert (length done < nindirect)%nat as Hk.
    { apply (f_equal length) in Hseq. rewrite length_seq, length_app in Hseq. cbn [length] in Hseq. lia. }
    rewrite length_app. cbn [length]. rewrite Nat.add_1_r, Nat.add_succ_r. set (j := length done) in *. 
    apply wp_bind. eapply (f_bdata pid st sz E d0 sb ino _ _ b (iind i) false d _ HL1).
    { rewrite (sg_held _ _ _ _ _ _ Hs1). apply lookup_singleton_eq. }
    { rewrite (fd_data _ _ _ _ _ Hfr1) by done. done. }
    rewrite <- (islot_indirect v i j d) by done. apply wp_when; intros Hz.
    + eapply (free_slot _ v i (ndirect + j) _ _ _ _ HL1 Hs1); try done.
      { rewrite map_size_singleton. lia. }
      { fsizes. lia. }
      { lia. }
      { intros x y. rewrite (sg_held _ _ _ _ _ _ Hs1). intros [_ Heq]%lookup_singleton_Some. injection Heq as Heq _.
        revert Heq. rewrite <- (islot_ind v i). apply (fo_inj _ _ _ _ Hok maxfile (ndirect + j)); first [exact Hind|fsizes; lia]. }
      intros l2 a2 HL2 Hs2 Hfr2. split; [done|]. by exists l2, a2.
    + split; [done|]. exists l1, a1. rewrite fblocks_S, decide_True, app_nil_r by lia. done.
  - intros s (l1 & a1 & -> & HL1 & Hs1 & Hfr1). rewrite length_seq in *. by apply (HQ _ a1).
Qed.

(** Without an indirect block there are no more blocks. *)
Lemma fblocks_direct v i : iind i = 0 → fblocks v i (S maxfile) = fblocks v i ndirect.
Proof.
  intros Hi. change (S maxfile) with (ndirect + S nindirect)%nat. generalize (S nindirect). intros n.
  assert (∀ k, (ndirect <= k)%nat → islot v i k = 0) as Hz.
  { intros k Hk. unfold islot. rewrite decide_False by lia. case_decide; [done|]. by rewrite decide_True. }
  induction n as [|n IH]; [by rewrite Nat.add_0_r|].
  rewrite Nat.add_succ_r, fblocks_S, decide_True, app_nil_r by (apply Hz; lia). done.
Qed.

(** * itrunc *)

(** The inode of an empty file. *)
Definition emptied (i : inode) : inode := set_isize 0 (set_addrs (replicate (S ndirect) 0) i).

Lemma cleared_all i : length (i_addrs i) = S ndirect → set_isize 0 (cleared (S ndirect) i) = emptied i.
Proof. intros Hl. unfold cleared, emptied. rewrite drop_ge by lia. by rewrite app_nil_r. Qed.

(** Everything of [itrunc] but [iupdate]. *)
Definition itrunc_blocks (ip : nat) : M fstate unit :=
  i <- inodep ip ;;
  ind <- deref (i_addrs i !! ndirect) ;;
  when (negb (ind =? 0))
    (bp <- lg (bio (bread (i_dev i) ind)) ;;
     for_each (seq 0 nindirect) (λ j,
       a <- lg (bio (bdata bp)) ;;
       when (negb (rd 4 (4 * j) a =? 0)) (bfree (i_dev i) (rd 4 (4 * j) a))) ;;
     lg (bio (brelse bp)) ;;
     bfree (i_dev i) ind ;;
     upd_inode ip (λ i, set_addrs (<[ndirect := 0]> (i_addrs i)) i)).

Lemma fstage_drop b H a : fstage H a → fstage (delete b H) (la_drop b a).
Proof.
  intros [[Hm1 Hm2] Hlen Hblk Hheld Hnd Hmaps Ho Hc]. split; try done.
  - split; [done|]. cbn. intros j n x [_ Hj]%lookup_delete_Some. by eapply Hm2.
  - cbn. by rewrite Hheld.
Qed.
Lemma fstage_hold b n a :
  fstage ∅ a → dstart <= n < sb_size sb → used (la_view a) sb n = true → fstage {[b := (n, false)]} (la_hold b n false a).
Proof.
  intros [[Hm1 Hm2] Hlen Hblk Hheld Hnd Hmaps Ho Hc] Hn Hu. split; try done.
  - split; [done|]. cbn. rewrite Hheld. intros j x y [[_ Hj]|[_ Hj]]%lookup_insert_Some; [|done]. injection Hj as <- <-. done.
  - cbn. by rewrite Hheld.
Qed.

Lemma itrunc_indirect v i l a ino ip Q :
  frel l a → fstage ∅ a → file_ok v i → length v = nb → freed (fblocks v i ndirect) v (la_view a) →
  ino !! ip = Some (cleared ndirect i) → i_dev i = 1 →
  (∀ l' a', frel l' a' → fstage ∅ a' → freed (fblocks v i (S maxfile)) v (la_view a') →
     Q tt (cpu0 pid) (FState l' sb (<[ip := cleared (S ndirect) i]> ino))) →
  wp E (itrunc_blocks ip) (cpu0 pid) (FState l sb ino) Q.
Proof using HY Hm Hmsz Hmbuf.
  intros HL Hs Hok Hv Hfr Hi Hdev HQ. pose proof (fo_addrs _ _ _ _ Hok) as Hlen. apply lookup_lt_Some in Hi as Hlt.
  pose proof (ly_size _ _ _ _ _ HY). pose proof (ly_dstart _ _ _ _ _ HY).
  apply wp_bind. eapply wp_inodep; [done|]. apply wp_bind. eapply wp_deref; [apply cleared_addr; lia|].
  change (i_dev (cleared ndirect i)) with (i_dev i). rewrite Hdev. fold (iind i). apply wp_when; intros Hz.
  - assert (iind i ≠ 0) as Hind by lia. destruct (fo_slot _ _ _ _ Hok maxfile (le_n _) Hind) as [Hr Hu]. rewrite islot_ind in Hr, Hu.
    destruct (lookup_lt_is_Some_2 v (Z.to_nat (iind i))) as [d Hd]; [lia|].
    assert (∀ k, (k <= maxfile)%nat → iind i ∉ fblocks v i k) as Hni.
    { intros k Hk. rewrite fblocks_elem. rewrite <- (islot_ind v i). intros (_ & j & Hj & Heq). by apply (fo_inj _ _ _ _ Hok maxfile j); try lia. }
    assert (used (la_view a) sb (iind i) = true) as Hu1.
    { rewrite (fd_used _ _ _ _ _ Hfr), Hu, bool_decide_eq_false_2; [done| |lia]. apply Hni. fsizes. lia. }
    apply wp_bind. eapply (f_bread pid st sz E d0 sb ino _ _ (iind i) _ HL).
    { rewrite (sg_len _ _ _ _ _ _ Hs). lia. }
    { intros j x. by rewrite (sg_held _ _ _ _ _ _ Hs). }
    { eapply room_le; [|apply (fstage_room ∅ a Hs)]; rewrite map_size_empty; lia. }
    intros b l1 Hb HL1. apply wp_bind. eapply (indirect_loop v i b d l1 _ ino _ HL1); [by apply fstage_hold|done|done|done|done|].
    intros l2 a2 HL2 Hs2 Hfr2. apply wp_bind. eapply (f_brelse pid st sz E d0 sb ino _ _ b (iind i) _ HL2).
    { rewrite (sg_held _ _ _ _ _ _ Hs2). apply lookup_singleton_eq. }
    intros l3 HL3. apply (fstage_drop b) in Hs2. rewrite delete_singleton_eq in Hs2. apply wp_bind. rewrite <- (islot_ind v i).
    eapply (free_slot ∅ v i maxfile _ _ _ _ HL3 Hs2); try done.
    { rewrite map_size_empty. lia. }
    { intros j x. by rewrite (sg_held _ _ _ _ _ _ Hs2). }
    intros l4 a4 HL4 Hs4 Hfr4. eapply wp_upd_inode; [done|]. rewrite cleared_S by lia. by eapply HQ.
  - assert (iind i = 0) as Hind by lia. rewrite <- (list_insert_id ino ip (cleared ndirect i)) by done.
    rewrite (cleared_zero i ndirect) by (try done; lia). apply (HQ l a); [done|done|]. by rewrite fblocks_direct.
Qed.

(** What [itrunc] did: the blocks of the file [i] are free, and the inode is empty in
    memory and on the disk. *)
Record truncated (v : list (list Z)) (i : inode) (v' : list (list Z)) (i' : inode) : Prop := {
  tr_used : ∀ b, 0 <= b < sb_size sb → used v' sb b = negb (bool_decide (b ∈ fblocks v i (S maxfile))) && used v sb b;
  tr_data : ∀ n, dstart <= n < sb_size sb → v' !! Z.to_nat n = v !! Z.to_nat n;
  tr_disk : on_disk sb v' i';
  tr_inodes : ∀ j, 0 <= i_inum j < sb_ninodes sb → i_inum j ≠ i_inum i → on_disk sb v j → on_disk sb v' j;
}.

(** Storing an inode after its blocks were freed, or once more. *)
Lemma freed_update v i v1 i' d :
  length v1 = nb → inode_range sb i' → i_inum i' = i_inum i → dinode_range (to_dinode i') →
  v1 !! Z.to_nat (IBLOCK (i_inum i') sb) = Some d → length d = bsize →
  (∀ b, 0 <= b < sb_size sb → used v1 sb b = negb (bool_decide (b ∈ fblocks v i (S maxfile))) && used v sb b) →
  (∀ n, dstart <= n < sb_size sb → v1 !! Z.to_nat n = v !! Z.to_nat n) →
  (∀ j, 0 <= i_inum j < sb_ninodes sb → i_inum j ≠ i_inum i → on_disk sb v j → on_disk sb v1 j) →
  truncated v i (<[Z.to_nat (IBLOCK (i_inum i') sb) := wr_dinode (dino_off (i_inum i')) (to_dinode i') d]> v1) i'.
Proof using HY Hm Hmsz Hmbuf.
  intros Hlen Hr Hnum Hdr Hd Hdl Hu Hdata Hino. pose proof (ly_start _ _ _ _ _ HY). pose proof (ir_inum _ _ Hr) as Hin.
  destruct (iblock_data_same HY v1 (i_inum i') (wr_dinode (dino_off (i_inum i')) (to_dinode i') d) Hin) as [Hdd _].
  split.
  - intros b Hb. rewrite <- Hu by done. destruct (IBLOCK_range HY _ Hin) as (_ & H1 & H2 & H3).
    destruct (BBLOCK_range HY b Hb) as (_ & Hb1 & _). pose proof (iblock_not_map HY (i_inum i') b Hin Hb).
    unfold used. rewrite list_lookup_total_insert_ne; [done|]. lia.
  - intros n Hn. by rewrite Hdd, Hdata.
  - by apply (on_disk_write HY).
  - intros j Hj Hne Hdisk. apply (on_disk_other HY); try done; [|congruence|by apply Hino].
    apply Hdr.
Qed.

Lemma freed_on_disk F v v' j : freed F v v' → 0 <= i_inum j < sb_ninodes sb → on_disk sb v j → on_disk sb v' j.
Proof using HY Hm Hmsz Hmbuf.
  intros Hf Hj Hd. destruct (IBLOCK_range HY _ Hj) as (_ & H1 & H2 & H3). unfold on_disk in *.
  by rewrite list_lookup_total_alt, (fd_front _ _ _ _ _ Hf), <- list_lookup_total_alt by lia.
Qed.

Lemma emptied_dinode i : inode_range sb i → dinode_range (to_dinode (emptied i)).
Proof.
  intros []. split; try done. cbn [to_dinode emptied set_isize set_addrs i_addrs di_addrs].
  clear. apply Forall_replicate. lia.
Qed.

Lemma itrunc_spec l a ino ip i Q :
  frel l a → fstage ∅ a → la_bs a = [] → file_ok (la_view a) i → inode_range sb i → ino !! ip = Some i → i_dev i = 1 →
  (∀ l' a', frel l' a' → tstate sz nb sb dstart ∅ 3 a' → truncated (la_view a) i (la_view a') (emptied i) →
     Q tt (cpu0 pid) (FState l' sb (<[ip := emptied i]> ino))) →
  wp E (itrunc ip) (cpu0 pid) (FState l sb ino) Q.
Proof using HY Hm Hmsz Hmbuf.
  intros HL Hs Hbs Hok Hrg Hi Hdev HQ. pose proof (fo_addrs _ _ _ _ Hok) as Hla. apply lookup_lt_Some in Hi as Hlt.
  unfold itrunc. apply wp_bind. eapply (direct_loop (la_view a) i _ _ _ _ _ HL Hs Hok); [by apply freed_nil|done|done|].
  intros l1 a1 HL1 Hs1 Hfr1.
  eapply (wp_assoc E (itrunc_blocks ip) (upd_inode ip (set_isize 0) ;; iupdate ip)).
  { intros c s. unfold itrunc_blocks, bind. destruct (inodep ip c s) as [j ? ?| | | |]; [|done..]. by destruct (deref (i_addrs j !! ndirect) _ _). }
  apply wp_bind.
  eapply (itrunc_indirect (la_view a) i _ _ _ _ _ HL1 Hs1 Hok); [apply Hs|done|by apply list_lookup_insert_eq|done|].
  intros l2 a2 HL2 Hs2 Hfr2. rewrite list_insert_insert_eq. apply wp_bind.
  eapply wp_upd_inode; [by apply list_lookup_insert_eq|]. rewrite list_insert_insert_eq, cleared_all by done.
  eapply (iupdate_spec pid st sz E d0 sb dstart nb HY 3 _ _ _ _ _ _ HL2 (fstage_tstate _ Hs2));
    [by apply list_lookup_insert_eq|done|by destruct Hrg|done|].
  intros l3 d Hd Hdl a3 HL3 Ht3. apply (HQ _ _ HL3 Ht3).
  apply (freed_update (la_view a) i (la_view a2) (emptied i)); [apply Hs2|by destruct Hrg|done|by apply emptied_dinode|done|done|..].
  - apply (fd_used _ _ _ _ _ Hfr2).
  - apply (fd_data _ _ _ _ _ Hfr2).
  - intros j Hj _. by apply (freed_on_disk _ _ _ j Hfr2).
Qed.
End free.

(** * The last reference to a file without links *)

(** The cache entry [x] after [iput] of the last reference. *)
Definition gone (x : inode) : inode :=
  Inode (i_dev x) (i_inum x) (i_ref x - 1) initsleeplock false 0 (i_major x) (i_minor x) (i_nlink x) 0 (replicate (S ndirect) 0).

Section iput.
Context (pid st sz : Z) (E : string → Prop) (d0 : disk) (sb : superblock) (dstart m : Z) (nb : nat).
Context (HY : layout st sz nb sb dstart).
Context (Hm : sb_size sb <= BPB * m) (Hmsz : m + 4 < sz) (Hmbuf : m + 4 < Z.of_nat nbuf).
Notation frel := (frel pid st sz d0).
Notation truncated := (truncated sb dstart).

(** [iput] up to the test. *)
Lemma iput_enter l ino ip x (k : M fstate unit) (body : M fstate unit) Q :
  ino !! ip = Some x → sl_locked (i_lock x) = false →
  wp E (when (i_valid x && (i_nlink x =? 0)) body ;; k) (cpu0 pid) (FState l sb (<[ip := set_ilock (SleepLock true pid) x]> ino)) Q →
  wp E (ino_acquiresleep ip ;; i <- inodep ip ;; when (i_valid i && (i_nlink i =? 0)) body ;; k) (cpu0 pid) (FState l sb ino) Q.
Proof.
  intros Hx Hl HQ. apply lookup_lt_Some in Hx as Hlt. apply wp_bind.
  eapply eq_wp; [apply (acquiresleep_free (LkInode ip) (ChInode ip) (ino_getl ip) (ino_putl ip))|].
  { unfold ino_getl. cbn [fs_inode]. by rewrite (list_lookup_total_correct _ _ _ Hx). }
  unfold ino_putl. cbn [fs_l fs_sb fs_inode]. rewrite (alter_insert _ _ _ _ Hx). apply wp_bind.
  eapply wp_inodep; [by apply list_lookup_insert_eq|]. exact HQ.
Qed.

(** The end of [iput]: release the lock and drop the reference. *)
Lemma iput_leave l ino ip x Q :
  ino !! ip = Some x →
  Q tt (cpu0 pid) (FState l sb (<[ip := set_iref (λ r, r - 1) (set_ilock initsleeplock x)]> ino)) →
  wp E (ino_releasesleep ip ;; acquire LkIcache ;; upd_inode ip (set_iref (λ r, r - 1)) ;; release LkIcache)
    (cpu0 pid) (FState l sb ino) Q.
Proof.
  intros Hx HQ. apply lookup_lt_Some in Hx as Hlt. apply wp_bind.
  eapply eq_wp; [by apply (releasesleep_eq (LkInode ip) (ChInode ip) (ino_putl ip))|].
  unfold ino_putl. cbn [fs_l fs_sb fs_inode]. rewrite (alter_insert _ _ _ _ Hx).
  apply wp_bind. eapply eq_wp; [apply acquire_cpu0|]. apply wp_bind. eapply wp_upd_inode; [by apply list_lookup_insert_eq|].
  rewrite list_insert_insert_eq. eapply eq_wp; [apply release_cpu1|]. exact HQ.
Qed.

(** [iput] of a file that is still in use, by a link or by another reference. *)
Lemma iput_keep l ino ip x Q :
  ino !! ip = Some x → sl_locked (i_lock x) = false → (i_valid x = true → i_nlink x = 0 → i_ref x ≠ 1) →
  Q tt (cpu0 pid) (FState l sb (<[ip := set_iref (λ r, r - 1) (set_ilock initsleeplock x)]> ino)) →
  wp E (iput ip) (cpu0 pid) (FState l sb ino) Q.
Proof.
  intros Hx Hl Hkeep HQ. apply lookup_lt_Some in Hx as Hlt. apply (iput_enter _ _ _ x); [done|done|].
  assert (Q tt (cpu0 pid) (FState l sb (<[ip := set_iref (λ r, r - 1) (set_ilock initsleeplock (set_ilock (SleepLock true pid) x))]>
    (<[ip := set_ilock (SleepLock true pid) x]> ino)))) as HQ' by (by rewrite list_insert_insert_eq).
  apply wp_bind, wp_when; intros Hv; [|apply (iput_leave _ _ _ _ _ (list_lookup_insert_eq _ _ _ Hlt) HQ')].
  apply andb_true_iff in Hv as [Hv Hn]. apply Z.eqb_eq in Hn.
  apply wp_bind. eapply eq_wp; [apply acquire_cpu0|]. apply wp_bind. eapply wp_inodep; [by apply list_lookup_insert_eq|].
  apply wp_bind. eapply eq_wp; [apply release_cpu1|]. apply wp_when; intros Hr.
  { apply Z.eqb_eq in Hr. cbn in Hr. by apply Hkeep in Hr. }
  apply (iput_leave _ _ _ _ _ (list_lookup_insert_eq _ _ _ Hlt) HQ').
Qed.

Lemma iput_last l a ino ip x Q :
  frel l a → fstage nb sb dstart m ∅ a → la_bs a = [] → file_ok sb dstart (la_view a) x → inode_range sb x →
  ino !! ip = Some x → i_dev x = 1 → sl_locked (i_lock x) = false → i_valid x = true → i_nlink x = 0 → i_ref x = 1 →
  (∀ l' a', frel l' a' → tstate sz nb sb dstart ∅ 2 a' → truncated (la_view a) x (la_view a') (gone x) →
     Q tt (cpu0 pid) (FState l' sb (<[ip := gone x]> ino))) →
  wp E (iput ip) (cpu0 pid) (FState l sb ino) Q.
Proof using HY Hm Hmsz Hmbuf.
  intros HL Hs Hbs Hok Hrg Hx Hdev Hl Hv Hn Hr HQ. apply lookup_lt_Some in Hx as Hlt. apply (iput_enter _ _ _ x); [done|done|].
  rewrite Hv, Hn. apply wp_bind, wp_when; [intros _|done].
  apply wp_bind. eapply eq_wp; [apply acquire_cpu0|]. apply wp_bind. eapply wp_inodep; [by apply list_lookup_insert_eq|].
  apply wp_bind. eapply eq_wp; [apply release_cpu1|]. cbn [set_ilock i_ref]. rewrite Hr. apply wp_when; [intros _|done].
  set (y := set_ilock (SleepLock true pid) x). apply wp_bind.
  eapply (itrunc_spec pid st sz E d0 sb dstart m nb HY Hm Hmsz Hmbuf _ _ _ _ y _ HL Hs Hbs);
    [by destruct Hok|by destruct Hrg|by apply list_lookup_insert_eq|done|].
  intros l1 a1 HL1 Ht1 Htr1. rewrite list_insert_insert_eq. apply wp_bind.
  eapply wp_upd_inode; [by apply list_lookup_insert_eq|]. rewrite list_insert_insert_eq. apply wp_bind.
  eapply (iupdate_spec pid st sz E d0 sb dstart nb HY 2 _ _ _ _ (set_type 0 (emptied y)) _ HL1 Ht1);
    [by apply list_lookup_insert_eq|done|by destruct Hrg|done|].
  intros l2 d Hd Hdl a2 HL2 Ht2. eapply wp_upd_inode; [by apply list_lookup_insert_eq|]. rewrite list_insert_insert_eq.
  eapply iput_leave; [by apply list_lookup_insert_eq|]. rewrite list_insert_insert_eq. cbn [set_iref].
  apply (HQ l2 a2); [done|done|]. destruct Htr1 as [Hu Hdata Hdisk Hino].
  apply (freed_update st sz sb dstart m nb HY Hm Hmsz Hmbuf (la_view a) x (la_view a1) (gone x));
    [apply Ht1|by destruct Hrg|done| |done|done|exact Hu|done|done].
  apply emptied_dinode in Hrg as [H1 H2 H3 H4 H5 H6 H7]. by split.
Qed.
End iput.

(** * On the disk *)

(** From [v] to [v'] the file [x] was discarded: its inode is free and empty on the disk,
    its blocks and no others are marked free, and the other files are as they were. *)
Record discarded (sb : superblock) (dstart : Z) (v : list (list Z)) (x : inode) (v' : list (list Z)) : Prop := {
  dc_inode : on_disk sb v' (gone x);
  dc_used : ∀ b, 0 <= b < sb_size sb → used v' sb b = negb (bool_decide (b ∈ fblocks v x (S maxfile))) && used v sb b;
  dc_others : ∀ f, other_file sb dstart v x f → file_holds sb dstart v' f (content v f);
}.
(** The file [x] and the others are on [v'] what they were on [v]. *)
Record kept (sb : superblock) (dstart : Z) (v : list (list Z)) (x : inode) (v' : list (list Z)) : Prop := {
  kp_file : file_holds sb dstart v' x (content v x);
  kp_used : ∀ b, 0 <= b < sb_size sb → used v' sb b = used v sb b;
  kp_others : ∀ f, other_file sb dstart v x f → file_holds sb dstart v' f (content v f);
}.

Section disk.
Context {st sz : Z} {nb : nat} {sb : superblock} {dstart : Z} (HY : layout st sz nb sb dstart).

Lemma truncated_other v x v' x' f :
  truncated sb dstart v x v' x' → file_ok sb dstart v f → disjoint_files v x f →
  file_ok sb dstart v' f ∧ content v' f = content v f.
Proof using HY.
  intros Htr Hf Hdis. pose proof (ly_dstart _ _ _ _ _ HY). pose proof (ly_start _ _ _ _ _ HY).
  destruct (file_ok_same v v' f Hf) as (H1 & H2 & _); [|done].
  intros k Hk Hs. destruct (fo_slot _ _ _ _ Hf k Hk Hs) as [Hr Hu]. split; [by apply Htr|].
  rewrite (tr_used _ _ _ _ _ _ Htr), Hu, bool_decide_eq_false_2; [done| |lia].
  rewrite fblocks_elem. intros (Hnz & j & Hj & Heq). apply (Hdis j k); [lia|done|congruence|done].
Qed.

(** What the view of the transaction says about the disk it ends with. *)
Lemma truncated_discarded img v x w v' :
  same_data st sz v img → inode_range sb x → file_holds sb dstart img x (content img x) → 
  truncated sb dstart v x w (gone x) → same_data st sz v' w → discarded sb dstart img x v'.
Proof using HY.
  intros Hs Hr Hx Htr Hs'. pose proof (ir_inum _ _ Hr) as Hin.
  assert (∀ a b, same_data st sz a b → ∀ n, 0 <= n < sb_size sb → used a sb n = used b sb n) as Husame.
  { intros a b Hab n Hn. destruct (BBLOCK_range HY n Hn) as (_ & H1 & H2 & H3). pose proof (ly_start _ _ _ _ _ HY).
    unfold used. rewrite !list_lookup_total_alt, (Hab (BBLOCK n sb)); [done|lia|lia]. }
  destruct (data_same_file img v x (same_data_same HY img v Hs) (fh_ok _ _ _ _ _ Hx)) as (_ & _ & Hsl).
  assert (fblocks v x (S maxfile) = fblocks img x (S maxfile)) as Efb.
  { unfold fblocks. f_equal. by apply list_fmap_ext. }
  split.
  - destruct (IBLOCK_range HY _ Hin) as (_ & H1 & H2 & H3). pose proof (tr_disk _ _ _ _ _ _ Htr) as Hd. unfold on_disk in *.
    pose proof (ly_start _ _ _ _ _ HY). change (i_inum (gone x)) with (i_inum x) in *.
    by rewrite list_lookup_total_alt, Hs', <- list_lookup_total_alt by lia.
  - intros b Hb. by rewrite (Husame _ _ Hs'), (tr_used _ _ _ _ _ _ Htr), (Husame _ _ Hs), Efb.
  - intros f [[Hfi Hfn] Hfd Hfh]. eapply (same_data_holds HY); [exact Hs'|done|].
    pose proof (same_data_holds HY img v f _ Hs Hfi Hfh) as [Hfok Hfc Hfdk].
    destruct (data_same_file img v f (same_data_same HY img v Hs) (fh_ok _ _ _ _ _ Hfh)) as (_ & _ & Hsf).
    destruct (truncated_other v x w (gone x) f Htr Hfok) as [Hok' Hc'].
    { intros k k' Hk Hk'. rewrite Hsl, Hsf. by apply Hfd. }
    split; [done|congruence|]. by apply (tr_inodes _ _ _ _ _ _ Htr).
Qed.

Lemma same_kept img x v' :
  same_data st sz v' img → inode_range sb x → file_holds sb dstart img x (content img x) → kept sb dstart img x v'.
Proof using HY.
  intros Hs Hr Hx. split.
  - eapply (same_data_holds HY); [exact Hs|apply Hr|done].
  - intros n Hn. destruct (BBLOCK_range HY n Hn) as (_ & H1 & H2 & H3). pose proof (ly_start _ _ _ _ _ HY).
    unfold used. rewrite !list_lookup_total_alt, (Hs (BBLOCK n sb)); [done|lia|lia].
  - intros f Hf. eapply (same_data_holds HY); [exact Hs|apply (of_inum _ _ _ _ _ Hf)|apply (of_holds _ _ _ _ _ Hf)].
Qed.
End disk.

(** C9: Dropping the last reference to a file without links discards the file, in one
    step.  On a disk with an empty log, whose free map has at most [m] blocks, [iput] of
    an inode that has no links and one reference returns; the cache entry is unused and
    the disk has the inode free and empty, the blocks of the file, direct, indirect and
    the indirect block itself, and no others marked free, and the other files as they
    were.  Cut the power after any number [j] of the block writes, and in any number of
    recoveries: the next boot returns, and the disk has the whole file when [j] is below
    the commit point and has it discarded from there on. *)
Theorem iput_discards pid st sz sb dstart m ino img ip x :
  log_image img st sz [] [] → layout st sz (length img) sb dstart →
  (∀ b, 0 <= b < dstart → used img sb b = true) →
  sb_size sb <= BPB * m → m + 4 < sz → m + 4 < Z.of_nat nbuf →
  ino !! ip = Some x → i_dev x = 1 → sl_locked (i_lock x) = false → i_valid x = true → i_nlink x = 0 → i_ref x = 1 →
  inode_range sb x → file_holds sb dstart img x (content img x) →
  ∃ l cp, fs_txn (iput ip) (cpu0 pid) (FState (power_up img) sb ino) = Ret tt (cpu0 pid) (FState l sb (<[ip := gone x]> ino)) ∧
    discarded sb dstart img x (d_img (bs_disk (ls_b l))) ∧
    ∀ j img', rtc (failed_boot pid) (apply_writes (take j (d_writes (bs_disk (ls_b l)))) img) img' →
      ∃ s, boot (cpu0 pid) (power_up img') = Ret tt (cpu0 pid) s ∧
        if decide (j < cp)%nat then kept sb dstart img x (d_img (bs_disk (ls_b s)))
        else discarded sb dstart img x (d_img (bs_disk (ls_b s))).
Proof.
  intros Himg HY Hmeta Hm Hmsz Hmbuf Hx Hdev Hl Hv Hn Hr Hrg Hh.
  assert (runs (fs_txn (iput ip)) (cpu0 pid) (FState (power_up img) sb ino) (λ _ c s, c = cpu0 pid ∧
    ∃ l v w, s = FState l sb (<[ip := gone x]> ino) ∧ same_data st sz v img ∧ truncated sb dstart v x w (gone x) ∧
      same_data st sz (d_img (bs_disk (ls_b l))) w ∧ crash_atomic pid st sz img (bs_disk (ls_b l)) w)) as Hrun.
  { apply (fs_txn_spec pid st sz sb ino img Himg). intros l d v HL Hs Hlen.
    pose proof (same_data_holds HY img v x _ Hs (ir_inum _ _ Hrg) Hh) as [Hok Hc Hd].
    eapply (iput_last pid st sz _ d sb dstart m (length img) HY Hm Hmsz Hmbuf _ _ _ _ x _ HL); try done.
    { assert (tstate sz (length img) sb dstart ∅ 0 (LAbs v v ∅ [] 1 0)) as []; [|split; try done; [apply NoDup_nil_2|intros k Hk%elem_of_nil; done]].
      apply (txn_start pid st sz sb dstart img HY Hmeta 0 l d v HL Hs Hlen); [sizes; lia|].
      pose proof (ly_size _ _ _ _ _ HY). unfold BPB, BSIZE in Hm. lia. }
    intros l' a HL' Ht Htr. split; [done|]. exists l', (<[ip := gone x]> ino), a. split; [done|]. split; [done|].
    split; [apply Ht|]. split; [apply Ht|]. split; [apply Ht|].
    split; [pose proof (ts_room _ _ _ _ _ _ _ Ht) as Hrm; unfold room in Hrm; lia|].
    intros l2 Hs2 Hcr. split; [done|]. by exists l2, v, (la_view a). }
  apply runs_eq in Hrun as ([] & c & s & Heq & -> & l & v & w & -> & Hs & Htr & Hsl & cp & Hcr).
  exists l, cp. split; [exact Heq|]. split; [by eapply (truncated_discarded HY)|].
  intros j img' Hf. destruct (Hcr j img' Hf) as (s & Hb & Hsd). exists s. split; [exact Hb|].
  destruct (decide (j < cp)%nat); [by apply (same_kept HY)|by eapply (truncated_discarded HY)].
Qed.

(** The file of [one_image] after its name was removed. *)
Definition unlinked_file : inode :=
  Inode 1 1 1 initsleeplock true T_FILE 0 0 0 700 (34 :: 35 :: replicate 11 0).
Definition unlinked_block : list Z := wr_dinode (dino_off 1) (to_dinode unlinked_file) (replicate bsize 0).
Definition unlinked_image : list (list Z) := <[32%nat := unlinked_block]> one_image.

(** A block outside of the log and the superblock may hold anything. *)
Lemma log_image_insert img st sz n d :
  log_image img st sz [] [] → length d = bsize → n ≠ 1%nat → Z.of_nat n ≠ st → log_image (<[n := d]> img) st sz [] [].
Proof.
  intros [] Hd H1 Hs. split; rewrite ?length_insert; try done.
  - by apply Forall_insert.
  - by rewrite list_lookup_insert_ne.
  - rewrite list_lookup_insert_ne; [done|]. lia.
Qed.

Lemma unlinked_data : data_same one_super 34 one_image unlinked_image.
Proof. apply (iblock_data_same one_layout one_image 1 unlinked_block). cbn. lia. Qed.
Lemma unlinked_used b : 0 <= b < 40 → used unlinked_image one_super b = used one_image one_super b.
Proof.
  intros Hb. destruct (BBLOCK_range one_layout b ltac:(cbn; lia)) as (Eb & _). cbn [one_super sb_bmapstart] in Eb.
  rewrite Z.div_small in Eb by (unfold BPB, BSIZE; lia). unfold used. rewrite Eb. done.
Qed.
Lemma unlinked_holds : file_holds one_super 34 unlinked_image unlinked_file (content unlinked_image unlinked_file).
Proof.
  split; [|done|vm_compute; reflexivity].
  destruct (data_same_file one_image unlinked_image one_file unlinked_data (fh_ok _ _ _ _ _ one_holds)) as ([] & _ & _). by split.
Qed.

Lemma iput_discards_witness :
  ∃ l, fs_txn (iput 0) (cpu0 1) (FState (power_up unlinked_image) one_super [unlinked_file]) =
      Ret tt (cpu0 1) (FState l one_super [gone unlinked_file]) ∧
    used (d_img (bs_disk (ls_b l))) one_super 33 = true ∧ used (d_img (bs_disk (ls_b l))) one_super 34 = false ∧
    used (d_img (bs_disk (ls_b l))) one_super 35 = false.
Proof.
  destruct (iput_discards 1 2 30 one_super 34 1 [unlinked_file] unlinked_image 0 unlinked_file) as (l & cp & Heq & Hd & _);
    [apply log_image_insert; [exact one_log_image|vm_compute; reflexivity|done|done]|exact one_layout
    |intros b Hb; rewrite unlinked_used by lia; apply one_used; lia|unfold BPB, BSIZE; cbn; lia|lia|sizes; lia
    |reflexivity..|split; split; vm_compute; first [reflexivity|discriminate]|exact unlinked_holds|].
  exists l. split; [exact Heq|]. rewrite !(dc_used _ _ _ _ _ Hd) by (cbn; lia). rewrite !unlinked_used by lia.
  vm_compute. split; [reflexivity|]. split; reflexivity.
Defined.
