(* ===== verification/FsDir.v ===== *)
(** Directories: what [dirlookup] finds in a directory and [dirlink] does to it. *)
From stdpp Require Import base list numbers strings sets gmap.
From Stdlib Require Import ZArith Lia.
From S2P Require Import Prelude Params Machine Spinlock Sleeplock CString Bio BioRing BioSpec.
From S2P Require Import Log LogSpec LogCommit LogRecover LogOps Fs FsBlocks FsProps FsInode FsContent FsWrite.
Local Open Scope Z_scope.
Local Open Scope xv6_scope.

Abbreviation dirsiz := (Z.to_nat DIRSIZ).

(** * Directories as lists of entries *)

(** An entry: its inode number, 0 if it is free, and its name. *)
Definition dirent_at (c : list Z) (k : nat) : Z * list Z :=
  let de := slice (16 * k) 16 c in (de_inum de, cstr dirsiz (de_name de)).
Definition dirents (c : list Z) : list (Z * list Z) := dirent_at c <$> seq 0 (length c / 16).

(** The first entry with a name, from index [k] on: its index and inode number. *)
Fixpoint dir_find (name : list Z) (es : list (Z * list Z)) (k : nat) : option (nat * Z) :=
  match es with
  | [] => None
  | (inum, n) :: es' => if inum =? 0 then dir_find name es' (S k) else if bool_decide (name = n) then Some (k, inum) else dir_find name es' (S k)
  end.
(** What a directory says of a name. *)
Definition dir_get (name : list Z) (c : list Z) : option Z := snd <$> dir_find (cstr dirsiz name) (dirents c) 0.

(** The first free entry, or the end. *)
Fixpoint free_slot (es : list (Z * list Z)) (k : nat) : nat :=
  match es with
  | [] => k
  | (inum, _) :: es' => if inum =? 0 then k else free_slot es' (S k)
  end.

(** Entry [k] is set; at the end, it is appended. *)
Definition put_entry (k : nat) (e : Z * list Z) (es : list (Z * list Z)) : list (Z * list Z) :=
  if decide (k < length es)%nat then <[k := e]> es else es ++ [e].

Lemma free_slot_bounds es k : (k <= free_slot es k <= k + length es)%nat.
Proof.
  revert k. induction es as [|[inum n] es IH]; intros k; cbn [free_slot length]; [lia|].
  destruct (inum =? 0); [lia|]. specialize (IH (S k)). lia.
Qed.

Lemma put_entry_cons k e x es : put_entry (S k) e (x :: es) = x :: put_entry k e es.
Proof. unfold put_entry. cbn [length]. destruct (decide (S k < S (length es))%nat), (decide (k < length es)%nat); try lia; done. Qed.

(** Filling the free slot adds one name and changes no other. *)
Lemma dir_find_put inum name es k :
  inum ≠ 0 → dir_find name es k = None →
  let es' := put_entry (free_slot es k - k) (inum, name) es in
  dir_find name es' k = Some (free_slot es k, inum) ∧ ∀ n, n ≠ name → dir_find n es' k = dir_find n es k.
Proof.
  intros Hi. apply Z.eqb_neq in Hi. revert k. induction es as [|[j m] es IH]; intros k Hn; cbn [dir_find free_slot] in *.
  { rewrite Nat.sub_diag. unfold put_entry. cbn [length app dir_find]. destruct (decide (0 < 0)%nat) as [Hd0|_]; [lia|]. cbn [app dir_find]. rewrite Hi. split.
    - by rewrite bool_decide_eq_true_2.
    - intros n Hne. by rewrite bool_decide_eq_false_2. }
  destruct (j =? 0) eqn:Ej.
  { rewrite Nat.sub_diag. unfold put_entry. cbn [length]. destruct (decide (0 < S (length es))%nat) as [_|Hd0]; [|lia].
    change (<[0%nat := (inum, name)]> ((j, m) :: es)) with ((inum, name) :: es). cbn [dir_find]. rewrite Hi. split.
    - by rewrite bool_decide_eq_true_2.
    - intros n Hne. by rewrite bool_decide_eq_false_2. }
  case_bool_decide as Em; [done|]. destruct (IH (S k) Hn) as [H1 H2]. pose proof (free_slot_bounds es (S k)).
  replace (free_slot es (S k) - k)%nat with (S (free_slot es (S k) - S k)) by lia. rewrite put_entry_cons. cbn [dir_find]. rewrite Ej. split.
  - by rewrite bool_decide_eq_false_2.
  - intros n Hne. case_bool_decide; [done|]. by apply H2.
Qed.

(** * Entries in the bytes of the directory *)

Lemma make_dirent_length name inum : length (make_dirent name inum) = 16%nat.
Proof.
  unfold make_dirent. rewrite !length_app, length_le_bytes, length_replicate. pose proof (cstr_length dirsiz name). change dirsiz with 14%nat in *. lia.
Qed.

Lemma make_dirent_entry name inum : 0 <= inum < 2 ^ 16 →
  de_inum (make_dirent name inum) = inum ∧ cstr dirsiz (de_name (make_dirent name inum)) = cstr dirsiz name.
Proof.
  intros Hi. split.
  - unfold de_inum, make_dirent. rewrite rd_app_l. apply Z.mod_small. cbn. lia.
  - unfold de_name, make_dirent, slice. rewrite drop_app_length' by (by rewrite length_le_bytes).
    rewrite take_ge by (rewrite length_app, length_replicate; pose proof (cstr_length dirsiz name); lia).
    rewrite <- (app_nil_r (replicate _ _)). apply cstr_padded; [apply cstr_length|apply cstr_nonzero].
Qed.

Lemma dirents_lookup c k : (k < length c / 16)%nat → dirents c !! k = Some (dirent_at c k).
Proof. intros Hk. unfold dirents. rewrite list_lookup_fmap, lookup_seq_lt by done. done. Qed.

Lemma length_dirents c : length (dirents c) = (length c / 16)%nat.
Proof. unfold dirents. by rewrite length_fmap, length_seq. Qed.

(** Storing an entry. *)
Lemma dirents_put c k name inum :
  (length c mod 16 = 0)%nat → (16 * k <= length c)%nat → 0 <= inum < 2 ^ 16 →
  dirents (splice (16 * k) (make_dirent name inum) c) = put_entry k (inum, cstr dirsiz name) (dirents c).
Proof.
  intros Hm Hk Hi. pose proof (make_dirent_length name inum) as Hl. destruct (make_dirent_entry name inum Hi) as [Ei En].
  pose proof (Nat.div_mod_eq (length c) 16) as Hd. rewrite Hm in Hd.
  assert (length (splice (16 * k) (make_dirent name inum) c) = Nat.max (length c) (16 * k + 16)) as Hls.
  { unfold splice. rewrite !length_app, length_take, length_drop, Hl. lia. }
  assert (∀ j, (16 * j + 16 <= Nat.max (length c) (16 * k + 16))%nat →
    slice (16 * j) 16 (splice (16 * k) (make_dirent name inum) c) = if decide (j = k) then make_dirent name inum else slice (16 * j) 16 c) as Hs.
  { intros j Hj. apply list_eq. intros x. rewrite lookup_slice_if. unfold splice.
    destruct (decide (x < 16)%nat) as [Hx|Hx]; [|destruct (decide (j = k)); [rewrite lookup_ge_None_2 by lia; done|by rewrite lookup_slice_if, decide_False]].
    destruct (decide (j = k)) as [->|Hne].
    - rewrite lookup_app_r, lookup_app_l by (rewrite ?length_take, ?Hl; lia). f_equal. rewrite length_take. lia.
    - rewrite lookup_slice_if, decide_True by done. destruct (decide (j < k)%nat).
      + rewrite lookup_app_l by (rewrite length_take; lia). rewrite lookup_take_lt by lia. done.
      + rewrite !lookup_app_r by (rewrite ?length_take, ?Hl; lia). rewrite lookup_drop, length_take, Hl. f_equal. lia. }
  apply list_eq. intros j. unfold put_entry. rewrite length_dirents.
  destruct (decide (k < length c / 16)%nat) as [Hlt|Hge].
  - assert (length (splice (16 * k) (make_dirent name inum) c) = length c) as Hls' by lia.
    destruct (decide (j < length c / 16)%nat) as [Hj|Hj].
    + rewrite dirents_lookup by (by rewrite Hls'). unfold dirent_at. rewrite Hs by lia. destruct (decide (j = k)) as [->|Hne].
      * rewrite list_lookup_insert_eq by (by rewrite length_dirents). by rewrite Ei, En.
      * rewrite list_lookup_insert_ne by done. by rewrite dirents_lookup.
    + rewrite !lookup_ge_None_2; [done|rewrite length_insert, length_dirents; lia|rewrite length_dirents, Hls'; lia].
  - assert (length (splice (16 * k) (make_dirent name inum) c) = length c + 16)%nat as Hls' by lia.
    assert ((length c + 16) / 16 = S (length c / 16))%nat as E1 by (rewrite Hd at 1; rewrite Nat.add_0_r; replace (16 * (length c / 16) + 16)%nat with (S (length c / 16) * 16)%nat by lia; by rewrite Nat.div_mul).
    destruct (decide (j < S (length c / 16))%nat) as [Hj|Hj].
    + rewrite dirents_lookup by (by rewrite Hls', E1). unfold dirent_at. rewrite Hs by lia. destruct (decide (j = k)) as [->|Hne].
      * rewrite lookup_app_r by (rewrite length_dirents; lia). rewrite length_dirents. replace (k - length c / 16)%nat with 0%nat by lia. change ([(inum, cstr dirsiz name)] !! 0%nat) with (Some (inum, cstr dirsiz name)). cbv zeta. by rewrite Ei, En.
      * rewrite lookup_app_l by (rewrite length_dirents; lia). by rewrite dirents_lookup by lia.
    + rewrite !lookup_ge_None_2; [done|rewrite length_app, length_dirents; cbn [length]; lia|rewrite length_dirents, Hls', E1; lia].
Qed.

(** * [iget] *)

(** The inode cache after [iget], and the entry it returns. *)
Definition igot (dev inum : Z) (ino : list inode) : option (nat * list inode) :=
  match iget_scan dev inum ino 0 None with
  | inl ip => Some (ip, alter (set_iref (λ r, r + 1)) ip ino)
  | inr (Some ip) =>
      Some (ip, alter (λ i, Inode dev inum 1 (i_lock i) false (i_type i) (i_major i) (i_minor i) (i_nlink i) (i_size i) (i_addrs i)) ip ino)
  | inr None => None
  end.

Lemma iget_scan_lookup dev inum l k e :
  match iget_scan dev inum l k e with
  | inl ip => (k <= ip)%nat ∧ ∃ x, l !! (ip - k)%nat = Some x ∧ 0 < i_ref x ∧ i_dev x = dev ∧ i_inum x = inum
  | inr (Some ip) => e = Some ip ∨ ((k <= ip)%nat ∧ ∃ x, l !! (ip - k)%nat = Some x ∧ i_ref x = 0)
  | inr None => e = None
  end.
Proof.
  revert k e. induction l as [|x l IH]; intros k e; cbn [iget_scan]; [destruct e; [by left|done]|].
  destruct ((0 <? i_ref x) && (i_dev x =? dev) && (i_inum x =? inum)) eqn:E.
  { split; [done|]. exists x. rewrite Nat.sub_diag. split; [done|]. lia. }
  specialize (IH (S k) (if match e with None => i_ref x =? 0 | _ => false end then Some k else e)).
  assert (∀ ip, (S k <= ip)%nat → (x :: l) !! (ip - k)%nat = l !! (ip - S k)%nat) as Hsh.
  { intros ip Hip. replace (ip - k)%nat with (S (ip - S k)) by lia. done. }
  destruct (iget_scan dev inum l (S k) _) as [ip|[ip|]].
  - destruct IH as (Hk & y & Hy & ?). split; [lia|]. exists y. by rewrite Hsh.
  - destruct IH as [IH|(Hk & y & Hy & ?)]; [|right; split; [lia|]; exists y; by rewrite Hsh].
    destruct e as [e|]; [by left|]. destruct (Z.eqb_spec (i_ref x) 0); [|done]. injection IH as ->. right. split; [done|]. exists x. by rewrite Nat.sub_diag.
  - destruct e as [e|]; [done|]. by destruct (i_ref x =? 0).
Qed.

Lemma iget_eq pid l sb ino dev inum :
  iget dev inum (cpu0 pid) (FState l sb ino) =
  match igot dev inum ino with Some (ip, ino') => Ret ip (cpu0 pid) (FState l sb ino') | None => Panic "iget: no inodes" end.
Proof.
  unfold iget, igot. rewrite (bind_eq _ _ _ _ _ _ _ (acquire_cpu0 pid LkIcache _)). rewrite (bind_eq _ _ _ _ (FState l sb ino) (cpu1 pid LkIcache) (FState l sb ino)) by reflexivity.
  cbn [fs_inode]. pose proof (iget_scan_lookup dev inum ino 0 None) as H.
  assert (∀ ip f x, ino !! ip = Some x → (upd_inode ip f ;; release LkIcache ;; ret ip) (cpu1 pid LkIcache) (FState l sb ino) = Ret ip (cpu0 pid) (FState l sb (alter f ip ino))) as Hu.
  { intros ip f x Hx. rewrite (bind_eq _ _ _ _ tt (cpu1 pid LkIcache) (FState l sb (alter f ip ino))) by (unfold upd_inode, bind, get; cbn [fs_inode]; by rewrite Hx).
    by rewrite (bind_eq _ _ _ _ _ _ _ (release_cpu1 pid LkIcache _)). }
  destruct (iget_scan dev inum ino 0 None) as [ip|[ip|]]; [destruct H as (_ & x & Hx & _)|destruct H as [?|(_ & x & Hx & _)]; [done|]|done]; rewrite Nat.sub_0_r in Hx; by eapply Hu.
Qed.

(** * [dirlookup] and [dirlink] *)

Section dirs.
Context (pid st sz : Z) (E : string → Prop) (d0 : disk) (sb : superblock) (dstart : Z) (nb : nat).
Context (HY : layout st sz nb sb dstart).
Notation frel := (frel pid st sz d0).
Notation tstate := (tstate sz nb sb dstart).

(** [i] is a directory: its size is a number of entries. *)
Record dir_ok (v : list (list Z)) (i : inode) : Prop := {
  do_dev : i_dev i = 1;
  do_type : i_type i = T_DIR;
  do_file : file_ok sb dstart v i;
  do_size : i_size i mod 16 = 0;
}.

Lemma dir_content_length v i : dir_ok v i → Z.of_nat (length (content v i)) = i_size i ∧ (length (content v i) mod 16 = 0)%nat.
Proof.
  intros [_ _ Hok Hs]. pose proof (fo_size _ _ _ _ Hok). rewrite length_content. split; [lia|].
  rewrite <- (Nat2Z.id (Z.to_nat (i_size i) mod 16)), Nat2Z.inj_mod, Z2Nat.id by lia. change (Z.of_nat 16) with 16. by rewrite Hs.
Qed.

(** Reading an entry. *)
Lemma read_entry v i k :
  dir_ok v i → (k < length (content v i) / 16)%nat →
  read_result v i (16 * Z.of_nat k) 16 = (16, slice (16 * k) 16 (content v i)) ∧ 16 * Z.of_nat k < i_size i.
Proof.
  intros Hd Hk. destruct (dir_content_length v i Hd) as [Hl Hm]. pose proof (Nat.div_mod_eq (length (content v i)) 16).
  pose proof (fo_size _ _ _ _ (do_file _ _ Hd)) as Hsz. unfold read_result. replace (i_size i <? 16 * Z.of_nat k) with false by lia.
  rewrite u32_small by (fsizes; lia). replace (16 * Z.of_nat k + 16 <? 16 * Z.of_nat k) with false by lia.
  split; [|lia]. replace (Z.min 16 (i_size i - 16 * Z.of_nat k)) with 16 by lia. f_equal. f_equal; lia.
Qed.

Lemma drop_dirents c k e es : drop k (dirents c) = e :: es → (k < length c / 16)%nat ∧ e = dirent_at c k ∧ drop (S k) (dirents c) = es.
Proof.
  intros Hd. assert (k < length c / 16)%nat as Hk.
  { rewrite <- length_dirents. destruct (decide (k < length (dirents c))%nat); [done|]. by rewrite drop_ge in Hd by lia. }
  split; [done|]. rewrite (drop_S _ _ _ (dirents_lookup c k Hk)) in Hd. by injection Hd as <- <-.
Qed.

Lemma dirlookup_loop_spec dsw fuel l a ino dp i name k Q :
  frel l a → la_held a = ∅ → (length (la_bs a) < nbuf)%nat → length (la_view a) = nb →
  ino !! dp = Some i → dir_ok (la_view a) i → (k <= length (content (la_view a) i) / 16)%nat →
  (length (content (la_view a) i) / 16 - k < fuel)%nat →
  (∀ l', frel l' a →
     match dir_find (cstr dirsiz name) (drop k (dirents (content (la_view a) i))) k with
     | None => Q None (cpu0 pid) (FState l' sb ino)
     | Some (j, inum) => wp E (iget 1 inum) (cpu0 pid) (FState l' sb ino) (λ ip c s, Q (Some (ip, 16 * Z.of_nat j)) c s)
     end) →
  wp E (dirlookup_loop dsw fuel dp name (16 * Z.of_nat k)) (cpu0 pid) (FState l sb ino) Q.
Proof using HY.
  intros HL Hh Hb Hnb Hi Hd Hk Hf HQ. set (c := content (la_view a) i) in *. destruct (dir_content_length _ _ Hd) as [Hlen Hm]. fold c in Hlen, Hm.
  pose proof (Nat.div_mod_eq (length c) 16) as Hdm. rewrite Hm in Hdm.
  revert l k HL Hk Hf HQ. induction fuel as [|fuel IH]; intros l k HL Hk Hf HQ; [lia|].
  cbn [dirlookup_loop]. apply wp_bind. eapply wp_inodep; [done|].
  destruct (drop k (dirents c)) as [|e es] eqn:Ed.
  { assert (k = length c / 16)%nat as -> by (apply (f_equal length) in Ed; rewrite length_drop, length_dirents in Ed; cbn [length] in Ed; lia).
    replace (i_size i <=? _) with true by lia. apply wp_ret. by apply (HQ l). }
  destruct (drop_dirents _ _ _ _ Ed) as (Hlt & -> & Ed'). destruct (read_entry _ _ k Hd Hlt) as [Hr Hsz]. fold c in Hr.
  replace (i_size i <=? 16 * Z.of_nat k) with false by lia. apply wp_bind.
  eapply (readi_spec pid st sz E d0 sb dstart nb HY dsw _ _ _ _ i _ _ _ HL); try done; [apply (do_dev _ _ Hd)|by rewrite (do_type _ _ Hd)|apply (do_file _ _ Hd)|lia|].
  intros l1 HL1. rewrite Hr. cbn [fst snd]. apply wp_bind, wp_when; [done|intros _].
  set (de := slice (16 * k) 16 c) in *. assert (dirent_at c k = (de_inum de, cstr dirsiz (de_name de))) as Ee by done. rewrite Ee in HQ. cbn [dir_find] in HQ.
  assert ((∀ l', frel l' a → match dir_find (cstr dirsiz name) es (S k) with
     | None => Q None (cpu0 pid) (FState l' sb ino)
     | Some (j, inum) => wp E (iget 1 inum) (cpu0 pid) (FState l' sb ino) (λ ip c s, Q (Some (ip, 16 * Z.of_nat j)) c s)
     end) → wp E (dirlookup_loop dsw fuel dp name (16 * Z.of_nat k + 16)) (cpu0 pid) (FState l1 sb ino) Q) as Hnext.
  { intros HQ'. replace (16 * Z.of_nat k + 16) with (16 * Z.of_nat (S k)) by lia. apply IH; [done|lia|lia|]. by rewrite Ed'. }
  destruct (de_inum de =? 0); [by apply Hnext|]. unfold namecmp. case_bool_decide; [|by apply Hnext].
  apply wp_bind. rewrite (do_dev _ _ Hd). specialize (HQ l1 HL1). eapply wp_mono; [exact HQ|]. intros ip c' s' Hq. by apply wp_ret.
Qed.

Lemma dirlookup_spec dsw l a ino dp i name Q :
  frel l a → la_held a = ∅ → (length (la_bs a) < nbuf)%nat → length (la_view a) = nb →
  ino !! dp = Some i → dir_ok (la_view a) i →
  (∀ l', frel l' a →
     match dir_find (cstr dirsiz name) (dirents (content (la_view a) i)) 0 with
     | None => Q None (cpu0 pid) (FState l' sb ino)
     | Some (j, inum) => wp E (iget 1 inum) (cpu0 pid) (FState l' sb ino) (λ ip c s, Q (Some (ip, 16 * Z.of_nat j)) c s)
     end) →
  wp E (dirlookup dsw dp name) (cpu0 pid) (FState l sb ino) Q.
Proof using HY.
  intros HL Hh Hb Hnb Hi Hd HQ. unfold dirlookup. apply wp_bind. eapply wp_inodep; [done|]. rewrite (do_type _ _ Hd). apply wp_bind, wp_when; [done|intros _].
  destruct (dir_content_length _ _ Hd) as [Hlen Hm]. change 0 with (16 * Z.of_nat 0). eapply (dirlookup_loop_spec dsw _ l a); try done; [lia|].
  rewrite <- Hlen. change 16 with (Z.of_nat 16) at 1. rewrite <- Nat2Z.inj_div, Nat2Z.id. lia.
Qed.

Lemma dirlink_loop_spec dsw fuel l a ino dp i k Q :
  frel l a → la_held a = ∅ → (length (la_bs a) < nbuf)%nat → length (la_view a) = nb →
  ino !! dp = Some i → dir_ok (la_view a) i → (k <= length (content (la_view a) i) / 16)%nat →
  (length (content (la_view a) i) / 16 - k < fuel)%nat →
  (∀ l', frel l' a → Q (16 * Z.of_nat (free_slot (drop k (dirents (content (la_view a) i))) k)) (cpu0 pid) (FState l' sb ino)) →
  wp E (dirlink_loop dsw fuel dp (16 * Z.of_nat k)) (cpu0 pid) (FState l sb ino) Q.
Proof using HY.
  intros HL Hh Hb Hnb Hi Hd Hk Hf HQ. set (c := content (la_view a) i) in *. destruct (dir_content_length _ _ Hd) as [Hlen Hm]. fold c in Hlen, Hm.
  pose proof (Nat.div_mod_eq (length c) 16) as Hdm. rewrite Hm in Hdm.
  revert l k HL Hk Hf HQ. induction fuel as [|fuel IH]; intros l k HL Hk Hf HQ; [lia|].
  cbn [dirlink_loop]. apply wp_bind. eapply wp_inodep; [done|].
  destruct (drop k (dirents c)) as [|e es] eqn:Ed.
  { assert (k = length c / 16)%nat as -> by (apply (f_equal length) in Ed; rewrite length_drop, length_dirents in Ed; cbn [length] in Ed; lia).
    replace (i_size i <=? _) with true by lia. apply wp_ret. by apply (HQ l). }
  destruct (drop_dirents _ _ _ _ Ed) as (Hlt & -> & Ed'). destruct (read_entry _ _ k Hd Hlt) as [Hr Hsz]. fold c in Hr.
  replace (i_size i <=? 16 * Z.of_nat k) with false by lia. apply wp_bind.
  eapply (readi_spec pid st sz E d0 sb dstart nb HY dsw _ _ _ _ i _ _ _ HL); try done; [apply (do_dev _ _ Hd)|by rewrite (do_type _ _ Hd)|apply (do_file _ _ Hd)|lia|].
  intros l1 HL1. rewrite Hr. cbn [fst snd]. apply wp_bind, wp_when; [done|intros _].
  set (de := slice (16 * k) 16 c) in *. assert (dirent_at c k = (de_inum de, cstr dirsiz (de_name de))) as Ee by done. rewrite Ee in HQ. cbn [free_slot] in HQ.
  destruct (de_inum de =? 0); [apply wp_ret; by apply HQ|].
  replace (16 * Z.of_nat k + 16) with (16 * Z.of_nat (S k)) by lia. apply IH; [done|lia|lia|]. by rewrite Ed'.
Qed.

(** A new name: [dirlink] fills the first free entry, or appends one. *)
Lemma dirlink_spec dsw K l a ino dp i name inum Q :
  frel l a → tstate ∅ (6 * 1 + S K) a → ino !! dp = Some i → dir_ok (la_view a) i → inode_range sb i →
  let c := content (la_view a) i in let k := free_slot (dirents c) 0 in
  dir_find (cstr dirsiz name) (dirents c) 0 = None → 16 * Z.of_nat k + 16 <= MAXFILE * BSIZE →
  (i_size i < 16 * Z.of_nat k + 16 → E "balloc: out of blocks") →
  (∀ l' a' i', frel l' a' → tstate ∅ K a' → written sb dstart (la_view a) i (la_view a') i' (16 * Z.of_nat k) (make_dirent name inum) →
     Q 0 (cpu0 pid) (FState l' sb (<[dp := i']> ino))) →
  wp E (dirlink dsw dp name inum) (cpu0 pid) (FState l sb ino) Q.
Proof using HY.
  intros HL Ht Hi Hd Hr c k Hnone Hfit HE HQ. pose proof (ts_held _ _ _ _ _ _ _ Ht) as Hh. pose proof (ts_len _ _ _ _ _ _ _ Ht) as Hnb.
  pose proof (ts_room _ _ _ _ _ _ _ Ht) as Hrm. assert (length (la_bs a) < nbuf)%nat as Hb by (unfold room in Hrm; lia).
  destruct (dir_content_length _ _ Hd) as [Hlen Hm]. fold c in Hlen, Hm. pose proof (Nat.div_mod_eq (length c) 16) as Hdm. rewrite Hm in Hdm.
  pose proof (free_slot_bounds (dirents c) 0) as Hks. rewrite length_dirents in Hks. fold k in Hks. pose proof (make_dirent_length name inum) as Hml.
  unfold dirlink. apply wp_bind. eapply (dirlookup_spec dsw l a); try done. intros l1 HL1. fold c. rewrite Hnone.
  apply wp_bind. eapply wp_inodep; [done|]. apply wp_bind. change 0 with (16 * Z.of_nat 0) at 1.
  eapply (dirlink_loop_spec dsw _ l1 a); try done; [lia|fold c; rewrite <- Hlen; change 16 with (Z.of_nat 16) at 1; rewrite <- Nat2Z.inj_div, Nat2Z.id; lia|].
  intros l2 HL2. fold c. rewrite drop_0. fold k. apply wp_bind.
  assert (16 * Z.of_nat k mod BSIZE + 16 <= BSIZE) as Hblk.
  { change BSIZE with (16 * 32). rewrite Z.mul_mod_distr_l by lia. pose proof (Z.mod_pos_bound (Z.of_nat k) 32). lia. }
  eapply (writei_spec pid st sz E d0 sb dstart nb HY dsw K 1 _ _ _ _ i _ _ _ HL2 Ht); try done; rewrite ?Hml; try lia; try (apply (do_dev _ _ Hd)); try (apply (do_file _ _ Hd)); try (by rewrite (do_type _ _ Hd)).
  { intros Hlt. apply HE. lia. }
  intros l3 a3 i3 HL3 Ht3 Hw. apply wp_bind, wp_when; [done|intros _]. apply wp_ret. by apply (HQ l3 a3 i3).
Qed.
End dirs.
