(* ===== verification/FsPath.v ===== *)
(** Path names: the inode cache and what [namei] and [nameiparent] find. *)
From stdpp Require Import base list numbers strings sets gmap.
From Stdlib Require Import ZArith Lia.
From S2P Require Import Prelude Params Machine Spinlock Sleeplock CString Bio BioRing BioSpec.
From S2P Require Import Log LogSpec LogCommit LogRecover LogOps Fs FsBlocks FsProps FsInode FsContent FsWrite FsFileProps FsDir.
Local Open Scope Z_scope.
Local Open Scope xv6_scope.

(** * Path elements *)

(** The strings between the slashes. *)
Fixpoint split_path (p : list Z) : list (list Z) :=
  match p with
  | [] => [[]]
  | c :: p' =>
      if c =? 47 then [] :: split_path p'
      else match split_path p' with e :: es => (c :: e) :: es | [] => [[c]] end
  end.
(** The elements of a path: those strings that are not empty, cut to the length of a name. *)
Definition path_elems (p : list Z) : list (list Z) :=
  take dirsiz <$> filter (λ e, e ≠ []) (split_path p).

Lemma path_elems_slash p : path_elems (47 :: p) = path_elems p.
Proof. done. Qed.

Lemma path_elems_skip p : path_elems (skip_slashes p) = path_elems p.
Proof.
  induction p as [|c p IH]; [done|]. cbn [skip_slashes]. destruct (Z.eqb_spec c 47) as [->|]; [|done]. by rewrite IH.
Qed.

Lemma skip_slashes_length p : (length (skip_slashes p) <= length p)%nat.
Proof. induction p as [|c p IH]; [done|]. cbn [skip_slashes]. destruct (c =? 47); cbn [length]; lia. Qed.

Lemma split_elem_path p e r :
  split_elem p = (e, r) → split_path p = e :: match r with [] => [] | _ :: r' => split_path r' end ∧
    (∀ c r', r = c :: r' → c = 47) ∧ (length e + length r = length p)%nat.
Proof.
  revert e r. induction p as [|c p IH]; intros e r; cbn [split_elem split_path].
  { intros [= <- <-]. done. }
  destruct (Z.eqb_spec c 47) as [->|Hc].
  { intros [= <- <-]. split; [done|]. split; [by intros c r' [= <- <-]|done]. }
  destruct (split_elem p) as [e' r'] eqn:Ep. intros [= <- <-]. destruct (IH _ _ eq_refl) as (-> & Hs & Hl).
  split; [done|]. split; [done|]. cbn [length]. lia.
Qed.

(** [skipelem] takes the elements off one after the other. *)
Lemma skipelem_elems p :
  match skipelem p with
  | None => path_elems p = []
  | Some (rest, name) => path_elems p = name :: path_elems rest ∧ (length rest < length p)%nat ∧ skip_slashes rest = rest
  end.
Proof.
  unfold skipelem. rewrite <- (path_elems_skip p). pose proof (skip_slashes_length p) as Hl.
  destruct (skip_slashes p) as [|c q] eqn:Es; [done|].
  assert ((c =? 47) = false) as Hc.
  { clear Hl. induction p as [|x p IH]; [done|]. cbn [skip_slashes] in Es. destruct (x =? 47) eqn:Ex; [by apply IH|]. by injection Es as -> ->. }
  destruct (split_elem (c :: q)) as [e r] eqn:Ee. destruct (split_elem_path _ _ _ Ee) as (Hp & Hs & Hlen).
  assert (e ≠ []) as Hne.
  { cbn [split_elem] in Ee. rewrite Hc in Ee. destruct (split_elem q). by injection Ee as <- _. }
  split; [|split].
  - unfold path_elems at 1. rewrite Hp, filter_cons_True by done. cbn [fmap list_fmap]. f_equal. rewrite path_elems_skip.
    destruct r as [|c' r']; [done|]. by rewrite (Hs c' r' eq_refl).
  - pose proof (skip_slashes_length r). destruct e; [done|]. cbn [length] in *. lia.
  - clear. induction r as [|x r IH]; [done|]. cbn [skip_slashes]. destruct (x =? 47) eqn:Ex; [done|]. cbn [skip_slashes]. by rewrite Ex.
Qed.

(** No elements are left when the rest of the path is empty. *)
Lemma path_elems_nil p : skip_slashes p = p → path_elems p = [] ↔ p = [].
Proof.
  intros Hp. split; [|by intros ->]. intros He. pose proof (skipelem_elems p) as H. unfold skipelem in H. rewrite Hp in H.
  destruct p as [|c p]; [done|]. destruct (split_elem (c :: p)). destruct H as [H _]. by rewrite He in H.
Qed.

(** * The tree *)

Section tree.
Context (sb : superblock) (dstart : Z) (v : list (list Z)).

(** Inode [inum] on the disk. *)
Definition inode_at (inum : Z) : inode :=
  let di := rd_dinode (dino_off inum) (v !!! Z.to_nat (IBLOCK inum sb)) in
  Inode 1 inum 0 initsleeplock true (di_type di) (di_major di) (di_minor di) (di_nlink di) (di_size di) (di_addrs di).
Definition live (inum : Z) : Prop := 0 <= inum < sb_ninodes sb ∧ i_type (inode_at inum) ≠ 0.

(** The directories are well formed, their entries name inodes in use, and an inode in use
    has a link. *)
Record tree_ok : Prop := {
  tr_root : live ROOTINO;
  tr_links : ∀ inum, live inum → i_nlink (inode_at inum) ≠ 0;
  tr_dir : ∀ inum, live inum → i_type (inode_at inum) = T_DIR → dir_ok sb dstart v (inode_at inum);
  tr_entries : ∀ inum j n, live inum → i_type (inode_at inum) = T_DIR →
    (j, n) ∈ dirents (content v (inode_at inum)) → j ≠ 0 → live j;
}.

(** The inode that a list of names leads to from directory [inum]. *)
Fixpoint resolve (names : list (list Z)) (inum : Z) : option Z :=
  match names with
  | [] => Some inum
  | n :: names' =>
      if i_type (inode_at inum) =? T_DIR then
        match dir_get n (content v (inode_at inum)) with Some j => resolve names' j | None => None end
      else None
  end.
(** The directory of the last name. *)
Definition resolve_parent (names : list (list Z)) (inum : Z) : option Z :=
  match names with
  | [] => None
  | _ => match resolve (removelast names) inum with
         | Some d => if i_type (inode_at d) =? T_DIR then Some d else None
         | None => None
         end
  end.

(** What [namex] looks for. *)
Definition find_path (parent : bool) (names : list (list Z)) (inum : Z) : option Z :=
  if parent then resolve_parent names inum else resolve names inum.

Lemma find_path_cons parent n names inum :
  find_path parent (n :: names) inum =
  if i_type (inode_at inum) =? T_DIR then
    if parent && bool_decide (names = []) then Some inum
    else match dir_get n (content v (inode_at inum)) with Some j => find_path parent names j | None => None end
  else None.
Proof.
  unfold find_path, resolve_parent. destruct parent; cbn [andb]; [|done]. case_bool_decide as Hn; [by subst|].
  destruct names as [|n' names]; [done|]. change (removelast (n :: n' :: names)) with (n :: removelast (n' :: names)). cbn [resolve].
  destruct (i_type (inode_at inum) =? T_DIR); [|done]. by destruct (dir_get n _).
Qed.

Lemma dir_find_elem name es k j inum : dir_find name es k = Some (j, inum) → inum ≠ 0 ∧ (inum, name) ∈ es.
Proof.
  revert k. induction es as [|[x n] es IH]; intros k; cbn [dir_find]; [done|].
  destruct (Z.eqb_spec x 0); [intros H; destruct (IH _ H); split; [done|by right]|].
  case_bool_decide as Hn; [intros [= <- <-]; subst; split; [done|by left]|intros H; destruct (IH _ H); split; [done|by right]].
Qed.

Lemma inode_at_disk inum : on_disk sb v (inode_at inum).
Proof. unfold on_disk, inode_at. cbn [i_inum to_dinode]. by destruct (rd_dinode _ _). Qed.
End tree.

(** * The inode cache *)

Section cache.
Context (pid st sz : Z) (E : string → Prop) (d0 : disk) (sb : superblock) (dstart : Z) (nb : nat).
Context (HY : layout st sz nb sb dstart).
Notation frel := (frel pid st sz d0).

(** Entry [j] of the cache is as the disk [v] says; [lk] is the entry that this thread has
    locked. *)
Record cached (v : list (list Z)) (lk : option nat) (j : nat) (x : inode) : Prop := {
  cd_ref : 0 <= i_ref x;
  cd_lock : if decide (lk = Some j) then i_lock x = SleepLock true pid ∧ i_valid x = true ∧ 0 < i_ref x
            else sl_locked (i_lock x) = false;
  cd_live : 0 < i_ref x → i_dev x = 1 ∧ live sb v (i_inum x);
  cd_valid : 0 < i_ref x → i_valid x = true → to_dinode x = to_dinode (inode_at sb v (i_inum x));
}.
Definition cache_ok (v : list (list Z)) (lk : option nat) (ino : list inode) : Prop :=
  ∀ j x, ino !! j = Some x → cached v lk j x.

(** The references to entry [j]. *)
Definition ref_at (ino : list inode) (j : nat) : Z := match ino !! j with Some x => i_ref x | None => 0 end.
Definition one (ip j : nat) : Z := if decide (j = ip) then 1 else 0.
(** An entry in use stays the entry of its inode. *)
Definition keeps (ino ino' : list inode) : Prop :=
  ∀ j x, ino !! j = Some x → 0 < i_ref x → ∃ x', ino' !! j = Some x' ∧ i_dev x' = i_dev x ∧ i_inum x' = i_inum x.

Lemma keeps_refl ino : keeps ino ino.
Proof. intros j x Hx _. by exists x. Qed.

Lemma keeps_trans ino1 ino2 ino3 :
  keeps ino1 ino2 → (∀ j, ref_at ino1 j <= ref_at ino2 j) → keeps ino2 ino3 → keeps ino1 ino3.
Proof.
  intros H1 Hr H2 j x Hx Hp. destruct (H1 j x Hx Hp) as (y & Hy & ? & ?). specialize (Hr j). unfold ref_at in Hr. rewrite Hx, Hy in Hr.
  destruct (H2 j y Hy ltac:(lia)) as (z & ? & ? & ?). exists z. split; [done|]. split; congruence.
Qed.

Lemma keeps_insert ino ip x x' :
  ino !! ip = Some x → (0 < i_ref x → i_dev x' = i_dev x ∧ i_inum x' = i_inum x) → keeps ino (<[ip := x']> ino).
Proof.
  intros Hx Hs j y Hy Hp. destruct (decide (j = ip)) as [->|].
  - rewrite list_lookup_insert_eq by (by eapply lookup_lt_Some). exists x'. simplify_eq. split; [done|by apply Hs].
  - rewrite list_lookup_insert_ne by done. by exists y.
Qed.

Lemma ref_at_insert ino ip x x' j :
  ino !! ip = Some x → ref_at (<[ip := x']> ino) j = ref_at ino j + (i_ref x' - i_ref x) * one ip j.
Proof.
  intros Hx. unfold ref_at, one. destruct (decide (j = ip)) as [->|].
  - rewrite list_lookup_insert_eq by (by eapply lookup_lt_Some). rewrite Hx. lia.
  - rewrite list_lookup_insert_ne by done. lia.
Qed.

(** [ino'] has [f j] more references to entry [j], and the entries in use stay. *)
Record grown (ino : list inode) (f : nat → Z) (ino' : list inode) : Prop := {
  gr_length : length ino' = length ino;
  gr_keeps : keeps ino ino';
  gr_refs : ∀ j, ref_at ino' j = ref_at ino j + f j;
}.

Lemma grown_refl ino : grown ino (λ _, 0) ino.
Proof. split; [done|apply keeps_refl|]. intros j. lia. Qed.

Lemma grown_ext ino f g ino' : grown ino f ino' → (∀ j, f j = g j) → grown ino g ino'.
Proof. intros [Hl Hk Hr] He. split; [done|done|]. intros j. by rewrite Hr, He. Qed.

Lemma grown_trans ino1 f ino2 g ino3 : (∀ j, 0 <= f j) → grown ino1 f ino2 → grown ino2 g ino3 → grown ino1 (λ j, f j + g j) ino3.
Proof.
  intros Hf [Hl1 Hk1 Hr1] [Hl2 Hk2 Hr2]. split; [congruence| |intros j; rewrite Hr2, Hr1; lia].
  eapply keeps_trans; [done| |done]. intros j. rewrite Hr1. specialize (Hf j). lia.
Qed.

Lemma grown_insert ino ip x y :
  ino !! ip = Some x → (0 < i_ref x → i_dev y = i_dev x ∧ i_inum y = i_inum x) → grown ino (λ j, (i_ref y - i_ref x) * one ip j) (<[ip := y]> ino).
Proof. intros Hx Hd. split; [apply length_insert|by eapply keeps_insert|]. intros j. by apply ref_at_insert. Qed.

Lemma one_nonneg ip j : 0 <= one ip j.
Proof. unfold one. case_decide; lia. Qed.

Lemma cache_insert v lk lk' ino ip x' :
  cache_ok v lk ino → cached v lk' ip x' → (∀ j, j ≠ ip → lk = Some j ↔ lk' = Some j) → cache_ok v lk' (<[ip := x']> ino).
Proof.
  intros Hc Hx Hlk j x Hj. destruct (decide (j = ip)) as [->|Hne].
  - rewrite list_lookup_insert_eq in Hj; [by simplify_eq|]. apply lookup_lt_Some in Hj. by rewrite length_insert in Hj.
  - rewrite list_lookup_insert_ne in Hj by done. destruct (Hc j x Hj) as [H1 H2 H3 H4]. split; [done| |done|done].
    specialize (Hlk j Hne). destruct (decide (lk = Some j)), (decide (lk' = Some j)); naive_solver.
Qed.

(** There is no room for two more inodes. *)
Definition cache_full (ino : list inode) : Prop := ∃ ip, ∀ j x, ino !! j = Some x → j ≠ ip → i_ref x ≠ 0.

Lemma iget_scan_full dev inum l k e : iget_scan dev inum l k e = inr None → ∀ j x, l !! j = Some x → i_ref x ≠ 0.
Proof.
  revert k e. induction l as [|x l IH]; intros k e; cbn [iget_scan]; [done|].
  destruct ((0 <? i_ref x) && _ && _) eqn:Ex; [done|]. intros H [|j] y Hy; [|by eapply IH].
  injection Hy as <-. pose proof (iget_scan_lookup dev inum l (S k) (if match e with None => i_ref x =? 0 | _ => false end then Some k else e)) as Hs.
  rewrite H in Hs. destruct e; [done|]. destruct (Z.eqb_spec (i_ref x) 0); [done|lia].
Qed.

Lemma iget_spec v lk l ino inum (Q : nat → cpu → fstate → Prop) :
  cache_ok v lk ino → live sb v inum → ((∀ j x, ino !! j = Some x → i_ref x ≠ 0) → E "iget: no inodes") →
  (∀ ip x ino', cache_ok v lk ino' → ino' !! ip = Some x → i_inum x = inum →
     grown ino (one ip) ino' → Q ip (cpu0 pid) (FState l sb ino')) →
  wp E (iget 1 inum) (cpu0 pid) (FState l sb ino) Q.
Proof.
  intros Hc Hl HE HQ. unfold wp. rewrite iget_eq. unfold igot. pose proof (iget_scan_lookup 1 inum ino 0 None) as Hs.
  assert (∀ ip x x', ino !! ip = Some x → i_ref x' = i_ref x + 1 → i_inum x' = inum → cached v lk ip x' →
    (0 < i_ref x → i_dev x' = i_dev x ∧ i_inum x' = i_inum x) → Q ip (cpu0 pid) (FState l sb (<[ip := x']> ino))) as Hput.
  { intros ip x x' Hx Hr Hn Hx' Hk. apply (HQ ip x').
    - by eapply cache_insert.
    - apply list_lookup_insert_eq. by eapply lookup_lt_Some.
    - done.
    - eapply grown_ext; [by eapply grown_insert|]. intros j. cbv beta. rewrite Hr. lia. }
  destruct (iget_scan 1 inum ino 0 None) as [ip|[ip|]] eqn:Es.
  - destruct Hs as (_ & x & Hx & Hr & Hdev & Hnum). rewrite Nat.sub_0_r in Hx. rewrite (alter_insert _ _ _ _ Hx).
    destruct (Hc ip x Hx) as [H1 H2 H3 H4]. apply (Hput ip x); [done|done|done| |done].
    split; cbn [set_iref i_ref i_lock i_valid i_dev i_inum]; [lia| |by intros _; apply H3|by intros _; apply H4].
    destruct (decide (lk = Some ip)); [|done]. destruct H2 as (? & ? & ?). split; [done|]. split; [done|lia].
  - destruct Hs as [?|(_ & x & Hx & Hr)]; [done|]. rewrite Nat.sub_0_r in Hx. rewrite (alter_insert _ _ _ _ Hx).
    destruct (Hc ip x Hx) as [H1 H2 H3 H4]. apply (Hput ip x); [done|cbn; lia|done| |lia].
    split; cbn; [lia| |done|done]. destruct (decide (lk = Some ip)); [lia|done].
  - apply HE. by eapply iget_scan_full.
Qed.

(** [ilock]: the entry is locked and holds what is on the disk. *)
Lemma ilock_spec l a ino ip x Q :
  frel l a → la_held a = ∅ → (length (la_bs a) < nbuf)%nat → length (la_view a) = nb →
  cache_ok (la_view a) None ino → ino !! ip = Some x → 0 < i_ref x →
  (∀ l' y, frel l' a → y = loaded pid x (inode_at sb (la_view a) (i_inum x)) → cache_ok (la_view a) (Some ip) (<[ip := y]> ino) →
     Q tt (cpu0 pid) (FState l' sb (<[ip := y]> ino))) →
  wp E (ilock (Some ip)) (cpu0 pid) (FState l sb ino) Q.
Proof using HY.
  intros HL Hh Hb Hnb Hc Hx Hr HQ. destruct (Hc ip x Hx) as [H1 H2 H3 H4]. rewrite decide_False in H2 by done. destruct (H3 Hr) as [Hdev [Hn Ht]].
  set (i := inode_at sb (la_view a) (i_inum x)) in *.
  assert (cache_ok (la_view a) (Some ip) (<[ip := loaded pid x i]> ino)) as Hc'.
  { eapply cache_insert; [exact Hc| |]. { split; [done| |by intros _; apply H3|done]. by rewrite decide_True. } intros j Hj. split; [done|]. intros [= ?]. done. }
  destruct (i_valid x) eqn:Ev.
  - specialize (H4 Hr eq_refl). unfold ilock. apply wp_bind. eapply wp_inodep; [done|]. apply wp_bind, wp_when; [lia|intros _].
    apply wp_bind. eapply eq_wp; [apply (acquiresleep_free (LkInode ip) (ChInode ip) (ino_getl ip) (ino_putl ip))|].
    { unfold ino_getl. cbn [fs_inode]. by rewrite (list_lookup_total_correct _ _ _ Hx). }
    unfold ino_putl. cbn [fs_l fs_sb fs_inode]. rewrite (alter_insert _ _ _ _ Hx).
    apply wp_bind. eapply wp_inodep; [apply list_lookup_insert_eq; by eapply lookup_lt_Some|]. cbn [set_ilock i_valid]. rewrite Ev. apply wp_when; [done|intros _].
    assert (set_ilock (SleepLock true pid) x = loaded pid x i) as -> by (unfold to_dinode in H4; fold i in H4; injection H4; unfold set_ilock, loaded; intros; congruence).
    by apply (HQ l).
  - eapply (ilock_load pid st sz E d0 sb dstart nb HY l a ino ip x i); try done; try lia; try apply inode_at_disk.
    intros l' HL'. by apply HQ.
Qed.

(** [iput] of an inode that has a link. *)
Lemma iput_spec v l ino ip x Q :
  cache_ok v None ino → tree_ok sb dstart v → ino !! ip = Some x → 0 < i_ref x →
  (∀ y, i_ref y = i_ref x - 1 → i_dev y = i_dev x → i_inum y = i_inum x → cache_ok v None (<[ip := y]> ino) →
     Q tt (cpu0 pid) (FState l sb (<[ip := y]> ino))) →
  wp E (iput ip) (cpu0 pid) (FState l sb ino) Q.
Proof.
  intros Hc Ht Hx Hr HQ. destruct (Hc ip x Hx) as [H1 H2 H3 H4]. rewrite decide_False in H2 by done. destruct (H3 Hr) as [Hdev Hlive].
  apply lookup_lt_Some in Hx as Hlt. unfold iput. apply wp_bind.
  eapply eq_wp; [apply (acquiresleep_free (LkInode ip) (ChInode ip) (ino_getl ip) (ino_putl ip))|].
  { unfold ino_getl. cbn [fs_inode]. by rewrite (list_lookup_total_correct _ _ _ Hx). }
  unfold ino_putl. cbn [fs_l fs_sb fs_inode]. rewrite (alter_insert _ _ _ _ Hx). apply wp_bind. eapply wp_inodep; [by apply list_lookup_insert_eq|].
  assert (i_valid x && (i_nlink x =? 0) = false) as Hv.
  { destruct (i_valid x) eqn:Ev; [|done]. specialize (H4 Hr eq_refl). injection H4 as _ _ _ Hn _ _. rewrite Hn. apply Z.eqb_neq, (tr_links _ _ _ Ht _ Hlive). }
  cbn [set_ilock i_valid i_nlink]. rewrite Hv. apply wp_bind, wp_when; [done|intros _].
  apply wp_bind. eapply eq_wp; [by apply (releasesleep_eq (LkInode ip) (ChInode ip) (ino_putl ip))|].
  unfold ino_putl. cbn [fs_l fs_sb fs_inode]. rewrite (alter_insert _ _ _ _ (list_lookup_insert_eq _ _ _ Hlt)), list_insert_insert_eq.
  apply wp_bind. eapply eq_wp; [apply acquire_cpu0|]. apply wp_bind. eapply wp_upd_inode; [by apply list_lookup_insert_eq|]. rewrite list_insert_insert_eq.
  eapply eq_wp; [apply release_cpu1|]. apply HQ; [done|done|done|]. eapply cache_insert; [exact Hc| |done].
  split; cbn [set_iref set_ilock i_ref i_lock i_valid i_dev i_inum]; [lia|done|by intros _; apply H3|intros _; by apply H4].
Qed.

Lemma iunlock_spec v l ino ip x Q :
  cache_ok v (Some ip) ino → ino !! ip = Some x →
  (cache_ok v None (<[ip := set_ilock initsleeplock x]> ino) → Q tt (cpu0 pid) (FState l sb (<[ip := set_ilock initsleeplock x]> ino))) →
  wp E (iunlock (Some ip)) (cpu0 pid) (FState l sb ino) Q.
Proof.
  intros Hc Hx HQ. destruct (Hc ip x Hx) as [H1 H2 H3 H4]. rewrite decide_True in H2 by done. destruct H2 as (Hlk & Hv & Hr).
  unfold iunlock. apply wp_bind. eapply eq_wp; [apply (holdingsleep_eq (LkInode ip) (ino_getl ip))|]. unfold ino_getl. cbn [fs_inode].
  rewrite (list_lookup_total_correct _ _ _ Hx), Hlk. cbn [sl_locked sl_pid]. rewrite Z.eqb_refl. apply wp_bind. eapply wp_inodep; [done|].
  apply wp_bind, wp_when; [cbn; lia|intros _]. eapply eq_wp; [by apply (releasesleep_eq (LkInode ip) (ChInode ip) (ino_putl ip))|].
  unfold ino_putl. cbn [fs_l fs_sb fs_inode]. rewrite (alter_insert _ _ _ _ Hx). apply HQ. eapply cache_insert; [exact Hc| |].
  - split; [done|done|done|done].
  - intros j Hj. split; [intros [= ?]; congruence|done].
Qed.

Lemma iunlockput_spec v l ino ip x Q :
  cache_ok v (Some ip) ino → tree_ok sb dstart v → ino !! ip = Some x →
  (∀ y, i_ref y = i_ref x - 1 → i_dev y = i_dev x → i_inum y = i_inum x → cache_ok v None (<[ip := y]> ino) →
     Q tt (cpu0 pid) (FState l sb (<[ip := y]> ino))) →
  wp E (iunlockput ip) (cpu0 pid) (FState l sb ino) Q.
Proof.
  intros Hc Ht Hx HQ. pose proof (cd_lock _ _ _ _ (Hc ip x Hx)) as Hlk. rewrite decide_True in Hlk by done.
  unfold iunlockput. apply wp_bind. eapply iunlock_spec; [done|done|]. intros Hc'.
  eapply (iput_spec v); [exact Hc'|done|apply list_lookup_insert_eq; by eapply lookup_lt_Some|cbn; tauto|]. intros y H1 H2 H3. rewrite list_insert_insert_eq.
  by apply HQ.
Qed.
End cache.

(** * [namex] *)

Section namex.
Context (pid st sz : Z) (E : string → Prop) (d0 : disk) (sb : superblock) (dstart : Z) (nb : nat).
Context (HY : layout st sz nb sb dstart).
Context (dsw : devsw) (a : labs) (Hheld : la_held a = ∅) (Hroom : (length (la_bs a) < nbuf)%nat) (Hlen : length (la_view a) = nb).
Context (Htree : tree_ok sb dstart (la_view a)).
Notation frel := (frel pid st sz d0).
Notation cache_ok := (cache_ok pid sb (la_view a)).

Lemma ref_at_nonneg lk ino j : cache_ok lk ino → 0 <= ref_at ino j.
Proof. intros Hc. unfold ref_at. destruct (ino !! j) as [x|] eqn:Hx; [|lia]. apply (cd_ref _ _ _ _ _ _ (Hc _ _ Hx)). Qed.

(** What a search leaves in the cache: one more reference, to the inode found. *)
Record found (ino : list inode) (o : option Z) (r : option nat) (ino' : list inode) : Prop := {
  fd_cache : cache_ok None ino';
  fd_inode : match o, r with
             | Some inum, Some ip => ∃ x, ino' !! ip = Some x ∧ i_dev x = 1 ∧ i_inum x = inum
             | None, None => True
             | _, _ => False
             end;
  fd_grown : grown ino (λ j, match r with Some ip => one ip j | None => 0 end) ino';
}.

Lemma dir_loaded x inum :
  i_dev x = 1 → live sb (la_view a) inum → i_type (inode_at sb (la_view a) inum) = T_DIR →
  dir_ok sb dstart (la_view a) (loaded pid x (inode_at sb (la_view a) inum)).
Proof using Htree.
  intros Hd Hl Ht. destruct (tr_dir _ _ _ Htree inum Hl Ht) as [_ H1 H2 H3]. split; [done|done| |done]. by destruct H2.
Qed.

Lemma namex_loop_spec fuel parent l ino0 ino ip inum path name Q :
  cache_ok None ino0 → frel l a → found ino0 (Some inum) (Some ip) ino → (length path < fuel)%nat →
  (cache_full ino0 → E "iget: no inodes") →
  (∀ l' r name' ino', frel l' a → found ino0 (find_path sb (la_view a) parent (path_elems path) inum) r ino' →
     (parent = true → r ≠ None → last (path_elems path) = Some name') →
     Q (r, name') (cpu0 pid) (FState l' sb ino')) →
  wp E (namex_loop dsw fuel ip path parent name) (cpu0 pid) (FState l sb ino) Q.
Proof using All.
  intros Hc0. revert l ino ip inum path name Q. induction fuel as [|fuel IH]; intros l ino ip inum path name Q HL Hf Hfuel HE HQ; [lia|].
  destruct Hf as [Hc (x & Hx & Hdev & Hnum) Hg]. pose proof (skipelem_elems path) as Hse. cbn [namex_loop].
  assert (0 < i_ref x) as Hpos.
  { pose proof (gr_refs _ _ _ Hg ip) as Hr. unfold ref_at at 1 in Hr. rewrite Hx in Hr. unfold one in Hr. rewrite decide_True in Hr by done.
    pose proof (ref_at_nonneg None ino0 ip Hc0). lia. }
  assert (∀ ino1 z y f, ino1 !! ip = Some z → grown ino0 (λ j, f j + one ip j) ino1 → (∀ j, 0 <= f j) → i_ref y = i_ref z - 1 → i_dev y = i_dev z →
    i_inum y = i_inum z → grown ino0 f (<[ip := y]> ino1)) as Hdrop.
  { intros ino1 z y f Hz Hg1 Hf Hry Hdy Hny. eapply grown_ext; [eapply grown_trans; [|exact Hg1|by eapply grown_insert]|].
    - intros j. specialize (Hf j). pose proof (one_nonneg ip j). lia.
    - intros j. cbv beta. rewrite Hry. lia. }
  destruct (skipelem path) as [[rest nm]|]; cycle 1.
  { destruct parent; [|apply wp_ret; by apply HQ; [..|split; [done|rewrite Hse; by exists x|done]|]].
    apply wp_bind. eapply iput_spec; [done|exact Htree|done|done|]. intros y H1 H2 H3 Hcy. apply wp_ret, HQ; [done| |done].
    split; [done|by rewrite Hse|]. eapply Hdrop; [done|exact Hg|done|done|done|done]. }
  destruct Hse as (Hse & Hrest & Hskip). assert (i_dev x = 1 ∧ live sb (la_view a) inum) as [_ Hlive] by (rewrite <- Hnum; apply (cd_live _ _ _ _ _ _ (Hc _ _ Hx) Hpos)).
  rewrite Hse, find_path_cons in HQ. apply wp_bind. eapply (ilock_spec pid st sz E d0 sb dstart nb HY l a ino ip x); [done..|].
  intros l1 y HL1 Hy Hc1. rewrite Hnum in Hy. set (i := inode_at sb (la_view a) inum) in *.
  assert (<[ip := y]> ino !! ip = Some y) as Hy1 by (apply list_lookup_insert_eq; by eapply lookup_lt_Some).
  assert (grown ino0 (one ip) (<[ip := y]> ino)) as Hg1.
  { eapply grown_ext; [eapply grown_trans; [|exact Hg|by eapply (grown_insert ino ip x y Hx); subst y]|]; [intros j; apply one_nonneg|].
    intros j. cbv beta. subst y. cbn [loaded i_ref]. lia. }
  assert (i_type y = i_type i) as Hty by (by subst y).
  apply wp_bind. eapply wp_inodep; [done|]. rewrite Hty.
  assert (∀ l', frel l' a → (∀ l' ino' , frel l' a → found ino0 None None ino' → Q (None, nm) (cpu0 pid) (FState l' sb ino')) →
    wp E (iunlockput ip ;; ret (None, nm)) (cpu0 pid) (FState l' sb (<[ip := y]> ino)) Q) as Hfail.
  { intros l' HL' HQ'. apply wp_bind. eapply iunlockput_spec; [done|exact Htree|done|]. intros z H1 H2 H3 Hcz. apply wp_ret, HQ'; [done|].
    split; [done|done|]. by eapply (Hdrop _ y). }
  destruct (Z.eqb_spec (i_type i) T_DIR) as [Hdir|]; cbn [negb]; [|apply Hfail; [done|]; intros; by apply HQ].
  rewrite (bool_decide_ext (path_elems rest = []) (rest = [])) in HQ by (by apply path_elems_nil).
  destruct (parent && bool_decide (rest = [])) eqn:Epar.
  { apply andb_true_iff in Epar as [-> Hr0%bool_decide_eq_true]. apply wp_bind. eapply iunlock_spec; [done|done|]. intros Hc2. apply wp_ret, HQ; [done| |by subst rest].
    split; [done| |].
    - eexists. split; [apply list_lookup_insert_eq, lookup_lt_is_Some; by eexists|]. subst y. done.
    - eapply grown_ext; [eapply grown_trans; [|exact Hg1|by eapply (grown_insert _ ip y (set_ilock initsleeplock y) Hy1)]|]; [intros j; apply one_nonneg|]. intros j. cbn [set_ilock i_ref]. lia. }
  apply wp_bind. eapply (dirlookup_spec pid st sz E d0 sb dstart nb HY dsw l1 a _ ip y nm); [done..|rewrite Hy; by apply dir_loaded|].
  intros l2 HL2. replace (content (la_view a) y) with (content (la_view a) i) by (by subst y). unfold dir_get in HQ.
  destruct (dir_find _ _ 0) as [[k jn]|] eqn:Ef; cbn [fmap option_fmap option_map snd] in HQ; [|apply Hfail; [done|]; intros; by apply HQ].
  destruct (dir_find_elem _ _ _ _ _ Ef) as [Hj0 Hjin].
  eapply (iget_spec pid E sb (la_view a) (Some ip)); [done|by eapply tr_entries| |].
  { intros Hfull. apply HE. exists ip. intros j z Hz Hne. pose proof (gr_refs _ _ _ Hg1 j) as Hrj. unfold one, ref_at in Hrj. rewrite decide_False, Hz in Hrj by done.
    destruct (<[ip := y]> ino !! j) as [w|] eqn:Ew; [specialize (Hfull j w Ew); lia|].
    apply lookup_ge_None in Ew. apply lookup_lt_Some in Hz. rewrite (gr_length _ _ _ Hg1) in Ew. lia. }
  intros nx w ino2 Hc2 Hw Hwn Hg2. pose proof (grown_trans _ _ _ _ _ (one_nonneg ip) Hg1 Hg2) as Hg3.
  destruct (gr_keeps _ _ _ Hg2 ip y Hy1) as (y2 & Hy2 & Hd2 & Hn2); [by subst y|].
  apply wp_bind. eapply iunlockput_spec; [done|exact Htree|done|]. intros z H1 H2 H3 Hcz.
  apply (IH l2 _ nx jn); [done| |lia|done|].
  - assert (grown ino0 (one nx) (<[ip := z]> ino2)) as Hg4.
    { eapply (Hdrop ino2 y2); [done|eapply grown_ext; [exact Hg3|]; intros j; cbv beta; lia|intros j; apply one_nonneg|done|done|done]. }
    split; [done| |done]. destruct (decide (nx = ip)) as [->|Hne].
    + exists z. split; [apply list_lookup_insert_eq; by eapply lookup_lt_Some|]. rewrite Hy2 in Hw. injection Hw as ->. split; [|congruence].
      rewrite H2, Hd2. by subst y.
    + exists w. rewrite list_lookup_insert_ne by done. split; [done|]. split; [|done].
      apply (cd_live _ _ _ _ _ _ (Hc2 _ _ Hw)). pose proof (gr_refs _ _ _ Hg2 nx) as Hr. unfold ref_at at 1 in Hr. rewrite Hw in Hr.
      unfold one in Hr. rewrite decide_True in Hr by done. pose proof (ref_at_nonneg (Some ip) _ nx Hc1). lia.
  - intros l3 r nm' ino3 HL3 Hf3 Hlast. apply HQ; [done|done|]. intros Hp Hr. specialize (Hlast Hp Hr). rewrite last_cons. by rewrite Hlast.
Qed.

(** The start of the search: the root directory or the current directory. *)
Definition start_inum (ino : list inode) (cwd : nat) (path : list Z) : Z :=
  match path with 47 :: _ => ROOTINO | _ => i_inum (ino !!! cwd) end.

Lemma namex_spec parent l ino cwd x path Q :
  cache_ok None ino → frel l a → ino !! cwd = Some x → 0 < i_ref x → (cache_full ino → E "iget: no inodes") →
  (∀ l' r name' ino', frel l' a → found ino (find_path sb (la_view a) parent (path_elems path) (start_inum ino cwd path)) r ino' →
     (parent = true → r ≠ None → last (path_elems path) = Some name') →
     Q (r, name') (cpu0 pid) (FState l' sb ino')) →
  wp E (namex dsw cwd path parent) (cpu0 pid) (FState l sb ino) Q.
Proof using All.
  intros Hc HL Hx Hp HE HQ. unfold namex. apply wp_bind.
  assert (∀ ip y ino', cache_ok None ino' → ino' !! ip = Some y → i_inum y = start_inum ino cwd path → grown ino (one ip) ino' →
    wp E (namex_loop dsw (S (length path)) ip path parent []) (cpu0 pid) (FState l sb ino') Q) as Hgo.
  { intros ip y ino' Hc' Hy Hn Hg. eapply namex_loop_spec; [exact Hc|exact HL| |lia|done|done]. split; [done| |done]. exists y. split; [done|]. split; [|done].
    apply (cd_live _ _ _ _ _ _ (Hc' _ _ Hy)). pose proof (gr_refs _ _ _ Hg ip) as Hr. unfold ref_at at 1 in Hr. rewrite Hy in Hr.
    unfold one in Hr. rewrite decide_True in Hr by done. pose proof (ref_at_nonneg None _ ip Hc). lia. }
  assert (wp E (idup cwd) (cpu0 pid) (FState l sb ino) (λ ip c s, ip = cwd ∧ c = cpu0 pid ∧ s = FState l sb (<[cwd := set_iref (λ r, r + 1) x]> ino))) as Hdup.
  { unfold idup. apply wp_bind. eapply eq_wp; [apply acquire_cpu0|]. apply wp_bind. eapply wp_upd_inode; [done|]. apply wp_bind.
    eapply eq_wp; [apply release_cpu1|]. by apply wp_ret. }
  assert (start_inum ino cwd path = i_inum x → wp E (idup cwd) (cpu0 pid) (FState l sb ino)
    (λ ip c s, wp E (namex_loop dsw (S (length path)) ip path parent []) c s Q)) as Hrel.
  { intros Hs. eapply wp_mono; [exact Hdup|]. intros ip c s (-> & -> & ->). destruct (Hc _ _ Hx) as [H1 H2 H3 H4].
    eapply Hgo; [|apply list_lookup_insert_eq; by eapply lookup_lt_Some|done|].
    - eapply cache_insert; [exact Hc| |done]. split; cbn; [lia|done|by intros _; apply H3|by intros _; apply H4].
    - eapply grown_ext; [by eapply grown_insert|]. intros j. cbn [set_iref i_ref]. lia. }
  assert (wp E (iget ROOTDEV ROOTINO) (cpu0 pid) (FState l sb ino) (λ ip c s, start_inum ino cwd path = ROOTINO → wp E (namex_loop dsw (S (length path)) ip path parent []) c s Q)) as Habs.
  { eapply (iget_spec pid E sb (la_view a) None); [done|apply (tr_root _ _ _ Htree)| |].
    - intros Hfull. apply HE. exists 0%nat. intros j y Hy _. by apply (Hfull j).
    - intros ip y ino' Hc' Hy Hn Hg Hs. eapply Hgo; [done|done|congruence|done]. }
  pose proof (list_lookup_total_correct _ _ _ Hx) as Htot.
  assert (path = 47 :: tail path ∨ start_inum ino cwd path = i_inum x ∧ (∀ {A} (u w : A), match path with 47 :: _ => u | _ => w end = w)) as [Hp47|[Hs Hm]].
  { unfold start_inum. rewrite Htot. destruct path as [|[|c|c] path']; [by right..| |by right]. repeat (destruct c as [c|c|]; try (by right)). by left. }
  - rewrite Hp47 at 1. cbv iota. eapply wp_mono; [exact Habs|]. intros ip c s Hq. apply Hq. unfold start_inum. by rewrite Hp47.
  - rewrite Hm. by apply Hrel.
Qed.
End namex.
