(* ===== verification/FsDirProps.v ===== *)
(** Directories and path names: adding a name is atomic, and [namei] and [nameiparent]
    find the inodes that the directories on the disk say. *)
From stdpp Require Import base list numbers strings sets gmap relations.
From Stdlib Require Import ZArith Lia.
From S2P Require Import Prelude Params Machine Spinlock Sleeplock CString Bio BioRing BioSpec.
From S2P Require Import Log LogSpec LogCommit LogRecover LogOps Fs FsBlocks FsProps FsInode FsContent FsWrite FsFileProps FsDir FsPath.
Local Open Scope Z_scope.
Local Open Scope xv6_scope.

(** * Adding a name *)


Lemma free_slot_full es k : free_slot es k = (k + length es)%nat → Forall (λ e, e.1 ≠ 0) es.
Proof.
  revert k. induction es as [|[j n] es IH]; intros k; [done|]. cbn [free_slot length]. destruct (Z.eqb_spec j 0); [lia|].
  intros Hk. constructor; [done|]. apply (IH (S k)). lia.
Qed.

(** The bytes [dirlink] stores. *)
Definition linked (name : list Z) (inum : Z) (c : list Z) : list Z :=
  splice (16 * free_slot (dirents c) 0) (make_dirent name inum) c.

(** They add the name, and nothing else. *)
Lemma linked_get name inum c :
  (length c mod 16 = 0)%nat → 0 < inum < 2 ^ 16 → dir_get name c = None →
  dir_get name (linked name inum c) = Some inum ∧
  ∀ n, cstr dirsiz n ≠ cstr dirsiz name → dir_get n (linked name inum c) = dir_get n c.
Proof.
  intros Hm Hi Hn. pose proof (free_slot_bounds (dirents c) 0) as Hb. rewrite length_dirents in Hb. pose proof (Nat.div_mod_eq (length c) 16).
  unfold dir_get in *. apply fmap_None in Hn. destruct (dir_find_put inum (cstr dirsiz name) (dirents c) 0 ltac:(lia) Hn) as [H1 H2]. rewrite Nat.sub_0_r in *.
  unfold linked. rewrite dirents_put by lia. split; [by rewrite H1|]. intros n Hne. by rewrite H2.
Qed.

(** C8: Adding a name to a directory is atomic.  Boot a disk with an empty log, on which [i] is a
    directory that does not have the name and has room for one more entry, and call
    [dirlink] in a transaction.  If every entry is taken and the disk has no free block the
    kernel panics.  Otherwise the call returns 0, and the directory has the new name with
    the inode number given, every other name as before, and every other file is as it was.
    Cut the power after any number [j] of the block writes, and in any number of
    recoveries: the next boot returns, and the disk has the directory as it was when [j] is
    below the commit point, and with the new name from there on. *)
Theorem dirlink_crash_safe pid st sz sb dstart ino img dsw dp i name inum :
  log_image img st sz [] [] → layout st sz (length img) sb dstart →
  (∀ b, 0 <= b < dstart → used img sb b = true) → 25 < sz →
  ino !! dp = Some i → dir_ok sb dstart img i → on_disk sb img i → inode_range sb i →
  0 < inum < 2 ^ 16 → dir_get name (content img i) = None → i_size i + 16 <= MAXFILE * BSIZE →
  let run := fs_txn (dirlink dsw dp name inum) (cpu0 pid) (FState (power_up img) sb ino) in
  (Forall (λ e, e.1 ≠ 0) (dirents (content img i)) ∧ run = Panic "balloc: out of blocks") ∨
  ∃ l i' cp new, run = Ret 0 (cpu0 pid) (FState l sb (<[dp := i']> ino)) ∧
    dir_get name new = Some inum ∧
    (∀ n, cstr dirsiz n ≠ cstr dirsiz name → dir_get n new = dir_get n (content img i)) ∧
    file_holds sb dstart (d_img (bs_disk (ls_b l))) i' new ∧
    (∀ f, other_file sb dstart img i f → file_holds sb dstart (d_img (bs_disk (ls_b l))) f (content img f)) ∧
    ∀ j img', rtc (failed_boot pid) (apply_writes (take j (d_writes (bs_disk (ls_b l)))) img) img' →
      ∃ s, boot (cpu0 pid) (power_up img') = Ret tt (cpu0 pid) s ∧
        (if decide (j < cp)%nat then file_holds sb dstart (d_img (bs_disk (ls_b s))) i (content img i)
         else file_holds sb dstart (d_img (bs_disk (ls_b s))) i' new) ∧
        ∀ f, other_file sb dstart img i f → file_holds sb dstart (d_img (bs_disk (ls_b s))) f (content img f).
Proof.
  intros Himg HY Hmeta Hsz Hi Hd Hdisk Hr Hin Hnone Hfit run.
  pose proof (dir_content_length _ _ _ _ Hd) as [Hlen Hm]. set (c := content img i) in *. set (k := free_slot (dirents c) 0).
  pose proof (free_slot_bounds (dirents c) 0) as Hb. fold k in Hb. rewrite length_dirents in Hb. pose proof (Nat.div_mod_eq (length c) 16) as Hdm. rewrite Hm in Hdm.
  assert (file_holds sb dstart img i c) as Hh by (split; [apply (do_file _ _ _ _ Hd)|done|done]).
  pose proof (store_txn pid st sz sb dstart ino img Himg HY Hmeta Hsz
    (λ msg, Forall (λ e, e.1 ≠ 0) (dirents c) ∧ msg = "balloc: out of blocks"%string) (dirlink dsw dp name inum) dp i (make_dirent name inum) (16 * Z.of_nat k) 0 Hr Hh) as Hwp.
  apply wp_eq in Hwp as [(r & cu & s & Heq & Hpost)|(msg & Heq & Hfull & ->)]; [right|left; split; [exact Hfull|exact Heq]|].
  - destruct (stores_safely pid st sz sb dstart ino img HY dp i _ _ 0 r cu s Hr Hh Hpost) as (l & i' & cp & H1 & H2 & H3 & H4).
    exists l, i', cp, (linked name inum c). destruct (linked_get name inum c Hm Hin Hnone) as [Hg1 Hg2]. unfold run. rewrite Heq.
    replace (Z.to_nat (16 * Z.of_nat k)) with (16 * k)%nat in * by lia. split; [exact H1|]. split; [exact Hg1|]. split; [exact Hg2|]. split; [exact H2|]. split; [exact H3|exact H4].
  - intros l d v HL Ht Hhv. assert (dir_ok sb dstart v i) as Hdv by (destruct Hd as [A1 A2 _ A4]; split; [exact A1|exact A2|exact (fh_ok _ _ _ _ _ Hhv)|exact A4]).
    pose proof (fh_content _ _ _ _ _ Hhv) as Hcv.
    eapply (dirlink_spec pid st sz _ d sb dstart (length img) HY dsw 0 l _ ino dp i name inum _ HL); [eapply tstate_le; [|exact Ht]; lia|done|done|done|..]; cbn [la_view]; rewrite Hcv; fold c k.
    + by apply fmap_None in Hnone.
    + lia.
    + intros Hlt. split; [|reflexivity]. apply (free_slot_full _ 0). rewrite length_dirents. fold k. lia.
    + intros l' a' i' HL' Ht' Hw. split; [reflexivity|]. split; [reflexivity|]. exists l', a', i'. split; [reflexivity|]. split; [exact HL'|]. split; [exact Ht'|exact Hw].
Qed.

(** * Paths *)

Section same.
Context {st sz : Z} {nb : nat} {sb : superblock} {dstart : Z} (HY : layout st sz nb sb dstart).
Context (v v' : list (list Z)) (Hs : same_data st sz v' v).

(** The log is no part of the tree. *)
Lemma inode_at_same inum : 0 <= inum < sb_ninodes sb → inode_at sb v' inum = inode_at sb v inum.
Proof using HY Hs.
  intros Hn. destruct (IBLOCK_range HY _ Hn) as (_ & H1 & H2 & H3). unfold inode_at.
  by rewrite (list_lookup_total_alt v'), Hs, <- list_lookup_total_alt by lia.
Qed.

Lemma live_same inum : live sb v' inum ↔ live sb v inum.
Proof using HY Hs. unfold live. split; intros [Hn Ht]; (split; [done|]); [rewrite <- inode_at_same|rewrite inode_at_same]; done. Qed.

Lemma dir_same inum :
  tree_ok sb dstart v → live sb v inum → i_type (inode_at sb v inum) = T_DIR →
  dir_ok sb dstart v' (inode_at sb v inum) ∧ content v' (inode_at sb v inum) = content v (inode_at sb v inum).
Proof using HY Hs.
  intros Ht Hl Hd. destruct (tr_dir _ _ _ Ht inum Hl Hd) as [H1 H2 H3 H4].
  destruct (data_same_file v v' _ (same_data_same HY v v' Hs) H3) as (Hok & Hc & _). split; [|exact Hc]. split; [exact H1|exact H2|exact Hok|exact H4].
Qed.

Lemma tree_same : tree_ok sb dstart v → tree_ok sb dstart v'.
Proof using HY Hs.
  intros Ht. pose proof Ht as [H1 H2 H3 H4]. split.
  - by apply live_same.
  - intros inum Hl%live_same. rewrite inode_at_same by apply Hl. by apply H2.
  - intros inum Hl%live_same. rewrite inode_at_same by apply Hl. intros Hd. by apply dir_same.
  - intros inum j n Hl%live_same. rewrite inode_at_same by apply Hl. intros Hd. destruct (dir_same inum Ht Hl Hd) as [_ ->]. rewrite live_same. by apply H4.
Qed.

Lemma cache_same pid lk ino : cache_ok pid sb v lk ino → cache_ok pid sb v' lk ino.
Proof using HY Hs.
  intros Hc j x Hx. destruct (Hc j x Hx) as [H1 H2 H3 H4]. split; [done|done|..].
  - intros Hp. rewrite live_same. by apply H3.
  - intros Hp Hv. destruct (H3 Hp) as [_ [Hn _]]. rewrite inode_at_same by done. by apply H4.
Qed.

Lemma resolve_same names inum : tree_ok sb dstart v → live sb v inum → resolve sb v' names inum = resolve sb v names inum.
Proof using HY Hs.
  intros Ht. revert inum. induction names as [|n names IH]; intros inum Hl; [done|]. cbn [resolve]. rewrite inode_at_same by apply Hl.
  destruct (Z.eqb_spec (i_type (inode_at sb v inum)) T_DIR) as [Hd|]; [|done]. destruct (dir_same inum Ht Hl Hd) as [_ ->].
  unfold dir_get. destruct (dir_find _ _ 0) as [[k j]|] eqn:Ef; [|done]. destruct (dir_find_elem _ _ _ _ _ Ef) as [Hj Hin]. cbn.
  apply IH. by eapply (tr_entries _ _ _ Ht inum).
Qed.

Lemma resolve_live names inum d : tree_ok sb dstart v → live sb v inum → resolve sb v names inum = Some d → live sb v d.
Proof using.
  intros Ht. revert inum. induction names as [|n names IH]; intros inum Hl; cbn [resolve]; [by intros [= <-]|].
  destruct (Z.eqb_spec (i_type (inode_at sb v inum)) T_DIR) as [Hd|]; [|done].
  unfold dir_get. destruct (dir_find _ _ 0) as [[k j]|] eqn:Ef; [|done]. destruct (dir_find_elem _ _ _ _ _ Ef) as [Hj Hin]. cbn.
  apply IH. by eapply (tr_entries _ _ _ Ht inum).
Qed.

Lemma find_path_same parent names inum : tree_ok sb dstart v → live sb v inum → find_path sb v' parent names inum = find_path sb v parent names inum.
Proof using HY Hs.
  intros Ht Hl. unfold find_path, resolve_parent. destruct parent; [|by apply resolve_same]. destruct names as [|n names]; [done|].
  rewrite resolve_same by done. destruct (resolve sb v _ inum) as [d|] eqn:Er; [|done]. by rewrite inode_at_same by (by apply (resolve_live _ _ _ Ht Hl Er)).
Qed.
End same.

(** The cache after a search, for a reader of the disk [img]. *)
Lemma boot_namex pid st sz sb dstart ino img dsw cwd x path parent :
  log_image img st sz [] [] → layout st sz (length img) sb dstart → tree_ok sb dstart img →
  cache_ok pid sb img None ino → ino !! cwd = Some x → 0 < i_ref x →
  let run := (lg boot ;; namex dsw cwd path parent) (cpu0 pid) (FState (power_up img) sb ino) in
  (cache_full ino ∧ run = Panic "iget: no inodes") ∨
  ∃ r name l ino', run = Ret (r, name) (cpu0 pid) (FState l sb ino') ∧
    match find_path sb img parent (path_elems path) (start_inum ino cwd path), r with
    | Some inum, Some ip => ∃ x, ino' !! ip = Some x ∧ i_dev x = 1 ∧ i_inum x = inum
    | None, None => True
    | _, _ => False
    end ∧ (parent = true → r ≠ None → last (path_elems path) = Some name) ∧
    grown ino (λ j, match r with Some ip => one ip j | None => 0 end) ino' ∧
    same_data st sz (d_img (bs_disk (ls_b l))) img.
Proof.
  intros Himg HY Ht Hc Hx Hp run.
  assert (live sb img (start_inum ino cwd path)) as Hst.
  { destruct (cd_live _ _ _ _ _ _ (Hc cwd x Hx) Hp) as [_ Hl]. unfold start_inum. rewrite (list_lookup_total_correct _ _ _ Hx).
    pose proof (tr_root _ _ _ Ht). destruct path as [|[|c|c] path']; [done..| |done]. repeat (destruct c as [c|c|]; try done). }
  assert (wp (λ msg, cache_full ino ∧ msg = "iget: no inodes"%string) (lg boot ;; namex dsw cwd path parent) (cpu0 pid) (FState (power_up img) sb ino)
    (λ q c s, c = cpu0 pid ∧ ∃ r name l ino', q = (r, name) ∧ s = FState l sb ino' ∧
       match find_path sb img parent (path_elems path) (start_inum ino cwd path), r with
       | Some inum, Some ip => ∃ x, ino' !! ip = Some x ∧ i_dev x = 1 ∧ i_inum x = inum
       | None, None => True
       | _, _ => False
       end ∧ (parent = true → r ≠ None → last (path_elems path) = Some name) ∧
       grown ino (λ j, match r with Some ip => one ip j | None => 0 end) ino' ∧
       same_data st sz (d_img (bs_disk (ls_b l))) img)) as Hwp.
  { apply wp_bind, wp_lift. cbn [fs_l fs_sb fs_inode]. eapply boot_lrel; [exact Himg|].
    intros l1 v rw HL1 Hd1 Hv _ Hsame Hlen. cbn in Hsame. set (a := LAbs v v ∅ [] 0 0).
    assert (frel pid st sz (bs_disk (ls_b l1)) l1 a) as HF by (split; [exact HL1|reflexivity]).
    eapply (namex_spec pid st sz _ _ sb dstart (length img) HY dsw a); [reflexivity|cbn; sizes; lia|exact Hlen|exact (tree_same HY img v Hsame Ht)| |exact HF|exact Hx|exact Hp|by intros|].
    { exact (cache_same HY img v Hsame pid None ino Hc). }
    intros l2 r nm ino' [HL2 Hd2] [_ Hi Hg] Hlast. split; [reflexivity|]. exists r, nm, l2, ino'. split; [reflexivity|]. split; [reflexivity|].
    cbn [la_view a] in Hi. rewrite (find_path_same HY img v Hsame) in Hi by done. split; [exact Hi|]. split; [exact Hlast|]. split; [exact Hg|].
    rewrite Hd2, Hd1. cbn. by rewrite <- Hv. }
  apply wp_eq in Hwp as [(q & c & s & Heq & -> & r & nm & l & ino' & -> & -> & Hrest)|(msg & Heq & Hfull & ->)]; [right|left; split; [exact Hfull|exact Heq]].
  exists r, nm, l, ino'. split; [exact Heq|exact Hrest].
Qed.

Lemma then_bind {S A B C} (m : M S A) (n : M S B) (f : B → M S C) c s : (m ;; x <- n ;; f x) c s = (x <- (m ;; n) ;; f x) c s.
Proof. unfold bind. by destruct (m c s). Qed.

(** C18: [namei] resolves path names.  Boot a disk with an empty log that has a well-formed tree,
    and look up any path with any consistent inode cache.  The call returns the cache entry
    of the inode that the elements of the path lead to - from the root directory if the path
    starts with a slash, from the current directory if it does not - and no entry when an
    element is missing or a directory on the way is not one.  Entries in use stay the entries of
    their inodes, the entry returned gets one more reference and no other reference is gained
    or lost, and the disk does not change.  The only panic is that of a cache with room for
    fewer than two more inodes. *)
Theorem namei_resolves pid st sz sb dstart ino img dsw cwd x path :
  log_image img st sz [] [] → layout st sz (length img) sb dstart → tree_ok sb dstart img →
  cache_ok pid sb img None ino → ino !! cwd = Some x → 0 < i_ref x →
  let run := (lg boot ;; namei dsw cwd path) (cpu0 pid) (FState (power_up img) sb ino) in
  (cache_full ino ∧ run = Panic "iget: no inodes") ∨
  ∃ r l ino', run = Ret r (cpu0 pid) (FState l sb ino') ∧
    match resolve sb img (path_elems path) (start_inum ino cwd path), r with
    | Some inum, Some ip => ∃ x, ino' !! ip = Some x ∧ i_dev x = 1 ∧ i_inum x = inum
    | None, None => True
    | _, _ => False
    end ∧ grown ino (λ j, match r with Some ip => one ip j | None => 0 end) ino' ∧
    same_data st sz (d_img (bs_disk (ls_b l))) img.
Proof.
  intros Himg HY Ht Hc Hx Hp run. unfold run, namei. rewrite then_bind.
  destruct (boot_namex pid st sz sb dstart ino img dsw cwd x path false Himg HY Ht Hc Hx Hp) as [[Hf Heq]|(r & nm & l & ino' & Heq & Hr & _ & Hg & Hs)].
  - left. split; [exact Hf|]. unfold bind at 1. by rewrite Heq.
  - right. exists r, l, ino'. rewrite (bind_eq _ _ _ _ _ _ _ Heq). split; [reflexivity|]. split; [exact Hr|]. split; [exact Hg|exact Hs].
Qed.

(** [nameiparent] finds the directory of the last element of a path, which must be a
    directory, and hands out that last element; the path without elements has no parent.
    The last name itself need not exist.  References and the disk are as for [namei]. *)
Theorem nameiparent_resolves pid st sz sb dstart ino img dsw cwd x path :
  log_image img st sz [] [] → layout st sz (length img) sb dstart → tree_ok sb dstart img →
  cache_ok pid sb img None ino → ino !! cwd = Some x → 0 < i_ref x →
  let run := (lg boot ;; nameiparent dsw cwd path) (cpu0 pid) (FState (power_up img) sb ino) in
  (cache_full ino ∧ run = Panic "iget: no inodes") ∨
  ∃ r name l ino', run = Ret (r, name) (cpu0 pid) (FState l sb ino') ∧
    match resolve_parent sb img (path_elems path) (start_inum ino cwd path), r with
    | Some inum, Some ip => (∃ x, ino' !! ip = Some x ∧ i_dev x = 1 ∧ i_inum x = inum) ∧ last (path_elems path) = Some name
    | None, None => True
    | _, _ => False
    end ∧ grown ino (λ j, match r with Some ip => one ip j | None => 0 end) ino' ∧
    same_data st sz (d_img (bs_disk (ls_b l))) img.
Proof.
  intros Himg HY Ht Hc Hx Hp run. unfold run, nameiparent.
  destruct (boot_namex pid st sz sb dstart ino img dsw cwd x path true Himg HY Ht Hc Hx Hp) as [[Hf Heq]|(r & nm & l & ino' & Heq & Hr & Hl & Hg & Hs)].
  - left. split; [exact Hf|exact Heq].
  - right. exists r, nm, l, ino'. split; [exact Heq|]. split; [|split; [exact Hg|exact Hs]]. unfold find_path in Hr.
    destruct (resolve_parent _ _ _ _), r; try exact Hr. split; [exact Hr|by apply Hl].
Qed.

(** * A file system with directories *)

(** The root directory, inode 1 in block 34, has a free entry and a directory [d], inode 2 in block 35, which
    has a file [f], inode 3, that is empty. *)
Definition root_dir : inode := Inode 1 1 1 (SleepLock false 0) true T_DIR 0 0 1 64 (34 :: replicate 12 0).
Definition sub_dir : inode := Inode 1 2 1 (SleepLock false 0) true T_DIR 0 0 1 48 (35 :: replicate 12 0).
Definition sub_file : inode := Inode 1 3 1 (SleepLock false 0) true T_FILE 0 0 1 0 (replicate 13 0).
Definition dir_block (es : list (list Z * Z)) : list Z := let b := es ≫= (λ e, make_dirent e.1 e.2) in b ++ replicate (bsize - length b) 0.
Definition tree_image : list (list Z) :=
  <[35%nat := dir_block [([46], 2); ([46; 46], 1); ([102], 3)]]> (<[34%nat := dir_block [([46], 1); ([46; 46], 1); ([], 0); ([100], 2)]]>
    (<[33%nat := [255; 255; 255; 255; 15] ++ replicate (bsize - 5) 0]>
      (<[32%nat := wr_dinode (dino_off 3) (to_dinode sub_file) (wr_dinode (dino_off 2) (to_dinode sub_dir) (wr_dinode (dino_off 1) (to_dinode root_dir) (replicate bsize 0)))]>
        (<[1%nat := wr 4 12 30 (wr 4 16 2 (replicate bsize 0))]> (replicate 40 (replicate bsize 0)))))).

Lemma tree_log_image : log_image tree_image 2 30 [] [].
Proof.
  split; try done; try (cbn; sizes; lia).
  - apply (bool_decide_unpack _). vm_compute. exact I.
  - eexists. split; [reflexivity|]. split; vm_compute; reflexivity.
  - eexists. split; [reflexivity|]. split; [vm_compute; reflexivity|done].
  - set_solver.
Qed.
Lemma tree_used b : 0 <= b < 36 → used tree_image one_super b = true.
Proof.
  intros Hb. assert (forallb (λ k, used tree_image one_super (Z.of_nat k)) (seq 0 36) = true) as H by (vm_compute; reflexivity).
  rewrite forallb_forall in H. specialize (H (Z.to_nat b)). rewrite Z2Nat.id in H by lia. apply H, in_seq. lia.
Qed.

(** A directory of one block. *)
Lemma tree_dir_ok i b :
  i_dev i = 1 → i_type i = T_DIR → 0 < i_size i <= 512 → i_size i mod 16 = 0 → length (i_addrs i) = S ndirect → (b = 34 ∨ b = 35) →
  forallb (λ k, islot tree_image i k =? match k with 0%nat => b | _ => 0 end) (seq 0 141) = true →
  dir_ok one_super 34 tree_image i.
Proof.
  intros Hd Ht Hs Hm Ha Hb H.
  assert (∀ k, (k <= maxfile)%nat → islot tree_image i k = match k with 0%nat => b | _ => 0 end) as Hslot.
  { intros k Hk. rewrite forallb_forall in H. apply Z.eqb_eq, H, in_seq. fsizes. lia. }
  split; [done|done| |done]. split; [done|fsizes; lia|..].
  - intros k Hk. rewrite Hslot by done. intros Hne. rewrite tree_used; [|destruct k; lia]. cbn. destruct k; lia.
  - intros k k' Hk Hk' Hne. rewrite !Hslot by done. destruct k, k'; lia.
  - intros k Hk. rewrite Hslot by lia. fsizes. destruct k; lia.
Qed.

Lemma tree_live inum : live one_super tree_image inum → inum = 1 ∨ inum = 2 ∨ inum = 3.
Proof.
  intros [Hn Ht]. cbn in Hn.
  assert (forallb (λ k, (i_type (inode_at one_super tree_image (Z.of_nat k)) =? 0) || (1 <=? Z.of_nat k) && (Z.of_nat k <=? 3)) (seq 0 8) = true) as H by (vm_compute; reflexivity).
  rewrite forallb_forall in H. specialize (H (Z.to_nat inum)). rewrite Z2Nat.id in H by lia.
  assert (In (Z.to_nat inum) (seq 0 8)) as Hin by (apply in_seq; lia). specialize (H Hin). apply Z.eqb_neq in Ht. rewrite Ht in H. lia.
Qed.
Lemma live_tree inum : inum = 1 ∨ inum = 2 ∨ inum = 3 → live one_super tree_image inum.
Proof. intros [->|[->| ->]]; (split; [cbn; lia|vm_compute; discriminate]). Qed.

Lemma tree_tree_ok : tree_ok one_super 34 tree_image.
Proof.
  split.
  - apply live_tree. by left.
  - intros inum [->|[->| ->]]%tree_live; vm_compute; discriminate.
  - intros inum [->|[->| ->]]%tree_live Ht; [eapply (tree_dir_ok _ 34)|eapply (tree_dir_ok _ 35)|by vm_compute in Ht]; first [vm_compute; reflexivity|lia|split; vm_compute; first [reflexivity|discriminate]].
  - assert (∀ es, Forall (λ e : Z * list Z, e.1 ≠ 0 → e.1 = 1 ∨ e.1 = 2 ∨ e.1 = 3) es → ∀ j n, (j, n) ∈ es → j ≠ 0 → live one_super tree_image j) as Hes.
    { intros es Hf j n Hin Hj. apply live_tree. by apply (proj1 (Forall_forall _ _) Hf (j, n)). }
    intros inum j n [->|[->| ->]]%tree_live Ht; [apply Hes|apply Hes|by vm_compute in Ht]; vm_compute; repeat constructor; lia.
Qed.

(** A cache with the root directory, and room. *)
Definition tree_cache : list inode := root_dir :: replicate 3 (Inode 0 0 0 initsleeplock false 0 0 0 0 0 []).

Lemma tree_cache_ok : cache_ok 1 one_super tree_image None tree_cache.
Proof.
  intros j x Hx. assert (x = root_dir ∧ j = 0%nat ∨ x = Inode 0 0 0 initsleeplock false 0 0 0 0 0 []) as [[-> ->]| ->].
  { destruct j as [|j]; [left; by injection Hx as <-|right]. cbn in Hx. change (replicate 3 (Inode 0 0 0 initsleeplock false 0 0 0 0 0 []) !! j = Some x) in Hx. by apply lookup_replicate in Hx as [-> _]. }
  - split; [done|done|intros _; split; [done|apply live_tree; by left]|intros _ _; vm_compute; reflexivity].
  - split; [done|done|done|done].
Qed.
Lemma tree_cache_room : cache_full tree_cache → False.
Proof. intros [ip H]. destruct (decide (ip = 1%nat)) as [->|Hne]; [by apply (H 2%nat _ eq_refl)|by apply (H 1%nat _ eq_refl)]. Qed.

(** The path "//d/f" leads to inode 3, and "d/f/x" to nothing. *)
Lemma namei_resolves_witness :
  (∃ ip l x ino, (lg boot ;; namei (Devsw (λ _, None) (λ _, None)) 0 [47; 47; 100; 47; 102]) (cpu0 1) (FState (power_up tree_image) one_super tree_cache) =
      Ret (Some ip) (cpu0 1) (FState l one_super ino) ∧ ino !! ip = Some x ∧ i_inum x = 3) ∧
  (∃ l ino, (lg boot ;; namei (Devsw (λ _, None) (λ _, None)) 0 [100; 47; 102; 47; 120]) (cpu0 1) (FState (power_up tree_image) one_super tree_cache) =
      Ret None (cpu0 1) (FState l one_super ino) ∧ ∀ j, ref_at ino j = ref_at tree_cache j).
Proof.
  split.
  - destruct (namei_resolves 1 2 30 one_super 34 tree_cache tree_image (Devsw (λ _, None) (λ _, None)) 0 root_dir [47; 47; 100; 47; 102]
      tree_log_image one_layout tree_tree_ok tree_cache_ok eq_refl eq_refl) as [[Hf _]|(r & l & ino' & Heq & Hr & _)]; [by apply tree_cache_room in Hf|].
    assert (resolve one_super tree_image (path_elems [47; 47; 100; 47; 102]) (start_inum tree_cache 0 [47; 47; 100; 47; 102]) = Some 3) as E by (vm_compute; reflexivity).
    rewrite E in Hr. destruct r as [ip|]; [|contradiction]. destruct Hr as (x & Hx & _ & Hn). exists ip, l, x, ino'. split; [exact Heq|]. split; [exact Hx|exact Hn].
  - destruct (namei_resolves 1 2 30 one_super 34 tree_cache tree_image (Devsw (λ _, None) (λ _, None)) 0 root_dir [100; 47; 102; 47; 120]
      tree_log_image one_layout tree_tree_ok tree_cache_ok eq_refl eq_refl) as [[Hf _]|(r & l & ino' & Heq & Hr & Hg & _)]; [by apply tree_cache_room in Hf|].
    assert (resolve one_super tree_image (path_elems [100; 47; 102; 47; 120]) (start_inum tree_cache 0 [100; 47; 102; 47; 120]) = None) as E by (vm_compute; reflexivity).
    rewrite E in Hr. destruct r as [ip|]; [contradiction|]. exists l, ino'. split; [exact Heq|]. intros j. rewrite (gr_refs _ _ _ Hg). lia.
Defined.

(** The parent of "d/new" is inode 2. *)
Lemma nameiparent_resolves_witness :
  ∃ ip l x ino, (lg boot ;; nameiparent (Devsw (λ _, None) (λ _, None)) 0 [100; 47; 110; 101; 119]) (cpu0 1) (FState (power_up tree_image) one_super tree_cache) =
      Ret (Some ip, [110; 101; 119]) (cpu0 1) (FState l one_super ino) ∧ ino !! ip = Some x ∧ i_inum x = 2.
Proof.
  destruct (nameiparent_resolves 1 2 30 one_super 34 tree_cache tree_image (Devsw (λ _, None) (λ _, None)) 0 root_dir [100; 47; 110; 101; 119]
    tree_log_image one_layout tree_tree_ok tree_cache_ok eq_refl eq_refl) as [[Hf _]|(r & nm & l & ino' & Heq & Hr & _)]; [by apply tree_cache_room in Hf|].
  assert (resolve_parent one_super tree_image (path_elems [100; 47; 110; 101; 119]) (start_inum tree_cache 0 [100; 47; 110; 101; 119]) = Some 2) as E by (vm_compute; reflexivity).
  rewrite E in Hr. destruct r as [ip|]; [|contradiction]. destruct Hr as [(x & Hx & _ & Hn) Hl].
  assert (nm = [110; 101; 119]) as -> by (vm_compute in Hl; by injection Hl as <-).
  exists ip, l, x, ino'. split; [exact Heq|]. split; [exact Hx|exact Hn].
Defined.

(** The root directory gets the name "g". *)
Lemma dirlink_crash_safe_witness :
  ∃ l i' new, fs_txn (dirlink (Devsw (λ _, None) (λ _, None)) 0 [103] 3) (cpu0 1) (FState (power_up tree_image) one_super tree_cache) =
      Ret 0 (cpu0 1) (FState l one_super (<[0%nat := i']> tree_cache)) ∧
    file_holds one_super 34 (d_img (bs_disk (ls_b l))) i' new ∧ dir_get [103] new = Some 3 ∧ dir_get [100] new = Some 2.
Proof.
  destruct (dirlink_crash_safe 1 2 30 one_super 34 tree_cache tree_image (Devsw (λ _, None) (λ _, None)) 0 root_dir [103] 3 tree_log_image one_layout)
    as [[Hp _]|(l & i' & cp & new & Heq & Hg & Ho & Hh & _)].
  - intros b Hb. apply tree_used. lia.
  - lia.
  - reflexivity.
  - eapply (tree_dir_ok _ 34); first [vm_compute; reflexivity|lia|split; vm_compute; first [reflexivity|discriminate]].
  - vm_compute. reflexivity.
  - split; split; vm_compute; first [reflexivity|discriminate].
  - lia.
  - vm_compute. reflexivity.
  - cbn. fsizes. lia.
  - exfalso. assert (dirents (content tree_image root_dir) !! 2%nat = Some (0, [])) as E by (vm_compute; reflexivity). by apply (Forall_lookup_1 _ _ _ _ Hp E).
  - exists l, i', new. split; [exact Heq|]. split; [exact Hh|]. split; [exact Hg|]. rewrite Ho by (vm_compute; discriminate). vm_compute. reflexivity.
Defined.
