(* ===== verification/Mkfs.v ===== *)
(** The program that makes the file system image ([mkfs.c]), run on a little-endian host
    whose file operations succeed: the image is the list of its blocks, and an
    [exit(1)] or a failed [assert] is [None]. *)
From stdpp Require Import base list numbers strings sets gmap option.
From Stdlib Require Import ZArith Lia.
From S2P Require Import Prelude Params Machine Spinlock Sleeplock CString Bio Log Fs FsBlocks.
Local Open Scope Z_scope.

Definition NINODES : Z := 200.
Definition nbitmap : Z := FSSIZE / (BSIZE * 8) + 1.
Definition ninodeblocks : Z := NINODES / IPB + 1.
Definition nlog : Z := LOGSIZE.
Definition nmeta : Z := 2 + nlog + ninodeblocks + nbitmap.
Definition nblocks : Z := FSSIZE - nmeta.

(** [sb], as [main] fills it in. *)
Definition sb : superblock :=
  Superblock FSSIZE nblocks NINODES nlog 2 (2 + nlog) (2 + nlog + ninodeblocks).
(** Its bytes in memory. *)
Definition sb_bytes (sb : superblock) : list Z :=
  [sb_size sb; sb_nblocks sb; sb_ninodes sb; sb_nlog sb; sb_logstart sb; sb_inodestart sb; sb_bmapstart sb] ≫= le_bytes 4.

(** The image file, [freeinode] and [freeblock]. *)
Record mstate := MState { m_img : list (list Z); m_freeinode : Z; m_freeblock : Z }.

(** Writing behind the end of the file fills the gap with zeroes. *)
Definition wsect (sec : Z) (buf : list Z) (s : mstate) : mstate :=
  let img := m_img s in
  let n := Z.to_nat sec in
  MState (if decide (n < length img)%nat then <[n := buf]> img
          else img ++ replicate (n - length img) zeros ++ [buf]) (m_freeinode s) (m_freeblock s).
Definition rsect (sec : Z) (s : mstate) : option (list Z) := m_img s !! Z.to_nat sec.

Definition winode (inum : Z) (ip : dinode) (s : mstate) : option mstate :=
  let bn := IBLOCK inum sb in
  buf ← rsect bn s;
  Some (wsect bn (wr_dinode (dino_off inum) ip buf) s).
Definition rinode (inum : Z) (s : mstate) : option dinode :=
  buf ← rsect (IBLOCK inum sb) s;
  Some (rd_dinode (dino_off inum) buf).

Definition ialloc (type : Z) (s : mstate) : option (Z * mstate) :=
  let inum := m_freeinode s in
  s ← winode inum (DInode type 0 0 1 0 (replicate (S ndirect) 0))
        (MState (m_img s) (u32 (m_freeinode s + 1)) (m_freeblock s));
  Some (inum, s).

(** The loop of [balloc]: the first [used] blocks are in use. *)
Definition balloc_buf (used : Z) : list Z := fold_left (λ buf i, map_set i buf) (seqZ 0 used) zeros.
Definition balloc (used : Z) (s : mstate) : option mstate :=
  if used <? BSIZE * 8 then Some (wsect (sb_bmapstart sb) (balloc_buf used) s) else None.

(** [freeblock++] *)
Definition bump (s : mstate) : mstate := MState (m_img s) (m_freeinode s) (u32 (m_freeblock s + 1)).
Definition set_addr (k : nat) (x : Z) (din : dinode) : dinode :=
  DInode (di_type din) (di_major din) (di_minor din) (di_nlink din) (di_size din) (<[k := x]> (di_addrs din)).
Definition set_dsize (x : Z) (din : dinode) : dinode :=
  DInode (di_type din) (di_major din) (di_minor din) (di_nlink din) x (di_addrs din).

(** The block for block [fbn] of the file, looked up in the indirect block. *)
Definition iappend_indirect (din : dinode) (fbn : Z) (s : mstate) : option (Z * dinode * mstate) :=
  let ind := di_addrs din !!! ndirect in
  let o := Z.to_nat (4 * (fbn - NDIRECT)) in
  indirect ← rsect ind s;
  if rd 4 o indirect =? 0 then
    Some (m_freeblock s, din, wsect ind (wr 4 o (m_freeblock s) indirect) (bump s))
  else Some (rd 4 o indirect, din, s).

(** The first half of the loop of [iappend]: the block [x] for block [fbn] of the file,
    with the inode and the state that go with it. *)
Definition iappend_block (din : dinode) (fbn : Z) (s : mstate) : option (Z * dinode * mstate) :=
  if fbn <? NDIRECT then
    if di_addrs din !!! Z.to_nat fbn =? 0 then
      Some (m_freeblock s, set_addr (Z.to_nat fbn) (m_freeblock s) din, bump s)
    else Some (di_addrs din !!! Z.to_nat fbn, din, s)
  else if di_addrs din !!! ndirect =? 0
  then iappend_indirect (set_addr ndirect (m_freeblock s) din) fbn (bump s)
  else iappend_indirect din fbn s.

Fixpoint iappend_loop (fuel : nat) (din : dinode) (off : Z) (p : list Z) (s : mstate)
    : option (dinode * Z * mstate) :=
  match fuel with
  | O => None
  | S fuel' =>
      match p with
      | [] => Some (din, off, s)
      | _ =>
          let fbn := off / BSIZE in
          if MAXFILE <=? fbn then None
          else
            r ← iappend_block din fbn s;
            let '(x, din, s) := r in
            let n1 := Z.min (Z.of_nat (length p)) ((fbn + 1) * BSIZE - off) in
            buf ← rsect x s;
            iappend_loop fuel' din (off + n1) (drop (Z.to_nat n1) p)
              (wsect x (splice (Z.to_nat (off - fbn * BSIZE)) (take (Z.to_nat n1) p) buf) s)
      end
  end.

(** Every turn writes at least one byte. *)
Definition iappend (inum : Z) (xp : list Z) (s : mstate) : option mstate :=
  din ← rinode inum s;
  r ← iappend_loop (S (length xp)) din (di_size din) xp s;
  let '(din, off, s) := r in
  winode inum (set_dsize (u32 off) din) s.

(** A file of the command line: its name, and what the [read]s of its contents return. *)
Definition hostfile : Type := list Z * list (list Z).

Fixpoint append_all (inum : Z) (chunks : list (list Z)) (s : mstate) : option mstate :=
  match chunks with
  | [] => Some s
  | c :: chunks' => s ← iappend inum c s; append_all inum chunks' s
  end.

(** The leading [_] of a name is skipped. *)
Definition strip (name : list Z) : list Z :=
  match name with 95 :: name' => name' | _ => name end.

Definition add_file (rootino : Z) (f : hostfile) (s : mstate) : option mstate :=
  if existsb (Z.eqb 47) f.1 then None
  else
    r ← ialloc T_FILE s;
    let '(inum, s) := r in
    s ← iappend rootino (make_dirent (strip f.1) inum) s;
    append_all inum f.2 s.

Fixpoint add_files (rootino : Z) (files : list hostfile) (s : mstate) : option mstate :=
  match files with
  | [] => Some s
  | f :: files' => s ← add_file rootino f s; add_files rootino files' s
  end.

(** The image before the first inode: zeroes and the superblock. *)
Definition mkfs_start : mstate :=
  let s := fold_left (λ s i, wsect i zeros s) (seqZ 0 FSSIZE) (MState [] 1 nmeta) in
  wsect 1 (splice 0 (sb_bytes sb) zeros) s.

Definition main (files : list hostfile) : option (list (list Z)) :=
  r ← ialloc T_DIR mkfs_start;
  let '(rootino, s) := r in
  if negb (rootino =? ROOTINO) then None
  else
    s ← iappend rootino (make_dirent [46] rootino) s;
    s ← iappend rootino (make_dirent [46; 46] rootino) s;
    s ← add_files rootino files s;
    (* fix size of root inode dir *)
    din ← rinode rootino s;
    s ← winode rootino (set_dsize (u32 ((di_size din / BSIZE + 1) * BSIZE)) din) s;
    s ← balloc (m_freeblock s) s;
    Some (m_img s).
