(* ===== verification/MkfsSpec.v ===== *)
(** The image [mkfs] is building, seen as a file system: the invariant of the image, and
    [iappend] and [ialloc] as operations on files. *)
From stdpp Require Import base list numbers strings sets gmap option.
From Stdlib Require Import ZArith Lia.
From S2P Require Import Prelude Params Machine Spinlock Sleeplock CString Bio BioRing BioSpec.
From S2P Require Import Log LogSpec LogCommit LogRecover LogOps Fs FsBlocks FsInode FsContent FsWrite Mkfs.
Local Open Scope Z_scope.

(** * The free map *)

Lemma balloc_buf_S n : 0 <= n → balloc_buf (n + 1) = map_set n (balloc_buf n).
Proof.
  intros Hn. unfold balloc_buf. rewrite seqZ_app by lia. rewrite fold_left_app. reflexivity.
Qed.

Lemma balloc_buf_spec n :
  0 <= n <= BPB → length (balloc_buf n) = bsize ∧ ∀ b, 0 <= b < BPB → map_bit (balloc_buf n) b = (b <? n).
Proof.
  intros [Hn Hm]. revert Hm. pattern n. apply natlike_ind; [|clear n Hn|done].
  - intros _. split; [apply length_replicate|]. intros b Hb. rewrite map_bit_test.
    change (balloc_buf 0) with zeros. rewrite zeros_lookup.
    + rewrite Z.bits_0. symmetry. apply Z.ltb_ge. lia.
    + unfold BPB in Hb. assert (b / 8 < BSIZE) by (apply Z.div_lt_upper_bound; lia).
      assert (0 <= b / 8) by (apply Z.div_pos; lia). fsizes. lia.
  - intros n Hn IH Hm. destruct IH as [IHl IHb]; [lia|]. rewrite <- Z.add_1_r, balloc_buf_S by done.
    split; [by rewrite map_set_length|]. intros b Hb. rewrite map_bit_set by (try done; lia). rewrite IHb by done.
    case_decide; lia.
Qed.

(** * The image as a file system *)

(** The layout of the image: the log in blocks 2 to 31, inodes from 32, the free map in
    block 58, data from block 59 on. *)
Lemma mk_layout : layout 2 30 1000 sb 59.
Proof.
  split; try (vm_compute; intuition discriminate).
  - split; [vm_compute; discriminate|]. split; [vm_compute; reflexivity|]. intros b Hb.
    change (sb_size sb) with 1000 in Hb. change (sb_bmapstart sb) with 58.
    rewrite Z.div_small; [lia|]. unfold BPB, BSIZE. lia.
  - split; [vm_compute; discriminate|]. split; [vm_compute; reflexivity|]. intros i Hi.
    change (sb_ninodes sb) with 200 in Hi. change (sb_bmapstart sb) with 58. change (sb_inodestart sb) with 32. change IPB with 8.
    assert (i / 8 < 26) by (apply Z.div_lt_upper_bound; lia). lia.
Qed.

(** The image with the free map [mkfs] will write at the end. *)
Definition vview (s : mstate) : list (list Z) := <[58%nat := balloc_buf (m_freeblock s)]> (m_img s).

Record mk_base (s : mstate) : Prop := {
  mb_len : length (m_img s) = 1000%nat;
  mb_block : ∀ n d, m_img s !! n = Some d → length d = bsize;
  mb_free : 59 <= m_freeblock s <= 1000;
  mb_zero : ∀ b, m_freeblock s <= b < 1000 → m_img s !! Z.to_nat b = Some zeros;
  mb_super : m_img s !! 1%nat = Some (splice 0 (sb_bytes sb) zeros);
  mb_log : m_img s !! 2%nat = Some zeros;
}.

(** The same, as the state of a transaction. *)
Definition va (s : mstate) : labs := LAbs (vview s) (vview s) ∅ [] 1 0.

Section base.
Context (s : mstate) (Hs : mk_base s).

Lemma vview_len : length (vview s) = 1000%nat.
Proof using Hs. unfold vview. rewrite length_insert. apply (mb_len _ Hs). Qed.

Lemma vview_block n d : vview s !! n = Some d → length d = bsize.
Proof using Hs.
  unfold vview. intros [(<- & <- & _)|[_ Hd]]%list_lookup_insert_Some; [|by eapply (mb_block _ Hs)].
  apply balloc_buf_spec. pose proof (mb_free _ Hs). unfold BPB, BSIZE. lia.
Qed.

Lemma vview_used b : 0 <= b < 1000 → used (vview s) sb b = (b <? m_freeblock s).
Proof using Hs.
  intros Hb. unfold used. assert (BBLOCK b sb = 58) as ->.
  { unfold BBLOCK. rewrite Z.div_small by (unfold BPB, BSIZE; lia). reflexivity. }
  unfold vview. rewrite list_lookup_total_insert_eq by (rewrite (mb_len _ Hs); lia).
  pose proof (mb_free _ Hs). rewrite Z.mod_small by (unfold BPB, BSIZE; lia).
  apply balloc_buf_spec; unfold BPB, BSIZE; lia.
Qed.

Lemma vview_zero b : m_freeblock s <= b < 1000 → vview s !! Z.to_nat b = Some zeros.
Proof using Hs.
  intros Hb. pose proof (mb_free _ Hs). unfold vview. rewrite list_lookup_insert_ne by lia. by apply (mb_zero _ Hs).
Qed.

Lemma va_tstate : tstate 30 1000 sb 59 ∅ 20 (va s).
Proof using Hs.
  pose proof (mb_free _ Hs). split; try done.
  - split; [|done]. cbn. intros b Hb. rewrite vview_used by lia. apply Z.ltb_lt. lia.
  - apply vview_len.
  - intros n d. apply vview_block.
  - unfold room. cbn. rewrite map_size_empty. sizes. lia.
Qed.

(** [freeblock++] is the allocation of a block. *)
Lemma vview_bump : m_freeblock s < 1000 → vview (bump s) = la_view (la_alloc sb (m_freeblock s) (va s)).
Proof using Hs.
  intros Hf. pose proof (mb_free _ Hs). cbn [la_alloc la_write la_view va].
  assert (BBLOCK (m_freeblock s) sb = 58) as ->.
  { unfold BBLOCK. rewrite Z.div_small by (unfold BPB, BSIZE; lia). reflexivity. }
  rewrite Z.mod_small by (unfold BPB, BSIZE; lia). unfold vview at 2.
  rewrite list_lookup_total_insert_eq by (rewrite (mb_len _ Hs); lia). rewrite <- balloc_buf_S by lia.
  unfold vview, bump. cbn [m_img m_freeblock]. rewrite u32_small by lia. rewrite list_insert_insert_eq.
  rewrite (list_insert_id _ (Z.to_nat (m_freeblock s)) zeros); [done|].
  rewrite list_lookup_insert_ne by lia. apply (mb_zero _ Hs). lia.
Qed.

Lemma bump_base : m_freeblock s < 1000 → mk_base (bump s).
Proof using Hs.
  intros Hf. destruct Hs as [H1 H2 H3 H4 H5 H6]. unfold bump. split; cbn [m_img m_freeblock]; try done; rewrite u32_small by lia.
  - lia.
  - intros b Hb. apply H4. lia.
Qed.

(** Writing a block. *)
Lemma wsect_img n d : 0 <= n < 1000 → wsect n d s = MState (<[Z.to_nat n := d]> (m_img s)) (m_freeinode s) (m_freeblock s).
Proof using Hs. intros Hn. unfold wsect. rewrite decide_True; [done|]. rewrite (mb_len _ Hs). lia. Qed.
Lemma wsect_vview n d : 0 <= n < 1000 → n ≠ 58 → vview (wsect n d s) = <[Z.to_nat n := d]> (vview s).
Proof using Hs.
  intros Hn H58. rewrite wsect_img by done. unfold vview. cbn [m_img m_freeblock]. apply list_insert_insert_ne. lia.
Qed.
Lemma wsect_base n d :
  length d = bsize → 3 <= n < m_freeblock s → mk_base (wsect n d s).
Proof using Hs.
  intros Hd Hn. pose proof (mb_free _ Hs). rewrite wsect_img by lia. destruct Hs as [H1 H2 H3 H4 H5 H6].
  split; cbn [m_img m_freeblock]; try done.
  - by rewrite length_insert.
  - intros k e [(<- & <- & _)|[_ He]]%list_lookup_insert_Some; [done|by eapply H2].
  - intros b Hb. rewrite list_lookup_insert_ne by lia. by apply H4.
  - rewrite list_lookup_insert_ne by lia. done.
  - rewrite list_lookup_insert_ne by lia. done.
Qed.
Lemma rsect_vview n : 0 <= n → n ≠ 58 → rsect n s = vview s !! Z.to_nat n.
Proof. intros Hn H58. unfold rsect, vview. rewrite list_lookup_insert_ne by lia. done. Qed.
End base.

(** * iappend *)

(** The inode that [din] is, as the kernel will load it. *)
Definition inode_of (inum : Z) (din : dinode) : inode :=
  Inode 1 inum 1 initsleeplock true (di_type din) (di_major din) (di_minor din) (di_nlink din) (di_size din) (di_addrs din).

(** The inode has exactly the blocks a file of [m] bytes needs. *)
Definition exact (v : list (list Z)) (i : inode) (m : Z) : Prop :=
  (∀ k, (k < maxfile)%nat → islot v i k ≠ 0 ↔ Z.of_nat k * BSIZE < m) ∧ (iind i ≠ 0 ↔ NDIRECT * BSIZE < m).

(** How many blocks that are. *)
Definition nslots (m : Z) : Z := (m + BSIZE - 1) / BSIZE + (if NDIRECT * BSIZE <? m then 1 else 0).

(** What a turn at [off] allocates. *)
Definition turn_cost (off : Z) : Z :=
  if off mod BSIZE =? 0 then (if off / BSIZE =? NDIRECT then 2 else 1) else 0.

Lemma nslots_turn off n :
  0 <= off → 0 < n → off mod BSIZE + n <= BSIZE → nslots (off + n) = nslots off + turn_cost off.
Proof.
  intros Ho Hn Hle. unfold nslots, turn_cost. fsizes.
  pose proof (Z.div_mod off 512 ltac:(lia)). pose proof (Z.mod_pos_bound off 512 ltac:(lia)).
  assert ((off + n + 512 - 1) / 512 = off / 512 + 1) as ->.
  { symmetry. apply Z.div_unique with (r := off mod 512 + n - 1); lia. }
  destruct (Z.eqb_spec (off mod 512) 0) as [E|E].
  - assert ((off + 512 - 1) / 512 = off / 512) as ->.
    { symmetry. apply Z.div_unique with (r := 511); lia. }
    destruct (Z.eqb_spec (off / 512) 12); repeat case_match; lia.
  - assert ((off + 512 - 1) / 512 = off / 512 + 1) as ->.
    { symmetry. apply Z.div_unique with (r := off mod 512 - 1); lia. }
    repeat case_match; lia.
Qed.

Lemma nslots_mono m m' : 0 <= m <= m' → nslots m <= nslots m'.
Proof.
  intros H. unfold nslots. fsizes. assert ((m + 512 - 1) / 512 <= (m' + 512 - 1) / 512) by (apply Z.div_le_mono; lia).
  repeat case_match; lia.
Qed.

(** Slot [bn] is missing exactly when [off] starts a new block. *)
Lemma exact_slot v i off :
  exact v i off → 0 <= off < MAXFILE * BSIZE → islot v i (Z.to_nat (off / BSIZE)) = 0 ↔ off mod BSIZE = 0.
Proof.
  intros [He _] Ho. destruct (block_lt off MAXFILE Ho). specialize (He (Z.to_nat (off / BSIZE)) (block_slot off Ho)).
  rewrite Z2Nat.id in He by lia. pose proof (Z.div_mod off BSIZE ltac:(done)). pose proof (Z.mod_pos_bound off BSIZE ltac:(done)).
  fsizes. lia.
Qed.

(** After the turn the inode has the blocks for the bytes written. *)
Lemma exact_turn v i v' i' off n :
  exact v i off → 0 <= off < MAXFILE * BSIZE → 0 < n → off mod BSIZE + n <= BSIZE →
  (∀ k, (k <= maxfile)%nat → islot v' i' k ≠ 0 ↔
     islot v i k ≠ 0 ∨ k = Z.to_nat (off / BSIZE) ∨ (k = maxfile ∧ NDIRECT <= off / BSIZE)) →
  exact v' i' (off + n).
Proof.
  intros [He Hi] Ho Hn Hle Hsl. pose proof (block_slot off Ho) as Hb.
  pose proof (Z.div_mod off BSIZE ltac:(done)). pose proof (Z.mod_pos_bound off BSIZE ltac:(done)).
  destruct (block_lt off MAXFILE Ho). split.
  - intros k Hk. rewrite Hsl by lia. rewrite He by done. fsizes. lia.
  - rewrite <- (islot_ind v'), Hsl, islot_ind, Hi by lia. fsizes. lia.
Qed.

Notation mgrow := (grow sb 59).
Notation mfile := (file_ok sb 59).

(** One block, allocated in slot [k0] of the inode. *)
Lemma mk_grow_inode s i k0 :
  mk_base s → m_freeblock s < 1000 → mfile (vview s) i → (k0 <= ndirect)%nat →
  islot (vview s) i (if decide (k0 < ndirect)%nat then k0 else maxfile) = 0 →
  let i' := set_addrs (<[k0 := m_freeblock s]> (i_addrs i)) i in
  mgrow (vview s) i (vview (bump s)) i' ∧
  ∀ k, (k <= maxfile)%nat → islot (vview (bump s)) i' k =
    if decide (k = if decide (k0 < ndirect)%nat then k0 else maxfile) then m_freeblock s else islot (vview s) i k.
Proof.
  intros Hs Hf Hok Hk0 Hz i'. pose proof (mb_free _ Hs). rewrite vview_bump by done.
  apply (grow_inode mk_layout ∅ 20 (va s) (va_tstate s Hs) i Hok (m_freeblock s)); try done.
  - change (sb_size sb) with 1000. lia.
  - cbn [la_view va]. rewrite vview_used by (try done; lia). apply Z.ltb_ge. lia.
Qed.

(** One block, allocated in the indirect block. *)
Lemma mk_grow_through s i k0 d :
  mk_base s → m_freeblock s < 1000 → mfile (vview s) i → (ndirect <= k0 < maxfile)%nat → iind i ≠ 0 →
  islot (vview s) i k0 = 0 → vview s !! Z.to_nat (iind i) = Some d →
  let s' := wsect (iind i) (wr 4 (4 * (k0 - ndirect)) (m_freeblock s) d) (bump s) in
  mgrow (vview s) i (vview s') i ∧ mk_base s' ∧
  ∀ k, (k <= maxfile)%nat → islot (vview s') i k = if decide (k = k0) then m_freeblock s else islot (vview s) i k.
Proof.
  intros Hs Hf Hok Hk0 Hind Hz Hd s'. pose proof (mb_free _ Hs). pose proof (bump_base s Hs Hf) as Hb.
  destruct (fo_slot _ _ _ _ Hok maxfile (le_n _) Hind) as [Hr Hu]. rewrite islot_ind in Hr, Hu.
  change (sb_size sb) with 1000 in Hr. rewrite vview_used in Hu by (try done; lia). apply Z.ltb_lt in Hu.
  destruct (grow_through mk_layout ∅ 20 (va s) (va_tstate s Hs) i Hok (m_freeblock s)) with (k0 := k0) (d := d) as [Hg Hsl]; try done.
  { change (sb_size sb) with 1000. lia. }
  { cbn [la_view va]. rewrite vview_used by (try done; lia). apply Z.ltb_ge. lia. }
  rewrite <- (vview_bump s Hs Hf) in Hg, Hsl. cbn [la_view va] in Hg, Hsl.
  rewrite <- (wsect_vview (bump s) Hb) in Hg, Hsl by lia. split; [done|]. split; [|done].
  apply wsect_base; [done| |].
  - rewrite length_wr; [exact (vview_block s Hs _ _ Hd)|]. rewrite (vview_block s Hs _ _ Hd). fsizes. lia.
  - unfold bump. cbn [m_freeblock]. rewrite u32_small by lia. lia.
Qed.

(** The result of [iappend_block]: slot [bn] is there now, and nothing else but possibly the
    indirect block. *)
Record block_added (s : mstate) (i : inode) (off : Z) (x : Z) (s' : mstate) (i' : inode) : Prop := {
  ba_base : mk_base s';
  ba_freeinode : m_freeinode s' = m_freeinode s;
  ba_free : m_freeblock s' = m_freeblock s + turn_cost off;
  ba_grow : mgrow (vview s) i (vview s') i';
  ba_slot : islot (vview s') i' (Z.to_nat (off / BSIZE)) = x;
  ba_same : islot (vview s) i (Z.to_nat (off / BSIZE)) ≠ 0 → i' = i;
  ba_slots : ∀ k, (k <= maxfile)%nat → islot (vview s') i' k ≠ 0 ↔
     islot (vview s) i k ≠ 0 ∨ k = Z.to_nat (off / BSIZE) ∨ (k = maxfile ∧ NDIRECT <= off / BSIZE);
}.

(** The indirect block is there, and block [bn] of the file is not ... *)
Lemma iappend_indirect_new inum s din bn :
  let i := inode_of inum din in
  mk_base s → m_freeblock s < 1000 → mfile (vview s) i → NDIRECT <= bn < MAXFILE → di_addrs din !!! ndirect ≠ 0 →
  islot (vview s) i (Z.to_nat bn) = 0 →
  ∃ s', iappend_indirect din bn s = Some (m_freeblock s, din, s') ∧ mk_base s' ∧ m_freeinode s' = m_freeinode s ∧
    m_freeblock s' = m_freeblock s + 1 ∧ mgrow (vview s) i (vview s') i ∧
    ∀ k, (k <= maxfile)%nat → islot (vview s') i k = if decide (k = Z.to_nat bn) then m_freeblock s else islot (vview s) i k.
Proof.
  intros i Hs Hf Hok Hbn Hind Hsl. pose proof (mb_free _ Hs).
  destruct (fo_slot _ _ _ _ Hok maxfile (le_n _) Hind) as [Hr Hu]. rewrite islot_ind in Hr, Hu.
  change (sb_size sb) with 1000 in Hr. change (iind i) with (di_addrs din !!! ndirect) in Hr, Hu.
  destruct (lookup_lt_is_Some_2 (vview s) (Z.to_nat (di_addrs din !!! ndirect))) as [d Hd]; [rewrite vview_len by done; lia|].
  unfold iappend_indirect. rewrite (rsect_vview s), Hd by lia. cbn [mbind option_bind].
  assert (rd 4 (Z.to_nat (4 * (bn - NDIRECT))) d = 0) as ->.
  { rewrite <- Hsl. unfold islot. change (iind i) with (di_addrs din !!! ndirect).
    rewrite !decide_False by (try done; fsizes; lia). rewrite (list_lookup_total_correct _ _ _ Hd). f_equal. fsizes. lia. }
  cbn [Z.eqb]. eexists. split; [reflexivity|].
  destruct (mk_grow_through s i (Z.to_nat bn) d) as (Hg2 & Hb2 & Hsl2); try done; [fsizes; lia|].
  change (iind i) with (di_addrs din !!! ndirect) in Hg2, Hb2, Hsl2.
  replace (4 * (Z.to_nat bn - ndirect))%nat with (Z.to_nat (4 * (bn - NDIRECT))) in Hg2, Hb2, Hsl2 by (fsizes; lia).
  split; [done|]. split; [by rewrite wsect_img by (try (by apply bump_base); lia)|].
  split; [rewrite wsect_img by (try (by apply bump_base); lia); cbn; rewrite u32_small; lia|]. done.
Qed.

(** ... and it is. *)
Lemma iappend_indirect_old inum s din bn :
  let i := inode_of inum din in
  mk_base s → mfile (vview s) i → NDIRECT <= bn < MAXFILE → di_addrs din !!! ndirect ≠ 0 →
  islot (vview s) i (Z.to_nat bn) ≠ 0 → iappend_indirect din bn s = Some (islot (vview s) i (Z.to_nat bn), din, s).
Proof.
  intros i Hs Hok Hbn Hind Hsl. pose proof (mb_free _ Hs).
  destruct (fo_slot _ _ _ _ Hok maxfile (le_n _) Hind) as [Hr Hu]. rewrite islot_ind in Hr, Hu.
  change (sb_size sb) with 1000 in Hr. change (iind i) with (di_addrs din !!! ndirect) in Hr, Hu.
  destruct (lookup_lt_is_Some_2 (vview s) (Z.to_nat (di_addrs din !!! ndirect))) as [d Hd]; [rewrite vview_len by done; lia|].
  unfold iappend_indirect. rewrite (rsect_vview s), Hd by lia. cbn [mbind option_bind].
  assert (islot (vview s) i (Z.to_nat bn) = rd 4 (Z.to_nat (4 * (bn - NDIRECT))) d) as E.
  { unfold islot. change (iind i) with (di_addrs din !!! ndirect).
    rewrite !decide_False by (try done; fsizes; lia). rewrite (list_lookup_total_correct _ _ _ Hd). f_equal. fsizes. lia. }
  rewrite E in *. replace (rd 4 (Z.to_nat (4 * (bn - NDIRECT))) d =? 0) with false by lia. done.
Qed.

Section block.
Context (inum : Z) (s : mstate) (din : dinode) (off : Z).
Abbreviation i := (inode_of inum din).
Context (Hs : mk_base s) (Hok : mfile (vview s) i) (He : exact (vview s) i off) (Ho : 0 <= off < MAXFILE * BSIZE).
Context (Hfree : m_freeblock s + turn_cost off <= 1000).

Lemma block_present : islot (vview s) i (Z.to_nat (off / BSIZE)) ≠ 0 →
  block_added s i off (islot (vview s) i (Z.to_nat (off / BSIZE))) s i.
Proof using All.
  intros Hsl. pose proof (block_lt off MAXFILE Ho). pose proof (exact_slot _ _ _ He Ho) as Hx. pose proof (proj2 He) as Hi.
  split; try done.
  - unfold turn_cost. destruct (Z.eqb_spec (off mod BSIZE) 0); [|lia]. destruct Hsl. by apply Hx.
  - intros k Hk. split; [by left|]. intros [?|[->|[-> Hge]]]; [done|done|]. rewrite islot_ind. apply Hi.
    pose proof (Z.div_mod off BSIZE ltac:(done)). pose proof (Z.mod_pos_bound off BSIZE ltac:(done)).
    assert (off mod BSIZE ≠ 0) by (intros E; apply Hsl; by apply Hx). fsizes. lia.
Qed.

Lemma iappend_block_spec :
  ∃ x din' s', iappend_block din (off / BSIZE) s = Some (x, din', s') ∧
    block_added s i off x s' (inode_of inum din') ∧ x ≠ 0.
Proof using All.
  pose proof (block_lt off MAXFILE Ho) as Hb. pose proof (exact_slot _ _ _ He Ho) as Hx. pose proof (proj2 He) as Hind.
  pose proof (fo_addrs _ _ _ _ Hok) as Hlen. cbn [i_addrs inode_of] in Hlen. pose proof (mb_free _ Hs) as Hfb.
  pose proof (Z.div_mod off BSIZE ltac:(done)). pose proof (Z.mod_pos_bound off BSIZE ltac:(done)).
  unfold iappend_block. destruct (Z.ltb_spec (off / BSIZE) NDIRECT) as [Hd|Hd].
  - assert (islot (vview s) i (Z.to_nat (off / BSIZE)) = di_addrs din !!! Z.to_nat (off / BSIZE)) as Esl.
    { unfold islot. rewrite decide_True; [done|]. fsizes. lia. }
    rewrite <- Esl. destruct (Z.eqb_spec (islot (vview s) i (Z.to_nat (off / BSIZE))) 0) as [Hz|Hz].
    + apply Hx in Hz as Hm. unfold turn_cost in Hfree. rewrite Hm in Hfree. cbn [Z.eqb] in Hfree.
      replace (off / BSIZE =? NDIRECT) with false in Hfree by lia.
      assert (Z.to_nat (off / BSIZE) < ndirect)%nat as Hlt by (fsizes; lia).
      destruct (mk_grow_inode s i (Z.to_nat (off / BSIZE)) Hs ltac:(lia) Hok ltac:(lia)) as [Hg Hsl]; [by rewrite decide_True|].
      rewrite decide_True in Hsl by done.
      eexists _, _, _. split; [reflexivity|]. split; [|lia]. split; try done.
      * apply bump_base; [done|lia].
      * unfold turn_cost. rewrite Hm. cbn. replace (off / BSIZE =? NDIRECT) with false by lia. rewrite u32_small by lia. lia.
      * etransitivity; [apply Hsl; fsizes; lia|]. by rewrite decide_True.
      * intros k Hk. change (inode_of inum (set_addr (Z.to_nat (off / BSIZE)) (m_freeblock s) din)) with
          (set_addrs (<[Z.to_nat (off / BSIZE) := m_freeblock s]> (i_addrs i)) i). rewrite Hsl by done.
        case_decide; [split; [auto|lia]|]. split; [auto|]. intros [?|[?|[-> ?]]]; [done|done|]. fsizes. lia.
    + eexists _, _, _. split; [reflexivity|]. split; [by apply block_present|done].
  - destruct (Z.eqb_spec (di_addrs din !!! ndirect) 0) as [Hz|Hz].
    + (* the first block behind the direct ones: the indirect block is new as well *)
      assert (off = NDIRECT * BSIZE) as Eo.
      { assert (¬ NDIRECT * BSIZE < off) by (rewrite <- Hind; auto). fsizes. lia. }
      assert (turn_cost off = 2) as Ec by (by rewrite Eo). rewrite Ec in Hfree.
      destruct (mk_grow_inode s i ndirect Hs ltac:(lia) Hok ltac:(lia)) as [Hg Hsl]; [done|].
      rewrite decide_False in Hsl by lia.
      assert (m_freeblock (bump s) = m_freeblock s + 1) as Efb by (cbn; rewrite u32_small; lia).
      pose proof (Hsl maxfile (le_n _)) as Hi1. rewrite decide_True, islot_ind in Hi1 by done.
      destruct (iappend_indirect_new inum (bump s) (set_addr ndirect (m_freeblock s) din) (off / BSIZE)) as (s' & -> & Hb2 & Hn2 & Hf2 & Hg2 & Hsl2);
        [apply bump_base; [done|lia]|lia|apply (gr_ok _ _ _ _ _ _ Hg)|fsizes; lia|..].
      { intros E0. change (iind (set_addrs (<[ndirect:=m_freeblock s]> (i_addrs i)) i) = 0) in E0. lia. }
      { etransitivity; [apply Hsl; fsizes; lia|]. rewrite decide_False by (fsizes; lia). apply Hx. by rewrite Eo. }
      eexists _, _, _. split; [reflexivity|]. split; [|lia]. split; try done.
      * lia.
      * eapply (grow_trans mk_layout); [done|exact Hg|exact Hg2].
      * rewrite Hsl2 by (fsizes; lia). by rewrite decide_True.
      * intros Hn. destruct Hn. apply Hx. by rewrite Eo.
      * intros k Hk. rewrite Hsl2 by done. case_decide as Ek; [split; [auto|lia]|].
        change (inode_of inum (set_addr ndirect (m_freeblock s) din)) with (set_addrs (<[ndirect := m_freeblock s]> (i_addrs i)) i).
        rewrite Hsl by done. case_decide; [split; [|lia]; intros _; right; right; split; [done|lia]|].
        split; [auto|]. intros [?|[?|[? ?]]]; done.
    + destruct (decide (islot (vview s) i (Z.to_nat (off / BSIZE)) = 0)) as [Hsl0|Hsl0].
      * apply Hx in Hsl0 as Hm. assert (NDIRECT * BSIZE < off) by (by apply Hind).
        assert (turn_cost off = 1) as Ec.
        { unfold turn_cost. rewrite Hm. cbn. replace (off / BSIZE =? NDIRECT) with false; [done|]. fsizes. lia. }
        rewrite Ec in Hfree.
        destruct (iappend_indirect_new inum s din (off / BSIZE)) as (s' & -> & Hb2 & Hn2 & Hf2 & Hg2 & Hsl2);
          [done|lia|done|fsizes; lia|done|done|].
        eexists _, _, _. split; [reflexivity|]. split; [|lia]. split; try done.
        -- lia.
        -- rewrite Hsl2 by (fsizes; lia). by rewrite decide_True.
        -- intros k Hk. rewrite Hsl2 by done. case_decide; [split; [auto|lia]|]. split; [auto|].
           intros [?|[?|[-> ?]]]; [done|done|exact Hz].
      * eexists _, _, _. split; [by apply iappend_indirect_old; [| |fsizes; lia|..]|]. split; [by apply block_present|done].
Qed.
End block.

Lemma iappend_loop_spec fuel inum din off p s :
  let n := Z.of_nat (length p) in
  mk_base s → mfile (vview s) (inode_of inum din) → exact (vview s) (inode_of inum din) off →
  0 <= off → off + n <= MAXFILE * BSIZE → m_freeblock s + nslots (off + n) - nslots off <= 1000 → (length p < fuel)%nat →
  ∃ din' s', iappend_loop fuel din off p s = Some (din', off + n, s') ∧ mk_base s' ∧
    m_freeinode s' = m_freeinode s ∧ m_freeblock s' = m_freeblock s + nslots (off + n) - nslots off ∧
    wrote sb 59 (vview s) (inode_of inum din) (vview s') (inode_of inum din') off p ∧
    exact (vview s') (inode_of inum din') (off + n).
Proof.
  revert din off p s. induction fuel as [|fuel IH]; intros din off p s n; assert (n = Z.of_nat (length p)) as En by done; clearbody n;
    intros Hs Hok He Ho Hmax Hfree Hfuel; [lia|].
  cbn [iappend_loop]. destruct (decide (p = [])) as [->|Hp].
  { exists din, s. cbn [length] in *. subst n. rewrite Z.add_0_r in *. split; [done|]. split; [done|]. split; [done|].
    split; [lia|]. split; [by apply wrote_nil|done]. }
  assert (0 < n) as Hn by (subst n; destruct p; [done|cbn; lia]).
  destruct p as [|x0 p0] eqn:Ep; [done|]. rewrite <- Ep in *. clear Hp.
  assert (0 <= off < MAXFILE * BSIZE) as Hoff by lia. pose proof (block_lt off MAXFILE Hoff) as Hb.
  replace (MAXFILE <=? off / BSIZE) with false by lia.
  pose proof (Z.div_mod off BSIZE ltac:(done)) as Hdm. pose proof (Z.mod_pos_bound off BSIZE ltac:(done)) as Hr.
  replace ((off / BSIZE + 1) * BSIZE - off) with (BSIZE - off mod BSIZE) by lia.
  replace (off - off / BSIZE * BSIZE) with (off mod BSIZE) by lia.
  rewrite <- En. set (n1 := Z.min n (BSIZE - off mod BSIZE)).
  assert (length (take (Z.to_nat n1) p) = Z.to_nat n1) as Hlt by (rewrite length_take; lia).
  assert (Z.of_nat (length (drop (Z.to_nat n1) p)) = n - n1) as Hld by (rewrite length_drop; lia).
  pose proof (nslots_turn off n1 Ho ltac:(lia) ltac:(lia)) as Hcost.
  pose proof (nslots_mono (off + n1) (off + n) ltac:(lia)) as Hmono.
  destruct (iappend_block_spec inum s din off Hs Hok He Hoff ltac:(lia)) as (x & din1 & s1 & -> & Hba & Hx).
  destruct Hba as [Hs1 Hfi Hfb Hg Hsl Hsame Hsls]. cbn [mbind option_bind].
  pose proof (gr_ok _ _ _ _ _ _ Hg) as Hok1. pose proof (mb_free _ Hs1) as Hf1.
  destruct (fo_slot _ _ _ _ Hok1 (Z.to_nat (off / BSIZE))) as [Hxr Hxu]; [fsizes; lia|by rewrite Hsl|]. rewrite Hsl in Hxr, Hxu.
  change (sb_size sb) with 1000 in Hxr. rewrite vview_used in Hxu by (try done; lia). apply Z.ltb_lt in Hxu.
  destruct (lookup_lt_is_Some_2 (vview s1) (Z.to_nat x)) as [d Hd]; [rewrite vview_len by done; lia|].
  pose proof (vview_block s1 Hs1 _ _ Hd) as Hdl. rewrite (rsect_vview s1), Hd by lia. cbn [mbind option_bind].
  set (s2 := wsect x _ s1).
  assert (mk_base s2) as Hs2.
  { apply wsect_base; [done| |lia]. rewrite length_splice; [done|]. rewrite Hdl, Hlt. fsizes. lia. }
  assert (wrote sb 59 (vview s) (inode_of inum din) (vview s2) (inode_of inum din1) off (take (Z.to_nat n1) p)) as Hw.
  { pose proof (wrote_step mk_layout (vview s) _ (vview s1) (inode_of inum din1) off (take (Z.to_nat n1) p) d Hok Hg Hdl Hoff
      ltac:(rewrite Hlt; lia) ltac:(rewrite Hlt; lia)) as Hw. cbv zeta in Hw. rewrite Hsl in Hw. specialize (Hw Hx Hsame Hd).
    unfold stored in Hw. rewrite Hsl in Hw. unfold s2. by rewrite wsect_vview by (try done; lia). }
  assert (exact (vview s2) (inode_of inum din1) (off + n1)) as He2.
  { apply (exact_turn (vview s) (inode_of inum din)); try done; [lia|lia|]. intros k Hk. rewrite <- (Hsls k Hk).
    unfold s2. rewrite wsect_vview by (try done; lia).
    rewrite <- (stored_slot mk_layout (vview s1) (inode_of inum din1) off (take (Z.to_nat n1) p) d); try done.
    - unfold stored. by rewrite Hsl.
    - rewrite Hlt. lia.
    - by rewrite Hsl.
    - by rewrite Hsl. }
  destruct (IH din1 (off + n1) (drop (Z.to_nat n1) p) s2) as (din' & s' & Heq & Hs' & Hfi' & Hfb' & Hw' & He'); rewrite ?Hld; try done.
  { apply (wt_ok _ _ _ _ _ _ _ _ Hw). }
  { lia. }
  { lia. }
  { unfold s2. rewrite wsect_img by (try done; lia). cbn [m_freeblock]. replace (off + n1 + (n - n1)) with (off + n) by lia. lia. }
  { lia. }
  rewrite Hld in Heq, Hfb', He'. replace (off + n1 + (n - n1)) with (off + n) in Heq, Hfb', He' by lia.
  exists din', s'. split; [done|]. split; [done|]. unfold s2 in Hfi', Hfb'. rewrite wsect_img in Hfi', Hfb' by (try done; lia).
  cbn [m_freeinode m_freeblock] in Hfi', Hfb'. split; [congruence|]. split; [lia|]. split; [|done].
  rewrite <- (take_drop (Z.to_nat n1) p). eapply (wrote_trans mk_layout); [done|lia|rewrite take_drop; lia|exact Hw|].
  by rewrite Hlt, Z2Nat.id by lia.
Qed.

(** * Files *)

(** On the image [v], the inode [i] has the contents [c], no more blocks than it needs, and
    zeroes behind its end. *)
Record mk_file (v : list (list Z)) (i : inode) (c : list Z) : Prop := {
  mf_ok : mfile v i;
  mf_content : content v i = c;
  mf_disk : on_disk sb v i;
  mf_exact : exact v i (Z.of_nat (length c));
  mf_clean : ∀ o, Z.of_nat (length c) <= o < MAXFILE * BSIZE → islot v i (Z.to_nat (o / BSIZE)) ≠ 0 → fbyte v i o = 0;
  mf_form : i = inode_of (i_inum i) (to_dinode i);
  mf_range : inode_range sb i;
}.

Lemma mk_file_size v i c : mk_file v i c → i_size i = Z.of_nat (length c).
Proof.
  intros H. pose proof (fo_size _ _ _ _ (mf_ok _ _ _ H)). rewrite <- (mf_content _ _ _ H), length_content. lia.
Qed.

(** A file stays if its blocks and its inode do. *)
Lemma mk_file_frame v v' j c :
  mk_file v j c →
  (∀ k, (k <= maxfile)%nat → islot v j k ≠ 0 →
     v' !! Z.to_nat (islot v j k) = v !! Z.to_nat (islot v j k) ∧ used v' sb (islot v j k) = true) →
  on_disk sb v' j → mk_file v' j c ∧ ∀ k, islot v' j k = islot v j k.
Proof.
  intros H Hsame Hd. destruct (file_ok_same v v' j (mf_ok _ _ _ H) Hsame) as (Hok & Hc & Hsl). split; [|done].
  split; try done.
  - rewrite Hc. apply (mf_content _ _ _ H).
  - destruct (mf_exact _ _ _ H) as [He Hi]. split; [|done]. intros k Hk. rewrite Hsl. by apply He.
  - intros o Ho. rewrite Hsl. intros Hs. rewrite <- (mf_clean _ _ _ H o Ho Hs). destruct (block_lt o MAXFILE) as [? ?]; [lia|].
    unfold fbyte. rewrite Hsl, !list_lookup_total_alt. by destruct (Hsame (Z.to_nat (o / BSIZE))) as [-> _]; [fsizes; lia| |].
  - apply (mf_form _ _ _ H).
  - apply (mf_range _ _ _ H).
Qed.

Lemma disjoint_sym v i j : disjoint_files v i j → disjoint_files v j i.
Proof. intros H k k' Hk Hk' Hs Heq. apply (H k' k); congruence. Qed.

Lemma mk_iblock i : inode_range sb i → 32 <= IBLOCK (i_inum i) sb < 58.
Proof.
  intros Hr. destruct (IBLOCK_range mk_layout _ (ir_inum _ _ Hr)) as (E & _ & H & _). rewrite E in *.
  change (sb_inodestart sb) with 32 in *. change (sb_bmapstart sb) with 58 in *. pose proof (ir_inum _ _ Hr).
  assert (0 <= i_inum i / IPB) by (apply Z.div_pos; [lia|done]). lia.
Qed.

(** Storing an inode of the image. *)
Section winode.
Context (s : mstate) (i : inode) (Hs : mk_base s) (Hr : inode_range sb i) (Hla : length (i_addrs i) = S ndirect).

Lemma winode_spec :
  ∃ s' d, winode (i_inum i) (to_dinode i) s = Some s' ∧ mk_base s' ∧ m_freeinode s' = m_freeinode s ∧ m_freeblock s' = m_freeblock s ∧
    vview s !! Z.to_nat (IBLOCK (i_inum i) sb) = Some d ∧ length d = bsize ∧
    vview s' = <[Z.to_nat (IBLOCK (i_inum i) sb) := wr_dinode (dino_off (i_inum i)) (to_dinode i) d]> (vview s).
Proof using All.
  pose proof (mk_iblock i Hr) as Hib. pose proof (mb_free _ Hs).
  destruct (lookup_lt_is_Some_2 (vview s) (Z.to_nat (IBLOCK (i_inum i) sb))) as [d Hd]; [rewrite vview_len by done; lia|].
  pose proof (vview_block s Hs _ _ Hd) as Hdl. unfold winode. rewrite (rsect_vview s), Hd by lia. cbn [mbind option_bind].
  eexists _, d. split; [reflexivity|]. split; [|split; [|split; [|split; [done|split; [done|]]]]].
  - apply wsect_base; [done| |lia]. unfold wr_dinode. rewrite length_splice; [done|].
    rewrite length_dinode_bytes, Hdl by done. apply dino_off_bound.
  - by rewrite wsect_img by (try done; lia).
  - by rewrite wsect_img by (try done; lia).
  - apply wsect_vview; [done|lia|lia].
Qed.

(** Other files stay as they are. *)
Lemma winode_other d j e :
  vview s !! Z.to_nat (IBLOCK (i_inum i) sb) = Some d → length d = bsize →
  mk_file (vview s) j e → i_inum j ≠ i_inum i →
  let v' := <[Z.to_nat (IBLOCK (i_inum i) sb) := wr_dinode (dino_off (i_inum i)) (to_dinode i) d]> (vview s) in
  mk_file v' j e ∧ ∀ k, islot v' j k = islot (vview s) j k.
Proof using All.
  intros Hd Hdl Hj Hne v'. destruct (iblock_data_same mk_layout (vview s) (i_inum i) (wr_dinode (dino_off (i_inum i)) (to_dinode i) d) (ir_inum _ _ Hr)) as [Hda Hus].
  apply mk_file_frame; [done| |].
  - intros k Hk Hsl. destruct (fo_slot _ _ _ _ (mf_ok _ _ _ Hj) k Hk Hsl) as [Hkr Hku].
    split; [by apply Hda|]. unfold v'. by rewrite Hus.
  - apply (on_disk_other mk_layout); try done.
    + by apply vview_len.
    + apply (ir_inum _ _ Hr).
    + apply (ir_inum _ _ (mf_range _ _ _ Hj)).
    + apply (mf_disk _ _ _ Hj).
Qed.
End winode.

Lemma splice_end {A} (p c : list A) : splice (length c) p c = c ++ p.
Proof. unfold splice. rewrite take_ge, drop_ge by lia. by rewrite app_nil_r. Qed.

(** What was appended is the end of the file. *)
Lemma appended_file v v1 i i1 c p d :
  let n := Z.of_nat (length c) + Z.of_nat (length p) in
  let i2 := set_isize n i1 in
  mk_file v i c → wrote sb 59 v i v1 i1 (Z.of_nat (length c)) p → exact v1 i1 n → i1 = inode_of (i_inum i1) (to_dinode i1) →
  length v1 = 1000%nat → length d = bsize → n <= MAXFILE * BSIZE →
  mk_file (<[Z.to_nat (IBLOCK (i_inum i) sb) := wr_dinode (dino_off (i_inum i)) (to_dinode i2) d]> v1) i2 (c ++ p) ∧
  ∀ k, islot (<[Z.to_nat (IBLOCK (i_inum i) sb) := wr_dinode (dino_off (i_inum i)) (to_dinode i2) d]> v1) i2 k = islot v1 i1 k.
Proof.
  intros n i2 Hf Hw He1 Hform Hlen Hdl Hmax. pose proof (mk_file_size _ _ _ Hf) as Hsz. pose proof (mf_range _ _ _ Hf) as Hr.
  pose proof (wt_meta _ _ _ _ _ _ _ _ Hw) as Hm. assert (i_inum i2 = i_inum i) as En by (unfold i2; by rewrite Hm).
  destruct (written_content v i v1 i1 (Z.of_nat (length c)) p (mf_ok _ _ _ Hf) ltac:(lia) Hmax Hw) as [Hok2 Hc2].
  replace (Z.max _ _) with n in Hok2, Hc2 by lia. fold i2 in Hok2, Hc2.
  rewrite Nat2Z.id, (mf_content _ _ _ Hf), splice_end in Hc2.
  pose proof (iblock_data_same mk_layout v1 (i_inum i) (wr_dinode (dino_off (i_inum i)) (to_dinode i2) d) (ir_inum _ _ Hr)) as Hds.
  destruct (data_same_file _ _ i2 Hds Hok2) as (Hok3 & Hc3 & Hsl3). split; [|done].
  assert (inode_range sb i2) as Hr2 by (unfold i2; rewrite Hm; by destruct Hr).
  assert (Z.of_nat (length (c ++ p)) = n) as El by (rewrite length_app; lia).
  split; rewrite ?El; try done.
  - by rewrite Hc3.
  - rewrite <- En. apply (on_disk_write mk_layout); try done. by eapply (file_dinode_range mk_layout).
  - destruct He1 as [He Hi]. split; [|done]. intros k Hk. rewrite Hsl3. by apply He.
  - intros o Ho. rewrite Hsl3. intros Hs. change (islot v1 i2) with (islot v1 i1) in Hs.
    assert (fbyte (<[Z.to_nat (IBLOCK (i_inum i) sb) := wr_dinode (dino_off (i_inum i)) (to_dinode i2) d]> v1) i2 o = fbyte v1 i1 o) as ->.
    { unfold fbyte. rewrite Hsl3, !list_lookup_total_alt. destruct (block_lt o MAXFILE); [lia|].
      destruct (fo_slot _ _ _ _ Hok2 (Z.to_nat (o / BSIZE)) ltac:(fsizes; lia) Hs) as [Hkr _].
      by rewrite (ds_data _ _ _ _ Hds) by done. }
    destruct (decide (islot v i (Z.to_nat (o / BSIZE)) = 0)) as [E0|E0].
    + apply (wt_zero _ _ _ _ _ _ _ _ Hw); try done; lia.
    + rewrite (wt_out _ _ _ _ _ _ _ _ Hw) by (try done; lia). apply (mf_clean _ _ _ Hf); [lia|done].
  - unfold i2. by rewrite Hform.
Qed.

(** The other files before the inode is stored. *)
Lemma appended_other v v1 i i1 off p j e :
  mfile v i → wrote sb 59 v i v1 i1 off p → mk_file v j e → disjoint_files v i j →
  mk_file v1 j e ∧ disjoint_files v1 i1 j ∧ ∀ k, islot v1 j k = islot v j k.
Proof.
  intros Hok Hw Hj Hdis. destruct (wrote_other _ _ _ _ _ _ j Hok Hw ltac:(done) (mf_ok _ _ _ Hj) Hdis) as (_ & _ & Hd1).
  destruct (mk_file_frame v v1 j e Hj) as [Hj1 Hsl].
  - intros k Hk Hs. destruct (fo_slot _ _ _ _ (mf_ok _ _ _ Hj) k Hk Hs) as [Hr Hu].
    split; [|by apply (wt_used _ _ _ _ _ _ _ _ Hw)]. apply (wt_frame _ _ _ _ _ _ _ _ Hw); [done|done|].
    intros k' Hk' Heq. apply (Hdis k' k); try done. congruence.
  - eapply (wrote_on_disk _ _ _ _ _ mk_layout); [exact Hw|apply (ir_inum _ _ (mf_range _ _ _ Hj))|apply (mf_disk _ _ _ Hj)].
  - done.
Qed.

(** [iappend] on a file of the image. *)
Lemma iappend_spec s i c p :
  let n := Z.of_nat (length c) + Z.of_nat (length p) in
  mk_base s → mk_file (vview s) i c → p ≠ [] → n <= MAXFILE * BSIZE →
  m_freeblock s + nslots n - nslots (Z.of_nat (length c)) <= 1000 →
  ∃ s' i', iappend (i_inum i) p s = Some s' ∧ mk_base s' ∧ m_freeinode s' = m_freeinode s ∧
    m_freeblock s' = m_freeblock s + nslots n - nslots (Z.of_nat (length c)) ∧
    i_inum i' = i_inum i ∧ i_type i' = i_type i ∧ mk_file (vview s') i' (c ++ p) ∧
    ∀ j e, mk_file (vview s) j e → i_inum j ≠ i_inum i → disjoint_files (vview s) i j →
      mk_file (vview s') j e ∧ disjoint_files (vview s') i' j ∧ ∀ k, islot (vview s') j k = islot (vview s) j k.
Proof.
  intros n Hs Hf Hp Hmax Hfree. pose proof (mk_file_size _ _ _ Hf) as Hsz. pose proof (mf_range _ _ _ Hf) as Hr.
  pose proof (mk_iblock i Hr) as Hib. pose proof (mf_form _ _ _ Hf) as Hform. pose proof (mf_ok _ _ _ Hf) as Hok.
  assert (0 < length p)%nat as Hp0 by (destruct p; [done|cbn; lia]).
  destruct (lookup_lt_is_Some_2 (vview s) (Z.to_nat (IBLOCK (i_inum i) sb))) as [d0 Hd0]; [rewrite vview_len by done; lia|].
  assert (rinode (i_inum i) s = Some (to_dinode i)) as Hri.
  { unfold rinode. rewrite (rsect_vview s), Hd0 by lia. cbn. f_equal.
    rewrite <- (mf_disk _ _ _ Hf). by rewrite (list_lookup_total_correct _ _ _ Hd0). }
  destruct (iappend_loop_spec (S (length p)) (i_inum i) (to_dinode i) (i_size i) p s) as (din1 & s1 & Hloop & Hs1 & Hfi1 & Hfb1 & Hw & He1);
    rewrite <- ?Hform; try done; rewrite ?Hsz; try lia; [by apply (mf_exact _ _ _ Hf)|fold n; lia|].
  rewrite <- Hform, Hsz in Hw. rewrite Hsz in Hloop, Hfb1, He1. fold n in Hloop, Hfb1, He1.
  set (i1 := inode_of (i_inum i) din1) in *. set (i2 := set_isize n i1).
  pose proof (wt_meta _ _ _ _ _ _ _ _ Hw) as Hm. pose proof (wt_ok _ _ _ _ _ _ _ _ Hw) as Hok1.
  assert (inode_range sb i2) as Hr2 by (unfold i2; rewrite Hm; by destruct Hr).
  destruct (winode_spec s1 i2 Hs1 Hr2 (fo_addrs _ _ _ _ Hok1)) as (s2 & d & Hwi & Hs2 & Hfi2 & Hfb2 & Hd & Hdl & Hv2).
  exists s2, i2. split; [|split; [done|split; [congruence|split; [lia|split; [done|]]]]].
  { unfold iappend. rewrite Hri. cbn [mbind option_bind]. cbn [di_size to_dinode]. rewrite Hsz, Hloop. cbn [mbind option_bind].
    rewrite u32_small by (fsizes; lia). exact Hwi. }
  change (i_inum i2) with (i_inum i) in Hv2, Hd.
  destruct (appended_file (vview s) (vview s1) i i1 c p d Hf Hw He1 eq_refl (vview_len s1 Hs1) Hdl Hmax) as [Hf2 Hsl2].
  fold n in Hf2, Hsl2. fold i2 in Hf2, Hsl2. rewrite <- Hv2 in Hf2, Hsl2.
  split; [unfold i2; by rewrite Hm|]. split; [done|]. intros j e Hj Hne Hdis.
  destruct (appended_other (vview s) (vview s1) i i1 _ p j e Hok Hw Hj Hdis) as (Hj1 & Hd1 & Hsl1).
  destruct (winode_other s1 i2 Hs1 Hr2 (fo_addrs _ _ _ _ Hok1) d j e Hd Hdl Hj1 Hne) as [Hj2 Hslj].
  change (i_inum i2) with (i_inum i) in Hj2, Hslj. rewrite <- Hv2 in Hj2, Hslj. split; [done|]. split.
  - intros k k' Hk Hk'. rewrite Hsl2, Hslj. by apply Hd1.
  - intros k. by rewrite Hslj.
Qed.
