(* ===== verification/MkfsProps.v ===== *)
(** [mkfs] makes a file system: what the kernel relies on holds of the image, and the
    files are in it. *)
From stdpp Require Import base list numbers strings sets gmap option.
From Stdlib Require Import ZArith Lia.
From S2P Require Import Prelude Params Machine Spinlock Sleeplock CString Bio BioRing BioSpec.
From S2P Require Import Log LogSpec LogCommit LogRecover LogOps Fs FsBlocks FsProps FsInode FsContent FsWrite FsFileProps FsDir Mkfs MkfsSpec.
Local Open Scope Z_scope.

(** * The files of the image *)

(** The blocks of files with the contents [cs]. *)
Definition blocks_of (cs : list (list Z)) : Z := foldr (λ c t, nslots (Z.of_nat (length c)) + t) 0 cs.

Lemma nslots_nonneg m : 0 <= m → 0 <= nslots m.
Proof.
  intros Hm. unfold nslots. fsizes. assert (0 <= (m + 512 - 1) / 512) by (apply Z.div_pos; lia). case_match; lia.
Qed.
Lemma blocks_of_app cs cs' : blocks_of (cs ++ cs') = blocks_of cs + blocks_of cs'.
Proof. induction cs as [|c cs IH]; cbn [blocks_of foldr app]; [done|]. fold (blocks_of (cs ++ cs')). rewrite IH. unfold blocks_of. lia. Qed.
Lemma blocks_of_insert cs n c c' :
  cs !! n = Some c → blocks_of (<[n := c']> cs) = blocks_of cs - nslots (Z.of_nat (length c)) + nslots (Z.of_nat (length c')).
Proof.
  revert n. induction cs as [|x cs IH]; intros n Hn; [done|]. destruct n as [|n].
  - injection Hn as ->. cbn. lia.
  - change (nslots (Z.of_nat (length x)) + blocks_of (<[n := c']> cs) =
      nslots (Z.of_nat (length x)) + blocks_of cs - nslots (Z.of_nat (length c)) + nslots (Z.of_nat (length c'))).
    rewrite (IH n Hn). lia.
Qed.

(** The inodes [fs], in the order of their numbers, with their contents. *)
Record mk_files (s : mstate) (fs : list (inode * list Z)) : Prop := {
  ms_base : mk_base s;
  ms_next : m_freeinode s = Z.of_nat (length fs) + 1;
  ms_file : ∀ n i c, fs !! n = Some (i, c) → i_inum i = Z.of_nat n + 1 ∧ mk_file (vview s) i c;
  ms_disjoint : ∀ n m i c j e, n ≠ m → fs !! n = Some (i, c) → fs !! m = Some (j, e) → disjoint_files (vview s) i j;
  ms_free : m_freeblock s = 59 + blocks_of (snd <$> fs);
}.

(** What [mkfs] knows of a file: its type and contents. *)
Definition key (x : inode * list Z) : Z * list Z := (i_type x.1, x.2).

Lemma append_step s fs n i c p :
  mk_files s fs → fs !! n = Some (i, c) → p ≠ [] → Z.of_nat (length (c ++ p)) <= MAXFILE * BSIZE →
  59 + blocks_of (<[n := c ++ p]> (snd <$> fs)) <= 1000 →
  ∃ s' i', iappend (Z.of_nat n + 1) p s = Some s' ∧ mk_files s' (<[n := (i', c ++ p)]> fs) ∧ i_type i' = i_type i.
Proof.
  intros [Hb Hn Hf Hd Hfr] Hi Hp Hmax Hfree. destruct (Hf n i c Hi) as [Hnum Hfi].
  assert ((snd <$> fs) !! n = Some c) as Hsn by (by rewrite list_lookup_fmap, Hi).
  rewrite (blocks_of_insert _ n c _ Hsn) in Hfree. rewrite length_app, Nat2Z.inj_add in Hmax, Hfree.
  destruct (iappend_spec s i c p Hb Hfi Hp Hmax ltac:(lia)) as (s' & i' & Heq & Hb' & Hn' & Hfr' & Hnum' & Hty & Hf' & Hoth).
  rewrite Hnum in Heq. exists s', i'. split; [done|]. split; [|done]. apply lookup_lt_Some in Hi as Hlt.
  assert (∀ m j e, m ≠ n → fs !! m = Some (j, e) → mk_file (vview s') j e ∧ disjoint_files (vview s') i' j ∧
            ∀ k, islot (vview s') j k = islot (vview s) j k) as Hother.
  { intros m j e Hm Hj. destruct (Hf m j e Hj) as [Hnj Hfj]. apply Hoth; [done|lia|]. by eapply (Hd n m). }
  split; try done.
  - by rewrite length_insert, Hn', Hn.
  - intros m j e [(<- & [= <- <-] & _)|[Hm Hj]]%list_lookup_insert_Some; [split; [congruence|done]|].
    destruct (Hf m j e Hj) as [Hnj _]. destruct (Hother m j e ltac:(done) Hj) as (Hfj & _). done.
  - intros m m' j e j' e' Hne Hj Hj'.
    apply list_lookup_insert_Some in Hj as [(<- & [= <- <-] & _)|[Hm Hj]]; apply list_lookup_insert_Some in Hj' as [(<- & [= <- <-] & _)|[Hm' Hj']]; try done.
    + by apply (Hother m' j' e').
    + apply disjoint_sym. by apply (Hother m j e).
    + destruct (Hother m j e ltac:(done) Hj) as (_ & _ & H1). destruct (Hother m' j' e' ltac:(done) Hj') as (_ & _ & H2).
      intros k k' Hk Hk'. rewrite H1, H2. by apply (Hd m m' j e j' e').
  - rewrite list_fmap_insert. cbn [snd]. rewrite (blocks_of_insert _ n c _ Hsn), length_app, Nat2Z.inj_add. lia.
Qed.

(** A new, empty inode. *)
Definition new_inode (type inum : Z) : inode := inode_of inum (DInode type 0 0 1 0 (replicate (S ndirect) 0)).

Lemma new_slot v type inum k : (k <= maxfile)%nat → islot v (new_inode type inum) k = 0.
Proof.
  intros Hk. unfold islot, iind, new_inode. cbn [i_addrs inode_of di_addrs]. fsizes.
  case_decide; [by apply lookup_total_replicate_2; lia|]. rewrite (lookup_total_replicate_2 13 0 12) by lia. by repeat case_decide.
Qed.

Lemma alloc_step s fs type :
  mk_files s fs → (length fs < 199)%nat → - 2 ^ 15 <= type < 2 ^ 15 →
  let inum := Z.of_nat (length fs) + 1 in
  ∃ s', ialloc type s = Some (inum, s') ∧ mk_files s' (fs ++ [(new_inode type inum, [])]).
Proof.
  intros [Hb Hn Hf Hd Hfr] Hlt Hty inum. unfold ialloc. rewrite Hn. fold inum. rewrite u32_small by (subst inum; lia).
  set (s1 := MState (m_img s) (inum + 1) (m_freeblock s)). set (i := new_inode type inum).
  assert (mk_base s1) as Hb1 by (by destruct Hb).
  assert (∀ v k, (k <= maxfile)%nat → islot v i k = 0) as Hz by (intros v k; apply new_slot).
  assert (inode_range sb i) as Hr.
  { split; cbn [i new_inode inode_of i_inum i_type i_major i_minor i_nlink di_type di_major di_minor di_nlink]; try lia.
    change (sb_ninodes sb) with 200. subst inum. lia. }
  assert (length (i_addrs i) = S ndirect) as Hla by done.
  destruct (winode_spec s1 i Hb1 Hr Hla) as (s2 & d & Hwi & Hb2 & Hn2 & Hfr2 & Hdd & Hdl & Hv2).
  exists s2. change (to_dinode i) with (DInode type 0 0 1 0 (replicate (S ndirect) 0)) in Hwi. change (i_inum i) with inum in Hwi, Hdd, Hv2.
  rewrite Hwi. cbn [mbind option_bind]. split; [done|]. change (vview s1) with (vview s) in *.
  assert (∀ m j e, fs !! m = Some (j, e) → mk_file (vview s2) j e ∧ ∀ k, islot (vview s2) j k = islot (vview s) j k) as Hother.
  { intros m j e Hj. destruct (Hf m j e Hj) as [Hnj Hfj]. rewrite Hv2. apply lookup_lt_Some in Hj.
    apply (winode_other s1 i Hb1 Hr Hla d j e Hdd Hdl Hfj). cbn. subst inum. lia. }
  assert (mfile (vview s2) i) as Hok.
  { split; [done|cbn; fsizes; lia|..].
    - intros k Hk Hs. rewrite Hz in Hs by done. done.
    - intros k k' Hk Hk' Hne Hs. rewrite Hz in Hs by done. done.
    - intros k Hk Hm. cbn in Hm. fsizes. lia. }
  split; [done| | | |].
  - rewrite length_app. cbn [length]. rewrite Hn2. cbn [m_freeinode s1]. subst inum. lia.
  - intros m j e Hj. apply lookup_app_Some in Hj as [Hj|[Hm Hj]].
    + destruct (Hf m j e Hj) as [Hnj _]. split; [done|]. by apply (Hother m).
    + apply list_lookup_singleton_Some in Hj as [Hm' [= <- <-]]. split; [cbn; subst inum; lia|].
      split; try done.
      * rewrite Hv2. apply (on_disk_write mk_layout); try done; [by apply vview_len|]. by eapply (file_dinode_range mk_layout).
      * split; [|cbn; fsizes; split; [|lia]; by intros []]. intros k Hk. rewrite Hz by lia. cbn. fsizes. lia.
      * intros o Ho Hs. destruct (block_lt o MAXFILE); [cbn in Ho; lia|]. rewrite Hz in Hs by (fsizes; lia). done.
  - intros m m' j e j' e' Hne Hj Hj'. apply lookup_app_Some in Hj as [Hj|[Hm Hj]].
    + apply lookup_app_Some in Hj' as [Hj'|[Hm' Hj']].
      * destruct (Hother m j e Hj) as [_ H1]. destruct (Hother m' j' e' Hj') as [_ H2].
        intros k k' Hk Hk'. rewrite H1, H2. by apply (Hd m m' j e j' e').
      * apply list_lookup_singleton_Some in Hj' as [_ [= <- <-]]. intros k k' Hk Hk'. by rewrite (Hz _ k').
    + apply list_lookup_singleton_Some in Hj as [_ [= <- <-]]. intros k k' Hk Hk'. by rewrite (Hz _ k).
  - rewrite Hfr2. cbn [m_freeblock s1]. rewrite Hfr, fmap_app, blocks_of_app. replace (blocks_of (snd <$> [(i, [])])) with 0 by reflexivity. lia.
Qed.

(** * The contents of the files *)

(** One file of the command line is added: an entry of the root directory, and the file. *)
Definition add1 (ks : list (Z * list Z)) (f : hostfile) : list (Z * list Z) :=
  match ks with
  | [] => []
  | (ty, rc) :: ks' => (ty, rc ++ make_dirent (strip f.1) (Z.of_nat (length ks) + 1)) :: ks' ++ [(T_FILE, concat f.2)]
  end.
Definition add_all (ks : list (Z * list Z)) (files : list hostfile) : list (Z * list Z) := fold_left add1 files ks.

(** The command line is one [mkfs] can deal with. *)
Record file_fits (f : hostfile) : Prop := {
  ff_name : existsb (Z.eqb 47) f.1 = false;
  ff_chunks : Forall (λ c, c ≠ []) f.2;
  ff_size : Z.of_nat (length (concat f.2)) <= MAXFILE * BSIZE;
}.

Lemma blocks_of_nonneg cs : 0 <= blocks_of cs.
Proof.
  induction cs as [|c cs IH]; [done|]. change (0 <= nslots (Z.of_nat (length c)) + blocks_of cs).
  pose proof (nslots_nonneg (Z.of_nat (length c)) ltac:(lia)). lia.
Qed.

Lemma blocks_of_grow n cs c c' :
  cs !! n = Some c → (length c <= length c')%nat → blocks_of cs <= blocks_of (<[n := c']> cs).
Proof.
  intros Hn Hle. rewrite (blocks_of_insert cs n c c' Hn).
  pose proof (nslots_mono (Z.of_nat (length c)) (Z.of_nat (length c')) ltac:(lia)). lia.
Qed.

Lemma add1_blocks ks f : blocks_of (snd <$> ks) <= blocks_of (snd <$> add1 ks f).
Proof.
  destruct ks as [|[ty rc] ks]; [done|]. cbn [add1]. rewrite !fmap_cons, fmap_app. cbn [snd].
  change (nslots (Z.of_nat (length rc)) + blocks_of (snd <$> ks) <=
    nslots (Z.of_nat (length (rc ++ make_dirent (strip f.1) (Z.of_nat (length ((ty, rc) :: ks)) + 1)))) + blocks_of ((snd <$> ks) ++ [concat f.2])).
  rewrite blocks_of_app. pose proof (blocks_of_nonneg [concat f.2]). rewrite length_app.
  pose proof (nslots_mono (Z.of_nat (length rc)) (Z.of_nat (length rc + length (make_dirent (strip f.1) (Z.of_nat (length ((ty, rc) :: ks)) + 1)))) ltac:(lia)). lia.
Qed.

Lemma add_all_blocks files ks : blocks_of (snd <$> ks) <= blocks_of (snd <$> add_all ks files).
Proof.
  revert ks. induction files as [|f files IH]; intros ks; [done|]. change (add_all ks (f :: files)) with (add_all (add1 ks f) files).
  pose proof (add1_blocks ks f). specialize (IH (add1 ks f)). lia.
Qed.

(** [while((cc = read(fd, buf, sizeof(buf))) > 0) iappend(inum, buf, cc)] *)
Lemma append_all_step chunks s fs n i c :
  mk_files s fs → fs !! n = Some (i, c) → Forall (λ c, c ≠ []) chunks →
  Z.of_nat (length (c ++ concat chunks)) <= MAXFILE * BSIZE →
  59 + blocks_of (<[n := c ++ concat chunks]> (snd <$> fs)) <= 1000 →
  ∃ s' i', append_all (Z.of_nat n + 1) chunks s = Some s' ∧ mk_files s' (<[n := (i', c ++ concat chunks)]> fs) ∧ i_type i' = i_type i.
Proof.
  revert s fs i c. induction chunks as [|p chunks IH]; intros s fs i c Hm Hi Hne Hmax Hfree.
  - exists s, i. cbn [concat append_all]. rewrite app_nil_r. split; [done|]. split; [|done]. by rewrite list_insert_id.
  - inversion Hne as [|?? Hp Hrest]; subst. cbn [concat] in Hmax, Hfree. rewrite app_assoc in Hmax, Hfree.
    assert ((snd <$> fs) !! n = Some c) as Hsn by (by rewrite list_lookup_fmap, Hi). apply lookup_lt_Some in Hi as Hlt.
    assert (59 + blocks_of (<[n := c ++ p]> (snd <$> fs)) <= 1000) as Hfree1.
    { pose proof (blocks_of_grow n (<[n := c ++ p]> (snd <$> fs)) (c ++ p) ((c ++ p) ++ concat chunks)) as Hgrow.
      rewrite list_insert_insert_eq in Hgrow. rewrite list_lookup_insert_eq in Hgrow by (rewrite length_fmap; lia).
      specialize (Hgrow eq_refl). rewrite (length_app (c ++ p) (concat chunks)) in Hgrow. specialize (Hgrow ltac:(lia)). lia. }
    destruct (append_step s fs n i c p Hm Hi Hp) as (s1 & i1 & Heq & Hm1 & Hty1); [rewrite length_app in Hmax; lia|done|].
    destruct (IH s1 (<[n := (i1, c ++ p)]> fs) i1 (c ++ p) Hm1) as (s' & i' & Heq' & Hm' & Hty'); try done.
    { by apply list_lookup_insert_eq. }
    { rewrite list_fmap_insert, list_insert_insert_eq. exact Hfree. }
    exists s', i'. cbn [append_all concat]. rewrite Heq. cbn [mbind option_bind]. split; [done|].
    rewrite list_insert_insert_eq, <- app_assoc in Hm'. split; [done|congruence].
Qed.

Lemma insert_last {A} (l : list A) x y : <[length l := y]> (l ++ [x]) = l ++ [y].
Proof. induction l as [|z l IH]; [done|]. exact (f_equal (cons z) IH). Qed.

Lemma add_file_step s fs f ty rc ks :
  mk_files s fs → key <$> fs = (ty, rc) :: ks → (length fs < 199)%nat → file_fits f →
  Z.of_nat (length rc) + 16 <= MAXFILE * BSIZE → 59 + blocks_of (snd <$> add1 (key <$> fs) f) <= 1000 →
  ∃ s' fs', add_file 1 f s = Some s' ∧ mk_files s' fs' ∧ key <$> fs' = add1 (key <$> fs) f.
Proof.
  intros Hm Hks Hlen [Hname Hch Hsz] Hrc Hfree. rewrite Hks in Hfree. unfold add_file. rewrite Hname.
  destruct (alloc_step s fs T_FILE Hm Hlen ltac:(done)) as (s1 & -> & Hm1). cbn [mbind option_bind].
  destruct fs as [|[root rc'] fs]; [done|]. rewrite fmap_cons in Hks. injection Hks as Hty -> Hks.
  cbn [add1] in Hfree. set (inum := Z.of_nat (length ((root, rc) :: fs)) + 1) in *. set (de := make_dirent (strip f.1) inum).
  set (fs1 := ((root, rc) :: fs) ++ [(new_inode T_FILE inum, [])]).
  assert (snd <$> ks = snd <$> fs) as Esnd by (rewrite <- Hks, <- list_fmap_compose; by apply list_fmap_ext).
  assert (length ks = length fs) as Elen by (by rewrite <- Hks, length_fmap).
  rewrite fmap_cons, fmap_app, Esnd in Hfree. cbn [snd fmap list_fmap length] in Hfree.
  assert (inum = Z.of_nat (S (length ks)) + 1) as Einum by (unfold inum; cbn [length]; lia). rewrite <- Einum in Hfree. fold de in Hfree.
  assert (length de = 16%nat) as Hde by apply make_dirent_length.
  change (59 + (nslots (Z.of_nat (length (rc ++ de))) + blocks_of ((snd <$> fs) ++ [concat f.2])) <= 1000) in Hfree.
  rewrite blocks_of_app in Hfree. change (blocks_of [concat f.2]) with (nslots (Z.of_nat (length (concat f.2))) + 0) in Hfree.
  pose proof (nslots_nonneg (Z.of_nat (length (concat f.2))) ltac:(lia)) as Hnn.
  destruct (append_step s1 fs1 0 root rc de Hm1) as (s2 & root2 & Heq2 & Hm2 & Hty2); [done|by destruct de|rewrite length_app; lia| |].
  { unfold fs1. cbn [app fmap list_fmap snd]. change (snd <$> fs ++ [(new_inode T_FILE inum, [])]) with (snd <$> (fs ++ [(new_inode T_FILE inum, @nil Z)])).
    change (59 + (nslots (Z.of_nat (length (rc ++ de))) + blocks_of (snd <$> (fs ++ [(new_inode T_FILE inum, @nil Z)]))) <= 1000).
    rewrite fmap_app, blocks_of_app. change (blocks_of (snd <$> [(new_inode T_FILE inum, [])])) with 0. lia. }
  change (Z.of_nat 0 + 1) with 1 in Heq2. rewrite Heq2. cbn [mbind option_bind].
  set (fs2 := <[0%nat := (root2, rc ++ de)]> fs1) in Hm2.
  assert (fs2 = (root2, rc ++ de) :: fs ++ [(new_inode T_FILE inum, [])]) as Efs2 by done.
  destruct (append_all_step f.2 s2 fs2 (S (length fs)) (new_inode T_FILE inum) [] Hm2) as (s3 & i3 & Heq3 & Hm3 & Hty3); [|done|done| |].
  { rewrite Efs2. exact (list_lookup_middle fs [] _ _ eq_refl). }
  { rewrite Efs2, fmap_cons, fmap_app. cbn [app snd fmap list_fmap].
    change (59 + (nslots (Z.of_nat (length (rc ++ de))) + blocks_of (<[length fs := concat f.2]> ((snd <$> fs) ++ [[]]))) <= 1000).
    rewrite <- (length_fmap snd fs), insert_last, blocks_of_app.
    change (blocks_of [concat f.2]) with (nslots (Z.of_nat (length (concat f.2))) + 0). lia. }
  replace (Z.of_nat (S (length fs)) + 1) with inum in Heq3 by (unfold inum; cbn [length]; lia).
  assert (<[S (length fs) := (i3, [] ++ concat f.2)]> fs2 = (root2, rc ++ de) :: fs ++ [(i3, concat f.2)]) as Efs3.
  { rewrite Efs2. exact (f_equal (cons _) (insert_last fs _ _)). }
  rewrite Efs3 in Hm3. eexists s3, _. split; [done|]. split; [exact Hm3|].
  rewrite !fmap_cons, fmap_app, Hks. unfold key at 1 2 3. cbn [add1 fst snd]. rewrite Hty2, Hty. unfold de. rewrite Einum.
  do 2 f_equal. rewrite list_fmap_singleton. unfold key. cbn [fst snd]. by rewrite Hty3.
Qed.

Lemma add_files_step files s fs ty rc ks :
  mk_files s fs → key <$> fs = (ty, rc) :: ks → (length fs + length files <= 199)%nat → Forall file_fits files →
  Z.of_nat (length rc) + 16 * Z.of_nat (length files) <= MAXFILE * BSIZE →
  59 + blocks_of (snd <$> add_all (key <$> fs) files) <= 1000 →
  ∃ s' fs', add_files 1 files s = Some s' ∧ mk_files s' fs' ∧ key <$> fs' = add_all (key <$> fs) files.
Proof.
  revert s fs rc ks. induction files as [|f files IH]; intros s fs rc ks Hm Hks Hlen Hfit Hrc Hfree.
  { exists s, fs. done. }
  inversion Hfit as [|?? Hf Hrest]; subst. cbn [length] in Hlen, Hrc. change (add_all (key <$> fs) (f :: files)) with (add_all (add1 (key <$> fs) f) files) in *.
  destruct (add_file_step s fs f ty rc ks Hm Hks ltac:(lia) Hf ltac:(lia)) as (s1 & fs1 & Heq & Hm1 & Hks1).
  { pose proof (add_all_blocks files (add1 (key <$> fs) f)). lia. }
  rewrite <- Hks1 in *. assert (length fs1 = S (length fs)) as El.
  { rewrite <- (length_fmap key fs1), Hks1, Hks. cbn [add1 length]. rewrite length_app. cbn [length].
    apply (f_equal length) in Hks. rewrite length_fmap in Hks. cbn in Hks. lia. }
  rewrite Hks in Hks1. cbn [add1] in Hks1.
  edestruct (IH s1 fs1) as (s' & fs' & Heq' & Hm' & Hks'); [done|exact Hks1|lia|done| |done|].
  { rewrite length_app, make_dirent_length. lia. }
  exists s', fs'. cbn [add_files]. rewrite Heq. cbn [mbind option_bind]. done.
Qed.

(** The entries of the root directory. *)
Definition entries (n : Z) (files : list hostfile) : list Z :=
  concat (imap (λ k f, make_dirent (strip f.1) (n + Z.of_nat k)) files).
Definition root_entries (files : list hostfile) : list Z :=
  make_dirent [46] ROOTINO ++ make_dirent [46; 46] ROOTINO ++ entries 2 files.

Lemma entries_cons n f files : entries n (f :: files) = make_dirent (strip f.1) n ++ entries (n + 1) files.
Proof.
  unfold entries. rewrite imap_cons. cbn [concat]. rewrite Z.add_0_r. f_equal. f_equal. apply imap_ext. intros k x _. unfold compose. by replace (n + Z.of_nat (S k)) with (n + 1 + Z.of_nat k) by lia.
Qed.
Lemma length_entries n files : length (entries n files) = (16 * length files)%nat.
Proof.
  revert n. induction files as [|f files IH]; intros n; [done|]. rewrite entries_cons, length_app, make_dirent_length, IH. cbn [length]. lia.
Qed.

Lemma add_all_spec files ty rc ks :
  add_all ((ty, rc) :: ks) files =
  (ty, rc ++ entries (Z.of_nat (length ks) + 2) files) :: ks ++ ((λ f : hostfile, (T_FILE, concat f.2)) <$> files).
Proof.
  revert rc ks. induction files as [|f files IH]; intros rc ks.
  - change (entries _ []) with (@nil Z). by rewrite !app_nil_r.
  - change (add_all ((ty, rc) :: ks) (f :: files)) with (add_all (add1 ((ty, rc) :: ks) f) files). cbn [add1]. rewrite IH.
    rewrite entries_cons, <- !app_assoc, length_app. cbn [length app].
    replace (Z.of_nat (S (length ks)) + 1) with (Z.of_nat (length ks) + 2) by lia.
    by replace (Z.of_nat (length ks + 1) + 2) with (Z.of_nat (length ks) + 2 + 1) by lia.
Qed.

(** The image before the first inode. *)
Lemma start_img : m_img mkfs_start = <[1%nat := splice 0 (sb_bytes sb) zeros]> (replicate 1000 zeros).
Proof. vm_compute. reflexivity. Qed.

Lemma start_free : m_freeinode mkfs_start = 1 ∧ m_freeblock mkfs_start = 59.
Proof. vm_compute. split; reflexivity. Qed.

Lemma empty_files s :
  m_img s = <[1%nat := splice 0 (sb_bytes sb) zeros]> (replicate 1000 zeros) → m_freeinode s = 1 → m_freeblock s = 59 →
  mk_files s [].
Proof.
  intros Himg Hn Hf. assert (length (splice 0 (sb_bytes sb) zeros) = bsize) as Hl by (vm_compute; reflexivity).
  split; try done. split; rewrite ?Himg, ?Hf.
  - by rewrite length_insert, length_replicate.
  - intros n d [(<- & <- & _)|[_ Hd]]%list_lookup_insert_Some; [done|].
    apply lookup_replicate in Hd as [-> _]. apply length_replicate.
  - lia.
  - intros b Hb. rewrite list_lookup_insert_ne by lia. apply lookup_replicate_2. lia.
  - apply list_lookup_insert_eq. rewrite length_replicate. lia.
  - rewrite list_lookup_insert_ne by lia. by apply lookup_replicate_2; lia.
Qed.

Lemma start_files : mk_files mkfs_start [].
Proof. apply empty_files; [exact start_img|exact (proj1 start_free)|exact (proj2 start_free)]. Qed.

(** * The root directory *)

(** The size of the root directory is rounded up to a block that is already there, unless it
    is a multiple of the block size. *)
Definition root_size (m : Z) : Z := (m / BSIZE + 1) * BSIZE.

Lemma fix_root v i c d :
  let m := Z.of_nat (length c) in
  let i' := set_isize (root_size m) i in
  let v' := <[Z.to_nat (IBLOCK (i_inum i) sb) := wr_dinode (dino_off (i_inum i)) (to_dinode i') d]> v in
  mk_file v i c → m mod BSIZE ≠ 0 → root_size m <= MAXFILE * BSIZE → length v = 1000%nat → length d = bsize →
  file_holds sb 59 v' i' (c ++ replicate (Z.to_nat (root_size m - m)) 0) ∧ ∀ k, islot v' i' k = islot v i k.
Proof.
  intros m i' v' Hf Hm Hmax Hlen Hdl. pose proof (mk_file_size _ _ _ Hf) as Hsz. pose proof (mf_range _ _ _ Hf) as Hr.
  pose proof (mf_ok _ _ _ Hf) as Hok. destruct (mf_exact _ _ _ Hf) as [He _]. fold m in Hsz, He.
  assert (0 <= m) as Hm0 by (unfold m; lia).
  pose proof (Z.div_mod m BSIZE ltac:(done)) as Hdm. pose proof (Z.mod_pos_bound m BSIZE ltac:(done)) as Hmb.
  assert (m < root_size m) as Hlt by (unfold root_size; lia).
  assert (covered v i' (root_size m)) as Hcov.
  { intros k Hk Hkm. change (islot v i' k) with (islot v i k). apply He; [done|]. unfold root_size in Hkm. fsizes. lia. }
  assert (mfile v i') as Hok'.
  { split; [apply (fo_addrs _ _ _ _ Hok)|cbn; lia|apply (fo_slot _ _ _ _ Hok)|apply (fo_inj _ _ _ _ Hok)|exact Hcov]. }
  assert (content v i' = c ++ replicate (Z.to_nat (root_size m - m)) 0) as Hc.
  { apply list_eq. intros o. rewrite content_lookup. cbn [i' set_isize i_size]. change (fbyte v i') with (fbyte v i).
    rewrite <- (mf_content _ _ _ Hf) at 1. destruct (decide (o < length c)%nat) as [Ho|Ho].
    - rewrite lookup_app_l by (rewrite length_content; lia). rewrite content_lookup, Hsz. rewrite !decide_True by (unfold m in *; lia). done.
    - rewrite lookup_app_r, length_content, Hsz by (rewrite length_content; lia). replace (Z.to_nat m) with (length c) by (unfold m; lia).
      case_decide as C.
      + rewrite lookup_replicate_2 by (unfold m in *; lia). f_equal. apply (mf_clean _ _ _ Hf); [lia|].
        apply (byte_slot sb 59 v i' (Z.of_nat o) Hok'). cbn. lia.
      + rewrite lookup_ge_None_2; [done|]. rewrite length_replicate. unfold m in *. lia. }
  pose proof (iblock_data_same mk_layout v (i_inum i) (wr_dinode (dino_off (i_inum i)) (to_dinode i') d) (ir_inum _ _ Hr)) as Hds.
  destruct (data_same_file _ _ i' Hds Hok') as (Hok3 & Hc3 & Hsl3). split; [|done].
  assert (inode_range sb i') as Hr' by (by destruct Hr). split; [done|exact (eq_trans Hc3 Hc)|].
  exact (on_disk_write mk_layout v i' d Hlen Hdl Hr' (file_dinode_range mk_layout v i' Hr' Hok')).
Qed.

Lemma key_lookup (fs : list (inode * list Z)) (ks : list (Z * list Z)) (n : nat) ty c :
  key <$> fs = ks → ks !! n = Some (ty, c) → ∃ i, fs !! n = Some (i, c) ∧ i_type i = ty.
Proof.
  intros <- Hn. rewrite list_lookup_fmap in Hn. destruct (fs !! n) as [[i c']|] eqn:E; [|done].
  injection Hn as <- <-. eauto.
Qed.

(** [main] up to the root inode that is rewritten at the end. *)
Lemma main_files files :
  Forall file_fits files → (length files <= 198)%nat →
  nmeta + blocks_of (root_entries files :: ((λ f : hostfile, concat f.2) <$> files)) <= FSSIZE →
  ∃ s root fs, mk_files s ((root, root_entries files) :: fs) ∧ i_type root = T_DIR ∧
    key <$> fs = (λ f : hostfile, (T_FILE, concat f.2)) <$> files ∧
    main files = (s1 ← winode 1 (set_dsize (u32 (root_size (i_size root))) (to_dinode root)) s;
                  s2 ← balloc (m_freeblock s1) s1; Some (m_img s2)).
Proof.
  intros Hfit Hlen Hfree. change nmeta with 59 in Hfree. change FSSIZE with 1000 in Hfree.
  pose proof (length_entries 2 files) as Hle.
  assert (length (root_entries files) = 16 * (2 + length files))%nat as Hlr.
  { unfold root_entries. rewrite !length_app, !make_dirent_length, Hle. lia. }
  assert (blocks_of [root_entries files] <= blocks_of (root_entries files :: ((λ f : hostfile, concat f.2) <$> files))) as Hroot.
  { pose proof (blocks_of_app [root_entries files] ((λ f : hostfile, concat f.2) <$> files)) as Happ. cbn [app] in Happ. rewrite Happ.
    pose proof (blocks_of_nonneg ((λ f : hostfile, concat f.2) <$> files)). lia. }
  assert (∀ c, (length c <= length (root_entries files))%nat → 59 + blocks_of [c] <= 1000) as Hsmall.
  { intros c Hc. pose proof (blocks_of_grow 0 [c] c (root_entries files) eq_refl Hc) as H. cbn [insert list_insert] in H. lia. }
  unfold root_entries in *. change ROOTINO with 1 in *. unfold main.
  destruct (alloc_step mkfs_start [] T_DIR start_files ltac:(apply Nat.ltb_lt; reflexivity) ltac:(done)) as (s1 & -> & Hm1).
  cbn [mbind option_bind length]. change (Z.of_nat 0 + 1) with 1. change (negb (1 =? ROOTINO)) with false. cbn match.
  pose proof (make_dirent_length [46] 1) as Hd1. pose proof (make_dirent_length [46; 46] 1) as Hd2.
  set (d1 := make_dirent [46] 1) in *. set (d2 := make_dirent [46; 46] 1) in *. clearbody d1 d2.
  cbn [app length] in Hm1.
  change (Z.of_nat 0 + 1) with 1 in Hm1.
  destruct (append_step s1 _ 0 (new_inode T_DIR 1) [] d1 Hm1 eq_refl) as (s2 & r2 & Heq2 & Hm2 & Hty2);
    [by destruct d1|cbn [app]; fsizes; lia|apply Hsmall; cbn [app]; lia|].
  change (Z.of_nat 0 + 1) with 1 in Heq2. rewrite Heq2. cbn [mbind option_bind]. cbn [insert list_insert app] in Hm2.
  destruct (append_step s2 _ 0 r2 d1 d2 Hm2 eq_refl) as (s3 & r3 & Heq3 & Hm3 & Hty3);
    [by destruct d2|rewrite length_app; fsizes; lia|apply Hsmall; rewrite !length_app; lia|].
  change (Z.of_nat 0 + 1) with 1 in Heq3. rewrite Heq3. cbn [mbind option_bind]. cbn [insert list_insert] in Hm3.
  assert (i_type r3 = T_DIR) as Hty by (by rewrite Hty3, Hty2).
  assert (key <$> [(r3, d1 ++ d2)] = [(T_DIR, d1 ++ d2)]) as Hk3 by (unfold key; cbn; by rewrite Hty).
  destruct (add_files_step files s3 _ T_DIR (d1 ++ d2) [] Hm3 Hk3) as (s4 & fs4 & Heq4 & Hm4 & Hk4);
    [cbn [length]; lia|done|rewrite length_app; fsizes; lia| |].
  { rewrite Hk3, add_all_spec, fmap_cons, app_nil_l, <- list_fmap_compose. cbn [snd length]. rewrite <- app_assoc. exact Hfree. }
  rewrite Heq4. cbn [mbind option_bind]. rewrite Hk3, add_all_spec, app_nil_l in Hk4. cbn [length] in Hk4. rewrite <- app_assoc in Hk4.
  destruct fs4 as [|[root c] fs]; [done|]. rewrite fmap_cons in Hk4. injection Hk4 as Htr -> Hks.
  exists s4, root, fs. split; [done|]. split; [done|]. split; [done|].
  destruct (ms_file _ _ Hm4 0 root _ eq_refl) as [Hn Hf]. pose proof (mk_iblock root (mf_range _ _ _ Hf)) as Hib. change (Z.of_nat 0 + 1) with 1 in Hn. rewrite Hn in Hib.
  pose proof (ms_base _ _ Hm4) as Hb4.
  assert (rinode 1 s4 = Some (to_dinode root)) as ->; [|done].
  destruct (lookup_lt_is_Some_2 (vview s4) (Z.to_nat (IBLOCK 1 sb))) as [d Hd]; [rewrite vview_len by done; lia|].
  unfold rinode. rewrite (rsect_vview s4), Hd by lia. cbn [mbind option_bind]. f_equal.
  pose proof (mf_disk _ _ _ Hf) as Hdk. unfold on_disk in Hdk. rewrite Hn in Hdk. by rewrite (list_lookup_total_correct _ _ _ Hd) in Hdk.
Qed.

(** What [mkfs] makes of its command line: an image with an empty log and the layout of the
    superblock, in which the file system's own blocks are in use, the root directory lists
    the files, and each file has its inode and its contents.  Only when the entries fill
    their last block exactly is the root directory not a well formed file. *)
Record mkfs_image (files : list hostfile) (img : list (list Z)) (root : inode) (inos : list inode) : Prop := {
  mi_log : log_image img 2 30 [] [];
  mi_super : sb_decode (img !!! 1%nat) = sb;
  mi_layout : layout 2 30 (length img) sb 59;
  mi_meta : ∀ b, 0 <= b < 59 → used img sb b = true;
  mi_root : i_inum root = ROOTINO ∧ i_type root = T_DIR ∧ inode_range sb root;
  mi_dir : ((length files + 2) mod 32 ≠ 0)%nat →
    ∃ pad, file_holds sb 59 img root (root_entries files ++ replicate pad 0) ∧ ∀ k i, inos !! k = Some i → disjoint_files img root i;
  mi_count : length inos = length files;
  mi_files : ∀ k f i, files !! k = Some f → inos !! k = Some i →
    i_inum i = Z.of_nat k + 2 ∧ i_type i = T_FILE ∧ inode_range sb i ∧ file_holds sb 59 img i (concat f.2);
  mi_disjoint : ∀ k k' i i', k ≠ k' → inos !! k = Some i → inos !! k' = Some i' → disjoint_files img i i';
}.

Lemma vview_log_image s : mk_base s → log_image (vview s) 2 30 [] [].
Proof.
  intros Hs. pose proof (vview_len s Hs) as Hl. split; try done.
  - apply Forall_lookup. intros n d. by apply vview_block.
  - rewrite Hl. lia.
  - eexists. unfold vview. rewrite list_lookup_insert_ne by lia. rewrite (mb_super _ Hs). split; [done|].
    split; vm_compute; reflexivity.
  - rewrite Hl. lia.
  - eexists. unfold vview. rewrite list_lookup_insert_ne by lia. change (Z.to_nat 2) with 2%nat. rewrite (mb_log _ Hs). split; [done|].
    split; [vm_compute; reflexivity|done].
  - cbn. lia.
  - set_solver.
Qed.

Lemma mkfs_makes files :
  Forall file_fits files → (length files <= 198)%nat →
  nmeta + blocks_of (root_entries files :: ((λ f : hostfile, concat f.2) <$> files)) <= FSSIZE →
  ∃ img root inos, main files = Some img ∧ mkfs_image files img root inos.
Proof.
  intros Hfit Hlen Hfree. destruct (main_files files Hfit Hlen Hfree) as (s & root & fs & Hm & Hty & Hks & ->).
  pose proof (ms_base _ _ Hm) as Hb. destruct (ms_file _ _ Hm 0 root _ eq_refl) as [Hn Hf]. change (Z.of_nat 0 + 1) with 1 in Hn.
  assert (Z.of_nat (length (root_entries files)) = 16 * (2 + Z.of_nat (length files))) as Hlr.
  { unfold root_entries. rewrite !length_app, !make_dirent_length, length_entries. lia. }
  pose proof (mk_file_size _ _ _ Hf) as Hsz. set (m := Z.of_nat (length (root_entries files))) in *.
  assert (m / BSIZE < 7) as Hdiv by (apply Z.div_lt_upper_bound; fsizes; lia).
  assert (0 <= m / BSIZE) as Hdiv0 by (apply Z.div_pos; fsizes; lia).
  set (root' := set_isize (root_size m) root).
  assert (set_dsize (u32 (root_size (i_size root))) (to_dinode root) = to_dinode root') as ->.
  { rewrite Hsz, u32_small by (unfold root_size; fsizes; lia). done. }
  pose proof (mf_range _ _ _ Hf) as Hr. assert (inode_range sb root') as Hr' by (by destruct Hr).
  pose proof (fo_addrs _ _ _ _ (mf_ok _ _ _ Hf)) as Hla.
  destruct (winode_spec s root' Hb Hr' Hla) as (s1 & d & Hwi & Hb1 & _ & Hfr1 & Hd & Hdl & Hv1).
  change (i_inum root') with (i_inum root) in *. rewrite Hn in Hwi. rewrite Hwi. cbn [mbind option_bind].
  pose proof (mb_free _ Hb1) as Hfb1. unfold balloc. replace (m_freeblock s1 <? BSIZE * 8) with true by (fsizes; lia).
  cbn [mbind option_bind]. change (sb_bmapstart sb) with 58. rewrite wsect_img by (try done; lia). cbn [m_img].
  change (<[Z.to_nat 58 := balloc_buf (m_freeblock s1)]> (m_img s1)) with (vview s1).
  exists (vview s1), root', (fst <$> fs). split; [done|].
  assert (∀ k i c, fs !! k = Some (i, c) → i_inum i = Z.of_nat k + 2 ∧ mk_file (vview s1) i c ∧ ∀ n, islot (vview s1) i n = islot (vview s) i n) as Hfile.
  { intros k i c Hk. destruct (ms_file _ _ Hm (S k) i c Hk) as [Hni Hfi].
    split; [lia|]. rewrite Hv1. apply (winode_other s root' Hb Hr' Hla d i c Hd Hdl Hfi). change (i_inum root') with (i_inum root). lia. }
  split.
  - by apply vview_log_image.
  - rewrite list_lookup_total_alt. unfold vview. rewrite list_lookup_insert_ne, (mb_super _ Hb1) by lia. vm_compute. reflexivity.
  - rewrite vview_len by done. exact mk_layout.
  - intros b Hbr. rewrite vview_used by (try done; lia). apply Z.ltb_lt. lia.
  - done.
  - intros Hmod. assert (m mod BSIZE ≠ 0) as Hm0.
    { intros E. apply Hmod. rewrite Hlr in E. apply Z.div_exact in E; [|done]. generalize dependent (16 * (2 + Z.of_nat (length files)) / BSIZE). intros q E. fsizes.
      replace (length files + 2)%nat with (Z.to_nat q * 32)%nat by lia. apply Nat.Div0.mod_mul. }
    destruct (fix_root (vview s) root (root_entries files) d Hf Hm0) as [Hh Hsl]; [fold m; unfold root_size; fsizes; lia|by apply vview_len|done|].
    fold m in Hh, Hsl. fold root' in Hh, Hsl. rewrite <- Hv1 in Hh, Hsl. eexists. split; [exact Hh|].
    intros k i Hk. rewrite list_lookup_fmap in Hk. destruct (fs !! k) as [[i' c]|] eqn:Ek; [|done]. injection Hk as ->.
    destruct (Hfile k i c Ek) as (_ & _ & Hsi). intros n n' Hkn Hkn'. rewrite Hsl, Hsi.
    by apply (ms_disjoint _ _ Hm 0 (S k) root (root_entries files) i c).
  - rewrite length_fmap, <- (length_fmap key fs), Hks. apply length_fmap.
  - intros k f i Hk Hi. destruct (key_lookup fs ((λ f : hostfile, (T_FILE, concat f.2)) <$> files) k T_FILE (concat f.2) Hks) as (i' & Hi' & Hty'); [apply list_lookup_fmap_Some; by exists f|].
    rewrite list_lookup_fmap, Hi' in Hi. injection Hi as <-. destruct (Hfile k i' _ Hi') as (Hni & Hfi & _).
    split; [done|]. split; [done|]. split; [apply (mf_range _ _ _ Hfi)|]. by destruct Hfi.
  - intros k k' i i' Hne Hi Hi'. rewrite list_lookup_fmap in Hi, Hi'. destruct (fs !! k) as [[j c]|] eqn:Ek; [|done].
    destruct (fs !! k') as [[j' c']|] eqn:Ek'; [|done]. injection Hi as ->. injection Hi' as ->.
    destruct (Hfile k i c Ek) as (_ & _ & H1). destruct (Hfile k' i' c' Ek') as (_ & _ & H2). intros n n' Hkn Hkn'. rewrite H1, H2.
    by apply (ms_disjoint _ _ Hm (S k) (S k') i c i' c'); try lia.
Qed.

(** * Theorems *)

(** C23: [mkfs] makes the file system the kernel expects.  For files whose names have no
    slash and whose contents fit a file and, all together, the disk, [main] returns an
    image: its log is empty, its superblock describes its layout, every block of the file
    system's own data is marked in use, every file has its contents and its inode, no two
    files share a block, and the root directory, whose entries are the names of the files
    with the numbers of their inodes, is a file too, if its entries do not fill its last
    block exactly. *)
Theorem mkfs_correct files :
  Forall file_fits files → (length files <= 198)%nat →
  nmeta + blocks_of (root_entries files :: ((λ f : hostfile, concat f.2) <$> files)) <= FSSIZE →
  ∃ img root inos, main files = Some img ∧ mkfs_image files img root inos.
Proof. apply mkfs_makes. Qed.

(** C32: From the host to the running kernel.  Boot the image [mkfs] made of [files], lock
    the inode of the [k]th file, and read from [off] on: the kernel returns the bytes the
    file had on the host. *)
Theorem mkfs_then_read files k f pid dsw ino ip off n :
  Forall file_fits files → (length files <= 198)%nat →
  nmeta + blocks_of (root_entries files :: ((λ f : hostfile, concat f.2) <$> files)) <= FSSIZE →
  files !! k = Some f → ino !! ip = Some (Inode 1 (Z.of_nat k + 2) 1 initsleeplock false 0 0 0 0 0 []) →
  0 <= off <= Z.of_nat (length (concat f.2)) → 0 <= n < 2 ^ 31 →
  ∃ img l i, main files = Some img ∧
    (lg boot ;; ilock (Some ip) ;; readi dsw ip off n)%xv6 (cpu0 pid) (FState (power_up img) sb ino) =
      Ret (Z.min n (Z.of_nat (length (concat f.2)) - off), take (Z.to_nat n) (drop (Z.to_nat off) (concat f.2)))
        (cpu0 pid) (FState l sb (<[ip := i]> ino)).
Proof.
  intros Hfit Hlen Hfree Hk Hi Ho Hn. destruct (mkfs_makes files Hfit Hlen Hfree) as (img & root & inos & Hmain & Hmi).
  destruct (lookup_lt_is_Some_2 inos k) as [i Hik]; [rewrite (mi_count _ _ _ _ Hmi); by eapply lookup_lt_Some|].
  destruct (mi_files _ _ _ _ Hmi k f i Hk Hik) as (Hnum & Hty & Hr & Hh).
  assert (k < length files)%nat as Hkl by (exact (lookup_lt_Some _ _ _ Hk)).
  pose proof (fo_size _ _ _ _ (fh_ok _ _ _ _ _ Hh)) as Hsz. rewrite <- (fh_content _ _ _ _ _ Hh), length_content in Ho.
  set (x := Inode 1 (Z.of_nat k + 2) 1 initsleeplock false 0 0 0 0 0 []) in *.
  assert (0 <= i_inum x < sb_ninodes sb) as Hx by (change (i_inum x) with (Z.of_nat k + 2); change (sb_ninodes sb) with 200; lia).
  assert (i_type i ≠ 0 ∧ i_type i ≠ T_DEV) as [Ht1 Ht2] by (rewrite Hty; unfold T_FILE, T_DEV; lia).
  destruct (boot_read pid 2 30 sb 59 ino img dsw ip x i (concat f.2) off n (mi_log _ _ _ _ Hmi) (mi_layout _ _ _ _ Hmi) Hi
    ltac:(apply Z.le_refl) eq_refl eq_refl eq_refl Hx (eq_sym Hnum) Ht1 Ht2 Hh (proj1 Ho) (proj1 Hn)) as (l & Heq & _).
  exists img, l, (loaded pid x i). split; [exact Hmain|].
  assert ((Z.of_nat (length (concat f.2)) <? off) = false) as E1.
  { apply Z.ltb_ge. rewrite <- (fh_content _ _ _ _ _ Hh), length_content. lia. }
  assert ((u32 (off + n) <? off) = false) as E2 by (rewrite u32_small by (fsizes; lia); apply Z.ltb_ge; lia).
  rewrite E1, E2 in Heq. exact Heq.
Qed.

(** A command line with two files: [_cat], in two reads, and [R]. *)
Definition demo_files : list hostfile :=
  [([95; 99; 97; 116], [replicate 512 7; replicate 100 8]); ([82], [[1; 2; 3]])].
Lemma demo_fits : Forall file_fits demo_files.
Proof. repeat constructor; try discriminate; vm_compute; first [reflexivity|discriminate]. Qed.
Lemma demo_room : nmeta + blocks_of (root_entries demo_files :: ((λ f : hostfile, concat f.2) <$> demo_files)) <= FSSIZE.
Proof. vm_compute. discriminate. Qed.

Lemma mkfs_correct_witness : ∃ img root inos, main demo_files = Some img ∧ mkfs_image demo_files img root inos.
Proof. apply (mkfs_correct demo_files demo_fits ltac:(cbn; lia) demo_room). Defined.

Lemma mkfs_then_read_witness :
  ∃ img l i, main demo_files = Some img ∧
    (lg boot ;; ilock (Some 0%nat) ;; readi (Devsw (λ _, None) (λ _, None)) 0 510 4)%xv6 (cpu0 1)
      (FState (power_up img) sb [Inode 1 2 1 initsleeplock false 0 0 0 0 0 []]) = Ret (4, [7; 7; 8; 8]) (cpu0 1) (FState l sb [i]).
Proof.
  destruct (mkfs_then_read demo_files 0 ([95; 99; 97; 116], [replicate 512 7; replicate 100 8]) 1 (Devsw (λ _, None) (λ _, None))
    [Inode 1 2 1 initsleeplock false 0 0 0 0 0 []] 0 510 4 demo_fits ltac:(cbn; lia) demo_room eq_refl eq_refl) as (img & l & i & Hm & Heq).
  - vm_compute. intuition discriminate.
  - lia.
  - exists img, l, i. split; [exact Hm|]. exact Heq.
Defined.

(** Thirty files: their entries, [.] and [..] fill one block. *)
Definition hole_files : list hostfile := (λ k, ([97 + Z.of_nat k], [])) <$> seq 0 30.
Definition hole_image : list (list Z) := default [] (main hole_files).

(** With 30 files (or 62, ...) the entries of the root directory fill their last block, and
    [main] "fixes" the size of the directory to one block more than it has.  Reading the
    directory, as [ls] does, then makes [bmap] allocate the missing block outside of a
    transaction, and the kernel panics. *)
Theorem mkfs_root_hole :
  main hole_files = Some hole_image ∧
  rd_dinode (dino_off ROOTINO) (hole_image !!! Z.to_nat (IBLOCK ROOTINO sb)) = DInode T_DIR 0 0 1 1024 (59 :: replicate 12 0) ∧
  (lg boot ;; ilock (Some 0%nat) ;; readi (Devsw (λ _, None) (λ _, None)) 0 512 16)%xv6 (cpu0 1)
    (FState (power_up hole_image) sb [Inode 1 ROOTINO 1 initsleeplock false 0 0 0 0 0 []]) = Panic "log_write outside of trans".
Proof. split; [|split]; vm_compute; reflexivity. Qed.
