(* ===== verification/Proc.v ===== *)
(** Processes ([proc.c]): the process table, fork, exit, wait, kill, sleep and wakeup,
    and the scheduler. *)
From stdpp Require Import base list numbers strings.
From Stdlib Require Import ZArith Lia.
From S2P Require Import Prelude Params Machine Spinlock Kalloc Vm.
Local Open Scope Z_scope.
Local Open Scope xv6_scope.

(** * Interfaces

    What proc.c asks of the memory and of the files. *)

(** Memory: the page allocator and the page tables; 0 is failure. *)
Class ProcMem (Mem : Type) := {
  pm_kalloc : M Mem Z;
  pm_kfree : Z → M Mem unit;
  pm_setupkvm : M Mem Z;
  pm_inituvm : Z → list Z → M Mem unit;
  pm_copyuvm : Z → Z → M Mem Z;
  pm_freevm : Z → M Mem unit;
  pm_allocuvm : Z → Z → Z → M Mem Z;
  pm_deallocuvm : Z → Z → Z → M Mem Z;
}.

(** The kernel's memory; the linker puts the kernel's data at [data] and its end at
    [kend]. *)
#[global] Instance kernel_mem (kend data : Z) : ProcMem kstate := {
  pm_kalloc := kalloc;
  pm_kfree := kfree kend;
  pm_setupkvm := setupkvm kend data;
  pm_inituvm := inituvm;
  pm_copyuvm := copyuvm kend data;
  pm_freevm := freevm kend;
  pm_allocuvm := allocuvm kend;
  pm_deallocuvm := deallocuvm kend;
}.

(** Files: open files and inodes, known by their place in their tables.  Closing a pipe
    gives its page back. *)
Class ProcFiles (Mem F : Type) := {
  pf_filedup : nat → M (Mem * F) unit;
  pf_fileclose : nat → M (Mem * F) unit;
  pf_idup : nat → M (Mem * F) unit;
  (** [begin_op(); iput(ip); end_op()] *)
  pf_put_cwd : nat → M (Mem * F) unit;
  (** [namei("/")] *)
  pf_root : M (Mem * F) (option nat);
}.

(** * State *)

Inductive procstate := UNUSED | EMBRYO | SLEEPING | RUNNABLE | RUNNING | ZOMBIE.
#[global] Instance procstate_eq_dec : EqDecision procstate.
Proof. solve_decision. Defined.

(** The trap frame, as far as proc.c looks at it. *)
Record trapframe := TrapFrame {
  tf_eax : Z;
  tf_eip : Z;
  tf_esp : Z;
  tf_eflags : Z;
  tf_cs : Z;
  tf_ds : Z;
  tf_es : Z;
  tf_ss : Z;
  tf_regs : list Z;
}.
Definition tf_zero : trapframe := TrapFrame 0 0 0 0 0 0 0 0 [].

(** [struct proc].  Processes are known by their index in [ptable.proc]; 0 pointers are
    [None].  [p_forkret] says that [context->eip] is [forkret]. *)
Record proc := Proc {
  p_sz : Z;
  p_pgdir : Z;
  p_kstack : Z;
  p_state : procstate;
  p_pid : Z;
  p_parent : option nat;
  p_tf : trapframe;
  p_forkret : bool;
  p_chan : option chan;
  p_killed : bool;
  p_ofile : list (option nat);
  p_cwd : option nat;
  p_name : list Z;
}.

Abbreviation nproc := (Z.to_nat NPROC).
Abbreviation nofile := (Z.to_nat NOFILE).

Definition proc_zero : proc :=
  Proc 0 0 0 UNUSED 0 None tf_zero false None false (replicate nofile None) None [].
#[global] Instance proc_inhabited : Inhabited proc := populate proc_zero.

Definition set_sz (v : Z) (p : proc) : proc :=
  Proc v (p_pgdir p) (p_kstack p) (p_state p) (p_pid p) (p_parent p) (p_tf p) (p_forkret p) (p_chan p) (p_killed p) (p_ofile p) (p_cwd p) (p_name p).
Definition set_pgdir (v : Z) (p : proc) : proc :=
  Proc (p_sz p) v (p_kstack p) (p_state p) (p_pid p) (p_parent p) (p_tf p) (p_forkret p) (p_chan p) (p_killed p) (p_ofile p) (p_cwd p) (p_name p).
Definition set_kstack (v : Z) (p : proc) : proc :=
  Proc (p_sz p) (p_pgdir p) v (p_state p) (p_pid p) (p_parent p) (p_tf p) (p_forkret p) (p_chan p) (p_killed p) (p_ofile p) (p_cwd p) (p_name p).
Definition set_state (v : procstate) (p : proc) : proc :=
  Proc (p_sz p) (p_pgdir p) (p_kstack p) v (p_pid p) (p_parent p) (p_tf p) (p_forkret p) (p_chan p) (p_killed p) (p_ofile p) (p_cwd p) (p_name p).
Definition set_pid (v : Z) (p : proc) : proc :=
  Proc (p_sz p) (p_pgdir p) (p_kstack p) (p_state p) v (p_parent p) (p_tf p) (p_forkret p) (p_chan p) (p_killed p) (p_ofile p) (p_cwd p) (p_name p).
Definition set_parent (v : option nat) (p : proc) : proc :=
  Proc (p_sz p) (p_pgdir p) (p_kstack p) (p_state p) (p_pid p) v (p_tf p) (p_forkret p) (p_chan p) (p_killed p) (p_ofile p) (p_cwd p) (p_name p).
Definition set_tf (v : trapframe) (p : proc) : proc :=
  Proc (p_sz p) (p_pgdir p) (p_kstack p) (p_state p) (p_pid p) (p_parent p) v (p_forkret p) (p_chan p) (p_killed p) (p_ofile p) (p_cwd p) (p_name p).
Definition set_forkret (v : bool) (p : proc) : proc :=
  Proc (p_sz p) (p_pgdir p) (p_kstack p) (p_state p) (p_pid p) (p_parent p) (p_tf p) v (p_chan p) (p_killed p) (p_ofile p) (p_cwd p) (p_name p).
Definition set_chan (v : option chan) (p : proc) : proc :=
  Proc (p_sz p) (p_pgdir p) (p_kstack p) (p_state p) (p_pid p) (p_parent p) (p_tf p) (p_forkret p) v (p_killed p) (p_ofile p) (p_cwd p) (p_name p).
Definition set_killed (v : bool) (p : proc) : proc :=
  Proc (p_sz p) (p_pgdir p) (p_kstack p) (p_state p) (p_pid p) (p_parent p) (p_tf p) (p_forkret p) (p_chan p) v (p_ofile p) (p_cwd p) (p_name p).
Definition set_ofile (v : list (option nat)) (p : proc) : proc :=
  Proc (p_sz p) (p_pgdir p) (p_kstack p) (p_state p) (p_pid p) (p_parent p) (p_tf p) (p_forkret p) (p_chan p) (p_killed p) v (p_cwd p) (p_name p).
Definition set_cwd (v : option nat) (p : proc) : proc :=
  Proc (p_sz p) (p_pgdir p) (p_kstack p) (p_state p) (p_pid p) (p_parent p) (p_tf p) (p_forkret p) (p_chan p) (p_killed p) (p_ofile p) v (p_name p).
Definition set_name (v : list Z) (p : proc) : proc :=
  Proc (p_sz p) (p_pgdir p) (p_kstack p) (p_state p) (p_pid p) (p_parent p) (p_tf p) (p_forkret p) (p_chan p) (p_killed p) (p_ofile p) (p_cwd p) v.
Definition set_eax (v : Z) (t : trapframe) : trapframe :=
  TrapFrame v (tf_eip t) (tf_esp t) (tf_eflags t) (tf_cs t) (tf_ds t) (tf_es t) (tf_ss t) (tf_regs t).

Definition set_eip (v : Z) (t : trapframe) : trapframe :=
  TrapFrame (tf_eax t) v (tf_esp t) (tf_eflags t) (tf_cs t) (tf_ds t) (tf_es t) (tf_ss t) (tf_regs t).
Definition set_esp (v : Z) (t : trapframe) : trapframe :=
  TrapFrame (tf_eax t) (tf_eip t) v (tf_eflags t) (tf_cs t) (tf_ds t) (tf_es t) (tf_ss t) (tf_regs t).

(** [ptable], [initproc], [nextpid], and what the interfaces act on. *)
Record pstate (Mem F : Type) := PState {
  pt_proc : list proc;
  pt_initproc : option nat;
  pt_nextpid : Z;
  pt_mem : Mem;
  pt_files : F;
}.
Arguments PState {Mem F} _ _ _ _ _.
Arguments pt_proc {Mem F} _.
Arguments pt_initproc {Mem F} _.
Arguments pt_nextpid {Mem F} _.
Arguments pt_mem {Mem F} _.
Arguments pt_files {Mem F} _.

(** * The table *)

(** [wakeup1]: wake up all processes sleeping on [ch]. *)
Definition wake (ch : chan) (p : proc) : proc :=
  if bool_decide (p_state p = SLEEPING) && bool_decide (p_chan p = Some ch) then set_state RUNNABLE p else p.
Definition wakeup1_tab (ch : chan) (t : list proc) : list proc := wake ch <$> t.

(** The loop of [exit]: pass abandoned children to init. *)
Definition reparent1 (cur : nat) (init : option nat) (t : list proc) (i : nat) : list proc :=
  match t !! i with
  | None => t
  | Some p =>
      if bool_decide (p_parent p = Some cur) then
        let t := alter (set_parent init) i t in
        if bool_decide (p_state p = ZOMBIE) then
          match init with Some q => wakeup1_tab (ChProc q) t | None => t end
        else t
      else t
  end.
Definition reparent (cur : nat) (init : option nat) (t : list proc) : list proc :=
  foldl (reparent1 cur init) t (seq 0 (length t)).

(** The first process of the table, from index [k] on, that satisfies [f]. *)
Fixpoint find_proc (f : proc → bool) (t : list proc) (k : nat) : option nat :=
  match t with
  | [] => None
  | p :: t' => if f p then Some k else find_proc f t' (S k)
  end.

Section ops.
Context {Mem F : Type} `{!ProcMem Mem} `{!ProcFiles Mem F}.
Abbreviation MP := (M (pstate Mem F)).

Definition procp (i : nat) : MP proc := s <- get ;; deref (pt_proc s !! i).
Definition upd_proc (i : nat) (f : proc → proc) : MP unit :=
  s <- get ;;
  _ <- deref (pt_proc s !! i) ;;
  modify (λ s, PState (alter f i (pt_proc s)) (pt_initproc s) (pt_nextpid s) (pt_mem s) (pt_files s)).
Definition mod_tab (f : list proc → list proc) : MP unit :=
  modify (λ s, PState (f (pt_proc s)) (pt_initproc s) (pt_nextpid s) (pt_mem s) (pt_files s)).
Definition pmem {A} (m : M Mem A) : MP A :=
  lift pt_mem (λ x s, PState (pt_proc s) (pt_initproc s) (pt_nextpid s) x (pt_files s)) m.
Definition pfiles {A} (m : M (Mem * F) A) : MP A :=
  lift (λ s, (pt_mem s, pt_files s)) (λ x s, PState (pt_proc s) (pt_initproc s) (pt_nextpid s) x.1 x.2) m.

(** [curproc] is the argument [cur] of the functions that call [myproc()]. *)

Definition wakeup1 (ch : chan) : MP unit := mod_tab (wakeup1_tab ch).
Definition wakeup (ch : chan) : MP unit :=
  acquire LkPtable ;;
  wakeup1 ch ;;
  release LkPtable.

(** The first half of [allocproc]: look for an UNUSED proc and reserve it. *)
Definition alloc_slot : MP (option nat) :=
  acquire LkPtable ;;
  s <- get ;;
  match find_proc (λ p, bool_decide (p_state p = UNUSED)) (pt_proc s) 0 with
  | None => release LkPtable ;; ret None
  | Some p =>
      upd_proc p (set_state EMBRYO) ;;
      upd_proc p (set_pid (pt_nextpid s)) ;;
      modify (λ s, PState (pt_proc s) (pt_initproc s) (s32 (pt_nextpid s + 1)) (pt_mem s) (pt_files s)) ;;
      release LkPtable ;;
      ret (Some p)
  end.
(** The second half: allocate kernel stack; [tf] and [context] are at its top. *)
Definition alloc_stack (p : nat) : MP (option nat) :=
  k <- pmem pm_kalloc ;;
  upd_proc p (set_kstack k) ;;
  if k =? 0 then upd_proc p (set_state UNUSED) ;; ret None
  else upd_proc p (set_forkret true) ;; ret (Some p).
Definition allocproc : MP (option nat) :=
  o <- alloc_slot ;;
  match o with None => ret None | Some p => alloc_stack p end.

(** Set up first user process. *)
Definition userinit (initcode : list Z) : MP unit :=
  o <- allocproc ;;
  modify (λ s, PState (pt_proc s) o (pt_nextpid s) (pt_mem s) (pt_files s)) ;;
  p <- deref o ;;
  d <- pmem pm_setupkvm ;;
  upd_proc p (set_pgdir d) ;;
  when (d =? 0) (panic "userinit: out of memory?") ;;
  pmem (pm_inituvm d initcode) ;;
  upd_proc p (set_sz PGSIZE) ;;
  upd_proc p (set_tf (TrapFrame 0 0 PGSIZE 0x200 (Z.lor (Z.shiftl 3 3) 3) (Z.lor (Z.shiftl 4 3) 3)
                        (Z.lor (Z.shiftl 4 3) 3) (Z.lor (Z.shiftl 4 3) 3) [])) ;;
  upd_proc p (set_name [105; 110; 105; 116; 99; 111; 100; 101]) ;;
  r <- pfiles pf_root ;;
  upd_proc p (set_cwd r) ;;
  acquire LkPtable ;;
  upd_proc p (set_state RUNNABLE) ;;
  release LkPtable.

(** What [switchuvm] loads into the CPU: the descriptor of its task state in [gdt] (its
    base is [mycpu()->ts] itself), the fields of the task state, and the registers. *)
Record uvm := Uvm {
  uv_tss_type : Z;
  uv_tss_lim : Z;
  uv_tss_s : Z;
  uv_tss_dpl : Z;
  uv_ss0 : Z;
  uv_esp0 : Z;
  uv_iomb : Z;
  uv_tr : Z;
  uv_cr3 : Z;
}.
Definition SEG_KDATA : Z := 2.
Definition SEG_TSS : Z := 5.
Definition STS_T32A : Z := 0x9.
Definition sizeof_taskstate : Z := 104.

(** [switchuvm] of vm.c: switch the task state and the page table to those of process
    [o]; the result is what the CPU has loaded. *)
Definition switchuvm (o : option proc) : MP uvm :=
  match o with
  | None => panic "switchuvm: no process"
  | Some p =>
      when (p_kstack p =? 0) (panic "switchuvm: no kstack") ;;
      when (p_pgdir p =? 0) (panic "switchuvm: no pgdir") ;;
      pushcli ;;
      let v := Uvm STS_T32A (sizeof_taskstate - 1) 0 0 (Z.shiftl SEG_KDATA 3)
                 (u32 (p_kstack p + KSTACKSIZE)) 0xFFFF (Z.shiftl SEG_TSS 3) (V2P (p_pgdir p)) in
      popcli ;;
      ret v
  end.

(** Grow current process's memory by n bytes. *)
Definition growproc (cur : nat) (n : Z) : MP Z :=
  p <- procp cur ;;
  let sz := p_sz p in
  r <- (if 0 <? n then
          sz <- pmem (pm_allocuvm (p_pgdir p) sz (u32 (sz + n))) ;;
          ret (if sz =? 0 then None else Some sz)
        else if n <? 0 then
          sz <- pmem (pm_deallocuvm (p_pgdir p) sz (u32 (sz + n))) ;;
          ret (if sz =? 0 then None else Some sz)
        else ret (Some sz)) ;;
  match r with
  | None => ret (-1)
  | Some sz =>
      upd_proc cur (set_sz sz) ;;
      p <- procp cur ;;
      switchuvm (Some p) ;;
      ret 0
  end.

(** [fork], once there is a new process [np]. *)
Definition fork_copy (cur np : nat) : MP Z :=
  p <- procp cur ;;
  d <- pmem (pm_copyuvm (p_pgdir p) (p_sz p)) ;;
  upd_proc np (set_pgdir d) ;;
  if d =? 0 then
    n <- procp np ;;
    pmem (pm_kfree (p_kstack n)) ;;
    upd_proc np (set_kstack 0) ;;
    upd_proc np (set_state UNUSED) ;;
    ret (-1)
  else
    upd_proc np (set_sz (p_sz p)) ;;
    upd_proc np (set_parent (Some cur)) ;;
    upd_proc np (set_tf (set_eax 0 (p_tf p))) ;;   (* fork returns 0 in the child *)
    for_each (seq 0 nofile) (λ i,
      o <- deref (p_ofile p !! i) ;;
      match o with
      | None => ret tt
      | Some f => pfiles (pf_filedup f) ;; upd_proc np (λ n, set_ofile (<[i := Some f]> (p_ofile n)) n)
      end) ;;
    cwd <- deref (p_cwd p) ;;
    pfiles (pf_idup cwd) ;;
    upd_proc np (set_cwd (Some cwd)) ;;
    upd_proc np (set_name (p_name p)) ;;
    n <- procp np ;;
    let pid := p_pid n in
    acquire LkPtable ;;
    upd_proc np (set_state RUNNABLE) ;;
    release LkPtable ;;
    ret pid.

(** Create a new process copying p as the parent. *)
Definition fork (cur : nat) : MP Z :=
  o <- allocproc ;;
  match o with None => ret (-1) | Some np => fork_copy cur np end.

(** Enter scheduler.  The thread stops here ([swtch]) until it is scheduled again. *)
Definition sched (cur : nat) : MP unit :=
  h <- holding LkPtable ;;
  when (negb h) (panic "sched ptable.lock") ;;
  c <- getcpu ;;
  when (negb (cpu_ncli c =? 1)) (panic "sched locks") ;;
  p <- procp cur ;;
  when (bool_decide (p_state p = RUNNING)) (panic "sched running") ;;
  when (cpu_if c) (panic "sched interruptible").

(** [exit], up to the [swtch] in [sched]; what follows is not reached
    ([zombie_stays]). *)
Definition exit_close (cur : nat) : MP unit :=
  s <- get ;;
  when (bool_decide (pt_initproc s = Some cur)) (panic "init exiting") ;;
  (* Close all open files. *)
  for_each (seq 0 nofile) (λ fd,
    p <- procp cur ;;
    o <- deref (p_ofile p !! fd) ;;
    match o with
    | None => ret tt
    | Some f => pfiles (pf_fileclose f) ;; upd_proc cur (λ p, set_ofile (<[fd := None]> (p_ofile p)) p)
    end) ;;
  p <- procp cur ;;
  cwd <- deref (p_cwd p) ;;
  pfiles (pf_put_cwd cwd) ;;
  upd_proc cur (set_cwd None).
Definition exit_zombie (cur : nat) : MP unit :=
  acquire LkPtable ;;
  p <- procp cur ;;
  (* Parent might be sleeping in wait(). *)
  match p_parent p with Some q => wakeup1 (ChProc q) | None => ret tt end ;;
  (* Pass abandoned children to init. *)
  s <- get ;;
  mod_tab (reparent cur (pt_initproc s)) ;;
  upd_proc cur (set_state ZOMBIE) ;;
  sched cur.
Definition exit (cur : nat) : MP unit := exit_close cur ;; exit_zombie cur.

(** Free what is left of the exited child [i]. *)
Definition reap (i : nat) : MP Z :=
  p <- procp i ;;
  pmem (pm_kfree (p_kstack p)) ;;
  upd_proc i (set_kstack 0) ;;
  pmem (pm_freevm (p_pgdir p)) ;;
  upd_proc i (λ p, set_state UNUSED (set_killed false (set_name [] (set_parent None (set_pid 0 p))))) ;;
  release LkPtable ;;
  ret (p_pid p).

(** [sleep(chan, lk)], up to the [swtch] in [sched]. *)
Definition sleep (cur : nat) (ch : chan) (lk : lockid) : MP unit :=
  when (bool_decide (lk ≠ LkPtable)) (acquire LkPtable ;; release lk) ;;
  upd_proc cur (set_chan (Some ch)) ;;
  upd_proc cur (set_state SLEEPING) ;;
  sched cur ;;
  (λ c s, Sleep ch c s).

(** What is left of [sleep] once [sched] returns. *)
Definition sleep_return (cur : nat) (lk : lockid) : MP unit :=
  (* Tidy up. *)
  upd_proc cur (set_chan None) ;;
  (* Reacquire original lock. *)
  when (bool_decide (lk ≠ LkPtable)) (release LkPtable ;; acquire lk).

(** Wait for a child process to exit and return its pid.  A parent that is woken up
    scans the table again. *)
Definition wait (cur : nat) : MP Z :=
  acquire LkPtable ;;
  s <- get ;;
  let child p := bool_decide (p_parent p = Some cur) in
  (* Scan through table looking for exited children. *)
  match find_proc (λ p, child p && bool_decide (p_state p = ZOMBIE)) (pt_proc s) 0 with
  | Some i => reap i
  | None =>
      let havekids := existsb child (pt_proc s) in
      p <- procp cur ;;
      if negb havekids || p_killed p then
        (* No point waiting if we don't have any children. *)
        release LkPtable ;; ret (-1)
      else
        sleep cur (ChProc cur) LkPtable ;; ret 0
  end.

(** The scheduler's turn for process [p], up to [swtch]: if it is RUNNABLE, it is the
    process of this CPU from now on, with the task state and page table of the result. *)
Definition scheduler_pick (p : nat) : MP (option uvm) :=
  x <- procp p ;;
  if bool_decide (p_state x = RUNNABLE) then
    v <- switchuvm (Some x) ;;
    upd_proc p (set_state RUNNING) ;;
    ret (Some v)
  else ret None.

(** Give up the CPU for one scheduling round, up to [swtch]. *)
Definition yield (cur : nat) : MP unit :=
  acquire LkPtable ;;
  upd_proc cur (set_state RUNNABLE) ;;
  sched cur.

(** Kill the process with the given pid. *)
Definition kill (pid : Z) : MP Z :=
  acquire LkPtable ;;
  s <- get ;;
  match find_proc (λ p, p_pid p =? pid) (pt_proc s) 0 with
  | Some i =>
      upd_proc i (set_killed true) ;;
      (* Wake process from sleep if necessary. *)
      upd_proc i (λ p, if bool_decide (p_state p = SLEEPING) then set_state RUNNABLE p else p) ;;
      release LkPtable ;;
      ret 0
  | None => release LkPtable ;; ret (-1)
  end.
End ops.
