(* ===== verification/ProcSpec.v ===== *)
(** What the operations on processes do to the process table. *)
From stdpp Require Import base list numbers strings.
From Stdlib Require Import ZArith Lia.
From S2P Require Import Prelude Params Machine Spinlock Kalloc Vm Proc.
Local Open Scope Z_scope.
Local Open Scope xv6_scope.

(** * Code that does not sleep, and code that keeps its component's state *)

Definition no_sleep {S A} (m : M S A) : Prop := ∀ c s ch c' s', m c s ≠ Sleep ch c' s'.
Definition keeps {S A} (m : M S A) : Prop := ∀ c s a c' s', m c s = Ret a c' s' → s' = s.

Create HintDb effects.

Section closure.
Context {S : Type}.

Lemma no_sleep_bind {A B} (m : M S A) (f : A → M S B) :
  no_sleep m → (∀ a, no_sleep (f a)) → no_sleep (bind m f).
Proof.
  intros Hm Hf c s ch c' s' H. unfold bind in H. destruct (m c s) eqn:E; try done; [by apply Hf in H|].
  by apply Hm in E.
Qed.
Lemma keeps_bind {A B} (m : M S A) (f : A → M S B) :
  keeps m → (∀ a, keeps (f a)) → keeps (bind m f).
Proof.
  intros Hm Hf c s b c' s' H. unfold bind in H. destruct (m c s) as [a c1 s1| | | |] eqn:E; try done.
  apply Hf in H as ->. by apply Hm in E.
Qed.

Lemma no_sleep_ret {A} (a : A) : no_sleep (ret a : M S A). Proof. by intros ?????. Qed.
Lemma keeps_ret {A} (a : A) : keeps (ret a : M S A). Proof. by intros ????? [=]. Qed.
Lemma no_sleep_panic {A} msg : no_sleep (panic msg : M S A). Proof. by intros ?????. Qed.
Lemma keeps_panic {A} msg : keeps (panic msg : M S A). Proof. by intros ?????. Qed.
Lemma no_sleep_hang {A} : no_sleep (hang : M S A). Proof. by intros ?????. Qed.
Lemma no_sleep_get : no_sleep (get : M S S). Proof. by intros ?????. Qed.
Lemma keeps_get : keeps (get : M S S). Proof. by intros ????? [=]. Qed.
Lemma no_sleep_modify f : no_sleep (modify f : M S unit). Proof. by intros ?????. Qed.
Lemma no_sleep_getcpu : no_sleep (getcpu : M S cpu). Proof. by intros ?????. Qed.
Lemma keeps_getcpu : keeps (getcpu : M S cpu). Proof. by intros ????? [=]. Qed.
Lemma no_sleep_setcpu f : no_sleep (setcpu f : M S unit). Proof. by intros ?????. Qed.
Lemma keeps_setcpu f : keeps (setcpu f : M S unit). Proof. by intros ????? [=]. Qed.
Lemma no_sleep_deref {A} (o : option A) : no_sleep (deref o : M S A). Proof. by destruct o; intros ?????. Qed.
Lemma keeps_deref {A} (o : option A) : keeps (deref o : M S A). Proof. destruct o; intros ????? [=]; done. Qed.
Lemma no_sleep_when b (m : M S unit) : no_sleep m → no_sleep (when b m).
Proof. destruct b; [done|]. intros _. apply no_sleep_ret. Qed.
Lemma keeps_when b (m : M S unit) : keeps m → keeps (when b m).
Proof. destruct b; [done|]. intros _. apply keeps_ret. Qed.
End closure.

#[export] Hint Resolve no_sleep_bind no_sleep_ret no_sleep_panic no_sleep_hang no_sleep_get no_sleep_modify
  no_sleep_getcpu no_sleep_setcpu no_sleep_deref no_sleep_when : effects.
#[export] Hint Resolve keeps_bind keeps_ret keeps_panic keeps_get keeps_getcpu keeps_setcpu keeps_deref
  keeps_when : effects.

(** Walk through straight-line code. *)
Ltac effects :=
  repeat first
    [ solve [eauto with effects]
    | match goal with |- no_sleep (bind _ _) => apply no_sleep_bind; [|intros ?] end
    | match goal with |- keeps (bind _ _) => apply keeps_bind; [|intros ?] end
    | match goal with |- _ (when _ _) => first [apply no_sleep_when|apply keeps_when] end
    | match goal with |- _ (if ?b then _ else _) => destruct b end
    | progress cbv zeta ].

Section locks.
Context {S : Type}.
Lemma pushcli_awake : no_sleep (pushcli : M S unit).
Proof. unfold pushcli, set_if, set_intena, set_ncli. effects. Qed.
Lemma pushcli_keeps : keeps (pushcli : M S unit).
Proof. unfold pushcli, set_if, set_intena, set_ncli. effects. Qed.
Lemma popcli_awake : no_sleep (popcli : M S unit).
Proof. unfold popcli, set_if, set_intena, set_ncli. effects. Qed.
Lemma popcli_keeps : keeps (popcli : M S unit).
Proof. unfold popcli, set_if, set_intena, set_ncli. effects. Qed.
Hint Resolve pushcli_awake pushcli_keeps popcli_awake popcli_keeps : effects.
Lemma holding_awake lk : no_sleep (holding lk : M S bool).
Proof. unfold holding. effects. Qed.
Lemma holding_keeps lk : keeps (holding lk : M S bool).
Proof. unfold holding. effects. Qed.
Hint Resolve holding_awake holding_keeps : effects.
Lemma acquire_awake lk : no_sleep (acquire lk : M S unit).
Proof. unfold acquire, set_held. effects. Qed.
Lemma acquire_keeps lk : keeps (acquire lk : M S unit).
Proof. unfold acquire, set_held. effects. Qed.
Lemma release_awake lk : no_sleep (release lk : M S unit).
Proof. unfold release, set_held. effects. Qed.
Lemma release_keeps lk : keeps (release lk : M S unit).
Proof. unfold release, set_held. effects. Qed.
End locks.
#[export] Hint Resolve holding_awake holding_keeps acquire_awake acquire_keeps release_awake release_keeps : effects.

(** * The memory interface: freeing does not sleep *)

Class ProcMemAwake (Mem : Type) `{!ProcMem Mem} := {
  pm_kfree_awake : ∀ v, no_sleep (pm_kfree v : M Mem unit);
  pm_freevm_awake : ∀ d, no_sleep (pm_freevm d : M Mem unit);
}.

Section kernel.
Context (kend data : Z).

Lemma put_page_awake v d : no_sleep (put_page v d).
Proof. unfold put_page, get_page. effects. Qed.
Lemma load32_awake p : no_sleep (load32 p).
Proof. unfold load32, get_page. effects. Qed.
Lemma store32_awake p x : no_sleep (store32 p x).
Proof. pose proof put_page_awake. unfold store32, get_page. effects. Qed.
Lemma kfree_awake v : no_sleep (kfree kend v).
Proof. pose proof put_page_awake. pose proof store32_awake. unfold kfree, memset_page. effects. Qed.
Lemma kalloc_awake : no_sleep kalloc.
Proof. pose proof load32_awake. unfold kalloc. effects. Qed.
Lemma walkpgdir_awake pgdir va alloc : no_sleep (walkpgdir pgdir va alloc).
Proof.
  pose proof load32_awake. pose proof store32_awake. pose proof put_page_awake. pose proof kalloc_awake.
  unfold walkpgdir, memset_page. effects.
Qed.
Lemma deallocuvm_loop_awake fuel pgdir a oldsz : no_sleep (deallocuvm_loop kend fuel pgdir a oldsz).
Proof.
  pose proof load32_awake. pose proof store32_awake. pose proof kfree_awake. pose proof walkpgdir_awake.
  revert a. induction fuel as [|fuel IH]; intros a; cbn [deallocuvm_loop]; effects.
Qed.
Lemma freevm_awake pgdir : no_sleep (freevm kend pgdir).
Proof.
  pose proof load32_awake. pose proof kfree_awake. pose proof deallocuvm_loop_awake.
  assert (∀ l (f : Z → M kstate unit), (∀ x, no_sleep (f x)) → no_sleep (for_each l f)) as Hfe.
  { intros l f Hf. induction l; cbn [for_each]; effects. }
  unfold freevm, deallocuvm. effects. all: apply Hfe; intros ?; effects.
Qed.

#[global] Instance kernel_mem_awake : @ProcMemAwake kstate (kernel_mem kend data) := {
  pm_kfree_awake := kfree_awake;
  pm_freevm_awake := freevm_awake;
}.
End kernel.

(** * The process table, without what is private to a process *)

Record key := Key {
  k_state : procstate;
  k_pid : Z;
  k_parent : option nat;
  k_chan : option chan;
  k_killed : bool;
}.
Definition key_of (p : proc) : key := Key (p_state p) (p_pid p) (p_parent p) (p_chan p) (p_killed p).

Definition kset_state (v : procstate) (k : key) : key := Key v (k_pid k) (k_parent k) (k_chan k) (k_killed k).
Definition kwake (ch : chan) (k : key) : key :=
  if bool_decide (k_state k = SLEEPING) && bool_decide (k_chan k = Some ch) then kset_state RUNNABLE k else k.

Lemma bind_ret {S A B} (m : M S A) (f : A → M S B) c s b c' s' :
  bind m f c s = Ret b c' s' → ∃ a c1 s1, m c s = Ret a c1 s1 ∧ f a c1 s1 = Ret b c' s'.
Proof. unfold bind. destruct (m c s) as [a c1 s1| | | |]; try done. eauto. Qed.

Lemma bind_sleep {S A B} (m : M S A) (f : A → M S B) c s ch c' s' :
  bind m f c s = Sleep ch c' s' → m c s = Sleep ch c' s' ∨
  ∃ a c1 s1, m c s = Ret a c1 s1 ∧ f a c1 s1 = Sleep ch c' s'.
Proof.
  unfold bind. destruct (m c s) as [a c1 s1| |ch1 c1 s1| |]; try done.
  - intros H. right. eauto.
  - intros [= -> -> ->]. by left.
Qed.

Section effects.
Context {Mem F : Type} `{!ProcMem Mem} `{!ProcFiles Mem F}.
Implicit Types s : pstate Mem F.

Definition keys s : list key := key_of <$> pt_proc s.

(** An operation that changes the keys by [g] (and not [initproc] or [nextpid]). *)
Definition changes {A} (m : M (pstate Mem F) A) (g : list key → list key) : Prop :=
  ∀ c s a c' s', m c s = Ret a c' s' →
    keys s' = g (keys s) ∧ pt_initproc s' = pt_initproc s ∧ pt_nextpid s' = pt_nextpid s.
Abbreviation quiet m := (changes m id).

Lemma changes_bind {A B} (m : M (pstate Mem F) A) (f : A → M _ B) g1 g2 :
  changes m g1 → (∀ a, changes (f a) g2) → changes (bind m f) (g2 ∘ g1).
Proof.
  intros Hm Hf c s b c' s' (a & c1 & s1 & H1 & H2)%bind_ret.
  destruct (Hm _ _ _ _ _ H1) as (K1 & I1 & N1). destruct (Hf _ _ _ _ _ _ H2) as (K2 & I2 & N2).
  split; [by rewrite K2, K1|]. split; congruence.
Qed.
Lemma quiet_bind {A B} (m : M (pstate Mem F) A) (f : A → M _ B) g :
  quiet m → (∀ a, changes (f a) g) → changes (bind m f) g.
Proof. apply changes_bind. Qed.
Lemma bind_quiet {A B} (m : M (pstate Mem F) A) (f : A → M _ B) g :
  changes m g → (∀ a, quiet (f a)) → changes (bind m f) g.
Proof. intros H1 H2. apply (changes_bind _ _ g id H1 H2). Qed.
Lemma keeps_quiet {A} (m : M (pstate Mem F) A) : keeps m → quiet m.
Proof. intros H c s a c' s' ->%H. done. Qed.

Lemma quiet_pmem {A} (m : M Mem A) : quiet (pmem m).
Proof. intros c s a c' s'. unfold pmem, lift. by destruct (m c (pt_mem s)); intros [= <- <- <-]. Qed.
Lemma quiet_pfiles {A} (m : M (Mem * F) A) : quiet (pfiles m).
Proof. intros c s a c' s'. unfold pfiles, lift. by destruct (m c (pt_mem s, pt_files s)); intros [= <- <- <-]. Qed.

Lemma keys_alter f g (i : nat) (t : list proc) :
  (∀ p, key_of (f p) = g (key_of p)) → key_of <$> alter f i t = alter g i (key_of <$> t).
Proof.
  intros Hfg. apply list_eq. intros j. rewrite list_lookup_fmap. destruct (decide (i = j)) as [->|Hne].
  - rewrite !list_lookup_alter_eq, list_lookup_fmap. destruct (t !! j); cbn; [by rewrite Hfg|done].
  - rewrite !list_lookup_alter_ne, list_lookup_fmap by done. done.
Qed.

Lemma changes_upd i f g :
  (∀ p, key_of (f p) = g (key_of p)) → changes (upd_proc i f) (alter g i).
Proof.
  intros Hfg c s a c' s' (s1 & c1 & s2 & [= <- <- <-] & H)%bind_ret.
  apply bind_ret in H as (p & c2 & s2 & Hd & H). destruct (pt_proc s !! i); [|done]. injection Hd as <- <- <-.
  injection H as <- <- <-. split; [|done]. by apply keys_alter.
Qed.
Lemma quiet_upd i f : (∀ p, key_of (f p) = key_of p) → quiet (upd_proc i f).
Proof.
  intros Hf c s a c' s' H. destruct (changes_upd i f id Hf _ _ _ _ _ H) as (K & I & N).
  split; [|done]. rewrite K. apply list_alter_id. done.
Qed.
Lemma quiet_procp i : quiet (procp i).
Proof. apply keeps_quiet. unfold procp. effects. Qed.
Lemma quiet_for_each {A} (l : list A) (f : A → M (pstate Mem F) unit) :
  (∀ x, quiet (f x)) → quiet (for_each l f).
Proof.
  intros Hf. induction l as [|x l IH]; cbn [for_each]; [by apply keeps_quiet, keeps_ret|].
  by apply quiet_bind.
Qed.
End effects.

(** Run through code that does not touch the keys. *)
Ltac quiets :=
  repeat (cbv zeta;
  match goal with
  | |- changes (bind (upd_proc ?i ?f) _) _ => apply quiet_bind; [apply quiet_upd; done|intros ?]
  | |- changes (bind (pmem _) _) _ => apply quiet_bind; [apply quiet_pmem|intros ?]
  | |- changes (bind (pfiles _) _) _ => apply quiet_bind; [apply quiet_pfiles|intros ?]
  | |- changes (bind (procp _) _) _ => apply quiet_bind; [apply quiet_procp|intros ?]
  | |- changes (bind (for_each _ _) _) _ => apply quiet_bind; [apply quiet_for_each; intros ?|intros ?]
  | |- changes (bind _ _) _ => apply quiet_bind; [apply keeps_quiet; solve [effects]|intros ?]
  | |- changes (upd_proc _ _) id => apply quiet_upd; done
  | |- changes (pmem _) _ => apply quiet_pmem
  | |- changes (pfiles _) _ => apply quiet_pfiles
  | |- changes (match ?o with _ => _ end) _ => destruct o
  | |- changes _ id => apply keeps_quiet; solve [effects]
  end).

(** * The operations *)

Lemma find_proc_some f t k j :
  find_proc f t k = Some j → (k <= j)%nat ∧ ∃ p, t !! (j - k)%nat = Some p ∧ f p = true.
Proof.
  revert k. induction t as [|p t IH]; intros k; cbn; [done|]. destruct (f p) eqn:Hf.
  - intros [= <-]. split; [lia|]. rewrite Nat.sub_diag. eauto.
  - intros H. destruct (IH _ H) as (Hle & q & Hq & Hfq). split; [lia|]. exists q. split; [|done].
    by replace (j - k)%nat with (S (j - S k)) by lia.
Qed.
Lemma find_proc_none f t k i p : find_proc f t k = None → t !! i = Some p → f p = false.
Proof.
  revert k i. induction t as [|q t IH]; intros k i; cbn; [done|]. destruct (f q) eqn:Hf; [done|].
  intros H. destruct i as [|i]; [by intros [= <-]|]. by apply (IH (S k)).
Qed.

Lemma find_proc_first f t k i j p :
  find_proc f t k = Some i → (k + j < i)%nat → t !! j = Some p → f p = false.
Proof.
  revert k j. induction t as [|q t IH]; intros k j; cbn; [done|]. destruct (f q) eqn:Hf.
  - intros [= <-]. lia.
  - intros H Hlt. destruct j as [|j]; [by intros [= <-]|]. cbn. apply (IH (S k)); [done|lia].
Qed.

(** Entry [i] is the first of [t] that satisfies [f]. *)
Definition first_key (f : key → Prop) (t : list key) (i : nat) (k : key) : Prop :=
  t !! i = Some k ∧ f k ∧ ∀ j kj, (j < i)%nat → t !! j = Some kj → ¬ f kj.
Definition no_key (f : key → Prop) (t : list key) : Prop := ∀ j kj, t !! j = Some kj → ¬ f kj.

Lemma find_first (f : proc → bool) (g : key → Prop) t i :
  (∀ p, f p = true ↔ g (key_of p)) → find_proc f t 0 = Some i →
  ∃ p, t !! i = Some p ∧ first_key g (key_of <$> t) i (key_of p).
Proof.
  intros Hfg H. apply find_proc_some in H as Hp. destruct Hp as (_ & p & Hp & Hf). rewrite Nat.sub_0_r in Hp.
  exists p. split; [done|]. split; [by rewrite list_lookup_fmap, Hp|]. split; [by apply Hfg|].
  intros j kj Hlt. rewrite list_lookup_fmap. intros (q & Hq & ->)%fmap_Some. intros Hg%Hfg.
  rewrite (find_proc_first f t 0 i j q H) in Hg; [done|lia|done].
Qed.
Lemma find_none (f : proc → bool) (g : key → Prop) t :
  (∀ p, f p = true ↔ g (key_of p)) → find_proc f t 0 = None → no_key g (key_of <$> t).
Proof.
  intros Hfg H j kj. rewrite list_lookup_fmap. intros (q & Hq & ->)%fmap_Some Hg%Hfg.
  by rewrite (find_proc_none _ _ _ _ _ H Hq) in Hg.
Qed.

(** * The loop of [exit], process by process *)

Definition zombie_child (cur : nat) (p : proc) : bool :=
  bool_decide (p_parent p = Some cur) && bool_decide (p_state p = ZOMBIE).
(** Wake init, if a zombie was passed to it. *)
Definition wake_init (init : option nat) (z : bool) (p : proc) : proc :=
  match init with Some q => if z then wake (ChProc q) p else p | None => p end.
Definition adopt (cur : nat) (init : option nat) (p : proc) : proc :=
  if bool_decide (p_parent p = Some cur) then set_parent init p else p.

Lemma wake_init_fields init z p :
  p_parent (wake_init init z p) = p_parent p ∧
  (p_state (wake_init init z p) = ZOMBIE ↔ p_state p = ZOMBIE).
Proof.
  unfold wake_init, wake. destruct init as [q|]; [|done]. destruct z; [|done].
  destruct (bool_decide (p_state p = SLEEPING)) eqn:E; cbn; [|done].
  apply bool_decide_eq_true in E. destruct (bool_decide (p_chan p = Some (ChProc q))); cbn; [|done].
  split; [done|]. rewrite E. split; discriminate.
Qed.
Lemma wake_init_adopt init z cur i p : wake_init init z (adopt cur i p) = adopt cur i (wake_init init z p).
Proof.
  unfold adopt. destruct (wake_init_fields init z p) as [-> _]. case_bool_decide; [|done].
  unfold wake_init, wake. destruct init as [q|]; [|done]. destruct z; [|done].
  cbn [p_state p_chan set_parent]. by destruct (bool_decide _ && bool_decide _).
Qed.
Lemma wake_init_twice init z z' p : wake_init init z (wake_init init z' p) = wake_init init (z || z') p.
Proof.
  unfold wake_init, wake. destruct init as [q|]; [|done]. destruct z, z'; cbn; try done.
  destruct (bool_decide (p_state p = SLEEPING) && bool_decide (p_chan p = Some (ChProc q))) eqn:E; [done|by rewrite E].
Qed.

Lemma reparent_prefix cur init t n i :
  (n <= length t)%nat →
  foldl (reparent1 cur init) t (seq 0 n) !! i =
  (λ p, wake_init init (existsb (zombie_child cur) (take n t)) (if decide (i < n)%nat then adopt cur init p else p))
    <$> t !! i.
Proof.
  revert i. induction n as [|n IH]; intros i Hn.
  { cbn. destruct (t !! i); [|done]. cbn. f_equal. destruct init as [q|]; done. }
  rewrite seq_S, foldl_app. cbn [foldl plus]. set (t' := foldl _ t (seq 0 n)) in *.
  destruct (lookup_lt_is_Some_2 t n Hn) as [p Hp].
  set (z := existsb (zombie_child cur) (take n t)) in *.
  assert (t' !! n = Some (wake_init init z p)) as Hp'
    by (rewrite IH, Hp by lia; cbn; by rewrite decide_False by lia).
  assert (existsb (zombie_child cur) (take (S n) t) = (z || zombie_child cur p)) as ->.
  { rewrite (take_S_r _ _ _ Hp), existsb_app. cbn. by rewrite orb_false_r. }
  assert (reparent1 cur init t' n = (wake_init init (zombie_child cur p)) <$> alter (adopt cur init) n t') as ->.
  { unfold reparent1. rewrite Hp'. destruct (wake_init_fields init z p) as [-> Hz]. unfold zombie_child.
    case_bool_decide as Hpar; cbn [andb].
    - assert (alter (adopt cur init) n t' = alter (set_parent init) n t') as ->.
      { apply list_alter_ext; [|done]. intros x Hx. rewrite Hp' in Hx. injection Hx as <-. unfold adopt.
        destruct (wake_init_fields init z p) as [-> _]. by rewrite bool_decide_eq_true_2. }
      rewrite (bool_decide_ext _ _ Hz). destruct init as [q|]; [|by rewrite list_fmap_id; destruct (bool_decide _)].
      destruct (bool_decide (p_state p = ZOMBIE)); [done|]. unfold wake_init. by rewrite list_fmap_id.
    - assert (alter (adopt cur init) n t' = t') as ->.
      { transitivity (alter id n t'); [|by apply list_alter_id]. apply list_alter_ext; [|done].
        intros x Hx. rewrite Hp' in Hx. injection Hx as <-. unfold adopt.
        destruct (wake_init_fields init z p) as [-> _]. by rewrite bool_decide_eq_false_2. }
      unfold wake_init. destruct init as [q|]; by rewrite list_fmap_id. }
  rewrite list_lookup_fmap. destruct (decide (n = i)) as [<-|Hne].
  - rewrite list_lookup_alter_eq, Hp', Hp. cbn. rewrite decide_True by lia.
    by rewrite <- wake_init_adopt, wake_init_twice, orb_comm.
  - rewrite list_lookup_alter_ne, IH by (first [done|lia]). destruct (t !! i) as [x|]; [|done]. cbn.
    rewrite wake_init_twice, orb_comm. destruct (decide (i < n)%nat), (decide (i < S n)%nat); first [done|lia].
Qed.

Lemma reparent_lookup cur init t i :
  reparent cur init t !! i =
  (λ p, wake_init init (existsb (zombie_child cur) t) (adopt cur init p)) <$> t !! i.
Proof.
  unfold reparent. rewrite reparent_prefix by done. rewrite take_ge by done.
  destruct (t !! i) as [p|] eqn:Hp; [|done]. cbn. by rewrite decide_True by (by eapply lookup_lt_Some).
Qed.

Lemma list_alter_alter {A} (f g : A → A) (i : nat) (l : list A) :
  alter g i (alter f i l) = alter (λ x, g (f x)) i l.
Proof.
  apply list_eq. intros j. destruct (decide (i = j)) as [->|Hne].
  - rewrite !list_lookup_alter_eq. by destruct (l !! j).
  - by rewrite !list_lookup_alter_ne.
Qed.

Section ops.
Context {Mem F : Type} `{!ProcMem Mem} `{!ProcFiles Mem F}.
Implicit Types s : pstate Mem F.

Lemma keys_lookup s i k : keys s !! i = Some k → ∃ p, pt_proc s !! i = Some p ∧ k = key_of p.
Proof. unfold keys. rewrite list_lookup_fmap. destruct (pt_proc s !! i); cbn; [|done]. intros [= <-]. eauto. Qed.
Lemma lookup_keys s i p : pt_proc s !! i = Some p → keys s !! i = Some (key_of p).
Proof. intros H. unfold keys. by rewrite list_lookup_fmap, H. Qed.

Lemma procp_ret i c s p c' s' : procp i c s = Ret p c' s' → c' = c ∧ s' = s ∧ pt_proc s !! i = Some p.
Proof.
  unfold procp. intros (sx & cx & sx2 & [= <- <- <-] & Hd)%bind_ret.
  destruct (pt_proc s !! i); [|done]. by injection Hd as -> -> ->.
Qed.

Lemma quiet_sched cur : changes (sched cur : M (pstate Mem F) unit) id.
Proof. apply keeps_quiet. unfold sched, procp. effects. Qed.

Lemma alloc_slot_ret c s o c' s' :
  alloc_slot c s = Ret o c' s' → pt_initproc s' = pt_initproc s ∧
  match o with
  | None => keys s' = keys s ∧ pt_nextpid s' = pt_nextpid s ∧ no_key (λ k, k_state k = UNUSED) (keys s)
  | Some i => ∃ k, first_key (λ k, k_state k = UNUSED) (keys s) i k ∧ pt_nextpid s' = s32 (pt_nextpid s + 1) ∧
      keys s' = alter (λ k, Key EMBRYO (pt_nextpid s) (k_parent k) (k_chan k) (k_killed k)) i (keys s)
  end.
Proof.
  unfold alloc_slot. intros ([] & c1 & s1 & H1 & H)%bind_ret. apply acquire_keeps in H1 as ->.
  apply bind_ret in H as (sx & c2 & s2 & [= <- <- <-] & H).
  destruct (find_proc _ (pt_proc s) 0) as [i|] eqn:Hf.
  - apply (find_first _ (λ k, k_state k = UNUSED)) in Hf as (p & Hp & Hst); [|intros ?; apply bool_decide_eq_true].
    apply bind_ret in H as ([] & c3 & s3 & H3 & H). apply bind_ret in H as ([] & c4 & s4 & H4 & H).
    apply bind_ret in H as ([] & c5 & s5 & [= <- <-] & H). apply bind_ret in H as ([] & c6 & s6 & H6 & [= <- <- <-]).
    apply release_keeps in H6 as ->.
    destruct (changes_upd i (set_state EMBRYO) (kset_state EMBRYO) (λ _, eq_refl) _ _ _ _ _ H3) as (K3 & I3 & N3).
    destruct (changes_upd i (set_pid (pt_nextpid s)) (λ k, Key (k_state k) (pt_nextpid s) (k_parent k) (k_chan k) (k_killed k))
      (λ _, eq_refl) _ _ _ _ _ H4) as (K4 & I4 & N4).
    split; [cbn; congruence|]. exists (key_of p). split; [done|].
    split; [cbn; congruence|]. transitivity (keys s4); [done|]. by rewrite K4, K3, list_alter_alter.
  - apply bind_ret in H as ([] & c3 & s3 & H3 & [= <- <- <-]). apply release_keeps in H3 as ->.
    split; [done|]. split; [done|]. split; [done|]. apply (find_none _ (λ k, k_state k = UNUSED) _) in Hf; [done|]. intros ?. apply bool_decide_eq_true.
Qed.

Lemma alloc_stack_ret p c s o c' s' :
  alloc_stack p c s = Ret o c' s' → pt_initproc s' = pt_initproc s ∧ pt_nextpid s' = pt_nextpid s ∧
  (o = Some p ∧ keys s' = keys s ∨ o = None ∧ keys s' = alter (kset_state UNUSED) p (keys s)).
Proof.
  unfold alloc_stack. intros (k & c1 & s1 & H1 & H)%bind_ret. apply bind_ret in H as ([] & c2 & s2 & H2 & H).
  destruct (quiet_pmem _ _ _ _ _ _ H1) as (K1 & I1 & N1).
  destruct (quiet_upd p (set_kstack k) (λ _, eq_refl) _ _ _ _ _ H2) as (K2 & I2 & N2). cbn [id] in *.
  destruct (k =? 0); apply bind_ret in H as ([] & c3 & s3 & H3 & [= <- <- <-]).
  - destruct (changes_upd p (set_state UNUSED) (kset_state UNUSED) (λ _, eq_refl) _ _ _ _ _ H3) as (K3 & I3 & N3).
    split; [congruence|]. split; [congruence|]. right. split; [done|]. congruence.
  - destruct (quiet_upd p (set_forkret true) (λ _, eq_refl) _ _ _ _ _ H3) as (K3 & I3 & N3). cbn [id] in *.
    split; [congruence|]. split; [congruence|]. left. split; [done|]. congruence.
Qed.

(** The pid that [fork] returns is read before the child can run. *)
Lemma fork_copy_pid (x : proc) np c s r c' s' :
  (upd_proc np (set_tf (set_eax 0 (p_tf x))) ;;
   for_each (seq 0 nofile) (λ i,
     o <- deref (p_ofile x !! i) ;;
     match o with
     | None => ret tt
     | Some f => pfiles (pf_filedup f) ;; upd_proc np (λ n, set_ofile (<[i := Some f]> (p_ofile n)) n)
     end) ;;
   cwd <- deref (p_cwd x) ;;
   pfiles (pf_idup cwd) ;;
   upd_proc np (set_cwd (Some cwd)) ;;
   upd_proc np (set_name (p_name x)) ;;
   n <- procp np ;;
   acquire LkPtable ;;
   upd_proc np (set_state RUNNABLE) ;;
   release LkPtable ;;
   ret (p_pid n)) c s = Ret r c' s' →
  ∃ k, keys s !! np = Some k ∧ r = k_pid k.
Proof.
  intros ([] & c1 & s1 & H1 & H)%bind_ret. apply bind_ret in H as ([] & c2 & s2 & H2 & H).
  apply bind_ret in H as (cwd & c3 & s3 & H3 & H). apply bind_ret in H as ([] & c4 & s4 & H4 & H).
  apply bind_ret in H as ([] & c5 & s5 & H5 & H). apply bind_ret in H as ([] & c6 & s6 & H6 & H).
  apply bind_ret in H as (n & c7 & s7 & H7 & H).
  destruct (quiet_upd np (set_tf (set_eax 0 (p_tf x))) (λ _, eq_refl) _ _ _ _ _ H1) as (K1 & _).
  assert (keys s2 = keys s1) as K2.
  { eapply (quiet_for_each (seq 0 nofile) _) in H2; [apply H2|]. intros i. quiets. }
  apply keeps_deref in H3 as ->. destruct (quiet_pfiles _ _ _ _ _ _ H4) as (K4 & _).
  destruct (quiet_upd np (set_cwd (Some cwd)) (λ _, eq_refl) _ _ _ _ _ H5) as (K5 & _).
  destruct (quiet_upd np (set_name (p_name x)) (λ _, eq_refl) _ _ _ _ _ H6) as (K6 & _). cbn [id] in *.
  do 3 apply bind_ret in H as (? & ? & ? & _ & H). injection H as <- _ _.
  unfold procp in H7. apply bind_ret in H7 as (sx & cx & sx2 & [= <- <- <-] & Hd).
  destruct (pt_proc s6 !! np) as [p|] eqn:Hp; [|done]. injection Hd as <- _ _.
  exists (key_of p). split; [|done]. apply lookup_keys in Hp. congruence.
Qed.

Lemma fork_copy_ret cur np c s r c' s' :
  fork_copy cur np c s = Ret r c' s' → pt_initproc s' = pt_initproc s ∧ pt_nextpid s' = pt_nextpid s ∧
  (r = -1 ∧ keys s' = alter (kset_state UNUSED) np (keys s) ∨
   (∃ k, keys s !! np = Some k ∧ r = k_pid k) ∧
   keys s' = alter (λ k, Key RUNNABLE (k_pid k) (Some cur) (k_chan k) (k_killed k)) np (keys s)).
Proof.
  unfold fork_copy. intros (p & c1 & s1 & H1 & H)%bind_ret. apply bind_ret in H as (d & c2 & s2 & H2 & H).
  apply bind_ret in H as ([] & c3 & s3 & H3 & H).
  destruct (quiet_procp _ _ _ _ _ _ H1) as (K1 & I1 & N1). destruct (quiet_pmem _ _ _ _ _ _ H2) as (K2 & I2 & N2).
  destruct (quiet_upd np (set_pgdir d) (λ _, eq_refl) _ _ _ _ _ H3) as (K3 & I3 & N3). cbn [id] in *.
  rewrite <- K1, <- K2, <- K3, <- I1, <- I2, <- I3, <- N1, <- N2, <- N3. clear -H. destruct (d =? 0).
  - cut (changes (n <- procp np ;; pmem (pm_kfree (p_kstack n)) ;; upd_proc np (set_kstack 0) ;;
                  upd_proc np (set_state UNUSED) ;; ret (-1) : M (pstate Mem F) Z) (alter (kset_state UNUSED) np)).
    { intros Hc. destruct (Hc _ _ _ _ _ H) as (K & I & N). split; [done|]. split; [done|]. left. split; [|done].
      apply bind_ret in H as (n & c4 & s4 & _ & H). apply bind_ret in H as (? & c5 & s5 & _ & H).
      apply bind_ret in H as (? & c6 & s6 & _ & H). by apply bind_ret in H as (? & c7 & s7 & _ & [= <- <- <-]). }
    quiets. apply bind_quiet; [by apply changes_upd|]. intros _. quiets.
  - apply bind_ret in H as ([] & c1 & s1 & H1 & H). apply bind_ret in H as ([] & c2 & s2 & H2 & H).
    destruct (quiet_upd np (set_sz (p_sz p)) (λ _, eq_refl) _ _ _ _ _ H1) as (K1 & I1 & N1).
    destruct (changes_upd np (set_parent (Some cur)) (λ k, Key (k_state k) (k_pid k) (Some cur) (k_chan k) (k_killed k))
      (λ _, eq_refl) _ _ _ _ _ H2) as (K2 & I2 & N2). cbn [id] in *.
    match type of H with ?m c2 s2 = _ => assert (changes m (alter (kset_state RUNNABLE) np)) as Hc end.
    { quiets. apply bind_quiet; [by apply changes_upd|]. intros _. quiets. }
    destruct (Hc _ _ _ _ _ H) as (K & I & N). split; [congruence|]. split; [congruence|]. right.
    split; [|by rewrite K, K2, K1, list_alter_alter].
    apply fork_copy_pid in H as (k & Hk & ->). rewrite K2, K1, list_lookup_alter_eq in Hk.
    destruct (keys s3 !! np) as [k0|]; [|done]. injection Hk as <-. by exists k0.
Qed.

Lemma exit_close_ret cur c s c' s' :
  exit_close cur c s = Ret tt c' s' →
  pt_initproc s ≠ Some cur ∧ keys s' = keys s ∧ pt_initproc s' = pt_initproc s ∧ pt_nextpid s' = pt_nextpid s.
Proof.
  unfold exit_close. intros (sx & c1 & s1 & [= <- <- <-] & H)%bind_ret.
  apply bind_ret in H as ([] & c2 & s2 & H2 & H).
  case_bool_decide as Hi; [done|]. injection H2 as <- <-. split; [done|].
  match type of H with ?m c s = _ => assert (changes m id) as Hc end; [quiets|]. by apply (Hc _ _ _ _ _ H).
Qed.

Definition kzombie_child (cur : nat) (k : key) : bool :=
  bool_decide (k_parent k = Some cur) && bool_decide (k_state k = ZOMBIE).
Definition kadopt (cur : nat) (init : option nat) (k : key) : key :=
  if bool_decide (k_parent k = Some cur)
  then Key (k_state k) (k_pid k) init (k_chan k) (k_killed k) else k.
Definition kwake_opt (q : option nat) (k : key) : key :=
  match q with Some q => kwake (ChProc q) k | None => k end.
(** What [exit] of [cur] does to process [i]. *)
Definition kexit (cur : nat) (par init : option nat) (z : bool) (i : nat) (k : key) : key :=
  let k := kadopt cur init (kwake_opt par k) in
  let k := if z then kwake_opt init k else k in
  if decide (i = cur) then kset_state ZOMBIE k else k.

Lemma key_wake ch p : key_of (wake ch p) = kwake ch (key_of p).
Proof. unfold wake, kwake. cbn [key_of k_state k_chan]. by destruct (bool_decide _ && bool_decide _). Qed.
Lemma key_adopt cur init p : key_of (adopt cur init p) = kadopt cur init (key_of p).
Proof. unfold adopt, kadopt. cbn [key_of k_parent]. by case_bool_decide. Qed.
Lemma key_wake_init init z p : key_of (wake_init init z p) = (if z then kwake_opt init (key_of p) else key_of p).
Proof. unfold wake_init, kwake_opt. destruct init; [|by destruct z]. destruct z; [apply key_wake|done]. Qed.

Lemma zombie_children cur (f : proc → proc) t :
  (∀ p, p_parent (f p) = p_parent p ∧ (p_state (f p) = ZOMBIE ↔ p_state p = ZOMBIE)) →
  existsb (zombie_child cur) (f <$> t) = existsb (kzombie_child cur) (key_of <$> t).
Proof.
  intros Hf. induction t as [|p t IH]; [done|]. cbn. rewrite IH. f_equal. unfold zombie_child, kzombie_child.
  destruct (Hf p) as [-> Hz]. by rewrite (bool_decide_ext _ _ Hz).
Qed.

Lemma exit_zombie_ret cur c s c' s' :
  exit_zombie cur c s = Ret tt c' s' →
  pt_initproc s' = pt_initproc s ∧ pt_nextpid s' = pt_nextpid s ∧
  ∃ k, keys s !! cur = Some k ∧
    ∀ i, keys s' !! i =
      kexit cur (k_parent k) (pt_initproc s) (existsb (kzombie_child cur) (keys s)) i <$> keys s !! i.
Proof.
  unfold exit_zombie. intros ([] & c1 & s1 & H1 & H)%bind_ret. apply acquire_keeps in H1 as ->.
  apply bind_ret in H as (p & c2 & s2 & H2 & H).
  assert (pt_proc s !! cur = Some p ∧ s2 = s) as [Hp ->].
  { unfold procp in H2. apply bind_ret in H2 as (sx & cx & sx2 & [= <- <- <-] & Hd).
    destruct (pt_proc s !! cur); [|done]. by injection Hd as <- _ <-. }
  apply bind_ret in H as ([] & c3 & s3 & H3 & H). apply bind_ret in H as (s4 & c4 & s5 & [= <- <- <-] & H).
  apply bind_ret in H as ([] & c6 & s6 & [= <- <-] & H). apply bind_ret in H as ([] & c7 & s7 & H7 & H8).
  set (wf := match p_parent p with Some q => wake (ChProc q) | None => id end).
  assert (s3 = PState (wf <$> pt_proc s) (pt_initproc s) (pt_nextpid s) (pt_mem s) (pt_files s)) as ->.
  { unfold wf. destruct (p_parent p); [by injection H3 as <- <-|]. injection H3 as <- <-. rewrite list_fmap_id. by destruct s. }
  cbn [pt_proc pt_initproc pt_nextpid pt_mem pt_files] in *.
  destruct (changes_upd cur (set_state ZOMBIE) (kset_state ZOMBIE) (λ _, eq_refl) _ _ _ _ _ H7) as (K7 & I7 & N7).
  destruct (quiet_sched cur _ _ _ _ _ H8) as (K8 & I8 & N8). cbn [id pt_initproc pt_nextpid] in *.
  split; [congruence|]. split; [congruence|]. exists (key_of p). split; [by apply lookup_keys|]. intros i.
  rewrite K8, K7. unfold keys. cbn [pt_proc].
  assert (∀ x, p_parent (wf x) = p_parent x ∧ (p_state (wf x) = ZOMBIE ↔ p_state x = ZOMBIE)) as Hwf.
  { intros x. unfold wf. destruct (p_parent p) as [q|]; [|done]. apply (wake_init_fields (Some q) true). }
  assert ((key_of <$> reparent cur (pt_initproc s) (wf <$> pt_proc s)) !! i =
    (λ k, let k := kadopt cur (pt_initproc s) (kwake_opt (p_parent p) k) in
          if existsb (kzombie_child cur) (key_of <$> pt_proc s) then kwake_opt (pt_initproc s) k else k) <$>
    (key_of <$> pt_proc s) !! i) as Hrep.
  { rewrite !list_lookup_fmap, reparent_lookup, list_lookup_fmap, (zombie_children _ _ _ Hwf).
    destruct (pt_proc s !! i) as [x|]; [|done]. cbn. f_equal. rewrite key_wake_init, key_adopt.
    unfold wf. destruct (p_parent p) as [q|]; cbn; [by rewrite key_wake|done]. }
  unfold kexit. destruct (decide (i = cur)) as [->|Hne].
  - rewrite list_lookup_alter_eq, Hrep. by destruct ((key_of <$> pt_proc s) !! cur).
  - rewrite list_lookup_alter_ne by done. rewrite Hrep. by destruct ((key_of <$> pt_proc s) !! i).
Qed.

Lemma find_zombie cur s i :
  find_proc (λ p, bool_decide (p_parent p = Some cur) && bool_decide (p_state p = ZOMBIE)) (pt_proc s) 0 = Some i →
  ∃ k, first_key (λ k, kzombie_child cur k = true) (keys s) i k.
Proof. intros (p & _ & Hf)%(find_first _ (λ k, kzombie_child cur k = true)); [eauto|done]. Qed.
Lemma find_no_zombie cur s :
  find_proc (λ p, bool_decide (p_parent p = Some cur) && bool_decide (p_state p = ZOMBIE)) (pt_proc s) 0 = None →
  no_key (λ k, kzombie_child cur k = true) (keys s).
Proof. by apply find_none. Qed.
Lemma havekids_spec cur s :
  existsb (λ p, bool_decide (p_parent p = Some cur)) (pt_proc s) = true ↔
  ∃ j k, keys s !! j = Some k ∧ k_parent k = Some cur.
Proof.
  rewrite existsb_exists. split.
  - intros (p & Hp & Hpar). apply list_elem_of_In, list_elem_of_lookup_1 in Hp as [j Hj]. exists j, (key_of p).
    split; [by apply lookup_keys|]. by apply bool_decide_eq_true in Hpar.
  - intros (j & k & (p & Hp & ->)%keys_lookup & Hpar). exists p. split; [|by apply bool_decide_eq_true].
    apply list_elem_of_In. by eapply list_elem_of_lookup_2.
Qed.

Definition ksleep (ch : chan) (k : key) : key := Key SLEEPING (k_pid k) (k_parent k) (Some ch) (k_killed k).
Definition kreap (k : key) : key := Key UNUSED 0 None (k_chan k) false.
Definition kkill (k : key) : key :=
  Key (if bool_decide (k_state k = SLEEPING) then RUNNABLE else k_state k) (k_pid k) (k_parent k) (k_chan k) true.

Lemma changes_sleep_table cur ch lk :
  changes (when (bool_decide (lk ≠ LkPtable)) (acquire LkPtable ;; release lk) ;;
           upd_proc cur (set_chan (Some ch)) ;; upd_proc cur (set_state SLEEPING) ;; sched cur
           : M (pstate Mem F) unit) (alter (ksleep ch) cur).
Proof.
  apply quiet_bind; [apply keeps_quiet; effects|]. intros _. intros c s a c' s' H.
  apply bind_ret in H as ([] & c1 & s1 & H1 & H). apply bind_ret in H as ([] & c2 & s2 & H2 & H3).
  destruct (changes_upd cur (set_chan (Some ch)) (λ k, Key (k_state k) (k_pid k) (k_parent k) (Some ch) (k_killed k))
    (λ _, eq_refl) _ _ _ _ _ H1) as (K1 & I1 & N1).
  destruct (changes_upd cur (set_state SLEEPING) (kset_state SLEEPING) (λ _, eq_refl) _ _ _ _ _ H2) as (K2 & I2 & N2).
  destruct (quiet_sched cur _ _ _ _ _ H3) as (K3 & I3 & N3). cbn [id] in *.
  split; [by rewrite K3, K2, K1, list_alter_alter|]. split; congruence.
Qed.

Lemma sleep_sleeps cur ch lk c s ch' c' s' :
  sleep cur ch lk c s = Sleep ch' c' s' →
  ch' = ch ∧ keys s' = alter (ksleep ch) cur (keys s) ∧ pt_initproc s' = pt_initproc s ∧ pt_nextpid s' = pt_nextpid s.
Proof.
  intros H. pose proof (changes_sleep_table cur ch lk c s) as Hc. unfold sleep in H. unfold bind in H, Hc.
  destruct (when _ _ c s) as [[] c1 s1| |ch1 c1 s1| |] eqn:H1; try done.
  2:{ assert (no_sleep (when (bool_decide (lk ≠ LkPtable)) (acquire LkPtable ;; release lk) : M (pstate Mem F) unit)) as Hn
        by effects. by apply Hn in H1. }
  destruct (upd_proc cur (set_chan (Some ch)) c1 s1) as [[] c2 s2| |ch2 c2 s2| |] eqn:H2; try done.
  2:{ assert (no_sleep (upd_proc cur (set_chan (Some ch)) : M (pstate Mem F) unit)) as Hn by (unfold upd_proc; effects).
      by apply Hn in H2. }
  destruct (upd_proc cur (set_state SLEEPING) c2 s2) as [[] c3 s3| |ch3 c3 s3| |] eqn:H3; try done.
  2:{ assert (no_sleep (upd_proc cur (set_state SLEEPING) : M (pstate Mem F) unit)) as Hn by (unfold upd_proc; effects).
      by apply Hn in H3. }
  destruct (sched cur c3 s3) as [[] c4 s4| |ch4 c4 s4| |] eqn:H4; try done.
  2:{ assert (no_sleep (sched cur : M (pstate Mem F) unit)) as Hn by (unfold sched, procp; effects).
      by apply Hn in H4. }
  injection H as <- <- <-. destruct (Hc tt c4 s4 eq_refl) as (K & I & N). done.
Qed.

Lemma sleep_no_ret cur ch lk c s a c' s' : sleep cur ch lk c s = Ret a c' s' → False.
Proof.
  unfold sleep. intros H. apply bind_ret in H as (? & ? & ? & _ & H). apply bind_ret in H as (? & ? & ? & _ & H).
  apply bind_ret in H as (? & ? & ? & _ & H). apply bind_ret in H as (? & ? & ? & _ & H). done.
Qed.

Lemma reap_ret i c s r c' s' :
  reap i c s = Ret r c' s' → pt_initproc s' = pt_initproc s ∧ pt_nextpid s' = pt_nextpid s ∧
  keys s' = alter kreap i (keys s) ∧ ∃ k, keys s !! i = Some k ∧ r = k_pid k.
Proof.
  unfold reap. intros (p & c1 & s1 & H1 & H)%bind_ret.
  assert (pt_proc s !! i = Some p ∧ s1 = s) as [Hp ->].
  { unfold procp in H1. apply bind_ret in H1 as (sx & cx & sx2 & [= <- <- <-] & Hd).
    destruct (pt_proc s !! i); [|done]. by injection Hd as <- _ <-. }
  assert (r = p_pid p) as ->.
  { do 5 (apply bind_ret in H as (? & ? & ? & _ & H)). by injection H as <-. }
  match type of H with ?m c1 s = _ => assert (changes m (alter kreap i)) as Hc end.
  { quiets. apply bind_quiet; [by apply changes_upd|]. intros _. quiets. }
  destruct (Hc _ _ _ _ _ H) as (K & I & N). split; [done|]. split; [done|]. split; [done|].
  exists (key_of p). split; [by apply lookup_keys|done].
Qed.

Lemma wait_ret cur c s r c' s' :
  wait cur c s = Ret r c' s' → pt_initproc s' = pt_initproc s ∧ pt_nextpid s' = pt_nextpid s ∧
  (r = -1 ∧ keys s' = keys s ∧ no_key (λ k, kzombie_child cur k = true) (keys s) ∧
     (∃ k, keys s !! cur = Some k ∧ (no_key (λ k, k_parent k = Some cur) (keys s) ∨ k_killed k = true)) ∨
   ∃ i k, first_key (λ k, kzombie_child cur k = true) (keys s) i k ∧ r = k_pid k ∧ keys s' = alter kreap i (keys s)).
Proof.
  unfold wait. intros ([] & c1 & s1 & H1 & H)%bind_ret. apply acquire_keeps in H1 as ->.
  apply bind_ret in H as (sx & c2 & s2 & [= <- <- <-] & H). cbv zeta in H.
  destruct (find_proc _ (pt_proc s) 0) as [i|] eqn:Hf.
  - apply find_zombie in Hf as (k & Hk). destruct (reap_ret _ _ _ _ _ _ H) as (I & N & K & k' & Hk' & ->).
    pose proof (proj1 Hk) as E. rewrite E in Hk'. injection Hk' as <-. split; [done|]. split; [done|]. right. eauto 6.
  - apply bind_ret in H as (p & c3 & s3 & H3 & H). apply procp_ret in H3 as (-> & -> & Hp).
    destruct (negb _ || p_killed p) eqn:Hno.
    + apply bind_ret in H as ([] & c4 & s4 & H4 & [= <- <- <-]). apply release_keeps in H4 as ->.
      split; [done|]. split; [done|]. left. split; [done|]. split; [done|]. split; [by apply find_no_zombie|].
      exists (key_of p). split; [by apply lookup_keys|]. apply orb_true_iff in Hno as [Hno|Hno]; [left|by right].
      intros j kj Hj Hpar. apply negb_true_iff, not_true_iff_false in Hno. apply Hno, havekids_spec. eauto.
    + apply bind_ret in H as (? & ? & ? & H4 & _). by apply sleep_no_ret in H4.
Qed.

Lemma wait_sleeps `{!ProcMemAwake Mem} cur c s ch c' s' :
  wait cur c s = Sleep ch c' s' →
  ch = ChProc cur ∧ keys s' = alter (ksleep (ChProc cur)) cur (keys s) ∧
  pt_initproc s' = pt_initproc s ∧ pt_nextpid s' = pt_nextpid s ∧
  no_key (λ k, kzombie_child cur k = true) (keys s) ∧
  (∃ k, keys s !! cur = Some k ∧ k_killed k = false) ∧ ∃ j k, keys s !! j = Some k ∧ k_parent k = Some cur.
Proof.
  unfold wait. intros [H|([] & c1 & s1 & H1 & H)]%bind_sleep; [by apply acquire_awake in H|].
  apply acquire_keeps in H1 as ->. apply bind_sleep in H as [H|(sx & c2 & s2 & [= <- <- <-] & H)]; [done|].
  cbv zeta in H. destruct (find_proc _ (pt_proc s) 0) as [i|] eqn:Hf.
  - exfalso. assert (no_sleep (reap i : M (pstate Mem F) Z)) as Hn; [|by apply Hn in H].
    assert (∀ A (m : M Mem A), no_sleep m → no_sleep (pmem m : M (pstate Mem F) A)) as Hpm.
    { intros A m Hm c3 s3 ch3 c4 s4. unfold pmem, lift. destruct (m c3 (pt_mem s3)) eqn:E; try done.
      by apply Hm in E. }
    pose proof (λ v, Hpm _ _ (pm_kfree_awake v)). pose proof (λ d, Hpm _ _ (pm_freevm_awake d)).
    unfold reap, procp, upd_proc. effects.
  - apply bind_sleep in H as [H|(p & c3 & s3 & H3 & H)].
    { assert (no_sleep (procp cur : M (pstate Mem F) proc)) as Hn by (unfold procp; effects). by apply Hn in H. }
    apply procp_ret in H3 as (-> & -> & Hp).
    destruct (negb _ || p_killed p) eqn:Hno.
    + assert (no_sleep (release LkPtable ;; ret (-1) : M (pstate Mem F) Z)) as Hn by effects. by apply Hn in H.
    + apply bind_sleep in H as [H|(? & ? & ? & _ & H)]; [|done].
      destruct (sleep_sleeps _ _ _ _ _ _ _ _ H) as (-> & K & I & N).
      apply orb_false_iff in Hno as [Hkids Hk]. apply negb_false_iff in Hkids.
      split; [done|]. split; [congruence|]. split; [congruence|]. split; [congruence|].
      split; [by apply find_no_zombie|]. split; [|by apply havekids_spec].
      exists (key_of p). split; [by apply lookup_keys|done].
Qed.

Lemma wakeup_ret ch c s c' s' :
  wakeup ch c s = Ret tt c' s' →
  keys s' = kwake ch <$> keys s ∧ pt_initproc s' = pt_initproc s ∧ pt_nextpid s' = pt_nextpid s.
Proof.
  unfold wakeup. intros ([] & c1 & s1 & H1 & H)%bind_ret. apply acquire_keeps in H1 as ->.
  apply bind_ret in H as ([] & c2 & s2 & [= <- <-] & H2). apply release_keeps in H2 as ->. split; [|done].
  unfold keys, wakeup1_tab. cbn [pt_proc]. rewrite <- !list_fmap_compose. apply list_fmap_ext.
  intros i p _. apply key_wake.
Qed.

Lemma kill_ret pid c s r c' s' :
  kill pid c s = Ret r c' s' → pt_initproc s' = pt_initproc s ∧ pt_nextpid s' = pt_nextpid s ∧
  (r = -1 ∧ keys s' = keys s ∧ no_key (λ k, k_pid k = pid) (keys s) ∨
   ∃ i k, r = 0 ∧ first_key (λ k, k_pid k = pid) (keys s) i k ∧ keys s' = alter kkill i (keys s)).
Proof.
  unfold kill. intros ([] & c1 & s1 & H1 & H)%bind_ret. apply acquire_keeps in H1 as ->.
  apply bind_ret in H as (sx & c2 & s2 & [= <- <- <-] & H).
  destruct (find_proc _ (pt_proc s) 0) as [i|] eqn:Hf.
  - apply bind_ret in H as ([] & c3 & s3 & H3 & H). apply bind_ret in H as ([] & c4 & s4 & H4 & H).
    apply bind_ret in H as ([] & c5 & s5 & H5 & [= <- <- <-]). apply release_keeps in H5 as ->.
    destruct (changes_upd i (set_killed true) (λ k, Key (k_state k) (k_pid k) (k_parent k) (k_chan k) true)
      (λ _, eq_refl) _ _ _ _ _ H3) as (K3 & I3 & N3).
    assert (∀ p, key_of (if bool_decide (p_state p = SLEEPING) then set_state RUNNABLE p else p) =
      (λ k, if bool_decide (k_state k = SLEEPING) then kset_state RUNNABLE k else k) (key_of p)) as Hk.
    { intros p. cbn [key_of k_state]. by destruct (bool_decide _). }
    destruct (changes_upd i _ _ Hk _ _ _ _ _ H4) as (K4 & I4 & N4).
    apply (find_first _ (λ k, k_pid k = pid)) in Hf as (p & _ & Hf); [|intros ?; apply Z.eqb_eq].
    split; [congruence|]. split; [congruence|]. right. exists i, (key_of p). split; [done|]. split; [done|].
    rewrite K4, K3, list_alter_alter.
    apply list_alter_ext; [|done]. intros k _. unfold kkill. cbn. by case_bool_decide.
  - apply bind_ret in H as ([] & c3 & s3 & H3 & [= <- <- <-]). apply release_keeps in H3 as ->.
    split; [done|]. split; [done|]. left. split; [done|]. split; [done|].
    apply (find_none _ (λ k, k_pid k = pid) _) in Hf; [exact Hf|]. intros ?. apply Z.eqb_eq.
Qed.

Lemma yield_ret cur c s c' s' :
  yield cur c s = Ret tt c' s' →
  keys s' = alter (kset_state RUNNABLE) cur (keys s) ∧ pt_initproc s' = pt_initproc s ∧ pt_nextpid s' = pt_nextpid s.
Proof.
  intros H. unfold yield in H. apply bind_ret in H as ([] & c1 & s1 & H1 & H). apply acquire_keeps in H1 as ->.
  apply bind_ret in H as ([] & c2 & s2 & H2 & H3).
  destruct (changes_upd cur (set_state RUNNABLE) (kset_state RUNNABLE) (λ _, eq_refl) _ _ _ _ _ H2) as (K2 & I2 & N2).
  destruct (quiet_sched cur _ _ _ _ _ H3) as (K3 & I3 & N3). cbn [id] in *. split; [congruence|]. split; congruence.
Qed.

Lemma switchuvm_keeps o : keeps (switchuvm o : M (pstate Mem F) uvm).
Proof.
  pose proof (@pushcli_keeps (pstate Mem F)). pose proof (@popcli_keeps (pstate Mem F)).
  unfold switchuvm. destruct o; effects.
Qed.
(** What the CPU uses while it runs [p]: the kernel stack and the page table of [p]. *)
Definition loaded (p : proc) (v : uvm) : Prop :=
  uv_esp0 v = u32 (p_kstack p + KSTACKSIZE) ∧ uv_ss0 v = 16 ∧ uv_cr3 v = V2P (p_pgdir p) ∧ uv_tr v = 40.
Lemma switchuvm_ret o c s v c' s' :
  switchuvm o c s = Ret v c' s' → s' = s ∧ ∃ p, o = Some p ∧ p_kstack p ≠ 0 ∧ p_pgdir p ≠ 0 ∧ loaded p v.
Proof.
  intros H. split; [by apply switchuvm_keeps in H|]. unfold switchuvm in H. destruct o as [p|]; [|done].
  exists p. split; [done|]. apply bind_ret in H as (? & c1 & s1 & H1 & H). apply bind_ret in H as (? & c2 & s2 & H2 & H).
  apply bind_ret in H as (? & c3 & s3 & _ & H). apply bind_ret in H as (? & c4 & s4 & _ & [= <- _ _]).
  destruct (Z.eqb_spec (p_kstack p) 0); [done|]. by destruct (Z.eqb_spec (p_pgdir p) 0).
Qed.
Lemma scheduler_pick_ret p c s v c' s' :
  scheduler_pick p c s = Ret (Some v) c' s' →
  pt_initproc s' = pt_initproc s ∧ pt_nextpid s' = pt_nextpid s ∧
  keys s' = alter (kset_state RUNNING) p (keys s) ∧
  ∃ x, pt_proc s !! p = Some x ∧ p_state x = RUNNABLE ∧ loaded x v.
Proof.
  unfold scheduler_pick. intros (x & c1 & s1 & H1 & H)%bind_ret. apply procp_ret in H1 as (-> & -> & Hp).
  case_bool_decide as Hst; [|done]. apply bind_ret in H as (v' & c0 & s0 & H0 & H).
  apply switchuvm_ret in H0 as (-> & ? & [= <-] & _ & _ & Hl).
  apply bind_ret in H as ([] & c2 & s2 & H2 & [= <- <- <-]).
  destruct (changes_upd p (set_state RUNNING) (kset_state RUNNING) (λ _, eq_refl) _ _ _ _ _ H2) as (K2 & I2 & N2).
  split; [done|]. split; [done|]. split; [done|]. by exists x.
Qed.
End ops.
