(* ===== verification/ProcInv.v ===== *)
(** The process table as an abstract machine, and its invariants.

    A state is the table without what is private to a process, the process each CPU
    runs, and how far each process has come in [fork] or [exit]. *)
From stdpp Require Import base list numbers strings gmap relations.
From Stdlib Require Import ZArith Lia.
From S2P Require Import Prelude Params Machine Spinlock Kalloc Vm Proc ProcSpec.
Local Open Scope Z_scope.

(** Where a process is, when it gives up [ptable.lock] in the middle of a system call:
    in [fork], with the new process it reserved; in [exit], with its files closed. *)
Inductive phase := Forking (np : nat) | Exiting.

Record ksys := KSys {
  ks_keys : list key;
  ks_init : option nat;
  ks_nextpid : Z;
  ks_cpus : list (option nat);
  ks_phase : gmap nat phase;
}.

(** [t'] is [t] with [f i] applied to each entry [i]. *)
Definition pointwise (f : nat → key → key) (t t' : list key) : Prop := ∀ i, t' !! i = f i <$> t !! i.
(** [f], applied to entry [i] alone. *)
Definition at_key (i : nat) (f : key → key) (j : nat) (k : key) : key := if decide (j = i) then f k else k.

Definition kembryo (pid : Z) (k : key) : key := Key EMBRYO pid (k_parent k) (k_chan k) (k_killed k).
Definition kborn (cur : nat) (k : key) : key := Key RUNNABLE (k_pid k) (Some cur) (k_chan k) (k_killed k).
Definition kclear_chan (k : key) : key := Key (k_state k) (k_pid k) (k_parent k) None (k_killed k).
Definition is_proc_chan (ch : chan) : bool := match ch with ChProc _ => true | _ => false end.

Definition idle (n : nat) (cpus : list (option nat)) : list (option nat) := <[n := None]> cpus.

(** What a step does, as its process sees it: the system call with its arguments and its
    result. *)
Inductive event :=
| ESched (n i : nat)
| EYield (i : nat)
| ESleep (i : nat) (ch : chan)
| EResume (i : nat)
| EWakeup (ch : chan)
| EKill (pid r : Z)
| EGrow (i : nat) (d r : Z)
| EAlloc (i : nat) (np : option nat)
| EFork (i : nat) (r : Z)
| EClose (i : nat)
| EExit (i : nat)
| EWait (i : nat) (r : Z)
| EWaitSleep (i : nat).

Inductive kevstep : ksys → event → ksys → Prop :=
| k_sched t t' ini np cs ph n i k :
    cs !! n = Some None → t !! i = Some k → k_state k = RUNNABLE →
    pointwise (at_key i (kset_state RUNNING)) t t' →
    kevstep (KSys t ini np cs ph) (ESched n i) (KSys t' ini np (<[n := Some i]> cs) ph)
| k_yield t t' ini np cs ph n i :
    cs !! n = Some (Some i) → pointwise (at_key i (kset_state RUNNABLE)) t t' →
    kevstep (KSys t ini np cs ph) (EYield i) (KSys t' ini np (idle n cs) ph)
| k_sleep t t' ini np cs ph n i ch :
    cs !! n = Some (Some i) → is_proc_chan ch = false → pointwise (at_key i (ksleep ch)) t t' →
    kevstep (KSys t ini np cs ph) (ESleep i ch) (KSys t' ini np (idle n cs) ph)
| k_resume t t' ini np cs ph n i :
    cs !! n = Some (Some i) → pointwise (at_key i kclear_chan) t t' →
    kevstep (KSys t ini np cs ph) (EResume i) (KSys t' ini np cs ph)
| k_wakeup t t' ini np cs ph ch :
    pointwise (λ _, kwake ch) t t' → kevstep (KSys t ini np cs ph) (EWakeup ch) (KSys t' ini np cs ph)
| k_kill t t' ini np cs ph pid i k :
    first_key (λ k, k_pid k = pid) t i k → pointwise (at_key i kkill) t t' →
    kevstep (KSys t ini np cs ph) (EKill pid 0) (KSys t' ini np cs ph)
| k_kill_none t ini np cs ph pid :
    no_key (λ k, k_pid k = pid) t → kevstep (KSys t ini np cs ph) (EKill pid (-1)) (KSys t ini np cs ph)
| k_grow t ini np cs ph n i d r :
    cs !! n = Some (Some i) → r = 0 ∨ r = -1 →
    kevstep (KSys t ini np cs ph) (EGrow i d r) (KSys t ini np cs ph)
| k_alloc t t' ini np cs ph n i j k :
    cs !! n = Some (Some i) → ph !! i = None → first_key (λ k, k_state k = UNUSED) t j k →
    pointwise (at_key j (kembryo np)) t t' →
    kevstep (KSys t ini np cs ph) (EAlloc i (Some j)) (KSys t' ini (s32 (np + 1)) cs (<[i := Forking j]> ph))
| k_alloc_none t ini np cs ph n i :
    cs !! n = Some (Some i) → ph !! i = None → no_key (λ k, k_state k = UNUSED) t →
    kevstep (KSys t ini np cs ph) (EAlloc i None) (KSys t ini np cs ph)
| k_fork_fails t t' ini np cs ph n i j :
    cs !! n = Some (Some i) → ph !! i = Some (Forking j) → pointwise (at_key j (kset_state UNUSED)) t t' →
    kevstep (KSys t ini np cs ph) (EFork i (-1)) (KSys t' ini np cs (delete i ph))
| k_born t t' ini np cs ph n i j k :
    cs !! n = Some (Some i) → ph !! i = Some (Forking j) → t !! j = Some k → pointwise (at_key j (kborn i)) t t' →
    kevstep (KSys t ini np cs ph) (EFork i (k_pid k)) (KSys t' ini np cs (delete i ph))
| k_exiting t ini np cs ph n i :
    cs !! n = Some (Some i) → ph !! i = None → ini ≠ Some i →
    kevstep (KSys t ini np cs ph) (EClose i) (KSys t ini np cs (<[i := Exiting]> ph))
| k_zombie t t' ini np cs ph n i k :
    cs !! n = Some (Some i) → ph !! i = Some Exiting → t !! i = Some k →
    pointwise (kexit i (k_parent k) ini (existsb (kzombie_child i) t)) t t' →
    kevstep (KSys t ini np cs ph) (EExit i) (KSys t' ini np (idle n cs) (delete i ph))
| k_reap t t' ini np cs ph n i j k :
    cs !! n = Some (Some i) → ph !! i = None → first_key (λ k, kzombie_child i k = true) t j k →
    pointwise (at_key j kreap) t t' →
    kevstep (KSys t ini np cs ph) (EWait i (k_pid k)) (KSys t' ini np cs ph)
| k_wait_none t ini np cs ph n i k :
    cs !! n = Some (Some i) → ph !! i = None → t !! i = Some k →
    no_key (λ k, kzombie_child i k = true) t →
    no_key (λ k, k_parent k = Some i) t ∨ k_killed k = true →
    kevstep (KSys t ini np cs ph) (EWait i (-1)) (KSys t ini np cs ph)
| k_wait_sleep t t' ini np cs ph n i j k kj :
    cs !! n = Some (Some i) → ph !! i = None → t !! i = Some k → k_killed k = false →
    t !! j = Some kj → k_parent kj = Some i →
    no_key (λ k, kzombie_child i k = true) t →
    pointwise (at_key i (ksleep (ChProc i))) t t' →
    kevstep (KSys t ini np cs ph) (EWaitSleep i) (KSys t' ini np (idle n cs) ph).

Definition kstep (x y : ksys) : Prop := ∃ e, kevstep x e y.

(** A run, with the events of its steps. *)
Inductive run {S : Type} (step : S → event → S → Prop) : S → list event → S → Prop :=
| run_nil x : run step x [] x
| run_cons x y z e l : step x e y → run step y l z → run step x (e :: l) z.

(** * The invariant *)

Definition live (k : key) : Prop := k_state k = SLEEPING ∨ k_state k = RUNNABLE ∨ k_state k = RUNNING.
Definition unborn (k : key) : Prop := k_state k = UNUSED ∨ k_state k = EMBRYO.
#[global] Instance live_dec k : Decision (live k).
Proof. unfold live. apply _. Defined.

(** A process is RUNNING exactly when it is on a CPU, and on one CPU only. *)
Record cpus_ok (t : list key) (cs : list (option nat)) : Prop := {
  co_running : ∀ n i, cs !! n = Some (Some i) → ∃ k, t !! i = Some k ∧ k_state k = RUNNING;
  co_on_cpu : ∀ i k, t !! i = Some k → k_state k = RUNNING → ∃ n, cs !! n = Some (Some i);
  co_one : ∀ n m i, cs !! n = Some (Some i) → cs !! m = Some (Some i) → n = m;
}.
(** The tree of processes: everyone but init has a parent that is alive. *)
Record tree_ok (t : list key) (ini : option nat) : Prop := {
  to_init : ∃ i k, ini = Some i ∧ t !! i = Some k ∧ live k ∧ k_parent k = None;
  to_parent : ∀ i k q, t !! i = Some k → k_parent k = Some q → ∃ kq, t !! q = Some kq ∧ live kq;
  to_orphan : ∀ i k, t !! i = Some k → k_parent k = None → ini = Some i ∨ unborn k;
  to_unborn : ∀ i k, t !! i = Some k → unborn k → k_parent k = None;
  to_irrefl : ∀ i k, t !! i = Some k → k_parent k ≠ Some i;
}.
(** A process that sleeps in [wait] has no exited child. *)
Definition wait_ok (t : list key) : Prop :=
  ∀ i k q, t !! i = Some k → k_state k = SLEEPING → k_chan k = Some (ChProc q) →
    q = i ∧ ∀ j kj, t !! j = Some kj → kzombie_child i kj = false.
(** Processes inside [fork] and [exit]. *)
Record phase_ok (t : list key) (ini : option nat) (ph : gmap nat phase) : Prop := {
  po_live : ∀ i p, ph !! i = Some p → ∃ k, t !! i = Some k ∧ live k;
  po_embryo : ∀ i j, ph !! i = Some (Forking j) → ∃ k, t !! j = Some k ∧ k_state k = EMBRYO;
  po_owner : ∀ i i' j, ph !! i = Some (Forking j) → ph !! i' = Some (Forking j) → i = i';
  po_exit : ∀ i, ph !! i = Some Exiting → ini ≠ Some i;
}.
Record kinv (x : ksys) : Prop := {
  ki_cpus : cpus_ok (ks_keys x) (ks_cpus x);
  ki_tree : tree_ok (ks_keys x) (ks_init x);
  ki_wait : wait_ok (ks_keys x);
  ki_phase : phase_ok (ks_keys x) (ks_init x) (ks_phase x);
}.

(** * Preservation *)

(** The steps that neither create nor remove a process. *)
Definition same_kind (k k' : key) : Prop :=
  k_parent k' = k_parent k ∧ (k_state k' = k_state k ∨ live k ∧ live k').
(** Nor do those that reserve or give back an entry of the table move it among the living. *)
Definition same_rank (k k' : key) : Prop :=
  k_parent k' = k_parent k ∧ (k_state k' = k_state k ∨ live k ∧ live k' ∨ unborn k ∧ unborn k').
Definition soft (t t' : list key) : Prop :=
  ∀ i, match t !! i, t' !! i with Some k, Some k' => same_rank k k' | None, None => True | _, _ => False end.

Lemma live_not_unborn k : live k → ¬ unborn k.
Proof. unfold live, unborn. intros [H|[H|H]] [E|E]; congruence. Qed.
Lemma live_not_zombie k : live k → k_state k ≠ ZOMBIE.
Proof. unfold live. intros [H|[H|H]]; congruence. Qed.
Lemma running_live k : k_state k = RUNNING → live k.
Proof. unfold live. auto. Qed.
Lemma live_not_embryo k : live k → k_state k ≠ EMBRYO.
Proof. unfold live. intros [H|[H|H]]; congruence. Qed.
Lemma live_not_unused k : live k → k_state k ≠ UNUSED.
Proof. unfold live. intros [H|[H|H]]; congruence. Qed.
#[local] Hint Resolve live_not_unborn live_not_zombie running_live live_not_embryo live_not_unused : core.

Lemma same_kind_rank k k' : same_kind k k' → same_rank k k'.
Proof. unfold same_kind, same_rank. tauto. Qed.
Lemma same_live k k' : same_rank k k' → live k ↔ live k'.
Proof.
  intros [_ [E|[[H H']|[H H']]]]; [unfold live; by rewrite E|done|].
  split; intros U; exfalso; by eapply live_not_unborn; [exact U|].
Qed.
Lemma same_unborn k k' : same_rank k k' → unborn k ↔ unborn k'.
Proof.
  intros [_ [E|[[H H']|[H H']]]]; [unfold unborn; by rewrite E| |done].
  split; intros U; exfalso; by eapply live_not_unborn; [|exact U].
Qed.
Lemma same_zombie k k' : same_rank k k' → k_state k = ZOMBIE ↔ k_state k' = ZOMBIE.
Proof.
  intros [_ [->|[[H H']|[H H']]]]; [done| |].
  - split; intros E; exfalso; [by apply (live_not_zombie k)|by apply (live_not_zombie k')].
  - unfold unborn in *. split; intros E; exfalso; rewrite E in *; by destruct H, H'.
Qed.

Section pointwise.
Context (f : nat → key → key) (t t' : list key) (Hf : pointwise f t t').

Lemma pw_fwd i k : t !! i = Some k → t' !! i = Some (f i k).
Proof using Hf. intros H. by rewrite Hf, H. Qed.
Lemma pw_bwd i k' : t' !! i = Some k' → ∃ k, t !! i = Some k ∧ k' = f i k.
Proof using Hf. rewrite Hf. destruct (t !! i) as [k|]; cbn; [|done]. intros [= <-]. eauto. Qed.
Lemma pw_soft : (∀ i k, t !! i = Some k → same_rank k (f i k)) → soft t t'.
Proof using Hf. intros H i. rewrite Hf. destruct (t !! i) as [k|] eqn:E; cbn; [by apply H|done]. Qed.
End pointwise.

Lemma at_key_eq i f k : at_key i f i k = f k.
Proof. unfold at_key. by rewrite decide_True. Qed.
Lemma at_key_ne i f j k : j ≠ i → at_key i f j k = k.
Proof. intros. unfold at_key. by rewrite decide_False. Qed.

Section soft.
Context (t t' : list key) (Hs : soft t t').

Lemma soft_fwd i k : t !! i = Some k → ∃ k', t' !! i = Some k' ∧ same_rank k k'.
Proof using Hs. intros H. specialize (Hs i). rewrite H in Hs. destruct (t' !! i); [eauto|done]. Qed.
Lemma soft_bwd i k' : t' !! i = Some k' → ∃ k, t !! i = Some k ∧ same_rank k k'.
Proof using Hs. intros H. specialize (Hs i). rewrite H in Hs. destruct (t !! i); [eauto|done]. Qed.

Lemma soft_tree ini : tree_ok t ini → tree_ok t' ini.
Proof using Hs.
  intros [(i & k & Hi & Hk & Hl & Hp) H2 H3 H4 H5]. split.
  - destruct (soft_fwd _ _ Hk) as (k' & Hk' & S). exists i, k'. split; [done|]. split; [done|].
    split; [by apply (same_live _ _ S)|]. destruct S as [-> _]. done.
  - intros j kj' q Hj Hq. destruct (soft_bwd _ _ Hj) as (kj & Hkj & [Ep _]). rewrite Ep in Hq.
    destruct (H2 _ _ _ Hkj Hq) as (kq & Hkq & Hlq). destruct (soft_fwd _ _ Hkq) as (kq' & ? & S).
    exists kq'. split; [done|]. by apply (same_live _ _ S).
  - intros j kj' Hj Hq. destruct (soft_bwd _ _ Hj) as (kj & Hkj & S). rewrite (proj1 S) in Hq.
    destruct (H3 _ _ Hkj Hq); [by left|right]. by apply (same_unborn _ _ S).
  - intros j kj' Hj Hu. destruct (soft_bwd _ _ Hj) as (kj & Hkj & S). rewrite (proj1 S).
    apply (H4 _ _ Hkj). by apply (same_unborn _ _ S).
  - intros j kj' Hj. destruct (soft_bwd _ _ Hj) as (kj & Hkj & S). rewrite (proj1 S). by apply (H5 _ _ Hkj).
Qed.
Lemma soft_phase ini ph :
  (∀ i k k', t !! i = Some k → t' !! i = Some k' → k_state k = EMBRYO → k_state k' = EMBRYO) →
  phase_ok t ini ph → phase_ok t' ini ph.
Proof using Hs.
  intros Hem [H1 H2 H3 H4]. split; [| |done|done].
  - intros i p Hi. destruct (H1 _ _ Hi) as (k & Hk & Hl). destruct (soft_fwd _ _ Hk) as (k' & ? & S).
    exists k'. split; [done|]. by apply (same_live _ _ S).
  - intros i j Hi. destruct (H2 _ _ Hi) as (k & Hk & Hl). destruct (soft_fwd _ _ Hk) as (k' & ? & S).
    exists k'. split; [done|]. by eapply Hem.
Qed.
(** Nobody falls asleep in [wait]. *)
Lemma soft_wait :
  (∀ i k k', t !! i = Some k → t' !! i = Some k' → k_state k' = SLEEPING →
     (∃ q, k_chan k' = Some (ChProc q)) → k_state k = SLEEPING ∧ k_chan k = k_chan k') →
  wait_ok t → wait_ok t'.
Proof using Hs.
  intros Hk H i k' q Hi Hst Hch. destruct (soft_bwd _ _ Hi) as (k & Hk0 & S).
  destruct (Hk _ _ _ Hk0 Hi Hst (ex_intro _ q Hch)) as [Hst0 Hch0]. rewrite Hch in Hch0.
  destruct (H _ _ _ Hk0 Hst0 Hch0) as [-> Hz].
  split; [done|]. intros j kj' Hj. destruct (soft_bwd _ _ Hj) as (kj & Hkj & [Ep Es]).
  specialize (Hz _ _ Hkj). unfold kzombie_child in *. rewrite Ep.
  rewrite <- Hz. f_equal. apply bool_decide_ext. symmetry. by apply same_zombie.
Qed.
End soft.

(** ** The CPUs *)

Section cpus.
Context (f : nat → key → key) (t t' : list key) (cs : list (option nat)).
Context (Hf : pointwise f t t') (Hc : cpus_ok t cs).

Lemma cpus_same :
  (∀ j k, t !! j = Some k → k_state (f j k) = RUNNING ↔ k_state k = RUNNING) → cpus_ok t' cs.
Proof using Hf Hc.
  intros H. destruct Hc as [H1 H2 H3]. split; [| |done].
  - intros n i Hn. destruct (H1 _ _ Hn) as (k & Hk & Hr). exists (f i k).
    split; [by apply (pw_fwd f t)|]. by apply H.
  - intros i k' Hi Hr. destruct (pw_bwd f t t' Hf _ _ Hi) as (k & Hk & ->). apply (H2 _ _ Hk). by apply (H i).
Qed.

Lemma cpus_leave n i :
  cs !! n = Some (Some i) →
  (∀ j k, t !! j = Some k → j ≠ i → k_state (f j k) = RUNNING ↔ k_state k = RUNNING) →
  (∀ k, t !! i = Some k → k_state (f i k) ≠ RUNNING) → cpus_ok t' (idle n cs).
Proof using Hf Hc.
  intros Hn H Hi. destruct Hc as [H1 H2 H3].
  assert (∀ m j, idle n cs !! m = Some (Some j) → cs !! m = Some (Some j) ∧ j ≠ i) as Hidle.
  { intros m j. unfold idle. rewrite list_lookup_insert. case_decide; [done|]. intros Hm. split; [done|].
    intros ->. pose proof (H3 _ _ _ Hn Hm). pose proof (lookup_lt_Some _ _ _ Hm). naive_solver. }
  split.
  - intros m j [Hm Hne]%Hidle. destruct (H1 _ _ Hm) as (k & Hk & Hr). exists (f j k).
    split; [by apply (pw_fwd f t)|]. by apply H.
  - intros j k' Hj Hr. destruct (pw_bwd f t t' Hf _ _ Hj) as (k & Hk & ->).
    destruct (decide (j = i)) as [->|Hne]; [by apply Hi in Hr|]. apply H in Hr; [|done..].
    destruct (H2 _ _ Hk Hr) as [m Hm]. exists m. unfold idle. rewrite list_lookup_insert_ne; [done|].
    intros ->. congruence.
  - intros m m' j [Hm _]%Hidle [Hm' _]%Hidle. by apply (H3 _ _ _ Hm Hm').
Qed.
End cpus.

Lemma cpus_sched t t' cs n i k :
  cpus_ok t cs → cs !! n = Some None → t !! i = Some k → k_state k = RUNNABLE →
  pointwise (at_key i (kset_state RUNNING)) t t' → cpus_ok t' (<[n := Some i]> cs).
Proof.
  intros [H1 H2 H3] Hn Hi Hst Hf. pose proof (lookup_lt_Some _ _ _ Hn) as Hlt.
  assert (∀ m, cs !! m ≠ Some (Some i)) as Hoff.
  { intros m (k' & Hk' & Hr)%H1. rewrite Hi in Hk'. injection Hk' as <-. congruence. }
  assert (∀ m j, <[n:=Some i]> cs !! m = Some (Some j) ↔ (m = n ∧ j = i) ∨ (m ≠ n ∧ cs !! m = Some (Some j))) as Hl.
  { intros m j. destruct (decide (m = n)) as [->|Hm].
    - rewrite list_lookup_insert_eq by done. naive_solver.
    - rewrite list_lookup_insert_ne by done. naive_solver. }
  split.
  - intros m j [[-> ->]|[Hm Hj]]%Hl.
    + exists (kset_state RUNNING k). split; [|done]. rewrite (pw_fwd _ _ _ Hf _ _ Hi). by rewrite at_key_eq.
    + destruct (H1 _ _ Hj) as (kj & Hkj & Hr). exists kj. split; [|done]. rewrite (pw_fwd _ _ _ Hf _ _ Hkj).
      rewrite at_key_ne; [done|]. intros ->. by apply (Hoff m).
  - intros j k' Hj Hr. destruct (pw_bwd _ _ _ Hf _ _ Hj) as (kj & Hkj & ->).
    destruct (decide (j = i)) as [->|Hne]; [exists n; apply Hl; by left|]. rewrite at_key_ne in Hr by done.
    destruct (H2 _ _ Hkj Hr) as [m Hm]. exists m. apply Hl. right. split; [|done]. intros ->. congruence.
  - intros m m' j [[-> ->]|[Hm Hj]]%Hl [[-> E]|[Hm' Hj']]%Hl; try done; [by apply Hoff in Hj'|subst; by apply Hoff in Hj|].
    by apply (H3 _ _ _ Hj Hj').
Qed.

(** ** The steps *)

Lemma kinv_soft t t' ini np np' cs cs' ph f :
  kinv (KSys t ini np cs ph) → pointwise f t t' → (∀ i k, t !! i = Some k → same_kind k (f i k)) →
  (∀ i k, t !! i = Some k → k_state (f i k) = SLEEPING → (∃ q, k_chan (f i k) = Some (ChProc q)) →
     k_state k = SLEEPING ∧ k_chan k = k_chan (f i k)) →
  cpus_ok t' cs' → kinv (KSys t' ini np' cs' ph).
Proof.
  intros [Hc Ht Hw Hp] Hf Hk Hs Hc'. pose proof (pw_soft _ _ _ Hf (λ i k H, same_kind_rank _ _ (Hk i k H))) as S. split; cbn [ks_keys ks_init ks_cpus ks_phase] in *.
  - done.
  - by apply (soft_tree t).
  - apply (soft_wait t); [done| |done]. intros i k k' Hi Hi'. rewrite (pw_fwd _ _ _ Hf _ _ Hi) in Hi'.
    injection Hi' as <-. by apply Hs.
  - apply (soft_phase t); [done| |done]. intros i k k' Hi Hi' E. rewrite (pw_fwd _ _ _ Hf _ _ Hi) in Hi'.
    injection Hi' as <-. destruct (Hk _ _ Hi) as [_ [->|[H _]]]; [done|]. by apply live_not_embryo in H.
Qed.

Lemma same_kind_refl k : same_kind k k.
Proof. split; auto. Qed.
#[local] Hint Resolve same_kind_refl : core.

(** The entry a step changes, and the others. *)
Ltac at_key i :=
  match goal with |- context [at_key _ _ i _] => idtac end;
  unfold at_key; destruct (decide _) as [->|]; [|by auto].

Lemma kwake_cases ch k :
  kwake ch k = k ∨ k_state k = SLEEPING ∧ k_chan k = Some ch ∧ kwake ch k = kset_state RUNNABLE k.
Proof.
  unfold kwake. case_bool_decide; cbn; [|by left]. case_bool_decide; [|by left]. right. auto.
Qed.
Lemma kwake_same ch k : same_kind k (kwake ch k).
Proof.
  destruct (kwake_cases ch k) as [->|(? & ? & ->)]; [done|]. split; [done|]. right. unfold live. cbn. auto.
Qed.
Lemma kwake_running ch k : k_state (kwake ch k) = RUNNING ↔ k_state k = RUNNING.
Proof. destruct (kwake_cases ch k) as [->|(H & ? & ->)]; [done|]. rewrite H. cbn. split; discriminate. Qed.
Lemma kwake_sleeping ch k :
  k_state (kwake ch k) = SLEEPING → k_state k = SLEEPING ∧ k_chan k = k_chan (kwake ch k) ∧ k_chan k ≠ Some ch.
Proof.
  unfold kwake. case_bool_decide as Hs; cbn; [|done]. case_bool_decide; [done|]. auto.
Qed.

Section steps.
Context (t t' : list key) (ini : option nat) (np : Z) (cs : list (option nat)) (ph : gmap nat phase).
Context (Hi : kinv (KSys t ini np cs ph)).

Lemma running_at n i k : cs !! n = Some (Some i) → t !! i = Some k → k_state k = RUNNING.
Proof using Hi. intros Hn Hk. destruct (co_running _ _ (ki_cpus _ Hi) _ _ Hn) as (k' & Hk' & Hr). cbn in *. congruence. Qed.

Lemma step_sched n i k :
  cs !! n = Some None → t !! i = Some k → k_state k = RUNNABLE → pointwise (at_key i (kset_state RUNNING)) t t' →
  kinv (KSys t' ini np (<[n := Some i]> cs) ph).
Proof using Hi.
  intros Hn Hk Hst Hf. eapply kinv_soft; [exact Hi|exact Hf| | |by eapply cpus_sched; [apply (ki_cpus _ Hi)|..]].
  - intros j kj Hj. at_key j. rewrite Hk in Hj. injection Hj as <-. split; [done|]. right. unfold live. cbn. auto.
  - intros j kj Hj. at_key j. done.
Qed.

(** The process of CPU [n] gives it up, but not to wait for a child. *)
Lemma step_leave n i g :
  cs !! n = Some (Some i) → pointwise (at_key i g) t t' →
  (∀ k, k_parent (g k) = k_parent k ∧ live (g k) ∧ k_state (g k) ≠ RUNNING ∧
        (k_state (g k) = SLEEPING → ∀ q, k_chan (g k) ≠ Some (ChProc q))) →
  kinv (KSys t' ini np (idle n cs) ph).
Proof using Hi.
  intros Hn Hf Hg. eapply kinv_soft; [exact Hi|exact Hf| | |].
  - intros j kj Hj. at_key j. destruct (Hg kj) as (E & Hl & _). split; [done|]. right. split; [|done].
    apply running_live. by eapply running_at.
  - intros j kj Hj. at_key j. destruct (Hg kj) as (_ & _ & _ & H). intros Hs [q Hq]. by apply H in Hq.
  - eapply cpus_leave; [exact Hf|apply (ki_cpus _ Hi)|exact Hn| |].
    + intros j kj _ Hne. by rewrite at_key_ne.
    + intros k _. rewrite at_key_eq. apply Hg.
Qed.

Lemma step_resume n i :
  cs !! n = Some (Some i) → pointwise (at_key i kclear_chan) t t' → kinv (KSys t' ini np cs ph).
Proof using Hi.
  intros Hn Hf. eapply kinv_soft; [exact Hi|exact Hf| | |eapply cpus_same; [exact Hf|apply (ki_cpus _ Hi)|]].
  - intros j kj Hj. at_key j. split; [done|by left].
  - intros j kj Hj. at_key j. intros _ [q [=]].
  - intros j kj Hj. at_key j. done.
Qed.

Lemma step_wakeup ch : pointwise (λ _, kwake ch) t t' → kinv (KSys t' ini np cs ph).
Proof using Hi.
  intros Hf. eapply kinv_soft; [exact Hi|exact Hf| | |eapply cpus_same; [exact Hf|apply (ki_cpus _ Hi)|]].
  - intros j kj _. apply kwake_same.
  - intros j kj _ Hs _. by apply kwake_sleeping in Hs as (? & ? & _).
  - intros j kj _. apply kwake_running.
Qed.

Lemma step_kill i : pointwise (at_key i kkill) t t' → kinv (KSys t' ini np cs ph).
Proof using Hi.
  intros Hf. eapply kinv_soft; [exact Hi|exact Hf| | |eapply cpus_same; [exact Hf|apply (ki_cpus _ Hi)|]].
  - intros j kj _. at_key j. split; [done|]. unfold kkill. cbn. case_bool_decide; [|by left]. right. unfold live. cbn. auto.
  - intros j kj _. at_key j. unfold kkill. cbn. case_bool_decide; done.
  - intros j kj _. at_key j. unfold kkill. cbn. case_bool_decide as H; [|done]. rewrite H. split; discriminate.
Qed.

(** *** Reserving an entry of the table, and giving it back *)

Lemma unborn_tree j g :
  pointwise (at_key j g) t t' →
  (∀ k, t !! j = Some k → unborn k ∧ unborn (g k) ∧ k_parent (g k) = k_parent k) →
  cpus_ok t' cs ∧ tree_ok t' ini ∧ wait_ok t'.
Proof using Hi.
  intros Hf Hg. assert (soft t t') as S.
  { apply (pw_soft _ _ _ Hf). intros i k Hk. unfold at_key. destruct (decide (i = j)) as [->|]; [|by apply same_kind_rank].
    destruct (Hg _ Hk) as (? & ? & ?). split; auto. }
  assert (∀ k, unborn k → k_state k ≠ RUNNING ∧ k_state k ≠ SLEEPING) as Hu by (unfold unborn; intros k [-> | ->]; done).
  split; [|split].
  - eapply cpus_same; [exact Hf|apply (ki_cpus _ Hi)|]. intros i k Hk. unfold at_key.
    destruct (decide (i = j)) as [->|]; [|done]. destruct (Hg _ Hk) as (U & U' & _).
    apply Hu in U as [U _], U' as [U' _]. tauto.
  - apply (soft_tree t); [done|]. apply (ki_tree _ Hi).
  - apply (soft_wait t); [done| |apply (ki_wait _ Hi)]. intros i k k' Hk Hk' Hs _.
    rewrite (pw_fwd _ _ _ Hf _ _ Hk) in Hk'. injection Hk' as <-. unfold at_key in *.
    destruct (decide (i = j)) as [->|]; [|done]. exfalso. destruct (Hg _ Hk) as (_ & U & _). by apply (Hu _ U).
Qed.

Lemma step_alloc n i j k pid np' :
  cs !! n = Some (Some i) → ph !! i = None → t !! j = Some k → k_state k = UNUSED →
  pointwise (at_key j (kembryo pid)) t t' → kinv (KSys t' ini np' cs (<[i := Forking j]> ph)).
Proof using Hi.
  intros Hn Hph Hk Hst Hf. destruct (unborn_tree j _ Hf) as (Hc & Ht & Hw).
  { intros k' Hk'. rewrite Hk in Hk'. injection Hk' as <-. unfold unborn. cbn. auto. }
  split; try done. cbn. destruct (ki_phase _ Hi) as [H1 H2 H3 H4]. cbn in *.
  assert (∀ i', ph !! i' = Some (Forking j) → False) as Hfresh.
  { intros i' (k' & Hk' & E)%H2. congruence. }
  assert (∀ m km, t !! m = Some km → m ≠ j → t' !! m = Some km) as Hoth.
  { intros m km Hm Hne. rewrite (pw_fwd _ _ _ Hf _ _ Hm). by rewrite at_key_ne. }
  assert (∀ m km, t !! m = Some km → live km → m ≠ j) as Hlive.
  { intros m km Hm Hl ->. rewrite Hk in Hm. injection Hm as <-. by apply live_not_unused in Hl. }
  split.
  - intros m p. rewrite lookup_insert. case_decide as E; [subst m|].
    + intros _. destruct (co_running _ _ (ki_cpus _ Hi) _ _ Hn) as (km & Hm & Hr). cbn in Hm. exists km. eauto 8.
    + intros (km & Hm & Hl)%H1. exists km. eauto.
  - intros m j'. rewrite lookup_insert. case_decide as E; [subst m; intros [= <-]|].
    + exists (kembryo pid k). by rewrite (pw_fwd _ _ _ Hf _ _ Hk), at_key_eq.
    + intros (km & Hm & Hl)%H2. exists km. split; [|done]. apply Hoth; [done|]. intros ->. congruence.
  - intros m m' j'. rewrite !lookup_insert. repeat case_decide; subst; try done.
    + intros [= <-] Hm. by apply Hfresh in Hm.
    + intros Hm [= <-]. by apply Hfresh in Hm.
    + apply H3.
  - intros m. rewrite lookup_insert. case_decide; [done|]. apply H4.
Qed.

(** The process [i] forks has left [fork]. *)
Lemma phase_delete n i j g :
  cs !! n = Some (Some i) → ph !! i = Some (Forking j) → pointwise (at_key j g) t t' →
  phase_ok t' ini (delete i ph).
Proof using Hi.
  intros Hn Hph Hf. destruct (ki_phase _ Hi) as [H1 H2 H3 H4]. cbn in *.
  destruct (H2 _ _ Hph) as (k & Hk & Hem).
  assert (∀ m km, t !! m = Some km → m ≠ j → t' !! m = Some km) as Hoth.
  { intros m km Hm Hne. rewrite (pw_fwd _ _ _ Hf _ _ Hm). by rewrite at_key_ne. }
  split.
  - intros m p [Hne Hm]%lookup_delete_Some. destruct (H1 _ _ Hm) as (km & Hkm & Hl). exists km. split; [|done].
    apply Hoth; [done|]. intros ->. rewrite Hk in Hkm. injection Hkm as <-. by apply live_not_embryo in Hl.
  - intros m j' [Hne Hm]%lookup_delete_Some. destruct (H2 _ _ Hm) as (km & Hkm & Hl). exists km. split; [|done].
    apply Hoth; [done|]. intros ->. by apply Hne, (H3 _ _ j).
  - intros m m' j' [_ Hm]%lookup_delete_Some [_ Hm']%lookup_delete_Some. eauto.
  - intros m [_ Hm]%lookup_delete_Some. eauto.
Qed.

Lemma step_fork_fails n i j :
  cs !! n = Some (Some i) → ph !! i = Some (Forking j) → pointwise (at_key j (kset_state UNUSED)) t t' →
  kinv (KSys t' ini np cs (delete i ph)).
Proof using Hi.
  intros Hn Hph Hf. destruct (po_embryo _ _ _ (ki_phase _ Hi) _ _ Hph) as (k & Hk & Hem). cbn in Hk.
  destruct (unborn_tree j _ Hf) as (Hc & Ht & Hw).
  { intros k' Hk'. rewrite Hk in Hk'. injection Hk' as <-. unfold unborn. cbn. auto. }
  split; try done. by eapply phase_delete.
Qed.

(** *** A process is born *)

Lemma step_born n i j :
  cs !! n = Some (Some i) → ph !! i = Some (Forking j) → pointwise (at_key j (kborn i)) t t' →
  kinv (KSys t' ini np cs (delete i ph)).
Proof using Hi.
  intros Hn Hph Hf. destruct (po_embryo _ _ _ (ki_phase _ Hi) _ _ Hph) as (k & Hk & Hem). cbn in Hk.
  destruct (co_running _ _ (ki_cpus _ Hi) _ _ Hn) as (k0 & Hk0 & Hr). cbn in Hk0.
  assert (t' !! j = Some (kborn i k)) as Hj by (by rewrite (pw_fwd _ _ _ Hf _ _ Hk), at_key_eq).
  assert (∀ m km, t !! m = Some km → m ≠ j → t' !! m = Some km) as Hoth.
  { intros m km Hm Hne. rewrite (pw_fwd _ _ _ Hf _ _ Hm). by rewrite at_key_ne. }
  assert (∀ m km', t' !! m = Some km' → m = j ∧ km' = kborn i k ∨ m ≠ j ∧ t !! m = Some km') as Hback.
  { intros m km' Hm. destruct (decide (m = j)) as [->|Hne]; [left; split; [done|congruence]|right].
    split; [done|]. destruct (pw_bwd _ _ _ Hf _ _ Hm) as (km & Hkm & ->). by rewrite at_key_ne. }
  assert (∀ m km, t !! m = Some km → live km → m ≠ j) as Hlive.
  { intros m km Hm Hl ->. rewrite Hk in Hm. injection Hm as <-. by apply live_not_embryo in Hl. }
  split; cbn [ks_keys ks_init ks_cpus ks_phase].
  - eapply cpus_same; [exact Hf|apply (ki_cpus _ Hi)|]. intros m km Hm. unfold at_key.
    destruct (decide (m = j)) as [->|]; [|done]. rewrite Hk in Hm. injection Hm as <-. rewrite Hem. cbn. split; discriminate.
  - destruct (ki_tree _ Hi) as [(i0 & ki0 & Hi0 & Hki0 & Hl0 & Hp0) H2 H3 H4 H5]. cbn in *. split.
    + exists i0, ki0. eauto 8.
    + intros m km q [[-> ->]|[Hne Hm]]%Hback Hq.
      * injection Hq as <-. exists k0. eauto 8.
      * destruct (H2 _ _ _ Hm Hq) as (kq & ? & ?). exists kq. eauto 8.
    + intros m km [[-> ->]|[Hne Hm]]%Hback Hq; [done|]. eauto.
    + intros m km [[-> ->]|[Hne Hm]]%Hback Hq; [by destruct Hq|]. eauto.
    + intros m km [[-> ->]|[Hne Hm]]%Hback; [|eauto]. cbn. intros [= ->]. congruence.
  - intros m km q [[-> ->]|[Hne Hm]]%Hback Hs Hq; [done|]. destruct (ki_wait _ Hi _ _ _ Hm Hs Hq) as [-> Hz].
    split; [done|]. intros z kz [[-> ->]|[_ Hz']]%Hback; [|eauto]. unfold kzombie_child. cbn. by rewrite andb_false_r.
  - by eapply phase_delete.
Qed.

(** *** [wait] *)

Lemma step_wait_sleep n i :
  cs !! n = Some (Some i) → (∀ j k, t !! j = Some k → kzombie_child i k = false) →
  pointwise (at_key i (ksleep (ChProc i))) t t' → kinv (KSys t' ini np (idle n cs) ph).
Proof using Hi.
  intros Hn Hz Hf. assert (∀ j k, t !! j = Some k → same_kind k (at_key i (ksleep (ChProc i)) j k)) as Hk.
  { intros j k Hj. at_key j. split; [done|]. right. split; [by eapply running_live, running_at|]. unfold live. cbn. auto. }
  pose proof (pw_soft _ _ _ Hf (λ j k H, same_kind_rank _ _ (Hk j k H))) as S.
  split; cbn [ks_keys ks_init ks_cpus ks_phase].
  - eapply cpus_leave; [exact Hf|apply (ki_cpus _ Hi)|exact Hn| |].
    + intros j kj _ Hne. by rewrite at_key_ne.
    + intros k _. by rewrite at_key_eq.
  - apply (soft_tree t); [done|]. apply (ki_tree _ Hi).
  - assert (∀ j kj', t' !! j = Some kj' → ∃ kj, t !! j = Some kj ∧ ∀ q, kzombie_child q kj' = kzombie_child q kj) as Hb.
    { intros j kj' Hj. destruct (soft_bwd _ _ S _ _ Hj) as (kj & Hkj & Sk). exists kj. split; [done|]. intros q.
      unfold kzombie_child. rewrite (proj1 Sk). f_equal. apply bool_decide_ext. symmetry. by apply same_zombie. }
    intros m km q Hm Hs Hq. destruct (pw_bwd _ _ _ Hf _ _ Hm) as (km0 & Hm0 & ->).
    unfold at_key in Hs, Hq. destruct (decide (m = i)) as [->|Hne].
    + injection Hq as <-. split; [done|]. intros j kj' Hj. destruct (Hb _ _ Hj) as (kj & Hkj & ->). eauto.
    + destruct (ki_wait _ Hi _ _ _ Hm0 Hs Hq) as [-> Hz0]. split; [done|].
      intros j kj' Hj. destruct (Hb _ _ Hj) as (kj & Hkj & ->). eauto.
  - apply (soft_phase t); [done| |apply (ki_phase _ Hi)]. intros j kj kj' Hj Hj' E.
    rewrite (pw_fwd _ _ _ Hf _ _ Hj) in Hj'. injection Hj' as <-. unfold at_key.
    destruct (decide (j = i)) as [->|]; [|done]. pose proof (running_at _ _ _ Hn Hj). congruence.
Qed.

Lemma kzombie_child_true q k : kzombie_child q k = true ↔ k_parent k = Some q ∧ k_state k = ZOMBIE.
Proof. unfold kzombie_child. by rewrite andb_true_iff, !bool_decide_eq_true. Qed.

Lemma step_reap i j k :
  t !! j = Some k → kzombie_child i k = true → pointwise (at_key j kreap) t t' → kinv (KSys t' ini np cs ph).
Proof using Hi.
  intros Hk [Hpar Hst]%kzombie_child_true Hf.
  assert (∀ m km', t' !! m = Some km' → m = j ∧ km' = kreap k ∨ m ≠ j ∧ t !! m = Some km') as Hback.
  { intros m km' Hm. destruct (pw_bwd _ _ _ Hf _ _ Hm) as (km & Hkm & ->). unfold at_key.
    destruct (decide (m = j)) as [->|]; [left; split; congruence|by right]. }
  assert (∀ m km, t !! m = Some km → m ≠ j → t' !! m = Some km) as Hoth.
  { intros m km Hm Hne. rewrite (pw_fwd _ _ _ Hf _ _ Hm). by rewrite at_key_ne. }
  assert (∀ m km, t !! m = Some km → live km → m ≠ j) as Hlive.
  { intros m km Hm Hl ->. rewrite Hk in Hm. injection Hm as <-. by apply live_not_zombie in Hl. }
  split; cbn [ks_keys ks_init ks_cpus ks_phase].
  - eapply cpus_same; [exact Hf|apply (ki_cpus _ Hi)|]. intros m km Hm. unfold at_key.
    destruct (decide (m = j)) as [->|]; [|done]. rewrite Hk in Hm. injection Hm as <-. rewrite Hst. cbn. split; discriminate.
  - destruct (ki_tree _ Hi) as [(i0 & ki0 & Hi0 & Hki0 & Hl0 & Hp0) H2 H3 H4 H5]. cbn in *. split.
    + exists i0, ki0. eauto 8.
    + intros m km q [[-> ->]|[Hne Hm]]%Hback Hq; [done|]. destruct (H2 _ _ _ Hm Hq) as (kq & ? & ?). exists kq. eauto 8.
    + intros m km [[-> ->]|[Hne Hm]]%Hback Hq; [right; by left|]. eauto.
    + intros m km [[-> ->]|[Hne Hm]]%Hback Hq; [done|]. eauto.
    + intros m km [[-> ->]|[Hne Hm]]%Hback; [done|eauto].
  - intros m km q [[-> ->]|[Hne Hm]]%Hback Hs Hq; [done|]. destruct (ki_wait _ Hi _ _ _ Hm Hs Hq) as [-> Hz].
    split; [done|]. intros z kz [[-> ->]|[_ Hz']]%Hback; [done|eauto].
  - destruct (ki_phase _ Hi) as [H1 H2 H3 H4]. cbn in *. split; [| |done|done].
    + intros m p (km & Hm & Hl)%H1. exists km. eauto.
    + intros m j' (km & Hm & Hl)%H2. exists km. split; [|done]. apply Hoth; [done|]. intros ->. congruence.
Qed.
End steps.

(** *** [exit] *)

Section exit.
Context (cur : nat) (par ini : option nat) (z : bool).

Lemma kwake_opt_cases q k :
  kwake_opt q k = k ∨ k_state k = SLEEPING ∧ kwake_opt q k = kset_state RUNNABLE k.
Proof. destruct q as [q|]; [|by left]. cbn. destruct (kwake_cases (ChProc q) k) as [->|(? & _ & ->)]; auto. Qed.

Lemma kexit_parent i k :
  k_parent (kexit cur par ini z i k) = if decide (k_parent k = Some cur) then ini else k_parent k.
Proof.
  unfold kexit. assert (∀ k', k_parent (if decide (i = cur) then kset_state ZOMBIE k' else k') = k_parent k') as ->
    by (intros; by case_decide).
  assert (∀ q k', k_parent (kwake_opt q k') = k_parent k') as Hw
    by (intros q k'; by destruct (kwake_opt_cases q k') as [->|[_ ->]]).
  transitivity (k_parent (kadopt cur ini (kwake_opt par k))); [by destruct z|].
  unfold kadopt. rewrite Hw. case_bool_decide; case_decide; done.
Qed.
Lemma kexit_self k : k_state (kexit cur par ini z cur k) = ZOMBIE.
Proof. unfold kexit. by rewrite decide_True. Qed.
Lemma kexit_other i k :
  i ≠ cur →
  k_state (kexit cur par ini z i k) = k_state k ∨
  k_state k = SLEEPING ∧ k_state (kexit cur par ini z i k) = RUNNABLE.
Proof.
  intros Hne. unfold kexit. rewrite decide_False by done.
  assert (∀ k', k_state (kadopt cur ini k') = k_state k') as Ha by (intros; unfold kadopt; by case_bool_decide).
  destruct z; [destruct (kwake_opt_cases ini (kadopt cur ini (kwake_opt par k))) as [->|[E ->]]|]; rewrite ?Ha in *.
  all: destruct (kwake_opt_cases par k) as [->|[E' ->]]; rewrite ?Ha in *; auto.
  all: destruct (kwake_opt_cases par k) as [Ek|[E'' Ek]]; rewrite Ek in *; auto.
Qed.
(** Who still sleeps was not woken. *)
Lemma kexit_sleeping i k q :
  k_state (kexit cur par ini z i k) = SLEEPING → k_chan (kexit cur par ini z i k) = Some (ChProc q) →
  i ≠ cur ∧ k_state k = SLEEPING ∧ k_chan k = Some (ChProc q) ∧ par ≠ Some q ∧ (z = true → ini ≠ Some q).
Proof.
  intros Hs Hc. destruct (decide (i = cur)) as [->|Hne]; [by rewrite kexit_self in Hs|]. split; [done|].
  unfold kexit in *. rewrite decide_False in Hs, Hc by done.
  assert (∀ r k', k_state (kwake_opt r k') = SLEEPING → k_chan (kwake_opt r k') = Some (ChProc q) →
    k_state k' = SLEEPING ∧ k_chan k' = Some (ChProc q) ∧ r ≠ Some q) as Hw.
  { intros [r|] k'; [|done]. cbn. intros (H1 & H2 & H3)%kwake_sleeping H4. rewrite <- H2 in H4.
    split; [done|]. split; [done|]. intros [= ->]. done. }
  assert (∀ k', k_state (kadopt cur ini k') = k_state k' ∧ k_chan (kadopt cur ini k') = k_chan k') as Ha
    by (intros; unfold kadopt; by case_bool_decide).
  destruct z.
  - destruct (Hw _ _ Hs Hc) as (H1 & H2 & H3). destruct (Ha (kwake_opt par k)) as [E1 E2].
    rewrite E1 in H1. rewrite E2 in H2. destruct (Hw _ _ H1 H2) as (? & ? & ?). auto.
  - destruct (Ha (kwake_opt par k)) as [E1 E2]. rewrite E1 in Hs. rewrite E2 in Hc.
    destruct (Hw _ _ Hs Hc) as (? & ? & ?). auto.
Qed.
End exit.

Section exiting.
Context (t t' : list key) (ini : option nat) (np : Z) (cs : list (option nat)) (ph : gmap nat phase).
Context (Hi : kinv (KSys t ini np cs ph)).
Context (n i : nat) (k : key) (Hn : cs !! n = Some (Some i)) (Hph : ph !! i = Some Exiting) (Hk : t !! i = Some k).
Abbreviation ex := (kexit i (k_parent k) ini (existsb (kzombie_child i) t)).
Context (Hf : pointwise ex t t').

Lemma exit_live m km : m ≠ i → live (ex m km) ↔ live km.
Proof.
  intros Hne. unfold live. destruct (kexit_other i (k_parent k) ini (existsb (kzombie_child i) t) m km Hne) as [->|[-> ->]]; [done|].
  split; auto.
Qed.
Lemma exit_unborn m km : unborn (ex m km) → unborn km ∧ m ≠ i.
Proof.
  unfold unborn. destruct (decide (m = i)) as [->|Hne].
  - rewrite kexit_self. by intros [|].
  - destruct (kexit_other i (k_parent k) ini (existsb (kzombie_child i) t) m km Hne) as [->|[_ ->]]; [done|].
    by intros [|].
Qed.

Lemma exit_tree : tree_ok t' ini.
Proof using Hi Hn Hph Hk Hf.
  destruct (ki_tree _ Hi) as [(i0 & k0 & Hi0 & Hk0 & Hl0 & Hp0) H2 H3 H4 H5]. cbn in *.
  pose proof (po_exit _ _ _ (ki_phase _ Hi) _ Hph) as Hne. cbn in Hne.
  assert (i0 ≠ i) as Hne0 by congruence.
  assert (t' !! i0 = Some (ex i0 k0) ∧ live (ex i0 k0)) as [Hk0' Hl0'].
  { split; [by rewrite (pw_fwd _ _ _ Hf _ _ Hk0)|]. by apply exit_live. }
  split.
  - exists i0, (ex i0 k0). split; [done|]. split; [done|]. split; [done|]. rewrite kexit_parent, Hp0. by rewrite decide_False.
  - intros m km' q Hm. destruct (pw_bwd _ _ _ Hf _ _ Hm) as (km & Hkm & ->). rewrite kexit_parent. case_decide as Hq.
    + rewrite Hi0. intros [= <-]. eauto.
    + intros Hpq. destruct (H2 _ _ _ Hkm Hpq) as (kq & Hkq & Hlq). exists (ex q kq).
      split; [by rewrite (pw_fwd _ _ _ Hf _ _ Hkq)|]. apply exit_live; [|done]. intros ->. done.
  - intros m km' Hm. destruct (pw_bwd _ _ _ Hf _ _ Hm) as (km & Hkm & ->). rewrite kexit_parent. case_decide as Hq.
    + by rewrite Hi0.
    + intros Hpq. destruct (H3 _ _ Hkm Hpq) as [?|U]; [by left|right]. unfold unborn in *.
      destruct (decide (m = i)) as [->|Hne'].
      * exfalso. pose proof (running_at _ _ _ _ _ Hi _ _ _ Hn Hkm) as E. rewrite E in U. by destruct U.
      * destruct (kexit_other i (k_parent k) ini (existsb (kzombie_child i) t) m km Hne') as [->|[E _]]; [done|].
        rewrite E in U. by destruct U.
  - intros m km' Hm. destruct (pw_bwd _ _ _ Hf _ _ Hm) as (km & Hkm & ->). intros [U _]%exit_unborn.
    rewrite kexit_parent, (H4 _ _ Hkm U). by rewrite decide_False.
  - intros m km' Hm. destruct (pw_bwd _ _ _ Hf _ _ Hm) as (km & Hkm & ->). rewrite kexit_parent. case_decide as Hq; [|eauto].
    rewrite Hi0. intros [= ->]. congruence.
Qed.

Lemma exit_wait : wait_ok t'.
Proof using Hi Hn Hph Hk Hf.
  intros m km' q Hm Hs Hc. destruct (pw_bwd _ _ _ Hf _ _ Hm) as (km & Hkm & ->).
  apply (kexit_sleeping i (k_parent k) ini (existsb (kzombie_child i) t) m km q Hs) in Hc as (Hne & Hs0 & Hc0 & Hpar & Hini).
  destruct (ki_wait _ Hi _ _ _ Hkm Hs0 Hc0) as [-> Hz]. split; [done|]. cbn in Hz.
  intros j kj' Hj. destruct (pw_bwd _ _ _ Hf _ _ Hj) as (kj & Hkj & ->).
  apply not_true_iff_false. intros [Hp Hst]%kzombie_child_true. rewrite kexit_parent in Hp.
  destruct (decide (j = i)) as [->|Hji].
  - rewrite Hk in Hkj. injection Hkj as <-. case_decide as Hself; [|done].
    by apply (to_irrefl _ _ (ki_tree _ Hi) _ _ Hk).
  - assert (k_state kj = ZOMBIE) as Hz0.
    { destruct (kexit_other i (k_parent k) ini (existsb (kzombie_child i) t) j kj Hji) as [E|[_ E]]; congruence. }
    case_decide as Hq.
    + apply Hini; [|done]. apply existsb_exists. exists kj. split; [|by apply kzombie_child_true].
      apply list_elem_of_In. by eapply list_elem_of_lookup_2.
    + specialize (Hz _ _ Hkj). apply not_true_iff_false in Hz. apply Hz. by apply kzombie_child_true.
Qed.

Lemma step_zombie : kinv (KSys t' ini np (idle n cs) (delete i ph)).
Proof using Hi Hn Hph Hk Hf.
  split; cbn [ks_keys ks_init ks_cpus ks_phase].
  - eapply cpus_leave; [exact Hf|apply (ki_cpus _ Hi)|exact Hn| |].
    + intros m km _ Hne. destruct (kexit_other i (k_parent k) ini (existsb (kzombie_child i) t) m km Hne) as [->|[-> ->]]; done.
    + intros km _. by rewrite kexit_self.
  - apply exit_tree.
  - apply exit_wait.
  - destruct (ki_phase _ Hi) as [H1 H2 H3 H4]. cbn in *. split.
    + intros m p [Hne (km & Hm & Hl)%H1]%lookup_delete_Some. exists (ex m km).
      split; [by rewrite (pw_fwd _ _ _ Hf _ _ Hm)|]. by apply exit_live.
    + intros m j [Hne (km & Hm & Hem)%H2]%lookup_delete_Some. exists (ex j km).
      split; [by rewrite (pw_fwd _ _ _ Hf _ _ Hm)|]. destruct (decide (j = i)) as [->|Hji].
      * pose proof (running_at _ _ _ _ _ Hi _ _ _ Hn Hm). congruence.
      * destruct (kexit_other i (k_parent k) ini (existsb (kzombie_child i) t) j km Hji) as [->|[E _]]; congruence.
    + intros m m' j [_ Hm]%lookup_delete_Some [_ Hm']%lookup_delete_Some. eauto.
    + intros m [_ Hm]%lookup_delete_Some. eauto.
Qed.
End exiting.

Lemma step_exiting t ini np cs ph n i :
  kinv (KSys t ini np cs ph) → cs !! n = Some (Some i) → ini ≠ Some i → kinv (KSys t ini np cs (<[i := Exiting]> ph)).
Proof.
  intros [Hc Ht Hw [H1 H2 H3 H4]] Hn Hne. split; try done. cbn in *. split.
  - intros m p. rewrite lookup_insert. case_decide; [|apply H1]. subst m. intros _.
    destruct (co_running _ _ Hc _ _ Hn) as (k & ? & ?). eauto.
  - intros m j. rewrite lookup_insert. case_decide; [done|apply H2].
  - intros m m' j. rewrite !lookup_insert. repeat case_decide; try done. apply H3.
  - intros m. rewrite lookup_insert. case_decide; [by subst|apply H4].
Qed.

Lemma no_key_false {A} (f : A → bool) b : ¬ f b = true → f b = false.
Proof. by destruct (f b). Qed.

Lemma kstep_inv x y : kstep x y → kinv x → kinv y.
Proof.
  intros [e H]. destruct H; intros Hi; try done.
  - by eapply step_sched.
  - eapply step_leave; [done..|]. intros k. split; [done|]. split; [unfold live; cbn; auto|]. done.
  - eapply step_leave; [done..|]. intros k. split; [done|]. split; [unfold live; cbn; auto|]. split; [done|].
    cbn. intros _ q [= ->]. done.
  - by eapply step_resume.
  - by eapply step_wakeup.
  - by eapply step_kill.
  - destruct H1 as (Hk & Hst & _). by eapply step_alloc.
  - by eapply step_fork_fails.
  - by eapply step_born.
  - by eapply step_exiting.
  - by eapply step_zombie.
  - destruct H1 as (Hk & Hz & _). by eapply step_reap.
  - eapply step_wait_sleep; [done|done| |done]. intros j' k' Hj. by eapply no_key_false, H5.
Qed.

(** * Process ids *)

(** Entries in use have different pids, all given out before. *)
Record pids_ok (x : ksys) : Prop := {
  pk_range : ∀ i k, ks_keys x !! i = Some k → k_state k ≠ UNUSED → 0 < k_pid k < ks_nextpid x;
  pk_unique : ∀ i j ki kj, ks_keys x !! i = Some ki → ks_keys x !! j = Some kj →
    k_state ki ≠ UNUSED → k_state kj ≠ UNUSED → k_pid ki = k_pid kj → i = j;
}.

(** No entry comes into use, and nobody's pid changes. *)
Lemma pids_pointwise f t t' ini ini' np cs cs' ph ph' :
  pids_ok (KSys t ini np cs ph) → pointwise f t t' →
  (∀ i k, t !! i = Some k → k_state (f i k) ≠ UNUSED → k_state k ≠ UNUSED ∧ k_pid (f i k) = k_pid k) →
  pids_ok (KSys t' ini' np cs' ph').
Proof.
  intros [H1 H2] Hf Hk. cbn in *. split; cbn.
  - intros i k' Hi Hu. destruct (pw_bwd _ _ _ Hf _ _ Hi) as (k & Hk0 & ->). destruct (Hk _ _ Hk0 Hu) as [? ->]. eauto.
  - intros i j ki' kj' Hi Hj Hui Huj E. destruct (pw_bwd _ _ _ Hf _ _ Hi) as (ki & Hki & ->).
    destruct (pw_bwd _ _ _ Hf _ _ Hj) as (kj & Hkj & ->).
    destruct (Hk _ _ Hki Hui) as [? Ei]. destruct (Hk _ _ Hkj Huj) as [? Ej]. rewrite Ei, Ej in E. eauto.
Qed.

Lemma pids_alloc t t' ini np cs cs' ph ph' j :
  pids_ok (KSys t ini np cs ph) → 0 < np → pointwise (at_key j (kembryo np)) t t' →
  pids_ok (KSys t' ini (np + 1) cs' ph').
Proof.
  intros [H1 H2] Hnp Hf. cbn in *.
  assert (∀ i k', t' !! i = Some k' → k_state k' ≠ UNUSED →
    i = j ∧ k_pid k' = np ∨ i ≠ j ∧ t !! i = Some k' ∧ 0 < k_pid k' < np) as Hb.
  { intros i k' Hi Hu. destruct (pw_bwd _ _ _ Hf _ _ Hi) as (k & Hk0 & ->). unfold at_key in *.
    destruct (decide (i = j)); [by left|]. right. eauto. }
  split; cbn.
  - intros i k' Hi Hu. destruct (Hb _ _ Hi Hu) as [[_ ->]|(_ & _ & ?)]; lia.
  - intros a b ka kb Ha Hb' Hua Hub E. destruct (Hb _ _ Ha Hua) as [[-> E1]|(? & Ha' & ?)];
      destruct (Hb _ _ Hb' Hub) as [[-> E2]|(? & Hb2 & ?)]; [done|lia|lia|eauto].
Qed.

Lemma kstep_pids x y :
  kstep x y → kinv x → pids_ok x → 0 < ks_nextpid x < 2 ^ 31 - 1 →
  pids_ok y ∧ ks_nextpid x <= ks_nextpid y <= ks_nextpid x + 1.
Proof.
  intros [e Hst] Hi Hp Hn. destruct Hst; cbn [ks_nextpid] in *.
  all: try (split; [done|lia]).
  all: try (split; [|lia]; eapply pids_pointwise; [exact Hp|eassumption|]; intros a ka Ha; unfold at_key;
            (case_decide as E; [subst|done])).
  all: try done.
  - rewrite Ha in *. intros _. split; [|done]. congruence.
  - intros _. split; [|done]. rewrite (running_at _ _ _ _ _ Hi _ _ _ H Ha). done.
  - intros _. split; [|done]. rewrite (running_at _ _ _ _ _ Hi _ _ _ H Ha). done.
  - split; [|lia]. eapply pids_pointwise; [exact Hp|eassumption|]. intros a ka Ha. cbn.
    destruct (kwake_cases ch ka) as [->|(E & _ & ->)]; [done|]. by rewrite E.
  - unfold kkill. cbn. case_bool_decide as E; [|done]. by rewrite E.
  - rewrite s32_small by lia. split; [|lia]. eapply pids_alloc; [exact Hp|lia|eassumption].
  - intros _. split; [|done]. destruct (po_embryo _ _ _ (ki_phase _ Hi) _ _ H0) as (k0 & Hk0 & E). cbn in *. congruence.
  - split; [|lia]. by destruct Hp.
  - split; [|lia]. eapply pids_pointwise; [exact Hp|eassumption|]. intros a ka Ha Hu.
    assert (k_pid (kexit i (k_parent k) ini (existsb (kzombie_child i) t) a ka) = k_pid ka) as ->.
    { unfold kexit. assert (∀ k', k_pid (if decide (a = i) then kset_state ZOMBIE k' else k') = k_pid k') as ->
        by (intros; by case_decide).
      assert (∀ q k', k_pid (kwake_opt q k') = k_pid k') as Hw
        by (intros q k'; by destruct (kwake_opt_cases q k') as [->|[_ ->]]).
      transitivity (k_pid (kadopt i ini (kwake_opt (k_parent k) ka))); [by destruct (existsb _ _)|].
      unfold kadopt. rewrite <- (Hw (k_parent k) ka). by case_bool_decide. }
    split; [|done]. destruct (decide (a = i)) as [->|Hne].
    + rewrite (running_at _ _ _ _ _ Hi _ _ _ H Ha). done.
    + destruct (kexit_other i (k_parent k) ini (existsb (kzombie_child i) t) a ka Hne) as [<-|[-> _]]; done.
  - intros _. split; [|done]. rewrite (running_at _ _ _ _ _ Hi _ _ _ H Ha). done.
Qed.
