(* ===== verification/ProcProps.v ===== *)
(** Processes on several CPUs: the code of [proc.c] refines the abstract process table
    of [ProcInv], and what follows from it. *)
From stdpp Require Import base list numbers strings gmap relations.
From Stdlib Require Import ZArith Lia.
From S2P Require Import Prelude Params Machine Spinlock Kalloc Vm Proc ProcSpec ProcInv.
Local Open Scope Z_scope.
Local Open Scope xv6_scope.

Section system.
Context {Mem F : Type} `{!ProcMem Mem} `{!ProcFiles Mem F} `{!ProcMemAwake Mem}.

(** [fork], after the entry [np] of the table has been reserved. *)
Definition fork_rest (cur np : nat) : M (pstate Mem F) Z :=
  o <- alloc_stack np ;;
  match o with None => ret (-1) | Some np => fork_copy cur np end.

Lemma fork_halves cur c s :
  fork cur c s = (o <- alloc_slot ;; match o with None => ret (-1) | Some np => fork_rest cur np end) c s.
Proof.
  unfold fork, allocproc, fork_rest, bind. destruct (alloc_slot c s) as [[np|] c1 s1| | | |]; reflexivity.
Qed.

Record psys := PSys {
  ps_state : pstate Mem F;
  ps_cpus : list (option nat);    (* [cpus[n].proc] *)
  ps_phase : gmap nat phase;
}.

(** The steps of the CPUs, with what they do.  What [ptable.lock] protects is one step;
    [c] is the state of the CPU (its interrupt flag and the locks it holds), which may be
    anything.  [n] is the CPU and [i] the process it runs. *)
Inductive pevstep : psys → event → psys → Prop :=
| p_sched s s' cs ph c c' n i v :
    cs !! n = Some None → scheduler_pick i c s = Ret (Some v) c' s' →
    pevstep (PSys s cs ph) (ESched n i) (PSys s' (<[n := Some i]> cs) ph)
| p_yield s s' cs ph c c' n i :
    cs !! n = Some (Some i) → yield i c s = Ret tt c' s' →
    pevstep (PSys s cs ph) (EYield i) (PSys s' (idle n cs) ph)
| p_sleep s s' cs ph c c' n i ch lk :
    cs !! n = Some (Some i) → is_proc_chan ch = false → sleep i ch lk c s = Sleep ch c' s' →
    pevstep (PSys s cs ph) (ESleep i ch) (PSys s' (idle n cs) ph)
| p_sleep_return s s' cs ph c c' n i lk :
    cs !! n = Some (Some i) → sleep_return i lk c s = Ret tt c' s' →
    pevstep (PSys s cs ph) (EResume i) (PSys s' cs ph)
| p_wakeup s s' cs ph c c' ch :
    wakeup ch c s = Ret tt c' s' → pevstep (PSys s cs ph) (EWakeup ch) (PSys s' cs ph)
| p_kill s s' cs ph c c' pid r :
    kill pid c s = Ret r c' s' → pevstep (PSys s cs ph) (EKill pid r) (PSys s' cs ph)
| p_growproc s s' cs ph c c' n i d r :
    cs !! n = Some (Some i) → growproc i d c s = Ret r c' s' →
    pevstep (PSys s cs ph) (EGrow i d r) (PSys s' cs ph)
| p_fork s s' cs ph c c' n i np :
    cs !! n = Some (Some i) → ph !! i = None → alloc_slot c s = Ret (Some np) c' s' →
    pevstep (PSys s cs ph) (EAlloc i (Some np)) (PSys s' cs (<[i := Forking np]> ph))
| p_fork_full s s' cs ph c c' n i :
    cs !! n = Some (Some i) → ph !! i = None → alloc_slot c s = Ret None c' s' →
    pevstep (PSys s cs ph) (EAlloc i None) (PSys s' cs ph)
| p_fork_rest s s' cs ph c c' n i np r :
    cs !! n = Some (Some i) → ph !! i = Some (Forking np) → fork_rest i np c s = Ret r c' s' →
    pevstep (PSys s cs ph) (EFork i r) (PSys s' cs (delete i ph))
| p_exit_close s s' cs ph c c' n i :
    cs !! n = Some (Some i) → ph !! i = None → exit_close i c s = Ret tt c' s' →
    pevstep (PSys s cs ph) (EClose i) (PSys s' cs (<[i := Exiting]> ph))
| p_exit_zombie s s' cs ph c c' n i :
    cs !! n = Some (Some i) → ph !! i = Some Exiting → exit_zombie i c s = Ret tt c' s' →
    pevstep (PSys s cs ph) (EExit i) (PSys s' (idle n cs) (delete i ph))
| p_wait s s' cs ph c c' n i r :
    cs !! n = Some (Some i) → ph !! i = None → wait i c s = Ret r c' s' →
    pevstep (PSys s cs ph) (EWait i r) (PSys s' cs ph)
| p_wait_sleep s s' cs ph c c' n i ch :
    cs !! n = Some (Some i) → ph !! i = None → wait i c s = Sleep ch c' s' →
    pevstep (PSys s cs ph) (EWaitSleep i) (PSys s' (idle n cs) ph).

Definition pstep (x y : psys) : Prop := ∃ e, pevstep x e y.

Definition kview (x : psys) : ksys :=
  KSys (keys (ps_state x)) (pt_initproc (ps_state x)) (pt_nextpid (ps_state x)) (ps_cpus x) (ps_phase x).

(** The table at boot, when [main] calls [userinit]; no CPU runs a process. *)
Definition boot_state (mem : Mem) (f : F) : pstate Mem F := PState (replicate nproc proc_zero) None 1 mem f.
Definition booted (code : list Z) (ncpu : nat) (x : psys) : Prop :=
  ∃ mem f c c', userinit code c (boot_state mem f) = Ret tt c' (ps_state x) ∧
    ps_cpus x = replicate ncpu None ∧ ps_phase x = ∅.

(** * Refinement *)

Lemma pw_alter f i (t : list key) : pointwise (at_key i f) t (alter f i t).
Proof.
  intros j. unfold at_key. destruct (decide (j = i)) as [->|Hne].
  - by rewrite list_lookup_alter_eq.
  - rewrite list_lookup_alter_ne by done. by destruct (t !! j).
Qed.
Lemma pw_fmap f (t : list key) : pointwise (λ _, f) t (f <$> t).
Proof. intros j. apply list_lookup_fmap. Qed.

Lemma sleep_return_ret cur lk c (s : pstate Mem F) c' s' :
  sleep_return cur lk c s = Ret tt c' s' →
  keys s' = alter kclear_chan cur (keys s) ∧ pt_initproc s' = pt_initproc s ∧ pt_nextpid s' = pt_nextpid s.
Proof.
  intros H. assert (changes (sleep_return cur lk : M (pstate Mem F) unit) (alter kclear_chan cur)) as Hc.
  { unfold sleep_return. apply bind_quiet; [by apply changes_upd|]. intros _. apply keeps_quiet. effects. }
  by apply (Hc _ _ _ _ _ H).
Qed.
Lemma growproc_ret cur d c (s : pstate Mem F) r c' s' :
  growproc cur d c s = Ret r c' s' →
  keys s' = keys s ∧ pt_initproc s' = pt_initproc s ∧ pt_nextpid s' = pt_nextpid s ∧ (r = 0 ∨ r = -1).
Proof.
  intros H. assert (changes (growproc cur d : M (pstate Mem F) Z) id) as Hc.
  { unfold growproc. apply quiet_bind; [apply quiet_procp|]. intros p. cbv zeta.
    apply quiet_bind; [destruct (0 <? d); [|destruct (d <? 0)]; quiets|]. intros r0. destruct r0; [|quiets].
    apply quiet_bind; [by apply quiet_upd|]. intros _. apply quiet_bind; [apply quiet_procp|]. intros q.
    apply quiet_bind; [apply keeps_quiet, switchuvm_keeps|]. intros _. quiets. }
  destruct (Hc _ _ _ _ _ H) as (K & I & N). split; [done|]. split; [done|]. split; [done|].
  unfold growproc in H. apply bind_ret in H as (p & c1 & s1 & _ & H). apply bind_ret in H as ([sz|] & c2 & s2 & _ & H).
  - do 3 apply bind_ret in H as (? & ? & ? & _ & H). injection H as <- _ _. by left.
  - injection H as <- _ _. by right.
Qed.
Lemma fork_rest_ret cur np c (s : pstate Mem F) r c' s' :
  fork_rest cur np c s = Ret r c' s' → pt_initproc s' = pt_initproc s ∧ pt_nextpid s' = pt_nextpid s ∧
  (r = -1 ∧ keys s' = alter (kset_state UNUSED) np (keys s) ∨
   ∃ k, keys s !! np = Some k ∧ r = k_pid k ∧ keys s' = alter (kborn cur) np (keys s)).
Proof.
  unfold fork_rest. intros (o & c1 & s1 & H1 & H)%bind_ret.
  destruct (alloc_stack_ret _ _ _ _ _ _ H1) as (I1 & N1 & [[-> K1]|[-> K1]]).
  - destruct (fork_copy_ret _ _ _ _ _ _ _ H) as (I2 & N2 & K2). rewrite K1 in K2.
    split; [congruence|]. split; [congruence|]. destruct K2 as [K2|[(k & Hk & ->) K2]]; [by left|right; eauto].
  - injection H as <- <- <-. auto.
Qed.

Lemma pevstep_kevstep x e y : pevstep x e y → kevstep (kview x) e (kview y).
Proof using Type*.
  destruct 1; unfold kview; cbn [ps_state ps_cpus ps_phase].
  - destruct (scheduler_pick_ret _ _ _ _ _ _ H0) as (-> & -> & -> & k & Hk%lookup_keys & Hst & _).
    eapply k_sched; eauto using pw_alter.
  - destruct (yield_ret _ _ _ _ _ H0) as (-> & -> & ->). eapply k_yield; eauto using pw_alter.
  - destruct (sleep_sleeps _ _ _ _ _ _ _ _ H1) as (_ & -> & -> & ->). eapply k_sleep; eauto using pw_alter.
  - destruct (sleep_return_ret _ _ _ _ _ _ H0) as (-> & -> & ->). eapply k_resume; eauto using pw_alter.
  - destruct (wakeup_ret _ _ _ _ _ H) as (-> & -> & ->). eapply k_wakeup; eauto using pw_fmap.
  - destruct (kill_ret _ _ _ _ _ _ H) as (-> & -> & [(-> & -> & Hno)|(i & k & -> & Hf & ->)]).
    + by apply k_kill_none.
    + eapply k_kill; eauto using pw_alter.
  - destruct (growproc_ret _ _ _ _ _ _ _ H0) as (-> & -> & -> & Hr). by eapply k_grow.
  - destruct (alloc_slot_ret _ _ _ _ _ H1) as (-> & k & Hk & -> & ->). eapply k_alloc; eauto using pw_alter.
  - destruct (alloc_slot_ret _ _ _ _ _ H1) as (-> & -> & -> & Hno). by eapply k_alloc_none.
  - destruct (fork_rest_ret _ _ _ _ _ _ _ H1) as (-> & -> & [(-> & ->)|(k & Hk & -> & ->)]).
    + eapply k_fork_fails; eauto using pw_alter.
    + eapply k_born; eauto using pw_alter.
  - destruct (exit_close_ret _ _ _ _ _ H1) as (? & -> & -> & ->). eapply k_exiting; eauto.
  - destruct (exit_zombie_ret _ _ _ _ _ H1) as (-> & -> & k & Hk & Hf). eapply k_zombie; eauto.
  - destruct (wait_ret _ _ _ _ _ _ H1) as (-> & -> & [(-> & -> & Hno & k & Hk & Hor)|(j & k & Hk & -> & ->)]).
    + by eapply k_wait_none.
    + eapply k_reap; eauto using pw_alter.
  - destruct (wait_sleeps _ _ _ _ _ _ H1) as (_ & -> & -> & -> & Hz & (k & Hk & Hkl) & j & kj & Hj & Hpar).
    eapply k_wait_sleep; eauto using pw_alter.
Qed.
Lemma pstep_kstep x y : pstep x y → kstep (kview x) (kview y).
Proof using Type*. intros [e H]. exists e. by apply pevstep_kevstep. Qed.

(** * Boot *)

Lemma userinit_ret code c (s : pstate Mem F) c' s' :
  userinit code c s = Ret tt c' s' →
  ∃ i k, keys s !! i = Some k ∧ k_state k = UNUSED ∧ pt_initproc s' = Some i ∧
    pt_nextpid s' = s32 (pt_nextpid s + 1) ∧
    keys s' = alter (λ k, Key RUNNABLE (pt_nextpid s) (k_parent k) (k_chan k) (k_killed k)) i (keys s).
Proof.
  unfold userinit, allocproc. intros (o & c1 & s1 & H1 & H)%bind_ret.
  apply bind_ret in H1 as (o0 & c0 & s0 & H0 & H1). destruct (alloc_slot_ret _ _ _ _ _ H0) as (I0 & R0).
  apply bind_ret in H as ([] & c2 & s2 & [= <- <-] & H). apply bind_ret in H as (p & c3 & s3 & Hd & H).
  destruct o as [p'|]; [|done]. injection Hd as <- <- <-.
  destruct o0 as [i|]; [|done]. destruct R0 as (k & (Hk & Hst & _) & N0 & K0).
  destruct (alloc_stack_ret _ _ _ _ _ _ H1) as (I1 & N1 & [[[= ->] K1]|[? _]]); [|done].
  match type of H with ?m c1 _ = _ => assert (changes m (alter (kset_state RUNNABLE) i)) as Hc end.
  { quiets. apply bind_quiet; [by apply changes_upd|]. intros _. quiets. }
  destruct (Hc _ _ _ _ _ H) as (K & I & N). cbn [pt_initproc pt_nextpid] in *.
  exists i, k. split; [done|]. split; [done|]. split; [done|]. split; [congruence|].
  rewrite K. unfold keys at 1. cbn [pt_proc]. fold (keys s1). by rewrite K1, K0, list_alter_alter.
Qed.

Lemma booted_inv code ncpu x :
  booted code ncpu x → kinv (kview x) ∧ pids_ok (kview x) ∧ pt_nextpid (ps_state x) = 2.
Proof.
  intros (mem & f & c & c' & H & Hcs & Hph). destruct (userinit_ret _ _ _ _ _ H) as (i & k & Hk & Hst & Hi & Hn & K).
  assert (∀ j kj, keys (ps_state x) !! j = Some kj →
    j = i ∧ kj = Key RUNNABLE 1 None None false ∨ j ≠ i ∧ kj = key_of proc_zero) as Hall.
  { intros j kj. rewrite K. unfold keys, boot_state in *. cbn [pt_proc] in *. rewrite fmap_replicate in *.
    destruct (decide (j = i)) as [->|Hne].
    - rewrite list_lookup_alter_eq, Hk. apply lookup_replicate in Hk as [-> _]. intros [= <-]. by left.
    - rewrite list_lookup_alter_ne by done. intros [-> _]%lookup_replicate. by right. }
  assert (keys (ps_state x) !! i = Some (Key RUNNABLE 1 None None false)) as Hki.
  { rewrite K, list_lookup_alter_eq, Hk. unfold keys, boot_state in Hk. cbn [pt_proc] in Hk.
    rewrite fmap_replicate in Hk. by apply lookup_replicate in Hk as [-> _]. }
  change (pt_nextpid (ps_state x) = 2) in Hn.
  unfold kview. rewrite Hcs, Hph, Hi, Hn. split; [split|split; [split|done]]; cbn [ks_keys ks_init ks_cpus ks_phase ks_nextpid].
  - split.
    + by intros n j [? _]%lookup_replicate.
    + by intros j kj [[_ ->]|[_ ->]]%Hall.
    + by intros n m j [? _]%lookup_replicate.
  - split.
    + exists i. eexists. split; [done|]. split; [exact Hki|]. split; [unfold live; cbn; auto|done].
    + by intros j kj q [[_ ->]|[_ ->]]%Hall.
    + intros j kj [[-> ->]|[_ ->]]%Hall _; [by left|]. right. by left.
    + by intros j kj [[_ ->]|[_ ->]]%Hall.
    + by intros j kj [[_ ->]|[_ ->]]%Hall.
  - by intros j kj q [[_ ->]|[_ ->]]%Hall.
  - by split.
  - intros j kj [[_ ->]|[_ ->]]%Hall; cbn; [lia|done].
  - intros a b ka kb [[-> ->]|[_ ->]]%Hall [[-> ->]|[_ ->]]%Hall; done.
Qed.

Lemma reachable_inv code ncpu x0 x : booted code ncpu x0 → rtc pstep x0 x → kinv (kview x).
Proof using Type*.
  intros (H0 & _ & _)%booted_inv. induction 1 as [|x y z Hst _ IH]; [done|]. apply IH.
  eapply kstep_inv; [by apply pstep_kstep|done].
Qed.

Lemma reachable_pids n x0 x :
  kinv (kview x0) → pids_ok (kview x0) → 0 < pt_nextpid (ps_state x0) →
  pt_nextpid (ps_state x0) + Z.of_nat n < 2 ^ 31 → nsteps pstep n x0 x → pids_ok (kview x).
Proof using Type*.
  intros Hi Hp Hpos Hb H. induction H as [|n x y z Hst _ IH]; [done|].
  pose proof (pstep_kstep _ _ Hst) as Hk.
  destruct (kstep_pids _ _ Hk Hi Hp) as [Hp' Hn]; [cbn; lia|]. cbn in Hn.
  apply IH; [by eapply kstep_inv|done|lia|lia].
Qed.

Lemma upd_proc_eq i f c (s : pstate Mem F) p :
  pt_proc s !! i = Some p →
  upd_proc i f c s = Ret tt c (PState (alter f i (pt_proc s)) (pt_initproc s) (pt_nextpid s) (pt_mem s) (pt_files s)).
Proof. intros H. unfold upd_proc, bind. cbn. by rewrite H. Qed.

Lemma find_proc_alter g f j t k :
  (∀ p, g (f p) = g p) → find_proc g (alter f j t) k = find_proc g t k.
Proof.
  intros Hg. revert j k. induction t as [|p t IH]; intros [|j] k; cbn; [done..| |]; [by rewrite Hg|].
  destruct (g p); [done|apply IH].
Qed.

Lemma find_proc_le f t k i p :
  t !! i = Some p → f p = true → ∃ j, (j <= k + i)%nat ∧ find_proc f t k = Some j.
Proof.
  revert k i. induction t as [|q t IH]; intros k i; cbn; [done|]. destruct (f q) eqn:Hq; [exists k; split; [lia|done]|].
  destruct i as [|i]; cbn; [intros [= ->]; congruence|]. intros H Hf. destruct (IH (S k) i H Hf) as (j & Hle & ->).
  exists j. split; [lia|done].
Qed.

(** * Properties *)

(** C28. Every run of the code of [proc.c] on any number of CPUs is a run of the abstract
    process table with the same events: the same system calls by the same processes with
    the same results, each changing the table exactly as the abstract table says ([kill]
    the first entry with that pid and no other, [wait] the first exited child, -1 only
    when there is nothing to wait for, [fork] the first free entry, ...). *)
Theorem proc_refines x l y : run pevstep x l y → run kevstep (kview x) l (kview y).
Proof using Type*.
  induction 1 as [|x y z e l Hst _ IH]; [apply run_nil|].
  eapply run_cons; [by apply pevstep_kevstep|done].
Qed.

(** C10. On any number of CPUs, after any run since boot, a process is RUNNING exactly when
    it is on a CPU, and no process is on two CPUs. *)
Theorem one_cpu_per_process code ncpu x0 x :
  booted code ncpu x0 → rtc pstep x0 x →
  (∀ i p, pt_proc (ps_state x) !! i = Some p →
     p_state p = RUNNING ↔ ∃ n, ps_cpus x !! n = Some (Some i)) ∧
  (∀ n m i, ps_cpus x !! n = Some (Some i) → ps_cpus x !! m = Some (Some i) → n = m).
Proof using Type*.
  intros Hb Hr. destruct (ki_cpus _ (reachable_inv _ _ _ _ Hb Hr)) as [H1 H2 H3]. cbn in *. split; [|done].
  intros i p Hp%lookup_keys. split.
  - apply (H2 _ _ Hp).
  - intros [n (k & Hk & Hst)%H1]. rewrite Hp in Hk. by injection Hk as <-.
Qed.

(** What [wait] of process [q] does when there is an exited child [z]. *)
Lemma wait_reaps q pid (s : pstate Mem F) z pz m1 m2 :
  find_proc (λ p, bool_decide (p_parent p = Some q) && bool_decide (p_state p = ZOMBIE)) (pt_proc s) 0 = Some z →
  pt_proc s !! z = Some pz →
  pm_kfree (p_kstack pz) (cpu1 pid LkPtable) (pt_mem s) = Ret tt (cpu1 pid LkPtable) m1 →
  pm_freevm (p_pgdir pz) (cpu1 pid LkPtable) m1 = Ret tt (cpu1 pid LkPtable) m2 →
  wait q (cpu0 pid) s = Ret (p_pid pz) (cpu0 pid)
    (PState (alter (λ p, set_state UNUSED (set_killed false (set_name [] (set_parent None (set_pid 0 (set_kstack 0 p)))))) z (pt_proc s))
       (pt_initproc s) (pt_nextpid s) m2 (pt_files s)).
Proof.
  intros Hf Hz Hk Hv. unfold wait. erewrite bind_eq by (by apply acquire_cpu0). cbv beta.
  erewrite bind_eq by done. cbv beta zeta. rewrite Hf. unfold reap.
  erewrite bind_eq by (unfold procp, bind; cbn; by rewrite Hz). cbv beta.
  erewrite bind_eq by (unfold pmem, lift; by rewrite Hk). cbv beta.
  erewrite bind_eq by (eapply upd_proc_eq; exact Hz). cbv beta.
  erewrite bind_eq by (unfold pmem, lift; cbn [pt_mem]; by rewrite Hv). cbv beta.
  erewrite bind_eq by (eapply upd_proc_eq; cbn [pt_proc]; by rewrite list_lookup_alter_eq, Hz). cbv beta.
  erewrite bind_eq by (by apply release_cpu1). cbv beta. cbn [pt_proc pt_initproc pt_nextpid pt_mem pt_files].
  rewrite list_alter_alter. done.
Qed.

(** C3. Nobody is lost between [exit] and [wait]: after any run, an exited process has a
    parent that is alive and does not sleep in [wait] (the wakeup of [exit] has not been
    missed, also when the process was handed over to init), and whose [wait] does not go
    to sleep: it finds the first exited child (this one or one before it in the table),
    frees its kernel stack and its page table, frees its entry and no other, and returns
    its pid, whether or not the parent has been killed. *)
Theorem zombies_are_reaped code ncpu x0 x z pz :
  booted code ncpu x0 → rtc pstep x0 x → pt_proc (ps_state x) !! z = Some pz → p_state pz = ZOMBIE →
  ∃ q pq, p_parent pz = Some q ∧ pt_proc (ps_state x) !! q = Some pq ∧
    (p_state pq = RUNNABLE ∨ p_state pq = RUNNING ∨ p_state pq = SLEEPING ∧ p_chan pq ≠ Some (ChProc q)) ∧
    (∀ c ch c' s', wait q c (ps_state x) ≠ Sleep ch c' s') ∧
    ∃ z' pz', (z' <= z)%nat ∧ pt_proc (ps_state x) !! z' = Some pz' ∧ p_parent pz' = Some q ∧ p_state pz' = ZOMBIE ∧
      ∀ pid m1 m2,
        pm_kfree (p_kstack pz') (cpu1 pid LkPtable) (pt_mem (ps_state x)) = Ret tt (cpu1 pid LkPtable) m1 →
        pm_freevm (p_pgdir pz') (cpu1 pid LkPtable) m1 = Ret tt (cpu1 pid LkPtable) m2 →
        ∃ s' p', wait q (cpu0 pid) (ps_state x) = Ret (p_pid pz') (cpu0 pid) s' ∧ pt_mem s' = m2 ∧
          pt_proc s' !! z' = Some p' ∧ p_state p' = UNUSED ∧ p_pid p' = 0 ∧ p_parent p' = None ∧
          p_killed p' = false ∧ ∀ j, j ≠ z' → pt_proc s' !! j = pt_proc (ps_state x) !! j.
Proof using Type*.
  intros Hb Hr Hz0 Hst. apply lookup_keys in Hz0 as Hz. destruct (reachable_inv _ _ _ _ Hb Hr) as [_ Ht Hw _]. cbn in *.
  destruct (p_parent pz) as [q|] eqn:Hpar.
  2:{ exfalso. destruct (to_init _ _ Ht) as (i & k & Hi & Hk & Hl & _).
      destruct (to_orphan _ _ Ht _ _ Hz Hpar) as [E|U].
      - rewrite Hi in E. injection E as ->. rewrite Hz in Hk. injection Hk as <-. by apply live_not_zombie in Hl.
      - unfold unborn in U. cbn in U. rewrite Hst in U. by destruct U. }
  destruct (to_parent _ _ Ht _ _ _ Hz Hpar) as (kq & Hkq & Hl). destruct (keys_lookup _ _ _ Hkq) as (pq & Hq & ->).
  assert (kzombie_child q (key_of pz) = true) as Hzc by (by apply kzombie_child_true).
  exists q, pq. split; [done|]. split; [done|]. split.
  { unfold live in Hl. cbn in Hl. destruct Hl as [Hs|[?|?]]; [|auto..]. right. right. split; [done|].
    intros Hc. destruct (Hw _ _ _ Hkq Hs Hc) as [_ Hno]. specialize (Hno _ _ Hz). congruence. }
  split; [intros c ch c' s' (_ & _ & _ & _ & Hno & _)%wait_sleeps; by apply (Hno _ _ Hz)|].
  destruct (find_proc_le (λ p, bool_decide (p_parent p = Some q) && bool_decide (p_state p = ZOMBIE)) _ 0 _ _ Hz0)
    as (z' & Hle & Hf); [exact Hzc|]. apply find_proc_some in Hf as Hf'. destruct Hf' as (_ & pz' & Hz' & Hfz).
  rewrite Nat.sub_0_r in Hz'. apply andb_prop in Hfz as [Hpar'%bool_decide_eq_true Hst'%bool_decide_eq_true].
  exists z', pz'. do 4 (split; [done|]). intros pid m1 m2 Hk Hv.
  rewrite (wait_reaps q pid _ z' pz' m1 m2 Hf Hz' Hk Hv). eexists _, _. split; [done|]. cbn [pt_proc pt_mem].
  rewrite list_lookup_alter_eq, Hz'. split; [done|]. split; [done|]. do 4 (split; [done|]).
  intros j Hne. by rewrite list_lookup_alter_ne.
Qed.

(** As long as [nextpid] does not overflow (the first 2^31 - 3 steps since boot),
    processes in the table have different, positive pids. *)
Theorem pids_unique code ncpu n x0 x :
  booted code ncpu x0 → nsteps pstep n x0 x → Z.of_nat n < 2 ^ 31 - 2 →
  ∀ i j p q, pt_proc (ps_state x) !! i = Some p → pt_proc (ps_state x) !! j = Some q →
    p_state p ≠ UNUSED → p_state q ≠ UNUSED →
    0 < p_pid p < pt_nextpid (ps_state x) ∧ (p_pid p = p_pid q → i = j).
Proof using Type*.
  intros (Hi & Hp & Hn)%booted_inv Hst Hb i j p q Hpi%lookup_keys Hqj%lookup_keys Hu Hv.
  destruct (reachable_pids n x0 x Hi Hp) as [H1 H2]; [lia|lia|done|]. cbn in *.
  split; [by apply (H1 _ _ Hpi)|]. intros E. by apply (H2 _ _ _ _ Hpi Hqj).
Qed.

(** The tree of processes: after any run there is an init process, alive and without a
    parent; the parent of every other process in use is alive, and no process is its own
    parent. *)
Theorem process_tree code ncpu x0 x :
  booted code ncpu x0 → rtc pstep x0 x →
  ∃ ini pini, pt_initproc (ps_state x) = Some ini ∧ pt_proc (ps_state x) !! ini = Some pini ∧
    live (key_of pini) ∧ p_parent pini = None ∧
    ∀ i p, pt_proc (ps_state x) !! i = Some p → i ≠ ini → live (key_of p) ∨ p_state p = ZOMBIE →
      ∃ q pq, p_parent p = Some q ∧ q ≠ i ∧ pt_proc (ps_state x) !! q = Some pq ∧ live (key_of pq).
Proof using Type*.
  intros Hb Hr. destruct (ki_tree _ (reachable_inv _ _ _ _ Hb Hr)) as [(i0 & k0 & Hi & Hk & Hl & Hp) H2 H3 H4 H5].
  cbn in *. destruct (keys_lookup _ _ _ Hk) as (p0 & Hp0 & ->). exists i0, p0.
  split; [done|]. split; [done|]. split; [done|]. split; [done|].
  intros i p Hpi%lookup_keys Hne Huse. destruct (p_parent p) as [q|] eqn:Hpar.
  - destruct (H2 _ _ _ Hpi Hpar) as (kq & Hkq & Hlq). destruct (keys_lookup _ _ _ Hkq) as (pq & Hq & ->).
    exists q, pq. split; [done|]. split; [|done]. intros ->. by apply (H5 _ _ Hpi).
  - exfalso. destruct (H3 _ _ Hpi Hpar) as [E|U]; [congruence|].
    destruct Huse as [Hl'|Hz]; [by apply live_not_unborn in Hl'|]. unfold unborn in U. cbn in U. rewrite Hz in U.
    by destruct U.
Qed.

(** [kill] does not look at [state]: a pid of 0, which is what the free entries of the
    table have, matches the first of them.  [kill(0)] returns 0 (success), and the process
    that the next [fork] puts there is born killed, since [allocproc] does not clear
    [killed]. *)
Theorem kill_zero_poisons_fork pid (s : pstate Mem F) j :
  find_proc (λ p, p_pid p =? 0) (pt_proc s) 0 = Some j →
  find_proc (λ p, bool_decide (p_state p = UNUSED)) (pt_proc s) 0 = Some j →
  ∃ s1 s2 p, kill 0 (cpu0 pid) s = Ret 0 (cpu0 pid) s1 ∧
    alloc_slot (cpu0 pid) s1 = Ret (Some j) (cpu0 pid) s2 ∧
    pt_proc s2 !! j = Some p ∧ p_state p = EMBRYO ∧ p_killed p = true.
Proof using Type*.
  intros H0 Hu. apply find_proc_some in Hu as Hj. destruct Hj as (_ & x & Hx & Hst). rewrite Nat.sub_0_r in Hx.
  apply bool_decide_eq_true in Hst.
  set (t1 := alter (λ p, if bool_decide (p_state p = SLEEPING) then set_state RUNNABLE p else p) j
               (alter (set_killed true) j (pt_proc s))).
  set (s1 := PState t1 (pt_initproc s) (pt_nextpid s) (pt_mem s) (pt_files s)).
  assert (kill 0 (cpu0 pid) s = Ret 0 (cpu0 pid) s1) as Hk.
  { unfold kill. erewrite bind_eq by (by apply acquire_cpu0). cbv beta. erewrite bind_eq by done. cbv beta.
    rewrite H0. erewrite bind_eq by (by eapply upd_proc_eq). cbv beta.
    erewrite bind_eq by (eapply upd_proc_eq; cbn [pt_proc]; by rewrite list_lookup_alter_eq, Hx). cbv beta.
    by erewrite bind_eq by (by apply release_cpu1). }
  assert (t1 !! j = Some (set_killed true x)) as Hj.
  { unfold t1. rewrite !list_lookup_alter_eq, Hx. cbn. by rewrite Hst. }
  assert (find_proc (λ p, bool_decide (p_state p = UNUSED)) t1 0 = Some j) as Hf.
  { rewrite <- Hu. unfold t1. rewrite !find_proc_alter; [done|done|].
    intros p. destruct (bool_decide (p_state p = SLEEPING)) eqn:E; [|done]. apply bool_decide_eq_true in E. by rewrite E. }
  exists s1, (PState (alter (set_pid (pt_nextpid s)) j (alter (set_state EMBRYO) j t1))
    (pt_initproc s) (s32 (pt_nextpid s + 1)) (pt_mem s) (pt_files s)), (set_pid (pt_nextpid s) (set_state EMBRYO (set_killed true x))).
  split; [done|]. split; [|cbn [pt_proc]; by rewrite !list_lookup_alter_eq, Hj].
  unfold alloc_slot. erewrite bind_eq by (by apply acquire_cpu0). cbv beta. erewrite bind_eq by done. cbv beta.
  unfold s1 at 1. cbn [pt_proc]. rewrite Hf. erewrite bind_eq by (by eapply upd_proc_eq). cbv beta.
  erewrite bind_eq by (eapply upd_proc_eq; cbn [pt_proc s1]; by rewrite list_lookup_alter_eq, Hj). cbv beta.
  erewrite bind_eq by done. cbv beta. by erewrite bind_eq by (by apply release_cpu1).
Qed.
End system.

(** * Concrete runs

    A machine whose memory and files always succeed. *)
Section demo.
#[local] Instance demo_mem : ProcMem unit := {
  pm_kalloc := ret 4096;
  pm_kfree _ := ret tt;
  pm_setupkvm := ret 8192;
  pm_inituvm _ _ := ret tt;
  pm_copyuvm _ _ := ret 12288;
  pm_freevm _ := ret tt;
  pm_allocuvm _ _ n := ret n;
  pm_deallocuvm _ _ n := ret n;
}.
#[local] Instance demo_awake : ProcMemAwake unit.
Proof. split; intros; apply no_sleep_ret. Qed.
#[local] Instance demo_files : ProcFiles unit unit := {
  pf_filedup _ := ret tt;
  pf_fileclose _ := ret tt;
  pf_idup _ := ret tt;
  pf_put_cwd _ := ret tt;
  pf_root := ret (Some 0%nat);
}.

(** The state an operation leaves. *)
Definition after {A} (m : M (pstate unit unit) A) (c : cpu) (s : pstate unit unit) : pstate unit unit :=
  match m c s with Ret _ _ s' => s' | Sleep _ _ s' => s' | _ => s end.

Definition demo0 : pstate unit unit := after (userinit []) (cpu0 0) (boot_state tt tt).
Definition demo1 : pstate unit unit := after (scheduler_pick 0) (cpu1 0 LkPtable) demo0.
Definition demo2 : pstate unit unit := after alloc_slot (cpu0 1) demo1.
Definition demo3 : pstate unit unit := after (fork_rest 0 1) (cpu0 1) demo2.
Definition demo4 : pstate unit unit := after (scheduler_pick 1) (cpu1 0 LkPtable) demo3.
Definition demo5 : pstate unit unit := after (wait 0) (cpu0 1) demo4.
Definition demo6 : pstate unit unit := after (exit_close 1) (cpu0 2) demo5.
Definition demo7 : pstate unit unit := after (exit_zombie 1) (cpu0 2) demo6.

(** Init starts, forks a child, which runs on the second CPU; init waits for it, and it
    exits. *)
Definition demo_sys0 : psys := PSys demo0 [None; None] ∅.
Definition demo_sys7 : psys := PSys demo7 [None; None] ∅.

Lemma demo_booted : booted [] 2 demo_sys0.
Proof. exists tt, tt, (cpu0 0), (cpu0 0). split; [vm_compute; reflexivity|done]. Qed.
Definition demo_events : list event :=
  [ESched 0 0; EAlloc 0 (Some 1%nat); EFork 0 2; ESched 1 1; EWaitSleep 0; EClose 1; EExit 1].
Lemma demo_trace : run pevstep demo_sys0 demo_events demo_sys7.
Proof.
  apply (run_cons _ _ (PSys demo1 [Some 0%nat; None] ∅)).
  { refine (p_sched demo0 demo1 [None; None] ∅ (cpu1 0 LkPtable) _ 0 0 _ eq_refl _). vm_compute; reflexivity. }
  apply (run_cons _ _ (PSys demo2 [Some 0%nat; None] {[0%nat := Forking 1]})).
  { refine (p_fork demo1 demo2 [Some 0%nat; None] ∅ (cpu0 1) _ 0 0 1 eq_refl eq_refl _). vm_compute; reflexivity. }
  apply (run_cons _ _ (PSys demo3 [Some 0%nat; None] ∅)).
  { refine (p_fork_rest demo2 demo3 [Some 0%nat; None] {[0%nat := Forking 1]} (cpu0 1) _ 0 0 1 _ eq_refl eq_refl _).
    vm_compute; reflexivity. }
  apply (run_cons _ _ (PSys demo4 [Some 0%nat; Some 1%nat] ∅)).
  { refine (p_sched demo3 demo4 [Some 0%nat; None] ∅ (cpu1 0 LkPtable) _ 1 1 _ eq_refl _). vm_compute; reflexivity. }
  apply (run_cons _ _ (PSys demo5 [None; Some 1%nat] ∅)).
  { refine (p_wait_sleep demo4 demo5 [Some 0%nat; Some 1%nat] ∅ (cpu0 1) _ 0 0 _ eq_refl eq_refl _).
    vm_compute; reflexivity. }
  apply (run_cons _ _ (PSys demo6 [None; Some 1%nat] {[1%nat := Exiting]})).
  { refine (p_exit_close demo5 demo6 [None; Some 1%nat] ∅ (cpu0 2) _ 1 1 eq_refl eq_refl _). vm_compute; reflexivity. }
  eapply run_cons; [|apply run_nil].
  refine (p_exit_zombie demo6 demo7 [None; Some 1%nat] {[1%nat := Exiting]} (cpu0 2) _ 1 1 eq_refl eq_refl _).
  vm_compute; reflexivity.
Qed.

Lemma demo_run : nsteps pstep 7 demo_sys0 demo_sys7.
Proof.
  assert (∀ x l y, run pevstep x l y → nsteps pstep (length l) x y) as H.
  { induction 1 as [|x y z e l Hst _ IH]; [apply nsteps_O|]. cbn. eapply nsteps_l; [by exists e|done]. }
  exact (H _ _ _ demo_trace).
Qed.

Lemma proc_refines_witness : run kevstep (kview demo_sys0) demo_events (kview demo_sys7).
Proof. apply proc_refines. exact demo_trace. Defined.

Lemma one_cpu_per_process_witness :
  p_state (default proc_zero (pt_proc (ps_state demo_sys7) !! 0%nat)) = RUNNING ↔
  ∃ n, ps_cpus demo_sys7 !! n = Some (Some 0%nat).
Proof.
  apply (one_cpu_per_process [] 2 demo_sys0 demo_sys7 demo_booted).
  - apply rtc_nsteps_2 with 7%nat. exact demo_run.
  - vm_compute. reflexivity.
Defined.

Lemma zombies_are_reaped_witness :
  ∃ q z' s', (z' <= 1)%nat ∧ wait q (cpu0 1) (ps_state demo_sys7) = Ret 2 (cpu0 1) s' ∧
    p_state (default proc_zero (pt_proc s' !! z')) = UNUSED.
Proof.
  destruct (zombies_are_reaped [] 2 demo_sys0 demo_sys7 1 (default proc_zero (pt_proc (ps_state demo_sys7) !! 1%nat)) demo_booted)
    as (q & pq & _ & H & Hst & _ & z' & pz' & Hle & Hz & Hp & Hs & Hw).
  - apply rtc_nsteps_2 with 7%nat. exact demo_run.
  - vm_compute. reflexivity.
  - vm_compute. reflexivity.
  - destruct (Hw 1 tt tt) as (s' & p' & E & _ & Hp' & Hu & _); [reflexivity|reflexivity|].
    exists q, z', s'. split; [exact Hle|]. split.
    + rewrite E. f_equal. destruct z' as [|[|z']]; [|by vm_compute in Hz; injection Hz as <-|lia].
      vm_compute in Hz. injection Hz as <-. discriminate Hs.
    + by rewrite Hp'.
Defined.

Lemma pids_unique_witness :
  0 < p_pid (default proc_zero (pt_proc (ps_state demo_sys7) !! 1%nat)) < pt_nextpid (ps_state demo_sys7).
Proof.
  apply (pids_unique [] 2 7 demo_sys0 demo_sys7 demo_booted demo_run ltac:(lia) 1 0 _
    (default proc_zero (pt_proc (ps_state demo_sys7) !! 0%nat))).
  - vm_compute. reflexivity.
  - vm_compute. reflexivity.
  - vm_compute. discriminate.
  - vm_compute. discriminate.
Defined.

Lemma process_tree_witness :
  ∃ ini pini, pt_initproc (ps_state demo_sys7) = Some ini ∧ pt_proc (ps_state demo_sys7) !! ini = Some pini ∧ live (key_of pini).
Proof.
  destruct (process_tree [] 2 demo_sys0 demo_sys7 demo_booted) as (i & p & H1 & H2 & H3 & _).
  - apply rtc_nsteps_2 with 7%nat. exact demo_run.
  - exists i, p. split; [exact H1|]. split; [exact H2|exact H3].
Defined.

Lemma kill_zero_poisons_fork_witness :
  ∃ s1 s2 p, kill 0 (cpu0 1) demo1 = Ret 0 (cpu0 1) s1 ∧ alloc_slot (cpu0 1) s1 = Ret (Some 1%nat) (cpu0 1) s2 ∧
    pt_proc s2 !! 1%nat = Some p ∧ p_state p = EMBRYO ∧ p_killed p = true.
Proof. apply (kill_zero_poisons_fork 1 demo1 1); vm_compute; reflexivity. Defined.
End demo.
