(* ===== verification/File.v ===== *)
(** Open files ([file.c]) and the creation of pipes ([pipealloc] of [pipe.c]): the system
    file table, over the file system, the pipes and the page allocator. *)
From stdpp Require Import base list numbers strings gmap.
From Stdlib Require Import ZArith Lia.
From S2P Require Import Prelude Params Machine Spinlock Sleeplock Bio Log Fs Pipe Kalloc Vm Proc.
Local Open Scope Z_scope.
Local Open Scope xv6_scope.

(** * State *)

Inductive ftype := FD_NONE | FD_PIPE | FD_INODE.
#[global] Instance ftype_eq_dec : EqDecision ftype.
Proof. solve_decision. Defined.

(** [struct file]; a pipe is known by the address of its page, an inode by its place in
    the inode cache. *)
Record file := File {
  f_type : ftype;
  f_ref : Z;
  f_readable : bool;
  f_writable : bool;
  f_pipe : Z;
  f_ip : option nat;
  f_off : Z;
}.
Abbreviation nfile := (Z.to_nat NFILE).
Definition file_zero : file := File FD_NONE 0 false false 0 None 0.
#[global] Instance file_inhabited : Inhabited file := populate file_zero.

Definition set_fref (f : Z → Z) (x : file) : file :=
  File (f_type x) (f (f_ref x)) (f_readable x) (f_writable x) (f_pipe x) (f_ip x) (f_off x).
Definition set_ftype (t : ftype) (x : file) : file :=
  File t (f_ref x) (f_readable x) (f_writable x) (f_pipe x) (f_ip x) (f_off x).
Definition set_off (f : Z → Z) (x : file) : file :=
  File (f_type x) (f_ref x) (f_readable x) (f_writable x) (f_pipe x) (f_ip x) (f (f_off x)).
(** The stores of [pipealloc] and [sys_open] to a new file. *)
Definition set_pipe (p : Z) (readable writable : bool) (x : file) : file :=
  File FD_PIPE (f_ref x) readable writable p (f_ip x) (f_off x).
Definition set_inode (ip : nat) (readable writable : bool) (x : file) : file :=
  File FD_INODE (f_ref x) readable writable (f_pipe x) (Some ip) 0.

(** The file system, [ftable.file], and the pipes. *)
Record fdstate := FdState {
  fd_fs : fstate;
  fd_file : list file;
  fd_pipe : gmap Z pipe;
}.

(** The first entry of the table, from index [k] on, that is free. *)
Fixpoint find_file (t : list file) (k : nat) : option nat :=
  match t with
  | [] => None
  | f :: t' => if f_ref f =? 0 then Some k else find_file t' (S k)
  end.

Section ops.
Context {Mem : Type} `{!ProcMem Mem} (dsw : devsw).
Abbreviation MF := (M (Mem * fdstate)).

Definition fmem {A} (m : M Mem A) : MF A := lift fst (λ x s, (x, s.2)) m.
Definition ffs {A} (m : M fstate A) : MF A :=
  lift (λ s, fd_fs s.2) (λ x s, (s.1, FdState x (fd_file s.2) (fd_pipe s.2))) m.
Definition filep (f : nat) : MF file := s <- get ;; deref (fd_file s.2 !! f).
Definition upd_file (f : nat) (g : file → file) : MF unit :=
  _ <- filep f ;;
  modify (λ s, (s.1, FdState (fd_fs s.2) (alter g f (fd_file s.2)) (fd_pipe s.2))).
Definition set_pipes (g : gmap Z pipe → gmap Z pipe) : MF unit :=
  modify (λ s, (s.1, FdState (fd_fs s.2) (fd_file s.2) (g (fd_pipe s.2)))).
(** An operation on the pipe at [p]. *)
Definition on_pipe {A} (p : Z) (m : M pipe A) : MF A :=
  s <- get ;;
  x <- deref (fd_pipe s.2 !! p) ;;
  lift (λ _, x) (λ x s, (s.1, FdState (fd_fs s.2) (fd_file s.2) (<[p := x]> (fd_pipe s.2)))) m.

(** Allocate a file structure. *)
Definition filealloc : MF (option nat) :=
  acquire LkFtable ;;
  s <- get ;;
  match find_file (fd_file s.2) 0 with
  | Some f => upd_file f (set_fref (λ _, 1)) ;; release LkFtable ;; ret (Some f)
  | None => release LkFtable ;; ret None
  end.

(** Increment ref count for file f. *)
Definition filedup (f : nat) : MF nat :=
  acquire LkFtable ;;
  x <- filep f ;;
  when (f_ref x <? 1) (panic "filedup") ;;
  upd_file f (set_fref (λ r, r + 1)) ;;
  release LkFtable ;;
  ret f.

(** [pipeclose], with the page the pipe is in. *)
Definition pipeclose (p : Z) (writable : bool) : MF unit :=
  free <- on_pipe p (Pipe.pipeclose p writable) ;;
  when free (fmem (pm_kfree p) ;; set_pipes (delete p)).

(** Close file f.  (Decrement ref count, close when reaches 0.) *)
Definition fileclose (f : nat) : MF unit :=
  acquire LkFtable ;;
  x <- filep f ;;
  when (f_ref x <? 1) (panic "fileclose") ;;
  upd_file f (set_fref (λ r, r - 1)) ;;
  if 0 <? f_ref x - 1 then release LkFtable
  else
    upd_file f (set_fref (λ _, 0)) ;;
    upd_file f (set_ftype FD_NONE) ;;
    release LkFtable ;;
    match f_type x with
    | FD_PIPE => pipeclose (f_pipe x) (f_writable x)
    | FD_INODE =>
        ffs (lg begin_op) ;;
        ip <- deref (f_ip x) ;;
        ffs (iput ip) ;;
        ffs (lg end_op)
    | FD_NONE => ret tt
    end.

(** Get metadata about file f; [None] is -1. *)
Definition filestat (f : nat) : MF (option stat) :=
  x <- filep f ;;
  match f_type x with
  | FD_INODE =>
      ffs (ilock (f_ip x)) ;;
      ip <- deref (f_ip x) ;;
      st <- ffs (stati ip) ;;
      ffs (iunlock (f_ip x)) ;;
      ret (Some st)
  | _ => ret None
  end.

(** Read from file f: the result and the bytes stored at [addr]; [killed] is
    [myproc()->killed]. *)
Definition fileread (killed : bool) (f : nat) (n : Z) : MF (Z * list Z) :=
  x <- filep f ;;
  if negb (f_readable x) then ret (-1, [])
  else
    match f_type x with
    | FD_PIPE => on_pipe (f_pipe x) (piperead (f_pipe x) killed n)
    | FD_INODE =>
        ffs (ilock (f_ip x)) ;;
        ip <- deref (f_ip x) ;;
        r <- ffs (readi dsw ip (f_off x) n) ;;
        when (0 <? r.1) (upd_file f (set_off (λ o, u32 (o + r.1)))) ;;
        ffs (iunlock (f_ip x)) ;;
        ret r
    | FD_NONE => panic "fileread"
    end.

(** The loop of [filewrite]: a few blocks at a time to avoid exceeding the maximum log
    transaction size; [src] is what is left to write.  It returns what is left. *)
Definition filewrite_max : Z := ((MAXOPBLOCKS - 1 - 1 - 2) / 2) * 512.
Fixpoint filewrite_loop (fuel : nat) (f : nat) (src : list Z) : MF (list Z) :=
  match fuel with
  | O => hang
  | S fuel' =>
      match src with
      | [] => ret []
      | _ =>
          let n1 := Z.min (Z.of_nat (length src)) filewrite_max in
          ffs (lg begin_op) ;;
          x <- filep f ;;
          ffs (ilock (f_ip x)) ;;
          ip <- deref (f_ip x) ;;
          r <- ffs (writei dsw ip (take (Z.to_nat n1) src) (f_off x)) ;;
          when (0 <? r) (upd_file f (set_off (λ o, u32 (o + r)))) ;;
          ffs (iunlock (f_ip x)) ;;
          ffs (lg end_op) ;;
          if r <? 0 then ret src
          else
            when (negb (r =? n1)) (panic "short filewrite") ;;
            filewrite_loop fuel' f (drop (Z.to_nat n1) src)
      end
  end.

(** Write to file f the [n] bytes [src].  Each turn of the loop writes at least one
    byte. *)
Definition filewrite (killed : bool) (f : nat) (src : list Z) : MF Z :=
  let n := Z.of_nat (length src) in
  x <- filep f ;;
  if negb (f_writable x) then ret (-1)
  else
    match f_type x with
    | FD_PIPE => on_pipe (f_pipe x) (pipewrite (f_pipe x) killed src)
    | FD_INODE =>
        rest <- filewrite_loop (S (length src)) f src ;;
        ret (if bool_decide (rest = []) then n else -1)
    | FD_NONE => panic "filewrite"
    end.

(** * pipealloc *)

(** What is left of a page after the stores of [pipealloc]: [data] is whatever the page
    holds. *)
Definition pipe_new (data : list Z) : pipe := Pipe data 0 0 true true.

(** [junk] is what the first bytes of the new page hold. *)
Definition pipealloc (junk : list Z) : MF (option (nat * nat)) :=
  f0 <- filealloc ;;
  match f0 with
  | None => ret None
  | Some f0 =>
      f1 <- filealloc ;;
      match f1 with
      | None => fileclose f0 ;; ret None
      | Some f1 =>
          p <- fmem pm_kalloc ;;
          if p =? 0 then fileclose f0 ;; fileclose f1 ;; ret None
          else
            set_pipes (<[p := pipe_new junk]>) ;;
            upd_file f0 (set_pipe p true false) ;;
            upd_file f1 (set_pipe p false true) ;;
            ret (Some (f0, f1))
      end
  end.
End ops.

(** What [proc.c] uses of the files. *)
#[global] Instance kernel_files {Mem} `{!ProcMem Mem} (dsw : devsw) : ProcFiles Mem fdstate := {
  pf_filedup f := filedup f ;; ret tt;
  pf_fileclose f := fileclose f;
  pf_idup ip := ffs (idup ip) ;; ret tt;
  pf_put_cwd ip := ffs (lg begin_op) ;; ffs (iput ip) ;; ffs (lg end_op);
  (* an absolute path: [cwd] is not looked at *)
  pf_root := ffs (namei dsw 0 [47]);
}.
