(* ===== verification/FileSpec.v ===== *)
(** The file table: reference counts, pipe ends and the pages pipes live in. *)
From stdpp Require Import base list numbers strings gmap relations.
From Stdlib Require Import ZArith Lia.
From S2P Require Import Prelude Params Machine Spinlock Sleeplock Bio Log Fs Pipe Kalloc KallocSpec Vm Proc File.
Local Open Scope Z_scope.
Local Open Scope xv6_scope.

(** * What the file table needs of the page allocator *)

Class PageLaws (Mem : Type) `{!ProcMem Mem} := {
  (** [pl_free s l]: the allocator has the free pages [l]. *)
  pl_free : Mem → list Z → Prop;
  pl_page : Z → Prop;
  pl_nonzero : ¬ pl_page 0;
  pl_nodup : ∀ s l, pl_free s l → NoDup l ∧ Forall pl_page l;
  pl_kalloc : ∀ pid s l, pl_free s l →
    match l with
    | [] => pm_kalloc (cpu0 pid) s = Ret 0 (cpu0 pid) s
    | v :: l' => ∃ s', pm_kalloc (cpu0 pid) s = Ret v (cpu0 pid) s' ∧ pl_free s' l'
    end;
  pl_kfree : ∀ pid s l v, pl_free s l → pl_page v → v ∉ l →
    ∃ s', pm_kfree v (cpu0 pid) s = Ret tt (cpu0 pid) s' ∧ pl_free s' (v :: l);
}.

Section kernel.
Context (kend data : Z) (Hkend : KERNBASE <= kend).

Lemma kernel_kalloc pid s l :
  krel kend s l →
  match l with
  | [] => kalloc (cpu0 pid) s = Ret 0 (cpu0 pid) s
  | v :: l' => ∃ s', kalloc (cpu0 pid) s = Ret v (cpu0 pid) s' ∧ krel kend s' l'
  end.
Proof using Hkend.
  intros HR. pose proof (kalloc_spec kend Hkend pid s l HR) as H. destruct l as [|v l']; [done|].
  destruct H as (s' & H & HR' & _). eauto.
Qed.
Lemma kernel_kfree pid s l v :
  krel kend s l → kpage kend v → v ∉ l →
  ∃ s', kfree kend v (cpu0 pid) s = Ret tt (cpu0 pid) s' ∧ krel kend s' (v :: l).
Proof using Hkend.
  intros HR Hv Hl. destruct (kfree_spec kend Hkend pid s l v HR Hv Hl) as (s' & H & HR' & _). eauto.
Qed.
Lemma kernel_nonzero : ¬ kpage kend 0.
Proof using Hkend. intros H%kpage_nonzero; lia. Qed.

Definition kernel_pages : @PageLaws kstate (kernel_mem kend data) :=
  @Build_PageLaws kstate (kernel_mem kend data) (krel kend) (kpage kend) kernel_nonzero
    (λ s l HR, conj (kr_nodup _ _ _ HR) (kr_pages _ _ _ HR)) kernel_kalloc kernel_kfree.
End kernel.

(** * Code that keeps a relation between the states it starts and stops in *)

Definition preserves {S A} (R : S → S → Prop) (m : M S A) : Prop :=
  ∀ c s, match m c s with Ret _ _ s' | Sleep _ _ s' => R s s' | _ => True end.

Create HintDb preserves.
Section preserves.
Context {S : Type} (R : S → S → Prop) `{!PreOrder R}.

Lemma preserves_bind {A B} (m : M S A) (f : A → M S B) :
  preserves R m → (∀ a, preserves R (f a)) → preserves R (bind m f).
Proof using Type*.
  intros Hm Hf c s. unfold bind. specialize (Hm c s). destruct (m c s) as [a c1 s1| |ch c1 s1| |]; try done.
  specialize (Hf a c1 s1). destruct (f a c1 s1); try done; by etrans.
Qed.
Lemma preserves_refl {A} (m : M S A) :
  (∀ c s, match m c s with Ret _ _ s' | Sleep _ _ s' => s' = s | _ => True end) → preserves R m.
Proof using Type*. intros H c s. specialize (H c s). by destruct (m c s); subst. Qed.
Lemma preserves_ret {A} (a : A) : preserves R (ret a).
Proof using Type*. by apply preserves_refl. Qed.
Lemma preserves_panic {A} msg : preserves R (panic msg : M S A).
Proof. done. Qed.
Lemma preserves_get : preserves R get.
Proof using Type*. by apply preserves_refl. Qed.
Lemma preserves_deref {A} (o : option A) : preserves R (deref o).
Proof using Type*. apply preserves_refl. by destruct o. Qed.
Lemma preserves_when b (m : M S unit) : preserves R m → preserves R (when b m).
Proof using Type*. destruct b; [done|]. intros _. apply preserves_ret. Qed.
End preserves.
#[export] Hint Resolve preserves_ret preserves_panic preserves_get preserves_deref preserves_when : preserves.

(** Walk through straight-line code. *)
Ltac keep :=
  repeat first
    [ solve [eauto with preserves typeclass_instances]
    | match goal with |- preserves _ (bind _ _) => apply preserves_bind; [apply _| |intros ?] end
    | match goal with |- preserves _ (if ?b then _ else _) => destruct b end
    | match goal with |- preserves _ (when _ _) => apply preserves_when; [apply _|] end
    | progress cbv zeta ].

(** * The invariant *)

(** The end of pipe [p] that [w] (writing or reading) says. *)
Definition pipe_end (p : Z) (w : bool) (x : file) : Prop :=
  f_type x = FD_PIPE ∧ f_pipe x = p ∧ f_writable x = w.
Definition open_end (w : bool) (pp : pipe) : bool := if w then p_writeopen pp else p_readopen pp.

Section table.
Context {Mem : Type} `{!ProcMem Mem} `{!PageLaws Mem}.
Implicit Types (m : Mem) (t : list file) (P : gmap Z pipe) (own : list nat).

Definition refs own (f : nat) : Z := Z.of_nat (count_occ Nat.eq_dec own f).

(** [own] is the references to files that processes hold, [l] the free pages. *)
Record ftable_ok m t P own (l : list Z) : Prop := {
  ft_ref : ∀ f x, t !! f = Some x → f_ref x = refs own f;
  ft_own : ∀ f, f ∈ own → is_Some (t !! f);
  ft_none : ∀ f x, t !! f = Some x → f_ref x = 0 → f_type x = FD_NONE;
  ft_pipe : ∀ f x p w, t !! f = Some x → pipe_end p w x →
    f_readable x = negb w ∧ ∃ pp, P !! p = Some pp ∧ open_end w pp = true;
  ft_end : ∀ p pp w, P !! p = Some pp → open_end w pp = true → ∃ f x, t !! f = Some x ∧ pipe_end p w x;
  ft_one : ∀ f g x y p w, t !! f = Some x → t !! g = Some y → pipe_end p w x → pipe_end p w y → f = g;
  ft_live : ∀ p pp, P !! p = Some pp → ∃ w, open_end w pp = true;
  ft_mem : pl_free m l;
  ft_page : ∀ p pp, P !! p = Some pp → pl_page p ∧ p ∉ l;
}.

Lemma refs_perm own own' f : own ≡ₚ own' → refs own f = refs own' f.
Proof. intros H. unfold refs. f_equal. by apply Permutation_count_occ. Qed.
Lemma refs_cons own f g : refs (g :: own) f = refs own f + (if decide (g = f) then 1 else 0).
Proof. unfold refs. cbn. case_decide; destruct (Nat.eq_dec g f); try done; lia. Qed.
Lemma refs_pos own f : f ∈ own ↔ 0 < refs own f.
Proof.
  unfold refs. rewrite list_elem_of_In, (count_occ_In Nat.eq_dec). lia.
Qed.
Lemma refs_nonneg own f : 0 <= refs own f.
Proof. unfold refs. lia. Qed.

(** A change to one entry that is not about pipes. *)
Lemma ftable_update m t P own own' l f g x :
  ftable_ok m t P own l → t !! f = Some x →
  (∀ p w, pipe_end p w (g x) ↔ pipe_end p w x) → (f_type x = FD_PIPE → f_readable (g x) = f_readable x) →
  (∀ h, h ≠ f → refs own' h = refs own h) → f_ref (g x) = refs own' f →
  (f_ref (g x) = 0 → f_type (g x) = FD_NONE) →
  ftable_ok m (alter g f t) P own' l.
Proof.
  intros [H1 H2 H3 H4 H5 H6 H7 H8 H9] Hf Hend Hrd Hoth Href Hnone.
  assert (∀ h y', alter g f t !! h = Some y' →
    h = f ∧ y' = g x ∨ h ≠ f ∧ t !! h = Some y') as Hb.
  { intros h y'. destruct (decide (h = f)) as [->|Hne].
    - rewrite list_lookup_alter_eq, Hf. intros [= <-]. by left.
    - rewrite list_lookup_alter_ne by done. by right. }
  assert (∀ h y' p w, alter g f t !! h = Some y' → pipe_end p w y' → ∃ y, t !! h = Some y ∧ pipe_end p w y ∧ f_readable y' = f_readable y) as Hpe.
  { intros h y' p w [[-> ->]|[Hne Hh]]%Hb Hp; [|eauto]. exists x. apply Hend in Hp. split; [done|]. split; [done|].
    apply Hrd, Hp. }
  split; try done.
  - intros h y' [[-> ->]|[Hne Hh]]%Hb; [done|]. rewrite Hoth by done. eauto.
  - intros h Hh%refs_pos. destruct (decide (h = f)) as [->|Hne].
    + rewrite list_lookup_alter_eq, Hf. eauto.
    + rewrite list_lookup_alter_ne by done. apply H2, refs_pos. rewrite <- Hoth by done. done.
  - intros h y' [[-> ->]|[Hne Hh]]%Hb; [done|]. eauto.
  - intros h y' p w Hh Hp. destruct (Hpe _ _ _ _ Hh Hp) as (y & Hy & Hpy & ->). eauto.
  - intros p pp w Hp Ho. destruct (H5 _ _ _ Hp Ho) as (h & y & Hh & Hy). destruct (decide (h = f)) as [->|Hne].
    + rewrite Hf in Hh. injection Hh as <-. exists f, (g x). rewrite list_lookup_alter_eq, Hf.
      split; [done|]. by apply Hend.
    + exists h, y. by rewrite list_lookup_alter_ne.
  - intros h h' y y' p w Hh Hh' Hy Hy'. destruct (Hpe _ _ _ _ Hh Hy) as (z & Hz & Hpz & _).
    destruct (Hpe _ _ _ _ Hh' Hy') as (z' & Hz' & Hpz' & _). eauto.
Qed.

(** Which references are held matters, not their order. *)
Lemma ftable_perm m t P own own' l : own ≡ₚ own' → ftable_ok m t P own l → ftable_ok m t P own' l.
Proof.
  intros Hp [H1 H2 H3 H4 H5 H6 H7 H8 H9]. split; try done.
  - intros f x Hf. rewrite <- (refs_perm _ _ _ Hp). eauto.
  - intros f Hf. apply H2. by rewrite Hp.
Qed.

Lemma set_pipe_end v r w' x p w : pipe_end p w (set_pipe v r w' x) → p = v ∧ w = w'.
Proof. intros (_ & E1 & E2). cbn in E1, E2. auto. Qed.

(** A new pipe between two files that were opened for it. *)
Lemma ftable_new_pipe m m' t P own l v junk f0 f1 x0 x1 :
  ftable_ok m t P own (v :: l) → pl_free m' l → f0 ≠ f1 →
  t !! f0 = Some x0 → t !! f1 = Some x1 → f_type x0 = FD_NONE → f_type x1 = FD_NONE → f0 ∈ own → f1 ∈ own →
  ftable_ok m' (alter (set_pipe v false true) f1 (alter (set_pipe v true false) f0 t)) (<[v := pipe_new junk]> P) own l.
Proof.
  intros [H1 H2 H3 H4 H5 H6 H7 H8 H9] Hm Hne Hf0 Hf1 Ht0 Ht1 Ho0 Ho1.
  set (t' := alter _ f1 _).
  assert (P !! v = None) as Hfresh.
  { apply eq_None_not_Some. intros [pp Hpp]. apply H9 in Hpp as [_ Hv]. apply Hv. by left. }
  destruct (pl_nodup _ _ H8) as [Hnd Hpg]. apply NoDup_cons in Hnd as [Hvl Hnd]. apply Forall_cons in Hpg as [Hv _].
  assert (t' !! f0 = Some (set_pipe v true false x0)) as E0.
  { unfold t'. by rewrite list_lookup_alter_ne, list_lookup_alter_eq, Hf0. }
  assert (t' !! f1 = Some (set_pipe v false true x1)) as E1.
  { unfold t'. by rewrite list_lookup_alter_eq, list_lookup_alter_ne, Hf1. }
  assert (∀ h, h ≠ f0 → h ≠ f1 → t' !! h = t !! h) as Eoth.
  { intros h ??. unfold t'. by rewrite !list_lookup_alter_ne. }
  assert (∀ h y, t' !! h = Some y → (h = f0 ∧ y = set_pipe v true false x0) ∨ (h = f1 ∧ y = set_pipe v false true x1) ∨
    (h ≠ f0 ∧ h ≠ f1 ∧ t !! h = Some y)) as Hb.
  { intros h y Hh. destruct (decide (h = f0)) as [->|]; [left; split; congruence|].
    destruct (decide (h = f1)) as [->|]; [right; left; split; congruence|]. rewrite Eoth in Hh by done. auto. }
  assert (∀ h y p w, t !! h = Some y → pipe_end p w y → h ≠ f0 ∧ h ≠ f1 ∧ p ≠ v) as Hold.
  { intros h y p w Hh Hy. split; [|split].
    - intros ->. destruct Hy as [E _]. congruence.
    - intros ->. destruct Hy as [E _]. congruence.
    - intros ->. destruct (H4 _ _ _ _ Hh Hy) as (_ & pp & Hpp & _). congruence. }
  split.
  - intros h y [[-> ->]|[[-> ->]|(_ & _ & Hh)]]%Hb; cbn; eauto.
  - intros h Hh. destruct (decide (h = f0)) as [->|]; [eauto|]. destruct (decide (h = f1)) as [->|]; [eauto|].
    rewrite Eoth by done. eauto.
  - intros h y [[-> ->]|[[-> ->]|(_ & _ & Hh)]]%Hb; cbn; [| |eauto].
    + intros E. rewrite (H1 _ _ Hf0) in E. apply refs_pos in Ho0. lia.
    + intros E. rewrite (H1 _ _ Hf1) in E. apply refs_pos in Ho1. lia.
  - intros h y p w [[-> ->]|[[-> ->]|(_ & _ & Hh)]]%Hb Hp.
    + destruct Hp as (_ & E1' & E2). cbn in E1', E2. subst. split; [done|]. exists (pipe_new junk). by rewrite lookup_insert_eq.
    + destruct Hp as (_ & E1' & E2). cbn in E1', E2. subst. split; [done|]. exists (pipe_new junk). by rewrite lookup_insert_eq.
    + destruct (H4 _ _ _ _ Hh Hp) as (? & pp & Hpp & ?). split; [done|]. exists pp.
      rewrite lookup_insert_ne; [done|]. destruct (Hold _ _ _ _ Hh Hp) as (_ & _ & ?). congruence.
  - intros p pp w. rewrite lookup_insert. case_decide as E.
    + subst p. intros [= <-] _. destruct w; [exists f1; eexists; split; [exact E1|done]|].
      exists f0. eexists. split; [exact E0|done].
    + intros Hp Ho. destruct (H5 _ _ _ Hp Ho) as (h & y & Hh & Hy). exists h, y. split; [|done].
      destruct (Hold _ _ _ _ Hh Hy) as (? & ? & _). by rewrite Eoth.
  - intros h h' y y' p w Hh Hh' Hy Hy'.
    destruct (Hb _ _ Hh) as [[-> ->]|[[-> ->]|(_ & _ & Ha)]].
    + apply set_pipe_end in Hy as [-> ->]. destruct (Hb _ _ Hh') as [[-> ->]|[[-> ->]|(_ & _ & Hc)]]; [done| |].
      * apply set_pipe_end in Hy' as [_ [=]].
      * by destruct (Hold _ _ _ _ Hc Hy') as (_ & _ & ?).
    + apply set_pipe_end in Hy as [-> ->]. destruct (Hb _ _ Hh') as [[-> ->]|[[-> ->]|(_ & _ & Hc)]]; [|done|].
      * apply set_pipe_end in Hy' as [_ [=]].
      * by destruct (Hold _ _ _ _ Hc Hy') as (_ & _ & ?).
    + destruct (Hold _ _ _ _ Ha Hy) as (_ & _ & Hpv). destruct (Hb _ _ Hh') as [[-> ->]|[[-> ->]|(_ & _ & Hc)]].
      * by apply set_pipe_end in Hy' as [? _].
      * by apply set_pipe_end in Hy' as [? _].
      * by apply (H6 _ _ _ _ _ _ Ha Hc Hy).
  - intros p pp. rewrite lookup_insert. case_decide; [intros [= <-]; by exists true|eauto].
  - done.
  - intros p pp. rewrite lookup_insert. case_decide as E; [by subst p|]. intros Hp. destruct (H9 _ _ Hp) as [? Hn].
    split; [done|]. intros ?. apply Hn. by right.
Qed.

(** The last reference to an end of a pipe goes. *)
Definition close_end (w : bool) (pp : pipe) : pipe :=
  if w then Pipe (p_data pp) (p_nread pp) (p_nwrite pp) (p_readopen pp) false
  else Pipe (p_data pp) (p_nread pp) (p_nwrite pp) false (p_writeopen pp).
Definition closed_file (x : file) : file := set_ftype FD_NONE (set_fref (λ _, 0) x).

Lemma open_close_end w w' pp : open_end w' (close_end w pp) = if decide (w' = w) then false else open_end w' pp.
Proof. destruct w, w'; done. Qed.

Lemma ftable_close_end m m' t P own own' l l' f x p w pp :
  ftable_ok m t P own l → own ≡ₚ f :: own' → t !! f = Some x → f_ref x = 1 → pipe_end p w x → P !! p = Some pp →
  let gone := negb (open_end (negb w) pp) in
  pl_free m' l' → l' = (if gone then p :: l else l) →
  ftable_ok m' (alter closed_file f t) (if gone then delete p P else <[p := close_end w pp]> P) own' l'.
Proof.
  intros [H1 H2 H3 H4 H5 H6 H7 H8 H9] Hown Hf Href Hend Hpp gone Hm' ->.
  assert (∀ h, refs own' h = if decide (h = f) then 0 else refs own h) as Hr.
  { intros h. pose proof (refs_perm _ _ h Hown) as E. rewrite refs_cons in E. case_decide; case_decide; try congruence; try lia.
    subst h. rewrite (H1 _ _ Hf) in Href. lia. }
  assert (∀ h y', alter closed_file f t !! h = Some y' → h = f ∧ y' = closed_file x ∨ h ≠ f ∧ t !! h = Some y') as Hb.
  { intros h y'. destruct (decide (h = f)) as [->|Hne].
    - rewrite list_lookup_alter_eq, Hf. intros [= <-]. by left.
    - rewrite list_lookup_alter_ne by done. by right. }
  set (P' := if gone then _ else _).
  assert (∀ q, q ≠ p → P' !! q = P !! q) as Hq.
  { intros q Hq. unfold P'. destruct gone; [by apply lookup_delete_ne|by apply lookup_insert_ne]. }
  assert (∀ pp', P' !! p = Some pp' → pp' = close_end w pp ∧ gone = false) as Hp.
  { intros pp'. unfold P'. destruct gone; [by rewrite lookup_delete_eq|]. rewrite lookup_insert_eq. by intros [= <-]. }
  split.
  - intros h y' [[-> ->]|[Hne Hh]]%Hb; rewrite Hr; [by rewrite decide_True|]. rewrite decide_False by done. eauto.
  - intros h Hh%refs_pos. rewrite Hr in Hh. case_decide; [lia|]. rewrite list_lookup_alter_ne by done. by apply H2, refs_pos.
  - intros h y' [[-> ->]|[Hne Hh]]%Hb; [done|eauto].
  - intros h y q w' [[-> ->]|[Hne Hh]]%Hb Hy; [by destruct Hy|]. destruct (H4 _ _ _ _ Hh Hy) as (Hrd & qq & Hqq & Ho).
    split; [done|]. destruct (decide (q = p)) as [->|Hqp]; [|rewrite Hq by done; eauto].
    rewrite Hpp in Hqq. injection Hqq as <-.
    assert (w' = negb w) as ->.
    { destruct (bool_decide (w' = w)) eqn:E; [apply bool_decide_eq_true in E; subst w'|apply bool_decide_eq_false in E; destruct w, w'; done].
      exfalso. by apply Hne, (H6 _ _ _ _ _ _ Hh Hf Hy). }
    unfold P', gone. rewrite Ho. cbn. rewrite lookup_insert_eq. eexists. split; [done|].
    rewrite open_close_end, Ho. case_decide; [by destruct w|done].
  - intros q qq w' Hqq Ho. destruct (decide (q = p)) as [->|Hqp].
    + destruct (Hp _ Hqq) as [-> _]. rewrite open_close_end in Ho. case_decide as Hw; [done|].
      destruct (H5 _ _ _ Hpp Ho) as (h & y & Hh & Hy). exists h, y. split; [|done].
      rewrite list_lookup_alter_ne; [done|]. intros <-. rewrite Hf in Hh. injection Hh as <-.
      destruct Hend as (_ & _ & E1), Hy as (_ & _ & E2). congruence.
    + rewrite Hq in Hqq by done. destruct (H5 _ _ _ Hqq Ho) as (h & y & Hh & Hy). exists h, y. split; [|done].
      rewrite list_lookup_alter_ne; [done|]. intros <-. rewrite Hf in Hh. injection Hh as <-.
      destruct Hend as (_ & E1 & _), Hy as (_ & E2 & _). congruence.
  - intros h h' y y' q w' [[-> ->]|[Hne Hh]]%Hb [[-> ->]|[Hne' Hh']]%Hb Hy Hy'; [done|by destruct Hy|by destruct Hy'|].
    by apply (H6 _ _ _ _ _ _ Hh Hh' Hy).
  - intros q qq Hqq. destruct (decide (q = p)) as [->|Hqp]; [|rewrite Hq in Hqq by done; eauto].
    destruct (Hp _ Hqq) as [-> Hg]. exists (negb w). rewrite open_close_end. case_decide; [by destruct w|].
    unfold gone in Hg. by apply negb_false_iff in Hg.
  - done.
  - intros q qq Hqq. destruct (decide (q = p)) as [->|Hqp].
    + destruct (Hp _ Hqq) as [_ ->]. eauto.
    + rewrite Hq in Hqq by done. destruct (H9 _ _ Hqq) as [? ?]. split; [done|]. destruct gone; [|done].
      apply not_elem_of_cons. done.
Qed.
End table.

(** * The operations *)

Section ops.
Context {Mem : Type} `{!ProcMem Mem} `{!PageLaws Mem} (dsw : devsw) (pid : Z).
Implicit Types s : Mem * fdstate.
Abbreviation files s := (fd_file s.2).
Abbreviation pipes s := (fd_pipe s.2).
Abbreviation c0 := (cpu0 pid).

Definition put_file (f : nat) (g : file → file) s : Mem * fdstate :=
  (s.1, FdState (fd_fs s.2) (alter g f (files s)) (pipes s)).
Abbreviation fok s own l := (ftable_ok s.1 (files s) (pipes s) own l).

Lemma filep_eq f c s x : files s !! f = Some x → filep f c s = Ret x c s.
Proof. intros H. unfold filep, bind. cbn. by rewrite H. Qed.
Lemma upd_file_eq f g c s x : files s !! f = Some x → upd_file f g c s = Ret tt c (put_file f g s).
Proof. intros H. unfold upd_file. by erewrite bind_eq; [|by apply filep_eq]. Qed.
Lemma put_file_lookup f g s x : files s !! f = Some x → files (put_file f g s) !! f = Some (g x).
Proof. intros H. cbn. by rewrite list_lookup_alter_eq, H. Qed.
Lemma put_file_twice f g h s : put_file f h (put_file f g s) = put_file f (λ x, h (g x)) s.
Proof.
  unfold put_file. cbn. do 2 f_equal. apply list_eq. intros i. destruct (decide (f = i)) as [->|].
  - rewrite !list_lookup_alter_eq. by destruct (files s !! i).
  - by rewrite !list_lookup_alter_ne.
Qed.

Lemma find_file_some t k f : find_file t k = Some f → (k <= f)%nat ∧ ∃ x, t !! (f - k)%nat = Some x ∧ f_ref x = 0.
Proof.
  revert k. induction t as [|y t IH]; intros k; cbn; [done|]. destruct (Z.eqb_spec (f_ref y) 0).
  - intros [= <-]. split; [lia|]. rewrite Nat.sub_diag. eauto.
  - intros H. destruct (IH _ H) as (? & x & Hx & ?). split; [lia|]. exists x. split; [|done].
    by replace (f - k)%nat with (S (f - S k)) by lia.
Qed.

Lemma filealloc_eq s :
  match find_file (files s) 0 with
  | Some f => (∃ x, files s !! f = Some x ∧ f_ref x = 0) ∧
      filealloc c0 s = Ret (Some f) c0 (put_file f (set_fref (λ _, 1)) s)
  | None => filealloc c0 s = Ret None c0 s
  end.
Proof.
  destruct (find_file (files s) 0) as [f|] eqn:Hf.
  - apply find_file_some in Hf as Hx. destruct Hx as (_ & x & Hx & Href). rewrite Nat.sub_0_r in Hx.
    split; [eauto|]. unfold filealloc. erewrite bind_eq; [|apply acquire_cpu0]. cbv beta. erewrite bind_eq; [|done].
    cbv beta. rewrite Hf. erewrite bind_eq; [|by eapply upd_file_eq]. cbv beta. by erewrite bind_eq; [|apply release_cpu1].
  - unfold filealloc. erewrite bind_eq; [|apply acquire_cpu0]. cbv beta. erewrite bind_eq; [|done].
    cbv beta. rewrite Hf. by erewrite bind_eq; [|apply release_cpu1].
Qed.

Lemma filealloc_ok s own l f x :
  fok s own l → files s !! f = Some x → f_ref x = 0 → fok (put_file f (set_fref (λ _, 1)) s) (f :: own) l.
Proof.
  intros Hok Hx Href. eapply ftable_update; [exact Hok|exact Hx|done|done| | |done].
  - intros h Hh. rewrite refs_cons, decide_False by done. lia.
  - cbn. rewrite refs_cons, decide_True by done. rewrite (ft_ref _ _ _ _ _ Hok _ _ Hx) in Href. lia.
Qed.

Lemma filedup_eq s f x :
  files s !! f = Some x → 1 <= f_ref x → filedup f c0 s = Ret f c0 (put_file f (set_fref (λ r, r + 1)) s).
Proof.
  intros Hx Href. unfold filedup. erewrite bind_eq; [|apply acquire_cpu0]. cbv beta.
  erewrite bind_eq; [|by apply filep_eq]. cbv beta. destruct (Z.ltb_spec (f_ref x) 1); [lia|]. cbn [when].
  erewrite bind_eq; [|done]. cbv beta. erewrite bind_eq; [|by eapply upd_file_eq]. cbv beta.
  by erewrite bind_eq; [|apply release_cpu1].
Qed.
Lemma filedup_ok s own l f x :
  fok s own l → files s !! f = Some x → 1 <= f_ref x → fok (put_file f (set_fref (λ r, r + 1)) s) (f :: own) l.
Proof.
  intros Hok Hx Href. eapply ftable_update; [exact Hok|exact Hx|done|done| | |cbn; lia].
  - intros h Hh. rewrite refs_cons, decide_False by done. lia.
  - cbn. rewrite refs_cons, decide_True by done. rewrite (ft_ref _ _ _ _ _ Hok _ _ Hx). lia.
Qed.

(** ** Closing *)

Lemma pipeclose_pipe_eq p w pp :
  Pipe.pipeclose p w c0 pp = Ret (negb (open_end (negb w) pp)) c0 (close_end w pp).
Proof.
  unfold Pipe.pipeclose. erewrite bind_eq; [|apply acquire_cpu0]. cbv beta. erewrite bind_eq; [|done]. cbv beta.
  unfold pipeclose_body. erewrite bind_eq; [|done]. cbv beta. erewrite bind_eq; [|by apply wakeup_cpu1]. cbv beta.
  erewrite bind_eq; [|apply release_cpu1]. destruct w; cbn; [|done]. by destruct (p_readopen pp).
Qed.
Lemma on_pipe_eq {A} p (m : M pipe A) c s pp a c' pp' :
  pipes s !! p = Some pp → m c pp = Ret a c' pp' →
  on_pipe p m c s = Ret a c' (s.1, FdState (fd_fs s.2) (files s) (<[p := pp']> (pipes s))).
Proof. intros Hp Hm. unfold on_pipe, bind. cbn. rewrite Hp. cbn. unfold lift. by rewrite Hm. Qed.

Lemma pipeclose_eq s p w pp l :
  pipes s !! p = Some pp → pl_free s.1 l → pl_page p → p ∉ l →
  let gone := negb (open_end (negb w) pp) in
  ∃ m', pl_free m' (if gone then p :: l else l) ∧
    pipeclose p w c0 s =
    Ret tt c0 (m', FdState (fd_fs s.2) (files s) (if gone then delete p (pipes s) else <[p := close_end w pp]> (pipes s))).
Proof.
  intros Hp Hl Hpg Hn gone. unfold pipeclose.
  destruct gone eqn:Hg; subst gone.
  - destruct (pl_kfree pid _ _ _ Hl Hpg Hn) as (m' & Hk & Hl'). exists m'. split; [done|].
    erewrite bind_eq; [|eapply on_pipe_eq; [done|apply pipeclose_pipe_eq]]. cbv beta. rewrite Hg. cbn [when].
    unfold bind, fmem, lift. cbn [fst snd]. rewrite Hk. unfold set_pipes, modify. cbn [fst snd fd_pipe fd_fs fd_file]. by rewrite delete_insert_eq.
  - exists s.1. split; [done|].
    erewrite bind_eq; [|eapply on_pipe_eq; [done|apply pipeclose_pipe_eq]]. cbv beta. by rewrite Hg.
Qed.

(** [fileclose] gives a reference back. *)
Lemma fileclose_ok s own own' l f c' s' :
  fok s own l → own ≡ₚ f :: own' → fileclose f c0 s = Ret tt c' s' → ∃ l', fok s' own' l'.
Proof.
  intros Hok Hown H. assert (f ∈ own) as Hf by (rewrite Hown; by left).
  destruct (ft_own _ _ _ _ _ Hok _ Hf) as [x Hx]. pose proof (ft_ref _ _ _ _ _ Hok _ _ Hx) as Href.
  apply refs_pos in Hf.
  assert (∀ h, refs own' h = refs own h - (if decide (f = h) then 1 else 0)) as Hr.
  { intros h. rewrite (refs_perm _ _ h Hown), refs_cons. lia. }
  unfold fileclose in H. erewrite bind_eq in H; [|apply acquire_cpu0]. cbv beta in H.
  erewrite bind_eq in H; [|by apply filep_eq]. cbv beta in H. destruct (Z.ltb_spec (f_ref x) 1); [lia|]. cbn [when] in H.
  erewrite bind_eq in H; [|done]. cbv beta in H. erewrite bind_eq in H; [|by eapply upd_file_eq]. cbv beta in H.
  destruct (Z.ltb_spec 0 (f_ref x - 1)).
  { rewrite release_cpu1 in H. injection H as <- <-. exists l. eapply ftable_update; [exact Hok|exact Hx|done|done| | |cbn; lia].
    - intros h Hh. rewrite Hr, decide_False by done. lia.
    - cbn. rewrite Hr, decide_True by done. lia. }
  pose proof (put_file_lookup f (set_fref (λ r, r - 1)) s x Hx) as Hx1.
  erewrite bind_eq in H; [|by eapply upd_file_eq]. cbv beta in H. rewrite put_file_twice in H.
  pose proof (put_file_lookup f (λ y, set_fref (λ _, 0) (set_fref (λ r, r - 1) y)) s x Hx) as Hx2.
  erewrite bind_eq in H; [|by eapply upd_file_eq]. cbv beta in H. rewrite put_file_twice in H.
  erewrite bind_eq in H; [|apply release_cpu1]. cbv beta in H.
  change (λ y, set_ftype FD_NONE (set_fref (λ _, 0) (set_fref (λ r, r - 1) y))) with closed_file in H.
  assert (∀ s1, s1.1 = s.1 → files s1 = alter closed_file f (files s) → pipes s1 = pipes s → f_type x ≠ FD_PIPE →
    fok s1 own' l) as Hrest.
  { intros s1 -> -> -> Hnp. eapply ftable_update; [exact Hok|exact Hx| |done| | |done].
    - intros p w. split; [by intros [? _]|]. by intros [? _].
    - intros h Hh. rewrite Hr, decide_False by done. lia.
    - cbn. rewrite Hr, decide_True by done. lia. }
  destruct (f_type x) eqn:Hty.
  - injection H as <- <-. exists l. by apply Hrest.
  - assert (pipe_end (f_pipe x) (f_writable x) x) as Hend by done.
    destruct (ft_pipe _ _ _ _ _ Hok _ _ _ _ Hx Hend) as (_ & pp & Hpp & _).
    destruct (ft_page _ _ _ _ _ Hok _ _ Hpp) as [Hpg Hnl].
    destruct (pipeclose_eq (put_file f closed_file s) (f_pipe x) (f_writable x) pp l Hpp (ft_mem _ _ _ _ _ Hok) Hpg Hnl)
      as (m' & Hm' & E). rewrite E in H. injection H as <- <-. eexists.
    eapply ftable_close_end; [exact Hok|exact Hown|exact Hx|lia|exact Hend|exact Hpp|exact Hm'|done].
  - exists l. assert (∀ A (k : M fstate A), preserves (λ s1 s2 : Mem * fdstate, s2.1 = s1.1 ∧ files s2 = files s1 ∧ pipes s2 = pipes s1) (ffs k)) as Hffs.
    { intros A k c s1. unfold ffs, lift. by destruct (k c (fd_fs s1.2)). }
    match type of H with ?k c0 ?s0 = _ => assert (preserves (λ s1 s2 : Mem * fdstate, s2.1 = s1.1 ∧ files s2 = files s1 ∧ pipes s2 = pipes s1) k) as Hk end.
    { assert (PreOrder (λ s1 s2 : Mem * fdstate, s2.1 = s1.1 ∧ files s2 = files s1 ∧ pipes s2 = pipes s1)).
      { split; [done|]. intros ??? (? & ? & ?) (? & ? & ?). repeat split; congruence. }
      keep. }
    specialize (Hk c0 (put_file f closed_file s)). rewrite H in Hk. destruct Hk as (E1 & E2 & E3).
    by apply Hrest.
Qed.
End ops.
