(* ===== verification/FileProps.v ===== *)
(** The life of open files and pipes. *)
From stdpp Require Import base list numbers strings gmap relations.
From Stdlib Require Import ZArith Lia.
From S2P Require Import Prelude Params Machine Spinlock Sleeplock Bio Log Fs Pipe Kalloc KallocSpec Vm Proc File FileSpec.
Local Open Scope Z_scope.
Local Open Scope xv6_scope.

(** * Reading and writing *)

Definition flags (pp : pipe) : bool * bool := (p_readopen pp, p_writeopen pp).
Definition same_flags (p q : pipe) : Prop := flags q = flags p.
#[global] Instance same_flags_preorder : PreOrder same_flags.
Proof. split; [done|]. intros ??? E1 E2. unfold same_flags in *. congruence. Qed.

Lemma pipewrite_loop_flags killed n addr i p : same_flags p (pipewrite_loop killed n addr i p).1.
Proof.
  revert i p. induction addr as [|b addr IH]; intros i p; cbn [pipewrite_loop]; [done|].
  destruct (_ =? _); [by destruct (_ || _)|]. by etrans; [|apply IH].
Qed.
Lemma piperead_copy_flags n p : same_flags p (piperead_copy n p).1.
Proof.
  revert p. induction n as [|n IH]; intros p; cbn [piperead_copy]; [done|]. destruct (_ =? _); [done|].
  specialize (IH (Pipe (p_data p) (u32 (p_nread p + 1)) (p_nwrite p) (p_readopen p) (p_writeopen p))).
  destruct (piperead_copy n _) as [p' l]. exact IH.
Qed.

Section locks.
Context {S : Type} (R : S → S → Prop) `{!PreOrder R}.
Lemma preserves_getcpu : preserves R getcpu.
Proof using Type*. by apply preserves_refl. Qed.
Lemma preserves_setcpu f : preserves R (setcpu f).
Proof using Type*. by apply preserves_refl. Qed.
Hint Resolve preserves_getcpu preserves_setcpu : preserves.
Lemma preserves_acquire lk : preserves R (acquire lk).
Proof using Type*. unfold acquire, holding, pushcli, popcli, set_if, set_intena, set_ncli, set_held. keep. Qed.
Lemma preserves_release lk : preserves R (release lk).
Proof using Type*. unfold release, holding, pushcli, popcli, set_if, set_intena, set_ncli, set_held. keep. Qed.
Hint Resolve preserves_acquire preserves_release : preserves.
Lemma preserves_wakeup ch : preserves R (Spinlock.wakeup ch).
Proof using Type*. unfold Spinlock.wakeup. keep. Qed.
Lemma preserves_sleep ch lk : preserves R (Spinlock.sleep ch lk).
Proof using Type*. unfold Spinlock.sleep. keep. Qed.
End locks.
#[export] Hint Resolve preserves_acquire preserves_release preserves_wakeup preserves_sleep : preserves.

Lemma pipewrite_flags p killed src : preserves same_flags (pipewrite p killed src).
Proof.
  unfold pipewrite. apply preserves_bind; [apply _|keep|]. intros _ c pp. unfold pipewrite_at, bind at 1. cbn [gets the_pipe pipe_alone].
  pose proof (pipewrite_loop_flags killed (Z.of_nat (length src)) (drop 0 src) 0 pp) as Hfl.
  destruct (pipewrite_loop _ _ _ _ _) as [p' r]. cbn [fst] in Hfl. unfold bind at 1. cbn [modify Pipe.set_pipe save_i pipe_alone].
  match goal with |- match ?m c p' with _ => _ end => assert (preserves same_flags m) as Hm end.
  { destruct r; keep. }
  specialize (Hm c p'). destruct (match r with _ => _ end c p'); try done; by etrans.
Qed.
Lemma piperead_flags p killed n : preserves same_flags (piperead p killed n).
Proof.
  unfold piperead. apply preserves_bind; [apply _|keep|]. intros _ c pp. unfold piperead_at, bind at 1. cbn [gets the_pipe pipe_alone].
  assert (same_flags pp (piperead_body killed (Z.to_nat n) pp).1) as Hfl.
  { unfold piperead_body. destruct (_ && _); [by destruct killed|]. pose proof (piperead_copy_flags (Z.to_nat n) pp) as H.
    by destruct (piperead_copy (Z.to_nat n) pp). }
  destruct (piperead_body _ _ _) as [p' [r l]]. cbn [fst] in Hfl. unfold bind at 1. cbn [modify Pipe.set_pipe save_i pipe_alone].
  match goal with |- match ?m c p' with _ => _ end => assert (preserves same_flags m) as Hm end.
  { destruct r; keep. }
  specialize (Hm c p'). destruct (match r with _ => _ end c p'); try done; by etrans.
Qed.

Section table.
Context {Mem : Type} `{!ProcMem Mem} `{!PageLaws Mem} (dsw : devsw) (pid : Z).
Implicit Types s : Mem * fdstate.
Abbreviation files s := (fd_file s.2).
Abbreviation pipes s := (fd_pipe s.2).
Abbreviation c0 := (cpu0 pid).
Abbreviation fok s own l := (ftable_ok s.1 (files s) (pipes s) own l).

(** The same files, up to their offsets, and the same pipes, up to what is in them. *)
Definition same_table s s' : Prop :=
  s'.1 = s.1 ∧ (∀ f, set_off (λ _, 0) <$> files s' !! f = set_off (λ _, 0) <$> files s !! f) ∧
  (∀ p, flags <$> pipes s' !! p = flags <$> pipes s !! p).
#[local] Instance same_table_preorder : PreOrder same_table.
Proof.
  split; [done|]. intros ??? (A1 & A2 & A3) (B1 & B2 & B3). split; [congruence|].
  split; intros i; [by rewrite B2, A2|by rewrite B3, A3].
Qed.

Lemma same_table_ok s s' own l : same_table s s' → fok s own l → fok s' own l.
Proof.
  intros (E1 & E2 & E3) [H1 H2 H3 H4 H5 H6 H7 H8 H9]. rewrite E1.
  assert (∀ f x', files s' !! f = Some x' → ∃ x, files s !! f = Some x ∧ set_off (λ _, 0) x' = set_off (λ _, 0) x) as Hb.
  { intros f x' Hx. specialize (E2 f). rewrite Hx in E2. destruct (files s !! f) as [x|]; [|done].
    cbn [fmap option_fmap option_map] in E2. exists x. split; [done|congruence]. }
  assert (∀ f x, files s !! f = Some x → ∃ x', files s' !! f = Some x' ∧ set_off (λ _, 0) x' = set_off (λ _, 0) x) as Hf.
  { intros f x Hx. specialize (E2 f). rewrite Hx in E2. destruct (files s' !! f) as [x'|]; [|done].
    cbn [fmap option_fmap option_map] in E2. exists x'. split; [done|congruence]. }
  assert (∀ x x', set_off (λ _, 0) x' = set_off (λ _, 0) x → f_type x' = f_type x ∧ f_ref x' = f_ref x ∧
    f_readable x' = f_readable x ∧ ∀ p w, pipe_end p w x' ↔ pipe_end p w x) as Hs.
  { intros [] [] [= -> -> -> -> -> ->]. done. }
  assert (∀ p pp', pipes s' !! p = Some pp' → ∃ pp, pipes s !! p = Some pp ∧ ∀ w, open_end w pp' = open_end w pp) as Hpb.
  { intros p pp' Hp. specialize (E3 p). rewrite Hp in E3. destruct (pipes s !! p) as [pp|]; [|done].
    cbn in E3. exists pp. split; [done|]. unfold flags in E3. injection E3 as A B. intros []; cbn; congruence. }
  assert (∀ p pp, pipes s !! p = Some pp → ∃ pp', pipes s' !! p = Some pp' ∧ ∀ w, open_end w pp' = open_end w pp) as Hpf.
  { intros p pp Hp. specialize (E3 p). rewrite Hp in E3. destruct (pipes s' !! p) as [pp'|]; [|done].
    cbn in E3. exists pp'. split; [done|]. unfold flags in E3. injection E3 as A B. intros []; cbn; congruence. }
  split.
  - intros f x' Hx. destruct (Hb _ _ Hx) as (x & Hx0 & E). destruct (Hs _ _ E) as (_ & -> & _). eauto.
  - intros f Hin. destruct (H2 _ Hin) as [x Hx]. destruct (Hf _ _ Hx) as (x' & Hx' & _). eauto.
  - intros f x' Hx. destruct (Hb _ _ Hx) as (x & Hx0 & E). destruct (Hs _ _ E) as (-> & -> & _). eauto.
  - intros f x' p w Hx Hp. destruct (Hb _ _ Hx) as (x & Hx0 & E). destruct (Hs _ _ E) as (_ & _ & -> & Hpe).
    apply Hpe in Hp. destruct (H4 _ _ _ _ Hx0 Hp) as (? & pp & Hpp & Ho). destruct (Hpf _ _ Hpp) as (pp' & Hpp' & Eo).
    split; [done|]. exists pp'. by rewrite Eo.
  - intros p pp' w Hpp Ho. destruct (Hpb _ _ Hpp) as (pp & Hpp0 & Eo). rewrite Eo in Ho.
    destruct (H5 _ _ _ Hpp0 Ho) as (f & x & Hx & Hp). destruct (Hf _ _ Hx) as (x' & Hx' & E).
    exists f, x'. split; [done|]. destruct (Hs _ _ E) as (_ & _ & _ & Hpe). by apply Hpe.
  - intros f g x' y' p w Hx Hy Hpx Hpy. destruct (Hb _ _ Hx) as (x & Hx0 & Ex). destruct (Hb _ _ Hy) as (y & Hy0 & Ey).
    apply (H6 f g x y p w); [done|done| |]; [by apply (Hs _ _ Ex)|by apply (Hs _ _ Ey)].
  - intros p pp' Hpp. destruct (Hpb _ _ Hpp) as (pp & Hpp0 & Eo). destruct (H7 _ _ Hpp0) as [w Hw]. exists w. by rewrite Eo.
  - done.
  - intros p pp' Hpp. destruct (Hpb _ _ Hpp) as (pp & Hpp0 & _). eauto.
Qed.

Lemma ffs_same {A} (k : M fstate A) : preserves same_table (ffs k : M (Mem * fdstate) A).
Proof. intros c s. unfold ffs, lift. by destruct (k c (fd_fs s.2)). Qed.
Lemma filep_same f : preserves same_table (filep f : M (Mem * fdstate) file).
Proof. unfold filep. keep. Qed.
Lemma upd_off_same f g : preserves same_table (upd_file f (set_off g) : M (Mem * fdstate) unit).
Proof.
  unfold upd_file. apply preserves_bind; [apply _|apply filep_same|]. intros _ c s. cbn. split; [done|]. split; [|done].
  intros i. cbn. destruct (decide (f = i)) as [->|]; [|by rewrite list_lookup_alter_ne].
  rewrite list_lookup_alter_eq. by destruct (files s !! i).
Qed.
Lemma on_pipe_same {A} p (k : M pipe A) :
  preserves same_flags k → preserves same_table (on_pipe p k : M (Mem * fdstate) A).
Proof.
  intros Hk c s. unfold on_pipe, bind. cbn. destruct (pipes s !! p) as [pp|] eqn:Hp; [|done]. cbn. unfold lift.
  specialize (Hk c pp).
  assert (∀ pp', same_flags pp pp' → same_table s (s.1, FdState (fd_fs s.2) (files s) (<[p := pp']> (pipes s)))) as Hs.
  { intros pp' E. split; [done|]. split; [done|]. intros q. cbn. rewrite lookup_insert. case_decide; [|done]. subst q.
    rewrite Hp. cbn. by rewrite E. }
  destruct (k c pp); try done; by apply Hs.
Qed.
Hint Resolve ffs_same filep_same upd_off_same on_pipe_same pipewrite_flags piperead_flags : preserves.

Lemma fileread_same killed f n : preserves same_table (fileread dsw killed f n : M (Mem * fdstate) _).
Proof.
  unfold fileread. apply preserves_bind; [apply _|apply filep_same|]. intros x. destruct (negb _); [keep|].
  destruct (f_type x); keep.
Qed.
Lemma filewrite_loop_same fuel f src : preserves same_table (filewrite_loop dsw fuel f src : M (Mem * fdstate) _).
Proof.
  revert src. induction fuel as [|fuel IH]; intros src; cbn [filewrite_loop]; [done|]. destruct src; keep.
Qed.
Lemma filewrite_same killed f src : preserves same_table (filewrite dsw killed f src : M (Mem * fdstate) _).
Proof.
  pose proof filewrite_loop_same. unfold filewrite. cbv zeta. apply preserves_bind; [apply _|apply filep_same|].
  intros x. destruct (negb _); [keep|]. destruct (f_type x); keep.
Qed.

(** * pipealloc *)

Lemma fileclose_fresh s f x :
  files s !! f = Some x → f_ref x = 1 → f_type x = FD_NONE → fileclose f c0 s = Ret tt c0 (put_file f closed_file s).
Proof.
  intros Hx Href Hty. unfold fileclose. erewrite bind_eq; [|apply acquire_cpu0]. cbv beta.
  erewrite bind_eq; [|by apply filep_eq]. cbv beta. rewrite Href. cbn [Z.ltb when]. erewrite bind_eq; [|done]. cbv beta.
  erewrite bind_eq; [|by eapply upd_file_eq]. cbv beta. change (0 <? 1 - 1) with false. cbv iota.
  pose proof (put_file_lookup f (set_fref (λ r, r - 1)) s x Hx) as Hx1.
  erewrite bind_eq; [|by eapply upd_file_eq]. cbv beta. rewrite put_file_twice.
  pose proof (put_file_lookup f (λ y, set_fref (λ _, 0) (set_fref (λ r, r - 1) y)) s x Hx) as Hx2.
  erewrite bind_eq; [|by eapply upd_file_eq]. cbv beta. rewrite put_file_twice.
  erewrite bind_eq; [|apply release_cpu1]. cbv beta. by rewrite Hty.
Qed.

Lemma alter_comm {A} (g h : A → A) (i j : nat) (l : list A) : i ≠ j → alter g i (alter h j l) = alter h j (alter g i l).
Proof.
  intros Hne. revert i j Hne. induction l as [|x l IH]; intros [|i] [|j] Hne; cbn; try done. f_equal. apply IH. congruence.
Qed.

(** Opened and closed again: nothing happened. *)
Lemma put_file_undo s f x :
  files s !! f = Some x → f_ref x = 0 → f_type x = FD_NONE →
  put_file f closed_file (put_file f (set_fref (λ _, 1)) s) = s.
Proof.
  intros Hx Href Hty. rewrite put_file_twice. destruct s as [m [fs t P]]. unfold put_file. cbn in *. do 2 f_equal.
  apply list_eq. intros i. destruct (decide (f = i)) as [->|]; [|by rewrite list_lookup_alter_ne].
  rewrite list_lookup_alter_eq, Hx. cbn. f_equal. destruct x. cbn in *. by subst.
Qed.

(** The outcome of [pipealloc]. *)
Lemma pipealloc_cases junk s own l :
  fok s own l →
  (∃ f0 f1 v l' m' x0 x1, l = v :: l' ∧ pl_free m' l' ∧ f0 ≠ f1 ∧ files s !! f0 = Some x0 ∧ files s !! f1 = Some x1 ∧
     f_ref x0 = 0 ∧ f_ref x1 = 0 ∧
     pipealloc junk c0 s = Ret (Some (f0, f1)) c0
       (m', FdState (fd_fs s.2)
              (alter (set_pipe v false true) f1 (alter (set_pipe v true false) f0
                 (alter (set_fref (λ _, 1)) f1 (alter (set_fref (λ _, 1)) f0 (files s)))))
              (<[v := pipe_new junk]> (pipes s)))) ∨
  pipealloc junk c0 s = Ret None c0 s.
Proof.
  intros Hok. unfold pipealloc. pose proof (filealloc_eq pid s) as H0.
  destruct (find_file (files s) 0) as [f0|] eqn:Hf0; [|right; by erewrite bind_eq; [|exact H0]].
  destruct H0 as ((x0 & Hx0 & Hr0) & H0). pose proof (ft_none _ _ _ _ _ Hok _ _ Hx0 Hr0) as Ht0.
  erewrite bind_eq; [|exact H0]. cbv beta iota. set (s1 := put_file f0 (set_fref (λ _, 1)) s).
  assert (files s1 !! f0 = Some (set_fref (λ _, 1) x0)) as Hs1 by (by apply put_file_lookup).
  pose proof (filealloc_eq pid s1) as H1. destruct (find_file (files s1) 0) as [f1|] eqn:Hf1.
  2:{ right. erewrite bind_eq; [|exact H1]. cbv beta iota. erewrite bind_eq; [|by eapply fileclose_fresh].
      cbv beta. unfold s1. by rewrite (put_file_undo s f0 x0). }
  destruct H1 as ((x1 & Hx1 & Hr1) & H1).
  assert (f0 ≠ f1) as Hne by (intros <-; rewrite Hs1 in Hx1; injection Hx1 as <-; done).
  assert (files s !! f1 = Some x1) as Hx1'.
  { unfold s1 in Hx1. cbn in Hx1. by rewrite list_lookup_alter_ne in Hx1. }
  pose proof (ft_none _ _ _ _ _ Hok _ _ Hx1' Hr1) as Ht1.
  erewrite bind_eq; [|exact H1]. cbv beta iota. set (s2 := put_file f1 (set_fref (λ _, 1)) s1).
  pose proof (pl_kalloc pid s.1 l (ft_mem _ _ _ _ _ Hok)) as Hk. destruct l as [|v l'].
  - right. assert (fmem pm_kalloc c0 s2 = Ret 0 c0 s2) as Hk2 by (unfold fmem, lift; cbn [s2 s1 put_file fst]; by rewrite Hk).
    erewrite bind_eq; [|exact Hk2]. cbv beta. cbn [Z.eqb].
    assert (files s2 !! f0 = Some (set_fref (λ _, 1) x0)) as Hs20 by (unfold s2; cbn; by rewrite list_lookup_alter_ne).
    erewrite bind_eq; [|by eapply fileclose_fresh]. cbv beta.
    set (s3 := put_file f0 closed_file s2).
    assert (s3 = put_file f1 (set_fref (λ _, 1)) s) as ->.
    { rewrite <- (put_file_undo s f0 x0 Hx0 Hr0 Ht0) at 1. unfold s3, s2, s1, put_file. cbn. do 2 f_equal.
      by rewrite alter_comm by done. }
    erewrite bind_eq; [|eapply fileclose_fresh; [by apply put_file_lookup|done|done]].
    cbv beta. by rewrite (put_file_undo s f1 x1).
  - destruct Hk as (m' & Hk & Hm'). left. exists f0, f1, v, l', m', x0, x1.
    assert (v ≠ 0) as Hv.
    { destruct (pl_nodup _ _ (ft_mem _ _ _ _ _ Hok)) as [_ [Hp _]%Forall_cons]. intros ->. by apply pl_nonzero in Hp. }
    assert (fmem pm_kalloc c0 s2 = Ret v c0 (m', s2.2)) as Hk2 by (unfold fmem, lift; cbn [s2 s1 put_file fst]; by rewrite Hk).
    do 7 (split; [done|]). erewrite bind_eq; [|exact Hk2]. cbv beta. destruct (Z.eqb_spec v 0); [done|].
    erewrite bind_eq; [|done]. cbv beta.
    erewrite bind_eq; [|eapply upd_file_eq; cbn; by rewrite list_lookup_alter_ne, list_lookup_alter_eq, Hx0].
    cbv beta. erewrite bind_eq; [|eapply upd_file_eq; cbn; rewrite list_lookup_alter_ne by done;
      rewrite list_lookup_alter_eq, list_lookup_alter_ne, Hx1' by done; done]. done.
Qed.

Lemma pipealloc_ok junk s own l r c' s' :
  fok s own l → pipealloc junk c0 s = Ret r c' s' →
  ∃ l', fok s' (match r with Some (f0, f1) => f1 :: f0 :: own | None => own end) l'.
Proof.
  intros Hok H. destruct (pipealloc_cases junk s own l Hok) as [(f0 & f1 & v & l' & m' & x0 & x1 & -> & Hm' & Hne & Hx0 & Hx1 & Hr0 & Hr1 & E)|E].
  - rewrite E in H. injection H as <- <- <-. exists l'.
    pose proof (ft_none _ _ _ _ _ Hok _ _ Hx0 Hr0) as Ht0. pose proof (ft_none _ _ _ _ _ Hok _ _ Hx1 Hr1) as Ht1.
    pose proof (filealloc_ok s own _ f0 x0 Hok Hx0 Hr0) as Hok1.
    assert (files (put_file f0 (set_fref (λ _, 1)) s) !! f1 = Some x1) as Hx1' by (cbn; by rewrite list_lookup_alter_ne).
    pose proof (filealloc_ok _ _ _ f1 x1 Hok1 Hx1' Hr1) as Hok2. cbn in Hok2.
    eapply (ftable_new_pipe s.1 m' _ _ _ _ v junk f0 f1 (set_fref (λ _, 1) x0) (set_fref (λ _, 1) x1)); try done.
    + by rewrite list_lookup_alter_ne, list_lookup_alter_eq, Hx0.
    + by rewrite list_lookup_alter_eq, list_lookup_alter_ne, Hx1.
    + right. by left.
    + by left.
  - rewrite E in H. injection H as <- <- <-. eauto.
Qed.

(** * Processes at work on files

    The state, and the references to files that processes hold (entries of their [ofile]). *)
Inductive fdstep : (Mem * fdstate) * list nat → (Mem * fdstate) * list nat → Prop :=
| fd_alloc s own f c' s' : filealloc c0 s = Ret (Some f) c' s' → fdstep (s, own) (s', f :: own)
| fd_open s own f x ip r w c' s' :    (* [sys_open], after [filealloc] *)
    f ∈ own → files s !! f = Some x → f_type x = FD_NONE →
    upd_file f (set_inode ip r w) c0 s = Ret tt c' s' → fdstep (s, own) (s', own)
| fd_pipes s own junk f0 f1 c' s' :
    pipealloc junk c0 s = Ret (Some (f0, f1)) c' s' → fdstep (s, own) (s', f1 :: f0 :: own)
| fd_no_pipe s own junk c' s' : pipealloc junk c0 s = Ret None c' s' → fdstep (s, own) (s', own)
| fd_dup s own f c' s' : f ∈ own → filedup f c0 s = Ret f c' s' → fdstep (s, own) (s', f :: own)
| fd_close s own own' f c' s' :
    own ≡ₚ f :: own' → fileclose f c0 s = Ret tt c' s' → fdstep (s, own) (s', own')
| fd_read s own killed f n c r c' s' : fileread dsw killed f n c s = Ret r c' s' → fdstep (s, own) (s', own)
| fd_read_sleep s own killed f n c ch c' s' :
    fileread dsw killed f n c s = Sleep ch c' s' → fdstep (s, own) (s', own)
| fd_write s own killed f src c r c' s' : filewrite dsw killed f src c s = Ret r c' s' → fdstep (s, own) (s', own)
| fd_write_sleep s own killed f src c ch c' s' :
    filewrite dsw killed f src c s = Sleep ch c' s' → fdstep (s, own) (s', own).

Lemma fdstep_ok x y : fdstep x y → (∃ l, fok x.1 x.2 l) → ∃ l, fok y.1 y.2 l.
Proof.
  intros Hst [l Hok]. destruct Hst; cbn [fst snd] in *.
  - pose proof (filealloc_eq pid s) as E. destruct (find_file (files s) 0) as [f'|]; [|congruence].
    destruct E as ((x & Hx & Hr) & E). rewrite E in H. injection H as <- <- <-. exists l. by eapply filealloc_ok.
  - rewrite (upd_file_eq _ _ _ _ _ H0) in H2. injection H2 as <- <-. exists l.
    pose proof (ft_ref _ _ _ _ _ Hok _ _ H0) as Hr. apply refs_pos in H.
    eapply ftable_update; [exact Hok|exact H0| |by rewrite H1|done|done|].
    + intros p w'. split; [by intros [? _]|]. intros [E _]. congruence.
    + cbn. lia.
  - by eapply (pipealloc_ok junk s own l (Some (f0, f1))).
  - by eapply (pipealloc_ok junk s own l None).
  - destruct (ft_own _ _ _ _ _ Hok _ H) as [x Hx]. pose proof (ft_ref _ _ _ _ _ Hok _ _ Hx) as Hr. apply refs_pos in H.
    rewrite (filedup_eq pid s f x Hx) in H0 by lia. injection H0 as <- <-. exists l. eapply filedup_ok; [done|done|lia].
  - by eapply fileclose_ok.
  - exists l. pose proof (fileread_same killed f n c s) as Hs. rewrite H in Hs. by eapply same_table_ok.
  - exists l. pose proof (fileread_same killed f n c s) as Hs. rewrite H in Hs. by eapply same_table_ok.
  - exists l. pose proof (filewrite_same killed f src c s) as Hs. rewrite H in Hs. by eapply same_table_ok.
  - exists l. pose proof (filewrite_same killed f src c s) as Hs. rewrite H in Hs. by eapply same_table_ok.
Qed.

(** The table at boot. *)
Definition ftable0 (m : Mem) (fs : fstate) : Mem * fdstate := (m, FdState fs (replicate nfile file_zero) ∅).

Lemma ftable0_ok m fs l : pl_free m l → fok (ftable0 m fs) [] l.
Proof.
  intros Hl. split; cbn; try done.
  - intros f x [-> _]%lookup_replicate. done.
  - by intros f []%not_elem_of_nil.
  - by intros f x [-> _]%lookup_replicate.
  - by intros f x p w [-> _]%lookup_replicate [].
  - intros f g x y p w [-> _]%lookup_replicate _ []. done.
Qed.

Lemma fdsteps_ok m fs l x : pl_free m l → rtc fdstep (ftable0 m fs, []) x → ∃ l', fok x.1 x.2 l'.
Proof.
  intros Hl Hr. assert (∃ l, fok (ftable0 m fs, @nil nat).1 (ftable0 m fs, @nil nat).2 l) as Hok
    by (exists l; by apply ftable0_ok).
  clear Hl. induction Hr as [|x y z Hst _ IH]; [done|]. by eapply IH, fdstep_ok.
Qed.

(** C7. Whatever processes do with files, the reference count of every file is the number
    of references they hold; a pipe exists exactly as long as a reference to one of its
    ends is held, its [readopen] and [writeopen] say for each end whether it is held, and
    its page is not in the free list. *)
Theorem file_refs_exact m fs l s own :
  pl_free m l → rtc fdstep (ftable0 m fs, []) (s, own) →
  (∀ f x, files s !! f = Some x → f_ref x = refs own f) ∧
  (∀ p w, (∃ pp, pipes s !! p = Some pp ∧ open_end w pp = true) ↔
     ∃ f x, f ∈ own ∧ files s !! f = Some x ∧ pipe_end p w x) ∧
  (∀ p, is_Some (pipes s !! p) ↔ ∃ f x w, f ∈ own ∧ files s !! f = Some x ∧ pipe_end p w x) ∧
  ∃ l', pl_free s.1 l' ∧ ∀ p, is_Some (pipes s !! p) → p ∉ l'.
Proof.
  intros Hl Hr. destruct (fdsteps_ok _ _ _ _ Hl Hr) as [l' [H1 H2 H3 H4 H5 H6 H7 H8 H9]]. cbn [fst snd] in *.
  assert (∀ f x p w, files s !! f = Some x → pipe_end p w x → f ∈ own) as Hheld.
  { intros f x p w Hx [Hty _]. apply refs_pos. destruct (decide (f_ref x = 0)) as [E|].
    - pose proof (H3 _ _ Hx E). congruence.
    - pose proof (refs_nonneg own f). rewrite (H1 _ _ Hx) in *. lia. }
  split; [done|]. split; [|split].
  - intros p w. split.
    + intros (pp & Hp & Ho). destruct (H5 _ _ _ Hp Ho) as (f & x & Hx & He). eauto 6.
    + intros (f & x & _ & Hx & He). destruct (H4 _ _ _ _ Hx He) as (_ & pp & ? & ?). eauto.
  - intros p. split.
    + intros [pp Hp]. destruct (H7 _ _ Hp) as [w Ho]. destruct (H5 _ _ _ Hp Ho) as (f & x & Hx & He). eauto 8.
    + intros (f & x & w & _ & Hx & He). destruct (H4 _ _ _ _ Hx He) as (_ & pp & ? & _). eauto.
  - exists l'. split; [done|]. intros p [pp Hp]. by apply (H9 _ _ Hp).
Qed.

(** [pipealloc] makes a pipe or does nothing: it returns two different files that were
    free, one open for reading and one for writing, on a new empty pipe in a page of the
    allocator; or, short of a file or a page, it fails and leaves everything as it was. *)
Theorem pipealloc_all_or_nothing m fs l s own junk :
  pl_free m l → rtc fdstep (ftable0 m fs, []) (s, own) →
  (∃ f0 f1 p s', pipealloc junk c0 s = Ret (Some (f0, f1)) c0 s' ∧ f0 ≠ f1 ∧ f0 ∉ own ∧ f1 ∉ own ∧
     pipes s !! p = None ∧ pipes s' = <[p := pipe_new junk]> (pipes s) ∧ fd_fs s'.2 = fd_fs s.2 ∧
     (∃ ip off, files s' !! f0 = Some (File FD_PIPE 1 true false p ip off)) ∧
     (∃ ip off, files s' !! f1 = Some (File FD_PIPE 1 false true p ip off)) ∧
     ∀ f, f ≠ f0 → f ≠ f1 → files s' !! f = files s !! f) ∨
  pipealloc junk c0 s = Ret None c0 s.
Proof.
  intros Hl Hr. destruct (fdsteps_ok _ _ _ _ Hl Hr) as [l' Hok]. cbn [fst snd] in *.
  destruct (pipealloc_cases junk s own l' Hok) as [(f0 & f1 & v & l2 & m' & x0 & x1 & -> & Hm' & Hne & Hx0 & Hx1 & Hr0 & Hr1 & E)|E];
    [left|by right].
  assert (∀ f x, files s !! f = Some x → f_ref x = 0 → f ∉ own) as Hfree.
  { intros f x Hx E0 Hin%refs_pos. rewrite (ft_ref _ _ _ _ _ Hok _ _ Hx) in E0. lia. }
  exists f0, f1, v. eexists. split; [exact E|]. split; [done|]. split; [by eapply Hfree|]. split; [by eapply Hfree|].
  split.
  { apply eq_None_not_Some. intros [pp Hpp]. apply (ft_page _ _ _ _ _ Hok) in Hpp as [_ Hv]. apply Hv. by left. }
  split; [done|]. split; [done|]. cbn [snd fd_file]. split; [|split].
  - exists (f_ip x0), (f_off x0). rewrite list_lookup_alter_ne, list_lookup_alter_eq, list_lookup_alter_ne,
      list_lookup_alter_eq, Hx0 by done. done.
  - exists (f_ip x1), (f_off x1). rewrite list_lookup_alter_eq, list_lookup_alter_ne, list_lookup_alter_eq,
      list_lookup_alter_ne, Hx1 by done. done.
  - intros f ??. by rewrite !list_lookup_alter_ne.
Qed.
End table.

(** * Concrete runs

    An allocator that is just its list of free pages. *)
Section demo.
#[local] Instance list_mem : ProcMem (list Z) := {
  pm_kalloc := λ c l, match l with [] => Ret 0 c [] | v :: l' => Ret v c l' end;
  pm_kfree v := λ c l, Ret tt c (v :: l);
  pm_setupkvm := ret 0;
  pm_inituvm _ _ := ret tt;
  pm_copyuvm _ _ := ret 0;
  pm_freevm _ := ret tt;
  pm_allocuvm _ _ _ := ret 0;
  pm_deallocuvm _ _ _ := ret 0;
}.
#[local] Instance list_pages : PageLaws (list Z).
Proof.
  refine {| pl_free := λ s l, s = l ∧ NoDup l ∧ Forall (λ v, v ≠ 0) l; pl_page := λ v, v ≠ 0 |}.
  - auto.
  - by intros s l (_ & ? & ?).
  - intros pid s [|v l] (-> & Hn & Hf); [done|]. exists l. split; [done|].
    apply NoDup_cons in Hn as [_ ?]. apply Forall_cons in Hf as [_ ?]. done.
  - intros pid s l v (-> & Hn & Hf) Hv Hl. exists (v :: l). split; [done|].
    split; [done|]. split; [by apply NoDup_cons|by apply Forall_cons].
Defined.

Definition no_dev : devsw := Devsw (λ _, None) (λ _, None).
Definition demo_fs : fstate := FState (LState (BState [] (Disk [] [])) log0) (Superblock 0 0 0 0 0 0 0) [].
Definition demo_ft : list Z * fdstate := ftable0 [8192] demo_fs.
Definition run {S A} (m : M S A) (s : S) : S := match m (cpu0 1) s with Ret _ _ s' => s' | _ => s end.
Definition demo_ft1 : list Z * fdstate := run (pipealloc [7]) demo_ft.
Definition demo_ft2 : list Z * fdstate := run (filedup 1) demo_ft1.
Definition demo_ft3 : list Z * fdstate := run (fileclose 0) demo_ft2.

(** Make a pipe, duplicate its writing end, close its reading end. *)
Lemma demo_ft_run : rtc (fdstep no_dev 1) (demo_ft, []) (demo_ft3, [1%nat; 1%nat]).
Proof.
  apply rtc_l with (demo_ft1, [1%nat; 0%nat]); [eapply (fd_pipes no_dev 1 demo_ft [] [7] 0 1); vm_compute; reflexivity|].
  apply rtc_l with (demo_ft2, [1%nat; 1%nat; 0%nat]).
  { eapply (fd_dup no_dev 1 demo_ft1 _ 1); [by left|vm_compute; reflexivity]. }
  apply rtc_once. eapply (fd_close no_dev 1 demo_ft2 _ [1%nat; 1%nat] 0); [|vm_compute; reflexivity].
  by rewrite (Permutation_app_comm [1%nat; 1%nat] [0%nat]).
Qed.
Lemma demo_pages : pl_free [8192] [8192].
Proof. split; [done|]. split; [apply NoDup_singleton|by apply Forall_singleton]. Qed.

Lemma file_refs_exact_witness :
  (∃ pp, fd_pipe demo_ft3.2 !! 8192 = Some pp ∧ open_end true pp = true) ∧
  ¬ (∃ pp, fd_pipe demo_ft3.2 !! 8192 = Some pp ∧ open_end false pp = true).
Proof.
  destruct (file_refs_exact no_dev 1 [8192] demo_fs [8192] demo_ft3 [1%nat; 1%nat] demo_pages demo_ft_run) as (_ & H & _).
  split.
  - apply H. exists 1%nat, (File FD_PIPE 2 false true 8192 None 0). split; [by left|]. split; [vm_compute; reflexivity|done].
  - intros (f & x & Hf & Hx & He)%H. assert (f = 1%nat) as -> by (clear -Hf; set_solver).
    vm_compute in Hx. injection Hx as <-. by destruct He as (_ & _ & ?).
Defined.

Lemma pipealloc_all_or_nothing_witness : pipealloc [7] (cpu0 1) demo_ft3 = Ret None (cpu0 1) demo_ft3.
Proof.
  destruct (pipealloc_all_or_nothing no_dev 1 [8192] demo_fs [8192] demo_ft3 [1%nat; 1%nat] [7] demo_pages demo_ft_run)
    as [(f0 & f1 & p & s' & H & _)|H]; [|exact H].
  vm_compute in H. discriminate.
Defined.
End demo.
