(* ===== verification/Syscall.v ===== *)
(** System call arguments ([syscall.c]): what the kernel fetches from the memory of the
    process that calls it. *)
From stdpp Require Import base list numbers strings gmap.
From Stdlib Require Import ZArith Lia.
From S2P Require Import Prelude Params Machine Spinlock Kalloc Vm VmSpec VmProps Proc.
Local Open Scope Z_scope.
Local Open Scope xv6_scope.

(** * User memory

    While a process is in the kernel its page table is in use, and a pointer of the process
    can be followed; an address without a page faults. *)
Definition uload (pgdir va : Z) : M kstate Z := s <- get ;; deref (ubyte (k_mem s) pgdir va).
Definition ustore (pgdir va b : Z) : M kstate unit :=
  s <- get ;;
  e <- deref (mapping (k_mem s) pgdir va) ;;
  if Z.land e PTE_W =? 0 then fault
  else
    d <- get_page (frame e) ;;
    put_page (frame e) (<[Z.to_nat (va mod PGSIZE) := b]> d).

(** [n] bytes from [va] on. *)
Fixpoint uloads (pgdir va : Z) (n : nat) : M kstate (list Z) :=
  match n with
  | O => ret []
  | S n' => b <- uload pgdir va ;; l <- uloads pgdir (va + 1) n' ;; ret (b :: l)
  end.
Fixpoint ustores (pgdir va : Z) (l : list Z) : M kstate unit :=
  match l with
  | [] => ret tt
  | b :: l' => ustore pgdir va b ;; ustores pgdir (va + 1) l'
  end.

Section args.
Context {F : Type} (cur : nat).
Abbreviation MP := (M (pstate kstate F)).

(** [curproc->pgdir] *)
Definition umem {A} (f : Z → M kstate A) : MP A := p <- procp cur ;; pmem (f (p_pgdir p)).

(** Fetch the int at addr from the current process; [None] is the result -1. *)
Definition fetchint (addr : Z) : MP (option Z) :=
  p <- procp cur ;;
  if (p_sz p <=? addr) || (p_sz p <? u32 (addr + 4)) then ret None
  else l <- umem (λ d, uloads d addr 4) ;; ret (Some (s32 (le_val l))).

(** The loop of [fetchstr] from [s] on: the bytes before the NUL. *)
Fixpoint fetchstr_loop (pgdir : Z) (fuel : nat) (s ep : Z) : M kstate (option (list Z)) :=
  match fuel with
  | O => hang
  | S fuel' =>
      if ep <=? s then ret None
      else
        b <- uload pgdir s ;;
        if b =? 0 then ret (Some [])
        else r <- fetchstr_loop pgdir fuel' (s + 1) ep ;; ret (cons b <$> r)
  end.
(** Fetch the nul-terminated string at addr from the current process; the result is its
    length, [*pp] is [addr].  Each turn of the loop goes one byte on towards [sz]. *)
Definition fetchstr (addr : Z) : MP (option (list Z)) :=
  p <- procp cur ;;
  if p_sz p <=? addr then ret None
  else umem (λ d, fetchstr_loop d (S (Z.to_nat (p_sz p - addr))) addr (p_sz p)).

(** Fetch the nth 32-bit system call argument. *)
Definition argint (n : Z) : MP (option Z) :=
  p <- procp cur ;; fetchint (u32 (tf_esp (p_tf p) + 4 + 4 * n)).

(** Fetch the nth word-sized system call argument as a pointer to a block of memory of
    size bytes. *)
Definition argptr (n size : Z) : MP (option Z) :=
  p <- procp cur ;;
  i <- argint n ;;
  match i with
  | None => ret None
  | Some i =>
      if (size <? 0) || (p_sz p <=? u32 i) || (p_sz p <? u32 (u32 i + size)) then ret None
      else ret (Some (u32 i))
  end.

(** Fetch the nth word-sized system call argument as a string pointer: the string. *)
Definition argstr (n : Z) : MP (option (list Z)) :=
  a <- argint n ;;
  match a with None => ret None | Some a => fetchstr (u32 a) end.
End args.

(** * What they read *)

(** The process's memory: [bytes] from address 0 on, all of it mapped. *)
Definition user_mem (s : kstate) (pgdir : Z) (bytes : list Z) : Prop :=
  ∀ a, 0 <= a < Z.of_nat (length bytes) → ubyte (k_mem s) pgdir a = bytes !! Z.to_nat a.

Section user.
Context (pgdir : Z) (bytes : list Z) (s : kstate) (Hu : user_mem s pgdir bytes).

Lemma uload_eq c a b : 0 <= a → bytes !! Z.to_nat a = Some b → uload pgdir a c s = Ret b c s.
Proof using Hu.
  intros Ha Hb. unfold uload, bind. cbn. rewrite Hu, Hb; [done|].
  apply lookup_lt_Some in Hb. lia.
Qed.
Lemma uloads_eq c a n :
  0 <= a → a + Z.of_nat n <= Z.of_nat (length bytes) →
  uloads pgdir a n c s = Ret (slice (Z.to_nat a) n bytes) c s.
Proof using Hu.
  revert a. induction n as [|n IH]; intros a Ha Hn; [done|]. cbn [uloads].
  destruct (lookup_lt_is_Some_2 bytes (Z.to_nat a)) as [b Hb]; [lia|].
  erewrite bind_eq; [|by apply uload_eq]. cbv beta. erewrite bind_eq; [|apply IH; lia]. cbv beta.
  rewrite (slice_S _ _ _ _ Hb). do 3 f_equal. lia.
Qed.

(** The string at [a], if a NUL follows in the process's memory. *)
Fixpoint nul_string (l : list Z) : option (list Z) :=
  match l with
  | [] => None
  | b :: l' => if b =? 0 then Some [] else cons b <$> nul_string l'
  end.
Lemma fetchstr_loop_eq c fuel a :
  0 <= a <= Z.of_nat (length bytes) → (length bytes - Z.to_nat a < fuel)%nat →
  fetchstr_loop pgdir fuel a (Z.of_nat (length bytes)) c s = Ret (nul_string (drop (Z.to_nat a) bytes)) c s.
Proof using Hu.
  revert a. induction fuel as [|fuel IH]; intros a Ha Hfuel; [lia|]. cbn [fetchstr_loop].
  destruct (Z.leb_spec (Z.of_nat (length bytes)) a); [by rewrite drop_ge by lia|].
  destruct (lookup_lt_is_Some_2 bytes (Z.to_nat a)) as [b Hb]; [lia|].
  erewrite bind_eq; [|apply uload_eq; [lia|done]]. cbv beta. rewrite (drop_S _ _ _ Hb). cbn [nul_string].
  destruct (b =? 0); [done|]. erewrite bind_eq; [|apply IH; lia]. cbv beta. unfold ret.
  by replace (Z.to_nat (a + 1)) with (S (Z.to_nat a)) by lia.
Qed.
End user.

Lemma pstate_eta {Mem F} (s : pstate Mem F) :
  PState (pt_proc s) (pt_initproc s) (pt_nextpid s) (pt_mem s) (pt_files s) = s.
Proof. by destruct s. Qed.

Section specs.
Context {F : Type} (cur : nat) (bytes : list Z) (s : pstate kstate F) (p : proc).
Context (Hp : pt_proc s !! cur = Some p) (Hsz : p_sz p = Z.of_nat (length bytes)).
Context (Hlim : p_sz p <= KERNBASE) (Hu : user_mem (pt_mem s) (p_pgdir p) bytes).

Lemma procp_eq c : procp cur c s = Ret p c s.
Proof using Hp. unfold procp, bind. cbn. by rewrite Hp. Qed.
Lemma umem_eq {A} (f : Z → M kstate A) c a :
  f (p_pgdir p) c (pt_mem s) = Ret a c (pt_mem s) → umem cur f c s = Ret a c s.
Proof using Hp.
  intros Hf. unfold umem. erewrite bind_eq; [|apply procp_eq]. cbv beta. unfold pmem, lift. rewrite Hf. by rewrite pstate_eta.
Qed.

Lemma fetchint_eq c addr :
  0 <= addr < 2 ^ 32 →
  fetchint cur addr c s =
  Ret (if decide (addr + 4 <= p_sz p) then Some (s32 (rd 4 (Z.to_nat addr) bytes)) else None) c s.
Proof using Hp Hsz Hlim Hu.
  intros Ha. unfold KERNBASE in Hlim. unfold fetchint. erewrite bind_eq; [|apply procp_eq]. cbv beta.
  destruct (Z.leb_spec (p_sz p) addr) as [Hge|Hlt]; cbn [orb]; [rewrite decide_False by lia; done|].
  rewrite u32_small by lia. destruct (Z.ltb_spec (p_sz p) (addr + 4)); [by rewrite decide_False by lia|].
  rewrite decide_True by lia. erewrite bind_eq; [|apply umem_eq, (uloads_eq _ bytes); [done|lia|lia]]. done.
Qed.

Lemma argint_eq c n :
  argint cur n c s =
  let a := u32 (tf_esp (p_tf p) + 4 + 4 * n) in
  Ret (if decide (a + 4 <= p_sz p) then Some (s32 (rd 4 (Z.to_nat a) bytes)) else None) c s.
Proof using Hp Hsz Hlim Hu.
  unfold argint. erewrite bind_eq; [|apply procp_eq]. cbv beta. apply fetchint_eq. apply u32_range.
Qed.

Lemma fetchstr_eq c addr :
  0 <= addr → fetchstr cur addr c s = Ret (nul_string (drop (Z.to_nat addr) bytes)) c s.
Proof using Hp Hsz Hlim Hu.
  intros Ha. unfold fetchstr. erewrite bind_eq; [|apply procp_eq]. cbv beta.
  destruct (Z.leb_spec (p_sz p) addr); [by rewrite drop_ge by lia|].
  apply umem_eq. rewrite Hsz. apply fetchstr_loop_eq; [done|lia|lia].
Qed.
End specs.

(** C34. [argptr] lets through exactly the blocks inside the process: with [i] the value of
    the argument, it returns [i] when [i] is an address of the process and the [size]
    bytes from it on end in it, and fails otherwise, also for a negative size and when the
    argument itself is outside; the sum does not wrap around.  It never faults. *)
Theorem argptr_bounds {F} cur (bytes : list Z) (s : pstate kstate F) p c n size :
  pt_proc s !! cur = Some p → p_sz p = Z.of_nat (length bytes) → p_sz p <= KERNBASE →
  user_mem (pt_mem s) (p_pgdir p) bytes → - 2 ^ 31 <= size < 2 ^ 31 →
  let a := u32 (tf_esp (p_tf p) + 4 + 4 * n) in
  let i := u32 (s32 (rd 4 (Z.to_nat a) bytes)) in
  argptr cur n size c s =
  Ret (if decide (a + 4 <= p_sz p ∧ 0 <= size ∧ i < p_sz p ∧ i + size <= p_sz p) then Some i else None) c s.
Proof.
  intros Hp Hsz Hlim Hu Hsize a i. unfold argptr. erewrite bind_eq; [|by apply procp_eq]. cbv beta.
  erewrite bind_eq; [|by apply (argint_eq cur bytes s p)]. cbv beta zeta. fold a.
  destruct (decide (a + 4 <= p_sz p)) as [Ha|Ha].
  2:{ rewrite decide_False; [done|]. tauto. }
  fold i. pose proof (u32_range (s32 (rd 4 (Z.to_nat a) bytes))) as Hi. fold i in Hi. unfold KERNBASE in Hlim.
  destruct (Z.ltb_spec size 0); cbn [orb]; [by rewrite decide_False by lia|].
  destruct (Z.leb_spec (p_sz p) i); cbn [orb]; [by rewrite decide_False by lia|].
  rewrite (u32_small (i + size)) by lia.
  destruct (Z.ltb_spec (p_sz p) (i + size)); [by rewrite decide_False by lia|]. by rewrite decide_True by lia.
Qed.

(** [argstr] returns a string only if the string and its NUL lie in the process: the
    result is the bytes from the argument's address up to the first NUL, without it, and
    it fails when there is no NUL before the end of the process's memory.  It never
    faults, and always returns. *)
Theorem argstr_string {F} cur (bytes : list Z) (s : pstate kstate F) p c n :
  pt_proc s !! cur = Some p → p_sz p = Z.of_nat (length bytes) → p_sz p <= KERNBASE →
  user_mem (pt_mem s) (p_pgdir p) bytes →
  let a := u32 (tf_esp (p_tf p) + 4 + 4 * n) in
  let i := Z.to_nat (u32 (s32 (rd 4 (Z.to_nat a) bytes))) in
  ∃ r, argstr cur n c s = Ret r c s ∧
  match r with
  | Some str => a + 4 <= p_sz p ∧ 0 ∉ str ∧ slice i (S (length str)) bytes = str ++ [0]
  | None => p_sz p < a + 4 ∨ 0 ∉ drop i bytes
  end.
Proof.
  intros Hp Hsz Hlim Hu a i. unfold argstr.
  erewrite bind_eq; [|by apply (argint_eq cur bytes s p)]. cbv beta zeta. fold a.
  destruct (decide (a + 4 <= p_sz p)) as [Ha|Ha]; [|exists None; split; [done|left; lia]].
  rewrite (fetchstr_eq cur bytes s p Hp Hsz Hlim Hu) by (apply u32_range). fold i.
  eexists. split; [done|]. unfold slice. generalize (drop i bytes) as l. clear -Ha.
  induction l as [|b l IH]; cbn [nul_string]; [right; by intros ?%elem_of_nil|].
  destruct (Z.eqb_spec b 0) as [->|Hb].
  { split; [done|]. split; [by intros ?%elem_of_nil|done]. }
  destruct (nul_string l) as [str|]; cbn.
  - destruct IH as (_ & Hn & E). split; [done|]. split; [by apply not_elem_of_cons|]. cbn in E. by rewrite E.
  - destruct IH as [?|IH]; [lia|]. right. by apply not_elem_of_cons.
Qed.

(** * A small process

    Its memory has the first argument, a pointer to address 8, at address 4, and there the
    string hi. *)
Definition hi_bytes : list Z := [0; 0; 0; 0; 8; 0; 0; 0; 104; 105; 0; 0].
Definition hi_mem : kstate :=
  match ustores vm_kend 0 hi_bytes (cpu0 1) vm_user with Ret _ _ s => s | _ => vm_user end.
Definition hi_proc : proc := set_sz 12 (set_pgdir vm_kend proc_zero).
Definition hi_state : pstate kstate unit := PState [hi_proc] (Some 0%nat) 2 hi_mem tt.

Lemma hi_user : user_mem hi_mem vm_kend hi_bytes.
Proof.
  assert (forallb (λ a, bool_decide (ubyte (k_mem hi_mem) vm_kend (Z.of_nat a) = hi_bytes !! a)) (seq 0 12) = true) as H
    by (vm_compute; reflexivity).
  intros a Ha. change (Z.of_nat (length hi_bytes)) with 12 in Ha. rewrite forallb_forall in H.
  specialize (H (Z.to_nat a)). rewrite Z2Nat.id in H by lia. eapply bool_decide_eq_true_1, H, in_seq. lia.
Qed.

Lemma argptr_bounds_witness : argptr 0 0 4 (cpu0 1) hi_state = Ret (Some 8) (cpu0 1) hi_state.
Proof.
  rewrite (argptr_bounds 0 hi_bytes hi_state hi_proc (cpu0 1) 0 4); [reflexivity|reflexivity|reflexivity|discriminate|exact hi_user|lia].
Defined.
Lemma argstr_string_witness : ∃ r, argstr 0 0 (cpu0 1) hi_state = Ret r (cpu0 1) hi_state.
Proof.
  destruct (argstr_string 0 hi_bytes hi_state hi_proc (cpu0 1) 0) as (r & H & _);
    [reflexivity|reflexivity|discriminate|exact hi_user|]. exists r. exact H.
Defined.
