(* ===== verification/Sysfile.v ===== *)
(** File-system system calls ([sysfile.c]). *)
From stdpp Require Import base list numbers strings gmap.
From Stdlib Require Import ZArith Lia.
From S2P Require Import Prelude Params Machine Spinlock Sleeplock CString Bio Log Fs Pipe Kalloc Vm.
From S2P Require Import VmSpec VmProps Proc File Syscall.
Local Open Scope Z_scope.
Local Open Scope xv6_scope.

Definition O_RDONLY : Z := 0x000.
Definition O_WRONLY : Z := 0x001.
Definition O_RDWR : Z := 0x002.
Definition O_CREATE : Z := 0x200.

(** [name] of [struct dirent] holding [.] and [..]. *)
Definition dot : list Z := [46].
Definition dotdot : list Z := [46; 46].

(** The first free descriptor, from [k] on. *)
Fixpoint find_fd (ofile : list (option nat)) (k : nat) : option nat :=
  match ofile with
  | [] => None
  | None :: _ => Some k
  | Some _ :: l => find_fd l (S k)
  end.

(** [struct stat] as bytes: [short type; int dev; uint ino; short nlink; uint size], with
    the padding the compiler adds, whose bytes are [pad]. *)
Definition stat_bytes (pad : list Z) (st : stat) : list Z :=
  le_bytes 2 (st_type st) ++ take 2 pad ++ le_bytes 4 (st_dev st) ++ le_bytes 4 (st_ino st) ++
  le_bytes 2 (st_nlink st) ++ take 2 (drop 2 pad) ++ le_bytes 4 (st_size st).
Definition sizeof_stat : Z := 20.

Section calls.
(** The end of the kernel; the devices; the process that calls. *)
Context (kend data : Z) (dsw : devsw) (cur : nat).
Abbreviation MS := (M (pstate kstate fdstate)).
#[local] Instance the_mem : ProcMem kstate := kernel_mem kend data.

Definition fl {A} (m : M (kstate * fdstate) A) : MS A := pfiles m.
Definition fsys {A} (m : M fstate A) : MS A := fl (ffs m).
Definition begin_op_ : MS unit := fsys (lg begin_op).
Definition end_op_ : MS unit := fsys (lg end_op).
(** [curproc->cwd] *)
Definition cwd_ : MS nat := p <- procp cur ;; deref (p_cwd p).

(** ** Descriptors *)

(** Fetch the nth word-sized system call argument as a file descriptor and return both the
    descriptor and the corresponding struct file. *)
Definition argfd (n : Z) : MS (option (nat * nat)) :=
  a <- argint cur n ;;
  match a with
  | None => ret None
  | Some fd =>
      p <- procp cur ;;
      if (fd <? 0) || (NOFILE <=? fd) then ret None
      else
        o <- deref (p_ofile p !! Z.to_nat fd) ;;
        match o with
        | None => ret None
        | Some f => ret (Some (Z.to_nat fd, f))
        end
  end.

Definition set_fd (fd : nat) (o : option nat) : MS unit :=
  upd_proc cur (λ p, set_ofile (<[fd := o]> (p_ofile p)) p).

(** Allocate a file descriptor for the given file. *)
Definition fdalloc (f : nat) : MS (option nat) :=
  p <- procp cur ;;
  match find_fd (p_ofile p) 0 with
  | Some fd => set_fd fd (Some f) ;; ret (Some fd)
  | None => ret None
  end.

Definition sys_dup : MS Z :=
  a <- argfd 0 ;;
  match a with
  | None => ret (-1)
  | Some (_, f) =>
      o <- fdalloc f ;;
      match o with
      | None => ret (-1)
      | Some fd => _ <- fl (filedup f) ;; ret (Z.of_nat fd)
      end
  end.

Definition sys_close : MS Z :=
  a <- argfd 0 ;;
  match a with
  | None => ret (-1)
  | Some (fd, f) => set_fd fd None ;; fl (fileclose f) ;; ret 0
  end.

(** The arguments of [sys_read] and [sys_write]: the file, the buffer and its size. *)
Definition arg_buf : MS (option (nat * Z * Z)) :=
  a <- argfd 0 ;;
  match a with
  | None => ret None
  | Some (_, f) =>
      n <- argint cur 2 ;;
      match n with
      | None => ret None
      | Some n =>
          b <- argptr cur 1 n ;;
          match b with None => ret None | Some b => ret (Some (f, b, n)) end
      end
  end.

Definition sys_read : MS Z :=
  a <- arg_buf ;;
  match a with
  | None => ret (-1)
  | Some (f, b, n) =>
      p <- procp cur ;;
      r <- fl (fileread dsw (p_killed p) f n) ;;
      umem cur (λ d, ustores d b r.2) ;;
      ret r.1
  end.

Definition sys_write : MS Z :=
  a <- arg_buf ;;
  match a with
  | None => ret (-1)
  | Some (f, b, n) =>
      p <- procp cur ;;
      src <- umem cur (λ d, uloads d b (Z.to_nat n)) ;;
      fl (filewrite dsw (p_killed p) f src)
  end.

(** The padding of [struct stat] is left as it was. *)
Definition sys_fstat : MS Z :=
  a <- argfd 0 ;;
  match a with
  | None => ret (-1)
  | Some (_, f) =>
      b <- argptr cur 1 sizeof_stat ;;
      match b with
      | None => ret (-1)
      | Some b =>
          o <- fl (filestat f) ;;
          match o with
          | None => ret (-1)
          | Some st =>
              pad1 <- umem cur (λ d, uloads d (b + 2) 2) ;;
              pad2 <- umem cur (λ d, uloads d (b + 14) 2) ;;
              umem cur (λ d, ustores d b (stat_bytes (pad1 ++ pad2) st)) ;;
              ret 0
          end
      end
  end.

Definition sys_pipe (junk : list Z) : MS Z :=
  b <- argptr cur 0 8 ;;
  match b with
  | None => ret (-1)
  | Some b =>
      o <- fl (pipealloc junk) ;;
      match o with
      | None => ret (-1)
      | Some (rf, wf) =>
          fd0 <- fdalloc rf ;;
          fd1 <- (match fd0 with None => ret None | Some _ => fdalloc wf end) ;;
          match fd0, fd1 with
          | Some fd0, Some fd1 =>
              umem cur (λ d, ustores d b (le_bytes 4 (Z.of_nat fd0) ++ le_bytes 4 (Z.of_nat fd1))) ;;
              ret 0
          | _, _ =>
              match fd0 with Some fd0 => set_fd fd0 None | None => ret tt end ;;
              fl (fileclose rf) ;;
              fl (fileclose wf) ;;
              ret (-1)
          end
      end
  end.

(** ** Names *)

(** Is the directory dp empty except for [.] and [..]?  From [off] on. *)
Fixpoint isdirempty_loop (fuel : nat) (dp : nat) (off : Z) : M fstate bool :=
  match fuel with
  | O => hang
  | S fuel' =>
      i <- inodep dp ;;
      if i_size i <=? off then ret true
      else
        r <- readi dsw dp off 16 ;;
        when (negb (r.1 =? 16)) (panic "isdirempty: readi") ;;
        if negb (de_inum r.2 =? 0) then ret false else isdirempty_loop fuel' dp (off + 16)
  end.
Definition isdirempty (dp : nat) : M fstate bool :=
  i <- inodep dp ;; isdirempty_loop (S (S (Z.to_nat (i_size i / 16)))) dp 32.

(** Create the path new as a link to the same inode as old. *)
Definition link_bad (ip : nat) : M fstate Z :=
  ilock (Some ip) ;;
  upd_inode ip (set_nlink (λ n, s16 (n - 1))) ;;
  iupdate ip ;;
  iunlockput ip ;;
  lg end_op ;;
  ret (-1).
Definition link_ (cwd : nat) (old new : list Z) : M fstate Z :=
  lg begin_op ;;
  o <- namei dsw cwd old ;;
  match o with
  | None => lg end_op ;; ret (-1)
  | Some ip =>
      ilock (Some ip) ;;
      i <- inodep ip ;;
      if i_type i =? T_DIR then iunlockput ip ;; lg end_op ;; ret (-1)
      else
        upd_inode ip (set_nlink (λ n, s16 (n + 1))) ;;
        iupdate ip ;;
        iunlock (Some ip) ;;
        r <- nameiparent dsw cwd new ;;
        match r with
        | (None, _) => link_bad ip
        | (Some dp, name) =>
            ilock (Some dp) ;;
            d <- inodep dp ;;
            i <- inodep ip ;;
            r <- (if negb (i_dev d =? i_dev i) then ret (-1) else dirlink dsw dp name (i_inum i)) ;;
            if r <? 0 then iunlockput dp ;; link_bad ip
            else
              iunlockput dp ;;
              iput ip ;;
              lg end_op ;;
              ret 0
        end
  end.
Definition sys_link : MS Z :=
  o <- argstr cur 0 ;;
  match o with
  | None => ret (-1)
  | Some old =>
      o <- argstr cur 1 ;;
      match o with None => ret (-1) | Some new => cwd <- cwd_ ;; fsys (link_ cwd old new) end
  end.

Definition unlink_bad (dp : nat) : M fstate Z := iunlockput dp ;; lg end_op ;; ret (-1).
Definition unlink_ (cwd : nat) (path : list Z) : M fstate Z :=
  lg begin_op ;;
  r <- nameiparent dsw cwd path ;;
  match r with
  | (None, _) => lg end_op ;; ret (-1)
  | (Some dp, name) =>
      ilock (Some dp) ;;
      (* Cannot unlink . or .. *)
      if namecmp name dot || namecmp name dotdot then unlink_bad dp
      else
        o <- dirlookup dsw dp name ;;
        match o with
        | None => unlink_bad dp
        | Some (ip, off) =>
            ilock (Some ip) ;;
            i <- inodep ip ;;
            when (i_nlink i <? 1) (panic "unlink: nlink < 1") ;;
            e <- (if i_type i =? T_DIR then isdirempty ip else ret true) ;;
            if negb e then iunlockput ip ;; unlink_bad dp
            else
              w <- writei dsw dp (replicate 16 0) off ;;
              when (negb (w =? 16)) (panic "unlink: writei") ;;
              i <- inodep ip ;;
              when (i_type i =? T_DIR) (upd_inode dp (set_nlink (λ n, s16 (n - 1))) ;; iupdate dp) ;;
              iunlockput dp ;;
              upd_inode ip (set_nlink (λ n, s16 (n - 1))) ;;
              iupdate ip ;;
              iunlockput ip ;;
              lg end_op ;;
              ret 0
        end
  end.
Definition sys_unlink : MS Z :=
  o <- argstr cur 0 ;;
  match o with None => ret (-1) | Some path => cwd <- cwd_ ;; fsys (unlink_ cwd path) end.

Definition create (cwd : nat) (path : list Z) (type major minor : Z) : M fstate (option nat) :=
  r <- nameiparent dsw cwd path ;;
  match r with
  | (None, _) => ret None
  | (Some dp, name) =>
      ilock (Some dp) ;;
      o <- dirlookup dsw dp name ;;
      match o with
      | Some (ip, _) =>
          iunlockput dp ;;
          ilock (Some ip) ;;
          i <- inodep ip ;;
          if (type =? T_FILE) && (i_type i =? T_FILE) then ret (Some ip)
          else iunlockput ip ;; ret None
      | None =>
          d <- inodep dp ;;
          ip <- ialloc (i_dev d) type ;;
          ilock (Some ip) ;;
          upd_inode ip (set_major major) ;;
          upd_inode ip (set_minor minor) ;;
          upd_inode ip (set_nlink (λ _, 1)) ;;
          iupdate ip ;;
          i <- inodep ip ;;
          d <- inodep dp ;;
          when (type =? T_DIR)
            ( (* Create . and .. entries. *)
             upd_inode dp (set_nlink (λ n, s16 (n + 1))) ;;
             iupdate dp ;;
             a <- dirlink dsw ip dot (i_inum i) ;;
             b <- (if a <? 0 then ret a else dirlink dsw ip dotdot (i_inum d)) ;;
             when (b <? 0) (panic "create dots")) ;;
          r <- dirlink dsw dp name (i_inum i) ;;
          when (r <? 0) (panic "create: dirlink") ;;
          iunlockput dp ;;
          ret (Some ip)
      end
  end.

(** [sys_open], up to the inode, which it locks. *)
Definition open_inode (cwd : nat) (path : list Z) (omode : Z) : M fstate (option nat) :=
  lg begin_op ;;
  if negb (Z.land omode O_CREATE =? 0) then
    o <- create cwd path T_FILE 0 0 ;;
    match o with
    | None => lg end_op ;; ret None
    | Some ip => ret (Some ip)
    end
  else
    o <- namei dsw cwd path ;;
    match o with
    | None => lg end_op ;; ret None
    | Some ip =>
        ilock (Some ip) ;;
        i <- inodep ip ;;
        if (i_type i =? T_DIR) && negb (omode =? O_RDONLY) then iunlockput ip ;; lg end_op ;; ret None
        else ret (Some ip)
    end.
Definition sys_open : MS Z :=
  o <- argstr cur 0 ;;
  match o with
  | None => ret (-1)
  | Some path =>
      m <- argint cur 1 ;;
      match m with
      | None => ret (-1)
      | Some omode =>
          cwd <- cwd_ ;;
          o <- fsys (open_inode cwd path omode) ;;
          match o with
          | None => ret (-1)
          | Some ip =>
              f <- fl filealloc ;;
              fd <- (match f with None => ret None | Some f => fdalloc f end) ;;
              match f, fd with
              | Some f, Some fd =>
                  fsys (iunlock (Some ip)) ;;
                  end_op_ ;;
                  fl (upd_file f (set_inode ip (Z.land omode O_WRONLY =? 0)
                        (negb (Z.land omode O_WRONLY =? 0) || negb (Z.land omode O_RDWR =? 0)))) ;;
                  ret (Z.of_nat fd)
              | _, _ =>
                  match f with Some f => fl (fileclose f) | None => ret tt end ;;
                  fsys (iunlockput ip) ;;
                  end_op_ ;;
                  ret (-1)
              end
          end
      end
  end.

Definition sys_mkdir : MS Z :=
  begin_op_ ;;
  o <- argstr cur 0 ;;
  ip <- (match o with
         | None => ret None
         | Some path => cwd <- cwd_ ;; fsys (create cwd path T_DIR 0 0)
         end) ;;
  match ip with
  | None => end_op_ ;; ret (-1)
  | Some ip => fsys (iunlockput ip) ;; end_op_ ;; ret 0
  end.

Definition sys_mknod : MS Z :=
  begin_op_ ;;
  o <- argstr cur 0 ;;
  ma <- (match o with None => ret None | Some _ => argint cur 1 end) ;;
  mi <- (match ma with None => ret None | Some _ => argint cur 2 end) ;;
  ip <- (match o, ma, mi with
         | Some path, Some major, Some minor =>
             cwd <- cwd_ ;; fsys (create cwd path T_DEV (s16 major) (s16 minor))
         | _, _, _ => ret None
         end) ;;
  match ip with
  | None => end_op_ ;; ret (-1)
  | Some ip => fsys (iunlockput ip) ;; end_op_ ;; ret 0
  end.

Definition sys_chdir : MS Z :=
  begin_op_ ;;
  o <- argstr cur 0 ;;
  ip <- (match o with None => ret None | Some path => cwd <- cwd_ ;; fsys (namei dsw cwd path) end) ;;
  match ip with
  | None => end_op_ ;; ret (-1)
  | Some ip =>
      fsys (ilock (Some ip)) ;;
      i <- fsys (inodep ip) ;;
      if negb (i_type i =? T_DIR) then fsys (iunlockput ip) ;; end_op_ ;; ret (-1)
      else
        fsys (iunlock (Some ip)) ;;
        cwd <- cwd_ ;;
        fsys (iput cwd) ;;
        end_op_ ;;
        upd_proc cur (set_cwd (Some ip)) ;;
        ret 0
  end.

(** The loop of [sys_exec] over [argv], from element [i] on: the strings. *)
Fixpoint exec_args (fuel : nat) (uargv i : Z) : MS (option (list (list Z))) :=
  match fuel with
  | O => ret None     (* [i >= NELEM(argv)] *)
  | S fuel' =>
      u <- fetchint cur (u32 (uargv + 4 * i)) ;;
      match u with
      | None => ret None
      | Some u =>
          if u =? 0 then ret (Some [])
          else
            s <- fetchstr cur (u32 u) ;;
            match s with
            | None => ret None
            | Some str => r <- exec_args fuel' uargv (i + 1) ;; ret (cons str <$> r)
            end
      end
  end.
End calls.
