(* ===== verification/Exec.v ===== *)
(** Program loading ([exec.c], and [loaduvm] of [vm.c]). *)
From stdpp Require Import base list numbers strings gmap.
From Stdlib Require Import ZArith Lia.
From S2P Require Import Prelude Params Machine Spinlock Sleeplock CString Bio Log Fs Pipe Kalloc Vm.
From S2P Require Import VmSpec VmProps Proc File Syscall Sysfile.
Local Open Scope Z_scope.
Local Open Scope xv6_scope.

(** * ELF *)

Definition ELF_MAGIC : Z := 0x464C457F.
Definition ELF_PROG_LOAD : Z := 1.

(** [struct elfhdr]: 52 bytes. *)
Record elfhdr := ElfHdr { elf_magic : Z; elf_entry : Z; elf_phoff : Z; elf_phnum : Z }.
Definition elf_of (b : list Z) : elfhdr := ElfHdr (rd 4 0 b) (rd 4 24 b) (rd 4 28 b) (rd 2 44 b).
Definition sizeof_elfhdr : Z := 52.

(** [struct proghdr]: 32 bytes. *)
Record proghdr := ProgHdr { ph_type : Z; ph_off : Z; ph_vaddr : Z; ph_filesz : Z; ph_memsz : Z }.
Definition ph_of (b : list Z) : proghdr := ProgHdr (rd 4 0 b) (rd 4 4 b) (rd 4 8 b) (rd 4 16 b) (rd 4 20 b).
Definition sizeof_proghdr : Z := 32.

(** The part of a path after its last slash. *)
Fixpoint last_elem (path last : list Z) : list Z :=
  match path with
  | [] => last
  | c :: p => last_elem p (if c =? 47 then p else last)
  end.

Section exec.
Context (kend data : Z) (dsw : devsw) (cur : nat).
Abbreviation MS := (M (pstate kstate fdstate)).

(** ** [loaduvm]: load a program segment into pgdir *)

(** The pages from [addr + i] on.  Each turn of the loop goes one page on. *)
Fixpoint loaduvm_loop (fuel : nat) (pgdir addr : Z) (ip : nat) (offset sz i : Z) : MS Z :=
  match fuel with
  | O => hang
  | S fuel' =>
      if sz <=? i then ret 0
      else
        pte <- pmem (walkpgdir pgdir (u32 (addr + i)) false) ;;
        if pte =? 0 then panic "loaduvm: address should exist"
        else
          e <- pmem (load32 pte) ;;
          let pa := PTE_ADDR e in
          let n := if sz - i <? PGSIZE then sz - i else PGSIZE in
          r <- fsys (readi dsw ip (u32 (offset + i)) n) ;;
          pmem (d <- get_page (P2V pa) ;; put_page (P2V pa) (splice 0 r.2 d)) ;;
          if negb (r.1 =? n) then ret (-1)
          else loaduvm_loop fuel' pgdir addr ip offset sz (i + PGSIZE)
  end.
Definition loaduvm (pgdir addr : Z) (ip : nat) (offset sz : Z) : MS Z :=
  when (negb (addr mod PGSIZE =? 0)) (panic "loaduvm: addr must be page aligned") ;;
  loaduvm_loop (S (S (Z.to_nat (sz / PGSIZE)))) pgdir addr ip offset sz 0.

(** ** [exec] *)

(** The loop that loads the program, for the headers that are left; [None] is
    [goto bad]. *)
Fixpoint load_segments (n : nat) (pgdir : Z) (ip : nat) (off sz : Z) : MS (option Z) :=
  match n with
  | O => ret (Some sz)
  | S n' =>
      r <- fsys (readi dsw ip off sizeof_proghdr) ;;
      if negb (r.1 =? sizeof_proghdr) then ret None
      else
        let ph := ph_of r.2 in
        if negb (ph_type ph =? ELF_PROG_LOAD) then load_segments n' pgdir ip (u32 (off + sizeof_proghdr)) sz
        else if ph_memsz ph <? ph_filesz ph then ret None
        else if u32 (ph_vaddr ph + ph_memsz ph) <? ph_vaddr ph then ret None
        else
          sz <- pmem (allocuvm kend pgdir sz (u32 (ph_vaddr ph + ph_memsz ph))) ;;
          if sz =? 0 then ret None
          else if negb (ph_vaddr ph mod PGSIZE =? 0) then ret None
          else
            l <- loaduvm pgdir (ph_vaddr ph) ip (ph_off ph) (ph_filesz ph) ;;
            if l <? 0 then ret None
            else load_segments n' pgdir ip (u32 (off + sizeof_proghdr)) sz
  end.

(** Push argument strings, of which [argc] are on the stack already: the stack pointer and
    the addresses of the strings. *)
Fixpoint push_args (pgdir sp argc : Z) (argv : list (list Z)) : MS (option (Z * list Z)) :=
  match argv with
  | [] => ret (Some (sp, []))
  | a :: argv' =>
      if MAXARG <=? argc then ret None
      else
        let sp := Z.land (u32 (sp - (Z.of_nat (length a) + 1))) (u32 (Z.lnot 3)) in
        r <- pmem (copyout pgdir sp (a ++ [0])) ;;
        if r <? 0 then ret None
        else
          o <- push_args pgdir sp (argc + 1) argv' ;;
          ret ((λ '(sp', l), (sp', sp :: l)) <$> o)
  end.

(** [ustack], up to the NULL that ends [argv]. *)
Definition ustack (argc sp : Z) (ptrs : list Z) : list Z :=
  [0xffffffff; argc; u32 (sp - (argc + 1) * 4)] ++ ptrs ++ [0].

(** The user stack of the new image, whose top is [sz]: the stack pointer. *)
Definition exec_stack (pgdir sz : Z) (argv : list (list Z)) : MS (option Z) :=
  o <- push_args pgdir sz 0 argv ;;
  match o with
  | None => ret None
  | Some (sp, ptrs) =>
      let argc := Z.of_nat (length ptrs) in
      let sp' := u32 (sp - (3 + argc + 1) * 4) in
      r <- pmem (copyout pgdir sp' (ustack argc sp ptrs ≫= le_bytes 4)) ;;
      ret (if r <? 0 then None else Some sp')
  end.

(** [bad:], with [ip] still locked or not. *)
Definition exec_bad (pgdir : Z) (ip : option nat) : MS Z :=
  when (negb (pgdir =? 0)) (pmem (freevm kend pgdir)) ;;
  match ip with Some ip => fsys (iunlockput ip) ;; end_op_ | None => ret tt end ;;
  ret (-1).

(** Once the program is in memory: the stack, and the new image. *)
Definition exec_commit (pgdir sz entry : Z) (path : list Z) (argv : list (list Z)) : MS Z :=
  let sz := PGROUNDUP sz in
  sz <- pmem (allocuvm kend pgdir sz (u32 (sz + 2 * PGSIZE))) ;;
  if sz =? 0 then exec_bad pgdir None
  else
    pmem (clearpteu pgdir (u32 (sz - 2 * PGSIZE))) ;;
    o <- exec_stack pgdir sz argv ;;
    match o with
    | None => exec_bad pgdir None
    | Some sp =>
        upd_proc cur (set_name (take 15 (last_elem path path))) ;;
        p <- procp cur ;;
        let oldpgdir := p_pgdir p in
        upd_proc cur (set_pgdir pgdir) ;;
        upd_proc cur (set_sz sz) ;;
        upd_proc cur (λ p, set_tf (set_eip entry (p_tf p)) p) ;;
        upd_proc cur (λ p, set_tf (set_esp sp (p_tf p)) p) ;;
        p <- procp cur ;;
        switchuvm (Some p) ;;
        pmem (freevm kend oldpgdir) ;;
        ret 0
    end.

Definition exec (path : list Z) (argv : list (list Z)) : MS Z :=
  begin_op_ ;;
  cwd <- cwd_ cur ;;
  o <- fsys (namei dsw cwd path) ;;
  match o with
  | None => end_op_ ;; ret (-1)
  | Some ip =>
      fsys (ilock (Some ip)) ;;
      (* Check ELF header *)
      r <- fsys (readi dsw ip 0 sizeof_elfhdr) ;;
      let elf := elf_of r.2 in
      if negb (r.1 =? sizeof_elfhdr) then exec_bad 0 (Some ip)
      else if negb (elf_magic elf =? ELF_MAGIC) then exec_bad 0 (Some ip)
      else
        pgdir <- pmem (setupkvm kend data) ;;
        if pgdir =? 0 then exec_bad 0 (Some ip)
        else
          (* Load program into memory. *)
          o <- load_segments (Z.to_nat (elf_phnum elf)) pgdir ip (elf_phoff elf) 0 ;;
          match o with
          | None => exec_bad pgdir (Some ip)
          | Some sz =>
              fsys (iunlockput ip) ;;
              end_op_ ;;
              exec_commit pgdir sz (elf_entry elf) path argv
          end
  end.

Definition sys_exec : MS Z :=
  o <- argstr cur 0 ;;
  match o with
  | None => ret (-1)
  | Some path =>
      u <- argint cur 1 ;;
      match u with
      | None => ret (-1)
      | Some uargv =>
          a <- exec_args cur (Z.to_nat MAXARG) (u32 uargv) 0 ;;
          match a with None => ret (-1) | Some argv => exec path argv end
      end
  end.
End exec.
