(* ===== verification/ExecProps.v ===== *)
(** The arguments of a program: what [exec] puts on its stack. *)
From stdpp Require Import base list numbers strings gmap.
From Stdlib Require Import ZArith Lia.
From S2P Require Import Prelude Params Machine Spinlock Sleeplock CString Bio Log Fs Pipe Kalloc KallocSpec.
From S2P Require Import Vm VmSpec VmProps Proc File Syscall Sysfile Exec.
Local Open Scope Z_scope.
Local Open Scope xv6_scope.

(** The user sees the bytes [l] from [va] on. *)
Definition sees (m : gmap Z (list Z)) (pgdir va : Z) (l : list Z) : Prop :=
  ∀ k : nat, (k < length l)%nat → ubyte m pgdir (va + Z.of_nat k) = l !! k.
(** The user sees the int [x] at [va]. *)
Definition sees_int (m : gmap Z (list Z)) (pgdir va x : Z) : Prop := sees m pgdir va (le_bytes 4 x).

(** Where the strings end when they are pushed from [sp] down. *)
Definition args_sp (sp : Z) (argv : list (list Z)) : Z :=
  foldl (λ sp a, (sp - (Z.of_nat (length a) + 1)) / 4 * 4) sp argv.

Lemma land_3 x : 0 <= x < 2 ^ 32 → Z.land x (u32 (Z.lnot 3)) = x / 4 * 4.
Proof.
  intros Hx. replace (u32 (Z.lnot 3)) with (Z.shiftl (Z.ones 30) 2) by reflexivity.
  replace (x / 4 * 4) with (Z.shiftl (Z.shiftr x 2) 2) by (rewrite Z.shiftl_mul_pow2, Z.shiftr_div_pow2 by lia; done).
  apply Z.bits_inj'. intros n Hn. rewrite Z.land_spec, !Z.shiftl_spec by lia.
  destruct (Z.ltb_spec n 2).
  - rewrite !(Z.testbit_neg_r _ (n - 2)) by lia. by rewrite andb_false_r.
  - rewrite Z.shiftr_spec by lia. replace (n - 2 + 2) with n by lia.
    destruct (Z.ltb_spec n 32); [rewrite Z.ones_spec_low by lia; apply andb_true_r|].
    rewrite (Z.bits_above_log2 x n); [done|lia|].
    destruct (decide (x = 0)) as [->|]; [cbn; lia|]. assert (Z.log2 x < 32); [|lia]. apply Z.log2_lt_pow2; lia.
Qed.

Lemma args_sp_le sp argv : args_sp sp argv <= sp.
Proof.
  revert sp. induction argv as [|a argv IH]; intros sp; [cbn; lia|]. cbn. etrans; [apply IH|].
  pose proof (Z.div_mod (sp - (Z.of_nat (length a) + 1)) 4 ltac:(lia)).
  pose proof (Z.mod_pos_bound (sp - (Z.of_nat (length a) + 1)) 4 ltac:(lia)). lia.
Qed.

Section stack.
Context (kend : Z) (Hkend : KERNBASE < kend) (pid pgdir : Z) (free : list Z).
Abbreviation state := (pstate kstate fdstate).
Implicit Types s : state.

(** A state whose memory is replaced. *)
Definition put_mem (m : kstate) s : state := PState (pt_proc s) (pt_initproc s) (pt_nextpid s) m (pt_files s).

(** What the user of [pgdir] sees, from [lo] to [hi], has changed from [m] to [m']; the
    pages are the same. *)
Record changed (m m' : kstate) (lo hi : Z) : Prop := {
  ch_aspace : aspace kend m' pgdir free;
  ch_map : ∀ a, mapping (k_mem m') pgdir a = mapping (k_mem m) pgdir a;
  ch_same : ∀ a, 0 <= a < KERNBASE → a < lo ∨ hi <= a → ubyte (k_mem m') pgdir a = ubyte (k_mem m) pgdir a;
}.

Lemma user_ok_map m m' a :
  (∀ a, mapping m' pgdir a = mapping m pgdir a) → user_ok m pgdir a → user_ok m' pgdir a.
Proof. intros H (e & He & Hu). exists e. by rewrite H. Qed.

Lemma sees_same m m' va l lo hi :
  changed m m' lo hi → 0 <= va → va + Z.of_nat (length l) <= KERNBASE → va + Z.of_nat (length l) <= lo ∨ hi <= va →
  sees (k_mem m) pgdir va l → sees (k_mem m') pgdir va l.
Proof. intros [_ _ H] Hva Hend Ho Hs k Hk. rewrite H by lia. by apply Hs. Qed.

Lemma copyout_sees s va buf :
  aspace kend (pt_mem s) pgdir free → 0 <= va → va + Z.of_nat (length buf) <= KERNBASE →
  (∀ a, va <= a < va + Z.of_nat (length buf) → user_ok (k_mem (pt_mem s)) pgdir a) →
  ∃ m, pmem (copyout pgdir va buf) (cpu0 pid) s = Ret 0 (cpu0 pid) (put_mem m s) ∧
    changed (pt_mem s) m va (va + Z.of_nat (length buf)) ∧ sees (k_mem m) pgdir va buf.
Proof using Hkend.
  intros HA Hva Hend Hok.
  destruct (copyout_loop_spec kend Hkend pid pgdir (S (length buf)) (pt_mem s) free va buf HA Hva Hend Hok ltac:(lia))
    as (m & E & HA' & Hmap & Hub).
  exists m. split; [unfold pmem, lift, copyout; by rewrite E|]. split.
  - split; [done|done|]. intros a Ha Ho. rewrite Hub by done. by rewrite decide_False by lia.
  - intros k Hk. rewrite Hub by lia. rewrite decide_True by lia. f_equal. lia.
Qed.

Lemma push_args_spec argv s sp argc :
  aspace kend (pt_mem s) pgdir free → sp <= KERNBASE → 0 <= args_sp sp argv →
  (∀ a, args_sp sp argv <= a < sp → user_ok (k_mem (pt_mem s)) pgdir a) →
  argc + Z.of_nat (length argv) <= MAXARG →
  ∃ m ptrs, push_args pgdir sp argc argv (cpu0 pid) s = Ret (Some (args_sp sp argv, ptrs)) (cpu0 pid) (put_mem m s) ∧
    changed (pt_mem s) m (args_sp sp argv) sp ∧
    Forall2 (λ q a, args_sp sp argv <= q ∧ q + Z.of_nat (length a) + 1 <= sp ∧ sees (k_mem m) pgdir q (a ++ [0])) ptrs argv.
Proof using Hkend.
  revert s sp argc. induction argv as [|a argv IH]; intros s sp argc HA Hsp Hlo Hok Hargc.
  { exists (pt_mem s), []. split; [unfold put_mem; by rewrite pstate_eta|]. split; [by split|constructor]. }
  cbn [push_args length] in *. destruct (Z.leb_spec MAXARG argc); [lia|].
  set (sp1 := (sp - (Z.of_nat (length a) + 1)) / 4 * 4) in *.
  change (args_sp sp (a :: argv)) with (args_sp sp1 argv) in *.
  pose proof (args_sp_le sp1 argv) as Hle.
  pose proof (Z.div_mod (sp - (Z.of_nat (length a) + 1)) 4 ltac:(lia)).
  pose proof (Z.mod_pos_bound (sp - (Z.of_nat (length a) + 1)) 4 ltac:(lia)).
  assert (sp1 + Z.of_nat (length a) + 1 <= sp) as Hend by lia.
  assert (KERNBASE < 2 ^ 32) as Hk by reflexivity.
  rewrite u32_small by lia. rewrite land_3 by lia. fold sp1.
  destruct (copyout_sees s sp1 (a ++ [0])) as (m1 & E1 & Hc1 & Hs1); [done|lia|rewrite length_app; cbn; lia| |].
  { intros b Hb. rewrite length_app in Hb. cbn in Hb. apply Hok. lia. }
  erewrite bind_eq; [|exact E1]. cbv beta. cbn [Z.ltb].
  destruct (IH (put_mem m1 s) sp1 (argc + 1)) as (m2 & ptrs & E2 & Hc2 & Hf); [by apply Hc1|lia|lia| |lia|].
  { intros b Hb. cbn [put_mem pt_mem]. eapply user_ok_map; [apply Hc1|]. apply Hok. lia. }
  change (0 <? 0) with false. cbv iota. erewrite bind_eq; [|exact E2]. cbv beta.
  exists m2, (sp1 :: ptrs). split; [done|]. split; [|constructor].
  - split; [by apply Hc2| |].
    + intros b. rewrite (ch_map _ _ _ _ Hc2). apply (ch_map _ _ _ _ Hc1).
    + intros b Hb Ho. rewrite (ch_same _ _ _ _ Hc2) by lia. apply (ch_same _ _ _ _ Hc1); [done|].
      rewrite length_app. cbn. lia.
  - split; [done|]. split; [done|]. eapply sees_same; [exact Hc2|lia|rewrite length_app; cbn; lia|lia|done].
  - eapply Forall2_impl; [exact Hf|]. intros q b (? & ? & ?). split; [done|]. split; [lia|done].
Qed.

Lemma length_words (ws : list Z) : length (ws ≫= le_bytes 4) = (4 * length ws)%nat.
Proof. induction ws as [|w ws IH]; [done|]. rewrite bind_cons, length_app, length_le_bytes, IH. cbn. lia. Qed.
Lemma lookup_words (ws : list Z) j i x :
  ws !! j = Some x → (i < 4)%nat → (ws ≫= le_bytes 4) !! (4 * j + i)%nat = le_bytes 4 x !! i.
Proof.
  revert j. induction ws as [|w ws IH]; intros [|j] Hj Hi; try done.
  - injection Hj as ->. rewrite bind_cons, lookup_app_l by (rewrite length_le_bytes; lia). done.
  - rewrite bind_cons, lookup_app_r by (rewrite length_le_bytes; lia). rewrite length_le_bytes.
    replace (4 * S j + i - 4)%nat with (4 * j + i)%nat by lia. by apply IH.
Qed.
Lemma sees_word m va ws j x :
  sees m pgdir va (ws ≫= le_bytes 4) → ws !! j = Some x → sees_int m pgdir (va + 4 * Z.of_nat j) x.
Proof.
  intros Hs Hj k Hk. rewrite length_le_bytes in Hk. pose proof (lookup_lt_Some _ _ _ Hj).
  replace (va + 4 * Z.of_nat j + Z.of_nat k) with (va + Z.of_nat (4 * j + k)) by lia.
  rewrite Hs by (rewrite length_words; lia). by apply lookup_words.
Qed.
End stack.

(** C24. The arguments a program gets.  When the strings of [argv] and the pointers to them
    fit into the pages below [sz] that the user may access, [exec] leaves a stack on which
    [main] finds a return address, [argc], a pointer to the array of argument pointers,
    and that array, ended by a null pointer, whose elements point to the argument strings
    with their NUL; no other byte the user can see has changed. *)
Theorem exec_stack_args kend pid pgdir free s sz argv :
  KERNBASE < kend → aspace kend (pt_mem s) pgdir free → sz <= KERNBASE → Z.of_nat (length argv) <= MAXARG →
  let argc := Z.of_nat (length argv) in
  let sp := args_sp sz argv - 4 * (argc + 4) in
  0 <= sp → (∀ a, sp <= a < sz → user_ok (k_mem (pt_mem s)) pgdir a) →
  ∃ m, exec_stack pgdir sz argv (cpu0 pid) s = Ret (Some sp) (cpu0 pid) (put_mem m s) ∧
    let mem := k_mem m in
    sees_int mem pgdir sp 0xffffffff ∧ sees_int mem pgdir (sp + 4) argc ∧ sees_int mem pgdir (sp + 8) (sp + 12) ∧
    (∀ k a, argv !! k = Some a →
       ∃ q, sees_int mem pgdir (sp + 12 + 4 * Z.of_nat k) q ∧ sees mem pgdir q (a ++ [0])) ∧
    sees_int mem pgdir (sp + 12 + 4 * argc) 0 ∧
    ∀ a, 0 <= a < KERNBASE → a < sp ∨ sz <= a → ubyte mem pgdir a = ubyte (k_mem (pt_mem s)) pgdir a.
Proof.
  intros Hkend HA Hsz Hargc argc sp Hsp Hok. assert (KERNBASE < 2 ^ 32) as Hk by reflexivity.
  pose proof (args_sp_le sz argv) as Hle.
  destruct (push_args_spec kend Hkend pid pgdir free argv s sz 0) as (m1 & ptrs & E1 & Hc1 & Hf);
    [done|done|lia|intros a Ha; apply Hok; lia|lia|].
  pose proof (Forall2_length _ _ _ Hf) as Hlen. set (sp0 := args_sp sz argv) in *.
  assert (u32 (sp0 - (3 + Z.of_nat (length ptrs) + 1) * 4) = sp) as Esp by (rewrite Hlen, u32_small by lia; lia).
  set (words := ustack (Z.of_nat (length ptrs)) sp0 ptrs).
  assert (length words = 4 + length argv)%nat as Hwords by (unfold words, ustack; rewrite !length_app, Hlen; cbn; lia).
  destruct (copyout_sees kend Hkend pid pgdir free (put_mem m1 s) sp (words ≫= le_bytes 4)) as (m2 & E2 & Hc2 & Hs2).
  { by apply Hc1. }
  { done. }
  { rewrite length_words. lia. }
  { intros a Ha. rewrite length_words in Ha. eapply user_ok_map; [apply Hc1|]. apply Hok. lia. }
  assert (sp + Z.of_nat (length (words ≫= le_bytes 4)) = sp0) as Eend by (rewrite length_words; lia).
  rewrite Eend in Hc2. cbn [put_mem pt_mem] in Hc2.
  exists m2. split; [|split; [|split; [|split; [|split; [|split]]]]].
  - unfold exec_stack. erewrite bind_eq; [|exact E1]. cbv beta iota zeta. rewrite Esp. fold words.
    by erewrite bind_eq; [|exact E2].
  - replace sp with (sp + 4 * Z.of_nat 0) by lia. by eapply sees_word.
  - replace (sp + 4) with (sp + 4 * Z.of_nat 1) by lia. eapply sees_word; [done|]. unfold words, ustack, argc. by rewrite Hlen.
  - replace (sp + 8) with (sp + 4 * Z.of_nat 2) by lia. eapply sees_word; [done|]. unfold words, ustack. rewrite Hlen.
    cbn [app lookup list_lookup]. f_equal. rewrite u32_small by lia. lia.
  - intros k a Ha. destruct (Forall2_lookup_r _ _ _ _ _ Hf Ha) as (q & Hq & Hlo & Hhi & Hsee). exists q. split.
    + replace (sp + 12 + 4 * Z.of_nat k) with (sp + 4 * Z.of_nat (3 + k)) by lia. eapply sees_word; [done|].
      unfold words, ustack. rewrite lookup_app_r by (cbn; lia). cbn [length].
      replace (3 + k - 3)%nat with k by lia. rewrite lookup_app_l; [done|]. by eapply lookup_lt_Some.
    + eapply sees_same; [exact Hc2|lia|rewrite length_app; cbn; lia|rewrite length_app; cbn; lia|done].
  - replace (sp + 12 + 4 * argc) with (sp + 4 * Z.of_nat (3 + length ptrs)) by lia. eapply sees_word; [done|].
    unfold words, ustack. rewrite lookup_app_r by (cbn; lia). cbn [length].
    replace (3 + length ptrs - 3)%nat with (length ptrs) by lia. by rewrite lookup_app_r, Nat.sub_diag by lia.
  - intros a Ha Ho. rewrite (ch_same _ _ _ _ _ _ _ Hc2) by lia. apply (ch_same _ _ _ _ _ _ _ Hc1); lia.
Qed.

(** [main("sh", "-c")] on the small machine with two user pages. *)
Definition stack_state : pstate kstate fdstate :=
  PState [] None 1 vm_user (FdState (FState (LState (BState [] (Disk [] [])) log0) (Superblock 0 0 0 0 0 0 0) []) [] ∅).
Lemma exec_stack_args_witness :
  ∃ m, exec_stack vm_kend 8192 [[115; 104]; [45; 99]] (cpu0 1) stack_state = Ret (Some 8160) (cpu0 1) (put_mem m stack_state) ∧
    sees_int (k_mem m) vm_kend 8164 2.
Proof.
  destruct vm_user_aspace as [free HA].
  destruct (exec_stack_args vm_kend 1 vm_kend free stack_state 8192 [[115; 104]; [45; 99]]) as (m & E & _ & H & _).
  - reflexivity.
  - exact HA.
  - discriminate.
  - discriminate.
  - discriminate.
  - assert (forallb (λ a, match mapping (k_mem vm_user) vm_kend (8160 + Z.of_nat a) with
      Some e => negb (Z.land e PTE_U =? 0) | None => false end) (seq 0 32) = true) as H by (vm_compute; reflexivity).
    intros a Ha. change (args_sp 8192 [[115; 104]; [45; 99]] - _) with 8160 in Ha. rewrite forallb_forall in H.
    specialize (H (Z.to_nat (a - 8160)) ltac:(apply in_seq; lia)).
    replace (8160 + Z.of_nat (Z.to_nat (a - 8160))) with a in H by lia. cbn [stack_state pt_mem].
    destruct (mapping (k_mem vm_user) vm_kend a) as [e|] eqn:He; [|discriminate]. exists e. split; [done|].
    by apply negb_true_iff, Z.eqb_neq in H.
  - exists m. split; [exact E|exact H].
Defined.
