(* ===== verification/Sysproc.v ===== *)
(** Process system calls ([sysproc.c]), the clock tick of [trap.c], and the dispatch of
    system calls ([syscall] of [syscall.c]). *)
From stdpp Require Import base list numbers strings gmap relations.
From Stdlib Require Import ZArith Lia.
From S2P Require Import Prelude Params Machine Spinlock Sleeplock Bio Log Fs Pipe Kalloc Vm VmSpec.
From S2P Require Import VmProps Proc File Syscall Sysfile Exec.
Local Open Scope Z_scope.
Local Open Scope xv6_scope.

(** * The kernel: processes, memory and files, and [ticks] *)
Record kernel := Kernel {
  kn_p : pstate kstate fdstate;
  kn_ticks : Z;
}.
Definition pr {A} (m : M (pstate kstate fdstate) A) : M kernel A :=
  lift kn_p (λ x s, Kernel x (kn_ticks s)) m.

Section calls.
Context (kend data : Z) (dsw : devsw) (cur : nat).
#[local] Instance the_mem : ProcMem kstate := kernel_mem kend data.
#[local] Instance the_files : ProcFiles kstate fdstate := kernel_files dsw.

Definition sys_fork : M kernel Z := pr (fork cur).
Definition sys_exit : M kernel Z := pr (exit cur) ;; ret 0.
Definition sys_wait : M kernel Z := pr (wait cur).
Definition sys_kill : M kernel Z :=
  a <- pr (argint cur 0) ;;
  match a with None => ret (-1) | Some pid => pr (kill pid) end.
Definition sys_getpid : M kernel Z := p <- pr (procp cur) ;; ret (p_pid p).

Definition sys_sbrk : M kernel Z :=
  a <- pr (argint cur 0) ;;
  match a with
  | None => ret (-1)
  | Some n =>
      p <- pr (procp cur) ;;
      let addr := s32 (p_sz p) in
      r <- pr (growproc cur n) ;;
      ret (if r <? 0 then -1 else addr)
  end.

(** The loop of [sys_sleep], with [tickslock] held; a thread that is woken up continues
    here.  [ticks - ticks0 < n] compares unsigned numbers. *)
Definition sys_sleep_loop (ticks0 n : Z) : M kernel Z :=
  s <- get ;;
  if u32 (kn_ticks s - ticks0) <? u32 n then
    p <- pr (procp cur) ;;
    if p_killed p then release LkTicks ;; ret (-1)
    else Spinlock.sleep ChTicks LkTicks ;; ret 0
  else release LkTicks ;; ret 0.
Definition sys_sleep : M kernel Z :=
  a <- pr (argint cur 0) ;;
  match a with
  | None => ret (-1)
  | Some n =>
      acquire LkTicks ;;
      s <- get ;;
      let ticks0 := kn_ticks s in
      sys_sleep_loop ticks0 n
  end.

Definition sys_uptime : M kernel Z :=
  acquire LkTicks ;;
  s <- get ;;
  let xticks := kn_ticks s in
  release LkTicks ;;
  ret (s32 xticks).

(** [case T_IRQ0 + IRQ_TIMER] of [trap], on the first CPU. *)
Definition timer_tick : M kernel unit :=
  acquire LkTicks ;;
  modify (λ s, Kernel (kn_p s) (u32 (kn_ticks s + 1))) ;;
  Spinlock.wakeup ChTicks ;;
  release LkTicks.

(** [syscalls[num]]; [junk] is what the page of a new pipe holds. *)
Definition syscalls (junk : list Z) (num : Z) : option (M kernel Z) :=
  match num with
  | 1 => Some sys_fork
  | 2 => Some sys_exit
  | 3 => Some sys_wait
  | 4 => Some (pr (sys_pipe kend data cur junk))
  | 5 => Some (pr (sys_read dsw cur))
  | 6 => Some sys_kill
  | 7 => Some (pr (sys_exec kend data dsw cur))
  | 8 => Some (pr (sys_fstat cur))
  | 9 => Some (pr (sys_chdir dsw cur))
  | 10 => Some (pr (sys_dup cur))
  | 11 => Some sys_getpid
  | 12 => Some sys_sbrk
  | 13 => Some sys_sleep
  | 14 => Some sys_uptime
  | 15 => Some (pr (sys_open kend data dsw cur))
  | 16 => Some (pr (sys_write dsw cur))
  | 17 => Some (pr (sys_mknod dsw cur))
  | 18 => Some (pr (sys_unlink dsw cur))
  | 19 => Some (pr (sys_link dsw cur))
  | 20 => Some (pr (sys_mkdir dsw cur))
  | 21 => Some (pr (sys_close kend data cur))
  | _ => None
  end.

Definition set_result (r : Z) : M kernel unit := pr (upd_proc cur (λ p, set_tf (set_eax (u32 r) (p_tf p)) p)).

(** The call, with its number in [eax], where the result goes.  The message about an
    unknown call is not modelled. *)
Definition syscall (junk : list Z) : M kernel unit :=
  p <- pr (procp cur) ;;
  let num := s32 (tf_eax (p_tf p)) in
  match syscalls junk num with
  | Some f => r <- f ;; set_result r
  | None => set_result (-1)
  end.
End calls.

(** * Properties *)

Lemma timer_tick_eq pid s : timer_tick (cpu0 pid) s = Ret tt (cpu0 pid) (Kernel (kn_p s) (u32 (kn_ticks s + 1))).
Proof.
  unfold timer_tick. erewrite bind_eq; [|apply acquire_cpu0]. cbv beta. erewrite bind_eq; [|done]. cbv beta.
  erewrite bind_eq; [|by apply wakeup_cpu1]. apply release_cpu1.
Qed.
Lemma ticks_eq pid k s s' :
  nsteps (λ s s', timer_tick (cpu0 pid) s = Ret tt (cpu0 pid) s') k s s' → 0 <= kn_ticks s < 2 ^ 32 →
  s' = Kernel (kn_p s) (u32 (kn_ticks s + Z.of_nat k)).
Proof.
  intros H. induction H as [s|k s s1 s2 Hst _ IH]; intros Hr.
  - rewrite Z.add_0_r, u32_small by done. by destruct s.
  - rewrite timer_tick_eq in Hst. injection Hst as <-. rewrite IH by (cbn; apply u32_range). cbn. f_equal.
    unfold u32. rewrite Zplus_mod_idemp_l. f_equal. lia.
Qed.

(** A process that calls [sleep(n)] sleeps for [n] clock ticks: woken up after [k] ticks
    since the call, it goes back to sleep while [k < n], and after that it returns 0, also
    when the 32-bit counter [ticks] wraps around in between ([n] is taken modulo 2^32, so
    a negative [n] sleeps for a very long time); it returns -1 at once when it has been
    killed. *)
Theorem sys_sleep_duration cur cpid pid n k s s' p :
  pt_proc (kn_p s) !! cur = Some p → 0 <= kn_ticks s < 2 ^ 32 → Z.of_nat k < 2 ^ 32 →
  nsteps (λ s s', timer_tick (cpu0 cpid) s = Ret tt (cpu0 cpid) s') k s s' →
  sys_sleep_loop cur (kn_ticks s) n (cpu1 pid LkTicks) s' =
  if decide (Z.of_nat k < u32 n) then
    if p_killed p then Ret (-1) (cpu0 pid) s' else Sleep ChTicks (cpu1 pid LkPtable) s'
  else Ret 0 (cpu0 pid) s'.
Proof.
  intros Hp Hr Hk ->%ticks_eq; [|done]. unfold sys_sleep_loop. erewrite bind_eq; [|done]. cbv beta. cbn [kn_ticks].
  assert (u32 (u32 (kn_ticks s + Z.of_nat k) - kn_ticks s) = Z.of_nat k) as ->.
  { unfold u32. rewrite Zminus_mod_idemp_l. replace (kn_ticks s + Z.of_nat k - kn_ticks s) with (Z.of_nat k) by lia.
    apply Z.mod_small. lia. }
  destruct (Z.ltb_spec (Z.of_nat k) (u32 n)).
  - rewrite decide_True by done. erewrite bind_eq.
    2:{ unfold pr, lift. cbn [kn_p]. rewrite (procp_eq cur (kn_p s) p Hp). done. }
    cbv beta. destruct (p_killed p).
    + by erewrite bind_eq; [|apply release_cpu1].
    + unfold bind. by rewrite sleep_cpu1.
  - rewrite decide_False by lia. by erewrite bind_eq; [|apply release_cpu1].
Qed.

(** A process that slept when the counter was about to wrap. *)
Definition nap_fs : fdstate := FdState (FState (LState (BState [] (Disk [] [])) log0) (Superblock 0 0 0 0 0 0 0) []) [] ∅.
Definition nap (ticks : Z) : kernel := Kernel (PState [proc_zero] None 2 (KState false 0 ∅) nap_fs) ticks.
Lemma sys_sleep_duration_witness :
  sys_sleep_loop 0 (2 ^ 32 - 1) 2 (cpu1 1 LkTicks) (nap 1) = Ret 0 (cpu0 1) (nap 1).
Proof.
  apply (sys_sleep_duration 0 0 1 2 2 (nap (2 ^ 32 - 1)) (nap 1) proc_zero); [reflexivity|vm_compute; split; congruence|lia|].
  apply (nsteps_l _ _ _ (nap 0)); [reflexivity|]. apply nsteps_once. reflexivity.
Defined.

(** A system call number that is not in the table has no effect but the result -1 in
    [eax]: numbers outside 1..21, also negative ones, never reach the table. *)
Theorem syscall_unknown kend data dsw cur junk c s p :
  pt_proc (kn_p s) !! cur = Some p →
  let num := s32 (tf_eax (p_tf p)) in
  ¬ (1 <= num <= 21) →
  syscall kend data dsw cur junk c s =
  Ret tt c (Kernel (PState (alter (λ p, set_tf (set_eax (2 ^ 32 - 1) (p_tf p)) p) cur (pt_proc (kn_p s)))
                      (pt_initproc (kn_p s)) (pt_nextpid (kn_p s)) (pt_mem (kn_p s)) (pt_files (kn_p s))) (kn_ticks s)).
Proof.
  intros Hp num Hnum. unfold syscall. erewrite bind_eq.
  2:{ unfold pr, lift. by rewrite (procp_eq cur (kn_p s) p Hp). }
  cbv beta zeta. fold num. destruct s as [s t]. cbn [kn_p kn_ticks] in *.
  assert (syscalls kend data dsw cur junk num = None) as ->.
  { clearbody num. destruct num as [|q|q]; [done| |done]. unfold syscalls.
    do 5 (destruct q as [q|q|]; try done; try lia). }
  unfold set_result, pr, lift, upd_proc, bind. cbn. by rewrite Hp.
Qed.
Lemma syscall_unknown_witness :
  ∃ s', syscall (KERNBASE + 2 ^ 20) (KERNBASE + 2 ^ 20) (Devsw (λ _, None) (λ _, None)) 0 [] (cpu0 1) (nap 5) = Ret tt (cpu0 1) s'.
Proof.
  eexists. apply (syscall_unknown _ _ _ 0 [] (cpu0 1) (nap 5) proc_zero); [reflexivity|]. intros [H _]. by apply H.
Defined.
