(* ===== verification/SysfileProps.v ===== *)
(** File descriptors and the references they hold. *)
From stdpp Require Import base list numbers strings gmap.
From Stdlib Require Import ZArith Lia.
From S2P Require Import Prelude Params Machine Spinlock Sleeplock CString Bio Log Fs Pipe Kalloc KallocSpec.
From S2P Require Import Vm VmSpec VmProps Proc File FileSpec Syscall Sysfile.
Local Open Scope Z_scope.
Local Open Scope xv6_scope.

(** * Code that only looks *)

Definition looks {S A} (m : M S A) : Prop := ∀ c s a c' s', m c s = Ret a c' s' → c' = c ∧ s' = s.

Section looks.
Context {S : Type}.
Lemma looks_bind {A B} (m : M S A) (f : A → M S B) : looks m → (∀ a, looks (f a)) → looks (bind m f).
Proof.
  intros Hm Hf c s b c' s' H. unfold bind in H. destruct (m c s) as [a c1 s1| | | |] eqn:E; try done.
  apply Hm in E as [-> ->]. by eapply Hf.
Qed.
Lemma looks_ret {A} (a : A) : looks (ret a : M S A). Proof. by intros ????? [=]. Qed.
Lemma looks_hang {A} : looks (hang : M S A). Proof. by intros ?????. Qed.
Lemma looks_get : looks (get : M S S). Proof. by intros ????? [=]. Qed.
Lemma looks_deref {A} (o : option A) : looks (deref o : M S A). Proof. destruct o; by intros ????? [=]. Qed.
End looks.

Ltac looks :=
  repeat first
    [ apply looks_ret | apply looks_hang | apply looks_get | apply looks_deref
    | match goal with H : _ |- looks _ => apply H end
    | match goal with |- looks (bind _ _) => apply looks_bind; [|intros ?] end
    | match goal with |- looks (match ?x with _ => _ end) => destruct x end
    | progress cbv zeta ].

Section args.
Context {F : Type} (cur : nat).
Lemma procp_looks : looks (procp cur : M (pstate kstate F) proc).
Proof. unfold procp. looks. Qed.
Lemma pmem_looks {A} (m : M kstate A) : looks m → looks (pmem m : M (pstate kstate F) A).
Proof.
  intros Hm c s a c' s'. unfold pmem, lift. destruct (m c (pt_mem s)) as [b c1 s1| | | |] eqn:E; try done.
  apply Hm in E as [-> ->]. intros [= -> -> <-]. by rewrite pstate_eta.
Qed.
Lemma uload_looks d a : looks (uload d a).
Proof. unfold uload. looks. Qed.
Lemma uloads_looks d a n : looks (uloads d a n).
Proof. pose proof uload_looks. revert a. induction n; intros a; cbn [uloads]; looks. Qed.
Lemma fetchint_looks a : looks (fetchint cur a : M (pstate kstate F) (option Z)).
Proof. pose proof procp_looks. unfold fetchint, umem. looks. apply pmem_looks, uloads_looks. Qed.
Lemma argint_looks n : looks (argint cur n : M (pstate kstate F) (option Z)).
Proof. pose proof procp_looks. pose proof fetchint_looks. unfold argint. looks. Qed.
End args.
Lemma argfd_looks cur n : looks (argfd cur n).
Proof. pose proof (@procp_looks fdstate cur). pose proof (@argint_looks fdstate cur). unfold argfd. looks. Qed.

(** The references the descriptors of a process hold. *)
Definition held (ofile : list (option nat)) : list nat := omap id ofile.

Lemma held_close ofile fd f : ofile !! fd = Some (Some f) → held ofile ≡ₚ f :: held (<[fd := None]> ofile).
Proof.
  revert fd. induction ofile as [|o ofile IH]; intros [|fd]; cbn; try done.
  - by intros [= ->].
  - intros H. destruct o as [g|]; cbn; rewrite (IH _ H); [by rewrite Permutation_swap|done].
Qed.
Lemma held_open ofile fd f : ofile !! fd = Some None → held (<[fd := Some f]> ofile) ≡ₚ f :: held ofile.
Proof.
  revert fd. induction ofile as [|o ofile IH]; intros [|fd]; cbn; try done.
  - by intros [= ->].
  - intros H. destruct o as [g|]; cbn; rewrite (IH _ H); [by rewrite Permutation_swap|done].
Qed.
Lemma find_fd_some ofile k fd :
  find_fd ofile k = Some fd →
  (k <= fd)%nat ∧ ofile !! (fd - k)%nat = Some None ∧ ∀ j, (j < fd - k)%nat → ∃ f, ofile !! j = Some (Some f).
Proof.
  revert k. induction ofile as [|o ofile IH]; intros k; cbn; [done|]. destruct o as [f|].
  - intros H. destruct (IH _ H) as (Hle & Hfd & Hlow). split; [lia|].
    replace (fd - k)%nat with (S (fd - S k)) by lia. split; [done|]. intros [|j] Hj; [by exists f|]. apply Hlow. lia.
  - intros [= <-]. split; [lia|]. rewrite Nat.sub_diag. split; [done|]. lia.
Qed.

Section calls.
Context (kend data : Z) (Hkend : KERNBASE <= kend) (cur : nat) (pid : Z).
#[local] Instance the_mem : ProcMem kstate := kernel_mem kend data.
#[local] Instance the_pages : PageLaws kstate := kernel_pages kend data Hkend.
Implicit Types s : pstate kstate fdstate.

(** The file table agrees with the references: those of the descriptors of [cur], and
    those that other processes hold. *)
Definition refs_ok s (others : list nat) : Prop :=
  ∃ p l, pt_proc s !! cur = Some p ∧
    ftable_ok (pt_mem s) (fd_file (pt_files s)) (fd_pipe (pt_files s)) (held (p_ofile p) ++ others) l.

Lemma fl_ret {A} (m : M (kstate * fdstate) A) c s a c' s' :
  fl m c s = Ret a c' s' →
  ∃ x, m c (pt_mem s, pt_files s) = Ret a c' x ∧
    s' = PState (pt_proc s) (pt_initproc s) (pt_nextpid s) x.1 x.2.
Proof.
  unfold fl, pfiles, lift. destruct (m c (pt_mem s, pt_files s)) as [b c1 x| | | |]; try done.
  intros [= -> -> <-]. eauto.
Qed.
Lemma set_fd_ret fd o c s c' s' p :
  pt_proc s !! cur = Some p → set_fd cur fd o c s = Ret tt c' s' →
  c' = c ∧ s' = PState (alter (λ p, set_ofile (<[fd := o]> (p_ofile p)) p) cur (pt_proc s))
                  (pt_initproc s) (pt_nextpid s) (pt_mem s) (pt_files s).
Proof. intros Hp. unfold set_fd, upd_proc, bind. cbn. rewrite Hp. cbn. by intros [= -> <-]. Qed.

Lemma argfd_ret n c s fd f c' s' p :
  pt_proc s !! cur = Some p → argfd cur n c s = Ret (Some (fd, f)) c' s' →
  c' = c ∧ s' = s ∧ p_ofile p !! fd = Some (Some f).
Proof.
  intros Hp H. apply argfd_looks in H as Hl. destruct Hl as [-> ->]. split; [done|]. split; [done|].
  unfold argfd in H. unfold bind at 1 in H. destruct (argint cur n c s) as [a c1 s1| | | |] eqn:E; try done.
  apply argint_looks in E as [-> ->]. destruct a as [a|]; [|done]. unfold bind at 1 in H.
  rewrite (procp_eq cur s p Hp) in H. destruct (_ || _); [done|]. unfold bind at 1 in H.
  destruct (p_ofile p !! Z.to_nat a) as [[g|]|] eqn:Eg; try done. by injection H as <- <-.
Qed.

(** [dup] and [close] keep the file table in agreement with the descriptors.  [dup]
    returns the lowest free descriptor, which then names the same file, or fails and does
    nothing; [close] frees its descriptor.  In both cases the reference counts are again
    the numbers of descriptors and other references to each file. *)
Theorem dup_close_refs s others p r c' s' :
  pt_proc s !! cur = Some p → refs_ok s others →
  (sys_dup cur (cpu0 pid) s = Ret r c' s' →
     refs_ok s' others ∧
     (r = -1 ∧ s' = s ∨
      ∃ fd nfd f p', r = Z.of_nat nfd ∧ pt_proc s' !! cur = Some p' ∧
        p_ofile p !! fd = Some (Some f) ∧ p_ofile p !! nfd = Some None ∧
        p_ofile p' = <[nfd := Some f]> (p_ofile p) ∧
        ∀ j, (j < nfd)%nat → ∃ g, p_ofile p !! j = Some (Some g))) ∧
  (sys_close kend data cur (cpu0 pid) s = Ret r c' s' →
     refs_ok s' others ∧
     (r = -1 ∧ s' = s ∨
      ∃ fd f p', r = 0 ∧ pt_proc s' !! cur = Some p' ∧ p_ofile p !! fd = Some (Some f) ∧
        p_ofile p' = <[fd := None]> (p_ofile p))).
Proof using Hkend.
  intros Hp (p0 & l & Hp0 & Hok). rewrite Hp in Hp0. injection Hp0 as <-. split; intros H.
  - unfold sys_dup in H. unfold bind at 1 in H. destruct (argfd cur 0 (cpu0 pid) s) as [a c1 s1| | | |] eqn:Ea; try done.
    destruct a as [[fd f]|].
    2:{ apply argfd_looks in Ea as [-> ->]. injection H as <- <- <-. split; [by exists p, l|by left]. }
    destruct (argfd_ret _ _ _ _ _ _ _ p Hp Ea) as (-> & -> & Hfd). unfold fdalloc in H.
    unfold bind at 1 2 in H. rewrite (procp_eq cur s p Hp) in H.
    destruct (find_fd (p_ofile p) 0) as [nfd|] eqn:Hn; [|injection H as <- <- <-; split; [by exists p, l|by left]].
    apply find_fd_some in Hn as (_ & Hnone & Hlow). rewrite Nat.sub_0_r in Hnone, Hlow.
    unfold bind at 1 in H. destruct (set_fd cur nfd (Some f) (cpu0 pid) s) as [[] c2 s2| | | |] eqn:Es; try done.
    destruct (set_fd_ret _ _ _ _ _ _ p Hp Es) as [-> ->]. cbn in H. unfold bind at 1 in H.
    match type of H with match ?m with _ => _ end = _ => destruct m as [f' c3 s3| | | |] eqn:Ed; try done end.
    apply fl_ret in Ed as (x & Ed & ->). cbn [pt_mem pt_files] in Ed. injection H as <- <- <-.
    assert (f ∈ held (p_ofile p) ++ others) as Hin.
    { apply elem_of_app. left. rewrite (held_close _ _ _ Hfd). by left. }
    destruct (ft_own _ _ _ _ _ Hok _ Hin) as [fx Hfx]. pose proof (ft_ref _ _ _ _ _ Hok _ _ Hfx) as Href.
    apply refs_pos in Hin. rewrite (filedup_eq pid (pt_mem s, pt_files s) f fx Hfx) in Ed by lia. injection Ed as <- <- <-.
    set (p' := set_ofile (<[nfd := Some f]> (p_ofile p)) p).
    assert (alter (λ p, set_ofile (<[nfd := Some f]> (p_ofile p)) p) cur (pt_proc s) !! cur = Some p') as Hp'
      by (by rewrite list_lookup_alter_eq, Hp).
    split.
    + exists p', l. split; [done|]. eapply ftable_perm; [|eapply (filedup_ok (pt_mem s, pt_files s)); [done|done|lia]].
      cbn [p' p_ofile set_ofile]. by rewrite (held_open _ _ _ Hnone).
    + right. exists fd, nfd, f, p'. done.
  - unfold sys_close in H. unfold bind at 1 in H. destruct (argfd cur 0 (cpu0 pid) s) as [a c1 s1| | | |] eqn:Ea; try done.
    destruct a as [[fd f]|].
    2:{ apply argfd_looks in Ea as [-> ->]. injection H as <- <- <-. split; [by exists p, l|by left]. }
    destruct (argfd_ret _ _ _ _ _ _ _ p Hp Ea) as (-> & -> & Hfd).
    unfold bind at 1 in H. destruct (set_fd cur fd None (cpu0 pid) s) as [[] c2 s2| | | |] eqn:Es; try done.
    destruct (set_fd_ret _ _ _ _ _ _ p Hp Es) as [-> ->]. unfold bind at 1 in H.
    match type of H with match ?m with _ => _ end = _ => destruct m as [[] c3 s3| | | |] eqn:Ed; try done end.
    apply fl_ret in Ed as (x & Ed & ->). cbn [pt_mem pt_files] in Ed. injection H as <- <- <-.
    set (p' := set_ofile (<[fd := None]> (p_ofile p)) p).
    assert (alter (λ p, set_ofile (<[fd := None]> (p_ofile p)) p) cur (pt_proc s) !! cur = Some p') as Hp'
      by (by rewrite list_lookup_alter_eq, Hp).
    split; [|right; by exists fd, f, p'].
    destruct (fileclose_ok pid (pt_mem s, pt_files s) (held (p_ofile p) ++ others)
      (held (p_ofile p') ++ others) l f c3 x) as [l' Hok']; [done| |done|].
    { rewrite (held_close _ _ _ Hfd). done. }
    by exists p', l'.
Qed.
End calls.

(** * A process with one open file *)
Definition one_kend : Z := KERNBASE + PHYSTOP.
Lemma one_kend_ok : KERNBASE <= one_kend.
Proof. discriminate. Qed.
Definition one_proc : proc := set_ofile [Some 0%nat; None] (set_sz 12 (set_pgdir vm_kend proc_zero)).
Definition one_files : fdstate :=
  FdState (FState (LState (BState [] (Disk [] [])) log0) (Superblock 0 0 0 0 0 0 0) []) [File FD_INODE 1 true true 0 None 0] ∅.
Definition one_state : pstate kstate fdstate := PState [one_proc] None 2 (KState false 0 (k_mem vm_user)) one_files.

Lemma one_refs_ok : refs_ok one_kend one_kend one_kend_ok 0 one_state [].
Proof.
  exists one_proc, []. split; [done|]. cbn. split; try done.
  - intros [|f] x; [|done]. by intros [= <-].
  - intros f Hf. apply list_elem_of_singleton in Hf as ->. eauto.
  - intros [|f] x; [|done]. by intros [= <-].
  - intros [|f] x p w; [|done]. intros [= <-] [? _]. done.
  - intros [|f] [|g] x y p w; done.
  - split; cbn; [done|constructor|done|]. intros v (_ & H1 & H2). unfold one_kend in H1. lia.
Qed.

Lemma dup_close_refs_witness :
  ∃ s', sys_dup 0 (cpu0 1) one_state = Ret 1 (cpu0 1) s' ∧ refs_ok one_kend one_kend one_kend_ok 0 s' [].
Proof.
  assert (∃ s', sys_dup 0 (cpu0 1) one_state = Ret 1 (cpu0 1) s') as [s' H].
  { eexists. vm_compute. reflexivity. }
  exists s'. split; [exact H|].
  destruct (dup_close_refs one_kend one_kend one_kend_ok 0 1 one_state [] one_proc 1 (cpu0 1) s') as [Hd _];
    [reflexivity|exact one_refs_ok|]. exact (proj1 (Hd H)).
Defined.
