(* ===== verification/Umalloc.v ===== *)
(** The memory allocator of user programs ([umalloc.c]), after Kernighan and Ritchie. *)
From stdpp Require Import base list numbers gmap option.
From Stdlib Require Import ZArith Lia.
From S2P Require Import Prelude Params Machine Kalloc.
Local Open Scope Z_scope.

(** [union header]: 8 bytes. *)
Record header := Header { h_ptr : Z; h_size : Z }.
Definition sizeof_header : Z := 8.

(** The headers in memory by their address, [freep], and the end of the process's memory. *)
Record ustate := UState { u_hdr : gmap Z header; u_freep : Z; u_brk : Z }.

Definition set_hdr (p : Z) (h : header) (s : ustate) : ustate := UState (<[p := h]> (u_hdr s)) (u_freep s) (u_brk s).
Definition set_freep (p : Z) (s : ustate) : ustate := UState (u_hdr s) p (u_brk s).
(** [p + n] for a [Header *]. *)
Definition hadd (p n : Z) : Z := u32 (p + sizeof_header * n).

(** The loop of [free]: where the block [bp] goes. *)
Fixpoint free_search (fuel : nat) (m : gmap Z header) (bp p : Z) : option Z :=
  match fuel with
  | O => None
  | S fuel' =>
      x ← m !! p;
      if (p <? bp) && (bp <? h_ptr x) then Some p
      else if (h_ptr x <=? p) && ((p <? bp) || (bp <? h_ptr x)) then Some p
      else free_search fuel' m bp (h_ptr x)
  end.

(** [p] is before [bp] in the list now: join with the block behind, and the one in front. *)
Definition free_link (bp p : Z) (s : ustate) : option ustate :=
  b ← u_hdr s !! bp;
  x ← u_hdr s !! p;
  b ← (if hadd bp (h_size b) =? h_ptr x then
         n ← u_hdr s !! h_ptr x; Some (Header (h_ptr n) (u32 (h_size b + h_size n)))
       else Some (Header (h_ptr x) (h_size b)));
  let s := set_hdr bp b s in
  x ← u_hdr s !! p;
  let s := if hadd p (h_size x) =? bp then set_hdr p (Header (h_ptr b) (u32 (h_size x + h_size b))) s
           else set_hdr p (Header bp (h_size x)) s in
  Some (set_freep p s).

(** The loop of [free] passes every header at most once. *)
Definition free (ap : Z) (s : ustate) : option ustate :=
  let bp := ap - sizeof_header in
  p ← free_search (S (S (size (u_hdr s)))) (u_hdr s) bp (u_freep s);
  free_link bp p s.

Section malloc.
(** The address of [base], and whether the kernel gives a process of a size so many bytes more. *)
Context (base : Z) (grant : Z → Z → bool).

(** [sbrk(n)] of the kernel ([sys_sbrk] and [growproc]): the old size, or -1. *)
Definition sbrk (n : Z) (s : ustate) : Z * ustate :=
  let sz := u_brk s in
  if 0 <? n then
    if grant sz n then (sz, UState (u_hdr s) (u_freep s) (sz + n)) else (-1, s)
  else
    let sz' := u32 (sz + n) in
    (sz, UState (u_hdr s) (u_freep s) (if sz <=? sz' then sz else sz')).

(** The new header is stored in the memory the kernel gave; a process without that memory
    faults. *)
Definition morecore (nu : Z) (s : ustate) : option (Z * ustate) :=
  let nu := if nu <? 4096 then 4096 else nu in
  let '(p, s) := sbrk (s32 (u32 (nu * sizeof_header))) s in
  if p =? -1 then Some (0, s)
  else if PGROUNDUP (u_brk s) <? p + sizeof_header then None
  else
    let ptr := match u_hdr s !! p with Some h => h_ptr h | None => 0 end in
    s ← free (p + sizeof_header) (set_hdr p (Header ptr nu) s);
    Some (u_freep s, s).

(** Take [nunits] from the block [p], whose predecessor is [prevp]. *)
Definition malloc_take (nunits prevp p : Z) (s : ustate) : option (Z * ustate) :=
  x ← u_hdr s !! p;
  if h_size x =? nunits then
    q ← u_hdr s !! prevp;
    Some (p + sizeof_header, set_freep prevp (set_hdr prevp (Header (h_ptr x) (h_size q)) s))
  else
    let s := set_hdr p (Header (h_ptr x) (h_size x - nunits)) s in
    let p := hadd p (h_size x - nunits) in
    let ptr := match u_hdr s !! p with Some h => h_ptr h | None => 0 end in
    Some (p + sizeof_header, set_freep prevp (set_hdr p (Header ptr nunits) s)).

Fixpoint malloc_loop (fuel : nat) (nunits prevp p : Z) (s : ustate) : option (Z * ustate) :=
  match fuel with
  | O => None
  | S fuel' =>
      x ← u_hdr s !! p;
      if nunits <=? h_size x then malloc_take nunits prevp p s
      else if p =? u_freep s then
        r ← morecore nunits s;
        let '(p, s) := r in
        if p =? 0 then Some (0, s)
        else x ← u_hdr s !! p; malloc_loop fuel' nunits p (h_ptr x) s
      else malloc_loop fuel' nunits p (h_ptr x) s
  end.

Definition nunits_of (nbytes : Z) : Z := u32 (u32 (nbytes + sizeof_header - 1) / sizeof_header + 1).

(** The list is passed at most once before, and once after, [morecore]. *)
Definition malloc (nbytes : Z) (s : ustate) : option (Z * ustate) :=
  let s := if u_freep s =? 0 then set_freep base (set_hdr base (Header base 0) s) else s in
  x ← u_hdr s !! u_freep s;
  malloc_loop (2 * size (u_hdr s) + 4) (nunits_of nbytes) (u_freep s) (h_ptr x) s.
End malloc.
