(* ===== verification/UmallocFree.v ===== *)
(** The free list of the user memory allocator: where [free] finds the place of a block, and how it links it. *)
From stdpp Require Import base list numbers gmap option.
From Stdlib Require Import ZArith Lia.
From S2P Require Import Prelude Params Machine Kalloc Umalloc.
Local Open Scope Z_scope.

(** * The free list *)

(** Blocks are pairs of an address and a number of units. *)
Notation block := (Z * Z)%type.
Definition bend (b : block) : Z := b.1 + sizeof_header * b.2.
Definition in_block (b : block) (x : Z) : Prop := b.1 <= x < bend b.
(** No byte is in both. *)
Definition apart (b c : block) : Prop := ∀ x, in_block b x → ¬ in_block c x.
Definition covers (R : list block) (x : Z) : Prop := ∃ b, b ∈ R ∧ in_block b x.

Lemma apart_cases b c : 1 <= b.2 → 1 <= c.2 → apart b c → bend b <= c.1 ∨ bend c <= b.1.
Proof.
  intros Hb Hc Ha. destruct (decide (bend b <= c.1)); [by left|right].
  destruct (decide (bend c <= b.1)); [done|]. destruct (Ha (Z.max b.1 c.1)); unfold in_block, bend, sizeof_header in *; lia.
Qed.
Lemma apart_sym b c : apart b c → apart c b.
Proof. intros H x Hc Hb. by apply (H x). Qed.

(** Where the list [L], whose last block points to [z], starts. *)
Definition hd_addr (L : list block) (z : Z) : Z := match L with [] => z | b :: _ => b.1 end.

(** The blocks [L] are linked in the headers [m], the last one to [z]. *)
Fixpoint seg (m : gmap Z header) (L : list block) (z : Z) : Prop :=
  match L with
  | [] => True
  | b :: L' => m !! b.1 = Some (Header (hd_addr L' z) b.2) ∧ seg m L' z
  end.

Lemma hd_addr_app L1 L2 z : hd_addr (L1 ++ L2) z = hd_addr L1 (hd_addr L2 z).
Proof. by destruct L1. Qed.

Lemma seg_app m L1 L2 z : seg m (L1 ++ L2) z ↔ seg m L1 (hd_addr L2 z) ∧ seg m L2 z.
Proof.
  induction L1 as [|b L1 IH]; cbn [app seg]; [tauto|]. rewrite IH, hd_addr_app. tauto.
Qed.

Lemma seg_frame m L z a h : (∀ b, b ∈ L → b.1 ≠ a) → seg m L z → seg (<[a := h]> m) L z.
Proof.
  induction L as [|b L IH]; intros Hne; [done|]. intros [Hb HL]. split.
  - rewrite lookup_insert_ne; [done|]. intros E. by apply (Hne b (list_elem_of_here _ _)).
  - apply IH; [|done]. intros c Hc. apply Hne. by right.
Qed.

Lemma seg_lookup m L z b : seg m L z → b ∈ L → ∃ p, m !! b.1 = Some (Header p b.2).
Proof.
  induction L as [|c L IH]; intros HL Hb; [by apply not_elem_of_nil in Hb|]. destruct HL as [Hc HL].
  apply elem_of_cons in Hb as [->|Hb]; [eauto|by apply IH].
Qed.

(** The blocks [R] are sorted and never touch; they start behind [lo] and end before [hi]. *)
Fixpoint asc (lo : Z) (R : list block) (hi : Z) : Prop :=
  match R with
  | [] => True
  | b :: R' => lo < b.1 ∧ 1 <= b.2 ∧ bend b <= hi ∧ asc (bend b) R' hi
  end.

Lemma asc_elem lo R hi b : asc lo R hi → b ∈ R → lo < b.1 ∧ 1 <= b.2 ∧ bend b <= hi.
Proof.
  revert lo. induction R as [|c R IH]; intros lo Ha Hb; [by apply not_elem_of_nil in Hb|]. destruct Ha as (H1 & H2 & H3 & Ha).
  apply elem_of_cons in Hb as [->|Hb]; [done|]. destruct (IH _ Ha Hb) as (H4 & H5 & H6). unfold bend, sizeof_header in *. lia.
Qed.

Lemma asc_weaken lo lo' R hi hi' : lo' <= lo → hi <= hi' → asc lo R hi → asc lo' R hi'.
Proof.
  revert lo lo'. induction R as [|b R IH]; intros lo lo' Hlo Hhi Ha; [done|]. destruct Ha as (H1 & H2 & H3 & Ha).
  split; [lia|]. split; [done|]. split; [lia|]. by eapply IH; [| |done].
Qed.

Fixpoint last_end (lo : Z) (R : list block) : Z := match R with [] => lo | b :: R' => last_end (bend b) R' end.

Lemma asc_app lo X Y hi : asc lo (X ++ Y) hi ↔ asc lo X hi ∧ asc (last_end lo X) Y hi.
Proof.
  revert lo. induction X as [|b X IH]; intros lo; cbn [app asc last_end]; [tauto|].
  rewrite IH. tauto.
Qed.

Lemma asc_last lo X hi : asc lo X hi → lo <= last_end lo X ∧ (∀ b, b ∈ X → bend b <= last_end lo X).
Proof.
  revert lo. induction X as [|b X IH]; intros lo Ha.
  { split; [done|]. intros b Hb. by apply not_elem_of_nil in Hb. }
  destruct Ha as (H1 & H2 & H3 & Ha). cbn [last_end]. destruct (IH _ Ha) as [H4 H5].
  split; [unfold bend, sizeof_header in *; lia|]. intros c Hc. apply elem_of_cons in Hc as [->|Hc]; [done|by apply H5].
Qed.

(** A block apart from all of [R] has its place in [R]. *)
Lemma asc_split lo R hi b :
  asc lo R hi → 1 <= b.2 → (∀ c, c ∈ R → apart b c) →
  ∃ X Y, R = X ++ Y ∧ (∀ c, c ∈ X → bend c <= b.1) ∧ (∀ c, c ∈ Y → bend b <= c.1).
Proof.
  revert lo. induction R as [|c R IH]; intros lo Ha Hb Hap.
  { exists [], []. split; [done|]. split; intros c Hc; by apply not_elem_of_nil in Hc. }
  destruct Ha as (H1 & H2 & H3 & Ha). destruct (apart_cases b c Hb H2 (Hap c (list_elem_of_here _ _))) as [Hlt|Hgt].
  - exists [], (c :: R). split; [done|]. split; [intros d Hd; by apply not_elem_of_nil in Hd|].
    intros d [->|Hd]%elem_of_cons; [done|]. destruct (asc_elem _ _ _ d Ha Hd) as (H4 & _). unfold bend, sizeof_header in *. lia.
  - destruct (IH _ Ha Hb) as (X & Y & -> & HX & HY); [intros d Hd; apply Hap; by right|].
    exists (c :: X), Y. split; [done|]. split; [|done]. intros d [->|Hd]%elem_of_cons; [done|by apply HX].
Qed.

(** Addresses go up. *)
Fixpoint incr (x : Z) (L : list block) : Prop :=
  match L with [] => True | b :: L' => x < b.1 ∧ incr b.1 L' end.

Lemma asc_incr lo R hi x : asc lo R hi → x <= lo → incr x R.
Proof.
  revert lo x. induction R as [|b R IH]; intros lo x Ha Hx; [done|]. destruct Ha as (H1 & H2 & H3 & Ha).
  split; [lia|]. apply (IH (bend b)); [done|]. unfold bend, sizeof_header. lia.
Qed.
Lemma incr_elem x L b : incr x L → b ∈ L → x < b.1.
Proof.
  revert x. induction L as [|c L IH]; intros x Hi Hb; [by apply not_elem_of_nil in Hb|]. destruct Hi as [H1 Hi].
  apply elem_of_cons in Hb as [->|Hb]; [done|]. specialize (IH _ Hi Hb). lia.
Qed.
Lemma incr_suffix x U b V : incr x (U ++ b :: V) → incr b.1 V.
Proof. revert x. induction U as [|c U IH]; intros x; cbn [app incr]; [tauto|]. intros [_ H]. by eapply IH. Qed.

Lemma incr_nodup x L : incr x L → NoDup (fst <$> L).
Proof.
  revert x. induction L as [|b L IH]; intros x Hi; [constructor|]. destruct Hi as [_ Hi]. rewrite fmap_cons. constructor; [|by eapply IH].
  intros (c & E & Hc)%list_elem_of_fmap. pose proof (incr_elem _ _ _ Hi Hc). lia.
Qed.

(** There are at least as many headers as blocks in the list. *)
Lemma seg_size m L z x : seg m L z → incr x L → (length L <= size m)%nat.
Proof.
  intros Hs Hi. assert (length L = size (list_to_set (fst <$> L) : gset Z)) as ->.
  { rewrite size_list_to_set by (by eapply incr_nodup). by rewrite length_fmap. }
  rewrite <- (size_dom (D := gset Z) m). apply subseteq_size. intros a (b & -> & Hb)%elem_of_list_to_set%list_elem_of_fmap.
  destruct (seg_lookup _ _ _ _ Hs Hb) as [p Hp]. apply elem_of_dom. eauto.
Qed.

(** The last block of a list that starts with [b]. *)
Fixpoint lastb (b : block) (L : list block) : block := match L with [] => b | c :: L' => lastb c L' end.
Lemma lastb_snoc b L : ∃ L', b :: L = L' ++ [lastb b L].
Proof.
  revert b. induction L as [|c L IH]; intros b; [by exists []|]. destruct (IH c) as [L' E]. exists (b :: L'). cbn. by rewrite E.
Qed.
Lemma lastb_app b L c L' : lastb b (L ++ c :: L') = lastb c L'.
Proof. revert b. induction L as [|d L IH]; intros b; [done|]. apply IH. Qed.

Section search.
Context (m : gmap Z header) (base bp : Z).

(** The search of [free] from a block in front of [bp] ... *)
Lemma search_fwd Z0 b Y fuel :
  seg m (b :: Z0 ++ Y) base → incr b.1 (Z0 ++ Y) → b.1 < bp → (∀ c, c ∈ Z0 → c.1 < bp) → (∀ c, c ∈ Y → bp < c.1) →
  base <= b.1 → (length Z0 < fuel)%nat → free_search fuel m bp b.1 = Some (lastb b Z0).1.
Proof.
  revert b fuel. induction Z0 as [|c Z0 IH]; intros b fuel [Hb Hs] Hi Hlt HZ HY Hbase Hf; (destruct fuel as [|fuel]; [cbn in Hf; lia|]); cbn [free_search].
  - rewrite Hb. cbn [mbind option_bind h_ptr app lastb]. destruct Y as [|y Y]; cbn [hd_addr].
    + destruct (Z.ltb_spec b.1 bp); [|lia]. cbn [andb orb]. destruct (Z.ltb_spec bp base); [done|]. by destruct (Z.leb_spec base b.1); [|lia].
    + specialize (HY y (list_elem_of_here _ _)). by replace ((b.1 <? bp) && (bp <? y.1)) with true by lia.
  - rewrite Hb. cbn [mbind option_bind h_ptr app hd_addr lastb]. destruct Hi as [Hbc Hi]. pose proof (HZ c (list_elem_of_here _ _)).
    replace (bp <? c.1) with false by lia. replace (c.1 <=? b.1) with false by lia. rewrite andb_false_r. cbn [andb].
    apply IH; try done; [intros d Hd; apply HZ; by right|lia|cbn in Hf; lia].
Qed.

(** ... and from a block behind it, which leads to [base]. *)
Lemma search_wrap Z0 b fuel :
  seg m (b :: Z0) base → incr b.1 Z0 → bp < b.1 → base < bp →
  free_search (S (length Z0) + fuel) m bp b.1 = free_search fuel m bp base.
Proof.
  revert b. induction Z0 as [|c Z0 IH]; intros b [Hb Hs] Hi Hlt Hbase; cbn [length plus free_search]; rewrite Hb; cbn [mbind option_bind h_ptr hd_addr].
  - replace (b.1 <? bp) with false by lia. cbn [andb orb]. replace (bp <? base) with false by lia. by rewrite andb_false_r.
  - destruct Hi as [Hbc Hi]. replace (b.1 <? bp) with false by lia. cbn [andb orb]. replace (c.1 <=? b.1) with false by lia. cbn [andb].
    apply (IH c); try done. lia.
Qed.
End search.

Section free_search.
Context (m : gmap Z header) (base bp : Z) (X Y : list block).
Context (Hseg : seg m ((base, 0) :: X ++ Y) base) (Hincr : incr base (X ++ Y)) (Hb : base < bp).
Context (HX : ∀ c, c ∈ X → c.1 < bp) (HY : ∀ c, c ∈ Y → bp < c.1).

(** From anywhere in the list, [free] finds the block in front of [bp]. *)
Lemma free_search_spec f fuel :
  f ∈ (base, 0) :: X ++ Y → (length ((base, 0%Z) :: X ++ Y) < fuel)%nat →
  free_search fuel m bp f.1 = Some (lastb (base, 0) X).1.
Proof using All.
  intros Hf Hfuel. cbn [length] in Hfuel. rewrite length_app in Hfuel.
  assert (∀ k, (length X < k)%nat → free_search k m bp base = Some (lastb (base, 0) X).1) as Hfwd.
  { intros k Hk. apply (search_fwd m base bp X (base, 0) Y k); try done. }
  rewrite app_comm_cons in Hf. apply elem_of_app in Hf as [Hf|Hf].
  - apply elem_of_cons in Hf as [->|Hf]; [apply Hfwd; lia|]. apply list_elem_of_split in Hf as (U & V & ->).
    rewrite lastb_app. apply (search_fwd m base bp V f Y fuel).
    + rewrite <- app_assoc in Hseg. change (seg m (((base, 0) :: U) ++ (f :: V ++ Y)) base) in Hseg. by apply seg_app in Hseg as [_ ?].
    + rewrite <- app_assoc in Hincr. by eapply incr_suffix.
    + apply HX. apply elem_of_app. right. by left.
    + intros c Hc. apply HX. apply elem_of_app. right. by right.
    + done.
    + assert (base < f.1); [|lia]. eapply incr_elem; [exact Hincr|]. apply elem_of_app. left. apply elem_of_app. right. by left.
    + rewrite length_app in Hfuel. cbn [length] in Hfuel. lia.
  - apply list_elem_of_split in Hf as (U & V & E). rewrite E in *.
    rewrite length_app in Hfuel. cbn [length] in Hfuel.
    replace fuel with (S (length V) + (fuel - S (length V)))%nat by lia. rewrite (search_wrap m base bp V f).
    + apply Hfwd. lia.
    + rewrite app_assoc, app_comm_cons in Hseg. by apply seg_app in Hseg as [_ ?].
    + rewrite app_assoc in Hincr. by eapply incr_suffix.
    + apply HY. apply elem_of_app. right. by left.
    + done.
Qed.
End free_search.

(** * Bytes covered by the list *)

Lemma covers_nil x : ¬ covers [] x.
Proof. intros (b & Hb & _). by apply not_elem_of_nil in Hb. Qed.
Lemma covers_cons b R x : covers (b :: R) x ↔ in_block b x ∨ covers R x.
Proof.
  split.
  - intros (c & [->|Hc]%elem_of_cons & Hx); [by left|right; by exists c].
  - intros [Hx|(c & Hc & Hx)]; [exists b|exists c]; split; [by left|done|by right|done].
Qed.
Lemma covers_app R R' x : covers (R ++ R') x ↔ covers R x ∨ covers R' x.
Proof.
  induction R as [|b R IH]; cbn [app].
  - split; [by right|]. intros [H|H]; [by destruct (covers_nil _ H)|done].
  - rewrite !covers_cons, IH. tauto.
Qed.

(** * Changes of the links *)

Lemma lastb_elem c X : lastb c X ∈ c :: X.
Proof. destruct (lastb_snoc c X) as [L ->]. apply elem_of_app. right. by left. Qed.

(** Redirect and resize the last block of a list. *)
Lemma seg_relink m L q z z' n :
  seg m (L ++ [q]) z → NoDup (fst <$> (L ++ [q])) →
  seg (<[q.1 := Header z' n]> m) (L ++ [(q.1, n)]) z'.
Proof.
  intros [HL _]%seg_app Hnd. rewrite fmap_app in Hnd. apply list.NoDup_app in Hnd as (_ & Hq & _).
  apply seg_app. split.
  - apply seg_frame; [|done]. intros b Hb E. apply (Hq b.1); [by apply list_elem_of_fmap_2|]. rewrite E. by left.
  - cbn [seg fst snd hd_addr]. split; [|done]. by rewrite lookup_insert_eq.
Qed.

(** The last end of a sorted list. *)
Lemma last_end_snoc lo X q : last_end lo (X ++ [q]) = bend q.
Proof. revert lo. induction X as [|b X IH]; intros lo; [done|]. apply IH. Qed.
Lemma last_end_lastb lo b X : last_end lo (b :: X) = bend (lastb b X).
Proof. revert lo b. induction X as [|c X IH]; intros lo b; [done|]. exact (IH (bend b) c). Qed.
Lemma lastb_snoc_r c X q : lastb c (X ++ [q]) = q.
Proof. apply lastb_app. Qed.

Lemma incr_ne_base base L b : incr base L → b ∈ L → b.1 ≠ base.
Proof. intros Hi Hb. pose proof (incr_elem _ _ _ Hi Hb). lia. Qed.

(** * [free] *)

(** What linking a block into the free list [R] does. *)
Record linked (base lo hi bp n : Z) (R : list block) (s s' : ustate) (R' : list block) : Prop := Linked {
  lk_seg : seg (u_hdr s') ((base, 0) :: R') base;
  lk_asc : asc (lo - 1) R' hi;
  lk_freep : ∃ f, f ∈ (base, 0) :: R' ∧ u_freep s' = f.1;
  lk_brk : u_brk s' = u_brk s;
  lk_covers x : covers R' x ↔ covers R x ∨ in_block (bp, n) x;
  lk_len : (length R' <= S (length R))%nat;
  lk_fits : ∃ b, b ∈ R' ∧ n <= b.2;
  lk_frame a : a ≠ bp → a ≠ base → ¬ covers R a → u_hdr s' !! a = u_hdr s !! a;
}.

Section free_link.
Context (base lo hi bp n ptr : Z) (X Y : list block) (s : ustate).
Context (Hseg : seg (u_hdr s) ((base, 0) :: X ++ Y) base) (Hasc : asc (lo - 1) (X ++ Y) hi).
Context (Hbase : 0 <= base < lo) (Hlo : lo <= bp) (Hn : 1 <= n) (Hhi : bend (bp, n) <= hi) (Hmax : hi < 2 ^ 31).
Context (HX : ∀ c, c ∈ X → bend c <= bp) (HY : ∀ c, c ∈ Y → bend (bp, n) <= c.1).
Context (Hbp : u_hdr s !! bp = Some (Header ptr n)).

Lemma hadd_small p k : 0 <= p → 0 <= k → bend (p, k) < 2 ^ 32 → hadd p k = bend (p, k).
Proof using. intros Hp Hk Hb. unfold hadd, bend in *. apply Z.mod_small. cbn [fst snd] in *. unfold sizeof_header in *. lia. Qed.

(** [n'] units at [bp] and the blocks [Y'] behind them are the block and [Y]. *)
Record down (n' : Z) (Y' : list block) : Prop := Down {
  dn_le : n <= n';
  dn_hi : bend (bp, n') <= hi;
  dn_asc : asc (bend (bp, n')) Y' hi;
  dn_seg : seg (u_hdr s) Y' base;
  dn_len : (length Y' <= length Y)%nat;
  dn_sub c : c ∈ Y' → bp < c.1;
  dn_covers x : in_block (bp, n') x ∨ covers Y' x ↔ in_block (bp, n) x ∨ covers Y x;
}.

Lemma link_down :
  ∃ Y' n',
    (if hadd bp n =? hd_addr Y base then
       k ← u_hdr s !! hd_addr Y base; Some (Header (h_ptr k) (u32 (n + h_size k)))
     else Some (Header (hd_addr Y base) n)) = Some (Header (hd_addr Y' base) n') ∧ down n' Y'.
Proof using All.
  change ((base, 0) :: X ++ Y) with (((base, 0) :: X) ++ Y) in Hseg. apply seg_app in Hseg as [_ HsY].
  apply asc_app in Hasc as [_ HaY]. rewrite hadd_small by lia.
  destruct Y as [|y Y0] eqn:EY; cbn [hd_addr].
  { exists [], n. destruct (Z.eqb_spec (bend (bp, n)) base) as [E|_]; [unfold bend, sizeof_header in E; cbn in E; lia|].
    split; [done|]. split; rewrite ?EY; try done; try lia. intros c Hc. by apply not_elem_of_nil in Hc. }
  assert (Hlt : ∀ c, c ∈ y :: Y0 → bp < c.1).
  { intros c Hc. specialize (HY c Hc). unfold bend, sizeof_header in HY. cbn in HY. lia. }
  destruct HaY as (_ & Hy1 & Hy2 & HaY). destruct HsY as [Hy HsY]. pose proof (HY y (list_elem_of_here _ _)) as Hle.
  destruct (Z.eqb_spec (bend (bp, n)) y.1) as [E|Hne].
  - exists Y0, (n + y.2). rewrite Hy. cbn [mbind option_bind h_ptr h_size].
    assert (bend (bp, n + y.2) = bend y) as Eb by (unfold bend, sizeof_header in *; cbn [fst snd] in *; lia).
    split; [|split; rewrite ?EY; try done; try lia].
    + unfold u32. rewrite Z.mod_small; [done|]. unfold bend, sizeof_header in *. cbn [fst snd] in *. lia.
    + by rewrite Eb.
    + cbn. lia.
    + intros c Hc. apply Hlt. by right.
    + intros x. rewrite covers_cons. unfold in_block. rewrite Eb. cbn [fst snd].
      assert (bp < y.1 ∧ y.1 < bend y) by (unfold bend, sizeof_header in *; cbn [fst snd] in *; lia).
      split; [intros [?|?]|intros [?|[?|?]]]; try (by right; right); try (by right); try (left; lia).
      destruct (decide (x < y.1)); [left; lia|right; left; lia].
  - exists (y :: Y0), n. split; [done|]. split; rewrite ?EY; try done. split; [lia|]. by split_and!.
Qed.

(** The block in front of [bp], the last one of [(base, 0) :: X]. *)
Lemma link_pred q :
  q ∈ (base, 0) :: X → 0 <= q.1 < bp ∧ 0 <= q.2 ∧ bend q <= bp.
Proof using All.
  intros [->|Hq]%elem_of_cons; [unfold bend; cbn; lia|]. apply asc_app in Hasc as [HaX _].
  destruct (asc_elem _ _ _ _ HaX Hq) as (? & ? & _). specialize (HX q Hq). unfold bend, sizeof_header in *. lia.
Qed.

Section up.
Context (Y' : list block) (n' : Z) (L : list block) (q : block).
Context (Hdown : down n' Y') (HL : (base, 0) :: X = L ++ [q]).
Local Notation m1 := (<[bp := Header (hd_addr Y' base) n']> (u_hdr s)).

Lemma q_elem : q ∈ (base, 0) :: X.
Proof using HL. rewrite HL. apply elem_of_app. right. by left. Qed.

Lemma up_nodup : NoDup (fst <$> (L ++ [q])).
Proof using All.
  rewrite <- HL. apply (incr_nodup (base - 1)). split; [cbn; lia|]. apply asc_app in Hasc as [HaX _]. apply (asc_incr _ _ _ _ HaX). cbn. lia.
Qed.

Lemma up_seg h n2 : h_size h = n2 → seg (<[q.1 := h]> m1) (L ++ [(q.1, n2)]) (h_ptr h).
Proof using All.
  intros <-. pose proof link_pred as Hpred. destruct h as [z k]. cbn [h_ptr h_size]. apply (seg_relink _ _ _ (hd_addr Y base)); [|apply up_nodup].
  rewrite <- HL. change ((base, 0) :: X ++ Y) with (((base, 0) :: X) ++ Y) in Hseg. apply seg_app in Hseg as [HsX _].
  apply seg_frame; [|done]. intros c Hc. specialize (Hpred c Hc). lia.
Qed.

Lemma up_behind h : seg (<[q.1 := h]> m1) Y' base ∧ seg (<[q.1 := h]> m1) ((bp, n') :: Y') base.
Proof using All.
  pose proof (link_pred q q_elem). assert (seg (<[q.1 := h]> m1) Y' base) as HY'.
  { apply seg_frame; [intros c Hc; pose proof (dn_sub _ _ Hdown c Hc); lia|].
    apply seg_frame; [intros c Hc; pose proof (dn_sub _ _ Hdown c Hc); lia|]. apply (dn_seg _ _ Hdown). }
  split; [done|]. split; [|done]. cbn [fst snd]. rewrite lookup_insert_ne by lia. by rewrite lookup_insert_eq.
Qed.

Lemma up_frame h a : a ≠ bp → a ≠ base → ¬ covers (X ++ Y) a → <[q.1 := h]> m1 !! a = u_hdr s !! a.
Proof using All.
  intros Ha1 Ha2 Hc. rewrite !lookup_insert_ne; [done|done|]. intros <-. pose proof q_elem as Hq.
  apply elem_of_cons in Hq as [E|Hq']; [by rewrite E in Ha2|]. apply Hc, covers_app. left. exists q. split; [done|].
  apply asc_app in Hasc as [HaX _]. destruct (asc_elem _ _ _ _ HaX Hq') as (_ & ? & _). unfold in_block, bend, sizeof_header. lia.
Qed.

Lemma linked_join X0 :
  L = (base, 0) :: X0 → bend q = bp → ∀ s', u_hdr s' = <[q.1 := Header (hd_addr Y' base) (q.2 + n')]> m1 → u_freep s' = q.1 → u_brk s' = u_brk s →
  linked base lo hi bp n (X ++ Y) s s' (X0 ++ (q.1, q.2 + n') :: Y').
Proof using All.
  intros EL Eq s' Em Ef Eb. pose proof (up_seg (Header (hd_addr Y' base) (q.2 + n')) _ eq_refl) as Hs. cbn [h_ptr] in Hs.
  pose proof (proj1 (up_behind (Header (hd_addr Y' base) (q.2 + n')))) as HsY. pose proof (up_frame (Header (hd_addr Y' base) (q.2 + n'))) as Hfr.
  rewrite <- Em in Hs, HsY, Hfr. pose proof (link_pred q q_elem) as Hq. pose proof HL as HL0. rewrite EL in HL0. injection HL0 as EX. destruct Hdown.
  assert (bend (q.1, q.2 + n') = bend (bp, n')) as Ebd by (unfold bend in *; cbn [fst snd] in *; lia).
  split; try done.
  - change ((base, 0) :: X0 ++ (q.1, q.2 + n') :: Y') with (((base, 0) :: X0) ++ [(q.1, q.2 + n')] ++ Y'). rewrite app_assoc, <- EL. apply seg_app. by split.
  - pose proof (proj1 (proj1 (asc_app _ _ _ _) Hasc)) as HaX. rewrite EX in HaX. apply asc_app in HaX as [Ha0 (Ha1 & Ha2 & Ha3 & _)].
    apply asc_app. split; [done|]. cbn [asc]. rewrite Ebd. cbn [fst snd]. split_and!; try done. lia.
  - exists (q.1, q.2 + n'). split; [|done]. right. apply elem_of_app. right. by left.
  - intros x. rewrite EX, !covers_app, covers_cons. specialize (dn_covers0 x).
    assert (in_block (q.1, q.2 + n') x ↔ in_block q x ∨ in_block (bp, n') x) as ->; [|rewrite covers_cons; pose proof (covers_nil x); tauto].
    unfold in_block. rewrite Ebd, Eq. cbn [fst snd]. unfold bend, sizeof_header in *. cbn [fst snd] in *. lia.
  - rewrite EX, !length_app. cbn [length]. lia.
  - exists (q.1, q.2 + n'). split; [apply elem_of_app; right; by left|]. cbn. lia.
Qed.

Lemma linked_apart :
  bend q ≠ bp → ∀ s', u_hdr s' = <[q.1 := Header bp q.2]> m1 → u_freep s' = q.1 → u_brk s' = u_brk s →
  linked base lo hi bp n (X ++ Y) s s' (X ++ (bp, n') :: Y').
Proof using All.
  intros Eq s' Em Ef Eb. pose proof (up_seg (Header bp q.2) _ eq_refl) as Hs. cbn [h_ptr] in Hs. rewrite <- surjective_pairing, <- HL in Hs.
  pose proof (proj2 (up_behind (Header bp q.2))) as HsY. pose proof (up_frame (Header bp q.2)) as Hfr.
  rewrite <- Em in Hs, HsY, Hfr. pose proof (link_pred q q_elem) as Hq. destruct Hdown.
  split; try done.
  - change ((base, 0) :: X ++ (bp, n') :: Y') with (((base, 0) :: X) ++ (bp, n') :: Y'). apply seg_app. by split.
  - apply asc_app. split; [by apply asc_app in Hasc as [? _]|]. split_and!; try done; [|cbn; lia]. cbn [fst].
    destruct X as [|b X1] eqn:EX; [cbn; lia|]. rewrite last_end_lastb. destruct (lastb_snoc b X1) as [L1 EL1].
    rewrite EL1 in HL. change ((base, 0) :: L1 ++ [lastb b X1]) with (((base, 0) :: L1) ++ [lastb b X1]) in HL. apply app_inj_tail in HL as [_ E]. rewrite E. lia.
  - exists q. split; [|done]. change ((base, 0) :: X ++ (bp, n') :: Y') with (((base, 0) :: X) ++ (bp, n') :: Y'). apply elem_of_app. left. apply q_elem.
  - intros x. rewrite !covers_app, covers_cons. specialize (dn_covers0 x). tauto.
  - rewrite !length_app. cbn [length]. lia.
  - exists (bp, n'). split; [apply elem_of_app; right; by left|]. done.
Qed.
End up.

Lemma free_link_spec :
  ∃ s' R', free_link bp (lastb (base, 0) X).1 s = Some s' ∧ linked base lo hi bp n (X ++ Y) s s' R'.
Proof using All.
  destruct link_down as (Y' & n' & Hdown & Hd). destruct (lastb_snoc (base, 0) X) as [L EL]. set (q := lastb (base, 0) X) in *. clearbody q.
  pose proof (link_pred q (q_elem L q EL)) as (Hq1 & Hq2 & Hq3).
  assert (u_hdr s !! q.1 = Some (Header (hd_addr Y base) q.2)) as Eq.
  { pose proof Hseg as Hs. change ((base, 0) :: X ++ Y) with (((base, 0) :: X) ++ Y) in Hs. rewrite EL in Hs. by apply seg_app in Hs as [[_ [H _]]%seg_app _]. }
  unfold free_link. rewrite Hbp. rewrite Eq. cbn [mbind option_bind h_size h_ptr] in Hdown |- *. rewrite Hdown.
  cbn [mbind option_bind u_hdr set_hdr]. rewrite lookup_insert_ne, Eq by lia. cbn [mbind option_bind h_size h_ptr].
  assert (hadd q.1 q.2 = bend q) as ->.
  { rewrite (surjective_pairing q) in Hq3 |- * at 3. apply hadd_small; [lia..|]. unfold bend, sizeof_header in *. cbn [fst snd] in *. lia. }
  destruct (Z.eqb_spec (bend q) bp) as [E|Hqne].
  - assert (∃ X0, L = (base, 0) :: X0) as [X0 E0].
    { destruct L as [|c L]; [|injection EL as <- _; by eexists]. injection EL as <- _. unfold bend in E. cbn in E. lia. }
    do 2 eexists. split; [reflexivity|]. apply (linked_join Y' n' L q Hd EL X0 E0 E); [|done..]. cbn [u_hdr set_freep set_hdr].
    do 2 f_equal. apply Z.mod_small. destruct Hd. unfold bend, sizeof_header in *. cbn [fst snd] in *. lia.
  - do 2 eexists. split; [reflexivity|]. by apply (linked_apart Y' n' L q Hd EL).
Qed.
End free_link.
