(* ===== verification/UmallocProps.v ===== *)
(** The user memory allocator hands out disjoint blocks of the heap. *)
From stdpp Require Import base list numbers gmap option.
From Stdlib Require Import ZArith Lia.
From S2P Require Import Prelude Params Machine Kalloc KallocSpec Umalloc UmallocFree.
Local Open Scope Z_scope.

(** * The heap *)

(** Some allocated block has the byte [x]; [A] has the blocks' sizes by their addresses. *)
Definition owned (A : gmap Z Z) (x : Z) : Prop := ∃ a n, A !! a = Some n ∧ in_block (a, n) x.

Section heap.
(** The address of [base], the end of the program's data, and what the kernel grants. *)
Context (base lo : Z) (grant : Z → Z → bool).

(** The free blocks [R] and the allocated ones [A] divide the heap up. *)
Record heap_ok (s : ustate) (R : list block) (A : gmap Z Z) : Prop := HeapOk {
  hp_seg : seg (u_hdr s) ((base, 0) :: R) base;
  hp_asc : asc (lo - 1) R (u_brk s);
  hp_freep : ∃ f, f ∈ (base, 0) :: R ∧ u_freep s = f.1;
  hp_brk : lo <= u_brk s < 2 ^ 31;
  hp_block a n : A !! a = Some n → (∃ p, u_hdr s !! a = Some (Header p n)) ∧ 1 <= n ∧ lo <= a ∧ bend (a, n) <= u_brk s;
  hp_free a n x : A !! a = Some n → in_block (a, n) x → ¬ covers R x;
  hp_apart a n b k x : A !! a = Some n → A !! b = Some k → in_block (a, n) x → in_block (b, k) x → a = b;
  hp_all x : lo <= x < u_brk s → covers R x ∨ owned A x;
}.

(** The allocator before its first use, or with its heap. *)
Definition alloc_inv (s : ustate) (A : gmap Z Z) : Prop :=
  (u_freep s = 0 ∧ A = ∅ ∧ u_brk s = lo) ∨ ∃ R, heap_ok s R A.

Context (Hbase : 0 < base < lo) (Hlo : lo < 2 ^ 31).

Lemma in_block_start a n : 1 <= n → in_block (a, n) a.
Proof. unfold in_block, bend, sizeof_header. cbn. lia. Qed.

(** ** [free] *)
Lemma owned_delete A a n x :
  A !! a = Some n → (∀ b k, A !! b = Some k → in_block (b, k) x → in_block (a, n) x → b = a) → owned A x ↔ owned (delete a A) x ∨ in_block (a, n) x.
Proof.
  intros Ha Hap. split.
  - intros (b & k & Hb & Hx). destruct (decide (b = a)) as [->|Hne]; [right; by simplify_eq|].
    left. exists b, k. by rewrite lookup_delete_ne.
  - intros [(b & k & Hb & Hx)|Hx]; [|by exists a, n]. apply lookup_delete_Some in Hb as [_ Hb]. by exists b, k.
Qed.

Lemma covers_hi lo' R hi x : asc lo' R hi → covers R x → lo' < x < hi.
Proof. intros Ha (b & Hb & Hx). destruct (asc_elem _ _ _ _ Ha Hb) as (? & ? & ?). unfold in_block in Hx. lia. Qed.

(** Freeing a block that is owned by nobody else. *)
Lemma free_heap s R bp n ptr :
  seg (u_hdr s) ((base, 0) :: R) base → asc (lo - 1) R (u_brk s) → (∃ f, f ∈ (base, 0) :: R ∧ u_freep s = f.1) → u_brk s < 2 ^ 31 →
  u_hdr s !! bp = Some (Header ptr n) → 1 <= n → lo <= bp → bend (bp, n) <= u_brk s →
  (∀ x, in_block (bp, n) x → ¬ covers R x) →
  ∃ s' R', free (bp + sizeof_header) s = Some s' ∧ linked base lo (u_brk s) bp n R s s' R'.
Proof using Hbase.
  intros Hseg Hasc (f & Hf & Ef) Hbrk Hb Hn Hlo' Hhi Hap.
  destruct (asc_split _ _ _ (bp, n) Hasc Hn) as (X & Y & -> & HX & HY).
  { intros c Hc x Hx Hx'. apply (Hap x Hx). by exists c. }
  pose proof (asc_incr _ _ _ base Hasc ltac:(lia)) as Hincr. cbn [fst] in HX.
  unfold free. replace (bp + sizeof_header - sizeof_header) with bp by lia. rewrite Ef.
  rewrite (free_search_spec (u_hdr s) base bp X Y).
  - apply (free_link_spec base lo (u_brk s) bp n ptr X Y s); try done; lia.
  - done.
  - done.
  - lia.
  - intros c Hc. specialize (HX c Hc). destruct (asc_elem _ _ _ c Hasc) as (_ & ? & _); [apply elem_of_app; by left|].
    unfold bend, sizeof_header in HX. lia.
  - intros c Hc. specialize (HY c Hc). unfold bend, sizeof_header in HY. cbn in HY. lia.
  - done.
  - pose proof (seg_size _ _ _ (base - 1) Hseg) as Hsz. destruct Hsz; [split; [cbn; lia|done]|lia|lia].
Qed.

(** An allocated block is given back. *)
Lemma free_owned s R A a n :
  heap_ok s R A → A !! a = Some n → ∃ s' R', free (a + sizeof_header) s = Some s' ∧ heap_ok s' R' (delete a A).
Proof using Hbase.
  intros Hok Ha. destruct (hp_block _ _ _ Hok a n Ha) as ([p Hp] & Hn & Hal & Hah).
  destruct (free_heap s R a n p (hp_seg _ _ _ Hok) (hp_asc _ _ _ Hok) (hp_freep _ _ _ Hok) (proj2 (hp_brk _ _ _ Hok)) Hp Hn Hal Hah) as (s' & R' & Hfree & Hlk); [intros x Hx; by apply (hp_free _ _ _ Hok a n)|].
  exists s', R'. split; [done|]. destruct Hlk, Hok as [Hseg Hasc Hfp Hbrk Hblk Hfr Hap Hall]. rewrite <- lk_brk in *. split; try done.
  - intros b k [Hne Hb]%lookup_delete_Some. destruct (Hblk b k Hb) as ([q Hq] & ? & ? & ?). split_and!; try done. exists q.
    rewrite lk_frame; [done|done|lia|]. apply (Hfr b k); [done|by apply in_block_start].
  - intros b k x [Hne Hb]%lookup_delete_Some Hx [Hc|Hc]%lk_covers; [by apply (Hfr b k x)|]. destruct Hne. by apply (Hap a n b k x).
  - intros b k c j x [_ Hb]%lookup_delete_Some [_ Hc]%lookup_delete_Some. by apply Hap.
  - intros x Hx. rewrite lk_covers. destruct (Hall x Hx) as [?|Ho]; [by do 2 left|].
    apply (owned_delete A a n x Ha) in Ho as [?|?]; [by right|left; by right|]. intros b k Hb Hxb Hxa. by apply (Hap b k a n x).
Qed.
(** ** The search of [malloc] *)

(** The list is a circle: from [f] it comes back to [f]. *)
Lemma seg_circle m R U f V :
  seg m ((base, 0) :: R) base → (base, 0) :: R = U ++ f :: V → seg m (f :: V ++ U) f.1.
Proof.
  intros Hs E. rewrite E in Hs. apply seg_app in Hs as [HU HV].
  change (f :: V ++ U) with ((f :: V) ++ U). apply seg_app. split; [|done].
  replace (hd_addr U f.1) with base; [done|]. destruct U as [|c U]; injection E as E _; by subst.
Qed.

(** The block whose link leads to [b] is the one in front of it. *)
Lemma pred_split m R q b :
  seg m ((base, 0) :: R) base → incr base R → q ∈ (base, 0) :: R → b ∈ R → m !! q.1 = Some (Header b.1 q.2) →
  ∃ X Y, R = X ++ b :: Y ∧ q = lastb (base, 0) X.
Proof.
  intros Hs Hi Hq Hb Hl. apply list_elem_of_split in Hq as (U & V & E). pose proof Hs as Hs'. rewrite E in Hs'. apply seg_app in Hs' as [_ [Hq' HV]].
  rewrite Hl in Hq'. injection Hq' as Hhd. destruct V as [|c V]; cbn [hd_addr] in Hhd; [by destruct (incr_ne_base _ _ _ Hi Hb)|].
  assert (b = c) as <-.
  { destruct (seg_lookup _ _ _ b Hs) as [p Hp]; [by right|]. destruct HV as [Hc _]. rewrite Hhd, Hc in Hp. destruct b, c. cbn in *. by simplify_eq. }
  destruct U as [|u U]; injection E as E1 E2.
  - exists [], V. by subst.
  - exists (U ++ [q]), V. split; [by rewrite E2, <- app_assoc|]. by rewrite lastb_snoc_r.
Qed.

(** Blocks that are too small are passed. *)
Lemma scan_miss s nunits W prev z k :
  seg (u_hdr s) (prev :: W) z → (∀ c, c ∈ W → c.2 < nunits ∧ c.1 ≠ u_freep s) →
  malloc_loop grant (length W + k) nunits prev.1 (hd_addr W z) s = malloc_loop grant k nunits (lastb prev W).1 z s.
Proof.
  revert prev. induction W as [|c W IH]; intros prev [Hp Hs] HW; [done|]. destruct (HW c (list_elem_of_here _ _)) as [H1 H2].
  cbn [length plus hd_addr malloc_loop lastb]. destruct Hs as [Hc Hs]. rewrite Hc. cbn [mbind option_bind h_size h_ptr].
  destruct (Z.leb_spec nunits c.2); [lia|]. destruct (Z.eqb_spec c.1 (u_freep s)); [done|].
  apply IH; [by split|]. intros d Hd. apply HW. by right.
Qed.

Lemma first_fit (n : Z) (W : list block) :
  (∀ c, c ∈ W → c.2 < n) ∨ ∃ W1 b W2, W = W1 ++ b :: W2 ∧ n <= b.2 ∧ ∀ c, c ∈ W1 → c.2 < n.
Proof.
  induction W as [|c W IH]; [left; intros c Hc; by apply not_elem_of_nil in Hc|]. destruct (decide (n <= c.2)) as [Hc|Hc].
  { right. exists [], c, W. split_and!; try done. intros d Hd. by apply not_elem_of_nil in Hd. }
  destruct IH as [IH|(W1 & b & W2 & -> & Hb & HW1)].
  - left. intros d [->|Hd]%elem_of_cons; [lia|by apply IH].
  - right. exists (c :: W1), b, W2. split_and!; try done. intros d [->|Hd]%elem_of_cons; [lia|by apply HW1].
Qed.
(** What the loop of [malloc] does when it gets back to [freep]. *)
Definition after_scan (k : nat) (nunits : Z) (s : ustate) : option (Z * ustate) :=
  r ← morecore grant nunits s;
  let '(p, s) := r in
  if p =? 0 then Some (0, s) else x ← u_hdr s !! p; malloc_loop grant k nunits p (h_ptr x) s.

Section circle.
Context (s : ustate) (R : list block) (nunits : Z) (f : block).
Context (Hseg : seg (u_hdr s) ((base, 0) :: R) base) (Hincr : incr base R) (Hf : f ∈ (base, 0) :: R) (Ef : u_freep s = f.1) (Hn : 1 <= nunits).

(** The blocks behind [freep] in the order of the circle. *)
Lemma circle :
  ∃ W, seg (u_hdr s) (f :: W) f.1 ∧ length W = length R ∧ (∀ c, c ∈ f :: W ↔ c ∈ (base, 0) :: R) ∧ (∀ c, c ∈ W → c.1 ≠ f.1).
Proof using All.
  apply list_elem_of_split in Hf as (U & V & E). exists (V ++ U). split_and!.
  - by apply (seg_circle _ R U f V).
  - apply (f_equal length) in E. cbn [length] in E. rewrite length_app in *. cbn [length] in E. lia.
  - intros c. rewrite E. rewrite elem_of_cons, !elem_of_app, elem_of_cons. tauto.
  - assert (NoDup (fst <$> U ++ f :: V)) as Hnd by (rewrite <- E; apply (incr_nodup (base - 1)); split; [cbn; lia|done]).
    rewrite fmap_app, fmap_cons in Hnd. apply list.NoDup_app in Hnd as (_ & HU & [HV _]%list.NoDup_cons).
    intros c [Hc|Hc]%elem_of_app Ec.
    + apply HV. rewrite <- Ec. by apply list_elem_of_fmap_2.
    + apply (HU f.1); [rewrite <- Ec; by apply list_elem_of_fmap_2|by left].
Qed.

(** A big enough block at the end of a part of the circle is taken. *)
Lemma scan_hit W1 b k :
  seg (u_hdr s) (f :: W1) b.1 → (∀ c, c ∈ f :: W1 → c ∈ (base, 0) :: R) → b ∈ (base, 0) :: R →
  (∀ c, c ∈ W1 → c.2 < nunits ∧ c.1 ≠ u_freep s) → nunits <= b.2 →
  ∃ X Y, R = X ++ b :: Y ∧ malloc_loop grant (length W1 + S k) nunits f.1 (hd_addr W1 b.1) s = malloc_take nunits (lastb (base, 0) X).1 b.1 s.
Proof using All.
  intros Hs HW1 Hb Hsmall Hfit. apply elem_of_cons in Hb as [->|Hb]; [cbn in Hfit; lia|].
  assert (u_hdr s !! (lastb f W1).1 = Some (Header b.1 (lastb f W1).2)) as Hq.
  { destruct (lastb_snoc f W1) as [L EL]. rewrite EL in Hs. by apply seg_app in Hs as [_ [? _]]. }
  destruct (pred_split _ R (lastb f W1) b Hseg Hincr) as (X & Y & ER & EX); [apply HW1, lastb_elem|done..|].
  exists X, Y. split; [done|]. rewrite <- EX, scan_miss by done. cbn [malloc_loop].
  destruct (seg_lookup _ _ _ b Hseg) as [p Hp]; [by right|]. rewrite Hp. cbn [mbind option_bind h_size].
  by destruct (Z.leb_spec nunits b.2); [|lia].
Qed.

Lemma scan_circle p k :
  u_hdr s !! f.1 = Some (Header p f.2) →
  (∃ b X Y, R = X ++ b :: Y ∧ nunits <= b.2 ∧
     malloc_loop grant (S (length R) + k) nunits f.1 p s = malloc_take nunits (lastb (base, 0) X).1 b.1 s) ∨
  ((∀ b, b ∈ R → b.2 < nunits) ∧ malloc_loop grant (S (length R) + k) nunits f.1 p s = after_scan k nunits s).
Proof using All.
  intros Hp. destruct circle as (W & HW & Hlen & Hel & Hne). assert (p = hd_addr W f.1) as -> by (destruct HW as [HW _]; rewrite Hp in HW; by simplify_eq).
  destruct (first_fit nunits W) as [Hall|(W1 & b & W2 & -> & Hb & HW1)].
  - destruct (decide (nunits <= f.2)) as [Hff|Hff].
    + left. destruct (scan_hit W f k) as (X & Y & ER & E); try done; [by intros c Hc; apply Hel|intros c Hc; rewrite Ef; auto|].
      exists f, X, Y. split_and!; try done. by rewrite <- E, Hlen, Nat.add_succ_r.
    + right. split.
      { intros b Hb. assert (b ∈ f :: W) as [->|?]%elem_of_cons; [apply Hel; by right|lia|by apply Hall]. }
      rewrite <- Hlen. replace (S (length W) + k)%nat with (length W + S k)%nat by lia.
      rewrite scan_miss; [|done|intros c Hc; rewrite Ef; auto]. cbn [malloc_loop]. rewrite Hp. cbn [mbind option_bind h_size h_ptr].
      destruct (Z.leb_spec nunits f.2); [done|]. by rewrite Ef, Z.eqb_refl.
  - left. change (f :: W1 ++ b :: W2) with ((f :: W1) ++ b :: W2) in HW. apply seg_app in HW as [HW _].
    destruct (scan_hit W1 b (length W2 + S k)) as (X & Y & ER & E); try done.
    + intros c Hc. apply Hel. apply elem_of_cons in Hc as [->|Hc]; [by left|]. right. apply elem_of_app. by left.
    + apply Hel. right. apply elem_of_app. right. by left.
    + intros c Hc. rewrite Ef. split; [by apply HW1|]. apply Hne, elem_of_app. by left.
    + exists b, X, Y. split_and!; try done. rewrite <- E, <- Hlen, length_app, hd_addr_app. cbn [length hd_addr]. f_equal. lia.
Qed.
End circle.
(** ** Taking a block *)

(** [n] units at [a] leave the free list [R]. *)
Record taken (a n : Z) (R : list block) (s s' : ustate) (R' : list block) : Prop := Taken {
  tk_seg : seg (u_hdr s') ((base, 0) :: R') base;
  tk_asc : asc (lo - 1) R' (u_brk s);
  tk_freep : ∃ f, f ∈ (base, 0) :: R' ∧ u_freep s' = f.1;
  tk_brk : u_brk s' = u_brk s;
  tk_covers x : covers R x ↔ covers R' x ∨ in_block (a, n) x;
  tk_apart x : in_block (a, n) x → ¬ covers R' x;
  tk_header : ∃ p, u_hdr s' !! a = Some (Header p n);
  tk_frame b : lo <= b → ¬ covers R b → u_hdr s' !! b = u_hdr s !! b;
}.

Lemma taken_heap a n R s s' R' A :
  heap_ok s R A → 1 <= n → lo <= a → bend (a, n) <= u_brk s → taken a n R s s' R' → A !! a = None ∧ heap_ok s' R' (<[a := n]> A).
Proof.
  intros [Hseg Hasc Hfp Hbrk Hblk Hfr Hap Hall] Hn Ha Hb [Hseg' Hasc' Hfp' Ebrk Hcov Hapart Hhd Hframe].
  assert (Hnot : ∀ b k x, A !! b = Some k → in_block (b, k) x → ¬ in_block (a, n) x).
  { intros b k x Hbk Hx Hxa. apply (Hfr b k x); [done..|]. apply Hcov. by right. }
  assert (A !! a = None) as HA.
  { destruct (A !! a) as [k|] eqn:E; [|done]. destruct (Hblk a k E) as (_ & Hk & _). destruct (Hnot a k a E); by apply in_block_start. }
  split; [done|]. rewrite <- Ebrk in *. split; try done.
  - intros b k [[<- <-]|[Hne Hbk]]%lookup_insert_Some; [done|]. destruct (Hblk b k Hbk) as (Hh & ? & ? & ?). split_and!; try done.
    rewrite Hframe; [done|done|]. apply (Hfr b k b Hbk). by apply in_block_start.
  - intros b k x [[<- <-]|[Hne Hbk]]%lookup_insert_Some Hx; [by apply Hapart|]. intros Hc. apply (Hfr b k x Hbk Hx), Hcov. by left.
  - intros b k c j x [[<- <-]|[Hne Hbk]]%lookup_insert_Some [[<- <-]|[Hne' Hcj]]%lookup_insert_Some Hx Hx'; try done.
    + by destruct (Hnot c j x Hcj Hx').
    + by destruct (Hnot b k x Hbk Hx).
    + by apply (Hap b k c j x).
  - intros x Hx. destruct (Hall x Hx) as [[?|?]%Hcov|(b & k & Hbk & Hxb)]; [by left| |].
    + right. exists a, n. by rewrite lookup_insert_eq.
    + right. exists b, k. rewrite lookup_insert_ne; [done|]. intros <-. by rewrite HA in Hbk.
Qed.

Section take.
Context (s : ustate) (X Y : list block) (b : block) (nunits : Z).
Context (Hseg : seg (u_hdr s) ((base, 0) :: X ++ b :: Y) base) (Hasc : asc (lo - 1) (X ++ b :: Y) (u_brk s)).
Context (Hbrk : u_brk s < 2 ^ 31) (Hn : 1 <= nunits <= b.2).
Local Notation q := (lastb (base, 0) X).

(** The other free blocks lie around [b]. *)
Lemma take_around :
  (∀ c, c ∈ (base, 0) :: X → c.1 < b.1 ∧ bend c <= b.1) ∧ (∀ c, c ∈ Y → bend b < c.1) ∧ lo <= b.1 ∧ bend b <= u_brk s.
Proof using All.
  pose proof (proj1 (asc_app _ _ _ _) Hasc) as [HaX (H1 & H2 & H3 & HaY)]. destruct (asc_last _ _ _ HaX) as [Hl1 Hl2]. split_and!; try lia.
  - intros c [->|Hc]%elem_of_cons; [unfold bend; cbn; lia|]. specialize (Hl2 c Hc). destruct (asc_elem _ _ _ _ HaX Hc) as (_ & ? & _).
    unfold bend, sizeof_header in *. lia.
  - intros c Hc. by destruct (asc_elem _ _ _ _ HaY Hc).
Qed.

Lemma take_covers x : covers (X ++ Y) x → ¬ in_block b x.
Proof using All.
  destruct take_around as (HX & HY & _). intros [(c & Hc & Hx)|(c & Hc & Hx)]%covers_app Hb.
  - destruct (HX c) as [_ ?]; [by right|]. unfold in_block in *. lia.
  - specialize (HY c Hc). unfold in_block in *. lia.
Qed.

Lemma q_frame h a : lo <= a → ¬ covers (X ++ b :: Y) a → <[q.1 := h]> (u_hdr s) !! a = u_hdr s !! a.
Proof using All.
  intros Ha Hc. rewrite lookup_insert_ne; [done|]. intros <-. pose proof (lastb_elem (base, 0) X) as [E|Hq]%elem_of_cons; [rewrite E in Ha; cbn in Ha; lia|].
  apply Hc. exists q. split; [apply elem_of_app; by left|]. destruct (asc_elem _ _ _ q Hasc) as (_ & ? & _); [apply elem_of_app; by left|].
  unfold in_block, bend, sizeof_header. lia.
Qed.

(** The whole block. *)
Lemma take_all : b.2 = nunits →
  ∃ s', malloc_take nunits q.1 b.1 s = Some (b.1 + sizeof_header, s') ∧ taken b.1 nunits (X ++ b :: Y) s s' (X ++ Y).
Proof using All.
  intros Eb. destruct take_around as (HX & HY & Hlb & _). pose proof Hseg as Hs. change ((base, 0) :: X ++ b :: Y) with (((base, 0) :: X) ++ b :: Y) in Hs.
  apply seg_app in Hs as [HsX [Hb HsY]]. destruct (lastb_snoc (base, 0) X) as [L EL]. pose proof (lastb_elem (base, 0) X) as Hq.
  destruct (HX q Hq) as [Hqb _]. assert (u_hdr s !! q.1 = Some (Header b.1 q.2)) as Eq by (rewrite EL in HsX; by apply seg_app in HsX as [_ [? _]]).
  unfold malloc_take. rewrite Hb, Eq. cbn [mbind option_bind h_size h_ptr]. rewrite Eb, Z.eqb_refl.
  eexists. split; [reflexivity|]. rewrite (surjective_pairing b) in Eb. cbn [snd] in Eb.
  assert (asc (lo - 1) (X ++ Y) (u_brk s)) as Hasc'.
  { pose proof (proj1 (asc_app _ _ _ _) Hasc) as [HaX (H1 & H2 & H3 & HaY)]. apply asc_app. split; [done|].
    eapply asc_weaken; [| |exact HaY]; [unfold bend, sizeof_header|]; lia. }
  split; cbn [u_hdr u_freep u_brk set_freep set_hdr]; try done.
  - change ((base, 0) :: X ++ Y) with (((base, 0) :: X) ++ Y). apply seg_app. split.
    + rewrite EL. rewrite (surjective_pairing q) at 3. apply (seg_relink _ _ _ b.1); [by rewrite <- EL|]. rewrite <- EL.
      apply (incr_nodup (base - 1)). split; [cbn; lia|]. apply asc_app in Hasc as [HaX _]. apply (asc_incr _ _ _ _ HaX). cbn. lia.
    + apply seg_frame; [|done]. intros c Hc. specialize (HY c Hc). unfold bend, sizeof_header in HY. lia.
  - exists q. split; [|done]. change ((base, 0) :: X ++ Y) with (((base, 0) :: X) ++ Y). apply elem_of_app. by left.
  - intros x. rewrite !covers_app, covers_cons. rewrite <- Eb, <- surjective_pairing. tauto.
  - intros x. rewrite <- Eb, <- surjective_pairing. intros Hx Hc. by apply (take_covers x).
  - exists (hd_addr Y base). rewrite lookup_insert_ne by lia. by rewrite Hb, <- Eb.
  - intros c Hc1 Hc2. by apply q_frame.
Qed.
(** The tail of the block. *)
Lemma take_tail : nunits < b.2 →
  ∃ a s' R', malloc_take nunits q.1 b.1 s = Some (a + sizeof_header, s') ∧ taken a nunits (X ++ b :: Y) s s' R' ∧
    lo <= a ∧ bend (a, nunits) <= u_brk s.
Proof using All.
  intros Eb. destruct take_around as (HX & HY & Hlb & Hbb). pose proof Hseg as Hs. change ((base, 0) :: X ++ b :: Y) with (((base, 0) :: X) ++ b :: Y) in Hs.
  apply seg_app in Hs as [HsX [Hb HsY]]. cbn [hd_addr] in HsX. set (b' := (b.1, b.2 - nunits)).
  assert (hadd b.1 (b.2 - nunits) = bend b') as Ea by (apply hadd_small; unfold bend, sizeof_header in *; cbn [fst snd]; lia).
  assert (b.1 < bend b' ∧ bend (bend b', nunits) = bend b) as [Ha1 Ha2] by (unfold b', bend, sizeof_header in *; cbn [fst snd] in *; lia).
  exists (bend b'). unfold malloc_take. rewrite Hb. cbn [mbind option_bind h_size h_ptr]. destruct (Z.eqb_spec b.2 nunits); [lia|]. rewrite Ea.
  eexists _, (X ++ b' :: Y). split; [reflexivity|]. split_and!; try lia.
  split; cbn [u_hdr u_freep u_brk set_freep set_hdr]; try done.
  - change ((base, 0) :: X ++ b' :: Y) with (((base, 0) :: X) ++ b' :: Y). apply seg_app. split.
    { cbn [hd_addr]. apply seg_frame; [|apply seg_frame; [|done]]; intros c Hc; destruct (HX c Hc); cbn [fst]; lia. }
    split; [rewrite lookup_insert_ne by (cbn; lia); by rewrite lookup_insert_eq|].
    apply seg_frame; [|apply seg_frame; [|done]]; intros c Hc; specialize (HY c Hc); unfold bend, sizeof_header in *; cbn [fst snd] in *; lia.
  - pose proof (proj1 (asc_app _ _ _ _) Hasc) as [HaX (H1 & H2 & H3 & HaY)]. apply asc_app. split; [done|].
    split_and!; cbn [fst snd]; [done|cbn; lia|unfold bend, sizeof_header in *; cbn [fst snd] in *; lia|].
    eapply asc_weaken; [| |exact HaY]; [|lia]. unfold bend, sizeof_header in *; cbn [fst snd] in *; lia.
  - exists q. split; [|done]. change ((base, 0) :: X ++ b' :: Y) with (((base, 0) :: X) ++ b' :: Y). apply elem_of_app. left. apply lastb_elem.
  - intros x. rewrite !covers_app, !covers_cons. assert (in_block b x ↔ in_block b' x ∨ in_block (bend b', nunits) x); [|tauto].
    unfold in_block, b', bend, sizeof_header in *. cbn [fst snd] in *. lia.
  - intros x Hx. rewrite covers_app, covers_cons. assert (in_block b x) as Hbx by (unfold in_block in *; rewrite Ha2 in Hx; cbn [fst snd] in Hx; lia).
    intros Hc. apply (take_covers x); [|done]. apply covers_app. destruct Hc as [?|[Hc|?]]; [by left| |by right]. unfold in_block in *. cbn [fst] in *. lia.
  - eexists. by rewrite lookup_insert_eq.
  - intros c Hc1 Hc2. assert (¬ in_block b c) as Hnb by (intros Hx; apply Hc2, covers_app; right; apply covers_cons; by left).
    rewrite !lookup_insert_ne; [done| |]; intros <-; apply Hnb; unfold in_block, b', bend, sizeof_header in *; cbn [fst snd] in *; lia.
Qed.

Lemma take_spec A : heap_ok s (X ++ b :: Y) A →
  ∃ a s' R', malloc_take nunits q.1 b.1 s = Some (a + sizeof_header, s') ∧ A !! a = None ∧ heap_ok s' R' (<[a := nunits]> A) ∧ lo <= a.
Proof using All.
  intros Hok. destruct (decide (b.2 = nunits)) as [E|Hne].
  - destruct (take_all E) as (s' & Htake & Htk). destruct take_around as (_ & _ & Hlb & Hbb). exists b.1, s', (X ++ Y).
    assert (bend (b.1, nunits) <= u_brk s) as Hbb' by (by rewrite <- E, <- surjective_pairing).
    by destruct (taken_heap _ _ _ _ _ _ A Hok (proj1 Hn) Hlb Hbb' Htk).
  - destruct take_tail as (a & s' & R' & Htake & Htk & Ha1 & Ha2); [lia|]. exists a, s', R'.
    by destruct (taken_heap _ _ _ _ _ _ A Hok (proj1 Hn) Ha1 Ha2 Htk).
Qed.
End take.
(** ** [morecore] *)

(** The kernel never lets a process reach the kernel's half of the addresses ([allocuvm]). *)
Context (Hgrant : ∀ sz n, grant sz n = true → sz + n < KERNBASE).

Lemma sbrk_arg nu : 1 <= nu → sizeof_header * nu < 2 ^ 31 →
  let k := if nu <? 4096 then 4096 else nu in s32 (u32 (k * sizeof_header)) = sizeof_header * k ∧ nu <= k ∧ 1 <= k.
Proof.
  intros H1 H2 k. assert (nu <= k ∧ 1 <= k ∧ sizeof_header * k < 2 ^ 31) as (? & ? & ?) by (unfold k, sizeof_header in *; destruct (Z.ltb_spec nu 4096); lia).
  split_and!; try done. unfold u32, s32. rewrite (Z.mod_small (k * sizeof_header)) by (unfold sizeof_header in *; lia).
  rewrite Z.mod_small; unfold sizeof_header in *; lia.
Qed.
(** The heap with its new block linked. *)
Lemma grown_heap s R A k s1 s' R' :
  heap_ok s R A → 1 <= k → u_brk s + sizeof_header * k < 2 ^ 31 → u_brk s1 = u_brk s + sizeof_header * k →
  (∀ a, a ≠ u_brk s → u_hdr s1 !! a = u_hdr s !! a) →
  linked base lo (u_brk s1) (u_brk s) k R s1 s' R' → heap_ok s' R' A.
Proof using Hbase.
  intros [Hseg Hasc Hfp Hbrk Hblk Hfr Hap Hall] Hk Hmax E1 Hsame [Lseg Lasc Lfp Lbrk Lcov _ _ Lframe]. rewrite <- Lbrk in *.
  assert (bend (u_brk s, k) = u_brk s') as Eb by (unfold bend; cbn [fst snd]; lia).
  split; try done; [unfold sizeof_header in *; lia|..].
  - intros a n Ha. destruct (Hblk a n Ha) as ([p Hp] & ? & ? & Hend). assert (a < u_brk s) by (unfold bend, sizeof_header in *; cbn in *; lia).
    split_and!; try done; [|unfold sizeof_header in *; lia]. exists p. rewrite Lframe, Hsame; [done|lia|lia|lia|]. apply (Hfr a n a Ha). by apply in_block_start.
  - intros a n x Ha Hx [Hc|Hc]%Lcov; [by apply (Hfr a n x)|]. destruct (Hblk a n Ha) as (_ & _ & _ & Hend). unfold in_block in *. cbn [fst] in *. lia.
  - intros x Hx. destruct (decide (x < u_brk s)) as [Hlt|Hge].
    + destruct (Hall x ltac:(lia)) as [?|?]; [left; apply Lcov; by left|by right].
    + left. apply Lcov. right. unfold in_block. rewrite Eb. cbn [fst]. lia.
Qed.

Lemma morecore_spec s R A nu :
  heap_ok s R A → 1 <= nu → sizeof_header * nu < 2 ^ 31 →
  (grant (u_brk s) (sizeof_header * Z.max 4096 nu) = false ∧ morecore grant nu s = Some (0, s)) ∨
  ∃ s' R', morecore grant nu s = Some (u_freep s', s') ∧ heap_ok s' R' A ∧ u_freep s' ≠ 0 ∧ (∃ b, b ∈ R' ∧ nu <= b.2) ∧ (length R' <= S (length R))%nat.
Proof using All.
  intros Hok Hnu Hmax. destruct (sbrk_arg nu Hnu Hmax) as (Earg & Hk1 & Hk2). unfold morecore. set (k := if nu <? 4096 then 4096 else nu) in *.
  rewrite Earg. unfold sbrk. replace (0 <? sizeof_header * k) with true by (unfold sizeof_header; lia).
  destruct (grant (u_brk s) (sizeof_header * k)) eqn:Eg.
  2:{ left. split; [|done]. replace (Z.max 4096 nu) with k by (unfold k; destruct (Z.ltb_spec nu 4096); lia). done. }
  right.
  pose proof Hok as [Hseg Hasc (f & Hf & Ef) Hbrk _ _ _ _]. pose proof (Hgrant _ _ Eg) as Hg. change KERNBASE with (2 ^ 31) in Hg.
  cbn [u_brk u_hdr]. destruct (Z.eqb_spec (u_brk s) (-1)); [lia|].
  assert (u_brk s + sizeof_header <= PGROUNDUP (u_brk s + sizeof_header * k)) as Hpg.
  { rewrite PGROUNDUP_eq by (unfold PGSIZE, sizeof_header in *; lia). pose proof (Z.mod_pos_bound (u_brk s + sizeof_header * k + PGSIZE - 1) PGSIZE).
    unfold PGSIZE, sizeof_header in *. lia. }
  destruct (Z.ltb_spec (PGROUNDUP (u_brk s + sizeof_header * k)) (u_brk s + sizeof_header)); [lia|].
  set (ptr := match u_hdr s !! u_brk s with Some h => h_ptr h | None => 0 end).
  set (s1 := set_hdr (u_brk s) (Header ptr k) (UState (u_hdr s) (u_freep s) (u_brk s + sizeof_header * k))).
  assert (Hin : ∀ c, c ∈ (base, 0) :: R → c.1 < u_brk s).
  { intros c [->|Hc]%elem_of_cons; [cbn; lia|]. destruct (asc_elem _ _ _ _ Hasc Hc) as (_ & ? & ?). unfold bend, sizeof_header in *. lia. }
  destruct (free_heap s1 R (u_brk s) k ptr) as (s' & R' & Hfree & Hlk); cbn [u_brk u_hdr u_freep s1 set_hdr].
  - apply seg_frame; [|done]. intros c Hc. specialize (Hin c Hc). lia.
  - apply (asc_weaken (lo - 1) _ _ (u_brk s)); [lia|unfold sizeof_header; lia|done].
  - by exists f.
  - lia.
  - by rewrite lookup_insert_eq.
  - lia.
  - lia.
  - unfold bend. cbn [fst snd]. lia.
  - intros x Hx Hc. apply (covers_hi _ _ _ _ Hasc) in Hc. unfold in_block in Hx. cbn [fst] in Hx. lia.
  - exists s', R'. rewrite Hfree. cbn [mbind option_bind]. split; [done|]. split_and!.
    + apply (grown_heap s R A k s1); try done. intros a Ha. cbn [u_hdr s1 set_hdr]. by rewrite lookup_insert_ne.
    + destruct Hlk as [_ Lasc (g & Hg' & ->) _ _ _ _ _]. apply elem_of_cons in Hg' as [->|Hg']; [cbn; lia|]. destruct (asc_elem _ _ _ _ Lasc Hg'). lia.
    + destruct (lk_fits _ _ _ _ _ _ _ _ _ Hlk) as (b & Hb & Hfit). exists b. split; [done|lia].
    + apply (lk_len _ _ _ _ _ _ _ _ _ Hlk).
Qed.
(** ** [malloc] *)

(** The biggest request the arithmetic of [malloc] and [sbrk] is right for. *)
Definition max_request : Z := 2 ^ 31 - 32.

Lemma nunits_of_spec nbytes : 0 <= nbytes <= max_request →
  1 <= nunits_of nbytes ∧ sizeof_header * nunits_of nbytes < 2 ^ 31 ∧ nbytes <= sizeof_header * (nunits_of nbytes - 1).
Proof.
  unfold max_request. intros Hn. unfold nunits_of, u32. rewrite (Z.mod_small (nbytes + _ - 1)) by (unfold sizeof_header; lia). unfold sizeof_header.
  rewrite Z.mod_small; pose proof (Z.div_mod (nbytes + 8 - 1) 8); pose proof (Z.mod_pos_bound (nbytes + 8 - 1) 8); lia.
Qed.

(** From [freep] around the list, with what [morecore] finds. *)
Lemma malloc_scan s R A nunits f p k :
  heap_ok s R A → 1 <= nunits → f ∈ (base, 0) :: R → u_freep s = f.1 → u_hdr s !! f.1 = Some (Header p f.2) →
  (∃ a s' R', malloc_loop grant (S (length R) + k) nunits f.1 p s = Some (a + sizeof_header, s') ∧
     A !! a = None ∧ heap_ok s' R' (<[a := nunits]> A) ∧ lo <= a) ∨
  ((∀ b, b ∈ R → b.2 < nunits) ∧ malloc_loop grant (S (length R) + k) nunits f.1 p s = after_scan k nunits s).
Proof using All.
  intros Hok Hn Hf Ef Hp. pose proof Hok as [Hseg Hasc _ Hbrk _ _ _ _].
  destruct (scan_circle s R nunits f Hseg (asc_incr _ _ _ base Hasc ltac:(lia)) Hf Ef Hn p k Hp) as [(b & X & Y & -> & Hb & ->)|?]; [left|by right].
  by apply (take_spec s X Y b nunits Hseg Hasc (proj2 Hbrk)).
Qed.

Lemma heap_freep s R A : heap_ok s R A → ∃ f p, f ∈ (base, 0) :: R ∧ u_freep s = f.1 ∧ u_freep s ≠ 0 ∧ u_hdr s !! f.1 = Some (Header p f.2).
Proof using All.
  intros [Hseg Hasc (f & Hf & Ef) _ _ _ _ _]. destruct (seg_lookup _ _ _ f Hseg Hf) as [p Hp]. exists f, p. split_and!; try done.
  apply elem_of_cons in Hf as [->|Hf]; [cbn in Ef; lia|]. destruct (asc_elem _ _ _ _ Hasc Hf). lia.
Qed.

Lemma malloc_heap s R A nbytes :
  heap_ok s R A → 0 <= nbytes <= max_request →
  ∃ r s', malloc base grant nbytes s = Some (r, s') ∧ (
    (r = 0 ∧ heap_ok s' R A ∧ grant (u_brk s) (sizeof_header * Z.max 4096 (nunits_of nbytes)) = false) ∨
    (∃ a R', r = a + sizeof_header ∧ lo <= a ∧ A !! a = None ∧ heap_ok s' R' (<[a := nunits_of nbytes]> A))).
Proof using All.
  intros Hok Hnb. destruct (nunits_of_spec nbytes Hnb) as (Hn1 & Hn2 & _). destruct (heap_freep _ _ _ Hok) as (f & p & Hf & Ef & Hf0 & Hp).
  unfold malloc. destruct (Z.eqb_spec (u_freep s) 0); [done|]. rewrite Ef, Hp. cbn [mbind option_bind h_ptr].
  assert (S (length R) <= size (u_hdr s))%nat as Hsz.
  { pose proof Hok as [Hseg Hasc _ _ _ _ _ _]. pose proof (asc_incr _ _ _ base Hasc ltac:(lia)) as Hi.
    apply (seg_size _ _ _ (base - 1) Hseg). split; [cbn; lia|done]. }
  replace (2 * size (u_hdr s) + 4)%nat with (S (length R) + (2 * size (u_hdr s) + 4 - S (length R)))%nat by lia.
  destruct (malloc_scan s R A (nunits_of nbytes) f p (2 * size (u_hdr s) + 4 - S (length R)) Hok Hn1 Hf Ef Hp) as [(a & s' & R' & -> & HA & Hok' & Ha)|[_ ->]].
  { eexists _, _. split; [done|]. right. by exists a, R'. }
  unfold after_scan. destruct (morecore_spec s R A _ Hok Hn1 Hn2) as [[Hno ->]|(s1 & R1 & -> & Hok1 & Hne & (b & Hb & Hfit) & Hlen)]; cbn [mbind option_bind].
  { eexists _, _. split; [done|]. left. done. }
  destruct (Z.eqb_spec (u_freep s1) 0); [done|]. destruct (heap_freep _ _ _ Hok1) as (f1 & p1 & Hf1 & Ef1 & _ & Hp1). rewrite Ef1, Hp1. cbn [mbind option_bind h_ptr].
  replace (2 * size (u_hdr s) + 4 - S (length R))%nat with (S (length R1) + (2 * size (u_hdr s) + 4 - S (length R) - S (length R1)))%nat by lia.
  destruct (malloc_scan s1 R1 A (nunits_of nbytes) f1 p1 (2 * size (u_hdr s) + 4 - S (length R) - S (length R1)) Hok1 Hn1 Hf1 Ef1 Hp1) as [(a & s' & R' & -> & HA & Hok' & Ha)|[Hsmall _]].
  - eexists _, _. split; [done|]. right. by exists a, R'.
  - specialize (Hsmall b Hb). lia.
Qed.

(** The list of the first [malloc]. *)
Lemma heap_init s : u_brk s = lo → heap_ok (set_freep base (set_hdr base (Header base 0) s)) [] ∅.
Proof using All.
  intros Hb. split; cbn [u_hdr u_brk u_freep set_freep set_hdr seg hd_addr fst snd]; try done.
  - by rewrite lookup_insert_eq.
  - exists (base, 0). split; [by left|done].
  - lia.
  - lia.
Qed.
(** * Programs that use the allocator *)

(** A program calls [malloc] for at most [max] bytes at a time and gives back what it got; [L] has
    what it holds: the pointers with the bytes it asked for. *)
Inductive uses (max : Z) : ustate → gmap Z Z → Prop :=
  | uses_init m : uses max (UState m 0 lo) ∅
  | uses_malloc s L nbytes r s' :
      uses max s L → 0 <= nbytes <= max → malloc base grant nbytes s = Some (r, s') →
      uses max s' (if r =? 0 then L else <[r := nbytes]> L)
  | uses_free s L r nbytes s' :
      uses max s L → L !! r = Some nbytes → free r s = Some s' → uses max s' (delete r L).

(** What the program holds are the blocks of [A]. *)
Definition holds (L A : gmap Z Z) : Prop :=
  ∀ a, match A !! a with
       | Some n => ∃ nbytes, L !! (a + sizeof_header) = Some nbytes ∧ 0 <= nbytes <= sizeof_header * (n - 1)
       | None => L !! (a + sizeof_header) = None
       end.

Lemma holds_lookup L A r nbytes : holds L A → L !! r = Some nbytes →
  ∃ n, A !! (r - sizeof_header) = Some n ∧ 0 <= nbytes <= sizeof_header * (n - 1).
Proof.
  intros Hh HL. specialize (Hh (r - sizeof_header)). replace (r - sizeof_header + sizeof_header) with r in Hh by lia.
  destruct (A !! _) as [n|]; [|by rewrite HL in Hh]. destruct Hh as (k & Hk & Hle). exists n. split; [done|]. by simplify_eq.
Qed.

Lemma holds_insert L A a n nbytes : holds L A → 0 <= nbytes <= sizeof_header * (n - 1) →
  holds (<[a + sizeof_header := nbytes]> L) (<[a := n]> A).
Proof.
  intros Hh Hle b. destruct (decide (b = a)) as [->|Hne]; [rewrite !lookup_insert_eq; by exists nbytes|].
  rewrite !lookup_insert_ne by lia. apply Hh.
Qed.

Lemma holds_delete L A r : holds L A → holds (delete r L) (delete (r - sizeof_header) A).
Proof.
  intros Hh b. destruct (decide (b = r - sizeof_header)) as [->|Hne].
  - rewrite lookup_delete_eq. replace (r - sizeof_header + sizeof_header) with r by lia. apply lookup_delete_eq.
  - rewrite !lookup_delete_ne by lia. apply Hh.
Qed.

Lemma malloc_inv s A nbytes :
  alloc_inv s A → 0 <= nbytes <= max_request →
  ∃ r s', malloc base grant nbytes s = Some (r, s') ∧ (
    (r = 0 ∧ alloc_inv s' A ∧ grant (u_brk s) (sizeof_header * Z.max 4096 (nunits_of nbytes)) = false) ∨
    (∃ a, r = a + sizeof_header ∧ lo <= a ∧ A !! a = None ∧ alloc_inv s' (<[a := nunits_of nbytes]> A))).
Proof using All.
  intros Hinv Hn.
  assert (∃ s0 R, heap_ok s0 R A ∧ u_brk s0 = u_brk s ∧ malloc base grant nbytes s = malloc base grant nbytes s0) as (s0 & R & Hok & Eb & ->).
  { destruct Hinv as [(Hf & -> & Hb)|[R Hok]]; [|by exists s, R]. exists (set_freep base (set_hdr base (Header base 0) s)), [].
    split_and!; [by apply heap_init|done|]. unfold malloc. cbn [u_freep set_freep]. rewrite Hf. destruct (Z.eqb_spec base 0); [lia|done]. }
  destruct (malloc_heap s0 R A nbytes Hok Hn) as (r & s' & -> & H). exists r, s'. split; [done|]. rewrite <- Eb.
  destruct H as [(? & ? & ?)|(a & R' & ? & ? & ? & ?)]; [left; split_and!; [done|right; by exists R|done]|].
  right. exists a. split_and!; try done. right. by exists R'.
Qed.

Lemma free_inv s A a n : alloc_inv s A → A !! a = Some n → ∃ s', free (a + sizeof_header) s = Some s' ∧ alloc_inv s' (delete a A).
Proof using All.
  intros [(_ & -> & _)|[R Hok]] Ha; [by rewrite lookup_empty in Ha|].
  destruct (free_owned s R A a n Hok Ha) as (s' & R' & Hf & Hok'). exists s'. split; [done|]. right. by exists R'.
Qed.

Lemma uses_inv max s L : max <= max_request → uses max s L → ∃ A, alloc_inv s A ∧ holds L A.
Proof using All.
  intros Hmax. induction 1 as [m|s L nbytes r s' _ (A & HA & Hh) Hn0 Hm|s L r nbytes s' _ (A & HA & Hh) HL Hf].
  - exists ∅. split; [by left|]. intros a. by rewrite !lookup_empty.
  - assert (0 <= nbytes <= max_request) as Hn by lia.
    destruct (malloc_inv s A nbytes HA Hn) as (r' & s'' & Hm' & H). rewrite Hm in Hm'. injection Hm' as <- <-.
    destruct H as [(-> & HA' & _)|(a & -> & Ha & _ & HA')]; [by exists A|].
    destruct (Z.eqb_spec (a + sizeof_header) 0); [unfold sizeof_header in *; lia|]. eexists. split; [exact HA'|].
    apply holds_insert; [done|]. pose proof (nunits_of_spec nbytes Hn). lia.
  - destruct (holds_lookup L A r nbytes Hh HL) as (n & Hn & _). destruct (free_inv s A _ n HA Hn) as (s'' & Hf' & HA').
    replace (r - sizeof_header + sizeof_header) with r in Hf' by lia. rewrite Hf in Hf'. injection Hf' as <-.
    eexists. split; [exact HA'|]. by apply holds_delete.
Qed.
End heap.

(** * Theorems *)

Section theorems.
Context (base lo : Z) (grant : Z → Z → bool).

(** C19: whatever a program allocates and frees, with requests of at most 2^31 - 32 bytes each (above
    that the arithmetic of [malloc] overflows, [malloc_overflow]), the areas it holds lie in its heap,
    behind their headers, and no byte is in two of them. *)
Theorem malloc_areas_apart max s L :
  0 < base < lo → lo < 2 ^ 31 → (∀ sz n, grant sz n = true → sz + n < KERNBASE) →
  max <= max_request → uses base lo grant max s L →
  (∀ r n, L !! r = Some n → lo + sizeof_header <= r ∧ r + n <= u_brk s < KERNBASE) ∧
  (∀ r n r' n' x, L !! r = Some n → L !! r' = Some n' → r <= x < r + n → r' <= x < r' + n' → r = r').
Proof.
  intros Hb Hlo Hg Hmax Hu. destruct (uses_inv base lo grant Hb Hlo Hg max s L Hmax Hu) as (A & [(_ & -> & _)|[R Hok]] & Hh).
  { split; [intros r n HL|intros r n r' n' x HL]; by destruct (holds_lookup _ _ _ _ Hh HL) as (k & Hk & _). }
  assert (Hblk : ∀ r n, L !! r = Some n → ∃ k, A !! (r - sizeof_header) = Some k ∧ n <= sizeof_header * (k - 1) ∧ lo <= r - sizeof_header ∧ r + sizeof_header * (k - 1) <= u_brk s).
  { intros r n HL. destruct (holds_lookup _ _ _ _ Hh HL) as (k & Hk & Hle). destruct (hp_block _ _ _ _ _ Hok _ _ Hk) as (_ & ? & ? & Hend).
    exists k. split_and!; try done; [lia|]. unfold bend, sizeof_header in *. cbn [fst snd] in *. lia. }
  pose proof (hp_brk _ _ _ _ _ Hok). split.
  - intros r n HL. destruct (Hblk r n HL) as (k & _ & ? & ? & ?). change KERNBASE with (2 ^ 31). lia.
  - intros r n r' n' x HL HL' Hx Hx'. destruct (Hblk r n HL) as (k & Hk & ? & ? & ?), (Hblk r' n' HL') as (k' & Hk' & ? & ? & ?).
    pose proof (hp_apart _ _ _ _ _ Hok _ _ _ _ x Hk Hk') as Hap. unfold in_block, bend, sizeof_header in *. cbn [fst snd] in *. lia.
Qed.

(** C20: for a program whose requests are of at most 2^31 - 32 bytes, [malloc] and [free] return,
    whatever came before: the circular searches end.  What [malloc] returns is not a pointer the
    program holds, and it is null only when the kernel has just refused exactly the memory [malloc]
    asked it for (the request's units with the header, at least 4096 units). *)
Theorem malloc_free_return max s L :
  0 < base < lo → lo < 2 ^ 31 → (∀ sz n, grant sz n = true → sz + n < KERNBASE) →
  max <= max_request → uses base lo grant max s L →
  (∀ nbytes, 0 <= nbytes <= max_request → ∃ r s', malloc base grant nbytes s = Some (r, s') ∧ L !! r = None ∧
     (r = 0 → grant (u_brk s) (sizeof_header * Z.max 4096 (nunits_of nbytes)) = false)) ∧
  (∀ r n, L !! r = Some n → ∃ s', free r s = Some s').
Proof.
  intros Hb Hlo Hg Hmax Hu. destruct (uses_inv base lo grant Hb Hlo Hg max s L Hmax Hu) as (A & Hinv & Hh). split.
  - intros nbytes Hn. destruct (malloc_inv base lo grant Hb Hlo Hg s A nbytes Hinv Hn) as (r & s' & Hm & H). exists r, s'. split; [done|].
    destruct H as [(-> & _ & Hk)|(a & -> & Ha & HA & _)].
    + split; [|done]. destruct (L !! 0) as [n|] eqn:E; [|done]. destruct (holds_lookup _ _ _ _ Hh E) as (k & Hk' & _).
      destruct Hinv as [(_ & -> & _)|[R Hok]]; [done|]. destruct (hp_block _ _ _ _ _ Hok _ _ Hk') as (_ & _ & ? & _). unfold sizeof_header in *. lia.
    + split; [|unfold sizeof_header; lia]. specialize (Hh a). by rewrite HA in Hh.
  - intros r n HL. destruct (holds_lookup _ _ _ _ Hh HL) as (k & Hk & _). destruct (free_inv base lo grant Hb Hlo Hg s A _ k Hinv Hk) as (s' & Hf & _).
    exists s'. by replace (r - sizeof_header + sizeof_header) with r in Hf by lia.
Qed.

(** Without allocated blocks there is one free block. *)
Lemma heap_all_free s R : 0 < base < lo → heap_ok base lo s R ∅ → lo < u_brk s → ∃ n, R = [(lo, n)] ∧ bend (lo, n) = u_brk s.
Proof.
  intros Hb [Hseg Hasc _ _ _ _ _ Hall] Hlt.
  assert (Hcov : ∀ x, lo <= x < u_brk s → covers R x).
  { intros x Hx. destruct (Hall x Hx) as [?|(a & n & Ha & _)]; [done|]. by rewrite lookup_empty in Ha. }
  destruct R as [|b R]; [by destruct (covers_nil lo (Hcov lo ltac:(lia)))|]. destruct Hasc as (Hb1 & Hb2 & Hb3 & Hasc).
  assert (Hend : ∀ x, bend b <= x → covers (b :: R) x → bend b < x).
  { intros x Hx [Hc|Hc]%covers_cons; [unfold in_block in Hc; lia|]. by destruct (covers_hi _ _ _ _ Hasc Hc). }
  assert (bend b = u_brk s) as Eb.
  { destruct (decide (bend b < u_brk s)) as [Hl|]; [|lia]. specialize (Hend (bend b) ltac:(lia)).
    assert (lo <= bend b) by (unfold bend, sizeof_header; lia). specialize (Hend (Hcov (bend b) ltac:(lia))). lia. }
  assert (b.1 = lo) as E1.
  { destruct (Hcov lo ltac:(lia)) as (c & [->|Hc]%elem_of_cons & Hx); [unfold in_block in Hx; lia|].
    destruct (asc_elem _ _ _ _ Hasc Hc) as (? & ? & ?). unfold in_block, bend, sizeof_header in *. lia. }
  exists b.2. rewrite <- E1, <- surjective_pairing. split; [|done]. destruct R as [|c R]; [done|]. destruct Hasc as (? & ? & ? & _).
  unfold bend, sizeof_header in *. lia.
Qed.

(** nothing is lost: when a program has given back everything, the whole heap is one free block. *)
Theorem free_coalesces max s :
  0 < base < lo → lo < 2 ^ 31 → (∀ sz n, grant sz n = true → sz + n < KERNBASE) →
  max <= max_request → uses base lo grant max s ∅ → u_freep s ≠ 0 → lo < u_brk s →
  u_hdr s !! base = Some (Header lo 0) ∧ u_hdr s !! lo = Some (Header base ((u_brk s - lo) / sizeof_header)).
Proof.
  intros Hb Hlo Hg Hmax Hu Hf Hlt. destruct (uses_inv base lo grant Hb Hlo Hg max s ∅ Hmax Hu) as (A & [(? & _)|[R Hok]] & Hh); [done|].
  assert (A = ∅) as ->.
  { apply map_empty. intros a. specialize (Hh a). destruct (A !! a); [|done]. destruct Hh as (k & Hk & _). by rewrite lookup_empty in Hk. }
  destruct (heap_all_free s R Hb Hok Hlt) as (n & -> & Eb). destruct (hp_seg _ _ _ _ _ Hok) as [H1 [H2 _]]. split; [done|].
  rewrite <- Eb. unfold bend. cbn [fst snd] in *. rewrite H2. do 2 f_equal. rewrite Z.add_simpl_l. unfold sizeof_header. rewrite Z.mul_comm, Z.div_mul; [done|lia].
Qed.
End theorems.

(** * Examples *)

(** A program whose data ends at 0x3000, with [base] in front of it; the kernel has memory enough. *)
Definition ex_grant (sz n : Z) : bool := sz + n <? KERNBASE.
Definition ex_s0 : ustate := UState ∅ 0 0x3000.
Definition ex_malloc (n : Z) (s : ustate) : Z * ustate := default (0, s) (malloc 0x2ff0 ex_grant n s).
Definition ex_s1 : ustate := (ex_malloc 100 ex_s0).2.
Definition ex_s2 : ustate := (ex_malloc 50000 ex_s1).2.
Definition ex_s3 : ustate := default ex_s2 (free 0xaf98 ex_s2).
Definition ex_s4 : ustate := default ex_s3 (free 0xb008 ex_s3).

Lemma ex_grant_ok sz n : ex_grant sz n = true → sz + n < KERNBASE.
Proof. unfold ex_grant. lia. Qed.


Lemma ex_uses2 : uses 0x2ff0 0x3000 ex_grant 60000 ex_s2 (<[0xb008 := 50000]> (<[0xaf98 := 100]> ∅)).
Proof.
  apply (uses_malloc 0x2ff0 0x3000 ex_grant 60000 ex_s1 (<[0xaf98 := 100]> ∅) 50000 0xb008); [|vm_compute; split; discriminate|vm_compute; reflexivity].
  apply (uses_malloc 0x2ff0 0x3000 ex_grant 60000 ex_s0 ∅ 100 0xaf98); [constructor|vm_compute; split; discriminate|vm_compute; reflexivity].
Qed.

Lemma ex_uses4 : uses 0x2ff0 0x3000 ex_grant 60000 ex_s4 ∅.
Proof.
  change (∅ : gmap Z Z) with (delete 0xb008 (delete 0xaf98 (<[0xb008 := 50000]> (<[0xaf98 := 100]> (∅ : gmap Z Z))))).
  apply (uses_free 0x2ff0 0x3000 ex_grant 60000 ex_s3 (delete 0xaf98 (<[0xb008 := 50000]> (<[0xaf98 := 100]> ∅))) 0xb008 50000); [|vm_compute; reflexivity..].
  apply (uses_free 0x2ff0 0x3000 ex_grant 60000 ex_s2 (<[0xb008 := 50000]> (<[0xaf98 := 100]> ∅)) 0xaf98 100); [apply ex_uses2|vm_compute; reflexivity..].
Qed.

Lemma malloc_areas_apart_witness :
  0xb008 + 50000 <= u_brk ex_s2 ∧ ∀ x, 0xaf98 <= x < 0xaf98 + 100 → ¬ 0xb008 <= x < 0xb008 + 50000.
Proof.
  destruct (malloc_areas_apart 0x2ff0 0x3000 ex_grant 60000 ex_s2 _ ltac:(lia) ltac:(lia) ex_grant_ok ltac:(unfold max_request; lia) ex_uses2) as [Hin H].
  split; [apply (Hin 0xb008 50000); reflexivity|]. intros x Hx Hx'.
  specialize (H 0xaf98 100 0xb008 50000 x). assert (0xaf98 = 0xb008); [apply H; (done || reflexivity)|lia].
Defined.

Lemma malloc_free_return_witness : ∃ r s', malloc 0x2ff0 ex_grant 4096 ex_s2 = Some (r, s') ∧ r ≠ 0xaf98 ∧ r ≠ 0.
Proof.
  destruct (malloc_free_return 0x2ff0 0x3000 ex_grant 60000 ex_s2 _ ltac:(lia) ltac:(lia) ex_grant_ok ltac:(unfold max_request; lia) ex_uses2) as [H _].
  destruct (H 4096) as (r & s' & Hm & Hr & H0); [vm_compute; split; discriminate|]. exists r, s'. split; [done|].
  split; [intros ->; discriminate Hr|]. intros E. specialize (H0 E). vm_compute in H0. discriminate H0.
Defined.

Lemma free_coalesces_witness : u_hdr ex_s4 !! 0x3000 = Some (Header 0x2ff0 10347).
Proof.
  destruct (free_coalesces 0x2ff0 0x3000 ex_grant 60000 ex_s4 ltac:(lia) ltac:(lia) ex_grant_ok ltac:(unfold max_request; lia) ex_uses4) as [_ H]; [vm_compute; discriminate|vm_compute; reflexivity|].
  exact H.
Defined.

(** the number of units overflows for the biggest requests: [malloc] of 2{^32} - 1 bytes returns
    the end of the heap, an area of no bytes. A request of 2{^31} bytes is a negative [sbrk], which
    succeeds without giving memory, so that the new header is stored past the end of the process. *)
Theorem malloc_overflow :
  (∀ base grant nbytes s, 2 ^ 32 - 7 <= nbytes < 2 ^ 32 → malloc base grant nbytes s = malloc base grant 0 s) ∧
  (∃ r s', malloc 0x2ff0 ex_grant (2 ^ 32 - 1) ex_s0 = Some (r, s') ∧ r ≠ 0 ∧ r = u_brk s') ∧
  malloc 0x2ff0 ex_grant (2 ^ 31) ex_s0 = None.
Proof.
  split_and!; [|eexists _, _; split; [vm_compute; reflexivity|split; [discriminate|reflexivity]]|vm_compute; reflexivity].
  intros base grant nbytes s Hn. unfold malloc. replace (nunits_of nbytes) with (nunits_of 0); [done|].
  unfold nunits_of, u32, sizeof_header. replace ((nbytes + 8 - 1) mod 2 ^ 32) with (nbytes + 7 - 2 ^ 32).
  - rewrite (Z.div_small (nbytes + 7 - 2 ^ 32)) by lia. reflexivity.
  - apply (Z.mod_unique_pos _ _ 1); lia.
Qed.
