(* ===== verification/Ide.v ===== *)
(** The IDE disk driver ([ide.c]), with the disk controller it talks to. *)
From stdpp Require Import base list numbers strings sets gmap.
From Stdlib Require Import ZArith Lia.
From S2P Require Import Prelude Params Machine Spinlock Sleeplock Bio.
Local Open Scope Z_scope.
Local Open Scope xv6_scope.

Definition SECTOR_SIZE : Z := 512.
Definition IDE_BSY : Z := 0x80.
Definition IDE_DRDY : Z := 0x40.
Definition IDE_DF : Z := 0x20.
Definition IDE_ERR : Z := 0x01.
Definition IDE_CMD_READ : Z := 0x20.
Definition IDE_CMD_WRITE : Z := 0x30.
Definition IDE_CMD_RDMUL : Z := 0xc4.
Definition IDE_CMD_WRMUL : Z := 0xc5.

(** * The controller *)

(** What a command makes the drive do: read a sector, or write one, of the master ([false]) or
    the slave ([true]); a write waits for its data first. *)
Inductive job :=
| JRead (slave : bool) (lba : Z)
| JWrite (slave : bool) (lba : Z) (data : option (list Z)).

(** The controller: the values reads of the status register will give; the bytes last written to
    the other registers; the command at work; whether it has raised its interrupt; the words in
    the data register; the sectors of the two drives. *)
Record ctl := Ctl {
  c_status : list Z;
  c_reg : gmap Z Z;
  c_job : option job;
  c_irq : bool;
  c_data : list Z;
  c_disk : bool → list (list Z);
}.

Definition reg (d : ctl) (port : Z) : Z := default 0 (c_reg d !! port).
(** The sector and the drive the registers select (28-bit LBA). *)
Definition lba (d : ctl) : Z :=
  Z.lor (Z.lor (reg d 0x1f3) (Z.shiftl (reg d 0x1f4) 8))
        (Z.lor (Z.shiftl (reg d 0x1f5) 16) (Z.shiftl (Z.land (reg d 0x1f6) 0x0f) 24)).
Definition slave (d : ctl) : bool := Z.testbit (reg d 0x1f6) 4.

(** [outb]: a byte for a register; one for the command register starts the command. *)
Definition ctl_out (port v : Z) (d : ctl) : ctl :=
  if port =? 0x1f7 then
    let j := if v =? IDE_CMD_READ then Some (JRead (slave d) (lba d))
             else if v =? IDE_CMD_WRITE then Some (JWrite (slave d) (lba d) None) else None in
    Ctl (c_status d) (c_reg d) j false (c_data d) (c_disk d)
  else Ctl (c_status d) (<[port := v]> (c_reg d)) (c_job d) (c_irq d) (c_data d) (c_disk d).

(** [outsl] to the data register: the data of a write. *)
Definition ctl_outsl (data : list Z) (d : ctl) : ctl :=
  match c_job d with
  | Some (JWrite sl l None) => Ctl (c_status d) (c_reg d) (Some (JWrite sl l (Some data))) (c_irq d) (c_data d) (c_disk d)
  | _ => d
  end.

(** The drive finishes its command, and interrupts unless nIEN of the control register is set. *)
Definition ctl_finish (d : ctl) : option ctl :=
  let irq := negb (Z.testbit (reg d 0x3f6) 1) in
  match c_job d with
  | Some (JRead sl l) =>
      data ← c_disk d sl !! Z.to_nat l;
      Some (Ctl (c_status d) (c_reg d) None irq data (c_disk d))
  | Some (JWrite sl l (Some data)) =>
      Some (Ctl (c_status d) (c_reg d) None irq (c_data d)
             (λ x, if eqb x sl then <[Z.to_nat l := data]> (c_disk d x) else c_disk d x))
  | _ => None
  end.

(** * The driver *)

(** The buffers with their links [qnext], [idequeue], [havedisk1], the controller, and the
    buffers for which a process sleeps in [iderw]. *)
Record idest := IdeSt {
  i_buf : list buf;
  i_qnext : gmap nat nat;
  i_queue : option nat;
  i_havedisk1 : bool;
  i_ctl : ctl;
  i_asleep : gset nat;
}.

Definition set_asleep (f : gset nat → gset nat) (s : idest) : idest :=
  IdeSt (i_buf s) (i_qnext s) (i_queue s) (i_havedisk1 s) (i_ctl s) (f (i_asleep s)).
#[global] Instance ide_sleepers : Sleepers idest := {
  fall_asleep ch := match ch with ChBufData b => set_asleep (λ A, {[b]} ∪ A) | _ => λ s, s end;
  wake_all ch := match ch with ChBufData b => set_asleep (λ A, A ∖ {[b]}) | _ => λ s, s end;
}.

Definition on_ctl (f : ctl → ctl) : M idest unit :=
  modify (λ s, IdeSt (i_buf s) (i_qnext s) (i_queue s) (i_havedisk1 s) (f (i_ctl s)) (i_asleep s)).
Definition outb (port v : Z) : M idest unit := on_ctl (ctl_out port v).
Definition outsl (data : list Z) : M idest unit := on_ctl (ctl_outsl data).
Definition ibufp (b : nat) : M idest buf := s <- get ;; deref (i_buf s !! b).
Definition iupd (b : nat) (f : buf → buf) : M idest unit :=
  s <- get ;; _ <- deref (i_buf s !! b) ;;
  modify (λ s, IdeSt (alter f b (i_buf s)) (i_qnext s) (i_queue s) (i_havedisk1 s) (i_ctl s) (i_asleep s)).
Definition set_queue (q : option nat) : M idest unit :=
  modify (λ s, IdeSt (i_buf s) (i_qnext s) q (i_havedisk1 s) (i_ctl s) (i_asleep s)).
Definition set_qnext (b : nat) (q : option nat) : M idest unit :=
  modify (λ s, IdeSt (i_buf s) (partial_alter (λ _, q) b (i_qnext s)) (i_queue s) (i_havedisk1 s) (i_ctl s) (i_asleep s)).
Definition set_havedisk1 (h : bool) : M idest unit :=
  modify (λ s, IdeSt (i_buf s) (i_qnext s) (i_queue s) h (i_ctl s) (i_asleep s)).

(** [inb(0x1f7)]: the next value of the status register. *)
Definition set_status (l : list Z) (d : ctl) : ctl := Ctl l (c_reg d) (c_job d) (c_irq d) (c_data d) (c_disk d).
Definition inb_status : M idest Z :=
  s <- get ;;
  match c_status (i_ctl s) with
  | [] => hang
  | r :: l => on_ctl (set_status l) ;; ret r
  end.

(** The [while] of [idewait]: poll the status register until the drive is ready. *)
Fixpoint poll (l : list Z) : option (Z * list Z) :=
  match l with
  | [] => None
  | r :: l' => if Z.land r (Z.lor IDE_BSY IDE_DRDY) =? IDE_DRDY then Some (r, l') else poll l'
  end.

Definition idewait (checkerr : bool) : M idest Z :=
  s <- get ;;
  match poll (c_status (i_ctl s)) with
  | None => hang
  | Some (r, l) =>
      on_ctl (set_status l) ;;
      if checkerr && negb (Z.land r (Z.lor IDE_DF IDE_ERR) =? 0) then ret (-1) else ret 0
  end.

(** Look for disk 1 in at most [n] reads of the status register. *)
Fixpoint probe (n : nat) : M idest unit :=
  match n with
  | O => ret tt
  | S n' => r <- inb_status ;; if negb (r =? 0) then set_havedisk1 true else probe n'
  end.

(** [ioapicenable] is a register of the interrupt controller. *)
Definition ideinit : M idest unit :=
  _ <- idewait false ;;
  outb 0x1f6 (Z.lor 0xe0 (Z.shiftl 1 4)) ;;
  probe 1000 ;;
  outb 0x1f6 (Z.lor 0xe0 (Z.shiftl 0 4)).

Definition idestart (o : option nat) : M idest unit :=
  match o with
  | None => panic "idestart"
  | Some b =>
      x <- ibufp b ;;
      when (FSSIZE <=? b_blockno x) (panic "incorrect blockno") ;;
      let sector_per_block := BSIZE / SECTOR_SIZE in
      let sector := s32 (b_blockno x * sector_per_block) in
      let read_cmd := if sector_per_block =? 1 then IDE_CMD_READ else IDE_CMD_RDMUL in
      let write_cmd := if sector_per_block =? 1 then IDE_CMD_WRITE else IDE_CMD_WRMUL in
      when (7 <? sector_per_block) (panic "idestart") ;;
      _ <- idewait false ;;
      outb 0x3f6 0 ;;
      outb 0x1f2 sector_per_block ;;
      outb 0x1f3 (Z.land sector 0xff) ;;
      outb 0x1f4 (Z.land (Z.shiftr sector 8) 0xff) ;;
      outb 0x1f5 (Z.land (Z.shiftr sector 16) 0xff) ;;
      outb 0x1f6 (Z.lor (Z.lor 0xe0 (Z.shiftl (Z.land (b_dev x) 1) 4)) (Z.land (Z.shiftr sector 24) 0x0f)) ;;
      if negb (Z.land (b_flags x) B_DIRTY =? 0) then
        outb 0x1f7 write_cmd ;;
        outsl (b_data x)
      else
        outb 0x1f7 read_cmd
  end.

Definition ideintr : M idest unit :=
  acquire LkIde ;;
  q <- gets i_queue ;;
  match q with
  | None => release LkIde
  | Some b =>
      s <- get ;;
      set_queue (i_qnext s !! b) ;;
      x <- ibufp b ;;
      (if Z.land (b_flags x) B_DIRTY =? 0 then
         r <- idewait true ;;
         when (0 <=? r) (s <- get ;; iupd b (set_data (c_data (i_ctl s))))
       else ret tt) ;;
      iupd b (set_flags (λ f, Z.lor f B_VALID)) ;;
      iupd b (set_flags (λ f, Z.land f (Z.lnot B_DIRTY))) ;;
      wakeup (ChBufData b) ;;
      q <- gets i_queue ;;
      when (bool_decide (q ≠ None)) (idestart q) ;;
      release LkIde
  end.

(** The loop that looks for the end of the queue; [pp] is [None] for [&idequeue] and [Some b]
    for [&b->qnext]. *)
Definition at_pp (pp : option nat) (s : idest) : option nat :=
  match pp with None => i_queue s | Some b => i_qnext s !! b end.
Definition store_pp (pp q : option nat) : M idest unit :=
  match pp with None => set_queue q | Some b => set_qnext b q end.
Fixpoint find_end (fuel : nat) (pp : option nat) : M idest (option nat) :=
  match fuel with
  | O => hang
  | S fuel' =>
      s <- get ;;
      match at_pp pp s with
      | None => ret pp
      | Some b => find_end fuel' (Some b)
      end
  end.

(** The loop at the end of [iderw]: a thread whose request is not done sleeps, and when woken,
    with the lock again, starts over here. *)
Definition iderw_wait (b : nat) : M idest unit :=
  x <- ibufp b ;;
  when (negb (Z.land (b_flags x) (Z.lor B_VALID B_DIRTY) =? B_VALID)) (sleep (ChBufData b) LkIde) ;;
  release LkIde.

Definition ide_getl (b : nat) (s : idest) : sleeplock := b_lock (i_buf s !!! b).

(** The queue has at most one link for every buffer. *)
Definition iderw (b : nat) : M idest unit :=
  h <- holdingsleep (LkBuf b) (ide_getl b) ;;
  when (negb h) (panic "iderw: buf not locked") ;;
  x <- ibufp b ;;
  when (Z.land (b_flags x) (Z.lor B_VALID B_DIRTY) =? B_VALID) (panic "iderw: nothing to do") ;;
  s <- get ;;
  when (negb (b_dev x =? 0) && negb (i_havedisk1 s)) (panic "iderw: ide disk 1 not present") ;;
  acquire LkIde ;;
  set_qnext b None ;;
  pp <- find_end (S (S (length (i_buf s)))) None ;;
  store_pp pp (Some b) ;;
  q <- gets i_queue ;;
  when (bool_decide (q = Some b)) (idestart (Some b)) ;;
  iderw_wait b.
