(* ===== verification/IdeProps.v ===== *)
(** The IDE driver serves its requests in order, as a disk would serve them one at a time. *)
From stdpp Require Import base list numbers strings sets gmap.
From Stdlib Require Import ZArith Lia.
From S2P Require Import Prelude Params Machine Spinlock Sleeplock Bio Ide.
Local Open Scope Z_scope.
Local Open Scope xv6_scope.

(** * Disks and requests *)

Abbreviation disks := (bool → list (list Z)).
(** What a buffer asks for: the sector of a drive, and the data of a write; [rq_old] is what
    the buffer has before. *)
Record request := Req { rq_buf : nat; rq_slave : bool; rq_block : Z; rq_data : option (list Z); rq_old : list Z }.

Definition dirty (x : buf) : bool := negb (Z.land (b_flags x) B_DIRTY =? 0).
Definition request_of (b : nat) (x : buf) : request :=
  Req b (Z.land (b_dev x) 1 =? 1) (b_blockno x) (if dirty x then Some (b_data x) else None) (b_data x).

(** The disks after a request, and the data the request's buffer has then. *)
Definition serve (r : request) (D : disks) : disks :=
  match rq_data r with
  | Some data => λ sl, if eqb sl (rq_slave r) then <[Z.to_nat (rq_block r) := data]> (D sl) else D sl
  | None => D
  end.
Definition answer (r : request) (D : disks) : list Z :=
  match rq_data r with Some data => data | None => default [] (D (rq_slave r) !! Z.to_nat (rq_block r)) end.

Definition job_of (r : request) : job :=
  match rq_data r with Some data => JWrite (rq_slave r) (rq_block r) (Some data) | None => JRead (rq_slave r) (rq_block r) end.

(** * The registers *)

(** The controller after [idestart] of the buffer [x]. *)
Definition started (x : buf) (d : ctl) : ctl :=
  let d := ctl_out 0x1f2 1 (ctl_out 0x3f6 0 d) in
  let d := ctl_out 0x1f3 (Z.land (b_blockno x) 0xff) d in
  let d := ctl_out 0x1f4 (Z.land (Z.shiftr (b_blockno x) 8) 0xff) d in
  let d := ctl_out 0x1f5 (Z.land (Z.shiftr (b_blockno x) 16) 0xff) d in
  let d := ctl_out 0x1f6 (Z.lor (Z.lor 0xe0 (Z.shiftl (Z.land (b_dev x) 1) 4)) (Z.land (Z.shiftr (b_blockno x) 24) 0x0f)) d in
  if dirty x then ctl_outsl (b_data x) (ctl_out 0x1f7 IDE_CMD_WRITE d) else ctl_out 0x1f7 IDE_CMD_READ d.

Definition with_ctl (d : ctl) (s : idest) : idest := IdeSt (i_buf s) (i_qnext s) (i_queue s) (i_havedisk1 s) d (i_asleep s).

(** A process goes to sleep in [iderw] of buffer [b], or is woken there. *)
Definition slept (b : nat) : idest → idest := set_asleep (λ A, {[b]} ∪ A).
Definition woken (b : nat) : idest → idest := set_asleep (λ A, A ∖ {[b]}).

Lemma idewait_eq checkerr c s r l :
  poll (c_status (i_ctl s)) = Some (r, l) →
  idewait checkerr c s = Ret (if checkerr && negb (Z.land r (Z.lor IDE_DF IDE_ERR) =? 0) then -1 else 0) c (with_ctl (set_status l (i_ctl s)) s).
Proof. intros Hp. unfold idewait, bind, get. rewrite Hp. cbn [on_ctl modify]. by destruct (checkerr && _). Qed.

Lemma idestart_eq b x c s r l :
  i_buf s !! b = Some x → 0 <= b_blockno x < FSSIZE → poll (c_status (i_ctl s)) = Some (r, l) →
  idestart (Some b) c s = Ret tt c (with_ctl (started x (set_status l (i_ctl s))) s).
Proof.
  intros Hb Hn Hp. unfold idestart, ibufp. unfold bind at 1 2, get, deref. cbn [i_buf]. rewrite Hb. cbn [ret].
  unfold when. replace (FSSIZE <=? b_blockno x) with false by lia. change (BSIZE / SECTOR_SIZE) with 1. cbn [Z.ltb Z.eqb Z.compare Pos.compare Pos.compare_cont Pos.eqb].
  unfold bind at 1 2, ret at 1 2. unfold bind at 1. rewrite (idewait_eq _ _ _ _ _ Hp). cbn [andb].
  rewrite Z.mul_1_r, s32_small by (unfold FSSIZE in Hn; lia). unfold started, dirty. by destruct (negb _).
Qed.

(** The sector and the drive in the registers are those of the request. *)
Lemma registers_checked :
  forallb (λ n, let q := Z.lor (Z.lor (Z.land n 0xff) (Z.shiftl (Z.land (Z.shiftr n 8) 0xff) 8)) (Z.shiftl (Z.land (Z.shiftr n 16) 0xff) 16) in
    forallb (λ u, let v := Z.lor (Z.lor 0xe0 (Z.shiftl u 4)) (Z.land (Z.shiftr n 24) 0x0f) in
      (Z.lor (Z.lor (Z.land n 0xff) (Z.shiftl (Z.land (Z.shiftr n 8) 0xff) 8)) (Z.lor (Z.shiftl (Z.land (Z.shiftr n 16) 0xff) 16) (Z.shiftl (Z.land v 0x0f) 24)) =? n)
      && eqb (Z.testbit v 4) (u =? 1)) [0; 1]) (seqZ 0 FSSIZE) = true.
Proof. vm_compute. reflexivity. Qed.

Lemma registers_ok x d :
  0 <= b_blockno x < FSSIZE →
  let d' := started x d in
  c_job d' = Some (job_of (request_of 0 x)) ∧ c_irq d' = false ∧ c_disk d' = c_disk d ∧ c_status d' = c_status d ∧ reg d' 0x3f6 = 0.
Proof.
  intros Hn. pose proof registers_checked as H. rewrite forallb_forall in H. specialize (H (b_blockno x)). rewrite forallb_forall in H.
  assert (In (b_blockno x) (seqZ 0 FSSIZE)) as Hin by (apply list_elem_of_In, elem_of_seqZ; lia).
  assert (In (Z.land (b_dev x) 1) [0; 1]) as Hdev.
  { change 1 with (Z.ones 1) at 1. rewrite Z.land_ones by lia. pose proof (Z.mod_pos_bound (b_dev x) (2 ^ 1)). cbn. lia. }
  specialize (H Hin (Z.land (b_dev x) 1) Hdev). apply andb_true_iff in H as [Hl Hs%eqb_prop]. apply Z.eqb_eq in Hl.
  unfold started, job_of, request_of, dirty. cbn [rq_data rq_slave rq_block].
  destruct (negb (Z.land (b_flags x) B_DIRTY =? 0)); cbn [ctl_outsl ctl_out Z.eqb Pos.eqb IDE_CMD_WRITE IDE_CMD_READ c_job c_status c_reg c_irq c_data c_disk].
  all: split_and!; try done; unfold slave, lba, reg; cbn [c_reg];
    repeat first [rewrite lookup_insert_eq | rewrite lookup_insert_ne by lia]; repeat match goal with |- context [default 0 (Some ?v)] => change (default 0 (Some v)) with v end; [by rewrite Hl, Hs|done].
Qed.

(** * The queue *)

(** From the pointer [o], the links go through the buffers [Q]. *)
Fixpoint qchain (m : gmap nat nat) (o : option nat) (Q : list nat) : Prop :=
  match Q with
  | [] => o = None
  | b :: Q' => o = Some b ∧ qchain m (m !! b) Q'
  end.

Lemma qchain_frame m o Q b v : b ∉ Q → qchain m o Q → qchain (partial_alter (λ _, v) b m) o Q.
Proof.
  revert o. induction Q as [|c Q IH]; intros o Hb; [done|]. apply not_elem_of_cons in Hb as [Hne Hb]. intros [-> HQ]. split; [done|].
  rewrite lookup_partial_alter_ne by done. by apply IH.
Qed.

(** The pointer at the end of the queue. *)
Fixpoint last_pp (pp : option nat) (Q : list nat) : option nat :=
  match Q with [] => pp | b :: Q' => last_pp (Some b) Q' end.

Lemma last_pp_elem b Q : ∃ c, last_pp (Some b) Q = Some c ∧ c ∈ b :: Q.
Proof.
  revert b. induction Q as [|d Q IH]; intros b; [exists b; split; [done|by left]|].
  destruct (IH d) as (c & Hc & Hin). exists c. split; [done|by right].
Qed.

Lemma find_end_eq c s Q pp fuel :
  qchain (i_qnext s) (at_pp pp s) Q → (length Q < fuel)%nat → find_end fuel pp c s = Ret (last_pp pp Q) c s.
Proof.
  revert pp fuel. induction Q as [|b Q IH]; intros pp fuel HQ Hf; (destruct fuel as [|fuel]; [cbn in Hf; lia|]);
    cbn [find_end]; rewrite (bind_eq _ _ _ _ s c s) by done; cbn [qchain] in HQ.
  - by rewrite HQ.
  - destruct HQ as [-> HQ]. apply IH; [done|cbn in Hf; lia].
Qed.

(** A buffer appended to the queue. *)
Lemma qchain_snoc m b d Q :
  NoDup (d :: Q) → b ∉ d :: Q → m !! b = None → qchain m (m !! d) Q →
  ∃ e, last_pp (Some d) Q = Some e ∧ qchain (<[e := b]> m) (<[e := b]> m !! d) (Q ++ [b]).
Proof.
  revert d. induction Q as [|c Q IH]; intros d Hnd Hb Hm HQ.
  { exists d. split; [done|]. cbn [app qchain]. rewrite lookup_insert_eq. split; [done|]. rewrite lookup_insert_ne; [done|]. intros <-. apply Hb. by left. }
  destruct HQ as [Hd HQ]. apply list.NoDup_cons in Hnd as [Hdn Hnd].
  destruct (IH c Hnd) as (e & He & HQ'); [intros H; apply Hb; by right|done|done|]. exists e. split; [done|].
  destruct (last_pp_elem c Q) as (e' & He' & Hin). rewrite He in He'. injection He' as <-.
  cbn [app qchain]. rewrite lookup_insert_ne by (intros ->; done). done.
Qed.

Definition enqueued (b : nat) (Q : list nat) (s : idest) : idest :=
  let m := delete b (i_qnext s) in
  match last_pp None Q with
  | None => IdeSt (i_buf s) m (Some b) (i_havedisk1 s) (i_ctl s) (i_asleep s)
  | Some e => IdeSt (i_buf s) (<[e := b]> m) (i_queue s) (i_havedisk1 s) (i_ctl s) (i_asleep s)
  end.

Lemma enqueued_chain b Q s :
  qchain (i_qnext s) (i_queue s) Q → NoDup Q → b ∉ Q → qchain (i_qnext (enqueued b Q s)) (i_queue (enqueued b Q s)) (Q ++ [b]).
Proof.
  intros HQ Hnd Hb. unfold enqueued. destruct Q as [|d Q]; cbn [last_pp].
  { cbn [i_qnext i_queue app qchain]. split; [done|]. apply lookup_delete_eq. }
  pose proof (qchain_frame (i_qnext s) (i_queue s) (d :: Q) b None Hb HQ) as [Hd HQ']. fold (delete b (i_qnext s)) in HQ'.
  destruct (qchain_snoc (delete b (i_qnext s)) b d Q Hnd Hb) as (e & He & HQ2); [apply lookup_delete_eq|done|]. rewrite He.
  cbn [i_qnext i_queue app qchain]. split; [done|]. exact HQ2.
Qed.

(** * What the handlers do *)

(** A request is in progress until its buffer has valid data that is not dirty. *)
Definition settled (x : buf) : bool := Z.land (b_flags x) (Z.lor B_VALID B_DIRTY) =? B_VALID.

(** The drive becomes ready whenever the driver waits for it. *)
Definition patient (l : list Z) : Prop :=
  ∃ r l' r' l'', poll l = Some (r, l') ∧ poll l' = Some (r', l'').
(** Whether it reports an error when it is ready. *)
Definition io_error (l : list Z) : bool :=
  match poll l with Some (r, _) => negb (Z.land r (Z.lor IDE_DF IDE_ERR) =? 0) | None => false end.

Lemma iderw_eq b x pid s Q r l :
  i_buf s !! b = Some x → b_lock x = SleepLock true pid → settled x = false → (b_dev x = 0 ∨ i_havedisk1 s = true) →
  qchain (i_qnext s) (i_queue s) Q → NoDup Q → b ∉ Q → (length Q <= length (i_buf s))%nat → 0 <= b_blockno x < FSSIZE →
  poll (c_status (i_ctl s)) = Some (r, l) →
  iderw b (cpu0 pid) s = Sleep (ChBufData b) (cpu1 pid LkPtable)
    (slept b (match Q with [] => with_ctl (started x (set_status l (i_ctl s))) (enqueued b Q s) | _ => enqueued b Q s end)).
Proof.
  intros Hx Hlk Hd Hdev HQ Hnd Hb Hlen Hn Hp. unfold iderw.
  rewrite (bind_eq _ _ _ _ _ _ _ (holdingsleep_eq (LkBuf b) (ide_getl b) pid s)). unfold ide_getl. rewrite (list_lookup_total_correct _ _ _ Hx), Hlk.
  cbn [sl_locked sl_pid]. rewrite Z.eqb_refl. cbn [andb negb when].
  rewrite (bind_eq _ _ _ _ tt (cpu0 pid) s) by reflexivity.
  assert (∀ c s', i_buf s' = i_buf s → ibufp b c s' = Ret x c s') as Hbufp.
  { intros c s' E. unfold ibufp, bind, get. by rewrite E, Hx. }
  rewrite (bind_eq _ _ _ _ x (cpu0 pid) s) by by apply Hbufp.
  unfold settled in Hd. rewrite Hd. cbn [when]. rewrite (bind_eq _ _ _ _ tt (cpu0 pid) s) by reflexivity.
  rewrite (bind_eq _ _ _ _ s (cpu0 pid) s) by reflexivity.
  replace (negb (b_dev x =? 0) && negb (i_havedisk1 s)) with false by (destruct Hdev as [->| ->]; [done|by rewrite andb_false_r]).
  cbn [when]. rewrite (bind_eq _ _ _ _ tt (cpu0 pid) s) by reflexivity.
  rewrite (bind_eq _ _ _ _ _ _ _ (acquire_cpu0 pid LkIde s)).
  set (s1 := IdeSt (i_buf s) (delete b (i_qnext s)) (i_queue s) (i_havedisk1 s) (i_ctl s) (i_asleep s)).
  rewrite (bind_eq _ _ _ _ tt (cpu1 pid LkIde) s1) by reflexivity.
  rewrite (bind_eq _ _ _ _ (last_pp None Q) (cpu1 pid LkIde) s1) by (apply find_end_eq; [by apply qchain_frame|lia]).
  rewrite (bind_eq _ _ _ _ tt (cpu1 pid LkIde) (enqueued b Q s)) by (unfold enqueued, store_pp; by destruct (last_pp None Q)).
  rewrite (bind_eq _ _ _ _ (i_queue (enqueued b Q s)) (cpu1 pid LkIde) (enqueued b Q s)) by reflexivity.
  assert (∀ s', i_buf s' = i_buf s → iderw_wait b (cpu1 pid LkIde) s' = Sleep (ChBufData b) (cpu1 pid LkPtable) (slept b s')) as Hw.
  { intros s' E. unfold iderw_wait. rewrite (bind_eq _ _ _ _ x (cpu1 pid LkIde) s') by by apply Hbufp. rewrite Hd. cbn [negb when].
    unfold bind. by rewrite sleep_one. }
  destruct Q as [|d Q]; cbn [last_pp enqueued i_queue].
  - rewrite bool_decide_eq_true_2 by done. cbn [when]. unfold enqueued. cbn [last_pp].
    rewrite (bind_eq _ _ _ _ _ _ _ (idestart_eq b x (cpu1 pid LkIde) (IdeSt (i_buf s) (delete b (i_qnext s)) (Some b) (i_havedisk1 s) (i_ctl s) (i_asleep s)) r l Hx Hn Hp)). by apply Hw.
  - destruct (last_pp_elem d Q) as (e & He & _). unfold enqueued in *. cbn [last_pp] in *. rewrite He. cbn [i_queue].
    destruct HQ as [HQd _]. rewrite HQd, bool_decide_eq_false_2; [|intros [= ->]; apply Hb; by left].
    cbn [when]. rewrite (bind_eq _ _ _ _ tt (cpu1 pid LkIde) (IdeSt (i_buf s) (<[e := b]> (delete b (i_qnext s))) (Some d) (i_havedisk1 s) (i_ctl s) (i_asleep s))) by reflexivity. by apply Hw.
Qed.

(** A processor that has just taken an interrupt. *)
Definition cpu_intr (pid : Z) : cpu := Cpu pid false 0 false [].
Definition cpu_intr1 (pid : Z) : cpu := Cpu pid false 1 false [LkIde].

Lemma acquire_intr pid (s : idest) : acquire LkIde (cpu_intr pid) s = Ret tt (cpu_intr1 pid) s.
Proof. rewrite acquire_eq; [done|apply not_elem_of_nil|done]. Qed.
Lemma release_intr pid (s : idest) : release LkIde (cpu_intr1 pid) s = Ret tt (cpu_intr pid) s.
Proof. rewrite release_eq; simpl; [|set_solver|done|lia]. by rewrite filter_cons_False by naive_solver. Qed.
Lemma wakeup_intr pid b (s : idest) : wakeup (ChBufData b) (cpu_intr1 pid) s = Ret tt (cpu_intr1 pid) (woken b s).
Proof.
  unfold wakeup. rewrite (bind_eq _ _ _ _ tt (Cpu pid false 2 false [LkPtable; LkIde]) s) by (rewrite acquire_eq; [done|set_solver|done]).
  rewrite (bind_eq _ _ _ _ tt (Cpu pid false 2 false [LkPtable; LkIde]) (woken b s)) by reflexivity.
  rewrite release_eq; simpl; [|set_solver|done|lia]. by rewrite filter_cons_False, filter_cons_True by naive_solver.
Qed.

(** The buffer of a request that is done. *)
Definition completed (data : list Z) (x : buf) : buf :=
  set_flags (λ f, Z.land f (Z.lnot B_DIRTY)) (set_flags (λ f, Z.lor f B_VALID) (set_data data x)).

Lemma completed_settled data x : settled (completed data x) = true.
Proof.
  unfold settled. apply Z.eqb_eq. cbn [b_flags completed set_flags set_data]. apply Z.bits_inj'. intros n Hn.
  change B_VALID with (2 ^ 1). change B_DIRTY with (2 ^ 2). rewrite !Z.land_spec, !Z.lor_spec, Z.lnot_spec, !Z.pow2_bits_eqb by lia.
  destruct (Z.eqb_spec 1 n), (Z.eqb_spec 2 n), (Z.testbit (b_flags x) n); done || lia.
Qed.

Definition with_buf (l : list buf) (s : idest) : idest := IdeSt l (i_qnext s) (i_queue s) (i_havedisk1 s) (i_ctl s) (i_asleep s).

Lemma alter_insert_eq (l : list buf) b f x : l !! b = Some x → alter f b l = <[b := f x]> l.
Proof.
  intros Hx. apply list_eq. intros i. destruct (decide (i = b)) as [->|Hne].
  - rewrite list_lookup_alter_eq, Hx. symmetry. apply list_lookup_insert_eq. by eapply lookup_lt_Some.
  - by rewrite list_lookup_alter_ne, list_lookup_insert_ne by done.
Qed.

Lemma iupd_eq b f x c s : i_buf s !! b = Some x → iupd b f c s = Ret tt c (with_buf (<[b := f x]> (i_buf s)) s).
Proof. intros Hx. unfold iupd, bind, get, modify, with_buf. rewrite Hx. cbn [deref]. unfold ret. by rewrite (alter_insert_eq _ _ f _ Hx). Qed.

Lemma iupd_twice_eq {A} b f g x c s (k : unit → M idest A) :
  i_buf s !! b = Some x →
  (iupd b f ;; iupd b g ;; k tt) c s = k tt c (with_buf (<[b := g (f x)]> (i_buf s)) s).
Proof.
  intros Hx. rewrite (bind_eq _ _ _ _ _ _ _ (iupd_eq b f x c s Hx)). assert (b < length (i_buf s))%nat by by eapply lookup_lt_Some.
  rewrite (bind_eq _ _ _ _ tt c (with_buf (<[b := g (f x)]> (i_buf s)) s)); [done|].
  rewrite (iupd_eq b g (f x)) by (cbn [i_buf with_buf]; by apply list_lookup_insert_eq). cbn [with_buf i_buf]. by rewrite list_insert_insert_eq.
Qed.

(** The data the buffer [x] has after the first part of [ideintr]; a read that fails leaves
    what was there. *)
Definition fetched (x : buf) (d : ctl) : list Z := if dirty x || io_error (c_status d) then b_data x else c_data d.

(** The first part of [ideintr]: the data of a read is fetched. *)
Lemma ideintr_fetch b x c s r l :
  i_buf s !! b = Some x → poll (c_status (i_ctl s)) = Some (r, l) →
  (if Z.land (b_flags x) B_DIRTY =? 0 then
     r <- idewait true ;; when (0 <=? r) (s <- get ;; iupd b (set_data (c_data (i_ctl s))))
   else ret tt) c s =
  Ret tt c (with_ctl (if dirty x then i_ctl s else set_status l (i_ctl s))
             (with_buf (<[b := set_data (fetched x (i_ctl s)) x]> (i_buf s)) s)).
Proof.
  intros Hx Hp. unfold fetched, io_error, dirty. rewrite Hp.
  assert (∀ d, with_ctl d s = with_ctl d (with_buf (<[b := set_data (b_data x) x]> (i_buf s)) s)) as Hsame.
  { intros d. destruct s as [bufs qn q h ct A]. unfold with_ctl, with_buf. cbn [i_buf i_qnext i_queue i_havedisk1 i_ctl i_asleep] in *. f_equal.
    rewrite list_insert_id; [done|]. by destruct x. }
  destruct (Z.land (b_flags x) B_DIRTY =? 0); cbn [negb orb].
  - rewrite (bind_eq _ _ _ _ _ _ _ (idewait_eq true c s r l Hp)). cbn [andb].
    destruct (negb (Z.land r (Z.lor IDE_DF IDE_ERR) =? 0)); cbn [Z.leb Z.compare when]; [unfold ret; by rewrite Hsame|].
    rewrite (bind_eq _ _ _ _ (with_ctl (set_status l (i_ctl s)) s) c (with_ctl (set_status l (i_ctl s)) s)) by reflexivity.
    by rewrite (iupd_eq b _ x) by done.
  - unfold ret. rewrite <- Hsame. by destruct s.
Qed.

(** The state after the interrupt for the buffer [b]; [o] is the next request. *)
Definition served (b : nat) (x : buf) (o : option (nat * buf)) (d : ctl) (s : idest) : idest :=
  IdeSt (<[b := completed (fetched x (i_ctl s)) x]> (i_buf s)) (i_qnext s) (fst <$> o) (i_havedisk1 s)
        (match o with None => d | Some (_, y) => started y d end) (i_asleep s ∖ {[b]}).

Lemma ideintr_eq b x o pid s :
  i_queue s = Some b → i_buf s !! b = Some x → i_qnext s !! b = fst <$> o →
  (∀ n y, o = Some (n, y) → n ≠ b ∧ i_buf s !! n = Some y ∧ 0 <= b_blockno y < FSSIZE) →
  patient (c_status (i_ctl s)) →
  ∃ l, ideintr (cpu_intr pid) s = Ret tt (cpu_intr pid) (served b x o (set_status l (i_ctl s)) s).
Proof.
  intros Hq Hx Hn Ho (r & l & r' & l' & Hp & Hp'). assert (b < length (i_buf s))%nat as Hlt by by eapply lookup_lt_Some.
  unfold ideintr. rewrite (bind_eq _ _ _ _ _ _ _ (acquire_intr pid s)).
  rewrite (bind_eq _ _ _ _ (Some b) (cpu_intr1 pid) s) by (unfold gets; by rewrite Hq). cbv beta iota.
  rewrite (bind_eq _ _ _ _ s (cpu_intr1 pid) s) by reflexivity. rewrite Hn.
  set (s1 := IdeSt (i_buf s) (i_qnext s) (fst <$> o) (i_havedisk1 s) (i_ctl s) (i_asleep s)).
  rewrite (bind_eq _ _ _ _ tt (cpu_intr1 pid) s1) by reflexivity.
  rewrite (bind_eq _ _ _ _ x (cpu_intr1 pid) s1) by (unfold ibufp, bind, get; cbn [i_buf s1]; by rewrite Hx).
  rewrite (bind_eq _ _ _ _ _ _ _ (ideintr_fetch b x (cpu_intr1 pid) s1 r l Hx Hp)). cbn [i_ctl s1].
  set (data := fetched x (i_ctl s)). set (d := if dirty x then i_ctl s else set_status l (i_ctl s)).
  rewrite (iupd_twice_eq b _ _ (set_data data x) _ _ (λ _, wakeup (ChBufData b) ;; q <- gets i_queue ;; when (bool_decide (q ≠ None)) (idestart q) ;; release LkIde))
    by (cbn [i_buf with_ctl with_buf]; by apply list_lookup_insert_eq).
  cbn [i_buf with_buf with_ctl s1]. rewrite list_insert_insert_eq. fold (completed data x).
  rewrite (bind_eq _ _ _ _ _ _ _ (wakeup_intr pid b _)).
  set (s2 := woken b (with_buf (<[b := completed data x]> (i_buf s)) (with_ctl d (with_buf (<[b := set_data data x]> (i_buf s)) s1)))).
  rewrite (bind_eq _ _ _ _ (fst <$> o) (cpu_intr1 pid) s2) by reflexivity.
  assert (∃ l2, (∃ r2, poll (c_status d) = Some (r2, l2)) ∧ set_status l2 d = set_status l2 (i_ctl s)) as (l2 & (r2 & Hp2) & Ed).
  { unfold d. destruct (dirty x); [exists l|exists l']; split; try reflexivity; eexists; [exact Hp|exact Hp']. }
  destruct o as [[n y]|]; cbn [fmap option_fmap option_map fst].
  - destruct (Ho n y eq_refl) as (Hne & Hy & Hb). exists l2. rewrite bool_decide_eq_true_2 by discriminate. cbn [when].
    erewrite bind_eq; [|eapply (idestart_eq n y); [cbn [i_buf s2 woken set_asleep with_buf with_ctl]; by rewrite list_lookup_insert_ne by done|done|exact Hp2]].
    rewrite release_intr. f_equal. unfold served, with_ctl. cbn [i_buf i_qnext i_queue i_havedisk1 i_ctl i_asleep s2 woken set_asleep with_buf with_ctl s1]. by rewrite Ed.
  - exists (c_status d). rewrite bool_decide_eq_false_2 by (intros H; by apply H). cbn [when].
    rewrite (bind_eq _ _ _ _ tt (cpu_intr1 pid) s2) by reflexivity.
    rewrite release_intr. f_equal. unfold served, s2. cbn. f_equal. unfold d. by destruct (dirty x), (i_ctl s).
Qed.

(** * Processes, the controller and interrupts *)

Inductive event :=
| Submit (r : request)
| Serve (r : request) (data : list Z)
| Fail (r : request) (data : list Z)
| Return (b : nat)
| Silent.

Definition with_status (l : list Z) (s : idest) : idest := with_ctl (set_status l (i_ctl s)) s.
(** The interrupt is delivered. *)
Definition ack (s : idest) : idest :=
  with_ctl (Ctl (c_status (i_ctl s)) (c_reg (i_ctl s)) (c_job (i_ctl s)) false (c_data (i_ctl s)) (c_disk (i_ctl s))) s.

(** The driver's state, and the buffers for which a process is inside [iderw]. *)
Abbreviation config := (idest * list nat)%type.

(** What an interrupt does, with the status register as in [l]: the request of the buffer
    [x] is done, or it was a read and the drive reports an error. *)
Definition done_event (x : buf) (l : list Z) (r : request) (data : list Z) : event :=
  if negb (dirty x) && io_error l then Fail r data else Serve r data.

(** A process calls [iderw] for a buffer it uses alone and goes to sleep; the drive finishes; its
    interrupt is handled, or one that comes when nothing is queued; a process that is awake in
    [iderw] returns or sleeps again; one that sleeps there is woken by [kill]; a process that is not
    in [iderw] changes its buffer. *)
Inductive istep : config → event → config → Prop :=
| istep_call s W b x pid l s' :
    b ∉ W → i_buf s !! b = Some x → 0 <= b_blockno x < FSSIZE →
    (Z.to_nat (b_blockno x) < length (c_disk (i_ctl s) (rq_slave (request_of b x))))%nat → patient l →
    iderw b (cpu0 pid) (with_status l s) = Sleep (ChBufData b) (cpu1 pid LkPtable) s' →
    istep (s, W) (Submit (request_of b x)) (s', b :: W)
| istep_finish s W d :
    ctl_finish (i_ctl s) = Some d → istep (s, W) Silent (with_ctl d s, W)
| istep_intr s W b x x' pid l s' :
    c_irq (i_ctl s) = true → i_queue s = Some b → i_buf s !! b = Some x → patient l →
    ideintr (cpu_intr pid) (with_status l (ack s)) = Ret tt (cpu_intr pid) s' → i_buf s' !! b = Some x' →
    istep (s, W) (done_event x l (request_of b x) (b_data x')) (s', W)
| istep_spurious s W pid s' :
    i_queue s = None → ideintr (cpu_intr pid) s = Ret tt (cpu_intr pid) s' → istep (s, W) Silent (s', W)
| istep_return s W b pid s' :
    b ∈ W → b ∉ i_asleep s → iderw_wait b (cpu1 pid LkIde) s = Ret tt (cpu0 pid) s' →
    istep (s, W) (Return b) (s', filter (λ c, c ≠ b) W)
| istep_resleep s W b pid c s' :
    b ∈ W → b ∉ i_asleep s → iderw_wait b (cpu1 pid LkIde) s = Sleep (ChBufData b) c s' → istep (s, W) Silent (s', W)
| istep_kill s W b :
    b ∈ W → istep (s, W) Silent (woken b s, W)
| istep_use s W b f :
    b ∉ W → istep (s, W) Silent (with_buf (alter f b (i_buf s)) s, W).

Inductive isteps : config → list event → config → Prop :=
| isteps_nil c : isteps c [] c
| isteps_snoc c1 tr c2 e c3 : isteps c1 tr c2 → istep c2 e c3 → isteps c1 (tr ++ [e]) c3.

(** * The disk as its users see it *)

(** Requests in the order they came, each done at once when its turn comes, or, for a read, not done
    because of an error: then the buffer has what it had before.  A call returns after its request has
    had its turn. *)
Record spec := Spec { sp_disk : disks; sp_queue : list request; sp_done : list nat }.

Inductive sstep : spec → event → spec → Prop :=
| sstep_submit D q F r : sstep (Spec D q F) (Submit r) (Spec D (q ++ [r]) F)
| sstep_serve D r q F : sstep (Spec D (r :: q) F) (Serve r (answer r D)) (Spec (serve r D) q (rq_buf r :: F))
| sstep_fail D r q F : rq_data r = None → sstep (Spec D (r :: q) F) (Fail r (rq_old r)) (Spec D q (rq_buf r :: F))
| sstep_return D q F b : b ∈ F → sstep (Spec D q F) (Return b) (Spec D q (filter (λ c, c ≠ b) F)).

Inductive ssteps : spec → list event → spec → Prop :=
| ssteps_nil a : ssteps a [] a
| ssteps_silent a tr a' : ssteps a tr a' → ssteps a (tr ++ [Silent]) a'
| ssteps_snoc a1 tr a2 e a3 : ssteps a1 tr a2 → sstep a2 e a3 → ssteps a1 (tr ++ [e]) a3.

(** * The simulation *)

(** What the controller does while the requests [q] are queued and the disks are [D]. *)
Definition ctl_sim (d : ctl) (D : disks) (q : list request) : Prop :=
  match q with
  | [] => c_job d = None ∧ c_irq d = false ∧ ∀ sl, c_disk d sl = D sl
  | r :: _ =>
      (c_job d = Some (job_of r) ∧ c_irq d = false ∧ reg d 0x3f6 = 0 ∧ ∀ sl, c_disk d sl = D sl) ∨
      (c_job d = None ∧ c_irq d = true ∧ (∀ sl, c_disk d sl = serve r D sl) ∧ (rq_data r = None → c_data d = answer r D))
  end.

(** A queued buffer: its request, and that it can be done. *)
Definition asks (s : idest) (D : disks) (r : request) : Prop :=
  ∃ x, i_buf s !! rq_buf r = Some x ∧ r = request_of (rq_buf r) x ∧ settled x = false ∧ 0 <= b_blockno x < FSSIZE ∧
    (Z.to_nat (rq_block r) < length (D (rq_slave r)))%nat.

Record sim (c : config) (a : spec) : Prop := Sim {
  sm_chain : qchain (i_qnext c.1) (i_queue c.1) (rq_buf <$> sp_queue a);
  sm_nodup : NoDup (rq_buf <$> sp_queue a);
  sm_asks r : r ∈ sp_queue a → asks c.1 (sp_disk a) r;
  sm_ctl : ctl_sim (i_ctl c.1) (sp_disk a) (sp_queue a);
  sm_in r : r ∈ sp_queue a → rq_buf r ∈ c.2;
  sm_done b : b ∈ sp_done a → b ∈ c.2 ∧ b ∉ rq_buf <$> sp_queue a ∧ ∃ x, i_buf c.1 !! b = Some x ∧ settled x = true;
  sm_wait b : b ∈ c.2 → b ∈ rq_buf <$> sp_queue a ∨ b ∈ sp_done a;
  sm_asleep b : b ∈ i_asleep c.1 → b ∈ rq_buf <$> sp_queue a;
}.

Lemma iderw_wait_eq b x pid s :
  i_buf s !! b = Some x →
  iderw_wait b (cpu1 pid LkIde) s = if settled x then Ret tt (cpu0 pid) s else Sleep (ChBufData b) (cpu1 pid LkPtable) (slept b s).
Proof.
  intros Hx. unfold iderw_wait. rewrite (bind_eq _ _ _ _ x (cpu1 pid LkIde) s) by (unfold ibufp, bind, get; by rewrite Hx).
  fold (settled x). destruct (settled x); cbn [negb when].
  - rewrite (bind_eq _ _ _ _ tt (cpu1 pid LkIde) s) by reflexivity. apply release_cpu1.
  - unfold bind. by rewrite sleep_one.
Qed.

Lemma ideintr_none pid s : i_queue s = None → ideintr (cpu_intr pid) s = Ret tt (cpu_intr pid) s.
Proof.
  intros Hq. unfold ideintr. rewrite (bind_eq _ _ _ _ _ _ _ (acquire_intr pid s)).
  rewrite (bind_eq _ _ _ _ None (cpu_intr1 pid) s) by (unfold gets; by rewrite Hq). apply release_intr.
Qed.

(** A call of [iderw] that does not panic has a locked buffer with something to do. *)
Lemma iderw_guards b x pid s ch c s' :
  i_buf s !! b = Some x → iderw b (cpu0 pid) s = Sleep ch c s' →
  b_lock x = SleepLock true pid ∧ settled x = false ∧ (b_dev x = 0 ∨ i_havedisk1 s = true).
Proof.
  intros Hx. unfold iderw. rewrite (bind_eq _ _ _ _ _ _ _ (holdingsleep_eq (LkBuf b) (ide_getl b) pid s)). unfold ide_getl.
  rewrite (list_lookup_total_correct _ _ _ Hx). destruct (b_lock x) as [[] p]; cbn [sl_locked sl_pid andb]; [|done].
  destruct (Z.eqb_spec p pid) as [->|]; cbn [negb when]; [|done]. rewrite (bind_eq _ _ _ _ tt (cpu0 pid) s) by reflexivity.
  rewrite (bind_eq _ _ _ _ x (cpu0 pid) s) by (unfold ibufp, bind, get; by rewrite Hx). fold (settled x).
  destruct (settled x); cbn [when]; [done|]. rewrite (bind_eq _ _ _ _ tt (cpu0 pid) s) by reflexivity.
  rewrite (bind_eq _ _ _ _ s (cpu0 pid) s) by reflexivity. intros H. split_and!; [done|done|].
  destruct (Z.eqb_spec (b_dev x) 0); [by left|right]. by destruct (i_havedisk1 s).
Qed.

Lemma length_serve r D sl : length (serve r D sl) = length (D sl).
Proof. unfold serve. destruct (rq_data r); [|done]. destruct (eqb _ _); [apply length_insert|done]. Qed.

Section sim.
Context (s : idest) (W : list nat) (D : disks) (q : list request) (F : list nat).
Context (Hsim : sim (s, W) (Spec D q F)).

Lemma sim_length : (length (rq_buf <$> q) <= length (i_buf s))%nat.
Proof using Hsim.
  destruct Hsim as [_ Hnd Hasks _ _ _ _ _]. cbn [fst snd sp_queue] in *. rewrite <- (length_seq (length (i_buf s)) 0).
  apply submseteq_length, NoDup_submseteq; [done|]. intros b (r & -> & Hr)%list_elem_of_fmap. destruct (Hasks r Hr) as (x & Hx & _).
  apply elem_of_seq. apply lookup_lt_Some in Hx. lia.
Qed.

Lemma sim_finish d : ctl_finish (i_ctl s) = Some d → sim (with_ctl d s, W) (Spec D q F).
Proof using Hsim.
  intros Hf. destruct Hsim as [Hch Hnd Hasks Hctl Hin Hdone Hwait Hslp]. cbn [fst snd sp_queue sp_disk sp_done] in *. split; try done. cbn [fst snd sp_queue sp_disk with_ctl i_ctl].
  unfold ctl_finish in Hf. destruct q as [|r q']; cbn [ctl_sim] in Hctl |- *; [destruct Hctl as [E _]; by rewrite E in Hf|].
  destruct Hctl as [(Ej & _ & Er & Ed)|(Ej & _)]; [|by rewrite Ej in Hf]. right. rewrite Ej, Er in Hf. unfold job_of in Hf. unfold serve, answer.
  destruct (Hasks r (list_elem_of_here _ _)) as (x & _ & _ & _ & _ & Hlt). cbn [Z.testbit negb] in Hf.
  destruct (rq_data r) as [data|].
  - injection Hf as <-. cbn [c_job c_irq c_disk c_data]. split_and!; try done. intros sl. destruct (eqb sl (rq_slave r)) eqn:E; by rewrite Ed.
  - apply lookup_lt_is_Some in Hlt as [y Hy]. rewrite Ed, Hy in Hf. cbn in Hf. injection Hf as <-. cbn [c_job c_irq c_disk c_data]. split_and!; try done. by rewrite Hy.
Qed.

Lemma asks_use D' b f r : rq_buf r ≠ b → asks s D' r → asks (with_buf (alter f b (i_buf s)) s) D' r.
Proof using. intros Hne (x & Hx & H). exists x. cbn [i_buf with_buf]. by rewrite list_lookup_alter_ne. Qed.

Lemma sim_use b f : b ∉ W → sim (with_buf (alter f b (i_buf s)) s, W) (Spec D q F).
Proof using Hsim.
  intros Hb. destruct Hsim as [Hch Hnd Hasks Hctl Hin Hdone Hwait Hslp]. cbn [fst snd sp_queue sp_disk sp_done] in *. split; try done; cbn [fst snd sp_queue sp_disk sp_done].
  - intros r Hr. apply asks_use; [|by apply Hasks]. intros E. apply Hb. rewrite <- E. by apply Hin.
  - intros c Hc. destruct (Hdone c Hc) as (Hc1 & Hc2 & x & Hx & Hx'). split_and!; try done. exists x. split; [|done].
    cbn [i_buf with_buf]. rewrite list_lookup_alter_ne; [done|]. by intros ->.
Qed.

Lemma sim_return b : b ∈ F → sim (s, filter (λ c, c ≠ b) W) (Spec D q (filter (λ c, c ≠ b) F)).
Proof using Hsim.
  intros Hb. destruct Hsim as [Hch Hnd Hasks Hctl Hin Hdone Hwait Hslp]. cbn [fst snd sp_queue sp_disk sp_done] in *. split; try done; cbn [fst snd sp_queue sp_disk sp_done].
  - intros r Hr. apply list_elem_of_filter. split; [|by apply Hin]. intros E. destruct (Hdone b Hb) as (_ & Hb2 & _). apply Hb2. rewrite <- E. by apply list_elem_of_fmap_2.
  - intros c [Hne Hc]%list_elem_of_filter. destruct (Hdone c Hc) as (? & ? & ?). split_and!; try done. by apply list_elem_of_filter.
  - intros c [Hne Hc]%list_elem_of_filter. destruct (Hwait c Hc) as [?|?]; [by left|right]. by apply list_elem_of_filter.
Qed.

Lemma ctl_sim_status l d q' : ctl_sim d D q' → ctl_sim (set_status l d) D q'.
Proof using. by destruct q'. Qed.

Lemma asks_same s' D' r : i_buf s' = i_buf s → (∀ sl, length (D' sl) = length (D sl)) → asks s D r → asks s' D' r.
Proof using. intros Eb El (x & Hx & E & ? & ? & Hlt). exists x. rewrite Eb, El. tauto. Qed.

(** A request is appended. *)
Lemma sim_call b x pid l s' :
  b ∉ W → i_buf s !! b = Some x → 0 <= b_blockno x < FSSIZE →
  (Z.to_nat (b_blockno x) < length (c_disk (i_ctl s) (rq_slave (request_of b x))))%nat → patient l →
  iderw b (cpu0 pid) (with_status l s) = Sleep (ChBufData b) (cpu1 pid LkPtable) s' →
  sim (s', b :: W) (Spec D (q ++ [request_of b x]) F).
Proof using Hsim.
  intros Hb Hx Hn Hlt (r & l1 & _ & _ & Hp & _) Hcall. pose proof sim_length as Hlen.
  destruct (iderw_guards b x pid (with_status l s) _ _ s' Hx Hcall) as (Hlk & Hset & Hdev).
  destruct Hsim as [Hch Hnd Hasks Hctl Hin Hdone Hwait Hslp]. cbn [fst snd sp_queue sp_disk sp_done] in *.
  assert (b ∉ rq_buf <$> q) as HbQ by (intros (r' & -> & Hr')%list_elem_of_fmap; by apply Hb, Hin).
  rewrite (iderw_eq b x pid (with_status l s) (rq_buf <$> q) r l1 Hx Hlk Hset Hdev Hch Hnd HbQ Hlen Hn Hp) in Hcall. injection Hcall as <-.
  set (s1 := enqueued b (rq_buf <$> q) (with_status l s)).
  assert (i_buf s1 = i_buf s ∧ i_ctl s1 = set_status l (i_ctl s) ∧ i_asleep s1 = i_asleep s) as (Eb & Ec & Ea) by (unfold s1, enqueued; by destruct (last_pp _ _)).
  pose proof (enqueued_chain b (rq_buf <$> q) (with_status l s) Hch Hnd HbQ) as Hch'. fold s1 in Hch'.
  match goal with |- sim (?t, _) _ => set (s2 := t) end.
  assert (i_buf s2 = i_buf s ∧ i_qnext s2 = i_qnext s1 ∧ i_queue s2 = i_queue s1 ∧ i_asleep s2 = {[b]} ∪ i_asleep s) as (Eb2 & Eq2 & Eq2' & Ea2)
    by (unfold s2; rewrite <- Ea; by destruct (rq_buf <$> q)).
  assert (Hdl : ∀ sl, length (c_disk (i_ctl s) sl) = length (D sl)).
  { intros sl. destruct q as [|r0 q']; cbn [ctl_sim] in Hctl; [destruct Hctl as (_ & _ & E); by rewrite E|].
    destruct Hctl as [(_ & _ & _ & E)|(_ & _ & E & _)]; rewrite E; [done|apply length_serve]. }
  split; cbn [fst snd sp_queue sp_disk sp_done].
  - rewrite fmap_app, Eq2, Eq2'. exact Hch'.
  - rewrite fmap_app. apply list.NoDup_app. split_and!; [done| |apply NoDup_singleton]. intros c Hc ->%list_elem_of_singleton. done.
  - intros r' [Hr| ->%list_elem_of_singleton]%elem_of_app; [by apply (asks_same s2 D r' Eb2 (λ _, eq_refl)), Hasks|].
    exists x. cbn [rq_buf rq_block request_of] in *. rewrite Eb2. split_and!; try done; [lia|lia|]. by rewrite <- Hdl.
  - unfold s2. destruct q as [|r0 q'].
    + cbn [fmap list_fmap app i_ctl slept set_asleep with_ctl ctl_sim]. left. destruct (registers_ok x (set_status l1 (set_status l (i_ctl s))) Hn) as (-> & -> & -> & _ & ->).
      destruct Hctl as (_ & _ & Ed). by split_and!.
    + cbn [fmap list_fmap slept set_asleep i_ctl]. rewrite Ec. change ((r0 :: q') ++ [request_of b x]) with (r0 :: (q' ++ [request_of b x])). by apply (ctl_sim_status l _ (r0 :: _)).
  - intros r' [Hr| ->%list_elem_of_singleton]%elem_of_app; [right; by apply Hin|by left].
  - intros c Hc. destruct (Hdone c Hc) as (? & Hc2 & ?). rewrite Eb2. split_and!; [by right| |done].
    rewrite fmap_app. intros [?| ->%list_elem_of_singleton]%elem_of_app; done.
  - intros c [->|Hc]%elem_of_cons; [left|destruct (Hwait c Hc); [left|by right]]; rewrite fmap_app; apply elem_of_app; [right; by left|by left].
  - intros c. rewrite Ea2, fmap_app, elem_of_union, elem_of_singleton, elem_of_app. intros [->|Hc]; [right; by left|left; by apply Hslp].
Qed.

(** The first request, and the one after it. *)
Lemma sim_next r q' :
  q = r :: q' →
  i_queue s = Some (rq_buf r) ∧ ∃ x o, i_buf s !! rq_buf r = Some x ∧ r = request_of (rq_buf r) x ∧ i_qnext s !! rq_buf r = fst <$> o ∧
    (∀ n y, o = Some (n, y) → n ≠ rq_buf r ∧ i_buf s !! n = Some y ∧ 0 <= b_blockno y < FSSIZE) ∧
    match q' with [] => o = None | r2 :: _ => ∃ y, o = Some (rq_buf r2, y) ∧ r2 = request_of (rq_buf r2) y end.
Proof using Hsim.
  intros Eq. destruct Hsim as [Hch Hnd Hasks _ _ _ _ _]. cbn [fst snd sp_queue sp_disk sp_done] in *. rewrite Eq in *.
  cbn [fmap list_fmap qchain] in Hch. destruct Hch as [Hq Hch]. rewrite fmap_cons in Hnd. apply list.NoDup_cons in Hnd as [Hbn _].
  split; [done|]. destruct (Hasks r (list_elem_of_here _ _)) as (x & Hx & Er & _). exists x.
  destruct q' as [|r2 q2]; cbn [fmap list_fmap qchain] in Hch; [exists None; split_and!; try done|].
  destruct Hch as [E _]. destruct (Hasks r2) as (y & Hy & Ey & _ & Hny & _); [right; by left|].
  exists (Some (rq_buf r2, y)). split_and!; try done; [|by exists y]. intros n y' [= <- <-]. split_and!; try done; [|lia|lia].
  intros E'. apply Hbn. rewrite <- E'. by left.
Qed.

Lemma sim_intr_runs pid l : patient l → ∃ s', ideintr (cpu_intr pid) (with_status l (ack s)) = Ret tt (cpu_intr pid) s'.
Proof using Hsim.
  intros Hl. assert (q = [] ∨ ∃ r q', q = r :: q') as [Eq|(r & q' & Eq)] by (generalize q; intros []; eauto).
  - exists (with_status l (ack s)). apply ideintr_none. pose proof (sm_chain _ _ Hsim) as Hch. cbn [fst sp_queue] in Hch. by rewrite Eq in Hch.
  - destruct (sim_next r q' Eq) as (Hq & x & o & Hx & _ & Ho & Ho' & _).
    destruct (ideintr_eq (rq_buf r) x o pid (with_status l (ack s)) Hq Hx Ho Ho' Hl) as [l2 ->]. by eexists.
Qed.

(** The first request is done. *)
Lemma sim_intr r q' x pid l s' :
  q = r :: q' → c_irq (i_ctl s) = true → i_buf s !! rq_buf r = Some x → patient l →
  ideintr (cpu_intr pid) (with_status l (ack s)) = Ret tt (cpu_intr pid) s' →
  r = request_of (rq_buf r) x ∧
  (∃ x', i_buf s' !! rq_buf r = Some x' ∧ b_data x' = if negb (dirty x) && io_error l then b_data x else answer r D) ∧
  sim (s', W) (Spec (serve r D) q' (rq_buf r :: F)).
Proof using Hsim.
  intros Eq Hirq Hx Hl Hintr. destruct (sim_next r q' Eq) as (Hq & x0 & o & Hx0 & Er & Ho & Hon & Ho').
  rewrite Hx in Hx0. injection Hx0 as <-.
  destruct Hsim as [Hch Hnd Hasks Hctl Hin Hdone Hwait Hslp]. cbn [fst snd sp_queue sp_disk sp_done] in *. rewrite Eq in *.
  cbn [fmap list_fmap qchain] in Hch. destruct Hch as [_ Hch]. rewrite fmap_cons in Hnd. apply list.NoDup_cons in Hnd as [Hbn Hnd].
  destruct Hctl as [(_ & E & _)|(Ej & _ & Ed & Edata)]; [by rewrite Hirq in E|].
  destruct (ideintr_eq (rq_buf r) x o pid (with_status l (ack s)) Hq Hx Ho Hon Hl) as [l2 Hi].
  rewrite Hintr in Hi. injection Hi as ->. assert (rq_buf r < length (i_buf s))%nat as Hblt by by eapply lookup_lt_Some.
  split; [done|]. split.
  { eexists. split; [cbn [served i_buf]; by apply list_lookup_insert_eq|]. cbn [b_data completed set_flags set_data].
    unfold fetched. cbn [with_status ack with_ctl set_status i_ctl c_status c_data]. rewrite Er in Edata |- *. unfold answer, request_of in *.
    cbn [rq_data rq_slave rq_block] in *. destruct (dirty x); [done|]. cbn [orb negb andb]. destruct (io_error l); [done|by apply Edata]. }
  assert (Hother : ∀ c, c ≠ rq_buf r → i_buf (served (rq_buf r) x o (set_status l2 (i_ctl (with_status l (ack s)))) (with_status l (ack s))) !! c = i_buf s !! c).
  { intros c Hc. cbn [served i_buf]. by rewrite list_lookup_insert_ne. }
  split; cbn [fst snd sp_queue sp_disk sp_done].
  - cbn [served i_qnext i_queue]. rewrite <- Ho. exact Hch.
  - done.
  - intros r' Hr'. destruct (Hasks r') as (y & Hy & Ey & ? & ? & Hlt'); [by right|]. exists y. rewrite Hother, length_serve; [tauto|].
    intros E. apply Hbn. rewrite <- E. by apply list_elem_of_fmap_2.
  - cbn [served i_ctl]. destruct q' as [|r2 q2]; [rewrite Ho'; cbn [ctl_sim]; by split_and!|]. destruct Ho' as (y & -> & Ey).
    destruct (Hon _ _ eq_refl) as (_ & _ & Hny).
    cbn [ctl_sim]. left. destruct (registers_ok y (set_status l2 (i_ctl (with_status l (ack s)))) Hny) as (E1 & E2 & E3 & _ & E4). rewrite Ey.
    split_and!; [exact E1|exact E2|exact E4|]. intros sl. etransitivity; [exact (f_equal (λ f, f sl) E3)|apply Ed].
  - intros r' Hr'. apply Hin. by right.
  - intros c [->|Hc]%elem_of_cons.
    + split_and!; [apply Hin; by left|done|]. eexists. split; [cbn [served i_buf]; by apply list_lookup_insert_eq|]. apply completed_settled.
    + destruct (Hdone c Hc) as (? & Hc2 & y & Hy & ?). rewrite fmap_cons in Hc2. apply not_elem_of_cons in Hc2 as [Hc1 Hc2]. split_and!; try done.
      exists y. by rewrite Hother.
  - intros c Hc. destruct (Hwait c Hc) as [[->|?]%elem_of_cons|?]; [right; by left|by left|right; by right].
  - intros c. cbn [served i_asleep with_status ack with_ctl]. intros [Hc Hne]%elem_of_difference. specialize (Hslp c Hc).
    rewrite fmap_cons in Hslp. apply elem_of_cons in Hslp as [->|?]; [|done]. exfalso. apply Hne. by apply elem_of_singleton.
Qed.

(** A process that is awake in [iderw] sleeps again, or is woken. *)
Lemma sim_slept b : b ∈ rq_buf <$> q → sim (slept b s, W) (Spec D q F).
Proof using Hsim.
  intros Hb. destruct Hsim as [Hch Hnd Hasks Hctl Hin Hdone Hwait Hslp]. cbn [fst snd sp_queue sp_disk sp_done] in *. split; try done.
  cbn [fst sp_queue slept set_asleep i_asleep]. intros c [->%elem_of_singleton|?]%elem_of_union; [done|by apply Hslp].
Qed.
Lemma sim_woken b : sim (woken b s, W) (Spec D q F).
Proof using Hsim.
  destruct Hsim as [Hch Hnd Hasks Hctl Hin Hdone Hwait Hslp]. cbn [fst snd sp_queue sp_disk sp_done] in *. split; try done.
  cbn [fst sp_queue woken set_asleep i_asleep]. intros c [? _]%elem_of_difference. by apply Hslp.
Qed.

(** The drive is at work on the first request, or has interrupted. *)
Lemma sim_working r q' : q = r :: q' → c_irq (i_ctl s) = true ∨ ∃ d, ctl_finish (i_ctl s) = Some d ∧ c_irq d = true.
Proof using Hsim.
  intros Eq. destruct Hsim as [_ _ Hasks Hctl _ _ _ _]. cbn [fst snd sp_queue sp_disk sp_done] in *. rewrite Eq in *.
  destruct (Hasks r (list_elem_of_here _ _)) as (x & _ & _ & _ & _ & Hlt).
  destruct Hctl as [(Ej & _ & Er & Ed)|(_ & Ei & _)]; [right|by left]. unfold ctl_finish. rewrite Ej, Er. unfold job_of.
  destruct (rq_data r); [by eexists|]. apply lookup_lt_is_Some in Hlt as [y Hy]. rewrite Ed, Hy. by eexists.
Qed.

(** A buffer whose call has had its turn: the call returns. *)
Lemma sim_done b :
  b ∈ F → b ∉ i_asleep s ∧ ∃ x, i_buf s !! b = Some x ∧ settled x = true ∧ ∀ pid, iderw_wait b (cpu1 pid LkIde) s = Ret tt (cpu0 pid) s.
Proof using Hsim.
  intros Hb. destruct Hsim as [_ _ _ _ _ Hdone _ Hslp]. cbn [fst snd sp_queue sp_disk sp_done] in *.
  destruct (Hdone b Hb) as (_ & Hq & x & Hx & Hs). split; [intros H; by apply Hq, Hslp|]. exists x. split; [done|]. split; [done|].
  intros pid. by rewrite (iderw_wait_eq _ x), Hs.
Qed.
End sim.

(** ** Everyone's turn comes *)

Definition work (e : event) : Prop := match e with Silent | Serve _ _ => True | _ => False end.

Lemma isteps_app c1 t1 c2 t2 c3 : isteps c1 t1 c2 → isteps c2 t2 c3 → isteps c1 (t1 ++ t2) c3.
Proof.
  intros H1 H2. induction H2 as [|c2 t2 c3 e c4 _ IH Hst]; [by rewrite app_nil_r|]. rewrite app_assoc. eapply isteps_snoc; [by apply IH|done].
Qed.

(** The drive, and interrupts without an error, finish one request. *)
Lemma sim_serve_one s W D r q F :
  sim (s, W) (Spec D (r :: q) F) →
  ∃ tr s', isteps (s, W) tr (s', W) ∧ Forall work tr ∧ sim (s', W) (Spec (serve r D) q (rq_buf r :: F)).
Proof.
  intros Hsim. set (l := [IDE_DRDY; IDE_DRDY]). assert (patient l) as Hl by (exists IDE_DRDY, [IDE_DRDY], IDE_DRDY, []; done).
  assert (∀ s, sim (s, W) (Spec D (r :: q) F) → c_irq (i_ctl s) = true →
    ∃ e s', istep (s, W) e (s', W) ∧ work e ∧ sim (s', W) (Spec (serve r D) q (rq_buf r :: F))) as Hintr.
  { clear s Hsim. intros s Hsim Hirq. destruct (sim_next _ _ _ _ _ Hsim r q eq_refl) as (Hq & x & _ & Hx & _).
    destruct (sim_intr_runs _ _ _ _ _ Hsim 0 l Hl) as (s' & Hi).
    destruct (sim_intr _ _ _ _ _ Hsim r q x 0 l s' eq_refl Hirq Hx Hl Hi) as (_ & (x' & Hx' & _) & Hsim').
    eexists _, s'. split; [by eapply (istep_intr s W (rq_buf r) x x' 0 l)|]. split; [|done]. unfold done_event.
    change (io_error l) with false. by rewrite andb_false_r. }
  destruct (sim_working _ _ _ _ _ Hsim r q eq_refl) as [Hirq|(d & Hd & Hirq)].
  - destruct (Hintr s Hsim Hirq) as (e & s' & Hst & He & Hsim'). exists [e], s'. split; [apply (isteps_snoc _ [] (s, W)); [constructor|done]|].
    split; [by constructor|done].
  - destruct (Hintr _ (sim_finish _ _ _ _ _ Hsim d Hd) Hirq) as (e & s' & Hst & He & Hsim'). exists [Silent; e], s'.
    split; [|split; [by repeat constructor|done]].
    apply (isteps_snoc _ [Silent] (with_ctl d s, W)); [|done]. apply (isteps_snoc _ [] (s, W)); [constructor|by apply istep_finish].
Qed.

Lemma sim_serve_all s W D q F :
  sim (s, W) (Spec D q F) → ∃ tr s' D' F', isteps (s, W) tr (s', W) ∧ Forall work tr ∧ sim (s', W) (Spec D' [] F').
Proof.
  revert s D F. induction q as [|r q IH]; intros s D F Hsim; [exists [], s, D, F; split; [constructor|]; split; [constructor|done]|].
  destruct (sim_serve_one _ _ _ _ _ _ Hsim) as (t1 & s1 & Hst & Hw & Hsim1). destruct (IH _ _ _ Hsim1) as (t2 & s2 & D2 & F2 & Hst2 & Hw2 & Hsim2).
  exists (t1 ++ t2), s2, D2, F2. split; [by eapply isteps_app|]. split; [by apply list.Forall_app|done].
Qed.

(** * Theorems *)

(** No request: the state [ideinit] leaves. *)
Definition ide_idle (s : idest) : Prop :=
  i_queue s = None ∧ c_job (i_ctl s) = None ∧ c_irq (i_ctl s) = false ∧ i_asleep s = ∅.

Lemma sim_idle s : ide_idle s → sim (s, []) (Spec (c_disk (i_ctl s)) [] []).
Proof.
  intros (Hq & Hj & Hi & Ha). split; cbn [fst snd sp_queue sp_done sp_disk fmap list_fmap qchain ctl_sim]; try done; [constructor|..].
  1-4: intros ? H; by apply not_elem_of_nil in H.
  intros b. rewrite Ha. intros H. by apply not_elem_of_empty in H.
Qed.

Lemma sim_step c a e c' : sim c a → istep c e c' → (e = Silent ∧ sim c' a) ∨ ∃ a', sstep a e a' ∧ sim c' a'.
Proof.
  intros Hsim Hst. destruct a as [D q F]. inversion Hst; subst; clear Hst.
  - right. eexists. split; [constructor|]. by eapply sim_call.
  - left. split; [done|]. by apply sim_finish.
  - right. pose proof (sm_chain _ _ Hsim) as Hch. cbn [fst sp_queue] in Hch. destruct q as [|r q']; cbn [fmap list_fmap qchain] in Hch; [congruence|].
    destruct Hch as [Hb _]. assert (b = rq_buf r) as -> by congruence.
    destruct (sim_intr s W D (r :: q') F Hsim r q' x pid l s' eq_refl H H1 H2 H3) as (Er & (y & Hy & Hdata) & Hsim').
    rewrite H4 in Hy. injection Hy as <-. exists (Spec (serve r D) q' (rq_buf r :: F)). split; [|done]. rewrite Hdata, <- Er. unfold done_event.
    destruct (negb (dirty x) && io_error l) eqn:Hf; [|constructor]. apply andb_true_iff in Hf as [Hd%negb_true_iff _].
    assert (rq_data r = None ∧ rq_old r = b_data x) as [Er1 <-] by (rewrite Er; cbn; by rewrite Hd).
    unfold serve. rewrite Er1. by constructor.
  - left. split; [done|]. rewrite ideintr_none in H0 by done. by injection H0 as <-.
  - right. pose proof (sm_wait _ _ Hsim b H) as Hw. cbn [sp_queue sp_done] in Hw. destruct Hw as [Hb|Hb].
    + apply list_elem_of_fmap in Hb as (r & -> & Hr). destruct (sm_asks _ _ Hsim r Hr) as (x & Hx & _ & Hset & _). cbn [fst] in Hx.
      rewrite (iderw_wait_eq _ x) in H1 by done. by rewrite Hset in H1.
    + destruct (sm_done _ _ Hsim b Hb) as (_ & _ & x & Hx & Hset). cbn [fst] in Hx. rewrite (iderw_wait_eq _ x), Hset in H1 by done. injection H1 as <-.
      eexists. split; [by constructor|]. by apply sim_return.
  - left. split; [done|]. pose proof (sm_wait _ _ Hsim b H) as Hw. cbn [sp_queue sp_done] in Hw. destruct Hw as [Hb|Hb].
    + pose proof Hb as (r & -> & Hr)%list_elem_of_fmap. destruct (sm_asks _ _ Hsim r Hr) as (x & Hx & _ & Hset & _). cbn [fst] in Hx.
      rewrite (iderw_wait_eq _ x), Hset in H1 by done. injection H1 as _ <-. by apply sim_slept.
    + destruct (sim_done _ _ _ _ _ Hsim b Hb) as (_ & x & _ & _ & E). by rewrite E in H1.
  - left. split; [done|]. by apply sim_woken.
  - left. split; [done|]. by apply sim_use.
Qed.

Lemma sim_steps c tr c' a : sim c a → isteps c tr c' → ∃ a', ssteps a tr a' ∧ sim c' a'.
Proof.
  intros Hsim. induction 1 as [|c tr c2 e c3 _ IH Hst]; [exists a; split; [constructor|done]|].
  destruct (IH Hsim) as (a2 & Ha & Hsim2). destruct (sim_step _ _ _ _ Hsim2 Hst) as [[-> ?]|(a3 & Ha3 & ?)].
  - exists a2. split; [by constructor|done].
  - exists a3. split; [by eapply ssteps_snoc|done].
Qed.


(** C13: no request is forgotten and no wakeup is lost (the drive ready when polled, interrupts for a
    queued request only after it is finished, errors included): a process asleep in [iderw] waits for a
    request that is not done, and the drive is at work on the queue or has interrupted; a process whose
    request is done is awake and its [iderw] returns; the handlers return: a call of [iderw] with a locked
    buffer goes to sleep, an interrupt is handled without a panic; and from every state the drive's work
    and its interrupts alone lead to one where every call that is now waiting returns. *)
Theorem ide_progress s0 tr s W :
  ide_idle s0 → isteps (s0, []) tr (s, W) →
  (∀ b, b ∈ W →
     (b ∉ i_asleep s ∧ ∃ x, i_buf s !! b = Some x ∧ settled x = true ∧ ∀ pid, iderw_wait b (cpu1 pid LkIde) s = Ret tt (cpu0 pid) s) ∨
     (∃ x, i_buf s !! b = Some x ∧ settled x = false) ∧ (c_irq (i_ctl s) = true ∨ ∃ d, ctl_finish (i_ctl s) = Some d)) ∧
  (∀ b, b ∈ i_asleep s → ∃ x, i_buf s !! b = Some x ∧ settled x = false) ∧
  (∀ b x pid l, b ∉ W → i_buf s !! b = Some x → b_lock x = SleepLock true pid → settled x = false → (b_dev x = 0 ∨ i_havedisk1 s = true) →
     0 <= b_blockno x < FSSIZE → patient l → ∃ s', iderw b (cpu0 pid) (with_status l s) = Sleep (ChBufData b) (cpu1 pid LkPtable) s') ∧
  (∀ pid l, patient l → ∃ s', ideintr (cpu_intr pid) (with_status l (ack s)) = Ret tt (cpu_intr pid) s') ∧
  ∃ tr' s', isteps (s, W) tr' (s', W) ∧ Forall work tr' ∧
    ∀ b, b ∈ W → b ∉ i_asleep s' ∧ ∀ pid, iderw_wait b (cpu1 pid LkIde) s' = Ret tt (cpu0 pid) s'.
Proof.
  intros Hidle Hst. destruct (sim_steps _ _ _ _ (sim_idle s0 Hidle) Hst) as ([D q F] & _ & Hsim). pose proof (sim_length s W D q F Hsim) as Hlen.
  pose proof Hsim as [Hch Hnd Hasks Hctl Hin Hdone Hwait Hslp]. cbn [fst snd sp_queue sp_disk sp_done] in *.
  assert (∀ b, b ∈ rq_buf <$> q → ∃ x, i_buf s !! b = Some x ∧ settled x = false) as Hq.
  { intros b (r & -> & Hr)%list_elem_of_fmap. destruct (Hasks r Hr) as (x & Hx & _ & Hs & _). by exists x. }
  split_and!.
  - intros b Hb. destruct (Hwait b Hb) as [Hb'|Hb']; [right|left; by apply (sim_done _ _ _ _ _ Hsim)]. split; [by apply Hq|].
    destruct q as [|r q'] eqn:Eq; [by apply not_elem_of_nil in Hb'|].
    destruct (sim_working _ _ _ _ _ Hsim r q' eq_refl) as [?|(d & ? & _)]; [by left|right; by exists d].
  - intros b Hb. by apply Hq, Hslp.
  - intros b x pid l Hb Hx Hlk Hset Hdev Hn (r & l1 & _ & _ & Hp & _). eexists.
    apply (iderw_eq b x pid (with_status l s) (rq_buf <$> q) r l1); try done. intros (r' & -> & Hr')%list_elem_of_fmap. by apply Hb, Hin.
  - intros pid l Hl. by apply (sim_intr_runs _ _ _ _ _ Hsim).
  - destruct (sim_serve_all _ _ _ _ _ Hsim) as (tr' & s' & D' & F' & Hst' & Hw & Hsim'). exists tr', s'. split; [done|]. split; [done|].
    intros b Hb. destruct (sm_wait _ _ Hsim' b Hb) as [Hb'|Hb']; [by apply not_elem_of_nil in Hb'|].
    destruct (sim_done _ _ _ _ _ Hsim' b Hb') as (? & x & _ & _ & ?). done.
Qed.

(** when the drive reports an error, the interrupt handler marks the buffer valid all the same,
    with whatever data it had: the reader gets stale data and no error. *)
Theorem ide_read_error b x pid s r l :
  i_queue s = Some b → i_buf s !! b = Some x → i_qnext s !! b = None → dirty x = false →
  poll (c_status (i_ctl s)) = Some (r, l) → Z.land r (Z.lor IDE_DF IDE_ERR) ≠ 0 →
  ∃ s' x', ideintr (cpu_intr pid) s = Ret tt (cpu_intr pid) s' ∧ i_buf s' !! b = Some x' ∧ settled x' = true ∧ b_data x' = b_data x.
Proof.
  intros Hq Hx Hn Hd Hp Hr. unfold ideintr. rewrite (bind_eq _ _ _ _ _ _ _ (acquire_intr pid s)).
  rewrite (bind_eq _ _ _ _ (Some b) (cpu_intr1 pid) s) by (unfold gets; by rewrite Hq). cbv beta iota.
  rewrite (bind_eq _ _ _ _ s (cpu_intr1 pid) s) by reflexivity. rewrite Hn.
  set (s1 := IdeSt (i_buf s) (i_qnext s) None (i_havedisk1 s) (i_ctl s) (i_asleep s)).
  rewrite (bind_eq _ _ _ _ tt (cpu_intr1 pid) s1) by reflexivity.
  rewrite (bind_eq _ _ _ _ x (cpu_intr1 pid) s1) by (unfold ibufp, bind, get; cbn [i_buf s1]; by rewrite Hx).
  assert (Z.land (b_flags x) B_DIRTY =? 0 = true) as -> by (unfold dirty in Hd; by destruct (Z.land (b_flags x) B_DIRTY =? 0)).
  rewrite (bind_eq _ _ _ _ tt (cpu_intr1 pid) (with_ctl (set_status l (i_ctl s1)) s1)).
  2:{ rewrite (bind_eq _ _ _ _ _ _ _ (idewait_eq true _ s1 r l Hp)). apply Z.eqb_neq in Hr. by rewrite Hr. }
  rewrite (iupd_twice_eq b _ _ x _ _ (λ _, wakeup (ChBufData b) ;; q <- gets i_queue ;; when (bool_decide (q ≠ None)) (idestart q) ;; release LkIde)) by done.
  rewrite (bind_eq _ _ _ _ _ _ _ (wakeup_intr pid b _)). do 2 eexists. split; [|split].
  - erewrite bind_eq by reflexivity. cbn [i_queue woken set_asleep with_buf with_ctl s1]. rewrite bool_decide_eq_false_2 by (intros H; by apply H). cbn [when].
    erewrite bind_eq by reflexivity. apply release_intr.
  - cbn [i_buf woken set_asleep with_buf with_ctl s1]. apply list_lookup_insert_eq. by eapply lookup_lt_Some.
  - split; [|done]. apply (completed_settled (b_data x) x).
Qed.

(** * Examples *)

(** Two buffers: the first has data for block 5, the second wants block 5. *)
Definition ex_data : list Z := replicate bsize 7.
Definition ex_b0 : buf := Buf B_DIRTY 0 5 (SleepLock true 1) 1 0 0 ex_data.
Definition ex_b1 : buf := Buf 0 0 5 (SleepLock true 2) 1 0 0 (replicate bsize 0).
Definition ex_bufs : list buf := [ex_b0; ex_b1].
Definition ex_s0 : idest := IdeSt ex_bufs ∅ None false (Ctl [] ∅ None false [] (λ _, replicate 10 (replicate bsize 0))) ∅.
Definition ex_status : list Z := [IDE_BSY; IDE_DRDY; IDE_DRDY].
Definition ex_state {A} (o : out idest A) : idest := match o with Ret _ _ s => s | Sleep _ _ s => s | _ => ex_s0 end.
Definition ex_s1 : idest := ex_state (iderw 0 (cpu0 1) (with_status ex_status ex_s0)).
Definition ex_s2 : idest := ex_state (iderw 1 (cpu0 2) (with_status ex_status ex_s1)).
Definition ex_s3 : idest := with_ctl (default (i_ctl ex_s2) (ctl_finish (i_ctl ex_s2))) ex_s2.
Definition ex_s4 : idest := ex_state (ideintr (cpu_intr 9) (with_status ex_status (ack ex_s3))).
Definition ex_s5 : idest := with_ctl (default (i_ctl ex_s4) (ctl_finish (i_ctl ex_s4))) ex_s4.
Definition ex_write : request := request_of 0 ex_b0.
Definition ex_read : request := request_of 1 ex_b1.

Lemma ex_patient : patient ex_status.
Proof. by exists IDE_DRDY, [IDE_DRDY], IDE_DRDY, []. Qed.

Lemma ex_steps2 : isteps (ex_s0, []) [Submit ex_write; Submit ex_read] (ex_s2, [1%nat; 0%nat]).
Proof.
  apply (isteps_snoc _ [Submit ex_write] (ex_s1, [0%nat])).
  - apply (isteps_snoc _ [] (ex_s0, [])); [constructor|].
    apply (istep_call ex_s0 [] 0 ex_b0 1 ex_status); [apply not_elem_of_nil|reflexivity|split; [discriminate|reflexivity]|vm_compute; lia|apply ex_patient|vm_compute; reflexivity].
  - apply (istep_call ex_s1 [0%nat] 1 ex_b1 2 ex_status); [set_solver|vm_compute; reflexivity|split; [discriminate|reflexivity]|vm_compute; lia|apply ex_patient|vm_compute; reflexivity].
Qed.



Lemma ide_progress_witness :
  (∃ d, ctl_finish (i_ctl ex_s2) = Some d) ∧
  ∃ tr s', isteps (ex_s2, [1%nat; 0%nat]) tr (s', [1%nat; 0%nat]) ∧
    iderw_wait 1 (cpu1 2 LkIde) s' = Ret tt (cpu0 2) s'.
Proof.
  destruct (ide_progress ex_s0 _ ex_s2 _ (conj eq_refl (conj eq_refl (conj eq_refl eq_refl))) ex_steps2) as (H & _ & _ & _ & tr & s' & Hst & _ & Hr).
  split.
  - destruct (H 0%nat) as [(_ & x & Hx & Hs & _)|[_ [Hi|Hd]]]; [right; by left| | |exact Hd].
    + vm_compute in Hx. injection Hx as <-. discriminate Hs.
    + vm_compute in Hi. discriminate Hi.
  - exists tr, s'. split; [exact Hst|]. apply Hr. by left.
Defined.

(** The same read with a drive that reports an error. *)
Lemma ide_read_error_witness :
  ∃ s' x', ideintr (cpu_intr 9) (with_status [Z.lor IDE_DRDY IDE_ERR] (ack ex_s5)) = Ret tt (cpu_intr 9) s' ∧
    i_buf s' !! 1%nat = Some x' ∧ settled x' = true ∧ b_data x' = replicate bsize 0.
Proof.
  apply (ide_read_error 1 ex_b1 9 (with_status [Z.lor IDE_DRDY IDE_ERR] (ack ex_s5)) (Z.lor IDE_DRDY IDE_ERR) []);
    first [vm_compute; reflexivity|vm_compute; discriminate].
Defined.
