(* ===== verification/SpinMulti.v ===== *)
(** Spin locks on several processors ([spinlock.c]): [acquire] and [release] one memory access at a
    time, interleaved in any way, with interrupt handlers that take the same lock.  This is what
    lets the other files treat a critical section as one step. *)
From stdpp Require Import base list numbers functions relations.
From Stdlib Require Import ZArith Lia.
From S2P Require Import Prelude.
Local Open Scope Z_scope.

(** Where a processor is: outside, in the parts of [acquire], in the critical section, in the parts
    of [release].  [AcqLocked] and [AcqCpu] are the two reads of [holding] in [acquire], [AcqXchg]
    the loop, [AcqSet] the store to [lk->cpu]; [RelLocked] and [RelCpu] are the reads of [holding]
    in [release], [RelClear] the store to [lk->cpu], [RelFree] the one to [lk->locked], [RelPop] the
    last [popcli]. *)
Inductive pc := Out | AcqLocked | AcqCpu | AcqXchg | AcqSet | In | RelLocked | RelCpu | RelClear | RelFree | RelPop | Panicked.
#[global] Instance pc_eq_dec : EqDecision pc.
Proof. solve_decision. Defined.

(** A processor: its interrupt flag, [ncli] and [intena], and its threads: the one that runs, and
    below it those its interrupts have stopped. *)
Record pcpu := PCpu { p_pc : pc; p_if : bool; p_ncli : Z; p_intena : bool; p_below : list (pc * bool) }.

(** [struct spinlock] and the processors. *)
Record mstate := MState { m_locked : bool; m_cpu : option nat; m_cpus : nat → pcpu }.

Definition push (p : pcpu) (k : pc) : pcpu :=
  PCpu k false (p_ncli p + 1) (if p_ncli p =? 0 then p_if p else p_intena p) (p_below p).
Definition pop (p : pcpu) (k : pc) : pcpu :=
  if p_if p then PCpu Panicked (p_if p) (p_ncli p) (p_intena p) (p_below p)
  else if p_ncli p - 1 <? 0 then PCpu Panicked (p_if p) (p_ncli p - 1) (p_intena p) (p_below p)
  else PCpu k ((p_ncli p - 1 =? 0) && p_intena p) (p_ncli p - 1) (p_intena p) (p_below p).
Definition goto (p : pcpu) (k : pc) : pcpu := PCpu k (p_if p) (p_ncli p) (p_intena p) (p_below p).

Definition set_cpu (i : nat) (p : pcpu) (s : mstate) : mstate := MState (m_locked s) (m_cpu s) (<[i := p]> (m_cpus s)).

(** The next access of processor [i]. *)
Definition cpu_step (i : nat) (s : mstate) : mstate :=
  let p := m_cpus s i in
  match p_pc p with
  | Out => (* acquire: pushcli(); holding: pushcli() *) set_cpu i (push (push p AcqLocked) AcqLocked) s
  | AcqLocked => if m_locked s then set_cpu i (goto p AcqCpu) s else set_cpu i (pop p AcqXchg) s
  | AcqCpu => if bool_decide (m_cpu s = Some i) then set_cpu i (goto p Panicked) s else set_cpu i (pop p AcqXchg) s
  | AcqXchg => if m_locked s then s else MState true (m_cpu s) (<[i := goto p AcqSet]> (m_cpus s))
  | AcqSet => MState (m_locked s) (Some i) (<[i := goto p In]> (m_cpus s))
  | In => (* release; holding: pushcli() *) set_cpu i (push p RelLocked) s
  | RelLocked => if m_locked s then set_cpu i (goto p RelCpu) s else set_cpu i (goto p Panicked) s
  | RelCpu => if bool_decide (m_cpu s = Some i) then set_cpu i (pop p RelClear) s else set_cpu i (goto p Panicked) s
  | RelClear => MState (m_locked s) None (<[i := goto p RelFree]> (m_cpus s))
  | RelFree => MState false (m_cpu s) (<[i := goto p RelPop]> (m_cpus s))
  | RelPop => set_cpu i (pop p Out) s
  | Panicked => s
  end.

(** An interrupt: the thread is stopped, and a handler starts with interrupts off; it comes back
    when it is outside again. *)
Definition intr (i : nat) (s : mstate) : option mstate :=
  let p := m_cpus s i in
  if p_if p then Some (set_cpu i (PCpu Out false (p_ncli p) (p_intena p) ((p_pc p, p_if p) :: p_below p)) s) else None.
Definition iret (i : nat) (s : mstate) : option mstate :=
  let p := m_cpus s i in
  match p_pc p, p_below p with
  | Out, (k, f) :: l => Some (set_cpu i (PCpu k f (p_ncli p) (p_intena p) l) s)
  | _, _ => None
  end.

Inductive mstep : mstate → mstate → Prop :=
| mstep_cpu i s : mstep s (cpu_step i s)
| mstep_intr i s s' : intr i s = Some s' → mstep s s'
| mstep_iret i s s' : iret i s = Some s' → mstep s s'.

(** The lock after [initlock], the processors with interrupts on. *)
Definition initlock : mstate := MState false None (λ _, PCpu Out true 0 false []).

(** * The invariant *)

(** Between the [xchg] that takes the lock and the store that frees it. *)
Definition holds (k : pc) : bool :=
  match k with AcqSet | In | RelLocked | RelCpu | RelClear | RelFree => true | _ => false end.
(** [lk->cpu] is this processor. *)
Definition owns (k : pc) : bool :=
  match k with In | RelLocked | RelCpu | RelClear => true | _ => false end.
(** How many [pushcli] are not undone. *)
Definition depth (k : pc) : Z :=
  match k with Out => 0 | AcqLocked | AcqCpu | RelLocked | RelCpu => 2 | _ => 1 end.

(** A processor's own state: interrupts are on only outside, with the nesting level it implies; the
    threads below were stopped outside. *)
Record cpu_inv (p : pcpu) : Prop := CpuInv {
  ci_panic : p_pc p ≠ Panicked;
  ci_ncli : p_ncli p = depth (p_pc p);
  ci_if : p_pc p ≠ Out → p_if p = false;
  ci_below : Forall (λ x, x.1 = Out) (p_below p);
}.

Record mutex_inv (s : mstate) : Prop := MutexInv {
  mi_cpu i : cpu_inv (m_cpus s i);
  mi_one i j : holds (p_pc (m_cpus s i)) = true → holds (p_pc (m_cpus s j)) = true → i = j;
  mi_locked i : holds (p_pc (m_cpus s i)) = true → m_locked s = true;
  mi_holder : m_locked s = true → ∃ i, holds (p_pc (m_cpus s i)) = true;
  mi_owner i : owns (p_pc (m_cpus s i)) = true → m_cpu s = Some i;
  mi_set i : m_cpu s = Some i → owns (p_pc (m_cpus s i)) = true;
}.

Lemma initlock_inv : mutex_inv initlock.
Proof. by split. Qed.

(** Steps that neither take nor free the lock, nor store [lk->cpu]. *)
Lemma inv_local i p s :
  mutex_inv s → cpu_inv p → holds (p_pc p) = holds (p_pc (m_cpus s i)) → owns (p_pc p) = owns (p_pc (m_cpus s i)) → mutex_inv (set_cpu i p s).
Proof.
  intros [Hc H1 Hl Hh Ho Hs] Hp Eh Eo.
  assert (∀ j, holds (p_pc (<[i := p]> (m_cpus s) j)) = holds (p_pc (m_cpus s j))) as Eh'.
  { intros j. destruct (decide (i = j)) as [<-|]; [by rewrite fn_lookup_insert|by rewrite fn_lookup_insert_ne]. }
  assert (∀ j, owns (p_pc (<[i := p]> (m_cpus s) j)) = owns (p_pc (m_cpus s j))) as Eo'.
  { intros j. destruct (decide (i = j)) as [<-|]; [by rewrite fn_lookup_insert|by rewrite fn_lookup_insert_ne]. }
  split; cbn [m_cpus m_locked m_cpu set_cpu].
  - intros j. destruct (decide (i = j)) as [<-|]; [by rewrite fn_lookup_insert|by rewrite fn_lookup_insert_ne].
  - intros j k. rewrite !Eh'. apply H1.
  - intros j. rewrite Eh'. apply Hl.
  - intros E. destruct (Hh E) as [j Hj]. exists j. by rewrite Eh'.
  - intros j. rewrite Eo'. apply Ho.
  - intros j. rewrite Eo'. apply Hs.
Qed.

(** Steps of the processor that holds the lock, or takes it when it is free. *)
Lemma inv_holder i p l o s :
  mutex_inv s → cpu_inv p → holds (p_pc (m_cpus s i)) = m_locked s → holds (p_pc p) = l → owns (p_pc p) = bool_decide (o = Some i) →
  (∀ j, j ≠ i → o ≠ Some j) → mutex_inv (MState l o (<[i := p]> (m_cpus s))).
Proof.
  intros [Hc H1 Hl Hh Ho Hs] Hp Ei El Eo Hoj.
  assert (∀ j, j ≠ i → holds (p_pc (m_cpus s j)) = false) as Hfree.
  { intros j Hj. destruct (holds (p_pc (m_cpus s j))) eqn:E; [|done]. destruct Hj. apply H1; [done|]. rewrite Ei. by eapply Hl. }
  assert (∀ j, j ≠ i → owns (p_pc (m_cpus s j)) = false) as Hown.
  { intros j Hj. specialize (Hfree j Hj). by destruct (p_pc (m_cpus s j)). }
  assert (∀ j, holds (p_pc (<[i := p]> (m_cpus s) j)) = true → j = i ∧ l = true) as Hj.
  { intros j. destruct (decide (i = j)) as [<-|]; [rewrite fn_lookup_insert; by rewrite El|rewrite fn_lookup_insert_ne by done]. rewrite Hfree by done. done. }
  split; cbn [m_cpus m_locked m_cpu].
  - intros j. destruct (decide (i = j)) as [<-|]; [by rewrite fn_lookup_insert|by rewrite fn_lookup_insert_ne].
  - intros j k H H'. destruct (Hj j H) as [-> _]. by destruct (Hj k H') as [-> _].
  - intros j H. by destruct (Hj j H).
  - intros ->. exists i. by rewrite fn_lookup_insert.
  - intros j. destruct (decide (i = j)) as [<-|]; [rewrite fn_lookup_insert, Eo; apply bool_decide_eq_true_1|]. by rewrite fn_lookup_insert_ne, Hown.
  - intros j E. destruct (decide (i = j)) as [<-|]; [rewrite fn_lookup_insert, Eo; by apply bool_decide_eq_true_2|]. by destruct (Hoj j).
Qed.

Lemma goto_inv p k : cpu_inv p → k ≠ Out → k ≠ Panicked → p_pc p ≠ Out → depth k = depth (p_pc p) → cpu_inv (goto p k).
Proof. intros [H1 H2 H3 H4] Hk1 Hk2 Hp Ed. split; cbn; try done; [by rewrite Ed|]. intros _. by apply H3. Qed.
Lemma push_inv p k : cpu_inv p → k ≠ Out → k ≠ Panicked → depth k = depth (p_pc p) + 1 → cpu_inv (push p k).
Proof. intros [H1 H2 H3 H4] Hk1 Hk2 Ed. split; cbn; try done. by rewrite Ed, H2. Qed.
Lemma pop_inv p k : cpu_inv p → k ≠ Panicked → 1 <= depth (p_pc p) → depth k = depth (p_pc p) - 1 → (k ≠ Out → 1 <= depth k) → cpu_inv (pop p k) ∧ p_pc (pop p k) = k.
Proof.
  intros [H1 H2 H3 H4] Hk Hp Ed Hd. unfold pop. rewrite H3 by (intros E; rewrite E in Hp; cbn in Hp; lia).
  destruct (Z.ltb_spec (p_ncli p - 1) 0); [lia|]. split; [|done]. split; cbn; try done; [lia|]. intros Hk'. specialize (Hd Hk').
  destruct (Z.eqb_spec (p_ncli p - 1) 0); [lia|done].
Qed.

(** The first step of [acquire], two [pushcli]. *)
Lemma push2_inv p : cpu_inv p → p_pc p = Out → cpu_inv (push (push p AcqLocked) AcqLocked).
Proof. intros [H1 H2 H3 H4] E. split; cbn; try done. rewrite H2, E. done. Qed.

Lemma cpu_step_inv i s : mutex_inv s → mutex_inv (cpu_step i s).
Proof.
  intros Hs. pose proof (mi_cpu s Hs i) as Hc. unfold cpu_step. destruct (p_pc (m_cpus s i)) eqn:Ek; try done.
  - apply inv_local; [done|by apply push2_inv|by rewrite Ek|by rewrite Ek].
  - destruct (m_locked s).
    + apply inv_local; [done|apply goto_inv; rewrite ?Ek; done|by rewrite Ek|by rewrite Ek].
    + destruct (pop_inv (m_cpus s i) AcqXchg Hc) as [? E]; rewrite ?Ek; try done. apply inv_local; rewrite ?E, ?Ek; done.
  - case_bool_decide as E.
    + pose proof (mi_set s Hs i E) as Ho. by rewrite Ek in Ho.
    + destruct (pop_inv (m_cpus s i) AcqXchg Hc) as [? E']; rewrite ?Ek; try done. apply inv_local; rewrite ?E', ?Ek; done.
  - destruct (m_locked s) eqn:El; [done|]. apply inv_holder; rewrite ?Ek; try done; [apply goto_inv; rewrite ?Ek; done| |].
    + cbn. symmetry. apply bool_decide_eq_false_2. intros E. pose proof (mi_set s Hs i E) as Ho. by rewrite Ek in Ho.
    + intros j _ E. pose proof (mi_set s Hs j E) as Ho. rewrite (mi_locked s Hs j) in El; [done|]. by destruct (p_pc (m_cpus s j)).
  - assert (m_locked s = true) as El by (apply (mi_locked s Hs i); by rewrite Ek).
    apply inv_holder; rewrite ?Ek, ?El; try done; [apply goto_inv; rewrite ?Ek; done|cbn; symmetry; by apply bool_decide_eq_true_2|]. intros j Hj [= E]. done.
  - apply inv_local; [done|apply push_inv; rewrite ?Ek; done|by rewrite Ek|by rewrite Ek].
  - rewrite (mi_locked s Hs i) by by rewrite Ek. apply inv_local; [done|apply goto_inv; rewrite ?Ek; done|by rewrite Ek|by rewrite Ek].
  - rewrite bool_decide_eq_true_2 by (apply (mi_owner s Hs); by rewrite Ek).
    destruct (pop_inv (m_cpus s i) RelClear Hc) as [? E]; rewrite ?Ek; try done. apply inv_local; rewrite ?E, ?Ek; done.
  - assert (m_locked s = true) as El by (apply (mi_locked s Hs i); by rewrite Ek).
    apply inv_holder; rewrite ?Ek, ?El; try done. apply goto_inv; rewrite ?Ek; done.
  - assert (m_locked s = true) as El by (apply (mi_locked s Hs i); by rewrite Ek).
    apply inv_holder; rewrite ?Ek, ?El; try done; [apply goto_inv; rewrite ?Ek; done| |].
    + cbn. symmetry. apply bool_decide_eq_false_2. intros E. pose proof (mi_set s Hs i E) as Ho. by rewrite Ek in Ho.
    + intros j Hj E. pose proof (mi_set s Hs j E) as Ho. destruct Hj. apply (mi_one s Hs); [|by rewrite Ek]. by destruct (p_pc (m_cpus s j)).
  - destruct (pop_inv (m_cpus s i) Out Hc) as [? E]; rewrite ?Ek; try done. apply inv_local; rewrite ?E, ?Ek; done.
Qed.

Lemma mstep_inv s s' : mutex_inv s → mstep s s' → mutex_inv s'.
Proof.
  intros Hs Hst. revert Hs. destruct Hst as [i s1|i s1 s2 H|i s1 s2 H]; intros Hs; [by apply cpu_step_inv|..]; pose proof (mi_cpu s1 Hs i) as [H1 H2 H3 H4].
  - unfold intr in H. destruct (p_if (m_cpus s1 i)) eqn:Ei; [|done]. injection H as <-.
    assert (p_pc (m_cpus s1 i) = Out) as Ek by (destruct (decide (p_pc (m_cpus s1 i) = Out)) as [|Hne]; [done|by specialize (H3 Hne)]).
    apply inv_local; rewrite ?Ek; try done. split; cbn; try done; [by rewrite H2, Ek|]. by constructor.
  - unfold iret in H. destruct (p_pc (m_cpus s1 i)) eqn:Ek; try done. destruct (p_below (m_cpus s1 i)) as [|[k f] l] eqn:Eb; [done|]. injection H as <-.
    apply Forall_cons_1 in H4 as [Hk H4]. cbn in Hk. subst k. apply inv_local; rewrite ?Ek; try done.
Qed.

Lemma spin_reachable_inv s : rtc mstep initlock s → mutex_inv s.
Proof.
  revert s. apply rtc_ind_r; [apply initlock_inv|]. intros s1 s2 _ Hst IH. by eapply mstep_inv.
Qed.

(** C6: on any number of processors, with the memory accesses of [acquire] and [release] and the
    interrupts in any order, at most one processor is in the critical section, no check of the lock code
    panics, and a processor that holds or waits for the lock has its interrupts off, so that no handler
    can wait for the lock of the thread it has stopped. *)
Theorem spin_mutual_exclusion s :
  rtc mstep initlock s →
  (∀ i j, p_pc (m_cpus s i) = In → p_pc (m_cpus s j) = In → i = j) ∧
  (∀ i, p_pc (m_cpus s i) ≠ Panicked) ∧
  (∀ i, p_pc (m_cpus s i) ≠ Out → p_if (m_cpus s i) = false ∧ intr i s = None) ∧
  (∀ i k f, (k, f) ∈ p_below (m_cpus s i) → k = Out).
Proof.
  intros H%spin_reachable_inv. split_and!.
  - intros i j Hi Hj. apply (mi_one s H); [by rewrite Hi|by rewrite Hj].
  - intros i. apply (mi_cpu s H).
  - intros i Hi. pose proof (ci_if _ (mi_cpu s H i) Hi) as Hif. split; [done|]. unfold intr. by rewrite Hif.
  - intros i k f Hin. pose proof (ci_below _ (mi_cpu s H i)) as Hb. by apply (proj1 (Forall_forall _ _) Hb _ Hin).
Qed.

(** The steps the holder of a lock has left until it is free. *)
Definition steps_left (k : pc) : nat :=
  match k with AcqSet => 6 | In => 5 | RelLocked => 4 | RelCpu => 3 | RelClear => 2 | RelFree => 1 | _ => 0 end.

(** the lock is never stuck: when it is taken, some processor holds it and frees it with at most
    six accesses of its own; when it is free, any processor in the loop of [acquire] takes it with its
    next access. *)
Theorem spin_progress s :
  rtc mstep initlock s →
  (m_locked s = true → ∃ i, m_locked (Nat.iter (steps_left (p_pc (m_cpus s i))) (cpu_step i) s) = false) ∧
  (m_locked s = false → ∀ i, p_pc (m_cpus s i) = AcqXchg → p_pc (m_cpus (cpu_step i (cpu_step i s)) i) = In).
Proof.
  intros H%spin_reachable_inv. split.
  - intros Hl. destruct (mi_holder s H Hl) as [i Hi]. exists i. clear Hl. remember (steps_left (p_pc (m_cpus s i))) as n eqn:En.
    assert (∀ n s, mutex_inv s → holds (p_pc (m_cpus s i)) = true → n = steps_left (p_pc (m_cpus s i)) → m_locked (Nat.iter n (cpu_step i) s) = false) as Hgen; [|by apply Hgen].
    clear. intros n. induction n as [|n IH]; intros s Hs Hi En; [by destruct (p_pc (m_cpus s i))|].
    rewrite Nat.iter_succ_r. pose proof (mi_locked s Hs i Hi) as Hl. pose proof (cpu_step_inv i s Hs) as Hs'.
    assert (n = 0%nat ∧ m_locked (cpu_step i s) = false ∨ holds (p_pc (m_cpus (cpu_step i s) i)) = true ∧ n = steps_left (p_pc (m_cpus (cpu_step i s) i))) as [[-> E]|[Hh E]]; [|done|by apply IH].
    pose proof (mi_cpu s Hs i) as Hc. unfold cpu_step. destruct (p_pc (m_cpus s i)) eqn:Ek; try done; cbn [steps_left] in En; injection En as ->; rewrite ?Hl.
    all: cbn [m_locked m_cpus set_cpu]; try (right; rewrite fn_lookup_insert; done); try (left; done).
    right. rewrite bool_decide_eq_true_2 by (apply (mi_owner s Hs); by rewrite Ek). cbn [m_cpus set_cpu]. rewrite fn_lookup_insert.
    destruct (pop_inv (m_cpus s i) RelClear Hc) as [_ E]; rewrite ?Ek; try done. by rewrite E.
  - intros Hl i Hi. assert (cpu_step i s = MState true (m_cpu s) (<[i := goto (m_cpus s i) AcqSet]> (m_cpus s))) as -> by (unfold cpu_step; by rewrite Hi, Hl).
    unfold cpu_step. cbn [m_cpus]. rewrite fn_lookup_insert. cbn [p_pc goto m_cpus]. by rewrite fn_lookup_insert.
Qed.

(** * Examples *)

(** Processor 0 is in the critical section, processor 1 in the loop. *)
Definition ex_s : mstate := Nat.iter 3 (cpu_step 1) (Nat.iter 4 (cpu_step 0) initlock).

Lemma ex_reach : rtc mstep initlock ex_s.
Proof. repeat (eapply rtc_r; [|apply mstep_cpu]). apply rtc_refl. Qed.

Lemma spin_mutual_exclusion_witness :
  p_pc (m_cpus ex_s 0%nat) = In ∧ p_pc (m_cpus ex_s 1%nat) = AcqXchg ∧ intr 1%nat ex_s = None.
Proof.
  destruct (spin_mutual_exclusion ex_s ex_reach) as (_ & _ & H & _). split; [vm_compute; reflexivity|]. split; [vm_compute; reflexivity|].
  apply H. vm_compute. discriminate.
Defined.

Lemma spin_progress_witness : ∃ i, m_locked (Nat.iter (steps_left (p_pc (m_cpus ex_s i))) (cpu_step i) ex_s) = false.
Proof. destruct (spin_progress ex_s ex_reach) as [H _]. apply H. vm_compute. reflexivity. Defined.
