(* ===== verification/Trap.v ===== *)
(** Traps ([trap.c]): the interrupt descriptor table and the dispatch of system calls, device
    interrupts and exceptions. *)
From stdpp Require Import base list numbers strings gmap.
From Stdlib Require Import ZArith Lia.
From S2P Require Import Prelude Params Machine Spinlock Sleeplock Bio Log Fs Pipe Kalloc Vm Proc File Syscall Sysfile Exec Sysproc.
Local Open Scope Z_scope.
Local Open Scope xv6_scope.

Definition T_SYSCALL : Z := 64.
Definition T_IRQ0 : Z := 32.
Definition IRQ_TIMER : Z := 0.
Definition IRQ_KBD : Z := 1.
Definition IRQ_COM1 : Z := 4.
Definition IRQ_IDE : Z := 14.
Definition IRQ_SPURIOUS : Z := 31.
Definition DPL_USER : Z := 3.
Definition SEG_KCODE : Z := 1.
Definition STS_IG32 : Z := 0xE.
Definition STS_TG32 : Z := 0xF.

(** * The interrupt descriptor table *)

Record gatedesc := GateDesc {
  g_off_15_0 : Z; g_cs : Z; g_args : Z; g_rsv1 : Z; g_type : Z; g_s : Z; g_dpl : Z; g_p : Z; g_off_31_16 : Z;
}.
Definition gate_zero : gatedesc := GateDesc 0 0 0 0 0 0 0 0 0.

(** The fields have 16, 16, 5, 3, 4, 1, 2, 1 and 16 bits. *)
Definition SETGATE (istrap : bool) (sel off d : Z) : gatedesc :=
  GateDesc (u16 (Z.land (u32 off) 0xffff)) (u16 sel) 0 0 (if istrap then STS_TG32 else STS_IG32) 0 (d mod 4) 1 (u16 (Z.shiftr (u32 off) 16)).

Fixpoint tvinit_loop (n : nat) (vectors : list Z) (idt : list gatedesc) : list gatedesc :=
  match n with
  | O => idt
  | S n' => let i := (256 - n)%nat in tvinit_loop n' vectors (<[i := SETGATE false (Z.shiftl SEG_KCODE 3) (vectors !!! i) 0]> idt)
  end.
(** [vectors] are the addresses of the assembly entry points. *)
Definition tvinit (vectors : list Z) (idt : list gatedesc) : list gatedesc :=
  let idt := tvinit_loop 256 vectors idt in
  <[Z.to_nat T_SYSCALL := SETGATE true (Z.shiftl SEG_KCODE 3) (vectors !!! Z.to_nat T_SYSCALL) DPL_USER]> idt.

(** * The dispatch *)

(** The kernel with its devices, and the interrupts acknowledged by [lapiceoi]. *)
Record machine (D : Type) := Mach { mc_kernel : kernel; mc_dev : D; mc_eoi : nat }.
Arguments Mach {D} _ _ _.
Arguments mc_kernel {D} _.
Arguments mc_dev {D} _.
Arguments mc_eoi {D} _.

(** The interrupt handlers of the drivers ([ide.c], [kbd.c], [uart.c]). *)
Class Devices (D : Type) := {
  dv_ideintr : M (machine D) unit;
  dv_kbdintr : M (machine D) unit;
  dv_uartintr : M (machine D) unit;
}.

(** A trap returns to where it came from, or its thread ends in [exit], or it gives up the
    processor in [yield]. *)
Inductive tout := TReturn | TExit | TYield.
#[global] Instance tout_eq_dec : EqDecision tout.
Proof. solve_decision. Defined.

Section trap.
Context {D : Type} `{!Devices D} (kend data : Z) (dsw : devsw) (cpuid : Z) (junk : list Z).
#[local] Instance the_mem : ProcMem kstate := kernel_mem kend data.
#[local] Instance the_files : ProcFiles kstate fdstate := kernel_files dsw.
Abbreviation MM := (M (machine D)).

Definition kern {A} (m : M kernel A) : MM A := lift mc_kernel (λ k s, Mach k (mc_dev s) (mc_eoi s)) m.
Definition ptab {A} (m : M (pstate kstate fdstate) A) : MM A := kern (pr m).

Definition lapiceoi : MM unit := modify (λ s, Mach (mc_kernel s) (mc_dev s) (S (mc_eoi s))).

(** [case T_IRQ0 + IRQ_TIMER]. *)
Definition tick : MM unit :=
  acquire LkTicks ;;
  kern (modify (λ s, Kernel (kn_p s) (u32 (kn_ticks s + 1)))) ;;
  ptab (Proc.wakeup ChTicks) ;;
  release LkTicks.

(** [exit()]: the thread ends there. *)
Definition exit (cur : nat) : MM tout := ptab (Proc.exit cur) ;; ret TExit.

(** [if(myproc() && myproc()->killed && (tf->cs&3) == DPL_USER) exit();] *)
Definition exit_if_killed (cur : option nat) (tf : trapframe) (k : MM tout) : MM tout :=
  match cur with
  | None => k
  | Some i =>
      p <- ptab (procp i) ;;
      if p_killed p && (Z.land (tf_cs tf) 3 =? DPL_USER) then exit i else k
  end.

(** What follows [yield], when the process runs again: [cur] is still this process. *)
Definition trap_resume (cur : option nat) (tf : trapframe) : MM tout := exit_if_killed cur tf (ret TReturn).

(** [trapno == T_SYSCALL].  A call of the system call [exit] leaves a zombie, whose thread does
    not come back. *)
Definition trap_syscall (i : nat) (tf : trapframe) : MM tout :=
  p <- ptab (procp i) ;;
  if p_killed p then exit i
  else
    ptab (upd_proc i (set_tf tf)) ;;
    kern (syscall kend data dsw i junk) ;;
    p <- ptab (procp i) ;;
    if bool_decide (p_state p = ZOMBIE) then ret TExit
    else if p_killed p then exit i else ret TReturn.

(** The [switch].  The messages on the console are left out. *)
Definition trap_switch (cur : option nat) (trapno : Z) (tf : trapframe) : MM unit :=
  if trapno =? T_IRQ0 + IRQ_TIMER then when (cpuid =? 0) tick ;; lapiceoi
  else if trapno =? T_IRQ0 + IRQ_IDE then dv_ideintr ;; lapiceoi
  else if trapno =? T_IRQ0 + IRQ_IDE + 1 then ret tt
  else if trapno =? T_IRQ0 + IRQ_KBD then dv_kbdintr ;; lapiceoi
  else if trapno =? T_IRQ0 + IRQ_COM1 then dv_uartintr ;; lapiceoi
  else if (trapno =? T_IRQ0 + 7) || (trapno =? T_IRQ0 + IRQ_SPURIOUS) then lapiceoi
  else match cur with
       | None => panic "trap"
       | Some i => if Z.land (tf_cs tf) 3 =? 0 then panic "trap" else ptab (upd_proc i (set_killed true))
       end.

(** [if(myproc() && myproc()->state == RUNNING && trapno == T_IRQ0+IRQ_TIMER) yield();] *)
Definition trap_yield (cur : option nat) (trapno : Z) (tf : trapframe) : MM tout :=
  match cur with
  | None => trap_resume cur tf
  | Some i =>
      p <- ptab (procp i) ;;
      if bool_decide (p_state p = RUNNING) && (trapno =? T_IRQ0 + IRQ_TIMER) then ptab (Proc.yield i) ;; ret TYield
      else trap_resume cur tf
  end.

Definition trap (cur : option nat) (trapno : Z) (tf : trapframe) : MM tout :=
  if trapno =? T_SYSCALL then
    match cur with None => fault | Some i => trap_syscall i tf end
  else
    trap_switch cur trapno tf ;;
    exit_if_killed cur tf (trap_yield cur trapno tf).
End trap.
