(* ===== verification/TrapProps.v ===== *)
(** Properties of traps. *)
From stdpp Require Import base list numbers strings gmap.
From Stdlib Require Import ZArith Lia.
From S2P Require Import Prelude Params Machine Spinlock Sleeplock Bio Log Fs Pipe Kalloc Vm Proc File Syscall Sysfile Exec Sysproc Trap.
Local Open Scope Z_scope.
Local Open Scope xv6_scope.

(** * The interrupt descriptor table *)

(** Where the processor goes through a gate. *)
Definition gate_offset (g : gatedesc) : Z := g_off_15_0 g + 2 ^ 16 * g_off_31_16 g.

Lemma gate_offset_set istrap sel off d : 0 <= off < 2 ^ 32 → gate_offset (SETGATE istrap sel off d) = off.
Proof.
  intros H. unfold gate_offset, SETGATE. cbn [g_off_15_0 g_off_31_16]. rewrite u32_small by done.
  change 0xffff with (Z.ones 16). rewrite Z.land_ones, Z.shiftr_div_pow2 by lia. unfold u16.
  rewrite Z.mod_mod by lia. rewrite (Z.mod_small (off / 2 ^ 16)) by (split; [apply Z.div_pos|apply Z.div_lt_upper_bound]; lia).
  pose proof (Z.div_mod off (2 ^ 16)). lia.
Qed.

Lemma tvinit_loop_lookup n vectors idt i :
  (n <= 256)%nat → length idt = 256%nat → (i < 256)%nat →
  tvinit_loop n vectors idt !! i = if decide (256 - n <= i)%nat then Some (SETGATE false (Z.shiftl SEG_KCODE 3) (vectors !!! i) 0) else idt !! i.
Proof.
  revert idt. induction n as [|n IH]; intros idt Hn Hl Hi; cbn [tvinit_loop].
  { rewrite decide_False by lia. done. }
  rewrite IH by (rewrite ?length_insert; lia). destruct (decide (256 - n <= i)%nat); [by rewrite decide_True by lia|].
  destruct (decide (i = 256 - S n)%nat) as [->|Hne].
  - rewrite list_lookup_insert_eq by (rewrite Hl; lia). rewrite decide_True by lia. done.
  - rewrite list_lookup_insert_ne by done. by rewrite decide_False by lia.
Qed.

Lemma length_tvinit_loop n vectors idt : length (tvinit_loop n vectors idt) = length idt.
Proof. revert idt. induction n as [|n IH]; intros idt; cbn [tvinit_loop]; [done|]. by rewrite IH, length_insert. Qed.

(** C36: [tvinit] points the gate of every interrupt to its entry in kernel code; the system call
    gate is the only one a user program may go through with an [int] instruction, and the only one
    that leaves interrupts on. *)
Theorem tvinit_gates vectors idt i :
  length idt = 256%nat → (i < 256)%nat → 0 <= vectors !!! i < 2 ^ 32 →
  ∃ g, tvinit vectors idt !! i = Some g ∧ gate_offset g = vectors !!! i ∧ g_cs g = 8 ∧ g_p g = 1 ∧
    (g_dpl g = if decide (Z.of_nat i = T_SYSCALL) then DPL_USER else 0) ∧
    (g_type g = if decide (Z.of_nat i = T_SYSCALL) then STS_TG32 else STS_IG32).
Proof.
  intros Hl Hi Hv. unfold tvinit. destruct (decide (Z.of_nat i = T_SYSCALL)) as [E|Hne].
  - assert (i = Z.to_nat T_SYSCALL) as -> by lia. eexists. split; [apply list_lookup_insert_eq; rewrite length_tvinit_loop, Hl; vm_compute; lia|].
    split_and!; try done. by apply gate_offset_set.
  - eexists. split; [rewrite list_lookup_insert_ne by (unfold T_SYSCALL in *; lia); rewrite tvinit_loop_lookup, decide_True by lia; reflexivity|].
    split_and!; try done. by apply gate_offset_set.
Qed.

(** * The dispatch *)

Section trap.
Context {D : Type} `{!Devices D} (kend data : Z) (dsw : devsw) (cpuid : Z) (junk : list Z).

(** Process [i] of the machine. *)
Definition mproc (s : machine D) (i : nat) : option proc := pt_proc (kn_p (mc_kernel s)) !! i.
Definition set_mproc (i : nat) (f : proc → proc) (s : machine D) : machine D :=
  let k := mc_kernel s in let t := kn_p k in
  Mach (Kernel (PState (alter f i (pt_proc t)) (pt_initproc t) (pt_nextpid t) (pt_mem t) (pt_files t)) (kn_ticks k)) (mc_dev s) (mc_eoi s).

Lemma ptab_procp c s i : ptab (procp i) c s = match mproc s i with Some p => Ret p c s | None => Fault end.
Proof. unfold ptab, kern, pr, lift, procp, bind, get, mproc. destruct s as [[t k] d e]. cbn. destruct (pt_proc t !! i); [by destruct t|done]. Qed.

Lemma ptab_upd c s i f p : mproc s i = Some p → ptab (upd_proc i f) c s = Ret tt c (set_mproc i f s).
Proof. unfold mproc. intros H. unfold ptab, kern, pr, lift, upd_proc, bind, get. destruct s as [[t k] d e]. cbn in *. by rewrite H. Qed.

(** A run that returns comes from a first part that returned. *)
Lemma bind_inv {S A B} (m : M S A) (f : A → M S B) c s b c' s' :
  bind m f c s = Ret b c' s' → ∃ a c1 s1, m c s = Ret a c1 s1 ∧ f a c1 s1 = Ret b c' s'.
Proof. unfold bind. destruct (m c s) as [a c1 s1| | | |]; try done. by exists a, c1, s1. Qed.

Lemma exit_not_return i c (s s' : machine D) c' : exit kend data dsw i c s = Ret TReturn c' s' → False.
Proof. unfold exit. intros (a & c1 & s1 & _ & H)%bind_inv. discriminate. Qed.

(** The process whose thread is back has not been killed. *)
Definition alive_in (s : machine D) (i : nat) : Prop := ∃ p, mproc s i = Some p ∧ p_killed p = false.

Lemma exit_if_killed_inv i tf k c (s : machine D) c' (s' : machine D) :
  Z.land (tf_cs tf) 3 = DPL_USER → exit_if_killed kend data dsw (Some i) tf k c s = Ret TReturn c' s' → alive_in s i ∧ k c s = Ret TReturn c' s'.
Proof.
  intros Hu (p & c1 & s1 & Hp & H)%bind_inv. rewrite ptab_procp in Hp. destruct (mproc s i) as [q|] eqn:E; [|done]. injection Hp as <- <- <-.
  rewrite Hu, Z.eqb_refl, andb_true_r in H. destruct (p_killed q) eqn:Ek; [by apply exit_not_return in H|]. split; [|done]. by exists q.
Qed.

Lemma trap_resume_inv i tf c (s : machine D) c' (s' : machine D) :
  Z.land (tf_cs tf) 3 = DPL_USER → trap_resume kend data dsw (Some i) tf c s = Ret TReturn c' s' → alive_in s' i.
Proof. intros Hu [Ha H]%exit_if_killed_inv; [|done]. by injection H as _ <-. Qed.

(** C14: a killed process does not get back to user space: a trap that returns to user code, through a
    system call, an interrupt or an exception, or after [yield], leaves a process that is not killed;
    otherwise the thread has ended in [exit]. *)
Theorem killed_never_returns i trapno tf c (s : machine D) c' (s' : machine D) :
  trapno = T_SYSCALL ∨ Z.land (tf_cs tf) 3 = DPL_USER →
  trap kend data dsw cpuid junk (Some i) trapno tf c s = Ret TReturn c' s' ∨
  (trapno ≠ T_SYSCALL ∧ trap_resume kend data dsw (Some i) tf c s = Ret TReturn c' s') →
  ∃ p, mproc s' i = Some p ∧ p_killed p = false.
Proof.
  intros Hu [H|[Hne H]]; [|destruct Hu as [?|Hu]; [done|by apply (trap_resume_inv i tf c s c')]]. unfold trap in H. destruct (Z.eqb_spec trapno T_SYSCALL) as [E|Hne].
  - unfold trap_syscall in H. apply bind_inv in H as (p & c1 & s1 & _ & H). destruct (p_killed p); [by apply exit_not_return in H|].
    apply bind_inv in H as (? & c2 & s2 & _ & H). apply bind_inv in H as (? & c3 & s3 & _ & H). apply bind_inv in H as (q & c4 & s4 & Hq & H).
    rewrite ptab_procp in Hq. destruct (mproc s3 i) as [q'|] eqn:E3; [|done]. injection Hq as <- <- <-.
    destruct (bool_decide _); [done|]. destruct (p_killed q') eqn:Ek; [by apply exit_not_return in H|]. injection H as _ <-. by exists q'.
  - destruct Hu as [?|Hu]; [done|]. apply bind_inv in H as (? & c1 & s1 & _ & H). apply exit_if_killed_inv in H as [_ H]; [|done].
    unfold trap_yield in H. apply bind_inv in H as (p & c2 & s2 & _ & H). destruct (_ && _); [by apply bind_inv in H as (? & ? & ? & _ & H)|].
    by apply (trap_resume_inv i tf c2 s2 c').
Qed.

(** The traps of the [switch] that are not exceptions. *)
Definition is_irq (trapno : Z) : bool :=
  bool_decide (trapno ∈ [T_IRQ0 + IRQ_TIMER; T_IRQ0 + IRQ_IDE; T_IRQ0 + IRQ_IDE + 1; T_IRQ0 + IRQ_KBD; T_IRQ0 + IRQ_COM1; T_IRQ0 + 7; T_IRQ0 + IRQ_SPURIOUS]).

Lemma trap_switch_exception cur trapno tf :
  is_irq trapno = false →
  trap_switch cpuid cur trapno tf =
  match cur with
  | None => panic "trap"
  | Some i => if Z.land (tf_cs tf) 3 =? 0 then panic "trap" else ptab (upd_proc i (set_killed true))
  end.
Proof.
  intros H. unfold is_irq in H. apply bool_decide_eq_false in H. rewrite !not_elem_of_cons in H. destruct H as (H1 & H2 & H3 & H4 & H5 & H6 & H7 & _).
  unfold trap_switch. apply Z.eqb_neq in H1, H2, H3, H4, H5, H6, H7. by rewrite H1, H2, H3, H4, H5, H6, H7.
Qed.

(** an exception in user code kills the process at once, in [exit]; an exception in kernel code,
    or without a process, panics. *)
Theorem exception_kills cur trapno tf c (s : machine D) :
  trapno ≠ T_SYSCALL → is_irq trapno = false →
  match cur with
  | Some i =>
      ∀ p, mproc s i = Some p →
      (Z.land (tf_cs tf) 3 = DPL_USER →
         trap kend data dsw cpuid junk cur trapno tf c s = exit kend data dsw i c (set_mproc i (set_killed true) s)) ∧
      (Z.land (tf_cs tf) 3 = 0 → trap kend data dsw cpuid junk cur trapno tf c s = Panic "trap")
  | None => trap kend data dsw cpuid junk cur trapno tf c s = Panic "trap"
  end.
Proof.
  intros Hne Hirq. unfold trap. apply Z.eqb_neq in Hne. rewrite Hne, trap_switch_exception by done. destruct cur as [i|]; [|done].
  intros p Hp. split; intros Hcs; rewrite Hcs; [|done]. cbn [Z.eqb DPL_USER]. rewrite (bind_eq _ _ _ _ _ _ _ (ptab_upd c s i (set_killed true) p Hp)).
  unfold exit_if_killed. assert (mproc (set_mproc i (set_killed true) s) i = Some (set_killed true p)) as Hp'.
  { unfold mproc, set_mproc in *. cbn. by rewrite list_lookup_alter_eq, Hp. }
  rewrite (bind_eq _ _ _ _ (set_killed true p) c (set_mproc i (set_killed true) s)) by (rewrite ptab_procp; by rewrite Hp').
  rewrite Hcs. done.
Qed.

(** A processor that has just taken an interrupt, and one that then holds a lock, or two. *)
Definition cpu_trap (pid : Z) (l : list lockid) : cpu := Cpu pid false (Z.of_nat (length l)) false l.

Lemma filter_notin (lk : lockid) (l : list lockid) : lk ∉ l → filter (λ x, x ≠ lk) l = l.
Proof.
  induction l as [|x l IH]; intros H; [done|]. apply not_elem_of_cons in H as [Hne H]. rewrite filter_cons_True by done. by rewrite IH.
Qed.

Lemma acquire_trap {S} pid lk l (s : S) : lk ∉ l → acquire lk (cpu_trap pid l) s = Ret tt (cpu_trap pid (lk :: l)) s.
Proof.
  intros H. rewrite acquire_eq; [|done|cbn; lia]. unfold cpu_trap. cbn [cpu_pid cpu_ncli cpu_if cpu_intena cpu_held length].
  rewrite Nat2Z.inj_succ, Z.add_1_r. by destruct (_ =? 0).
Qed.
Lemma release_trap {S} pid lk l (s : S) : lk ∉ l → release lk (cpu_trap pid (lk :: l)) s = Ret tt (cpu_trap pid l) s.
Proof.
  intros H. rewrite release_eq; [|by left|done|cbn; lia]. unfold cpu_trap. cbn [cpu_pid cpu_ncli cpu_if cpu_intena cpu_held length].
  rewrite andb_false_r, filter_cons_False by naive_solver. rewrite filter_notin by done. rewrite Nat2Z.inj_succ. do 2 f_equal. lia.
Qed.

Lemma ptab_eq {A} (m : M (pstate kstate fdstate) A) c (s : machine D) a c' t :
  m c (kn_p (mc_kernel s)) = Ret a c' t → ptab m c s = Ret a c' (Mach (Kernel t (kn_ticks (mc_kernel s))) (mc_dev s) (mc_eoi s)).
Proof. intros H. unfold ptab, kern, pr, lift. by rewrite H. Qed.

(** The state after a clock interrupt: the tick, if this is the first processor, and the
    acknowledgement. *)
Definition set_tab (f : list proc → list proc) (t : pstate kstate fdstate) : pstate kstate fdstate :=
  PState (f (pt_proc t)) (pt_initproc t) (pt_nextpid t) (pt_mem t) (pt_files t).
Definition ticked (s : machine D) : machine D :=
  let k := mc_kernel s in
  Mach (if cpuid =? 0 then Kernel (set_tab (wakeup1_tab ChTicks) (kn_p k)) (u32 (kn_ticks k + 1)) else k) (mc_dev s) (S (mc_eoi s)).

Lemma tick_eq pid (s : machine D) :
  tick (cpu_trap pid []) s =
  Ret tt (cpu_trap pid []) (Mach (Kernel (set_tab (wakeup1_tab ChTicks) (kn_p (mc_kernel s))) (u32 (kn_ticks (mc_kernel s) + 1))) (mc_dev s) (mc_eoi s)).
Proof.
  unfold tick. rewrite (bind_eq _ _ _ _ _ _ _ (acquire_trap pid LkTicks [] s (not_elem_of_nil _))).
  set (s1 := Mach (Kernel (kn_p (mc_kernel s)) (u32 (kn_ticks (mc_kernel s) + 1))) (mc_dev s) (mc_eoi s)).
  rewrite (bind_eq _ _ _ _ tt (cpu_trap pid [LkTicks]) s1) by reflexivity.
  assert (LkPtable ∉ [LkTicks]) as Hlk by set_solver.
  erewrite bind_eq.
  2:{ apply (ptab_eq (Proc.wakeup ChTicks) (cpu_trap pid [LkTicks]) s1 tt (cpu_trap pid [LkTicks]) (set_tab (wakeup1_tab ChTicks) (kn_p (mc_kernel s)))).
      unfold Proc.wakeup. rewrite (bind_eq _ _ _ _ _ _ _ (acquire_trap pid LkPtable [LkTicks] _ Hlk)).
      rewrite (bind_eq _ _ _ _ tt (cpu_trap pid [LkPtable; LkTicks]) (set_tab (wakeup1_tab ChTicks) (kn_p (mc_kernel s)))) by reflexivity.
      by apply release_trap. }
  apply release_trap, not_elem_of_nil.
Qed.

Lemma switch_timer cur tf pid (s : machine D) :
  trap_switch cpuid cur (T_IRQ0 + IRQ_TIMER) tf (cpu_trap pid []) s = Ret tt (cpu_trap pid []) (ticked s).
Proof.
  unfold trap_switch, ticked. rewrite Z.eqb_refl. destruct (cpuid =? 0); cbn [when].
  - by rewrite (bind_eq _ _ _ _ _ _ _ (tick_eq pid s)).
  - by rewrite (bind_eq _ _ _ _ tt (cpu_trap pid []) s) by reflexivity.
Qed.

Lemma mproc_ticked s i p : mproc s i = Some p → p_state p = RUNNING → mproc (ticked s) i = Some p.
Proof.
  unfold mproc, ticked. cbn [mc_kernel]. destruct (cpuid =? 0); [|done]. cbn. unfold wakeup1_tab. rewrite list_lookup_fmap. intros -> Hr. cbn.
  unfold wake. by rewrite Hr.
Qed.

Lemma yield_eq i p pid (s : machine D) :
  mproc s i = Some p →
  ptab (Proc.yield i) (cpu_trap pid []) s = Ret tt (cpu_trap pid [LkPtable]) (set_mproc i (set_state RUNNABLE) s).
Proof.
  unfold mproc. intros Hp. apply (ptab_eq (Proc.yield i) (cpu_trap pid []) s tt (cpu_trap pid [LkPtable]) (set_tab (alter (set_state RUNNABLE) i) (kn_p (mc_kernel s)))).
  unfold Proc.yield. rewrite (bind_eq _ _ _ _ _ _ _ (acquire_trap pid LkPtable [] _ (not_elem_of_nil _))).
  set (t := kn_p (mc_kernel s)) in *. rewrite (bind_eq _ _ _ _ tt (cpu_trap pid [LkPtable]) (set_tab (alter (set_state RUNNABLE) i) t)) by (unfold upd_proc, bind, get; by rewrite Hp).
  unfold sched. rewrite (bind_eq _ _ _ _ true (cpu_trap pid [LkPtable]) (set_tab (alter (set_state RUNNABLE) i) t)).
  2:{ rewrite holding_eq by done. by rewrite bool_decide_eq_true_2 by (by left). }
  cbn [negb when]. unfold bind, ret, getcpu. cbn [cpu_trap cpu_ncli cpu_if length Z.of_nat Pos.of_succ_nat Z.eqb Pos.eqb negb].
  change (Z.of_nat 1 =? 1) with true. cbn [negb when ret].
  assert (procp i (cpu_trap pid [LkPtable]) (set_tab (alter (set_state RUNNABLE) i) t) = Ret (set_state RUNNABLE p) (cpu_trap pid [LkPtable]) (set_tab (alter (set_state RUNNABLE) i) t)) as E.
  { unfold procp, bind, get. cbn [set_tab pt_proc]. by rewrite list_lookup_alter_eq, Hp. }
  unfold ret. by rewrite E.
Qed.

(** a clock interrupt takes the processor away from the running process: on the first processor the
    clock is advanced and the processes that wait for it are woken; the interrupt is acknowledged; and
    the process, runnable, waits for its next turn in [sched] with [ptable.lock] held. *)
Theorem timer_preempts i p tf pid s :
  mproc s i = Some p → p_state p = RUNNING → p_killed p = false ∨ Z.land (tf_cs tf) 3 ≠ DPL_USER →
  trap kend data dsw cpuid junk (Some i) (T_IRQ0 + IRQ_TIMER) tf (cpu_trap pid []) s =
  Ret TYield (cpu_trap pid [LkPtable]) (set_mproc i (set_state RUNNABLE) (ticked s)).
Proof.
  intros Hp Hr Hk. pose proof (mproc_ticked s i p Hp Hr) as Hp'. unfold trap. change (T_IRQ0 + IRQ_TIMER =? T_SYSCALL) with false. cbv iota.
  rewrite (bind_eq _ _ _ _ _ _ _ (switch_timer (Some i) tf pid s)). unfold exit_if_killed.
  rewrite (bind_eq _ _ _ _ p (cpu_trap pid []) (ticked s)) by (by rewrite ptab_procp, Hp').
  replace (p_killed p && (Z.land (tf_cs tf) 3 =? DPL_USER)) with false by (destruct Hk as [->|Hk]; [done|apply Z.eqb_neq in Hk; by rewrite Hk, andb_false_r]).
  unfold trap_yield. rewrite (bind_eq _ _ _ _ p (cpu_trap pid []) (ticked s)) by (by rewrite ptab_procp, Hp').
  rewrite bool_decide_eq_true_2 by done. rewrite Z.eqb_refl. cbn [andb].
  by rewrite (bind_eq _ _ _ _ _ _ _ (yield_eq i p pid (ticked s) Hp')).
Qed.
End trap.

(** * Examples *)

#[local] Instance no_devices : Devices unit := { dv_ideintr := ret tt; dv_kbdintr := ret tt; dv_uartintr := ret tt }.
Definition ex_proc (killed : bool) : proc := set_killed killed (set_state RUNNING proc_zero).
Definition ex_machine (killed : bool) : machine unit :=
  Mach (Kernel (PState [ex_proc killed] None 2 (KState false 0 ∅) nap_fs) 7) tt 0.
Definition ex_tf : trapframe := TrapFrame 0 0 0 0 0x1b 0 0 0 [].
Definition ex_dsw : devsw := Devsw (λ _, None) (λ _, None).
Definition ex_kend : Z := KERNBASE + 2 ^ 20.

Lemma tvinit_gates_witness :
  ∃ g, tvinit (seqZ 0 256) (replicate 256 gate_zero) !! 64%nat = Some g ∧ gate_offset g = 64 ∧ g_dpl g = DPL_USER.
Proof.
  destruct (tvinit_gates (seqZ 0 256) (replicate 256 gate_zero) 64) as (g & Hg & Ho & _ & _ & Hd & _); [reflexivity|lia|vm_compute; split; congruence|].
  exists g. split; [exact Hg|]. split; [exact Ho|exact Hd].
Defined.

Lemma killed_never_returns_witness :
  ∃ p, mproc (ex_machine false) 0 = Some p ∧ p_killed p = false.
Proof.
  apply (killed_never_returns ex_kend ex_kend ex_dsw 0 [] 0 (T_IRQ0 + IRQ_IDE + 1) ex_tf (cpu_trap 1 []) (ex_machine false) (cpu_trap 1 [])); [right; reflexivity|].
  left. vm_compute. reflexivity.
Defined.

Lemma exception_kills_witness :
  trap ex_kend ex_kend ex_dsw 0 [] (Some 0%nat) 14 ex_tf (cpu_trap 1 []) (ex_machine false) =
  exit ex_kend ex_kend ex_dsw 0 (cpu_trap 1 []) (set_mproc 0 (set_killed true) (ex_machine false)).
Proof.
  apply (exception_kills ex_kend ex_kend ex_dsw 0 [] (Some 0%nat) 14 ex_tf (cpu_trap 1 []) (ex_machine false) ltac:(discriminate) eq_refl (ex_proc false)); reflexivity.
Defined.

Lemma timer_preempts_witness :
  ∃ s', trap ex_kend ex_kend ex_dsw 0 [] (Some 0%nat) 32 ex_tf (cpu_trap 1 []) (ex_machine false) = Ret TYield (cpu_trap 1 [LkPtable]) s' ∧ mc_eoi s' = 1%nat.
Proof.
  eexists. split; [apply (timer_preempts ex_kend ex_kend ex_dsw 0 [] 0 (ex_proc false)); [reflexivity|reflexivity|left; reflexivity]|]. reflexivity.
Defined.
