(* ===== verification/Mp.v ===== *)
(** The search for the processors ([mp.c]): the tables the BIOS leaves in memory. *)
From stdpp Require Import base list numbers strings.
From Stdlib Require Import ZArith Lia.
From S2P Require Import Prelude Params Machine Kalloc.
Local Open Scope Z_scope.
Local Open Scope xv6_scope.

(** Memory by kernel virtual address ([None]: not mapped), the variables of [mp.c] and
    [lapic], and the port of the interrupt mode register: what reading it gives and the
    port writes, the last one first. *)
Record mpstate := MpState {
  m_mem : Z → option Z;
  m_cpus : list Z;      (** [cpus[].apicid] *)
  m_ncpu : Z;
  m_ioapicid : Z;
  m_lapic : Z;
  m_imcr : Z;
  m_out : list (Z * Z);
}.
Definition set_cpus (cpus : list Z) (n : Z) (s : mpstate) : mpstate :=
  MpState (m_mem s) cpus n (m_ioapicid s) (m_lapic s) (m_imcr s) (m_out s).
Definition set_ioapicid (id : Z) (s : mpstate) : mpstate :=
  MpState (m_mem s) (m_cpus s) (m_ncpu s) id (m_lapic s) (m_imcr s) (m_out s).
Definition set_lapic (a : Z) (s : mpstate) : mpstate :=
  MpState (m_mem s) (m_cpus s) (m_ncpu s) (m_ioapicid s) a (m_imcr s) (m_out s).
Definition outb (port x : Z) : M mpstate unit :=
  modify (λ s, MpState (m_mem s) (m_cpus s) (m_ncpu s) (m_ioapicid s) (m_lapic s) (m_imcr s) ((port, u8 x) :: m_out s)).

(** * Memory *)

(** Bytes and little-endian integers. *)
Definition ldb (a : Z) : M mpstate Z := s <- get ;; deref (m_mem s (u32 a)).
Fixpoint loads (n : nat) (a : Z) : M mpstate (list Z) :=
  match n with
  | O => ret []
  | S n' => b <- ldb a ;; l <- loads n' (a + 1) ;; ret (b :: l)
  end.
Definition ld (n : nat) (a : Z) : M mpstate Z := l <- loads n a ;; ret (le_val l).

(** [memcmp(p, sig, n) == 0], which stops at the first difference. *)
Fixpoint sig_at (p : Z) (sig : list Z) : M mpstate bool :=
  match sig with
  | [] => ret true
  | c :: sig' => b <- ldb p ;; if b =? c then sig_at (p + 1) sig' else ret false
  end.

(** [struct mp], [struct mpconf], [struct mpproc], [struct mpioapic]: the sizes, and the
    offsets of the fields that are used. *)
Definition SIZE_mp : Z := 16.
Definition SIZE_mpconf : Z := 44.
Definition SIZE_mpproc : Z := 20.
Definition SIZE_mpioapic : Z := 8.
Definition mp_physaddr (mp : Z) : M mpstate Z := ld 4 (mp + 4).
Definition mp_imcrp (mp : Z) : M mpstate Z := ldb (mp + 12).
Definition conf_length (conf : Z) : M mpstate Z := ld 2 (conf + 4).
Definition conf_version (conf : Z) : M mpstate Z := ldb (conf + 6).
Definition conf_lapicaddr (conf : Z) : M mpstate Z := ld 4 (conf + 36).
Definition proc_apicid (p : Z) : M mpstate Z := ldb (p + 1).
Definition ioapic_apicno (p : Z) : M mpstate Z := ldb (p + 1).

Definition MPPROC : Z := 0.
Definition MPBUS : Z := 1.
Definition MPIOAPIC : Z := 2.
Definition MPIOINTR : Z := 3.
Definition MPLINTR : Z := 4.

(** * The search *)

Definition sum (addr len : Z) : M mpstate Z :=
  l <- loads (Z.to_nat len) addr ;; ret (u8 (fold_right Z.add 0 l)).

Definition MP_sig : list Z := [95; 77; 80; 95].   (** "_MP_" *)
Definition PCMP_sig : list Z := [80; 67; 77; 80].   (** "PCMP" *)

(** Look for an MP structure in the len bytes at addr. *)
Fixpoint mpsearch1_loop (fuel : nat) (p e : Z) : M mpstate (option Z) :=
  match fuel with
  | O => hang
  | S fuel' =>
      if p <? e then
        b <- sig_at p MP_sig ;;
        ok <- (if b then s <- sum p SIZE_mp ;; ret (s =? 0) else ret false) ;;
        if (ok : bool) then ret (Some p) else mpsearch1_loop fuel' (u32 (p + SIZE_mp)) e
      else ret None
  end.
Definition mpsearch1 (a len : Z) : M mpstate (option Z) :=
  let addr := P2V a in
  mpsearch1_loop (S (Z.to_nat (len / SIZE_mp))) addr (u32 (addr + len)).

(** Search for the MP Floating Pointer Structure. *)
Definition mpsearch : M mpstate (option Z) :=
  let bda := P2V 1024 in
  let bios := mpsearch1 983040 65536 in
  h <- ldb (bda + 15) ;; l <- ldb (bda + 14) ;;
  let p := Z.shiftl (Z.lor (Z.shiftl h 8) l) 4 in
  if negb (p =? 0) then
    mp <- mpsearch1 p 1024 ;;
    match mp with Some mp => ret (Some mp) | None => bios end
  else
    h <- ldb (bda + 20) ;; l <- ldb (bda + 19) ;;
    let p := Z.lor (Z.shiftl h 8) l * 1024 in
    mp <- mpsearch1 (u32 (p - 1024)) 1024 ;;
    match mp with Some mp => ret (Some mp) | None => bios end.

(** Search for an MP configuration table: the floating pointer structure and the table. *)
Definition mpconfig : M mpstate (option (Z * Z)) :=
  r <- mpsearch ;;
  match r with
  | None => ret None
  | Some mp =>
      physaddr <- mp_physaddr mp ;;
      if physaddr =? 0 then ret None
      else
        let conf := P2V physaddr in
        b <- sig_at conf PCMP_sig ;;
        if negb b then ret None
        else
          version <- conf_version conf ;;
          if negb (version =? 1) && negb (version =? 4) then ret None
          else
            len <- conf_length conf ;;
            s <- sum conf len ;;
            if negb (s =? 0) then ret None else ret (Some (mp, conf))
  end.

(** The loop over the entries, which returns [ismp].  An entry of another type is not
    skipped: the [break] leaves the [switch] only. *)
Fixpoint mpinit_loop (fuel : nat) (p e : Z) (ismp : bool) : M mpstate bool :=
  match fuel with
  | O => hang
  | S fuel' =>
      if p <? e then
        t <- ldb p ;;
        if t =? MPPROC then
          s <- get ;;
          when (m_ncpu s <? NCPU)
            (id <- proc_apicid p ;; modify (set_cpus (<[Z.to_nat (m_ncpu s) := id]> (m_cpus s)) (m_ncpu s + 1))) ;;
          mpinit_loop fuel' (p + SIZE_mpproc) e ismp
        else if t =? MPIOAPIC then
          id <- ioapic_apicno p ;;
          modify (set_ioapicid id) ;;
          mpinit_loop fuel' (p + SIZE_mpioapic) e ismp
        else if (t =? MPBUS) || (t =? MPIOINTR) || (t =? MPLINTR) then mpinit_loop fuel' (p + 8) e ismp
        else mpinit_loop fuel' p e false
      else ret ismp
  end.

Definition mpinit (fuel : nat) : M mpstate unit :=
  r <- mpconfig ;;
  match r with
  | None => panic "Expect to run on an SMP"
  | Some (mp, conf) =>
      a <- conf_lapicaddr conf ;;
      modify (set_lapic a) ;;
      len <- conf_length conf ;;
      ismp <- mpinit_loop fuel (conf + SIZE_mpconf) (conf + len) true ;;
      when (negb ismp) (panic "Didn't find a suitable machine") ;;
      imcrp <- mp_imcrp mp ;;
      when (negb (imcrp =? 0))
        (outb 34 112 ;;   (* Select IMCR *)
         x <- gets m_imcr ;;
         outb 35 (Z.lor x 1))   (* Mask external interrupts. *)
  end.

(** * Reading memory *)

(** The bytes [bs] are at [a]. *)
Definition holds (s : mpstate) (a : Z) (bs : list Z) : Prop :=
  ∀ i b, bs !! i = Some b → m_mem s (u32 (a + Z.of_nat i)) = Some b.

Lemma holds_cons s a b bs : holds s a (b :: bs) ↔ m_mem s (u32 a) = Some b ∧ holds s (a + 1) bs.
Proof.
  split.
  - intros H. split; [rewrite <- (Z.add_0_r a); by apply (H 0%nat)|]. intros i x Hx.
    replace (a + 1 + Z.of_nat i) with (a + Z.of_nat (S i)) by lia. by apply H.
  - intros [H0 H] [|i] x Hx; [injection Hx as <-; by rewrite Z.add_0_r|].
    replace (a + Z.of_nat (S i)) with (a + 1 + Z.of_nat i) by lia. by apply H.
Qed.

Lemma holds_app s a bs bs' : holds s a (bs ++ bs') ↔ holds s a bs ∧ holds s (a + Z.of_nat (length bs)) bs'.
Proof.
  revert a. induction bs as [|b bs IH]; intros a; cbn [app length].
  - rewrite Z.add_0_r. split; [|by intros [_ ?]]. intros H. split; [|done]. by intros i b.
  - rewrite !holds_cons, IH. replace (a + Z.of_nat (S (length bs))) with (a + 1 + Z.of_nat (length bs)) by lia. tauto.
Qed.

Lemma holds_slice s a bs off n : holds s a bs → holds s (a + Z.of_nat off) (slice off n bs).
Proof.
  intros H i b Hb. unfold slice in Hb. apply lookup_take_Some in Hb as [Hb Hi]. rewrite lookup_drop in Hb.
  replace (a + Z.of_nat off + Z.of_nat i) with (a + Z.of_nat (off + i)) by lia. by apply H.
Qed.

Lemma ldb_eq s a bs c off b : holds s a bs → bs !! off = Some b → ldb (a + Z.of_nat off) c s = Ret b c s.
Proof. intros H Hb. unfold ldb, bind, get. by rewrite (H off b Hb). Qed.

Lemma loads_eq s a bs c : holds s a bs → loads (length bs) a c s = Ret bs c s.
Proof.
  revert a. induction bs as [|b bs IH]; intros a H; [done|]. apply holds_cons in H as [H0 H]. cbn [length loads].
  rewrite (bind_eq _ _ _ _ b c s) by (unfold ldb, bind, get; by rewrite H0). by rewrite (bind_eq _ _ _ _ bs c s) by (by apply IH).
Qed.

Lemma ld_eq s a bs c off n : holds s a bs → (off + n <= length bs)%nat → ld n (a + Z.of_nat off) c s = Ret (rd n off bs) c s.
Proof.
  intros H Hl. unfold ld. rewrite (bind_eq _ _ _ _ (slice off n bs) c s); [done|]. rewrite <- (length_slice off n bs Hl) at 1.
  by apply loads_eq, holds_slice.
Qed.

Lemma sum_eq s a bs c : holds s a bs → sum a (Z.of_nat (length bs)) c s = Ret (u8 (fold_right Z.add 0 bs)) c s.
Proof. intros H. unfold sum. rewrite Nat2Z.id. by rewrite (bind_eq _ _ _ _ _ _ _ (loads_eq s a bs c H)). Qed.

Lemma sig_at_eq s a bs c sig : holds s a bs → (length sig <= length bs)%nat → sig_at a sig c s = Ret (bool_decide (take (length sig) bs = sig)) c s.
Proof.
  revert a bs. induction sig as [|x sig IH]; intros a bs H Hl; [done|]. destruct bs as [|b bs]; [cbn in Hl; lia|]. apply holds_cons in H as [H0 H].
  cbn [sig_at length take]. rewrite (bind_eq _ _ _ _ b c s) by (unfold ldb, bind, get; by rewrite H0). cbn [length] in Hl.
  destruct (Z.eqb_spec b x) as [->|Hne].
  - rewrite (IH _ bs H) by lia. f_equal. apply bool_decide_ext. split; [by intros ->|by intros [= ->]].
  - rewrite bool_decide_false; [done|]. by intros [= ->].
Qed.

(** * The search *)

(** The 16 bytes at [p], where memory is mapped. *)
Definition slot (s : mpstate) (p : Z) : list Z := (λ i, default 0 (m_mem s (u32 (p + Z.of_nat i)))) <$> seq 0 16.
(** They have the signature, and their sum is 0. *)
Definition valid_mp (s : mpstate) (p : Z) : bool :=
  bool_decide (take 4 (slot s p) = MP_sig) && (u8 (fold_right Z.add 0 (slot s p)) =? 0).
Definition slots (p : Z) (n : nat) : list Z := (λ k, p + 16 * Z.of_nat k) <$> seq 0 n.
Definition mapped (s : mpstate) (p n : Z) : Prop := ∀ x, p <= x < p + n → is_Some (m_mem s x).

Lemma slots_S p n : slots p (S n) = p :: slots (p + 16) n.
Proof.
  unfold slots. cbn [seq fmap list_fmap]. f_equal; [lia|]. rewrite <- fmap_S_seq, <- list_fmap_compose. apply list_fmap_ext. intros i k _. cbn. lia.
Qed.

Lemma holds_slot s p : mapped s p 16 → 0 <= p → p + 16 <= 2 ^ 32 → holds s p (slot s p).
Proof.
  intros Hm Hp He i b Hb. unfold slot in Hb. apply list_lookup_fmap_Some in Hb as (k & -> & Hk). apply lookup_seq in Hk as [-> Hk].
  rewrite Nat.add_0_l in *. destruct (Hm (p + Z.of_nat i)) as [x Hx]; [lia|]. rewrite u32_small by lia. by rewrite Hx.
Qed.

Lemma mpsearch1_loop_eq s c n fuel p :
  mapped s p (16 * Z.of_nat n) → 0 <= p → p + 16 * Z.of_nat n < 2 ^ 32 → (n < fuel)%nat →
  mpsearch1_loop fuel p (p + 16 * Z.of_nat n) c s = Ret (List.find (valid_mp s) (slots p n)) c s.
Proof.
  revert fuel p. induction n as [|n IH]; intros [|fuel] p Hm Hp He Hf; try lia; cbn [mpsearch1_loop].
  { rewrite Z.mul_0_r, Z.add_0_r, Z.ltb_irrefl. done. }
  assert (p < p + 16 * Z.of_nat (S n)) as Hlt by lia. apply Z.ltb_lt in Hlt. rewrite Hlt, slots_S. cbn [List.find].
  assert (holds s p (slot s p)) as Hs by (apply holds_slot; [intros x Hx; apply Hm; lia|lia|lia]).
  rewrite (bind_eq _ _ _ _ _ _ _ (sig_at_eq s p (slot s p) c MP_sig Hs ltac:(cbn; lia))). change (length MP_sig) with 4%nat.
  rewrite (bind_eq _ _ _ _ (valid_mp s p) c s).
  2: { unfold valid_mp. case_bool_decide; [|done]. by rewrite (bind_eq _ _ _ _ _ _ _ (sum_eq s p (slot s p) c Hs)). }
  destruct (valid_mp s p); [done|]. unfold SIZE_mp. rewrite u32_small by lia.
  replace (p + 16 * Z.of_nat (S n)) with (p + 16 + 16 * Z.of_nat n) by lia. apply IH; [intros x Hx; apply Hm; lia|lia|lia|lia].
Qed.

Lemma mpsearch1_eq s c a n :
  mapped s (P2V a) (16 * Z.of_nat n) → P2V a + 16 * Z.of_nat n < 2 ^ 32 →
  mpsearch1 a (16 * Z.of_nat n) c s = Ret (List.find (valid_mp s) (slots (P2V a) n)) c s.
Proof.
  intros Hm He. pose proof (u32_range (a + KERNBASE)) as Hr. fold (P2V a) in Hr. unfold mpsearch1. rewrite u32_small by lia.
  apply mpsearch1_loop_eq; [done|lia|lia|]. unfold SIZE_mp. rewrite Z.mul_comm, Z.div_mul by lia. lia.
Qed.

(** Where [mpsearch] looks: the first kilobyte of the extended BIOS data area, or the last
    one of base memory when there is none, and the BIOS. *)
Definition ebda (s : mpstate) : Z :=
  let b x := default 0 (m_mem s (P2V 1024 + x)) in
  Z.shiftl (Z.lor (Z.shiftl (b 15) 8) (b 14)) 4.
Definition basemem (s : mpstate) : Z :=
  let b x := default 0 (m_mem s (P2V 1024 + x)) in
  Z.lor (Z.shiftl (b 20) 8) (b 19) * 1024.
Definition search_slots (s : mpstate) : list Z :=
  slots (P2V (if ebda s =? 0 then u32 (basemem s - 1024) else ebda s)) 64 ++ slots (P2V 983040) 4096.

Lemma ldb_mapped s a n x c : mapped s a n → 0 <= a → a + n <= 2 ^ 32 → 0 <= x < n → ldb (a + x) c s = Ret (default 0 (m_mem s (a + x))) c s.
Proof.
  intros Hm Ha He Hx. destruct (Hm (a + x)) as [b Hb]; [lia|]. unfold ldb, bind, get. rewrite u32_small by lia. by rewrite Hb.
Qed.

(** Low memory, the first megabyte, is mapped. *)
Lemma mpsearch_eq s c :
  mapped s KERNBASE (2 ^ 20) → (ebda s = 0 → 1024 <= basemem s <= 2 ^ 20) → ebda s <= 2 ^ 20 - 1024 → 0 <= ebda s →
  mpsearch c s = Ret (List.find (valid_mp s) (search_slots s)) c s.
Proof.
  intros Hm Hb He He0. unfold mpsearch, search_slots. cbv zeta.
  assert (∀ a, 0 <= a <= 2 ^ 20 → P2V a = KERNBASE + a) as HP by (intros a Ha; unfold P2V; rewrite u32_small; unfold KERNBASE in *; lia).
  assert (mapped s (P2V 1024) 256) as Hbda by (rewrite HP by lia; intros x Hx; apply Hm; lia).
  assert (P2V 1024 = KERNBASE + 1024) as E1 by (apply HP; lia).
  assert (mapped s (P2V 983040) (16 * Z.of_nat 4096)) as Hbios by (rewrite HP by lia; intros x Hx; apply Hm; lia).
  assert (∀ a, 0 <= a <= 2 ^ 20 - 1024 → mpsearch1 a 1024 c s = Ret (List.find (valid_mp s) (slots (P2V a) 64)) c s) as H1.
  { intros a Ha. apply (mpsearch1_eq s c a 64); rewrite HP by lia; [intros x Hx; apply Hm; lia|unfold KERNBASE; lia]. }
  assert (mpsearch1 983040 65536 c s = Ret (List.find (valid_mp s) (slots (P2V 983040) 4096)) c s) as H2.
  { apply (mpsearch1_eq s c 983040 4096); [done|]. rewrite HP by lia. unfold KERNBASE. lia. }
  assert (∀ x, 0 <= x < 256 → ldb (P2V 1024 + x) c s = Ret (default 0 (m_mem s (P2V 1024 + x))) c s) as H3.
  { intros x Hx. apply (ldb_mapped s _ 256); [done| | |lia]; rewrite E1; unfold KERNBASE; lia. }
  rewrite (bind_eq _ _ _ _ _ _ _ (H3 15 ltac:(lia))), (bind_eq _ _ _ _ _ _ _ (H3 14 ltac:(lia))). fold (ebda s).
  rewrite find_app. destruct (Z.eqb_spec (ebda s) 0) as [E0|_]; cbn [negb].
  - specialize (Hb E0). rewrite (bind_eq _ _ _ _ _ _ _ (H3 20 ltac:(lia))), (bind_eq _ _ _ _ _ _ _ (H3 19 ltac:(lia))). fold (basemem s).
    rewrite (u32_small (basemem s - 1024)) by lia. rewrite (bind_eq _ _ _ _ _ _ _ (H1 (basemem s - 1024) ltac:(lia))). by destruct (List.find _ (slots _ 64)).
  - rewrite (bind_eq _ _ _ _ _ _ _ (H1 (ebda s) ltac:(lia))). by destruct (List.find _ (slots _ 64)).
Qed.

(** * The table *)

(** The entries of the configuration table, with the bytes that are not looked at. *)
Inductive mpentry :=
| EProc (apicid : Z) (rest : list Z)
| EIoapic (apicno : Z) (rest : list Z)
| EOther (type : Z) (rest : list Z).
Definition enc (e : mpentry) : list Z :=
  match e with EProc id rest => MPPROC :: id :: rest | EIoapic id rest => MPIOAPIC :: id :: rest | EOther t rest => t :: rest end.
Definition entry_ok (e : mpentry) : Prop :=
  match e with
  | EProc _ rest => length rest = 18%nat
  | EIoapic _ rest => length rest = 6%nat
  | EOther t rest => (t = MPBUS ∨ t = MPIOINTR ∨ t = MPLINTR) ∧ length rest = 7%nat
  end.
Definition apply_entry (s : mpstate) (e : mpentry) : mpstate :=
  match e with
  | EProc id _ => if m_ncpu s <? NCPU then set_cpus (<[Z.to_nat (m_ncpu s) := id]> (m_cpus s)) (m_ncpu s + 1) s else s
  | EIoapic id _ => set_ioapicid id s
  | EOther _ _ => s
  end.

Lemma apply_entry_mem s e : m_mem (apply_entry s e) = m_mem s.
Proof. destruct e; cbn; [|done|done]. by destruct (m_ncpu s <? NCPU). Qed.

(** A step of the loop. *)
Lemma mpinit_entry fuel s c p e ismp x :
  entry_ok x → holds s p (enc x) → p + Z.of_nat (length (enc x)) <= e →
  mpinit_loop (S fuel) p e ismp c s = mpinit_loop fuel (p + Z.of_nat (length (enc x))) e ismp c (apply_entry s x).
Proof.
  intros Hx Hh He. assert (0 < Z.of_nat (length (enc x))) as Hl by (destruct x; cbn [enc length]; lia).
  cbn [mpinit_loop]. rewrite (proj2 (Z.ltb_lt p e)) by lia.
  assert (∀ b l, enc x = b :: l → ldb p c s = Ret b c s) as H0.
  { intros b l E. rewrite E in Hh. rewrite <- (Z.add_0_r p). by apply (ldb_eq s p _ c 0 b Hh). }
  assert (∀ b i l, enc x = b :: i :: l → ldb (p + 1) c s = Ret i c s) as H1.
  { intros b i l E. rewrite E in Hh. by apply (ldb_eq s p _ c 1 i Hh). }
  destruct x as [id rest|id rest|t rest]; cbn [entry_ok] in Hx; cbn [enc length apply_entry].
  - rewrite (bind_eq _ _ _ _ _ _ _ (H0 _ _ eq_refl)). cbn [MPPROC Z.eqb]. rewrite Hx. rewrite (bind_eq _ _ _ _ s c s) by done.
    replace (Z.of_nat 20) with SIZE_mpproc by done. destruct (m_ncpu s <? NCPU); [|done]. cbn [when].
    rewrite (bind_eq _ _ _ _ tt c (set_cpus (<[Z.to_nat (m_ncpu s) := id]> (m_cpus s)) (m_ncpu s + 1) s)); [done|].
    unfold proc_apicid. by rewrite (bind_eq _ _ _ _ _ _ _ (H1 _ _ _ eq_refl)).
  - rewrite (bind_eq _ _ _ _ _ _ _ (H0 _ _ eq_refl)). cbn [MPPROC MPIOAPIC Z.eqb Pos.eqb]. rewrite Hx. unfold ioapic_apicno.
    rewrite (bind_eq _ _ _ _ _ _ _ (H1 _ _ _ eq_refl)). done.
  - destruct Hx as [Ht Hr]. rewrite (bind_eq _ _ _ _ _ _ _ (H0 _ _ eq_refl)), Hr. by destruct Ht as [->|[->| ->]].
Qed.

Lemma mpinit_entries es fuel s c p e ismp :
  Forall entry_ok es → holds s p (es ≫= enc) → p + Z.of_nat (length (es ≫= enc)) <= e →
  mpinit_loop (length es + fuel) p e ismp c s = mpinit_loop fuel (p + Z.of_nat (length (es ≫= enc))) e ismp c (foldl apply_entry s es).
Proof.
  revert s p. induction es as [|x es IH]; intros s p Hok Hh He; [cbn; by rewrite Z.add_0_r|].
  apply Forall_cons_1 in Hok as [Hx Hok]. cbn [mbind list_bind length foldl Nat.add] in *. rewrite length_app in He. apply holds_app in Hh as [H1 H2].
  rewrite (mpinit_entry _ s c p e ismp x Hx H1) by lia. rewrite IH; [|done| |cbn [mbind list_bind]; lia].
  - rewrite length_app. f_equal. lia.
  - intros i b Hb. rewrite apply_entry_mem. by apply H2.
Qed.

(** The processors and the I/O interrupt controllers of a table. *)
Definition procs (es : list mpentry) : list Z := omap (λ e, match e with EProc id _ => Some id | _ => None end) es.
Definition ioapics (es : list mpentry) : list Z := omap (λ e, match e with EIoapic id _ => Some id | _ => None end) es.

Lemma apply_entries s es :
  length (m_cpus s) = Z.to_nat NCPU → 0 <= m_ncpu s <= NCPU →
  let s' := foldl apply_entry s es in
  m_ncpu s' = Z.min NCPU (m_ncpu s + Z.of_nat (length (procs es))) ∧
  take (Z.to_nat (m_ncpu s')) (m_cpus s') = take (Z.to_nat NCPU) (take (Z.to_nat (m_ncpu s)) (m_cpus s) ++ procs es) ∧
  m_ioapicid s' = default (m_ioapicid s) (last (ioapics es)) ∧
  m_lapic s' = m_lapic s ∧ m_imcr s' = m_imcr s ∧ m_out s' = m_out s ∧ m_mem s' = m_mem s.
Proof.
  revert s. induction es as [|x es IH]; intros s Hl Hn; cbn [foldl].
  { change (procs []) with (@nil Z). change (ioapics []) with (@nil Z). cbn [length last default]. rewrite app_nil_r, take_take. split; [lia|]. split; [|done]. f_equal. lia. }
  destruct x as [id rest|id rest|t rest].
  - change (procs (EProc id rest :: es)) with (id :: procs es). change (ioapics (EProc id rest :: es)) with (ioapics es). cbn [apply_entry length].
    destruct (Z.ltb_spec (m_ncpu s) NCPU) as [Hlt|Hge].
    + destruct (IH (set_cpus (<[Z.to_nat (m_ncpu s) := id]> (m_cpus s)) (m_ncpu s + 1) s)) as (H1 & H2 & H3); cbn [m_cpus m_ncpu set_cpus]; [by rewrite length_insert|lia|].
      cbn [m_cpus m_ncpu m_ioapicid m_lapic m_imcr m_out m_mem set_cpus] in *. split; [rewrite H1; lia|]. split; [|exact H3].
      rewrite H2. f_equal. replace (Z.to_nat (m_ncpu s + 1)) with (S (Z.to_nat (m_ncpu s))) by lia.
      erewrite take_S_r by (apply list_lookup_insert_eq; rewrite Hl; lia). rewrite take_insert_ge by lia. by rewrite <- app_assoc.
    + destruct (IH s Hl Hn) as (H1 & H2 & H3). split; [rewrite H1; lia|]. split; [|exact H3]. rewrite H2. rewrite !take_app_le by (rewrite length_take, Hl; lia). done.
  - change (procs (EIoapic id rest :: es)) with (procs es). change (ioapics (EIoapic id rest :: es)) with (id :: ioapics es). cbn [apply_entry].
    destruct (IH (set_ioapicid id s) Hl Hn) as (H1 & H2 & H3 & H4). split; [exact H1|]. split; [exact H2|]. split; [|exact H4].
    rewrite H3. rewrite last_cons. by destruct (last (ioapics es)).
  - by apply IH.
Qed.

Lemma search_bounds s p :
  (ebda s = 0 → 1024 <= basemem s <= 2 ^ 20) → 0 <= ebda s <= 2 ^ 20 - 1024 →
  p ∈ search_slots s → KERNBASE <= p ∧ p + 16 <= KERNBASE + 2 ^ 20.
Proof.
  intros Hb He Hp.
  assert (∀ a n, 0 <= a → a + 16 * Z.of_nat n <= 2 ^ 20 → p ∈ slots (P2V a) n → KERNBASE <= p ∧ p + 16 <= KERNBASE + 2 ^ 20) as H.
  { intros a n Ha Hn Hin. unfold slots in Hin. apply list_elem_of_fmap in Hin as (k & -> & Hk%elem_of_seq). unfold P2V. rewrite u32_small by (unfold KERNBASE; lia). lia. }
  unfold search_slots in Hp. apply elem_of_app in Hp as [Hp|Hp]; [|by apply (H 983040 4096%nat); [lia|lia|]].
  destruct (Z.eqb_spec (ebda s) 0) as [E0|_]; [|by apply (H (ebda s) 64%nat); [lia|lia|]].
  specialize (Hb E0). apply (H (u32 (basemem s - 1024)) 64%nat); [rewrite u32_small by lia; lia|rewrite u32_small by lia; lia|done].
Qed.

(** A configuration table: a header of 44 bytes, and the entries. *)
Record table_ok (hdr body : list Z) : Prop := {
  tb_length : length hdr = 44%nat;
  tb_sig : take 4 hdr = PCMP_sig;
  tb_version : hdr !! 6%nat = Some 1 ∨ hdr !! 6%nat = Some 4;
  tb_size : rd 2 4 hdr = Z.of_nat (length (hdr ++ body));
  tb_sum : u8 (fold_right Z.add 0 (hdr ++ body)) = 0;
}.

Lemma rd_app_left n off (l l' : list Z) : (off + n <= length l)%nat → rd n off (l ++ l') = rd n off l.
Proof. intros H. unfold rd, slice. rewrite drop_app_le by lia. by rewrite take_app_le by (rewrite length_drop; lia). Qed.

(** What the BIOS leaves: a floating pointer structure where [mpsearch] looks, the first one
    with a correct sum at [mp], and a table where it points. *)
Record bios_ok (s : mpstate) (mp : Z) (hdr body : list Z) : Prop := {
  bo_mapped : mapped s KERNBASE (2 ^ 20);
  bo_basemem : ebda s = 0 → 1024 <= basemem s <= 2 ^ 20;
  bo_ebda : 0 <= ebda s <= 2 ^ 20 - 1024;
  bo_mp : List.find (valid_mp s) (search_slots s) = Some mp;
  bo_phys : rd 4 4 (slot s mp) ≠ 0;
  bo_table : holds s (P2V (rd 4 4 (slot s mp))) (hdr ++ body);
}.

Lemma bios_slot s mp hdr body : bios_ok s mp hdr body → holds s mp (slot s mp).
Proof.
  intros [Hm Hb He Hf _ _]. apply List.find_some in Hf as [Hin _]. apply list_elem_of_In in Hin.
  destruct (search_bounds s mp Hb He Hin). apply holds_slot; unfold KERNBASE in *; [intros x Hx; apply Hm|..]; lia.
Qed.

Lemma bios_header s mp hdr body c :
  bios_ok s mp hdr body → length hdr = 44%nat →
  let conf := P2V (rd 4 4 (slot s mp)) in
  mpsearch c s = Ret (Some mp) c s ∧ mp_physaddr mp c s = Ret (rd 4 4 (slot s mp)) c s ∧
  sig_at conf PCMP_sig c s = Ret (bool_decide (take 4 hdr = PCMP_sig)) c s ∧
  (∀ v, hdr !! 6%nat = Some v → conf_version conf c s = Ret v c s) ∧ conf_length conf c s = Ret (rd 2 4 hdr) c s.
Proof.
  intros Hb Hl conf. subst conf. pose proof (bios_slot _ _ _ _ Hb) as Hs. destruct Hb as [Hm Hbm He Hf Hp Ht].
  split; [rewrite mpsearch_eq by (done || lia); by rewrite Hf|]. split; [apply (ld_eq s mp (slot s mp) c 4 4 Hs); unfold slot; rewrite length_fmap, length_seq; lia|].
  split; [|split].
  - rewrite (sig_at_eq s _ _ c PCMP_sig Ht) by (rewrite length_app, Hl; cbn; lia). change (length PCMP_sig) with 4%nat. by rewrite take_app_le by lia.
  - intros v Hv. apply (ldb_eq s _ _ c 6 v Ht). by apply lookup_app_l_Some.
  - unfold conf_length. rewrite <- (rd_app_left 2 4 hdr body) by lia. apply (ld_eq s _ _ c 4 2 Ht). rewrite length_app. lia.
Qed.

Lemma mpconfig_eq s mp hdr body c :
  bios_ok s mp hdr body → table_ok hdr body → mpconfig c s = Ret (Some (mp, P2V (rd 4 4 (slot s mp)))) c s.
Proof.
  intros Hb [Hl Hsig Hv Hsz Hsum]. destruct (bios_header s mp hdr body c Hb Hl) as (H1 & H2 & H3 & H4 & H5).
  unfold mpconfig. rewrite (bind_eq _ _ _ _ _ _ _ H1), (bind_eq _ _ _ _ _ _ _ H2). rewrite (proj2 (Z.eqb_neq _ _) (bo_phys _ _ _ _ Hb)).
  rewrite (bind_eq _ _ _ _ _ _ _ H3), bool_decide_true by done. cbn [negb].
  assert (∃ v, conf_version (P2V (rd 4 4 (slot s mp))) c s = Ret v c s ∧ negb (v =? 1) && negb (v =? 4) = false) as (v & Hcv & Hneg).
  { destruct Hv as [Hv|Hv]; eexists; (split; [by apply H4|done]). }
  rewrite (bind_eq _ _ _ _ _ _ _ Hcv), Hneg, (bind_eq _ _ _ _ _ _ _ H5), Hsz.
  pose proof (bo_table _ _ _ _ Hb) as Ht.
  by rewrite (bind_eq _ _ _ _ _ _ _ (sum_eq s _ _ c Ht)), Hsum.
Qed.

(** The loop, started by [mpinit]. *)
Lemma mpinit_start s mp hdr body fuel c :
  bios_ok s mp hdr body → table_ok hdr body →
  let conf := P2V (rd 4 4 (slot s mp)) in let s0 := set_lapic (rd 4 36 hdr) s in
  holds s0 (conf + SIZE_mpconf) body ∧
  mpinit fuel c s = (ismp <- mpinit_loop fuel (conf + SIZE_mpconf) (conf + SIZE_mpconf + Z.of_nat (length body)) true ;;
    when (negb ismp) (panic "Didn't find a suitable machine") ;;
    imcrp <- mp_imcrp mp ;;
    when (negb (imcrp =? 0)) (outb 34 112 ;; x <- gets m_imcr ;; outb 35 (Z.lor x 1))) c s0.
Proof.
  intros Hb Htb conf s0. unfold mpinit. rewrite (bind_eq _ _ _ _ _ _ _ (mpconfig_eq s mp hdr body c Hb Htb)). destruct Htb as [Hl Hsig Hv Hsz Hsum].
  destruct (bios_header s mp hdr body c Hb Hl) as (_ & _ & _ & _ & H5). pose proof (bo_table _ _ _ _ Hb) as Ht. fold conf in Ht, H5 |- *.
  assert (holds s0 conf (hdr ++ body)) as Ht0 by (intros i b Hi; by apply Ht).
  assert (conf_lapicaddr conf c s = Ret (rd 4 36 hdr) c s) as H1.
  { unfold conf_lapicaddr. rewrite <- (rd_app_left 4 36 hdr body) by lia. apply (ld_eq s _ _ c 36 4 Ht). rewrite length_app. lia. }
  assert (conf_length conf c s0 = Ret (rd 2 4 hdr) c s0) as H2.
  { unfold conf_length. rewrite <- (rd_app_left 2 4 hdr body) by lia. apply (ld_eq s0 _ _ c 4 2 Ht0). rewrite length_app. lia. }
  split. { apply holds_app in Ht0 as [_ Ht0]. by rewrite Hl in Ht0. }
  rewrite (bind_eq _ _ _ _ _ _ _ H1), (bind_eq _ _ _ _ tt c s0) by done. rewrite (bind_eq _ _ _ _ _ _ _ H2), Hsz, length_app, Hl.
  by replace (conf + Z.of_nat (44 + length body)) with (conf + SIZE_mpconf + Z.of_nat (length body)) by (unfold SIZE_mpconf; lia).
Qed.

(** The state [mpinit] leaves. *)
Definition mp_result (s : mpstate) (mp : Z) (hdr : list Z) (es : list mpentry) : mpstate :=
  let s1 := foldl apply_entry (set_lapic (rd 4 36 hdr) s) es in
  if (slot s mp !!! 12%nat) =? 0 then s1
  else MpState (m_mem s1) (m_cpus s1) (m_ncpu s1) (m_ioapicid s1) (m_lapic s1) (m_imcr s1) ((35, u8 (Z.lor (m_imcr s) 1)) :: (34, 112) :: m_out s1).

Lemma mpinit_eq s mp hdr es fuel c :
  bios_ok s mp hdr (es ≫= enc) → table_ok hdr (es ≫= enc) → Forall entry_ok es → length (m_cpus s) = Z.to_nat NCPU → 0 <= m_ncpu s <= NCPU →
  (length es < fuel)%nat → mpinit fuel c s = Ret tt c (mp_result s mp hdr es).
Proof.
  intros Hb Htb Hes Hcpus Hn Hf. destruct (mpinit_start s mp hdr _ fuel c Hb Htb) as [Ht ->]. pose proof (bios_slot _ _ _ _ Hb) as Hs.
  set (conf := P2V _) in *. set (s0 := set_lapic _ s) in *.
  assert (mpinit_loop fuel (conf + SIZE_mpconf) (conf + SIZE_mpconf + Z.of_nat (length (es ≫= enc))) true c s0 = Ret true c (foldl apply_entry s0 es)) as Hloop.
  { replace fuel with (length es + S (fuel - length es - 1))%nat by lia. rewrite mpinit_entries by (first [done|lia]). cbn [mpinit_loop]. by rewrite Z.ltb_irrefl. }
  rewrite (bind_eq _ _ _ _ _ _ _ Hloop). cbn [negb when]. rewrite (bind_eq _ _ _ _ tt c (foldl apply_entry s0 es)) by done.
  destruct (apply_entries s0 es Hcpus Hn) as (_ & _ & _ & _ & Himcr & _ & Hmem). unfold mp_result. fold s0. set (s1 := foldl apply_entry s0 es) in *.
  assert (mp_imcrp mp c s1 = Ret (slot s mp !!! 12%nat) c s1) as Hi.
  { unfold mp_imcrp. apply (ldb_eq s1 mp (slot s mp) c 12). { intros i b Hi. rewrite Hmem. by apply Hs. }
    apply list_lookup_lookup_total_lt. unfold slot. rewrite length_fmap, length_seq. lia. }
  rewrite (bind_eq _ _ _ _ _ _ _ Hi). destruct (_ =? 0); [done|]. cbn [negb when]. unfold outb, bind, modify, gets. cbn [m_imcr m_mem m_cpus m_ncpu m_ioapicid m_lapic m_out].
  by rewrite Himcr.
Qed.

(** C35: [mpinit] finds the processors.  The BIOS has left a floating pointer structure where the
    specification says, and a configuration table with a correct signature, version, length
    and sum.  Then [mpinit] returns, [cpus] has the identifiers of the first [NCPU]
    processors of the table in their order, [ncpu] is their number, [ioapicid] is the last I/O
    interrupt controller of the table and [lapic] the address in its header; and external
    interrupts are masked at the mode register if there is one. *)
Theorem mpinit_finds_cpus s mp hdr es fuel c :
  bios_ok s mp hdr (es ≫= enc) → table_ok hdr (es ≫= enc) → Forall entry_ok es → length (m_cpus s) = Z.to_nat NCPU → m_ncpu s = 0 → (length es < fuel)%nat →
  ∃ s', mpinit fuel c s = Ret tt c s' ∧
    m_ncpu s' = Z.min NCPU (Z.of_nat (length (procs es))) ∧
    take (Z.to_nat (m_ncpu s')) (m_cpus s') = take (Z.to_nat NCPU) (procs es) ∧
    m_ioapicid s' = default (m_ioapicid s) (last (ioapics es)) ∧ m_lapic s' = rd 4 36 hdr ∧
    m_out s' = (if (slot s mp !!! 12%nat) =? 0 then [] else [(35, u8 (Z.lor (m_imcr s) 1)); (34, 112)]) ++ m_out s.
Proof.
  intros Hb Htb Hes Hcpus Hn Hf. exists (mp_result s mp hdr es). split; [apply mpinit_eq; try done; rewrite Hn; unfold NCPU; lia|].
  destruct (apply_entries (set_lapic (rd 4 36 hdr) s) es) as (H1 & H2 & H3 & H4 & H5 & H6 & _); [done|cbn [m_ncpu set_lapic]; rewrite Hn; unfold NCPU; lia|].
  cbn [m_ncpu m_cpus m_ioapicid m_lapic m_out set_lapic] in *. rewrite Hn in *. cbn [Z.to_nat take app] in H2. unfold mp_result.
  destruct (_ =? 0); cbn [m_ncpu m_cpus m_ioapicid m_lapic m_out app]; (split; [rewrite H1; lia|]; split; [exact H2|]; split; [exact H3|]; split; [exact H4|]); by rewrite H6.
Qed.

(** The loop does not get past an entry of another type. *)
Lemma mpinit_loop_stuck fuel s c p e ismp t :
  m_mem s (u32 p) = Some t → MPLINTR < t → p < e → mpinit_loop fuel p e ismp c s = Hang.
Proof.
  intros Ht Hlt He. revert ismp. induction fuel as [|fuel IH]; intros ismp; [done|]. cbn [mpinit_loop]. rewrite (proj2 (Z.ltb_lt p e)) by lia.
  rewrite (bind_eq _ _ _ _ t c s) by (unfold ldb, bind, get; by rewrite Ht). unfold MPPROC, MPIOAPIC, MPBUS, MPIOINTR, MPLINTR in *.
  rewrite !(proj2 (Z.eqb_neq t _)) by lia. cbn [orb]. apply IH.
Qed.

Lemma mpinit_loop_hangs es fuel s c p e ismp t rest :
  Forall entry_ok es → holds s p ((es ≫= enc) ++ t :: rest) → MPLINTR < t → p + Z.of_nat (length (es ≫= enc)) < e →
  mpinit_loop fuel p e ismp c s = Hang.
Proof.
  revert fuel s p. induction es as [|x es IH]; intros fuel s p Hok Hh Ht He.
  { cbn [mbind list_bind app length] in *. apply holds_cons in Hh as [Hh _]. by eapply mpinit_loop_stuck; [|done|lia]. }
  destruct fuel as [|fuel]; [done|]. apply Forall_cons_1 in Hok as [Hx Hok]. cbn [mbind list_bind] in *. rewrite length_app in He.
  rewrite <- app_assoc in Hh. apply holds_app in Hh as [H1 H2]. rewrite (mpinit_entry _ s c p e ismp x Hx H1) by lia.
  apply IH; [done| |done|cbn [mbind list_bind]; lia]. intros i b Hb. rewrite apply_entry_mem. by apply H2.
Qed.

(** An entry type that [mpinit] does not know makes it loop forever: the [break] after
    [ismp = 0] leaves the [switch] but not the loop, and the entry is looked at again.  The
    panic behind the loop is never reached. *)
Theorem mpinit_unknown_entry_hangs s mp hdr es t rest fuel c :
  bios_ok s mp hdr ((es ≫= enc) ++ t :: rest) → table_ok hdr ((es ≫= enc) ++ t :: rest) → Forall entry_ok es → MPLINTR < t →
  mpinit fuel c s = Hang.
Proof.
  intros Hb Htb Hes Hlt. destruct (mpinit_start s mp hdr _ fuel c Hb Htb) as [Ht ->]. set (conf := P2V _) in *. set (s0 := set_lapic _ s) in *.
  unfold bind at 1. rewrite (mpinit_loop_hangs es fuel s0 c _ _ true t rest); [done|done|done|done|]. rewrite length_app. cbn [length]. lia.
Qed.

(** * A machine with two processors *)

(** A list of bytes whose byte [k] makes the sum 0. *)
Definition with_sum (k : nat) (l : list Z) : list Z := <[k := u8 (- fold_right Z.add 0 l)]> l.
Definition ex_entries : list mpentry :=
  [EProc 5 (replicate 18 0); EOther MPBUS (replicate 7 0); EIoapic 2 (replicate 6 0); EProc 7 (replicate 18 0)].
Definition ex_table (body : list Z) : list Z :=
  with_sum 7 ((PCMP_sig ++ le_bytes 2 (44 + Z.of_nat (length body)) ++ [4; 0] ++ replicate 28 0 ++ le_bytes 4 4276092928 ++ replicate 4 0) ++ body).
Definition ex_mp : list Z := with_sum 10 (MP_sig ++ le_bytes 4 654592 ++ [1; 4; 0; 0; 128; 0; 0; 0]).
(** The data area is at 0x9fc00 and has the structure; the table is 256 bytes behind. *)
Definition ex_bytes (body : list Z) (o : Z) : Z :=
  if o =? 1039 then 159 else if o =? 1038 then 192
  else if (654336 <=? o) && (o <? 654352) then ex_mp !!! Z.to_nat (o - 654336)
  else if (654592 <=? o) && (o <? 655360) then default 0 (ex_table body !! Z.to_nat (o - 654592))
  else 0.
Definition ex_state (body : list Z) : mpstate :=
  MpState (λ x, if (KERNBASE <=? x) && (x <? KERNBASE + 2 ^ 20) then Some (ex_bytes body (x - KERNBASE)) else None) (replicate 8 0) 0 0 0 0 [].

Lemma ex_bios body :
  ebda (ex_state body) = 654336 → List.find (valid_mp (ex_state body)) (search_slots (ex_state body)) = Some (KERNBASE + 654336) →
  rd 4 4 (slot (ex_state body) (KERNBASE + 654336)) = 654592 → (44 + length body <= 700)%nat →
  forallb (λ i, bool_decide (m_mem (ex_state body) (u32 (P2V 654592 + Z.of_nat i)) = ex_table body !! i)) (seq 0 (44 + length body)) = true →
  length (ex_table body) = (44 + length body)%nat → drop 44 (ex_table body) = body →
  bios_ok (ex_state body) (KERNBASE + 654336) (take 44 (ex_table body)) body.
Proof.
  intros He Hf Hp Hl Ht Hlen Hd. split.
  - intros x Hx. cbn [m_mem ex_state]. rewrite (proj2 (Z.leb_le _ _)), (proj2 (Z.ltb_lt _ _)) by lia. by eexists.
  - rewrite He. lia.
  - rewrite He. lia.
  - exact Hf.
  - rewrite Hp. lia.
  - assert (take 44 (ex_table body) ++ body = ex_table body) as -> by (rewrite <- (take_drop 44 (ex_table body)) at 2; by rewrite Hd).
    rewrite Hp. intros i b Hb. rewrite forallb_forall in Ht. apply lookup_lt_Some in Hb as Hi. rewrite Hlen in Hi.
    specialize (Ht i ltac:(apply in_seq; lia)). apply bool_decide_eq_true in Ht. by rewrite Ht.
Qed.

Lemma mpinit_finds_cpus_witness :
  ∃ s', mpinit 5 (cpu0 0) (ex_state (ex_entries ≫= enc)) = Ret tt (cpu0 0) s' ∧
    m_ncpu s' = 2 ∧ take 2 (m_cpus s') = [5; 7] ∧ m_ioapicid s' = 2 ∧ m_lapic s' = 4276092928 ∧ m_out s' = [(35, 1); (34, 112)].
Proof.
  destruct (mpinit_finds_cpus (ex_state (ex_entries ≫= enc)) (KERNBASE + 654336) (take 44 (ex_table (ex_entries ≫= enc))) ex_entries 5 (cpu0 0))
    as (s' & Heq & H1 & H2 & H3 & H4 & H5).
  - apply (ex_bios (ex_entries ≫= enc)); first [vm_compute; reflexivity|cbn; lia].
  - split; first [vm_compute; reflexivity|right; vm_compute; reflexivity].
  - repeat constructor.
  - reflexivity.
  - reflexivity.
  - cbn. lia.
  - exists s'. split; [exact Heq|]. split; [exact H1|]. split; [rewrite H1 in H2; exact H2|]. split; [exact H3|]. split; [rewrite H4; vm_compute; reflexivity|rewrite H5; vm_compute; reflexivity].
Defined.

Lemma mpinit_unknown_entry_hangs_witness :
  mpinit 1000 (cpu0 0) (ex_state ((ex_entries ≫= enc) ++ [128; 0; 0; 0; 0; 0; 0; 0])) = Hang.
Proof.
  apply (mpinit_unknown_entry_hangs _ (KERNBASE + 654336) (take 44 (ex_table ((ex_entries ≫= enc) ++ [128; 0; 0; 0; 0; 0; 0; 0]))) ex_entries 128 [0; 0; 0; 0; 0; 0; 0]).
  - apply (ex_bios ((ex_entries ≫= enc) ++ [128; 0; 0; 0; 0; 0; 0; 0])); first [vm_compute; reflexivity|cbn; lia].
  - split; first [vm_compute; reflexivity|right; vm_compute; reflexivity].
  - repeat constructor.
  - reflexivity.
Defined.
