(* ===== verification/Lapic.v ===== *)
(** The interrupt controllers and the real-time clock ([lapic.c], [ioapic.c], [picirq.c]). *)
From stdpp Require Import base list numbers strings.
From Stdlib Require Import ZArith Lia.
From S2P Require Import Prelude Params Machine Kalloc Trap.
Local Open Scope Z_scope.
Local Open Scope xv6_scope.

(** * The real-time clock *)

(** [struct rtcdate]. *)
Record rtcdate := Rtcdate { second : Z; minute : Z; hour : Z; day : Z; month : Z; year : Z }.
#[global] Instance rtcdate_eq_dec : EqDecision rtcdate.
Proof. solve_decision. Defined.

Definition CMOS_STATA : Z := 10.
Definition CMOS_STATB : Z := 11.
Definition CMOS_UIP : Z := Z.shiftl 1 7.
Definition SECS : Z := 0.
Definition MINS : Z := 2.
Definition HOURS : Z := 4.
Definition DAY : Z := 7.
Definition MONTH : Z := 8.
Definition YEAR : Z := 9.

Section cmos.
(** What register [reg] shows at the [k]-th read; the state is the number of reads. *)
Context (clock : nat → Z → Z).

Definition cmos_read (reg : Z) : M nat Z := k <- get ;; modify S ;; ret (clock k reg).

Definition fill_rtcdate : M nat rtcdate :=
  s <- cmos_read SECS ;; mi <- cmos_read MINS ;; h <- cmos_read HOURS ;;
  d <- cmos_read DAY ;; mo <- cmos_read MONTH ;; y <- cmos_read YEAR ;;
  ret (Rtcdate s mi h d mo y).

(** make sure CMOS doesn't modify time while we read it *)
Fixpoint cmostime_loop (fuel : nat) : M nat rtcdate :=
  match fuel with
  | O => hang
  | S fuel' =>
      t1 <- fill_rtcdate ;;
      a <- cmos_read CMOS_STATA ;;
      if negb (Z.land a CMOS_UIP =? 0) then cmostime_loop fuel'
      else
        t2 <- fill_rtcdate ;;
        if bool_decide (t1 = t2) then ret t1 else cmostime_loop fuel'
  end.

Definition CONV (x : Z) : Z := u32 (Z.shiftr x 4 * 10 + Z.land x 15).

Definition cmostime (fuel : nat) : M nat rtcdate :=
  sb <- cmos_read CMOS_STATB ;;
  let bcd := Z.land sb (Z.shiftl 1 2) =? 0 in
  t1 <- cmostime_loop fuel ;;
  let r := if bcd : bool then Rtcdate (CONV (second t1)) (CONV (minute t1)) (CONV (hour t1)) (CONV (day t1)) (CONV (month t1)) (CONV (year t1)) else t1 in
  ret (Rtcdate (second r) (minute r) (hour r) (day r) (month r) (u32 (year r + 2000))).

(** ** The time that is read *)

Definition shown (k : nat) : rtcdate :=
  Rtcdate (clock k SECS) (clock k MINS) (clock k HOURS) (clock k DAY) (clock k MONTH) (clock k YEAR).
(** The six registers, each at its own read. *)
Definition swept (k : nat) : rtcdate :=
  Rtcdate (clock k SECS) (clock (k + 1) MINS) (clock (k + 2) HOURS) (clock (k + 3) DAY) (clock (k + 4) MONTH) (clock (k + 5) YEAR).

Lemma fill_rtcdate_eq c k : fill_rtcdate c k = Ret (swept k) c (k + 6)%nat.
Proof. unfold fill_rtcdate, swept, cmos_read, bind, get, modify, ret. rewrite !Nat.add_succ_r, Nat.add_0_r. done. Qed.

Lemma cmostime_loop_S fuel c k :
  cmostime_loop (S fuel) c k =
  if negb (Z.land (clock (k + 6) CMOS_STATA) CMOS_UIP =? 0) then cmostime_loop fuel c (k + 7)%nat
  else if bool_decide (swept k = swept (k + 7)) then Ret (swept k) c (k + 13)%nat else cmostime_loop fuel c (k + 13)%nat.
Proof.
  cbn [cmostime_loop]. rewrite (bind_eq _ _ _ _ _ _ _ (fill_rtcdate_eq c k)).
  rewrite (bind_eq _ _ _ _ (clock (k + 6) CMOS_STATA) c (k + 7)%nat) by (unfold cmos_read, bind, get, modify, ret; do 2 f_equal; lia).
  destruct (negb _); [done|]. rewrite (bind_eq _ _ _ _ _ _ _ (fill_rtcdate_eq c (k + 7))). rewrite <- Nat.add_assoc.
  by case_bool_decide.
Qed.

(** The registers change at most once in thirteen reads. *)
Definition slow : Prop := ∀ k, ∃ m, ∀ j, (j < 13)%nat → shown (k + j) = if decide (j < m)%nat then shown k else shown (k + 12).

Lemma swept_shown k d : (∀ j, (j < 6)%nat → shown (k + j) = d) → swept k = d.
Proof.
  intros H. assert (∀ j, (j < 6)%nat → shown (k + j) = d) as H' by done. unfold swept.
  pose proof (H 0%nat ltac:(lia)) as H0. pose proof (H 1%nat ltac:(lia)) as H1. pose proof (H 2%nat ltac:(lia)) as H2.
  pose proof (H 3%nat ltac:(lia)) as H3. pose proof (H 4%nat ltac:(lia)) as H4. pose proof (H 5%nat ltac:(lia)) as H5.
  rewrite Nat.add_0_r in H0. destruct d. unfold shown in *. congruence.
Qed.

(** Two equal readings are not torn. *)
Lemma not_torn k : slow → swept k = swept (k + 7) → ∃ j, swept k = shown j.
Proof.
  intros Hs Heq. destruct (Hs k) as [m Hm]. destruct (decide (m < 7)%nat).
  - exists (k + 12)%nat. rewrite Heq. apply swept_shown. intros j Hj. rewrite <- Nat.add_assoc, Hm by lia. by rewrite decide_False by lia.
  - exists k. apply swept_shown. intros j Hj. rewrite Hm by lia. by rewrite decide_True by lia.
Qed.

(** A stretch without a change, long enough for a whole turn of the loop. *)
Definition quiet (K : nat) : Prop :=
  ∀ j, (K <= j < K + 26)%nat → shown j = shown K ∧ Z.land (clock j CMOS_STATA) CMOS_UIP = 0.

Lemma cmostime_loop_returns K fuel k c :
  slow → quiet K → (k < K + 13)%nat → (K + 13 <= k + 7 * fuel)%nat →
  ∃ j k', cmostime_loop fuel c k = Ret (shown j) c k'.
Proof.
  intros Hs Hq. revert k. induction fuel as [|fuel IH]; intros k Hk Hf; [lia|]. rewrite cmostime_loop_S.
  destruct (negb _) eqn:Eu.
  { destruct (decide (K <= k)%nat).
    - destruct (Hq (k + 6)%nat ltac:(lia)) as [_ E]. by rewrite E in Eu.
    - apply IH; lia. }
  case_bool_decide as Ht.
  { destruct (not_torn k Hs Ht) as [j ->]. by exists j, (k + 13)%nat. }
  destruct (decide (K <= k)%nat).
  - exfalso. apply Ht. rewrite !(swept_shown _ (shown K)); [done|..]; intros j Hj; apply Hq; lia.
  - apply IH; lia.
Qed.
End cmos.

Lemma CONV_bcd n : 0 <= n < 100 → CONV (16 * (n / 10) + n mod 10) = n.
Proof.
  intros Hn. pose proof (Z.div_mod n 10 ltac:(lia)). pose proof (Z.mod_pos_bound n 10 ltac:(lia)). assert (0 <= n / 10 < 10) by (split; [apply Z.div_pos; lia|apply Z.div_lt_upper_bound; lia]).
  unfold CONV. rewrite Z.shiftr_div_pow2 by lia. change (2 ^ 4) with 16. change 15 with (Z.ones 4). rewrite Z.land_ones by lia. change (2 ^ 4) with 16.
  rewrite (Z.mul_comm 16), Z.div_add_l by lia. rewrite (Z.div_small (n mod 10)) by lia. rewrite (Z.add_comm (n / 10 * 16)), Z.mod_add, Z.mod_small by lia.
  rewrite u32_small by lia. lia.
Qed.

(** How a clock encodes a number below 100. *)
Definition rtc_enc (bcd : bool) (n : Z) : Z := if bcd then 16 * (n / 10) + n mod 10 else n.
Definition rtc_shows (bcd : bool) (d : rtcdate) : rtcdate :=
  Rtcdate (rtc_enc bcd (second d)) (rtc_enc bcd (minute d)) (rtc_enc bcd (hour d)) (rtc_enc bcd (day d)) (rtc_enc bcd (month d)) (rtc_enc bcd (year d)).
Definition small_date (d : rtcdate) : Prop :=
  Forall (λ x, 0 <= x < 100) [second d; minute d; hour d; day d; month d; year d].

(** C21: [cmostime] returns a time that the clock showed.  The clock shows [date k] at the [k]-th
    read of a register, in the encoding its status register B tells; it changes at most once in
    any thirteen reads, the length of a turn of the loop, and somewhere it does not change and
    is not being updated for two turns.  Then the call returns, and the result is the date at one
    of the reads, in the 21st century: a mixture of two dates is never returned. *)
Theorem cmostime_not_torn clock date bcd K fuel c :
  (∀ k, shown clock k = rtc_shows bcd (date k)) → (∀ k, small_date (date k)) →
  bcd = (Z.land (clock 0%nat CMOS_STATB) 4 =? 0) → slow clock → quiet clock K → (K + 12 <= 7 * fuel)%nat → (0 < fuel)%nat →
  ∃ k n, cmostime clock fuel c 0%nat =
    Ret (Rtcdate (second (date k)) (minute (date k)) (hour (date k)) (day (date k)) (month (date k)) (year (date k) + 2000)) c n.
Proof.
  intros Hd Hsm Hb Hs Hq Hf Hf0. destruct (cmostime_loop_returns clock K fuel 1 c Hs Hq) as (j & n & Heq); [lia|lia|].
  exists j, n. unfold cmostime. rewrite (bind_eq _ _ _ _ (clock 0%nat CMOS_STATB) c 1%nat) by done. change (Z.shiftl 1 2) with 4. rewrite <- Hb.
  rewrite (bind_eq _ _ _ _ _ _ _ Heq), Hd. specialize (Hsm j). unfold small_date in Hsm. rewrite !Forall_cons in Hsm. destruct Hsm as (H1 & H2 & H3 & H4 & H5 & H6 & _).
  destruct bcd; cbn [rtc_shows rtc_enc second minute hour day month year]; rewrite ?CONV_bcd by done; by rewrite u32_small by lia.
Qed.

(** A clock that turns from the last second of 2023 to the first of 2024 at the ninth read. *)
Definition ex_date (k : nat) : rtcdate := if decide (k < 9)%nat then Rtcdate 59 59 23 31 12 23 else Rtcdate 0 0 0 1 1 24.
Definition ex_clock (k : nat) (reg : Z) : Z :=
  let d := rtc_shows true (ex_date k) in
  if reg =? SECS then second d else if reg =? MINS then minute d else if reg =? HOURS then hour d
  else if reg =? DAY then day d else if reg =? MONTH then month d else if reg =? YEAR then year d else 0.

Lemma cmostime_not_torn_witness :
  ∃ k n, cmostime ex_clock 3 (cpu0 0) 0%nat =
    Ret (Rtcdate (second (ex_date k)) (minute (ex_date k)) (hour (ex_date k)) (day (ex_date k)) (month (ex_date k)) (year (ex_date k) + 2000)) (cpu0 0) n.
Proof.
  assert (∀ k, shown ex_clock k = rtc_shows true (ex_date k)) as Hshown by (intros k; reflexivity).
  apply (cmostime_not_torn ex_clock ex_date true 9 3 (cpu0 0)).
  - exact Hshown.
  - intros k. unfold ex_date. destruct (decide (k < 9)%nat); repeat constructor; cbn; lia.
  - reflexivity.
  - intros k. exists (9 - k)%nat. intros j Hj. rewrite !Hshown. unfold ex_date. repeat destruct (decide _); try lia; reflexivity.
  - intros j Hj. rewrite !Hshown. unfold ex_date. rewrite !decide_False by lia. split; reflexivity.
  - lia.
  - lia.
Defined.

(** * The local interrupt controller *)

(** Its registers, by index; [lapic != 0]; the reads of the command register that still show a
    delivery in progress; the port writes, the last one first, and the warm reset vector. *)
Record lapic := Lapic {
  lp_on : bool;
  lp_reg : Z → Z;
  lp_busy : nat;
  lp_out : list (Z * Z);
  lp_wrv : Z * Z;
}.

Definition ID : Z := 32 / 4.
Definition VER : Z := 48 / 4.
Definition TPR : Z := 128 / 4.
Definition EOI : Z := 176 / 4.
Definition SVR : Z := 240 / 4.
Definition ENABLE : Z := 256.
Definition ESR : Z := 640 / 4.
Definition ICRLO : Z := 768 / 4.
Definition INIT : Z := 1280.
Definition STARTUP : Z := 1536.
Definition DELIVS : Z := 4096.
Definition ASSERT : Z := 16384.
Definition LEVEL : Z := 32768.
Definition BCAST : Z := 524288.
Definition ICRHI : Z := 784 / 4.
Definition TIMER : Z := 800 / 4.
Definition X1 : Z := 11.
Definition PERIODIC : Z := 131072.
Definition PCINT : Z := 832 / 4.
Definition LINT0 : Z := 848 / 4.
Definition LINT1 : Z := 864 / 4.
Definition ERROR : Z := 880 / 4.
Definition MASKED : Z := 65536.
Definition TICR : Z := 896 / 4.
Definition TDCR : Z := 992 / 4.
Definition IRQ_ERROR : Z := 19.
Definition CMOS_PORT : Z := 112.

Definition set_reg (i x : Z) (f : Z → Z) : Z → Z := λ j, if j =? i then x else f j.

Definition lapicw (index value : Z) : M lapic unit :=
  modify (λ s, Lapic (lp_on s) (set_reg index (u32 value) (lp_reg s)) (lp_busy s) (lp_out s) (lp_wrv s)).
Definition lapicr (index : Z) : M lapic Z := gets (λ s, lp_reg s index).
Definition lap_outb (port x : Z) : M lapic unit :=
  modify (λ s, Lapic (lp_on s) (lp_reg s) (lp_busy s) ((port, u8 x) :: lp_out s) (lp_wrv s)).

(** [lapic[ICRLO] & DELIVS]: the controller shows a delivery in progress for some reads. *)
Definition icr_delivs : M lapic bool :=
  n <- gets lp_busy ;;
  modify (λ s, Lapic (lp_on s) (lp_reg s) (pred (lp_busy s)) (lp_out s) (lp_wrv s)) ;;
  ret (negb (n =? 0)%nat).
Fixpoint icr_wait (fuel : nat) : M lapic unit :=
  match fuel with O => hang | S fuel' => b <- icr_delivs ;; if b : bool then icr_wait fuel' else ret tt end.

Definition lapicinit (fuel : nat) : M lapic unit :=
  on <- gets lp_on ;;
  if negb on then ret tt
  else
    (* Enable local APIC; set spurious interrupt vector. *)
    lapicw SVR (Z.lor ENABLE (T_IRQ0 + IRQ_SPURIOUS)) ;;
    (* The timer repeatedly counts down at bus frequency from lapic[TICR] and then issues
       an interrupt. *)
    lapicw TDCR X1 ;;
    lapicw TIMER (Z.lor PERIODIC (T_IRQ0 + IRQ_TIMER)) ;;
    lapicw TICR 10000000 ;;
    (* Disable logical interrupt lines. *)
    lapicw LINT0 MASKED ;;
    lapicw LINT1 MASKED ;;
    (* Disable performance counter overflow interrupts. *)
    v <- lapicr VER ;;
    when (4 <=? Z.land (Z.shiftr v 16) 255) (lapicw PCINT MASKED) ;;
    (* Map error interrupt to IRQ_ERROR. *)
    lapicw ERROR (T_IRQ0 + IRQ_ERROR) ;;
    (* Clear error status register (requires back-to-back writes). *)
    lapicw ESR 0 ;;
    lapicw ESR 0 ;;
    (* Ack any outstanding interrupts. *)
    lapicw EOI 0 ;;
    (* Send an Init Level De-Assert to synchronise arbitration ID's. *)
    lapicw ICRHI 0 ;;
    lapicw ICRLO (Z.lor (Z.lor BCAST INIT) LEVEL) ;;
    icr_wait fuel ;;
    (* Enable interrupts on the APIC (but not on the processor). *)
    lapicw TPR 0.

Definition lapicid : M lapic Z :=
  on <- gets lp_on ;;
  if negb on then ret 0 else x <- lapicr ID ;; ret (Z.shiftr x 24).

Definition lapiceoi : M lapic unit := on <- gets lp_on ;; when on (lapicw EOI 0).

(** Start additional processor running entry code at addr. *)
Definition lapicstartap (apicid addr : Z) : M lapic unit :=
  lap_outb CMOS_PORT 15 ;;   (* offset 0xF is shutdown code *)
  lap_outb (CMOS_PORT + 1) 10 ;;
  modify (λ s, Lapic (lp_on s) (lp_reg s) (lp_busy s) (lp_out s) (0, u16 (Z.shiftr addr 4))) ;;   (* Warm reset vector *)
  (* Send INIT (level-triggered) interrupt to reset other CPU. *)
  lapicw ICRHI (Z.shiftl apicid 24) ;;
  lapicw ICRLO (Z.lor (Z.lor INIT LEVEL) ASSERT) ;;
  lapicw ICRLO (Z.lor INIT LEVEL) ;;
  (* Send startup IPI (twice!) to enter code. *)
  for_each [0%nat; 1%nat] (λ _, lapicw ICRHI (Z.shiftl apicid 24) ;; lapicw ICRLO (Z.lor STARTUP (Z.shiftr addr 12))).

(** [picirq.c]: the old interrupt controllers are not used. *)
Definition picinit : M lapic unit :=
  (* mask all interrupts *)
  lap_outb (0x20 + 1) 0xFF ;;
  lap_outb (0xA0 + 1) 0xFF.

(** * The I/O interrupt controller *)

(** The register that is selected, the registers, [ioapicid] and the messages printed. *)
Record ioapic := Ioapic { io_sel : Z; io_reg : Z → Z; io_id : Z; io_msgs : list string }.

Definition REG_ID : Z := 0.
Definition REG_VER : Z := 1.
Definition REG_TABLE : Z := 16.
Definition INT_DISABLED : Z := 65536.

Definition ioapicread (reg : Z) : M ioapic Z :=
  modify (λ s, Ioapic reg (io_reg s) (io_id s) (io_msgs s)) ;; gets (λ s, io_reg s (io_sel s)).
Definition ioapicwrite (reg data : Z) : M ioapic unit :=
  modify (λ s, Ioapic reg (io_reg s) (io_id s) (io_msgs s)) ;;
  modify (λ s, Ioapic (io_sel s) (set_reg (io_sel s) (u32 data) (io_reg s)) (io_id s) (io_msgs s)).

Definition ioapicinit : M ioapic unit :=
  v <- ioapicread REG_VER ;;
  let maxintr := Z.land (Z.shiftr v 16) 255 in
  x <- ioapicread REG_ID ;;
  let id := Z.shiftr x 24 in
  s <- get ;;
  when (negb (id =? io_id s))
    (modify (λ s, Ioapic (io_sel s) (io_reg s) (io_id s) ("ioapicinit: id isn't equal to ioapicid; not a MP"%string :: io_msgs s))) ;;
  (* Mark all interrupts edge-triggered, active high, disabled, and not routed to any CPUs. *)
  for_each (seqZ 0 (maxintr + 1)) (λ i,
    ioapicwrite (REG_TABLE + 2 * i) (Z.lor INT_DISABLED (T_IRQ0 + i)) ;;
    ioapicwrite (REG_TABLE + 2 * i + 1) 0).

Definition ioapicenable (irq cpunum : Z) : M ioapic unit :=
  (* Mark interrupt edge-triggered, active high, enabled, and routed to the given cpunum,
     which happens to be that cpu's APIC ID. *)
  ioapicwrite (REG_TABLE + 2 * irq) (T_IRQ0 + irq) ;;
  ioapicwrite (REG_TABLE + 2 * irq + 1) (Z.shiftl cpunum 24).

(** Entry [i] of the redirection table. *)
Definition redir (s : ioapic) (i : Z) : Z * Z := (io_reg s (REG_TABLE + 2 * i), io_reg s (REG_TABLE + 2 * i + 1)).

(** Writing an entry changes no other. *)
Lemma ioapic_entry c s i low high :
  0 <= i → ∃ s', (ioapicwrite (REG_TABLE + 2 * i) low ;; ioapicwrite (REG_TABLE + 2 * i + 1) high) c s = Ret tt c s' ∧
    ∀ j, 0 <= j → redir s' j = if j =? i then (u32 low, u32 high) else redir s j.
Proof.
  intros Hi. eexists. split; [reflexivity|]. intros j Hj. unfold redir, set_reg, REG_TABLE. cbn [io_reg io_sel].
  destruct (Z.eqb_spec j i) as [->|Hne].
  - rewrite !Z.eqb_refl. by rewrite (proj2 (Z.eqb_neq (16 + 2 * i) (16 + 2 * i + 1))) by lia.
  - rewrite (proj2 (Z.eqb_neq (16 + 2 * j) (16 + 2 * i + 1))) by lia. rewrite (proj2 (Z.eqb_neq (16 + 2 * j) (16 + 2 * i))) by lia.
    rewrite (proj2 (Z.eqb_neq (16 + 2 * j + 1) (16 + 2 * i + 1))) by lia. by rewrite (proj2 (Z.eqb_neq (16 + 2 * j + 1) (16 + 2 * i))) by lia.
Qed.

(** The processor an interrupt is routed to by a list of calls of [ioapicenable]: the last one
    counts. *)
Fixpoint route (l : list (Z * Z)) (irq : Z) : option Z :=
  match l with
  | [] => None
  | (i, cpu) :: l' => match route l' irq with Some x => Some x | None => if irq =? i then Some cpu else None end
  end.

Lemma ioapic_disable n c s :
  ∃ s', for_each (seqZ 0 (Z.of_nat n)) (λ i, ioapicwrite (REG_TABLE + 2 * i) (Z.lor INT_DISABLED (T_IRQ0 + i)) ;; ioapicwrite (REG_TABLE + 2 * i + 1) 0) c s = Ret tt c s' ∧
    ∀ j, 0 <= j → redir s' j = if j <? Z.of_nat n then (u32 (Z.lor INT_DISABLED (T_IRQ0 + j)), 0) else redir s j.
Proof.
  assert (∀ m k s, 0 <= k → ∃ s', for_each (seqZ k (Z.of_nat m)) (λ i, ioapicwrite (REG_TABLE + 2 * i) (Z.lor INT_DISABLED (T_IRQ0 + i)) ;; ioapicwrite (REG_TABLE + 2 * i + 1) 0) c s = Ret tt c s' ∧
    ∀ j, 0 <= j → redir s' j = if (k <=? j) && (j <? k + Z.of_nat m) then (u32 (Z.lor INT_DISABLED (T_IRQ0 + j)), 0) else redir s j) as H.
  { induction m as [|m IH]; intros k t Hk.
    - exists t. split; [done|]. intros j Hj. destruct (Z.leb_spec k j), (Z.ltb_spec j (k + Z.of_nat 0)); try done. lia.
    - rewrite seqZ_cons by lia. replace (Z.pred (Z.of_nat (S m))) with (Z.of_nat m) by lia. cbn [for_each].
      destruct (ioapic_entry c t k (Z.lor INT_DISABLED (T_IRQ0 + k)) 0 Hk) as (t1 & E1 & H1). rewrite (bind_eq _ _ _ _ _ _ _ E1).
      destruct (IH (Z.succ k) t1 ltac:(lia)) as (t2 & E2 & H2). exists t2. split; [exact E2|]. intros j Hj. rewrite H2, H1 by lia.
      destruct (Z.leb_spec (Z.succ k) j), (Z.ltb_spec j (Z.succ k + Z.of_nat m)), (Z.leb_spec k j), (Z.ltb_spec j (k + Z.of_nat (S m))), (Z.eqb_spec j k); cbn [andb]; subst; try done; lia. }
  destruct (H n 0 s ltac:(lia)) as (s' & E & H'). exists s'. split; [exact E|]. intros j Hj. rewrite H' by done. rewrite (proj2 (Z.leb_le 0 j)) by done. done.
Qed.

Lemma ioapic_enable_all l c s :
  Forall (λ e, 0 <= e.1 < 240 ∧ 0 <= e.2 < 256) l →
  ∃ s', for_each l (λ e, ioapicenable e.1 e.2) c s = Ret tt c s' ∧
    ∀ j, 0 <= j → redir s' j = match route l j with Some cpu => (T_IRQ0 + j, Z.shiftl cpu 24) | None => redir s j end.
Proof.
  revert s. induction l as [|[i cpu] l IH]; intros s Hok; [by exists s|]. apply Forall_cons_1 in Hok as [[Hi Hcpu] Hok]. cbn [fst snd] in *. cbn [for_each].
  destruct (ioapic_entry c s i (T_IRQ0 + i) (Z.shiftl cpu 24) ltac:(lia)) as (s1 & E1 & H1). unfold ioapicenable at 1. cbn [fst snd]. rewrite (bind_eq _ _ _ _ _ _ _ E1).
  destruct (IH s1 Hok) as (s2 & E2 & H2). exists s2. split; [exact E2|]. intros j Hj. rewrite H2 by done. cbn [route].
  destruct (route l j); [done|]. rewrite H1 by done. destruct (Z.eqb_spec j i) as [->|]; [|done].
  rewrite !u32_small; [done|rewrite Z.shiftl_mul_pow2 by lia; lia|unfold T_IRQ0; lia].
Qed.

(** Interrupts are routed as requested.  After [ioapicinit] and any calls of [ioapicenable],
    an interrupt for which there was a call is enabled, edge-triggered and active high, has the
    vector that [trap] expects for it, and goes to the processor of the last call; every other
    one is disabled and goes to no processor. *)
Theorem ioapic_routes s l c :
  let maxintr := Z.land (Z.shiftr (io_reg s REG_VER) 16) 255 in
  Forall (λ e, 0 <= e.1 < 240 ∧ 0 <= e.2 < 256) l →
  ∃ s', (ioapicinit ;; for_each l (λ e, ioapicenable e.1 e.2)) c s = Ret tt c s' ∧
    ∀ irq, 0 <= irq <= maxintr →
      match route l irq with
      | Some cpu => redir s' irq = (T_IRQ0 + irq, Z.shiftl cpu 24)
      | None => Z.testbit (redir s' irq).1 16 = true ∧ (redir s' irq).2 = 0
      end.
Proof.
  intros maxintr Hl. assert (0 <= maxintr < 256) as Hm.
  { unfold maxintr. change 255 with (Z.ones 8). rewrite Z.land_ones by lia. apply Z.mod_pos_bound. lia. }
  assert (∃ s1, ioapicinit c s = Ret tt c s1 ∧ ∀ j, 0 <= j <= maxintr → redir s1 j = (u32 (Z.lor INT_DISABLED (T_IRQ0 + j)), 0)) as (s1 & E1 & H1).
  { unfold ioapicinit. cbn [bind ioapicread modify gets get io_reg io_sel]. unfold bind at 1. cbn [io_reg io_sel]. unfold ioapicread, modify, gets, bind, get. cbn [io_reg io_sel io_id io_msgs]. fold maxintr.
    replace (maxintr + 1) with (Z.of_nat (Z.to_nat (maxintr + 1))) by lia.
    destruct (negb _); cbn [when ret]; match goal with |- ∃ _, for_each _ _ c ?t = _ ∧ _ => destruct (ioapic_disable (Z.to_nat (maxintr + 1)) c t) as (s1 & E & H) end;
      exists s1; (split; [exact E|]); intros j Hj; rewrite H by lia; by rewrite (proj2 (Z.ltb_lt _ _)) by lia. }
  destruct (ioapic_enable_all l c s1 Hl) as (s2 & E2 & H2). exists s2. rewrite (bind_eq _ _ _ _ _ _ _ E1). split; [exact E2|]. intros irq Hi. rewrite H2 by lia.
  destruct (route l irq); [done|]. rewrite H1 by done. cbn [fst snd]. split; [|done]. rewrite u32_small; unfold INT_DISABLED, T_IRQ0.
  - rewrite Z.lor_spec. done.
  - assert (Z.lor 65536 (32 + irq) = 65536 + (32 + irq)) as ->; [|lia].
    rewrite <- Z.lxor_lor; [rewrite <- Z.add_nocarry_lxor; [done|]|]; apply Z.bits_inj'; intros k Hk; rewrite Z.land_spec, Z.bits_0.
    all: destruct (decide (k = 16)) as [->|Hne]; [rewrite (Z.bits_above_log2 (32 + irq) 16); [done|lia|apply Z.log2_lt_pow2; lia]|].
    all: change 65536 with (2 ^ 16); rewrite Z.pow2_bits_false by done; done.
Qed.

Lemma ioapic_routes_witness :
  ∃ s', (ioapicinit ;; for_each [(1, 0); (14, 1); (1, 2)] (λ e, ioapicenable e.1 e.2)) (cpu0 0) (Ioapic 0 (set_reg 1 1507328 (λ _, 7)) 0 []) = Ret tt (cpu0 0) s' ∧
    redir s' 1 = (33, 33554432) ∧ redir s' 14 = (46, 16777216) ∧ (redir s' 4).2 = 0.
Proof.
  destruct (ioapic_routes (Ioapic 0 (set_reg 1 1507328 (λ _, 7)) 0 []) [(1, 0); (14, 1); (1, 2)] (cpu0 0)) as (s' & E & H); [repeat constructor; cbn; lia|].
  assert (Z.land (Z.shiftr (io_reg (Ioapic 0 (set_reg 1 1507328 (λ _, 7)) 0 []) REG_VER) 16) 255 = 23) as Em by (vm_compute; reflexivity). rewrite Em in H.
  exists s'. split; [exact E|]. pose proof (H 1 ltac:(lia)) as H1. pose proof (H 14 ltac:(lia)) as H2. pose proof (H 4 ltac:(lia)) as H3.
  split; [exact H1|]. split; [exact H2|]. apply H3.
Defined.

Lemma icr_wait_eq fuel c s :
  (lp_busy s < fuel)%nat → icr_wait fuel c s = Ret tt c (Lapic (lp_on s) (lp_reg s) 0 (lp_out s) (lp_wrv s)).
Proof.
  revert s. induction fuel as [|fuel IH]; intros s Hf; [lia|]. cbn [icr_wait]. unfold icr_delivs, bind, gets, modify, ret.
  destruct (lp_busy s) as [|n] eqn:E; cbn [Nat.eqb negb Nat.pred]; [done|]. rewrite IH by (cbn [lp_busy]; lia). done.
Qed.

(** [lapicinit] returns once the message is delivered.  The timer then interrupts periodically
    with the vector of [trap]'s clock case, errors and spurious interrupts have vectors of their
    own, the interrupt lines are masked, no interrupt is held back and the registers
    it does not name are as before. *)
Theorem lapicinit_enables s fuel c :
  lp_on s = true → (lp_busy s < fuel)%nat →
  ∃ s', lapicinit fuel c s = Ret tt c s' ∧
    lp_reg s' TIMER = PERIODIC + (T_IRQ0 + IRQ_TIMER) ∧ 0 < lp_reg s' TICR ∧ lp_reg s' SVR = ENABLE + (T_IRQ0 + IRQ_SPURIOUS) ∧
    lp_reg s' ERROR = T_IRQ0 + IRQ_ERROR ∧ lp_reg s' LINT0 = MASKED ∧ lp_reg s' LINT1 = MASKED ∧ lp_reg s' TPR = 0 ∧
    (4 <= Z.land (Z.shiftr (lp_reg s VER) 16) 255 → lp_reg s' PCINT = MASKED) ∧
    (∀ i, i ∉ [SVR; TDCR; TIMER; TICR; LINT0; LINT1; PCINT; ERROR; ESR; EOI; ICRHI; ICRLO; TPR] → lp_reg s' i = lp_reg s i).
Proof.
  intros Hon Hf. destruct s as [on reg busy out wrv]. cbn [lp_on lp_busy lp_reg] in *. subst on.
  unfold lapicinit. unfold bind, gets. cbn [lp_on negb]. unfold lapicw, lapicr, modify, gets. cbn [lp_on lp_reg lp_busy lp_out lp_wrv].
  change (set_reg LINT1 (u32 MASKED) (set_reg LINT0 (u32 MASKED) (set_reg TICR (u32 10000000) (set_reg TIMER (u32 (Z.lor PERIODIC (T_IRQ0 + IRQ_TIMER))) (set_reg TDCR (u32 X1) (set_reg SVR (u32 (Z.lor ENABLE (T_IRQ0 + IRQ_SPURIOUS))) reg))))) VER) with (reg VER).
  destruct (Z.leb_spec 4 (Z.land (Z.shiftr (reg VER) 16) 255)) as [Hv|Hv]; cbn [when ret lp_on lp_reg lp_busy lp_out lp_wrv];
    rewrite icr_wait_eq by (cbn [lp_busy]; lia); eexists; (split; [reflexivity|]); cbn [lp_on lp_reg lp_busy lp_out lp_wrv];
    (do 7 (split; [reflexivity|])); (split; [intros ?; first [lia|reflexivity]|]);
    intros i Hi; rewrite !not_elem_of_cons in Hi; unfold set_reg; destruct Hi as (? & ? & ? & ? & ? & ? & ? & ? & ? & ? & ? & ? & ? & _);
    by rewrite !(proj2 (Z.eqb_neq i _)) by done.
Qed.
