(* ===== verification/Bootmain.v ===== *)
(** The boot loader ([bootmain.c]): loading the kernel's segments from the disk. *)
From stdpp Require Import base list numbers strings.
From Stdlib Require Import ZArith Lia Sorted.
From S2P Require Import Prelude Params Machine.
Local Open Scope Z_scope.
Local Open Scope xv6_scope.

(** Physical memory, the number of reads of the status register and the registers of the disk
    controller. *)
Record bstate := BState { b_mem : Z → Z; b_polls : nat; b_port : Z → Z }.

Definition SECTSIZE : Z := 512.
Definition ELF_MAGIC : Z := 0x464C457F.
Definition SCRATCH : Z := 0x10000.

(** [l] stored at [a]. *)
Definition store_at (a : Z) (l : list Z) (m : Z → Z) : Z → Z :=
  λ x, if (a <=? x) && (x <? a + Z.of_nat (length l)) then l !!! Z.to_nat (x - a) else m x.
Definition bytes_at (m : Z → Z) (a : Z) (n : nat) : list Z := (λ i, m (a + Z.of_nat i)) <$> seq 0 n.

Definition outb (port x : Z) : M bstate unit :=
  modify (λ s, BState (b_mem s) (b_polls s) (λ p, if p =? port then u8 x else b_port s p)).
Definition store (a : Z) (l : list Z) : M bstate unit :=
  modify (λ s, BState (store_at a l (b_mem s)) (b_polls s) (b_port s)).
Definition load (n : nat) (a : Z) : M bstate Z := gets (λ s, le_val (bytes_at (b_mem s) a n)).

Section boot.
(** The disk, byte by byte, and what its status register shows at the [k]-th read. *)
Context (disk : Z → Z) (status : nat → Z).

(** Wait for disk ready. *)
Fixpoint waitdisk (fuel : nat) : M bstate unit :=
  match fuel with
  | O => hang
  | S fuel' =>
      k <- gets b_polls ;;
      modify (λ s, BState (b_mem s) (S (b_polls s)) (b_port s)) ;;
      if Z.land (status k) 0xC0 =? 0x40 then ret tt else waitdisk fuel'
  end.

(** [insl(0x1F0, dst, SECTSIZE/4)]: the sector the registers select, after a read command. *)
Definition insl (dst : Z) : M bstate unit :=
  s <- get ;;
  let lba := b_port s 0x1F3 + 256 * b_port s 0x1F4 + 65536 * b_port s 0x1F5 + 16777216 * Z.land (b_port s 0x1F6) 15 in
  if b_port s 0x1F7 =? 0x20 then store dst (bytes_at disk (SECTSIZE * lba) 512) else hang.

(** Read a single sector at offset into dst. *)
Definition readsect (fuel : nat) (dst offset : Z) : M bstate unit :=
  (* Issue command. *)
  waitdisk fuel ;;
  outb 0x1F2 1 ;;   (* count = 1 *)
  outb 0x1F3 offset ;;
  outb 0x1F4 (Z.shiftr offset 8) ;;
  outb 0x1F5 (Z.shiftr offset 16) ;;
  outb 0x1F6 (Z.lor (Z.shiftr offset 24) 0xE0) ;;
  outb 0x1F7 0x20 ;;   (* cmd 0x20 - read sectors *)
  (* Read data. *)
  waitdisk fuel ;;
  insl dst.

(** Read 'count' bytes at 'offset' from kernel into physical address 'pa'. *)
Fixpoint readseg_loop (fuel n : nat) (pa epa offset : Z) : M bstate unit :=
  match n with
  | O => hang
  | S n' =>
      if pa <? epa then readsect fuel pa offset ;; readseg_loop fuel n' (u32 (pa + SECTSIZE)) epa (u32 (offset + 1))
      else ret tt
  end.
Definition readseg (fuel : nat) (pa count offset : Z) : M bstate unit :=
  let epa := u32 (pa + count) in
  (* Round down to sector boundary. *)
  let pa := u32 (pa - offset mod SECTSIZE) in
  (* Translate from bytes to sectors; kernel starts at sector 1. *)
  let offset := offset / SECTSIZE + 1 in
  readseg_loop fuel (Z.to_nat (count / SECTSIZE) + 3) pa epa offset.

(** Load each program segment (ignores ph flags). *)
Fixpoint load_segs (fuel n : nat) (ph : Z) : M bstate unit :=
  match n with
  | O => ret tt
  | S n' =>
      pa <- load 4 (ph + 12) ;;
      filesz <- load 4 (ph + 16) ;;
      off <- load 4 (ph + 4) ;;
      readseg fuel pa filesz off ;;
      memsz <- load 4 (ph + 20) ;;
      filesz <- load 4 (ph + 16) ;;
      when (filesz <? memsz) (store (pa + filesz) (replicate (Z.to_nat (memsz - filesz)) 0)) ;;
      load_segs fuel n' (ph + 32)
  end.

(** The entry point [bootmain] jumps to; [None] when it returns. *)
Definition bootmain (fuel : nat) : M bstate (option Z) :=
  (* Read 1st page off disk *)
  readseg fuel SCRATCH 4096 0 ;;
  (* Is this an ELF executable? *)
  magic <- load 4 SCRATCH ;;
  if negb (magic =? ELF_MAGIC) then ret None   (* let bootasm.S handle error *)
  else
    phoff <- load 4 (SCRATCH + 28) ;;
    phnum <- load 2 (SCRATCH + 44) ;;
    load_segs fuel (Z.to_nat phnum) (SCRATCH + phoff) ;;
    (* Call the entry point from the ELF header. *)
    entry <- load 4 (SCRATCH + 24) ;;
    ret (Some entry).

(** * Reading sectors *)

(** The kernel's file starts at the second sector. *)
Definition file (o : Z) : Z := disk (SECTSIZE + o).

(** The drive becomes ready within [fuel] reads, always. *)
Definition responsive (fuel : nat) : Prop := ∀ k, ∃ j, (j < fuel)%nat ∧ Z.land (status (k + j)%nat) 0xC0 = 0x40.

Lemma waitdisk_eq fuel c s :
  (∃ j, (j < fuel)%nat ∧ Z.land (status (b_polls s + j)%nat) 0xC0 = 0x40) →
  ∃ k, waitdisk fuel c s = Ret tt c (BState (b_mem s) k (b_port s)).
Proof.
  revert s. induction fuel as [|fuel IH]; intros s (j & Hj & Hr); [lia|]. cbn [waitdisk]. unfold bind, gets, modify.
  destruct (Z.eqb_spec (Z.land (status (b_polls s)) 192) 64) as [|Hne]; [by eexists|].
  destruct j as [|j]; [by rewrite Nat.add_0_r in Hr|]. destruct (IH (BState (b_mem s) (S (b_polls s)) (b_port s))) as [k Hk]; [|by exists k].
  exists j. split; [lia|]. cbn [b_polls]. by rewrite Nat.add_succ_l, <- Nat.add_succ_r.
Qed.

(** The four bytes of a sector number. *)
Lemma lba_bytes n : 0 <= n < 2 ^ 28 →
  u8 n + 256 * u8 (Z.shiftr n 8) + 65536 * u8 (Z.shiftr n 16) + 16777216 * Z.land (u8 (Z.lor (Z.shiftr n 24) 0xE0)) 15 = n.
Proof.
  intros Hn. rewrite !Z.shiftr_div_pow2 by lia. unfold u8. change (2 ^ 8) with 256. change (2 ^ 16) with (256 * 256). change (2 ^ 24) with (256 * (256 * 256)).
  assert (0 <= n / (256 * (256 * 256)) < 16) as Ht by (split; [apply Z.div_pos; lia|apply Z.div_lt_upper_bound; lia]).
  assert (Z.land (Z.lor (n / (256 * (256 * 256))) 224 mod 256) 15 = n / (256 * (256 * 256))) as ->.
  { generalize dependent (n / (256 * (256 * 256))). intros t Ht.
    assert (In t (seqZ 0 16)) as Hin by (apply list_elem_of_In, elem_of_seqZ; lia).
    assert (forallb (λ t, Z.land (Z.lor t 224 mod 256) 15 =? t) (seqZ 0 16) = true) as Hall by (vm_compute; reflexivity).
    rewrite forallb_forall in Hall. by apply Z.eqb_eq, Hall. }
  rewrite <- !Z.div_div by lia. set (q1 := n / 256). set (q2 := q1 / 256).
  pose proof (Z.div_mod n 256 ltac:(lia)). pose proof (Z.div_mod q1 256 ltac:(lia)). pose proof (Z.div_mod q2 256 ltac:(lia)). fold q1 in H. fold q2 in H0. lia.
Qed.

Lemma readsect_eq fuel c s dst n :
  responsive fuel → 0 <= n < 2 ^ 28 →
  ∃ k r, readsect fuel dst n c s = Ret tt c (BState (store_at dst (bytes_at disk (SECTSIZE * n) 512) (b_mem s)) k r).
Proof.
  intros Hr Hn. unfold readsect. destruct (waitdisk_eq fuel c s (Hr _)) as [k1 E1]. rewrite (bind_eq _ _ _ _ _ _ _ E1).
  set (r := λ p, if p =? 0x1F7 then 0x20 else if p =? 0x1F6 then u8 (Z.lor (Z.shiftr n 24) 0xE0) else if p =? 0x1F5 then u8 (Z.shiftr n 16)
    else if p =? 0x1F4 then u8 (Z.shiftr n 8) else if p =? 0x1F3 then u8 n else if p =? 0x1F2 then 1 else b_port s p).
  set (s1 := BState (b_mem s) k1 r). destruct (waitdisk_eq fuel c s1 (Hr _)) as [k2 E2]. exists k2, r.
  unfold outb at 1 2 3 4 5 6. unfold bind at 1 2 3 4 5 6. unfold modify at 1 2 3 4 5 6. cbn [b_mem b_polls b_port].
  change (u8 1) with 1. change (u8 32) with 32. fold r. fold s1. rewrite (bind_eq _ _ _ _ _ _ _ E2). unfold insl, bind, get, store, modify. cbn [b_port b_mem s1 b_polls].
  change (r 503 =? 32) with true. cbv iota. change (r 499) with (u8 n). change (r 500) with (u8 (Z.shiftr n 8)). change (r 501) with (u8 (Z.shiftr n 16)).
  change (r 502) with (u8 (Z.lor (Z.shiftr n 24) 224)). by rewrite lba_bytes.
Qed.
(** Memory with the file's bytes from [lo] to [hi], the byte at [x] from offset [x + d]. *)
Definition with_file (lo hi d : Z) (m : Z → Z) : Z → Z := λ x, if (lo <=? x) && (x <? hi) then file (x + d) else m x.

Lemma store_sector p n m x :
  store_at p (bytes_at disk (SECTSIZE * (n + 1)) 512) m x = with_file p (p + 512) (512 * n - p) m x.
Proof.
  unfold store_at, with_file. unfold bytes_at at 1. rewrite length_fmap, length_seq. change (Z.of_nat 512) with 512.
  destruct (Z.leb_spec p x), (Z.ltb_spec x (p + 512)); cbn [andb]; try done.
  unfold bytes_at. rewrite list_lookup_total_alt, list_lookup_fmap, lookup_seq_lt by lia. cbn [fmap option_fmap option_map default]. unfold file, SECTSIZE, id. f_equal. lia.
Qed.

(** The loop over [k] sectors. *)
Lemma readseg_loop_eq fuel c k n s pa epa off :
  responsive fuel → (k < n)%nat → 0 <= pa → pa + 512 * Z.of_nat k < 2 ^ 32 → 0 <= off → off + Z.of_nat k < 2 ^ 28 - 1 →
  epa <= pa + 512 * Z.of_nat k → (k ≠ 0%nat → pa + 512 * Z.of_nat k < epa + 512) →
  ∃ s', readseg_loop fuel n pa epa (off + 1) c s = Ret tt c s' ∧
    ∀ x, b_mem s' x = with_file pa (pa + 512 * Z.of_nat k) (512 * off - pa) (b_mem s) x.
Proof.
  intros Hr. revert n s pa off. induction k as [|k IH]; intros [|n] s pa off Hn Hp Hp2 Ho Ho2 He1 He2; try lia; cbn [readseg_loop].
  { rewrite (proj2 (Z.ltb_ge pa epa)) by lia. exists s. split; [done|]. intros x. unfold with_file.
    destruct (Z.leb_spec pa x), (Z.ltb_spec x (pa + 512 * Z.of_nat 0)); try done. lia. }
  rewrite (proj2 (Z.ltb_lt pa epa)) by lia. destruct (readsect_eq fuel c s pa (off + 1) Hr ltac:(lia)) as (k1 & r1 & E1). rewrite (bind_eq _ _ _ _ _ _ _ E1).
  unfold SECTSIZE at 1. rewrite !u32_small by lia.
  destruct (IH n (BState (store_at pa (bytes_at disk (SECTSIZE * (off + 1)) 512) (b_mem s)) k1 r1) (pa + 512) (off + 1)) as (s' & E2 & H2); try lia.
  exists s'. split; [exact E2|]. intros x. rewrite H2. cbn [b_mem]. unfold with_file at 1. rewrite store_sector. unfold with_file.
  destruct (Z.leb_spec (pa + 512) x), (Z.ltb_spec x (pa + 512 + 512 * Z.of_nat k)), (Z.leb_spec pa x), (Z.ltb_spec x (pa + 512)), (Z.ltb_spec x (pa + 512 * Z.of_nat (S k)));
    cbn [andb]; try done; try lia; f_equal; lia.
Qed.

(** [readseg] puts the file's bytes where they are asked for; it may overwrite less than a sector
    before and after. *)
Lemma readseg_eq fuel c s pa count off :
  responsive fuel → 0 <= count → 0 <= off → off + count < 2 ^ 32 - 1024 → off mod 512 <= pa → pa + count < 2 ^ 32 - 1024 →
  ∃ s' hi, readseg fuel pa count off c s = Ret tt c s' ∧ pa + count <= hi < pa + count + 512 ∧
    (off mod 512 = 0 → count mod 512 = 0 → hi = pa + count) ∧
    ∀ x, b_mem s' x = with_file (pa - off mod 512) hi (off - pa) (b_mem s) x.
Proof.
  intros Hr Hc Ho Ho2 Hp Hp2. pose proof (Z.mod_pos_bound off 512 ltac:(lia)) as Hm. pose proof (Z.div_mod off 512 ltac:(lia)) as Hd.
  set (q := off mod 512) in *. set (t := q + count). pose proof (Z.div_mod (t + 511) 512 ltac:(lia)) as Hd2. pose proof (Z.mod_pos_bound (t + 511) 512 ltac:(lia)) as Hm2.
  pose proof (Z.div_mod count 512 ltac:(lia)) as Hd3. pose proof (Z.mod_pos_bound count 512 ltac:(lia)) as Hm3.
  unfold readseg, SECTSIZE. fold q. rewrite !u32_small by lia.
  destruct (readseg_loop_eq fuel c (Z.to_nat ((t + 511) / 512)) (Z.to_nat (count / 512) + 3) s (pa - q) (pa + count) (off / 512) Hr) as (s' & E & H); try lia.
  exists s', (pa - q + 512 * Z.of_nat (Z.to_nat ((t + 511) / 512))). split; [exact E|]. split; [lia|]. split; [lia|].
  intros x. rewrite H. f_equal. lia.
Qed.
(** * Segments *)

(** A program header, and the ones the file has. *)
Record seg := Seg { sg_off : Z; sg_paddr : Z; sg_filesz : Z; sg_memsz : Z }.
Definition field (n : nat) (o : Z) : Z := le_val (bytes_at file o n).
Definition seg_at (ph : Z) : seg := Seg (field 4 (ph + 4)) (field 4 (ph + 12)) (field 4 (ph + 16)) (field 4 (ph + 20)).
Definition segs : list seg := (λ k, seg_at (field 4 28 + 32 * Z.of_nat k)) <$> seq 0 (Z.to_nat (field 2 44)).

Definition sg_end (g : seg) : Z := sg_paddr g + Z.max (sg_filesz g) (sg_memsz g).
(** The first byte that loading the segment may overwrite. *)
Definition sg_start (g : seg) : Z := sg_paddr g - sg_off g mod 512.
Record seg_ok (g : seg) : Prop := {
  sk_file : sg_off g + sg_filesz g < 2 ^ 32 - 1024;
  sk_above : SCRATCH + 4096 <= sg_start g;
  sk_below : sg_end g < 2 ^ 32 - 1024;
}.
(** A segment is in memory: its bytes, and zeros behind them. *)
Definition in_memory (m : Z → Z) (g : seg) : Prop :=
  (∀ i, 0 <= i < sg_filesz g → m (sg_paddr g + i) = file (sg_off g + i)) ∧
  (∀ i, sg_filesz g <= i < sg_memsz g → m (sg_paddr g + i) = 0).

(** The scratch page has the file's first 4096 bytes. *)
Definition scratch (m : Z → Z) : Prop := ∀ o, 0 <= o < 4096 → m (SCRATCH + o) = file o.

Context (Hbyte : ∀ x, 0 <= disk x < 256).

Lemma load_field c s n o : scratch (b_mem s) → 0 <= o → o + Z.of_nat n <= 4096 → load n (SCRATCH + o) c s = Ret (field n o) c s.
Proof using.
  intros Hs Ho Hn. unfold load, gets, field, bytes_at. do 2 f_equal. apply list_fmap_ext. intros i x Hx. apply lookup_seq in Hx as [-> Hi].
  rewrite <- Hs by lia. f_equal. lia.
Qed.

Lemma field_nonneg n o : 0 <= field n o.
Proof using Hbyte.
  unfold field. assert (Forall byte_range (bytes_at file o n)) as H.
  { unfold bytes_at. apply Forall_fmap, Forall_forall. intros i _. apply Hbyte. }
  apply le_val_range in H. lia.
Qed.

(** Loading one segment. *)
Lemma load_seg fuel c s n ph :
  responsive fuel → scratch (b_mem s) → 0 <= ph → ph + 32 <= 4096 → seg_ok (seg_at ph) →
  ∃ s', load_segs fuel (S n) (SCRATCH + ph) c s = load_segs fuel n (SCRATCH + (ph + 32)) c s' ∧
    in_memory (b_mem s') (seg_at ph) ∧ ∀ x, x < sg_start (seg_at ph) → b_mem s' x = b_mem s x.
Proof using Hbyte.
  intros Hr Hs Hp Hp2 [H1 H2 H3]. set (g := seg_at ph) in *. cbn [load_segs]. rewrite <- !Z.add_assoc.
  assert (∀ k t, scratch (b_mem t) → 0 <= k <= 20 → load 4 (SCRATCH + (ph + k)) c t = Ret (field 4 (ph + k)) c t) as Hl by (intros k t Ht Hk; apply load_field; [done|lia|lia]).
  rewrite (bind_eq _ _ _ _ _ _ _ (Hl 12 s Hs ltac:(lia))), (bind_eq _ _ _ _ _ _ _ (Hl 16 s Hs ltac:(lia))), (bind_eq _ _ _ _ _ _ _ (Hl 4 s Hs ltac:(lia))). change (field 4 (ph + 12)) with (sg_paddr g). change (field 4 (ph + 16)) with (sg_filesz g). change (field 4 (ph + 4)) with (sg_off g).
  pose proof (field_nonneg 4 (ph + 4) : 0 <= sg_off g) as G1. pose proof (field_nonneg 4 (ph + 12) : 0 <= sg_paddr g) as G2. pose proof (field_nonneg 4 (ph + 16) : 0 <= sg_filesz g) as G3. pose proof (field_nonneg 4 (ph + 20) : 0 <= sg_memsz g) as G4.
  unfold sg_start, sg_end in *. pose proof (Z.mod_pos_bound (sg_off g) 512 ltac:(lia)).
  destruct (readseg_eq fuel c s (sg_paddr g) (sg_filesz g) (sg_off g)) as (s1 & hi & E1 & Hhi & _ & M1); [done|lia|lia|lia|unfold SCRATCH in *; lia|lia|].
  rewrite (bind_eq _ _ _ _ _ _ _ E1).
  assert (scratch (b_mem s1)) as Hs1.
  { intros o Ho. rewrite M1. unfold with_file. rewrite (proj2 (Z.leb_gt _ _)) by lia. by apply Hs. }
  rewrite (bind_eq _ _ _ _ _ _ _ (Hl 20 s1 Hs1 ltac:(lia))), (bind_eq _ _ _ _ _ _ _ (Hl 16 s1 Hs1 ltac:(lia))).
  change (field 4 (ph + 16)) with (sg_filesz g). change (field 4 (ph + 20)) with (sg_memsz g).
  set (m2 := if sg_filesz g <? sg_memsz g then store_at (sg_paddr g + sg_filesz g) (replicate (Z.to_nat (sg_memsz g - sg_filesz g)) 0) (b_mem s1) else b_mem s1).
  exists (BState m2 (b_polls s1) (b_port s1)). split.
  { rewrite (bind_eq _ _ _ _ tt c (BState m2 (b_polls s1) (b_port s1))); [done|]. unfold m2. destruct (_ <? _); [done|]. by destruct s1. }
  assert (∀ x, m2 x = if (sg_paddr g + sg_filesz g <=? x) && (x <? sg_paddr g + sg_memsz g) then 0 else b_mem s1 x) as M2.
  { intros x. unfold m2, store_at. rewrite length_replicate. destruct (Z.ltb_spec (sg_filesz g) (sg_memsz g)).
    - rewrite Z2Nat.id by lia. replace (sg_paddr g + sg_filesz g + (sg_memsz g - sg_filesz g)) with (sg_paddr g + sg_memsz g) by lia.
      destruct (Z.leb_spec (sg_paddr g + sg_filesz g) x), (Z.ltb_spec x (sg_paddr g + sg_memsz g)); cbn [andb]; try done. by rewrite lookup_total_replicate_2 by lia.
    - destruct (Z.leb_spec (sg_paddr g + sg_filesz g) x), (Z.ltb_spec x (sg_paddr g + sg_memsz g)); try done. lia. }
  cbn [b_mem]. split; [split|].
  - intros i Hi. rewrite M2, (proj2 (Z.leb_gt _ _)) by lia. cbn [andb]. rewrite M1. unfold with_file. rewrite (proj2 (Z.leb_le _ _)), (proj2 (Z.ltb_lt _ _)) by lia. cbn [andb]. f_equal. lia.
  - intros i Hi. rewrite M2, (proj2 (Z.leb_le _ _)), (proj2 (Z.ltb_lt _ _)) by lia. done.
  - intros x Hx. rewrite M2, (proj2 (Z.leb_gt _ _)) by lia. cbn [andb]. rewrite M1. unfold with_file. by rewrite (proj2 (Z.leb_gt _ _)) by lia.
Qed.

(** Segments in increasing order, each with room for what is overwritten before it. *)
Definition increasing : list seg → Prop := StronglySorted (λ g h, sg_end g <= sg_start h).

Lemma load_segs_eq fuel c n s ph :
  let gs := (λ k, seg_at (ph + 32 * Z.of_nat k)) <$> seq 0 n in
  responsive fuel → scratch (b_mem s) → 0 <= ph → ph + 32 * Z.of_nat n <= 4096 → Forall seg_ok gs → increasing gs →
  ∃ s', load_segs fuel n (SCRATCH + ph) c s = Ret tt c s' ∧ Forall (in_memory (b_mem s')) gs ∧ scratch (b_mem s') ∧
    ∀ x, Forall (λ g, x < sg_start g) gs → b_mem s' x = b_mem s x.
Proof using Hbyte.
  intros gs Hr. subst gs. revert s ph. induction n as [|n IH]; intros s ph Hs Hp Hp2 Hok Hinc; [exists s; by split; [|split]|].
  assert ((λ k, seg_at (ph + 32 * Z.of_nat k)) <$> seq 0 (S n) = seg_at ph :: ((λ k, seg_at (ph + 32 + 32 * Z.of_nat k)) <$> seq 0 n)) as Egs.
  { cbn [seq fmap list_fmap]. f_equal; [f_equal; lia|]. rewrite <- fmap_S_seq, <- list_fmap_compose. apply list_fmap_ext. intros i k _. cbn [compose]. f_equal. lia. }
  rewrite Egs in *. set (gs := _ <$> seq 0 n) in *. apply Forall_cons_1 in Hok as [Hg Hok]. apply StronglySorted_inv in Hinc as [Hinc Hlt].
  destruct (load_seg fuel c s n ph Hr Hs Hp ltac:(lia) Hg) as (s1 & E1 & M1 & F1). rewrite E1.
  assert (scratch (b_mem s1)) as Hs1 by (intros o Ho; rewrite F1 by (pose proof (sk_above _ Hg); lia); by apply Hs).
  destruct (IH s1 (ph + 32) Hs1 ltac:(lia) ltac:(lia) Hok Hinc) as (s2 & E2 & M2 & Hs2 & F2). exists s2. split; [exact E2|]. split; [constructor; [|exact M2]|split; [exact Hs2|]].
  - assert (∀ x, x < sg_end (seg_at ph) → b_mem s2 x = b_mem s1 x) as Hk.
    { intros x Hx. apply F2. eapply Forall_impl; [exact Hlt|]. intros h Hh. cbv beta in *. lia. }
    destruct M1 as [A B]. split; intros i Hi; (rewrite Hk; [by auto|]); unfold sg_end; lia.
  - intros x Hx. apply Forall_cons_1 in Hx as [Hx1 Hx2]. rewrite F2 by done. by apply F1.
Qed.
End boot.

Lemma first_page disk status fuel c s :
  responsive status fuel → ∃ s', readseg disk status fuel SCRATCH 4096 0 c s = Ret tt c s' ∧ scratch disk (b_mem s').
Proof.
  intros Hr. destruct (readseg_eq disk status fuel c s SCRATCH 4096 0 Hr) as (s' & hi & E & Hhi & _ & M); [lia|lia|lia|vm_compute; discriminate|unfold SCRATCH; lia|].
  exists s'. split; [exact E|]. intros o Ho. rewrite M. unfold with_file. change (0 mod 512) with 0. rewrite (proj2 (Z.leb_le _ _)), (proj2 (Z.ltb_lt _ _)) by lia.
  cbn [andb]. f_equal. lia.
Qed.

(** C25: The boot loader loads the kernel.  The file at the second sector of the disk is an ELF file
    whose program headers are in its first page, its segments are above the page the loader uses,
    and each starts far enough behind the one before it that rounding down to a sector does not
    reach it.  If the drive keeps becoming ready, [bootmain] jumps to the entry point of the
    file, and every segment is in memory, byte by byte, with zeros up to its size in memory. *)
Theorem bootmain_loads disk status fuel c s :
  (∀ x, 0 <= disk x < 256) → responsive status fuel → field disk 4 0 = ELF_MAGIC → field disk 4 28 + 32 * field disk 2 44 <= 4096 →
  Forall seg_ok (segs disk) → increasing (segs disk) →
  ∃ s', bootmain disk status fuel c s = Ret (Some (field disk 4 24)) c s' ∧ Forall (in_memory disk (b_mem s')) (segs disk).
Proof.
  intros Hb Hr Hmagic Hph Hok Hinc. pose proof (field_nonneg disk Hb 4 28). pose proof (field_nonneg disk Hb 2 44).
  destruct (first_page disk status fuel c s Hr) as (s1 & E1 & Hs1).
  destruct (load_segs_eq disk status Hb fuel c (Z.to_nat (field disk 2 44)) s1 (field disk 4 28) Hr Hs1 ltac:(lia) ltac:(lia) Hok Hinc) as (s2 & E2 & M2 & Hs2 & _).
  exists s2. split; [|exact M2]. unfold bootmain. rewrite (bind_eq _ _ _ _ _ _ _ E1).
  rewrite (bind_eq _ _ _ _ (field disk 4 0) c s1) by (rewrite <- (Z.add_0_r SCRATCH); apply load_field; [done|lia|lia]). rewrite Hmagic, Z.eqb_refl. cbn [negb].
  rewrite (bind_eq _ _ _ _ _ _ _ (load_field disk c s1 4 28 Hs1 ltac:(lia) ltac:(lia))), (bind_eq _ _ _ _ _ _ _ (load_field disk c s1 2 44 Hs1 ltac:(lia) ltac:(lia))).
  rewrite (bind_eq _ _ _ _ _ _ _ E2). by rewrite (bind_eq _ _ _ _ _ _ _ (load_field disk c s2 4 24 Hs2 ltac:(lia) ltac:(lia))).
Qed.

(** A file that is not an executable is not run. *)
Theorem bootmain_refuses disk status fuel c s :
  responsive status fuel → field disk 4 0 ≠ ELF_MAGIC → ∃ s', bootmain disk status fuel c s = Ret None c s'.
Proof.
  intros Hr Hmagic. destruct (first_page disk status fuel c s Hr) as (s1 & E1 & Hs1). exists s1. unfold bootmain. rewrite (bind_eq _ _ _ _ _ _ _ E1).
  rewrite (bind_eq _ _ _ _ (field disk 4 0) c s1) by (rewrite <- (Z.add_0_r SCRATCH); apply load_field; [done|lia|lia]).
  by rewrite (proj2 (Z.eqb_neq _ _) Hmagic).
Qed.

(** * A kernel with two segments *)

(** The header of a file with two segments: the first has [fsz] bytes from offset 4096 on and
    256 in memory at [0x100000], the second 16 bytes from offset [off2] on at [pa2]. *)
Definition ex_header (off2 pa2 : Z) : list Z :=
  le_bytes 4 ELF_MAGIC ++ replicate 20 0 ++ le_bytes 4 0x10000C ++ le_bytes 4 52 ++ replicate 12 0 ++ le_bytes 2 2 ++ replicate 6 0 ++
  (le_bytes 4 1 ++ le_bytes 4 4096 ++ le_bytes 4 0x100000 ++ le_bytes 4 0x100000 ++ le_bytes 4 16 ++ le_bytes 4 256 ++ replicate 8 0) ++
  (le_bytes 4 1 ++ le_bytes 4 off2 ++ le_bytes 4 pa2 ++ le_bytes 4 pa2 ++ le_bytes 4 16 ++ le_bytes 4 16 ++ replicate 8 0).
(** Behind the header the file's bytes are 7. *)
Definition ex_disk (off2 pa2 : Z) (x : Z) : Z :=
  if (512 <=? x) && (x <? 4608) then default 0 (ex_header off2 pa2 !! Z.to_nat (x - 512)) else 7.

Lemma ex_disk_byte off2 pa2 x : 0 <= ex_disk off2 pa2 x < 256.
Proof.
  unfold ex_disk. destruct (_ && _); [|lia]. destruct (ex_header off2 pa2 !! _) as [b|] eqn:E; [|cbn; lia]. cbn.
  assert (Forall byte_range (ex_header off2 pa2)) as H.
  { unfold ex_header. repeat apply Forall_app_2; first [apply le_bytes_range|apply Forall_replicate; unfold byte_range; lia]. }
  by apply (Forall_lookup_1 _ _ _ _ H E).
Qed.

Lemma bootmain_loads_witness :
  ∃ s', bootmain (ex_disk 4608 0x100200) (λ _, 0x40) 1 (cpu0 0) (BState (λ _, 99) 0 (λ _, 0)) = Ret (Some 0x10000C) (cpu0 0) s' ∧
    b_mem s' 0x100005 = 7 ∧ b_mem s' 0x100020 = 0.
Proof.
  destruct (bootmain_loads (ex_disk 4608 0x100200) (λ _, 0x40) 1 (cpu0 0) (BState (λ _, 99) 0 (λ _, 0))) as (s' & E & H).
  - apply ex_disk_byte.
  - intros k. exists 0%nat. split; [lia|reflexivity].
  - vm_compute. reflexivity.
  - vm_compute. discriminate.
  - assert (segs (ex_disk 4608 0x100200) = [Seg 4096 0x100000 16 256; Seg 4608 0x100200 16 16]) as -> by (vm_compute; reflexivity).
    repeat constructor; vm_compute; first [reflexivity|discriminate].
  - assert (segs (ex_disk 4608 0x100200) = [Seg 4096 0x100000 16 256; Seg 4608 0x100200 16 16]) as -> by (vm_compute; reflexivity).
    repeat constructor; vm_compute; discriminate.
  - assert (segs (ex_disk 4608 0x100200) = [Seg 4096 0x100000 16 256; Seg 4608 0x100200 16 16]) as Es by (vm_compute; reflexivity).
    rewrite Es in H. apply Forall_cons_1 in H as [[H1 H2] _]. exists s'. split; [exact E|]. split; [apply (H1 5); cbn; lia|apply (H2 32); cbn; lia].
Defined.

(** Increasing addresses are not enough: segments that do not overlap can still be damaged,
    because [readseg] rounds the address down to a sector of the file and overwrites what is
    before it.  Here the second segment is loaded 128 bytes behind the end of the first one,
    whose zeros are gone afterwards. *)
Theorem bootmain_overwrites_bss :
  let disk := ex_disk 0x1180 0x100180 in
  ∃ c s', bootmain disk (λ _, 0x40) 1 (cpu0 0) (BState (λ _, 99) 0 (λ _, 0)) = Ret (Some 0x10000C) c s' ∧
    segs disk = [Seg 0x1000 0x100000 16 256; Seg 0x1180 0x100180 16 16] ∧
    sg_end (Seg 0x1000 0x100000 16 256) < 0x100180 ∧ b_mem s' 0x100020 = 7 ∧
    ~ in_memory disk (b_mem s') (Seg 0x1000 0x100000 16 256).
Proof.
  intros disk. set (run := bootmain disk _ 1 _ _).
  assert (match run with Ret (Some e) _ s' => (e =? 0x10000C) && (b_mem s' 0x100020 =? 7) | _ => false end = true) as H by (vm_compute; reflexivity).
  destruct run as [[e|] c s'| | | |]; try done. apply andb_true_iff in H as [He%Z.eqb_eq Hm%Z.eqb_eq]. exists c, s'. split; [by rewrite He|].
  split; [vm_compute; reflexivity|]. split; [vm_compute; reflexivity|]. split; [exact Hm|]. intros [_ H]. specialize (H 32). cbn [sg_paddr sg_filesz sg_memsz] in H.
  change (0x100000 + 32) with 0x100020 in H. rewrite Hm in H. lia.
Qed.
