(* ===== verification/Uprog.v ===== *)
(** User programs ([cat.c], [wc.c], [echo.c], [ls.c], [init.c], ... and the main loop of
    [sh.c]) as interaction trees over the system calls. *)
From stdpp Require Import base list numbers strings.
From Stdlib Require Import ZArith Lia Ascii.
From Stdlib Require String.
From ITree Require Import ITree.
From S2P Require Import Prelude Params Printf CString Grep.
Local Open Scope Z_scope.

Declare Scope prog_scope.
Delimit Scope prog_scope with prog.
Notation "x <- m ;; k" := (ITree.bind m (λ x, k)) (at level 100, m at next level, right associativity) : prog_scope.
Notation "m ;; k" := (ITree.bind m (λ _, k)) (at level 100, right associativity) : prog_scope.
Local Open Scope prog_scope.

(** [struct stat], as far as programs print it. *)
Record ustat := Ustat { st_type : Z; st_ino : Z; st_size : Z }.

(** The system calls of [user.h] that the programs make, with what the kernel hands back: the
    return value, and the bytes or the structure it stores. *)
Variant sysE : Type → Type :=
| Fork : sysE Z
| Exit : sysE void
| Wait : sysE Z
| Kill (pid : Z) : sysE Z
| Exec (path : list Z) (argv : list (list Z)) : sysE Z
| Open (path : list Z) (mode : Z) : sysE Z
| Mknod (path : list Z) (major minor : Z) : sysE Z
| Unlink (path : list Z) : sysE Z
| Fstat (fd : Z) : sysE (Z * ustat)
| Link (old new : list Z) : sysE Z
| Mkdir (path : list Z) : sysE Z
| Chdir (path : list Z) : sysE Z
| Dup (fd : Z) : sysE Z
| Read (fd n : Z) : sysE (Z * list Z)
| Write (fd : Z) (bytes : list Z) : sysE Z
| Close (fd : Z) : sysE Z
| Sleep (n : Z) : sysE Z.

Abbreviation prog := (itree sysE).

(** Calls for their return value. *)
Definition sys {R} (e : sysE R) : prog R := ITree.trigger e.
Definition exit {A} : prog A := v <- sys Exit ;; match (v : void) with end.

Abbreviation lit := bytes_of.
Definition nl : list Z := [10].

(** * [printf] and [ulib.c] *)

(** [putc] writes one character at a time. *)
Fixpoint puts (fd : Z) (bs : list Z) : prog unit :=
  match bs with [] => Ret tt | b :: bs' => sys (Write fd [b]) ;; puts fd bs' end.
(** [printf(fd, fmt, ...)]: the words [args], where the number [i] for a [%s] stands for the
    string [strs[i - 1]].  Undefined without enough words. *)
Definition printf (fd : Z) (fmt : list Z) (args : list Z) (strs : list (list Z)) : prog unit :=
  match Printf.printf (λ i, strs !!! Z.to_nat (i - 1)) fmt args with Some bs => puts fd bs | None => ITree.spin end.

(** Reads up to a newline, at most [max - 1] bytes: the string in [buf]. *)
Definition gets (max : Z) : prog (list Z) :=
  ITree.iter (λ buf,
    if Z.of_nat (length buf) + 1 <? max then
      r <- sys (Read 0 1) ;;
      if r.1 <? 1 then Ret (inr buf)
      else
        let c := r.2 !!! 0%nat in
        if (c =? 10) || (c =? 13) then Ret (inr (buf ++ [c])) else Ret (inl (buf ++ [c]))
    else Ret (inr buf)) [].

Definition stat (n : list Z) : prog (Z * ustat) :=
  fd <- sys (Open n 0) ;;
  if fd <? 0 then Ret (-1, Ustat 0 0 0)
  else
    r <- sys (Fstat fd) ;;
    sys (Close fd) ;;
    Ret r.

(** The loop of [cat], [wc] and [grep] over their file arguments. *)
Fixpoint each_file (f : Z → list Z → prog unit) (msg : list Z) (args : list (list Z)) : prog void :=
  match args with
  | [] => exit
  | a :: args' =>
      fd <- sys (Open a 0) ;;
      if fd <? 0 then printf 1 msg [1] [a] ;; exit
      else f fd a ;; sys (Close fd) ;; each_file f msg args'
  end.

(** * [cat.c] *)

Definition cat (fd : Z) : prog unit :=
  ITree.iter (λ _ : unit,
    r <- sys (Read fd 512) ;;
    if 0 <? r.1 then
      w <- sys (Write 1 r.2) ;;
      if negb (w =? r.1) then printf 1 (lit "cat: write error" ++ nl) [] [] ;; exit else Ret (inl tt)
    else if r.1 <? 0 then printf 1 (lit "cat: read error" ++ nl) [] [] ;; exit
    else Ret (inr tt)) tt.

Definition cat_main (argv : list (list Z)) : prog void :=
  match tail argv with [] => cat 0 ;; exit | args => each_file (λ fd _, cat fd) (lit "cat: cannot open %s" ++ nl) args end.

(** * [wc.c] *)

Record counts := Counts { wc_l : Z; wc_w : Z; wc_c : Z; wc_inword : bool }.
Definition is_space (b : Z) : bool := bool_decide (b ∈ [32; 13; 9; 10; 11]).
Definition count_byte (s : counts) (b : Z) : counts :=
  let c := s32 (wc_c s + 1) in
  let l := if b =? 10 then s32 (wc_l s + 1) else wc_l s in
  if is_space b then Counts l (wc_w s) c false
  else if negb (wc_inword s) then Counts l (s32 (wc_w s + 1)) c true
  else Counts l (wc_w s) c (wc_inword s).

Definition wc (fd : Z) (name : list Z) : prog unit :=
  ITree.iter (λ s,
    r <- sys (Read fd 512) ;;
    if 0 <? r.1 then Ret (inl (foldl count_byte s r.2))
    else if r.1 <? 0 then printf 1 (lit "wc: read error" ++ nl) [] [] ;; exit
    else printf 1 (lit "%d %d %d %s" ++ nl) [wc_l s; wc_w s; wc_c s; 1] [name] ;; Ret (inr tt)) (Counts 0 0 0 false).

Definition wc_main (argv : list (list Z)) : prog void :=
  match tail argv with [] => wc 0 [] ;; exit | args => each_file wc (lit "wc: cannot open %s" ++ nl) args end.

(** * [echo.c], [kill.c], [ln.c], [mkdir.c], [rm.c], [zombie.c] *)

Fixpoint echo_args (args : list (list Z)) : prog void :=
  match args with
  | [] => exit
  | a :: args' => printf 1 (lit "%s%s") [1; 2] [a; match args' with [] => nl | _ => lit " " end] ;; echo_args args'
  end.
Definition echo_main (argv : list (list Z)) : prog void := echo_args (tail argv).

(** [atoi]: the decimal digits at the front, with the wrap-around of an [int]. *)
Fixpoint atoi_from (n : Z) (s : list Z) : Z :=
  match s with
  | b :: s' => if (48 <=? b) && (b <=? 57) then atoi_from (s32 (n * 10 + b - 48)) s' else n
  | [] => n
  end.
Fixpoint kill_args (args : list (list Z)) : prog void :=
  match args with [] => exit | a :: args' => sys (Kill (atoi_from 0 a)) ;; kill_args args' end.
Definition kill_main (argv : list (list Z)) : prog void :=
  if (length argv <? 2)%nat then printf 2 (lit "usage: kill pid..." ++ nl) [] [] ;; exit else kill_args (tail argv).

Definition ln_main (argv : list (list Z)) : prog void :=
  match argv with
  | [_; old; new] =>
      r <- sys (Link old new) ;;
      (if r <? 0 then printf 2 (lit "link %s %s: failed" ++ nl) [1; 2] [old; new] else Ret tt) ;;
      exit
  | _ => printf 2 (lit "Usage: ln old new" ++ nl) [] [] ;; exit
  end.

(** [mkdir] and [rm] stop at the first failure. *)
Fixpoint each_arg (call : list Z → sysE Z) (msg : list Z) (args : list (list Z)) : prog void :=
  match args with
  | [] => exit
  | a :: args' => r <- sys (call a) ;; if r <? 0 then printf 2 msg [1] [a] ;; exit else each_arg call msg args'
  end.
Definition mkdir_main (argv : list (list Z)) : prog void :=
  if (length argv <? 2)%nat then printf 2 (lit "Usage: mkdir files..." ++ nl) [] [] ;; exit
  else each_arg Mkdir (lit "mkdir: %s failed to create" ++ nl) (tail argv).
Definition rm_main (argv : list (list Z)) : prog void :=
  if (length argv <? 2)%nat then printf 2 (lit "Usage: rm files..." ++ nl) [] [] ;; exit
  else each_arg Unlink (lit "rm: %s failed to delete" ++ nl) (tail argv).

Definition zombie_main : prog void :=
  pid <- sys Fork ;;
  (if 0 <? pid then sys (Sleep 5) ;; Ret tt else Ret tt) ;;
  exit.

(** * [ls.c] *)

Fixpoint until_slash (p : list Z) : list Z :=
  match p with c :: p' => if c =? 47 then [] else c :: until_slash p' | [] => [] end.
(** The characters after the last slash, found from the end. *)
Definition after_slash (path : list Z) : list Z := rev (until_slash (rev path)).
Definition fmtname (path : list Z) : list Z :=
  let p := after_slash path in
  if (Z.to_nat DIRSIZ <=? length p)%nat then p else p ++ replicate (Z.to_nat DIRSIZ - length p) 32.

Definition ls_line (name : list Z) (st : ustat) : prog unit :=
  printf 1 (lit "%s %d %d %d" ++ nl) [1; st_type st; st_ino st; st_size st] [fmtname name].

(** The entries of a directory. *)
Definition ls_entries (fd : Z) (path : list Z) : prog unit :=
  ITree.iter (λ _ : unit,
    r <- sys (Read fd 16) ;;
    if negb (r.1 =? 16) then Ret (inr tt)
    else if rd 2 0 r.2 =? 0 then Ret (inl tt)
    else
      let buf := path ++ [47] ++ cstr (Z.to_nat DIRSIZ) (slice 2 (Z.to_nat DIRSIZ) r.2) in
      q <- stat buf ;;
      if q.1 <? 0 then printf 1 (lit "ls: cannot stat %s" ++ nl) [1] [buf] ;; Ret (inl tt)
      else ls_line buf q.2 ;; Ret (inl tt)) tt.

Definition ls (path : list Z) : prog unit :=
  fd <- sys (Open path 0) ;;
  if fd <? 0 then printf 2 (lit "ls: cannot open %s" ++ nl) [1] [path]
  else
    r <- sys (Fstat fd) ;;
    if r.1 <? 0 then printf 2 (lit "ls: cannot stat %s" ++ nl) [1] [path] ;; sys (Close fd) ;; Ret tt
    else
      (if st_type r.2 =? T_FILE then ls_line path r.2
       else if st_type r.2 =? T_DIR then
         if 512 <? Z.of_nat (length path) + 1 + DIRSIZ + 1 then printf 1 (lit "ls: path too long" ++ nl) [] []
         else ls_entries fd path
       else Ret tt) ;;
      sys (Close fd) ;; Ret tt.

Fixpoint ls_args (args : list (list Z)) : prog void :=
  match args with [] => exit | a :: args' => ls a ;; ls_args args' end.
Definition ls_main (argv : list (list Z)) : prog void :=
  match tail argv with [] => ls [46] ;; exit | args => ls_args args end.

(** * [grep.c] *)

(** The loop over the lines in the buffer: the matching ones are written, and what is left
    behind the last newline; [p == buf] when there is none. *)
Fixpoint grep_lines (pattern cur b : list Z) (moved : bool) : prog (list Z * bool) :=
  match b with
  | [] => Ret (cur, moved)
  | c :: b' =>
      if c =? 0 then Ret (cur ++ b, moved)   (* the end of the string, for strchr *)
      else if c =? NL then
        (if match_ pattern cur then sys (Write 1 (cur ++ [NL])) ;; Ret tt else Ret tt) ;;
        grep_lines pattern [] b' true
      else grep_lines pattern (cur ++ [c]) b' moved
  end.
Definition grep (pattern : list Z) (fd : Z) : prog unit :=
  ITree.iter (λ left,
    r <- sys (Read fd (1024 - Z.of_nat (length left) - 1)) ;;
    if 0 <? r.1 then
      q <- grep_lines pattern [] (left ++ r.2) false ;;
      Ret (inl (if q.2 then q.1 else []))
    else Ret (inr tt)) [].

Definition grep_main (argv : list (list Z)) : prog void :=
  match argv with
  | _ :: pattern :: [] => grep pattern 0 ;; exit
  | _ :: pattern :: args => each_file (λ fd _, grep pattern fd) (lit "grep: cannot open %s" ++ nl) args
  | _ => printf 2 (lit "usage: grep pattern [file ...]" ++ nl) [] [] ;; exit
  end.

(** * [init.c] *)

Definition O_RDWR : Z := 2.

Definition init_wait (pid : Z) : prog unit :=
  ITree.iter (λ _ : unit,
    wpid <- sys Wait ;;
    if (0 <=? wpid) && negb (wpid =? pid) then printf 1 (lit "zombie!" ++ nl) [] [] ;; Ret (inl tt) else Ret (inr tt)) tt.

Definition init_main : prog void :=
  fd <- sys (Open (lit "console") O_RDWR) ;;
  (if fd <? 0 then sys (Mknod (lit "console") 1 1) ;; sys (Open (lit "console") O_RDWR) ;; Ret tt else Ret tt) ;;
  sys (Dup 0) ;;   (* stdout *)
  sys (Dup 0) ;;   (* stderr *)
  ITree.iter (λ _ : unit,
    printf 1 (lit "init: starting sh" ++ nl) [] [] ;;
    pid <- sys Fork ;;
    if pid <? 0 then printf 1 (lit "init: fork failed" ++ nl) [] [] ;; exit
    else if pid =? 0 then
      sys (Exec (lit "sh") [lit "sh"]) ;; printf 1 (lit "init: exec sh failed" ++ nl) [] [] ;; exit
    else init_wait pid ;; Ret (inl tt)) tt.

(** * The main loop of [sh.c] *)

Section sh.
(** What a child does with a command line: [runcmd(parsecmd(buf))]. *)
Context (child : list Z → prog void).

Definition getcmd (nbuf : Z) : prog (Z * list Z) :=
  printf 2 (lit "$ ") [] [] ;;
  bs <- gets nbuf ;;
  let buf := cstr (length bs) bs in
  match buf with [] => Ret (-1, []) | _ => Ret (0, buf) end.   (* EOF *)

Definition fork1 : prog Z :=
  pid <- sys Fork ;;
  if pid =? -1 then printf 2 (lit "%s" ++ nl) [1] [lit "fork"] ;; exit else Ret pid.

(** Ensure that three file descriptors are open. *)
Definition sh_open : prog unit :=
  ITree.iter (λ _ : unit,
    fd <- sys (Open (lit "console") O_RDWR) ;;
    if fd <? 0 then Ret (inr tt)
    else if 3 <=? fd then sys (Close fd) ;; Ret (inr tt)
    else Ret (inl tt)) tt.

Definition sh_main : prog void :=
  sh_open ;;
  (* Read and run input commands. *)
  ITree.iter (λ _ : unit,
    r <- getcmd 100 ;;
    if r.1 <? 0 then Ret (inr tt)
    else if bool_decide (take 3 r.2 = lit "cd ") then
      (* Chdir must be called by the parent, not the child. *)
      let dir := drop 3 (removelast r.2) in   (* chop \n *)
      q <- sys (Chdir dir) ;;
      (if q <? 0 then printf 2 (lit "cannot cd %s" ++ nl) [1] [dir] else Ret tt) ;;
      Ret (inl tt)
    else
      pid <- fork1 ;;
      (if pid =? 0 then v <- child r.2 ;; match (v : void) with end else Ret tt) ;;
      sys Wait ;;
      Ret (inl tt)) tt ;;
  exit.
End sh.
