(* ===== verification/UprogProps.v ===== *)
(** What user programs print, when the kernel serves their calls. *)
From stdpp Require Import base list numbers strings sets.
From Stdlib Require Import ZArith Lia.
From ITree Require Import ITree ITreeFacts Events.State Events.StateFacts.
From S2P Require Import Prelude Params Printf CString Grep Uprog.
Local Open Scope Z_scope.
Local Open Scope prog_scope.

(** * Lines, words and bytes *)

Fixpoint split_by (p : Z → bool) (l : list Z) : list (list Z) :=
  match l with
  | [] => [[]]
  | b :: l' => if p b then [] :: split_by p l' else match split_by p l' with e :: es => (b :: e) :: es | [] => [[b]] end
  end.
(** The words of a text: what is between white space and not empty. *)
Definition words (l : list Z) : list (list Z) := filter (λ e, e ≠ []) (split_by is_space l).
Definition newlines (l : list Z) : list Z := filter (λ b, b = 10) l.

(** The words that begin in [l], when a word may have begun before it. *)
Fixpoint starts (inword : bool) (l : list Z) : nat :=
  match l with
  | [] => 0
  | b :: l' => if is_space b then starts false l' else if inword then starts true l' else S (starts true l')
  end.

Lemma starts_words inword l :
  starts inword l = length (filter (λ e, e ≠ []) (if inword then tail (split_by is_space l) else split_by is_space l)).
Proof.
  revert inword. induction l as [|b l IH]; intros inword; cbn [starts split_by]; [by destruct inword|].
  destruct (is_space b).
  - rewrite IH. destruct inword; [done|]. by rewrite filter_cons_False by (intros H; by apply H).
  - pose proof (IH true) as IHt. assert (∃ e es, split_by is_space l = e :: es) as (e & es & Es).
    { destruct l as [|x l]; cbn [split_by]; [by eexists _, _|]. destruct (is_space x); [by eexists _, _|]. destruct (split_by is_space l); by eexists _, _. }
    rewrite Es in *. cbn [tail] in *. destruct inword; [done|]. rewrite filter_cons_True by done. cbn [length]. by rewrite IHt.
Qed.

Lemma starts_length i l : (starts i l <= length l)%nat.
Proof.
  revert i. induction l as [|x l IH]; intros i; cbn [starts length]; [done|]. destruct (is_space x), i; specialize (IH true) as H1; specialize (IH false) as H2; lia.
Qed.

Lemma count_bytes st l :
  0 <= wc_l st → 0 <= wc_w st → 0 <= wc_c st → Z.max (wc_l st) (Z.max (wc_w st) (wc_c st)) + Z.of_nat (length l) < 2 ^ 31 →
  ∃ b, foldl count_byte st l =
    Counts (wc_l st + Z.of_nat (length (newlines l))) (wc_w st + Z.of_nat (starts (wc_inword st) l)) (wc_c st + Z.of_nat (length l)) b.
Proof.
  revert st. induction l as [|x l IH]; intros [nl_ nw nc b] Hl Hw Hc Hb; cbn [wc_l wc_w wc_c wc_inword foldl length starts] in *.
  { exists b. cbn. f_equal; lia. }
  set (st' := count_byte _ x).
  assert (st' = Counts (if x =? 10 then nl_ + 1 else nl_) (if is_space x then nw else if b then nw else nw + 1) (nc + 1) (negb (is_space x))) as Est.
  { unfold st', count_byte. cbn [wc_l wc_w wc_c wc_inword]. rewrite !s32_small by lia. destruct (is_space x), b; done. }
  destruct (IH st') as [b' E]; rewrite Est; cbn [wc_l wc_w wc_c wc_inword]; [destruct (x =? 10); lia|destruct (is_space x), b; lia|lia|destruct (x =? 10), (is_space x), b; lia|].
  exists b'. rewrite <- Est, E, Est. cbn [wc_l wc_w wc_c wc_inword]. unfold newlines. f_equal.
  - destruct (Z.eqb_spec x 10); [rewrite filter_cons_True by done|rewrite filter_cons_False by done]; cbn [length]; lia.
  - destruct (is_space x); cbn [negb]; [lia|]. destruct b; lia.
  - lia.
Qed.

(** [%d]. *)
Definition dec (n : Z) : list Z := default [] (Printf.printint n 10 true).
Definition wc_line (name c : list Z) : list Z :=
  dec (Z.of_nat (length (newlines c))) ++ [32] ++ dec (Z.of_nat (length (words c))) ++ [32] ++ dec (Z.of_nat (length c)) ++ [32] ++ name ++ nl.

Lemma printf_counts l w c name :
  - 2 ^ 31 <= l < 2 ^ 31 → - 2 ^ 31 <= w < 2 ^ 31 → - 2 ^ 31 <= c < 2 ^ 31 →
  Printf.printf (λ i, [name] !!! Z.to_nat (i - 1)) (lit "%d %d %d %s" ++ nl) [l; w; c; 1] = Some (dec l ++ [32] ++ dec w ++ [32] ++ dec c ++ [32] ++ name ++ nl).
Proof.
  intros Hl Hw Hc. assert (lit "%d %d %d %s" ++ nl = [37; 100; 32; 37; 100; 32; 37; 100; 32; 37; 115; 10]) as -> by (vm_compute; reflexivity).
  assert (∀ n, - 2 ^ 31 <= n < 2 ^ 31 → Printf.printint (s32 n) 10 true = Some (dec n)) as Hd.
  { intros n Hn. unfold dec. destruct (printint_some digit_upper n 10 true ltac:(by left)) as [d Ed]. rewrite <- (s32_small n Hn) at 2. unfold Printf.printint. by rewrite Ed. }
  unfold Printf.printf. cbn [Printf.printf_loop negb Z.eqb Pos.eqb]. rewrite !Hd by done. cbn [mbind option_bind orb].
  change (Z.to_nat (1 - 1)) with 0%nat. done.
Qed.

(** * A kernel *)

(** The files by their paths, the descriptors with the bytes that are still to be read from them
    ([None]: closed), the number of reads so far, and what was written to each descriptor. *)
Record kern := Kern {
  k_files : list (list Z * list Z);
  k_fds : list (option (list Z));
  k_reads : nat;
  k_out : Z → list Z;
}.
(** The program has called [exit]. *)
Variant haltE : Type → Type := Halted (s : kern) : haltE void.
Definition halted {A} (s : kern) : itree haltE (kern * A) := v <- ITree.trigger (Halted s) ;; match (v : void) with end.

Fixpoint file_at (p : list Z) (fs : list (list Z * list Z)) : option (list Z) :=
  match fs with [] => None | (q, c) :: fs' => if bool_decide (p = q) then Some c else file_at p fs' end.
Fixpoint lowest (k : nat) (l : list (option (list Z))) : option nat :=
  match l with [] => None | None :: _ => Some k | Some _ :: l' => lowest (S k) l' end.
Definition add_out (fd : Z) (bs : list Z) (s : kern) : kern :=
  Kern (k_files s) (k_fds s) (k_reads s) (λ x, if x =? fd then k_out s x ++ bs else k_out s x).
Definition set_fd (k : nat) (o : option (list Z)) (s : kern) : kern := Kern (k_files s) (<[k := o]> (k_fds s)) (k_reads s) (k_out s).

Section kernel.
(** How many bytes the [k]-th read gets when there are more (one at least). *)
Context (pol : nat → nat).

Definition read_at (fd n : Z) (s : kern) : kern * (Z * list Z) :=
  match k_fds s !! Z.to_nat fd with
  | Some (Some bs) =>
      let k := (length bs `min` Z.to_nat n `min` S (pol (k_reads s)))%nat in
      (Kern (k_files s) (<[Z.to_nat fd := Some (drop k bs)]> (k_fds s)) (S (k_reads s)) (k_out s), (Z.of_nat k, take k bs))
  | _ => (s, (-1, []))
  end.

(** Files are opened for reading, at the lowest free descriptor; writing appends to the output of a
    descriptor.  The other calls fail. *)
Definition h_kern : ∀ R, sysE R → Monads.stateT kern (itree haltE) R := λ R e s,
  match e with
  | Exit => halted s
  | Open p _ => match file_at p (k_files s), lowest 0 (k_fds s) with
                | Some c, Some k => Ret (set_fd k (Some c) s, Z.of_nat k)
                | _, _ => Ret (s, -1)
                end
  | Read fd n => Ret (read_at fd n s)
  | Write fd bs => Ret (add_out fd bs s, Z.of_nat (length bs))
  | Close fd => Ret (set_fd (Z.to_nat fd) None s, 0)
  | Fstat _ => Ret (s, (-1, Ustat 0 0 0))
  | Fork => Ret (s, -1) | Wait => Ret (s, -1) | Kill _ => Ret (s, -1) | Exec _ _ => Ret (s, -1) | Mknod _ _ _ => Ret (s, -1)
  | Unlink _ => Ret (s, -1) | Link _ _ => Ret (s, -1) | Mkdir _ => Ret (s, -1) | Chdir _ => Ret (s, -1) | Dup _ => Ret (s, -1) | Sleep _ => Ret (s, -1)
  end.

Definition run {A} (t : prog A) (s : kern) : itree haltE (kern * A) := interp_state h_kern t s.
Notation "t ≈ u" := (eutt eq t u) (at level 70).

Lemma run_bind {A B} (t : prog A) (k : A → prog B) s : run (ITree.bind t k) s ≈ (x <- run t s ;; run (k x.2) x.1).
Proof. unfold run. rewrite interp_state_bind. reflexivity. Qed.
Lemma run_ret {A} (x : A) s : run (Ret x) s ≈ Ret (s, x).
Proof. unfold run. rewrite interp_state_ret. reflexivity. Qed.
Lemma run_sys {R} (e : sysE R) s : run (sys e) s ≈ h_kern R e s.
Proof. unfold run, sys. rewrite interp_state_trigger. reflexivity. Qed.

(** Steps of a run. *)
Lemma run_call {R B} (e : sysE R) (k : R → prog B) s s' r : h_kern R e s = Ret (s', r) → run (ITree.bind (sys e) k) s ≈ run (k r) s'.
Proof. intros H. rewrite run_bind, run_sys, H, bind_ret_l. reflexivity. Qed.
Lemma run_then {A B} (t : prog A) (k : A → prog B) s s' x : run t s ≈ Ret (s', x) → run (ITree.bind t k) s ≈ run (k x) s'.
Proof. intros H. rewrite run_bind, H, bind_ret_l. reflexivity. Qed.

Lemma run_iter {I A} (f : I → prog (I + A)) i s :
  run (ITree.iter f i) s ≈ (x <- run (f i) s ;; match x.2 with inl j => run (ITree.iter f j) x.1 | inr a => Ret (x.1, a) end).
Proof.
  unfold run. rewrite unfold_iter. rewrite interp_state_bind. apply eutt_eq_bind. intros [s' [j|a]]; cbn.
  - rewrite interp_state_tau, tau_eutt. reflexivity.
  - rewrite interp_state_ret. reflexivity.
Qed.

Lemma run_exit {A} s : run (exit : prog A) s ≈ halted s.
Proof.
  unfold exit. rewrite run_bind, run_sys. cbn. unfold halted. rewrite bind_bind. apply eutt_eq_bind. intros [].
Qed.
Lemma run_exit_then {A B} (k : A → prog B) s : run (ITree.bind exit k) s ≈ halted s.
Proof. rewrite run_bind, run_exit. unfold halted. rewrite bind_bind. apply eutt_eq_bind. intros []. Qed.

(** Printing. *)
Lemma run_puts fd bs s : ∃ s', run (puts fd bs) s ≈ Ret (s', tt) ∧ k_files s' = k_files s ∧ k_fds s' = k_fds s ∧ k_reads s' = k_reads s ∧
  ∀ x, k_out s' x = if x =? fd then k_out s x ++ bs else k_out s x.
Proof.
  revert s. induction bs as [|b bs IH]; intros s; cbn [puts].
  { exists s. split; [apply run_ret|]. split; [done|]. split; [done|]. split; [done|]. intros x. rewrite app_nil_r. by destruct (x =? fd). }
  destruct (IH (add_out fd [b] s)) as (s' & E & H1 & H2 & H3 & H4). exists s'. split; [rewrite (run_call (Write fd [b]) _ s (add_out fd [b] s) 1) by done; exact E|].
  split; [done|]. split; [done|]. split; [done|]. intros x. rewrite H4. cbn [add_out k_out]. destruct (x =? fd); [|done]. by rewrite <- app_assoc.
Qed.
(** [s'] is [s] after the bytes [bs] were written to descriptor [fd], up to the number of reads. *)
Record emitted (fd : Z) (bs : list Z) (s s' : kern) : Prop := {
  wt_files : k_files s' = k_files s;
  wt_fds : k_fds s' = k_fds s;
  wt_out : ∀ x, k_out s' x = if x =? fd then k_out s x ++ bs else k_out s x;
}.

Lemma emitted_nil fd s : emitted fd [] s s.
Proof. split; [done|done|]. intros x. rewrite app_nil_r. by destruct (x =? fd). Qed.
Lemma emitted_app fd a b s1 s2 s3 : emitted fd a s1 s2 → emitted fd b s2 s3 → emitted fd (a ++ b) s1 s3.
Proof.
  intros [A1 A2 A3] [B1 B2 B3]. split; [congruence|congruence|]. intros x. rewrite B3, A3. destruct (x =? fd); [|done]. by rewrite <- app_assoc.
Qed.

Lemma run_printf fd fmt args strs bs s :
  Printf.printf (λ i, strs !!! Z.to_nat (i - 1)) fmt args = Some bs → ∃ s', run (printf fd fmt args strs) s ≈ Ret (s', tt) ∧ emitted fd bs s s'.
Proof. intros H. unfold printf. rewrite H. destruct (run_puts fd bs s) as (s' & E & H1 & H2 & _ & H4). by exists s'. Qed.

(** ** [cat] *)

(** What a read gets from a descriptor. *)
Lemma read_step fd n s bs :
  k_fds s !! Z.to_nat fd = Some (Some bs) → 0 < n →
  ∃ k, (k = 0%nat ↔ bs = []) ∧ (k <= length bs)%nat ∧
    read_at fd n s = (Kern (k_files s) (<[Z.to_nat fd := Some (drop k bs)]> (k_fds s)) (S (k_reads s)) (k_out s), (Z.of_nat k, take k bs)).
Proof.
  intros Hfd Hn. unfold read_at. rewrite Hfd. exists (length bs `min` Z.to_nat n `min` S (pol (k_reads s)))%nat. split; [|split; [lia|done]].
  destruct bs; cbn [length]; [split; [done|lia]|split; [lia|done]].
Qed.

Lemma run_cat fd bs s :
  k_fds s !! Z.to_nat fd = Some (Some bs) →
  ∃ s', run (cat fd) s ≈ Ret (s', tt) ∧ emitted 1 bs (set_fd (Z.to_nat fd) (Some []) s) s'.
Proof.
  remember (length bs) as n eqn:Hn. revert bs s Hn. induction (lt_wf n) as [n _ IH]. intros bs s -> Hfd.
  destruct (read_step fd 512 s bs Hfd ltac:(lia)) as (k & Hk0 & Hkl & Hrd). apply lookup_lt_Some in Hfd as Hlt.
  destruct bs as [|b bs'].
  - assert (k = 0%nat) as -> by (by apply Hk0). eexists. split.
    + unfold cat. rewrite run_iter. rewrite (run_call (Read fd 512) _ s _ _ (f_equal (λ x, Ret x) Hrd)). cbn [fst snd]. change (0 <? Z.of_nat 0) with false. change (Z.of_nat 0 <? 0) with false. cbv iota. rewrite run_ret, bind_ret_l. cbn [fst snd]. reflexivity.
    + split; [done|done|]. intros x. cbn [k_out set_fd]. rewrite app_nil_r. by destruct (x =? 1).
  - set (bs := b :: bs') in *. assert (0 < k)%nat as Hk by (destruct k; [by destruct Hk0 as [H _]; specialize (H eq_refl)|lia]).
    set (s1 := Kern _ _ _ _) in Hrd. 
    destruct (IH (length (drop k bs)) ltac:(rewrite length_drop; cbn [bs length]; lia) (drop k bs) (add_out 1 (take k bs) s1) eq_refl) as (s' & E & W).
    { cbn [add_out k_fds s1]. by apply list_lookup_insert_eq. }
    exists s'. split.
    + unfold cat. rewrite run_iter. rewrite (run_call (Read fd 512) _ s _ _ (f_equal (λ x, Ret x) Hrd)). cbn [fst snd].
      rewrite (proj2 (Z.ltb_lt 0 (Z.of_nat k))) by lia.
      rewrite (run_call (Write 1 (take k bs)) _ s1 (add_out 1 (take k bs) s1) (Z.of_nat k)) by (cbn; rewrite length_take; do 3 f_equal; lia).
      rewrite Z.eqb_refl. cbn [negb]. rewrite run_ret, bind_ret_l. cbn [fst snd]. fold (cat fd). exact E.
    + destruct W as [W1 W2 W3]. split.
      * rewrite W1. done.
      * rewrite W2. cbn [set_fd add_out k_fds s1]. by rewrite list_insert_insert_eq.
      * intros x. rewrite W3. cbn [set_fd add_out k_out s1]. destruct (x =? 1); [|done]. by rewrite <- app_assoc, take_drop.
Qed.
(** ** [wc] *)

Definition wc_loop (fd : Z) (name : list Z) (st : counts) : prog unit :=
  ITree.iter (λ s,
    r <- sys (Read fd 512) ;;
    if 0 <? r.1 then Ret (inl (foldl count_byte s r.2))
    else if r.1 <? 0 then printf 1 (lit "wc: read error" ++ nl) [] [] ;; exit
    else printf 1 (lit "%d %d %d %s" ++ nl) [wc_l s; wc_w s; wc_c s; 1] [name] ;; Ret (inr tt)) st.

Lemma run_wc_loop fd name bs st s out :
  k_fds s !! Z.to_nat fd = Some (Some bs) →
  (let t := foldl count_byte st bs in Printf.printf (λ i, [name] !!! Z.to_nat (i - 1)) (lit "%d %d %d %s" ++ nl) [wc_l t; wc_w t; wc_c t; 1] = Some out) →
  ∃ s', run (wc_loop fd name st) s ≈ Ret (s', tt) ∧ emitted 1 out (set_fd (Z.to_nat fd) (Some []) s) s'.
Proof.
  remember (length bs) as n eqn:Hn. revert bs st s Hn. induction (lt_wf n) as [n _ IH]. intros bs st s -> Hfd Hout.
  destruct (read_step fd 512 s bs Hfd ltac:(lia)) as (k & Hk0 & Hkl & Hrd). apply lookup_lt_Some in Hfd as Hlt. set (s1 := Kern _ _ _ _) in Hrd.
  destruct bs as [|b bs'].
  - assert (k = 0%nat) as -> by (by apply Hk0). destruct (run_printf 1 _ _ _ _ s1 Hout) as (s' & E & W). exists s'. split; [|by destruct W].
    unfold wc_loop. rewrite run_iter. rewrite (run_call (Read fd 512) _ s _ _ (f_equal (λ x, Ret x) Hrd)). cbn [fst snd].
    change (0 <? Z.of_nat 0) with false. change (Z.of_nat 0 <? 0) with false. cbv iota. rewrite (run_then _ _ _ _ _ E). rewrite run_ret, bind_ret_l. cbn [fst snd]. reflexivity.
  - set (bs := b :: bs') in *. assert (0 < k)%nat as Hk by (destruct k; [by destruct Hk0 as [H _]; specialize (H eq_refl)|lia]).
    destruct (IH (length (drop k bs)) ltac:(rewrite length_drop; cbn [bs length]; lia) (drop k bs) (foldl count_byte st (take k bs)) s1 eq_refl) as (s' & E & W).
    { cbn [k_fds s1]. by apply list_lookup_insert_eq. }
    { cbv zeta. rewrite <- foldl_app, take_drop. exact Hout. }
    exists s'. split.
    + unfold wc_loop. rewrite run_iter. rewrite (run_call (Read fd 512) _ s _ _ (f_equal (λ x, Ret x) Hrd)). cbn [fst snd].
      rewrite (proj2 (Z.ltb_lt 0 (Z.of_nat k))) by lia. rewrite run_ret, bind_ret_l. cbn [fst snd]. fold (wc_loop fd name (foldl count_byte st (take k bs))). exact E.
    + destruct W as [W1 W2 W3]. split; [done| |done]. rewrite W2. cbn [set_fd k_fds s1]. by rewrite list_insert_insert_eq.
Qed.

Lemma run_wc fd name bs s :
  k_fds s !! Z.to_nat fd = Some (Some bs) → Z.of_nat (length bs) < 2 ^ 31 →
  ∃ s', run (wc fd name) s ≈ Ret (s', tt) ∧ emitted 1 (wc_line name bs) (set_fd (Z.to_nat fd) (Some []) s) s'.
Proof.
  intros Hfd Hlen. change (wc fd name) with (wc_loop fd name (Counts 0 0 0 false)). eapply run_wc_loop; [done|]. cbv zeta.
  destruct (count_bytes (Counts 0 0 0 false) bs) as [b ->]; cbn [wc_l wc_w wc_c wc_inword]; [lia|lia|lia|lia|].
  rewrite !Z.add_0_l, (starts_words false). fold (words bs). unfold wc_line.
  apply printf_counts; [pose proof (length_filter (λ b, b = 10) bs); unfold newlines; lia| |lia].
  pose proof (starts_length false bs) as Hs. rewrite (starts_words false) in Hs. fold (words bs) in Hs. lia.
Qed.

(** ** [grep] *)

Lemma run_grep_lines pattern cur b mv s :
  0 ∉ b → ∃ s', run (grep_lines pattern cur b mv) s ≈ Ret (s', ((scan_lines pattern cur b).2, mv || bool_decide (NL ∈ b))) ∧
    emitted 1 (scan_lines pattern cur b).1 s s'.
Proof.
  revert cur mv s. induction b as [|c b IH]; intros cur mv s H0; cbn [grep_lines scan_lines].
  { exists s. split; [|apply emitted_nil]. rewrite run_ret, bool_decide_false by set_solver. by rewrite orb_false_r. }
  apply not_elem_of_cons in H0 as [Hc H0]. rewrite (proj2 (Z.eqb_neq c 0)) by congruence.
  destruct (Z.eqb_spec c NL) as [->|Hne].
  - assert (∃ s1, run (if match_ pattern cur then sys (Write 1 (cur ++ [NL])) ;; Ret tt else Ret tt) s ≈ Ret (s1, tt) ∧
      emitted 1 (if match_ pattern cur then cur ++ [NL] else []) s s1) as (s1 & E1 & W1).
    { destruct (match_ pattern cur).
      - exists (add_out 1 (cur ++ [NL]) s). split; [|by split]. rewrite (run_call (Write 1 (cur ++ [NL])) _ s (add_out 1 (cur ++ [NL]) s) (Z.of_nat (length (cur ++ [NL])))) by done. apply run_ret.
      - exists s. split; [apply run_ret|apply emitted_nil]. }
    destruct (IH [] true s1 H0) as (s' & E & W). exists s'. rewrite bool_decide_true by (by left). rewrite orb_true_r.
    destruct (scan_lines pattern [] b) as [o rest]. cbn [fst snd] in *. split; [|by eapply emitted_app]. rewrite (run_then _ _ _ _ _ E1). exact E.
  - destruct (IH (cur ++ [c]) mv s H0) as (s' & E & W). exists s'. split; [|exact W]. rewrite E. rewrite (bool_decide_ext (NL ∈ c :: b) (NL ∈ b)) by set_solver. reflexivity.
Qed.

Definition grep_from (pattern : list Z) (fd : Z) (left : list Z) : prog unit :=
  ITree.iter (λ left,
    r <- sys (Read fd (1024 - Z.of_nat (length left) - 1)) ;;
    if 0 <? r.1 then
      q <- grep_lines pattern [] (left ++ r.2) false ;;
      Ret (inl (if q.2 then q.1 else []))
    else Ret (inr tt)) left.

Lemma scan_lines_rest pattern cur b :
  (length (scan_lines pattern cur b).2 <= length cur + length b)%nat ∧ (NL ∈ b → (length (scan_lines pattern cur b).2 < length cur + length b)%nat) ∧
  ∀ x, x ∈ (scan_lines pattern cur b).2 → x ∈ cur ∨ x ∈ b.
Proof.
  revert cur. induction b as [|c b IH]; intros cur; cbn [scan_lines length].
  { cbn [snd]. split; [lia|]. split; [set_solver|by left]. }
  destruct (Z.eqb_spec c NL) as [->|Hne].
  - destruct (IH []) as (H1 & _ & H3). destruct (scan_lines pattern [] b) as [o rest]. cbn [snd length] in *. split; [lia|]. split; [lia|]. intros x Hx. destruct (H3 x Hx); set_solver.
  - destruct (IH (cur ++ [c])) as (H1 & H2 & H3). rewrite length_app in H1, H2. cbn [length] in H1, H2. split; [lia|]. split.
    + intros HNL. assert (NL ∈ b) as Hb by set_solver. specialize (H2 Hb). lia.
    + intros x Hx. destruct (H3 x Hx); set_solver.
Qed.

Lemma grep_loop_cons pattern left data reads :
  data ≠ [] → grep_loop pattern left (data :: reads) =
    (scan_lines pattern [] (left ++ data)).1 ++ grep_loop pattern (if bool_decide (NL ∈ left ++ data) then (scan_lines pattern [] (left ++ data)).2 else []) reads.
Proof. intros Hd. cbn [grep_loop]. destruct data; [done|]. by destruct (scan_lines _ _ _). Qed.

(** On text without NUL bytes the program prints what [Grep.grep] says of the reads that bring it. *)
Lemma run_grep_from pattern fd left bs s :
  k_fds s !! Z.to_nat fd = Some (Some bs) → 0 ∉ left → 0 ∉ bs → (length left <= 1022)%nat →
  ∃ s' reads, run (grep_from pattern fd left) s ≈ Ret (s', tt) ∧ concat reads = bs ∧
    emitted 1 (grep_loop pattern left reads) (set_fd (Z.to_nat fd) (Some []) s) s'.
Proof.
  remember (length bs) as n eqn:Hn. revert bs left s Hn. induction (lt_wf n) as [n _ IH]. intros bs left s -> Hfd Hl0 Hb0 Hll.
  destruct (read_step fd (1024 - Z.of_nat (length left) - 1) s bs Hfd ltac:(lia)) as (k & Hk0 & Hkl & Hrd). apply lookup_lt_Some in Hfd as Hlt.
  destruct bs as [|b bs'].
  - assert (k = 0%nat) as -> by (by apply Hk0). exists (Kern (k_files s) (<[Z.to_nat fd := Some []]> (k_fds s)) (S (k_reads s)) (k_out s)), []. split; [|split; [done|]].
    + unfold grep_from. rewrite run_iter. rewrite (run_call (Read fd (1024 - Z.of_nat (length left) - 1)) _ s _ _ (f_equal (λ x, Ret x) Hrd)). cbn [fst snd].
      change (0 <? Z.of_nat 0) with false. cbv iota. rewrite run_ret, bind_ret_l. cbn [fst snd]. reflexivity.
    + split; [done|done|]. intros x. cbn [k_out set_fd grep_loop]. rewrite app_nil_r. by destruct (x =? 1).
  - set (bs := b :: bs') in *. assert (0 < k)%nat as Hk by (destruct k; [by destruct Hk0 as [H _]; specialize (H eq_refl)|lia]).
    assert (k <= 1023 - length left)%nat as Hkb.
    { pose proof (f_equal (λ p, p.2.1) Hrd) as Hk'. unfold read_at in Hk'. rewrite Hfd in Hk'. cbn [fst snd] in Hk'. lia. }
    set (s1 := Kern _ _ _ _) in Hrd. set (data := take k bs) in *.
    assert (0 ∉ data ∧ 0 ∉ drop k bs) as [Hd0 Hr0] by (rewrite <- (take_drop k bs) in Hb0; by apply not_elem_of_app in Hb0).
    destruct (run_grep_lines pattern [] (left ++ data) false s1) as (s2 & E2 & W2); [by apply not_elem_of_app|].
    destruct (scan_lines_rest pattern [] (left ++ data)) as (Hr1 & Hr2 & Hr3). cbn [length Nat.add] in Hr1, Hr2. rewrite length_app in Hr1, Hr2.
    assert (length data = k) as Hdl by (unfold data; rewrite length_take; lia).
    set (left' := if bool_decide (NL ∈ left ++ data) then (scan_lines pattern [] (left ++ data)).2 else []).
    destruct (IH (length (drop k bs)) ltac:(rewrite length_drop; cbn [bs length]; lia) (drop k bs) left' s2 eq_refl) as (s' & reads & E & Hc & W).
    { rewrite (wt_fds _ _ _ _ W2). cbn [k_fds s1]. by apply list_lookup_insert_eq. }
    { unfold left'. case_bool_decide; [|set_solver]. intros Hx. destruct (Hr3 0 Hx); set_solver. }
    { done. }
    { unfold left'. case_bool_decide as HNL; [|cbn; lia]. specialize (Hr2 HNL). lia. }
    exists s', (data :: reads). split; [|split].
    + unfold grep_from. rewrite run_iter. rewrite (run_call (Read fd (1024 - Z.of_nat (length left) - 1)) _ s _ _ (f_equal (λ x, Ret x) Hrd)). cbn [fst snd].
      rewrite (proj2 (Z.ltb_lt 0 (Z.of_nat k))) by lia. rewrite (run_then _ _ _ _ _ E2). rewrite run_ret, bind_ret_l. cbn [fst snd orb]. fold left'. fold (grep_from pattern fd left'). exact E.
    + cbn [concat]. rewrite Hc. apply take_drop.
    + rewrite grep_loop_cons by (intros Hd; rewrite Hd in Hdl; cbn in Hdl; lia). fold left'. destruct W2 as [A1 A2 A3], W as [B1 B2 B3]. split.
      * rewrite B1. cbn [set_fd k_files]. by rewrite A1.
      * rewrite B2. cbn [set_fd k_fds]. rewrite A2. cbn [k_fds s1]. by rewrite list_insert_insert_eq.
      * intros y. rewrite B3. cbn [set_fd k_out]. rewrite A3. cbn [k_out s1]. destruct (y =? 1); [|done]. by rewrite <- app_assoc.
Qed.

(** ** Programs with file arguments *)

Lemma lowest_free k l i : lowest k l = Some i → (k <= i)%nat ∧ l !! (i - k)%nat = Some None.
Proof.
  revert k. induction l as [|[x|] l IH]; intros k; cbn [lowest]; [done| |intros [= <-]; by rewrite Nat.sub_diag].
  intros H. destruct (IH _ H) as [Hle Hl]. split; [lia|]. by replace (i - k)%nat with (S (i - S k)) by lia.
Qed.

(** What is emitted for the arguments, up to the first one that is no file. *)
Fixpoint files_output (out : list Z → list Z → list Z) (prefix : list Z) (fs : list (list Z * list Z)) (args : list (list Z)) : list Z :=
  match args with
  | [] => []
  | a :: args' => match file_at a fs with Some c => out a c ++ files_output out prefix fs args' | None => prefix ++ a ++ nl end
  end.

Lemma file_at_elem a fs c : file_at a fs = Some c → ∃ q, (q, c) ∈ fs.
Proof.
  induction fs as [|[q x] fs IH]; cbn [file_at]; [done|]. case_bool_decide; [intros [= <-]; exists q; by left|]. intros H'. destruct (IH H') as [q' Hq]. exists q'. by right.
Qed.

Lemma run_each_file (ok : list Z → Prop) f out msg prefix :
  (∀ fd a c s, ok c → k_fds s !! Z.to_nat fd = Some (Some c) → ∃ s', run (f fd a) s ≈ Ret (s', tt) ∧ emitted 1 (out a c) (set_fd (Z.to_nat fd) (Some []) s) s') →
  (∀ a, Printf.printf (λ i, [a] !!! Z.to_nat (i - 1)) msg [1] = Some (prefix ++ a ++ nl)) →
  ∀ args s, lowest 0 (k_fds s) ≠ None → Forall (λ f, ok f.2) (k_files s) →
  ∃ s', run (each_file f msg args) s ≈ halted s' ∧ emitted 1 (files_output out prefix (k_files s) args) s s'.
Proof.
  intros Hf Hmsg args. induction args as [|a args IH]; intros s Hlow Hok; cbn [each_file files_output].
  { exists s. split; [apply run_exit|apply emitted_nil]. }
  destruct (lowest 0 (k_fds s)) as [k|] eqn:Ek; [|done]. destruct (lowest_free _ _ _ Ek) as [_ Hk]. rewrite Nat.sub_0_r in Hk. apply lookup_lt_Some in Hk as Hlt.
  destruct (file_at a (k_files s)) as [c|] eqn:Ea.
  - destruct (Hf (Z.of_nat k) a c (set_fd k (Some c) s)) as (s1 & E1 & [W1 W2 W3]).
    { destruct (file_at_elem _ _ _ Ea) as [q Hq]. by apply (proj1 (Forall_forall _ _) Hok (q, c)). }
    { rewrite Nat2Z.id. cbn [set_fd k_fds]. by apply list_lookup_insert_eq. }
    rewrite Nat2Z.id in W1, W2, W3. cbn [set_fd k_files k_fds k_out] in W1, W2, W3.
    set (s2 := set_fd (Z.to_nat (Z.of_nat k)) None s1).
    assert (emitted 1 (out a c) s s2) as Ws.
    { split; [done| |done]. unfold s2. rewrite Nat2Z.id. cbn [set_fd k_fds]. rewrite W2, !list_insert_insert_eq. by apply list_insert_id. }
    destruct (IH s2) as (s' & E & W). { rewrite (wt_fds _ _ _ _ Ws). congruence. } { by rewrite (wt_files _ _ _ _ Ws). }
    exists s'. split.
    + rewrite (run_call (Open a 0) _ s (set_fd k (Some c) s) (Z.of_nat k)) by (cbn; by rewrite Ea, Ek).
      rewrite (proj2 (Z.ltb_ge (Z.of_nat k) 0)) by lia. rewrite (run_then _ _ _ _ _ E1). by rewrite (run_call (Close (Z.of_nat k)) _ s1 s2 0) by done.
    + rewrite (wt_files _ _ _ _ Ws) in W. by eapply emitted_app.
  - destruct (run_printf 1 msg [1] [a] _ s (Hmsg a)) as (s' & E & W). exists s'. split; [|exact W].
    rewrite (run_call (Open a 0) _ s s (-1)) by (cbn; by rewrite Ea). change (-1 <? 0) with true. cbv iota. rewrite (run_then _ _ _ _ _ E). apply run_exit.
Qed.
End kernel.

Notation "t ≈ u" := (eutt eq t u) (at level 70).

(** What is emitted by a program that works on its file arguments, or on its input if there are none. *)
Definition main_output (out : list Z → list Z → list Z) (prefix input : list Z) (s : kern) (argv : list (list Z)) : list Z :=
  match tail argv with [] => out [] input | args => files_output out prefix (k_files s) args end.

Lemma run_main pol (ok : list Z → Prop) (f : Z → list Z → prog unit) out msg prefix argv s input (main : prog void) :
  main = match tail argv with [] => f 0 [] ;; exit | args => each_file f msg args end →
  (∀ fd a c s, ok c → k_fds s !! Z.to_nat fd = Some (Some c) → ∃ s', run pol (f fd a) s ≈ Ret (s', tt) ∧ emitted 1 (out a c) (set_fd (Z.to_nat fd) (Some []) s) s') →
  (∀ a, Printf.printf (λ i, [a] !!! Z.to_nat (i - 1)) msg [1] = Some (prefix ++ a ++ nl)) →
  k_fds s !! 0%nat = Some (Some input) → ok input → lowest 0 (k_fds s) ≠ None → Forall (λ f, ok f.2) (k_files s) →
  ∃ s', run pol main s ≈ halted s' ∧ ∀ x, k_out s' x = if x =? 1 then k_out s x ++ main_output out prefix input s argv else k_out s x.
Proof.
  intros -> Hf Hmsg Hin Hok Hlow Hfs. unfold main_output. destruct (tail argv) as [|a args].
  - destruct (Hf 0 [] input s Hok Hin) as (s' & E & [_ _ W]). exists s'. split; [|exact W]. rewrite (run_then _ _ _ _ _ _ E). apply run_exit.
  - destruct (run_each_file pol ok f out msg prefix Hf Hmsg (a :: args) s Hlow Hfs) as (s' & E & [_ _ W]). exists s'. split; [exact E|exact W].
Qed.

(** [cat] prints its files.  However the kernel cuts the files into reads, [cat] with file
    arguments writes their contents to descriptor 1, one after the other, and then exits; at the
    first one that is missing it writes its message and exits.  Without arguments it copies its
    input.  It writes nothing to any other descriptor. *)
Theorem cat_prints_files pol argv s input :
  k_fds s !! 0%nat = Some (Some input) → lowest 0 (k_fds s) ≠ None →
  ∃ s', run pol (cat_main argv) s ≈ halted s' ∧
    ∀ x, k_out s' x = if x =? 1 then k_out s x ++ main_output (λ _ c, c) (lit "cat: cannot open ") input s argv else k_out s x.
Proof.
  intros Hin Hlow. apply (run_main pol (λ _, True) (λ fd _, cat fd) _ (lit "cat: cannot open %s" ++ nl)); try done.
  - intros fd a c t _ Hfd. by apply run_cat.
  - by apply Forall_true.
Qed.

(** [wc] counts lines, words and bytes.  However the kernel cuts a file into reads, also in the
    middle of words, [wc] prints for each of its arguments the number of newlines, the number of
    words - the pieces between white space that are not empty - and the number of bytes, in
    decimal, and the name; for its input without arguments.  The files are smaller than 2 GB. *)
Theorem wc_counts pol argv s input :
  k_fds s !! 0%nat = Some (Some input) → lowest 0 (k_fds s) ≠ None → Z.of_nat (length input) < 2 ^ 31 → Forall (λ f, Z.of_nat (length f.2) < 2 ^ 31) (k_files s) →
  ∃ s', run pol (wc_main argv) s ≈ halted s' ∧
    ∀ x, k_out s' x = if x =? 1 then k_out s x ++ main_output wc_line (lit "wc: cannot open ") input s argv else k_out s x.
Proof.
  intros Hin Hlow Hlen Hfs. apply (run_main pol (λ c, Z.of_nat (length c) < 2 ^ 31) wc _ (lit "wc: cannot open %s" ++ nl)); try done.
  intros fd a c t Hc Hfd. by apply run_wc.
Qed.

Definition ex_kern : kern := Kern [([102], [97; 98; 32; 99; 10; 100])] [Some [120; 10]; Some []; Some []; None] 0 (λ _, []).

Lemma cat_prints_files_witness :
  ∃ s', run (λ _, 1%nat) (cat_main [[99]; [102]; [103]]) ex_kern ≈ halted s' ∧ k_out s' 1 = [97; 98; 32; 99; 10; 100] ++ lit "cat: cannot open " ++ [103; 10].
Proof.
  destruct (cat_prints_files (λ _, 1%nat) [[99]; [102]; [103]] ex_kern [120; 10]) as (s' & E & H); [reflexivity|discriminate|].
  exists s'. split; [exact E|]. rewrite H. vm_compute. reflexivity.
Defined.
Lemma wc_counts_witness :
  ∃ s', run (λ _, 0%nat) (wc_main [[119]; [102]]) ex_kern ≈ halted s' ∧ k_out s' 1 = lit "1 3 6 f" ++ nl.
Proof.
  destruct (wc_counts (λ _, 0%nat) [[119]; [102]] ex_kern [120; 10]) as (s' & E & H); [reflexivity|discriminate|cbn; lia|repeat constructor|].
  exists s'. split; [exact E|]. rewrite H. vm_compute. reflexivity.
Defined.

(** The arguments with blanks between them, and a newline. *)
Fixpoint joined (args : list (list Z)) : list Z :=
  match args with [] => [] | [a] => a ++ nl | a :: args' => a ++ lit " " ++ joined args' end.

(** [echo] prints its arguments. *)
Theorem echo_prints pol argv s :
  ∃ s', run pol (echo_main argv) s ≈ halted s' ∧ emitted 1 (joined (tail argv)) s s'.
Proof.
  unfold echo_main. generalize (tail argv). intros args. revert s. induction args as [|a args IH]; intros s; cbn [echo_args].
  { exists s. split; [apply run_exit|apply emitted_nil]. }
  assert (∀ b, Printf.printf (λ i, [a; b] !!! Z.to_nat (i - 1)) (lit "%s%s") [1; 2] = Some (a ++ b)) as Hp.
  { intros b. change (lit "%s%s") with [37; 115; 37; 115]. unfold Printf.printf. cbn [Printf.printf_loop negb Z.eqb Pos.eqb mbind option_bind orb].
    change (Z.to_nat (1 - 1)) with 0%nat. change (Z.to_nat (2 - 1)) with 1%nat. cbn [list_lookup_total lookup_total app]. by rewrite app_nil_r. }
  destruct (run_printf pol 1 _ _ _ _ s (Hp (match args with [] => nl | _ => lit " " end))) as (s1 & E1 & W1). destruct (IH s1) as (s' & E & W).
  exists s'. split; [rewrite (run_then _ _ _ _ _ _ E1); exact E|]. pose proof (emitted_app _ _ _ _ _ _ W1 W) as H.
  destruct args as [|a' args']; cbn [joined] in *; rewrite <- app_assoc in H; [by rewrite app_nil_r in H|exact H].
Qed.

(** [fmtname] prints at least the width of a name: the characters after the last slash, padded with
    blanks. *)
Theorem fmtname_pads dir name :
  47 ∉ name → fmtname (dir ++ 47 :: name) = fmtname name ∧ take (length name) (fmtname name) = name ∧
  (Z.to_nat DIRSIZ <= length (fmtname name))%nat.
Proof.
  intros Hn. assert (∀ l r, 47 ∉ l → until_slash (l ++ 47 :: r) = l ∧ until_slash l = l) as Hu.
  { intros l r. induction l as [|x l IH]; [done|]. intros [Hx Hl]%not_elem_of_cons. cbn [app until_slash]. rewrite (proj2 (Z.eqb_neq x 47)) by congruence. destruct (IH Hl). by split; f_equal. }
  assert (47 ∉ rev name) as Hr by (intros H; apply Hn; by apply in_rev, list_elem_of_In in H || (apply list_elem_of_In, in_rev; by apply list_elem_of_In)).
  assert (after_slash (dir ++ 47 :: name) = name ∧ after_slash name = name) as [E1 E2].
  { unfold after_slash. replace (rev (dir ++ 47 :: name)) with (rev name ++ 47 :: rev dir) by (rewrite rev_app_distr; cbn [rev]; by rewrite <- app_assoc).
    destruct (Hu (rev name) (rev dir) Hr) as [-> ->]. by rewrite rev_involutive. }
  unfold fmtname. rewrite E1, E2. split; [done|]. destruct (Nat.leb_spec (Z.to_nat DIRSIZ) (length name)).
  - by rewrite firstn_all.
  - rewrite take_app_length, length_app, length_replicate. split; [done|lia].
Qed.

(** [grep] on its input prints what [Grep.grep] says of the reads that bring the input, one after the
    other, when the input is text without NUL bytes. *)
Theorem grep_runs pol name pattern s input :
  k_fds s !! 0%nat = Some (Some input) → 0 ∉ input →
  ∃ s' reads, run pol (grep_main [name; pattern]) s ≈ halted s' ∧ concat reads = input ∧
    ∀ x, k_out s' x = if x =? 1 then k_out s x ++ Grep.grep pattern reads else k_out s x.
Proof.
  intros Hin H0. destruct (run_grep_from pol pattern 0 [] input s Hin) as (s' & reads & E & Hc & [_ _ W]); [set_solver|done|cbn; lia|].
  exists s', reads. split; [|split; [exact Hc|exact W]]. cbn [grep_main]. rewrite (run_then _ _ _ _ _ _ E). apply run_exit.
Qed.
