(* ===== verification/Boot.v ===== *)
(** Starting the machine: segments ([seginit]), the kernel's page table ([kvmalloc]) and the
    first one ([entrypgdir]), the serial port ([uart.c]), and [startothers], which starts
    the other processors while they run. *)
From stdpp Require Import base list numbers strings sets gmap relations.
From Stdlib Require Import ZArith Lia.
From S2P Require Import Prelude Params Machine Spinlock Kalloc KallocSpec Vm VmSpec Console.
Local Open Scope Z_scope.
Local Open Scope xv6_scope.

(** * Segments *)

Definition SEG_KCODE : nat := 1.
Definition SEG_KDATA : nat := 2.
Definition SEG_UCODE : nat := 3.
Definition SEG_UDATA : nat := 4.
Definition NSEGS : nat := 6.
Definition DPL_USER : Z := 3.
Definition STA_X : Z := 8.
Definition STA_W : Z := 2.
Definition STA_R : Z := 2.

(** The six bytes that [lgdt] reads: the limit and the two halves of the address. *)
Definition lgdt (p size : Z) : list Z := [u16 (size - 1); u16 p; u16 (Z.shiftr p 16)].
(** Where the processor finds the table, and its last byte. *)
Definition gdtr_base (pd : list Z) : Z := pd !!! 1%nat + Z.shiftl (pd !!! 2%nat) 16.
Definition gdtr_limit (pd : list Z) : Z := pd !!! 0%nat.

(** Set up CPU's kernel segment descriptors: the table at [addr], and what [lgdt] loads. *)
Definition seginit (addr : Z) (gdt : list segdesc) : list segdesc * list Z :=
  let gdt := <[SEG_KCODE := SEG (Z.lor STA_X STA_R) 0 0xffffffff 0]> gdt in
  let gdt := <[SEG_KDATA := SEG STA_W 0 0xffffffff 0]> gdt in
  let gdt := <[SEG_UCODE := SEG (Z.lor STA_X STA_R) 0 0xffffffff DPL_USER]> gdt in
  let gdt := <[SEG_UDATA := SEG STA_W 0 0xffffffff DPL_USER]> gdt in
  (gdt, lgdt addr (8 * Z.of_nat NSEGS)).

(** The segments are the whole address space, for the kernel and for users, code and data;
    the processor finds the table. *)
Theorem seginit_flat addr gdt :
  length gdt = NSEGS → 0 <= addr < 2 ^ 32 →
  let '(gdt', pd) := seginit addr gdt in
  (∀ k, (1 <= k <= 4)%nat → ∃ d, gdt' !! k = Some d ∧ seg_base d = 0 ∧ seg_limit d = 2 ^ 32 - 1 ∧ sd_p d = 1 ∧
     sd_dpl d = (if decide (k <= 2)%nat then 0 else DPL_USER) ∧ (Z.testbit (sd_type d) 3 = Nat.odd k)) ∧
  (∀ k, (k < 1 ∨ 4 < k)%nat → gdt' !! k = gdt !! k) ∧ gdtr_base pd = addr ∧ gdtr_limit pd = 8 * Z.of_nat NSEGS - 1.
Proof.
  intros Hl Ha. destruct gdt as [|g0 [|g1 [|g2 [|g3 [|g4 [|g5 [|]]]]]]]; try discriminate Hl. cbn [seginit]. split; [|split; [|split]].
  - intros k Hk. destruct k as [|[|[|[|[|k]]]]]; [lia|..|lia]; (eexists; split; [reflexivity|]; repeat (split; [reflexivity|]); reflexivity).
  - intros k Hk. destruct k as [|[|[|[|[|k]]]]]; [done|lia..|done].
  - unfold gdtr_base, lgdt. cbn [lookup_total list_lookup_total]. unfold u16. rewrite Z.shiftl_mul_pow2, Z.shiftr_div_pow2 by lia.
    pose proof (Z.div_mod addr (2 ^ 16) ltac:(lia)). assert (0 <= addr / 2 ^ 16 < 2 ^ 16) by (split; [apply Z.div_pos; lia|apply Z.div_lt_upper_bound; lia]).
    rewrite (Z.mod_small (addr / 2 ^ 16)) by lia. lia.
  - reflexivity.
Qed.

(** * The first page table *)

Definition PTE_PS : Z := 0x080.

(** [entrypgdir], with pages of 4 MB. *)
Definition entrypgdir : list Z :=
  <[Z.to_nat (Z.shiftr KERNBASE PDXSHIFT) := Z.lor (Z.lor PTE_P PTE_W) PTE_PS]>
    (<[0%nat := Z.lor (Z.lor PTE_P PTE_W) PTE_PS]> (replicate (Z.to_nat NPDENTRIES) 0)).

(** How the processor translates an address with a directory of 4 MB pages. *)
Definition translate4m (pgdir : list Z) (va : Z) : option Z :=
  match pgdir !! Z.to_nat (PDX va) with
  | Some e => if negb (Z.land e PTE_P =? 0) && negb (Z.land e PTE_PS =? 0)
              then Some (e / 2 ^ 22 * 2 ^ 22 + va mod 2 ^ 22) else None
  | None => None
  end.

Lemma PDX_div va : 0 <= va < 2 ^ 32 → PDX va = va / 2 ^ 22.
Proof.
  intros Hv. unfold PDX, PDXSHIFT. rewrite u32_small by done. rewrite Z.shiftr_div_pow2 by lia. change 0x3FF with (Z.ones 10).
  rewrite Z.land_ones by lia. apply Z.mod_small. split; [apply Z.div_pos; lia|apply Z.div_lt_upper_bound; lia].
Qed.

(** The first table maps the first 4 MB of memory where they are and where the kernel runs,
    and nothing else. *)
Theorem entrypgdir_maps va :
  0 <= va < 2 ^ 32 →
  translate4m entrypgdir va =
  if decide (va < 2 ^ 22) then Some va else if decide (KERNBASE <= va < KERNBASE + 2 ^ 22) then Some (va - KERNBASE) else None.
Proof.
  intros Hv. unfold translate4m. rewrite PDX_div by done. pose proof (Z.div_mod va (2 ^ 22) ltac:(lia)) as Hdm.
  pose proof (Z.mod_pos_bound va (2 ^ 22) ltac:(lia)) as Hm.
  assert (0 <= va / 2 ^ 22 < 1024) as Hq by (split; [apply Z.div_pos; lia|apply Z.div_lt_upper_bound; lia]).
  unfold entrypgdir. change (Z.to_nat (Z.shiftr KERNBASE PDXSHIFT)) with (Z.to_nat 512). unfold KERNBASE.
  assert (length (replicate (Z.to_nat NPDENTRIES) 0) = Z.to_nat 1024) as Hlen by apply length_replicate.
  destruct (decide (va / 2 ^ 22 = 512)) as [E|E].
  { rewrite E, list_lookup_insert_eq by (rewrite length_insert, Hlen; lia). change (Z.lor (Z.lor PTE_P PTE_W) PTE_PS) with 131.
    change (negb (Z.land 131 PTE_P =? 0) && negb (Z.land 131 PTE_PS =? 0)) with true. change (131 / 2 ^ 22) with 0. cbv iota.
    rewrite decide_False, decide_True by lia. f_equal. lia. }
  rewrite list_lookup_insert_ne by lia. destruct (decide (va / 2 ^ 22 = 0)) as [E0|E0].
  { rewrite E0, list_lookup_insert_eq by (rewrite Hlen; lia). change (Z.lor (Z.lor PTE_P PTE_W) PTE_PS) with 131.
    change (negb (Z.land 131 PTE_P =? 0) && negb (Z.land 131 PTE_PS =? 0)) with true. change (131 / 2 ^ 22) with 0. cbv iota.
    rewrite decide_True by lia. f_equal. lia. }
  rewrite list_lookup_insert_ne by lia. rewrite lookup_replicate_2 by (unfold NPDENTRIES; lia).
  change (negb (Z.land 0 PTE_P =? 0) && negb (Z.land 0 PTE_PS =? 0)) with false. cbv iota.
  rewrite !decide_False by lia. done.
Qed.

(** * The kernel's page table *)

Section kvm.
Context (kend data : Z).

(** Memory, the variable [kpgdir] and the register [cr3]. *)
Record kvm := Kvm { kv_mem : kstate; kv_kpgdir : Z; kv_cr3 : Z }.
Definition on_mem {A} (m : M kstate A) : M kvm A := lift kv_mem (λ k s, Kvm k (kv_kpgdir s) (kv_cr3 s)) m.

Definition switchkvm : M kvm unit := modify (λ s, Kvm (kv_mem s) (kv_kpgdir s) (V2P (kv_kpgdir s))).
Definition kvmalloc : M kvm unit :=
  p <- on_mem (setupkvm kend data) ;;
  modify (λ s, Kvm (kv_mem s) p (kv_cr3 s)) ;;
  switchkvm.
End kvm.

(** * The serial port *)

Definition COM1 : Z := 0x3f8.
Definition IRQ_COM1 : Z := 4.

(** The registers of the 8250 behind the ports [COM1] to [COM1+5]: the line control
    register, whose top bit puts the divisor in place of the first two ports, the divisor,
    interrupt enable, FIFO and modem control; the bytes that have come in, and the bytes
    that were sent; whether there is a chip at all, and how often its status was read.
    Then the variable [uart], and the interrupts that were enabled with their processor. *)
Record serial_port := Serial {
  ua_lcr : Z; ua_dll : Z; ua_dlm : Z; ua_ier : Z; ua_fcr : Z; ua_mcr : Z;
  ua_rx : list Z; ua_tx : list Z; ua_there : bool; ua_polls : nat;
  ua_uart : bool; ua_irqs : list (Z * Z);
}.

Section uart.
(** Whether the transmitter is idle when the status is read for the [n]th time. *)
Context (idle : nat → bool).

Definition dlab (s : serial_port) : bool := Z.testbit (ua_lcr s) 7.
Definition uart_write (o v : Z) (s : serial_port) : serial_port :=
  let '(Serial lcr dll dlm ier fcr mcr rx tx there polls uart irqs) := s in
  if o =? 0 then if dlab s then Serial lcr v dlm ier fcr mcr rx tx there polls uart irqs
                 else Serial lcr dll dlm ier fcr mcr rx (if there then tx ++ [v] else tx) there polls uart irqs
  else if o =? 1 then if dlab s then Serial lcr dll v ier fcr mcr rx tx there polls uart irqs
                      else Serial lcr dll dlm v fcr mcr rx tx there polls uart irqs
  else if o =? 2 then Serial lcr dll dlm ier v mcr rx tx there polls uart irqs
  else if o =? 3 then Serial v dll dlm ier fcr mcr rx tx there polls uart irqs
  else if o =? 4 then Serial lcr dll dlm ier fcr v rx tx there polls uart irqs
  else s.
(** Without a chip every port reads 0xFF. *)
Definition uart_read (o : Z) (s : serial_port) : Z * serial_port :=
  let '(Serial lcr dll dlm ier fcr mcr rx tx there polls uart irqs) := s in
  if negb there then (255, s)
  else if o =? 0 then if dlab s then (dll, s) else (hd 0 rx, Serial lcr dll dlm ier fcr mcr (tail rx) tx there polls uart irqs)
  else if o =? 5 then
    (Z.lor (if bool_decide (rx = []) then 0 else 1) (if idle polls then 32 else 0),
     Serial lcr dll dlm ier fcr mcr rx tx there (S polls) uart irqs)
  else (0, s).

Definition uoutb (port v : Z) : M serial_port unit := modify (uart_write (port - COM1) (u8 v)).
Definition uinb (port : Z) : M serial_port Z := λ c s, let '(v, s') := uart_read (port - COM1) s in Ret v c s'.
Definition set_uart (b : bool) (s : serial_port) : serial_port :=
  let '(Serial lcr dll dlm ier fcr mcr rx tx there polls _ irqs) := s in Serial lcr dll dlm ier fcr mcr rx tx there polls b irqs.
(** [ioapicenable]. *)
Definition enable_irq (irq cpu : Z) : M serial_port unit := modify (λ s,
  let '(Serial lcr dll dlm ier fcr mcr rx tx there polls uart irqs) := s in
  Serial lcr dll dlm ier fcr mcr rx tx there polls uart (irqs ++ [(irq, cpu)])).

(** The wait for the transmitter, at most [n] times. *)
Fixpoint uart_wait (n : nat) : M serial_port unit :=
  match n with
  | O => ret tt
  | S n' => v <- uinb (COM1 + 5) ;; if negb (Z.land v 0x20 =? 0) then ret tt else uart_wait n'
  end.
Definition uart_putc (c : Z) : M serial_port unit :=
  u <- gets ua_uart ;;
  when u (uart_wait 128 ;; uoutb COM1 c).

Definition banner : list Z := [120; 118; 54; 46; 46; 46; 10].

Definition uartinit : M serial_port unit :=
  uoutb (COM1 + 2) 0 ;;               (* Turn off the FIFO *)
  uoutb (COM1 + 3) 0x80 ;;            (* Unlock divisor *)
  uoutb (COM1 + 0) (115200 / 9600) ;;
  uoutb (COM1 + 1) 0 ;;
  uoutb (COM1 + 3) 0x03 ;;            (* Lock divisor, 8 data bits. *)
  uoutb (COM1 + 4) 0 ;;
  uoutb (COM1 + 1) 0x01 ;;            (* Enable receive interrupts. *)
  st <- uinb (COM1 + 5) ;;
  if st =? 0xFF then ret tt
  else
    modify (set_uart true) ;;
    uinb (COM1 + 2) ;;
    uinb (COM1 + 0) ;;
    enable_irq IRQ_COM1 0 ;;
    for_each banner uart_putc.

Definition uartgetc : M serial_port Z :=
  u <- gets ua_uart ;;
  if negb u then ret (-1)
  else
    st <- uinb (COM1 + 5) ;;
    if Z.land st 0x01 =? 0 then ret (-1) else uinb (COM1 + 0).

(** [consoleintr] calls [uartgetc] until it returns a negative number. *)
Fixpoint uart_chars (fuel : nat) : M serial_port (list Z) :=
  match fuel with
  | O => hang
  | S fuel' => c <- uartgetc ;; if c <? 0 then ret [] else cs <- uart_chars fuel' ;; ret (c :: cs)
  end.
Definition uartintr (fuel : nat) : M (console * serial_port) bool :=
  cs <- lift snd (λ d s, (s.1, d)) (uart_chars fuel) ;;
  lift fst (λ k s, (k, s.2)) (consoleintr cs).

(** ** What they do *)

Definition set_polls (p : nat) (s : serial_port) : serial_port :=
  let '(Serial lcr dll dlm ier fcr mcr rx tx there _ uart irqs) := s in Serial lcr dll dlm ier fcr mcr rx tx there p uart irqs.
Definition send (l : list Z) (s : serial_port) : serial_port :=
  let '(Serial lcr dll dlm ier fcr mcr rx tx there p uart irqs) := s in Serial lcr dll dlm ier fcr mcr rx (tx ++ l) there p uart irqs.

(** Reading the status. *)
Definition status (s : serial_port) : Z :=
  if ua_there s then Z.lor (if bool_decide (ua_rx s = []) then 0 else 1) (if idle (ua_polls s) then 32 else 0) else 255.
Lemma uinb_status c s :
  uinb (COM1 + 5) c s = Ret (status s) c (if ua_there s then set_polls (S (ua_polls s)) s else s).
Proof. by destruct s as [? ? ? ? ? ? ? ? [] ? ? ?]. Qed.

Lemma uoutb_eq p v c s : uoutb p v c s = Ret tt c (uart_write (p - COM1) (u8 v) s).
Proof. reflexivity. Qed.

Lemma uart_wait_ok n c s :
  ∃ p, uart_wait n c s = Ret tt c (set_polls p s).
Proof.
  revert s. induction n as [|n IH]; intros s; cbn [uart_wait].
  - exists (ua_polls s). by destruct s.
  - rewrite (bind_eq _ _ _ _ _ _ _ (uinb_status c s)). destruct (negb _).
    + exists (if ua_there s then S (ua_polls s) else ua_polls s). unfold ret. f_equal. destruct s as [? ? ? ? ? ? ? ? [] ? ? ?]; reflexivity.
    + destruct (IH (if ua_there s then set_polls (S (ua_polls s)) s else s)) as [p Hp]. exists p. rewrite Hp. f_equal.
      destruct s as [? ? ? ? ? ? ? ? [] ? ? ?]; reflexivity.
Qed.

Lemma write_data v s : dlab s = false → ua_there s = true → uart_write 0 v s = send [v] s.
Proof. intros Hd Ht. destruct s. unfold uart_write. cbn in Ht. subst. cbn [Z.eqb]. rewrite Hd. reflexivity. Qed.

(** Sending a byte, on a port that is set up. *)
Lemma uart_putc_ok ch c s :
  ua_uart s = true → ua_there s = true → dlab s = false →
  ∃ p, uart_putc ch c s = Ret tt c (send [u8 ch] (set_polls p s)).
Proof.
  intros Hu Ht Hd. unfold uart_putc. rewrite (bind_eq (gets ua_uart) _ c s (ua_uart s) c s eq_refl), Hu. cbn [when].
  destruct (uart_wait_ok 128 c s) as [p Hp]. rewrite (bind_eq _ _ _ _ _ _ _ Hp). exists p.
  rewrite uoutb_eq. change (COM1 - COM1) with 0. f_equal. apply write_data; by destruct s.
Qed.

Lemma uart_puts_ok l : ∀ c s,
  ua_uart s = true → ua_there s = true → dlab s = false →
  ∃ p, for_each l uart_putc c s = Ret tt c (send (u8 <$> l) (set_polls p s)).
Proof.
  induction l as [|ch l IH]; intros c s Hu Ht Hd; cbn [for_each].
  - exists (ua_polls s). destruct s. cbn. by rewrite app_nil_r.
  - destruct (uart_putc_ok ch c s Hu Ht Hd) as [p Hp]. rewrite (bind_eq _ _ _ _ _ _ _ Hp).
    destruct s as [lcr dll dlm ier fcr mcr rx tx there polls uart irqs].
    destruct (IH c (Serial lcr dll dlm ier fcr mcr rx (tx ++ [u8 ch]) there p uart irqs) Hu Ht Hd) as [q Hq].
    exists q. etransitivity; [exact Hq|]. cbn. by rewrite <- app_assoc.
Qed.

(** After [uartinit] a chip that is there runs at 9600 baud with 8 data bits and no parity,
    its FIFO is off, its receive interrupt goes to processor 0, and the banner is out;
    without a chip nothing is sent, ever. *)
Theorem uartinit_ok c s :
  ua_uart s = false →
  ∃ s', uartinit c s = Ret tt c s' ∧ ua_uart s' = ua_there s ∧
    (if ua_there s then
       115200 / (ua_dll s' + 256 * ua_dlm s') = 9600 ∧ ua_lcr s' = 3 ∧ ua_fcr s' = 0 ∧ ua_ier s' = 1 ∧
       ua_irqs s' = ua_irqs s ++ [(IRQ_COM1, 0)] ∧ ua_tx s' = ua_tx s ++ banner
     else ua_tx s' = ua_tx s ∧ ua_irqs s' = ua_irqs s ∧ ∀ ch c, uart_putc ch c s' = Ret tt c s' ∧ uartgetc c s' = Ret (-1) c s').
Proof.
  intros Hu. destruct s as [lcr dll dlm ier fcr mcr rx tx [] polls uart irqs]; cbn in Hu; subst uart.
  - assert (∀ b, Z.lor (if bool_decide (rx = []) then 0 else 1) (if b : bool then 32 else 0) =? 255 = false) as Hst
      by (intros b; destruct (bool_decide _), b; reflexivity).
    destruct (uart_puts_ok banner c (Serial 3 12 0 1 0 0 (tail rx) tx true (S polls) true (irqs ++ [(IRQ_COM1, 0)])) eq_refl eq_refl eq_refl) as [p Hp].
    eexists. split; [|].
    { unfold uartinit. do 7 rewrite (bind_eq _ _ _ _ _ _ _ (uoutb_eq _ _ _ _)).
      match goal with |- bind _ _ _ ?x = _ => change x with (Serial 3 12 0 1 0 0 rx tx true polls false irqs) end.
      rewrite (bind_eq _ _ _ _ _ _ _ (uinb_status _ _)). unfold status. cbn [ua_there ua_rx ua_polls set_polls]. rewrite Hst.
      exact Hp. }
    cbn. repeat (split; [reflexivity|]). reflexivity.
  - eexists. split; [reflexivity|]. cbn. split; [done|]. split; [done|]. split; [done|]. intros ch c'. split; reflexivity.
Qed.

(** An interrupt hands the bytes that have come in, in their order, to the console. *)
Definition received (s : serial_port) : serial_port :=
  let '(Serial lcr dll dlm ier fcr mcr rx tx there p uart irqs) := s in Serial lcr dll dlm ier fcr mcr [] tx there p uart irqs.

Lemma uartgetc_on c s :
  ua_uart s = true → uartgetc c s = (st <- uinb (COM1 + 5) ;; if Z.land st 0x01 =? 0 then ret (-1) else uinb (COM1 + 0)) c s.
Proof. intros Hu. unfold uartgetc, bind at 1, gets. by rewrite Hu. Qed.

Lemma uart_chars_ok rx : ∀ fuel c s,
  ua_uart s = true → ua_there s = true → dlab s = false → ua_rx s = rx → Forall (λ b, 0 <= b) rx → (length rx < fuel)%nat →
  ∃ p, uart_chars fuel c s = Ret rx c (received (set_polls p s)).
Proof.
  induction rx as [|b rx IH]; intros fuel c s Hu Ht Hd Hrx Hb Hf; (destruct fuel as [|fuel]; [cbn in Hf; lia|]); cbn [uart_chars];
    destruct s as [lcr dll dlm ier fcr mcr rx0 tx there polls uart irqs]; cbn in Hu, Ht, Hrx; subst uart there rx0.
  - exists (S polls).
    assert (uartgetc c (Serial lcr dll dlm ier fcr mcr [] tx true polls true irqs) = Ret (-1) c (Serial lcr dll dlm ier fcr mcr [] tx true (S polls) true irqs)) as E.
    { rewrite uartgetc_on by done.
      rewrite (bind_eq _ _ _ _ _ _ _ (uinb_status _ _)). unfold status. cbn [ua_there ua_rx ua_polls set_polls].
      rewrite bool_decide_eq_true_2 by done. by destruct (idle polls). }
    rewrite (bind_eq _ _ _ _ _ _ _ E). reflexivity.
  - apply Forall_cons in Hb as [Hb0 Hb].
    assert (uartgetc c (Serial lcr dll dlm ier fcr mcr (b :: rx) tx true polls true irqs) = Ret b c (Serial lcr dll dlm ier fcr mcr rx tx true (S polls) true irqs)) as E.
    { rewrite uartgetc_on by done.
      rewrite (bind_eq _ _ _ _ _ _ _ (uinb_status _ _)). unfold status. cbn [ua_there ua_rx ua_polls set_polls].
      rewrite bool_decide_eq_false_2 by done. replace (Z.land _ 1 =? 0) with false by (by destruct (idle polls)).
      unfold uinb. change (COM1 + 0 - COM1) with 0. unfold uart_read. cbn [negb Z.eqb]. unfold dlab in *. cbn [ua_lcr] in *. by rewrite Hd. }
    rewrite (bind_eq _ _ _ _ _ _ _ E). rewrite (proj2 (Z.ltb_ge _ _)) by done.
    destruct (IH fuel c (Serial lcr dll dlm ier fcr mcr rx tx true (S polls) true irqs)) as [p Hp]; try done; [cbn in Hf; lia|].
    exists p. rewrite (bind_eq _ _ _ _ _ _ _ Hp). reflexivity.
Qed.

Theorem uartintr_ok fuel c k s :
  ua_uart s = true → ua_there s = true → dlab s = false → Forall (λ b, 0 <= b) (ua_rx s) → (length (ua_rx s) < fuel)%nat →
  ∃ p, uartintr fuel c (k, s) = lift fst (λ k t, (k, t.2)) (consoleintr (ua_rx s)) c (k, received (set_polls p s)).
Proof.
  intros Hu Ht Hd Hb Hf. destruct (uart_chars_ok (ua_rx s) fuel c s Hu Ht Hd eq_refl Hb Hf) as [p Hp]. exists p. unfold uartintr.
  rewrite (bind_eq _ _ _ _ (ua_rx s) c (k, received (set_polls p s))); [done|]. unfold lift. cbn [snd fst]. by rewrite Hp.
Qed.
End uart.

(** * Starting the other processors *)

(** The words in front of [code] at 0x7000, in the page at 0x6000. *)
Definition code : Z := P2V 0x7000.
Definition words_page : Z := P2V 0x6000.

(** Where another processor is: not started; at the entry of [entryother.S], where it reads
    the words one after the other; in [mpenter], with these values; [started]. *)
Inductive ap :=
| ApOff
| ApStart
| ApPaged (cr3 : Z)
| ApStacked (cr3 esp : Z)
| ApRun (cr3 esp eip : Z)
| ApUp (cr3 esp eip : Z).

(** Where the boot processor is: at the top of the loop for processor [i], or waiting for it. *)
Inductive bpc := AtCpu (i : nat) | Waiting (i : nat).

Record bst := BSt { bs_mem : kstate; bs_pc : bpc; bs_ap : list ap }.

Section startothers.
(** The number of processors and the one this is; the process id of the kernel; the
    addresses of [mpenter] and [entrypgdir]. *)
Context (kend : Z) (ncpu me : nat) (pid mpenter entrydir : Z).

(** One turn of the loop, up to the interrupts that start the processor. *)
Definition start_one : M kstate unit :=
  stack <- kalloc ;;
  store32 (code - 4) (u32 (stack + KSTACKSIZE)) ;;
  store32 (code - 8) mpenter ;;
  store32 (code - 12) (V2P entrydir).

Inductive bstep : bst → bst → Prop :=
| bs_skip k i aps :   (* We've started already. *)
    i = me → (i < ncpu)%nat → bstep (BSt k (AtCpu i) aps) (BSt k (AtCpu (S i)) aps)
| bs_start k k' i aps :
    i ≠ me → (i < ncpu)%nat → start_one (cpu0 pid) k = Ret tt (cpu0 pid) k' →
    bstep (BSt k (AtCpu i) aps) (BSt k' (Waiting i) (<[i := ApStart]> aps))
| bs_seen k i aps cr3 esp eip :   (* while(c->started == 0) *)
    aps !! i = Some (ApUp cr3 esp eip) → bstep (BSt k (Waiting i) aps) (BSt k (AtCpu (S i)) aps)
| bs_cr3 k pc aps j x :
    aps !! j = Some ApStart → load32 (code - 12) (cpu0 pid) k = Ret x (cpu0 pid) k →
    bstep (BSt k pc aps) (BSt k pc (<[j := ApPaged x]> aps))
| bs_esp k pc aps j cr3 x :
    aps !! j = Some (ApPaged cr3) → load32 (code - 4) (cpu0 pid) k = Ret x (cpu0 pid) k →
    bstep (BSt k pc aps) (BSt k pc (<[j := ApStacked cr3 x]> aps))
| bs_call k pc aps j cr3 esp x :
    aps !! j = Some (ApStacked cr3 esp) → load32 (code - 8) (cpu0 pid) k = Ret x (cpu0 pid) k →
    bstep (BSt k pc aps) (BSt k pc (<[j := ApRun cr3 esp x]> aps))
| bs_up k pc aps j cr3 esp eip :   (* mpenter, mpmain: xchg(&(mycpu()->started), 1) *)
    aps !! j = Some (ApRun cr3 esp eip) → bstep (BSt k pc aps) (BSt k pc (<[j := ApUp cr3 esp eip]> aps)).

(** ** What the words say *)

Context (Hkend : KERNBASE <= kend) (Hwords : words_page < kend).

Definition words (k : kstate) (esp eip cr3 : Z) : Prop := ∃ d, k_mem k !! words_page = Some d ∧ length d = pgsize ∧
  entry d 1023 = esp ∧ entry d 1022 = eip ∧ entry d 1021 = cr3.

Lemma words_page_mod : words_page mod PGSIZE = 0.
Proof. reflexivity. Qed.

Lemma load_word k i d : k_mem k !! words_page = Some d → 0 <= i < 1024 → load32 (words_page + 4 * i) (cpu0 pid) k = Ret (entry d i) (cpu0 pid) k.
Proof. intros Hd Hi. by apply load_entry. Qed.

(** Storing a word leaves the free pages alone. *)
Lemma store_word k l i x d :
  krel kend k l → k_mem k !! words_page = Some d → length d = pgsize → 0 <= i < 1024 →
  ∃ k', store32 (words_page + 4 * i) x (cpu0 pid) k = Ret tt (cpu0 pid) k' ∧ krel kend k' l ∧
    k_mem k' !! words_page = Some (wr 4 (4 * Z.to_nat i) x d).
Proof using Hwords.
  intros HR Hd Hl Hi. eexists. split; [by apply store_entry|]. cbn [set_mem k_mem]. split; [|by rewrite lookup_insert_eq].
  assert (∀ v, kpage kend v → v ≠ words_page) as Hne by (intros v (_ & Hv & _); lia).
  destruct HR as [Hc Hn Hp Hm]. split; cbn [set_mem k_mem k_freelist]; [|done|done|].
  - apply freechain_insert; [|done]. intros Hin. eapply Forall_forall in Hp; [|exact Hin]. by apply Hne in Hp.
  - intros v Hv. rewrite lookup_insert_ne by (apply not_eq_sym; by apply Hne). by apply Hm.
Qed.

Lemma start_one_ok k v l d :
  krel kend k (v :: l) → k_mem k !! words_page = Some d → length d = pgsize → 0 <= mpenter < 2 ^ 32 →
  ∃ k', start_one (cpu0 pid) k = Ret tt (cpu0 pid) k' ∧ krel kend k' l ∧ words k' (u32 (v + KSTACKSIZE)) mpenter (V2P entrydir).
Proof using Hwords Hkend.
  intros HR Hd Hl Hmp. destruct (kalloc_spec kend Hkend pid k (v :: l) HR) as (k1 & E1 & HR1 & _ & Hm1). rewrite <- Hm1 in Hd.
  assert (∀ i x e, length e = pgsize → 0 <= i < 1024 → length (wr 4 (4 * Z.to_nat i) x e) = pgsize) as Hwl.
  { intros i x e He Hi. rewrite length_wr; [done|]. rewrite He. unfold PGSIZE. lia. }
  destruct (store_word k1 l 1023 (u32 (v + KSTACKSIZE)) d HR1 Hd Hl ltac:(lia)) as (k2 & E2 & HR2 & Hd2).
  destruct (store_word k2 l 1022 mpenter _ HR2 Hd2 ltac:(apply Hwl; [done|lia]) ltac:(lia)) as (k3 & E3 & HR3 & Hd3).
  destruct (store_word k3 l 1021 (V2P entrydir) _ HR3 Hd3 ltac:(apply Hwl; [apply Hwl; [done|lia]|lia]) ltac:(lia)) as (k4 & E4 & HR4 & Hd4).
  exists k4. split; [|split; [done|]].
  - unfold start_one. rewrite (bind_eq _ _ _ _ _ _ _ E1). change (code - 4) with (words_page + 4 * 1023).
    change (code - 8) with (words_page + 4 * 1022). change (code - 12) with (words_page + 4 * 1021).
    rewrite (bind_eq _ _ _ _ _ _ _ E2), (bind_eq _ _ _ _ _ _ _ E3). exact E4.
  - set (d1 := wr 4 (4 * Z.to_nat 1023) (u32 (v + KSTACKSIZE)) d) in *. set (d2 := wr 4 (4 * Z.to_nat 1022) mpenter d1) in *.
    assert (length d1 = pgsize) as Hl1 by (apply Hwl; [done|lia]). assert (length d2 = pgsize) as Hl2 by (apply Hwl; [done|lia]).
    eexists. split; [exact Hd4|]. split; [apply Hwl; [done|lia]|]. split; [|split].
    + rewrite entry_wr_other by (first [done|lia]). unfold d2. rewrite entry_wr_other by (first [done|lia]).
      unfold d1. rewrite entry_wr_same by (first [done|lia]). apply u32_small, u32_range.
    + rewrite entry_wr_other by (first [done|lia]). unfold d2. rewrite entry_wr_same by (first [done|lia]). by apply u32_small.
    + rewrite entry_wr_same by (first [done|lia]). apply u32_small, u32_range.
Qed.

(** ** The invariant *)

(** What a processor has read so far is meant for it: its stack is the page [s]. *)
Definition ap_ok (s : Z) (a : ap) : Prop :=
  match a with
  | ApOff => False
  | ApStart => True
  | ApPaged c => c = V2P entrydir
  | ApStacked c e => c = V2P entrydir ∧ e = u32 (s + KSTACKSIZE)
  | ApRun c e i | ApUp c e i => c = V2P entrydir ∧ e = u32 (s + KSTACKSIZE) ∧ i = mpenter
  end.
Definition is_up (a : ap) : Prop := match a with ApUp _ _ _ => True | _ => False end.

(** The processors below this number have been started. *)
Definition started_below (pc : bpc) : nat := match pc with AtCpu i => i | Waiting i => S i end.
Definition begun (pc : bpc) (j : nat) : Prop := (j < started_below pc)%nat ∧ j ≠ me.

Record binv_with (l : list Z) (stk : nat → Z) (x : bst) : Prop := {
  bi_free : krel kend (bs_mem x) l;
  bi_left : (ncpu - started_below (bs_pc x) <= length l)%nat;
  bi_page : ∃ d, k_mem (bs_mem x) !! words_page = Some d ∧ length d = pgsize;
  bi_count : length (bs_ap x) = ncpu ∧ (started_below (bs_pc x) <= ncpu)%nat;
  bi_wait : ∀ i, bs_pc x = Waiting i → i ≠ me ∧ words (bs_mem x) (u32 (stk i + KSTACKSIZE)) mpenter (V2P entrydir);
  bi_off : ∀ j a, bs_ap x !! j = Some a → ¬ begun (bs_pc x) j → a = ApOff;
  bi_ap : ∀ j a, bs_ap x !! j = Some a → begun (bs_pc x) j → ap_ok (stk j) a ∧ (is_up a ∨ bs_pc x = Waiting j);
  bi_stk : ∀ j, begun (bs_pc x) j → kpage kend (stk j) ∧ stk j ∉ l;
  bi_inj : ∀ j j', begun (bs_pc x) j → begun (bs_pc x) j' → j ≠ j' → stk j ≠ stk j';
}.
Definition binv (x : bst) : Prop := ∃ l stk, binv_with l stk x.

(** A processor that has not come up is the one that is waited for. *)
Lemma binv_active l stk x j a :
  binv_with l stk x → bs_ap x !! j = Some a → a ≠ ApOff → ¬ is_up a → bs_pc x = Waiting j ∧ ap_ok (stk j) a.
Proof.
  intros H Hj Hoff Hup. destruct (decide ((j < started_below (bs_pc x))%nat ∧ j ≠ me)) as [Hb|Hb].
  - by destruct (bi_ap _ _ _ H j a Hj Hb) as [Hok [Hu|Hw]].
  - by apply (bi_off _ _ _ H j a Hj) in Hb.
Qed.

(** The next step of that processor. *)
Lemma binv_ap l stk k pc aps j a a' :
  binv_with l stk (BSt k pc aps) → aps !! j = Some a → pc = Waiting j → ap_ok (stk j) a' → binv_with l stk (BSt k pc (<[j := a']> aps)).
Proof.
  intros [H1 H2 H3 H4 H5 H6 H7 H8 H9] Hj Hpc Hok. apply lookup_lt_Some in Hj as Hlt. cbn [bs_mem bs_pc bs_ap] in *.
  split; cbn [bs_mem bs_pc bs_ap]; try done.
  - by rewrite length_insert.
  - intros m b [(<- & <- & _)|[_ Hb]]%list_lookup_insert_Some Hnb; [|by eapply H6].
    exfalso. apply Hnb. rewrite Hpc. split; [cbn; lia|]. by apply (H5 j).
  - intros m b [(<- & <- & _)|[_ Hb]]%list_lookup_insert_Some Hnb; [|by eapply H7]. split; [done|by right].
Qed.

Context (Hmp : 0 <= mpenter < 2 ^ 32).

(** Moving on to the next processor. *)
Lemma binv_next l stk k pc i aps :
  binv_with l stk (BSt k pc aps) → (pc = AtCpu me ∧ i = me ∧ (me < ncpu)%nat) ∨ (pc = Waiting i ∧ ∃ a, aps !! i = Some a ∧ is_up a) →
  binv_with l stk (BSt k (AtCpu (S i)) aps).
Proof.
  intros [H1 H2 H3 H4 H5 H6 H7 H8 H9] Hpc. cbn [bs_mem bs_pc bs_ap] in *.
  assert (∀ j, begun (AtCpu (S i)) j ↔ begun pc j) as Hb.
  { intros j. destruct Hpc as [(-> & -> & _)|(-> & _)]; unfold begun; cbn [started_below]; lia. }
  assert (∀ j, pc = Waiting j → ∃ a, aps !! j = Some a ∧ is_up a) as Hup.
  { intros j Hj. destruct Hpc as [(-> & _)|(-> & Ha)]; [done|]. by injection Hj as <-. }
  split; cbn [bs_mem bs_pc bs_ap started_below]; try done.
  - destruct Hpc as [(-> & -> & _)|(-> & _)]; cbn [started_below] in *; lia.
  - split; [tauto|]. destruct Hpc as [(-> & -> & Hlt)|(-> & _)]; cbn [started_below] in *; lia.
  - intros j a Hj Hnb. rewrite Hb in Hnb. by eapply H6.
  - intros j a Hj Hbj. rewrite Hb in Hbj. destruct (H7 j a Hj Hbj) as [Hok [Hu|Hw]]; (split; [done|left]); [done|].
    destruct (Hup j Hw) as (a' & Ha' & Hu). congruence.
  - intros j Hbj. rewrite Hb in Hbj. by apply H8.
  - intros j j' Hbj Hbj'. rewrite Hb in Hbj, Hbj'. by apply H9.
Qed.

Lemma binv_start l stk k k' i aps :
  binv_with l stk (BSt k (AtCpu i) aps) → i ≠ me → (i < ncpu)%nat → start_one (cpu0 pid) k = Ret tt (cpu0 pid) k' →
  ∃ v l', l = v :: l' ∧ binv_with l' (λ j, if decide (j = i) then v else stk j) (BSt k' (Waiting i) (<[i := ApStart]> aps)).
Proof using Hkend Hwords Hmp.
  intros [H1 H2 (d & Hd & Hdl) H4 H5 H6 H7 H8 H9] Hme Hi Heq. cbn [bs_mem bs_pc bs_ap started_below] in *.
  destruct l as [|v l]; [cbn in H2; lia|]. exists v, l. split; [done|].
  destruct (start_one_ok k v l d H1 Hd Hdl Hmp) as (k2 & Heq2 & HR & Hw). rewrite Heq in Heq2. injection Heq2 as ->.
  pose proof (kr_nodup _ _ _ H1) as [Hv Hn]%NoDup_cons. pose proof (kr_pages _ _ _ H1) as [Hvp _]%Forall_cons.
  assert (∀ j, begun (Waiting i) j → j ≠ i → begun (AtCpu i) j) as Hb by (intros j [Hj1 Hj2] Hne; split; cbn in *; [lia|done]).
  split; cbn [bs_mem bs_pc bs_ap started_below]; try done.
  - cbn in H2. lia.
  - destruct Hw as (e & He & Hel & _). by exists e.
  - rewrite length_insert. split; [tauto|lia].
  - intros j [= <-]. rewrite decide_True by done. done.
  - intros j a [(<- & <- & _)|[Hne Ha]]%list_lookup_insert_Some Hnb.
    + exfalso. apply Hnb. split; [cbn; lia|done].
    + apply (H6 j a Ha). intros [Hj1 Hj2]. apply Hnb. split; [cbn in *; lia|done].
  - intros j a [(<- & <- & _)|[Hne Ha]]%list_lookup_insert_Some Hbj.
    + split; [done|by right].
    + rewrite decide_False by done. destruct (H7 j a Ha (Hb j Hbj (not_eq_sym Hne))) as [Hok [Hu|Hwj]]; [|done]. split; [done|by left].
  - intros j Hbj. case_decide as E; [done|]. destruct (H8 j (Hb j Hbj E)) as [Hp Hnin]. split; [done|]. set_solver.
  - intros j j' Hbj Hbj' Hne. case_decide as E; case_decide as E'; try congruence.
    + intros ->. destruct (H8 j' (Hb j' Hbj' E')) as [_ Hnin]. apply Hnin. set_solver.
    + intros Heqs. destruct (H8 j (Hb j Hbj E)) as [_ Hnin]. apply Hnin. rewrite Heqs. set_solver.
    + apply H9; [by apply Hb|by apply Hb|done].
Qed.

Lemma binv_words l stk k i aps j x :
  binv_with l stk (BSt k (Waiting i) aps) → 1021 <= j < 1024 → load32 (words_page + 4 * j) (cpu0 pid) k = Ret x (cpu0 pid) k →
  x = if decide (j = 1023) then u32 (stk i + KSTACKSIZE) else if decide (j = 1022) then mpenter else V2P entrydir.
Proof.
  intros H Hj Hx. destruct (bi_wait _ _ _ H i eq_refl) as (_ & d & Hd & _ & E1 & E2 & E3). cbn [bs_mem] in Hd.
  rewrite (load_word k j d Hd) in Hx by lia. injection Hx as <-. repeat case_decide; subst; try done. by replace j with 1021 by lia.
Qed.

Lemma binv_step x y : bstep x y → binv x → binv y.
Proof using Hkend Hwords Hmp.
  intros Hs (l & stk & H). destruct Hs as [k i aps -> Hi|k k' i aps Hme Hi Hk|k i aps cr3 esp eip Hi|k pc aps j v Hj Hv|k pc aps j cr3 v Hj Hv
    |k pc aps j cr3 esp v Hj Hv|k pc aps j cr3 esp eip Hj].
  - exists l, stk. eapply binv_next; [exact H|left]. done.
  - destruct (binv_start l stk k k' i aps H Hme Hi Hk) as (v & l' & _ & H'). eexists _, _. exact H'.
  - exists l, stk. eapply binv_next; [exact H|right]. split; [done|]. by eexists.
  - exists l, stk. destruct (binv_active _ _ _ _ _ H Hj ltac:(discriminate) ltac:(intros [])) as [Hpc Hok]. cbn in Hpc. subst pc.
    eapply binv_ap; [exact H|exact Hj|done|]. change (code - 12) with (words_page + 4 * 1021) in Hv.
    exact (binv_words _ _ _ _ _ 1021 _ H ltac:(lia) Hv).
  - exists l, stk. destruct (binv_active _ _ _ _ _ H Hj ltac:(discriminate) ltac:(intros [])) as [Hpc Hok]. cbn in Hpc. subst pc.
    eapply binv_ap; [exact H|exact Hj|done|]. split; [exact Hok|]. change (code - 4) with (words_page + 4 * 1023) in Hv.
    exact (binv_words _ _ _ _ _ 1023 _ H ltac:(lia) Hv).
  - exists l, stk. destruct (binv_active _ _ _ _ _ H Hj ltac:(discriminate) ltac:(intros [])) as [Hpc [Hok1 Hok2]]. cbn in Hpc. subst pc.
    eapply binv_ap; [exact H|exact Hj|done|]. split; [done|]. split; [done|]. change (code - 8) with (words_page + 4 * 1022) in Hv.
    exact (binv_words _ _ _ _ _ 1022 _ H ltac:(lia) Hv).
  - exists l, stk. destruct (binv_active _ _ _ _ _ H Hj ltac:(discriminate) ltac:(intros [])) as [Hpc Hok]. cbn in Hpc. subst pc.
    eapply binv_ap; [exact H|exact Hj|done|]. exact Hok.
Qed.

(** ** Every step is progress *)

Definition ap_rank (a : ap) : nat :=
  match a with ApOff => 0 | ApStart => 1 | ApPaged _ => 2 | ApStacked _ _ => 3 | ApRun _ _ _ => 4 | ApUp _ _ _ => 5 end.
Definition progress (x : bst) : nat :=
  match bs_pc x with
  | AtCpu i => 6 * i
  | Waiting i => 6 * i + match bs_ap x !! i with Some a => ap_rank a | None => 0 end
  end.

Lemma step_progress x y : binv x → bstep x y → (progress x < progress y)%nat.
Proof.
  intros (l & stk & H) Hs. destruct Hs as [k i aps -> Hi|k k' i aps Hme Hi Hk|k i aps cr3 esp eip Hi|k pc aps j v Hj Hv|k pc aps j cr3 v Hj Hv
    |k pc aps j cr3 esp v Hj Hv|k pc aps j cr3 esp eip Hj]; unfold progress; cbn [bs_pc bs_ap].
  1: lia.
  1: { destruct (bi_count _ _ _ H) as [Hl _]. cbn in Hl. rewrite list_lookup_insert_eq by lia. cbn. lia. }
  1: { rewrite Hi. cbn. lia. }
  all: destruct (binv_active _ _ _ _ _ H Hj ltac:(discriminate) ltac:(intros [])) as [Hpc _]; cbn in Hpc; subst pc;
    rewrite Hj, list_lookup_insert_eq by (by eapply lookup_lt_Some); cbn; lia.
Qed.

Lemma binv_progress x : binv x → (progress x <= 6 * ncpu)%nat.
Proof.
  intros (l & stk & H). destruct (bi_count _ _ _ H) as [_ Hc]. unfold progress. destruct (bs_pc x) as [i|i]; cbn in Hc; [lia|].
  assert (∀ a, (ap_rank a <= 5)%nat) as Ha by (intros []; cbn; lia). case_match; [specialize (Ha a)|]; lia.
Qed.

(** A state that is not the end has a next step. *)
Lemma binv_not_stuck x : binv x → bs_pc x = AtCpu ncpu ∨ ∃ y, bstep x y.
Proof using Hkend Hwords Hmp.
  intros (l & stk & H). destruct x as [k pc aps]. destruct (bi_count _ _ _ H) as [Hlen Hc]. cbn [bs_pc bs_ap] in *.
  destruct pc as [i|i]; cbn [started_below] in Hc.
  - destruct (decide (i = ncpu)) as [->|Hi]; [by left|right]. destruct (decide (i = me)) as [E|E]; [eexists; apply bs_skip; [done|lia]|].
    destruct (bi_page _ _ _ H) as (d & Hd & Hdl). pose proof (bi_left _ _ _ H) as Hleft. pose proof (bi_free _ _ _ H) as HR. cbn [bs_mem bs_pc started_below] in *.
    destruct l as [|v l]; [cbn in Hleft; lia|]. destruct (start_one_ok k v l d HR Hd Hdl Hmp) as (k' & Hk & _). eexists. eapply bs_start; [done|lia|exact Hk].
  - right. destruct (lookup_lt_is_Some_2 aps i) as [a Ha]; [lia|]. destruct (bi_page _ _ _ H) as (d & Hd & _). cbn [bs_mem] in Hd.
    destruct a as [| |c|c e|c e n|c e n].
    + exfalso. destruct (bi_wait _ _ _ H i eq_refl) as [Hme _]. destruct (bi_ap _ _ _ H i _ Ha) as [Hok _]; [|done]. split; [cbn; lia|done].
    + eexists. eapply bs_cr3; [exact Ha|]. change (code - 12) with (words_page + 4 * 1021). apply (load_word k 1021 d Hd). lia.
    + eexists. eapply bs_esp; [exact Ha|]. change (code - 4) with (words_page + 4 * 1023). apply (load_word k 1023 d Hd). lia.
    + eexists. eapply bs_call; [exact Ha|]. change (code - 8) with (words_page + 4 * 1022). apply (load_word k 1022 d Hd). lia.
    + eexists. by eapply bs_up.
    + eexists. by eapply bs_seen.
Qed.

Lemma binv_steps n x y : nsteps bstep n x y → binv x → binv y ∧ (n + progress x <= progress y)%nat.
Proof using Hkend Hwords Hmp.
  induction 1 as [x|n x y z Hxy _ IH]; intros Hx; [split; [done|lia]|].
  pose proof (step_progress x y Hx Hxy). apply binv_step in Hxy; [|done]. destruct (IH Hxy). split; [done|lia].
Qed.
End startothers.

(** ** All processors come up *)

Definition binit (ncpu : nat) (k : kstate) : bst := BSt k (AtCpu 0) (replicate ncpu ApOff).

Lemma binit_inv kend ncpu me mpenter entrydir k l d :
  krel kend k l → (ncpu <= length l)%nat → k_mem k !! words_page = Some d → length d = pgsize →
  binv kend ncpu me mpenter entrydir (binit ncpu k).
Proof.
  intros HR Hl Hd Hdl. exists l, (λ _, 0).
  assert (∀ j, ¬ begun me (AtCpu 0) j) as Hb by (intros j [Hj _]; cbn in Hj; lia).
  split; cbn [binit bs_mem bs_pc bs_ap started_below]; try done.
  - lia.
  - by exists d.
  - rewrite length_replicate. lia.
  - intros j a [-> _]%lookup_replicate _. done.
  - intros j a _ H. by apply Hb in H.
  - intros j H. by apply Hb in H.
  - intros j j' H. by apply Hb in H.
Qed.

(** C22: [startothers]: the boot processor [me] starts the other ones one after the other, and
    hands each its stack, entry point and page table through the same three words in memory
    while the processors run. Whatever the interleaving: it takes at most [6 * ncpu] steps and
    only stops when the loop is over; a processor that entered [mpenter] did so with the first page
    table, at [mpenter], on a stack that is the top of a page of its own, one that is not on the
    free list; and when the loop is over every other processor has set [started]. *)
Theorem startothers_starts_all kend ncpu me pid mpenter entrydir k l d n x :
  KERNBASE <= kend → words_page < kend → 0 <= mpenter < 2 ^ 32 →
  krel kend k l → (ncpu <= length l)%nat → k_mem k !! words_page = Some d → length d = pgsize →
  nsteps (bstep ncpu me pid mpenter entrydir) n (binit ncpu k) x →
  (n <= 6 * ncpu)%nat ∧
  (bs_pc x = AtCpu ncpu ∨ ∃ y, bstep ncpu me pid mpenter entrydir x y) ∧
  (∃ stk free, krel kend (bs_mem x) free ∧
     (∀ j c e i, bs_ap x !! j = Some (ApRun c e i) ∨ bs_ap x !! j = Some (ApUp c e i) →
        j ≠ me ∧ c = V2P entrydir ∧ i = mpenter ∧ e = u32 (stk j + KSTACKSIZE) ∧ kpage kend (stk j) ∧ stk j ∉ free) ∧
     (∀ j j', bs_ap x !! j ≠ Some ApOff → bs_ap x !! j' ≠ Some ApOff → (j < ncpu)%nat → (j' < ncpu)%nat → j ≠ j' → stk j ≠ stk j')) ∧
  (bs_pc x = AtCpu ncpu → ∀ j, (j < ncpu)%nat → j ≠ me → ∃ c e i, bs_ap x !! j = Some (ApUp c e i)).
Proof.
  intros Hkend Hwords Hmp HR Hl Hd Hdl Hn. pose proof (binit_inv kend ncpu me mpenter entrydir k l d HR Hl Hd Hdl) as Hi.
  destruct (binv_steps kend ncpu me pid mpenter entrydir Hkend Hwords Hmp n _ x Hn Hi) as [Hx Hpr].
  pose proof (binv_progress _ _ _ _ _ x Hx). split; [lia|]. split; [by eapply binv_not_stuck|]. destruct Hx as (free & stk & H').
  assert (∀ j a, bs_ap x !! j = Some a → a ≠ ApOff → begun me (bs_pc x) j) as Hb.
  { intros j a Ha Hoff. destruct (decide ((j < started_below (bs_pc x))%nat ∧ j ≠ me)) as [|Hnb]; [done|]. by apply (bi_off _ _ _ _ _ _ _ _ H' j a Ha) in Hnb. }
  destruct (bi_count _ _ _ _ _ _ _ _ H') as [Hlen _]. split.
  - exists stk, free. split; [exact (bi_free _ _ _ _ _ _ _ _ H')|]. split.
    + intros j c e i Hj. assert (∃ a, bs_ap x !! j = Some a ∧ (a = ApRun c e i ∨ a = ApUp c e i)) as (a & Ha & Ea) by naive_solver.
      pose proof (Hb j a Ha ltac:(naive_solver)) as Hbj. destruct (bi_ap _ _ _ _ _ _ _ _ H' j a Ha Hbj) as [Hok _].
      destruct (bi_stk _ _ _ _ _ _ _ _ H' j Hbj). split; [apply Hbj|]. destruct Ea as [-> | ->]; cbn in Hok; naive_solver.
    + intros j j' Hj Hj' Hjl Hjl'. destruct (lookup_lt_is_Some_2 (bs_ap x) j) as [a Ha]; [lia|]. destruct (lookup_lt_is_Some_2 (bs_ap x) j') as [a' Ha']; [lia|].
      apply (bi_inj _ _ _ _ _ _ _ _ H'); [apply (Hb j a Ha); congruence|apply (Hb j' a' Ha'); congruence].
  - intros Hpc j Hj Hme. destruct (lookup_lt_is_Some_2 (bs_ap x) j) as [a Ha]; [lia|].
    assert (begun me (bs_pc x) j) as Hbj by (rewrite Hpc; by split).
    destruct (bi_ap _ _ _ _ _ _ _ _ H' j a Ha Hbj) as [_ [Hu|Hw]]; [|congruence]. destruct a; try done. by eexists _, _, _.
Qed.

(** Two processors and the last two pages of memory. *)
Definition demo_boot : kstate :=
  KState false demo_kend (<[words_page := replicate pgsize 0]>
    (<[demo_kend := wr 4 0 (demo_kend + PGSIZE) (replicate pgsize 0)]> demo_mem)).

Lemma demo_boot_rel : krel demo_kend demo_boot [demo_kend; demo_kend + PGSIZE].
Proof.
  split.
  - vm_compute. eauto 10.
  - apply NoDup_cons; split; [|apply NoDup_singleton]. intros H%list_elem_of_singleton. revert H. vm_compute. discriminate.
  - repeat constructor; vm_compute; done.
  - intros v (Hal & Hge & Hlt). assert (v = demo_kend ∨ v = demo_kend + PGSIZE) as [-> | ->].
    { apply Z.mod_divide in Hal as [q ->]; [|done]. unfold demo_kend, KERNBASE, PHYSTOP, PGSIZE in *. lia. }
    + eexists. split; [vm_compute; reflexivity|reflexivity].
    + eexists. split; [vm_compute; reflexivity|reflexivity].
Qed.

Lemma startothers_starts_all_witness :
  let mem := demo_boot in
  (∃ y, nsteps (bstep 2 1 7 0x80103000 0x80109000) 1 (binit 2 mem) y ∧ bs_pc y = Waiting 0) ∧
  ∀ n x, nsteps (bstep 2 1 7 0x80103000 0x80109000) n (binit 2 mem) x → bs_pc x = AtCpu 2 →
    (n <= 12)%nat ∧ ∃ c e i, bs_ap x !! 0%nat = Some (ApUp c e i).
Proof.
  cbn zeta. split.
  - eexists. split; [eapply nsteps_l; [|apply nsteps_O]; apply bs_start; [done|lia|vm_compute; reflexivity]|reflexivity].
  - intros n x Hn Hpc. destruct (startothers_starts_all demo_kend 2 1 7 0x80103000 0x80109000 demo_boot
      [demo_kend; demo_kend + PGSIZE] (replicate pgsize 0) n x) as (Hb & _ & _ & Hup).
    all: cycle 8.
    { split; [lia|]. apply Hup; [done|lia|done]. }
    all: first [exact demo_boot_rel | exact Hn | vm_compute; repeat split; (done || (intros E; discriminate E)) | cbn; lia].
Defined.
