(* ===== verification/Cpus.v ===== *)
(** Which processor and process this is ([cpuid], [mycpu], [myproc] of proc.c), and
    [forkret], where a new process starts: the first one brings up the file system. *)
From stdpp Require Import base list numbers strings sets gmap.
From Stdlib Require Import ZArith Lia.
From S2P Require Import Prelude Params Machine Spinlock Sleeplock CString Bio BioRing BioSpec.
From S2P Require Import Log LogSpec LogCommit LogRecover LogOps Fs.
Local Open Scope Z_scope.
Local Open Scope xv6_scope.

(** * This processor *)

Section cpus.
(** The fields [apicid] and [proc] of the [ncpu] entries of [cpus], and the number the
    local interrupt controller of this processor shows. *)
Context {S : Type} (apicids : list Z) (procs : list (option nat)) (lapicid : Z).

Fixpoint find_apic (ids : list Z) (i : nat) : option nat :=
  match ids with
  | [] => None
  | a :: ids' => if a =? lapicid then Some i else find_apic ids' (1 + i)
  end.

(** The index of the entry in [cpus].  The newlines at the end of the messages are left out. *)
Definition mycpu : M S nat :=
  c <- getcpu ;;
  when (cpu_if c) (panic "mycpu called with interrupts enabled") ;;
  match find_apic apicids 0 with Some i => ret i | None => panic "unknown apicid" end.

Definition cpuid : M S nat := mycpu.

(** Disable interrupts so that we are not rescheduled while reading proc. *)
Definition myproc : M S (option nat) :=
  pushcli ;;
  i <- mycpu ;;
  p <- deref (procs !! i) ;;
  popcli ;;
  ret p.

Lemma find_apic_spec ids : ∀ i, match find_apic ids i with
  | Some j => (i <= j)%nat ∧ ids !! (j - i)%nat = Some lapicid
  | None => lapicid ∉ ids
  end.
Proof.
  induction ids as [|a ids IH]; intros i; cbn [find_apic]; [by apply not_elem_of_nil|].
  destruct (Z.eqb_spec a lapicid) as [->|Hne].
  - split; [done|]. by rewrite Nat.sub_diag.
  - specialize (IH (1 + i)%nat). destruct (find_apic ids (1 + i)) as [j|].
    + destruct IH as [Hle Hj]. split; [lia|]. by replace (j - i)%nat with (1 + (j - (1 + i)))%nat by lia.
    + intros [->|H]%elem_of_cons; [by apply Hne|by apply IH].
Qed.

Lemma find_apic_nodup i : NoDup apicids → apicids !! i = Some lapicid → find_apic apicids 0 = Some i.
Proof.
  intros Hn Hi. pose proof (find_apic_spec apicids 0) as H. destruct (find_apic apicids 0) as [j|].
  - destruct H as [_ Hj]. rewrite Nat.sub_0_r in Hj. f_equal. by eapply NoDup_lookup.
  - exfalso. apply H. by eapply list_elem_of_lookup_2.
Qed.

(** With processors that have numbers of their own, processor [i] finds its entry and
    its process, and has its interrupts as before; a processor that is not in the table, and a
    call of [mycpu] with interrupts on, panic. *)
Theorem myproc_own c s i p :
  NoDup apicids → procs !! i = Some p → 0 <= cpu_ncli c → (cpu_ncli c ≠ 0 → cpu_if c = false) →
  (apicids !! i = Some lapicid →
     (∃ c', myproc c s = Ret p c' s ∧ cpu_if c' = cpu_if c ∧ cpu_ncli c' = cpu_ncli c ∧ cpu_held c' = cpu_held c) ∧
     (cpu_if c = false → cpuid c s = Ret i c s)) ∧
  (lapicid ∉ apicids → myproc c s = Panic "unknown apicid") ∧
  (cpu_if c = true → mycpu c s = Panic "mycpu called with interrupts enabled").
Proof.
  intros Hn Hp Hc Hif. split; [|split].
  - intros Hi. pose proof (find_apic_nodup i Hn Hi) as Hf. split.
    + unfold myproc. rewrite (bind_eq _ _ _ _ _ _ _ (pushcli_eq c s)).
      unfold mycpu. unfold bind at 1 2 3. cbn [getcpu cpu_if when ret]. rewrite Hf. cbn [ret].
      unfold bind at 1. rewrite Hp. cbn [deref ret]. unfold bind. rewrite popcli_eq by (cbn; first [done|lia]).
      cbn. eexists. split; [reflexivity|]. cbn. replace (cpu_ncli c + 1 =? 1) with (cpu_ncli c =? 0) by lia.
      split; [|split; [lia|done]]. destruct (Z.eqb_spec (cpu_ncli c) 0) as [|Hne]; [done|]. by rewrite (Hif Hne).
    + intros Hi0. unfold cpuid, mycpu, bind, getcpu, when, ret. by rewrite Hi0, Hf.
  - intros Hnot. pose proof (find_apic_spec apicids 0) as H. unfold myproc. rewrite (bind_eq _ _ _ _ _ _ _ (pushcli_eq c s)).
    unfold mycpu, bind, getcpu, when, ret. cbn [cpu_if]. destruct (find_apic apicids 0) as [j|]; [|done].
    destruct H as [_ Hj]. exfalso. apply Hnot. by eapply list_elem_of_lookup_2.
  - intros Ht. unfold mycpu, bind, getcpu, when. by rewrite Ht.
Qed.
End cpus.

Lemma myproc_own_witness :
  myproc (S := unit) [4; 0; 6] [None; Some 2%nat; None] 0 (cpu0 1) tt = Ret (Some 2%nat) (cpu0 1) tt ∧
  ∃ c', myproc (S := unit) [4; 0; 6] [None; Some 2%nat; None] 0 (cpu0 1) tt = Ret (Some 2%nat) c' tt ∧ cpu_if c' = true ∧ cpu_ncli c' = 0 ∧ cpu_held c' = [].
Proof.
  split; [vm_compute; reflexivity|].
  apply (myproc_own [4; 0; 6] [None; Some 2%nat; None] 0 (cpu0 1) tt 1 (Some 2%nat)); try reflexivity; [|cbn; lia].
  repeat (apply NoDup_cons; split; [set_solver|]). by apply NoDup_nil.
Defined.

(** * The first process *)

(** The static variable [first] of [forkret], and the file system. *)
Record kfirst := KFirst { kf_first : bool; kf_fs : fstate }.
Definition on_fs {A} (m : M fstate A) : M kfirst A := lift kf_fs (λ f s, KFirst (kf_first s) f) m.

(** Still holding ptable.lock from scheduler. *)
Definition forkret : M kfirst unit :=
  release LkPtable ;;
  s <- get ;;
  when (kf_first s)
    (modify (λ s, KFirst false (kf_fs s)) ;;
     on_fs (iinit ROOTDEV) ;;
     on_fs (lg (initlog ROOTDEV))).

Lemma iinit_locks E c l sb ino Q :
  length ino = ninode → Q tt c (FState l sb (set_ilock initsleeplock <$> ino)) →
  wp E (for_each (seq 0 ninode) (λ i, upd_inode i (set_ilock initsleeplock))) c (FState l sb ino) Q.
Proof.
  intros Hl HQ.
  eapply (wp_for_each _ _ _ (λ visited s, s = FState l sb ((set_ilock initsleeplock <$> take (length visited) ino) ++ drop (length visited) ino))).
  - cbn [length take drop fmap list_fmap app]. done.
  - intros visited i rest s' Hseq ->.
    assert (length visited + Datatypes.S (length rest) = ninode)%nat as Hlen.
    { pose proof (length_seq ninode 0) as Hsl. rewrite Hseq, length_app in Hsl. cbn [length] in Hsl. lia. }
    assert (i = length visited) as ->.
    { assert (seq 0 ninode !! length visited = Some i) as H by (rewrite Hseq; apply list_lookup_middle; done). apply lookup_seq in H. lia. }
    destruct (lookup_lt_is_Some_2 ino (length visited)) as [x Hx]; [lia|].
    unfold upd_inode. apply wp_bind, wp_get, wp_bind. cbn [fs_inode].
    assert (((set_ilock initsleeplock <$> take (length visited) ino) ++ drop (length visited) ino) !! length visited = Some x) as Hlk.
    { rewrite lookup_app_r by (rewrite length_fmap, length_take; lia). rewrite length_fmap, length_take, lookup_drop. rewrite <- Hx. f_equal. lia. }
    eapply wp_deref; [exact Hlk|]. apply wp_modify. split; [done|]. cbn [fs_l fs_sb fs_inode]. f_equal.
    rewrite (alter_insert _ _ _ _ Hlk), insert_app_r_alt by (rewrite length_fmap, length_take; lia).
    rewrite length_fmap, length_take. replace (length visited - (length visited `min` length ino))%nat with 0%nat by lia.
    rewrite (drop_S _ _ _ Hx). cbn [insert list_insert]. rewrite length_app. cbn [length]. rewrite Nat.add_1_r, (take_S_r _ _ _ Hx), fmap_app, <- app_assoc. done.
  - intros s' ->. rewrite length_seq, <- Hl, firstn_all, drop_all, app_nil_r. exact HQ.
Qed.

(** The machine at the first [forkret]: [binit] has run, and nothing has touched the disk. *)
Definition before_first (img : list (list Z)) (sb : superblock) (ino : list inode) : kfirst :=
  KFirst true (FState (LState (BState binit_bufs (Disk img [])) log0) sb ino).

(** The first process to run, and only that one, brings the file system up: it releases the
    lock the scheduler took, recovers the log, so that the disk is the one that the last
    committed transaction left, reads the superblock, and makes the locks of the inodes. *)
Theorem forkret_recovers pid img st sz bs vs d sb ino :
  log_image img st sz bs vs → img !! 1%nat = Some d → length ino = ninode →
  (∃ l v, forkret (cpu1 pid LkPtable) (before_first img sb ino) =
     Ret tt (cpu0 pid) (KFirst false (FState l (sb_decode d) (set_ilock initsleeplock <$> ino))) ∧
     lrel pid st sz l (LAbs v v ∅ [] 0 0) ∧ same_data st sz v (apply_writes (home_writes bs vs) img)) ∧
  ∀ fs, forkret (cpu1 pid LkPtable) (KFirst false fs) = Ret tt (cpu0 pid) (KFirst false fs).
Proof.
  intros Himg Hd Hino. split.
  - assert (wp no_panic forkret (cpu1 pid LkPtable) (before_first img sb ino) (λ _ c s, c = cpu0 pid ∧
      ∃ l v, s = KFirst false (FState l (sb_decode d) (set_ilock initsleeplock <$> ino)) ∧
        lrel pid st sz l (LAbs v v ∅ [] 0 0) ∧ same_data st sz v (apply_writes (home_writes bs vs) img))) as H.
    { unfold forkret. apply wp_bind. eapply eq_wp; [apply release_cpu1|]. apply wp_bind, wp_get. cbn [kf_first before_first when].
      apply wp_bind, wp_modify, wp_bind, wp_lift. cbn [kf_first kf_fs before_first]. unfold iinit.
      apply wp_bind, iinit_locks; [done|]. apply wp_bind, wp_lift, wp_lift. cbn [ls_b fs_l].
      eapply readsb_spec; [exact (binit_brel pid img (li_blocks _ _ _ _ _ Himg))|done|cbn; rewrite size_empty; sizes; lia|exact Hd|].
      intros b Hb. apply wp_modify. cbn [fs_l fs_sb fs_inode ls_log]. apply wp_lift, wp_lift. cbn [fs_l kf_fs].
      eapply initlog_lrel; [exact Himg|exact Hb|]. intros l v rw HL _ _ _ Hsame _. split; [done|]. by exists l, v. }
    unfold wp in H. destruct (forkret _ _) as [[] c s| | | |]; try done. destruct H as (-> & l & v & -> & HL & Hs). by exists l, v.
  - intros fs. unfold forkret. rewrite (bind_eq _ _ _ _ _ _ _ (release_cpu1 _ _ _)). done.
Qed.
