(* ===== verification/Kdebug.v ===== *)
(** The kernel's diagnostics: the walk up the stack ([getcallerpcs]), the process listing
    ([procdump]) and the report of [panic] (console.c). *)
From stdpp Require Import base list numbers strings sets.
From Stdlib Require Import ZArith Lia.
From S2P Require Import Prelude Params Machine Spinlock CString Kalloc Printf Console Proc.
Local Open Scope Z_scope.
Local Open Scope xv6_scope.

(** * The call stack *)

Section stack.
(** The words of the kernel's memory; [None] for an address that is not mapped. *)
Context (word : Z → option Z).

(** [n] entries of [pcs] are left. *)
Fixpoint getcallerpcs_loop (n : nat) (ebp : Z) : option (list Z) :=
  match n with
  | O => Some []
  | S n' =>
      if (ebp =? 0) || (ebp <? KERNBASE) || (ebp =? 0xffffffff) then Some (replicate n 0)
      else
        pc ← word (u32 (ebp + 4));      (* saved %eip *)
        ebp ← word ebp;                 (* saved %ebp *)
        pcs ← getcallerpcs_loop n' ebp;
        Some (pc :: pcs)
  end.
Definition getcallerpcs (v : Z) : option (list Z) := getcallerpcs_loop 10 (u32 (v - 8)).

(** The frames from the one at [ebp] to the last, by their return addresses. *)
Inductive frames : Z → list Z → Prop :=
| frames_end ebp : ebp < KERNBASE ∨ ebp = 0xffffffff → frames ebp []
| frames_next ebp pc next pcs :
    KERNBASE <= ebp < 0xffffffff → word (u32 (ebp + 4)) = Some pc → word ebp = Some next →
    frames next pcs → frames ebp (pc :: pcs).

Lemma getcallerpcs_loop_ok n : ∀ ebp pcs, frames ebp pcs → getcallerpcs_loop n ebp = Some (take n (pcs ++ replicate n 0)).
Proof.
  induction n as [|n IH]; intros ebp pcs H; [done|]. cbn [getcallerpcs_loop]. destruct H as [ebp He|ebp pc next pcs He Hpc Hn H].
  - replace ((ebp =? 0) || (ebp <? KERNBASE) || (ebp =? 0xffffffff)) with true by (unfold KERNBASE in *; lia).
    rewrite app_nil_l, take_ge; [done|]. rewrite length_replicate. lia.
  - replace ((ebp =? 0) || (ebp <? KERNBASE) || (ebp =? 0xffffffff)) with false by (unfold KERNBASE in *; lia).
    rewrite Hpc. cbn [mbind option_bind]. rewrite Hn. cbn [mbind option_bind]. rewrite (IH _ _ H). cbn [mbind option_bind app take].
    do 2 f_equal. change (take n (pcs ++ replicate n 0) = take n (pcs ++ replicate (S n) 0)).
    rewrite replicate_S_end, app_assoc, (take_app_le (pcs ++ replicate n 0) [0]); [done|]. rewrite length_app, length_replicate. lia.
Qed.

(** [getcallerpcs] gives the ten innermost return addresses, and zeros behind them if there
    are fewer. *)
Lemma getcallerpcs_ok v pcs : frames (u32 (v - 8)) pcs → getcallerpcs v = Some (take 10 (pcs ++ replicate 10 0)).
Proof. apply getcallerpcs_loop_ok. Qed.

(** * The process listing *)

(** The saved [%ebp] in the context of the process in slot [i]. *)
Context (context_ebp : nat → Z).

Definition states (s : procstate) : list Z :=
  bytes_of match s with
    | UNUSED => "unused" | EMBRYO => "embryo" | SLEEPING => "sleep " | RUNNABLE => "runble" | RUNNING => "run   " | ZOMBIE => "zombie"
    end.

(** The arguments 1 and 2 stand for the addresses of the name of the state and of [p->name]. *)
Definition dump_str (p : proc) (a : Z) : list Z := if a =? 1 then states (p_state p) else cstr 16 (p_name p).

Fixpoint dump_pcs (str : Z → list Z) (pcs : list Z) : M console unit :=
  match pcs with
  | [] => ret tt
  | pc :: pcs' => if pc =? 0 then ret tt else cprintf str (Some (bytes_of " %p")) [pc] ;; dump_pcs str pcs'
  end.

Definition dump_proc (i : nat) (p : proc) : M console unit :=
  if bool_decide (p_state p = UNUSED) then ret tt
  else
    cprintf (dump_str p) (Some (bytes_of "%d %s %s")) [p_pid p; 1; 2] ;;
    when (bool_decide (p_state p = SLEEPING))
      (pcs <- deref (getcallerpcs (u32 (context_ebp i + 8))) ;; dump_pcs (dump_str p) pcs) ;;
    cprintf (dump_str p) (Some [10]) [].

Definition procdump (table : list proc) : M console unit :=
  for_each (imap (λ i p, (i, p)) table) (λ x, dump_proc x.1 x.2).

(** * Panic *)

Definition set_panicked (s : console) : console :=
  Console (crt s) (cursor s) (serial s) (uart s) true (locking s) (inp s).

(** [panic] up to its endless loop, on the processor with the number [lapicid]; [v] is the
    address of its argument. *)
Definition panic_report (lapicid : Z) (str : Z → list Z) (msg : list Z) (v : Z) : M console unit :=
  set_if false ;;
  modify (set_locking false) ;;
  cprintf str (Some (bytes_of "lapicid %d: panic: ")) [lapicid] ;;
  cprintf str (Some msg) [] ;;
  cprintf str (Some [10]) [] ;;
  pcs <- deref (getcallerpcs v) ;;
  for_each pcs (λ pc, cprintf str (Some (bytes_of " %p")) [pc]) ;;
  modify set_panicked.   (* freeze other CPU *)
Definition panic (lapicid : Z) (str : Z → list Z) (msg : list Z) (v : Z) : M console unit :=
  panic_report lapicid str msg v ;; hang.
End stack.

(** * What is printed *)

(** The numerals of [%d] and [%p]. *)
Definition dec (x : Z) : list Z := default [] (Cprintf.printint (s32 x) 10 true).
Definition hex (x : Z) : list Z := default [] (Cprintf.printint (s32 x) 16 false).

Lemma dec_eq x : Cprintf.printint (s32 x) 10 true = Some (dec x).
Proof. unfold dec, Cprintf.printint. by destruct (printint_some digit_lower x 10 true) as [d ->]; [left|]. Qed.
Lemma hex_eq x : Cprintf.printint (s32 x) 16 false = Some (hex x).
Proof. unfold hex, Cprintf.printint. by destruct (printint_some digit_lower x 16 false) as [d ->]; [right|]. Qed.

Lemma digit_lower_range d : 0 <= d < 16 → 0 <= digit_lower d < 256.
Proof. intros. unfold digit_lower. case_match; lia. Qed.

Lemma numeral_bytes x base sgn d :
  base = 10 ∨ base = 16 → Cprintf.printint (s32 x) base sgn = Some d → Forall (λ ch, 0 <= ch < 256) d.
Proof.
  intros Hb Hd. destruct (printint_spec (s32 x) base sgn Hb (s32_range x)) as (ds & Heq & _ & Hr & _).
  unfold Cprintf.printint in Hd. rewrite Heq in Hd. injection Hd as <-. apply Forall_app. split; [case_match; [apply Forall_singleton; lia|by apply Forall_nil]|].
  apply Forall_fmap, Forall_rev. eapply Forall_impl; [exact Hr|]. intros z Hz. apply digit_lower_range. cbn beta in Hz. destruct Hb; lia.
Qed.

Lemma dec_bytes x : Forall (λ ch, 0 <= ch < 256) (dec x).
Proof. eapply (numeral_bytes x 10 true); [by left|apply dec_eq]. Qed.
Lemma hex_bytes x : Forall (λ ch, 0 <= ch < 256) (hex x).
Proof. eapply (numeral_bytes x 16 false); [by right|apply hex_eq]. Qed.

Lemma filter_other (lk : lockid) (l : list lockid) : lk ∉ l → filter (λ x, x ≠ lk) l = l.
Proof.
  induction l as [|x l IH]; intros H; [done|]. apply not_elem_of_cons in H as [Hx Hl].
  rewrite filter_cons_True by done. by rewrite IH.
Qed.

(** [cprintf] with and without the lock; [settled] is the processor after the lock is
    released again. *)
Definition settled (c : cpu) : Prop :=
  LkCons ∉ cpu_held c ∧ 0 <= cpu_ncli c ∧ (if cpu_ncli c =? 0 then cpu_intena c = cpu_if c else cpu_if c = false).

Lemma cprintf_prints c s str fmt args out :
  console_ok s → locking s = false ∨ settled c → Cprintf.cprintf_loop str fmt args = Some out → Forall (λ ch, 0 <= ch < 256) out →
  ∃ s', cprintf str (Some fmt) args c s = Ret tt c s' ∧ printed out s s'.
Proof.
  intros Hok Hl Hout Hr. unfold cprintf. erewrite bind_eq; [|done]. cbv beta zeta. destruct (locking s).
  - destruct Hl as [|(Hh & Hn & Hi)]; [done|]. erewrite bind_eq; [|by apply acquire_eq]. cbv beta. rewrite Hout. erewrite bind_eq; [|done]. cbv beta.
    destruct (consputc_all out (Cpu (cpu_pid c) false (cpu_ncli c + 1) (if cpu_ncli c =? 0 then cpu_if c else cpu_intena c) (LkCons :: cpu_held c)) s Hok)
      as (s' & Heq & Hp). rewrite echo_bytes in Hp by done. erewrite bind_eq; [|exact Heq]. cbn [when]. exists s'. split; [|done].
    rewrite release_eq by (cbn; first [done|lia|set_solver]). f_equal. cbn [cpu_pid cpu_if cpu_ncli cpu_intena cpu_held].
    rewrite filter_cons_False by naive_solver. rewrite filter_other by done.
    replace (cpu_ncli c + 1 =? 1) with (cpu_ncli c =? 0) by lia. replace (cpu_ncli c + 1 - 1) with (cpu_ncli c) by lia.
    destruct c as [pid i n e h]. cbn in *. destruct (n =? 0); by subst.
  - erewrite bind_eq; [|done]. cbv beta. rewrite Hout. erewrite bind_eq; [|done]. cbv beta.
    destruct (consputc_all out c s Hok) as (s' & Heq & Hp). rewrite echo_bytes in Hp by done. erewrite bind_eq; [|exact Heq]. by exists s'.
Qed.

(** Run [cprintf_loop] on a literal. *)
Ltac run_fmt :=
  match goal with |- context [Cprintf.cprintf_loop _ (bytes_of ?f)] =>
    let v := eval vm_compute in (bytes_of f) in change (bytes_of f) with v end;
  cbn [Cprintf.cprintf_loop negb Z.eqb Pos.eqb orb]; rewrite ?dec_eq, ?hex_eq; cbn [mbind option_bind].

Lemma fmt_dec str n : Cprintf.cprintf_loop str (bytes_of "lapicid %d: panic: ") [n] = Some (bytes_of "lapicid " ++ dec n ++ bytes_of ": panic: ").
Proof. run_fmt. reflexivity. Qed.
Lemma fmt_pc str pc : Cprintf.cprintf_loop str (bytes_of " %p") [pc] = Some (32 :: hex pc).
Proof. run_fmt. by rewrite app_nil_r. Qed.
Lemma fmt_proc str pid :
  Cprintf.cprintf_loop str (bytes_of "%d %s %s") [pid; 1; 2] = Some (dec pid ++ 32 :: str 1 ++ 32 :: str 2).
Proof. run_fmt. by rewrite app_nil_r. Qed.

(** The addresses that are printed, up to the first zero, each behind a blank. *)
Fixpoint trace (pcs : list Z) : list Z :=
  match pcs with
  | [] => []
  | pc :: pcs' => if pc =? 0 then [] else (32 :: hex pc) ++ trace pcs'
  end.

Lemma pc_bytes pc : Forall (λ ch, 0 <= ch < 256) (32 :: hex pc).
Proof. apply Forall_cons. split; [lia|apply hex_bytes]. Qed.

Lemma dump_pcs_ok c str pcs : ∀ s, console_ok s → locking s = false ∨ settled c →
  ∃ s', dump_pcs str pcs c s = Ret tt c s' ∧ printed (trace pcs) s s'.
Proof.
  induction pcs as [|pc pcs IH]; intros s Hok Hl; cbn [dump_pcs trace]; [exists s; split; [done|by apply printed_nil]|].
  destruct (pc =? 0); [exists s; split; [done|by apply printed_nil]|].
  destruct (cprintf_prints c s str _ _ _ Hok Hl (fmt_pc str pc) (pc_bytes pc)) as (s1 & E1 & P1).
  destruct P1 as (Hok1 & Hi1 & Hl1 & Hu1). rewrite <- Hl1 in Hl. destruct (IH s1 Hok1 Hl) as (s2 & E2 & P2).
  exists s2. split; [rewrite (bind_eq _ _ _ _ _ _ _ E1); exact E2|]. eapply printed_trans; [|exact P2]. done.
Qed.

(** The line of a process, with the return addresses [pcs] on its stack. *)
Definition dump_line (p : proc) (pcs : list Z) : list Z :=
  if bool_decide (p_state p = UNUSED) then []
  else dec (p_pid p) ++ 32 :: states (p_state p) ++ 32 :: cstr 16 (p_name p) ++
       (if bool_decide (p_state p = SLEEPING) then trace (take 10 (pcs ++ replicate 10 0)) else []) ++ [10].

Lemma states_bytes st : Forall (λ ch, 0 <= ch < 256) (states st).
Proof. apply bytes_of_range. Qed.

Lemma cstr_bytes n l : Forall (λ ch, 0 <= ch < 256) l → Forall (λ ch, 0 <= ch < 256) (cstr n l).
Proof.
  intros H. revert n. induction H as [|x l Hx _ IH]; intros [|n]; cbn [cstr]; try by apply Forall_nil.
  case_match; [by apply Forall_nil|]. by apply Forall_cons.
Qed.

(** A process that can be listed: its name is made of bytes, and when it sleeps, the return
    addresses on its stack are [pcs]. *)
Definition listed (word : Z → option Z) (ebp : Z) (p : proc) (pcs : list Z) : Prop :=
  Forall (λ ch, 0 <= ch < 256) (p_name p) ∧ (p_state p = SLEEPING → 0 <= ebp < 2 ^ 32 ∧ frames word ebp pcs).

Lemma dump_proc_ok word ebp i p pcs c s :
  listed word (ebp i) p pcs → console_ok s → locking s = false ∨ settled c →
  ∃ s', dump_proc word ebp i p c s = Ret tt c s' ∧ printed (dump_line p pcs) s s'.
Proof.
  intros [Hname Hst] Hok Hl. unfold dump_proc, dump_line. case_bool_decide; [exists s; split; [done|by apply printed_nil]|].
  destruct (cprintf_prints c s (dump_str p) _ _ _ Hok Hl (fmt_proc (dump_str p) (p_pid p))) as (s1 & E1 & P1).
  { apply Forall_app. split; [apply dec_bytes|]. apply Forall_cons. split; [lia|]. apply Forall_app. split; [apply states_bytes|].
    apply Forall_cons. split; [lia|]. by apply cstr_bytes. }
  assert (locking s1 = false ∨ settled c) as Hl1 by (by rewrite (proj1 (proj2 (proj2 P1)))).
  set (tr := if bool_decide (p_state p = SLEEPING) then trace (take 10 (pcs ++ replicate 10 0)) else []).
  assert (∃ s2, when (bool_decide (p_state p = SLEEPING))
      (pcs <- deref (getcallerpcs word (u32 (ebp i + 8))) ;; dump_pcs (dump_str p) pcs) c s1 = Ret tt c s2 ∧ printed tr s1 s2) as (s2 & E2 & P2).
  { unfold tr. case_bool_decide as Hs; cbn [when]; [|exists s1; split; [done|apply printed_nil, P1]]. destruct (Hst Hs) as [Hr Hf].
    rewrite (getcallerpcs_ok word _ pcs).
    - destruct (dump_pcs_ok c (dump_str p) (take 10 (pcs ++ replicate 10 0)) s1 ltac:(apply P1) Hl1) as (s2 & E2 & P2). by exists s2.
    - replace (u32 (u32 (ebp i + 8) - 8)) with (ebp i); [done|]. unfold u32. rewrite Zminus_mod_idemp_l.
      replace (ebp i + 8 - 8) with (ebp i) by lia. symmetry. by apply Z.mod_small. }
  assert (locking s2 = false ∨ settled c) as Hl2 by (by rewrite (proj1 (proj2 (proj2 P2)))).
  destruct (cprintf_prints c s2 (dump_str p) [10] [] [10] ltac:(apply P2) Hl2 eq_refl) as (s3 & E3 & P3); [apply Forall_singleton; lia|].
  exists s3. split; [rewrite (bind_eq _ _ _ _ _ _ _ E1), (bind_eq _ _ _ _ _ _ _ E2); exact E3|].
  pose proof (printed_trans _ _ _ _ _ P1 (printed_trans _ _ _ _ _ P2 P3)) as P. revert P.
  change (dump_str p 1) with (states (p_state p)). change (dump_str p 2) with (cstr 16 (p_name p)).
  rewrite <- !app_assoc. cbn [app]. rewrite <- !app_assoc. done.
Qed.

(** [procdump] prints a line for each slot in use, in the order of the table: the number of the
    process, its state, its name and, when it sleeps, the ten innermost return addresses of its stack. It
    takes the lock of the console for each piece of the line only, and neither changes the
    process table nor the typed input. *)
Theorem procdump_lists word ebp table stacks c s :
  (∀ i p, table !! i = Some p → ∃ pcs, stacks !! i = Some pcs ∧ listed word (ebp i) p pcs) → length stacks = length table →
  console_ok s → settled c →
  ∃ s', procdump word ebp table c s = Ret tt c s' ∧ printed (concat (zip_with dump_line table stacks)) s s'.
Proof.
  intros Ht Hlen Hok Hc. unfold procdump.
  assert (∀ k t st s, (∀ i p, t !! i = Some p → ∃ pcs, st !! i = Some pcs ∧ listed word (ebp (k + i)%nat) p pcs) → length st = length t → console_ok s →
    ∃ s', for_each (imap (λ i p, ((k + i)%nat, p)) t) (λ x, dump_proc word ebp x.1 x.2) c s = Ret tt c s' ∧ printed (concat (zip_with dump_line t st)) s s') as H.
  { clear -Hc. intros k t. revert k. induction t as [|p t IH]; intros k [|pcs st] s Ht Hlen Hok; try done.
    - exists s. split; [done|by apply printed_nil].
    - destruct (Ht 0%nat p eq_refl) as (pcs' & [= <-] & Hp). rewrite Nat.add_0_r in Hp.
      destruct (dump_proc_ok word ebp k p pcs c s Hp Hok (or_intror Hc)) as (s1 & E1 & P1).
      destruct (IH (S k) st s1) as (s2 & E2 & P2); [|by injection Hlen|apply P1|].
      { intros i q Hq. destruct (Ht (S i) q Hq) as (q' & Hq' & Hl). exists q'. split; [done|]. by replace (S k + i)%nat with (k + S i)%nat by lia. }
      exists s2. split; [|cbn [zip_with concat]; by eapply printed_trans].
      cbn [imap for_each fst snd]. rewrite Nat.add_0_r, (bind_eq _ _ _ _ _ _ _ E1).
      rewrite <- E2. f_equal. apply imap_ext. intros i x _. cbn. f_equal. lia. }
  apply (H 0%nat table stacks s); done.
Qed.

(** The report of [panic]. *)
Definition panic_text (lapicid : Z) (msg pcs : list Z) : list Z :=
  bytes_of "lapicid " ++ dec lapicid ++ bytes_of ": panic: " ++ msg ++ [10] ++
  concat ((λ pc, 32 :: hex pc) <$> take 10 (pcs ++ replicate 10 0)).

(** [panic] reports whatever the processor was doing, also while it holds the lock of the
    console: the number of the processor, the message and the return addresses go out, and it
    spins with interrupts off. Any processor that prints after that stops. *)
Theorem panic_freezes word lapicid str msg v pcs c s :
  console_ok s → Forall (λ ch, 0 <= ch < 256 ∧ ch ≠ 37) msg → frames word (u32 (v - 8)) pcs →
  (∃ c' s', panic_report word lapicid str msg v c s = Ret tt c' s' ∧ cpu_if c' = false ∧
     serial s' = serial s ++ (if uart s then panic_text lapicid msg pcs else []) ∧ inp s' = inp s ∧
     ∀ ch c'', consputc ch c'' s' = Hang) ∧
  panic word lapicid str msg v c s = Hang.
Proof.
  intros Hok Hmsg Hf. assert (Cprintf.cprintf_loop str msg [] = Some msg) as Hm.
  { clear -Hmsg. induction Hmsg as [|ch msg [_ Hch] _ IH]; [done|]. cbn [Cprintf.cprintf_loop]. replace (ch =? 37) with false by lia. cbn [negb]. by rewrite IH. }
  assert (∃ c' s', panic_report word lapicid str msg v c s = Ret tt c' s' ∧ cpu_if c' = false ∧
     serial s' = serial s ++ (if uart s then panic_text lapicid msg pcs else []) ∧ inp s' = inp s ∧ ∀ ch c'', consputc ch c'' s' = Hang) as H.
  2: { split; [exact H|]. destruct H as (c' & s' & E & _). unfold panic. rewrite (bind_eq _ _ _ _ _ _ _ E). done. }
  set (c1 := Cpu (cpu_pid c) false (cpu_ncli c) (cpu_intena c) (cpu_held c)). set (s0 := set_locking false s).
  assert (console_ok s0) as Hok0 by (destruct Hok; by split).
  assert (∀ s1 fmt args out, printed out s0 s1 → ∀ o, Cprintf.cprintf_loop str fmt args = Some o → Forall (λ ch, 0 <= ch < 256) o →
    ∃ s2, cprintf str (Some fmt) args c1 s1 = Ret tt c1 s2 ∧ printed (out ++ o) s0 s2) as Hp.
  { intros s1 fmt args out P1 o Ho Hr. destruct (cprintf_prints c1 s1 str fmt args o) as (s2 & E & P2); [apply P1|left|done|done|].
    - by rewrite (proj1 (proj2 (proj2 P1))).
    - exists s2. split; [done|]. by eapply printed_trans. }
  destruct (Hp s0 _ _ [] (printed_nil s0 Hok0) _ (fmt_dec str lapicid)) as (s1 & E1 & P1).
  { repeat (apply Forall_app; split); first [apply bytes_of_range|apply dec_bytes]. }
  destruct (Hp s1 _ _ _ P1 _ Hm) as (s2 & E2 & P2); [eapply Forall_impl; [exact Hmsg|]; cbn; tauto|].
  destruct (Hp s2 [10] [] _ P2 _ eq_refl) as (s3 & E3 & P3); [apply Forall_singleton; lia|].
  assert (∀ l s3 out, printed out s0 s3 → ∃ s4, for_each l (λ pc, cprintf str (Some (bytes_of " %p")) [pc]) c1 s3 = Ret tt c1 s4 ∧
    printed (out ++ concat ((λ pc, 32 :: hex pc) <$> l)) s0 s4) as Hpcs.
  { induction l as [|pc l IH]; intros s4 out P4; [exists s4; split; [done|by rewrite app_nil_r]|].
    destruct (Hp s4 _ _ _ P4 _ (fmt_pc str pc) (pc_bytes pc)) as (s5 & E5 & P5). destruct (IH s5 _ P5) as (s6 & E6 & P6).
    exists s6. split; [cbn [for_each]; rewrite (bind_eq _ _ _ _ _ _ _ E5); exact E6|]. rewrite <- app_assoc in P6. exact P6. }
  destruct (Hpcs (take 10 (pcs ++ replicate 10 0)) s3 _ P3) as (s4 & E4 & P4).
  exists c1, (set_panicked s4). split.
  - unfold panic_report. erewrite bind_eq; [|reflexivity]. erewrite bind_eq; [|reflexivity].
    rewrite (bind_eq _ _ _ _ _ _ _ E1), (bind_eq _ _ _ _ _ _ _ E2), (bind_eq _ _ _ _ _ _ _ E3), (getcallerpcs_ok word v pcs Hf).
    erewrite bind_eq; [|reflexivity]. rewrite (bind_eq _ _ _ _ _ _ _ E4). done.
  - destruct P4 as (_ & Hi & _ & _ & Hser). split; [done|]. split; [|split; [exact Hi|done]].
    cbn [serial set_panicked]. rewrite Hser. unfold panic_text. cbn [app]. by rewrite <- !app_assoc.
Qed.
