(* ===== verification/CProg.v ===== *)
(** Programs of the host system: a monad for C programs with a state, and the functions of
    the C library that the programs of the course projects use. *)
From stdpp Require Import base list numbers strings.
From Stdlib Require Import ZArith Lia Ascii.
From Stdlib Require String.
From S2P Require Import Prelude.
Local Open Scope Z_scope.

Declare Scope cprog_scope.
Delimit Scope cprog_scope with cprog.

(** * The monad *)

(** How a program goes on: it has a value, it called [exit], an [assert] failed, the C
    standard says nothing about what it does, or the fuel of the model is used up. *)
Inductive cres (S A : Type) :=
| COk (a : A) (s : S)
| CExit (code : Z) (s : S)
| CAssert (s : S)
| CUndef
| CHang.
Arguments COk {S A} a s.
Arguments CExit {S A} code s.
Arguments CAssert {S A} s.
Arguments CUndef {S A}.
Arguments CHang {S A}.

Definition C (S A : Type) : Type := S → cres S A.
Definition cret {S A} (a : A) : C S A := λ s, COk a s.
Definition cbind {S A B} (m : C S A) (f : A → C S B) : C S B := λ s,
  match m s with
  | COk a s => f a s
  | CExit code s => CExit code s
  | CAssert s => CAssert s
  | CUndef => CUndef
  | CHang => CHang
  end.
Notation "x <- m ;; k" := (cbind m (λ x, k)) (at level 100, m at next level, right associativity) : cprog_scope.
Notation "m ;; k" := (cbind m (λ _, k)) (at level 100, right associativity) : cprog_scope.
Local Open Scope cprog_scope.

Definition cget {S} : C S S := λ s, COk s s.
Definition cput {S} (s : S) : C S unit := λ _, COk tt s.
Definition cexit {S A} (code : Z) : C S A := λ s, CExit code s.
Definition cassert {S} (b : bool) : C S unit := λ s, if b then COk tt s else CAssert s.
Definition cundef {S A} : C S A := λ _, CUndef.
Definition chang {S A} : C S A := λ _, CHang.
(** [b] has to hold, or the behaviour is undefined. *)
Definition cdefined {S} (b : bool) : C S unit := λ s, if b then COk tt s else CUndef.
Definition cwhen {S} (b : bool) (m : C S unit) : C S unit := if b then m else cret tt.

Fixpoint cfor {S A} (l : list A) (f : A → C S unit) : C S unit :=
  match l with
  | [] => cret tt
  | x :: l' => f x ;; cfor l' f
  end.

(** An [int] result: overflow is undefined. *)
Definition int {S} (z : Z) : C S Z := λ s, if (- 2 ^ 31 <=? z) && (z <? 2 ^ 31) then COk z s else CUndef.

(** * The C library *)

Definition crlf : list Z := [13; 10].

Definition isspace (c : Z) : bool := (c =? 32) || ((9 <=? c) && (c <=? 13)).

(** [atoi]; a number that is no [int] is undefined. *)
Fixpoint atoi_digits (acc : Z) (l : list Z) : Z :=
  match l with
  | [] => acc
  | c :: l' => if (48 <=? c) && (c <=? 57) then atoi_digits (10 * acc + (c - 48)) l' else acc
  end.
Fixpoint atoi_value (l : list Z) : Z :=
  match l with
  | [] => 0
  | c :: l' =>
      if isspace c then atoi_value l'
      else if c =? 45 then - atoi_digits 0 l'
      else if c =? 43 then atoi_digits 0 l'
      else atoi_digits 0 (c :: l')
  end.
Definition atoi {S} (s : list Z) : C S Z := int (atoi_value s).

(** [strstr(s, t) != NULL] *)
Fixpoint prefix_of (t s : list Z) : bool :=
  match t, s with
  | [], _ => true
  | x :: t', y :: s' => (x =? y) && prefix_of t' s'
  | _, [] => false
  end.
Fixpoint strstr (s t : list Z) : bool :=
  prefix_of t s || match s with [] => false | _ :: s' => strstr s' t end.

(** [tolower], [strcasecmp(s, t) == 0] *)
Definition tolower (c : Z) : Z := if (65 <=? c) && (c <=? 90) then c + 32 else c.
Definition same_nocase (s t : list Z) : bool := bool_decide ((tolower <$> s) = (tolower <$> t)).

(** A number for [%d], [%lu]: the digits, most significant first. *)
Fixpoint digits_of (fuel : nat) (n : Z) : list Z :=
  match fuel with
  | O => []
  | S fuel' => if n <? 10 then [48 + n] else digits_of fuel' (n / 10) ++ [48 + n mod 10]
  end.
Definition decimal (n : Z) : list Z :=
  if n <? 0 then 45 :: digits_of 20 (- n) else digits_of 20 n.

(** An answer of [getopt]: the option character and [optarg]. *)
Definition optret : Type := Z * list Z.

(** * Lemmas *)

Lemma cbind_ok {S A B} (m : C S A) (f : A → C S B) s a s' : m s = COk a s' → cbind m f s = f a s'.
Proof. intros H. unfold cbind. by rewrite H. Qed.

Lemma cbind_inv {S A B} (m : C S A) (f : A → C S B) s b s' :
  cbind m f s = COk b s' → ∃ a s1, m s = COk a s1 ∧ f a s1 = COk b s'.
Proof. unfold cbind. destruct (m s); try done. eauto. Qed.

Lemma int_ok {S} z (s : S) : - 2 ^ 31 <= z < 2 ^ 31 → int z s = COk z s.
Proof. intros H. unfold int. by rewrite (proj2 (Z.leb_le _ _)), (proj2 (Z.ltb_lt _ _)) by lia. Qed.
Lemma int_quiet {S} z (s : S) x s' : int z s = COk x s' → s' = s.
Proof. unfold int. case_match; [|done]. by intros [= <- <-]. Qed.

(** Run the arithmetic at the head of a program. *)
Ltac crun := repeat (erewrite cbind_ok by (apply int_ok; lia)).

Lemma prefix_of_spec t s : prefix_of t s = true ↔ ∃ r, s = t ++ r.
Proof.
  revert s. induction t as [|x t IH]; intros s; cbn [prefix_of].
  - split; [by exists s|done].
  - destruct s as [|y s]; [split; [done|intros [r Hr]; done]|]. rewrite andb_true_iff, IH, Z.eqb_eq. split.
    + intros [-> [r ->]]. by exists r.
    + intros [r Hr]. cbn in Hr. injection Hr as -> ->. split; [done|by exists r].
Qed.
Lemma strstr_spec s t : strstr s t = true ↔ ∃ l r, s = l ++ t ++ r.
Proof.
  induction s as [|x s IH]; cbn [strstr]; rewrite orb_true_iff, prefix_of_spec.
  - split; [intros [[r Hr]|]; [exists [], r; done|done]|]. intros (l & r & H). left. exists r. destruct l; [done|done].
  - rewrite IH. split.
    + intros [[r Hr]|(l & r & ->)]; [by exists [], r|by exists (x :: l), r].
    + intros (l & r & H). destruct l as [|y l]; [left; by exists r|]. injection H as -> ->. right. by exists l, r.
Qed.
