(* ===== verification/Ufs.v ===== *)
(** The image maker of the distributed file system project
    ([filesystems-distributed-ufs/mkfs.c] and [ufs.h]): the options, the layout of the
    image, and the writes that make it. *)
From stdpp Require Import base list numbers strings.
From Stdlib Require Import ZArith Lia.
From S2P Require Import Prelude CString CProg.
Local Open Scope Z_scope.
Local Open Scope cprog_scope.

(** * ufs.h *)

Definition UFS_DIRECTORY : Z := 0.
Definition UFS_REGULAR_FILE : Z := 1.
Definition UFS_BLOCK_SIZE : Z := 4096.
Definition DIRECT_PTRS : nat := 30.

(** [inode_t], [dir_ent_t] and [super_t]. *)
Record inode_t := Inode_t { ut_type : Z; ut_size : Z; ut_direct : list Z }.
Record dir_ent_t := Dir_ent { ue_name : list Z; ue_inum : Z }.
Record super_t := Super {
  inode_bitmap_addr : Z; inode_bitmap_len : Z;
  data_bitmap_addr : Z; data_bitmap_len : Z;
  inode_region_addr : Z; inode_region_len : Z;
  data_region_addr : Z; data_region_len : Z;
  num_inodes : Z; num_data : Z;
}.
Definition sizeof_inode : Z := 128.
Definition sizeof_dir_ent : Z := 32.

(** * Running the program *)

(** What the operating system answers: whether [calloc] finds memory, what [open]
    returns, and what the [n]th [pwrite] returns when it is asked for enough bytes:
    -1, or the number of bytes it wrote. *)
Record env := Env { e_calloc : bool; e_open : Z; e_pwrite : nat → Z }.

(** The image file, the number of [pwrite]s so far, and what was printed. *)
Record ustate := UState { u_file : list Z; u_calls : nat; u_out : list (string * list Z) }.

Definition U (A : Type) : Type := C ustate A.
Definition uprint (fmt : string) (args : list Z) : U unit := λ s,
  COk tt (UState (u_file s) (u_calls s) (u_out s ++ [(fmt, args)])).

(** Writing behind the end of a file fills the gap with zeroes. *)
Definition fwrite_at (off : nat) (data f : list Z) : list Z :=
  let f := f ++ replicate (off - length f) 0 in
  take off f ++ data ++ drop (off + length data) f.

Definition pwrite (e : env) (data : list Z) (off : Z) : U Z := λ s,
  let rc := if off <? 0 then -1 else Z.max (-1) (Z.min (e_pwrite e (u_calls s)) (Z.of_nat (length data))) in
  let file := if rc <=? 0 then u_file s else fwrite_at (Z.to_nat off) (take (Z.to_nat rc) data) (u_file s) in
  COk rc (UState file (S (u_calls s)) (u_out s)).

(** * The options *)

Definition usage {A} : U A :=
  uprint "usage: mkfs -f <image_file> [-d <num_data_blocks] [-i <num_inodes>]" [] ;; cexit 1.

(** [num_inodes], [num_data], [image_file] and [visual]. *)
Record options := Options { o_inodes : Z; o_data : Z; o_file : option (list Z); o_visual : bool }.
Definition default_options : options := Options 32 32 None false.

Definition option_step (o : options) (r : optret) : U options :=
  let '(ch, optarg) := r in
  if ch =? 105 then (n <- atoi optarg ;; cret (Options n (o_data o) (o_file o) (o_visual o)))
  else if ch =? 100 then (n <- atoi optarg ;; cret (Options (o_inodes o) n (o_file o) (o_visual o)))
  else if ch =? 102 then cret (Options (o_inodes o) (o_data o) (Some optarg) (o_visual o))
  else if ch =? 118 then cret (Options (o_inodes o) (o_data o) (o_file o) true)
  else usage.
Fixpoint parse_options (o : options) (rs : list optret) : U options :=
  match rs with
  | [] => cret o
  | r :: rs' => o <- option_step o r ;; parse_options o rs'
  end.

(** * The layout *)

(** [n / d], one more when there is a remainder; the division of C rounds to 0. *)
Definition len_for (n d : Z) : Z := if negb (Z.rem n d =? 0) then Z.quot n d + 1 else Z.quot n d.

(** The superblock.  [sizeof] is a [long], so the product is one and its conversion to
    [int] drops the upper bits. *)
Definition make_super (ni nd : Z) : U super_t :=
  let bits_per_block := 8 * UFS_BLOCK_SIZE in
  let ibl := len_for ni bits_per_block in
  dba <- int (1 + ibl) ;;
  let dbl := len_for nd bits_per_block in
  ira <- int (dba + dbl) ;;
  let total_inode_bytes := s32 (ni * sizeof_inode) in
  let irl := len_for total_inode_bytes UFS_BLOCK_SIZE in
  dra <- int (ira + irl) ;;
  cret (Super 1 ibl dba dbl ira irl dra nd ni nd).

Definition total_blocks (s : super_t) : U Z :=
  int (1 + inode_bitmap_len s + data_bitmap_len s + inode_region_len s + data_region_len s).

(** * The blocks *)

(** The [sizeof(super_t)] bytes of the superblock. *)
Definition super_bytes (s : super_t) : list Z :=
  [inode_bitmap_addr s; inode_bitmap_len s; data_bitmap_addr s; data_bitmap_len s; inode_region_addr s;
   inode_region_len s; data_region_addr s; data_region_len s; num_inodes s; num_data s] ≫= le_bytes 4.

Definition empty_buffer : list Z := replicate (Z.to_nat UFS_BLOCK_SIZE) 0.

(** [b]: the words of a bitmap whose first entry is allocated. *)
Definition bitmap_bytes : list Z := (Z.shiftl 1 31 :: replicate 1023 0) ≫= le_bytes 4.

(** The fields of the first inode are set in the local variable [itable], which holds
    whatever was on the stack. *)
Definition itable_bytes (junk : list Z) (s : super_t) : list Z :=
  let t := wr 4 0 UFS_DIRECTORY junk in
  let t := wr 4 4 (2 * sizeof_dir_ent) t in
  let t := wr 4 8 (data_region_addr s) t in
  fold_left (λ t i, wr 4 (8 + 4 * i) (-1) t) (seq 1 (DIRECT_PTRS - 1)) t.

(** And so for [parent]; [strcpy] writes the name and the zero behind it. *)
Definition parent_bytes (junk : list Z) : list Z :=
  let p := splice 0 [46; 0] junk in
  let p := wr 4 28 0 p in
  let p := splice 32 [46; 46; 0] p in
  let p := wr 4 60 0 p in
  fold_left (λ p i, wr 4 (32 * i + 28) (-1) p) (seq 2 126) p.

(** * main *)

Definition visualize (s : super_t) : U unit :=
  uprint "Visualization of layout" [] ;;
  uprint "S" [] ;;
  cfor (seqZ 0 (inode_bitmap_len s)) (λ _, uprint "i" []) ;;
  cfor (seqZ 0 (data_bitmap_len s)) (λ _, uprint "d" []) ;;
  cfor (seqZ 0 (inode_region_len s)) (λ _, uprint "I" []) ;;
  cfor (seqZ 0 (data_region_len s)) (λ _, uprint "D" []).

Section main.
Context (e : env) (itable_junk parent_junk : list Z).

(** [pwrite] of a block, checked by [assert]. *)
Definition write_block (data : list Z) (n : Z) : U unit :=
  off <- int (n * UFS_BLOCK_SIZE) ;;
  rc <- pwrite e data off ;;
  cassert (rc =? UFS_BLOCK_SIZE).

(** One turn of the loop that zeroes the blocks. *)
Definition zero_block (i : Z) : U unit :=
  off <- int (i * UFS_BLOCK_SIZE) ;;
  rc <- pwrite e empty_buffer off ;;
  (if negb (rc =? UFS_BLOCK_SIZE) then (uprint "write" [] ;; cexit 1) else cret tt).

(** From the superblock on. *)
Definition make_image (ni nd : Z) (visual : bool) : U Z :=
  s <- make_super ni nd ;;
  total <- total_blocks s ;;
  rc <- pwrite e (super_bytes s) 0 ;;
  (if negb (rc =? 40) then (uprint "write" [] ;; cexit 1) else cret tt) ;;
  uprint "total blocks        %d\n" [total] ;;
  uprint "  inodes            %d [size of each: %lu]\n" [ni; sizeof_inode] ;;
  uprint "  data blocks       %d\n" [nd] ;;
  uprint "layout details\n" [] ;;
  uprint "  inode bitmap address/len %d [%d]\n" [inode_bitmap_addr s; inode_bitmap_len s] ;;
  uprint "  data bitmap address/len  %d [%d]\n" [data_bitmap_addr s; data_bitmap_len s] ;;
  cfor (seqZ 1 (total - 1)) zero_block ;;
  write_block bitmap_bytes (inode_bitmap_addr s) ;;
  write_block bitmap_bytes (data_bitmap_addr s) ;;
  write_block (itable_bytes itable_junk s) (inode_region_addr s) ;;
  write_block (parent_bytes parent_junk) (data_region_addr s) ;;
  (if visual then visualize s else cret tt) ;;
  cret 0.

Definition main (opts : list optret) : U Z :=
  o <- parse_options default_options opts ;;
  match o_file o with
  | None => usage
  | Some _ =>
      (if negb (e_calloc e) then (uprint "calloc" [] ;; cexit 1) else cret tt) ;;
      (if e_open e <? 0 then (uprint "open" [] ;; cexit 1) else cret tt) ;;
      cassert (32 <=? o_inodes o) ;;
      cassert (32 <=? o_data o) ;;
      make_image (o_inodes o) (o_data o) (o_visual o)
  end.
End main.
