(* ===== verification/UfsProps.v ===== *)
(** The image that [mkfs] of the distributed file system project makes: the layout, the
    contents of every structure on it, and failed writes. *)
From stdpp Require Import base list numbers strings.
From Stdlib Require Import ZArith Lia.
From S2P Require Import Prelude CString CProg Ufs.
Local Open Scope Z_scope.
Local Open Scope cprog_scope.

(** * The layout *)

Definition ceil_div (n d : Z) : Z := (n + d - 1) / d.

Lemma len_for_ceil n d : 0 <= n → 0 < d → len_for n d = ceil_div n d.
Proof.
  intros Hn Hd. unfold len_for, ceil_div. rewrite Z.rem_mod_nonneg, Z.quot_div_nonneg by lia.
  pose proof (Z.div_mod n d ltac:(lia)) as E. pose proof (Z.mod_pos_bound n d Hd) as Hb.
  destruct (Z.eqb_spec (n mod d) 0) as [H0|H0]; cbn [negb].
  - apply (Z.div_unique_pos _ _ _ (d - 1)); lia.
  - apply (Z.div_unique_pos _ _ _ (n mod d - 1)); lia.
Qed.

Lemma ceil_div_enough n d : 0 < d → n <= d * ceil_div n d < n + d.
Proof.
  intros Hd. unfold ceil_div. pose proof (Z.div_mod (n + d - 1) d ltac:(lia)). pose proof (Z.mod_pos_bound (n + d - 1) d Hd). lia.
Qed.

(** The layout of an image with [ni] inodes and [nd] data blocks: the parts follow each
    other, and each has exactly the blocks it needs. *)
Definition layout_of (ni nd : Z) : super_t :=
  let ibl := ceil_div ni 32768 in
  let dbl := ceil_div nd 32768 in
  let irl := ceil_div ni 32 in
  Super 1 ibl (1 + ibl) dbl (1 + ibl + dbl) irl (1 + ibl + dbl + irl) nd ni nd.
Definition layout_blocks (ni nd : Z) : Z := data_region_addr (layout_of ni nd) + nd.

(** The sizes the command accepts whose images are below 2 GB. *)
Definition sizes_ok (ni nd : Z) : Prop := 32 <= ni ∧ 32 <= nd ∧ layout_blocks ni nd <= 2 ^ 19.

Lemma layout_bounds ni nd :
  sizes_ok ni nd →
  1 <= ceil_div ni 32768 ∧ 1 <= ceil_div nd 32768 ∧ 1 <= ceil_div ni 32 ∧ ni < 2 ^ 24 ∧ nd < 2 ^ 19 ∧
  1 + ceil_div ni 32768 + ceil_div nd 32768 + ceil_div ni 32 + nd <= 2 ^ 19.
Proof.
  unfold sizes_ok, layout_blocks. cbn [layout_of data_region_addr]. intros (Hi & Hd & Ht).
  pose proof (ceil_div_enough ni 32768 ltac:(lia)). pose proof (ceil_div_enough nd 32768 ltac:(lia)).
  pose proof (ceil_div_enough ni 32 ltac:(lia)). lia.
Qed.

Lemma make_super_ok ni nd s : sizes_ok ni nd → make_super ni nd s = COk (layout_of ni nd) s.
Proof.
  intros H. apply layout_bounds in H as Hb. destruct H as (Hi & Hd & _). unfold make_super.
  change (8 * UFS_BLOCK_SIZE) with 32768. unfold sizeof_inode, UFS_BLOCK_SIZE.
  rewrite s32_small by lia. rewrite !len_for_ceil by lia.
  assert (ceil_div (ni * 128) 4096 = ceil_div ni 32) as ->.
  { pose proof (ceil_div_enough (ni * 128) 4096 ltac:(lia)). pose proof (ceil_div_enough ni 32 ltac:(lia)). lia. }
  crun. reflexivity.
Qed.

Lemma total_blocks_ok ni nd s : sizes_ok ni nd → total_blocks (layout_of ni nd) s = COk (layout_blocks ni nd) s.
Proof.
  intros H. apply layout_bounds in H as Hb. destruct H as (Hi & Hd & _). unfold total_blocks, layout_blocks. cbn. apply int_ok. lia.
Qed.

(** * The file as a list of blocks *)

Abbreviation ublk := (Z.to_nat UFS_BLOCK_SIZE).
Definition whole (bs : list (list Z)) : Prop := Forall (λ b, length b = ublk) bs.

Lemma length_blocks bs : whole bs → length (concat bs) = (ublk * length bs)%nat.
Proof. induction 1 as [|b bs Hb _ IH]; cbn [concat length]; [lia|]. rewrite length_app, IH, Hb. lia. Qed.

Lemma fwrite_at_end data f : fwrite_at (length f) data f = f ++ data.
Proof.
  unfold fwrite_at. rewrite Nat.sub_diag. cbn [replicate]. rewrite app_nil_r, take_ge, drop_ge by lia. by rewrite app_nil_r.
Qed.

Lemma fwrite_at_mid f1 old f2 data : length old = length data → fwrite_at (length f1) data (f1 ++ old ++ f2) = f1 ++ data ++ f2.
Proof.
  intros H. unfold fwrite_at. rewrite (proj2 (Nat.sub_0_le _ _)) by (rewrite length_app; lia). cbn [replicate]. rewrite app_nil_r.
  rewrite take_app_length. f_equal. f_equal. rewrite app_assoc. apply drop_app_length'. rewrite length_app. lia.
Qed.

(** Writing a block changes that block. *)
Lemma fwrite_block bs n d old :
  whole bs → length d = ublk → bs !! n = Some old → fwrite_at (ublk * n) d (concat bs) = concat (<[n := d]> bs).
Proof.
  intros Hb Hd Hn. assert (length old = ublk) as Ho by (by eapply (Forall_lookup_1 _ _ _ _ Hb)).
  apply lookup_lt_Some in Hn as Hlt. rewrite <- (take_drop_middle _ _ _ Hn) at 1. rewrite insert_take_drop by done.
  rewrite !concat_app. cbn [concat].
  assert (whole (take n bs)) as Ht by (by apply Forall_take).
  assert (ublk * n = length (concat (take n bs)))%nat as -> by (rewrite length_blocks, length_take by done; f_equal; lia).
  apply fwrite_at_mid. lia.
Qed.

Lemma fwrite_block_end bs d :
  whole bs → length d = ublk → fwrite_at (ublk * length bs) d (concat bs) = concat (bs ++ [d]).
Proof. intros Hb Hd. rewrite <- length_blocks, fwrite_at_end, concat_app by done. cbn [concat]. by rewrite app_nil_r. Qed.

(** The superblock, filled up with the zeroes of the gap. *)
Definition super_block (s : super_t) : list Z := super_bytes s ++ replicate (ublk - 40) 0.

Lemma length_super_bytes s : length (super_bytes s) = 40%nat.
Proof. reflexivity. Qed.

Lemma fwrite_gap s : fwrite_at (ublk * 1) empty_buffer (super_bytes s) = concat [super_block s; empty_buffer].
Proof.
  unfold fwrite_at. rewrite length_super_bytes, Nat.mul_1_r. fold (super_block s).
  assert (length (super_block s) = ublk) as Hl by (unfold super_block; rewrite length_app, length_super_bytes, length_replicate; reflexivity).
  rewrite take_ge, drop_ge by lia. reflexivity.
Qed.

(** * A run in which every write succeeds *)

Definition good_env (e : env) : Prop :=
  e_calloc e = true ∧ 0 <= e_open e ∧ ∀ n, UFS_BLOCK_SIZE <= e_pwrite e n.

Section run.
Context (e : env) (He : good_env e) (itable_junk parent_junk : list Z).

Lemma pwrite_ok data off f n o :
  0 <= off → 0 < Z.of_nat (length data) <= UFS_BLOCK_SIZE →
  pwrite e data off (UState f n o) = COk (Z.of_nat (length data)) (UState (fwrite_at (Z.to_nat off) data f) (S n) o).
Proof using He.
  intros Ho Hd. destruct He as (_ & _ & Hw). specialize (Hw n). unfold pwrite. cbn [u_calls u_file u_out].
  rewrite (proj2 (Z.ltb_ge _ _)) by lia.
  replace (Z.max (-1) (Z.min (e_pwrite e n) (Z.of_nat (length data)))) with (Z.of_nat (length data)) by lia.
  rewrite (proj2 (Z.leb_gt _ _)) by lia. by rewrite Nat2Z.id, take_ge.
Qed.

Lemma block_off n : 0 <= n → Z.to_nat (n * UFS_BLOCK_SIZE) = (ublk * Z.to_nat n)%nat.
Proof. intros Hn. rewrite Z2Nat.inj_mul by (unfold UFS_BLOCK_SIZE; lia). lia. Qed.

Lemma write_block_ok data n bs c o :
  0 <= n < Z.of_nat (length bs) → n < 2 ^ 19 → whole bs → length data = ublk →
  write_block e data n (UState (concat bs) c o) = COk tt (UState (concat (<[Z.to_nat n := data]> bs)) (S c) o).
Proof using He.
  intros Hn Hn2 Hb Hd. unfold write_block, UFS_BLOCK_SIZE in *. crun.
  erewrite cbind_ok by (apply pwrite_ok; unfold UFS_BLOCK_SIZE; lia).
  destruct (lookup_lt_is_Some_2 bs (Z.to_nat n)) as [old Ho]; [lia|].
  change 4096 with UFS_BLOCK_SIZE in *. rewrite block_off by lia. rewrite (fwrite_block bs _ data old) by done.
  unfold cassert. by rewrite Hd.
Qed.

Lemma length_empty : length empty_buffer = ublk.
Proof. apply length_replicate. Qed.

Lemma zero_block_ok i f f' c o :
  0 <= i < 2 ^ 19 → fwrite_at (ublk * Z.to_nat i) empty_buffer f = f' →
  zero_block e i (UState f c o) = COk tt (UState f' (S c) o).
Proof using He.
  intros Hi <-. pose proof length_empty as Hl. unfold zero_block, UFS_BLOCK_SIZE in *. crun.
  erewrite cbind_ok by (apply pwrite_ok; unfold UFS_BLOCK_SIZE; lia).
  change 4096 with UFS_BLOCK_SIZE in *. rewrite block_off, Hl by lia. reflexivity.
Qed.

(** Zeroing the blocks from [length bs] on. *)
Lemma zero_rest k bs c o :
  whole bs → Z.of_nat (length bs) + Z.of_nat k <= 2 ^ 19 →
  cfor (seqZ (Z.of_nat (length bs)) (Z.of_nat k)) (zero_block e) (UState (concat bs) c o) =
  COk tt (UState (concat (bs ++ replicate k empty_buffer)) (c + k) o).
Proof using He.
  revert bs c. induction k as [|k IH]; intros bs c Hb Hk.
  - cbn. by rewrite app_nil_r, Nat.add_0_r.
  - rewrite Nat2Z.inj_succ, seqZ_cons by lia. rewrite Z.pred_succ. cbn [cfor].
    erewrite cbind_ok by (apply zero_block_ok; [lia|rewrite Nat2Z.id; apply fwrite_block_end; [done|apply length_empty]]).
    replace (Z.succ (Z.of_nat (length bs))) with (Z.of_nat (length (bs ++ [empty_buffer]))) by (rewrite length_app; cbn [length]; lia).
    rewrite IH; [|apply Forall_app; split; [done|constructor; [apply length_empty|constructor]]|rewrite length_app; cbn [length]; lia].
    rewrite <- app_assoc. cbn [app replicate]. by rewrite Nat.add_succ_r.
Qed.

Lemma super_block_whole s : whole [super_block s; empty_buffer].
Proof.
  constructor; [|constructor; [apply length_empty|constructor]].
  unfold super_block. rewrite length_app, length_super_bytes, length_replicate. reflexivity.
Qed.

Lemma zero_all s total c o :
  2 <= total <= 2 ^ 19 →
  cfor (seqZ 1 (total - 1)) (zero_block e) (UState (super_bytes s) c o) =
  COk tt (UState (concat (super_block s :: replicate (Z.to_nat total - 1) empty_buffer)) (c + (Z.to_nat total - 1)) o).
Proof using He.
  intros Ht. rewrite seqZ_cons by lia. cbn [cfor].
  erewrite cbind_ok by (apply zero_block_ok; [lia|apply fwrite_gap]).
  pose proof (zero_rest (Z.to_nat (total - 2)) [super_block s; empty_buffer] (S c) o (super_block_whole s)) as H.
  cbn [length] in H. rewrite Z2Nat.id in H by lia. replace (Z.pred (total - 1)) with (total - 2) by lia.
  change (Z.succ 1) with (Z.of_nat 2). rewrite H by lia. cbn [app].
  replace (Z.to_nat total - 1)%nat with (S (Z.to_nat (total - 2))) by lia. do 2 f_equal. lia.
Qed.
End run.

(** * Storing the same word at several places *)

Section fold_wr.
Context (g : nat → nat) (x : Z).
Notation stores := (fold_left (λ p i, wr 4 (g i) x p)).

Lemma stores_length l p : (∀ i, i ∈ l → (g i + 4 <= length p)%nat) → length (stores l p) = length p.
Proof.
  revert p. induction l as [|i l IH]; intros p H; [done|]. cbn [fold_left].
  assert (length (wr 4 (g i) x p) = length p) as E by (apply length_wr, H; left).
  rewrite IH, E; [done|]. intros j Hj. rewrite E. apply H. by right.
Qed.

Lemma stores_other l p off n :
  (∀ i, i ∈ l → (g i + 4 <= length p)%nat ∧ (off + n <= g i ∨ g i + 4 <= off)%nat) → slice off n (stores l p) = slice off n p.
Proof.
  revert p. induction l as [|i l IH]; intros p H; [done|]. cbn [fold_left]. destruct (H i) as [H1 H2]; [left|].
  rewrite IH.
  - unfold wr. apply slice_splice_other; rewrite length_le_bytes; lia.
  - intros j Hj. rewrite length_wr by done. apply H. by right.
Qed.

Lemma stores_same l p i :
  i ∈ l → NoDup l → (∀ j, j ∈ l → (g j + 4 <= length p)%nat) → (∀ j, j ∈ l → j ≠ i → (g i + 4 <= g j ∨ g j + 4 <= g i)%nat) →
  rd 4 (g i) (stores l p) = u32 x.
Proof.
  revert p. induction l as [|j l IH]; intros p Hi Hnd Hlen Hsep; [by apply elem_of_nil in Hi|]. cbn [fold_left].
  apply NoDup_cons in Hnd as [Hj Hnd]. assert (g j + 4 <= length p)%nat as Hlj by (apply Hlen; left).
  assert (∀ k, k ∈ l → (g k + 4 <= length (wr 4 (g j) x p))%nat) as Hlen' by (intros k Hk; rewrite length_wr by done; apply Hlen; by right).
  apply elem_of_cons in Hi as [->|Hi].
  - unfold rd. rewrite stores_other.
    + change (rd 4 (g j) (wr 4 (g j) x p) = u32 x). by apply rd_wr_same.
    + intros k Hk. split; [by apply Hlen'|]. apply Hsep; [by right|]. intros ->. done.
  - apply IH; [done|done|done|]. intros k Hk. apply Hsep. by right.
Qed.
End fold_wr.

(** * The root inode and the root directory *)

(** What a block of inodes and a block of directory entries say. *)
Definition read_inode (k : nat) (b : list Z) : inode_t :=
  Inode_t (s32 (rd 4 (128 * k) b)) (s32 (rd 4 (128 * k + 4) b)) ((λ j, rd 4 (128 * k + 8 + 4 * j) b) <$> seq 0 DIRECT_PTRS).
Definition read_entry (k : nat) (b : list Z) : dir_ent_t :=
  Dir_ent (cstr 28 (slice (32 * k) 28 b)) (s32 (rd 4 (32 * k + 28) b)).
(** The entries of a directory block that are in use. *)
Definition read_dir (b : list Z) : list dir_ent_t :=
  filter (λ d, ue_inum d ≠ -1) ((λ k, read_entry k b) <$> seq 0 128).

Definition root_inode (dra : Z) : inode_t := Inode_t UFS_DIRECTORY 64 (dra :: replicate 29 (u32 (-1))).
Definition root_dir : list dir_ent_t := [Dir_ent [46] 0; Dir_ent [46; 46] 0].

(** Lengths of blocks that were built by stores. *)
Ltac wlen := cbn [length];
  repeat first [rewrite length_wr by wlen | rewrite length_splice by wlen]; lia.

Section itable.
Context (junk : list Z) (Hj : length junk = ublk) (s : super_t).
Let start : list Z := wr 4 8 (data_region_addr s) (wr 4 4 (2 * sizeof_dir_ent) (wr 4 0 UFS_DIRECTORY junk)).

Local Lemma start_length : length start = Pos.to_nat 4096.
Proof using Hj. change ublk with (Pos.to_nat 4096) in Hj. unfold start. wlen. Qed.

Lemma itable_length : length (itable_bytes junk s) = ublk.
Proof using Hj.
  unfold itable_bytes. fold start. rewrite (stores_length (λ i, (8 + 4 * i)%nat) (-1)); [apply start_length|].
  intros i Hi%elem_of_seq. rewrite start_length. unfold DIRECT_PTRS in Hi. lia.
Qed.

Lemma itable_front off : (off + 4 <= 12)%nat → rd 4 off (itable_bytes junk s) = rd 4 off start.
Proof using Hj.
  intros Ho. unfold rd. f_equal. unfold itable_bytes. fold start. apply (stores_other (λ i, (8 + 4 * i)%nat) (-1)).
  intros i Hi%elem_of_seq. rewrite start_length. unfold DIRECT_PTRS in Hi. lia.
Qed.

(** The stores are next to each other, so that the rest of the inode is computed. *)
Lemma itable_root : 0 <= data_region_addr s < 2 ^ 31 → read_inode 0 (itable_bytes junk s) = root_inode (data_region_addr s).
Proof using Hj.
  intros Hd. unfold read_inode, root_inode. pose proof start_length as Hs. change ublk with (Pos.to_nat 4096) in Hj. unfold start in Hs. f_equal.
  change (seq 0 DIRECT_PTRS) with (0%nat :: seq 1 29). rewrite fmap_cons. f_equal.
  change (rd 4 8 (itable_bytes junk s) = data_region_addr s).
  rewrite itable_front by lia. unfold start. rewrite rd_wr_same by wlen. apply Z.mod_small. lia.
Qed.
End itable.

Lemma filter_none {A} (P : A → Prop) `{!∀ x, Decision (P x)} l : Forall (λ x, ¬ P x) l → filter P l = [].
Proof. induction 1 as [|x l Hx _ IH]; [done|]. by rewrite filter_cons_False. Qed.

Section parent.
Context (junk : list Z) (Hj : length junk = ublk).
Let start : list Z := wr 4 60 0 (splice 32 [46; 46; 0] (wr 4 28 0 (splice 0 [46; 0] junk))).

Local Lemma pstart_length : length start = Pos.to_nat 4096.
Proof using Hj. change ublk with (Pos.to_nat 4096) in Hj. unfold start. wlen. Qed.

Lemma parent_length : length (parent_bytes junk) = ublk.
Proof using Hj.
  unfold parent_bytes. fold start. rewrite (stores_length (λ i, (32 * i + 28)%nat) (-1)); [apply pstart_length|].
  intros i Hi%elem_of_seq. rewrite pstart_length. lia.
Qed.

Lemma parent_front off n : (off + n <= 64)%nat → slice off n (parent_bytes junk) = slice off n start.
Proof using Hj.
  intros Ho. unfold parent_bytes. fold start. apply (stores_other (λ i, (32 * i + 28)%nat) (-1)).
  intros i Hi%elem_of_seq. rewrite pstart_length. lia.
Qed.

Lemma parent_unused k : (2 <= k < 128)%nat → rd 4 (32 * k + 28) (parent_bytes junk) = u32 (-1).
Proof using Hj.
  intros Hk. unfold parent_bytes. fold start. apply (stores_same (λ i, (32 * i + 28)%nat) (-1)).
  - apply elem_of_seq. lia.
  - apply NoDup_seq.
  - intros i Hi%elem_of_seq. rewrite pstart_length. lia.
  - intros i Hi Hne. lia.
Qed.

Lemma parent_root : read_dir (parent_bytes junk) = root_dir.
Proof using Hj.
  unfold read_dir. change (seq 0 128) with ([0%nat; 1%nat] ++ seq 2 126). rewrite fmap_app, filter_app.
  assert (filter (λ d, ue_inum d ≠ -1) ((λ k, read_entry k (parent_bytes junk)) <$> seq 2 126) = []) as ->.
  { apply filter_none, Forall_fmap, Forall_forall. intros k Hk%elem_of_seq.
    intros Hx. apply Hx. change (s32 (rd 4 (32 * k + 28) (parent_bytes junk)) = -1). rewrite parent_unused by lia. reflexivity. }
  pose proof pstart_length as Hs. change ublk with (Pos.to_nat 4096) in Hj. unfold start in Hs.
  rewrite app_nil_r. unfold root_dir. rewrite !fmap_cons. cbn [fmap list_fmap].
  assert (read_entry 0 (parent_bytes junk) = Dir_ent [46] 0) as ->.
  { unfold read_entry, rd. rewrite !parent_front by lia. change (32 * 0)%nat with 0%nat. fold (rd 4 (0 + 28) start). f_equal.
    unfold start. rewrite rd_wr_other by (try lia; wlen). unfold rd. rewrite slice_splice_other by (cbn [length]; try lia; wlen).
    fold (rd 4 (0 + 28) (wr 4 28 0 (splice 0 [46; 0] junk))). rewrite rd_wr_same by wlen. reflexivity. }
  assert (read_entry 1 (parent_bytes junk) = Dir_ent [46; 46] 0) as ->.
  { unfold read_entry, rd. rewrite !parent_front by lia. change (32 * 1)%nat with 32%nat. fold (rd 4 (32 + 28) start). f_equal.
    - unfold start. unfold wr at 1. rewrite slice_splice_other by (rewrite ?length_le_bytes; try lia; wlen).
      rewrite (slice_app 32 3 25) by wlen. rewrite (slice_splice_same 32 [46; 46; 0]) by wlen. reflexivity.
    - unfold start. rewrite rd_wr_same by wlen. reflexivity. }
  reflexivity.
Qed.
End parent.

(** * The image *)

Definition image_blocks (ni nd : Z) (itable_junk parent_junk : list Z) : list (list Z) :=
  let s := layout_of ni nd in
  <[Z.to_nat (data_region_addr s) := parent_bytes parent_junk]>
    (<[Z.to_nat (inode_region_addr s) := itable_bytes itable_junk s]>
      (<[Z.to_nat (data_bitmap_addr s) := bitmap_bytes]>
        (<[Z.to_nat (inode_bitmap_addr s) := bitmap_bytes]>
          (super_block s :: replicate (Z.to_nat (layout_blocks ni nd) - 1) empty_buffer)))).

Lemma bitmap_length : length bitmap_bytes = ublk.
Proof. unfold bitmap_bytes. rewrite length_addr_bytes. reflexivity. Qed.

Lemma whole_insert bs n d : whole bs → length d = ublk → whole (<[n := d]> bs).
Proof. intros Hb Hd. by apply Forall_insert. Qed.

Section image.
Context (ni nd : Z) (Hs : sizes_ok ni nd) (ij pj : list Z) (Hij : length ij = ublk) (Hpj : length pj = ublk).
Let s := layout_of ni nd.

Lemma start_whole k : whole (super_block s :: replicate k empty_buffer).
Proof.
  constructor; [|apply Forall_replicate, length_empty].
  pose proof (super_block_whole s) as H. by apply Forall_cons in H as [H _].
Qed.

Lemma image_whole : whole (image_blocks ni nd ij pj).
Proof using Hij Hpj.
  unfold image_blocks. fold s.
  apply whole_insert; [|by apply parent_length]. apply whole_insert; [|by apply itable_length].
  apply whole_insert; [|apply bitmap_length]. apply whole_insert; [apply start_whole|apply bitmap_length].
Qed.

Lemma image_length : length (image_blocks ni nd ij pj) = Z.to_nat (layout_blocks ni nd).
Proof using Hs Hij Hpj.
  unfold image_blocks. rewrite !length_insert. cbn [length]. rewrite length_replicate. destruct Hs as (_ & Hd & _).
  pose proof (layout_bounds _ _ Hs). unfold layout_blocks. cbn [layout_of data_region_addr]. lia.
Qed.

(** The blocks of the image. *)
Lemma image_lookup n :
  0 <= n < layout_blocks ni nd →
  image_blocks ni nd ij pj !! Z.to_nat n =
  Some (if decide (n = data_region_addr s) then parent_bytes pj
        else if decide (n = inode_region_addr s) then itable_bytes ij s
        else if decide (n = data_bitmap_addr s ∨ n = 1) then bitmap_bytes
        else if decide (n = 0) then super_block s else empty_buffer).
Proof using Hs Hij Hpj.
  intros Hn. pose proof image_length as Hl. pose proof (layout_bounds _ _ Hs) as Hb. destruct Hs as (_ & Hd & _).
  unfold image_blocks in *. fold s in Hl |- *. rewrite !length_insert in Hl.
  assert (0 <= data_region_addr s ∧ 0 <= inode_region_addr s ∧ 0 <= data_bitmap_addr s) as (P1 & P2 & P3) by (cbn; lia).
  case_decide as E1; [subst n; apply list_lookup_insert_eq; rewrite !length_insert; lia|rewrite list_lookup_insert_ne by lia].
  case_decide as E2; [subst n; apply list_lookup_insert_eq; rewrite !length_insert; lia|rewrite list_lookup_insert_ne by lia].
  destruct (decide (n = data_bitmap_addr s)) as [E3|E3].
  { rewrite decide_True by tauto. subst n. apply list_lookup_insert_eq. rewrite length_insert. lia. }
  rewrite list_lookup_insert_ne by lia. change (inode_bitmap_addr s) with 1.
  destruct (decide (n = 1)) as [E4|E4].
  { rewrite decide_True by tauto. subst n. apply list_lookup_insert_eq. lia. }
  rewrite list_lookup_insert_ne by lia. rewrite decide_False by tauto. case_decide as E5; [by subst n|].
  destruct (Z.to_nat n) as [|k] eqn:Ek; [lia|]. cbn. apply lookup_replicate_2. cbn [length] in Hl. rewrite length_replicate in Hl. lia.
Qed.
End image.

(** * Reading the image *)

Definition read_block (f : list Z) (n : Z) : list Z := slice (ublk * Z.to_nat n) ublk f.
Definition read_super (f : list Z) : super_t :=
  let w k := s32 (rd 4 (4 * k) f) in
  Super (w 0%nat) (w 1%nat) (w 2%nat) (w 3%nat) (w 4%nat) (w 5%nat) (w 6%nat) (w 7%nat) (w 8%nat) (w 9%nat).
(** Entry [k] of the bitmap at block [addr]; the first entry of a word is its top bit. *)
Definition bitmap_entry (f : list Z) (addr k : Z) : bool :=
  Z.testbit (rd 4 (ublk * Z.to_nat addr + 4 * Z.to_nat (k / 32)) f) (31 - k mod 32).

Lemma slice_concat bs n b off m :
  whole bs → bs !! n = Some b → (off + m <= ublk)%nat → slice (ublk * n + off) m (concat bs) = slice off m b.
Proof.
  intros Hb Hn Ho. pose proof (Forall_lookup_1 _ _ _ _ Hb Hn) as Hl. cbn beta in Hl.
  rewrite <- (take_drop_middle _ _ _ Hn) at 1. rewrite concat_app. cbn [concat].
  apply lookup_lt_Some in Hn as Hlt.
  assert (length (concat (take n bs)) = ublk * n)%nat as E.
  { rewrite length_blocks by (by apply Forall_take). rewrite length_take. f_equal. lia. }
  unfold slice. rewrite <- E at 1. rewrite drop_app_add, drop_app_le by lia. rewrite take_app_le; [done|]. rewrite length_drop. lia.
Qed.

Lemma le_val_zeros m : le_val (replicate m 0) = 0.
Proof. induction m as [|m IH]; [done|]. cbn [replicate le_val]. by rewrite IH. Qed.
Lemma rd_zeros n off m : rd n off (replicate m 0) = 0.
Proof. unfold rd, slice. rewrite drop_replicate, take_replicate. apply le_val_zeros. Qed.

(** An image for [ni] inodes and [nd] data blocks: the superblock describes the layout;
    of all the entries of the two bitmaps the first is set and no other; the first inode
    is a directory of two entries in the first data block, and they name the directory
    itself. *)
Record image_ok (ni nd : Z) (f : list Z) : Prop := {
  io_length : Z.of_nat (length f) = UFS_BLOCK_SIZE * layout_blocks ni nd;
  io_super : read_super f = layout_of ni nd;
  io_inodes : ∀ k, 0 <= k < ni → bitmap_entry f (inode_bitmap_addr (layout_of ni nd)) k = (k =? 0);
  io_data : ∀ k, 0 <= k < nd → bitmap_entry f (data_bitmap_addr (layout_of ni nd)) k = (k =? 0);
  io_root : read_inode 0 (read_block f (inode_region_addr (layout_of ni nd))) = root_inode (data_region_addr (layout_of ni nd));
  io_dir : read_dir (read_block f (data_region_addr (layout_of ni nd))) = root_dir;
}.

(** A bitmap of [len] blocks at [addr] whose first block is [bitmap_bytes]. *)
Lemma bitmap_region bs addr len k :
  whole bs → 0 <= addr → 0 <= k < 32768 * len →
  (∀ j, 0 <= j < len → bs !! Z.to_nat (addr + j) = Some (if decide (j = 0) then bitmap_bytes else empty_buffer)) →
  bitmap_entry (concat bs) addr k = (k =? 0).
Proof.
  intros Hb Ha Hk Hbs. unfold bitmap_entry. set (w := k / 32). assert (0 <= w < 1024 * len ∧ k = 32 * w + k mod 32) as [Hw Ek].
  { split; [split; [apply Z.div_pos; lia|apply Z.div_lt_upper_bound; lia]|]. apply Z.div_mod. done. }
  pose proof (Z.mod_pos_bound k 32 ltac:(lia)) as Hm. pose proof (Z.div_mod w 1024 ltac:(done)) as Ew. pose proof (Z.mod_pos_bound w 1024 ltac:(lia)) as Hwm.
  assert (0 <= w / 1024 < len) as Hq by (split; [apply Z.div_pos; lia|apply Z.div_lt_upper_bound; lia]).
  replace (ublk * Z.to_nat addr + 4 * Z.to_nat w)%nat with (ublk * Z.to_nat (addr + w / 1024) + 4 * Z.to_nat (w mod 1024))%nat
    by (change ublk with (Pos.to_nat 4096); lia).
  unfold rd. rewrite (slice_concat _ _ _ _ _ Hb (Hbs _ Hq)) by (change ublk with (Pos.to_nat 4096); lia).
  fold (rd 4 (4 * Z.to_nat (w mod 1024)) (if decide (w / 1024 = 0) then bitmap_bytes else empty_buffer)).
  case_decide as E; [|unfold empty_buffer; rewrite rd_zeros, Z.bits_0; symmetry; apply Z.eqb_neq; lia].
  unfold bitmap_bytes. destruct (decide (w mod 1024 = 0)) as [E0|E0].
  - rewrite E0. rewrite (rd_words _ _ (Z.shiftl 1 31)) by reflexivity. change (u32 (Z.shiftl 1 31)) with (2 ^ 31).
    rewrite Z.pow2_bits_eqb by lia. destruct (Z.eqb_spec 31 (31 - k mod 32)); destruct (Z.eqb_spec k 0); lia.
  - rewrite (rd_words _ _ 0), Z.bits_0 by
      (destruct (Z.to_nat (w mod 1024)) as [|j] eqn:Ej; [lia|]; apply lookup_replicate_2; lia).
    symmetry. apply Z.eqb_neq. lia.
Qed.

Lemma s32_u32 x : s32 (u32 x) = s32 x.
Proof. unfold s32, u32. by rewrite Zplus_mod_idemp_l. Qed.

Lemma read_super_block s bs :
  (∀ x, x ∈ [inode_bitmap_addr s; inode_bitmap_len s; data_bitmap_addr s; data_bitmap_len s; inode_region_addr s;
     inode_region_len s; data_region_addr s; data_region_len s; num_inodes s; num_data s] → - 2 ^ 31 <= x < 2 ^ 31) →
  read_super (concat (super_block s :: bs)) = s.
Proof.
  intros Hr. set (ws := [_; _; _; _; _; _; _; _; _; _]) in Hr.
  assert (∀ k x, ws !! k = Some x → s32 (rd 4 (4 * k) (concat (super_block s :: bs))) = x) as Hw.
  { intros k x Hx. apply lookup_lt_Some in Hx as Hk. change (length ws) with 10%nat in Hk.
    assert (rd 4 (4 * k) (concat (super_block s :: bs)) = u32 x) as ->.
    { rewrite <- (rd_words ws k x Hx). unfold rd. f_equal. change (ws ≫= le_bytes 4) with (super_bytes s).
      cbn [concat]. unfold super_block. rewrite <- !app_assoc. unfold slice.
      rewrite drop_app_le, take_app_le; [done|..]; rewrite ?length_drop, length_super_bytes; lia. }
    rewrite s32_u32. apply s32_small, Hr. by eapply list_elem_of_lookup_2. }
  unfold read_super. rewrite (Hw 0%nat _ eq_refl), (Hw 1%nat _ eq_refl), (Hw 2%nat _ eq_refl), (Hw 3%nat _ eq_refl), (Hw 4%nat _ eq_refl), (Hw 5%nat _ eq_refl), (Hw 6%nat _ eq_refl), (Hw 7%nat _ eq_refl), (Hw 8%nat _ eq_refl), (Hw 9%nat _ eq_refl).
  by destruct s.
Qed.

Lemma image_blocks_ok ni nd ij pj :
  sizes_ok ni nd → length ij = ublk → length pj = ublk → image_ok ni nd (concat (image_blocks ni nd ij pj)).
Proof.
  intros Hs Hij Hpj. pose proof (layout_bounds _ _ Hs) as Hb. pose proof (image_whole ni nd ij pj Hij Hpj) as Hw.
  pose proof (image_lookup ni nd Hs ij pj Hij Hpj) as Hlk. destruct Hs as (Hi & Hd & Ht) eqn:Es. clear Es.
  assert (layout_blocks ni nd = 1 + ceil_div ni 32768 + ceil_div nd 32768 + ceil_div ni 32 + nd) as El by reflexivity.
  pose proof (ceil_div_enough ni 32768 ltac:(lia)) as Hc1. pose proof (ceil_div_enough nd 32768 ltac:(lia)) as Hc2.
  cbn [layout_of inode_bitmap_addr data_bitmap_addr inode_region_addr data_region_addr] in Hlk.
  split.
  - rewrite length_blocks by done. rewrite (image_length ni nd Hs ij pj Hij Hpj). unfold UFS_BLOCK_SIZE. lia.
  - pose proof (Hlk 0 ltac:(lia)) as H0. rewrite !decide_False in H0 by lia. rewrite decide_True in H0 by done.
    destruct (image_blocks ni nd ij pj) as [|b bs]; [done|]. injection H0 as ->. apply read_super_block.
    intros x Hx. rewrite !elem_of_cons, elem_of_nil in Hx. cbn [layout_of inode_bitmap_addr inode_bitmap_len data_bitmap_addr
      data_bitmap_len inode_region_addr inode_region_len data_region_addr data_region_len num_inodes num_data] in Hx. lia.
  - intros k Hk. cbn [layout_of inode_bitmap_addr]. eapply (bitmap_region _ 1 (ceil_div ni 32768)); [done|lia|lia|].
    intros j Hj. rewrite Hlk by lia. rewrite decide_False, decide_False by lia. case_decide as E.
    + rewrite decide_True by lia. done.
    + rewrite (decide_False (P := j = 0)) by lia. rewrite decide_False by lia. done.
  - intros k Hk. cbn [layout_of data_bitmap_addr]. eapply (bitmap_region _ _ (ceil_div nd 32768)); [done|lia|lia|].
    intros j Hj. rewrite Hlk by lia. rewrite decide_False, decide_False by lia. case_decide as E.
    + rewrite decide_True by lia. done.
    + rewrite (decide_False (P := j = 0)) by lia. rewrite decide_False by lia. done.
  - cbn [layout_of inode_region_addr]. unfold read_block. rewrite <- (Nat.add_0_r (ublk * _)).
    erewrite slice_concat; [|done|apply Hlk; lia|done]. rewrite decide_False, decide_True by lia.
    rewrite <- (itable_length ij Hij (layout_of ni nd)), slice_all. apply itable_root; [done|]. cbn. lia.
  - cbn [layout_of data_region_addr]. unfold read_block. rewrite <- (Nat.add_0_r (ublk * _)).
    erewrite slice_concat; [|done|apply Hlk; lia|done]. rewrite decide_True by lia.
    rewrite <- (parent_length pj Hpj), slice_all. by apply parent_root.
Qed.

(** * main *)

Lemma ufor_print {A} (l : list A) fmt st :
  ∃ out, cfor l (λ _, uprint fmt []) st = COk tt (UState (u_file st) (u_calls st) out).
Proof.
  revert st. induction l as [|x l IH]; intros st; [exists (u_out st); by destruct st|].
  cbn [cfor]. destruct (IH (UState (u_file st) (u_calls st) (u_out st ++ [(fmt, [])]))) as [out Ho].
  exists out. erewrite cbind_ok by reflexivity. exact Ho.
Qed.

Lemma visualize_ok s st : ∃ out, visualize s st = COk tt (UState (u_file st) (u_calls st) out).
Proof.
  unfold visualize. do 2 (erewrite cbind_ok by reflexivity).
  do 3 (match goal with |- ∃ _, cbind (cfor ?l (λ _, uprint ?f _)) _ ?st = _ =>
    let o := fresh "o" in let H := fresh "H" in destruct (ufor_print l f st) as [o H]; rewrite (cbind_ok _ _ _ _ _ H) end).
  match goal with |- ∃ _, cfor ?l (λ _, uprint ?f _) ?st = _ => destruct (ufor_print l f st) as [o3 H3]; rewrite H3 end.
  exists o3. reflexivity.
Qed.

Section run_main.
Context (e : env) (He : good_env e) (ij pj : list Z) (Hij : length ij = ublk) (Hpj : length pj = ublk).

Lemma make_image_ok ni nd visual o :
  sizes_ok ni nd →
  ∃ c o', make_image e ij pj ni nd visual (UState [] 0 o) = COk 0 (UState (concat (image_blocks ni nd ij pj)) c o').
Proof using He Hij Hpj.
  intros Hs. pose proof (layout_bounds _ _ Hs) as Hb. pose proof (image_length ni nd Hs ij pj Hij Hpj) as Hl.
  assert (layout_blocks ni nd = 1 + ceil_div ni 32768 + ceil_div nd 32768 + ceil_div ni 32 + nd) as El by reflexivity.
  assert (2 <= layout_blocks ni nd <= 2 ^ 19) as Ht by (destruct Hs as (_ & Hd & _); lia).
  assert (32 <= nd) as Hd by apply Hs. unfold make_image.
  erewrite cbind_ok by (by apply make_super_ok). erewrite cbind_ok by (by apply total_blocks_ok).
  set (s := layout_of ni nd).
  erewrite cbind_ok by (apply (pwrite_ok e He (super_bytes s) 0); rewrite ?length_super_bytes; unfold UFS_BLOCK_SIZE; lia).
  do 7 (erewrite cbind_ok by reflexivity). cbn [u_file u_calls u_out].
  change (fwrite_at (Z.to_nat 0) (super_bytes s) []) with (super_bytes s).
  erewrite cbind_ok by (by apply (zero_all e He)).
  unfold image_blocks in Hl. rewrite !length_insert in Hl. fold s in Hl.
  assert (0 <= data_region_addr s < layout_blocks ni nd ∧ 0 <= inode_region_addr s < layout_blocks ni nd ∧
    0 <= data_bitmap_addr s < layout_blocks ni nd) as (P1 & P2 & P3) by (rewrite El; cbn; lia).
  assert (∀ k, whole (super_block s :: replicate k empty_buffer)) as Hw0 by apply start_whole.
  erewrite cbind_ok by (apply (write_block_ok e He); [rewrite Hl; cbn; lia|cbn; lia|done|apply bitmap_length]).
  erewrite cbind_ok by (apply (write_block_ok e He); [rewrite length_insert, Hl; lia|lia|repeat apply whole_insert; first [done|apply bitmap_length]|apply bitmap_length]).
  erewrite cbind_ok by (apply (write_block_ok e He); [rewrite !length_insert, Hl; lia|lia|repeat apply whole_insert; first [done|apply bitmap_length]|by apply itable_length]).
  erewrite cbind_ok by (apply (write_block_ok e He); [rewrite !length_insert, Hl; lia|lia|repeat apply whole_insert; first [done|apply bitmap_length|by apply itable_length]|by apply parent_length]).
  destruct visual.
  - match goal with |- ∃ _ _, cbind (visualize ?a) _ ?b = _ => destruct (visualize_ok a b) as [o' H]; rewrite (cbind_ok _ _ _ _ _ H) end.
    eexists _, o'. reflexivity.
  - eexists _, _. reflexivity.
Qed.
End run_main.

(** C27: The image.  The command is given options that set the number of inodes and data
    blocks, at least 32 each and such that the image is no larger than 2 GB, and a file,
    and every system call succeeds.  Whatever the stack holds, [main] returns 0, and the
    file is a well-formed image: it has a block for everything on it, the superblock
    describes the layout, only the first inode and the first data block are marked
    allocated, and the first inode is the root directory, whose entries in use are [.]
    and [..], both itself. *)
Theorem mkfs_makes_image e itable_junk parent_junk opts o :
  good_env e → length itable_junk = ublk → length parent_junk = ublk →
  parse_options default_options opts (UState [] 0 []) = COk o (UState [] 0 []) → is_Some (o_file o) →
  sizes_ok (o_inodes o) (o_data o) →
  ∃ s, main e itable_junk parent_junk opts (UState [] 0 []) = COk 0 s ∧ image_ok (o_inodes o) (o_data o) (u_file s).
Proof.
  intros He Hij Hpj Hopt [file Hf] Hs. unfold main. rewrite (cbind_ok _ _ _ _ _ Hopt), Hf.
  pose proof He as (-> & Ho & _). erewrite cbind_ok by reflexivity.
  rewrite (proj2 (Z.ltb_ge _ _)) by done. erewrite cbind_ok by reflexivity.
  pose proof Hs as (Hi & Hd & _). rewrite (proj2 (Z.leb_le 32 (o_inodes o)) Hi), (proj2 (Z.leb_le 32 (o_data o)) Hd).
  do 2 (erewrite cbind_ok by reflexivity).
  destruct (make_image_ok e He itable_junk parent_junk Hij Hpj (o_inodes o) (o_data o) (o_visual o) [] Hs) as (c & out & Heq).
  eexists. split; [exact Heq|]. by apply image_blocks_ok.
Qed.

Lemma mkfs_makes_image_witness :
  ∃ s, main (Env true 3 (λ _, 4096)) (replicate ublk 7) (replicate ublk 9) [(105, [54; 52]); (118, []); (102, [105; 109; 103])] (UState [] 0 []) = COk 0 s ∧
    image_ok 64 32 (u_file s).
Proof.
  apply (mkfs_makes_image _ _ _ _ (Options 64 32 (Some [105; 109; 103]) true));
    [split; [reflexivity|split; [cbn; lia|intros n; cbn; unfold UFS_BLOCK_SIZE; lia]]|apply length_replicate|apply length_replicate|reflexivity
    |eexists; reflexivity|].
  split; [cbn; lia|]. split; [cbn; lia|]. vm_compute. discriminate.
Defined.

(** The inode table has no room for 2^25 inodes: their bytes are 2^32, which is 0 as an
    [int], and the first data block is the first block of the table. *)
Lemma inode_table_overflow st :
  ∃ s, make_super (2 ^ 25) 32 st = COk s st ∧ inode_region_len s = 0 ∧ data_region_addr s = inode_region_addr s.
Proof. eexists. split; [reflexivity|]. split; reflexivity. Qed.

(** * Failed writes *)

Section failures.
Context (e : env).

(** When [m] returns, the [pwrite]s it made wrote whole blocks. *)
Definition complete {A} (m : U A) : Prop := ∀ st a st', m st = COk a st' →
  (u_calls st <= u_calls st')%nat ∧ ∀ n, (u_calls st <= n < u_calls st')%nat → UFS_BLOCK_SIZE <= e_pwrite e n.

Lemma complete_bind {A B} (m : U A) (f : A → U B) : complete m → (∀ a, complete (f a)) → complete (cbind m f).
Proof.
  intros Hm Hf st b st' (a & st1 & H1 & H2)%cbind_inv. destruct (Hm _ _ _ H1) as [L1 C1]. destruct (Hf _ _ _ _ H2) as [L2 C2].
  split; [lia|]. intros n Hn. destruct (decide (n < u_calls st1)%nat); [apply C1; lia|apply C2; lia].
Qed.
Lemma complete_quiet {A} (m : U A) : (∀ st a st', m st = COk a st' → u_calls st' = u_calls st) → complete m.
Proof. intros H st a st' E. rewrite (H _ _ _ E). split; [lia|]. intros n Hn. lia. Qed.
Lemma complete_ret {A} (a : A) : complete (cret a).
Proof. apply complete_quiet. intros st x st' [= <- <-]. done. Qed.
Lemma complete_exit {A} c : complete (A := A) (cexit c).
Proof. by apply complete_quiet. Qed.
Lemma complete_print f l : complete (uprint f l).
Proof. apply complete_quiet. intros st x st' [= <- <-]. done. Qed.
Lemma complete_int z : complete (int z).
Proof. apply complete_quiet. intros st x st'. unfold int. case_match; [|done]. intros [= <- <-]. done. Qed.
Lemma complete_for {A} (l : list A) f : (∀ x, complete (f x)) → complete (cfor l f).
Proof. intros H. induction l as [|x l IH]; [apply complete_ret|]. by apply complete_bind. Qed.
End failures.

Create HintDb ufs.
#[export] Hint Resolve complete_ret complete_exit complete_print complete_int complete_for : ufs.

Section report.
Context (e : env).

Lemma pwrite_full data off st rc st' :
  pwrite e data off st = COk rc st' → u_calls st' = S (u_calls st) ∧ (0 <= rc → rc <= e_pwrite e (u_calls st)).
Proof. unfold pwrite. intros [= <- <-]. cbn [u_calls]. split; [done|]. destruct (off <? 0); lia. Qed.

Lemma write_block_complete data n : complete e (write_block e data n).
Proof.
  apply complete_bind; [apply complete_int|]. intros off st [] st' (rc & st1 & H1 & H2)%cbind_inv.
  apply pwrite_full in H1 as [Hc Hrc]. unfold cassert in H2. destruct (Z.eqb_spec rc UFS_BLOCK_SIZE) as [->|]; [|done].
  injection H2 as <-. split; [lia|]. intros k Hk. replace k with (u_calls st) by lia. by apply Hrc.
Qed.
Lemma zero_block_complete i : complete e (zero_block e i).
Proof.
  apply complete_bind; [apply complete_int|]. intros off st [] st' (rc & st1 & H1 & H2)%cbind_inv.
  apply pwrite_full in H1 as [Hc Hrc]. destruct (Z.eqb_spec rc UFS_BLOCK_SIZE) as [->|]; [|done].
  injection H2 as <-. split; [lia|]. intros k Hk. replace k with (u_calls st) by lia. by apply Hrc.
Qed.

Lemma visualize_complete s : complete e (visualize s).
Proof. unfold visualize. repeat (apply complete_bind; [auto with ufs|intros _]). auto with ufs. Qed.

(** Arithmetic and options change nothing. *)
Lemma make_super_quiet ni nd st s st' : make_super ni nd st = COk s st' → st' = st.
Proof.
  intros (x & s1 & ->%int_quiet & (y & s2 & ->%int_quiet & (z & s3 & ->%int_quiet & H4)%cbind_inv)%cbind_inv)%cbind_inv.
  by injection H4 as <- <-.
Qed.
Lemma parse_quiet o opts st o' st' : parse_options o opts st = COk o' st' → st' = st.
Proof.
  revert o st. induction opts as [|[ch arg] opts IH]; intros o st; [by intros [= <- <-]|].
  intros (o1 & st1 & H1 & ->%IH)%cbind_inv. unfold option_step, atoi in H1.
  repeat case_match; try done; try (by injection H1 as _ <-);
    apply cbind_inv in H1 as (n & st2 & ->%int_quiet & H1); by injection H1 as _ <-.
Qed.
End report.

Lemma make_image_complete e ij pj ni nd visual r st st' :
  make_image e ij pj ni nd visual st = COk r st' →
  r = 0 ∧ (S (u_calls st) <= u_calls st')%nat ∧ 40 <= e_pwrite e (u_calls st) ∧
  ∀ n, (S (u_calls st) <= n < u_calls st')%nat → UFS_BLOCK_SIZE <= e_pwrite e n.
Proof.
  intros (s & st1 & ->%make_super_quiet & (total & st2 & ->%int_quiet & (rc & st3 & H3 & (u & st4 & H4 & H5)%cbind_inv)%cbind_inv)%cbind_inv)%cbind_inv.
  apply pwrite_full in H3 as [Hc Hrc]. destruct (Z.eqb_spec rc 40) as [->|]; [|done]. injection H4 as <- <-.
  match type of H5 with ?m _ = _ => assert (complete e m) as Hm end.
  { repeat (apply complete_bind; [auto using write_block_complete, zero_block_complete with ufs|intros _]); [|apply complete_ret].
    destruct visual; [apply visualize_complete|apply complete_ret]. }
  destruct (Hm _ _ _ H5) as [Hle Hall]. rewrite Hc in Hle, Hall.
  split; [|split; [lia|split; [by apply Hrc|exact Hall]]].
  repeat (apply cbind_inv in H5 as (? & ? & _ & H5)). by injection H5 as <- _.
Qed.

(** A failure is never silent.  If [main] returns at all, it returns 0, there was
    memory and the file could be opened, and every [pwrite] it made was complete, the
    first with the superblock and the others with a block each; otherwise it called
    [exit(1)], an [assert] failed or a number was too large for an [int]. *)
Theorem mkfs_reports_failures e itable_junk parent_junk opts r s :
  main e itable_junk parent_junk opts (UState [] 0 []) = COk r s →
  r = 0 ∧ e_calloc e = true ∧ 0 <= e_open e ∧ (1 <= u_calls s)%nat ∧ 40 <= e_pwrite e 0 ∧
  ∀ n, (1 <= n < u_calls s)%nat → UFS_BLOCK_SIZE <= e_pwrite e n.
Proof.
  intros (o & st & ->%parse_quiet & H1)%cbind_inv. destruct (o_file o); [|done].
  apply cbind_inv in H1 as ([] & st1 & H1 & H2). destruct (e_calloc e) eqn:Ec; [|done]. injection H1 as <-.
  apply cbind_inv in H2 as ([] & st2 & H2 & H3). destruct (Z.ltb_spec (e_open e) 0); [done|]. injection H2 as <-.
  apply cbind_inv in H3 as ([] & st3 & H3 & H4). unfold cassert in H3. case_match; [|done]. injection H3 as <-.
  apply cbind_inv in H4 as ([] & st4 & H4 & H5). unfold cassert in H4. case_match; [|done]. injection H4 as <-.
  apply make_image_complete in H5 as (-> & Hc & H40 & Hall). cbn [u_calls] in *. auto 10.
Qed.

Lemma mkfs_reports_failures_witness :
  let e := Env true 3 (λ _, 4096) in
  match main e empty_buffer empty_buffer [(102, [])] (UState [] 0 []) with
  | COk r s => r = 0 ∧ u_calls s = 40%nat ∧ UFS_BLOCK_SIZE <= e_pwrite e 39
  | _ => False
  end.
Proof.
  intros e. assert (match main e empty_buffer empty_buffer [(102, [])] (UState [] 0 []) with COk _ s => u_calls s = 40%nat | _ => False end) as Hc
    by (vm_compute; reflexivity).
  revert Hc. destruct (main e empty_buffer empty_buffer [(102, [])] (UState [] 0 [])) as [r s|c s|s| |] eqn:Heq; intros Hc; [|contradiction..].
  destruct (mkfs_reports_failures e empty_buffer empty_buffer [(102, [])] r s Heq) as (Hr & _ & _ & _ & _ & Hall).
  split; [exact Hr|]. split; [exact Hc|]. apply Hall. rewrite Hc. lia.
Defined.
