(* ===== verification/Web.v ===== *)
(** The web server and its client ([concurrency-webserver/src]: [io_helper.c],
    [request.c], [wserver.c], [wclient.c]) as C programs over a connection. *)
From stdpp Require Import base list numbers strings.
From Stdlib Require Import ZArith Lia.
From S2P Require Import Prelude CProg.
Local Open Scope Z_scope.
Local Open Scope cprog_scope.

Definition MAXBUF : Z := 8192.

(** * A connection *)

(** The bytes the other side has sent and that are still to be read; whether they are
    followed by the end of the stream or by an error; what was written to the connection,
    by how many [write]s; and what the program printed. *)
Record wst := WSt { w_in : list Z; w_eof : bool; w_out : list Z; w_writes : nat; w_log : list Z }.

Definition wprint (l : list Z) : C wst unit := λ s, COk tt (WSt (w_in s) (w_eof s) (w_out s) (w_writes s) (w_log s ++ l)).

(** What the operating system knows of a file. *)
Record fstat := FStat { f_reg : bool; f_rusr : bool; f_xusr : bool; f_bytes : list Z }.

(** The string in a buffer: the bytes in front of the first 0. *)
Fixpoint until0 (l : list Z) : option (list Z) :=
  match l with
  | [] => None
  | c :: l' => if c =? 0 then Some [] else match until0 l' with Some s => Some (c :: s) | None => None end
  end.
Definition str {S} (buf : list Z) : C S (list Z) := λ s, match until0 buf with Some x => COk x s | None => CUndef end.
(** A string fits in a buffer of [MAXBUF] bytes with its 0. *)
Definition fits {S} (s : list Z) : C S unit := cdefined (Z.of_nat (length s) + 1 <=? MAXBUF).

(** * [io_helper.c] *)

(** [readline]: [n] bytes are in the buffer, and there is room for [k] more. *)
Fixpoint readline_loop (k n : nat) (buf : list Z) : C wst (Z * list Z) :=
  match k with
  | O => cret (Z.of_nat n, <[n := 0]> buf)
  | S k' =>
      s <- cget ;;
      match w_in s with
      | c :: rest =>
          cput (WSt rest (w_eof s) (w_out s) (w_writes s) (w_log s)) ;;
          let buf := <[n := c]> buf in
          if c =? 10 then cret (Z.of_nat n, <[S n := 0]> buf) else readline_loop k' (S n) buf
      | [] =>
          cassert (w_eof s) ;;                        (* read_or_die *)
          if (n =? 1)%nat then cret (0, buf)          (* EOF, no data read *)
          else cret (Z.of_nat n, <[n := 0]> buf)      (* EOF, some data was read *)
      end
  end.
Definition readline (buf : list Z) (maxlen : Z) : C wst (Z * list Z) := readline_loop (Z.to_nat (maxlen - 1)) 0 buf.
Definition readline_or_die (buf : list Z) (maxlen : Z) : C wst (Z * list Z) :=
  r <- readline buf maxlen ;; cassert (0 <=? r.1) ;; cret r.

(** What the socket calls of [open_listen_fd] and [open_client_fd] return, [bind] and
    [connect] for the port they are given; whether the name of the host is known. *)
Record sockets := Sockets {
  k_socket : Z; k_setsockopt : Z; k_bind : Z → Z; k_listen : Z; k_host : list Z → bool; k_connect : list Z → Z → Z }.
Definition open_listen_fd (k : sockets) (port : Z) : C wst Z :=
  if k_socket k <? 0 then wprint (bytes_of "socket() failed" ++ [10]) ;; cret (-1)
  else if k_setsockopt k <? 0 then wprint (bytes_of "setsockopt() failed" ++ [10]) ;; cret (-1)
  else if k_bind k (u16 port) <? 0 then wprint (bytes_of "bind() failed" ++ [10]) ;; cret (-1)
  else if k_listen k <? 0 then wprint (bytes_of "listen() failed" ++ [10]) ;; cret (-1)
  else cret (k_socket k).
Definition open_client_fd (k : sockets) (hostname : list Z) (port : Z) : C wst Z :=
  if k_socket k <? 0 then cret (-1)
  else if negb (k_host k hostname) then cret (-2)
  else if k_connect k hostname (u16 port) <? 0 then cret (-1)
  else cret (k_socket k).

(** * [request.c] *)

(** Which of the calls that make a process succeed: [fork], and [wait] in the parent;
    [setenv] of the arguments, [dup2] and [execve] of the program in the child. *)
Record procs := Procs {
  k_fork : bool; k_wait : bool; k_setenv : list Z → bool; k_dup2 : bool; k_execve : list Z → bool }.

Section request.
(** What the [n]th [write] returns when it is asked for enough bytes; the files by their
    names; whether they can be opened and mapped; the calls for processes; and what a CGI
    program, given its name and its arguments, writes. *)
Context (wr : nat → Z) (files : list Z → option fstat) (can_open : list Z → bool) (ps : procs)
  (cgi : list Z → list Z → list Z).

Definition write_or_die (data : list Z) : C wst Z := λ s,
  let rc := Z.max (-1) (Z.min (wr (w_writes s)) (Z.of_nat (length data))) in
  if rc <? 0 then CAssert s
  else COk rc (WSt (w_in s) (w_eof s) (w_out s ++ take (Z.to_nat rc) data) (S (w_writes s)) (w_log s)).

Definition error_body (cause errnum shortmsg longmsg : list Z) : list Z :=
  bytes_of "<!doctype html>" ++ crlf ++ bytes_of "<head>" ++ crlf ++
  bytes_of "  <title>OSTEP WebServer Error</title>" ++ crlf ++ bytes_of "</head>" ++ crlf ++ bytes_of "<body>" ++ crlf ++
  bytes_of "  <h2>" ++ errnum ++ bytes_of ": " ++ shortmsg ++ bytes_of "</h2>" ++ crlf ++
  bytes_of "  <p>" ++ longmsg ++ bytes_of ": " ++ cause ++ bytes_of "</p>" ++ crlf ++
  bytes_of "</body>" ++ crlf ++ bytes_of "</html>" ++ crlf.

Definition request_error (cause errnum shortmsg longmsg : list Z) : C wst unit :=
  let body := error_body cause errnum shortmsg longmsg in
  fits body ;;
  let buf := bytes_of "HTTP/1.0 " ++ errnum ++ bytes_of " " ++ shortmsg ++ crlf in
  fits buf ;;
  write_or_die buf ;;
  write_or_die (bytes_of "Content-Type: text/html" ++ crlf) ;;
  write_or_die (bytes_of "Content-Length: " ++ decimal (Z.of_nat (length body)) ++ crlf ++ crlf) ;;
  write_or_die body ;;
  cret tt.

(** Reads and discards everything up to an empty text line. *)
Fixpoint headers_loop (fuel : nat) (buf : list Z) : C wst unit :=
  match fuel with
  | O => chang
  | S fuel' =>
      line <- str buf ;;
      if bool_decide (line = crlf) then cret tt
      else r <- readline_or_die buf MAXBUF ;; headers_loop fuel' r.2
  end.
Definition request_read_headers (fuel : nat) (junk : list Z) : C wst unit :=
  r <- readline_or_die junk MAXBUF ;; headers_loop fuel r.2.

(** Up to the first [c], and what is behind it. *)
Fixpoint split_at (c : Z) (s : list Z) : list Z * option (list Z) :=
  match s with
  | [] => ([], None)
  | x :: s' => if x =? c then ([], Some s') else let '(l, r) := split_at c s' in (x :: l, r)
  end.

(** Static or not, [filename] and [cgiargs]. *)
Definition request_parse_uri (uri : list Z) : C wst (bool * list Z * list Z) :=
  if negb (strstr uri (bytes_of "cgi")) then
    let filename := 46 :: uri in
    fits filename ;;
    match last uri with
    | None => cundef                                    (* uri[-1] *)
    | Some c =>
        if c =? 47 then
          let filename := filename ++ bytes_of "index.html" in
          fits filename ;; cret (true, filename, [])
        else cret (true, filename, [])
    end
  else
    let '(path, args) := split_at 63 uri in
    fits (46 :: path) ;;
    cret (false, 46 :: path, default [] args).

Definition request_get_filetype (filename : list Z) : list Z :=
  if strstr filename (bytes_of ".html") then bytes_of "text/html"
  else if strstr filename (bytes_of ".gif") then bytes_of "image/gif"
  else if strstr filename (bytes_of ".jpg") then bytes_of "image/jpeg"
  else bytes_of "text/plain".

Definition ok_header : list Z := bytes_of "HTTP/1.0 200 OK" ++ crlf ++ bytes_of "Server: OSTEP WebServer" ++ crlf.

(** What the child writes to the connection.  Its [assert]s end the child alone, and then
    nothing is written. *)
Definition child_output (filename cgiargs : list Z) : list Z :=
  if negb (k_setenv ps cgiargs) then []        (* setenv_or_die *)
  else if negb (k_dup2 ps) then []             (* dup2_or_die *)
  else if negb (k_execve ps filename) then []  (* execve_or_die *)
  else cgi filename cgiargs.

(** The child runs the program with its output on the connection; the parent waits. *)
Definition request_serve_dynamic (filename cgiargs : list Z) : C wst unit :=
  write_or_die ok_header ;;
  cassert (k_fork ps) ;;
  s <- cget ;;
  cput (WSt (w_in s) (w_eof s) (w_out s ++ child_output filename cgiargs) (w_writes s) (w_log s)) ;;
  cassert (k_wait ps).

(** [mmap] of no bytes fails. *)
Definition request_serve_static (filename : list Z) (f : fstat) : C wst unit :=
  let filesize := s32 (Z.of_nat (length (f_bytes f))) in
  let filetype := request_get_filetype filename in
  cassert (can_open filename) ;;
  cassert (0 <? filesize) ;;
  write_or_die (ok_header ++ bytes_of "Content-Length: " ++ decimal filesize ++ crlf ++
                bytes_of "Content-Type: " ++ filetype ++ crlf ++ crlf) ;;
  write_or_die (take (Z.to_nat filesize) (f_bytes f)) ;;
  cret tt.

(** One conversion [%s] of [sscanf]: white space is skipped, and the word ends in front of
    the next. *)
Fixpoint skip_space (s : list Z) : list Z := match s with c :: s' => if isspace c then skip_space s' else s | [] => [] end.
Fixpoint word_of (s : list Z) : list Z * list Z :=
  match s with
  | [] => ([], [])
  | c :: s' => if isspace c then ([], s) else let '(w, r) := word_of s' in (c :: w, r)
  end.
Definition scan_word (s : list Z) : option (list Z * list Z) :=
  match skip_space s with [] => None | s' => Some (word_of s') end.
(** [sscanf(buf, "%s %s %s", a, b, c)]: a word that is not there leaves its buffer as it was. *)
Definition scan3 {S} (s ja jb jc : list Z) : C S (list Z * list Z * list Z) :=
  match scan_word s with
  | None => a <- str ja ;; b <- str jb ;; c <- str jc ;; cret (a, b, c)
  | Some (a, s) =>
      match scan_word s with
      | None => b <- str jb ;; c <- str jc ;; cret (a, b, c)
      | Some (b, s) =>
          match scan_word s with
          | None => c <- str jc ;; cret (a, b, c)
          | Some (c, _) => cret (a, b, c)
          end
      end
  end.

(** The buffers of a request, as the stack has them. *)
Record buffers := Buffers { b_buf : list Z; b_hdr : list Z; b_method : list Z; b_uri : list Z; b_version : list Z }.

Definition request_handle (fuel : nat) (j : buffers) : C wst unit :=
  r <- readline_or_die (b_buf j) MAXBUF ;;
  line <- str r.2 ;;
  m <- scan3 line (b_method j) (b_uri j) (b_version j) ;;
  let '(method, uri, version) := m in
  wprint (bytes_of "method:" ++ method ++ bytes_of " uri:" ++ uri ++ bytes_of " version:" ++ version ++ [10]) ;;
  if negb (same_nocase method (bytes_of "GET")) then
    request_error method (bytes_of "501") (bytes_of "Not Implemented") (bytes_of "server does not implement this method")
  else
    request_read_headers fuel (b_hdr j) ;;
    p <- request_parse_uri uri ;;
    let '(is_static, filename, cgiargs) := p in
    match files filename with
    | None => request_error filename (bytes_of "404") (bytes_of "Not found") (bytes_of "server could not find this file")
    | Some f =>
        if is_static then
          if negb (f_reg f) || negb (f_rusr f) then
            request_error filename (bytes_of "403") (bytes_of "Forbidden") (bytes_of "server could not read this file")
          else request_serve_static filename f
        else
          if negb (f_reg f) || negb (f_xusr f) then
            request_error filename (bytes_of "403") (bytes_of "Forbidden") (bytes_of "server could not run this CGI program")
          else request_serve_dynamic filename cgiargs
    end.

(** * [wserver.c] *)

(** The loop of the server over the connections that [accept] returns: for each, what
    the other side sends and whether [close] succeeds.  The state is the list of the
    answers so far.  After the last of them the server waits in [accept]. *)
Fixpoint serve (fuel : nat) (j : buffers) (conns : list (wst * bool)) : C (list (list Z)) unit := λ done,
  match conns with
  | [] => COk tt done
  | (c, closes) :: conns' =>
      match request_handle fuel j c with
      | COk _ c' => if closes then serve fuel j conns' (done ++ [w_out c']) else CAssert (done ++ [w_out c'])
      | CAssert c' => CAssert (done ++ [w_out c'])
      | CExit code c' => CExit code (done ++ [w_out c'])
      | CUndef => CUndef
      | CHang => CHang
      end
  end.

(** [root_dir] and [port].  The usage message goes to the terminal and is left out. *)
Fixpoint wserver_options (o : list Z * Z) (rs : list optret) : C (list (list Z)) (list Z * Z) :=
  match rs with
  | [] => cret o
  | (ch, optarg) :: rs' =>
      if ch =? 100 then wserver_options (optarg, o.2) rs'
      else if ch =? 112 then (p <- atoi optarg ;; wserver_options (o.1, p) rs')
      else cexit 1
  end.
Definition wserver_main (k : sockets) (can_chdir : list Z → bool) (fuel : nat) (j : buffers) (opts : list optret)
    (conns : list (wst * bool)) : C (list (list Z)) unit :=
  o <- wserver_options ([46], 10000) opts ;;
  cassert (can_chdir o.1) ;;
  match open_listen_fd k o.2 (WSt [] true [] 0 []) with
  | COk fd _ => cassert (0 <=? fd) ;; serve fuel j conns
  | _ => cundef
  end.

(** * [wclient.c] *)

(** The request line goes into the buffer; then [sprintf] gets the buffer as its destination
    and as an argument, which C leaves undefined.  So the [write_or_die] behind it is not
    part of any defined run. *)
Definition client_send (gethostname : option (list Z)) (filename : list Z) : C wst unit :=
  match gethostname with
  | None => λ s, CAssert s
  | Some hostname =>
      fits (bytes_of "GET " ++ filename ++ bytes_of " HTTP/1.1" ++ [10]) ;;
      cundef
  end.

(** The loop over the header: as long as lines are not empty and not at the end. *)
Fixpoint client_headers (fuel : nat) (n : Z) (buf : list Z) : C wst (list Z) :=
  match fuel with
  | O => chang
  | S fuel' =>
      line <- str buf ;;
      if negb (bool_decide (line = crlf)) && (0 <? n) then
        wprint (bytes_of "Header: " ++ line) ;;
        r <- readline_or_die buf MAXBUF ;;
        client_headers fuel' r.1 r.2
      else cret buf
  end.
Fixpoint client_body (fuel : nat) (n : Z) (buf : list Z) : C wst unit :=
  match fuel with
  | O => chang
  | S fuel' =>
      if 0 <? n then
        line <- str buf ;;
        wprint line ;;
        r <- readline_or_die buf MAXBUF ;;
        client_body fuel' r.1 r.2
      else cret tt
  end.
Definition client_print (fuel : nat) (junk : list Z) : C wst unit :=
  r <- readline_or_die junk MAXBUF ;;
  buf <- client_headers fuel r.1 r.2 ;;
  r <- readline_or_die buf MAXBUF ;;
  client_body fuel r.1 r.2.

Definition wclient_main (k : sockets) (gethostname : option (list Z)) (closes : bool) (fuel : nat) (junk : list Z)
    (argv : list (list Z)) : C wst unit :=
  match argv with
  | [_; host; port; filename] =>
      port <- atoi port ;;
      fd <- open_client_fd k host port ;;
      cassert (0 <=? fd) ;;
      client_send gethostname filename ;;
      client_print fuel junk ;;
      cassert closes ;;
      cexit 0
  | prog :: _ => wprint (bytes_of "Usage: " ++ prog ++ bytes_of " <host> <port> <filename>" ++ [10]) ;; cexit 1
  | [] => wprint (bytes_of "Usage: (null) <host> <port> <filename>" ++ [10]) ;; cexit 1
  end.
End request.
