(* ===== verification/WebProps.v ===== *)
(** What the web server answers, what its client prints, and where they stop working. *)
From stdpp Require Import base list numbers strings.
From Stdlib Require Import ZArith Lia.
From S2P Require Import Prelude CProg Web.
Local Open Scope Z_scope.
Local Open Scope cprog_scope.

(** * Lines *)

(** Bytes that [readline] and [strcmp] pass over: no newline and no 0. *)
Definition plain (l : list Z) : Prop := Forall (λ c, c ≠ 10 ∧ c ≠ 0) l.
(** A line that fits in a buffer of [MAXBUF] bytes with its newline and a 0. *)
Definition line_ok (l : list Z) : Prop := plain l ∧ Z.of_nat (length l) + 2 <= MAXBUF.

Lemma until0_stop l r : Forall (λ c, c ≠ 0) l → until0 (l ++ 0 :: r) = Some l.
Proof.
  induction 1 as [|c l Hc _ IH]; [done|]. cbn [app until0]. rewrite (proj2 (Z.eqb_neq _ _) Hc), IH. done.
Qed.

Lemma splice_one {A} n (x : A) l : (n < length l)%nat → splice n [x] l = <[n := x]> l.
Proof. intros H. rewrite <- (splice_nil (S n) (<[n := x]> l)). symmetry. apply (insert_splice n x []). cbn. lia. Qed.

Lemma splice_front {A} (new l : list A) : splice 0 new l = new ++ drop (length new) l.
Proof. reflexivity. Qed.

Lemma str_ok {S} l r (s : S) : Forall (λ c, c ≠ 0) l → str (l ++ 0 :: r) s = COk l s.
Proof. intros H. unfold str. by rewrite until0_stop. Qed.

Lemma plain_nonzero l : plain l → Forall (λ c, c ≠ 0) l.
Proof. intros H. eapply Forall_impl; [exact H|]. by intros c [_ Hc]. Qed.
Lemma plain_nl l : plain l → Forall (λ c, c ≠ 0) (l ++ [10]).
Proof. intros H. apply Forall_app. split; [by apply plain_nonzero|]. by constructor. Qed.

(** [readline] up to a newline. *)
Lemma readline_loop_nl line : ∀ k n buf rest eof out ws log,
  plain line → (length line < k)%nat → (n + length line + 2 <= length buf)%nat →
  readline_loop k n buf (WSt (line ++ 10 :: rest) eof out ws log) =
  COk (Z.of_nat (n + length line), splice n (line ++ [10; 0]) buf) (WSt rest eof out ws log).
Proof.
  induction line as [|c line IH]; intros k n buf rest eof out ws log Hp Hk Hb; (destruct k as [|k]; [cbn in Hk; lia|]).
  - cbn [length app] in *. rewrite Nat.add_0_r. cbn. rewrite <- (insert_splice n 10 [0]) by (cbn; lia).
    rewrite splice_one by (rewrite length_insert; lia). done.
  - apply Forall_cons in Hp as [[Hc _] Hp]. cbn [length app] in *. cbn. rewrite (proj2 (Z.eqb_neq _ _) Hc).
    rewrite IH by (rewrite ?length_insert; try done; lia). rewrite insert_splice by (rewrite length_app; cbn; lia).
    do 3 f_equal. lia.
Qed.
(** [readline] up to the end of the stream. *)
Lemma readline_loop_eof line : ∀ k n buf out ws log,
  plain line → (length line < k)%nat → (n + length line + 2 <= length buf)%nat →
  readline_loop k n buf (WSt line true out ws log) =
  COk (if decide (n + length line = 1)%nat then (0, splice n line buf) else (Z.of_nat (n + length line), splice n (line ++ [0]) buf))
    (WSt [] true out ws log).
Proof.
  induction line as [|c line IH]; intros k n buf out ws log Hp Hk Hb; (destruct k as [|k]; [cbn in Hk; lia|]).
  - cbn [length app] in *. rewrite Nat.add_0_r. cbn. rewrite splice_nil, splice_one by lia.
    destruct (Nat.eqb_spec n 1); [by rewrite decide_True|by rewrite decide_False].
  - apply Forall_cons in Hp as [[Hc _] Hp]. cbn [length app] in *. cbn. rewrite (proj2 (Z.eqb_neq _ _) Hc).
    rewrite IH by (rewrite ?length_insert; try done; lia). rewrite !insert_splice by (rewrite ?length_app; cbn; lia).
    replace (S n + length line)%nat with (n + S (length line))%nat by lia. done.
Qed.

Abbreviation maxbuf := (Z.to_nat MAXBUF).

Lemma readline_nl line buf rest eof out ws log :
  line_ok line → length buf = maxbuf →
  readline_or_die buf MAXBUF (WSt (line ++ 10 :: rest) eof out ws log) =
  COk (Z.of_nat (length line), line ++ [10; 0] ++ drop (length line + 2) buf) (WSt rest eof out ws log).
Proof.
  intros [Hp Hl] Hb. unfold readline_or_die, readline.
  erewrite cbind_ok by (apply readline_loop_nl; [done|unfold MAXBUF in *; lia|unfold MAXBUF in *; lia]).
  cbn [fst]. rewrite (proj2 (Z.leb_le _ _)) by lia. cbn. rewrite splice_front, length_app. cbn [length]. by rewrite <- app_assoc.
Qed.

Lemma readline_eof line buf out ws log :
  line_ok line → length buf = maxbuf → length line ≠ 1%nat →
  readline_or_die buf MAXBUF (WSt line true out ws log) =
  COk (Z.of_nat (length line), line ++ [0] ++ drop (length line + 1) buf) (WSt [] true out ws log).
Proof.
  intros [Hp Hl] Hb H1. unfold readline_or_die, readline.
  erewrite cbind_ok by (apply readline_loop_eof; [done|unfold MAXBUF in *; lia|unfold MAXBUF in *; lia]).
  rewrite decide_False by done. cbn [fst]. rewrite (proj2 (Z.leb_le _ _)) by lia. cbn. rewrite splice_front, length_app. cbn [length].
  by rewrite <- app_assoc.
Qed.

Lemma line_buf_length line buf : line_ok line → length buf = maxbuf → length (line ++ [10; 0] ++ drop (length line + 2) buf) = maxbuf.
Proof. intros [_ Hl] Hb. rewrite !length_app, length_drop. cbn [length]. lia. Qed.

Lemma eof_buf_length line buf : line_ok line → length buf = maxbuf → length (line ++ [0] ++ drop (length line + 1) buf) = maxbuf.
Proof. intros [_ Hl] Hb. rewrite !length_app, length_drop. cbn [length]. lia. Qed.

Lemma str_line {S} line (r : list Z) (s : S) : plain line → str (line ++ [10; 0] ++ r) s = COk (line ++ [10]) s.
Proof. intros Hp. replace (line ++ [10; 0] ++ r) with ((line ++ [10]) ++ 0 :: r) by (by rewrite <- app_assoc). apply str_ok. by apply plain_nl. Qed.

(** * The header of a request *)

Definition lines (ls : list (list Z)) : list Z := ls ≫= (λ l, l ++ [10]).
Lemma lines_cons l ls : lines (l :: ls) = l ++ 10 :: lines ls.
Proof. unfold lines. rewrite bind_cons, <- app_assoc. done. Qed.

(** The header lines, up to the empty one. *)
Definition header_ok (l : list Z) : Prop := line_ok l ∧ l ≠ [13].

Lemma headers_loop_ok hs : ∀ h fuel r rest eof out ws log,
  Forall header_ok (h :: hs) → (S (length hs) < fuel)%nat → length (h ++ [10; 0] ++ r) = maxbuf →
  headers_loop fuel (h ++ [10; 0] ++ r) (WSt (lines hs ++ crlf ++ rest) eof out ws log) = COk tt (WSt rest eof out ws log).
Proof.
  induction hs as [|h' hs IH]; intros h fuel r rest eof out ws log Hh Hf Hr;
    (destruct fuel as [|fuel]; [cbn in Hf; lia|]); apply Forall_cons in Hh as [[Hok Hne] Hh]; cbn [headers_loop];
    rewrite (cbind_ok _ _ _ _ _ (str_line h r _ (proj1 Hok))), bool_decide_eq_false_2
      by (intros E; apply (app_inj_tail _ [13]) in E as [E _]; done).
  - cbn [lines mbind list_bind app]. change (crlf ++ rest) with ([13] ++ 10 :: rest).
    assert (line_ok [13]) as Hcr by (split; [by repeat constructor|unfold MAXBUF; cbn; lia]).
    rewrite (cbind_ok _ _ _ _ _ (readline_nl [13] _ rest eof out ws log Hcr Hr)). cbn [snd].
    destruct fuel as [|fuel]; [cbn in Hf; lia|]. cbn [headers_loop].
    by rewrite (cbind_ok _ _ _ _ _ (str_line [13] _ _ (proj1 Hcr))), bool_decide_eq_true_2.
  - rewrite lines_cons, <- app_assoc. cbn [app]. apply Forall_cons in Hh as Hh'. destruct Hh' as [[Hok' _] _].
    rewrite (cbind_ok _ _ _ _ _ (readline_nl h' _ _ eof out ws log Hok' Hr)). cbn [snd].
    apply IH; [done|cbn in Hf; lia|by apply line_buf_length].
Qed.

Lemma read_headers_ok hs fuel junk rest eof out ws log :
  Forall header_ok hs → (S (length hs) < fuel)%nat → length junk = maxbuf →
  request_read_headers fuel junk (WSt (lines hs ++ crlf ++ rest) eof out ws log) = COk tt (WSt rest eof out ws log).
Proof.
  intros Hh Hf Hj. unfold request_read_headers. destruct hs as [|h hs].
  - assert (line_ok [13]) as Hcr by (split; [by repeat constructor|unfold MAXBUF; cbn; lia]).
    cbn [lines mbind list_bind app]. change (crlf ++ rest) with ([13] ++ 10 :: rest).
    rewrite (cbind_ok _ _ _ _ _ (readline_nl [13] _ rest eof out ws log Hcr Hj)). cbn [snd].
    destruct fuel as [|fuel]; [lia|]. cbn [headers_loop].
    by rewrite (cbind_ok _ _ _ _ _ (str_line [13] _ _ (proj1 Hcr))), bool_decide_eq_true_2.
  - rewrite lines_cons, <- app_assoc. cbn [app]. apply Forall_cons in Hh as Hh'. destruct Hh' as [[Hok' _] _].
    rewrite (cbind_ok _ _ _ _ _ (readline_nl h _ _ eof out ws log Hok' Hj)). cbn [snd].
    apply headers_loop_ok; [done|cbn in Hf; lia|by apply line_buf_length].
Qed.

(** * The answer to a request *)

(** The words of the first line. *)
Definition first_words (s : list Z) : option (list Z * list Z * list Z) :=
  match scan_word s with
  | None => None
  | Some (a, s) => match scan_word s with
                   | None => None
                   | Some (b, s) => match scan_word s with None => None | Some (c, _) => Some (a, b, c) end
                   end
  end.

(** Static or not, the file, and the arguments of the program. *)
Definition target (uri : list Z) : bool * list Z * list Z :=
  if negb (strstr uri (bytes_of "cgi")) then
    (true, (46 :: uri) ++ (if decide (last uri = Some 47) then bytes_of "index.html" else []), [])
  else let '(path, args) := split_at 63 uri in (false, 46 :: path, default [] args).

Definition error_text (cause errnum shortmsg longmsg : list Z) : list Z :=
  let body := error_body cause errnum shortmsg longmsg in
  bytes_of "HTTP/1.0 " ++ errnum ++ bytes_of " " ++ shortmsg ++ crlf ++ bytes_of "Content-Type: text/html" ++ crlf ++
  bytes_of "Content-Length: " ++ decimal (Z.of_nat (length body)) ++ crlf ++ crlf ++ body.
Definition static_text (filename : list Z) (f : fstat) : list Z :=
  ok_header ++ bytes_of "Content-Length: " ++ decimal (Z.of_nat (length (f_bytes f))) ++ crlf ++
  bytes_of "Content-Type: " ++ request_get_filetype filename ++ crlf ++ crlf ++ f_bytes f.

Definition answer (files : list Z → option fstat) (cgi : list Z → list Z → list Z) (method uri : list Z) : list Z :=
  if negb (same_nocase method (bytes_of "GET")) then
    error_text method (bytes_of "501") (bytes_of "Not Implemented") (bytes_of "server does not implement this method")
  else
    let '(is_static, filename, args) := target uri in
    match files filename with
    | None => error_text filename (bytes_of "404") (bytes_of "Not found") (bytes_of "server could not find this file")
    | Some f =>
        if negb (f_reg f && if is_static then f_rusr f else f_xusr f) then
          error_text filename (bytes_of "403") (bytes_of "Forbidden")
            (bytes_of (if is_static then "server could not read this file" else "server could not run this CGI program"))
        else if is_static then static_text filename f
        else ok_header ++ cgi filename args
    end.

(** The lengths of literals as numbers. *)
Ltac lits :=
  repeat match goal with
  | |- context [length (bytes_of ?s)] =>
      let n := eval vm_compute in (length (bytes_of s)) in change (length (bytes_of s)) with n
  end.

Lemma length_digits k n : (length (digits_of k n) <= k)%nat.
Proof. revert n. induction k as [|k IH]; intros n; cbn [digits_of length]; [lia|]. case_match; cbn; [lia|]. rewrite length_app. specialize (IH (n / 10)). cbn. lia. Qed.
Lemma length_decimal n : (length (decimal n) <= 21)%nat.
Proof. unfold decimal. case_match; cbn [length]; [pose proof (length_digits 20 (- n))|pose proof (length_digits 20 n)]; lia. Qed.

Lemma fits_ok {S} l (s : S) : (length l < maxbuf)%nat → fits l s = COk tt s.
Proof. intros H. unfold fits, cdefined. rewrite (proj2 (Z.leb_le _ _)); [done|]. unfold MAXBUF in *. lia. Qed.

(** The calls for processes succeed. *)
Definition procs_ok (ps : procs) : Prop :=
  k_fork ps = true ∧ k_wait ps = true ∧ (∀ a, k_setenv ps a = true) ∧ k_dup2 ps = true ∧ ∀ f, k_execve ps f = true.

Section answers.
Context (wr : nat → Z) (files : list Z → option fstat) (can_open : list Z → bool) (ps : procs)
  (cgi : list Z → list Z → list Z).
Context (Hwr : ∀ n, 2 ^ 31 <= wr n).
Notation write_or_die := (write_or_die wr).

Lemma write_ok data i eof out ws log :
  Z.of_nat (length data) < 2 ^ 31 →
  write_or_die data (WSt i eof out ws log) = COk (Z.of_nat (length data)) (WSt i eof (out ++ data) (S ws) log).
Proof using Hwr.
  intros Hd. unfold Web.write_or_die. cbn [w_writes w_in w_eof w_out w_log]. specialize (Hwr ws).
  replace (Z.max _ _) with (Z.of_nat (length data)) by lia. rewrite (proj2 (Z.ltb_ge _ _)) by lia.
  by rewrite Nat2Z.id, take_ge.
Qed.

(** The answer was appended, and the rest of the input left. *)
Lemma request_error_ok cause errnum shortmsg longmsg i eof out ws log :
  (length (error_body cause errnum shortmsg longmsg) < maxbuf)%nat → (length errnum + length shortmsg < 100)%nat →
  ∃ ws', request_error wr cause errnum shortmsg longmsg (WSt i eof out ws log) =
    COk tt (WSt i eof (out ++ error_text cause errnum shortmsg longmsg) ws' log).
Proof using Hwr.
  intros Hb Hm. unfold request_error. unfold MAXBUF in *. rewrite (cbind_ok _ _ _ _ _ (fits_ok _ _ Hb)).
  assert (length (bytes_of "HTTP/1.0 " ++ errnum ++ bytes_of " " ++ shortmsg ++ crlf) < 200)%nat as Hs
    by (rewrite !length_app; lits; change (length crlf) with 2%nat; lia).
  erewrite cbind_ok by (apply fits_ok; unfold MAXBUF; lia).
  do 4 (erewrite cbind_ok by (apply write_ok; pose proof (length_decimal (Z.of_nat (length (error_body cause errnum shortmsg longmsg))));
    rewrite ?length_app in *; lits; cbn [length crlf] in *; lia)).
  eexists. unfold cret. do 2 f_equal. unfold error_text. by rewrite <- !app_assoc.
Qed.

(** Short enough for every buffer. *)
Definition short (l : list Z) : Prop := Z.of_nat (length l) <= 7900.

Lemma split_at_length c s : (length (split_at c s).1 <= length s)%nat.
Proof. induction s as [|x s IH]; cbn [split_at]; [done|]. case_match; [cbn; lia|]. destruct (split_at c s). cbn in *. lia. Qed.

Lemma target_length uri : let '(_, filename, _) := target uri in (length filename <= length uri + 11)%nat.
Proof.
  unfold target. destruct (negb _).
  - rewrite length_app. cbn [length]. case_decide; lits; cbn [length]; lia.
  - pose proof (split_at_length 63 uri). destruct (split_at 63 uri). cbn in *. lia.
Qed.

Lemma parse_uri_ok uri s : short uri → uri ≠ [] → request_parse_uri uri s = COk (target uri) s.
Proof.
  intros Hs Hne. unfold request_parse_uri, target, short in *. destruct (negb _).
  - erewrite cbind_ok by (apply fits_ok; unfold MAXBUF; cbn [length]; lia).
    destruct (last uri) as [c|] eqn:El; [|by apply last_None in El].
    destruct (Z.eqb_spec c 47) as [->|Hc].
    + erewrite cbind_ok by (apply fits_ok; unfold MAXBUF; rewrite length_app; lits; cbn [length]; lia). by rewrite decide_True.
    + rewrite decide_False by congruence. by rewrite app_nil_r.
  - pose proof (split_at_length 63 uri). destruct (split_at 63 uri) as [path args]. cbn [fst] in *.
    erewrite cbind_ok by (apply fits_ok; unfold MAXBUF; cbn [length]; lia). done.
Qed.

Lemma serve_static_ok filename f i eof out ws log :
  can_open filename = true → 0 < Z.of_nat (length (f_bytes f)) < 2 ^ 31 →
  ∃ ws', request_serve_static wr can_open filename f (WSt i eof out ws log) = COk tt (WSt i eof (out ++ static_text filename f) ws' log).
Proof using Hwr.
  intros Ho Hf. unfold request_serve_static. rewrite s32_small by lia. rewrite Ho.
  erewrite cbind_ok by reflexivity. rewrite (proj2 (Z.ltb_lt _ _)) by lia. erewrite cbind_ok by reflexivity.
  assert (length (request_get_filetype filename) <= 20)%nat as Ht by (unfold request_get_filetype; repeat case_match; lits; lia).
  pose proof (length_decimal (Z.of_nat (length (f_bytes f)))) as Hd.
  erewrite cbind_ok by (apply write_ok; unfold ok_header; rewrite !length_app; lits; cbn [length crlf]; lia).
  rewrite Nat2Z.id, take_ge by done. erewrite cbind_ok by (apply write_ok; lia).
  eexists. unfold cret. do 2 f_equal. unfold static_text. by rewrite <- !app_assoc.
Qed.

(** What the server needs from a file that it is to deliver: it can be opened, it is not
    empty and its size is an [int]. *)
Definition deliverable (filename : list Z) (f : fstat) : Prop :=
  can_open filename = true ∧ 0 < Z.of_nat (length (f_bytes f)) < 2 ^ 31.

Lemma error_ok cause i eof out ws log errnum shortmsg longmsg :
  (errnum, shortmsg, longmsg) ∈ [(bytes_of "501", bytes_of "Not Implemented", bytes_of "server does not implement this method");
    (bytes_of "404", bytes_of "Not found", bytes_of "server could not find this file");
    (bytes_of "403", bytes_of "Forbidden", bytes_of "server could not read this file");
    (bytes_of "403", bytes_of "Forbidden", bytes_of "server could not run this CGI program")] →
  Z.of_nat (length cause) <= 7911 →
  ∃ ws', request_error wr cause errnum shortmsg longmsg (WSt i eof out ws log) =
    COk tt (WSt i eof (out ++ error_text cause errnum shortmsg longmsg) ws' log).
Proof using Hwr.
  intros Hin Hc. rewrite !elem_of_cons, elem_of_nil in Hin.
  destruct Hin as [[= -> -> ->]|[[= -> -> ->]|[[= -> -> ->]|[[= -> -> ->]|[]]]]]; apply request_error_ok;
    unfold error_body; rewrite ?length_app; lits; cbn [length crlf]; unfold MAXBUF; lia.
Qed.

(** Send the error message at the head of the goal. *)
Ltac answer_error :=
  match goal with |- ∃ _ _ _, request_error _ ?c ?e ?m ?l (WSt ?i ?b ?o ?w ?g) = _ ∧ _ =>
    let ws' := fresh "ws" in
    destruct (error_ok c i b o w g e m l) as [ws' ->]; [rewrite !elem_of_cons; auto 10|lia|]
  end.

Lemma handle_ok fuel j l hs rest eof method uri version :
  length (b_buf j) = maxbuf → length (b_hdr j) = maxbuf →
  line_ok l → first_words (l ++ [10]) = Some (method, uri, version) → short method → short uri → uri ≠ [] →
  Forall header_ok hs → (S (length hs) < fuel)%nat → procs_ok ps →
  (∀ filename f, files filename = Some f → f_reg f = true → deliverable filename f) →
  let input := lines (l :: hs) ++ crlf ++ rest in
  ∃ i ws' log', request_handle wr files can_open ps cgi fuel j (WSt input eof [] 0 []) =
    COk tt (WSt i eof (answer files cgi method uri) ws' log') ∧
    (same_nocase method (bytes_of "GET") = true → i = rest).
Proof using Hwr.
  intros Hb1 Hb2 Hl Hw Hsm Hsu Hune Hh Hf (Hk1 & Hk2 & Hk3 & Hk4 & Hk5) Hdel input. unfold request_handle, input.
  rewrite lines_cons, <- app_assoc. cbn [app].
  rewrite (cbind_ok _ _ _ _ _ (readline_nl l _ _ _ _ _ _ Hl Hb1)). cbn [snd].
  rewrite (cbind_ok _ _ _ _ _ (str_line l _ _ (proj1 Hl))).
  assert (∀ (s : wst), scan3 (l ++ [10]) (b_method j) (b_uri j) (b_version j) s = COk (method, uri, version) s) as Hscan.
  { intros s. unfold first_words in Hw. unfold scan3. repeat case_match; try done. by simplify_eq. }
  rewrite (cbind_ok _ _ _ _ _ (Hscan _)). erewrite cbind_ok by reflexivity. cbn [w_in w_eof w_out w_writes w_log].
  unfold answer, short in *. destruct (negb (same_nocase method (bytes_of "GET"))) eqn:Hget.
  { answer_error.
    eexists _, _, _. split; [reflexivity|]. apply negb_true_iff in Hget. by rewrite Hget. }
  erewrite cbind_ok by (by apply read_headers_ok). erewrite cbind_ok by (by apply parse_uri_ok).
  pose proof (target_length uri) as Hlen. destruct (target uri) as [[is_static filename] args].
  destruct (files filename) as [f|] eqn:Hfile.
  2:{ answer_error.
      eexists _, _, _. by split. }
  rewrite <- !negb_andb. destruct is_static.
  - destruct (negb (f_reg f && f_rusr f)) eqn:Hperm.
    + answer_error.
      eexists _, _, _. by split.
    + apply negb_false_iff, andb_true_iff in Hperm as [Hreg _]. destruct (Hdel filename f Hfile Hreg) as [Ho Hs].
      match goal with |- ∃ _ _ _, _ (WSt ?a ?b ?c ?d ?e) = _ ∧ _ => destruct (serve_static_ok filename f a b c d e Ho Hs) as [ws' ->] end.
      eexists _, _, _. by split.
  - destruct (negb (f_reg f && f_xusr f)) eqn:Hperm.
    + answer_error.
      eexists _, _, _. by split.
    + unfold request_serve_dynamic. erewrite cbind_ok by (apply write_ok; vm_compute; reflexivity). unfold child_output. rewrite Hk1, Hk2, Hk3, Hk4, Hk5.
      do 3 (erewrite cbind_ok by reflexivity). eexists _, _, _. by split.
Qed.
End answers.

(** * The server *)

(** A request: the first line has a method, a URI and a version that are not too long,
    the header lines are followed by an empty line, and they fit in the buffers. *)
Record request_ok (nh : nat) (c : wst * bool) (method uri : list Z) : Prop := {
  rq_text : ∃ l hs rest eof version, c = (WSt (lines (l :: hs) ++ crlf ++ rest) eof [] 0 [], true) ∧ line_ok l ∧
    first_words (l ++ [10]) = Some (method, uri, version) ∧ Forall header_ok hs ∧ (length hs <= nh)%nat;
  rq_method : short method;
  rq_uri : short uri ∧ uri ≠ [];
}.

(** The buffers on the stack hold anything. *)
Definition buffers_ok (j : buffers) : Prop := length (b_buf j) = maxbuf ∧ length (b_hdr j) = maxbuf.

(** ** What an answer says

    Read back from the bytes, as a client would. *)

(** Up to the first CR LF, and what is behind it. *)
Fixpoint split_crlf (s : list Z) : option (list Z * list Z) :=
  match s with
  | [] => None
  | c :: s' =>
      if (c =? 13) && bool_decide (head s' = Some 10) then Some ([], tail s')
      else match split_crlf s' with Some (l, r) => Some (c :: l, r) | None => None end
  end.
(** The lines in front of the empty one, and the body behind it. *)
Fixpoint parse_fields (fuel : nat) (s : list Z) : option (list (list Z) * list Z) :=
  match fuel with
  | O => None
  | S fuel' =>
      match split_crlf s with
      | None => None
      | Some ([], body) => Some ([], body)
      | Some (l, r) => match parse_fields fuel' r with Some (ls, body) => Some (l :: ls, body) | None => None end
      end
  end.
Record response := Response { rs_status : Z; rs_fields : list (list Z); rs_body : list Z }.
Definition parse_response (s : list Z) : option response :=
  match parse_fields (S (length s)) s with
  | Some (l :: ls, body) =>
      if prefix_of (bytes_of "HTTP/1.0 ") l then Some (Response (atoi_value (drop 9 l)) ls body) else None
  | _ => None
  end.
Definition content_length (ls : list (list Z)) : option Z :=
  match List.find (prefix_of (bytes_of "Content-Length: ")) ls with Some l => Some (atoi_value (drop 16 l)) | None => None end.

(** A complete response with this status and this body, of the length it says. *)
Definition responds (out : list Z) (status : Z) (body : list Z) : Prop :=
  ∃ ls, parse_response out = Some (Response status ls body) ∧ content_length ls = Some (Z.of_nat (length body)).

(** What a URI stands for: without "cgi" in it, the file of that name in the current
    directory, or the index.html of a directory; with it, the program of that name, with
    the arguments behind the question mark. *)
Inductive resolves : list Z → bool → list Z → list Z → Prop :=
| resolves_file uri : strstr uri (bytes_of "cgi") = false → last uri ≠ Some 47 → resolves uri true (bytes_of "." ++ uri) []
| resolves_dir path : strstr (path ++ [47]) (bytes_of "cgi") = false →
    resolves (path ++ [47]) true (bytes_of "." ++ path ++ bytes_of "/index.html") []
| resolves_program uri : strstr uri (bytes_of "cgi") = true → 63 ∉ uri → resolves uri false (bytes_of "." ++ uri) []
| resolves_program_args path args : strstr (path ++ 63 :: args) (bytes_of "cgi") = true → 63 ∉ path →
    resolves (path ++ 63 :: args) false (bytes_of "." ++ path) args.

(** The answer a request calls for. *)
Inductive reply (files : list Z → option fstat) (cgi : list Z → list Z → list Z) (method uri : list Z) : list Z → Prop :=
| reply_not_get out body :
    same_nocase method (bytes_of "GET") = false → responds out 501 body → reply files cgi method uri out
| reply_missing b filename args out body :
    same_nocase method (bytes_of "GET") = true → resolves uri b filename args → files filename = None →
    responds out 404 body → reply files cgi method uri out
| reply_forbidden b filename args f out body :
    same_nocase method (bytes_of "GET") = true → resolves uri b filename args → files filename = Some f →
    f_reg f = false ∨ (if b then f_rusr f else f_xusr f) = false →
    responds out 403 body → reply files cgi method uri out
| reply_file filename f out :
    same_nocase method (bytes_of "GET") = true → resolves uri true filename [] → files filename = Some f →
    f_reg f = true → f_rusr f = true → responds out 200 (f_bytes f) → reply files cgi method uri out
| reply_program filename args f :
    same_nocase method (bytes_of "GET") = true → resolves uri false filename args → files filename = Some f →
    f_reg f = true → f_xusr f = true →
    reply files cgi method uri
      (bytes_of "HTTP/1.0 200 OK" ++ crlf ++ bytes_of "Server: OSTEP WebServer" ++ crlf ++ cgi filename args).

Lemma split_crlf_line l r : Forall (λ c, c ≠ 13) l → split_crlf (l ++ crlf ++ r) = Some (l, r).
Proof.
  induction 1 as [|c l Hc _ IH]; [done|]. cbn [app split_crlf]. rewrite (proj2 (Z.eqb_neq _ _) Hc). cbn [andb]. by rewrite IH.
Qed.

Lemma parse_fields_ok ls : ∀ fuel body,
  Forall (λ l, l ≠ [] ∧ Forall (λ c, c ≠ 13) l) ls → (length ls < fuel)%nat →
  parse_fields fuel ((ls ≫= (λ l, l ++ crlf)) ++ crlf ++ body) = Some (ls, body).
Proof.
  induction ls as [|l ls IH]; intros fuel body Hls Hf; (destruct fuel as [|fuel]; [cbn in Hf; lia|]); cbn [parse_fields].
  - done.
  - apply Forall_cons in Hls as [[Hne Hl] Hls]. rewrite bind_cons, <- !app_assoc, split_crlf_line by done.
    rewrite IH by (first [done|cbn in Hf; lia]). by destruct l.
Qed.

Lemma fields_length (ls : list (list Z)) : (length ls <= length (ls ≫= (λ l, l ++ crlf)))%nat.
Proof. induction ls as [|l ls IH]; [done|]. rewrite bind_cons, !length_app. cbn [length crlf]. lia. Qed.

Lemma responds_ok status line ls body :
  Forall (λ l, l ≠ [] ∧ Forall (λ c, c ≠ 13) l) (line :: ls) →
  prefix_of (bytes_of "HTTP/1.0 ") line = true → atoi_value (drop 9 line) = status →
  content_length ls = Some (Z.of_nat (length body)) →
  responds (((line :: ls) ≫= (λ l, l ++ crlf)) ++ crlf ++ body) status body.
Proof.
  intros Hls Hp Hs Hc. exists ls. split; [|done]. unfold parse_response.
  rewrite parse_fields_ok by (first [done|rewrite length_app; pose proof (fields_length (line :: ls)); lia]). by rewrite Hp, Hs.
Qed.

Lemma atoi_digits_app acc l1 l2 :
  Forall (λ c, 48 <= c <= 57) l1 → atoi_digits acc (l1 ++ l2) = atoi_digits (atoi_digits acc l1) l2.
Proof.
  intros H. revert acc. induction H as [|c l1 Hc _ IH]; intros acc; [done|]. cbn [app atoi_digits].
  rewrite (proj2 (andb_true_iff _ _)) by lia. apply IH.
Qed.
Lemma digits_range k n : 0 <= n → Forall (λ c, 48 <= c <= 57) (digits_of k n).
Proof.
  revert n. induction k as [|k IH]; intros n Hn; cbn [digits_of]; [apply Forall_nil_2|].
  destruct (Z.ltb_spec n 10); [by apply Forall_singleton; lia|].
  pose proof (Z.mod_pos_bound n 10 ltac:(lia)). apply Forall_app. split; [apply IH, Z.div_pos; lia|]. apply Forall_singleton. lia.
Qed.
Lemma atoi_digits_of k n : 0 <= n < 10 ^ Z.of_nat k → atoi_digits 0 (digits_of k n) = n.
Proof.
  revert n. induction k as [|k IH]; intros n Hn; [cbn in *; lia|]. cbn [digits_of].
  destruct (Z.ltb_spec n 10) as [Hlt|Hge].
  - cbn [atoi_digits]. rewrite (proj2 (andb_true_iff _ _)) by lia. lia.
  - pose proof (Z.mod_pos_bound n 10 ltac:(lia)). pose proof (Z.div_mod n 10 ltac:(lia)).
    assert (0 <= n / 10 < 10 ^ Z.of_nat k) as Hd.
    { split; [apply Z.div_pos; lia|]. apply Z.div_lt_upper_bound; [lia|]. rewrite Nat2Z.inj_succ, Z.pow_succ_r in Hn by lia. lia. }
    rewrite atoi_digits_app, IH by (first [done|apply digits_range; lia]). cbn [atoi_digits].
    rewrite (proj2 (andb_true_iff _ _)) by lia. lia.
Qed.
(** [atoi] reads back what [%d] printed. *)
Lemma atoi_decimal n : 0 <= n < 10 ^ 20 → atoi_value (decimal n) = n.
Proof.
  intros Hn. unfold decimal. rewrite (proj2 (Z.ltb_ge _ _)) by lia. pose proof (atoi_digits_of 20 n Hn) as Ha.
  pose proof (digits_range 20 n (proj1 Hn)) as Hr. destruct (digits_of 20 n) as [|c l]; [done|]. apply Forall_cons in Hr as [Hc _].
  cbn [atoi_value]. unfold isspace.
  destruct (Z.eqb_spec c 32); [lia|]. destruct (Z.leb_spec 9 c), (Z.leb_spec c 13); try lia; cbn [orb andb];
    (destruct (Z.eqb_spec c 45); [lia|]; destruct (Z.eqb_spec c 43); [lia|done]).
Qed.

Lemma length_field_ok ls n (body : list Z) :
  n = Z.of_nat (length body) → n < 10 ^ 20 → Forall (λ l, prefix_of (bytes_of "Content-Length: ") l = false) ls →
  content_length (ls ++ [bytes_of "Content-Length: " ++ decimal n]) = Some (Z.of_nat (length body)).
Proof.
  intros -> Hn Hls. unfold content_length.
  assert (List.find (prefix_of (bytes_of "Content-Length: ")) (ls ++ [bytes_of "Content-Length: " ++ decimal (Z.of_nat (length body))]) =
    Some (bytes_of "Content-Length: " ++ decimal (Z.of_nat (length body)))) as ->.
  { induction Hls as [|l ls Hl _ IH]; [done|]. cbn [app List.find]. by rewrite Hl. }
  f_equal. apply (atoi_decimal (Z.of_nat (length body))). lia.
Qed.
Lemma decimal_no_cr n : 0 <= n → Forall (λ c, c ≠ 13) (decimal n).
Proof.
  intros Hn. unfold decimal. rewrite (proj2 (Z.ltb_ge _ _)) by lia. eapply Forall_impl; [by apply digits_range|]. cbn. lia.
Qed.

Lemma length_line_ok n : 0 <= n → bytes_of "Content-Length: " ++ decimal n ≠ [] ∧ Forall (λ c, c ≠ 13) (bytes_of "Content-Length: " ++ decimal n).
Proof.
  intros Hn. split; [done|]. apply Forall_app. split; [|by apply decimal_no_cr]. apply (bool_decide_unpack _). vm_compute. exact I.
Qed.

(** An error page is a complete response. *)
Lemma error_responds cause errnum shortmsg longmsg status :
  prefix_of (bytes_of "HTTP/1.0 ") (bytes_of "HTTP/1.0 " ++ errnum ++ bytes_of " " ++ shortmsg) = true →
  atoi_value (errnum ++ bytes_of " " ++ shortmsg) = status →
  Forall (λ c, c ≠ 13) (bytes_of "HTTP/1.0 " ++ errnum ++ bytes_of " " ++ shortmsg) →
  Z.of_nat (length (error_body cause errnum shortmsg longmsg)) < 10 ^ 20 →
  responds (error_text cause errnum shortmsg longmsg) status (error_body cause errnum shortmsg longmsg).
Proof.
  intros Hp Hs Hcr Hn. set (body := error_body cause errnum shortmsg longmsg) in *.
  replace (error_text cause errnum shortmsg longmsg) with
    (([bytes_of "HTTP/1.0 " ++ errnum ++ bytes_of " " ++ shortmsg; bytes_of "Content-Type: text/html";
       bytes_of "Content-Length: " ++ decimal (Z.of_nat (length body))] ≫= (λ l, l ++ crlf)) ++ crlf ++ body).
  2:{ unfold error_text. fold body. rewrite !bind_cons. cbn [mbind list_bind]. rewrite app_nil_r, <- !app_assoc. done. }
  apply responds_ok; [|done|done|].
  - repeat apply Forall_cons_2; [by split|split; [done|]|apply length_line_ok; lia|apply Forall_nil_2].
    apply (bool_decide_unpack _). vm_compute. exact I.
  - apply (length_field_ok [bytes_of "Content-Type: text/html"]); [done|done|]. apply Forall_singleton. vm_compute. reflexivity.
Qed.

Lemma filetype_no_cr filename : Forall (λ c, c ≠ 13) (request_get_filetype filename).
Proof. unfold request_get_filetype. repeat case_match; apply (bool_decide_unpack _); vm_compute; exact I. Qed.

(** So is a page. *)
Lemma static_responds filename f : Z.of_nat (length (f_bytes f)) < 10 ^ 20 → responds (static_text filename f) 200 (f_bytes f).
Proof.
  intros Hn. set (len := bytes_of "Content-Length: " ++ decimal (Z.of_nat (length (f_bytes f)))).
  replace (static_text filename f) with
    (([bytes_of "HTTP/1.0 200 OK"; bytes_of "Server: OSTEP WebServer"; len;
       bytes_of "Content-Type: " ++ request_get_filetype filename] ≫= (λ l, l ++ crlf)) ++ crlf ++ f_bytes f).
  2:{ unfold static_text, ok_header, len. rewrite !bind_cons. cbn [mbind list_bind]. rewrite app_nil_r, <- !app_assoc. done. }
  apply responds_ok; [|done|done|].
  - repeat apply Forall_cons_2; [..|apply Forall_nil_2].
    + split; [done|]. apply (bool_decide_unpack _). vm_compute. exact I.
    + split; [done|]. apply (bool_decide_unpack _). vm_compute. exact I.
    + apply length_line_ok. lia.
    + split; [done|]. apply Forall_app. split; [|apply filetype_no_cr]. apply (bool_decide_unpack _). vm_compute. exact I.
  - pose proof (length_field_ok [bytes_of "Server: OSTEP WebServer"] _ (f_bytes f) eq_refl Hn) as H. unfold content_length in *.
    cbn [app] in H. fold len in H. cbn [List.find] in *. rewrite <- H; [|apply Forall_singleton; vm_compute; reflexivity].
    by destruct (prefix_of (bytes_of "Content-Length: ") len).
Qed.

(** The files and programs that [request_parse_uri] finds are the ones the URI stands for. *)
Lemma split_at_spec c s : match split_at c s with (l, None) => l = s ∧ c ∉ s | (l, Some r) => s = l ++ c :: r ∧ c ∉ l end.
Proof.
  induction s as [|x s IH]; cbn [split_at]; [split; [done|apply not_elem_of_nil]|].
  destruct (Z.eqb_spec x c) as [->|Hne]; [split; [done|apply not_elem_of_nil]|].
  destruct (split_at c s) as [l [r|]]; destruct IH as [-> Hn]; (split; [done|]); by apply not_elem_of_cons.
Qed.
Lemma target_resolves uri : resolves uri (target uri).1.1 (target uri).1.2 (target uri).2.
Proof.
  unfold target. destruct (strstr uri (bytes_of "cgi")) eqn:Hcgi; cbn [negb].
  - pose proof (split_at_spec 63 uri) as H. destruct (split_at 63 uri) as [l [r|]]; destruct H as [-> Hn]; cbn [fst snd default].
    + by apply resolves_program_args.
    + by apply resolves_program.
  - cbn [fst snd]. case_decide as Hl.
    + apply last_Some in Hl as [path ->].
      replace ((46 :: path ++ [47]) ++ bytes_of "index.html") with (bytes_of "." ++ path ++ bytes_of "/index.html")
        by (cbn [app]; by rewrite <- app_assoc).
      by apply resolves_dir.
    + rewrite app_nil_r. by apply resolves_file.
Qed.

Lemma error_body_length cause errnum shortmsg longmsg :
  (length (error_body cause errnum shortmsg longmsg) <= 200 + length cause + length errnum + length shortmsg + length longmsg)%nat.
Proof. unfold error_body. rewrite !length_app. lits. cbn [length crlf]. lia. Qed.

Lemma answer_replies files can_open cgi method uri :
  (∀ filename f, files filename = Some f → f_reg f = true → deliverable can_open filename f) → short method → short uri →
  reply files cgi method uri (answer files cgi method uri).
Proof.
  intros Hdel Hm Hu. unfold answer, short in *.
  assert (∀ cause errnum shortmsg longmsg, Z.of_nat (length cause) <= 8000 → (length errnum + length shortmsg + length longmsg <= 200)%nat →
    Z.of_nat (length (error_body cause errnum shortmsg longmsg)) < 10 ^ 20) as Hlen.
  { intros cause errnum shortmsg longmsg Hc He. pose proof (error_body_length cause errnum shortmsg longmsg). lia. }
  destruct (same_nocase method (bytes_of "GET")) eqn:Hget; cbn [negb].
  2:{ eapply reply_not_get; [done|]. apply error_responds; [vm_compute; reflexivity|vm_compute; reflexivity| |apply Hlen; [lia|lits; lia]].
      apply (bool_decide_unpack _). vm_compute. exact I. }
  pose proof (target_resolves uri) as Hres. pose proof (target_length uri) as Hl.
  destruct (target uri) as [[b filename] args]. cbn [fst snd] in Hres.
  destruct (files filename) as [f|] eqn:Hf.
  2:{ eapply reply_missing; [done|exact Hres|done|]. apply error_responds; [vm_compute; reflexivity|vm_compute; reflexivity| |apply Hlen; [lia|lits; lia]].
      apply (bool_decide_unpack _). vm_compute. exact I. }
  destruct (f_reg f && (if b then f_rusr f else f_xusr f)) eqn:Hperm; cbn [negb].
  2:{ eapply reply_forbidden; [done|exact Hres|done|by apply andb_false_iff|]. apply error_responds; [vm_compute; reflexivity|vm_compute; reflexivity| |].
      - apply (bool_decide_unpack _). vm_compute. exact I.
      - apply Hlen; [lia|]. destruct b; lits; lia. }
  apply andb_true_iff in Hperm as [Hreg Hp]. destruct b.
  - assert (args = []) as -> by (by inversion Hres). eapply reply_file; [done|exact Hres|done|done|done|].
    apply static_responds. destruct (Hdel filename f Hf Hreg). lia.
  - unfold ok_header. rewrite <- !app_assoc. by eapply reply_program.
Qed.

(** C26: The server's answers.  Connections come in one after the other, each with a complete
    request: a first line of three words, the first two of at most 7,900 bytes, then at most
    [nh] header lines that each fit in the buffer, then an empty line.  The system calls
    succeed, no write is short, and regular files are not empty and below 2 GB.  Then the loop
    of the server, with two turns of fuel more than there are header lines, comes back to
    [accept], and every connection got the answer its request calls for: read back by a
    parser, it is a response whose Content-Length is the length of its body, with status 501
    for a method other than GET, 404 when there is no such file, 403 when it is not regular or
    not permitted, and otherwise 200 with exactly the bytes of the file; a program's output
    follows the status line and the Server field. *)
Theorem server_answers wr files can_open ps cgi nh j reqs :
  (∀ n, 2 ^ 31 <= wr n) → procs_ok ps → buffers_ok j →
  (∀ filename f, files filename = Some f → f_reg f = true → deliverable can_open filename f) →
  Forall (λ r : wst * bool * (list Z * list Z), request_ok nh r.1 r.2.1 r.2.2) reqs →
  ∃ outs, serve wr files can_open ps cgi (nh + 2) j (reqs.*1) [] = COk tt outs ∧
    Forall2 (λ (r : wst * bool * (list Z * list Z)) out, reply files cgi r.2.1 r.2.2 out) reqs outs.
Proof.
  intros Hwr Hps [Hb1 Hb2] Hdel Hreqs.
  exists ((λ r : wst * bool * (list Z * list Z), answer files cgi r.2.1 r.2.2) <$> reqs). split.
  2:{ apply Forall2_fmap_r. clear -Hreqs Hdel. induction Hreqs as [|r reqs [_ Hm [Hu _]] _ IH]; constructor; [|done].
      by eapply answer_replies. }
  enough (∀ done, serve wr files can_open ps cgi (nh + 2) j (reqs.*1) done =
    COk tt (done ++ ((λ r : wst * bool * (list Z * list Z), answer files cgi r.2.1 r.2.2) <$> reqs))) as H by apply (H []).
  induction Hreqs as [|[c [method uri]] reqs Hr _ IH]; intros done; cbn [fmap list_fmap serve fst snd].
  { by rewrite app_nil_r. }
  destruct Hr as [(l & hs & rest & eof & version & Hc & Hl & Hw & Hh & Hn) Hm [Hu Hne]]. cbn [fst snd] in *. subst c.
  destruct (handle_ok wr files can_open ps cgi Hwr (nh + 2) j l hs rest eof method uri version) as (i & ws & log & Heq & _);
    try done; [lia|].
  cbn zeta in Heq. rewrite Heq. cbn [w_out]. rewrite IH. by rewrite <- app_assoc.
Qed.

(** Two files and a program. *)
Definition demo_files (p : list Z) : option fstat :=
  if decide (p = bytes_of "./index.html") then Some (FStat true true false (bytes_of "<p>hello</p>" ++ [10]))
  else if decide (p = bytes_of "./spin.cgi") then Some (FStat true true true [1]) else None.
Definition demo_cgi (p args : list Z) : list Z := bytes_of "ran " ++ p ++ bytes_of " on " ++ args.
Definition demo_requests : list (wst * bool * (list Z * list Z)) :=
  [(WSt (lines [bytes_of "GET / HTTP/1.0" ++ [13]; bytes_of "host: here" ++ [13]] ++ crlf ++ []) true [] 0 [], true, (bytes_of "GET", bytes_of "/"));
   (WSt (lines [bytes_of "get /spin.cgi?5 HTTP/1.0"] ++ crlf ++ []) true [] 0 [], true, (bytes_of "get", bytes_of "/spin.cgi?5"));
   (WSt (lines [bytes_of "PUT /x HTTP/1.0" ++ [13]] ++ crlf ++ []) true [] 0 [], true, (bytes_of "PUT", bytes_of "/x"))].

Definition demo_procs : procs := Procs true true (λ _, true) true (λ _, true).

Lemma server_answers_witness :
  ∃ outs, serve (λ _, 2 ^ 31) demo_files (λ _, true) demo_procs demo_cgi (1 + 2) (Buffers (replicate maxbuf 7) (replicate maxbuf 7) [] [] [])
      demo_requests.*1 [] = COk tt outs ∧ length outs = 3%nat.
Proof.
  destruct (server_answers (λ _, 2 ^ 31) demo_files (λ _, true) demo_procs demo_cgi 1 (Buffers (replicate maxbuf 7) (replicate maxbuf 7) [] [] []) demo_requests)
    as (outs & Hs & Hr).
  6:{ exists outs. split; [exact Hs|]. apply Forall2_length in Hr. rewrite <- Hr. reflexivity. }
  - intros n. reflexivity.
  - done.
  - split; apply length_replicate.
  - intros p f. unfold demo_files. repeat case_decide; intros [= <-] _; (split; [reflexivity|]); cbn; lia.
  - assert (∀ x, plain x → Z.of_nat (length x) + 2 <= MAXBUF → line_ok x) as Hok by (by split).
    repeat apply Forall_cons_2; [..|apply Forall_nil_2]; (split; [|vm_compute; discriminate|split; [vm_compute; discriminate|discriminate]]).
    + eexists _, [_], [], true, _. split; [reflexivity|]. split; [apply Hok; [apply (bool_decide_unpack _)|]; vm_compute; first [exact I|discriminate]|].
      split; [vm_compute; reflexivity|]. split; [|cbn; lia]. apply Forall_singleton. split; [|discriminate].
      apply Hok; [apply (bool_decide_unpack _)|]; vm_compute; first [exact I|discriminate].
    + eexists _, [], [], true, _. split; [reflexivity|]. split; [apply Hok; [apply (bool_decide_unpack _)|]; vm_compute; first [exact I|discriminate]|].
      split; [vm_compute; reflexivity|]. split; [apply Forall_nil_2|cbn; lia].
    + eexists _, [], [], true, _. split; [reflexivity|]. split; [apply Hok; [apply (bool_decide_unpack _)|]; vm_compute; first [exact I|discriminate]|].
      split; [vm_compute; reflexivity|]. split; [apply Forall_nil_2|cbn; lia].
Defined.

(** * A client that closes the connection too early *)

Lemma end_buf_length (buf : list Z) : length buf = maxbuf → length (0 :: drop 1 buf) = maxbuf.
Proof. intros H. cbn [length]. rewrite length_drop, H. reflexivity. Qed.

(** At the end of the stream every line is empty. *)
Lemma headers_at_end fuel : ∀ r out ws log,
  length (0 :: r) = maxbuf → headers_loop fuel (0 :: r) (WSt [] true out ws log) = CHang.
Proof.
  induction fuel as [|fuel IH]; intros r out ws log Hr; [done|]. cbn [headers_loop].
  erewrite cbind_ok by (apply (str_ok []); apply Forall_nil_2). rewrite bool_decide_eq_false_2 by done.
  erewrite cbind_ok by (apply (readline_eof []); [split; [apply Forall_nil_2|done]|done|done]).
  cbn [snd app length Nat.add drop]. apply IH. done.
Qed.

Lemma headers_loop_hang hs : ∀ h fuel r out ws log,
  Forall header_ok (h :: hs) → length (h ++ [10; 0] ++ r) = maxbuf →
  headers_loop fuel (h ++ [10; 0] ++ r) (WSt (lines hs) true out ws log) = CHang.
Proof.
  induction hs as [|h' hs IH]; intros h fuel r out ws log Hh Hr; (destruct fuel as [|fuel]; [done|]);
    apply Forall_cons in Hh as [[Hok Hne] Hh]; cbn [headers_loop];
    rewrite (cbind_ok _ _ _ _ _ (str_line h r _ (proj1 Hok))), bool_decide_eq_false_2
      by (intros E; apply (app_inj_tail _ [13]) in E as [E _]; done).
  - erewrite cbind_ok by (apply (readline_eof []); [split; [apply Forall_nil_2|done]|done|done]).
    cbn [snd app length Nat.add]. apply headers_at_end, end_buf_length. assumption.
  - rewrite lines_cons. apply Forall_cons in Hh as Hh'. destruct Hh' as [[Hok' _] _].
    rewrite (cbind_ok _ _ _ _ _ (readline_nl h' _ _ _ out ws log Hok' Hr)). cbn [snd].
    apply IH; [done|by apply line_buf_length].
Qed.

(** C40: The server does not survive a client that closes the connection before the empty
    line: whatever header lines it has sent, [request_handle] reads empty lines for ever,
    with any amount of fuel, and no other client is served. *)
Theorem early_close_hangs wr files can_open ps cgi fuel j l hs method uri version :
  buffers_ok j → line_ok l → first_words (l ++ [10]) = Some (method, uri, version) →
  same_nocase method (bytes_of "GET") = true → Forall header_ok hs →
  request_handle wr files can_open ps cgi fuel j (WSt (lines (l :: hs)) true [] 0 []) = CHang.
Proof.
  intros [Hb1 Hb2] Hl Hw Hget Hh. unfold request_handle. rewrite lines_cons.
  rewrite (cbind_ok _ _ _ _ _ (readline_nl l _ _ _ _ _ _ Hl Hb1)). cbn [snd].
  rewrite (cbind_ok _ _ _ _ _ (str_line l _ _ (proj1 Hl))).
  assert (∀ (s : wst), scan3 (l ++ [10]) (b_method j) (b_uri j) (b_version j) s = COk (method, uri, version) s) as Hscan.
  { intros s. unfold first_words in Hw. unfold scan3. repeat case_match; try done. by simplify_eq. }
  rewrite (cbind_ok _ _ _ _ _ (Hscan _)). erewrite cbind_ok by reflexivity. rewrite Hget. cbn [negb w_in w_eof w_out w_writes w_log].
  unfold cbind at 1. enough (request_read_headers fuel (b_hdr j) (WSt (lines hs) true [] 0 ([] ++ bytes_of "method:" ++ method ++ bytes_of " uri:" ++ uri ++ bytes_of " version:" ++ version ++ [10])) = CHang) as ->; [done|].
  unfold request_read_headers. destruct hs as [|h hs].
  - erewrite cbind_ok by (apply (readline_eof []); [split; [apply Forall_nil_2|done]|done|done]).
    cbn [snd app length Nat.add]. apply headers_at_end, end_buf_length. assumption.
  - rewrite lines_cons. apply Forall_cons in Hh as Hh'. destruct Hh' as [[Hok' _] _].
    rewrite (cbind_ok _ _ _ _ _ (readline_nl h _ _ _ _ _ _ Hok' Hb2)). cbn [snd].
    apply headers_loop_hang; [done|by apply line_buf_length].
Qed.

Lemma early_close_hangs_witness :
  request_handle (λ _, 2 ^ 31) demo_files (λ _, true) demo_procs demo_cgi 1000 (Buffers (replicate maxbuf 7) (replicate maxbuf 7) [] [] [])
    (WSt (lines [bytes_of "GET / HTTP/1.0"]) true [] 0 []) = CHang.
Proof.
  apply (early_close_hangs _ _ _ _ _ _ _ _ [] (bytes_of "GET") (bytes_of "/") (bytes_of "HTTP/1.0"));
    [split; apply length_replicate| |vm_compute; reflexivity|vm_compute; reflexivity|apply Forall_nil_2].
  split; [apply (bool_decide_unpack _); vm_compute; exact I|vm_compute; discriminate].
Defined.

(** * Requests that break the server *)

(** A method of 8,150 bytes: the body of the error message does not fit in its buffer. *)
Lemma long_method_overflows fuel :
  request_handle (λ _, 2 ^ 31) demo_files (λ _, true) demo_procs demo_cgi fuel (Buffers (replicate maxbuf 7) (replicate maxbuf 7) [] [] [])
    (WSt (replicate (Z.to_nat 8150) 65 ++ bytes_of " / HTTP/1.0" ++ crlf ++ crlf) true [] 0 []) = CUndef.
Proof. vm_compute. reflexivity. Qed.
(** A file without bytes cannot be mapped, and the [assert] stops the server. *)
Lemma empty_file_aborts :
  match request_handle (λ _, 2 ^ 31) (λ _, Some (FStat true true false [])) (λ _, true) demo_procs demo_cgi 3
    (Buffers (replicate maxbuf 7) (replicate maxbuf 7) [] [] []) (WSt (bytes_of "GET /empty HTTP/1.0" ++ crlf ++ crlf) true [] 0 []) with
  | CAssert _ => True
  | _ => False
  end.
Proof. vm_compute. exact I. Qed.

(** * The client *)

(** What [client_print] shows of the header. *)
Definition shown_headers (hs : list (list Z)) : list Z := hs ≫= (λ h, bytes_of "Header: " ++ h ++ [10]).

Definition nonempty_line (l : list Z) : Prop := line_ok l ∧ l ≠ [].

Lemma positive_length (l : list Z) : l ≠ [] → (0 <? Z.of_nat (length l)) = true.
Proof. intros H. apply Z.ltb_lt. destruct l; [done|]. cbn [length]. lia. Qed.

Lemma client_headers_ok hs : ∀ h fuel r rest out ws log,
  Forall (λ h, header_ok h ∧ h ≠ []) (h :: hs) → (S (length hs) < fuel)%nat → length (h ++ [10; 0] ++ r) = maxbuf →
  ∃ buf, client_headers fuel (Z.of_nat (length h)) (h ++ [10; 0] ++ r) (WSt (lines hs ++ crlf ++ rest) true out ws log) =
    COk buf (WSt rest true out ws (log ++ shown_headers (h :: hs))) ∧ length buf = maxbuf.
Proof.
  assert (line_ok [13]) as Hcr by (split; [by repeat constructor|unfold MAXBUF; cbn; lia]).
  induction hs as [|h' hs IH]; intros h fuel r rest out ws log Hh Hf Hr;
    (destruct fuel as [|fuel]; [cbn in Hf; lia|]); apply Forall_cons in Hh as [[[Hok Hne] Hemp] Hh]; cbn [client_headers];
    rewrite (cbind_ok _ _ _ _ _ (str_line h r _ (proj1 Hok))), bool_decide_eq_false_2
      by (intros E; apply (app_inj_tail _ [13]) in E as [E _]; done); rewrite positive_length by done; cbn [negb andb];
    erewrite cbind_ok by reflexivity; cbn [w_in w_eof w_out w_writes w_log]; unfold shown_headers; rewrite bind_cons.
  - cbn [lines mbind list_bind app]. change (crlf ++ rest) with ([13] ++ 10 :: rest).
    rewrite (cbind_ok _ _ _ _ _ (readline_nl [13] _ rest _ _ _ _ Hcr Hr)). cbn [fst snd].
    destruct fuel as [|fuel]; [cbn in Hf; lia|]. cbn [client_headers].
    rewrite (cbind_ok _ _ _ _ _ (str_line [13] _ _ (proj1 Hcr))), bool_decide_eq_true_2 by done. cbn [negb andb].
    eexists. split; [by rewrite app_nil_r|]. by apply line_buf_length.
  - rewrite lines_cons, <- app_assoc. cbn [app]. apply Forall_cons in Hh as Hh'. destruct Hh' as [[[Hok' _] _] _].
    rewrite (cbind_ok _ _ _ _ _ (readline_nl h' _ _ _ _ _ _ Hok' Hr)). cbn [fst snd].
    edestruct (IH h' fuel) as (buf & Heq & Hb); [done|cbn in Hf; lia|by apply (line_buf_length h')|].
    exists buf. split; [|done]. rewrite Heq. by rewrite <- app_assoc.
Qed.

(** The body: lines that are not empty, and at the end a part without a newline that is
    not a single byte. *)
Lemma client_body_ok bs : ∀ fuel buf last out ws log,
  Forall nonempty_line bs → line_ok last → length last ≠ 1%nat → (length bs + 1 < fuel)%nat → length buf = maxbuf →
  ∃ buf', (r <- readline_or_die buf MAXBUF ;; client_body fuel r.1 r.2) (WSt (lines bs ++ last) true out ws log) =
    COk buf' (WSt [] true out ws (log ++ lines bs ++ last)).
Proof.
  induction bs as [|b bs IH]; intros fuel buf last out ws log Hbs Hl H1 Hf Hb.
  - cbn [lines mbind list_bind app]. rewrite (cbind_ok _ _ _ _ _ (readline_eof last buf out ws log Hl Hb H1)). cbn [fst snd].
    destruct fuel as [|fuel]; [cbn in Hf; lia|]. cbn [client_body]. destruct (decide (last = [])) as [->|Hne].
    { cbn. exists tt. by rewrite app_nil_r. }
    rewrite positive_length by done. erewrite cbind_ok by (apply str_ok, plain_nonzero, Hl). erewrite cbind_ok by reflexivity.
    cbn [w_in w_eof w_out w_writes w_log].
    erewrite cbind_ok by (apply (readline_eof []); [split; [apply Forall_nil_2|done]|by apply (eof_buf_length last buf)|done]).
    destruct fuel as [|fuel]; [cbn in Hf; lia|]. cbn. by exists tt.
  - apply Forall_cons in Hbs as [[Hok Hne] Hbs]. rewrite lines_cons, <- app_assoc. cbn [app].
    rewrite (cbind_ok _ _ _ _ _ (readline_nl b _ _ _ _ _ _ Hok Hb)). cbn [fst snd].
    destruct fuel as [|fuel]; [cbn in Hf; lia|]. cbn [client_body]. rewrite positive_length by done.
    rewrite (cbind_ok _ _ _ _ _ (str_line b _ _ (proj1 Hok))). erewrite cbind_ok by reflexivity. cbn [w_in w_eof w_out w_writes w_log].
    edestruct (IH fuel) as (buf' & Heq); [done|exact Hl|done|cbn in Hf; lia|by apply (line_buf_length b)|].
    exists buf'. rewrite Heq. by rewrite <- !app_assoc.
Qed.

Lemma client_print_ok hs bs last fuel junk out ws log :
  Forall (λ h, header_ok h ∧ h ≠ []) hs → hs ≠ [] → Forall nonempty_line bs → line_ok last → length last ≠ 1%nat →
  (length hs + length bs + 2 < fuel)%nat → length junk = maxbuf →
  client_print fuel junk (WSt (lines hs ++ crlf ++ lines bs ++ last) true out ws log) =
  COk tt (WSt [] true out ws (log ++ shown_headers hs ++ lines bs ++ last)).
Proof.
  intros Hh Hne Hbs Hl H1 Hf Hj. destruct hs as [|h hs]; [done|]. unfold client_print. rewrite lines_cons, <- app_assoc. cbn [app].
  apply Forall_cons in Hh as Hh'. destruct Hh' as [[[Hok _] _] _].
  rewrite (cbind_ok _ _ _ _ _ (readline_nl h _ _ _ _ _ _ Hok Hj)). cbn [fst snd].
  edestruct (client_headers_ok hs h fuel) as (buf & Heq & Hb); [done|cbn in Hf; lia|by apply (line_buf_length h)|].
  rewrite (cbind_ok _ _ _ _ _ Heq).
  edestruct (client_body_ok bs fuel buf last) as ([] & Heq2); [done|done|done|cbn in Hf; lia|done|].
  rewrite Heq2. by rewrite <- !app_assoc.
Qed.

(** * A page from the server to the client *)

Definition word (w : list Z) : Prop := Forall (λ c, isspace c = false ∧ c ≠ 0) w.

Lemma word_plain w : word w → plain w.
Proof. intros H. eapply Forall_impl; [exact H|]. intros c [Hc Hz]. split; [|done]. intros ->. done. Qed.

Lemma scan_word_ok w c r : word w → w ≠ [] → isspace c = true → scan_word (w ++ c :: r) = Some (w, c :: r).
Proof.
  intros Hw Hne Hc. unfold scan_word. destruct w as [|x w]; [done|]. cbn [app skip_space].
  pose proof Hw as Hw'. apply Forall_cons in Hw' as [[Hx _] _]. rewrite Hx.
  change (x :: w ++ c :: r) with ((x :: w) ++ c :: r). f_equal. clear Hne Hx. revert Hw. generalize (x :: w). clear x w.
  induction l as [|x w IH]; intros Hw; cbn [app word_of]; [by rewrite Hc|].
  apply Forall_cons in Hw as [[Hx _] Hw]. by rewrite Hx, IH.
Qed.

Lemma request_words path :
  word path → path ≠ [] →
  first_words ((bytes_of "GET " ++ path ++ bytes_of " HTTP/1.1") ++ [10]) = Some (bytes_of "GET", path, bytes_of "HTTP/1.1").
Proof.
  intros Hw Hne. unfold first_words. change (bytes_of "GET ") with (bytes_of "GET" ++ [32]).
  change (bytes_of " HTTP/1.1") with (32 :: bytes_of "HTTP/1.1"). rewrite <- !app_assoc. cbn [app].
  rewrite scan_word_ok; [|apply (bool_decide_unpack _); vm_compute; exact I|done|done].
  change (scan_word (32 :: path ++ 32 :: bytes_of "HTTP/1.1" ++ [10])) with (scan_word (path ++ 32 :: bytes_of "HTTP/1.1" ++ [10])).
  rewrite scan_word_ok by done. change (scan_word (32 :: bytes_of "HTTP/1.1" ++ [10])) with (scan_word (bytes_of "HTTP/1.1" ++ 10 :: [])).
  rewrite scan_word_ok; [done|apply (bool_decide_unpack _); vm_compute; exact I|done|done].
Qed.

Lemma digits_plain k n : 0 <= n → plain (digits_of k n).
Proof.
  revert n. induction k as [|k IH]; intros n Hn; cbn [digits_of]; [apply Forall_nil_2|].
  destruct (Z.ltb_spec n 10); [by apply Forall_singleton; lia|].
  pose proof (Z.mod_pos_bound n 10 ltac:(lia)). apply Forall_app. split; [apply IH, Z.div_pos; lia|]. apply Forall_singleton. lia.
Qed.

(** Put concatenations in right-nested form. *)
Ltac app_norm := repeat (progress (rewrite <- ?app_assoc; cbn [app])).

(** The header lines of a page. *)
Definition page_headers (filename : list Z) (f : fstat) : list (list Z) :=
  [bytes_of "HTTP/1.0 200 OK" ++ [13]; bytes_of "Server: OSTEP WebServer" ++ [13];
   bytes_of "Content-Length: " ++ decimal (Z.of_nat (length (f_bytes f))) ++ [13];
   bytes_of "Content-Type: " ++ request_get_filetype filename ++ [13]].

Lemma static_text_lines filename f : static_text filename f = lines (page_headers filename f) ++ crlf ++ f_bytes f.
Proof. unfold page_headers. rewrite !lines_cons. unfold lines, static_text, ok_header, crlf. cbn [mbind list_bind app].
  by app_norm. Qed.

Lemma page_headers_ok filename f : Forall (λ h, header_ok h ∧ h ≠ []) (page_headers filename f).
Proof.
  assert (∀ a b, plain a → (2 <= length a <= 100)%nat → plain b → (length b <= 100)%nat → header_ok (a ++ b ++ [13]) ∧ a ++ b ++ [13] ≠ []) as H.
  { intros a b Ha Hla Hb Hlb. destruct a as [|x [|y a]]; [cbn in Hla; lia..|]. split; [|done]. split; [|done]. split.
    - apply Forall_app. split; [done|]. apply Forall_app. split; [done|]. by repeat constructor.
    - rewrite !length_app. cbn [length] in *. unfold MAXBUF. lia. }
  assert (∀ s, bool_decide (plain (bytes_of s)) = true → plain (bytes_of s)) as Hlit by (intros s; apply bool_decide_eq_true).
  assert (plain (request_get_filetype filename) ∧ (length (request_get_filetype filename) <= 100)%nat) as [Hp Hl].
  { unfold request_get_filetype. repeat case_match; (split; [apply Hlit; vm_compute; reflexivity|lits; lia]). }
  unfold page_headers. repeat apply Forall_cons_2; [..|apply Forall_nil_2].
  - apply (H _ []); [apply Hlit; vm_compute; reflexivity|lits; lia|apply Forall_nil_2|cbn; lia].
  - apply (H _ []); [apply Hlit; vm_compute; reflexivity|lits; lia|apply Forall_nil_2|cbn; lia].
  - apply H; [apply Hlit; vm_compute; reflexivity|lits; lia| |pose proof (length_decimal (Z.of_nat (length (f_bytes f)))); lia].
    unfold decimal. rewrite (proj2 (Z.ltb_ge _ _)) by lia. apply digits_plain. lia.
  - apply H; [apply Hlit; vm_compute; reflexivity|lits; lia|done|done].
Qed.

(** The request a client sends for a path. *)
Definition get_request (path host : list Z) : list Z :=
  bytes_of "GET " ++ path ++ bytes_of " HTTP/1.1" ++ [10] ++ bytes_of "host: " ++ host ++ [10] ++ crlf.

Lemma get_request_lines path host :
  get_request path host = lines [bytes_of "GET " ++ path ++ bytes_of " HTTP/1.1"; bytes_of "host: " ++ host] ++ crlf ++ [].
Proof. unfold get_request. rewrite !lines_cons. unfold lines, crlf. cbn [mbind list_bind app]. by app_norm. Qed.

(** C33: A page gets from the server to the screen.  The request "GET path HTTP/1.1" with a host
    line arrives at a server that has a static page there which it may read (regular files not
    empty and below 2 GB, no short writes); [request_handle] answers, and [client_print], given
    the answer, prints the header lines and then the bytes of the page, provided that these
    are text with no empty line, no line longer than a buffer, and not just one byte behind
    the last newline ([client_loses_lines] shows what happens otherwise).  The client of the
    repository does not send this or any request in a defined way: [client_send]. *)
Theorem page_delivered wr files can_open ps cgi j path host f bs last fuel junk :
  (∀ n, 2 ^ 31 <= wr n) → procs_ok ps → buffers_ok j → length junk = maxbuf →
  (∀ filename f, files filename = Some f → f_reg f = true → deliverable can_open filename f) →
  word path → path ≠ [] → short path → strstr path (bytes_of "cgi") = false →
  plain host → Z.of_nat (length host) <= 200 →
  let filename := (target path).1.2 in
  files filename = Some f → f_reg f = true → f_rusr f = true →
  f_bytes f = lines bs ++ last → Forall nonempty_line bs → line_ok last → length last ≠ 1%nat → (length bs + 6 < fuel)%nat →
  ∃ s, request_handle wr files can_open ps cgi 4 j (WSt (get_request path host) true [] 0 []) = COk tt s ∧
    client_print fuel junk (WSt (w_out s) true [] 0 []) =
    COk tt (WSt [] true [] 0 (shown_headers (page_headers filename f) ++ f_bytes f)).
Proof.
  intros Hwr Hps [Hb1 Hb2] Hj Hdel Hw Hne Hshort Hcgi Hhost Hhl filename Hf Hreg Husr Hbytes Hbs Hlast H1 Hfuel.
  unfold short in Hshort.
  assert (same_nocase (bytes_of "GET") (bytes_of "GET") = true) as Hget by (vm_compute; reflexivity).
  destruct (handle_ok wr files can_open ps cgi Hwr 4 j (bytes_of "GET " ++ path ++ bytes_of " HTTP/1.1") [bytes_of "host: " ++ host] [] true
    (bytes_of "GET") path (bytes_of "HTTP/1.1")) as (i & ws & log & Heq & _); try done.
  { split; [|rewrite !length_app; lits; unfold MAXBUF; lia].
    repeat (apply Forall_app; split); [apply (bool_decide_unpack _); vm_compute; exact I|by apply word_plain|apply (bool_decide_unpack _); vm_compute; exact I]. }
  { by apply request_words. }
  { apply Forall_singleton. split; [split; [|rewrite !length_app; lits; unfold MAXBUF; lia]|done].
    apply Forall_app. split; [apply (bool_decide_unpack _); vm_compute; exact I|done]. }
  { cbn. lia. }
  cbn zeta in Heq. rewrite <- get_request_lines in Heq. eexists. split; [exact Heq|]. cbn [w_out].
  assert (answer files cgi (bytes_of "GET") path = static_text filename f) as ->.
  { unfold answer. rewrite Hget. cbn [negb]. unfold filename in *. unfold target in *. rewrite Hcgi in *. cbn [negb fst snd] in *.
    rewrite Hf, Hreg, Husr. done. }
  rewrite static_text_lines, Hbytes at 1.
  rewrite (client_print_ok (page_headers filename f) bs last fuel junk); try done; [|apply page_headers_ok|cbn [page_headers length]; lia].
  by rewrite Hbytes.
Qed.

Lemma page_delivered_witness :
  let f := FStat true true false (bytes_of "<p>hello</p>" ++ [10]) in
  ∃ s, request_handle (λ _, 2 ^ 31) demo_files (λ _, true) demo_procs demo_cgi 4 (Buffers (replicate maxbuf 7) (replicate maxbuf 7) [] [] [])
      (WSt (get_request (bytes_of "/") (bytes_of "here")) true [] 0 []) = COk tt s ∧
    client_print 8 (replicate maxbuf 9) (WSt (w_out s) true [] 0 []) =
    COk tt (WSt [] true [] 0 (shown_headers (page_headers (bytes_of "./index.html") f) ++ f_bytes f)).
Proof.
  intros f.
  destruct (page_delivered (λ _, 2 ^ 31) demo_files (λ _, true) demo_procs demo_cgi (Buffers (replicate maxbuf 7) (replicate maxbuf 7) [] [] [])
    (bytes_of "/") (bytes_of "here") f [bytes_of "<p>hello</p>"] [] 8 (replicate maxbuf 9)) as (s & H1 & H2);
    [intros n; reflexivity|done|split; apply length_replicate|apply length_replicate| |apply (bool_decide_unpack _); vm_compute; exact I|discriminate
    |vm_compute; discriminate|vm_compute; reflexivity|apply (bool_decide_unpack _); vm_compute; exact I|vm_compute; discriminate
    |vm_compute; reflexivity|reflexivity|reflexivity|vm_compute; reflexivity| |split; [apply Forall_nil_2|vm_compute; discriminate]|discriminate|cbn; lia|].
  - intros p g. unfold demo_files. repeat case_decide; intros [= <-] _; (split; [reflexivity|]); cbn; lia.
  - apply Forall_singleton. split; [|discriminate]. split; [apply (bool_decide_unpack _); vm_compute; exact I|vm_compute; discriminate].
  - exists s. split; [exact H1|exact H2].
Defined.

(** An empty line of the page ends the output of the client, and so does a single byte at
    the end of the stream. *)
Lemma client_loses_lines :
  match client_print 9 (replicate maxbuf 7) (WSt (bytes_of "h" ++ crlf ++ crlf ++ bytes_of "ab" ++ [10; 10] ++ bytes_of "cd" ++ [10]) true [] 0 []) with
  | COk _ s => w_log s = bytes_of "Header: h" ++ crlf ++ bytes_of "ab" ++ [10] ∧ w_in s = bytes_of "cd" ++ [10]
  | _ => False
  end ∧
  match client_print 9 (replicate maxbuf 7) (WSt (bytes_of "h" ++ crlf ++ crlf ++ bytes_of "ab" ++ [10] ++ bytes_of "c") true [] 0 []) with
  | COk _ s => w_log s = bytes_of "Header: h" ++ crlf ++ bytes_of "ab" ++ [10]
  | _ => False
  end.
Proof. vm_compute. split; [split; reflexivity|reflexivity]. Qed.
