(* ===== verification/Wutils.v ===== *)
(** The utilities of the first project: [wcat] (the first version and the one of the
    course) and [wgrep], with what they print. *)
From stdpp Require Import base list numbers strings.
From Stdlib Require Import ZArith Lia.
From S2P Require Import Prelude CProg.
Local Open Scope Z_scope.
Local Open Scope cprog_scope.

(** The state is what was printed.  [printf("%s", s)] prints the bytes in front of the
    first 0. *)
Fixpoint cstring (l : list Z) : list Z := match l with c :: l' => if c =? 0 then [] else c :: cstring l' | [] => [] end.
Definition put (l : list Z) : C (list Z) unit := λ out, COk tt (out ++ l).

(** [fgets(buf, k + 1, fp)]: at most [k] bytes, up to a newline, and the rest of the
    stream; [NULL] when nothing was read. *)
Fixpoint fgets (k : nat) (s : list Z) : list Z * list Z :=
  match k, s with
  | S k', c :: s' => if c =? 10 then ([c], s') else let '(l, r) := fgets k' s' in (c :: l, r)
  | _, _ => ([], s)
  end.
(** [getline]: a line with its newline; -1 when nothing was read. *)
Fixpoint getline (s : list Z) : list Z * list Z :=
  match s with
  | [] => ([], [])
  | c :: s' => if c =? 10 then ([c], s') else let '(l, r) := getline s' in (c :: l, r)
  end.

Section utils.
(** The files by their names, whether [malloc] succeeds, and the standard input. *)
Context (files : list Z → option (list Z)) (can_malloc : bool) (stdin : list Z).

(** * [wcat.c] *)

Fixpoint wcat_loop (fuel : nat) (s : list Z) : C (list Z) unit :=
  match fuel with
  | O => chang
  | S fuel' =>
      match fgets 19 s with
      | ([], _) => cret tt
      | (l, s) => put (cstring l) ;; wcat_loop fuel' s
      end
  end.
(** One turn of fuel more than there are bytes. *)
Definition wcat_file (s : list Z) : C (list Z) unit := cdefined can_malloc ;; wcat_loop (S (length s)) s.

Fixpoint wcat_args (args : list (list Z)) : C (list Z) Z :=
  match args with
  | [] => cret 0
  | a :: args' =>
      match files a with
      | None => put (bytes_of "wcat: cannot open file" ++ [10]) ;; cret 1
      | Some s => wcat_file s ;; wcat_args args'
      end
  end.
Definition wcat_main (argv : list (list Z)) : C (list Z) Z :=
  if (length argv <? 2)%nat then cret 0 else wcat_args (tail argv).

(** The first version takes one file. *)
Definition wcat1_main (argv : list (list Z)) : C (list Z) Z :=
  if (2 <? length argv)%nat then put (bytes_of "Too many arguments" ++ [10]) ;; cret 1
  else if (length argv <? 2)%nat then put (bytes_of "wcat: file [file ...]" ++ [10]) ;; cret 1
  else
    let filename := argv !!! 1%nat in
    put (bytes_of "Opened the file" ++ [10]) ;;
    match files filename with
    | None => put (bytes_of "Error opening file name " ++ filename ++ [10]) ;; cret 1
    | Some s => wcat_file s ;; put (bytes_of "Closed the file" ++ [10]) ;; cret 0
    end.

(** * [wgrep.c] *)

Fixpoint grep_loop (fuel : nat) (s search_text : list Z) : C (list Z) unit :=
  match fuel with
  | O => chang
  | S fuel' =>
      match getline s with
      | ([], _) => cret tt
      | (l, s) =>
          cwhen (strstr (cstring l) search_text) (put (cstring l)) ;;
          grep_loop fuel' s search_text
      end
  end.
Definition grep (s search_text : list Z) : C (list Z) unit := grep_loop (S (length s)) s search_text.

Fixpoint wgrep_args (search_text : list Z) (args : list (list Z)) : C (list Z) Z :=
  match args with
  | [] => cret 0
  | a :: args' =>
      match files a with
      | None => put (bytes_of "wgrep: cannot open file" ++ [10]) ;; cret 1
      | Some s => grep s search_text ;; wgrep_args search_text args'
      end
  end.
Definition wgrep_main (argv : list (list Z)) : C (list Z) Z :=
  match tail argv with
  | [] => put (bytes_of "wgrep: searchterm [file ...]" ++ [10]) ;; cret 1
  | search_text :: args =>
      if (length search_text =? 0)%nat then cret 0
      else match args with [] => grep stdin search_text ;; cret 0 | _ => wgrep_args search_text args end
  end.

(** * What they print *)

Definition text (l : list Z) : Prop := Forall (λ c, c ≠ 0) l.

Lemma cstring_text l : text l → cstring l = l.
Proof. induction 1 as [|c l Hc _ IH]; [done|]. cbn [cstring]. by rewrite (proj2 (Z.eqb_neq _ _) Hc), IH. Qed.

Lemma fgets_app k s : (fgets k s).1 ++ (fgets k s).2 = s.
Proof.
  revert s. induction k as [|k IH]; intros s; [done|]. destruct s as [|c s]; [done|]. cbn [fgets].
  destruct (c =? 10); [done|]. specialize (IH s). destruct (fgets k s). cbn in *. by rewrite IH.
Qed.
Lemma fgets_nil k s : (fgets (S k) s).1 = [] → s = [].
Proof. destruct s as [|c s]; [done|]. cbn [fgets]. destruct (c =? 10); [done|]. by destruct (fgets k s). Qed.
Lemma getline_app s : (getline s).1 ++ (getline s).2 = s.
Proof.
  induction s as [|c s IH]; [done|]. cbn [getline]. destruct (c =? 10); [done|]. destruct (getline s). cbn in *. by rewrite IH.
Qed.

Lemma wcat_loop_ok fuel s out : text s → (length s < fuel)%nat → wcat_loop fuel s out = COk tt (out ++ s).
Proof.
  revert s out. induction fuel as [|fuel IH]; intros s out Ht Hf; [lia|]. cbn [wcat_loop].
  pose proof (fgets_app 19 s) as Happ. destruct (fgets 19 s) as [[|c l] r] eqn:E.
  - rewrite (fgets_nil 18 s) by (by rewrite E). by rewrite app_nil_r.
  - cbn [fst snd] in Happ. subst s. apply Forall_app in Ht as [Hl Hr]. erewrite cbind_ok by reflexivity. rewrite cstring_text by done.
    rewrite IH; [by rewrite <- app_assoc|done|]. rewrite length_app in Hf. cbn [length] in Hf. lia.
Qed.
Lemma wcat_file_ok s out : text s → can_malloc = true → wcat_file s out = COk tt (out ++ s).
Proof. intros Ht Hm. unfold wcat_file. rewrite Hm. erewrite cbind_ok by reflexivity. apply wcat_loop_ok; [done|lia]. Qed.

(** The lines of a text, each with its newline. *)
Fixpoint lines_of (fuel : nat) (s : list Z) : list (list Z) :=
  match fuel with
  | O => []
  | S fuel' => match getline s with ([], _) => [] | (l, s) => l :: lines_of fuel' s end
  end.
Definition matching (search_text s : list Z) : list Z := concat (filter (λ l, strstr l search_text = true) (lines_of (S (length s)) s)).

(** The lines make up the text, and none has a newline but at its end. *)
Lemma lines_of_concat fuel s : (length s < fuel)%nat → concat (lines_of fuel s) = s.
Proof.
  revert s. induction fuel as [|fuel IH]; intros s Hf; [lia|]. cbn [lines_of]. pose proof (getline_app s) as Happ.
  destruct (getline s) as [[|c l] r] eqn:E; cbn [fst snd] in Happ.
  - destruct s as [|x s]; [done|]. exfalso. cbn [getline] in E. destruct (x =? 10); [done|]. by destruct (getline s).
  - cbn [concat]. rewrite IH; [done|]. subst s. rewrite length_app in Hf. cbn [length] in Hf. lia.
Qed.
Lemma getline_newline s k : (getline s).1 !! k = Some 10 → k = Nat.pred (length (getline s).1).
Proof.
  revert k. induction s as [|c s IH]; intros k Hk; [done|]. cbn [getline] in *. destruct (Z.eqb_spec c 10) as [->|Hc].
  - destruct k; [done|]. destruct k; done.
  - destruct (getline s) as [l r]. cbn [fst] in *. destruct k as [|k]; [cbn in Hk; congruence|].
    apply IH in Hk as Hk'. apply lookup_lt_Some in Hk. cbn [length] in *. lia.
Qed.
Lemma lines_of_newline fuel s l k : l ∈ lines_of fuel s → l !! k = Some 10 → k = Nat.pred (length l).
Proof.
  revert s. induction fuel as [|fuel IH]; intros s Hl; [by apply elem_of_nil in Hl|]. cbn [lines_of] in Hl.
  pose proof (getline_newline s k) as Hg. destruct (getline s) as [[|c x] r]; [by apply elem_of_nil in Hl|].
  apply elem_of_cons in Hl as [->|Hl]; [exact Hg|by eapply IH].
Qed.

Lemma grep_loop_ok fuel s t out :
  text s → (length s < fuel)%nat →
  grep_loop fuel s t out = COk tt (out ++ concat (filter (λ l, strstr l t = true) (lines_of fuel s))).
Proof.
  revert s out. induction fuel as [|fuel IH]; intros s out Ht Hf; [lia|].
  cbn [grep_loop lines_of]. pose proof (getline_app s) as Happ. destruct (getline s) as [[|c l] r] eqn:E; cbn [fst snd] in Happ.
  { by rewrite app_nil_r. }
  subst s. apply Forall_app in Ht as [Hl Hr]. rewrite cstring_text by done. rewrite length_app in Hf. cbn [length] in Hf.
  destruct (strstr (c :: l) t) eqn:Em; (erewrite cbind_ok by reflexivity); (rewrite IH; [|done|lia]).
  - rewrite filter_cons_True by done. cbn [concat]. by rewrite <- app_assoc.
  - by rewrite filter_cons_False by congruence.
Qed.
Lemma grep_ok s t out : text s → grep s t out = COk tt (out ++ matching t s).
Proof. intros Ht. apply grep_loop_ok; [done|lia]. Qed.

(** What is printed, and the exit status, when each file is printed by [f]. *)
Fixpoint each_output (f : list Z → list Z) (msg : list Z) (args : list (list Z)) : list Z * Z :=
  match args with
  | [] => ([], 0)
  | a :: args' => match files a with
                  | None => (msg ++ [10], 1)
                  | Some s => let '(o, r) := each_output f msg args' in (f s ++ o, r)
                  end
  end.
Context (Hfiles : ∀ a s, files a = Some s → text s).

Lemma wcat_args_ok args out :
  can_malloc = true →
  let '(o, r) := each_output id (bytes_of "wcat: cannot open file") args in wcat_args args out = COk r (out ++ o).
Proof using Hfiles.
  intros Hm. revert out. induction args as [|a args IH]; intros out; cbn [each_output wcat_args]; [by rewrite app_nil_r|].
  destruct (files a) as [s|] eqn:Ea; [|done]. specialize (IH (out ++ s)). destruct (each_output _ _ args) as [o r].
  erewrite cbind_ok by (by apply wcat_file_ok, Hm; eapply Hfiles). rewrite IH. by rewrite <- app_assoc.
Qed.
Lemma wgrep_args_ok t args out :
  let '(o, r) := each_output (matching t) (bytes_of "wgrep: cannot open file") args in wgrep_args t args out = COk r (out ++ o).
Proof using Hfiles.
  revert out. induction args as [|a args IH]; intros out; cbn [each_output wgrep_args]; [by rewrite app_nil_r|].
  destruct (files a) as [s|] eqn:Ea; [|done]. specialize (IH (out ++ matching t s)). destruct (each_output _ _ args) as [o r].
  erewrite cbind_ok by (apply grep_ok; by eapply Hfiles). rewrite IH. by rewrite <- app_assoc.
Qed.
End utils.

(** [wcat] prints its files one after the other; at the first that cannot be opened it
    prints a message and returns 1. *)
Theorem wcat_prints files argv :
  (∀ a s, files a = Some s → text s) →
  let '(o, r) := each_output files id (bytes_of "wcat: cannot open file") (tail argv) in wcat_main files true argv [] = COk r o.
Proof.
  intros Hf. pose proof (wcat_args_ok files true Hf (tail argv) [] eq_refl) as H.
  destruct (each_output files id (bytes_of "wcat: cannot open file") (tail argv)) as [o r] eqn:E.
  unfold wcat_main. destruct (Nat.ltb_spec (length argv) 2) as [Hl|]; [|exact H].
  destruct argv as [|a [|b argv]]; [by injection E as <- <-..|cbn in Hl; lia].
Qed.
(** The first version prints two messages around the file. *)
Theorem wcat1_prints files argv0 a s :
  files a = Some s → text s →
  wcat1_main files true [argv0; a] [] = COk 0 (bytes_of "Opened the file" ++ [10] ++ s ++ bytes_of "Closed the file" ++ [10]).
Proof.
  intros Ha Hs. unfold wcat1_main. cbn [length Nat.ltb Nat.leb]. erewrite cbind_ok by reflexivity. cbn [lookup_total list_lookup_total].
  rewrite Ha. erewrite cbind_ok by (by apply wcat_file_ok). erewrite cbind_ok by reflexivity.
  unfold cret. rewrite <- !app_assoc. reflexivity.
Qed.

(** [wgrep] prints, of its files or of the standard input, the lines that contain the
    search term, whole and in order, and nothing else; it stops with a message and the
    status 1 at the first file that cannot be opened, and prints nothing when the term is
    empty. *)
Theorem wgrep_prints files stdin argv0 t args :
  (∀ a s, files a = Some s → text s) → text stdin →
  let '(o, r) := if decide (t = []) then ([], 0)
                 else match args with [] => (matching t stdin, 0) | _ => each_output files (matching t) (bytes_of "wgrep: cannot open file") args end in
  wgrep_main files stdin (argv0 :: t :: args) [] = COk r o.
Proof.
  intros Hf Hs. unfold wgrep_main. cbn [tail]. destruct t as [|c t]; [done|]. rewrite decide_False by done. cbn [length Nat.eqb].
  destruct args as [|a args]; [by rewrite (cbind_ok _ _ _ _ _ (grep_ok stdin (c :: t) [] Hs))|].
  exact (wgrep_args_ok files Hf (c :: t) (a :: args) []).
Qed.

Lemma wgrep_prints_witness :
  let f a := if decide (a = [102]) then Some (bytes_of "one" ++ [10] ++ bytes_of "two" ++ [10] ++ bytes_of "none") else None in
  wgrep_main f [] [[]; bytes_of "ne"; [102]; [103]] [] =
  COk 1 (bytes_of "one" ++ [10] ++ bytes_of "none" ++ bytes_of "wgrep: cannot open file" ++ [10]).
Proof.
  intros f. assert (∀ a s, f a = Some s → text s) as Hf.
  { intros a s. unfold f. case_decide; [|done]. intros [= <-]. apply (bool_decide_unpack _). vm_compute. exact I. }
  exact (wgrep_prints f [] [] (bytes_of "ne") [[102]; [103]] Hf (Forall_nil_2 _)).
Defined.
